(* ===== verification/_CoqProject ===== *)
-Q . S2P
Prelude.v
ChaCha20.v
Poly1305.v
Streaming.v
Md5.v
Sha2.v
Sha1.v
Pbkdf2.v
RijndaelTables.v
Rijndael.v
RijndaelModes.v
CodecAlgos.v
CipherCommon.v
CipherAES.v
CipherChaCha20.v
CipherSqlCipher.v
CipherConfig.v
Codec.v
CodecTable.v
CodecExt.v
Vfs.v
VfsFiles.v
Varint.v
Bitvec.v
MemJournal.v
ScBytes.v
ScText.v
ScHeap.v
ScProvider.v
ScOpenSsl.v
ScContext.v
ScKeys.v
ScPage.v
ScReopen.v
ScIntegrity.v
ScPragma.v
ScSettings.v
ScInit.v
ScDatabase.v
ScWorld.v
ScExamples.v
ShSha3.v
ShSha1.v
ShQuery.v
ShBase64.v
ShBase85.v
HashTable.v
RowSet.v
Prng.v
