(* ===== verification/Prelude.v ===== *)
(** * Encryption at rest and storage in galvanize

    galvanize is a distributed SQLite database whose local files can be encrypted.  The
    encryption and the storage are C code that its crate galv-libsqlite3-sys compiles:
    sqlcipher/sqlite3.c is SQLite with SQLCipher, sqlite3/sqlite3.c is SQLite with the
    codec of SQLite3 Multiple Ciphers, and sqlite3mc/shell3mc_amalgamation.c is the SQL
    shell with its extensions.  (Paths are below src/crates/galv-libsqlite3-sys.)  This
    development models parts of the three as executable definitions that keep the names of
    the C functions, and proves that each part does what it promises, or exactly when it
    does not.

    ** SQLCipher (sqlcipher/sqlite3.c): the files Sc*

    A connection gets a codec for a database when it is given a key; the codec derives its
    keys from the passphrase and the salt in the file, and the pager passes every page it
    reads or writes through it.  From the bottom up:

    - [ScBytes]: hexadecimal text, comparison in constant time, masks, the noise generator.
    - [ScText]: comparison without regard to case, and the reading of numbers and booleans
      in settings (util.c, pragma.c, with atoi and %d of the C library).
    - [ScHeap]: the private heap, as the bytes of its region with the headers of the blocks.
    - [ScProvider]: the table of functions of a provider, its laws [ProviderLaws], and the
      list of providers.  [ScOpenSsl] is the provider for OpenSSL, over the class
      [OpenSSL] of the library functions it calls; it is an instance of [ProviderLaws].
    - [ScContext]: the records cipher_ctx and codec_ctx and the functions that create, set
      and release them.  The allocator is the class [Memory], the file the class [Store].
    - [ScKeys]: raw keys, derivation, the key specification.  [ScPage]: authentication and
      encryption of a page, and sqlite3Codec.  [ScIntegrity]: the check of a whole file.
    - [ScPragma], [ScSettings]: the PRAGMA statements and their dispatch.
    - [ScInit]: start and shutdown.  [ScDatabase]: sqlcipherCodecAttach, sqlite3_key_v2,
      sqlite3_rekey_v2, sqlcipherCodecGetKey.
    - [ScReopen] composes keys and pages over two connections.  [ScWorld] instantiates
      every class by a concrete environment, with OpenSSL played by the primitives of this
      library, and proves the laws; [ScExamples] applies the theorems there.

    What the theorems show.  A database that was written under a passphrase is read back by
    a connection that has only the file and the passphrase; a page is accepted exactly when
    its stored code is that of its contents, and the error of a rejected page is final; keys
    are what the documented derivation gives; the check of a file lists exactly its bad
    pages; no call of the codec leaves its buffers, for any history of calls; settings keep
    their types and bounds, and those that a file depends on do not change while a key is in
    use; blocks of the heap never overlap, are wiped when they are released, and
    become one free block again; a start of the library ends with everything in place, or as
    it was before, or, when it fails after its provider was registered, with a pointer into
    the released heap that the next start uses.  Theorems of kind error show where the code
    differs from its intention: a plain header that no longer fits, a failed start after
    which a database is not encrypted, a failed change of a key that is reported as success.

    ** SQLite core (sqlite3/sqlite3.c)

    - [Varint] (util.c): integers of the file format in one to nine bytes.
    - [Bitvec] (bitvec.c): the sets of page numbers of the pager.
    - [MemJournal] (memjournal.c): the journal that is in memory until it moves to a file.
    - [HashTable] (hash.c): the symbol tables, with every pointer of their linked list.
    - [RowSet] (rowset.c): sets of row numbers with their merge sort and forest of trees.
    - [Prng] (random.c): the random numbers, from ChaCha20 blocks.

    Each of these refines a simple abstract object: a set, a map whose keys are compared
    without regard to case, a file of bytes, a set with batches, the key streams of RFC 7539
    for the seeds taken, of which no byte is handed out twice.  The refinements hold for
    every sequence of operations, with allocations that fail at any place where the theorem
    does not say otherwise; for the journal, what it does when memory or the real file fails
    is a theorem of its own.

    ** Extensions of the shell (sqlite3mc/shell3mc_amalgamation.c): the files Sh*

    [ShSha3] and [ShSha1] are the hash engines of shathree.c and sha1.c, [ShQuery] their SQL
    functions, among them the hash of all rows of a query, [ShBase64] and [ShBase85] the
    encodings.  The hashes are those of FIPS 202 and FIPS 180 however the input is cut; the
    bytes that are hashed for a query determine its statements and rows; encoded blobs can be concatenated and decoded, and both decoders
    stay within their buffers.  Two theorems show inputs on which the code goes wrong: white
    space inside a base64 group, and a single step of 512 MiB in SHA-1.

    ** Library of primitives and of the codec of SQLite3 Multiple Ciphers

    The remaining files follow the codec of SQLite3 Multiple Ciphers in sqlite3/sqlite3.c.
    That code stands after the first eight million bytes of the amalgamation, beyond the
    part to whose lines the definitions of this development are mapped; so these files are
    a library here, from which the other parts take standards, primitives and interfaces.
    Definitions whose text is the same in the shell or in random.c (the macros of SHA-1,
    the quarter round of ChaCha20) are mapped to that code.

    - [ChaCha20], [Poly1305], [Streaming], [Md5], [Sha1], [Sha2], [Pbkdf2],
      [RijndaelTables], [Rijndael], [RijndaelModes]: the primitives, shown to compute what
      RFC 1321, FIPS 180, RFC 2104, RFC 8018, FIPS 197 and RFC 8439 define.  The standards
      are separate, direct definitions.
    - [CodecAlgos], [CipherCommon], [CipherAES], [CipherChaCha20], [CipherSqlCipher]: the
      page ciphers, as instances of the class [PageCipher].
    - [CipherConfig], [Codec], [CodecTable], [CodecExt], [Vfs], [VfsFiles]: configuration,
      codec, rekeying and the file-system shim, over [PageCipher] and [FileOps].

    ** How the code is represented

    Integers are [Z]; every operation that can wrap is wrapped with [u8], [u32] or [u64] at
    the place where the C type narrows.  Arrays are [list Z], [l.[i]] is an element and
    [l.[i <- v]] an assignment; a buffer argument with an offset stands for a pointer into
    it.  Functions that change their argument return the new value.  [None] is returned
    where the C code would crash, leave a buffer or not end.  Uninitialised memory is an
    argument of the definitions that read it.  The byte order of the host is the argument
    [le] of the definitions that depend on it.  Code that is not part of the repository
    (OpenSSL, the C library, the operating system) is a class or an argument; what is relied
    on is a class of laws with an instance, and allocations that may fail are arguments.

    Loops that are not structural take fuel: the length of the input plus one, the number of
    elements on a list, or one step per slot of a table.  The theorems state the result
    itself, not that a result is right if there is one, so they show that the fuel is
    enough.  The sort of a row set has forty buckets as in the code, and is shown to be
    defined below 2^40 entries; a divided bitmap has five levels, which hold all numbers of
    32 bits.

    ** Not modelled

    - The SQL compiler, the virtual machine, the B-tree, the pager and the operating system
      layer: they are the environment of the parts above, in the classes [Store], [Btree],
      [Engine] and [FileOps], as far as their results matter.
    - In SQLCipher: migration and export, which run SQL on connections that they open, and
      the files of the log.
    - Mutexes and the interleaving of threads; the release of memory where nothing reads it.
    - Hardware AES, Argon2, AEGIS and Ascon, the other extensions of SQLite and the shell,
      and the further copies of the amalgamations, which repeat the code.
    - The Rust, Go and script parts of galvanize: services around network and file I/O. *)

From Stdlib Require Import ZArith Lia List Bool.
Import ListNotations.
Local Open Scope Z_scope.

(** ** Arrays and byte buffers

    A C array of integers is a [list Z]; [l .[ i ]] reads an element and
    [l .[ i <- v ]] is the array after the assignment [l[i] = v].  [memcpy]
    and [slice] are the writes and reads of a run of bytes. *)

Declare Scope mem_scope.
Delimit Scope mem_scope with mem.
Open Scope mem_scope.

Fixpoint upd {A} (l : list A) (i : nat) (v : A) : list A :=
  match l, i with
  | [], _ => []
  | _ :: l, O => v :: l
  | x :: l, S i => x :: upd l i v
  end.

Notation "l .[ i ]" := (nth i l 0)
  (at level 1, left associativity, format "l .[ i ]") : mem_scope.
Notation "l .[ i <- v ]" := (upd l i v)
  (at level 1, left associativity, format "l .[ i  <-  v ]") : mem_scope.

Definition slice {A} (l : list A) (off n : nat) : list A :=
  firstn n (skipn off l).

Definition memcpy {A} (dst : list A) (off : nat) (src : list A) : list A :=
  firstn off dst ++ src ++ skipn (off + length src) dst.

Definition memset (v : Z) (n : nat) : list Z := repeat v n.

(** ** Machine words *)

Definition u8 (x : Z) : Z := Z.land x 0xFF.
Definition u32 (x : Z) : Z := Z.land x 0xFFFFFFFF.
Definition u64 (x : Z) : Z := Z.land x 0xFFFFFFFFFFFFFFFF.

Definition is_byte (b : Z) : Prop := 0 <= b < 256.
Definition is_u32 (x : Z) : Prop := 0 <= x < 2 ^ 32.
Definition bytes (l : list Z) : Prop := Forall is_byte l.

(** Elementwise exclusive or; the shorter operand bounds the result. *)
Fixpoint xor_list (a b : list Z) : list Z :=
  match a, b with
  | x :: a, y :: b => Z.lxor x y :: xor_list a b
  | _, _ => []
  end.

(** Little-endian value of a byte string, as a mathematical integer. *)
Fixpoint le_num (l : list Z) : Z :=
  match l with
  | [] => 0
  | b :: l => b + 256 * le_num l
  end.

(** ** Automation

    [mem] collects the length and lookup equations of the buffer operations,
    for [autorewrite with mem]; [words] collects the range facts, for
    [auto with words]. *)

Create HintDb words.
Create Rewrite HintDb mem.

Ltac split_and :=
  repeat match goal with
         | H : _ /\ _ |- _ => destruct H
         | |- _ /\ _ => split
         end.

(** Case analysis on the boolean tests of the code. *)
Ltac case_bool :=
  match goal with
  | |- context [if (?a =? ?b) then _ else _] => destruct (Z.eqb_spec a b)
  | |- context [if (?a <? ?b) then _ else _] => destruct (Z.ltb_spec a b)
  | |- context [if (?a <=? ?b) then _ else _] => destruct (Z.leb_spec a b)
  | H : context [if (?a =? ?b) then _ else _] |- _ => destruct (Z.eqb_spec a b)
  | H : context [if (?a <? ?b) then _ else _] |- _ => destruct (Z.ltb_spec a b)
  | H : context [if (?a <=? ?b) then _ else _] |- _ => destruct (Z.leb_spec a b)
  end.

(** *** Words *)

(** Equalities of bitwise expressions, bit by bit. *)
Ltac bitwise :=
  apply Z.bits_inj'; let i := fresh in let Hi := fresh in intros i Hi;
  repeat rewrite ?Z.lxor_spec, ?Z.land_spec, ?Z.lor_spec, ?Z.lnot_spec by lia;
  repeat match goal with |- context [Z.testbit ?x ?j] => destruct (Z.testbit x j) end;
  reflexivity.

Lemma u8_mod x : u8 x = x mod 256.
Proof. unfold u8. change 0xFF with (Z.ones 8). now rewrite Z.land_ones. Qed.

Lemma u32_mod x : u32 x = x mod 2 ^ 32.
Proof. unfold u32. change 0xFFFFFFFF with (Z.ones 32). now rewrite Z.land_ones. Qed.

Lemma u64_mod x : u64 x = x mod 2 ^ 64.
Proof.
  unfold u64. change 0xFFFFFFFFFFFFFFFF with (Z.ones 64). now rewrite Z.land_ones.
Qed.

Lemma u8_range x : is_byte (u8 x).
Proof. unfold is_byte. rewrite u8_mod. now apply Z.mod_pos_bound. Qed.

Lemma u32_range x : is_u32 (u32 x).
Proof. unfold is_u32. rewrite u32_mod. now apply Z.mod_pos_bound. Qed.

Lemma u8_small x : is_byte x -> u8 x = x.
Proof. unfold is_byte. intros. rewrite u8_mod. now apply Z.mod_small. Qed.

Lemma u32_small x : is_u32 x -> u32 x = x.
Proof. unfold is_u32. intros. rewrite u32_mod. now apply Z.mod_small. Qed.

Lemma u64_small x : 0 <= x < 2 ^ 64 -> u64 x = x.
Proof. intros. rewrite u64_mod. now apply Z.mod_small. Qed.

Lemma u32_add_l x y : u32 (u32 x + y) = u32 (x + y).
Proof. rewrite !u32_mod. now rewrite Zplus_mod_idemp_l. Qed.

Lemma testbit_high n a i : 0 <= a < 2 ^ n -> n <= i -> Z.testbit a i = false.
Proof.
  intros Ha Hi. destruct (Z.neg_nonneg_cases n).
  - rewrite Z.pow_neg_r in Ha by lia. lia.
  - rewrite <- (Z.mod_small a (2 ^ n)) by lia. apply Z.mod_pow2_bits_high. lia.
Qed.

(** A word whose bits from [n] on are clear is below [2 ^ n]. *)
Lemma range_of_bits n a :
  0 <= n -> (forall i, n <= i -> Z.testbit a i = false) -> 0 <= a < 2 ^ n.
Proof.
  intros Hn H. replace a with (a mod 2 ^ n).
  - apply Z.mod_pos_bound. apply Z.pow_pos_nonneg; lia.
  - apply Z.bits_inj'. intros i Hi. destruct (Z.lt_ge_cases i n).
    + now rewrite Z.mod_pow2_bits_low.
    + rewrite Z.mod_pow2_bits_high by lia. symmetry. now apply H.
Qed.

(** The exclusive or of two [n]-bit words is an [n]-bit word. *)
Lemma lxor_range n x y :
  0 <= n -> 0 <= x < 2 ^ n -> 0 <= y < 2 ^ n -> 0 <= Z.lxor x y < 2 ^ n.
Proof.
  intros Hn Hx Hy. apply range_of_bits; [lia|]. intros i Hi.
  now rewrite Z.lxor_spec, (testbit_high n x), (testbit_high n y).
Qed.

Lemma lxor_byte x y : is_byte x -> is_byte y -> is_byte (Z.lxor x y).
Proof. apply (lxor_range 8). lia. Qed.

Lemma lxor_u32 x y : is_u32 x -> is_u32 y -> is_u32 (Z.lxor x y).
Proof. apply (lxor_range 32). lia. Qed.

#[export] Hint Resolve u8_range u32_range lxor_byte lxor_u32 : words.

Lemma lxor_invol x k : Z.lxor (Z.lxor x k) k = x.
Proof. now rewrite Z.lxor_assoc, Z.lxor_nilpotent, Z.lxor_0_r. Qed.

(** Joining a low part and a shifted high part is an addition. *)
Lemma add_shiftl_lxor n a b :
  0 <= n -> 0 <= a < 2 ^ n -> a + Z.shiftl b n = Z.lxor a (Z.shiftl b n).
Proof.
  intros Hn Ha. apply Z.add_nocarry_lxor. apply Z.bits_inj'. intros i Hi.
  rewrite Z.land_spec, Z.shiftl_spec, Z.bits_0 by lia.
  destruct (Z.lt_ge_cases i n).
  - rewrite (Z.testbit_neg_r b) by lia. apply andb_false_r.
  - now rewrite (testbit_high n a).
Qed.

Lemma lor_shiftl n a b :
  0 <= n -> 0 <= a < 2 ^ n -> Z.lor a (Z.shiftl b n) = a + b * 2 ^ n.
Proof.
  intros Hn Ha. rewrite <- Z.shiftl_mul_pow2, (add_shiftl_lxor n) by lia.
  apply Z.bits_inj'. intros i Hi.
  rewrite Z.lor_spec, Z.lxor_spec, Z.shiftl_spec by lia.
  destruct (Z.lt_ge_cases i n).
  - rewrite (Z.testbit_neg_r b) by lia. now destruct (Z.testbit a i).
  - now rewrite (testbit_high n a).
Qed.

(** Exclusive or works digit by digit in base [2 ^ n]. *)
Lemma lxor_digits n a b x y :
  0 <= n -> 0 <= a < 2 ^ n -> 0 <= b < 2 ^ n ->
  Z.lxor (a + x * 2 ^ n) (b + y * 2 ^ n) = Z.lxor a b + Z.lxor x y * 2 ^ n.
Proof.
  intros Hn Ha Hb. pose proof (lxor_range n a b Hn Ha Hb).
  rewrite <- !Z.shiftl_mul_pow2, !(add_shiftl_lxor n), Z.shiftl_lxor by lia.
  rewrite <- !Z.lxor_assoc. f_equal. rewrite !Z.lxor_assoc. f_equal.
  apply Z.lxor_comm.
Qed.

(** *** Arrays *)

Lemma length_upd {A} (l : list A) i v : length (l.[i <- v]) = length l.
Proof. revert i. induction l; intros [|i]; simpl; auto. Qed.

Lemma nth_upd_eq (l : list Z) i v : (i < length l)%nat -> l.[i <- v].[i] = v.
Proof. revert i. induction l; intros [|i]; simpl; try lia. intros. apply IHl. lia. Qed.

Lemma nth_upd_ne (l : list Z) i j v : i <> j -> l.[i <- v].[j] = l.[j].
Proof. revert i j. induction l; intros [|i] [|j]; simpl; auto; lia. Qed.

Lemma Forall_upd {A} (P : A -> Prop) l i v :
  Forall P l -> P v -> Forall P (l.[i <- v]).
Proof.
  intros H Hv. revert i. induction H; intros [|i]; simpl; auto.
Qed.

Lemma Forall_nth_default (P : Z -> Prop) l i : P 0 -> Forall P l -> P (l.[i]).
Proof.
  intros H0 H. revert i. induction H; intros [|i]; simpl; auto.
Qed.

(** *** Byte buffers *)

Lemma length_slice {A} (l : list A) off n :
  (off + n <= length l)%nat -> length (slice l off n) = n.
Proof. intros. unfold slice. rewrite length_firstn, length_skipn. lia. Qed.

Lemma length_memcpy {A} (l : list A) off k :
  (off + length k <= length l)%nat -> length (memcpy l off k) = length l.
Proof.
  intros. unfold memcpy.
  rewrite !length_app, length_firstn, length_skipn. lia.
Qed.

Lemma length_memset v n : length (memset v n) = n.
Proof. apply repeat_length. Qed.

Lemma firstn_app_l {A} (a b : list A) n : length a = n -> firstn n (a ++ b) = a.
Proof. intros <-. rewrite firstn_app, Nat.sub_diag, firstn_all. apply app_nil_r. Qed.

Lemma skipn_app_l {A} (a b : list A) n : length a = n -> skipn n (a ++ b) = b.
Proof. intros <-. now rewrite skipn_app, Nat.sub_diag, skipn_all. Qed.

Lemma skipn_app_plus {A} (a b : list A) n m :
  length a = n -> skipn (n + m) (a ++ b) = skipn m b.
Proof.
  intros <-. rewrite skipn_app, skipn_all2 by lia. simpl. f_equal. lia.
Qed.

(** Overwriting the middle of a concatenation. *)
Lemma memcpy_app {A} (a b c k : list A) n :
  length a = n -> length k = length b -> memcpy (a ++ b ++ c) n k = a ++ k ++ c.
Proof.
  intros Ha Hk. unfold memcpy.
  rewrite (firstn_app_l a), (skipn_app_plus a), Hk by auto.
  now rewrite (skipn_app_l b).
Qed.

Lemma memcpy_app_end {A} (a b k : list A) n :
  length a = n -> length k = length b -> memcpy (a ++ b) n k = a ++ k.
Proof.
  intros. rewrite <- (app_nil_r b), memcpy_app, app_nil_r; auto.
Qed.

Lemma slice_app {A} (a b c : list A) n m :
  length a = n -> length b = m -> slice (a ++ b ++ c) n m = b.
Proof.
  intros Ha Hb. unfold slice. rewrite (skipn_app_l a) by auto. now apply firstn_app_l.
Qed.

Lemma slice_app_end {A} (a b : list A) n m :
  length a = n -> length b = m -> slice (a ++ b) n m = b.
Proof.
  intros Ha <-. unfold slice. rewrite (skipn_app_l a) by auto. apply firstn_all.
Qed.

(** The three parts of a buffer around a slice. *)
Lemma slice_split {A} (l : list A) off n :
  l = firstn off l ++ slice l off n ++ skipn (off + n) l.
Proof.
  unfold slice. rewrite Nat.add_comm, <- skipn_skipn, firstn_skipn, firstn_skipn.
  reflexivity.
Qed.

Lemma firstn_plus {A} (l : list A) n m :
  firstn (n + m) l = firstn n l ++ firstn m (skipn n l).
Proof. revert l. induction n; intros [|x l]; simpl; auto; [now destruct m|now f_equal]. Qed.

Lemma slice_plus {A} (l : list A) off n m :
  slice l off (n + m) = slice l off n ++ slice l (off + n) m.
Proof.
  unfold slice. rewrite firstn_plus, skipn_skipn. do 3 f_equal. lia.
Qed.

Lemma nth_slice (l : list Z) off n i :
  (i < n)%nat -> (slice l off n).[i] = l.[off + i].
Proof.
  intros. unfold slice. rewrite nth_firstn. destruct (Nat.ltb_spec i n); [|lia].
  apply nth_skipn.
Qed.

Lemma bytes_cons x l : bytes (x :: l) <-> is_byte x /\ bytes l.
Proof. apply Forall_cons_iff. Qed.

Lemma bytes_app a b : bytes (a ++ b) <-> bytes a /\ bytes b.
Proof. apply Forall_app. Qed.

Lemma bytes_firstn n l : bytes l -> bytes (firstn n l).
Proof. intros H. rewrite <- (firstn_skipn n l) in H. now apply bytes_app in H. Qed.

Lemma bytes_skipn n l : bytes l -> bytes (skipn n l).
Proof. intros H. rewrite <- (firstn_skipn n l) in H. now apply bytes_app in H. Qed.

Lemma bytes_slice l off n : bytes l -> bytes (slice l off n).
Proof. intros. now apply bytes_firstn, bytes_skipn. Qed.

Lemma bytes_memcpy l off k : bytes l -> bytes k -> bytes (memcpy l off k).
Proof.
  intros. unfold memcpy. rewrite !bytes_app.
  auto using bytes_firstn, bytes_skipn.
Qed.

Lemma bytes_memset v n : is_byte v -> bytes (memset v n).
Proof. intros. apply Forall_forall. intros x Hx. now apply repeat_spec in Hx as ->. Qed.

Lemma bytes_nth l i : bytes l -> is_byte (l.[i]).
Proof. apply Forall_nth_default. unfold is_byte. lia. Qed.

#[export] Hint Resolve bytes_firstn bytes_skipn bytes_slice bytes_memcpy bytes_memset
  bytes_nth : words.
#[export] Hint Rewrite @length_upd @length_app @length_firstn @length_skipn
  length_memset @length_rev @length_map @repeat_length : mem.

(** *** Elementwise exclusive or *)

Lemma length_xor_list a b : length (xor_list a b) = Nat.min (length a) (length b).
Proof. revert b. induction a; intros [|y b]; simpl; auto. Qed.

Lemma xor_list_invol a k :
  (length a <= length k)%nat -> xor_list (xor_list a k) k = a.
Proof.
  revert k. induction a; intros [|y k] H; simpl in *; auto; try lia.
  rewrite lxor_invol. f_equal. apply IHa. lia.
Qed.

Lemma xor_list_app a b a' b' :
  length a = length a' -> xor_list (a ++ b) (a' ++ b') = xor_list a a' ++ xor_list b b'.
Proof.
  revert a'. induction a; intros [|y a'] H; simpl in *; auto; try discriminate.
  f_equal. apply IHa. congruence.
Qed.

Lemma xor_list_firstn a k : xor_list a k = xor_list a (firstn (length a) k).
Proof. revert k. induction a; intros [|y k]; simpl; auto. now rewrite <- IHa. Qed.

Lemma bytes_xor_list a b : bytes a -> bytes b -> bytes (xor_list a b).
Proof.
  intros Ha. revert b. induction Ha; intros b Hb; [constructor|].
  destruct Hb; simpl; [constructor|]. constructor; auto with words.
  now apply IHHa.
Qed.

Lemma nth_xor_list a b i :
  (i < length a)%nat -> (i < length b)%nat ->
  (xor_list a b).[i] = Z.lxor a.[i] b.[i].
Proof.
  revert b i. induction a; intros [|y b] [|i]; simpl; try lia; auto.
  intros. apply IHa; lia.
Qed.

#[export] Hint Resolve bytes_xor_list : words.
#[export] Hint Rewrite length_xor_list : mem.

(** *** Little-endian numbers *)

Lemma le_num_app a b : le_num (a ++ b) = le_num a + 256 ^ Z.of_nat (length a) * le_num b.
Proof.
  induction a; cbn [app le_num length]; [change (256 ^ Z.of_nat 0) with 1; lia|].
  rewrite IHa, Nat2Z.inj_succ, Z.pow_succ_r by lia. ring.
Qed.

Lemma le_num_range l : bytes l -> 0 <= le_num l < 256 ^ Z.of_nat (length l).
Proof.
  induction 1 as [|b l Hb _ IH]; cbn [le_num length]; [simpl; lia|].
  unfold is_byte in Hb. rewrite Nat2Z.inj_succ, Z.pow_succ_r by lia.
  set (P := 256 ^ Z.of_nat (length l)) in *. lia.
Qed.

Lemma le_num_inj a b :
  bytes a -> bytes b -> length a = length b -> le_num a = le_num b -> a = b.
Proof.
  intros Ha. revert b. induction Ha as [|x a Hx Ha IH]; intros [|y b] Hb Hl He;
    try discriminate; auto.
  inversion Hb; subst. unfold is_byte in *. cbn [le_num] in He.
  assert (x = y) by lia. assert (le_num a = le_num b) by lia.
  subst. f_equal. apply IH; auto.
Qed.

(** ** Block processing

    A byte string cut into [n]-byte blocks, as the loops over pages and over
    hash blocks consume it.  [fuel] bounds the number of blocks; the length of
    the string always suffices. *)

Fixpoint blocks_fuel {A} (fuel n : nat) (l : list A) : list (list A) :=
  match fuel with
  | O => []
  | S fuel => match l with
              | [] => []
              | _ => firstn n l :: blocks_fuel fuel n (skipn n l)
              end
  end.

Definition blocks {A} (n : nat) (l : list A) : list (list A) :=
  blocks_fuel (length l) n l.

Lemma blocks_fuel_enough {A} fuel n (l : list A) :
  (0 < n)%nat -> (length l <= fuel)%nat -> blocks_fuel fuel n l = blocks n l.
Proof.
  intros Hn. unfold blocks.
  enough (H : forall k m, (length l <= k)%nat -> (length l <= m)%nat ->
            blocks_fuel k n l = blocks_fuel m n l) by (intros; now apply H).
  intros k. revert l. induction k as [|k IH]; intros l m Hk Hm.
  - destruct l; [now destruct m|simpl in Hk; lia].
  - destruct l as [|x l]; [now destruct m|].
    destruct m as [|m]; [simpl in Hm; lia|]. cbn [blocks_fuel]. f_equal.
    assert (length (skipn n (x :: l)) <= length l)%nat
      by (rewrite length_skipn; cbn [length]; lia).
    simpl in Hk, Hm. apply IH; lia.
Qed.

Lemma blocks_cons {A} n (l : list A) :
  (0 < n)%nat -> l <> [] -> blocks n l = firstn n l :: blocks n (skipn n l).
Proof.
  intros Hn Hl. unfold blocks at 1. destruct l as [|x l]; [easy|].
  cbn [length blocks_fuel]. f_equal. apply blocks_fuel_enough; auto.
  rewrite length_skipn. cbn [length]. lia.
Qed.

Lemma blocks_nil {A} n : @blocks A n [] = [].
Proof. reflexivity. Qed.

(** Cutting a string whose first part is one whole block. *)
Lemma blocks_app_one {A} n (a b : list A) :
  (0 < n)%nat -> length a = n -> blocks n (a ++ b) = a :: blocks n b.
Proof.
  intros Hn Ha. rewrite blocks_cons; auto.
  - now rewrite firstn_app_l, skipn_app_l.
  - destruct a; simpl in *; [lia|discriminate].
Qed.

Lemma blocks_app {A} n k (a b : list A) :
  (0 < n)%nat -> length a = (k * n)%nat -> blocks n (a ++ b) = blocks n a ++ blocks n b.
Proof.
  intros Hn. revert a. induction k as [|k IH]; intros a Ha.
  - destruct a; [reflexivity|discriminate].
  - simpl in Ha. rewrite <- (firstn_skipn n a).
    assert (Hf : length (firstn n a) = n) by (rewrite length_firstn; lia).
    assert (Hs : length (skipn n a) = (k * n)%nat) by (rewrite length_skipn; lia).
    generalize dependent (skipn n a). generalize dependent (firstn n a). clear a Ha.
    intros x Hx y Hy. rewrite <- app_assoc, !(blocks_app_one n x) by auto.
    cbn [app]. f_equal. now apply IH.
Qed.

Lemma concat_blocks {A} n (l : list A) : (0 < n)%nat -> concat (blocks n l) = l.
Proof.
  intros Hn. induction l as [l IH] using
    (well_founded_induction (Wf_nat.well_founded_ltof _ (@length A))).
  destruct l as [|x l]; [reflexivity|].
  rewrite blocks_cons by easy. cbn [concat]. rewrite IH.
  - apply firstn_skipn.
  - unfold Wf_nat.ltof. rewrite length_skipn. cbn [length]. lia.
Qed.

Lemma fold_left_cons {A B} (f : A -> B -> A) x l a :
  fold_left f (x :: l) a = fold_left f l (f a x).
Proof. reflexivity. Qed.

Lemma upd_split {A} (l : list A) i v :
  (i < length l)%nat -> l.[i <- v] = firstn i l ++ [v] ++ skipn (S i) l.
Proof.
  revert i. induction l as [|x l IH]; intros [|i] Hi; simpl in *; try lia; [reflexivity|].
  f_equal. apply IH. lia.
Qed.

(** Overwriting the part of a buffer that follows its first [n] elements. *)
Lemma firstn_memcpy_end {A} (l k : list A) n m :
  (n + length k = m)%nat -> (m <= length l)%nat ->
  firstn m (memcpy l n k) = firstn n l ++ k.
Proof.
  intros Hm Hl. unfold memcpy. rewrite app_assoc. apply firstn_app_l.
  rewrite length_app, firstn_length_le; lia.
Qed.

Lemma memset_app v n m : memset v (n + m) = memset v n ++ memset v m.
Proof. apply repeat_app. Qed.

(** A decidable fact about bytes, checked on all of them. *)
Definition all_bytes : list Z := map Z.of_nat (seq 0 256).

Lemma forall_bytes (f : Z -> bool) : forallb f all_bytes = true -> forall b, is_byte b -> f b = true.
Proof.
  intros H b Hb. rewrite forallb_forall in H. apply H. unfold all_bytes. apply in_map_iff.
  exists (Z.to_nat b). rewrite in_seq. unfold is_byte in Hb. lia.
Qed.

Lemma nth_map_seq (f : nat -> Z) n i : (i < n)%nat -> (map f (seq 0 n)).[i] = f i.
Proof.
  intros Hi. rewrite (nth_indep _ 0 (f 0%nat)) by (rewrite length_map, length_seq; lia).
  now rewrite map_nth, seq_nth.
Qed.

Lemma map_nth_seq (l : list Z) n : length l = n -> map (fun i => l.[i]) (seq 0 n) = l.
Proof.
  intros Hl. apply (nth_ext _ _ 0 0); rewrite length_map, length_seq; [auto|].
  intros i Hi. now rewrite (nth_map_seq (fun i => l.[i])) by auto.
Qed.

Lemma map_lxor_seq (a b : list Z) n :
  length a = n -> length b = n -> map (fun i => Z.lxor a.[i] b.[i]) (seq 0 n) = xor_list a b.
Proof.
  intros Ha Hb. apply (nth_ext _ _ 0 0); rewrite length_map, length_seq.
  - rewrite length_xor_list. lia.
  - intros i Hi. rewrite (nth_map_seq (fun i => Z.lxor a.[i] b.[i])), nth_xor_list by lia. reflexivity.
Qed.

Lemma flat_map_nth_seq (f : Z -> list Z) (l : list Z) n :
  length l = n -> flat_map (fun i => f l.[i]) (seq 0 n) = flat_map f l.
Proof.
  intros Hl. rewrite !flat_map_concat_map, <- (map_map (fun i => l.[i]) f).
  now rewrite map_nth_seq.
Qed.

Lemma fold_left_ext_in {A B} (f g : A -> B -> A) l a :
  (forall a b, In b l -> f a b = g a b) -> fold_left f l a = fold_left g l a.
Proof.
  revert a. induction l as [|b l IH]; intros a E; [reflexivity|]. cbn [fold_left].
  rewrite E by (left; reflexivity). apply IH. intros; apply E. now right.
Qed.

(** Deciding that a list holds bytes. *)
Lemma firstn_slice {A} (l : list A) i n m : (n <= m)%nat -> firstn n (slice l i m) = slice l i n.
Proof. intros. unfold slice. rewrite firstn_firstn. f_equal. lia. Qed.

Lemma fold_lor_zero (f : nat -> Z) l : forall r,
  fold_left (fun r i => Z.lor r (f i)) l r = 0 <-> r = 0 /\ Forall (fun i => f i = 0) l.
Proof.
  induction l as [|i l IH]; intros r; cbn [fold_left].
  - split; [intros ->; auto | tauto].
  - rewrite IH, Z.lor_eq_0_iff, Forall_cons_iff. tauto.
Qed.

Lemma fold_left_inv {A B} (P : A -> Prop) (f : A -> B -> A) l a :
  P a -> (forall a b, P a -> P (f a b)) -> P (fold_left f l a).
Proof. intros Ha Hf. revert a Ha. induction l as [|b l IH]; cbn [fold_left]; auto. Qed.

Lemma skipn_repeat {A} (x : A) k : forall n, skipn k (repeat x n) = repeat x (n - k).
Proof. induction k as [|k IH]; intros [|n]; cbn [skipn repeat Nat.sub]; auto. Qed.

Lemma firstn_repeat {A} (x : A) k : forall n, firstn k (repeat x n) = repeat x (Nat.min k n).
Proof. induction k as [|k IH]; intros [|n]; cbn [firstn repeat Nat.min]; auto. now rewrite IH. Qed.

Definition bytesb (l : list Z) : bool := forallb (fun b => (0 <=? b) && (b <? 256)) l.

Lemma bytesb_bytes l : bytesb l = true -> bytes l.
Proof.
  intros H. apply Forall_forall. intros x Hx. unfold bytesb in H. rewrite forallb_forall in H.
  specialize (H x Hx). unfold is_byte. lia.
Qed.

(** More on exclusive or and on buffers. *)
Lemma xor_list_comm a b : xor_list a b = xor_list b a.
Proof. revert b. induction a as [|x a IH]; intros [|y b]; simpl; auto. now rewrite Z.lxor_comm, IH. Qed.

Lemma xor_list_invol_l k a : (length a <= length k)%nat -> xor_list (xor_list k a) k = a.
Proof. intros. rewrite (xor_list_comm k a). now apply xor_list_invol. Qed.

Lemma slice_memcpy_eq {A} (m k : list A) o n :
  length k = n -> (o + n <= length m)%nat -> slice (memcpy m o k) o n = k.
Proof.
  intros Hk Hm. unfold memcpy. apply slice_app; [rewrite length_firstn; lia|exact Hk].
Qed.

Lemma slice_memcpy_ne {A} (m k : list A) o i n :
  (o + length k <= length m)%nat -> (i + n <= o \/ o + length k <= i)%nat ->
  slice (memcpy m o k) i n = slice m i n.
Proof.
  intros Hm [H|H]; unfold memcpy, slice.
  - rewrite skipn_app, firstn_app, !length_skipn, length_firstn.
    replace (n - (Nat.min o (length m) - i))%nat with 0%nat by lia. rewrite firstn_O, app_nil_r.
    rewrite skipn_firstn_comm, firstn_firstn. f_equal. lia.
  - rewrite app_assoc, skipn_app, skipn_all2
      by (rewrite length_app, length_firstn; lia).
    cbn [app]. rewrite length_app, length_firstn, skipn_skipn. do 2 f_equal. lia.
Qed.

Lemma memcpy_memcpy {A} (m a b : list A) o o' :
  o' = (o + length a)%nat -> (o' + length b <= length m)%nat ->
  memcpy (memcpy m o a) o' b = memcpy m o (a ++ b).
Proof.
  intros -> Hm.
  assert (E : memcpy m o a = (firstn o m ++ a) ++ skipn (o + length a) m)
    by (unfold memcpy; apply app_assoc).
  assert (L : length (firstn o m ++ a) = (o + length a)%nat) by (rewrite length_app, length_firstn; lia).
  rewrite E. unfold memcpy. rewrite (firstn_app_l (firstn o m ++ a)) by exact L.
  rewrite (skipn_app_plus (firstn o m ++ a)) by exact L.
  rewrite skipn_skipn, length_app, <- !app_assoc. do 4 f_equal. lia.
Qed.

Lemma memcpy_nil {A} (m : list A) o : memcpy m o [] = m.
Proof. unfold memcpy. cbn [app length]. rewrite Nat.add_0_r. apply firstn_skipn. Qed.

Lemma memcpy_overwrite {A} (m a b : list A) o :
  length a = length b -> (o + length a <= length m)%nat -> memcpy (memcpy m o a) o b = memcpy m o b.
Proof.
  intros Hl Hm. unfold memcpy at 2. rewrite memcpy_app by (rewrite ?length_firstn; lia).
  unfold memcpy. now rewrite Hl.
Qed.

Lemma memcpy_slice {A} (m : list A) o n : (o + n <= length m)%nat -> memcpy m o (slice m o n) = m.
Proof.
  intros H. unfold memcpy. rewrite length_slice by auto. symmetry. apply slice_split.
Qed.

Lemma memcpy_before {A} (m a b : list A) o o' :
  o' = (o + length a)%nat -> (o' + length b <= length m)%nat ->
  memcpy (memcpy m o' b) o a = memcpy m o (a ++ b).
Proof.
  intros -> Hm. unfold memcpy. rewrite firstn_app, firstn_firstn, length_firstn.
  replace (o - Nat.min (o + length a) (length m))%nat with 0%nat by lia. rewrite firstn_O, app_nil_r.
  replace (Nat.min o (o + length a)) with o by lia. f_equal. rewrite <- app_assoc. f_equal.
  rewrite skipn_app_l by (rewrite length_firstn; lia). rewrite length_app. do 2 f_equal. lia.
Qed.

Lemma app_inj_len {A} (a a' b b' : list A) : length a = length a' -> a ++ b = a' ++ b' -> a = a' /\ b = b'.
Proof.
  intros Hl H. split.
  - apply (f_equal (firstn (length a))) in H. now rewrite !firstn_app_l in H.
  - apply (f_equal (skipn (length a))) in H. now rewrite !skipn_app_l in H.
Qed.

Lemma bytes_flat_map {A} (f : A -> list Z) l : (forall a, bytes (f a)) -> bytes (flat_map f l).
Proof. intros H. induction l; [constructor|]. cbn [flat_map]. apply bytes_app. now split. Qed.

(** Reading back a byte after a copy. *)
Lemma nth_memcpy (m k : list Z) o i :
  (o + length k <= length m)%nat ->
  (memcpy m o k).[i] = if (o <=? i)%nat && (i <? o + length k)%nat then k.[i - o] else m.[i].
Proof.
  intros Hm. unfold memcpy.
  destruct (Nat.leb_spec o i) as [H1|H1]; cbn [andb].
  - rewrite app_nth2; rewrite length_firstn; [|lia].
    replace (i - Nat.min o (length m))%nat with (i - o)%nat by lia.
    destruct (Nat.ltb_spec i (o + length k)).
    + now rewrite app_nth1 by lia.
    + rewrite app_nth2, nth_skipn by lia. f_equal. lia.
  - rewrite app_nth1 by (rewrite length_firstn; lia). rewrite nth_firstn.
    destruct (Nat.ltb_spec i o); [reflexivity|lia].
Qed.

Lemma firstn_ext (a b : list Z) n :
  (n <= length a)%nat -> (n <= length b)%nat ->
  (forall i, (i < n)%nat -> a.[i] = b.[i]) -> firstn n a = firstn n b.
Proof.
  intros Ha Hb H. apply nth_ext with 0 0; rewrite !length_firstn; [lia|]. intros i Hi.
  rewrite !nth_firstn. destruct (Nat.ltb_spec i n); [|lia]. apply H. lia.
Qed.

Lemma firstn_ext_inv (a b : list Z) n i : firstn n a = firstn n b -> (i < n)%nat -> a.[i] = b.[i].
Proof.
  intros H Hi. apply (f_equal (fun l => l.[i])) in H. rewrite !nth_firstn in H.
  destruct (Nat.ltb_spec i n); [exact H|lia].
Qed.

Lemma firstn_memcpy_before {A} (m k : list A) o n :
  (n <= o)%nat -> (o <= length m)%nat -> firstn n (memcpy m o k) = firstn n m.
Proof.
  intros Hn Ho. unfold memcpy. rewrite firstn_app, length_firstn.
  replace (n - Nat.min o (length m))%nat with 0%nat by lia. rewrite firstn_O, app_nil_r.
  rewrite firstn_firstn. f_equal. lia.
Qed.

Lemma skipn_memcpy_after {A} (m k : list A) o n :
  (o + length k <= n)%nat -> (o + length k <= length m)%nat -> skipn n (memcpy m o k) = skipn n m.
Proof.
  intros Hn Hm. unfold memcpy. rewrite app_assoc, skipn_app, skipn_all2
    by (rewrite length_app, length_firstn; lia).
  cbn [app]. rewrite length_app, length_firstn, skipn_skipn. f_equal. lia.
Qed.

Lemma skipn_memcpy_at {A} (m k : list A) o :
  (o + length k <= length m)%nat -> skipn o (memcpy m o k) = k ++ skipn (o + length k) m.
Proof. intros Hm. unfold memcpy. now rewrite skipn_app_l by (rewrite length_firstn; lia). Qed.

Lemma length_flat_map_const {A} (f : nat -> list A) c s n :
  (forall i, length (f i) = c) -> length (flat_map f (seq s n)) = (n * c)%nat.
Proof.
  intros Hf. revert s. induction n; intros s; simpl; [reflexivity|].
  now rewrite length_app, Hf, IHn.
Qed.

Lemma firstn_memcpy_0 {A} (m k : list A) n : length k = n -> firstn n (memcpy m 0 k) = k.
Proof. intros H. unfold memcpy. change (firstn 0 m) with (@nil A). rewrite app_nil_l. now apply firstn_app_l. Qed.

Lemma some_inj {A} (x y : A) : Some x = Some y -> x = y.
Proof. congruence. Qed.

Lemma pair_inj {A B} (a c : A) (b d : B) : (a, b) = (c, d) -> a = c /\ b = d.
Proof. intros [= -> ->]. auto. Qed.
