(* ===== verification/ChaCha20.v ===== *)
(** * The ChaCha20 stream cipher and its random number generator

    Model of the first half of chacha20poly1305.c in the SQLite3 Multiple
    Ciphers amalgamation: the byte-order macros, [chacha20_block],
    [chacha20_xor] and [chacha20_rng].  The main results are that the in-place
    loop computes the exclusive or with the RFC 8439 key stream, and that the
    generator's output does not depend on how a caller cuts its requests. *)

From Stdlib Require Import ZArith Lia List Bool.
From S2P Require Import Prelude.
Import ListNotations.
Local Open Scope Z_scope.

(** ** Byte order macros *)

Definition ROL32 (x c : Z) : Z :=
  Z.lor (u32 (Z.shiftl x c)) (Z.shiftr x (32 - c)).

Definition LOAD32_LE (p : list Z) (o : nat) : Z :=
  Z.lor (Z.lor (Z.lor (Z.shiftl p.[o] 0)
                      (Z.shiftl p.[o + 1] 8))
               (Z.shiftl p.[o + 2] 16))
        (Z.shiftl p.[o + 3] 24).

Definition STORE32_LE (v : Z) : list Z :=
  [Z.land (Z.shiftr v 0) 0xFF; Z.land (Z.shiftr v 8) 0xFF;
   Z.land (Z.shiftr v 16) 0xFF; Z.land (Z.shiftr v 24) 0xFF].

Definition STORE32_BE (v : Z) : list Z :=
  [Z.land (Z.shiftr v 24) 0xFF; Z.land (Z.shiftr v 16) 0xFF;
   Z.land (Z.shiftr v 8) 0xFF; Z.land (Z.shiftr v 0) 0xFF].

(** ** The block function *)

Definition CC20QR (x : list Z) (a b c d : nat) : list Z :=
  let x := x.[a <- u32 (x.[a] + x.[b])] in
  let x := x.[d <- Z.lxor x.[d] x.[a]] in
  let x := x.[d <- ROL32 x.[d] 16] in
  let x := x.[c <- u32 (x.[c] + x.[d])] in
  let x := x.[b <- Z.lxor x.[b] x.[c]] in
  let x := x.[b <- ROL32 x.[b] 12] in
  let x := x.[a <- u32 (x.[a] + x.[b])] in
  let x := x.[d <- Z.lxor x.[d] x.[a]] in
  let x := x.[d <- ROL32 x.[d] 8] in
  let x := x.[c <- u32 (x.[c] + x.[d])] in
  let x := x.[b <- Z.lxor x.[b] x.[c]] in
  x.[b <- ROL32 x.[b] 7].

Definition chacha20_double_round (x : list Z) : list Z :=
  let x := CC20QR x 0 4 8 12 in
  let x := CC20QR x 1 5 9 13 in
  let x := CC20QR x 2 6 10 14 in
  let x := CC20QR x 3 7 11 15 in
  let x := CC20QR x 0 5 10 15 in
  let x := CC20QR x 1 6 11 12 in
  let x := CC20QR x 2 7 8 13 in
  CC20QR x 3 4 9 14.

Definition chacha20_block (x : list Z) : list Z :=
  Nat.iter 10 chacha20_double_round x.

(** ** Encryption of a buffer *)

Definition chacha20_state (key nonce : list Z) (counter : Z) : list Z :=
  [0x61707865; 0x3320646e; 0x79622d32; 0x6b206574;
   LOAD32_LE key 0; LOAD32_LE key 4; LOAD32_LE key 8; LOAD32_LE key 12;
   LOAD32_LE key 16; LOAD32_LE key 20; LOAD32_LE key 24; LOAD32_LE key 28;
   counter; LOAD32_LE nonce 0; LOAD32_LE nonce 4; LOAD32_LE nonce 8].

(** The body of the [while (n > 64)] loop: sixteen words of [buf]. *)
Definition chacha20_full_block (state buf : list Z) : list Z :=
  let words := chacha20_block state in
  flat_map (fun i =>
    STORE32_LE (Z.lxor (u32 (words.[i] + state.[i])) (LOAD32_LE buf (4 * i))))
    (seq 0 16).

(** The code after the loop: at most 64 bytes, byte by byte. *)
Definition chacha20_last_block (state buf : list Z) : list Z :=
  let words := chacha20_block state in
  let block := flat_map (fun i => STORE32_LE (u32 (words.[i] + state.[i]))) (seq 0 16) in
  xor_list buf block.

Fixpoint chacha20_xor_loop (fuel : nat) (state buf : list Z) : list Z :=
  match fuel with
  | O => []
  | S fuel =>
      if (64 <? length buf)%nat then
        chacha20_full_block state buf ++
        chacha20_xor_loop fuel (state.[12 <- u32 (state.[12] + 1)]) (skipn 64 buf)
      else chacha20_last_block state buf
  end.

(** [buf] is the run of [n] bytes the C function overwrites. *)
Definition chacha20_xor (buf key nonce : list Z) (counter : Z) : list Z :=
  chacha20_xor_loop (S (length buf)) (chacha20_state key nonce counter) buf.

(** ** The random number generator *)

Section Rng.
(** The operating system's entropy source: its state and a draw of [n]
    bytes, [None] where the C function reports a short read. *)
Context {E : Type} (entropy : E -> nat -> option (list Z * E)).

Record rng_state := mk_rng {
  rng_key : list Z;
  rng_nonce : list Z;
  rng_buffer : list Z;
  rng_counter : Z;
  rng_available : nat;
}.

Definition rng_init : rng_state :=
  mk_rng (memset 0 32) (memset 0 12) (memset 0 64) 0 0.

(** Reseeding, on a counter of zero; [None] is the call of [abort]. *)
Definition rng_reseed (st : rng_state) (e : E) : option (rng_state * E) :=
  if rng_counter st =? 0 then
    match entropy e 32 with
    | Some (key, e) =>
        match entropy e 12 with
        | Some (nonce, e) =>
            Some (mk_rng key nonce (rng_buffer st) (rng_counter st) (rng_available st), e)
        | None => None
        end
    | None => None
    end
  else Some (st, e).

Definition rng_refill (st : rng_state) (e : E) : option (rng_state * E) :=
  match rng_available st with
  | O =>
      match rng_reseed st e with
      | Some (st, e) =>
          Some (mk_rng (rng_key st) (rng_nonce st)
                  (chacha20_xor (rng_buffer st) (rng_key st) (rng_nonce st) (rng_counter st))
                  (u32 (rng_counter st + 1)) 64, e)
      | None => None
      end
  | S _ => Some (st, e)
  end.

Fixpoint chacha20_rng_loop (fuel n : nat) (st : rng_state) (e : E)
  : option (list Z * rng_state * E) :=
  match n with
  | O => Some ([], st, e)
  | S _ =>
      match fuel with
      | O => None
      | S fuel =>
          match rng_refill st e with
          | None => None
          | Some (st, e) =>
              let available := rng_available st in
              let m := if (available <? n)%nat then available else n in
              let out := slice (rng_buffer st) (64 - available) m in
              let st := mk_rng (rng_key st) (rng_nonce st) (rng_buffer st)
                          (rng_counter st) (available - m) in
              match chacha20_rng_loop fuel (n - m) st e with
              | Some (rest, st, e) => Some (out ++ rest, st, e)
              | None => None
              end
          end
      end
  end.

(** Every turn of the loop delivers at least one byte: [n] turns suffice. *)
Definition chacha20_rng (n : nat) (st : rng_state) (e : E)
  : option (list Z * rng_state * E) :=
  chacha20_rng_loop n n st e.
End Rng.


(** ** Properties of the byte order macros *)

Lemma land_lxor_distr a b m : Z.land (Z.lxor a b) m = Z.lxor (Z.land a m) (Z.land b m).
Proof.
  apply Z.bits_inj'. intros i Hi. rewrite !Z.land_spec, !Z.lxor_spec, !Z.land_spec.
  now destruct (Z.testbit a i), (Z.testbit b i), (Z.testbit m i).
Qed.

Lemma LOAD32_LE_num p o :
  bytes p -> LOAD32_LE p o = le_num [p.[o]; p.[o + 1]; p.[o + 2]; p.[o + 3]].
Proof.
  intros Hp. unfold LOAD32_LE. cbn [le_num].
  pose proof (bytes_nth p o Hp). pose proof (bytes_nth p (o + 1) Hp).
  pose proof (bytes_nth p (o + 2) Hp). unfold is_byte in *.
  rewrite Z.shiftl_0_r, (lor_shiftl 8), (lor_shiftl 16), (lor_shiftl 24) by lia. lia.
Qed.

Lemma LOAD32_LE_range p o : bytes p -> is_u32 (LOAD32_LE p o).
Proof.
  intros Hp. rewrite LOAD32_LE_num by auto. apply (le_num_range [_; _; _; _]).
  repeat constructor; now apply bytes_nth.
Qed.

Lemma STORE32_LE_bytes v : bytes (STORE32_LE v).
Proof. repeat constructor; apply (u8_range _). Qed.

Lemma length_STORE32_LE v : length (STORE32_LE v) = 4%nat.
Proof. reflexivity. Qed.

(** Storing a word writes its little-endian digits. *)
Lemma le_num_STORE32_LE v : le_num (STORE32_LE v) = u32 v.
Proof.
  unfold STORE32_LE. cbn [le_num].
  change (Z.land ?x 255) with (u8 x). rewrite !u8_mod, u32_mod.
  rewrite !Z.shiftr_div_pow2 by lia.
  change (2 ^ 0) with 1. change (2 ^ 8) with 256. change (2 ^ 16) with 65536.
  change (2 ^ 24) with 16777216. change (2 ^ 32) with 4294967296.
  Z.to_euclidean_division_equations. lia.
Qed.

(** A word is its four bytes: loading what was stored, and conversely. *)
Lemma LOAD32_STORE32 v : is_u32 v -> LOAD32_LE (STORE32_LE v) 0 = v.
Proof.
  intros Hv. rewrite LOAD32_LE_num by apply STORE32_LE_bytes.
  change [_; _; _; _] with (STORE32_LE v). now rewrite le_num_STORE32_LE, u32_small.
Qed.

Lemma slice_4 (p : list Z) o :
  (o + 4 <= length p)%nat -> slice p o 4 = [p.[o]; p.[o + 1]; p.[o + 2]; p.[o + 3]].
Proof.
  intros H. pose proof (length_slice p o 4 H) as Hl.
  pose proof (nth_slice p o 4 0) as H0. pose proof (nth_slice p o 4 1) as H1.
  pose proof (nth_slice p o 4 2) as H2. pose proof (nth_slice p o 4 3) as H3.
  destruct (slice p o 4) as [|a [|b [|c [|d [|]]]]]; try discriminate.
  cbn [nth] in *. rewrite Nat.add_0_r in H0. repeat f_equal; auto with arith.
Qed.

Lemma STORE32_LOAD32 p o :
  bytes p -> (o + 4 <= length p)%nat -> STORE32_LE (LOAD32_LE p o) = slice p o 4.
Proof.
  intros Hp Ho. apply le_num_inj; auto using STORE32_LE_bytes with words.
  - now rewrite length_slice.
  - rewrite le_num_STORE32_LE, u32_small by now apply LOAD32_LE_range.
    now rewrite LOAD32_LE_num, slice_4.
Qed.

Lemma STORE32_LE_lxor v w :
  STORE32_LE (Z.lxor v w) = xor_list (STORE32_LE v) (STORE32_LE w).
Proof. unfold STORE32_LE. cbn [xor_list]. now rewrite !Z.shiftr_lxor, !land_lxor_distr. Qed.

(** ** The key stream of RFC 8439

    The serialized block for a state, and the stream made of the blocks of
    successive counters: what [chacha20_xor] is meant to combine with the data,
    stated without its loop. *)

Definition rfc_block (state : list Z) : list Z :=
  flat_map (fun i => STORE32_LE (u32 ((chacha20_block state).[i] + state.[i]))) (seq 0 16).

Definition rfc_keystream (key nonce : list Z) (counter : Z) (n : nat) : list Z :=
  flat_map (fun j => rfc_block (chacha20_state key nonce (u32 (counter + Z.of_nat j))))
    (seq 0 n).

Lemma chacha20_last_block_spec st buf :
  chacha20_last_block st buf = xor_list buf (rfc_block st).
Proof. reflexivity. Qed.

Lemma length_rfc_block st : length (rfc_block st) = 64%nat.
Proof. reflexivity. Qed.

Lemma rfc_block_bytes st : bytes (rfc_block st).
Proof.
  apply Forall_flat_map, Forall_forall. intros i _. apply STORE32_LE_bytes.
Qed.

#[local] Opaque rfc_block chacha20_block.

Lemma length_rfc_keystream key nonce c n :
  length (rfc_keystream key nonce c n) = (n * 64)%nat.
Proof. now apply length_flat_map_const. Qed.

Lemma rfc_keystream_bytes key nonce c n : bytes (rfc_keystream key nonce c n).
Proof. apply Forall_flat_map, Forall_forall. intros. apply rfc_block_bytes. Qed.

Lemma rfc_keystream_S key nonce c n :
  is_u32 c ->
  rfc_keystream key nonce c (S n) =
  rfc_block (chacha20_state key nonce c) ++ rfc_keystream key nonce (u32 (c + 1)) n.
Proof.
  intros Hc. unfold rfc_keystream. cbn [seq flat_map].
  rewrite Z.add_0_r, u32_small by auto. apply (f_equal (app _)).
  rewrite <- seq_shift, flat_map_concat_map, flat_map_concat_map, map_map.
  apply (f_equal (@concat Z)), map_ext. intros j. rewrite u32_add_l.
  now replace (c + Z.of_nat (S j)) with (c + 1 + Z.of_nat j) by lia.
Qed.

(** A longer key stream extends a shorter one. *)
Lemma rfc_keystream_prefix key nonce c n m :
  (n <= m)%nat -> firstn (n * 64) (rfc_keystream key nonce c m) = rfc_keystream key nonce c n.
Proof.
  intros. unfold rfc_keystream. replace m with (n + (m - n))%nat by lia.
  rewrite seq_app, flat_map_app. apply firstn_app_l.
  now apply length_flat_map_const.
Qed.

(** Xor-ing a run of words is xor-ing their bytes. *)
Lemma flat_map_store_xor (g : nat -> Z) (buf : list Z) s n :
  bytes buf -> (4 * (s + n) <= length buf)%nat ->
  flat_map (fun i => STORE32_LE (Z.lxor (g i) (LOAD32_LE buf (4 * i)))) (seq s n) =
  xor_list (slice buf (4 * s) (4 * n)) (flat_map (fun i => STORE32_LE (g i)) (seq s n)).
Proof.
  intros Hb. revert s. induction n as [|n IH]; intros s Hl; [reflexivity|].
  cbn [seq flat_map]. rewrite IH by lia.
  replace (slice buf (4 * s) (4 * S n)) with
    (slice buf (4 * s) 4 ++ slice buf (4 * S s) (4 * n)).
  - rewrite xor_list_app by (rewrite length_slice; simpl; lia). f_equal.
    rewrite Z.lxor_comm, STORE32_LE_lxor, STORE32_LOAD32 by (auto; lia). reflexivity.
  - replace (4 * S n)%nat with (4 + 4 * n)%nat by lia. rewrite slice_plus.
    do 2 f_equal. lia.
Qed.

Lemma chacha20_full_block_spec st buf :
  bytes buf -> (64 <= length buf)%nat ->
  chacha20_full_block st buf = xor_list (firstn 64 buf) (rfc_block st).
Proof.
  intros Hb Hl. unfold chacha20_full_block.
  now rewrite (flat_map_store_xor (fun i => u32 ((chacha20_block st).[i] + st.[i]))).
Qed.

Lemma chacha20_xor_loop_spec fuel key nonce c buf m :
  bytes buf -> is_u32 c -> (length buf < fuel)%nat -> (length buf <= m * 64)%nat ->
  (0 < m)%nat ->
  chacha20_xor_loop fuel (chacha20_state key nonce c) buf =
  xor_list buf (rfc_keystream key nonce c m).
Proof.
  revert c buf m. induction fuel as [|fuel IH]; intros c buf m Hb Hc Hf Hm H0; [lia|].
  destruct m as [|m]; [lia|]. rewrite rfc_keystream_S by auto.
  cbn [chacha20_xor_loop]. destruct (Nat.ltb_spec 64 (length buf)).
  - rewrite chacha20_full_block_spec by (auto; lia).
    change (chacha20_state key nonce c).[12 <- _]
      with (chacha20_state key nonce (u32 (c + 1))).
    rewrite (IH _ _ m); auto using u32_range, bytes_skipn;
      try (rewrite length_skipn; lia); try lia.
    rewrite <- xor_list_app; [now rewrite firstn_skipn|].
    rewrite length_firstn, length_rfc_block. lia.
  - rewrite chacha20_last_block_spec.
    rewrite (xor_list_firstn buf (_ ++ _)), firstn_app, (xor_list_firstn buf (rfc_block _)).
    replace (length buf - length (rfc_block (chacha20_state key nonce c)))%nat with 0%nat
      by (rewrite length_rfc_block; lia).
    now rewrite app_nil_r.
Qed.

(** The number of key stream blocks that cover [n] bytes. *)
Definition stream_blocks (n : nat) : nat := S (n / 64).

Lemma stream_blocks_cover n : (n <= stream_blocks n * 64)%nat.
Proof.
  unfold stream_blocks. pose proof (Nat.div_mod_eq n 64).
  pose proof (Nat.mod_upper_bound n 64). lia.
Qed.

Lemma chacha20_xor_spec buf key nonce c :
  bytes buf -> is_u32 c ->
  chacha20_xor buf key nonce c =
  xor_list buf (rfc_keystream key nonce c (stream_blocks (length buf))).
Proof.
  intros. apply chacha20_xor_loop_spec; auto using stream_blocks_cover.
  unfold stream_blocks. lia.
Qed.

Lemma length_chacha20_xor buf key nonce c :
  bytes buf -> is_u32 c -> length (chacha20_xor buf key nonce c) = length buf.
Proof.
  intros. rewrite chacha20_xor_spec, length_xor_list, length_rfc_keystream by auto.
  pose proof (stream_blocks_cover (length buf)). lia.
Qed.

Lemma bytes_chacha20_xor buf key nonce c :
  bytes buf -> is_u32 c -> bytes (chacha20_xor buf key nonce c).
Proof.
  intros. rewrite chacha20_xor_spec by auto. auto using rfc_keystream_bytes with words.
Qed.

Lemma chacha20_xor_invol buf key nonce c :
  bytes buf -> is_u32 c ->
  chacha20_xor (chacha20_xor buf key nonce c) key nonce c = buf.
Proof.
  intros Hb Hc. rewrite (chacha20_xor_spec (chacha20_xor _ _ _ _))
    by auto using bytes_chacha20_xor.
  rewrite length_chacha20_xor, chacha20_xor_spec by auto.
  apply xor_list_invol. rewrite length_rfc_keystream. apply stream_blocks_cover.
Qed.

#[export] Hint Resolve bytes_chacha20_xor LOAD32_LE_range STORE32_LE_bytes : words.
#[export] Hint Rewrite length_chacha20_xor using (auto with words) : mem.

(** [chacha20_xor] combines the buffer with the RFC 8439 key stream of the
    successive counters (wrapping at 32 bits) and nothing else: the output byte
    at every position is the input byte xor the key stream byte, for every
    buffer length, so the fuel of the loop always suffices. *)
Theorem chacha20_xor_keystream buf key nonce c :
  bytes buf -> is_u32 c ->
  chacha20_xor buf key nonce c =
    xor_list buf (rfc_keystream key nonce c (stream_blocks (length buf)))
  /\ length (chacha20_xor buf key nonce c) = length buf.
Proof. split; [now apply chacha20_xor_spec|now apply length_chacha20_xor]. Qed.

Lemma chacha20_xor_keystream_witness :
  chacha20_xor (memset 7 65) (memset 1 32) (memset 2 12) 0xFFFFFFFF =
    xor_list (memset 7 65)
      (rfc_keystream (memset 1 32) (memset 2 12) 0xFFFFFFFF (stream_blocks 65))
  /\ length (chacha20_xor (memset 7 65) (memset 1 32) (memset 2 12) 0xFFFFFFFF) = 65%nat.
Proof.
  apply (chacha20_xor_keystream (memset 7 65));
    [apply bytes_memset; unfold is_byte|unfold is_u32]; lia.
Defined.

(** The test vector of RFC 8439, section 2.3.2. *)
Example rfc8439_2_3_2 :
  firstn 16 (chacha20_xor (memset 0 64) (map Z.of_nat (seq 0 32))
    [0; 0; 0; 9; 0; 0; 0; 0x4a; 0; 0; 0; 0] 1) =
  [0x10; 0xf1; 0xe7; 0xe4; 0xd1; 0x3b; 0x59; 0x15;
   0x50; 0x0f; 0xdd; 0x1f; 0xa3; 0x20; 0x71; 0xc4].
Proof. vm_compute. reflexivity. Qed.

(** ** The generator, one byte at a time *)

Section RngProps.
Context {E : Type} (entropy : E -> nat -> option (list Z * E)).

(** The static buffer holds 64 bytes, of which the last [available] are
    still to be handed out. *)
Definition rng_wf (st : rng_state) : Prop :=
  bytes (rng_buffer st) /\ length (rng_buffer st) = 64%nat /\
  is_u32 (rng_counter st) /\ (rng_available st <= 64)%nat.

Lemma rng_init_wf : rng_wf rng_init.
Proof.
  unfold rng_wf, rng_init, is_u32.
  cbn [rng_buffer rng_counter rng_available]. split_and; try lia; [|reflexivity].
  apply bytes_memset. unfold is_byte. lia.
Qed.

Lemma rng_reseed_keeps st e st' e' :
  rng_reseed entropy st e = Some (st', e') ->
  rng_buffer st' = rng_buffer st /\ rng_counter st' = rng_counter st.
Proof.
  unfold rng_reseed. case_bool; [|intros [=]; now subst].
  destruct (entropy e 32) as [[key e1]|]; [|easy].
  destruct (entropy e1 12) as [[nonce e2]|]; [|easy]. intros [=]. now subst.
Qed.

Lemma rng_refill_wf st e st' e' :
  rng_wf st -> rng_refill entropy st e = Some (st', e') ->
  rng_wf st' /\ (0 < rng_available st')%nat.
Proof.
  intros (Hb & Hl & Hc & Ha). unfold rng_refill.
  destruct (rng_available st) eqn:Hav.
  - destruct (rng_reseed entropy st e) as [[st1 e1]|] eqn:Hr; [|easy].
    apply rng_reseed_keeps in Hr as [Eb Ec]. intros [= <- <-].
    unfold rng_wf. cbn [rng_buffer rng_counter rng_available]. rewrite Eb, Ec, length_chacha20_xor by auto.
    split_and; auto with words; lia.
  - intros [= <- <-]. unfold rng_wf. rewrite Hav. split_and; auto; lia.
Qed.

(** [rng_refill] does nothing while bytes are left. *)
Lemma rng_refill_idle st e :
  (0 < rng_available st)%nat -> rng_refill entropy st e = Some (st, e).
Proof. intros. unfold rng_refill. now destruct (rng_available st); [lia|]. Qed.

Definition rng_take (st : rng_state) (m : nat) : rng_state :=
  mk_rng (rng_key st) (rng_nonce st) (rng_buffer st) (rng_counter st)
    (rng_available st - m).

Lemma rng_take_wf st m : rng_wf st -> rng_wf (rng_take st m).
Proof.
  intros (? & ? & ? & ?). unfold rng_wf, rng_take.
  cbn [rng_buffer rng_counter rng_available]. split_and; auto; lia.
Qed.

Definition prepend (out : list Z) (r : option (list Z * rng_state * E)) :=
  match r with
  | Some (rest, st, e) => Some (out ++ rest, st, e)
  | None => None
  end.

Lemma prepend_app a b r : prepend (a ++ b) r = prepend a (prepend b r).
Proof. destruct r as [[[rest st] e]|]; simpl; now rewrite ?app_assoc. Qed.

(** One turn of the loop, the arm of the code with the data still to come. *)
Lemma rng_loop_turn fuel n st e :
  (0 < n)%nat ->
  chacha20_rng_loop entropy (S fuel) n st e =
  match rng_refill entropy st e with
  | None => None
  | Some (st, e) =>
      let m := Nat.min (rng_available st) n in
      prepend (slice (rng_buffer st) (64 - rng_available st) m)
        (chacha20_rng_loop entropy fuel (n - m) (rng_take st m) e)
  end.
Proof.
  intros. destruct n as [|n]; [lia|]. cbn [chacha20_rng_loop].
  destruct (rng_refill entropy st e) as [[st' e']|]; [|easy]. cbv zeta.
  replace (if (rng_available st' <? S n)%nat then rng_available st' else S n)
    with (Nat.min (rng_available st') (S n)) by (destruct (Nat.ltb_spec (rng_available st') (S n)); lia).
  reflexivity.
Qed.

Lemma rng_loop_fuel n f1 f2 st e :
  rng_wf st -> (n <= f1)%nat -> (n <= f2)%nat ->
  chacha20_rng_loop entropy f1 n st e = chacha20_rng_loop entropy f2 n st e.
Proof.
  revert n f2 st e. induction f1 as [|f1 IH]; intros n f2 st e Hwf H1 H2.
  - replace n with 0%nat by lia. now destruct f2.
  - destruct n as [|n]; [now destruct f2|]. destruct f2 as [|f2]; [lia|].
    rewrite !rng_loop_turn by lia.
    destruct (rng_refill entropy st e) as [[st' e']|] eqn:Hr; [|easy].
    apply rng_refill_wf in Hr as [Hwf' Ha]; auto. cbv zeta. f_equal.
    apply IH; auto using rng_take_wf; lia.
Qed.

(** Asking for one byte more is taking the next byte, then asking for the rest. *)
Lemma rng_next n st e :
  rng_wf st ->
  chacha20_rng entropy (S n) st e =
  match rng_refill entropy st e with
  | None => None
  | Some (st, e) =>
      prepend [(rng_buffer st).[64 - rng_available st]]
        (chacha20_rng entropy n (rng_take st 1) e)
  end.
Proof.
  intros Hwf. unfold chacha20_rng. rewrite rng_loop_turn by lia.
  destruct (rng_refill entropy st e) as [[s e']|] eqn:Hr; [|easy].
  apply rng_refill_wf in Hr as [Hwf' Ha]; auto. cbv zeta.
  pose proof Hwf' as (Hb & Hl & Hc & Hav).
  set (a := rng_available s) in *.
  replace (Nat.min a (S n)) with (S (Nat.min (a - 1) n)) by lia.
  set (k := Nat.min (a - 1) n).
  assert (Hs : slice (rng_buffer s) (64 - a) (S k) =
          [(rng_buffer s).[64 - a]] ++ slice (rng_buffer s) (64 - (a - 1)) k).
  { change (S k) with (1 + k)%nat. rewrite slice_plus.
    replace (64 - a + 1)%nat with (64 - (a - 1))%nat by lia. f_equal.
    apply nth_ext with 0 0; rewrite length_slice by lia; [reflexivity|].
    intros [|i] Hi; [|lia]. now rewrite nth_slice, Nat.add_0_r. }
  rewrite Hs, prepend_app. f_equal. destruct (Nat.eq_dec n 0) as [->|Hn].
  - unfold k. now rewrite Nat.min_0_r.
  - destruct (Nat.eq_dec a 1) as [Ea|Ea].
    + replace k with 0%nat by lia. replace (S n - 1)%nat with n by lia.
      now destruct (chacha20_rng_loop _ _ _ _ _) as [[[? ?] ?]|].
    + destruct n as [|n]; [lia|]. symmetry.
      rewrite rng_loop_turn, rng_refill_idle by (cbn [rng_take rng_available]; lia).
      cbv zeta. cbn [rng_take rng_available rng_buffer]. fold a k.
      f_equal. replace (S (S n) - S k)%nat with (S n - k)%nat by lia.
      unfold rng_take. cbn [rng_key rng_nonce rng_buffer rng_counter rng_available].
      fold a. replace (a - 1 - k)%nat with (a - S k)%nat by lia.
      apply rng_loop_fuel; try lia. now apply (rng_take_wf s).
Qed.

Definition chain (r : option (list Z * rng_state * E))
    (k : rng_state -> E -> option (list Z * rng_state * E)) :=
  match r with
  | Some (out, st, e) => prepend out (k st e)
  | None => None
  end.

Lemma chain_prepend out r k : chain (prepend out r) k = prepend out (chain r k).
Proof. destruct r as [[[rest st] e]|]; simpl; auto. apply prepend_app. Qed.

(** the random number generator is a byte stream: a request for [n + m]
    bytes gives what a request for [n] bytes followed by one for [m] bytes
    gives, the same final state and the same aborts included, from any state
    whose buffer is well formed. *)
Theorem chacha20_rng_stream n m st e :
  rng_wf st ->
  chacha20_rng entropy (n + m) st e =
  chain (chacha20_rng entropy n st e) (chacha20_rng entropy m).
Proof.
  revert st e. induction n as [|n IH]; intros st e Hwf.
  - simpl. now destruct (chacha20_rng entropy m st e) as [[[? ?] ?]|].
  - cbn [Nat.add]. rewrite !rng_next by auto.
    destruct (rng_refill entropy st e) as [[s e']|] eqn:Hr; [|easy].
    apply rng_refill_wf in Hr as [Hwf' _]; auto.
    rewrite IH by now apply rng_take_wf. symmetry. apply chain_prepend.
Qed.

(** With a working entropy source a request never aborts. *)
Lemma rng_total n st e :
  (forall e k, exists l e', entropy e k = Some (l, e')) -> rng_wf st ->
  exists out st' e', chacha20_rng entropy n st e = Some (out, st', e') /\
    length out = n /\ bytes out /\ rng_wf st'.
Proof.
  intros He. revert st e. induction n as [|n IH]; intros st e Hwf.
  - exists [], st, e. repeat split; auto; try apply Hwf. constructor.
  - rewrite rng_next by auto.
    assert (exists s e', rng_refill entropy st e = Some (s, e')) as (s & e1 & Hr).
    { unfold rng_refill, rng_reseed. destruct (rng_available st); [|eauto].
      case_bool; [|eauto]. destruct (He e 32%nat) as (k & e1 & ->).
      destruct (He e1 12%nat) as (nn & e2 & ->). eauto. }
    rewrite Hr. apply rng_refill_wf in Hr as [Hwf' _]; auto.
    destruct (IH (rng_take s 1) e1) as (out & st' & e' & -> & Hl & Hb & Hw);
      [now apply rng_take_wf|].
    exists ((rng_buffer s).[64 - rng_available s] :: out), st', e'.
    split_and; auto; [simpl; auto|]. constructor; auto. apply bytes_nth, Hwf'.
Qed.
End RngProps.

(** The witness's entropy source counts its draws. *)
Lemma chacha20_rng_stream_witness :
  let src := fun e k => Some (memset e k, e + 1) in
  chacha20_rng src (60 + 9) rng_init 3 =
  chain (chacha20_rng src 60 rng_init 3) (chacha20_rng src 9).
Proof. intros src. apply (chacha20_rng_stream src 60 9), rng_init_wf. Defined.
