(* ===== verification/Poly1305.v ===== *)
(** * The Poly1305 authenticator

    Model of [poly1305] and [poly1305_tagcmp] of chacha20poly1305.c: the
    accumulator as five 26-bit limbs in 32-bit words with 64-bit products, the
    carries and the final reduction as the code performs them.  The main result
    is that this computes the polynomial evaluation modulo [2^130 - 5] of
    RFC 8439, which includes that no 32- or 64-bit intermediate overflows. *)

From Stdlib Require Import ZArith Lia List Bool.
From S2P Require Import Prelude ChaCha20.
Import ListNotations.
Local Open Scope Z_scope.

Record limbs := mk_limbs { l0 : Z; l1 : Z; l2 : Z; l3 : Z; l4 : Z }.

(** The clamped multiplier, [r0 .. r4] of the code. *)
Definition poly1305_r (key : list Z) : limbs :=
  mk_limbs
    (Z.land (Z.shiftr (LOAD32_LE key 0) 0) 0x03FFFFFF)
    (Z.land (Z.shiftr (LOAD32_LE key 3) 2) 0x03FFFF03)
    (Z.land (Z.shiftr (LOAD32_LE key 6) 4) 0x03FFC0FF)
    (Z.land (Z.shiftr (LOAD32_LE key 9) 6) 0x03F03FFF)
    (Z.land (Z.shiftr (LOAD32_LE key 12) 8) 0x000FFFFF).

(** [process_block]: add the sixteen bytes of [msg] and multiply by [r]. *)
Definition poly1305_process (r h : limbs) (msg : list Z) : limbs :=
  let s1 := u32 (l1 r * 5) in
  let s2 := u32 (l2 r * 5) in
  let s3 := u32 (l3 r * 5) in
  let s4 := u32 (l4 r * 5) in
  let h0 := u32 (l0 h + Z.land (Z.shiftr (LOAD32_LE msg 0) 0) 0x03FFFFFF) in
  let h1 := u32 (l1 h + Z.land (Z.shiftr (LOAD32_LE msg 3) 2) 0x03FFFFFF) in
  let h2 := u32 (l2 h + Z.land (Z.shiftr (LOAD32_LE msg 6) 4) 0x03FFFFFF) in
  let h3 := u32 (l3 h + Z.land (Z.shiftr (LOAD32_LE msg 9) 6) 0x03FFFFFF) in
  let h4 := u32 (l4 h + Z.shiftr (LOAD32_LE msg 12) 8) in
  let d0 := u64 (h0 * l0 r + h1 * s4 + h2 * s3 + h3 * s2 + h4 * s1) in
  let d1 := u64 (h0 * l1 r + h1 * l0 r + h2 * s4 + h3 * s3 + h4 * s2) in
  let d2 := u64 (h0 * l2 r + h1 * l1 r + h2 * l0 r + h3 * s4 + h4 * s3) in
  let d3 := u64 (h0 * l3 r + h1 * l2 r + h2 * l1 r + h3 * l0 r + h4 * s4) in
  let d4 := u64 (h0 * l4 r + h1 * l3 r + h2 * l2 r + h3 * l1 r + h4 * l0 r) in
  let h0 := Z.land d0 0x03FFFFFF in let d1 := u64 (d1 + Z.shiftr d0 26) in
  let h1 := Z.land d1 0x03FFFFFF in let d2 := u64 (d2 + Z.shiftr d1 26) in
  let h2 := Z.land d2 0x03FFFFFF in let d3 := u64 (d3 + Z.shiftr d2 26) in
  let h3 := Z.land d3 0x03FFFFFF in let d4 := u64 (d4 + Z.shiftr d3 26) in
  let h4 := Z.land d4 0x03FFFFFF in
  let h0 := u32 (h0 + u32 (u32 (Z.shiftr d4 26) * 5)) in
  mk_limbs h0 h1 h2 h3 h4.

(** The [while (n >= 16)] loop: the accumulator and the bytes left over. *)
Fixpoint poly1305_loop (fuel : nat) (r h : limbs) (msg : list Z) : limbs * list Z :=
  match fuel with
  | O => (h, msg)
  | S fuel =>
      if (16 <=? length msg)%nat then
        let h := mk_limbs (l0 h) (l1 h) (l2 h) (l3 h) (u32 (l4 h + 0x01000000)) in
        poly1305_loop fuel r (poly1305_process r h msg) (skipn 16 msg)
      else (h, msg)
  end.

(** The final reduction and the addition of the second half of the key. *)
Definition poly1305_finish (h : limbs) (key : list Z) : list Z :=
  let r0 := Z.shiftr (u32 (l0 h + 5)) 26 in
  let r1 := Z.shiftr (u32 (l1 h + r0)) 26 in
  let r2 := Z.shiftr (u32 (l2 h + r1)) 26 in
  let r3 := Z.shiftr (u32 (l3 h + r2)) 26 in
  let r4 := Z.shiftr (u32 (l4 h + r3)) 26 in
  let h0 := u32 (l0 h + u32 (r4 * 5)) in
  let d1 := u64 (LOAD32_LE key 16 + Z.shiftr h0 0 + u32 (Z.shiftl (l1 h) 26)) in
  let d2 := u64 (LOAD32_LE key 20 + Z.shiftr (l1 h) 6 + u32 (Z.shiftl (l2 h) 20)
                 + Z.shiftr d1 32) in
  let d3 := u64 (LOAD32_LE key 24 + Z.shiftr (l2 h) 12 + u32 (Z.shiftl (l3 h) 14)
                 + Z.shiftr d2 32) in
  let d4 := u64 (LOAD32_LE key 28 + Z.shiftr (l3 h) 18 + u32 (Z.shiftl (l4 h) 8)
                 + Z.shiftr d3 32) in
  STORE32_LE (u32 d1) ++ STORE32_LE (u32 d2) ++ STORE32_LE (u32 d3) ++ STORE32_LE (u32 d4).

Definition poly1305 (msg key : list Z) : list Z :=
  let r := poly1305_r key in
  let '(h, rest) := poly1305_loop (length msg) r (mk_limbs 0 0 0 0 0) msg in
  let h :=
    match rest with
    | [] => h
    | _ => poly1305_process r h (rest ++ [1] ++ memset 0 (15 - length rest))
    end in
  poly1305_finish h key.

(** The constant-time comparison: the or of the sixteen differences. *)
Definition poly1305_tagcmp (tag1 tag2 : list Z) : Z :=
  fold_left (fun d i => Z.lor d (Z.lxor tag1.[i] tag2.[i])) (seq 0 16) 0.

(** ** The specification of RFC 8439, section 2.5 *)

Definition poly_p : Z := 2 ^ 130 - 5.
Definition rfc_r (key : list Z) : Z :=
  Z.land (le_num (firstn 16 key)) 0x0ffffffc0ffffffc0ffffffc0fffffff.
Definition rfc_step (r acc : Z) (block : list Z) : Z :=
  ((acc + le_num block + 256 ^ Z.of_nat (length block)) * r) mod poly_p.
Definition rfc_poly1305 (msg key : list Z) : Z :=
  (fold_left (rfc_step (rfc_r key)) (blocks 16 msg) 0 + le_num (slice key 16 16)) mod 2 ^ 128.

(** Test vector of section 2.5.2. *)
Example rfc8439_2_5_2 :
  poly1305
    [67; 114; 121; 112; 116; 111; 103; 114; 97; 112; 104; 105; 99; 32; 70; 111; 114;
     117; 109; 32; 82; 101; 115; 101; 97; 114; 99; 104; 32; 71; 114; 111; 117; 112]
    [0x85; 0xd6; 0xbe; 0x78; 0x57; 0x55; 0x6d; 0x33; 0x7f; 0x44; 0x52; 0xfe; 0x42; 0xd5; 0x06; 0xa8;
     0x01; 0x03; 0x80; 0x8a; 0xfb; 0x0d; 0xb2; 0xfd; 0x4a; 0xbf; 0xf6; 0xaf; 0x41; 0x49; 0xf5; 0x1b] =
  [0xa8; 0x06; 0x1d; 0xc1; 0x30; 0x51; 0x36; 0xc6; 0xc2; 0x2b; 0x8b; 0xaf; 0x0c; 0x01; 0x27; 0xa9].
Proof. vm_compute. reflexivity. Qed.

(** ** Limbs *)

Definition limb (i x : Z) : Z := (x / 2 ^ (26 * i)) mod 2 ^ 26.

Definition limbs_of (x : Z) : limbs :=
  mk_limbs (limb 0 x) (limb 1 x) (limb 2 x) (limb 3 x) (limb 4 x).

Definition val (h : limbs) : Z :=
  l0 h + 2 ^ 26 * l1 h + 2 ^ 52 * l2 h + 2 ^ 78 * l3 h + 2 ^ 104 * l4 h.

Lemma land_26 x : Z.land x 0x03FFFFFF = x mod 2 ^ 26.
Proof. change 0x03FFFFFF with (Z.ones 26). now rewrite Z.land_ones. Qed.

Lemma limb_range i x : 0 <= limb i x < 2 ^ 26.
Proof. apply Z.mod_pos_bound. lia. Qed.

Lemma val_limbs_of x : 0 <= x < 2 ^ 130 -> val (limbs_of x) = x.
Proof.
  intros Hx. unfold val, limbs_of, limb; cbn [l0 l1 l2 l3 l4].
  change (26 * 0) with 0; change (26 * 1) with 26; change (26 * 2) with (26 + 26);
    change (26 * 3) with (26 + 26 + 26); change (26 * 4) with (26 + 26 + 26 + 26).
  rewrite !Z.pow_add_r, <- !Z.div_div, Z.pow_0_r, Z.div_1_r by lia.
  set (q1 := x / 2 ^ 26). set (q2 := q1 / 2 ^ 26). set (q3 := q2 / 2 ^ 26).
  assert (H4 : 0 <= q3 / 2 ^ 26 < 2 ^ 26).
  { subst q3 q2 q1. rewrite !Z.div_div by lia. split; [apply Z.div_pos; lia|].
    apply Z.div_lt_upper_bound; lia. }
  rewrite (Z.mod_small _ _ H4), (Z.mod_eq x), (Z.mod_eq q1), (Z.mod_eq q2), (Z.mod_eq q3) by lia.
  fold q1 q2 q3. ring.
Qed.

Lemma limb_land i x m : 0 <= i -> limb i (Z.land x m) = Z.land (limb i x) (limb i m).
Proof.
  intros Hi. unfold limb.
  rewrite <- !Z.shiftr_div_pow2, <- !(Z.land_ones _ 26), Z.shiftr_land by lia.
  apply Z.bits_inj'. intros j Hj. rewrite !Z.land_spec.
  now destruct (Z.testbit (Z.shiftr x _) j), (Z.testbit (Z.shiftr m _) j),
    (Z.testbit (Z.ones _) j).
Qed.

(** A load at byte [o] reads 32 bits of the sixteen-byte number. *)
Lemma LOAD32_LE_window p o :
  bytes p -> (o + 4 <= 16)%nat -> (16 <= length p)%nat ->
  LOAD32_LE p o = (le_num (firstn 16 p) / 256 ^ Z.of_nat o) mod 2 ^ 32.
Proof.
  intros Hp Ho Hl. rewrite LOAD32_LE_num, <- slice_4 by (auto; lia).
  replace (slice p o 4) with (slice (firstn 16 p) o 4).
  2: { unfold slice. rewrite skipn_firstn_comm, firstn_firstn. f_equal. lia. }
  set (q := firstn 16 p).
  assert (Hq : length q = 16%nat) by (apply firstn_length_le; lia).
  rewrite (slice_split q o 4) at 2. rewrite !le_num_app.
  rewrite (firstn_length_le q) by lia. rewrite length_slice by lia.
  assert (Hb : bytes q) by (subst q; auto with words).
  pose proof (le_num_range _ (bytes_firstn o _ Hb)) as H1.
  pose proof (le_num_range _ (bytes_slice _ o 4 Hb)) as H2.
  rewrite firstn_length_le in H1 by lia. rewrite length_slice in H2 by lia.
  rewrite (Z.mul_comm (256 ^ Z.of_nat o)), Z.div_add, (Z.div_small (le_num (firstn o q))) by lia.
  change (256 ^ Z.of_nat 4) with (2 ^ 32) in *.
  rewrite Z.add_0_l, (Z.mul_comm (2 ^ 32)), Z.mod_add, Z.mod_small by lia. reflexivity.
Qed.

Lemma load_limb p i o k :
  bytes p -> (16 <= length p)%nat ->
  In (i, o, k) [(0, 0%nat, 0); (1, 3%nat, 2); (2, 6%nat, 4); (3, 9%nat, 6); (4, 12%nat, 8)] ->
  Z.land (Z.shiftr (LOAD32_LE p o) k) 0x03FFFFFF = limb i (le_num (firstn 16 p)).
Proof.
  intros Hp Hl Hin. set (x := le_num (firstn 16 p)).
  assert (Hx : 0 <= x < 2 ^ 128).
  { pose proof (le_num_range _ (bytes_firstn 16 _ Hp)) as H.
    now rewrite firstn_length_le in H by lia. }
  assert (W : forall y a, 0 <= a <= 6 ->
    (y mod 2 ^ 32 / 2 ^ a) mod 2 ^ 26 = (y / 2 ^ a) mod 2 ^ 26).
  { intros y a Ha. rewrite <- !Z.shiftr_div_pow2, <- !Z.land_ones by lia.
    apply Z.bits_inj'. intros j Hj. rewrite !Z.land_spec, !Z.shiftr_spec, Z.land_spec by lia.
    rewrite !Z.testbit_ones_nonneg by lia.
    destruct (Z.ltb_spec j 26); [|now rewrite !andb_false_r].
    destruct (Z.ltb_spec (j + a) 32); [|lia]. now rewrite andb_true_r. }
  destruct Hin as [E|[E|[E|[E|[E|[]]]]]]; injection E as <- <- <-;
    rewrite LOAD32_LE_window, land_26, Z.shiftr_div_pow2 by (auto; lia); fold x; unfold limb;
    try (rewrite W by lia).
  - now rewrite Z.div_div by lia.
  - now rewrite Z.div_div by lia.
  - now rewrite Z.div_div by lia.
  - now rewrite Z.div_div by lia.
  - assert (0 <= x / 256 ^ Z.of_nat 12 < 2 ^ 32)
      by (split; [apply Z.div_pos|apply Z.div_lt_upper_bound]; lia).
    now rewrite (Z.mod_small (x / 256 ^ _)), Z.div_div by lia.
Qed.

Lemma poly1305_r_limbs key :
  bytes key -> (16 <= length key)%nat -> poly1305_r key = limbs_of (rfc_r key).
Proof.
  intros Hk Hl. unfold poly1305_r, limbs_of, rfc_r. rewrite !limb_land by lia.
  assert (M : forall i o k m,
    In (i, o, k) [(0, 0%nat, 0); (1, 3%nat, 2); (2, 6%nat, 4); (3, 9%nat, 6); (4, 12%nat, 8)] ->
    Z.land 0x03FFFFFF m = m ->
    Z.land (Z.shiftr (LOAD32_LE key o) k) m = Z.land (limb i (le_num (firstn 16 key))) m).
  { intros i o k m Hin Hm. rewrite <- Hm, !Z.land_assoc, (load_limb key i o k) by auto.
    f_equal. rewrite land_26, Z.mod_small by apply limb_range. reflexivity. }
  rewrite (M 0), (M 1), (M 2), (M 3), (M 4) by (simpl; auto 10). reflexivity.
Qed.

Lemma rfc_r_range key : bytes key -> 0 <= rfc_r key < 2 ^ 124.
Proof.
  intros Hk. unfold rfc_r. rewrite Z.land_comm. apply range_of_bits; [lia|].
  intros i Hi. rewrite Z.land_spec, (testbit_high 124); auto. lia.
Qed.

(** The multiplier has a short top limb, which is what keeps the carry in 32 bits. *)
Definition mult_ok (r : limbs) : Prop :=
  0 <= l0 r < 2 ^ 26 /\ 0 <= l1 r < 2 ^ 26 /\ 0 <= l2 r < 2 ^ 26 /\ 0 <= l3 r < 2 ^ 26 /\
  0 <= l4 r < 2 ^ 20.

Definition acc_ok (top : Z) (h : limbs) : Prop :=
  0 <= l0 h <= 3500000000 /\ 0 <= l1 h < 2 ^ 26 /\ 0 <= l2 h < 2 ^ 26 /\ 0 <= l3 h < 2 ^ 26 /\
  0 <= l4 h < top.

Lemma mult_ok_rfc key : bytes key -> mult_ok (limbs_of (rfc_r key)).
Proof.
  intros Hk. pose proof (rfc_r_range _ Hk). unfold mult_ok; cbn [limbs_of l0 l1 l2 l3 l4].
  assert (0 <= limb 4 (rfc_r key) < 2 ^ 20).
  { unfold limb. assert (0 <= rfc_r key / 2 ^ (26 * 4) < 2 ^ 20)
      by (split; [apply Z.div_pos|apply Z.div_lt_upper_bound]; lia).
    now rewrite Z.mod_small by lia. }
  auto using limb_range.
Qed.

Lemma mul_bound a b A B : 0 <= a <= A -> 0 <= b <= B -> 0 <= a * b <= A * B.
Proof. nia. Qed.

(** The carry chain: reducing five 64-bit columns keeps the value modulo [p]. *)
Lemma carry_spec d0 d1 d2 d3 d4 :
  0 <= d0 <= 2 ^ 60 -> 0 <= d1 <= 2 ^ 60 -> 0 <= d2 <= 2 ^ 60 -> 0 <= d3 <= 2 ^ 60 ->
  0 <= d4 <= 45000000000000000 ->
  let e1 := d1 + d0 / 2 ^ 26 in let e2 := d2 + e1 / 2 ^ 26 in
  let e3 := d3 + e2 / 2 ^ 26 in let e4 := d4 + e3 / 2 ^ 26 in
  u64 d0 = d0 /\ u64 (u64 d1 + d0 / 2 ^ 26) = e1 /\ u64 (u64 d2 + e1 / 2 ^ 26) = e2 /\
  u64 (u64 d3 + e2 / 2 ^ 26) = e3 /\ u64 (u64 d4 + e3 / 2 ^ 26) = e4 /\
  0 <= e4 / 2 ^ 26 * 5 <= 3400000000.
Proof.
  intros H0 H1 H2 H3 H4 e1 e2 e3 e4.
  assert (K : forall x, 0 <= x <= 2 ^ 61 -> 0 <= x / 2 ^ 26 <= 2 ^ 35)
    by (intros; split; [apply Z.div_pos|apply Z.div_le_upper_bound]; lia).
  assert (e1 = d1 + d0 / 2 ^ 26) by reflexivity. assert (e2 = d2 + e1 / 2 ^ 26) by reflexivity.
  assert (e3 = d3 + e2 / 2 ^ 26) by reflexivity. assert (e4 = d4 + e3 / 2 ^ 26) by reflexivity.
  clearbody e1 e2 e3 e4. pose proof (K d0 ltac:(lia)). pose proof (K e1 ltac:(lia)).
  pose proof (K e2 ltac:(lia)). pose proof (K e3 ltac:(lia)).
  assert (0 <= e4 / 2 ^ 26 <= 680000000)
    by (split; [apply Z.div_pos|apply Z.div_le_upper_bound]; lia).
  rewrite (u64_small d1), (u64_small d2), (u64_small d3), (u64_small d4) by lia.
  split_and; rewrite ?u64_small; lia.
Qed.

(** Schoolbook multiplication of limbs, with the columns above [2^130] folded back. *)
Lemma columns_spec r h :
  let s1 := l1 r * 5 in let s2 := l2 r * 5 in let s3 := l3 r * 5 in let s4 := l4 r * 5 in
  let d0 := l0 h * l0 r + l1 h * s4 + l2 h * s3 + l3 h * s2 + l4 h * s1 in
  let d1 := l0 h * l1 r + l1 h * l0 r + l2 h * s4 + l3 h * s3 + l4 h * s2 in
  let d2 := l0 h * l2 r + l1 h * l1 r + l2 h * l0 r + l3 h * s4 + l4 h * s3 in
  let d3 := l0 h * l3 r + l1 h * l2 r + l2 h * l1 r + l3 h * l0 r + l4 h * s4 in
  let d4 := l0 h * l4 r + l1 h * l3 r + l2 h * l2 r + l3 h * l1 r + l4 h * l0 r in
  (exists c, val (mk_limbs d0 d1 d2 d3 d4) = val h * val r - poly_p * c) /\
  (mult_ok r -> 0 <= l0 h <= 3600000000 -> 0 <= l1 h < 2 ^ 27 -> 0 <= l2 h < 2 ^ 27 ->
   0 <= l3 h < 2 ^ 27 -> 0 <= l4 h < 2 ^ 27 ->
   0 <= d0 <= 2 ^ 60 /\ 0 <= d1 <= 2 ^ 60 /\ 0 <= d2 <= 2 ^ 60 /\ 0 <= d3 <= 2 ^ 60 /\
   0 <= d4 <= 44000000000000000).
Proof.
  intros s1 s2 s3 s4 d0 d1 d2 d3 d4. split.
  - exists (l1 h * l4 r + l2 h * l3 r + l3 h * l2 r + l4 h * l1 r
            + 2 ^ 26 * (l2 h * l4 r + l3 h * l3 r + l4 h * l2 r)
            + 2 ^ 52 * (l3 h * l4 r + l4 h * l3 r) + 2 ^ 78 * (l4 h * l4 r)).
    unfold val, poly_p. cbn [l0 l1 l2 l3 l4]. subst d0 d1 d2 d3 d4 s1 s2 s3 s4. ring.
  - intros (R0 & R1 & R2 & R3 & R4) H0 H1 H2 H3 H4. subst d0 d1 d2 d3 d4 s1 s2 s3 s4.
    rewrite !Z.mul_assoc.
    repeat match goal with
    | |- context [?a * ?b] =>
        match a with l0 h => idtac | l1 h => idtac | l2 h => idtac | l3 h => idtac | l4 h => idtac end;
        let A := match a with l0 h => constr:(3600000000) | _ => constr:(2 ^ 27) end in
        let B := match b with l4 r => constr:(2 ^ 20) | _ => constr:(2 ^ 26) end in
        pose proof (mul_bound a b A B ltac:(lia) ltac:(lia));
        generalize dependent (a * b); intros
    end; lia.
Qed.

(** One block: the accumulator stays in range and takes the value
    [(h + block) * r] modulo [p]. *)
Lemma poly1305_process_spec r h msg :
  mult_ok r -> acc_ok (2 ^ 26 + 2 ^ 24) h -> bytes msg -> (16 <= length msg)%nat ->
  acc_ok (2 ^ 26) (poly1305_process r h msg) /\
  exists c, val (poly1305_process r h msg) =
            (val h + le_num (firstn 16 msg)) * val r - poly_p * c.
Proof.
  intros Hr (H0 & H1 & H2 & H3 & H4) Hb Hl. pose proof Hr as (R0 & R1 & R2 & R3 & R4).
  set (x := le_num (firstn 16 msg)).
  assert (Hx : 0 <= x < 2 ^ 128).
  { pose proof (le_num_range _ (bytes_firstn 16 _ Hb)) as H.
    now rewrite firstn_length_le in H by lia. }
  assert (Hv : val (limbs_of x) = x) by (apply val_limbs_of; lia).
  unfold poly1305_process.
  rewrite (load_limb msg 0), (load_limb msg 1), (load_limb msg 2), (load_limb msg 3)
    by (simpl; auto 10).
  assert (H4m : Z.shiftr (LOAD32_LE msg 12) 8 = limb 4 x /\ limb 4 x < 2 ^ 24).
  { unfold x. rewrite <- (load_limb msg 4 12 8), land_26 by (simpl; auto 10).
    pose proof (LOAD32_LE_range msg 12 Hb) as Hw. unfold is_u32 in Hw.
    rewrite Z.shiftr_div_pow2 by lia.
    assert (0 <= LOAD32_LE msg 12 / 2 ^ 8 < 2 ^ 24)
      by (split; [apply Z.div_pos|apply Z.div_lt_upper_bound]; lia).
    rewrite Z.mod_small by lia. lia. }
  destruct H4m as [-> H4m]. fold x.
  pose proof (limb_range 0 x). pose proof (limb_range 1 x). pose proof (limb_range 2 x).
  pose proof (limb_range 3 x). pose proof (limb_range 4 x).
  rewrite !(u32_small (_ * 5)), !(u32_small (_ + limb _ _)) by (unfold is_u32; lia).
  pose proof (columns_spec r (mk_limbs (l0 h + limb 0 x) (l1 h + limb 1 x) (l2 h + limb 2 x)
    (l3 h + limb 3 x) (l4 h + limb 4 x))) as [[c Hc] Hd].
  cbn [l0 l1 l2 l3 l4] in Hc, Hd. destruct Hd as (D0 & D1 & D2 & D3 & D4); auto; try lia.
  match type of Hc with val (mk_limbs ?a ?b ?c ?d ?e) = _ =>
    set (d0 := a) in *; set (d1 := b) in *; set (d2 := c) in *; set (d3 := d) in *;
    set (d4 := e) in *; clearbody d0 d1 d2 d3 d4 end.
  destruct (carry_spec d0 d1 d2 d3 d4) as (-> & E1 & E2 & E3 & E4 & E5); try lia.
  rewrite !Z.shiftr_div_pow2, E1, E2, E3, E4, !land_26 by lia.
  set (e1 := d1 + _) in *. set (e2 := d2 + _) in *. set (e3 := d3 + _) in *.
  set (e4 := d4 + _) in *. set (q := e4 / 2 ^ 26) in *.
  pose proof (Z.mod_pos_bound d0 (2 ^ 26)). pose proof (Z.mod_pos_bound e1 (2 ^ 26)).
  pose proof (Z.mod_pos_bound e2 (2 ^ 26)). pose proof (Z.mod_pos_bound e3 (2 ^ 26)).
  pose proof (Z.mod_pos_bound e4 (2 ^ 26)).
  rewrite (u32_small q), (u32_small (q * 5)), u32_small by (unfold is_u32; lia).
  split; [unfold acc_ok; cbn [l0 l1 l2 l3 l4]; lia|].
  exists (c + q). rewrite <- Hv at 1.
  replace (val h + val (limbs_of x)) with
    (val (mk_limbs (l0 h + limb 0 x) (l1 h + limb 1 x) (l2 h + limb 2 x)
       (l3 h + limb 3 x) (l4 h + limb 4 x)))
    by (unfold val, limbs_of; cbn [l0 l1 l2 l3 l4]; ring).
  rewrite Z.mul_add_distr_l, Z.sub_add_distr, <- Hc. unfold val, poly_p. cbn [l0 l1 l2 l3 l4].
  rewrite !Z.mod_eq by lia. subst q e4 e3 e2 e1. ring.
Qed.

Lemma step_mod r acc x c :
  ((acc mod poly_p + x) * r) mod poly_p = ((acc + x) * r - poly_p * c) mod poly_p.
Proof.
  replace ((acc + x) * r - poly_p * c) with ((acc + x) * r + - c * poly_p) by ring.
  rewrite Z.mod_add by (unfold poly_p; lia).
  rewrite <- Z.mul_mod_idemp_l, Z.add_mod_idemp_l, Z.mul_mod_idemp_l by (unfold poly_p; lia).
  reflexivity.
Qed.

Lemma acc_ok_zero : acc_ok (2 ^ 26) (mk_limbs 0 0 0 0 0).
Proof. unfold acc_ok; simpl; lia. Qed.

Lemma poly1305_loop_spec r fuel h msg :
  mult_ok r -> acc_ok (2 ^ 26) h -> bytes msg -> (length msg <= fuel)%nat ->
  let '(h', rest) := poly1305_loop fuel r h msg in
  acc_ok (2 ^ 26) h' /\ bytes rest /\ (length rest < 16)%nat /\
  fold_left (rfc_step (val r)) (blocks 16 msg) (val h mod poly_p) =
  fold_left (rfc_step (val r)) (blocks 16 rest) (val h' mod poly_p).
Proof.
  intros Hr. revert h msg. induction fuel as [|fuel IH]; intros h msg Hh Hb Hl; cbn [poly1305_loop].
  { split_and; auto; lia. }
  destruct (Nat.leb_spec 16 (length msg)) as [H16|H16]; [|split_and; auto].
  set (h1 := mk_limbs _ _ _ _ _).
  assert (Hh1 : acc_ok (2 ^ 26 + 2 ^ 24) h1 /\ val h1 = val h + 2 ^ 128).
  { destruct Hh as (? & ? & ? & ? & ?). subst h1. unfold acc_ok, val. cbn [l0 l1 l2 l3 l4].
    rewrite u32_small by (unfold is_u32; lia). lia. }
  destruct Hh1 as [Hh1 Hv1].
  destruct (poly1305_process_spec r h1 msg) as [Hp [c Hc]]; auto.
  specialize (IH (poly1305_process r h1 msg) (skipn 16 msg) Hp (bytes_skipn 16 _ Hb)).
  rewrite length_skipn in IH. specialize (IH ltac:(lia)).
  destruct (poly1305_loop _ _ _ _) as [h' rest]. destruct IH as (Ha & Hbr & Hlr & IH).
  split_and; auto. rewrite <- IH, blocks_cons by (try lia; destruct msg; easy).
  cbn [fold_left]. f_equal. unfold rfc_step. rewrite firstn_length_le by lia.
  change (256 ^ Z.of_nat 16) with (2 ^ 128).
  rewrite Hc, Hv1, <- Z.add_assoc, (step_mod _ _ _ c). f_equal. ring.
Qed.

(** The trailing partial block, closed by a byte 1 and padded with zeros. *)
Lemma le_num_memset_0 n : le_num (memset 0 n) = 0.
Proof. induction n; cbn [memset repeat le_num] in *; unfold memset in *; lia. Qed.

Lemma poly1305_partial_spec r h rest :
  mult_ok r -> acc_ok (2 ^ 26) h -> bytes rest -> (length rest < 16)%nat -> rest <> [] ->
  let h' := poly1305_process r h (rest ++ [1] ++ memset 0 (15 - length rest)) in
  acc_ok (2 ^ 26) h' /\ val h' mod poly_p = rfc_step (val r) (val h mod poly_p) rest.
Proof.
  intros Hr Hh Hb Hl Hne. set (m := rest ++ [1] ++ _).
  assert (Hm : length m = 16%nat)
    by (subst m; rewrite !length_app, length_memset; cbn [length]; lia).
  destruct (poly1305_process_spec r h m) as [Hp [c Hc]]; auto; try lia.
  { unfold acc_ok in *. lia. }
  { subst m. rewrite !bytes_app. split_and; auto.
    - repeat constructor; unfold is_byte; lia.
    - apply bytes_memset. unfold is_byte; lia. }
  split; [exact Hp|]. rewrite Hc. unfold rfc_step. rewrite <- Z.add_assoc, (step_mod _ _ _ c).
  rewrite firstn_all2 by lia. do 3 f_equal. subst m.
  rewrite !le_num_app, le_num_memset_0. cbn [le_num]. ring.
Qed.

(** Comparing [h + 5] with [2^130] decides the reduction modulo [p]. *)
Lemma reduce_spec h :
  acc_ok (2 ^ 26) h ->
  let r0 := (l0 h + 5) / 2 ^ 26 in let r1 := (l1 h + r0) / 2 ^ 26 in
  let r2 := (l2 h + r1) / 2 ^ 26 in let r3 := (l3 h + r2) / 2 ^ 26 in
  let r4 := (l4 h + r3) / 2 ^ 26 in
  0 <= r0 <= 53 /\ 0 <= r1 <= 1 /\ 0 <= r2 <= 1 /\ 0 <= r3 <= 1 /\ 0 <= r4 <= 1 /\
  val h mod poly_p = val h + 5 * r4 - 2 ^ 130 * r4.
Proof.
  intros (H0 & H1 & H2 & H3 & H4) r0 r1 r2 r3 r4.
  assert (S : forall x q, q = x / 2 ^ 26 -> 2 ^ 26 * q <= x < 2 ^ 26 * q + 2 ^ 26)
    by (intros x q ->; pose proof (Z.div_mod x (2 ^ 26)); pose proof (Z.mod_pos_bound x (2 ^ 26)); lia).
  pose proof (S _ r0 eq_refl). pose proof (S _ r1 eq_refl). pose proof (S _ r2 eq_refl).
  pose proof (S _ r3 eq_refl). pose proof (S _ r4 eq_refl).
  clearbody r4. clearbody r3. clearbody r2. clearbody r1. clearbody r0. clear S.
  assert (0 <= r0 <= 53) by lia. assert (0 <= r1 <= 1) by lia. assert (0 <= r2 <= 1) by lia.
  assert (0 <= r3 <= 1) by lia. assert (0 <= r4 <= 1) by lia. split_and; try lia.
  symmetry. apply (Z.mod_unique_pos _ _ r4); unfold val, poly_p; lia.
Qed.

Lemma key_pad key :
  bytes key -> (32 <= length key)%nat ->
  le_num (slice key 16 16) =
  LOAD32_LE key 16 + 2 ^ 32 * LOAD32_LE key 20 + 2 ^ 64 * LOAD32_LE key 24
  + 2 ^ 96 * LOAD32_LE key 28.
Proof.
  intros Hk Hl. change (slice key 16 16) with (slice key 16 (4 + (4 + (4 + 4)))).
  rewrite !slice_plus, !le_num_app, !length_slice by lia. cbn [Nat.add].
  rewrite !slice_4 by lia. cbn [Nat.add]. rewrite <- !LOAD32_LE_num by auto.
  change (256 ^ Z.of_nat 4) with (2 ^ 32). ring.
Qed.

(** Four columns of 32 bits hold the low 128 bits of the sum of their parts. *)
Lemma pack_spec h0 h1 h2 h3 h4 s0 s1 s2 s3 :
  is_u32 h0 -> 0 <= h1 < 2 ^ 26 -> 0 <= h2 < 2 ^ 26 -> 0 <= h3 < 2 ^ 26 -> 0 <= h4 < 2 ^ 26 ->
  is_u32 s0 -> is_u32 s1 -> is_u32 s2 -> is_u32 s3 ->
  let d1 := s0 + h0 + (h1 * 2 ^ 26) mod 2 ^ 32 in
  let d2 := s1 + h1 / 2 ^ 6 + (h2 * 2 ^ 20) mod 2 ^ 32 + d1 / 2 ^ 32 in
  let d3 := s2 + h2 / 2 ^ 12 + (h3 * 2 ^ 14) mod 2 ^ 32 + d2 / 2 ^ 32 in
  let d4 := s3 + h3 / 2 ^ 18 + (h4 * 2 ^ 8) mod 2 ^ 32 + d3 / 2 ^ 32 in
  0 <= d1 < 2 ^ 35 /\ 0 <= d2 < 2 ^ 35 /\ 0 <= d3 < 2 ^ 35 /\ 0 <= d4 < 2 ^ 35 /\
  d1 mod 2 ^ 32 + 2 ^ 32 * (d2 mod 2 ^ 32) + 2 ^ 64 * (d3 mod 2 ^ 32) + 2 ^ 96 * (d4 mod 2 ^ 32) =
  (val (mk_limbs h0 h1 h2 h3 h4) + (s0 + 2 ^ 32 * s1 + 2 ^ 64 * s2 + 2 ^ 96 * s3)) mod 2 ^ 128.
Proof.
  intros H0 H1 H2 H3 H4 S0 S1 S2 S3 d1 d2 d3 d4. unfold is_u32 in *.
  assert (S : forall x m, 0 <= x -> 0 < m ->
    0 <= x / m /\ 0 <= x mod m < m /\ x = m * (x / m) + x mod m)
    by (intros x m Hx Hm; pose proof (Z.div_mod x m); pose proof (Z.mod_pos_bound x m);
        pose proof (Z.div_pos x m); lia).
  assert (E1 : (h1 * 2 ^ 26) mod 2 ^ 32 = h1 mod 2 ^ 6 * 2 ^ 26)
    by apply (Zmult_mod_distr_r h1 (2 ^ 6) (2 ^ 26)).
  assert (E2 : (h2 * 2 ^ 20) mod 2 ^ 32 = h2 mod 2 ^ 12 * 2 ^ 20)
    by apply (Zmult_mod_distr_r h2 (2 ^ 12) (2 ^ 20)).
  assert (E3 : (h3 * 2 ^ 14) mod 2 ^ 32 = h3 mod 2 ^ 18 * 2 ^ 14)
    by apply (Zmult_mod_distr_r h3 (2 ^ 18) (2 ^ 14)).
  assert (E4 : (h4 * 2 ^ 8) mod 2 ^ 32 = h4 mod 2 ^ 24 * 2 ^ 8)
    by apply (Zmult_mod_distr_r h4 (2 ^ 24) (2 ^ 8)).
  pose proof (S h1 (2 ^ 6)). pose proof (S h2 (2 ^ 12)). pose proof (S h3 (2 ^ 18)).
  pose proof (S h4 (2 ^ 24)).
  pose proof (S d1 (2 ^ 32)). pose proof (S d2 (2 ^ 32)). pose proof (S d3 (2 ^ 32)).
  pose proof (S d4 (2 ^ 32)).
  assert (D1 : d1 = s0 + h0 + h1 mod 2 ^ 6 * 2 ^ 26) by (subst d1; lia).
  assert (D2 : d2 = s1 + h1 / 2 ^ 6 + h2 mod 2 ^ 12 * 2 ^ 20 + d1 / 2 ^ 32) by (subst d2; lia).
  assert (D3 : d3 = s2 + h2 / 2 ^ 12 + h3 mod 2 ^ 18 * 2 ^ 14 + d2 / 2 ^ 32) by (subst d3; lia).
  assert (D4 : d4 = s3 + h3 / 2 ^ 18 + h4 mod 2 ^ 24 * 2 ^ 8 + d3 / 2 ^ 32) by (subst d4; lia).
  clearbody d4. clearbody d3. clearbody d2. clearbody d1. clear E1 E2 E3 E4 S.
  assert (B1 : 0 <= d1 < 2 ^ 35) by lia. assert (B2 : 0 <= d2 < 2 ^ 35) by lia.
  assert (B3 : 0 <= d3 < 2 ^ 35) by lia. assert (B4 : 0 <= d4 < 2 ^ 35) by lia.
  split_and; try lia.
  apply (Z.mod_unique_pos _ _ (h4 / 2 ^ 24 + d4 / 2 ^ 32)); unfold val; cbn [l0 l1 l2 l3 l4]; lia.
Qed.

Lemma poly1305_finish_spec h key :
  acc_ok (2 ^ 26) h -> bytes key -> (32 <= length key)%nat ->
  le_num (poly1305_finish h key) = (val h mod poly_p + le_num (slice key 16 16)) mod 2 ^ 128.
Proof.
  intros Hh Hk Hl. pose proof (reduce_spec h Hh) as (Q0 & Q1 & Q2 & Q3 & Q4 & ->).
  rewrite key_pad by auto. destruct Hh as (H0 & H1 & H2 & H3 & H4). unfold poly1305_finish.
  rewrite (u32_small (l0 h + 5)) by (unfold is_u32; lia).
  rewrite !Z.shiftr_div_pow2, Z.pow_0_r, Z.div_1_r in * by lia.
  set (r0 := (l0 h + 5) / 2 ^ 26) in *.
  rewrite (u32_small (l1 h + r0)) by (unfold is_u32; lia). set (r1 := (l1 h + r0) / 2 ^ 26) in *.
  rewrite (u32_small (l2 h + r1)) by (unfold is_u32; lia). set (r2 := (l2 h + r1) / 2 ^ 26) in *.
  rewrite (u32_small (l3 h + r2)) by (unfold is_u32; lia). set (r3 := (l3 h + r2) / 2 ^ 26) in *.
  rewrite (u32_small (l4 h + r3)) by (unfold is_u32; lia). set (r4 := (l4 h + r3) / 2 ^ 26) in *.
  rewrite (u32_small (r4 * 5)), (u32_small (l0 h + r4 * 5)) by (unfold is_u32; lia).
  rewrite !Z.shiftl_mul_pow2, !(u32_mod (_ * _)) by lia.
  destruct (pack_spec (l0 h + r4 * 5) (l1 h) (l2 h) (l3 h) (l4 h) (LOAD32_LE key 16)
    (LOAD32_LE key 20) (LOAD32_LE key 24) (LOAD32_LE key 28)) as (D1 & D2 & D3 & D4 & HD);
    auto using LOAD32_LE_range; try (unfold is_u32; lia).
  set (d1 := LOAD32_LE key 16 + _ + _) in *. rewrite (u64_small d1) by lia.
  set (d2 := LOAD32_LE key 20 + _ + _ + _) in *. rewrite (u64_small d2) by lia.
  set (d3 := LOAD32_LE key 24 + _ + _ + _) in *. rewrite (u64_small d3) by lia.
  set (d4 := LOAD32_LE key 28 + _ + _ + _) in *. rewrite (u64_small d4) by lia.
  rewrite !le_num_app, !length_STORE32_LE, !le_num_STORE32_LE.
  rewrite !(u32_small (u32 _)), !u32_mod by apply u32_range.
  change (256 ^ Z.of_nat 4) with (2 ^ 32).
  transitivity (d1 mod 2 ^ 32 + 2 ^ 32 * (d2 mod 2 ^ 32) + 2 ^ 64 * (d3 mod 2 ^ 32)
                + 2 ^ 96 * (d4 mod 2 ^ 32)); [ring|]. rewrite HD.
  rewrite <- (Z.mod_add _ (- (4 * r4)) (2 ^ 128)) by lia. f_equal.
  unfold val. cbn [l0 l1 l2 l3 l4]. ring.
Qed.

Lemma length_poly1305 msg key : length (poly1305 msg key) = 16%nat.
Proof.
  unfold poly1305. destruct (poly1305_loop _ _ _ _). unfold poly1305_finish.
  now rewrite !length_app, !length_STORE32_LE.
Qed.

Lemma bytes_poly1305 msg key : bytes (poly1305 msg key).
Proof.
  unfold poly1305. destruct (poly1305_loop _ _ _ _). unfold poly1305_finish.
  rewrite !bytes_app. auto using STORE32_LE_bytes.
Qed.

(** for every message and every 32-byte key the code computes the Poly1305 tag of
    RFC 8439: the little-endian number of its sixteen bytes is the clamped
    polynomial evaluated modulo [2^130 - 5] plus the pad, modulo [2^128].  No
    32-bit or 64-bit intermediate of the limb arithmetic overflows. *)
Theorem poly1305_rfc8439 (msg key : list Z) :
  bytes msg -> bytes key -> (32 <= length key)%nat ->
  length (poly1305 msg key) = 16%nat /\ bytes (poly1305 msg key) /\
  le_num (poly1305 msg key) = rfc_poly1305 msg key.
Proof.
  intros Hm Hk Hl. split; [apply length_poly1305|]. split; [apply bytes_poly1305|].
  unfold poly1305, rfc_poly1305. rewrite poly1305_r_limbs by (auto; lia).
  pose proof (mult_ok_rfc key Hk) as Hr. pose proof (rfc_r_range key Hk).
  assert (Hv : val (limbs_of (rfc_r key)) = rfc_r key) by (apply val_limbs_of; lia).
  pose proof (poly1305_loop_spec _ (length msg) _ msg Hr acc_ok_zero Hm ltac:(lia)) as HL.
  destruct (poly1305_loop _ _ _ _) as [h rest]. destruct HL as (Ha & Hb & Hlt & HL).
  rewrite Hv in HL. change (val (mk_limbs 0 0 0 0 0) mod poly_p) with 0 in HL. rewrite HL.
  destruct rest as [|b rest]; [rewrite blocks_nil; now apply poly1305_finish_spec|].
  pose proof (poly1305_partial_spec _ h (b :: rest) Hr Ha Hb Hlt ltac:(easy)) as [Hp Hq].
  rewrite poly1305_finish_spec by auto. rewrite Hq, Hv. do 2 f_equal.
  rewrite blocks_cons, firstn_all2, skipn_all2 by (easy || lia).
  rewrite blocks_nil. reflexivity.
Qed.

Lemma poly1305_rfc8439_witness :
  let msg := memset 9 37 in let key := memset 255 32 in
  length (poly1305 msg key) = 16%nat /\ bytes (poly1305 msg key) /\
  le_num (poly1305 msg key) = rfc_poly1305 msg key.
Proof.
  intros msg key. apply (poly1305_rfc8439 msg key); [apply bytes_memset|apply bytes_memset|];
    unfold is_byte; simpl; lia.
Defined.

Lemma poly1305_tagcmp_spec t1 t2 :
  (16 <= length t1)%nat -> (16 <= length t2)%nat ->
  poly1305_tagcmp t1 t2 = 0 <-> firstn 16 t1 = firstn 16 t2.
Proof.
  intros H1 H2. unfold poly1305_tagcmp. rewrite fold_lor_zero, Forall_forall. split.
  - intros [_ H]. apply (nth_ext _ _ 0 0); rewrite !firstn_length_le by lia; [easy|].
    intros i Hi. rewrite !nth_firstn. destruct (Nat.ltb_spec i 16); [|lia].
    apply Z.lxor_eq, H, in_seq. lia.
  - intros H. split; [easy|]. intros i Hi%in_seq. apply Z.lxor_eq_0_iff.
    pose proof (f_equal (fun l => nth i l 0) H) as Hn. cbv beta in Hn.
    rewrite !nth_firstn in Hn. destruct (Nat.ltb_spec i 16); [easy|lia].
Qed.
