(* ===== verification/Streaming.v ===== *)
(** * Block-wise absorption of a byte stream

    The four hash functions of the library (md5.c, sha1.c, sha2.c) share one
    shape: input is collected in a buffer of one block, every full block is
    compressed into the chaining value.  [absorb] is that behaviour without the
    buffer, the reference each [update] function is compared with. *)

From Stdlib Require Import ZArith Lia List Bool.
From S2P Require Import Prelude.
Import ListNotations.

Section Absorb.
Context {S : Type} (compress : S -> list Z -> S) (n : nat) (Hn : 0 < n).

(** The chaining value after the full blocks of [msg], and the bytes left over. *)
Definition absorb (st : S) (msg : list Z) : S * list Z :=
  let k := length msg / n * n in
  (fold_left compress (blocks n (firstn k msg)) st, skipn k msg).

Lemma absorb_intro st full rest k :
  length full = k * n -> length rest < n ->
  absorb st (full ++ rest) = (fold_left compress (blocks n full) st, rest).
Proof.
  intros Hf Hr. unfold absorb. rewrite length_app, Hf.
  replace ((k * n + length rest) / n) with k.
  2: { rewrite Nat.add_comm, Nat.div_add, Nat.div_small by lia. lia. }
  now rewrite firstn_app_l, skipn_app_l by auto.
Qed.

(** Every message splits into full blocks and a short rest. *)
Lemma absorb_split (msg : list Z) :
  exists k full rest, msg = full ++ rest /\ length full = k * n /\ length rest < n.
Proof.
  exists (length msg / n), (firstn (length msg / n * n) msg), (skipn (length msg / n * n) msg).
  pose proof (Nat.div_mod_eq (length msg) n). pose proof (Nat.mod_upper_bound (length msg) n).
  rewrite firstn_skipn, length_firstn, length_skipn. split_and; [easy| |]; nia.
Qed.

Lemma absorb_small st msg : length msg < n -> absorb st msg = (st, msg).
Proof. intros. now apply (absorb_intro st [] msg 0). Qed.

Lemma absorb_full st msg k :
  length msg = k * n -> absorb st msg = (fold_left compress (blocks n msg) st, []).
Proof. intros H. rewrite <- (app_nil_r msg) at 1. now rewrite (absorb_intro st msg [] k). Qed.

Lemma absorb_rest st msg : length (snd (absorb st msg)) = length msg mod n.
Proof.
  destruct (absorb_split msg) as (k & f & r & -> & Hf & Hr).
  rewrite (absorb_intro st f r k) by auto. cbn [snd].
  rewrite length_app, Hf, Nat.add_comm, Nat.Div0.mod_add, Nat.mod_small; auto.
Qed.

(** Absorption is incremental: the rest is carried over to the next input. *)
Lemma absorb_app st a b :
  absorb st (a ++ b) = absorb (fst (absorb st a)) (snd (absorb st a) ++ b).
Proof.
  destruct (absorb_split a) as (k & f & r & -> & Hf & Hr).
  rewrite (absorb_intro st f r k) by auto. cbn [fst snd]. rewrite <- app_assoc.
  destruct (absorb_split (r ++ b)) as (k' & f' & r' & E & Hf' & Hr'). rewrite E, app_assoc.
  rewrite (absorb_intro _ (f ++ f') r' (k + k')) by (rewrite ?length_app; nia).
  rewrite (absorb_intro _ f' r' k') by auto.
  now rewrite (blocks_app n k), fold_left_app by auto.
Qed.

Lemma absorb_block st b msg :
  length b = n -> absorb st (b ++ msg) = absorb (compress st b) msg.
Proof.
  intros Hb. rewrite absorb_app, (absorb_full st b 1) by lia. cbn [fst snd app].
  pose proof (blocks_app_one n b [] Hn Hb) as E. rewrite app_nil_r, blocks_nil in E.
  now rewrite E.
Qed.

(** The two stages of an [update]: top up a partial block, then take the rest. *)
Lemma absorb_topup st tail d used :
  length tail = used -> used < n -> n - used <= length d ->
  absorb st (tail ++ d) =
  absorb (compress st (tail ++ firstn (n - used) d)) (skipn (n - used) d).
Proof.
  intros Ht Hu Hd. rewrite <- (firstn_skipn (n - used) d) at 1. rewrite app_assoc.
  apply absorb_block. rewrite length_app, firstn_length_le by lia. lia.
Qed.

End Absorb.

(** ** Big-endian words and length strengthening (FIPS 180) *)

Local Open Scope Z_scope.

(** The [n] low bytes of [v], most significant first. *)
Fixpoint be_bytes (n : nat) (v : Z) : list Z :=
  match n with
  | O => []
  | S n => be_bytes n (Z.shiftr v 8) ++ [u8 v]
  end.

(** A 1 bit, zeros, and the bit length in [lenbytes] bytes, up to a whole block. *)
Definition md_padding (bs lenbytes len : nat) : list Z :=
  [0x80] ++ memset 0 ((2 * bs - 1 - lenbytes - len mod bs) mod bs) ++
  be_bytes lenbytes (8 * Z.of_nat len).

(** The chaining value of a whole message. *)
Definition md_state {S} (compress : S -> list Z -> S) (iv : S) (bs lenbytes : nat)
    (msg : list Z) : S :=
  fold_left compress (blocks bs (msg ++ md_padding bs lenbytes (length msg))) iv.

Lemma length_be_bytes n v : length (be_bytes n v) = n.
Proof. revert v. induction n; intros v; simpl; auto. rewrite length_app, IHn. simpl. lia. Qed.

Lemma bytes_be_bytes n v : bytes (be_bytes n v).
Proof.
  revert v. induction n; intros v; simpl; [constructor|].
  apply bytes_app. split; [apply IHn|]. repeat constructor; apply u8_range.
Qed.

(** Leading zero bytes of a small number. *)
Lemma be_bytes_small n m v :
  0 <= v < 256 ^ Z.of_nat m -> be_bytes (n + m) v = memset 0 n ++ be_bytes m v.
Proof.
  revert v. induction m as [|m IH]; intros v Hv.
  - rewrite Nat.add_0_r, app_nil_r. simpl in Hv. assert (v = 0) as -> by lia. clear Hv.
    induction n as [|n IHn]; [reflexivity|]. cbn [be_bytes]. change (Z.shiftr 0 8) with 0.
    rewrite IHn. change (u8 0) with 0. unfold memset. now rewrite <- repeat_cons.
  - rewrite Nat.add_succ_r. cbn [be_bytes]. rewrite Nat2Z.inj_succ, Z.pow_succ_r in Hv by lia.
    rewrite IH, app_assoc by (rewrite Z.shiftr_div_pow2 by lia; split;
      [apply Z.div_pos; lia|apply Z.div_lt_upper_bound; lia]).
    reflexivity.
Qed.

Lemma md_zeros bs lb len :
  (lb + 1 < bs)%nat -> (len < bs)%nat ->
  ((2 * bs - 1 - lb - len) mod bs = bs - 1 - lb - len /\ len + lb < bs \/
   (2 * bs - 1 - lb - len) mod bs = 2 * bs - 1 - lb - len /\ bs <= len + lb)%nat.
Proof.
  intros Hb Hl. destruct (Nat.lt_ge_cases (len + lb) bs); [left|right].
  - replace (2 * bs - 1 - lb - len)%nat with (bs - 1 - lb - len + 1 * bs)%nat by lia.
    rewrite Nat.Div0.mod_add, Nat.mod_small; lia.
  - rewrite Nat.mod_small; lia.
Qed.

(** Message and padding fill whole blocks. *)
Lemma md_padding_length bs lb (msg : list Z) :
  (lb + 1 < bs)%nat ->
  exists k, length (msg ++ md_padding bs lb (length msg)) = (k * bs)%nat.
Proof.
  intros Hb. set (u := (length msg mod bs)%nat).
  pose proof (Nat.div_mod_eq (length msg) bs) as Hm. fold u in Hm.
  assert (u < bs)%nat by (apply Nat.mod_upper_bound; lia).
  unfold md_padding. rewrite !length_app, length_memset, length_be_bytes. fold u. cbn [length].
  destruct (md_zeros bs lb u) as [[-> ?]|[-> ?]]; auto.
  - exists (length msg / bs + 1)%nat. nia.
  - exists (length msg / bs + 2)%nat. nia.
Qed.

Lemma md_state_absorb {S} (compress : S -> list Z -> S) iv bs lb msg :
  (lb + 1 < bs)%nat ->
  md_state compress iv bs lb msg =
  fst (absorb compress bs (fst (absorb compress bs iv msg))
         (snd (absorb compress bs iv msg) ++ md_padding bs lb (length msg))).
Proof.
  intros Hb. destruct (md_padding_length bs lb msg Hb) as [k Hk].
  rewrite <- absorb_app, (absorb_full compress bs ltac:(lia) iv _ k Hk) by lia. reflexivity.
Qed.

Lemma fold_left_pointwise {A B} (f g : A -> B -> A) l a :
  (forall a b, f a b = g a b) -> fold_left f l a = fold_left g l a.
Proof. intros E. revert a. induction l as [|b l IH]; intros a; simpl; [reflexivity|]. now rewrite E. Qed.

Lemma md_state_ext {S} (f g : S -> list Z -> S) iv bs lb msg :
  (forall h b, f h b = g h b) -> md_state f iv bs lb msg = md_state g iv bs lb msg.
Proof. intros E. now apply fold_left_pointwise. Qed.

Lemma be_bytes_app n m v :
  be_bytes (n + m) v = be_bytes n (Z.shiftr v (8 * Z.of_nat m)) ++ be_bytes m v.
Proof.
  revert v. induction m as [|m IH]; intros v.
  - now rewrite Nat.add_0_r, app_nil_r.
  - rewrite Nat.add_succ_r. cbn [be_bytes]. rewrite IH, app_assoc. do 3 f_equal.
    rewrite Z.shiftr_shiftr by lia. f_equal. lia.
Qed.

(** Only the low bytes of the number matter. *)
Lemma be_bytes_mod n v : be_bytes n (v mod 256 ^ Z.of_nat n) = be_bytes n v.
Proof.
  revert v. induction n as [|n IH]; intros v; [reflexivity|]. cbn [be_bytes].
  rewrite Nat2Z.inj_succ, Z.pow_succ_r by lia.
  assert (0 < 256 ^ Z.of_nat n) by (apply Z.pow_pos_nonneg; lia).
  rewrite !u8_mod, !Z.shiftr_div_pow2, Z.rem_mul_r by lia. change (2 ^ 8) with 256. f_equal.
  - rewrite (Z.mul_comm 256), Z.div_add, Z.div_small, Z.add_0_l by (try apply Z.mod_pos_bound; lia).
    apply IH.
  - f_equal. rewrite (Z.mul_comm 256), Z.mod_add, Z.mod_mod; lia.
Qed.
