(* ===== verification/Md5.v ===== *)
(** * The MD5 message digest

    Model of md5.c ([MD5_Init], [MD5_Update], [MD5_Final] and the block
    function [body]).  The ciphers use MD5 to derive page keys and
    initialisation vectors.  Two results: the unrolled rounds compute the
    table-driven compression function of RFC 1321, and hashing in any sequence
    of updates gives the digest of the concatenated input, for every length. *)

From Stdlib Require Import ZArith Lia List Bool.
From S2P Require Import Prelude ChaCha20 Streaming.
Import ListNotations.
Local Open Scope Z_scope.

(** ** The block function *)

Definition F (x y z : Z) : Z := Z.lxor z (Z.land x (Z.lxor y z)).
Definition G (x y z : Z) : Z := Z.lxor y (Z.land z (Z.lxor x y)).
Definition H (x y z : Z) : Z := Z.lxor (Z.lxor x y) z.
Definition H2 (x y z : Z) : Z := Z.lxor x (Z.lxor y z).
Definition I (x y z : Z) : Z := Z.lxor y (Z.lor x (u32 (Z.lnot z))).

(** The macro [STEP]: the registers [a b c d] are positions of the state [st]. *)
Definition STEP (f : Z -> Z -> Z -> Z) (a b c d : nat) (x t s : Z) (st : list Z) : list Z :=
  let st := st.[a <- u32 (st.[a] + u32 (f st.[b] st.[c] st.[d] + x + t))] in
  let st := st.[a <- Z.lor (u32 (Z.shiftl st.[a] s))
                           (Z.shiftr (Z.land st.[a] 0xffffffff) (32 - s))] in
  st.[a <- u32 (st.[a] + st.[b])].

(** Word [n] of the block, little-endian ([SET] and [GET]). *)
Definition GET (ptr : list Z) (n : nat) : Z := LOAD32_LE ptr (4 * n).

Definition body_rounds (st ptr : list Z) : list Z :=
  let a := 0%nat in let b := 1%nat in let c := 2%nat in let d := 3%nat in
  (* Round 1 *)
  let st := STEP F a b c d (GET ptr 0) 0xd76aa478 7 st in
  let st := STEP F d a b c (GET ptr 1) 0xe8c7b756 12 st in
  let st := STEP F c d a b (GET ptr 2) 0x242070db 17 st in
  let st := STEP F b c d a (GET ptr 3) 0xc1bdceee 22 st in
  let st := STEP F a b c d (GET ptr 4) 0xf57c0faf 7 st in
  let st := STEP F d a b c (GET ptr 5) 0x4787c62a 12 st in
  let st := STEP F c d a b (GET ptr 6) 0xa8304613 17 st in
  let st := STEP F b c d a (GET ptr 7) 0xfd469501 22 st in
  let st := STEP F a b c d (GET ptr 8) 0x698098d8 7 st in
  let st := STEP F d a b c (GET ptr 9) 0x8b44f7af 12 st in
  let st := STEP F c d a b (GET ptr 10) 0xffff5bb1 17 st in
  let st := STEP F b c d a (GET ptr 11) 0x895cd7be 22 st in
  let st := STEP F a b c d (GET ptr 12) 0x6b901122 7 st in
  let st := STEP F d a b c (GET ptr 13) 0xfd987193 12 st in
  let st := STEP F c d a b (GET ptr 14) 0xa679438e 17 st in
  let st := STEP F b c d a (GET ptr 15) 0x49b40821 22 st in
  (* Round 2 *)
  let st := STEP G a b c d (GET ptr 1) 0xf61e2562 5 st in
  let st := STEP G d a b c (GET ptr 6) 0xc040b340 9 st in
  let st := STEP G c d a b (GET ptr 11) 0x265e5a51 14 st in
  let st := STEP G b c d a (GET ptr 0) 0xe9b6c7aa 20 st in
  let st := STEP G a b c d (GET ptr 5) 0xd62f105d 5 st in
  let st := STEP G d a b c (GET ptr 10) 0x02441453 9 st in
  let st := STEP G c d a b (GET ptr 15) 0xd8a1e681 14 st in
  let st := STEP G b c d a (GET ptr 4) 0xe7d3fbc8 20 st in
  let st := STEP G a b c d (GET ptr 9) 0x21e1cde6 5 st in
  let st := STEP G d a b c (GET ptr 14) 0xc33707d6 9 st in
  let st := STEP G c d a b (GET ptr 3) 0xf4d50d87 14 st in
  let st := STEP G b c d a (GET ptr 8) 0x455a14ed 20 st in
  let st := STEP G a b c d (GET ptr 13) 0xa9e3e905 5 st in
  let st := STEP G d a b c (GET ptr 2) 0xfcefa3f8 9 st in
  let st := STEP G c d a b (GET ptr 7) 0x676f02d9 14 st in
  let st := STEP G b c d a (GET ptr 12) 0x8d2a4c8a 20 st in
  (* Round 3 *)
  let st := STEP H a b c d (GET ptr 5) 0xfffa3942 4 st in
  let st := STEP H2 d a b c (GET ptr 8) 0x8771f681 11 st in
  let st := STEP H c d a b (GET ptr 11) 0x6d9d6122 16 st in
  let st := STEP H2 b c d a (GET ptr 14) 0xfde5380c 23 st in
  let st := STEP H a b c d (GET ptr 1) 0xa4beea44 4 st in
  let st := STEP H2 d a b c (GET ptr 4) 0x4bdecfa9 11 st in
  let st := STEP H c d a b (GET ptr 7) 0xf6bb4b60 16 st in
  let st := STEP H2 b c d a (GET ptr 10) 0xbebfbc70 23 st in
  let st := STEP H a b c d (GET ptr 13) 0x289b7ec6 4 st in
  let st := STEP H2 d a b c (GET ptr 0) 0xeaa127fa 11 st in
  let st := STEP H c d a b (GET ptr 3) 0xd4ef3085 16 st in
  let st := STEP H2 b c d a (GET ptr 6) 0x04881d05 23 st in
  let st := STEP H a b c d (GET ptr 9) 0xd9d4d039 4 st in
  let st := STEP H2 d a b c (GET ptr 12) 0xe6db99e5 11 st in
  let st := STEP H c d a b (GET ptr 15) 0x1fa27cf8 16 st in
  let st := STEP H2 b c d a (GET ptr 2) 0xc4ac5665 23 st in
  (* Round 4 *)
  let st := STEP I a b c d (GET ptr 0) 0xf4292244 6 st in
  let st := STEP I d a b c (GET ptr 7) 0x432aff97 10 st in
  let st := STEP I c d a b (GET ptr 14) 0xab9423a7 15 st in
  let st := STEP I b c d a (GET ptr 5) 0xfc93a039 21 st in
  let st := STEP I a b c d (GET ptr 12) 0x655b59c3 6 st in
  let st := STEP I d a b c (GET ptr 3) 0x8f0ccc92 10 st in
  let st := STEP I c d a b (GET ptr 10) 0xffeff47d 15 st in
  let st := STEP I b c d a (GET ptr 1) 0x85845dd1 21 st in
  let st := STEP I a b c d (GET ptr 8) 0x6fa87e4f 6 st in
  let st := STEP I d a b c (GET ptr 15) 0xfe2ce6e0 10 st in
  let st := STEP I c d a b (GET ptr 6) 0xa3014314 15 st in
  let st := STEP I b c d a (GET ptr 13) 0x4e0811a1 21 st in
  let st := STEP I a b c d (GET ptr 4) 0xf7537e82 6 st in
  let st := STEP I d a b c (GET ptr 11) 0xbd3af235 10 st in
  let st := STEP I c d a b (GET ptr 2) 0x2ad7d2bb 15 st in
  let st := STEP I b c d a (GET ptr 9) 0xeb86d391 21 st in
  st.

Definition body_block (saved ptr : list Z) : list Z :=
  let st := body_rounds saved ptr in
  [u32 (st.[0] + saved.[0]); u32 (st.[1] + saved.[1]);
   u32 (st.[2] + saved.[2]); u32 (st.[3] + saved.[3])].

(** The [do .. while (size -= 64)] loop over the whole blocks of [ptr]. *)
Fixpoint body_loop (fuel : nat) (st ptr : list Z) : list Z :=
  match fuel with
  | O => st
  | S fuel =>
      let st := body_block st ptr in
      if (length ptr - 64 =? 0)%nat then st else body_loop fuel st (skipn 64 ptr)
  end.

Definition body (st data : list Z) : list Z := body_loop (length data) st data.

(** ** The context *)

Record MD5_CTX := mk_md5 {
  md5_lo : Z; md5_hi : Z; md5_st : list Z (* a, b, c, d *); md5_buffer : list Z }.

(** [MD5_Init] leaves the buffer as it finds it. *)
Definition MD5_Init (ctx : MD5_CTX) : MD5_CTX :=
  mk_md5 0 0 [0x67452301; 0xefcdab89; 0x98badcfe; 0x10325476] (md5_buffer ctx).

(** The part of [MD5_Update] after a partial block has been completed. *)
Definition MD5_Update_tail (ctx : MD5_CTX) (data : list Z) : MD5_CTX :=
  let size := length data in
  let k := (size - size mod 64)%nat in
  let st := if (64 <=? size)%nat then body (md5_st ctx) (firstn k data) else md5_st ctx in
  let data := if (64 <=? size)%nat then skipn k data else data in
  mk_md5 (md5_lo ctx) (md5_hi ctx) st (memcpy (md5_buffer ctx) 0 data).

Definition MD5_Update (ctx : MD5_CTX) (data : list Z) : MD5_CTX :=
  let size := Z.of_nat (length data) in
  let saved_lo := md5_lo ctx in
  let lo := Z.land (u64 (saved_lo + size)) 0x1fffffff in
  let hi := if lo <? saved_lo then u32 (md5_hi ctx + 1) else md5_hi ctx in
  let hi := u32 (hi + Z.shiftr size 29) in
  let used := Z.to_nat (Z.land saved_lo 0x3f) in
  if (used =? 0)%nat then
    MD5_Update_tail (mk_md5 lo hi (md5_st ctx) (md5_buffer ctx)) data
  else
    let available := (64 - used)%nat in
    if (length data <? available)%nat then
      mk_md5 lo hi (md5_st ctx) (memcpy (md5_buffer ctx) used data)
    else
      let buffer := memcpy (md5_buffer ctx) used (firstn available data) in
      MD5_Update_tail (mk_md5 lo hi (body (md5_st ctx) buffer) buffer) (skipn available data).

(** The code wipes the context after the digest has been written. *)
Definition MD5_Final (ctx : MD5_CTX) : list Z :=
  let used := Z.to_nat (Z.land (md5_lo ctx) 0x3f) in
  let buffer := (md5_buffer ctx).[used <- 0x80] in
  let used := S used in
  let available := (64 - used)%nat in
  let '(st, buffer, used, available) :=
    if (available <? 8)%nat then
      let buffer := memcpy buffer used (memset 0 available) in
      (body (md5_st ctx) buffer, buffer, 0%nat, 64%nat)
    else (md5_st ctx, buffer, used, available) in
  let buffer := memcpy buffer used (memset 0 (available - 8)) in
  let lo := u32 (Z.shiftl (md5_lo ctx) 3) in
  let buffer := memcpy buffer 56 (STORE32_LE lo ++ STORE32_LE (md5_hi ctx)) in
  let st := body st buffer in
  STORE32_LE st.[0] ++ STORE32_LE st.[1] ++ STORE32_LE st.[2] ++ STORE32_LE st.[3].

(** A context whose buffer has not been written yet. *)
Definition md5_fresh : MD5_CTX := mk_md5 0 0 [0; 0; 0; 0] (memset 0 64).

(** ** The specification of RFC 1321 *)

Definition rfc_F (x y z : Z) : Z := Z.lor (Z.land x y) (Z.land (Z.lnot x) z).
Definition rfc_G (x y z : Z) : Z := Z.lor (Z.land x z) (Z.land y (Z.lnot z)).
Definition rfc_H (x y z : Z) : Z := Z.lxor (Z.lxor x y) z.
Definition rfc_I (x y z : Z) : Z := Z.lxor y (Z.lor x (u32 (Z.lnot z))).

Definition rfc_T : list Z :=
  [0xd76aa478; 0xe8c7b756; 0x242070db; 0xc1bdceee; 0xf57c0faf; 0x4787c62a;
   0xa8304613; 0xfd469501; 0x698098d8; 0x8b44f7af; 0xffff5bb1; 0x895cd7be;
   0x6b901122; 0xfd987193; 0xa679438e; 0x49b40821; 0xf61e2562; 0xc040b340;
   0x265e5a51; 0xe9b6c7aa; 0xd62f105d; 0x02441453; 0xd8a1e681; 0xe7d3fbc8;
   0x21e1cde6; 0xc33707d6; 0xf4d50d87; 0x455a14ed; 0xa9e3e905; 0xfcefa3f8;
   0x676f02d9; 0x8d2a4c8a; 0xfffa3942; 0x8771f681; 0x6d9d6122; 0xfde5380c;
   0xa4beea44; 0x4bdecfa9; 0xf6bb4b60; 0xbebfbc70; 0x289b7ec6; 0xeaa127fa;
   0xd4ef3085; 0x04881d05; 0xd9d4d039; 0xe6db99e5; 0x1fa27cf8; 0xc4ac5665;
   0xf4292244; 0x432aff97; 0xab9423a7; 0xfc93a039; 0x655b59c3; 0x8f0ccc92;
   0xffeff47d; 0x85845dd1; 0x6fa87e4f; 0xfe2ce6e0; 0xa3014314; 0x4e0811a1;
   0xf7537e82; 0xbd3af235; 0x2ad7d2bb; 0xeb86d391].

(** Operation [i] of the 64: its function, the word it reads and its rotation. *)
Definition rfc_fun (i : nat) : Z -> Z -> Z -> Z :=
  nth (i / 16) [rfc_F; rfc_G; rfc_H; rfc_I] rfc_F.
Definition rfc_word (i : nat) : nat :=
  (nth (i / 16) [i; 5 * i + 1; 3 * i + 5; 7 * i] 0 mod 16)%nat.
Definition rfc_shift (i : nat) : Z :=
  nth (i mod 4) (nth (i / 16) [[7; 12; 17; 22]; [5; 9; 14; 20]; [4; 11; 16; 23]; [6; 10; 15; 21]] []) 0.

(** The registers in the order [a b c d]; each operation rotates them. *)
Definition rfc_op (X : list Z) (r : Z * Z * Z * Z) (i : nat) : Z * Z * Z * Z :=
  let '(a, b, c, d) := r in
  let sum := u32 (a + rfc_fun i b c d + X.[rfc_word i] + rfc_T.[i]) in
  (d, u32 (b + ROL32 sum (rfc_shift i)), b, c).

Definition rfc_compress (st block : list Z) : list Z :=
  let X := map (fun i => LOAD32_LE block (4 * i)) (seq 0 16) in
  let '(a, b, c, d) :=
    fold_left (rfc_op X) (seq 0 64) (st.[0], st.[1], st.[2], st.[3]) in
  [u32 (st.[0] + a); u32 (st.[1] + b); u32 (st.[2] + c); u32 (st.[3] + d)].

(** A 1 bit, zeros up to 56 modulo 64, and the bit length modulo [2^64]. *)
Definition rfc_pad (len : nat) : list Z :=
  [0x80] ++ memset 0 ((119 - len mod 64) mod 64) ++
  STORE32_LE (8 * Z.of_nat len) ++ STORE32_LE (Z.shiftr (8 * Z.of_nat len) 32).

Definition rfc_iv : list Z := [0x67452301; 0xefcdab89; 0x98badcfe; 0x10325476].

Definition rfc_md5 (msg : list Z) : list Z :=
  let st := fold_left rfc_compress (blocks 64 (msg ++ rfc_pad (length msg))) rfc_iv in
  STORE32_LE st.[0] ++ STORE32_LE st.[1] ++ STORE32_LE st.[2] ++ STORE32_LE st.[3].

(** The digest of the three letters abc, from the test suite of RFC 1321. *)
Example md5_abc :
  MD5_Final (MD5_Update (MD5_Init md5_fresh) [97; 98; 99]) =
  [0x90; 0x01; 0x50; 0x98; 0x3c; 0xd2; 0x4f; 0xb0; 0xd6; 0x96; 0x3f; 0x7d; 0x28; 0xe1; 0x7f; 0x72]
  /\ rfc_md5 [97; 98; 99] = MD5_Final (MD5_Update (MD5_Init md5_fresh) [97; 98; 99]).
Proof. vm_compute. split; reflexivity. Qed.

(** ** The unrolled rounds are the rounds of the RFC *)

Lemma F_rfc x y z : F x y z = rfc_F x y z.
Proof. unfold F, rfc_F. bitwise. Qed.

Lemma G_rfc x y z : G x y z = rfc_G x y z.
Proof. unfold G, rfc_G. bitwise. Qed.

Lemma H2_rfc x y z : H2 x y z = rfc_H x y z.
Proof. unfold H2, rfc_H. bitwise. Qed.

(** The code alternates the two spellings of the third function. *)
Definition code_fun (i : nat) : Z -> Z -> Z -> Z :=
  nth (i / 16) [F; G; if Nat.even i then H else H2; I] F.

Lemma code_fun_rfc i x y z : (i < 64)%nat -> code_fun i x y z = rfc_fun i x y z.
Proof.
  intros Hi. unfold code_fun, rfc_fun.
  assert (i / 16 < 4)%nat by (apply Nat.Div0.div_lt_upper_bound; lia).
  destruct (i / 16)%nat as [|[|[|[|k]]]]; cbn [nth]; [apply F_rfc|apply G_rfc| |reflexivity|lia].
  destruct (Nat.even i); [reflexivity|apply H2_rfc].
Qed.

(** The position of the [j]-th operand of operation [i]. *)
Definition reg (i j : nat) : nat := ((4 + j - i mod 4) mod 4)%nat.

Definition code_step (ptr st : list Z) (i : nat) : list Z :=
  STEP (code_fun i) (reg i 0) (reg i 1) (reg i 2) (reg i 3)
    (GET ptr (rfc_word i)) rfc_T.[i] (rfc_shift i) st.

Definition view (i : nat) (st : list Z) : Z * Z * Z * Z :=
  (st.[reg i 0], st.[reg i 1], st.[reg i 2], st.[reg i 3]).

Lemma body_rounds_fold st ptr : body_rounds st ptr = fold_left (code_step ptr) (seq 0 64) st.
Proof.
  cbv beta zeta delta [body_rounds]. cbn [seq fold_left]. unfold code_step.
  reflexivity.
Qed.

Lemma u32_idem x : u32 (u32 x) = u32 x.
Proof. apply u32_small, u32_range. Qed.

Lemma STEP_value (f : Z -> Z -> Z -> Z) a b c d x t s :
  let sum := u32 (a + u32 (f b c d + x + t)) in
  u32 (Z.lor (u32 (Z.shiftl sum s)) (Z.shiftr (Z.land sum 0xffffffff) (32 - s)) + b) =
  u32 (b + ROL32 (u32 (a + f b c d + x + t)) s).
Proof.
  intros sum.
  assert (E : sum = u32 (a + f b c d + x + t))
    by (unfold sum; rewrite (Z.add_comm a), u32_add_l; f_equal; ring).
  change (Z.land sum 0xffffffff) with (u32 sum). unfold ROL32.
  now rewrite E, u32_idem, (Z.add_comm b).
Qed.

Lemma code_step_rfc ptr st i :
  (i < 64)%nat -> length st = 4%nat ->
  view (S i) (code_step ptr st i) =
  rfc_op (map (fun i => LOAD32_LE ptr (4 * i)) (seq 0 16)) (view i st) i /\
  length (code_step ptr st i) = 4%nat.
Proof.
  intros Hi Hl. unfold view, rfc_op, code_step, reg, STEP. cbv zeta.
  assert (Hx : GET ptr (rfc_word i) =
    (map (fun i => LOAD32_LE ptr (4 * i)) (seq 0 16)).[rfc_word i]).
  { unfold rfc_word, GET.
    symmetry. apply (nth_map_seq (fun i => LOAD32_LE ptr (4 * i))), Nat.mod_upper_bound. lia. }
  rewrite Hx. split; [|now rewrite !length_upd].
  destruct st as [|a [|b [|c [|d [|]]]]]; try discriminate Hl.
  assert (Hm : (S i mod 4 = (i mod 4 + 1) mod 4)%nat)
    by (rewrite Nat.Div0.add_mod_idemp_l; f_equal; lia).
  rewrite Hm. pose proof (Nat.mod_upper_bound i 4 ltac:(lia)).
  destruct (i mod 4)%nat as [|[|[|[|k]]]]; [..|lia];
    cbn [Nat.add Nat.sub Nat.modulo Nat.divmod fst snd upd nth];
    rewrite STEP_value, code_fun_rfc by auto; reflexivity.
Qed.

Lemma code_rounds_rfc ptr n k st :
  (k + n <= 64)%nat -> length st = 4%nat ->
  view (k + n) (fold_left (code_step ptr) (seq k n) st) =
  fold_left (rfc_op (map (fun i => LOAD32_LE ptr (4 * i)) (seq 0 16))) (seq k n) (view k st).
Proof.
  set (X := map _ _). revert k st.
  induction n as [|n IH]; intros k st Hk Hl; [now rewrite Nat.add_0_r|]. cbn [seq fold_left].
  destruct (code_step_rfc ptr st k) as [E Hl']; [lia|auto|].
  fold X in E. rewrite <- E, <- IH by (auto; lia). f_equal. lia.
Qed.

Lemma body_block_rfc st ptr : length st = 4%nat -> body_block st ptr = rfc_compress st ptr.
Proof.
  intros Hl. unfold body_block, rfc_compress. rewrite body_rounds_fold.
  pose proof (code_rounds_rfc ptr 64 0 st ltac:(lia) Hl) as E.
  change (view 0 st) with (st.[0], st.[1], st.[2], st.[3]) in E. rewrite <- E.
  set (st' := fold_left _ _ _). 
  change (view (0 + 64) st') with (st'.[0], st'.[1], st'.[2], st'.[3]).
  cbv beta iota zeta. rewrite !(Z.add_comm (st.[_])). reflexivity.
Qed.

Lemma length_rfc_compress st ptr : length (rfc_compress st ptr) = 4%nat.
Proof.
  unfold rfc_compress. destruct (fold_left _ _ _) as [[[a b] c] d]. reflexivity.
Qed.

(** ** Hashing in pieces *)

Lemma LOAD32_LE_firstn p o n : (o + 4 <= n)%nat -> LOAD32_LE (firstn n p) o = LOAD32_LE p o.
Proof.
  intros Hn. unfold LOAD32_LE. rewrite !nth_firstn.
  repeat match goal with |- context [(?a <? n)%nat] => destruct (Nat.ltb_spec a n); [|lia] end.
  reflexivity.
Qed.

(** The compression function reads one block. *)
Lemma rfc_compress_firstn st ptr : rfc_compress st (firstn 64 ptr) = rfc_compress st ptr.
Proof.
  unfold rfc_compress. f_equal.
  replace (map (fun i => LOAD32_LE (firstn 64 ptr) (4 * i)) (seq 0 16))
    with (map (fun i => LOAD32_LE ptr (4 * i)) (seq 0 16)); [reflexivity|].
  apply map_ext_in. intros i Hi%in_seq. symmetry. apply LOAD32_LE_firstn. lia.
Qed.

Local Opaque rfc_compress body_block.

Lemma body_loop_S fuel st ptr :
  body_loop (S fuel) st ptr =
  if (length ptr - 64 =? 0)%nat then body_block st ptr
  else body_loop fuel (body_block st ptr) (skipn 64 ptr).
Proof. reflexivity. Qed.

Lemma body_loop_fold fuel k st data :
  length st = 4%nat -> length data = (S k * 64)%nat -> (k < fuel)%nat ->
  body_loop fuel st data = fold_left rfc_compress (blocks 64 data) st /\
  length (body_loop fuel st data) = 4%nat.
Proof.
  revert k st data. induction fuel as [|fuel IH]; intros k st data Hs Hd Hf; [lia|].
  rewrite body_loop_S, (body_block_rfc st data Hs).
  rewrite blocks_cons, fold_left_cons, rfc_compress_firstn by (try lia; destruct data; easy).
  destruct (Nat.eqb_spec (length data - 64) 0).
  - rewrite skipn_all2, blocks_nil by lia. auto using length_rfc_compress.
  - apply (IH (k - 1)%nat); [apply length_rfc_compress|rewrite length_skipn|]; lia.
Qed.

Lemma body_fold st data k :
  length st = 4%nat -> length data = (S k * 64)%nat ->
  body st data = fold_left rfc_compress (blocks 64 data) st /\ length (body st data) = 4%nat.
Proof. intros. unfold body. apply (body_loop_fold _ k); auto. lia. Qed.

Lemma body_one st b :
  length st = 4%nat -> length b = 64%nat ->
  body st b = rfc_compress st b /\ length (body st b) = 4%nat.
Proof.
  intros Hs Hb. destruct (body_fold st b 0 Hs Hb) as [E El]. split; [|exact El].
  pose proof (blocks_app_one 64 b [] ltac:(lia) Hb) as Eb.
  rewrite app_nil_r, blocks_nil in Eb. now rewrite E, Eb.
Qed.

Lemma MD5_Update_tail_spec ctx d :
  length (md5_st ctx) = 4%nat -> length (md5_buffer ctx) = 64%nat ->
  let ctx' := MD5_Update_tail ctx d in
  absorb rfc_compress 64 (md5_st ctx) d =
    (md5_st ctx', firstn (length d mod 64) (md5_buffer ctx')) /\
  length (md5_st ctx') = 4%nat /\ length (md5_buffer ctx') = 64%nat.
Proof.
  intros Hs Hb ctx'. unfold ctx', MD5_Update_tail. cbn [md5_st md5_buffer].
  pose proof (Nat.mod_upper_bound (length d) 64 ltac:(lia)).
  pose proof (Nat.div_mod_eq (length d) 64) as Hdm.
  destruct (Nat.leb_spec 64 (length d)) as [Hd|Hd].
  - replace (length d - length d mod 64)%nat with (length d / 64 * 64)%nat by lia.
    set (k := (length d / 64)%nat) in *.
    destruct (body_fold (md5_st ctx) (firstn (k * 64) d) (k - 1)) as [E El]; auto.
    { rewrite firstn_length_le; lia. }
    assert (length (skipn (k * 64) d) = length d mod 64)%nat by (rewrite length_skipn; lia).
    unfold absorb. fold k. split_and; auto; [|rewrite length_memcpy; lia].
    rewrite E. f_equal. unfold memcpy. cbn [firstn app]. now rewrite firstn_app_l.
  - rewrite absorb_small, Nat.mod_small by lia. split_and; auto; [|rewrite length_memcpy; lia].
    f_equal. unfold memcpy. cbn [firstn app]. now rewrite firstn_app_l.
Qed.

(** A context that has absorbed the bytes [m]. *)
Definition md5_repr (ctx : MD5_CTX) (m : list Z) : Prop :=
  absorb rfc_compress 64 rfc_iv m =
    (md5_st ctx, firstn (length m mod 64) (md5_buffer ctx)) /\
  length (md5_st ctx) = 4%nat /\ length (md5_buffer ctx) = 64%nat /\
  md5_lo ctx = Z.of_nat (length m) mod 2 ^ 29 /\
  md5_hi ctx = (Z.of_nat (length m) / 2 ^ 29) mod 2 ^ 32.

Lemma MD5_Init_repr ctx : length (md5_buffer ctx) = 64%nat -> md5_repr (MD5_Init ctx) [].
Proof. intros Hb. unfold md5_repr. split_and; auto. Qed.

(** The two counters together count bytes modulo [2^61]. *)
Lemma counter_spec n size :
  0 <= n -> 0 <= size ->
  let lo := n mod 2 ^ 29 in let hi := (n / 2 ^ 29) mod 2 ^ 32 in
  let lo' := Z.land (u64 (lo + size)) 0x1fffffff in
  lo' = (n + size) mod 2 ^ 29 /\
  u32 ((if lo' <? lo then u32 (hi + 1) else hi) + Z.shiftr size 29) =
  ((n + size) / 2 ^ 29) mod 2 ^ 32.
Proof.
  intros Hn Hs lo hi lo'.
  assert (E : lo' = (lo + size) mod 2 ^ 29).
  { unfold lo'. rewrite u64_mod. change 0x1fffffff with (Z.ones 29). rewrite Z.land_ones by lia.
    change (2 ^ 64) with (2 ^ 29 * 2 ^ 35). rewrite Z.rem_mul_r by lia.
    rewrite (Z.mul_comm (2 ^ 29)), Z.mod_add, Z.mod_mod; lia. }
  split; [rewrite E; unfold lo; now rewrite Z.add_mod_idemp_l by lia|].
  rewrite Z.shiftr_div_pow2 by lia. rewrite E. unfold hi.
  assert (D : forall x, x = 2 ^ 29 * (x / 2 ^ 29) + x mod 2 ^ 29 /\ 0 <= x mod 2 ^ 29 < 2 ^ 29)
    by (intros x; split; [apply Z.div_mod|apply Z.mod_pos_bound]; lia).
  destruct (D n) as [Dn Bn]. destruct (D size) as [Ds Bs]. fold lo in Dn, Bn.
  assert (Dq : (lo + size) mod 2 ^ 29 = lo + size mod 2 ^ 29 /\
               (n + size) / 2 ^ 29 = n / 2 ^ 29 + size / 2 ^ 29 \/
               (lo + size) mod 2 ^ 29 = lo + size mod 2 ^ 29 - 2 ^ 29 /\
               (n + size) / 2 ^ 29 = n / 2 ^ 29 + 1 + size / 2 ^ 29).
  { destruct (Z.lt_ge_cases (lo + size mod 2 ^ 29) (2 ^ 29)); [left|right]; split.
    - symmetry. apply (Z.mod_unique_pos _ _ (size / 2 ^ 29)); lia.
    - symmetry. apply (Z.div_unique_pos _ _ _ (lo + size mod 2 ^ 29)); lia.
    - symmetry. apply (Z.mod_unique_pos _ _ (size / 2 ^ 29 + 1)); lia.
    - symmetry. apply (Z.div_unique_pos _ _ _ (lo + size mod 2 ^ 29 - 2 ^ 29)); lia. }
  destruct Dq as [[-> ->]|[-> ->]]; case_bool; try lia;
    rewrite ?u32_add_l, u32_mod, <- ?Z.add_assoc, Z.add_mod_idemp_l by lia; reflexivity.
Qed.

Lemma used_spec n : 0 <= n -> Z.to_nat (Z.land (n mod 2 ^ 29) 0x3f) = (Z.to_nat n mod 64)%nat.
Proof.
  intros Hn. change 0x3f with (Z.ones 6). rewrite Z.land_ones by lia.
  rewrite Z.mod_mod_divide by (exists (2 ^ 23); reflexivity). now rewrite Z2Nat.inj_mod by lia.
Qed.

Lemma MD5_Update_repr ctx m d : md5_repr ctx m -> md5_repr (MD5_Update ctx d) (m ++ d).
Proof.
  intros (Ha & Hs & Hb & Hlo & Hhi). unfold MD5_Update.
  destruct (counter_spec (Z.of_nat (length m)) (Z.of_nat (length d))) as [Elo Ehi]; [lia..|].
  rewrite Hlo, Hhi. rewrite Ehi, Elo. rewrite used_spec, Nat2Z.id by lia. clear Elo Ehi.
  set (used := (length m mod 64)%nat) in *.
  assert (Hu : (used < 64)%nat) by (apply Nat.mod_upper_bound; lia).
  assert (Hlen : Z.of_nat (length (m ++ d)) = Z.of_nat (length m) + Z.of_nat (length d))
    by (rewrite length_app; lia).
  assert (Habs : absorb rfc_compress 64 rfc_iv (m ++ d) =
    absorb rfc_compress 64 (md5_st ctx) (firstn used (md5_buffer ctx) ++ d))
    by (rewrite absorb_app, Ha by lia; reflexivity).
  assert (Ht : length (firstn used (md5_buffer ctx)) = used) by (apply firstn_length_le; lia).
  assert (Hmod : (length (m ++ d) mod 64 = (used + length d) mod 64)%nat)
    by (rewrite length_app; symmetry; apply Nat.Div0.add_mod_idemp_l).
  unfold md5_repr. rewrite Habs, Hlen, Hmod. clear Habs Hlen Hmod.
  set (lo := _ mod 2 ^ 29). set (hi := _ mod 2 ^ 32).
  destruct (Nat.eqb_spec used 0) as [H0|H0]; [|destruct (Nat.ltb_spec (length d) (64 - used))].
  - pose proof (MD5_Update_tail_spec (mk_md5 lo hi (md5_st ctx) (md5_buffer ctx)) d Hs Hb)
      as (E & E1 & E2).
    rewrite H0 in *. split_and; auto.
  - cbn [md5_st md5_buffer md5_lo md5_hi]. rewrite absorb_small, Nat.mod_small
      by (rewrite ?length_app; lia).
    split_and; auto; [|rewrite length_memcpy; lia].
    f_equal. rewrite firstn_memcpy_end; auto. lia.
  - set (buf := memcpy (md5_buffer ctx) used (firstn (64 - used) d)).
    assert (Hfd : length (firstn (64 - used) d) = (64 - used)%nat) by (apply firstn_length_le; lia).
    assert (Hbuf : length buf = 64%nat) by (unfold buf; rewrite length_memcpy; lia).
    destruct (body_one (md5_st ctx) buf Hs Hbuf) as [Eb Lb].
    pose proof (MD5_Update_tail_spec (mk_md5 lo hi (body (md5_st ctx) buf) buf)
      (skipn (64 - used) d) Lb Hbuf) as (E & E1 & E2).
    rewrite (absorb_topup rfc_compress 64 ltac:(lia) _ _ d used) by (auto; lia).
    replace (firstn used (md5_buffer ctx) ++ firstn (64 - used) d) with buf.
    2: { rewrite <- (firstn_all2 buf (n := 64)) by lia. apply firstn_memcpy_end; lia. }
    cbn [md5_st] in E. rewrite <- Eb, E. split_and; auto. do 2 f_equal. rewrite length_skipn.
    replace (used + length d)%nat with (length d - (64 - used) + 1 * 64)%nat by lia.
    now rewrite Nat.Div0.mod_add.
Qed.

(** [MD5_Final] completes the message with the padding of the RFC. *)
Lemma length_words (m : list Z) :
  STORE32_LE (u32 (Z.shiftl (Z.of_nat (length m) mod 2 ^ 29) 3)) ++
  STORE32_LE ((Z.of_nat (length m) / 2 ^ 29) mod 2 ^ 32) =
  STORE32_LE (8 * Z.of_nat (length m)) ++ STORE32_LE (Z.shiftr (8 * Z.of_nat (length m)) 32).
Proof.
  set (n := Z.of_nat (length m)).
  assert (W : forall a b, u32 a = u32 b -> STORE32_LE a = STORE32_LE b).
  { intros a b E. apply le_num_inj; auto using STORE32_LE_bytes.
    now rewrite !le_num_STORE32_LE. }
  f_equal; apply W; rewrite ?u32_idem, !u32_mod.
  - rewrite Z.shiftl_mul_pow2, Z.mul_comm by lia. change (2 ^ 3) with 8.
    change (2 ^ 32) with (8 * 2 ^ 29). now rewrite !Z.mul_mod_distr_l, Z.mod_mod by lia.
  - rewrite Z.mod_mod, Z.shiftr_div_pow2 by lia. f_equal.
    symmetry. apply (Z.div_mul_cancel_l n (2 ^ 29) 8); lia.
Qed.

(** The chaining value of the RFC, from a context that has absorbed the message. *)
Lemma rfc_state_repr ctx m pad k :
  md5_repr ctx m -> length (m ++ pad) = (k * 64)%nat ->
  fold_left rfc_compress (blocks 64 (m ++ pad)) rfc_iv =
  fst (absorb rfc_compress 64 (md5_st ctx) (firstn (length m mod 64) (md5_buffer ctx) ++ pad)).
Proof.
  intros (Ha & _) Hk. pose proof (absorb_full rfc_compress 64 ltac:(lia) rfc_iv _ k Hk) as E.
  rewrite absorb_app, Ha in E by lia. cbn [fst snd] in E. now rewrite E.
Qed.

(** The two layouts of the last block or blocks, over a buffer [t ++ [0x80] ++ r]. *)
Lemma pad_one (t r lw : list Z) u :
  length t = u -> length r = (63 - u)%nat -> length lw = 8%nat -> (u <= 55)%nat ->
  memcpy (memcpy (t ++ [0x80] ++ r) (S u) (memset 0 (64 - S u - 8))) 56 lw =
  t ++ [0x80] ++ memset 0 (55 - u) ++ lw.
Proof.
  intros Ht Hr Hl Hu. replace (64 - S u - 8)%nat with (55 - u)%nat by lia.
  rewrite <- (firstn_skipn (55 - u) r).
  rewrite (app_assoc t), memcpy_app
    by (rewrite ?length_app, ?length_memset, ?firstn_length_le; cbn [length]; lia).
  rewrite app_assoc, memcpy_app_end
    by (rewrite ?length_app, ?length_memset, ?length_skipn; cbn [length]; lia).
  now rewrite <- !app_assoc.
Qed.

Lemma pad_two (t r : list Z) u :
  length t = u -> length r = (63 - u)%nat -> (u < 64)%nat ->
  memcpy (t ++ [0x80] ++ r) (S u) (memset 0 (64 - S u)) = t ++ [0x80] ++ memset 0 (63 - u).
Proof.
  intros Ht Hr Hu. replace (64 - S u)%nat with (63 - u)%nat by lia. rewrite !(app_assoc t).
  apply memcpy_app_end; rewrite ?length_app, ?length_memset; cbn [length]; lia.
Qed.

Lemma pad_last (b lw : list Z) :
  length b = 64%nat -> length lw = 8%nat ->
  memcpy (memcpy b 0 (memset 0 (64 - 8))) 56 lw = memset 0 56 ++ lw.
Proof.
  intros Hb Hl. apply (memcpy_app_end (memset 0 56) (skipn 56 b)); [reflexivity|].
  rewrite length_skipn. lia.
Qed.

Lemma pad_zeros u :
  (u < 64)%nat ->
  ((119 - u) mod 64 = 55 - u /\ u <= 55 \/ (119 - u) mod 64 = 63 - u + 56 /\ 55 < u)%nat.
Proof.
  intros Hu. destruct (Nat.le_gt_cases u 55); [left|right].
  - replace (119 - u)%nat with (55 - u + 1 * 64)%nat by lia.
    rewrite Nat.Div0.mod_add, Nat.mod_small; lia.
  - rewrite Nat.mod_small; lia.
Qed.

Lemma MD5_Final_repr ctx m : md5_repr ctx m -> MD5_Final ctx = rfc_md5 m.
Proof.
  intros Hr. pose proof Hr as (_ & Hs & Hb & Hlo & Hhi). unfold MD5_Final, rfc_md5, rfc_pad.
  rewrite Hlo, Hhi, used_spec, Nat2Z.id, length_words by lia. clear Hlo Hhi.
  set (u := (length m mod 64)%nat). set (lw := STORE32_LE _ ++ STORE32_LE _).
  assert (Hlw : length lw = 8%nat)
    by (unfold lw; rewrite length_app, !length_STORE32_LE; reflexivity).
  assert (Hu : (u < 64)%nat) by (apply Nat.mod_upper_bound; lia).
  pose proof (Nat.div_mod_eq (length m) 64) as Hm. fold u in Hm. pose proof (pad_zeros u Hu) as Hz.
  rewrite (rfc_state_repr ctx m _ (length m / 64 + if (u <=? 55)%nat then 1 else 2) Hr).
  2: { rewrite !length_app, length_memset, Hlw. cbn [length]. destruct (Nat.leb_spec u 55); lia. }
  fold u. set (t := firstn u (md5_buffer ctx)) in *.
  assert (Ht : length t = u) by (apply firstn_length_le; lia).
  rewrite upd_split by lia. fold t. set (r := skipn (S u) (md5_buffer ctx)).
  assert (Hlr : length r = (63 - u)%nat) by (unfold r; rewrite length_skipn; lia).
  destruct Hz as [[-> Hz]|[-> Hz]]; destruct (Nat.ltb_spec (64 - S u) 8); try lia.
  - rewrite pad_one by auto. set (b := t ++ _).
    assert (Hlb : length b = 64%nat)
      by (unfold b; rewrite !length_app, length_memset; cbn [length]; lia).
    destruct (body_one (md5_st ctx) b Hs Hlb) as [-> _].
    pose proof (absorb_block rfc_compress 64 ltac:(lia) (md5_st ctx) b [] Hlb) as E.
    rewrite app_nil_r in E. rewrite E, absorb_small by (simpl; lia). reflexivity.
  - rewrite pad_two by auto. set (b := t ++ [0x80] ++ memset 0 (63 - u)).
    assert (Hlb : length b = 64%nat)
      by (unfold b; rewrite !length_app, length_memset; cbn [length]; lia).
    rewrite pad_last by auto. set (b2 := memset 0 56 ++ lw).
    assert (Hlb2 : length b2 = 64%nat) by (unfold b2; rewrite length_app, length_memset; lia).
    destruct (body_one (md5_st ctx) b Hs Hlb) as [Eb Lb].
    destruct (body_one _ b2 Lb Hlb2) as [-> _]. rewrite Eb, memset_app.
    replace (t ++ [0x80] ++ (memset 0 (63 - u) ++ memset 0 56) ++ lw) with (b ++ b2 ++ [])
      by (unfold b, b2; now rewrite app_nil_r, <- !app_assoc).
    rewrite !absorb_block, absorb_small by (auto; simpl; lia). reflexivity.
Qed.

(** hashing is RFC 1321: feeding any sequence of chunks to [MD5_Update] and
    finishing with [MD5_Final] gives the MD5 digest of their concatenation, for
    every length, whatever the buffer held before [MD5_Init]. *)
Theorem md5_streaming (ctx : MD5_CTX) (chunks : list (list Z)) :
  length (md5_buffer ctx) = 64%nat ->
  MD5_Final (fold_left MD5_Update chunks (MD5_Init ctx)) = rfc_md5 (concat chunks).
Proof.
  intros Hb. apply MD5_Final_repr.
  assert (G : forall c m, md5_repr c m -> md5_repr (fold_left MD5_Update chunks c) (m ++ concat chunks)).
  { induction chunks as [|d ds IH]; intros c m Hc; cbn [fold_left concat].
    - now rewrite app_nil_r.
    - rewrite app_assoc. apply IH, MD5_Update_repr, Hc. }
  apply (G _ []), MD5_Init_repr, Hb.
Qed.

Lemma md5_streaming_witness :
  MD5_Final (fold_left MD5_Update [[97]; []; [98; 99]] (MD5_Init (mk_md5 7 7 [] (memset 3 64)))) =
  rfc_md5 [97; 98; 99].
Proof. apply (md5_streaming (mk_md5 7 7 [] (memset 3 64)) [[97]; []; [98; 99]]). reflexivity. Defined.
