(* ===== verification/Sha2.v ===== *)
(** * SHA-224, SHA-256, SHA-384 and SHA-512

    Model of sha2.c.  The file compiles its unrolled variant ([UNROLL_LOOPS]);
    the rolled loops beside it are the text of FIPS 180 and serve as the
    reference here.  Results: the unrolled block functions equal the rolled
    ones, and the buffered [update]/[final] pairs compute the padded
    Merkle-Damgaard digest of the concatenated input for inputs below
    [2^29] bytes, the range of the 32-bit bit count. *)

From Stdlib Require Import ZArith Lia List Bool.
From S2P Require Import Prelude Streaming.
Import ListNotations.
Local Open Scope Z_scope.

(** ** Words *)

Definition SHFR (x n : Z) : Z := Z.shiftr x n.

(** [ROTR] at the width of its operand. *)
Definition ROTR32 (x n : Z) : Z := Z.lor (Z.shiftr x n) (u32 (Z.shiftl x (32 - n))).
Definition ROTR64 (x n : Z) : Z := Z.lor (Z.shiftr x n) (u64 (Z.shiftl x (64 - n))).

Definition CH (wrap : Z -> Z) (x y z : Z) : Z :=
  Z.lxor (Z.land x y) (Z.land (wrap (Z.lnot x)) z).
Definition MAJ (x y z : Z) : Z :=
  Z.lxor (Z.lxor (Z.land x y) (Z.land x z)) (Z.land y z).

Definition SHA256_F1 (x : Z) : Z := Z.lxor (Z.lxor (ROTR32 x 2) (ROTR32 x 13)) (ROTR32 x 22).
Definition SHA256_F2 (x : Z) : Z := Z.lxor (Z.lxor (ROTR32 x 6) (ROTR32 x 11)) (ROTR32 x 25).
Definition SHA256_F3 (x : Z) : Z := Z.lxor (Z.lxor (ROTR32 x 7) (ROTR32 x 18)) (SHFR x 3).
Definition SHA256_F4 (x : Z) : Z := Z.lxor (Z.lxor (ROTR32 x 17) (ROTR32 x 19)) (SHFR x 10).

Definition SHA512_F1 (x : Z) : Z := Z.lxor (Z.lxor (ROTR64 x 28) (ROTR64 x 34)) (ROTR64 x 39).
Definition SHA512_F2 (x : Z) : Z := Z.lxor (Z.lxor (ROTR64 x 14) (ROTR64 x 18)) (ROTR64 x 41).
Definition SHA512_F3 (x : Z) : Z := Z.lxor (Z.lxor (ROTR64 x 1) (ROTR64 x 8)) (SHFR x 7).
Definition SHA512_F4 (x : Z) : Z := Z.lxor (Z.lxor (ROTR64 x 19) (ROTR64 x 61)) (SHFR x 6).

Definition UNPACK32 (x : Z) : list Z :=
  [u8 (Z.shiftr x 24); u8 (Z.shiftr x 16); u8 (Z.shiftr x 8); u8 x].

Definition PACK32 (str : list Z) (o : nat) : Z :=
  Z.lor (Z.lor (Z.lor str.[o + 3] (Z.shiftl str.[o + 2] 8)) (Z.shiftl str.[o + 1] 16))
        (Z.shiftl str.[o + 0] 24).

Definition UNPACK64 (x : Z) : list Z :=
  [u8 (Z.shiftr x 56); u8 (Z.shiftr x 48); u8 (Z.shiftr x 40); u8 (Z.shiftr x 32);
   u8 (Z.shiftr x 24); u8 (Z.shiftr x 16); u8 (Z.shiftr x 8); u8 x].

Definition PACK64 (str : list Z) (o : nat) : Z :=
  Z.lor (Z.lor (Z.lor (Z.lor (Z.lor (Z.lor (Z.lor str.[o + 7] (Z.shiftl str.[o + 6] 8))
    (Z.shiftl str.[o + 5] 16)) (Z.shiftl str.[o + 4] 24)) (Z.shiftl str.[o + 3] 32))
    (Z.shiftl str.[o + 2] 40)) (Z.shiftl str.[o + 1] 48)) (Z.shiftl str.[o + 0] 56).

(** ** Constants *)

Definition sha224_h0 : list Z :=
  [0xc1059ed8; 0x367cd507; 0x3070dd17; 0xf70e5939;
   0xffc00b31; 0x68581511; 0x64f98fa7; 0xbefa4fa4].

Definition sha256_h0 : list Z :=
  [0x6a09e667; 0xbb67ae85; 0x3c6ef372; 0xa54ff53a;
   0x510e527f; 0x9b05688c; 0x1f83d9ab; 0x5be0cd19].

Definition sha384_h0 : list Z :=
  [0xcbbb9d5dc1059ed8; 0x629a292a367cd507; 0x9159015a3070dd17;
   0x152fecd8f70e5939; 0x67332667ffc00b31; 0x8eb44a8768581511;
   0xdb0c2e0d64f98fa7; 0x47b5481dbefa4fa4].

Definition sha512_h0 : list Z :=
  [0x6a09e667f3bcc908; 0xbb67ae8584caa73b; 0x3c6ef372fe94f82b;
   0xa54ff53a5f1d36f1; 0x510e527fade682d1; 0x9b05688c2b3e6c1f;
   0x1f83d9abfb41bd6b; 0x5be0cd19137e2179].

Definition sha256_k : list Z := Eval cbv in concat [
  [0x428a2f98; 0x71374491; 0xb5c0fbcf; 0xe9b5dba5];
  [0x3956c25b; 0x59f111f1; 0x923f82a4; 0xab1c5ed5];
  [0xd807aa98; 0x12835b01; 0x243185be; 0x550c7dc3];
  [0x72be5d74; 0x80deb1fe; 0x9bdc06a7; 0xc19bf174];
  [0xe49b69c1; 0xefbe4786; 0x0fc19dc6; 0x240ca1cc];
  [0x2de92c6f; 0x4a7484aa; 0x5cb0a9dc; 0x76f988da];
  [0x983e5152; 0xa831c66d; 0xb00327c8; 0xbf597fc7];
  [0xc6e00bf3; 0xd5a79147; 0x06ca6351; 0x14292967];
  [0x27b70a85; 0x2e1b2138; 0x4d2c6dfc; 0x53380d13];
  [0x650a7354; 0x766a0abb; 0x81c2c92e; 0x92722c85];
  [0xa2bfe8a1; 0xa81a664b; 0xc24b8b70; 0xc76c51a3];
  [0xd192e819; 0xd6990624; 0xf40e3585; 0x106aa070];
  [0x19a4c116; 0x1e376c08; 0x2748774c; 0x34b0bcb5];
  [0x391c0cb3; 0x4ed8aa4a; 0x5b9cca4f; 0x682e6ff3];
  [0x748f82ee; 0x78a5636f; 0x84c87814; 0x8cc70208];
  [0x90befffa; 0xa4506ceb; 0xbef9a3f7; 0xc67178f2]].

Definition sha512_k : list Z :=
  [0x428a2f98d728ae22; 0x7137449123ef65cd; 0xb5c0fbcfec4d3b2f; 0xe9b5dba58189dbbc;
   0x3956c25bf348b538; 0x59f111f1b605d019; 0x923f82a4af194f9b; 0xab1c5ed5da6d8118;
   0xd807aa98a3030242; 0x12835b0145706fbe; 0x243185be4ee4b28c; 0x550c7dc3d5ffb4e2;
   0x72be5d74f27b896f; 0x80deb1fe3b1696b1; 0x9bdc06a725c71235; 0xc19bf174cf692694;
   0xe49b69c19ef14ad2; 0xefbe4786384f25e3; 0x0fc19dc68b8cd5b5; 0x240ca1cc77ac9c65;
   0x2de92c6f592b0275; 0x4a7484aa6ea6e483; 0x5cb0a9dcbd41fbd4; 0x76f988da831153b5;
   0x983e5152ee66dfab; 0xa831c66d2db43210; 0xb00327c898fb213f; 0xbf597fc7beef0ee4;
   0xc6e00bf33da88fc2; 0xd5a79147930aa725; 0x06ca6351e003826f; 0x142929670a0e6e70;
   0x27b70a8546d22ffc; 0x2e1b21385c26c926; 0x4d2c6dfc5ac42aed; 0x53380d139d95b3df;
   0x650a73548baf63de; 0x766a0abb3c77b2a8; 0x81c2c92e47edaee6; 0x92722c851482353b;
   0xa2bfe8a14cf10364; 0xa81a664bbc423001; 0xc24b8b70d0f89791; 0xc76c51a30654be30;
   0xd192e819d6ef5218; 0xd69906245565a910; 0xf40e35855771202a; 0x106aa07032bbd1b8;
   0x19a4c116b8d2d0c8; 0x1e376c085141ab53; 0x2748774cdf8eeb99; 0x34b0bcb5e19b48a8;
   0x391c0cb3c5c95a63; 0x4ed8aa4ae3418acb; 0x5b9cca4f7763e373; 0x682e6ff3d6b2b8a3;
   0x748f82ee5defb2fc; 0x78a5636f43172f60; 0x84c87814a1f0ab72; 0x8cc702081a6439ec;
   0x90befffa23631e28; 0xa4506cebde82bde9; 0xbef9a3f7b2c67915; 0xc67178f2e372532b;
   0xca273eceea26619c; 0xd186b8c721c0c207; 0xeada7dd6cde0eb1e; 0xf57d4f7fee6ed178;
   0x06f067aa72176fba; 0x0a637dc5a2c898a6; 0x113f9804bef90dae; 0x1b710b35131c471b;
   0x28db77f523047d84; 0x32caab7b40c72493; 0x3c9ebe0a15c9bebc; 0x431d67c49c100d4c;
   0x4cc5d4becb3e42b6; 0x597f299cfc657e2a; 0x5fcb6fab3ad6faec; 0x6c44198c4a475817].

(** ** The block functions

    [SCR] extends the message schedule, [EXP] is one round on the working
    variables [wv] with the registers named by position; the two widths
    differ in the wrap-around, the four functions and the constants. *)

Section Rounds.
Context (wrap : Z -> Z) (F1 F2 F3 F4 : Z -> Z) (K : list Z).

Definition SCR (i : nat) (w : list Z) : list Z :=
  w.[i <- wrap (F4 w.[i - 2] + w.[i - 7] + F3 w.[i - 15] + w.[i - 16])].

Definition EXP (a b c d e f g h j : nat) (w wv : list Z) : list Z :=
  let t1 := wrap (wv.[h] + F2 wv.[e] + CH wrap wv.[e] wv.[f] wv.[g] + K.[j] + w.[j]) in
  let t2 := wrap (F1 wv.[a] + MAJ wv.[a] wv.[b] wv.[c]) in
  let wv := wv.[d <- wrap (wv.[d] + t1)] in
  wv.[h <- wrap (t1 + t2)].

(** The loop body of the rolled variant. *)
Definition round_rolled (w wv : list Z) (j : nat) : list Z :=
  let t1 := wrap (wv.[7] + F2 wv.[4] + CH wrap wv.[4] wv.[5] wv.[6] + K.[j] + w.[j]) in
  let t2 := wrap (F1 wv.[0] + MAJ wv.[0] wv.[1] wv.[2]) in
  let wv := wv.[7 <- wv.[6]] in
  let wv := wv.[6 <- wv.[5]] in
  let wv := wv.[5 <- wv.[4]] in
  let wv := wv.[4 <- wrap (wv.[3] + t1)] in
  let wv := wv.[3 <- wv.[2]] in
  let wv := wv.[2 <- wv.[1]] in
  let wv := wv.[1 <- wv.[0]] in
  wv.[0 <- wrap (t1 + t2)].

Definition add_back (h wv : list Z) : list Z :=
  map (fun i => wrap (h.[i] + wv.[i])) (seq 0 8).

End Rounds.

Definition SHA256_SCR := SCR u32 SHA256_F3 SHA256_F4.
Definition SHA256_EXP := EXP u32 SHA256_F1 SHA256_F2 sha256_k.
Definition SHA512_SCR := SCR u64 SHA512_F3 SHA512_F4.
Definition SHA512_EXP := EXP u64 SHA512_F1 SHA512_F2 sha512_k.
Arguments SHA256_SCR i%_nat w.
Arguments SHA256_EXP (a b c d e f g h j)%_nat w wv.
Arguments SHA512_SCR i%_nat w.
Arguments SHA512_EXP (a b c d e f g h j)%_nat w wv.

(** The message schedule of the unrolled code. *)
Definition sha256_sched (sub_block : list Z) : list Z :=
  let w := memset 0 64 in
  let w := w.[0 <- PACK32 sub_block 0] in let w := w.[1 <- PACK32 sub_block 4] in
  let w := w.[2 <- PACK32 sub_block 8] in let w := w.[3 <- PACK32 sub_block 12] in
  let w := w.[4 <- PACK32 sub_block 16] in let w := w.[5 <- PACK32 sub_block 20] in
  let w := w.[6 <- PACK32 sub_block 24] in let w := w.[7 <- PACK32 sub_block 28] in
  let w := w.[8 <- PACK32 sub_block 32] in let w := w.[9 <- PACK32 sub_block 36] in
  let w := w.[10 <- PACK32 sub_block 40] in let w := w.[11 <- PACK32 sub_block 44] in
  let w := w.[12 <- PACK32 sub_block 48] in let w := w.[13 <- PACK32 sub_block 52] in
  let w := w.[14 <- PACK32 sub_block 56] in let w := w.[15 <- PACK32 sub_block 60] in
  let w := SHA256_SCR 16 w in let w := SHA256_SCR 17 w in let w := SHA256_SCR 18 w in
  let w := SHA256_SCR 19 w in let w := SHA256_SCR 20 w in let w := SHA256_SCR 21 w in
  let w := SHA256_SCR 22 w in let w := SHA256_SCR 23 w in let w := SHA256_SCR 24 w in
  let w := SHA256_SCR 25 w in let w := SHA256_SCR 26 w in let w := SHA256_SCR 27 w in
  let w := SHA256_SCR 28 w in let w := SHA256_SCR 29 w in let w := SHA256_SCR 30 w in
  let w := SHA256_SCR 31 w in let w := SHA256_SCR 32 w in let w := SHA256_SCR 33 w in
  let w := SHA256_SCR 34 w in let w := SHA256_SCR 35 w in let w := SHA256_SCR 36 w in
  let w := SHA256_SCR 37 w in let w := SHA256_SCR 38 w in let w := SHA256_SCR 39 w in
  let w := SHA256_SCR 40 w in let w := SHA256_SCR 41 w in let w := SHA256_SCR 42 w in
  let w := SHA256_SCR 43 w in let w := SHA256_SCR 44 w in let w := SHA256_SCR 45 w in
  let w := SHA256_SCR 46 w in let w := SHA256_SCR 47 w in let w := SHA256_SCR 48 w in
  let w := SHA256_SCR 49 w in let w := SHA256_SCR 50 w in let w := SHA256_SCR 51 w in
  let w := SHA256_SCR 52 w in let w := SHA256_SCR 53 w in let w := SHA256_SCR 54 w in
  let w := SHA256_SCR 55 w in let w := SHA256_SCR 56 w in let w := SHA256_SCR 57 w in
  let w := SHA256_SCR 58 w in let w := SHA256_SCR 59 w in let w := SHA256_SCR 60 w in
  let w := SHA256_SCR 61 w in let w := SHA256_SCR 62 w in let w := SHA256_SCR 63 w in
  w.

Definition sha256_rounds (w wv : list Z) : list Z :=
  let wv := SHA256_EXP 0 1 2 3 4 5 6 7 0 w wv in let wv := SHA256_EXP 7 0 1 2 3 4 5 6 1 w wv in
  let wv := SHA256_EXP 6 7 0 1 2 3 4 5 2 w wv in let wv := SHA256_EXP 5 6 7 0 1 2 3 4 3 w wv in
  let wv := SHA256_EXP 4 5 6 7 0 1 2 3 4 w wv in let wv := SHA256_EXP 3 4 5 6 7 0 1 2 5 w wv in
  let wv := SHA256_EXP 2 3 4 5 6 7 0 1 6 w wv in let wv := SHA256_EXP 1 2 3 4 5 6 7 0 7 w wv in
  let wv := SHA256_EXP 0 1 2 3 4 5 6 7 8 w wv in let wv := SHA256_EXP 7 0 1 2 3 4 5 6 9 w wv in
  let wv := SHA256_EXP 6 7 0 1 2 3 4 5 10 w wv in let wv := SHA256_EXP 5 6 7 0 1 2 3 4 11 w wv in
  let wv := SHA256_EXP 4 5 6 7 0 1 2 3 12 w wv in let wv := SHA256_EXP 3 4 5 6 7 0 1 2 13 w wv in
  let wv := SHA256_EXP 2 3 4 5 6 7 0 1 14 w wv in let wv := SHA256_EXP 1 2 3 4 5 6 7 0 15 w wv in
  let wv := SHA256_EXP 0 1 2 3 4 5 6 7 16 w wv in let wv := SHA256_EXP 7 0 1 2 3 4 5 6 17 w wv in
  let wv := SHA256_EXP 6 7 0 1 2 3 4 5 18 w wv in let wv := SHA256_EXP 5 6 7 0 1 2 3 4 19 w wv in
  let wv := SHA256_EXP 4 5 6 7 0 1 2 3 20 w wv in let wv := SHA256_EXP 3 4 5 6 7 0 1 2 21 w wv in
  let wv := SHA256_EXP 2 3 4 5 6 7 0 1 22 w wv in let wv := SHA256_EXP 1 2 3 4 5 6 7 0 23 w wv in
  let wv := SHA256_EXP 0 1 2 3 4 5 6 7 24 w wv in let wv := SHA256_EXP 7 0 1 2 3 4 5 6 25 w wv in
  let wv := SHA256_EXP 6 7 0 1 2 3 4 5 26 w wv in let wv := SHA256_EXP 5 6 7 0 1 2 3 4 27 w wv in
  let wv := SHA256_EXP 4 5 6 7 0 1 2 3 28 w wv in let wv := SHA256_EXP 3 4 5 6 7 0 1 2 29 w wv in
  let wv := SHA256_EXP 2 3 4 5 6 7 0 1 30 w wv in let wv := SHA256_EXP 1 2 3 4 5 6 7 0 31 w wv in
  let wv := SHA256_EXP 0 1 2 3 4 5 6 7 32 w wv in let wv := SHA256_EXP 7 0 1 2 3 4 5 6 33 w wv in
  let wv := SHA256_EXP 6 7 0 1 2 3 4 5 34 w wv in let wv := SHA256_EXP 5 6 7 0 1 2 3 4 35 w wv in
  let wv := SHA256_EXP 4 5 6 7 0 1 2 3 36 w wv in let wv := SHA256_EXP 3 4 5 6 7 0 1 2 37 w wv in
  let wv := SHA256_EXP 2 3 4 5 6 7 0 1 38 w wv in let wv := SHA256_EXP 1 2 3 4 5 6 7 0 39 w wv in
  let wv := SHA256_EXP 0 1 2 3 4 5 6 7 40 w wv in let wv := SHA256_EXP 7 0 1 2 3 4 5 6 41 w wv in
  let wv := SHA256_EXP 6 7 0 1 2 3 4 5 42 w wv in let wv := SHA256_EXP 5 6 7 0 1 2 3 4 43 w wv in
  let wv := SHA256_EXP 4 5 6 7 0 1 2 3 44 w wv in let wv := SHA256_EXP 3 4 5 6 7 0 1 2 45 w wv in
  let wv := SHA256_EXP 2 3 4 5 6 7 0 1 46 w wv in let wv := SHA256_EXP 1 2 3 4 5 6 7 0 47 w wv in
  let wv := SHA256_EXP 0 1 2 3 4 5 6 7 48 w wv in let wv := SHA256_EXP 7 0 1 2 3 4 5 6 49 w wv in
  let wv := SHA256_EXP 6 7 0 1 2 3 4 5 50 w wv in let wv := SHA256_EXP 5 6 7 0 1 2 3 4 51 w wv in
  let wv := SHA256_EXP 4 5 6 7 0 1 2 3 52 w wv in let wv := SHA256_EXP 3 4 5 6 7 0 1 2 53 w wv in
  let wv := SHA256_EXP 2 3 4 5 6 7 0 1 54 w wv in let wv := SHA256_EXP 1 2 3 4 5 6 7 0 55 w wv in
  let wv := SHA256_EXP 0 1 2 3 4 5 6 7 56 w wv in let wv := SHA256_EXP 7 0 1 2 3 4 5 6 57 w wv in
  let wv := SHA256_EXP 6 7 0 1 2 3 4 5 58 w wv in let wv := SHA256_EXP 5 6 7 0 1 2 3 4 59 w wv in
  let wv := SHA256_EXP 4 5 6 7 0 1 2 3 60 w wv in let wv := SHA256_EXP 3 4 5 6 7 0 1 2 61 w wv in
  let wv := SHA256_EXP 2 3 4 5 6 7 0 1 62 w wv in let wv := SHA256_EXP 1 2 3 4 5 6 7 0 63 w wv in
  wv.

Definition sha256_block (h sub_block : list Z) : list Z :=
  let w := sha256_sched sub_block in
  let wv := map (fun i => h.[i]) (seq 0 8) in
  add_back u32 h (sha256_rounds w wv).

(** The same block in the rolled variant. *)
Definition sha256_block_rolled (h sub_block : list Z) : list Z :=
  let w := fold_left (fun w j => w.[j <- PACK32 sub_block (4 * j)]) (seq 0 16) (memset 0 64) in
  let w := fold_left (fun w j => SHA256_SCR j w) (seq 16 48) w in
  let wv := map (fun i => h.[i]) (seq 0 8) in
  add_back u32 h (fold_left (round_rolled u32 SHA256_F1 SHA256_F2 sha256_k w) (seq 0 64) wv).

Definition sha512_sched (sub_block : list Z) : list Z :=
  let w := memset 0 80 in
  let w := w.[0 <- PACK64 sub_block 0] in let w := w.[1 <- PACK64 sub_block 8] in
  let w := w.[2 <- PACK64 sub_block 16] in let w := w.[3 <- PACK64 sub_block 24] in
  let w := w.[4 <- PACK64 sub_block 32] in let w := w.[5 <- PACK64 sub_block 40] in
  let w := w.[6 <- PACK64 sub_block 48] in let w := w.[7 <- PACK64 sub_block 56] in
  let w := w.[8 <- PACK64 sub_block 64] in let w := w.[9 <- PACK64 sub_block 72] in
  let w := w.[10 <- PACK64 sub_block 80] in let w := w.[11 <- PACK64 sub_block 88] in
  let w := w.[12 <- PACK64 sub_block 96] in let w := w.[13 <- PACK64 sub_block 104] in
  let w := w.[14 <- PACK64 sub_block 112] in let w := w.[15 <- PACK64 sub_block 120] in
  let w := SHA512_SCR 16 w in let w := SHA512_SCR 17 w in let w := SHA512_SCR 18 w in
  let w := SHA512_SCR 19 w in let w := SHA512_SCR 20 w in let w := SHA512_SCR 21 w in
  let w := SHA512_SCR 22 w in let w := SHA512_SCR 23 w in let w := SHA512_SCR 24 w in
  let w := SHA512_SCR 25 w in let w := SHA512_SCR 26 w in let w := SHA512_SCR 27 w in
  let w := SHA512_SCR 28 w in let w := SHA512_SCR 29 w in let w := SHA512_SCR 30 w in
  let w := SHA512_SCR 31 w in let w := SHA512_SCR 32 w in let w := SHA512_SCR 33 w in
  let w := SHA512_SCR 34 w in let w := SHA512_SCR 35 w in let w := SHA512_SCR 36 w in
  let w := SHA512_SCR 37 w in let w := SHA512_SCR 38 w in let w := SHA512_SCR 39 w in
  let w := SHA512_SCR 40 w in let w := SHA512_SCR 41 w in let w := SHA512_SCR 42 w in
  let w := SHA512_SCR 43 w in let w := SHA512_SCR 44 w in let w := SHA512_SCR 45 w in
  let w := SHA512_SCR 46 w in let w := SHA512_SCR 47 w in let w := SHA512_SCR 48 w in
  let w := SHA512_SCR 49 w in let w := SHA512_SCR 50 w in let w := SHA512_SCR 51 w in
  let w := SHA512_SCR 52 w in let w := SHA512_SCR 53 w in let w := SHA512_SCR 54 w in
  let w := SHA512_SCR 55 w in let w := SHA512_SCR 56 w in let w := SHA512_SCR 57 w in
  let w := SHA512_SCR 58 w in let w := SHA512_SCR 59 w in let w := SHA512_SCR 60 w in
  let w := SHA512_SCR 61 w in let w := SHA512_SCR 62 w in let w := SHA512_SCR 63 w in
  let w := SHA512_SCR 64 w in let w := SHA512_SCR 65 w in let w := SHA512_SCR 66 w in
  let w := SHA512_SCR 67 w in let w := SHA512_SCR 68 w in let w := SHA512_SCR 69 w in
  let w := SHA512_SCR 70 w in let w := SHA512_SCR 71 w in let w := SHA512_SCR 72 w in
  let w := SHA512_SCR 73 w in let w := SHA512_SCR 74 w in let w := SHA512_SCR 75 w in
  let w := SHA512_SCR 76 w in let w := SHA512_SCR 77 w in let w := SHA512_SCR 78 w in
  let w := SHA512_SCR 79 w in
  w.

(** The [do .. while (j < 80)] loop, eight rounds at a time. *)
Fixpoint sha512_rounds (fuel : nat) (j : nat) (w wv : list Z) : list Z :=
  match fuel with
  | O => wv
  | S fuel =>
      let wv := SHA512_EXP 0 1 2 3 4 5 6 7 j w wv in let j := S j in
      let wv := SHA512_EXP 7 0 1 2 3 4 5 6 j w wv in let j := S j in
      let wv := SHA512_EXP 6 7 0 1 2 3 4 5 j w wv in let j := S j in
      let wv := SHA512_EXP 5 6 7 0 1 2 3 4 j w wv in let j := S j in
      let wv := SHA512_EXP 4 5 6 7 0 1 2 3 j w wv in let j := S j in
      let wv := SHA512_EXP 3 4 5 6 7 0 1 2 j w wv in let j := S j in
      let wv := SHA512_EXP 2 3 4 5 6 7 0 1 j w wv in let j := S j in
      let wv := SHA512_EXP 1 2 3 4 5 6 7 0 j w wv in let j := S j in
      if (j <? 80)%nat then sha512_rounds fuel j w wv else wv
  end.

Definition sha512_block (h sub_block : list Z) : list Z :=
  let w := sha512_sched sub_block in
  let wv := map (fun i => h.[i]) (seq 0 8) in
  add_back u64 h (sha512_rounds 10 0 w wv).

Definition sha512_block_rolled (h sub_block : list Z) : list Z :=
  let w := fold_left (fun w j => w.[j <- PACK64 sub_block (8 * j)]) (seq 0 16) (memset 0 80) in
  let w := fold_left (fun w j => SHA512_SCR j w) (seq 16 64) w in
  let wv := map (fun i => h.[i]) (seq 0 8) in
  add_back u64 h (fold_left (round_rolled u64 SHA512_F1 SHA512_F2 sha512_k w) (seq 0 80) wv).

(** ** Contexts

    [sha256_ctx] and [sha512_ctx] differ in the block size and the width of
    [h]; the four hash functions differ in the initial value, the block
    function, the block size [bs], the room [lenf] kept for the length and
    the number of output words. *)

Record sha2_ctx := mk_sha2 {
  tot_len : Z; ctx_len : Z; ctx_block : list Z (* two blocks *); ctx_h : list Z }.

Section Context_ops.
Context (block_fn : list Z -> list Z -> list Z) (bs lenf : nat).

(** [transf]: the loop over [block_nb] blocks of [message]. *)
Definition transf (h message : list Z) (block_nb : nat) : list Z :=
  fold_left (fun h i => block_fn h (slice message (i * bs) bs)) (seq 0 block_nb) h.

Definition init (h0 : list Z) (ctx : sha2_ctx) : sha2_ctx :=
  mk_sha2 0 0 (ctx_block ctx) (map (fun i => h0.[i]) (seq 0 8)).

Definition update (ctx : sha2_ctx) (message : list Z) : sha2_ctx :=
  let len := Z.of_nat (length message) in
  let tmp_len := u32 (Z.of_nat bs - ctx_len ctx) in
  let rem_len := if len <? tmp_len then len else tmp_len in
  let block := memcpy (ctx_block ctx) (Z.to_nat (ctx_len ctx))
                 (firstn (Z.to_nat rem_len) message) in
  if u32 (ctx_len ctx + len) <? Z.of_nat bs then
    mk_sha2 (tot_len ctx) (u32 (ctx_len ctx + len)) block (ctx_h ctx)
  else
    let new_len := u32 (len - rem_len) in
    let block_nb := new_len / Z.of_nat bs in
    let shifted_message := skipn (Z.to_nat rem_len) message in
    let h := transf (ctx_h ctx) block 1 in
    let h := transf h shifted_message (Z.to_nat block_nb) in
    let rem_len := new_len mod Z.of_nat bs in
    let block := memcpy block 0
                   (slice shifted_message (Z.to_nat block_nb * bs) (Z.to_nat rem_len)) in
    mk_sha2 (u32 (tot_len ctx + u32 ((block_nb + 1) * Z.of_nat bs))) rem_len block h.

(** [final] up to the output of the digest words; the code keeps [h] in the
    context, where the key derivation reads it. *)
Definition final (ctx : sha2_ctx) : sha2_ctx :=
  let len := Z.to_nat (ctx_len ctx) in
  let block_nb := if (bs - lenf <? len mod bs)%nat then 2%nat else 1%nat in
  let len_b := u32 (Z.shiftl (u32 (tot_len ctx + ctx_len ctx)) 3) in
  let pm_len := (block_nb * bs)%nat in
  let block := memcpy (ctx_block ctx) len (memset 0 (pm_len - len)) in
  let block := block.[len <- 0x80] in
  let block := memcpy block (pm_len - 4) (UNPACK32 len_b) in
  mk_sha2 (tot_len ctx) (ctx_len ctx) block (transf (ctx_h ctx) block block_nb).

Definition digest (unpack : Z -> list Z) (words : nat) (ctx : sha2_ctx) : list Z :=
  flat_map (fun i => unpack (ctx_h ctx).[i]) (seq 0 words).

End Context_ops.

(** SHA-256 *)
Definition sha256_transf := transf sha256_block 64.
Definition sha256_transform (ctx : sha2_ctx) (message : list Z) : sha2_ctx :=
  mk_sha2 (tot_len ctx) (ctx_len ctx) (ctx_block ctx) (sha256_transf (ctx_h ctx) message 1).
Definition sha256_init := init sha256_h0.
Definition sha256_update := update sha256_block 64.
Definition sha256_final (ctx : sha2_ctx) : sha2_ctx * list Z :=
  let ctx := final sha256_block 64 9 ctx in (ctx, digest UNPACK32 8 ctx).

(** The buffer of a context on the stack is not initialised. *)
Definition sha256 (stack : list Z) (message : list Z) : list Z :=
  snd (sha256_final (sha256_update (sha256_init (mk_sha2 0 0 stack [])) message)).

(** SHA-512 *)
Definition sha512_transf := transf sha512_block 128.
Definition sha512_transform (ctx : sha2_ctx) (message : list Z) : sha2_ctx :=
  mk_sha2 (tot_len ctx) (ctx_len ctx) (ctx_block ctx) (sha512_transf (ctx_h ctx) message 1).
Definition sha512_init := init sha512_h0.
Definition sha512_update := update sha512_block 128.
Definition sha512_final (ctx : sha2_ctx) : sha2_ctx * list Z :=
  let ctx := final sha512_block 128 17 ctx in (ctx, digest UNPACK64 8 ctx).
Definition sha512 (stack : list Z) (message : list Z) : list Z :=
  snd (sha512_final (sha512_update (sha512_init (mk_sha2 0 0 stack [])) message)).

(** SHA-384: SHA-512 with another initial value, cut to six words. *)
Definition sha384_init := init sha384_h0.
Definition sha384_update := update sha512_block 128.
Definition sha384_final (ctx : sha2_ctx) : sha2_ctx * list Z :=
  let ctx := final sha512_block 128 17 ctx in (ctx, digest UNPACK64 6 ctx).
Definition sha384 (stack : list Z) (message : list Z) : list Z :=
  snd (sha384_final (sha384_update (sha384_init (mk_sha2 0 0 stack [])) message)).

(** SHA-224: SHA-256 with another initial value, cut to seven words. *)
Definition sha224_init := init sha224_h0.
Definition sha224_update := update sha256_block 64.
Definition sha224_final (ctx : sha2_ctx) : sha2_ctx * list Z :=
  let ctx := final sha256_block 64 9 ctx in (ctx, digest UNPACK32 7 ctx).
Definition sha224 (stack : list Z) (message : list Z) : list Z :=
  snd (sha224_final (sha224_update (sha224_init (mk_sha2 0 0 stack [])) message)).

(** ** The specification of FIPS 180 *)

Definition fips_digest (block_fn : list Z -> list Z -> list Z) (h0 : list Z) (bs lb : nat)
    (unpack : Z -> list Z) (words : nat) (msg : list Z) : list Z :=
  flat_map (fun i => unpack (md_state block_fn h0 bs lb msg).[i]) (seq 0 words).

Definition fips_sha224 := fips_digest sha256_block_rolled sha224_h0 64 8 UNPACK32 7.
Definition fips_sha256 := fips_digest sha256_block_rolled sha256_h0 64 8 UNPACK32 8.
Definition fips_sha384 := fips_digest sha512_block_rolled sha384_h0 128 16 UNPACK64 6.
Definition fips_sha512 := fips_digest sha512_block_rolled sha512_h0 128 16 UNPACK64 8.

(** The first test vectors of the source file (the message abc). *)
Example sha2_abc :
  firstn 4 (sha224 (memset 0 128) [97; 98; 99]) = [0x23; 0x09; 0x7d; 0x22] /\
  firstn 4 (sha256 (memset 0 128) [97; 98; 99]) = [0xba; 0x78; 0x16; 0xbf] /\
  firstn 4 (sha384 (memset 0 256) [97; 98; 99]) = [0xcb; 0x00; 0x75; 0x3f] /\
  firstn 4 (sha512 (memset 0 256) [97; 98; 99]) = [0xdd; 0xaf; 0x35; 0xa1] /\
  skipn 60 (sha512 (memset 0 256) [97; 98; 99]) = [0xa5; 0x4c; 0xa4; 0x9f] /\
  sha512 (memset 0 256) [97; 98; 99] = fips_sha512 [97; 98; 99].
Proof. vm_compute. repeat split; reflexivity. Qed.

(** ** The unrolled rounds are the rolled ones *)

Section Rounds_proof.
Context (wrap : Z -> Z) (F1 F2 : Z -> Z) (K : list Z).

(** The register that plays role [j] in round [i] of the unrolled code. *)
Definition role (i j : nat) : nat := ((8 + j - i mod 8) mod 8)%nat.

Definition exp_round (w wv : list Z) (i : nat) : list Z :=
  EXP wrap F1 F2 K (role i 0) (role i 1) (role i 2) (role i 3)
    (role i 4) (role i 5) (role i 6) (role i 7) i w wv.

Definition rotated (i : nat) (wv : list Z) : list Z :=
  map (fun j => wv.[role i j]) (seq 0 8).

Lemma exp_round_rolled w wv i :
  length wv = 8%nat ->
  rotated (S i) (exp_round w wv i) = round_rolled wrap F1 F2 K w (rotated i wv) i /\
  length (exp_round w wv i) = 8%nat.
Proof.
  intros Hl. unfold exp_round, rotated, round_rolled, EXP, role. cbv zeta.
  split; [|now rewrite !length_upd].
  do 9 (destruct wv as [|? wv]; try discriminate Hl).
  assert (Hm : (S i mod 8 = (i mod 8 + 1) mod 8)%nat)
    by (rewrite Nat.Div0.add_mod_idemp_l; f_equal; lia).
  rewrite Hm. pose proof (Nat.mod_upper_bound i 8 ltac:(lia)).
  destruct (i mod 8)%nat as [|[|[|[|[|[|[|[|k]]]]]]]]; [..|lia];
    cbn [Nat.add Nat.sub Nat.modulo Nat.divmod fst snd upd nth map seq]; reflexivity.
Qed.

Lemma exp_rounds_rolled w n k wv :
  length wv = 8%nat ->
  rotated (k + n) (fold_left (exp_round w) (seq k n) wv) =
  fold_left (round_rolled wrap F1 F2 K w) (seq k n) (rotated k wv) /\
  length (fold_left (exp_round w) (seq k n) wv) = 8%nat.
Proof.
  revert k wv. induction n as [|n IH]; intros k wv Hl; [now rewrite Nat.add_0_r|].
  cbn [seq fold_left]. destruct (exp_round_rolled w wv k Hl) as [<- Hl'].
  rewrite Nat.add_succ_r. apply (IH (S k)), Hl'.
Qed.

Lemma rotated_8 i wv : (i mod 8 = 0)%nat -> length wv = 8%nat -> rotated i wv = wv.
Proof.
  intros Hi Hl. unfold rotated, role. rewrite Hi.
  do 9 (destruct wv as [|? wv]; try discriminate Hl). reflexivity.
Qed.

(** Any whole number of eight-round groups. *)
Lemma exp_rounds_all w n wv :
  length wv = 8%nat -> (n mod 8 = 0)%nat ->
  fold_left (exp_round w) (seq 0 n) wv = fold_left (round_rolled wrap F1 F2 K w) (seq 0 n) wv.
Proof.
  intros Hl Hn. destruct (exp_rounds_rolled w n 0 wv Hl) as [E El].
  rewrite (rotated_8 0), rotated_8 in E by auto. exact E.
Qed.

End Rounds_proof.

Lemma sha256_sched_rolled sub_block :
  sha256_sched sub_block =
  fold_left (fun w j => SHA256_SCR j w) (seq 16 48)
    (fold_left (fun w j => w.[j <- PACK32 sub_block (4 * j)]) (seq 0 16) (memset 0 64)).
Proof. cbv beta zeta delta [sha256_sched]. cbn [seq fold_left]. reflexivity. Qed.

Lemma sha256_rounds_rolled w wv :
  length wv = 8%nat ->
  sha256_rounds w wv = fold_left (round_rolled u32 SHA256_F1 SHA256_F2 sha256_k w) (seq 0 64) wv.
Proof.
  intros Hl. rewrite <- exp_rounds_all by auto.
  cbv beta zeta delta [sha256_rounds SHA256_EXP]. cbn [seq fold_left]. unfold exp_round.
  reflexivity.
Qed.

Lemma sha512_sched_rolled sub_block :
  sha512_sched sub_block =
  fold_left (fun w j => SHA512_SCR j w) (seq 16 64)
    (fold_left (fun w j => w.[j <- PACK64 sub_block (8 * j)]) (seq 0 16) (memset 0 80)).
Proof. cbv beta zeta delta [sha512_sched]. cbn [seq fold_left]. reflexivity. Qed.

Lemma sha512_rounds_rolled w wv :
  length wv = 8%nat ->
  sha512_rounds 10 0 w wv =
  fold_left (round_rolled u64 SHA512_F1 SHA512_F2 sha512_k w) (seq 0 80) wv.
Proof.
  intros Hl. rewrite <- exp_rounds_all by auto.
  cbv beta iota zeta delta [sha512_rounds SHA512_EXP Nat.ltb Nat.leb].
  cbn [seq fold_left]. unfold exp_round. reflexivity.
Qed.

(** The block functions are compared through opaque rounds. *)
Lemma sha256_block_rolled_eq h b : sha256_block h b = sha256_block_rolled h b.
Proof.
  unfold sha256_block, sha256_block_rolled. cbv zeta.
  now rewrite sha256_sched_rolled, sha256_rounds_rolled by (now rewrite length_map, length_seq).
Qed.

Lemma sha512_block_rolled_eq h b : sha512_block h b = sha512_block_rolled h b.
Proof.
  unfold sha512_block, sha512_block_rolled. cbv zeta.
  now rewrite sha512_sched_rolled, sha512_rounds_rolled by (now rewrite length_map, length_seq).
Qed.

(** ** Hashing in pieces *)

Lemma UNPACK32_be v : UNPACK32 v = be_bytes 4 v.
Proof. cbn [be_bytes app]. rewrite !Z.shiftr_shiftr by lia. reflexivity. Qed.

Section Stream.
Context (block_fn : list Z -> list Z -> list Z) (bs lb : nat) (h0 : list Z).
Hypothesis Hlb : (4 <= lb)%nat.
Hypothesis Hlb' : (lb <= 16)%nat.
Hypothesis Hbs : (lb + 1 < bs)%nat.
Hypothesis Hbs' : (bs <= 128)%nat.

Lemma transf_blocks h msg n :
  (n * bs <= length msg)%nat ->
  transf block_fn bs h msg n = fold_left block_fn (blocks bs (firstn (n * bs) msg)) h.
Proof.
  intros Hn. unfold transf. induction n as [|n IH]; [cbn [Nat.mul firstn seq]; now rewrite blocks_nil|].
  rewrite seq_S, fold_left_app, IH by lia. cbn [fold_left Nat.add].
  replace (S n * bs)%nat with (n * bs + bs)%nat by lia.
  rewrite firstn_plus, (blocks_app bs n), fold_left_app by (rewrite ?firstn_length_le; lia).
  fold (slice msg (n * bs) bs).
  pose proof (blocks_app_one bs (slice msg (n * bs) bs) []) as E.
  rewrite app_nil_r, blocks_nil in E. rewrite E by (rewrite ?length_slice; lia). reflexivity.
Qed.

Lemma transf_one h b : transf block_fn bs h b 1 = block_fn h (firstn bs b).
Proof. reflexivity. Qed.

(** The second half of [update]: whole blocks straight from the message, and
    what is left to the front of the buffer. *)
Lemma update_tail h d buf :
  length buf = (2 * bs)%nat ->
  let k := (length d / bs)%nat in
  let buf' := memcpy buf 0 (slice d (k * bs) (length d mod bs)) in
  absorb block_fn bs h d = (transf block_fn bs h d k, firstn (length d mod bs) buf') /\
  length buf' = (2 * bs)%nat.
Proof.
  intros Hb k buf'. pose proof (Nat.div_mod_eq (length d) bs) as Hd. fold k in Hd.
  pose proof (Nat.mod_upper_bound (length d) bs ltac:(lia)).
  assert (Hs : slice d (k * bs) (length d mod bs) = skipn (k * bs) d)
    by (unfold slice; apply firstn_all2; rewrite length_skipn; lia).
  assert (Hl : length (skipn (k * bs) d) = (length d mod bs)%nat) by (rewrite length_skipn; lia).
  unfold buf'. rewrite Hs. split; [|rewrite length_memcpy; lia].
  rewrite transf_blocks, firstn_memcpy_end by lia. reflexivity.
Qed.

Definition sha2_repr (ctx : sha2_ctx) (m : list Z) : Prop :=
  absorb block_fn bs h0 m = (ctx_h ctx, firstn (length m mod bs) (ctx_block ctx)) /\
  length (ctx_block ctx) = (2 * bs)%nat /\
  ctx_len ctx = Z.of_nat (length m mod bs) /\
  tot_len ctx + ctx_len ctx = Z.of_nat (length m) /\
  Z.of_nat (length m) < 2 ^ 29.

Lemma init_repr ctx :
  length (ctx_block ctx) = (2 * bs)%nat -> map (fun i => h0.[i]) (seq 0 8) = h0 ->
  sha2_repr (init h0 ctx) [].
Proof.
  intros Hb Hh. unfold sha2_repr, init. cbn [ctx_h ctx_block ctx_len tot_len length].
  rewrite Nat.Div0.mod_0_l, absorb_small, Hh by (simpl; lia).
  split_and; (lia || easy).
Qed.

Lemma update_repr ctx m d :
  sha2_repr ctx m -> Z.of_nat (length (m ++ d)) < 2 ^ 29 ->
  sha2_repr (update block_fn bs ctx d) (m ++ d).
Proof.
  intros (Ha & Hb & Hc & Ht & Hm) Hmd. rewrite length_app in Hmd.
  set (u := (length m mod bs)%nat) in *.
  assert (Hu : (u < bs)%nat) by (apply Nat.mod_upper_bound; lia).
  assert (Habs : absorb block_fn bs h0 (m ++ d) =
    absorb block_fn bs (ctx_h ctx) (firstn u (ctx_block ctx) ++ d))
    by (rewrite absorb_app, Ha by lia; reflexivity).
  assert (Hmod : (length (m ++ d) mod bs = (u + length d) mod bs)%nat)
    by (rewrite length_app; symmetry; apply Nat.Div0.add_mod_idemp_l).
  assert (Hft : length (firstn u (ctx_block ctx)) = u) by (apply firstn_length_le; lia).
  unfold sha2_repr. rewrite Habs, Hmod, length_app. clear Habs Hmod Ha.
  unfold update. rewrite Hc, Nat2Z.id.
  rewrite (u32_small (Z.of_nat bs - _)), (u32_small (_ + Z.of_nat (length d)))
    by (unfold is_u32; lia).
  destruct (Z.ltb_spec (Z.of_nat (length d)) (Z.of_nat bs - Z.of_nat u)) as [Hd|Hd];
    destruct (Z.ltb_spec (Z.of_nat u + Z.of_nat (length d)) (Z.of_nat bs)); try lia;
    cbn [ctx_h ctx_block ctx_len tot_len].
  - rewrite Nat2Z.id, firstn_all, Nat.mod_small, absorb_small by (rewrite ?length_app; lia).
    rewrite firstn_memcpy_end, length_memcpy by lia. split_and; auto; lia.
  - replace (Z.to_nat (Z.of_nat bs - Z.of_nat u)) with (bs - u)%nat by lia.
    rewrite (u32_small (Z.of_nat (length d) - _)) by (unfold is_u32; lia).
    set (buf := memcpy (ctx_block ctx) u (firstn (bs - u) d)).
    set (d' := skipn (bs - u) d).
    assert (Hd' : length d' = (length d - (bs - u))%nat) by apply length_skipn.
    assert (Hfd : length (firstn (bs - u) d) = (bs - u)%nat) by (apply firstn_length_le; lia).
    assert (Hbuf : length buf = (2 * bs)%nat) by (unfold buf; rewrite length_memcpy; lia).
    replace (Z.of_nat (length d) - (Z.of_nat bs - Z.of_nat u)) with (Z.of_nat (length d')) by lia.
    rewrite <- Nat2Z.inj_div, <- Nat2Z.inj_mod, !Nat2Z.id.
    destruct (update_tail (transf block_fn bs (ctx_h ctx) buf 1) d' buf Hbuf) as [E1 E2].
    rewrite (absorb_topup block_fn bs ltac:(lia) _ _ d u) by (auto; lia). fold d'.
    assert (Hfb : firstn bs buf = firstn u (ctx_block ctx) ++ firstn (bs - u) d)
      by (unfold buf; apply firstn_memcpy_end; lia).
    rewrite transf_one, Hfb in E1 |- *.
    pose proof (Nat.div_mod_eq (length d') bs) as Hdm.
    pose proof (Nat.mod_upper_bound (length d') bs ltac:(lia)).
    assert (Hmod : ((u + length d) mod bs = length d' mod bs)%nat).
    { replace (u + length d)%nat with (length d' + 1 * bs)%nat by lia. apply Nat.Div0.mod_add. }
    rewrite Hmod, (u32_small ((_ + 1) * _)), u32_small by (unfold is_u32; nia).
    split; [exact E1|]. split; [exact E2|]. split; [reflexivity|]. split; lia.
Qed.

(** The padded end of the message, as [final] lays it out in the buffer. *)
Lemma final_layout (block : list Z) u nb v :
  length block = (2 * bs)%nat -> (u < bs)%nat -> 0 <= v < 2 ^ 32 ->
  (nb = 1%nat /\ (u + lb < bs)%nat \/ nb = 2%nat /\ (bs <= u + lb)%nat) ->
  let pm := (nb * bs)%nat in
  firstn pm (memcpy (memcpy block u (memset 0 (pm - u))).[u <- 0x80] (pm - 4) (UNPACK32 v)) =
  firstn u block ++ [0x80] ++ memset 0 ((2 * bs - 1 - lb - u) mod bs) ++ be_bytes lb v.
Proof.
  intros Hb Hu Hv Hnb pm.
  assert (Hpm : (bs <= pm <= 2 * bs)%nat) by (unfold pm; nia).
  set (t := firstn u block). assert (Ht : length t = u) by (apply firstn_length_le; lia).
  assert (E : (memcpy block u (memset 0 (pm - u))).[u <- 0x80] =
    (t ++ [0x80] ++ memset 0 (pm - u - 5)) ++ memset 0 4 ++ skipn pm block).
  { rewrite upd_split by (rewrite length_memcpy; rewrite ?length_memset; lia).
    unfold memcpy. fold t. rewrite length_memset.
    replace (u + (pm - u))%nat with pm by lia. set (z := (pm - u - 5)%nat).
    replace (pm - u)%nat with (1 + (z + 4))%nat by lia. rewrite !memset_app.
    rewrite firstn_app_l, <- !app_assoc by auto. do 2 f_equal.
    replace (S u) with (u + 1)%nat by lia. rewrite skipn_app_plus by auto. reflexivity. }
  rewrite E, memcpy_app by (try reflexivity; rewrite !length_app, length_memset; cbn [length]; lia).
  rewrite UNPACK32_be, !app_assoc, firstn_app_l.
  2: { rewrite !length_app, length_memset, length_be_bytes. cbn [length]. lia. }
  rewrite <- !app_assoc. do 2 f_equal. replace lb with ((lb - 4) + 4)%nat at 2 by lia.
  rewrite be_bytes_small, app_assoc, <- memset_app by (simpl; lia). f_equal. f_equal.
  destruct (md_zeros bs lb u) as [[-> ?]|[-> ?]]; auto; unfold pm; lia.
Qed.

Lemma final_repr ctx m :
  sha2_repr ctx m ->
  ctx_h (final block_fn bs (lb + 1) ctx) = md_state block_fn h0 bs lb m.
Proof.
  intros (Ha & Hb & Hc & Ht & Hm). set (u := (length m mod bs)%nat) in *.
  assert (Hu : (u < bs)%nat) by (apply Nat.mod_upper_bound; lia).
  rewrite md_state_absorb, Ha by lia. cbn [fst snd]. unfold final, md_padding. cbn [ctx_h].
  rewrite Ht, Hc, Nat2Z.id, (Nat.mod_small u) by lia. fold u.
  rewrite (u32_small (Z.of_nat _)), Z.shiftl_mul_pow2, Z.mul_comm by (unfold is_u32; lia).
  change (2 ^ 3) with 8. rewrite u32_small by (unfold is_u32; lia).
  set (nb := if (bs - (lb + 1) <? u)%nat then 2%nat else 1%nat).
  assert (Hnb : nb = 1%nat /\ (u + lb < bs)%nat \/ nb = 2%nat /\ (bs <= u + lb)%nat)
    by (unfold nb; destruct (Nat.ltb_spec (bs - (lb + 1)) u); lia).
  pose proof (final_layout (ctx_block ctx) u nb (8 * Z.of_nat (length m)) Hb Hu ltac:(lia) Hnb) as L.
  rewrite <- L. clear L.
  assert (Hpm : (bs <= nb * bs <= 2 * bs)%nat) by (destruct Hnb as [[-> _]|[-> _]]; lia).
  set (blk := memcpy _ _ (UNPACK32 _)).
  assert (Hlen : length blk = (2 * bs)%nat).
  { assert (H1 : length (memcpy (ctx_block ctx) u (memset 0 (nb * bs - u))) = (2 * bs)%nat)
      by (rewrite length_memcpy; rewrite ?length_memset; lia).
    unfold blk. rewrite length_memcpy; rewrite length_upd, H1; [reflexivity|].
    change (length (UNPACK32 _)) with 4%nat. lia. }
  rewrite transf_blocks by lia.
  rewrite (absorb_full block_fn bs ltac:(lia) _ _ nb) by (apply firstn_length_le; lia).
  reflexivity.
Qed.

(** Any sequence of updates absorbs the concatenated chunks. *)
Lemma updates_repr chunks ctx m :
  sha2_repr ctx m -> Z.of_nat (length (m ++ concat chunks)) < 2 ^ 29 ->
  sha2_repr (fold_left (update block_fn bs) chunks ctx) (m ++ concat chunks).
Proof.
  revert ctx m. induction chunks as [|d ds IH]; intros ctx m Hr Hl; cbn [fold_left concat] in *.
  - now rewrite app_nil_r.
  - rewrite app_assoc in *. apply IH; auto. apply update_repr; auto.
    rewrite length_app in Hl. lia.
Qed.

End Stream.

Local Opaque sha256_block sha512_block sha256_block_rolled sha512_block_rolled.

(** the unrolled compression functions that are compiled equal the rolled
    loops of FIPS 180, for every chaining value and every block. *)
Theorem sha2_unrolled_is_rolled (h b : list Z) :
  sha256_block h b = sha256_block_rolled h b /\ sha512_block h b = sha512_block_rolled h b.
Proof. split; [apply sha256_block_rolled_eq|apply sha512_block_rolled_eq]. Qed.

(** The digest of a context that has absorbed [m]. *)
Lemma digest_repr block_fn rolled bs lb h0 unpack words ctx m :
  (forall h b, block_fn h b = rolled h b) ->
  (4 <= lb)%nat -> (lb <= 16)%nat -> (lb + 1 < bs)%nat -> (bs <= 128)%nat ->
  sha2_repr block_fn bs h0 ctx m ->
  digest unpack words (final block_fn bs (lb + 1) ctx) =
  fips_digest rolled h0 bs lb unpack words m.
Proof.
  intros E H1 H2 H3 H4 Hr. unfold digest, fips_digest.
  rewrite (final_repr block_fn bs lb h0 H1 H2 H3 H4 ctx m Hr).
  now rewrite (md_state_ext block_fn rolled) by auto.
Qed.

Lemma stream_repr block_fn bs lb h0 ctx chunks :
  (4 <= lb)%nat -> (lb <= 16)%nat -> (lb + 1 < bs)%nat -> (bs <= 128)%nat ->
  length (ctx_block ctx) = (2 * bs)%nat -> map (fun i => h0.[i]) (seq 0 8) = h0 ->
  Z.of_nat (length (concat chunks)) < 2 ^ 29 ->
  sha2_repr block_fn bs h0 (fold_left (update block_fn bs) chunks (init h0 ctx)) (concat chunks).
Proof.
  intros H1 H2 H3 H4 Hb Hh Hl. apply (updates_repr block_fn bs lb h0 H1 H2 H3 H4 chunks _ []); auto.
  now apply (init_repr block_fn bs lb h0 H1 H2 H3 H4).
Qed.

(** SHA-224/256/384/512 over any sequence of updates is the FIPS 180 digest of
    the concatenated input, for inputs below [2^29] bytes and whatever the
    buffer of the context held before. *)
Theorem sha2_streaming (c64 c128 : sha2_ctx) (chunks : list (list Z)) :
  length (ctx_block c64) = 128%nat -> length (ctx_block c128) = 256%nat ->
  Z.of_nat (length (concat chunks)) < 2 ^ 29 ->
  snd (sha224_final (fold_left sha224_update chunks (sha224_init c64))) =
    fips_sha224 (concat chunks) /\
  snd (sha256_final (fold_left sha256_update chunks (sha256_init c64))) =
    fips_sha256 (concat chunks) /\
  snd (sha384_final (fold_left sha384_update chunks (sha384_init c128))) =
    fips_sha384 (concat chunks) /\
  snd (sha512_final (fold_left sha512_update chunks (sha512_init c128))) =
    fips_sha512 (concat chunks).
Proof.
  intros H64 H128 Hl.
  split; [|split; [|split]]; [apply (digest_repr sha256_block sha256_block_rolled 64 8 sha224_h0)
   |apply (digest_repr sha256_block sha256_block_rolled 64 8 sha256_h0)
   |apply (digest_repr sha512_block sha512_block_rolled 128 16 sha384_h0)
   |apply (digest_repr sha512_block sha512_block_rolled 128 16 sha512_h0)];
    try lia; try apply sha256_block_rolled_eq; try apply sha512_block_rolled_eq.
  - apply (stream_repr _ 64 8); auto; lia.
  - apply (stream_repr _ 64 8); auto; lia.
  - apply (stream_repr _ 128 16); auto; lia.
  - apply (stream_repr _ 128 16); auto; lia.
Qed.

Lemma sha2_streaming_witness :
  snd (sha256_final (fold_left sha256_update [[97]; [98; 99]]
         (sha256_init (mk_sha2 5 5 (memset 7 128) [])))) = fips_sha256 [97; 98; 99].
Proof.
  apply (sha2_streaming (mk_sha2 5 5 (memset 7 128) []) (mk_sha2 5 5 (memset 7 256) [])
           [[97]; [98; 99]]); [reflexivity|reflexivity|simpl; lia].
Defined.
