(* ===== verification/Sha1.v ===== *)
(** * SHA-1

    Model of sha1.c: the unrolled compression function with its schedule in a
    circular buffer of sixteen words, the byte swap chosen by the run-time
    check of the byte order, and the buffered [sha1_update]/[sha1_final].
    Results: the code computes the compression function of FIPS 180, and any
    sequence of updates of less than [2^29] bytes each hashes the concatenated
    input.  The macros and the compression function are the same text in
    ext/misc/sha1.c of the shell, which [ShSha1] models with the definitions of
    this file. *)

From Stdlib Require Import ZArith Lia List Bool.
From S2P Require Import Prelude ChaCha20 Streaming Sha2.
Import ListNotations.
Local Open Scope Z_scope.

Definition rol (value bits : Z) : Z :=
  Z.lor (u32 (Z.shiftl value bits)) (Z.shiftr value (32 - bits)).
Definition ror (value bits : Z) : Z :=
  Z.lor (u32 (Z.shiftl value (32 - bits))) (Z.shiftr value bits).

(** The working variables [a .. e] and the sixteen-word block. *)
Definition vars : Type := list Z * list Z.

(** [blk0le], [blk0be] and [blk]: the word of step [i] and the new block. *)
Definition blk0le (i : nat) (block : list Z) : Z * list Z :=
  let x := Z.lor (Z.land (ror block.[i] 8) 0xFF00FF00) (Z.land (rol block.[i] 8) 0x00FF00FF) in
  (x, block.[i <- x]).
Definition blk0be (i : nat) (block : list Z) : Z * list Z := (block.[i], block).
Definition blk (i : nat) (block : list Z) : Z * list Z :=
  let x := rol (Z.lxor (Z.lxor (Z.lxor block.[(i + 13) mod 16] block.[(i + 8) mod 16])
                               block.[(i + 2) mod 16]) block.[i mod 16]) 1 in
  (x, block.[i mod 16 <- x]).

(** The common shape of the six round macros. *)
Definition R (f : Z -> Z -> Z -> Z) (b : nat -> list Z -> Z * list Z) (K : Z)
    (v w x y z i : nat) (s : vars) : vars :=
  let '(st, block) := s in
  let '(bi, block) := b i block in
  let st := st.[z <- u32 (st.[z] + (f st.[w] st.[x] st.[y] + bi + K + rol st.[v] 5))] in
  (st.[w <- ror st.[w] 2], block).

Definition f1 (w x y : Z) : Z := Z.lxor (Z.land w (Z.lxor x y)) y.
Definition f2 (w x y : Z) : Z := Z.lxor (Z.lxor w x) y.
Definition f3 (w x y : Z) : Z := Z.lor (Z.land (Z.lor w x) y) (Z.land w x).

Definition Rl0 := R f1 blk0le 0x5A827999.
Definition Rb0 := R f1 blk0be 0x5A827999.
Definition R1 := R f1 blk 0x5A827999.
Definition R2 := R f2 blk 0x6ED9EBA1.
Definition R3 := R f3 blk 0x8F1BBCDC.
Definition R4 := R f2 blk 0xCA62C1D6.
Arguments Rl0 (v w x y z i)%_nat s.
Arguments Rb0 (v w x y z i)%_nat s.
Arguments R1 (v w x y z i)%_nat s.
Arguments R2 (v w x y z i)%_nat s.
Arguments R3 (v w x y z i)%_nat s.
Arguments R4 (v w x y z i)%_nat s.

(** The first sixteen steps, by the byte order of the host. *)
Definition sha1_first16 (le : bool) (s : vars) : vars :=
  let a := 0%nat in let b := 1%nat in let c := 2%nat in let d := 3%nat in let e := 4%nat in
  if le then
    let s := Rl0 a b c d e 0 s in let s := Rl0 e a b c d 1 s in let s := Rl0 d e a b c 2 s in
    let s := Rl0 c d e a b 3 s in let s := Rl0 b c d e a 4 s in let s := Rl0 a b c d e 5 s in
    let s := Rl0 e a b c d 6 s in let s := Rl0 d e a b c 7 s in let s := Rl0 c d e a b 8 s in
    let s := Rl0 b c d e a 9 s in let s := Rl0 a b c d e 10 s in let s := Rl0 e a b c d 11 s in
    let s := Rl0 d e a b c 12 s in let s := Rl0 c d e a b 13 s in let s := Rl0 b c d e a 14 s in
    let s := Rl0 a b c d e 15 s in
    s
  else
    let s := Rb0 a b c d e 0 s in let s := Rb0 e a b c d 1 s in let s := Rb0 d e a b c 2 s in
    let s := Rb0 c d e a b 3 s in let s := Rb0 b c d e a 4 s in let s := Rb0 a b c d e 5 s in
    let s := Rb0 e a b c d 6 s in let s := Rb0 d e a b c 7 s in let s := Rb0 c d e a b 8 s in
    let s := Rb0 b c d e a 9 s in let s := Rb0 a b c d e 10 s in let s := Rb0 e a b c d 11 s in
    let s := Rb0 d e a b c 12 s in let s := Rb0 c d e a b 13 s in let s := Rb0 b c d e a 14 s in
    let s := Rb0 a b c d e 15 s in
    s.

Definition sha1_steps (s : vars) : vars :=
  let a := 0%nat in let b := 1%nat in let c := 2%nat in let d := 3%nat in let e := 4%nat in
  let s := R1 e a b c d 16 s in let s := R1 d e a b c 17 s in let s := R1 c d e a b 18 s in
  let s := R1 b c d e a 19 s in let s := R2 a b c d e 20 s in let s := R2 e a b c d 21 s in
  let s := R2 d e a b c 22 s in let s := R2 c d e a b 23 s in let s := R2 b c d e a 24 s in
  let s := R2 a b c d e 25 s in let s := R2 e a b c d 26 s in let s := R2 d e a b c 27 s in
  let s := R2 c d e a b 28 s in let s := R2 b c d e a 29 s in let s := R2 a b c d e 30 s in
  let s := R2 e a b c d 31 s in let s := R2 d e a b c 32 s in let s := R2 c d e a b 33 s in
  let s := R2 b c d e a 34 s in let s := R2 a b c d e 35 s in let s := R2 e a b c d 36 s in
  let s := R2 d e a b c 37 s in let s := R2 c d e a b 38 s in let s := R2 b c d e a 39 s in
  let s := R3 a b c d e 40 s in let s := R3 e a b c d 41 s in let s := R3 d e a b c 42 s in
  let s := R3 c d e a b 43 s in let s := R3 b c d e a 44 s in let s := R3 a b c d e 45 s in
  let s := R3 e a b c d 46 s in let s := R3 d e a b c 47 s in let s := R3 c d e a b 48 s in
  let s := R3 b c d e a 49 s in let s := R3 a b c d e 50 s in let s := R3 e a b c d 51 s in
  let s := R3 d e a b c 52 s in let s := R3 c d e a b 53 s in let s := R3 b c d e a 54 s in
  let s := R3 a b c d e 55 s in let s := R3 e a b c d 56 s in let s := R3 d e a b c 57 s in
  let s := R3 c d e a b 58 s in let s := R3 b c d e a 59 s in let s := R4 a b c d e 60 s in
  let s := R4 e a b c d 61 s in let s := R4 d e a b c 62 s in let s := R4 c d e a b 63 s in
  let s := R4 b c d e a 64 s in let s := R4 a b c d e 65 s in let s := R4 e a b c d 66 s in
  let s := R4 d e a b c 67 s in let s := R4 c d e a b 68 s in let s := R4 b c d e a 69 s in
  let s := R4 a b c d e 70 s in let s := R4 e a b c d 71 s in let s := R4 d e a b c 72 s in
  let s := R4 c d e a b 73 s in let s := R4 b c d e a 74 s in let s := R4 a b c d e 75 s in
  let s := R4 e a b c d 76 s in let s := R4 d e a b c 77 s in let s := R4 c d e a b 78 s in
  let s := R4 b c d e a 79 s in
  s.

(** The words of the block as [memcpy] leaves them on a host of byte order [le]. *)
Definition host_words (le : bool) (buffer : list Z) : list Z :=
  map (fun i => if le then LOAD32_LE buffer (4 * i) else PACK32 buffer (4 * i)) (seq 0 16).

(** [sha1_transform] on the chaining value [h]. *)
Definition sha1_block (le : bool) (h buffer : list Z) : list Z :=
  let st := map (fun i => h.[i]) (seq 0 5) in
  let '(st, _) := sha1_steps (sha1_first16 le (st, host_words le buffer)) in
  map (fun i => u32 (h.[i] + st.[i])) (seq 0 5).

Record sha1_ctx := mk_sha1 {
  sha1_h : list Z; count0 : Z; count1 : Z; sha1_buffer : list Z }.

Definition sha1_iv : list Z := [0x67452301; 0xefcdab89; 0x98badcfe; 0x10325476; 0xc3d2e1f0].

Definition sha1_init (ctx : sha1_ctx) : sha1_ctx := mk_sha1 sha1_iv 0 0 (sha1_buffer ctx).

Definition sha1_transform (le : bool) (ctx : sha1_ctx) (buffer : list Z) : sha1_ctx :=
  mk_sha1 (sha1_block le (sha1_h ctx) (firstn 64 buffer)) (count0 ctx) (count1 ctx)
    (sha1_buffer ctx).

(** [for (; i + 63 < len; i += 64) sha1_transform(context, data + i)] *)
Fixpoint sha1_update_loop (fuel : nat) (le : bool) (ctx : sha1_ctx) (data : list Z) (i : nat)
    : sha1_ctx * nat :=
  match fuel with
  | O => (ctx, i)
  | S fuel =>
      if (i + 63 <? length data)%nat then
        sha1_update_loop fuel le (sha1_transform le ctx (skipn i data)) data (i + 64)
      else (ctx, i)
  end.

Definition sha1_update (le : bool) (ctx : sha1_ctx) (data : list Z) : sha1_ctx :=
  let len := Z.of_nat (length data) in
  let j := Z.to_nat (Z.land (Z.shiftr (count0 ctx) 3) 63) in
  let c0 := u32 (count0 ctx + u32 (Z.shiftl len 3)) in
  let c1 := if c0 <? u64 (Z.shiftl len 3) then u32 (count1 ctx + 1) else count1 ctx in
  let c1 := u32 (c1 + u32 (Z.shiftr len 29)) in
  let ctx := mk_sha1 (sha1_h ctx) c0 c1 (sha1_buffer ctx) in
  let '(ctx, i, j) :=
    if (63 <? j + length data)%nat then
      let i := (64 - j)%nat in
      let buffer := memcpy (sha1_buffer ctx) j (firstn i data) in
      let ctx := mk_sha1 (sha1_h ctx) (count0 ctx) (count1 ctx) buffer in
      let ctx := sha1_transform le ctx buffer in
      let '(ctx, i) := sha1_update_loop (length data) le ctx data i in
      (ctx, i, 0%nat)
    else (ctx, 0%nat, j) in
  mk_sha1 (sha1_h ctx) (count0 ctx) (count1 ctx) (memcpy (sha1_buffer ctx) j (skipn i data)).

(** The zero bytes of [sha1_final]; a context is at most 63 bytes short. *)
Fixpoint sha1_final_loop (fuel : nat) (le : bool) (ctx : sha1_ctx) : sha1_ctx :=
  match fuel with
  | O => ctx
  | S fuel =>
      if Z.land (count0 ctx) 504 =? 448 then ctx
      else sha1_final_loop fuel le (sha1_update le ctx [0])
  end.

(** Byte [i] of a sequence of big-endian words. *)
Definition word_byte (w : list Z) (i : nat) : Z :=
  Z.land (Z.shiftr w.[i / 4] (Z.of_nat ((3 - i mod 4) * 8))) 255.

Definition sha1_final (le : bool) (ctx : sha1_ctx) : sha1_ctx * list Z :=
  let finalcount := map (word_byte [count1 ctx; count0 ctx]) (seq 0 8) in
  let ctx := sha1_update le ctx [0x80] in
  let ctx := sha1_final_loop 64 le ctx in
  let ctx := sha1_update le ctx finalcount in
  let digest := map (word_byte (sha1_h ctx)) (seq 0 20) in
  (mk_sha1 (sha1_h ctx) 0 0 (memset 0 64), digest).

(** ** The specification of FIPS 180 *)

Definition fips_f (t : nat) (x y z : Z) : Z :=
  match (t / 20)%nat with
  | 0%nat => Z.lxor (Z.land x y) (Z.land (Z.lnot x) z)
  | 2%nat => Z.lxor (Z.lxor (Z.land x y) (Z.land x z)) (Z.land y z)
  | _ => Z.lxor (Z.lxor x y) z
  end.
Definition fips_K (t : nat) : Z :=
  [0x5A827999; 0x6ED9EBA1; 0x8F1BBCDC; 0xCA62C1D6].[t / 20].

(** The message schedule: sixteen big-endian words, then [n] more by the recurrence. *)
Definition W_next (W : list Z) (t : nat) : Z :=
  rol (Z.lxor (Z.lxor (Z.lxor W.[t - 3] W.[t - 8]) W.[t - 14]) W.[t - 16]) 1.

Definition W_prefix (block : list Z) (n : nat) : list Z :=
  fold_left (fun W t => W ++ [W_next W t]) (seq 16 n) (map (fun t => PACK32 block (4 * t)) (seq 0 16)).

Definition fips_W (block : list Z) : list Z := W_prefix block 64.

Definition fips_round (W st : list Z) (t : nat) : list Z :=
  let T := u32 (rol st.[0] 5 + fips_f t st.[1] st.[2] st.[3] + st.[4] + fips_K t + W.[t]) in
  [T; st.[0]; rol st.[1] 30; st.[2]; st.[3]].

Definition fips_sha1_compress (h block : list Z) : list Z :=
  let st := fold_left (fips_round (fips_W block)) (seq 0 80) (map (fun i => h.[i]) (seq 0 5)) in
  map (fun i => u32 (h.[i] + st.[i])) (seq 0 5).

Definition fips_sha1 (msg : list Z) : list Z :=
  flat_map UNPACK32 (md_state fips_sha1_compress sha1_iv 64 8 msg).

(** The first test vector of the source file. *)
Example sha1_abc :
  let run le := snd (sha1_final le (sha1_update le
                  (sha1_init (mk_sha1 [] 0 0 (memset 9 64))) [97; 98; 99])) in
  run true = [0xA9; 0x99; 0x3E; 0x36; 0x47; 0x06; 0x81; 0x6A; 0xBA; 0x3E;
              0x25; 0x71; 0x78; 0x50; 0xC2; 0x6C; 0x9C; 0xD0; 0xD8; 0x9D] /\
  run false = run true /\ fips_sha1 [97; 98; 99] = run true.
Proof. vm_compute. repeat split; reflexivity. Qed.

(** ** The schedule *)

Lemma W_prefix_S block n :
  W_prefix block (S n) = W_prefix block n ++ [W_next (W_prefix block n) (16 + n)].
Proof. unfold W_prefix. now rewrite seq_S, fold_left_app. Qed.

Lemma length_W_prefix block n : length (W_prefix block n) = (16 + n)%nat.
Proof.
  induction n; [reflexivity|]. rewrite W_prefix_S, length_app, IHn. simpl. lia.
Qed.

Lemma W_prefix_stable block n m t :
  (t < 16 + n)%nat -> (n <= m)%nat -> (W_prefix block m).[t] = (W_prefix block n).[t].
Proof.
  intros Ht Hm. induction Hm as [|m Hm IH]; [reflexivity|].
  rewrite W_prefix_S, app_nth1 by (rewrite length_W_prefix; lia). exact IH.
Qed.

Lemma fips_W_first block t : (t < 16)%nat -> (fips_W block).[t] = PACK32 block (4 * t).
Proof.
  intros Ht. unfold fips_W.
  rewrite (W_prefix_stable block 0) by lia. 
  apply (nth_map_seq (fun t => PACK32 block (4 * t))), Ht.
Qed.

Lemma fips_W_next block t :
  (16 <= t < 80)%nat -> (fips_W block).[t] = W_next (fips_W block) t.
Proof.
  intros Ht. unfold fips_W.
  rewrite (W_prefix_stable block (S (t - 16))), W_prefix_S by lia.
  rewrite app_nth2 by (rewrite length_W_prefix; lia). rewrite length_W_prefix.
  replace (t - (16 + (t - 16)))%nat with 0%nat by lia. cbn [nth].
  replace (16 + (t - 16))%nat with t by lia. unfold W_next.
  now rewrite !(W_prefix_stable block (t - 16) 64) by lia.
Qed.

(** The byte swap of [blk0le]; it distributes over the bytes of a word. *)
Definition swap32 (x : Z) : Z :=
  Z.lor (Z.land (ror x 8) 0xFF00FF00) (Z.land (rol x 8) 0x00FF00FF).

Lemma swap32_lor a b : swap32 (Z.lor a b) = Z.lor (swap32 a) (swap32 b).
Proof.
  unfold swap32, ror, rol, u32. rewrite !Z.shiftl_lor, !Z.shiftr_lor, !Z.land_lor_distr_l.
  apply Z.bits_inj'. intros i Hi. rewrite !Z.lor_spec.
  repeat match goal with |- context [Z.testbit ?x i] => destruct (Z.testbit x i) end; reflexivity.
Qed.

Lemma swap32_byte b :
  is_byte b ->
  swap32 (Z.shiftl b 0) = Z.shiftl b 24 /\ swap32 (Z.shiftl b 8) = Z.shiftl b 16 /\
  swap32 (Z.shiftl b 16) = Z.shiftl b 8 /\ swap32 (Z.shiftl b 24) = b.
Proof.
  intros Hb.
  pose proof (forall_bytes (fun b =>
    (swap32 (Z.shiftl b 0) =? Z.shiftl b 24) && (swap32 (Z.shiftl b 8) =? Z.shiftl b 16) &&
    (swap32 (Z.shiftl b 16) =? Z.shiftl b 8) && (swap32 (Z.shiftl b 24) =? b))
    ltac:(vm_compute; reflexivity) b Hb) as H.
  rewrite !andb_true_iff, !Z.eqb_eq in H. tauto.
Qed.

Lemma blk0le_swap p o : bytes p -> swap32 (LOAD32_LE p o) = PACK32 p o.
Proof.
  intros Hp. unfold LOAD32_LE, PACK32. rewrite !swap32_lor, Nat.add_0_r.
  destruct (swap32_byte (p.[o]) (bytes_nth _ _ Hp)) as (-> & _).
  destruct (swap32_byte (p.[o + 1]) (bytes_nth _ _ Hp)) as (_ & -> & _).
  destruct (swap32_byte (p.[o + 2]) (bytes_nth _ _ Hp)) as (_ & _ & -> & _).
  destruct (swap32_byte (p.[o + 3]) (bytes_nth _ _ Hp)) as (_ & _ & _ & ->).
  bitwise.
Qed.

(** ** The unrolled steps are the rounds of FIPS 180 *)

Local Opaque fips_W.

Definition code_f (i : nat) : Z -> Z -> Z -> Z :=
  match (i / 20)%nat with 0%nat => f1 | 2%nat => f3 | _ => f2 end.

Lemma code_f_fips i x y z : code_f i x y z = fips_f i x y z.
Proof.
  unfold code_f, fips_f.
  destruct (i / 20)%nat as [|[|[|k]]]; [unfold f1; bitwise|reflexivity|unfold f3; bitwise|reflexivity].
Qed.

Definition code_blk (le : bool) (i : nat) : nat -> list Z -> Z * list Z :=
  if (i <? 16)%nat then if le then blk0le else blk0be else blk.

(** The position of the [j]-th operand of step [i]. *)
Definition pos (i j : nat) : nat := ((5 + j - i mod 5) mod 5)%nat.

Definition code_round (le : bool) (s : vars) (i : nat) : vars :=
  R (code_f i) (code_blk le i) (fips_K i) (pos i 0) (pos i 1) (pos i 2) (pos i 3) (pos i 4) i s.

Lemma sha1_steps_fold le s :
  sha1_steps (sha1_first16 le s) = fold_left (code_round le) (seq 0 80) s.
Proof.
  destruct le; cbv beta iota zeta delta [sha1_steps sha1_first16 Rl0 Rb0 R1 R2 R3 R4];
    cbn [seq fold_left]; unfold code_round; reflexivity.
Qed.

(** After [i] steps the block holds the last sixteen words of the schedule, or
    the host words not read yet. *)
Definition sched_ok (le : bool) (buf : list Z) (i : nat) (block : list Z) : Prop :=
  length block = 16%nat /\
  (forall t, (t < i)%nat -> (i <= t + 16)%nat -> block.[t mod 16] = (fips_W buf).[t]) /\
  (forall t, (i <= t < 16)%nat -> block.[t] = (host_words le buf).[t]).

Lemma sched_write le buf i block :
  sched_ok le buf i block -> sched_ok le buf (S i) (block.[i mod 16 <- (fips_W buf).[i]]).
Proof.
  intros (Hl & Hw & Hh). split; [now rewrite length_upd|]. split.
  - intros t Ht Hi. destruct (Nat.eq_dec t i) as [->|Hne].
    + apply nth_upd_eq. rewrite Hl. apply Nat.mod_upper_bound. lia.
    + rewrite nth_upd_ne; [apply Hw; lia|]. intros E.
      pose proof (Nat.div_mod_eq t 16). pose proof (Nat.div_mod_eq i 16). lia.
  - intros t Ht. rewrite nth_upd_ne; [apply Hh; lia|]. rewrite Nat.mod_small; lia.
Qed.

Lemma sched_step le buf i block :
  bytes buf -> (i < 80)%nat -> sched_ok le buf i block ->
  fst (code_blk le i i block) = (fips_W buf).[i] /\
  sched_ok le buf (S i) (snd (code_blk le i i block)).
Proof.
  intros Hb Hi Hs. pose proof (sched_write le buf i block Hs) as Hn.
  destruct Hs as (Hl & Hw & Hh). unfold code_blk. destruct (Nat.ltb_spec i 16) as [H16|H16].
  - assert (E : block.[i] = if le then LOAD32_LE buf (4 * i) else PACK32 buf (4 * i))
      by (rewrite Hh by lia; unfold host_words; now rewrite nth_map_seq by lia).
    rewrite Nat.mod_small in Hn by lia. destruct le; cbn [fst snd blk0le blk0be].
    + unfold blk0le. change (Z.lor _ _) with (swap32 block.[i]).
      rewrite E, blk0le_swap, fips_W_first in * by auto. auto.
    + rewrite fips_W_first, <- E in Hn |- * by auto. split; [reflexivity|].
      assert (U : block.[i <- block.[i]] = block); [|now rewrite U in Hn].
      apply (nth_ext _ _ 0 0); [apply length_upd|]. intros k Hk. rewrite length_upd in Hk.
      destruct (Nat.eq_dec i k) as [->|]; [now rewrite nth_upd_eq|now rewrite nth_upd_ne].
  - unfold blk. cbn [fst snd].
    assert (E : forall k j, (k + j = 16)%nat -> (1 <= j)%nat ->
      block.[(i + k) mod 16] = (fips_W buf).[i - j]).
    { intros k j Hk Hj. rewrite <- Hw by lia. f_equal.
      replace (i + k)%nat with (i - j + 1 * 16)%nat by lia. apply Nat.Div0.mod_add. }
    rewrite (E 13 3)%nat, (E 8 8)%nat, (E 2 14)%nat by lia.
    pose proof (E 0 16 eq_refl ltac:(lia))%nat as E16. rewrite Nat.add_0_r in E16. rewrite E16.
    pose proof (fips_W_next buf i ltac:(lia)) as EW. unfold W_next in EW. rewrite <- EW. auto.
Qed.

Definition rotated5 (i : nat) (st : list Z) : list Z := map (fun j => st.[pos i j]) (seq 0 5).

Lemma ror_rol x : ror x 2 = rol x 30.
Proof. reflexivity. Qed.

(** One step on the working variables, given the word of the schedule. *)
Lemma code_round_fips le buf i st block :
  bytes buf -> (i < 80)%nat -> length st = 5%nat -> sched_ok le buf i block ->
  let s' := code_round le (st, block) i in
  rotated5 (S i) (fst s') = fips_round (fips_W buf) (rotated5 i st) i /\
  length (fst s') = 5%nat /\ sched_ok le buf (S i) (snd s').
Proof.
  intros Hb Hi Hl Hs. destruct (sched_step le buf i block Hb Hi Hs) as [E Hn].
  unfold code_round, R. destruct (code_blk le i i block) as [w block']. cbn [fst snd] in *.
  subst w. split; [|split; [now rewrite !length_upd|exact Hn]].
  unfold rotated5, fips_round, pos.
  do 6 (destruct st as [|? st]; try discriminate Hl).
  assert (Hm : (S i mod 5 = (i mod 5 + 1) mod 5)%nat)
    by (rewrite Nat.Div0.add_mod_idemp_l; f_equal; lia).
  rewrite Hm. pose proof (Nat.mod_upper_bound i 5 ltac:(lia)).
  destruct (i mod 5)%nat as [|[|[|[|[|k]]]]]; [..|lia];
    cbn [Nat.add Nat.sub Nat.modulo Nat.divmod fst snd upd nth map seq];
    rewrite code_f_fips, ror_rol; (apply (f_equal2 cons); [apply (f_equal u32); ring|reflexivity]).
Qed.

Lemma code_rounds_fips le buf n i st block :
  bytes buf -> (i + n <= 80)%nat -> length st = 5%nat -> sched_ok le buf i block ->
  let s' := fold_left (code_round le) (seq i n) (st, block) in
  rotated5 (i + n) (fst s') = fold_left (fips_round (fips_W buf)) (seq i n) (rotated5 i st) /\
  length (fst s') = 5%nat.
Proof.
  intros Hb. revert i st block. induction n as [|n IH]; intros i st block Hi Hl Hs; cbn [seq fold_left].
  { now rewrite Nat.add_0_r. }
  destruct (code_round_fips le buf i st block Hb ltac:(lia) Hl Hs) as (<- & Hl' & Hs').
  destruct (code_round le (st, block) i) as [st' block']. rewrite Nat.add_succ_r.
  apply (IH (S i)); auto. lia.
Qed.

Lemma rotated5_0 i st : (i mod 5 = 0)%nat -> length st = 5%nat -> rotated5 i st = st.
Proof.
  intros Hi Hl. unfold rotated5, pos. rewrite Hi.
  do 6 (destruct st as [|? st]; try discriminate Hl). reflexivity.
Qed.

Lemma sha1_block_fips le h buf : bytes buf -> sha1_block le h buf = fips_sha1_compress h buf.
Proof.
  intros Hb. unfold sha1_block, fips_sha1_compress. rewrite sha1_steps_fold.
  set (st := map (fun i => h.[i]) (seq 0 5)).
  assert (Hl : length st = 5%nat) by reflexivity.
  destruct (code_rounds_fips le buf 80 0 st (host_words le buf) Hb ltac:(lia) Hl) as [E El].
  { split; [reflexivity|]. split; [lia|auto]. }
  rewrite (rotated5_0 0), rotated5_0 in E by auto. rewrite <- E.
  destruct (fold_left (code_round le) _ _) as [st' block']. reflexivity.
Qed.

(** ** Hashing in pieces *)

Lemma length_fips_sha1_compress h b : length (fips_sha1_compress h b) = 5%nat.
Proof. unfold fips_sha1_compress. now rewrite length_map, length_seq. Qed.

Local Opaque sha1_block fips_sha1_compress.

Lemma sha1_update_loop_spec le fuel ctx data i :
  bytes data -> (i <= length data)%nat -> (length data < i + 64 * S fuel)%nat ->
  let '(ctx', i') := sha1_update_loop fuel le ctx data i in
  absorb fips_sha1_compress 64 (sha1_h ctx) (skipn i data) = (sha1_h ctx', skipn i' data) /\
  count0 ctx' = count0 ctx /\ count1 ctx' = count1 ctx /\
  sha1_buffer ctx' = sha1_buffer ctx /\ (i' <= length data)%nat.
Proof.
  intros Hb. revert ctx i. induction fuel as [|fuel IH]; intros ctx i Hi Hf;
    cbn [sha1_update_loop].
  { rewrite absorb_small by (rewrite ?length_skipn; lia). auto. }
  destruct (Nat.ltb_spec (i + 63) (length data)) as [Hlt|Hlt].
  2: { rewrite absorb_small by (rewrite ?length_skipn; lia). auto. }
  specialize (IH (sha1_transform le ctx (skipn i data)) (i + 64)%nat ltac:(lia) ltac:(lia)).
  destruct (sha1_update_loop _ _ _ _ _) as [ctx' i']. destruct IH as (Ea & E0 & E1 & Eb & El).
  cbn [sha1_h sha1_transform count0 count1 sha1_buffer] in *. split_and; auto.
  rewrite <- Ea, sha1_block_fips by auto with words.
  rewrite <- (firstn_skipn 64 (skipn i data)) at 1.
  rewrite absorb_block, skipn_skipn
    by (rewrite ?firstn_length_le; rewrite ?length_skipn; lia).
  do 2 f_equal. lia.
Qed.

Definition sha1_repr (ctx : sha1_ctx) (m : list Z) : Prop :=
  absorb fips_sha1_compress 64 sha1_iv m = (sha1_h ctx, firstn (length m mod 64) (sha1_buffer ctx)) /\
  length (sha1_buffer ctx) = 64%nat /\ bytes (sha1_buffer ctx) /\
  count0 ctx = (8 * Z.of_nat (length m)) mod 2 ^ 32 /\
  count1 ctx = (8 * Z.of_nat (length m) / 2 ^ 32) mod 2 ^ 32.

Lemma sha1_init_repr ctx :
  length (sha1_buffer ctx) = 64%nat -> bytes (sha1_buffer ctx) -> sha1_repr (sha1_init ctx) [].
Proof. intros Hl Hb. unfold sha1_repr. split_and; auto. Qed.

(** The carry between the two words of the bit count. *)
Lemma count_spec n len :
  0 <= n -> 0 <= len < 2 ^ 29 ->
  let c0 := (8 * n) mod 2 ^ 32 in let c1 := (8 * n / 2 ^ 32) mod 2 ^ 32 in
  let c0' := u32 (c0 + u32 (Z.shiftl len 3)) in
  c0' = (8 * (n + len)) mod 2 ^ 32 /\
  u32 ((if c0' <? u64 (Z.shiftl len 3) then u32 (c1 + 1) else c1) + u32 (Z.shiftr len 29)) =
  (8 * (n + len) / 2 ^ 32) mod 2 ^ 32.
Proof.
  intros Hn Hl c0 c1 c0'.
  assert (Hs : Z.shiftl len 3 = 8 * len) by (rewrite Z.shiftl_mul_pow2; lia).
  assert (E : c0' = (c0 + 8 * len) mod 2 ^ 32)
    by (unfold c0'; rewrite Hs, (u32_small (8 * len)), u32_mod by (unfold is_u32; lia); reflexivity).
  rewrite Hs, (u64_small (8 * len)), Z.shiftr_div_pow2, (Z.div_small len) by lia.
  change (u32 0) with 0. rewrite Z.add_0_r.
  assert (B : 0 <= c0 < 2 ^ 32) by (apply Z.mod_pos_bound; lia).
  assert (D : 8 * n = 2 ^ 32 * (8 * n / 2 ^ 32) + c0) by (apply Z.div_mod; lia).
  assert (Dq : c0' = c0 + 8 * len /\ 8 * (n + len) / 2 ^ 32 = 8 * n / 2 ^ 32 /\ c0' < 2 ^ 32 \/
               c0' = c0 + 8 * len - 2 ^ 32 /\ 8 * (n + len) / 2 ^ 32 = 8 * n / 2 ^ 32 + 1 /\ 0 <= c0').
  { rewrite E. destruct (Z.lt_ge_cases (c0 + 8 * len) (2 ^ 32)); [left|right]; split_and.
    - apply Z.mod_small; lia.
    - symmetry. apply (Z.div_unique_pos _ _ _ (c0 + 8 * len)); lia.
    - rewrite Z.mod_small; lia.
    - symmetry. apply (Z.mod_unique_pos _ _ 1); lia.
    - symmetry. apply (Z.div_unique_pos _ _ _ (c0 + 8 * len - 2 ^ 32)); lia.
    - apply Z.mod_pos_bound. lia. }
  split.
  - rewrite E, Z.mul_add_distr_l. unfold c0. now rewrite Z.add_mod_idemp_l by lia.
  - destruct Dq as [(E0 & -> & ?)|(E0 & -> & ?)]; rewrite E0; case_bool; try lia.
    + apply u32_small. unfold is_u32, c1. pose proof (Z.mod_pos_bound (8 * n / 2 ^ 32) (2 ^ 32)). lia.
    + unfold c1. rewrite u32_small by apply u32_range. rewrite u32_mod.
      now rewrite Z.add_mod_idemp_l by lia.
Qed.

Lemma count_used n : 0 <= n -> Z.to_nat (Z.land (Z.shiftr ((8 * n) mod 2 ^ 32) 3) 63) = (Z.to_nat n mod 64)%nat.
Proof.
  intros Hn. rewrite Z.shiftr_div_pow2 by lia. change 63 with (Z.ones 6). rewrite Z.land_ones by lia.
  change (2 ^ 32) with (8 * 2 ^ 29). change (2 ^ 3) with 8.
  rewrite Z.mul_mod_distr_l, Z.mul_comm, Z.div_mul by lia.
  rewrite Z.mod_mod_divide by (exists (2 ^ 23); reflexivity). now rewrite Z2Nat.inj_mod by lia.
Qed.

Lemma sha1_update_repr le ctx m d :
  sha1_repr ctx m -> bytes d -> Z.of_nat (length d) < 2 ^ 29 ->
  sha1_repr (sha1_update le ctx d) (m ++ d).
Proof.
  intros (Ha & Hb & Hby & H0 & H1) Hd Hlen. unfold sha1_update.
  destruct (count_spec (Z.of_nat (length m)) (Z.of_nat (length d))) as [E0 E1]; [lia..|].
  rewrite H0, H1, E1, E0, count_used, Nat2Z.id by lia. clear E0 E1.
  set (u := (length m mod 64)%nat) in *.
  assert (Hu : (u < 64)%nat) by (apply Nat.mod_upper_bound; lia).
  assert (Habs : absorb fips_sha1_compress 64 sha1_iv (m ++ d) =
    absorb fips_sha1_compress 64 (sha1_h ctx) (firstn u (sha1_buffer ctx) ++ d))
    by (rewrite absorb_app, Ha by lia; reflexivity).
  assert (Hmod : (length (m ++ d) mod 64 = (u + length d) mod 64)%nat)
    by (rewrite length_app; symmetry; apply Nat.Div0.add_mod_idemp_l).
  assert (Hn : Z.of_nat (length (m ++ d)) = Z.of_nat (length m) + Z.of_nat (length d))
    by (rewrite length_app; lia).
  assert (Hft : length (firstn u (sha1_buffer ctx)) = u) by (apply firstn_length_le; lia).
  unfold sha1_repr. rewrite Habs, Hmod, Hn. clear Habs Hn Ha.
  cbn [sha1_h count0 count1 sha1_buffer].
  destruct (Nat.ltb_spec 63 (u + length d)) as [Hlt|Hlt].
  - set (buf := memcpy (sha1_buffer ctx) u (firstn (64 - u) d)).
    assert (Hfd : length (firstn (64 - u) d) = (64 - u)%nat) by (apply firstn_length_le; lia).
    assert (Hbuf : buf = firstn u (sha1_buffer ctx) ++ firstn (64 - u) d).
    { rewrite <- (firstn_all2 buf (n := 64)) by (unfold buf; rewrite length_memcpy; lia).
      apply firstn_memcpy_end; lia. }
    assert (Hbb : bytes buf) by (unfold buf; auto with words).
    assert (Hlb : length buf = 64%nat) by (rewrite Hbuf, length_app; lia).
    match goal with |- context [sha1_update_loop _ _ ?c _ _] =>
      pose proof (sha1_update_loop_spec le (length d) c d (64 - u) Hd ltac:(lia) ltac:(lia)) as L;
      destruct (sha1_update_loop _ _ c _ _) as [ctx' i'] end.
    destruct L as (La & L0 & L1 & Lb & Li).
    cbn [sha1_h sha1_transform count0 count1 sha1_buffer] in La, L0, L1, Lb |- *.
    rewrite (firstn_all2 buf), sha1_block_fips, Hbuf in La by (auto; lia).
    rewrite (absorb_topup fips_sha1_compress 64 ltac:(lia) _ _ d u), La by (auto; lia).
    assert (Hr : length (skipn i' d) = ((u + length d) mod 64)%nat).
    { pose proof (absorb_rest fips_sha1_compress 64 ltac:(lia)
        (fips_sha1_compress (sha1_h ctx) (firstn u (sha1_buffer ctx) ++ firstn (64 - u) d))
        (skipn (64 - u) d)) as Hr. rewrite La in Hr. cbn [snd] in Hr.
      rewrite Hr, length_skipn. replace (u + length d)%nat with (length d - (64 - u) + 1 * 64)%nat by lia.
      symmetry. apply Nat.Div0.mod_add. }
    pose proof (Nat.mod_upper_bound (u + length d) 64 ltac:(lia)).
    rewrite Lb. split_and; auto with words.
    + f_equal. unfold memcpy. cbn [firstn app]. now rewrite firstn_app_l.
    + rewrite length_memcpy; lia.
  - rewrite Nat.mod_small, absorb_small by (rewrite ?length_app; lia). cbn [skipn sha1_h sha1_buffer].
    split_and; auto with words; [|rewrite length_memcpy; lia].
    f_equal. rewrite firstn_memcpy_end; auto. lia.
Qed.

Lemma count_test n :
  0 <= n -> (Z.land ((8 * n) mod 2 ^ 32) 504 =? 448) = (Z.to_nat n mod 64 =? 56)%nat.
Proof.
  intros Hn. rewrite <- count_used by auto. set (c := (8 * n) mod 2 ^ 32).
  assert (E : Z.land c 504 = Z.shiftl (Z.land (Z.shiftr c 3) 63) 3).
  { change 504 with (Z.shiftl 63 3). apply Z.bits_inj'. intros i Hi.
    rewrite Z.land_spec. destruct (Z.lt_ge_cases i 3).
    - rewrite !Z.shiftl_spec_low by lia. apply andb_false_r.
    - rewrite !Z.shiftl_spec_high, Z.land_spec, Z.shiftr_spec by lia.
      now replace (i - 3 + 3) with i by lia. }
  rewrite E, Z.shiftl_mul_pow2 by lia. change (2 ^ 3) with 8.
  set (x := Z.land _ 63). assert (0 <= x) by (apply Z.land_nonneg; lia).
  destruct (Z.eqb_spec (x * 8) 448), (Nat.eqb_spec (Z.to_nat x) 56); try reflexivity; lia.
Qed.

(** The zero bytes bring the count to 56 modulo 64. *)
Definition zeros_left (n : nat) : nat := (120 - n mod 64) mod 64.

Lemma zeros_left_S n : (n mod 64 <> 56)%nat -> zeros_left n = S (zeros_left (S n)).
Proof.
  intros Hn. unfold zeros_left.
  assert (Hm : (S n mod 64 = (n mod 64 + 1) mod 64)%nat)
    by (rewrite Nat.Div0.add_mod_idemp_l; f_equal; lia).
  rewrite Hm. pose proof (Nat.mod_upper_bound n 64 ltac:(lia)). set (u := (n mod 64)%nat) in *.
  assert (C : (u < 56 \/ 56 < u < 63 \/ u = 63)%nat) by lia. destruct C as [C|[C|C]].
  - rewrite (Nat.mod_small (u + 1)) by lia.
    replace (120 - u)%nat with (56 - u + 1 * 64)%nat by lia.
    replace (120 - (u + 1))%nat with (55 - u + 1 * 64)%nat by lia.
    rewrite !Nat.Div0.mod_add, !Nat.mod_small; lia.
  - rewrite (Nat.mod_small (u + 1)), !Nat.mod_small; lia.
  - now rewrite C.
Qed.

Lemma sha1_final_loop_repr le fuel ctx m :
  sha1_repr ctx m -> (zeros_left (length m) < fuel)%nat ->
  sha1_repr (sha1_final_loop fuel le ctx) (m ++ memset 0 (zeros_left (length m))).
Proof.
  revert ctx m. induction fuel as [|fuel IH]; intros ctx m Hr Hf; [lia|]. cbn [sha1_final_loop].
  pose proof Hr as (_ & _ & _ & H0 & _). rewrite H0, count_test, Nat2Z.id by lia.
  destruct (Nat.eqb_spec (length m mod 64) 56) as [E|E].
  - assert (Z : zeros_left (length m) = 0%nat) by (unfold zeros_left; now rewrite E).
    rewrite Z. cbn [memset repeat]. now rewrite app_nil_r.
  - pose proof (sha1_update_repr le ctx m [0] Hr) as Hn.
    assert (Hl : length (m ++ [0]) = S (length m)) by (rewrite length_app; simpl; lia).
    assert (Z : zeros_left (length m) = S (zeros_left (S (length m)))) by now apply zeros_left_S.
    rewrite Z in *. cbn [memset repeat].
    replace (m ++ 0 :: repeat 0 (zeros_left (S (length m))))
      with ((m ++ [0]) ++ memset 0 (zeros_left (length (m ++ [0]))))
      by (rewrite Hl, <- app_assoc; reflexivity).
    apply IH; [apply Hn; [repeat constructor; unfold is_byte; lia|simpl; lia]|rewrite Hl; lia].
Qed.

Lemma finalcount_be v :
  map (word_byte [(v / 2 ^ 32) mod 2 ^ 32; v mod 2 ^ 32]) (seq 0 8) = be_bytes 8 v.
Proof.
  rewrite (be_bytes_app 4 4), <- (be_bytes_mod 4 v), <- (be_bytes_mod 4 (Z.shiftr _ _)).
  rewrite Z.shiftr_div_pow2 by lia. rewrite <- !UNPACK32_be. reflexivity.
Qed.

Lemma digest_be w : length w = 5%nat -> map (word_byte w) (seq 0 20) = flat_map UNPACK32 w.
Proof.
  intros Hl. do 6 (destruct w as [|? w]; try discriminate Hl). reflexivity.
Qed.

Lemma zeros_left_padding n : zeros_left (S n) = ((2 * 64 - 1 - 8 - n mod 64) mod 64)%nat.
Proof.
  unfold zeros_left.
  assert (Hm : (S n mod 64 = (n mod 64 + 1) mod 64)%nat)
    by (rewrite Nat.Div0.add_mod_idemp_l; f_equal; lia).
  rewrite Hm. pose proof (Nat.mod_upper_bound n 64 ltac:(lia)). set (u := (n mod 64)%nat) in *.
  destruct (Nat.eq_dec u 63) as [->|]; [reflexivity|].
  rewrite (Nat.mod_small (u + 1)) by lia. f_equal. lia.
Qed.

Lemma length_md_sha1 m : length (md_state fips_sha1_compress sha1_iv 64 8 m) = 5%nat.
Proof.
  unfold md_state. generalize (blocks 64 (m ++ md_padding 64 8 (length m))). intros l.
  assert (G : forall h, length h = 5%nat -> length (fold_left fips_sha1_compress l h) = 5%nat).
  { induction l as [|b l IH]; intros h Hh; [exact Hh|]. rewrite fold_left_cons. apply IH.
    apply length_fips_sha1_compress. }
  now apply G.
Qed.

Lemma sha1_final_repr le ctx m :
  sha1_repr ctx m ->
  snd (sha1_final le ctx) = fips_sha1 m /\
  sha1_h (fst (sha1_final le ctx)) = md_state fips_sha1_compress sha1_iv 64 8 m.
Proof.
  intros Hr. pose proof Hr as (_ & _ & _ & H0 & H1). unfold sha1_final. cbn [fst snd sha1_h].
  rewrite H0, H1, finalcount_be.
  assert (Ha : sha1_repr (sha1_update le ctx [0x80]) (m ++ [0x80]))
    by (apply sha1_update_repr; [exact Hr|repeat constructor; unfold is_byte; lia|simpl; lia]).
  apply (sha1_final_loop_repr le 64) in Ha.
  2: { apply Nat.mod_upper_bound. lia. }
  apply (sha1_update_repr le _ _ (be_bytes 8 (8 * Z.of_nat (length m)))) in Ha;
    [|apply bytes_be_bytes|rewrite length_be_bytes; lia].
  assert (Hm : ((m ++ [0x80]) ++ memset 0 (zeros_left (length (m ++ [0x80])))) ++
    be_bytes 8 (8 * Z.of_nat (length m)) = m ++ md_padding 64 8 (length m)).
  { unfold md_padding. rewrite <- zeros_left_padding, length_app, Nat.add_comm, <- !app_assoc.
    reflexivity. }
  rewrite Hm in Ha. destruct Ha as (Ha & _). destruct (md_padding_length 64 8 m) as [k Hk]; [lia|].
  rewrite (absorb_full _ 64 ltac:(lia) _ _ k Hk) in Ha. apply (f_equal fst) in Ha.
  cbn [fst] in Ha. rewrite <- Ha. unfold fips_sha1, md_state.
  split; [|reflexivity]. apply digest_be, (length_md_sha1 m).
Qed.

Lemma sha1_updates_repr le chunks ctx m :
  sha1_repr ctx m -> Forall bytes chunks ->
  Forall (fun d => Z.of_nat (length d) < 2 ^ 29) chunks ->
  sha1_repr (fold_left (sha1_update le) chunks ctx) (m ++ concat chunks).
Proof.
  intros Hr Hb. revert ctx m Hr. induction Hb as [|d ds Hd Hds IH]; intros ctx m Hr Hl;
    cbn [fold_left concat].
  - now rewrite app_nil_r.
  - inversion Hl; subst. rewrite app_assoc. apply IH; auto. now apply sha1_update_repr.
Qed.

(** SHA-1 over any sequence of updates, each below [2^29] bytes, is the FIPS 180
    digest of the concatenated input, on hosts of either byte order and
    whatever the buffer held before [sha1_init]. *)
Theorem sha1_streaming (le : bool) (ctx : sha1_ctx) (chunks : list (list Z)) :
  length (sha1_buffer ctx) = 64%nat -> bytes (sha1_buffer ctx) -> Forall bytes chunks ->
  Forall (fun d => Z.of_nat (length d) < 2 ^ 29) chunks ->
  snd (sha1_final le (fold_left (sha1_update le) chunks (sha1_init ctx))) =
  fips_sha1 (concat chunks).
Proof.
  intros Hl Hb Hc Hlen. apply sha1_final_repr, (sha1_updates_repr le chunks _ []); auto.
  now apply sha1_init_repr.
Qed.

Lemma sha1_streaming_witness :
  snd (sha1_final true (fold_left (sha1_update true) [[97]; [98; 99]]
         (sha1_init (mk_sha1 [] 3 3 (memset 7 64))))) = fips_sha1 [97; 98; 99].
Proof.
  apply (sha1_streaming true (mk_sha1 [] 3 3 (memset 7 64)) [[97]; [98; 99]]); [reflexivity|..].
  - apply bytes_memset. unfold is_byte. lia.
  - repeat constructor; unfold is_byte; lia.
  - repeat constructor; simpl; lia.
Defined.
