(* ===== verification/Pbkdf2.v ===== *)
(** * HMAC and PBKDF2

    Model of fastpbkdf2.c.  The source writes HMAC and PBKDF2 once, as the
    macro [DECL_PBKDF2] over the operations of a hash function, and expands it
    for SHA-1, SHA-256 and SHA-512.  Here the macro arguments are the class
    [Hash]; what the macro relies on is the class [HashLaws], proved for the
    three hash functions at the end.  The theorems about HMAC and PBKDF2 are
    proved against the interface: HMAC is RFC 2104, and the fast key
    derivation, which restarts from copied chaining values and runs the
    compression function on a pre-padded block, is PBKDF2 of RFC 8018. *)

From Stdlib Require Import ZArith Lia List Bool.
From S2P Require Import Prelude ChaCha20 Streaming Sha2 Sha1.
Import ListNotations.
Local Open Scope Z_scope.

Definition write32_be (n : Z) : list Z :=
  [Z.land (Z.shiftr n 24) 0xFF; Z.land (Z.shiftr n 16) 0xFF;
   Z.land (Z.shiftr n 8) 0xFF; Z.land (Z.shiftr n 0) 0xFF].

Definition write64_be (n : Z) : list Z :=
  [Z.land (Z.shiftr n 56) 0xFF; Z.land (Z.shiftr n 48) 0xFF;
   Z.land (Z.shiftr n 40) 0xFF; Z.land (Z.shiftr n 32) 0xFF;
   Z.land (Z.shiftr n 24) 0xFF; Z.land (Z.shiftr n 16) 0xFF;
   Z.land (Z.shiftr n 8) 0xFF; Z.land (Z.shiftr n 0) 0xFF].

(** [md_pad]: the padding block for a message of [msg] bytes, after a prefix of [used]. *)
Definition md_pad (block : list Z) (blocksz used msg : nat) : list Z :=
  let block := memcpy block used (memset 0 (blocksz - used - 4)) in
  let block := block.[used <- 0x80] in
  memcpy block (blocksz - 4) (write32_be (u32 (Z.of_nat msg * 8))).

(** The arguments of the macro. *)
Class Hash (ctx : Type) := {
  blocksz : nat;
  hashsz : nat;
  h_init : ctx -> ctx;
  h_update : ctx -> list Z -> ctx;
  h_xform : ctx -> list Z -> ctx;
  h_final : ctx -> ctx * list Z;
  h_xcpy : ctx -> ctx -> ctx;
  h_xtract : ctx -> list Z;
  h_xxor : ctx -> ctx -> ctx }.

Record HMAC_CTX (ctx : Type) := mk_hmac { inner : ctx; outer : ctx }.
Arguments mk_hmac {ctx}.
Arguments inner {ctx}.
Arguments outer {ctx}.

Section Hmac.
Context {ctx : Type} `{Hash ctx}.

Definition HMAC_INIT (c : HMAC_CTX ctx) (key : list Z) : HMAC_CTX ctx :=
  let '(inner0, key) :=
    if (blocksz <? length key)%nat then h_final (h_update (h_init (inner c)) key)
    else (inner c, key) in
  let k := key ++ memset 0 (blocksz - length key) in
  let blk_inner := map (Z.lxor 0x36) k in
  let blk_outer := map (Z.lxor 0x5c) k in
  mk_hmac (h_update (h_init inner0) blk_inner) (h_update (h_init (outer c)) blk_outer).

Definition HMAC_UPDATE (c : HMAC_CTX ctx) (data : list Z) : HMAC_CTX ctx :=
  mk_hmac (h_update (inner c) data) (outer c).

Definition HMAC_FINAL (c : HMAC_CTX ctx) : HMAC_CTX ctx * list Z :=
  let '(i, out) := h_final (inner c) in
  let '(o, out) := h_final (h_update (outer c) out) in
  (mk_hmac i o, out).

(** One turn of the loop of [PBKDF2_F]: the contexts, the block and the result. *)
Definition PBKDF2_turn (startctx : HMAC_CTX ctx) (s : HMAC_CTX ctx * list Z * ctx)
    : HMAC_CTX ctx * list Z * ctx :=
  let '(c, Ublock, result) := s in
  let i := h_xform (h_xcpy (inner c) (inner startctx)) Ublock in
  let Ublock := memcpy Ublock 0 (h_xtract i) in
  let o := h_xform (h_xcpy (outer c) (outer startctx)) Ublock in
  let Ublock := memcpy Ublock 0 (h_xtract o) in
  (mk_hmac i o, Ublock, h_xxor result o).

(** [stack] is the uninitialised array [Ublock]. *)
Definition PBKDF2_F (stack : list Z) (startctx : HMAC_CTX ctx) (counter : Z) (salt : list Z)
    (iterations : nat) : list Z :=
  let countbuf := write32_be counter in
  let Ublock := md_pad stack blocksz hashsz (blocksz + hashsz) in
  let c := HMAC_UPDATE (HMAC_UPDATE startctx salt) countbuf in
  let '(c, out) := HMAC_FINAL c in
  let Ublock := memcpy Ublock 0 out in
  let result := outer c in
  let '(_, _, result) := Nat.iter (iterations - 1) (PBKDF2_turn startctx) (c, Ublock, result) in
  h_xtract result.

Definition PBKDF2 (c : HMAC_CTX ctx) (stack : list Z) (pw salt : list Z) (iterations : nat)
    (out : list Z) : list Z :=
  let nout := length out in
  let c := HMAC_INIT c pw in
  let blocks_needed := (Z.to_nat (u32 (Z.of_nat (nout + hashsz - 1))) / hashsz)%nat in
  fold_left (fun out counter =>
    let block := PBKDF2_F stack c (Z.of_nat counter) salt iterations in
    let offset := ((counter - 1) * hashsz)%nat in
    let taken := Nat.min (nout - offset) hashsz in
    memcpy out offset (firstn taken block)) (seq 1 blocks_needed) out.

End Hmac.

(** ** The expansions *)

Definition sha1_extract (c : sha1_ctx) : list Z :=
  flat_map (fun i => write32_be (sha1_h c).[i]) (seq 0 5).
Definition sha1_cpy (out c : sha1_ctx) : sha1_ctx :=
  mk_sha1 (map (fun i => (sha1_h c).[i]) (seq 0 5)) (count0 out) (count1 out) (sha1_buffer out).
Definition sha1_xor (out c : sha1_ctx) : sha1_ctx :=
  mk_sha1 (map (fun i => Z.lxor (sha1_h out).[i] (sha1_h c).[i]) (seq 0 5))
    (count0 out) (count1 out) (sha1_buffer out).

Definition sha256_extract (c : sha2_ctx) : list Z :=
  flat_map (fun i => write32_be (ctx_h c).[i]) (seq 0 8).
Definition sha256_cpy (out c : sha2_ctx) : sha2_ctx :=
  mk_sha2 (tot_len out) (ctx_len out) (ctx_block out) (map (fun i => (ctx_h c).[i]) (seq 0 8)).
Definition sha256_xor (out c : sha2_ctx) : sha2_ctx :=
  mk_sha2 (tot_len out) (ctx_len out) (ctx_block out)
    (map (fun i => Z.lxor (ctx_h out).[i] (ctx_h c).[i]) (seq 0 8)).

Definition sha512_extract (c : sha2_ctx) : list Z :=
  flat_map (fun i => write64_be (ctx_h c).[i]) (seq 0 8).
Definition sha512_cpy (out c : sha2_ctx) : sha2_ctx :=
  mk_sha2 (tot_len out) (ctx_len out) (ctx_block out) (map (fun i => (ctx_h c).[i]) (seq 0 8)).
Definition sha512_xor (out c : sha2_ctx) : sha2_ctx :=
  mk_sha2 (tot_len out) (ctx_len out) (ctx_block out)
    (map (fun i => Z.lxor (ctx_h out).[i] (ctx_h c).[i]) (seq 0 8)).

Definition Hash_sha1 (le : bool) : Hash sha1_ctx := {|
  blocksz := 64; hashsz := 20; h_init := sha1_init; h_update := sha1_update le;
  h_xform := sha1_transform le; h_final := sha1_final le;
  h_xcpy := sha1_cpy; h_xtract := sha1_extract; h_xxor := sha1_xor |}.

Definition Hash_sha256 : Hash sha2_ctx := {|
  blocksz := 64; hashsz := 32; h_init := sha256_init; h_update := sha256_update;
  h_xform := sha256_transform; h_final := sha256_final;
  h_xcpy := sha256_cpy; h_xtract := sha256_extract; h_xxor := sha256_xor |}.

Definition Hash_sha512 : Hash sha2_ctx := {|
  blocksz := 128; hashsz := 64; h_init := sha512_init; h_update := sha512_update;
  h_xform := sha512_transform; h_final := sha512_final;
  h_xcpy := sha512_cpy; h_xtract := sha512_extract; h_xxor := sha512_xor |}.

Definition fastpbkdf2_hmac_sha1 (le : bool) := @PBKDF2 sha1_ctx (Hash_sha1 le).
Definition fastpbkdf2_hmac_sha256 := @PBKDF2 sha2_ctx Hash_sha256.
Definition fastpbkdf2_hmac_sha512 := @PBKDF2 sha2_ctx Hash_sha512.

(** [sqlcipher_hmac]: algorithm 0, 1, or 2 and any other; [in2] may be NULL. *)
Definition hmac_run {ctx} (h : Hash ctx) (c : HMAC_CTX ctx) (key inp : list Z)
    (in2 : option (list Z)) : list Z :=
  let c := HMAC_INIT c key in
  let c := HMAC_UPDATE c inp in
  let c := match in2 with Some d => HMAC_UPDATE c d | None => c end in
  snd (HMAC_FINAL c).

Definition sqlcipher_hmac (le : bool) (algorithm : Z) (c1 : HMAC_CTX sha1_ctx)
    (c2 : HMAC_CTX sha2_ctx) (key inp : list Z) (in2 : option (list Z)) : list Z :=
  if algorithm =? 0 then hmac_run (Hash_sha1 le) c1 key inp in2
  else if algorithm =? 1 then hmac_run Hash_sha256 c2 key inp in2
  else hmac_run Hash_sha512 c2 key inp in2.

(** PBKDF2-HMAC-SHA256 of "password" and "salt" with two iterations. *)
Example pbkdf2_sha256_vector :
  let c := mk_sha2 0 0 (memset 0 128) [] in
  firstn 8 (fastpbkdf2_hmac_sha256 (mk_hmac c c) (memset 0 64)
    [112; 97; 115; 115; 119; 111; 114; 100] [115; 97; 108; 116] 2 (memset 0 32)) =
  [0xae; 0x4d; 0x0c; 0x95; 0xaf; 0x6b; 0x46; 0xd3].
Proof. vm_compute. reflexivity. Qed.

(** ** What the macro relies on *)

(** The abstract hash function behind the operations. *)
Record HashSpec := {
  s_compress : list Z -> list Z -> list Z;
  s_iv : list Z;
  s_lb : nat;                       (* bytes of the length field *)
  s_words : nat;                    (* words of the chaining value *)
  s_unpack : Z -> list Z }.

Definition spec_out (S : HashSpec) (h : list Z) : list Z := flat_map (s_unpack S) h.
Definition spec_state (S : HashSpec) (bs : nat) (m : list Z) : list Z :=
  md_state (s_compress S) (s_iv S) bs (s_lb S) m.
Definition spec_hash (S : HashSpec) (bs : nat) (m : list Z) : list Z :=
  spec_out S (spec_state S bs m).

Class HashLaws (ctx : Type) (HC : Hash ctx) (S : HashSpec) := {
  h_wf : ctx -> Prop;               (* arrays of the declared sizes *)
  h_repr : ctx -> list Z -> Prop;   (* the input absorbed so far *)
  h_val : ctx -> list Z;            (* the chaining value *)
  l_lb : (4 <= s_lb S)%nat;
  l_fit : (hashsz + s_lb S < blocksz)%nat;
  l_small : (blocksz <= 128)%nat;
  l_pos : (0 < hashsz)%nat;
  l_unpack : forall w, length (s_unpack S w) = (hashsz / s_words S)%nat /\ bytes (s_unpack S w);
  l_words : (s_words S * (hashsz / s_words S) = hashsz)%nat;
  l_unpack_xor : forall a b, s_unpack S (Z.lxor a b) = xor_list (s_unpack S a) (s_unpack S b);
  l_compress : forall h b, length (s_compress S h b) = s_words S;
  l_iv : length (s_iv S) = s_words S;
  l_init : forall c, h_wf c -> h_repr (h_init c) [];
  l_wf : forall c m, h_repr c m -> h_wf c;
  l_update : forall c m d, h_repr c m -> bytes d -> Z.of_nat (length (m ++ d)) < 2 ^ 29 ->
    h_repr (h_update c d) (m ++ d);
  l_final : forall c m, h_repr c m ->
    snd (h_final c) = spec_hash S blocksz m /\
    h_val (fst (h_final c)) = spec_state S blocksz m /\ h_wf (fst (h_final c));
  l_one_block : forall c m, h_repr c m -> length m = blocksz ->
    h_val c = s_compress S (s_iv S) m;
  l_xform : forall c b, bytes b -> length b = blocksz ->
    h_val (h_xform c b) = s_compress S (h_val c) b;
  l_xcpy : forall c d, length (h_val d) = s_words S -> h_val (h_xcpy c d) = h_val d;
  l_xtract : forall c, length (h_val c) = s_words S -> h_xtract c = spec_out S (h_val c);
  l_xxor : forall c d, length (h_val c) = s_words S -> length (h_val d) = s_words S ->
    h_val (h_xxor c d) = xor_list (h_val c) (h_val d) }.

(** ** RFC 2104 and RFC 8018 *)

Section Spec.
Context (S : HashSpec) (bs hs : nat).

Definition hmac_key (key : list Z) : list Z :=
  let key := if (bs <? length key)%nat then spec_hash S bs key else key in
  key ++ memset 0 (bs - length key).

Definition hmac (key msg : list Z) : list Z :=
  spec_hash S bs (map (Z.lxor 0x5c) (hmac_key key) ++
    spec_hash S bs (map (Z.lxor 0x36) (hmac_key key) ++ msg)).

(** [U_1 .. U_c] and their exclusive or. *)
Fixpoint pbkdf2_U (pw salt : list Z) (i : Z) (c : nat) : list Z :=
  match c with
  | O => hmac pw (salt ++ be_bytes 4 i)
  | Datatypes.S c => hmac pw (pbkdf2_U pw salt i c)
  end.

Fixpoint pbkdf2_T (pw salt : list Z) (i : Z) (c : nat) : list Z :=
  match c with
  | O => pbkdf2_U pw salt i 0
  | Datatypes.S c => xor_list (pbkdf2_T pw salt i c) (pbkdf2_U pw salt i (Datatypes.S c))
  end.

(** [T_1 || T_2 || ..] cut to [dklen] bytes, for [c >= 1] iterations. *)
Definition rfc_pbkdf2 (pw salt : list Z) (c dklen : nat) : list Z :=
  firstn dklen (flat_map (fun i => pbkdf2_T pw salt (Z.of_nat i) (c - 1))
    (seq 1 ((dklen + hs - 1) / hs))).

End Spec.

(** ** HMAC *)

Section Hmac_proofs.
Context {ctx : Type} {HC : Hash ctx} {S : HashSpec} {L : HashLaws ctx HC S}.

Lemma length_spec_out h : length h = s_words S -> length (spec_out S h) = hashsz.
Proof.
  intros Hh. pose proof l_words as Hw. pose proof (fun w => proj1 (l_unpack w)) as Hu.
  rewrite <- Hw. set (q := (hashsz / s_words S)%nat) in *. rewrite <- Hh. unfold spec_out. clear Hh Hw.
  induction h as [|w h IH]; [reflexivity|]. cbn [flat_map length].
  rewrite length_app, IH, Hu. reflexivity.
Qed.

Lemma bytes_spec_out h : bytes (spec_out S h).
Proof. apply Forall_flat_map, Forall_forall. intros w _. apply l_unpack. Qed.

Lemma spec_out_xor a b :
  length a = length b -> spec_out S (xor_list a b) = xor_list (spec_out S a) (spec_out S b).
Proof.
  revert b. induction a as [|x a IH]; intros [|y b] Hl; try discriminate; [reflexivity|].
  cbn [xor_list spec_out flat_map]. injection Hl as Hl. unfold spec_out in IH. rewrite IH by auto.
  rewrite l_unpack_xor, xor_list_app; auto.
  now rewrite (proj1 (l_unpack x)), (proj1 (l_unpack y)).
Qed.

Lemma length_spec_state m : length (spec_state S blocksz m) = s_words S.
Proof.
  unfold spec_state, md_state. generalize (blocks blocksz (m ++ md_padding blocksz (s_lb S) (length m))).
  intros l. assert (G : forall h, length h = s_words S -> length (fold_left (s_compress S) l h) = s_words S).
  { induction l as [|b l IH]; intros h Hh; [exact Hh|]. rewrite fold_left_cons. apply IH, l_compress. }
  apply G, l_iv.
Qed.

Lemma length_spec_hash m : length (spec_hash S blocksz m) = hashsz.
Proof. apply length_spec_out, length_spec_state. Qed.

Lemma bytes_spec_hash m : bytes (spec_hash S blocksz m).
Proof. apply bytes_spec_out. Qed.

Lemma length_hmac_key key : length (hmac_key S blocksz key) = blocksz.
Proof.
  unfold hmac_key. pose proof l_fit. rewrite length_app, length_memset.
  destruct (Nat.ltb_spec blocksz (length key)); [rewrite length_spec_hash|]; lia.
Qed.

Lemma bytes_hmac_key key : bytes key -> bytes (hmac_key S blocksz key).
Proof.
  intros Hk. unfold hmac_key. apply bytes_app. split; [|apply bytes_memset; unfold is_byte; lia].
  destruct (Nat.ltb_spec blocksz (length key)); auto using bytes_spec_hash.
Qed.

Lemma bytes_map_lxor k l : is_byte k -> bytes l -> bytes (map (Z.lxor k) l).
Proof. intros Hk Hl. apply Forall_map. eapply Forall_impl; [|exact Hl]. auto with words. Qed.

Definition ipad (key : list Z) : list Z := map (Z.lxor 0x36) (hmac_key S blocksz key).
Definition opad (key : list Z) : list Z := map (Z.lxor 0x5c) (hmac_key S blocksz key).

Lemma pads_ok key :
  bytes key -> bytes (ipad key) /\ length (ipad key) = blocksz /\
               bytes (opad key) /\ length (opad key) = blocksz.
Proof.
  intros Hk. unfold ipad, opad. rewrite !length_map, !length_hmac_key.
  split_and; auto; apply bytes_map_lxor; auto using bytes_hmac_key; unfold is_byte; lia.
Qed.

Definition h_wf2 (c : HMAC_CTX ctx) : Prop := h_wf (inner c) /\ h_wf (outer c).

Lemma HMAC_INIT_repr c key :
  h_wf2 c -> bytes key -> Z.of_nat (length key) < 2 ^ 29 ->
  h_repr (inner (HMAC_INIT c key)) (ipad key) /\ h_repr (outer (HMAC_INIT c key)) (opad key).
Proof.
  intros [Hi Ho] Hk Hl. pose proof (pads_ok key Hk) as (Bi & Li & Bo & Lo).
  pose proof l_fit. pose proof l_small. unfold HMAC_INIT.
  assert (G : forall c0 m, h_wf c0 -> bytes m -> length m = blocksz -> h_repr (h_update (h_init c0) m) m).
  { intros c0 m Hw Bm Lm. apply (l_update (h_init c0) [] m); [apply l_init, Hw|auto|simpl; lia]. }
  unfold ipad, opad, hmac_key in *. destruct (Nat.ltb_spec blocksz (length key)) as [Hlt|Hlt].
  - assert (Hr : h_repr (h_update (h_init (inner c)) key) key)
      by (apply (l_update (h_init (inner c)) [] key); [apply l_init, Hi|auto|simpl; lia]).
    destruct (l_final _ _ Hr) as (E1 & _ & E3).
    destruct (h_final _) as [c' k]. cbn [fst snd] in *. subst k. cbn [inner outer]. auto.
  - cbn [inner outer]. auto.
Qed.

Lemma HMAC_FINAL_spec c key msg :
  h_repr (inner c) (ipad key ++ msg) -> h_repr (outer c) (opad key) -> bytes key ->
  snd (HMAC_FINAL c) = hmac S blocksz key msg /\
  spec_out S (h_val (outer (fst (HMAC_FINAL c)))) = hmac S blocksz key msg /\
  length (h_val (outer (fst (HMAC_FINAL c)))) = s_words S.
Proof.
  intros Hi Ho Hk. unfold HMAC_FINAL. destruct (l_final _ _ Hi) as (E1 & _).
  destruct (h_final (inner c)) as [i out]. cbn [snd] in E1. subst out.
  pose proof (pads_ok key Hk) as (_ & _ & _ & Lo). pose proof l_fit. pose proof l_small.
  apply (l_update _ _ (spec_hash S blocksz (ipad key ++ msg))) in Ho;
    [|apply bytes_spec_hash|rewrite length_app, length_spec_hash; lia].
  destruct (l_final _ _ Ho) as (E1 & E2 & _). destruct (h_final (h_update _ _)) as [o out].
  cbn [fst snd outer] in *. subst out. rewrite E2, length_spec_state. auto.
Qed.

(** ** PBKDF2 *)

Lemma write32_be_bytes v : write32_be v = be_bytes 4 v.
Proof. apply UNPACK32_be. Qed.

(** The padding of a second block of [hashsz] bytes after a first whole block. *)
Definition tail_pad : list Z := md_padding blocksz (s_lb S) (blocksz + hashsz).

Lemma tail_pad_layout :
  tail_pad = [0x80] ++ memset 0 (blocksz - hashsz - 5) ++ be_bytes 4 (8 * Z.of_nat (blocksz + hashsz)).
Proof.
  pose proof l_fit. pose proof l_small. pose proof l_lb. pose proof l_pos. unfold tail_pad, md_padding.
  assert (Hm : ((blocksz + hashsz) mod blocksz = hashsz)%nat).
  { replace (blocksz + hashsz)%nat with (hashsz + 1 * blocksz)%nat by lia.
    rewrite Nat.Div0.mod_add, Nat.mod_small; lia. }
  rewrite Hm.
  replace (s_lb S) with (s_lb S - 4 + 4)%nat at 2 by lia. rewrite be_bytes_small by (change (256 ^ Z.of_nat 4) with (2 ^ 32); lia).
  rewrite (app_assoc (memset 0 _)), <- memset_app. do 3 f_equal.
  destruct (md_zeros blocksz (s_lb S) hashsz) as [[-> ?]|[-> ?]]; lia.
Qed.

Lemma length_tail_pad : length tail_pad = (blocksz - hashsz)%nat.
Proof.
  pose proof l_fit. pose proof l_lb. rewrite tail_pad_layout, !length_app, length_memset.
  rewrite length_be_bytes. cbn [length]. lia.
Qed.

Lemma bytes_tail_pad : bytes tail_pad.
Proof.
  rewrite tail_pad_layout, !bytes_app. split_and; auto using bytes_be_bytes.
  - repeat constructor; unfold is_byte; lia.
  - apply bytes_memset. unfold is_byte. lia.
Qed.

Lemma md_pad_spec stack :
  length stack = blocksz ->
  md_pad stack blocksz hashsz (blocksz + hashsz) = firstn hashsz stack ++ tail_pad.
Proof.
  intros Hl. pose proof l_fit. pose proof l_lb. pose proof l_small. rewrite tail_pad_layout.
  unfold md_pad. set (z := (blocksz - hashsz - 5)%nat).
  assert (Hf : length (firstn hashsz stack) = hashsz) by (apply firstn_length_le; lia).
  assert (E : (memcpy stack hashsz (memset 0 (blocksz - hashsz - 4))).[hashsz <- 0x80] =
    (firstn hashsz stack ++ [0x80] ++ memset 0 z) ++ skipn (blocksz - 4) stack).
  { rewrite upd_split by (rewrite length_memcpy; rewrite ?length_memset; lia).
    unfold memcpy. rewrite length_memset.
    replace (hashsz + (blocksz - hashsz - 4))%nat with (blocksz - 4)%nat by lia.
    replace (blocksz - hashsz - 4)%nat with (1 + z)%nat by lia. rewrite memset_app.
    rewrite firstn_app_l, <- !app_assoc by auto. do 2 f_equal.
    replace (Datatypes.S hashsz) with (hashsz + 1)%nat by lia. now rewrite skipn_app_plus by auto. }
  rewrite E, memcpy_app_end, write32_be_bytes.
  - rewrite u32_small, Z.mul_comm, <- !app_assoc by (unfold is_u32; lia). reflexivity.
  - rewrite !length_app, length_memset. cbn [length]. lia.
  - rewrite length_skipn. cbn [length write32_be]. lia.
Qed.

(** Hashing one whole block and [hashsz] more bytes takes two compressions. *)
Lemma spec_state_two k u :
  length k = blocksz -> length u = hashsz ->
  spec_state S blocksz (k ++ u) = s_compress S (s_compress S (s_iv S) k) (u ++ tail_pad).
Proof.
  intros Hk Hu. pose proof l_fit. unfold spec_state, md_state.
  rewrite length_app, Hk, Hu. fold tail_pad. rewrite <- app_assoc.
  rewrite blocks_app_one by (auto; lia).
  pose proof (blocks_app_one blocksz (u ++ tail_pad) []) as E. rewrite app_nil_r, blocks_nil in E.
  rewrite E by (rewrite ?length_app, ?length_tail_pad; lia). reflexivity.
Qed.

Lemma memcpy_front (a b k : list Z) : length k = length a -> memcpy (a ++ b) 0 k = k ++ b.
Proof. intros Hk. apply (memcpy_app [] a b k 0); auto. Qed.

Section Loop.
Context (start : HMAC_CTX ctx) (pw : list Z).
Hypothesis (Hpw : bytes pw).
Hypothesis (Hin : h_repr (inner start) (ipad pw)).
Hypothesis (Hout : h_repr (outer start) (opad pw)).

Lemma hmac_turn c u result :
  length u = hashsz -> bytes u ->
  let '(c', U', result') := PBKDF2_turn start (c, u ++ tail_pad, result) in
  U' = hmac S blocksz pw u ++ tail_pad /\
  (length (h_val result) = s_words S ->
   length (h_val result') = s_words S /\
   spec_out S (h_val result') = xor_list (spec_out S (h_val result)) (hmac S blocksz pw u)).
Proof.
  intros Hu Bu. pose proof (pads_ok pw Hpw) as (_ & Li & _ & Lo). pose proof l_fit.
  assert (Vi : h_val (inner start) = s_compress S (s_iv S) (ipad pw)) by (apply l_one_block; auto).
  assert (Vo : h_val (outer start) = s_compress S (s_iv S) (opad pw)) by (apply l_one_block; auto).
  assert (X : forall c0 st k u0, h_val st = s_compress S (s_iv S) k -> length k = blocksz ->
    length u0 = hashsz -> bytes u0 ->
    h_val (h_xform (h_xcpy c0 st) (u0 ++ tail_pad)) = spec_state S blocksz (k ++ u0)).
  { intros c0 st k u0 Hv Lk Lu Bu0. rewrite l_xform, l_xcpy, Hv, spec_state_two;
      rewrite ?Hv, ?l_compress; auto; rewrite ?length_app, ?length_tail_pad; try lia.
    apply bytes_app. auto using bytes_tail_pad. }
  unfold PBKDF2_turn. set (i := h_xform _ (u ++ tail_pad)).
  assert (Ei : h_val i = spec_state S blocksz (ipad pw ++ u)) by (apply X; auto).
  rewrite (l_xtract i), Ei by (rewrite Ei; apply length_spec_state).
  fold (spec_hash S blocksz (ipad pw ++ u)). set (hi := spec_hash S blocksz _).
  assert (Lh : length hi = hashsz) by apply length_spec_hash.
  rewrite memcpy_front by lia. set (o := h_xform _ (hi ++ tail_pad)).
  assert (Eo : h_val o = spec_state S blocksz (opad pw ++ hi))
    by (apply X; auto; apply bytes_spec_hash).
  rewrite (l_xtract o), Eo by (rewrite Eo; apply length_spec_state).
  fold (spec_hash S blocksz (opad pw ++ hi)).
  rewrite memcpy_front by (rewrite length_spec_hash; lia). split; [reflexivity|].
  intros Hr. rewrite l_xxor, spec_out_xor, Eo by (rewrite ?Eo, ?length_spec_state; auto).
  rewrite length_xor_list, length_spec_state, Hr. split; [lia|reflexivity].
Qed.

(** The state of the loop after [j] turns. *)
Lemma turns_spec salt i c0 r0 j :
  spec_out S (h_val r0) = pbkdf2_U S blocksz pw salt i 0 -> length (h_val r0) = s_words S ->
  let '(c, U, result) :=
    Nat.iter j (PBKDF2_turn start) (c0, pbkdf2_U S blocksz pw salt i 0 ++ tail_pad, r0) in
  U = pbkdf2_U S blocksz pw salt i j ++ tail_pad /\ length (h_val result) = s_words S /\
  spec_out S (h_val result) = pbkdf2_T S blocksz pw salt i j.
Proof.
  intros Hr Hl. induction j as [|j IH]; [exact (conj eq_refl (conj Hl Hr))|].
  rewrite Nat.iter_succ.
  destruct (Nat.iter j _ _) as [[c U] result]. destruct IH as (-> & Hlr & E).
  assert (HU : length (pbkdf2_U S blocksz pw salt i j) = hashsz /\
               bytes (pbkdf2_U S blocksz pw salt i j))
    by (destruct j; split; apply length_spec_hash || apply bytes_spec_hash).
  destruct HU as [LU BU]. pose proof (hmac_turn c _ result LU BU) as T.
  destruct (PBKDF2_turn start _) as [[c' U'] result']. destruct T as [-> T].
  destruct (T Hlr) as [Hl' E']. cbn [pbkdf2_U pbkdf2_T]. rewrite E', E. auto.
Qed.

Lemma PBKDF2_F_spec stack counter salt iterations :
  length stack = blocksz -> bytes salt -> Z.of_nat (length salt) < 2 ^ 29 - 132 ->
  PBKDF2_F stack start counter salt iterations =
  pbkdf2_T S blocksz pw salt counter (iterations - 1).
Proof.
  intros Hs Bs Ls. pose proof (pads_ok pw Hpw) as (Bi & Li & _). pose proof l_small.
  unfold PBKDF2_F. rewrite md_pad_spec, write32_be_bytes by auto.
  assert (Hi : h_repr (inner (HMAC_UPDATE (HMAC_UPDATE start salt) (be_bytes 4 counter)))
                 (ipad pw ++ salt ++ be_bytes 4 counter)).
  { rewrite app_assoc. cbn [HMAC_UPDATE inner].
    apply l_update; [apply l_update| |]; auto using bytes_be_bytes;
      rewrite !length_app, ?length_be_bytes; lia. }
  destruct (HMAC_FINAL_spec _ pw _ Hi Hout Hpw) as (E1 & E2 & E3).
  destruct (HMAC_FINAL _) as [c out]. cbn [fst snd] in *. subst out.
  assert (Hf : length (firstn hashsz stack) = hashsz)
    by (apply firstn_length_le; pose proof l_fit; lia).
  rewrite memcpy_front by (rewrite Hf; apply length_spec_hash).
  pose proof (turns_spec salt counter c (outer c) (iterations - 1) E2 E3) as T.
  cbn [pbkdf2_U] in T. destruct (Nat.iter _ _ _) as [[c' U'] result].
  destruct T as (_ & Hl & E). now rewrite l_xtract, E.
Qed.

Lemma length_pbkdf2_T salt i c : length (pbkdf2_T S blocksz pw salt i c) = hashsz.
Proof.
  induction c as [|c IH]; cbn [pbkdf2_T]; [apply length_spec_hash|].
  rewrite length_xor_list, IH. cbn [pbkdf2_U].
  change (Nat.min hashsz (length (spec_hash S blocksz (opad pw ++ spec_hash S blocksz
    (ipad pw ++ pbkdf2_U S blocksz pw salt i c)))) = hashsz).
  rewrite length_spec_hash. lia.
Qed.

End Loop.

(** Copying fixed-size blocks one after the other fills the buffer. *)
Lemma fill_spec (T : nat -> list Z) (out : list Z) hs k :
  (forall i, length (T i) = hs) -> (0 < hs)%nat -> (k * hs < length out + hs)%nat ->
  fold_left (fun o i => memcpy o ((i - 1) * hs)
    (firstn (Nat.min (length out - (i - 1) * hs) hs) (T i))) (seq 1 k) out =
  firstn (length out) (flat_map T (seq 1 k)) ++ skipn (k * hs) out.
Proof.
  intros HT Hh. induction k as [|k IH]; intros Hk; [cbn; now rewrite firstn_nil|].
  rewrite seq_S, fold_left_app, flat_map_app, IH by lia. cbn [fold_left flat_map Nat.add].
  assert (La : length (flat_map T (seq 1 k)) = (k * hs)%nat)
    by (rewrite (length_flat_map_const T hs); auto).
  rewrite (firstn_all2 (flat_map T (seq 1 k))) by lia. rewrite app_nil_r.
  replace (Datatypes.S k - 1)%nat with k by lia.
  rewrite firstn_app, (firstn_all2 (flat_map T (seq 1 k))), La, <- app_assoc by lia.
  set (K := firstn _ (T (Datatypes.S k))).
  assert (LK : length K = Nat.min (length out - k * hs) hs)
    by (unfold K; rewrite length_firstn, HT; lia).
  unfold memcpy. rewrite firstn_app_l, skipn_app_plus, skipn_skipn by auto. f_equal. f_equal.
  - unfold K. destruct (Nat.le_gt_cases (length out - k * hs) hs).
    + now rewrite Nat.min_l.
    + rewrite Nat.min_r, !firstn_all2; rewrite ?HT; auto; lia.
  - rewrite LK. destruct (Nat.le_gt_cases (length out - k * hs) hs).
    + rewrite !skipn_all2 by lia. reflexivity.
    + f_equal. lia.
Qed.

(** The interface theorem: the macro computes PBKDF2 of its hash function. *)
Lemma PBKDF2_spec c stack pw salt iterations out :
  h_wf2 c -> length stack = blocksz -> bytes pw -> bytes salt ->
  Z.of_nat (length pw) < 2 ^ 29 -> Z.of_nat (length salt) < 2 ^ 29 - 132 ->
  Z.of_nat (length out) < 2 ^ 31 ->
  PBKDF2 c stack pw salt iterations out =
  rfc_pbkdf2 S blocksz hashsz pw salt iterations (length out).
Proof.
  intros Hw Hs Bp Bs Lp Ls Lo. pose proof l_pos. pose proof l_fit. pose proof l_small.
  destruct (HMAC_INIT_repr c pw Hw Bp Lp) as [Hi Ho].
  unfold PBKDF2, rfc_pbkdf2. rewrite u32_small, Nat2Z.id by (unfold is_u32; lia).
  set (k := ((length out + hashsz - 1) / hashsz)%nat).
  assert (Hk : (k * hashsz <= length out + hashsz - 1 < k * hashsz + hashsz)%nat).
  { pose proof (Nat.div_mod_eq (length out + hashsz - 1) hashsz) as D. fold k in D.
    pose proof (Nat.mod_upper_bound (length out + hashsz - 1) hashsz ltac:(lia)). lia. }
  rewrite <- (app_nil_r (firstn _ _)). rewrite <- (skipn_all2 out (n := k * hashsz)) by lia.
  rewrite <- fill_spec; [|intros; apply length_pbkdf2_T|lia|lia].
  apply fold_left_pointwise. intros o i. f_equal. f_equal. now apply PBKDF2_F_spec.
Qed.

Lemma rfc_pbkdf2_ok pw salt c dklen :
  length (rfc_pbkdf2 S blocksz hashsz pw salt c dklen) = dklen /\ bytes (rfc_pbkdf2 S blocksz hashsz pw salt c dklen).
Proof.
  pose proof l_pos. split.
  - unfold rfc_pbkdf2. rewrite length_firstn, length_flat_map_const with (c := hashsz) by (intros; apply length_pbkdf2_T).
    pose proof (Nat.div_mod_eq (dklen + hashsz - 1) hashsz). pose proof (Nat.mod_upper_bound (dklen + hashsz - 1) hashsz).
    nia.
  - unfold rfc_pbkdf2. apply bytes_firstn, bytes_flat_map. intros i. generalize (c - 1)%nat as j.
    induction j as [|j IH]; cbn [pbkdf2_T]; [apply bytes_spec_hash|].
    apply bytes_xor_list; [exact IH|apply bytes_spec_hash].
Qed.

Lemma hmac_run_spec c key inp in2 :
  h_wf2 c -> bytes key -> bytes inp -> match in2 with Some d => bytes d | None => True end ->
  let d := match in2 with Some d => d | None => [] end in
  Z.of_nat (length key) < 2 ^ 29 -> Z.of_nat (length (inp ++ d)) < 2 ^ 29 - 128 ->
  hmac_run HC c key inp in2 = hmac S blocksz key (inp ++ d).
Proof.
  intros Hw Bk Bi B2 d Lk Li. pose proof l_small. pose proof (pads_ok key Bk) as (_ & Lip & _).
  destruct (HMAC_INIT_repr c key Hw Bk Lk) as [Hi Ho]. unfold hmac_run.
  rewrite length_app in Li.
  assert (H1 : h_repr (inner (HMAC_UPDATE (HMAC_INIT c key) inp)) (ipad key ++ inp))
    by (apply l_update; auto; rewrite length_app; lia).
  destruct in2 as [d2|]; subst d; cbn [length] in Li.
  - apply (HMAC_FINAL_spec _ key (inp ++ d2)); auto. rewrite app_assoc. cbn [HMAC_UPDATE inner] in *.
    apply l_update; auto. rewrite !length_app. lia.
  - rewrite app_nil_r. now apply (HMAC_FINAL_spec _ key inp).
Qed.

End Hmac_proofs.

(** ** The three hash functions satisfy the interface *)

Definition S_sha1 : HashSpec := {|
  s_compress := fips_sha1_compress; s_iv := sha1_iv; s_lb := 8; s_words := 5; s_unpack := UNPACK32 |}.
Definition S_sha256 : HashSpec := {|
  s_compress := sha256_block_rolled; s_iv := sha256_h0; s_lb := 8; s_words := 8;
  s_unpack := UNPACK32 |}.
Definition S_sha512 : HashSpec := {|
  s_compress := sha512_block_rolled; s_iv := sha512_h0; s_lb := 16; s_words := 8;
  s_unpack := UNPACK64 |}.

Lemma u8_lxor a b : u8 (Z.lxor a b) = Z.lxor (u8 a) (u8 b).
Proof. apply land_lxor_distr. Qed.

Lemma UNPACK32_lxor a b : UNPACK32 (Z.lxor a b) = xor_list (UNPACK32 a) (UNPACK32 b).
Proof. unfold UNPACK32. now rewrite !Z.shiftr_lxor, !u8_lxor. Qed.

Lemma UNPACK64_lxor a b : UNPACK64 (Z.lxor a b) = xor_list (UNPACK64 a) (UNPACK64 b).
Proof. unfold UNPACK64. now rewrite !Z.shiftr_lxor, !u8_lxor. Qed.

Lemma UNPACK32_ok w : length (UNPACK32 w) = 4%nat /\ bytes (UNPACK32 w).
Proof. split; [reflexivity|]. repeat constructor; apply u8_range. Qed.

Lemma UNPACK64_ok w : length (UNPACK64 w) = 8%nat /\ bytes (UNPACK64 w).
Proof. split; [reflexivity|]. repeat constructor; apply u8_range. Qed.

Lemma write32_UNPACK v : write32_be v = UNPACK32 v.
Proof. unfold write32_be, UNPACK32. now rewrite Z.shiftr_0_r. Qed.

Lemma write64_UNPACK v : write64_be v = UNPACK64 v.
Proof. unfold write64_be, UNPACK64. now rewrite Z.shiftr_0_r. Qed.

Lemma length_add_back wrap h wv : length (add_back wrap h wv) = 8%nat.
Proof. unfold add_back. now rewrite length_map, length_seq. Qed.

(** A context that has absorbed exactly one block holds its compression. *)
Lemma absorb_one {A} (f : A -> list Z -> A) bs st m r :
  (0 < bs)%nat -> length m = bs -> absorb f bs st m = r -> fst r = f st m.
Proof.
  intros Hb Hm <-. pose proof (absorb_block f bs Hb st m [] Hm) as E. rewrite app_nil_r in E.
  rewrite E, absorb_small by (simpl; lia). reflexivity.
Qed.

Section Sha2_laws.
Context (block rolled : list Z -> list Z -> list Z) (bs lb : nat) (h0 : list Z).
Hypothesis (Eblk : forall h b, block h b = rolled h b).
Hypothesis (H1 : (4 <= lb)%nat) (H2 : (lb <= 16)%nat) (H3 : (lb + 1 < bs)%nat) (H4 : (bs <= 128)%nat).

Lemma sha2_final_laws unpack c m :
  sha2_repr block bs h0 c m -> length (md_state rolled h0 bs lb m) = 8%nat ->
  digest unpack 8 (final block bs (lb + 1) c) = flat_map unpack (md_state rolled h0 bs lb m) /\
  ctx_h (final block bs (lb + 1) c) = md_state rolled h0 bs lb m.
Proof.
  intros Hr Hl. pose proof (final_repr block bs lb h0 H1 H2 H3 H4 c m Hr) as E.
  rewrite (md_state_ext block rolled) in E by auto. split; [|exact E].
  unfold digest. rewrite E. now apply flat_map_nth_seq.
Qed.

Lemma sha2_final_wf c :
  length (ctx_block c) = (2 * bs)%nat -> (0 <= ctx_len c < Z.of_nat bs) ->
  length (ctx_block (final block bs (lb + 1) c)) = (2 * bs)%nat.
Proof.
  intros Hb Hc. unfold final. cbn [ctx_block].
  set (nb := if (bs - (lb + 1) <? Z.to_nat (ctx_len c) mod bs)%nat then 2%nat else 1%nat).
  assert (Hnb : (nb = 1 \/ nb = 2)%nat) by (unfold nb; destruct (_ <? _)%nat; auto).
  assert (Hpm : (bs <= nb * bs <= 2 * bs)%nat) by (destruct Hnb as [-> | ->]; lia).
  assert (E : length (memcpy (ctx_block c) (Z.to_nat (ctx_len c)) (memset 0 (nb * bs - Z.to_nat (ctx_len c))))
              = (2 * bs)%nat) by (rewrite length_memcpy; rewrite ?length_memset; lia).
  rewrite length_memcpy; rewrite length_upd, E; [reflexivity|].
  cbn [length UNPACK32]. lia.
Qed.

Lemma sha2_one_block c m :
  sha2_repr block bs h0 c m -> length m = bs -> ctx_h c = rolled h0 m.
Proof.
  intros (Ha & _) Hm. apply (absorb_one block bs) in Ha; [|lia|auto]. cbn [fst] in Ha.
  now rewrite Ha.
Qed.

End Sha2_laws.

Lemma sha2_repr_len block bs h0 c m :
  (0 < bs)%nat -> sha2_repr block bs h0 c m ->
  length (ctx_block c) = (2 * bs)%nat /\ 0 <= ctx_len c < Z.of_nat bs.
Proof.
  intros Hb (_ & Hl & Hc & _). split; [exact Hl|].
  pose proof (Nat.mod_upper_bound (length m) bs ltac:(lia)). lia.
Qed.

Lemma md_words (f : list Z -> list Z -> list Z) iv bs lb m n :
  (forall h b, length (f h b) = n) -> length iv = n -> length (md_state f iv bs lb m) = n.
Proof.
  intros Hf Hi. unfold md_state. revert iv Hi. generalize (blocks bs (m ++ md_padding bs lb (length m))).
  intros l. induction l as [|b l IH]; intros iv Hi; [exact Hi|]. rewrite fold_left_cons. auto.
Qed.

Lemma length_sha256_rolled h b : length (sha256_block_rolled h b) = 8%nat.
Proof. apply length_add_back. Qed.

Lemma length_sha512_rolled h b : length (sha512_block_rolled h b) = 8%nat.
Proof. apply length_add_back. Qed.

Local Opaque sha256_block sha512_block sha256_block_rolled sha512_block_rolled
  sha1_block fips_sha1_compress.

#[export] Instance HashLaws_sha256 : HashLaws sha2_ctx Hash_sha256 S_sha256.
Proof.
  refine {| h_wf := fun c => length (ctx_block c) = 128%nat;
            h_repr := sha2_repr sha256_block 64 sha256_h0; h_val := ctx_h |};
    cbn [s_lb s_words s_unpack s_iv s_compress S_sha256 hashsz blocksz Hash_sha256]; try lia.
  - apply UNPACK32_ok.
  - reflexivity.
  - apply UNPACK32_lxor.
  - apply length_sha256_rolled.
  - reflexivity.
  - intros c Hw. apply (init_repr sha256_block 64 8); auto; lia.
  - intros c m Hr. apply (sha2_repr_len sha256_block 64 sha256_h0 c m ltac:(lia) Hr).
  - intros c m d Hr _ Hl. apply (update_repr sha256_block 64 8); auto; lia.
  - intros c m Hr.
    assert (Hw : length (md_state sha256_block_rolled sha256_h0 64 8 m) = 8%nat)
      by (apply md_words; [apply length_sha256_rolled|reflexivity]).
    destruct (sha2_final_laws sha256_block sha256_block_rolled 64 8 sha256_h0 sha256_block_rolled_eq
      ltac:(lia) ltac:(lia) ltac:(lia) ltac:(lia) UNPACK32 c m Hr Hw) as [E1 E2].
    destruct (sha2_repr_len sha256_block 64 sha256_h0 c m ltac:(lia) Hr) as [L1 L2].
    split; [exact E1|]. split; [exact E2|]. apply (sha2_final_wf sha256_block 64 8); auto; lia.
  - intros c m Hr Hm. apply (sha2_one_block sha256_block sha256_block_rolled 64 8 sha256_h0
      sha256_block_rolled_eq); auto; lia.
  - intros c b Hb Hl.
    change (transf sha256_block 64 (ctx_h c) b 1 = sha256_block_rolled (ctx_h c) b).
    rewrite transf_one, firstn_all2 by lia. apply sha256_block_rolled_eq.
  - intros c d Hd. now apply map_nth_seq.
  - intros c Hc. change (h_xtract c) with (sha256_extract c). unfold sha256_extract, spec_out.
    rewrite <- (flat_map_nth_seq _ _ _ Hc). apply flat_map_ext. intros i. apply write32_UNPACK.
  - intros c d Hc Hd. now apply map_lxor_seq.
Defined.

#[export] Instance HashLaws_sha512 : HashLaws sha2_ctx Hash_sha512 S_sha512.
Proof.
  refine {| h_wf := fun c => length (ctx_block c) = 256%nat;
            h_repr := sha2_repr sha512_block 128 sha512_h0; h_val := ctx_h |};
    cbn [s_lb s_words s_unpack s_iv s_compress S_sha512 hashsz blocksz Hash_sha512]; try lia.
  - apply UNPACK64_ok.
  - reflexivity.
  - apply UNPACK64_lxor.
  - apply length_sha512_rolled.
  - reflexivity.
  - intros c Hw. apply (init_repr sha512_block 128 16); auto; lia.
  - intros c m Hr. apply (sha2_repr_len sha512_block 128 sha512_h0 c m ltac:(lia) Hr).
  - intros c m d Hr _ Hl. apply (update_repr sha512_block 128 16); auto; lia.
  - intros c m Hr.
    assert (Hw : length (md_state sha512_block_rolled sha512_h0 128 16 m) = 8%nat)
      by (apply md_words; [apply length_sha512_rolled|reflexivity]).
    destruct (sha2_final_laws sha512_block sha512_block_rolled 128 16 sha512_h0 sha512_block_rolled_eq
      ltac:(lia) ltac:(lia) ltac:(lia) ltac:(lia) UNPACK64 c m Hr Hw) as [E1 E2].
    destruct (sha2_repr_len sha512_block 128 sha512_h0 c m ltac:(lia) Hr) as [L1 L2].
    split; [exact E1|]. split; [exact E2|]. apply (sha2_final_wf sha512_block 128 16); auto; lia.
  - intros c m Hr Hm. apply (sha2_one_block sha512_block sha512_block_rolled 128 16 sha512_h0
      sha512_block_rolled_eq); auto; lia.
  - intros c b Hb Hl.
    change (transf sha512_block 128 (ctx_h c) b 1 = sha512_block_rolled (ctx_h c) b).
    rewrite transf_one, firstn_all2 by lia. apply sha512_block_rolled_eq.
  - intros c d Hd. now apply map_nth_seq.
  - intros c Hc. change (h_xtract c) with (sha512_extract c). unfold sha512_extract, spec_out.
    rewrite <- (flat_map_nth_seq _ _ _ Hc). apply flat_map_ext. intros i. apply write64_UNPACK.
  - intros c d Hc Hd. now apply map_lxor_seq.
Defined.

#[export] Instance HashLaws_sha1 (le : bool) : HashLaws sha1_ctx (Hash_sha1 le) S_sha1.
Proof.
  refine {| h_wf := fun c => length (sha1_buffer c) = 64%nat /\ bytes (sha1_buffer c);
            h_repr := sha1_repr; h_val := sha1_h |};
    cbn [s_lb s_words s_unpack s_iv s_compress S_sha1 hashsz blocksz Hash_sha1]; try lia.
  - apply UNPACK32_ok.
  - reflexivity.
  - apply UNPACK32_lxor.
  - apply length_fips_sha1_compress.
  - reflexivity.
  - intros c [Hw Hb]. now apply sha1_init_repr.
  - intros c m (_ & Hl & Hb & _). auto.
  - intros c m d Hr Hd Hl. apply sha1_update_repr; auto. rewrite length_app in Hl. lia.
  - intros c m Hr. destruct (sha1_final_repr le c m Hr) as [E1 E2].
    split; [exact E1|]. split; [exact E2|]. split; [reflexivity|].
    apply bytes_memset. unfold is_byte. lia.
  - intros c m (Ha & _) Hm. exact (absorb_one _ 64 _ _ _ ltac:(lia) Hm Ha).
  - intros c b Hb Hl.
    change (sha1_block le (sha1_h c) (firstn 64 b) = fips_sha1_compress (sha1_h c) b).
    rewrite firstn_all2 by lia. now apply sha1_block_fips.
  - intros c d Hd. now apply map_nth_seq.
  - intros c Hc. change (h_xtract c) with (sha1_extract c). unfold sha1_extract, spec_out.
    rewrite <- (flat_map_nth_seq _ _ _ Hc). apply flat_map_ext. intros i. apply write32_UNPACK.
  - intros c d Hc Hd. now apply map_lxor_seq.
Defined.

(** Contexts whose arrays have the declared sizes. *)
Definition ctx1_ok (c : HMAC_CTX sha1_ctx) : Prop :=
  (length (sha1_buffer (inner c)) = 64%nat /\ bytes (sha1_buffer (inner c))) /\
  (length (sha1_buffer (outer c)) = 64%nat /\ bytes (sha1_buffer (outer c))).
Definition ctx2_ok (bs : nat) (c : HMAC_CTX sha2_ctx) : Prop :=
  length (ctx_block (inner c)) = (2 * bs)%nat /\ length (ctx_block (outer c)) = (2 * bs)%nat.

(** the fast key derivation is PBKDF2 of RFC 8018 over HMAC of RFC 2104, for
    SHA-1, SHA-256 and SHA-512, any password and salt below the length limits
    of the hash functions, any iteration count of at least one and any output
    length; stack arrays may hold anything. *)
Theorem fastpbkdf2_rfc8018 (le : bool) (c1 : HMAC_CTX sha1_ctx) (c2 c5 : HMAC_CTX sha2_ctx)
    (s64 s128 pw salt : list Z) (iterations : nat) (out : list Z) :
  ctx1_ok c1 -> ctx2_ok 64 c2 -> ctx2_ok 128 c5 ->
  length s64 = 64%nat -> length s128 = 128%nat -> bytes pw -> bytes salt ->
  Z.of_nat (length pw) < 2 ^ 29 -> Z.of_nat (length salt) < 2 ^ 29 - 132 ->
  Z.of_nat (length out) < 2 ^ 31 -> (1 <= iterations)%nat ->
  fastpbkdf2_hmac_sha1 le c1 s64 pw salt iterations out =
    rfc_pbkdf2 S_sha1 64 20 pw salt iterations (length out) /\
  fastpbkdf2_hmac_sha256 c2 s64 pw salt iterations out =
    rfc_pbkdf2 S_sha256 64 32 pw salt iterations (length out) /\
  fastpbkdf2_hmac_sha512 c5 s128 pw salt iterations out =
    rfc_pbkdf2 S_sha512 128 64 pw salt iterations (length out).
Proof.
  intros W1 W2 W5 H64 H128 Bp Bs Lp Ls Lo _. split; [|split].
  - exact (@PBKDF2_spec _ _ _ (HashLaws_sha1 le) c1 s64 pw salt iterations out W1 H64 Bp Bs Lp Ls Lo).
  - exact (@PBKDF2_spec _ _ _ HashLaws_sha256 c2 s64 pw salt iterations out W2 H64 Bp Bs Lp Ls Lo).
  - exact (@PBKDF2_spec _ _ _ HashLaws_sha512 c5 s128 pw salt iterations out W5 H128 Bp Bs Lp Ls Lo).
Qed.

Lemma fastpbkdf2_rfc8018_witness :
  let c := mk_sha2 0 0 (memset 7 128) [] in
  fastpbkdf2_hmac_sha256 (mk_hmac c c) (memset 9 64) [112; 119] [1; 2; 3; 4] 3 (memset 0 40) =
  rfc_pbkdf2 S_sha256 64 32 [112; 119] [1; 2; 3; 4] 3 40.
Proof.
  intros c.
  apply (fastpbkdf2_rfc8018 true (mk_hmac (mk_sha1 [] 0 0 (memset 0 64)) (mk_sha1 [] 0 0 (memset 0 64)))
    (mk_hmac c c) (mk_hmac (mk_sha2 0 0 (memset 7 256) []) (mk_sha2 0 0 (memset 7 256) []))
    (memset 9 64) (memset 9 128) [112; 119] [1; 2; 3; 4] 3 (memset 0 40)); try reflexivity;
    try (repeat constructor; unfold is_byte; lia); try (simpl; lia).
Defined.

(** [sqlcipher_hmac] is HMAC of RFC 2104 over the concatenation of its one or two
    inputs: SHA-1 for algorithm 0, SHA-256 for 1, SHA-512 for every other
    value, the [default] label of the switch. *)
Theorem sqlcipher_hmac_rfc2104 (le : bool) (algorithm : Z) (c1 : HMAC_CTX sha1_ctx)
    (c2 : HMAC_CTX sha2_ctx) (key inp : list Z) (in2 : option (list Z)) :
  let d := match in2 with Some d => d | None => [] end in
  ctx1_ok c1 -> ctx2_ok (if algorithm =? 1 then 64 else 128) c2 ->
  bytes key -> bytes inp -> bytes d ->
  Z.of_nat (length key) < 2 ^ 29 -> Z.of_nat (length (inp ++ d)) < 2 ^ 29 - 128 ->
  sqlcipher_hmac le algorithm c1 c2 key inp in2 =
  if algorithm =? 0 then hmac S_sha1 64 key (inp ++ d)
  else if algorithm =? 1 then hmac S_sha256 64 key (inp ++ d)
  else hmac S_sha512 128 key (inp ++ d).
Proof.
  intros d W1 W2 Bk Bi B2 Lk Li. unfold sqlcipher_hmac.
  assert (B2' : match in2 with Some d => bytes d | None => True end) by (destruct in2; auto).
  destruct (algorithm =? 0).
  { exact (@hmac_run_spec _ _ _ (HashLaws_sha1 le) c1 key inp in2 W1 Bk Bi B2' Lk Li). }
  destruct (algorithm =? 1).
  - exact (@hmac_run_spec _ _ _ HashLaws_sha256 c2 key inp in2 W2 Bk Bi B2' Lk Li).
  - exact (@hmac_run_spec _ _ _ HashLaws_sha512 c2 key inp in2 W2 Bk Bi B2' Lk Li).
Qed.

Lemma sqlcipher_hmac_rfc2104_witness :
  let c := mk_sha2 0 0 (memset 7 256) [] in
  let c1 := mk_sha1 [] 0 0 (memset 5 64) in
  sqlcipher_hmac true 2 (mk_hmac c1 c1) (mk_hmac c c) [1; 2] [3; 4; 5] (Some [6]) =
  hmac S_sha512 128 [1; 2] [3; 4; 5; 6].
Proof.
  intros c c1.
  apply (sqlcipher_hmac_rfc2104 true 2 (mk_hmac c1 c1) (mk_hmac c c) [1; 2] [3; 4; 5] (Some [6]));
    try (repeat constructor; unfold is_byte; lia); try (simpl; lia).
Defined.
