(* ===== verification/Rijndael.v ===== *)
(** * The Rijndael (AES) implementation

    Model of rijndael.c: key schedule, table-driven block functions and the
    block, padding and chaining modes.  UINT32 accesses to byte arrays are
    exclusive ors of four bytes at a time, so the model works on bytes and does
    not depend on the byte order.  The hardware path (AES-NI or ARMv8
    intrinsics, chosen at run time) is outside the model; this is the portable
    path.  Results: encryption is the cipher of FIPS 197, decryption with the
    converted key inverts it, and the chaining modes round-trip, with
    ciphertext stealing for a partial last block. *)

From Stdlib Require Import ZArith Lia List Bool.
From S2P Require Import Prelude RijndaelTables.
Import ListNotations.
Local Open Scope Z_scope.

(** ** Constants and state *)

Definition RIJNDAEL_SUCCESS : Z := 0.
Definition RIJNDAEL_UNSUPPORTED_MODE : Z := -1.
Definition RIJNDAEL_UNSUPPORTED_DIRECTION : Z := -2.
Definition RIJNDAEL_UNSUPPORTED_KEY_LENGTH : Z := -3.
Definition RIJNDAEL_BAD_KEY : Z := -4.
Definition RIJNDAEL_NOT_INITIALIZED : Z := -5.
Definition RIJNDAEL_BAD_DIRECTION : Z := -6.
Definition RIJNDAEL_CORRUPTED_DATA : Z := -7.
Definition Direction_Encrypt : Z := 0.
Definition Direction_Decrypt : Z := 1.
Definition Mode_ECB : Z := 0.
Definition Mode_CBC : Z := 1.
Definition Mode_CFB1 : Z := 2.
Definition Key16Bytes : Z := 0.
Definition Key24Bytes : Z := 1.
Definition Key32Bytes : Z := 2.
Definition State_Valid : Z := 0.
Definition State_Invalid : Z := 1.

(** [m_expandedKey[r][t]] is word [4 * r + t] of sixty words of four bytes. *)
Record Rijndael := mk_rijndael {
  m_state : Z; m_mode : Z; m_direction : Z; m_initVector : list Z;
  m_uRounds : nat; m_expandedKey : list (list Z) }.

Definition set_state (st : Z) (r : Rijndael) : Rijndael :=
  mk_rijndael st (m_mode r) (m_direction r) (m_initVector r) (m_uRounds r) (m_expandedKey r).
Definition set_key (ek : list (list Z)) (r : Rijndael) : Rijndael :=
  mk_rijndael (m_state r) (m_mode r) (m_direction r) (m_initVector r) (m_uRounds r) ek.

Definition RijndaelCreate (r : Rijndael) : Rijndael := set_state State_Invalid r.
Definition RijndaelInvalidate (r : Rijndael) : Rijndael := set_state State_Invalid r.

(** Word [i] of a key array. *)
Definition kw (k : list (list Z)) (i : nat) : list Z := nth i k [].

(** The four words of round key [r]. *)
Definition round_key (ek : list (list Z)) (r : nat) : list Z :=
  kw ek (4 * r) ++ kw ek (4 * r + 1) ++ kw ek (4 * r + 2) ++ kw ek (4 * r + 3).

(** ** The block functions *)

(** [T[x]] for a byte [x], and [temp[j][k]]. *)
Definition row (T : list (list Z)) (x : Z) : list Z := nth (Z.to_nat x) T [].
Definition at_ (T : list Z) (x : Z) : Z := T.[Z.to_nat x].
Definition tb (temp : list Z) (j k : nat) : Z := temp.[4 * j + k].

Definition xor4 (a b c d : list Z) : list Z := xor_list (xor_list (xor_list a b) c) d.

(** The four output words of an inner encryption round. *)
Definition enc_columns (temp : list Z) : list Z :=
  xor4 (row T1 (tb temp 0 0)) (row T2 (tb temp 1 1)) (row T3 (tb temp 2 2)) (row T4 (tb temp 3 3)) ++
  xor4 (row T1 (tb temp 1 0)) (row T2 (tb temp 2 1)) (row T3 (tb temp 3 2)) (row T4 (tb temp 0 3)) ++
  xor4 (row T1 (tb temp 2 0)) (row T2 (tb temp 3 1)) (row T3 (tb temp 0 2)) (row T4 (tb temp 1 3)) ++
  xor4 (row T1 (tb temp 3 0)) (row T2 (tb temp 0 1)) (row T3 (tb temp 1 2)) (row T4 (tb temp 2 3)).

Definition s1 (x : Z) : Z := (row T1 x).[1].

Definition enc_last (temp : list Z) : list Z :=
  [s1 (tb temp 0 0); s1 (tb temp 1 1); s1 (tb temp 2 2); s1 (tb temp 3 3);
   s1 (tb temp 1 0); s1 (tb temp 2 1); s1 (tb temp 3 2); s1 (tb temp 0 3);
   s1 (tb temp 2 0); s1 (tb temp 3 1); s1 (tb temp 0 2); s1 (tb temp 1 3);
   s1 (tb temp 3 0); s1 (tb temp 0 1); s1 (tb temp 1 2); s1 (tb temp 2 3)].

Definition RijndaelEncrypt (rij : Rijndael) (a : list Z) : list Z :=
  let key := round_key (m_expandedKey rij) in
  let b := enc_columns (xor_list a (key 0%nat)) in
  let b := fold_left (fun b r => enc_columns (xor_list b (key r)))
             (seq 1 (m_uRounds rij - 2)) b in
  let b := enc_last (xor_list b (key (m_uRounds rij - 1)%nat)) in
  xor_list b (key (m_uRounds rij)).

Definition dec_columns (temp : list Z) : list Z :=
  xor4 (row T5 (tb temp 0 0)) (row T6 (tb temp 3 1)) (row T7 (tb temp 2 2)) (row T8 (tb temp 1 3)) ++
  xor4 (row T5 (tb temp 1 0)) (row T6 (tb temp 0 1)) (row T7 (tb temp 3 2)) (row T8 (tb temp 2 3)) ++
  xor4 (row T5 (tb temp 2 0)) (row T6 (tb temp 1 1)) (row T7 (tb temp 0 2)) (row T8 (tb temp 3 3)) ++
  xor4 (row T5 (tb temp 3 0)) (row T6 (tb temp 2 1)) (row T7 (tb temp 1 2)) (row T8 (tb temp 0 3)).

Definition dec_last (temp : list Z) : list Z :=
  [at_ S5 (tb temp 0 0); at_ S5 (tb temp 3 1); at_ S5 (tb temp 2 2); at_ S5 (tb temp 1 3);
   at_ S5 (tb temp 1 0); at_ S5 (tb temp 0 1); at_ S5 (tb temp 3 2); at_ S5 (tb temp 2 3);
   at_ S5 (tb temp 2 0); at_ S5 (tb temp 1 1); at_ S5 (tb temp 0 2); at_ S5 (tb temp 3 3);
   at_ S5 (tb temp 3 0); at_ S5 (tb temp 2 1); at_ S5 (tb temp 1 2); at_ S5 (tb temp 0 3)].

Definition RijndaelDecrypt (rij : Rijndael) (a : list Z) : list Z :=
  let key := round_key (m_expandedKey rij) in
  let b := dec_columns (xor_list a (key (m_uRounds rij))) in
  let b := fold_left (fun b r => dec_columns (xor_list b (key r)))
             (rev (seq 2 (m_uRounds rij - 2))) b in
  let b := dec_last (xor_list b (key 1%nat)) in
  xor_list b (key 0%nat).

(** ** Key schedule *)

Definition upd_word (k : list (list Z)) (i : nat) (w : list Z) : list (list Z) := k.[i <- w].

(** The nested copying loops: words of [tempKey] from [j] to position [r], [t]. *)
Fixpoint ks_copy (fuel j cols r t rounds : nat) (tempKey ek : list (list Z))
    : nat * nat * list (list Z) :=
  match fuel with
  | O => (r, t, ek)
  | S fuel =>
      if (j <? cols)%nat && (r <=? rounds)%nat then
        let ek := upd_word ek (4 * r + t) (kw tempKey j) in
        let '(r, t) := if (t + 1 =? 4)%nat then (S r, 0%nat) else (r, (t + 1)%nat) in
        ks_copy fuel (S j) cols r t rounds tempKey ek
      else (r, t, ek)
  end.

Definition sub_word (w : list Z) : list Z := map (at_ Sbox) w.

(** [tempKey[j] ^= tempKey[j-1]] for [j] from [from] below [upto]. *)
Definition ks_chain (tempKey : list (list Z)) (from upto : nat) : list (list Z) :=
  fold_left (fun tk j => upd_word tk j (xor_list (kw tk j) (kw tk (j - 1)))) (seq from (upto - from))
    tempKey.

(** One turn of the [while] loop up to the copying: the next key words. *)
Definition ks_step (cols : nat) (tempKey : list (list Z)) (rc : Z) : list (list Z) :=
  let prev := kw tempKey (cols - 1) in
  let w0 := kw tempKey 0 in
  let tempKey := upd_word tempKey 0
    [Z.lxor (Z.lxor w0.[0] (at_ Sbox prev.[1])) rc; Z.lxor w0.[1] (at_ Sbox prev.[2]);
     Z.lxor w0.[2] (at_ Sbox prev.[3]); Z.lxor w0.[3] (at_ Sbox prev.[0])] in
  if negb (cols =? 8)%nat then ks_chain tempKey 1 cols
  else
    let tempKey := ks_chain tempKey 1 (cols / 2) in
    let mid := xor_list (kw tempKey (cols / 2)) (sub_word (kw tempKey (cols / 2 - 1))) in
    ks_chain (upd_word tempKey (cols / 2) mid) (cols / 2 + 1) cols.

Fixpoint ks_loop (fuel cols rconpointer r t rounds : nat) (tempKey ek : list (list Z))
    : list (list Z) :=
  match fuel with
  | O => ek
  | S fuel =>
      if (r <=? rounds)%nat then
        let tempKey := ks_step cols tempKey rcon.[rconpointer] in
        let '(r, t, ek) := ks_copy cols 0 cols r t rounds tempKey ek in
        ks_loop fuel cols (S rconpointer) r t rounds tempKey ek
      else ek
  end.

(** [key] is the matrix of [m_uRounds - 6] columns; at most eleven turns of the
    loop complete the sixty words. *)
Definition RijndaelKeySched (rij : Rijndael) (key : list (list Z)) : Rijndael :=
  let cols := (m_uRounds rij - 6)%nat in
  let tempKey := firstn cols key in
  let '(r, t, ek) := ks_copy cols 0 cols 0 0 (m_uRounds rij) tempKey (m_expandedKey rij) in
  set_key (ks_loop 60 cols 0 r t (m_uRounds rij) tempKey ek) rij.

(** The inverse column mix of one key word by the tables [U1 .. U4]. *)
Definition dec_word (w : list Z) : list Z :=
  xor4 (row U1 w.[0]) (row U2 w.[1]) (row U3 w.[2]) (row U4 w.[3]).

Definition RijndaelKeyEncToDec (rij : Rijndael) : Rijndael :=
  set_key (fold_left (fun ek r =>
      fold_left (fun ek t => upd_word ek (4 * r + t) (dec_word (kw ek (4 * r + t)))) (seq 0 4) ek)
    (seq 1 (m_uRounds rij - 1)) (m_expandedKey rij)) rij.

(** ** Initialisation *)

(** The switch on [keyLen]: key bytes and rounds. *)
Definition key_params (keyLen : Z) : option (nat * nat) :=
  if keyLen =? Key16Bytes then Some (16%nat, 10%nat)
  else if keyLen =? Key24Bytes then Some (24%nat, 12%nat)
  else if keyLen =? Key32Bytes then Some (32%nat, 14%nat)
  else None.

(** The key bytes as columns of four. *)
Definition key_matrix (key : list Z) (n : nat) : list (list Z) :=
  map (fun j => slice key (4 * j) 4) (seq 0 (n / 4)).

(** [key] and [initVector] may be NULL. *)
Definition RijndaelInit (rij : Rijndael) (mode dir : Z) (key : option (list Z)) (keyLen : Z)
    (initVector : option (list Z)) : Z * Rijndael :=
  let rij := set_state State_Invalid rij in
  if negb (mode =? Mode_CBC) && negb (mode =? Mode_ECB) && negb (mode =? Mode_CFB1) then
    (RIJNDAEL_UNSUPPORTED_MODE, rij)
  else
    let rij := mk_rijndael (m_state rij) mode (m_direction rij) (m_initVector rij)
                 (m_uRounds rij) (m_expandedKey rij) in
    if negb (dir =? Direction_Encrypt) && negb (dir =? Direction_Decrypt) then
      (RIJNDAEL_UNSUPPORTED_DIRECTION, rij)
    else
      let iv := match initVector with Some v => firstn 16 v | None => memset 0 16 end in
      let rij := mk_rijndael (m_state rij) mode dir iv (m_uRounds rij) (m_expandedKey rij) in
      match key_params keyLen with
      | None => (RIJNDAEL_UNSUPPORTED_KEY_LENGTH, rij)
      | Some (nbytes, rounds) =>
          let rij := mk_rijndael (m_state rij) mode dir iv rounds (m_expandedKey rij) in
          match key with
          | None => (RIJNDAEL_BAD_KEY, rij)
          | Some key =>
              let rij := RijndaelKeySched rij (key_matrix key nbytes) in
              let rij := if dir =? Direction_Decrypt then RijndaelKeyEncToDec rij else rij in
              (RIJNDAEL_SUCCESS, set_state State_Valid rij)
          end
      end.

(** An object as the callers allocate it. *)
Definition rijndael0 : Rijndael :=
  mk_rijndael State_Invalid 0 0 (memset 0 16) 0 (repeat (memset 0 4) 60).

Definition init_enc (mode : Z) (key : list Z) (keyLen : Z) (iv : list Z) : Rijndael :=
  snd (RijndaelInit rijndael0 mode Direction_Encrypt (Some key) keyLen (Some iv)).
Definition init_dec (mode : Z) (key : list Z) (keyLen : Z) (iv : list Z) : Rijndael :=
  snd (RijndaelInit rijndael0 mode Direction_Decrypt (Some key) keyLen (Some iv)).

(** The examples of FIPS 197, appendix C, for the three key lengths. *)
Example fips197_vectors :
  let key n := map Z.of_nat (seq 0 n) in
  let pt := map (fun i => 17 * Z.of_nat i) (seq 0 16) in
  let iv := memset 0 16 in
  RijndaelEncrypt (init_enc Mode_ECB (key 16%nat) Key16Bytes iv) pt =
    [0x69; 0xc4; 0xe0; 0xd8; 0x6a; 0x7b; 0x04; 0x30; 0xd8; 0xcd; 0xb7; 0x80; 0x70; 0xb4; 0xc5; 0x5a] /\
  RijndaelEncrypt (init_enc Mode_ECB (key 24%nat) Key24Bytes iv) pt =
    [0xdd; 0xa9; 0x7c; 0xa4; 0x86; 0x4c; 0xdf; 0xe0; 0x6e; 0xaf; 0x70; 0xa0; 0xec; 0x0d; 0x71; 0x91] /\
  RijndaelEncrypt (init_enc Mode_ECB (key 32%nat) Key32Bytes iv) pt =
    [0x8e; 0xa2; 0xb7; 0xca; 0x51; 0x67; 0x45; 0xbf; 0xea; 0xfc; 0x49; 0x90; 0x4b; 0x49; 0x60; 0x89] /\
  RijndaelDecrypt (init_dec Mode_ECB (key 32%nat) Key32Bytes iv)
    [0x8e; 0xa2; 0xb7; 0xca; 0x51; 0x67; 0x45; 0xbf; 0xea; 0xfc; 0x49; 0x90; 0x4b; 0x49; 0x60; 0x89] = pt.
Proof. vm_compute. repeat split; reflexivity. Qed.

(** ** The cipher of FIPS 197 *)

(** Multiplication in the field of 256 elements. *)
Definition xtime (x : Z) : Z := Z.lxor (Z.shiftl x 1) (if Z.testbit x 7 then 0x11b else 0).

Definition gf_mul (a b : Z) : Z :=
  fold_left (fun acc i => Z.lxor acc (if Z.testbit a (Z.of_nat i) then Nat.iter i xtime b else 0))
    (seq 0 8) 0.

(** The S-box: inversion (the 254th power), then the affine map. *)
Definition gf_inv (x : Z) : Z := Nat.iter 253 (gf_mul x) x.
Definition rotl8 (x k : Z) : Z := Z.land (Z.lor (Z.shiftl x k) (Z.shiftr x (8 - k))) 255.
Definition fips_sbox (x : Z) : Z :=
  let b := gf_inv x in
  Z.lxor (Z.lxor (Z.lxor (Z.lxor (Z.lxor b (rotl8 b 1)) (rotl8 b 2)) (rotl8 b 3)) (rotl8 b 4)) 0x63.

Definition mix_column (a b c d : Z) : list Z :=
  [Z.lxor (Z.lxor (Z.lxor (gf_mul 2 a) (gf_mul 3 b)) c) d;
   Z.lxor (Z.lxor (Z.lxor a (gf_mul 2 b)) (gf_mul 3 c)) d;
   Z.lxor (Z.lxor (Z.lxor a b) (gf_mul 2 c)) (gf_mul 3 d);
   Z.lxor (Z.lxor (Z.lxor (gf_mul 3 a) b) c) (gf_mul 2 d)].

Definition inv_mix_column (a b c d : Z) : list Z :=
  [Z.lxor (Z.lxor (Z.lxor (gf_mul 14 a) (gf_mul 11 b)) (gf_mul 13 c)) (gf_mul 9 d);
   Z.lxor (Z.lxor (Z.lxor (gf_mul 9 a) (gf_mul 14 b)) (gf_mul 11 c)) (gf_mul 13 d);
   Z.lxor (Z.lxor (Z.lxor (gf_mul 13 a) (gf_mul 9 b)) (gf_mul 14 c)) (gf_mul 11 d);
   Z.lxor (Z.lxor (Z.lxor (gf_mul 11 a) (gf_mul 13 b)) (gf_mul 9 c)) (gf_mul 14 d)].

(** On states of sixteen bytes, column by column. *)
Definition columns (f : Z -> Z -> Z -> Z -> list Z) (s : list Z) : list Z :=
  f s.[0] s.[1] s.[2] s.[3] ++ f s.[4] s.[5] s.[6] s.[7] ++
  f s.[8] s.[9] s.[10] s.[11] ++ f s.[12] s.[13] s.[14] s.[15].

Definition sub_bytes (s : list Z) : list Z := map fips_sbox s.
Definition shift_rows (s : list Z) : list Z :=
  map (fun i => s.[(i + 4 * (i mod 4)) mod 16]) (seq 0 16).
Definition mix_columns : list Z -> list Z := columns mix_column.

Definition fips_cipher (rounds : nat) (key : nat -> list Z) (a : list Z) : list Z :=
  let s := xor_list a (key 0%nat) in
  let s := fold_left (fun s r => xor_list (mix_columns (shift_rows (sub_bytes s))) (key r))
             (seq 1 (rounds - 1)) s in
  xor_list (shift_rows (sub_bytes s)) (key rounds).

(** ** The tables, checked against the field *)

Definition list_eqb (a b : list Z) : bool :=
  (length a =? length b)%nat && forallb (fun p => fst p =? snd p) (combine a b).

Lemma list_eqb_eq a b : list_eqb a b = true -> a = b.
Proof.
  unfold list_eqb. rewrite andb_true_iff, Nat.eqb_eq. intros [Hl H]. revert b Hl H.
  induction a as [|x a IH]; intros [|y b] Hl H; try discriminate; [reflexivity|].
  cbn [combine forallb fst snd] in H. apply andb_true_iff in H as [Hx H]. f_equal; [lia|].
  apply IH; auto.
Qed.

Lemma list_eqb_refl l : list_eqb l l = true.
Proof.
  unfold list_eqb. rewrite Nat.eqb_refl. induction l as [|x l IH]; [reflexivity|].
  cbn [combine forallb fst snd]. now rewrite Z.eqb_refl, IH.
Qed.

(** Everything the tables are relied on for, as one computation over the bytes. *)
Definition tables_ok (x : Z) : bool :=
  let s := at_ Sbox x in
  let i := at_ S5 x in
  let m := gf_mul in
  (0 <=? s) && (s <? 256) && (0 <=? i) && (i <? 256) && (at_ S5 s =? x) && (s =? fips_sbox x) &&
  list_eqb (row T1 x) [m 2 s; s; s; m 3 s] && list_eqb (row T2 x) [m 3 s; m 2 s; s; s] &&
  list_eqb (row T3 x) [s; m 3 s; m 2 s; s] && list_eqb (row T4 x) [s; s; m 3 s; m 2 s] &&
  list_eqb (row T5 x) [m 14 i; m 9 i; m 13 i; m 11 i] &&
  list_eqb (row T6 x) [m 11 i; m 14 i; m 9 i; m 13 i] &&
  list_eqb (row T7 x) [m 13 i; m 11 i; m 14 i; m 9 i] &&
  list_eqb (row T8 x) [m 9 i; m 13 i; m 11 i; m 14 i] &&
  list_eqb (row U1 x) [m 14 x; m 9 x; m 13 x; m 11 x] &&
  list_eqb (row U2 x) [m 11 x; m 14 x; m 9 x; m 13 x] &&
  list_eqb (row U3 x) [m 13 x; m 11 x; m 14 x; m 9 x] &&
  list_eqb (row U4 x) [m 9 x; m 13 x; m 11 x; m 14 x].

(** The rows of the product of the two column matrices. *)
Definition matrix_ok (x : Z) : bool :=
  let m := gf_mul in
  list_eqb (inv_mix_column (m 2 x) x x (m 3 x)) [x; 0; 0; 0] &&
  list_eqb (inv_mix_column (m 3 x) (m 2 x) x x) [0; x; 0; 0] &&
  list_eqb (inv_mix_column x (m 3 x) (m 2 x) x) [0; 0; x; 0] &&
  list_eqb (inv_mix_column x x (m 3 x) (m 2 x)) [0; 0; 0; x] &&
  forallb (fun c => (0 <=? m c x) && (m c x <? 256)) [2; 3; 9; 11; 13; 14].

Lemma tables_checked x : is_byte x -> tables_ok x = true.
Proof. apply forall_bytes. vm_compute. reflexivity. Qed.

Lemma matrix_checked x : is_byte x -> matrix_ok x = true.
Proof. apply forall_bytes. vm_compute. reflexivity. Qed.

Local Opaque Sbox S5 T1 T2 T3 T4 T5 T6 T7 T8 U1 U2 U3 U4 rcon gf_mul fips_sbox.

Lemma tables_at x :
  is_byte x ->
  let s := at_ Sbox x in let i := at_ S5 x in let m := gf_mul in
  is_byte s /\ is_byte i /\ at_ S5 s = x /\ s = fips_sbox x /\
  row T1 x = [m 2 s; s; s; m 3 s] /\ row T2 x = [m 3 s; m 2 s; s; s] /\
  row T3 x = [s; m 3 s; m 2 s; s] /\ row T4 x = [s; s; m 3 s; m 2 s] /\
  row T5 x = [m 14 i; m 9 i; m 13 i; m 11 i] /\ row T6 x = [m 11 i; m 14 i; m 9 i; m 13 i] /\
  row T7 x = [m 13 i; m 11 i; m 14 i; m 9 i] /\ row T8 x = [m 9 i; m 13 i; m 11 i; m 14 i] /\
  row U1 x = [m 14 x; m 9 x; m 13 x; m 11 x] /\ row U2 x = [m 11 x; m 14 x; m 9 x; m 13 x] /\
  row U3 x = [m 13 x; m 11 x; m 14 x; m 9 x] /\ row U4 x = [m 9 x; m 13 x; m 11 x; m 14 x].
Proof.
  intros Hx s i m. pose proof (tables_checked x Hx) as H. unfold tables_ok in H.
  fold s i m in H. rewrite !andb_true_iff in H. unfold is_byte.
  destruct H as [[[[[[[[[[[[[[[[[H1 H2] H3] H4] H5] H6] R1] R2] R3] R4] R5] R6] R7] R8] V1] V2] V3] V4].
  repeat match goal with H : list_eqb _ _ = true |- _ => apply list_eqb_eq in H end.
  split_and; auto; lia.
Qed.

Lemma matrix_at x :
  is_byte x ->
  let m := gf_mul in
  inv_mix_column (m 2 x) x x (m 3 x) = [x; 0; 0; 0] /\
  inv_mix_column (m 3 x) (m 2 x) x x = [0; x; 0; 0] /\
  inv_mix_column x (m 3 x) (m 2 x) x = [0; 0; x; 0] /\
  inv_mix_column x x (m 3 x) (m 2 x) = [0; 0; 0; x] /\
  is_byte (m 2 x) /\ is_byte (m 3 x) /\ is_byte (m 9 x) /\ is_byte (m 11 x) /\
  is_byte (m 13 x) /\ is_byte (m 14 x).
Proof.
  intros Hx m. pose proof (matrix_checked x Hx) as H. unfold matrix_ok in H. fold m in H.
  cbn [forallb] in H. rewrite !andb_true_iff in H. unfold is_byte.
  destruct H as [[[[H1 H2] H3] H4] H5].
  repeat match goal with H : list_eqb _ _ = true |- _ => apply list_eqb_eq in H end.
  split_and; auto; lia.
Qed.

(** *** Linearity *)

Ltac xor_ring := apply Z.bits_inj'; intros ? ?; rewrite ?Z.lxor_spec, ?Z.bits_0; ring.

Lemma xtime_lxor x y : xtime (Z.lxor x y) = Z.lxor (xtime x) (xtime y).
Proof.
  unfold xtime. rewrite Z.shiftl_lxor, Z.lxor_spec.
  destruct (Z.testbit x 7), (Z.testbit y 7); cbn [xorb]; xor_ring.
Qed.

Lemma gf_mul_lxor a x y : gf_mul a (Z.lxor x y) = Z.lxor (gf_mul a x) (gf_mul a y).
Proof.
  assert (I : forall i, Nat.iter i xtime (Z.lxor x y) = Z.lxor (Nat.iter i xtime x) (Nat.iter i xtime y)).
  { induction i as [|i IH]; [reflexivity|]. now rewrite !Nat.iter_succ, IH, xtime_lxor. }
  assert (G : forall l u v,
    fold_left (fun acc i => Z.lxor acc (if Z.testbit a (Z.of_nat i) then Nat.iter i xtime (Z.lxor x y) else 0))
      l (Z.lxor u v) =
    Z.lxor (fold_left (fun acc i => Z.lxor acc (if Z.testbit a (Z.of_nat i) then Nat.iter i xtime x else 0)) l u)
           (fold_left (fun acc i => Z.lxor acc (if Z.testbit a (Z.of_nat i) then Nat.iter i xtime y else 0)) l v)).
  { induction l as [|i l IH]; intros u v; [reflexivity|]. rewrite !fold_left_cons, <- IH. f_equal.
    destruct (Z.testbit a (Z.of_nat i)); [rewrite I|]; xor_ring. }
  exact (G (seq 0 8) 0 0).
Qed.

Lemma gf_mul_0 a : gf_mul a 0 = 0.
Proof.
  pose proof (gf_mul_lxor a 0 0) as H. rewrite Z.lxor_nilpotent in H. now rewrite Z.lxor_nilpotent in H.
Qed.

Lemma inv_mix_column_xor a b c d a' b' c' d' :
  inv_mix_column (Z.lxor a a') (Z.lxor b b') (Z.lxor c c') (Z.lxor d d') =
  xor_list (inv_mix_column a b c d) (inv_mix_column a' b' c' d').
Proof.
  unfold inv_mix_column. cbn [xor_list]. rewrite !gf_mul_lxor.
  repeat (apply (f_equal2 cons); [xor_ring|]). reflexivity.
Qed.

(** The two column matrices are inverse to each other. *)
Lemma inv_mix_mix a b c d :
  is_byte a -> is_byte b -> is_byte c -> is_byte d ->
  let m := mix_column a b c d in inv_mix_column m.[0] m.[1] m.[2] m.[3] = [a; b; c; d].
Proof.
  intros Ha Hb Hc Hd m. unfold m, mix_column. cbn [nth].
  rewrite !inv_mix_column_xor.
  destruct (matrix_at a Ha) as (-> & _). destruct (matrix_at b Hb) as (_ & -> & _).
  destruct (matrix_at c Hc) as (_ & _ & -> & _). destruct (matrix_at d Hd) as (_ & _ & _ & -> & _).
  cbn [xor_list]. now rewrite !Z.lxor_0_l, !Z.lxor_0_r.
Qed.

(** *** States of sixteen bytes *)

Definition state_ok (s : list Z) : Prop := length s = 16%nat /\ bytes s.

(** Names the sixteen bytes of a state. *)
Ltac state16 s H :=
  let Hl := fresh in let Hb := fresh in
  destruct H as [Hl Hb]; do 17 (destruct s as [|? s]; try discriminate Hl); clear Hl;
  repeat match goal with H : bytes (_ :: _) |- _ => apply bytes_cons in H as [? H] end;
  repeat match goal with H : bytes [] |- _ => clear H end.

Section Rows.
Context (x : Z) (Hx : is_byte x).
Let s := at_ Sbox x.
Let i := at_ S5 x.

Lemma row_T1 : row T1 x = [gf_mul 2 s; s; s; gf_mul 3 s].
Proof. destruct (tables_at x Hx) as (? & ? & ? & ? & ? & ?). auto. Qed.
Lemma row_T2 : row T2 x = [gf_mul 3 s; gf_mul 2 s; s; s].
Proof. now destruct (tables_at x Hx) as (? & ? & ? & ? & ? & ? & ?). Qed.
Lemma row_T3 : row T3 x = [s; gf_mul 3 s; gf_mul 2 s; s].
Proof. now destruct (tables_at x Hx) as (? & ? & ? & ? & ? & ? & ? & ?). Qed.
Lemma row_T4 : row T4 x = [s; s; gf_mul 3 s; gf_mul 2 s].
Proof. now destruct (tables_at x Hx) as (? & ? & ? & ? & ? & ? & ? & ? & ?). Qed.
Lemma row_T5678 :
  row T5 x = [gf_mul 14 i; gf_mul 9 i; gf_mul 13 i; gf_mul 11 i] /\
  row T6 x = [gf_mul 11 i; gf_mul 14 i; gf_mul 9 i; gf_mul 13 i] /\
  row T7 x = [gf_mul 13 i; gf_mul 11 i; gf_mul 14 i; gf_mul 9 i] /\
  row T8 x = [gf_mul 9 i; gf_mul 13 i; gf_mul 11 i; gf_mul 14 i].
Proof. destruct (tables_at x Hx) as (_ & _ & _ & _ & _ & _ & _ & _ & ? & ? & ? & ? & _). auto. Qed.
Lemma row_U :
  row U1 x = [gf_mul 14 x; gf_mul 9 x; gf_mul 13 x; gf_mul 11 x] /\
  row U2 x = [gf_mul 11 x; gf_mul 14 x; gf_mul 9 x; gf_mul 13 x] /\
  row U3 x = [gf_mul 13 x; gf_mul 11 x; gf_mul 14 x; gf_mul 9 x] /\
  row U4 x = [gf_mul 9 x; gf_mul 13 x; gf_mul 11 x; gf_mul 14 x].
Proof. destruct (tables_at x Hx) as (_ & _ & _ & _ & _ & _ & _ & _ & _ & _ & _ & _ & ? & ? & ? & ?). auto. Qed.
Lemma s1_Sbox : s1 x = s.
Proof. unfold s1. now rewrite row_T1. Qed.
Lemma Sbox_byte : is_byte s.
Proof. apply (tables_at x Hx). Qed.
Lemma S5_byte : is_byte i.
Proof. apply (tables_at x Hx). Qed.
Lemma S5_Sbox : at_ S5 s = x.
Proof. apply (tables_at x Hx). Qed.
Lemma Sbox_fips : s = fips_sbox x.
Proof. apply (tables_at x Hx). Qed.
End Rows.

(** The encryption tables: substitution, row shift and column mix at once. *)
Lemma enc_columns_mix s : state_ok s -> enc_columns s = mix_columns (enc_last s).
Proof.
  intros H. state16 s H. unfold enc_columns, enc_last, tb, mix_columns, columns, xor4, mix_column.
  cbn [Nat.mul Nat.add nth].
  rewrite !row_T1, !row_T2, !row_T3, !row_T4, !s1_Sbox by assumption. reflexivity.
Qed.

Lemma dec_columns_mix s : state_ok s -> dec_columns s = columns inv_mix_column (dec_last s).
Proof.
  intros H. state16 s H. unfold dec_columns, dec_last, tb, columns, xor4, inv_mix_column.
  cbn [Nat.mul Nat.add nth].
  repeat match goal with H : is_byte ?x |- _ =>
    let E := fresh in pose proof (row_T5678 x H) as E; destruct E as (E1 & E2 & E3 & E4);
    rewrite ?E1, ?E2, ?E3, ?E4; clear E1 E2 E3 E4 H end.
  reflexivity.
Qed.

Lemma enc_last_fips s : state_ok s -> enc_last s = shift_rows (sub_bytes s).
Proof.
  intros H. state16 s H. unfold enc_last, tb, shift_rows, sub_bytes.
  cbn [Nat.mul Nat.add nth seq map Nat.modulo Nat.divmod fst snd Nat.sub].
  rewrite !s1_Sbox, !Sbox_fips by assumption. reflexivity.
Qed.

Lemma dec_enc_last s : state_ok s -> dec_last (enc_last s) = s.
Proof.
  intros H. state16 s H. unfold dec_last, enc_last, tb. cbn [Nat.mul Nat.add nth].
  now rewrite !s1_Sbox, !S5_Sbox by assumption.
Qed.

Lemma state_xor a b : state_ok a -> state_ok b -> state_ok (xor_list a b).
Proof.
  intros [La Ba] [Lb Bb]. split; [rewrite length_xor_list; lia|auto with words].
Qed.

Lemma state_enc_last s : state_ok s -> state_ok (enc_last s).
Proof.
  intros H. state16 s H. split; [reflexivity|]. unfold enc_last, tb. cbn [Nat.mul Nat.add nth].
  rewrite !s1_Sbox by assumption. repeat (apply bytes_cons; split; [now apply Sbox_byte|]). constructor.
Qed.

Lemma mix_column_ok a b c d :
  is_byte a -> is_byte b -> is_byte c -> is_byte d -> bytes (mix_column a b c d).
Proof.
  intros Ha Hb Hc Hd.
  destruct (matrix_at a Ha) as (_ & _ & _ & _ & A2 & A3 & _).
  destruct (matrix_at b Hb) as (_ & _ & _ & _ & B2 & B3 & _).
  destruct (matrix_at c Hc) as (_ & _ & _ & _ & C2 & C3 & _).
  destruct (matrix_at d Hd) as (_ & _ & _ & _ & D2 & D3 & _).
  unfold mix_column. repeat (apply bytes_cons; split; [auto 6 with words|]). constructor.
Qed.

Lemma state_mix s : state_ok s -> state_ok (mix_columns s).
Proof.
  intros H. state16 s H. split; [reflexivity|]. unfold mix_columns, columns. cbn [nth].
  rewrite !bytes_app. auto using mix_column_ok.
Qed.

Lemma state_enc s : state_ok s -> state_ok (enc_columns s).
Proof. intros H. rewrite enc_columns_mix by auto. auto using state_mix, state_enc_last. Qed.

Lemma columns_inv_xor a b :
  length a = 16%nat -> length b = 16%nat ->
  columns inv_mix_column (xor_list a b) =
  xor_list (columns inv_mix_column a) (columns inv_mix_column b).
Proof.
  intros Ha Hb. unfold columns. rewrite !nth_xor_list by lia. rewrite !inv_mix_column_xor.
  rewrite !xor_list_app by reflexivity. reflexivity.
Qed.

Lemma columns_app f (a b c d : list Z) :
  length a = 4%nat -> length b = 4%nat -> length c = 4%nat -> length d = 4%nat ->
  columns f (a ++ b ++ c ++ d) =
  f a.[0] a.[1] a.[2] a.[3] ++ f b.[0] b.[1] b.[2] b.[3] ++
  f c.[0] c.[1] c.[2] c.[3] ++ f d.[0] d.[1] d.[2] d.[3].
Proof.
  intros Ha Hb Hc Hd.
  do 5 (destruct a as [|? a]; try discriminate Ha). do 5 (destruct b as [|? b]; try discriminate Hb).
  do 5 (destruct c as [|? c]; try discriminate Hc). do 5 (destruct d as [|? d]; try discriminate Hd).
  reflexivity.
Qed.

Lemma columns_inv_mix s : state_ok s -> columns inv_mix_column (mix_columns s) = s.
Proof.
  intros H. state16 s H. unfold mix_columns. unfold columns at 2. cbn [nth].
  rewrite columns_app, !inv_mix_mix by (assumption || reflexivity). reflexivity.
Qed.

(** ** Encryption and decryption for any round keys *)

Section Keyed.
Context (key : nat -> list Z) (a : list Z).

(** The state that enters round [r]. *)
Fixpoint round_in (r : nat) : list Z :=
  match r with
  | O => xor_list a (key 0%nat)
  | S r => xor_list (enc_columns (round_in r)) (key (S r))
  end.

Lemma enc_fold n :
  fold_left (fun b r => enc_columns (xor_list b (key r))) (seq 1 n) (enc_columns (round_in 0)) =
  enc_columns (round_in n).
Proof.
  induction n as [|n IH]; [reflexivity|]. rewrite seq_S, fold_left_app, IH. reflexivity.
Qed.

Context (rounds : nat) (Ha : state_ok a) (Hk : forall r, (r <= rounds)%nat -> state_ok (key r)).

Lemma round_in_ok r : (r <= rounds)%nat -> state_ok (round_in r).
Proof.
  induction r as [|r IH]; intros Hr; cbn [round_in].
  - apply state_xor; [assumption|apply Hk; lia].
  - apply state_xor; [apply state_enc, IH; lia|apply Hk; lia].
Qed.

Lemma fips_fold n :
  (n <= rounds)%nat ->
  fold_left (fun s r => xor_list (mix_columns (shift_rows (sub_bytes s))) (key r)) (seq 1 n)
    (round_in 0) = round_in n.
Proof.
  induction n as [|n IH]; intros Hn; [reflexivity|]. rewrite seq_S, fold_left_app, IH by lia.
  cbn [fold_left round_in Nat.add].
  now rewrite enc_columns_mix, enc_last_fips by (apply round_in_ok; lia).
Qed.

(** The decryption loop walks the same states backwards. *)
Context (dkey : nat -> list Z).
Hypothesis (Hd : forall r, (1 <= r < rounds)%nat -> dkey r = columns inv_mix_column (key r)).

Lemma dec_step r :
  (S r < rounds)%nat ->
  xor_list (columns inv_mix_column (round_in (S r))) (dkey (S r)) = enc_last (round_in r).
Proof.
  intros Hr. pose proof (round_in_ok r ltac:(lia)) as Hok. pose proof (Hk (S r) ltac:(lia)) as [Lk _].
  rewrite Hd by lia. cbn [round_in].
  destruct (state_enc _ Hok) as [Le _].
  rewrite <- columns_inv_xor by (rewrite ?length_xor_list; lia).
  rewrite xor_list_invol, enc_columns_mix by (auto; lia).
  apply columns_inv_mix, state_enc_last, Hok.
Qed.

Lemma dec_fold n :
  (S n < rounds)%nat ->
  fold_left (fun b r => dec_columns (xor_list b (dkey r))) (rev (seq 2 n))
    (columns inv_mix_column (round_in (S n))) = columns inv_mix_column (round_in 1).
Proof.
  induction n as [|n IH]; intros Hn; [reflexivity|].
  rewrite seq_S, rev_app_distr. cbn [rev app fold_left Nat.add].
  pose proof (round_in_ok (S n) ltac:(lia)) as Hok.
  rewrite dec_step, dec_columns_mix, dec_enc_last by (auto using state_enc_last; lia).
  apply IH. lia.
Qed.

End Keyed.

Lemma RijndaelEncrypt_fips rij a :
  let key := round_key (m_expandedKey rij) in
  state_ok a -> (2 <= m_uRounds rij)%nat ->
  (forall r, (r <= m_uRounds rij)%nat -> state_ok (key r)) ->
  RijndaelEncrypt rij a = fips_cipher (m_uRounds rij) key a.
Proof.
  intros key Ha Hr Hk. unfold RijndaelEncrypt, fips_cipher. fold key.
  change (xor_list a (key 0%nat)) with (round_in key a 0).
  rewrite enc_fold, (fips_fold key a (m_uRounds rij)) by (auto; lia).
  replace (m_uRounds rij - 1)%nat with (S (m_uRounds rij - 2)) by lia.
  f_equal. rewrite <- enc_last_fips; [reflexivity|]. apply (round_in_ok key a (m_uRounds rij)); auto; lia.
Qed.

Lemma RijndaelDecrypt_Encrypt re rd a :
  let key := round_key (m_expandedKey re) in
  let dkey := round_key (m_expandedKey rd) in
  let n := m_uRounds re in
  m_uRounds rd = n -> state_ok a -> (2 <= n)%nat ->
  (forall r, (r <= n)%nat -> state_ok (key r)) ->
  dkey 0%nat = key 0%nat -> dkey n = key n ->
  (forall r, (1 <= r < n)%nat -> dkey r = columns inv_mix_column (key r)) ->
  RijndaelDecrypt rd (RijndaelEncrypt re a) = a /\ state_ok (RijndaelEncrypt re a).
Proof.
  intros key dkey n Hn Ha H2 Hk H0 HN Hd.
  assert (E : RijndaelEncrypt re a = xor_list (enc_last (round_in key a (n - 1))) (key n)).
  { unfold RijndaelEncrypt. fold key n. change (xor_list a (key 0%nat)) with (round_in key a 0).
    rewrite enc_fold. replace (n - 1)%nat with (S (n - 2)) by lia. reflexivity. }
  pose proof (round_in_ok key a n Ha Hk (n - 1) ltac:(lia)) as Hok.
  pose proof (state_enc_last _ Hok) as Hel. pose proof (Hk n ltac:(lia)) as Hkn.
  rewrite E. split; [|apply state_xor; auto].
  unfold RijndaelDecrypt. fold dkey. rewrite Hn, HN, H0.
  rewrite xor_list_invol by (destruct Hel as [-> _]; destruct Hkn as [-> _]; lia).
  rewrite dec_columns_mix, dec_enc_last by auto.
  replace (n - 1)%nat with (S (n - 2)) by lia.
  rewrite (dec_fold key a n Ha Hk dkey Hd) by lia.
  rewrite (dec_step key a n Ha Hk dkey Hd) by lia.
  rewrite dec_enc_last by (apply (round_in_ok key a n); auto; lia).
  cbn [round_in]. apply xor_list_invol. destruct Ha as [-> _], (Hk 0%nat ltac:(lia)) as [-> _]. lia.
Qed.

(** ** The key schedule *)

Definition word_ok (w : list Z) : Prop := length w = 4%nat /\ bytes w.

(** The words below [n] have been written. *)
Definition words_ok (n : nat) (k : list (list Z)) : Prop := forall i, (i < n)%nat -> word_ok (kw k i).

(** FIPS 197, section 5.2: the words of the expanded key, from the [Nk] words of
    the cipher key. *)
Definition sub_rot_word (w : list Z) (rc : Z) : list Z :=
  [Z.lxor (fips_sbox w.[1]) rc; fips_sbox w.[2]; fips_sbox w.[3]; fips_sbox w.[0]].

Definition fips_next (Nk : nat) (K ws : list (list Z)) (i : nat) : list Z :=
  if (i <? Nk)%nat then kw K i
  else
    let prev := kw ws (i - 1) in
    xor_list (kw ws (i - Nk))
      (if (i mod Nk =? 0)%nat then sub_rot_word prev (Nat.iter (i / Nk - 1) xtime 1)
       else if (6 <? Nk)%nat && (i mod Nk =? 4)%nat then map fips_sbox prev
       else prev).

Fixpoint fips_words (Nk : nat) (K : list (list Z)) (n : nat) : list (list Z) :=
  match n with
  | O => []
  | S n => let ws := fips_words Nk K n in ws ++ [fips_next Nk K ws n]
  end.

Definition fips_word (Nk : nat) (K : list (list Z)) (i : nat) : list Z := kw (fips_words Nk K (S i)) i.

Lemma length_fips_words Nk K n : length (fips_words Nk K n) = n.
Proof. induction n as [|n IH]; [reflexivity|]. cbn [fips_words]. rewrite length_app, IH. cbn. lia. Qed.

Lemma kw_fips_words Nk K n i : (i < n)%nat -> kw (fips_words Nk K n) i = fips_word Nk K i.
Proof.
  induction n as [|n IH]; intros Hi; [lia|]. destruct (Nat.eq_dec i n) as [->|Hn]; [reflexivity|].
  cbn [fips_words]. unfold kw. rewrite app_nth1 by (rewrite length_fips_words; lia). apply IH. lia.
Qed.

Lemma fips_word_key Nk K i : (i < Nk)%nat -> fips_word Nk K i = kw K i.
Proof.
  intros Hi. unfold fips_word, kw at 1. cbn [fips_words].
  rewrite app_nth2; rewrite length_fips_words; [|lia]. rewrite Nat.sub_diag. cbn [nth].
  unfold fips_next. destruct (Nat.ltb_spec i Nk); [reflexivity|lia].
Qed.

Lemma fips_word_rec Nk K i :
  (0 < Nk <= i)%nat ->
  fips_word Nk K i =
  xor_list (fips_word Nk K (i - Nk))
    (if (i mod Nk =? 0)%nat then sub_rot_word (fips_word Nk K (i - 1)) (Nat.iter (i / Nk - 1) xtime 1)
     else if (6 <? Nk)%nat && (i mod Nk =? 4)%nat then map fips_sbox (fips_word Nk K (i - 1))
     else fips_word Nk K (i - 1)).
Proof.
  intros Hi. unfold fips_word at 1, kw at 1. cbn [fips_words].
  rewrite app_nth2; rewrite length_fips_words; [|lia]. rewrite Nat.sub_diag. cbn [nth].
  unfold fips_next. destruct (Nat.ltb_spec i Nk); [lia|].
  now rewrite !kw_fips_words by lia.
Qed.

(** Generic facts on arrays of words. *)
Lemma kw_upd_eq k i w : (i < length k)%nat -> kw (upd_word k i w) i = w.
Proof. unfold kw, upd_word. revert i; induction k as [|x k IH]; intros [|i] H; cbn in *; auto; try lia. apply IH. lia. Qed.

Lemma kw_upd_ne k i j w : i <> j -> kw (upd_word k i w) j = kw k j.
Proof. unfold kw, upd_word. revert i j; induction k as [|x k IH]; intros [|i] [|j] H; cbn; auto; try lia. Qed.

Lemma length_upd_word k i w : length (upd_word k i w) = length k.
Proof. apply length_upd. Qed.

Lemma kw_firstn k n i : (i < n)%nat -> kw (firstn n k) i = kw k i.
Proof.
  unfold kw. revert n i; induction k as [|x k IH]; intros [|n] [|i] H; cbn; auto; try lia.
  apply IH. lia.
Qed.

(** The copying loop moves as many words as remain on both sides. *)
Lemma ks_copy_spec fuel : forall j cols r t rounds tk ek,
  (cols - j <= fuel)%nat -> (t < 4)%nat -> (r <= S rounds)%nat -> (r = S rounds -> t = 0)%nat ->
  (4 * S rounds <= length ek)%nat ->
  let p := (4 * r + t)%nat in
  let m := Nat.min (cols - j) (4 * S rounds - p) in
  exists r' t' ek',
    ks_copy fuel j cols r t rounds tk ek = (r', t', ek') /\
    (4 * r' + t' = p + m)%nat /\ (t' < 4)%nat /\ (r' <= S rounds)%nat /\ (r' = S rounds -> t' = 0)%nat /\
    length ek' = length ek /\
    (forall i, (p <= i < p + m)%nat -> kw ek' i = kw tk (j + (i - p))) /\
    (forall i, ~ (p <= i < p + m)%nat -> kw ek' i = kw ek i).
Proof.
  induction fuel as [|fuel IH]; intros j cols r t rounds tk ek Hf Ht Hr Hrt Hl p m; cbn [ks_copy].
  - exists r, t, ek. subst m. repeat split; auto; try lia; intros i Hi; lia.
  - destruct (Nat.ltb_spec j cols) as [Hj|Hj]; cbn [andb].
    2: { exists r, t, ek. subst m. repeat split; auto; try lia; intros i Hi; lia. }
    destruct (Nat.leb_spec r rounds) as [Hrr|Hrr].
    2: { exists r, t, ek. subst m p. repeat split; auto; try lia; intros i Hi; lia. }
    set (ek1 := upd_word ek (4 * r + t) (kw tk j)).
    set (rt := if (t + 1 =? 4)%nat then (S r, 0%nat) else (r, (t + 1)%nat)).
    assert (Hrt1 : (4 * fst rt + snd rt = p + 1)%nat /\ (snd rt < 4)%nat /\ (fst rt <= S rounds)%nat /\
                   (fst rt = S rounds -> snd rt = 0)%nat).
    { subst rt p. destruct (Nat.eqb_spec (t + 1) 4); cbn [fst snd]; lia. }
    destruct rt as [r1 t1]. cbn [fst snd] in Hrt1. destruct Hrt1 as (E1 & E2 & E3 & E4).
    destruct (IH (S j) cols r1 t1 rounds tk ek1) as (r' & t' & ek' & -> & F1 & F2 & F3 & F4 & F5 & F6 & F7);
      auto; try lia; [subst ek1; rewrite length_upd_word; lia|].
    exists r', t', ek'. subst m. repeat split; auto; try lia.
    + subst ek1. rewrite length_upd_word in F5. lia.
    + intros i Hi. destruct (Nat.eq_dec i p) as [->|Hn].
      * rewrite F7 by lia. subst ek1. rewrite kw_upd_eq by lia. f_equal. lia.
      * rewrite F6 by lia. f_equal. lia.
    + intros i Hi. rewrite F7 by lia. subst ek1. apply kw_upd_ne. lia.
Qed.

(** The chaining loop. *)
Lemma ks_chain_spec tk from n :
  (1 <= from)%nat -> (from + n <= length tk)%nat ->
  let tk' := ks_chain tk from (from + n) in
  length tk' = length tk /\
  (forall i, ~ (from <= i < from + n)%nat -> kw tk' i = kw tk i) /\
  (forall i, (from <= i < from + n)%nat -> kw tk' i = xor_list (kw tk i) (kw tk' (i - 1))).
Proof.
  intros Hf. unfold ks_chain. replace (from + n - from)%nat with n by lia.
  induction n as [|n IH]; intros Hl; cbn zeta.
  - cbn. repeat split; auto; intros i Hi; lia.
  - rewrite seq_S, fold_left_app. cbn [fold_left]. destruct IH as (I1 & I2 & I3); [lia|].
    cbn zeta in *. set (tk' := fold_left _ (seq from n) tk) in *.
    split; [rewrite length_upd_word; auto|]. split.
    + intros i Hi. rewrite kw_upd_ne by lia. apply I2. lia.
    + intros i Hi. destruct (Nat.eq_dec i (from + n)) as [->|Hn].
      * rewrite kw_upd_eq, kw_upd_ne by lia. rewrite (I2 (from + n)%nat) by lia. reflexivity.
      * rewrite !kw_upd_ne by lia. apply I3. lia.
Qed.

Lemma map_sbox w : bytes w -> map (at_ Sbox) w = map fips_sbox w.
Proof.
  intros H. apply map_ext_in. intros x Hx. apply Sbox_fips. unfold bytes in H.
  rewrite Forall_forall in H. auto.
Qed.

Lemma rcon_fips n : (n < 30)%nat -> rcon.[n] = Nat.iter n xtime 1.
Proof.
  intros Hn.
  assert (H : forallb (fun n => rcon.[n] =? Nat.iter n xtime 1) (seq 0 30) = true)
    by (vm_compute; reflexivity).
  rewrite forallb_forall in H. specialize (H n (proj2 (in_seq 30 0 n) ltac:(lia))). lia.
Qed.

Lemma xtime_byte x : is_byte x -> is_byte (xtime x).
Proof.
  intros H. assert (E : (0 <=? xtime x) && (xtime x <? 256) = true).
  { revert x H. apply forall_bytes. vm_compute. reflexivity. }
  unfold is_byte. lia.
Qed.

Lemma fips_sbox_byte x : is_byte x -> is_byte (fips_sbox x).
Proof. intros H. rewrite <- Sbox_fips by assumption. apply Sbox_byte, H. Qed.

Lemma iter_xtime_byte n : is_byte (Nat.iter n xtime 1).
Proof. induction n as [|n IH]; [cbv; split; congruence|]. cbn [Nat.iter]. apply xtime_byte, IH. Qed.

Lemma word_xor a b : word_ok a -> word_ok b -> word_ok (xor_list a b).
Proof. intros [La Ba] [Lb Bb]. split; [rewrite length_xor_list; lia|auto with words]. Qed.

Ltac word4 w H :=
  let L := fresh in let B := fresh in
  destruct H as [L B]; do 5 (destruct w as [|? w]; try discriminate L); clear L;
  unfold bytes in B; repeat match goal with X : Forall _ (_ :: _) |- _ => inversion X; subst; clear X end.

Lemma word_sub w : word_ok w -> word_ok (map fips_sbox w).
Proof.
  intros [L B]. split; [now rewrite length_map|]. apply Forall_map.
  eapply Forall_impl; [|exact B]. intros x Hx. apply fips_sbox_byte, Hx.
Qed.

Lemma word_sub_rot w rc : word_ok w -> is_byte rc -> word_ok (sub_rot_word w rc).
Proof.
  intros H Hr. word4 w H. split; [reflexivity|]. unfold sub_rot_word. cbn [nth].
  repeat (apply Forall_cons || apply Forall_nil); auto using lxor_byte, fips_sbox_byte.
Qed.

Section Schedule.
Context (Nk : nat) (K : list (list Z)).
Hypothesis (HNk : Nk = 4%nat \/ Nk = 6%nat \/ Nk = 8%nat) (HK : words_ok Nk K).

Lemma fips_word_ok i : word_ok (fips_word Nk K i).
Proof.
  induction i as [i IH] using (well_founded_induction lt_wf).
  destruct (Nat.lt_ge_cases i Nk) as [Hi|Hi]; [rewrite fips_word_key by auto; apply HK, Hi|].
  rewrite fips_word_rec by lia. apply word_xor; [apply IH; lia|].
  pose proof (IH (i - 1)%nat ltac:(lia)) as Hp.
  destruct (_ =? 0)%nat; [apply word_sub_rot; auto using iter_xtime_byte|].
  destruct (_ && _); auto using word_sub.
Qed.

(** The words of turn [n] of the schedule. *)
Definition turn_words (n : nat) (tk : list (list Z)) : Prop :=
  length tk = Nk /\ forall j, (j < Nk)%nat -> kw tk j = fips_word Nk K (Nk * n + j).

Lemma ks_first n tk :
  (n < 30)%nat -> turn_words n tk ->
  let prev := kw tk (Nk - 1) in let w0 := kw tk 0 in
  [Z.lxor (Z.lxor w0.[0] (at_ Sbox prev.[1])) rcon.[n]; Z.lxor w0.[1] (at_ Sbox prev.[2]);
   Z.lxor w0.[2] (at_ Sbox prev.[3]); Z.lxor w0.[3] (at_ Sbox prev.[0])] =
  fips_word Nk K (Nk * S n).
Proof.
  intros Hn [Hl Ht] prev w0. rewrite fips_word_rec by nia.
  replace (Nk * S n)%nat with (S n * Nk)%nat by lia.
  rewrite Nat.Div0.mod_mul, Nat.div_mul by lia. cbn [Nat.eqb].
  replace (S n - 1)%nat with n by lia. rewrite <- rcon_fips by auto.
  replace (S n * Nk - Nk)%nat with (Nk * n + 0)%nat by nia.
  replace (S n * Nk - 1)%nat with (Nk * n + (Nk - 1))%nat by nia.
  rewrite <- !Ht by lia. fold prev w0.
  assert (Hp : word_ok prev) by (subst prev; rewrite Ht by lia; apply fips_word_ok).
  assert (Hw : word_ok w0) by (subst w0; rewrite Ht by lia; apply fips_word_ok).
  clearbody prev w0. word4 prev Hp. word4 w0 Hw. unfold sub_rot_word. cbn [nth].
  rewrite !Sbox_fips by assumption. unfold xor_list. cbn [combine map fst snd].
  now rewrite Z.lxor_assoc.
Qed.

Lemma fips_word_plain n j :
  (1 <= j < Nk)%nat -> (Nk = 8 -> j <> 4)%nat ->
  fips_word Nk K (Nk * S n + j) =
  xor_list (fips_word Nk K (Nk * n + j)) (fips_word Nk K (Nk * S n + (j - 1))).
Proof.
  intros Hj H8. rewrite fips_word_rec by nia.
  replace ((Nk * S n + j) mod Nk)%nat with j
    by (rewrite Nat.mul_comm, Nat.add_comm, Nat.Div0.mod_add, Nat.mod_small; lia).
  destruct (Nat.eqb_spec j 0); [lia|].
  replace ((6 <? Nk) && (j =? 4))%nat with false
    by (destruct (Nat.ltb_spec 6 Nk), (Nat.eqb_spec j 4); cbn [andb]; lia).
  f_equal; f_equal; nia.
Qed.

Lemma fips_word_mid n :
  Nk = 8%nat ->
  fips_word Nk K (Nk * S n + 4) =
  xor_list (fips_word Nk K (Nk * n + 4)) (map fips_sbox (fips_word Nk K (Nk * S n + 3))).
Proof.
  intros H8. rewrite fips_word_rec by nia.
  replace ((Nk * S n + 4) mod Nk)%nat with 4%nat
    by (rewrite Nat.mul_comm, Nat.add_comm, Nat.Div0.mod_add, Nat.mod_small; lia).
  replace ((6 <? Nk) && (4 =? 4))%nat with true by (rewrite H8; reflexivity). cbn [Nat.eqb].
  f_equal; f_equal; try (f_equal; nia); nia.
Qed.

Lemma ks_chain_turn n tk from upto :
  (1 <= from <= upto)%nat -> (upto <= Nk)%nat -> length tk = Nk ->
  (Nk = 8 -> ~ from <= 4 < upto)%nat ->
  (forall j, (j < from)%nat -> kw tk j = fips_word Nk K (Nk * S n + j)) ->
  (forall j, (from <= j < Nk)%nat -> kw tk j = fips_word Nk K (Nk * n + j)) ->
  let tk' := ks_chain tk from upto in
  length tk' = Nk /\
  (forall j, (j < upto)%nat -> kw tk' j = fips_word Nk K (Nk * S n + j)) /\
  (forall j, (upto <= j < Nk)%nat -> kw tk' j = fips_word Nk K (Nk * n + j)).
Proof.
  intros Hf Hu Hl H8 Hlo Hhi tk'.
  destruct (ks_chain_spec tk from (upto - from)) as (C1 & C2 & C3); [lia|lia|].
  replace (from + (upto - from))%nat with upto in * by lia. fold tk' in C1, C2, C3.
  split; [lia|]. split; [|intros j Hj; rewrite C2 by lia; apply Hhi; lia].
  induction j as [|j IH]; intros Hj; [rewrite C2 by lia; apply Hlo; lia|].
  destruct (Nat.lt_ge_cases (S j) from) as [H|H]; [rewrite C2 by lia; apply Hlo; lia|].
  rewrite C3, Hhi, fips_word_plain by lia. replace (S j - 1)%nat with j by lia. now rewrite IH by lia.
Qed.

Lemma ks_step_turn n tk :
  (n < 30)%nat -> turn_words n tk -> turn_words (S n) (ks_step Nk tk rcon.[n]).
Proof.
  intros Hn Ht. pose proof (ks_first n tk Hn Ht) as E. cbn zeta in E. destruct Ht as [Hl Ht].
  unfold ks_step. cbn zeta. rewrite E. clear E.
  set (tk1 := upd_word tk 0 _).
  assert (L1 : length tk1 = Nk) by (subst tk1; now rewrite length_upd_word).
  assert (Hlo : forall j, (j < 1)%nat -> kw tk1 j = fips_word Nk K (Nk * S n + j)).
  { intros j Hj. replace j with 0%nat by lia. subst tk1. rewrite kw_upd_eq by lia. f_equal. lia. }
  assert (Hhi : forall j, (1 <= j < Nk)%nat -> kw tk1 j = fips_word Nk K (Nk * n + j)).
  { intros j Hj. subst tk1. rewrite kw_upd_ne by lia. apply Ht. lia. }
  destruct (Nat.eqb_spec Nk 8) as [H8|H8]; cbn [negb].
  - replace (Nk / 2)%nat with 4%nat by (rewrite H8; reflexivity).
    destruct (ks_chain_turn n tk1 1 4) as (A1 & A2 & A3); auto; try lia.
    set (tk2 := ks_chain tk1 1 4) in *. cbn [Nat.sub Nat.add].
    rewrite (A2 3%nat), (A3 4%nat) by lia.
    unfold sub_word. rewrite map_sbox by apply fips_word_ok. rewrite <- fips_word_mid by auto.
    set (tk3 := upd_word tk2 4 _).
    destruct (ks_chain_turn n tk3 5 Nk) as (B1 & B2 & B3); try lia.
    + subst tk3. now rewrite length_upd_word.
    + intros j Hj. subst tk3. destruct (Nat.eq_dec j 4) as [->|Hj4];
        [apply kw_upd_eq; lia|rewrite kw_upd_ne by lia; apply A2; lia].
    + intros j Hj. subst tk3. rewrite kw_upd_ne by lia. apply A3. lia.
    + split; [exact B1|exact B2].
  - destruct (ks_chain_turn n tk1 1 Nk) as (A1 & A2 & A3); auto; try lia. now split.
Qed.

(** The schedule loop, from turn [n]: position [4 * r + t] counts the words written. *)
Lemma ks_loop_spec fuel : forall n r t tk ek,
  let rounds := (Nk + 6)%nat in
  let total := (4 * S rounds)%nat in
  (30 <= fuel + n)%nat -> turn_words n tk -> length ek = 60%nat ->
  (t < 4)%nat -> (r <= S rounds)%nat -> (r = S rounds -> t = 0)%nat ->
  (4 * r + t = Nat.min (Nk * S n) total)%nat ->
  (forall i, (i < 4 * r + t)%nat -> kw ek i = fips_word Nk K i) ->
  let ek' := ks_loop fuel Nk n r t rounds tk ek in
  length ek' = 60%nat /\ forall i, (i < total)%nat -> kw ek' i = fips_word Nk K i.
Proof.
  induction fuel as [|fuel IH]; intros n r t tk ek rounds total Hf Ht Hl Ht4 Hr Hrt Hp Hw ek'; subst ek'.
  - cbn [ks_loop]. split; [exact Hl|]. intros i Hi. apply Hw. subst total rounds. nia.
  - cbn [ks_loop]. destruct (Nat.leb_spec r rounds) as [Hrr|Hrr].
    2: { split; [exact Hl|]. intros i Hi. apply Hw. lia. }
    assert (Hn : (n < 30)%nat) by (subst total rounds; nia).
    pose proof (ks_step_turn n tk Hn Ht) as Ht'.
    set (tk' := ks_step Nk tk _) in *.
    destruct (ks_copy_spec Nk 0 Nk r t rounds tk' ek)
      as (r' & t' & ek' & -> & F1 & F2 & F3 & F4 & F5 & F6 & F7); auto; try (subst rounds; lia).
    apply IH; auto; try lia.
    intros i Hi. destruct (Nat.lt_ge_cases i (4 * r + t)) as [H|H]; [rewrite F7 by lia; apply Hw, H|].
    rewrite F6 by lia. destruct Ht' as [_ Ht']. rewrite Ht' by lia. f_equal. subst total rounds. nia.
Qed.
End Schedule.

Lemma RijndaelKeySched_fips rij key Nk :
  (Nk = 4 \/ Nk = 6 \/ Nk = 8)%nat -> m_uRounds rij = (Nk + 6)%nat ->
  length (m_expandedKey rij) = 60%nat -> (Nk <= length key)%nat -> words_ok Nk key ->
  let rij' := RijndaelKeySched rij key in
  rij' = set_key (m_expandedKey rij') rij /\ length (m_expandedKey rij') = 60%nat /\
  forall i, (i < 4 * S (m_uRounds rij))%nat -> kw (m_expandedKey rij') i = fips_word Nk key i.
Proof.
  intros HNk Hr Hl Hk Hok. unfold RijndaelKeySched. rewrite Hr.
  replace (Nk + 6 - 6)%nat with Nk by lia.
  assert (Ht : turn_words Nk key 0 (firstn Nk key)).
  { split; [rewrite length_firstn; lia|]. intros j Hj. rewrite kw_firstn by auto.
    rewrite fips_word_key; [f_equal; lia|lia]. }
  destruct (ks_copy_spec Nk 0 Nk 0 0 (Nk + 6) (firstn Nk key) (m_expandedKey rij))
    as (r' & t' & ek' & -> & F1 & F2 & F3 & F4 & F5 & F6 & F7); try lia.
  destruct (ks_loop_spec Nk key HNk Hok 60 0 r' t' (firstn Nk key) ek') as [G1 G2]; auto; try lia.
  intros i Hi. rewrite F6 by lia. destruct Ht as [_ Ht]. rewrite Ht by lia. f_equal. lia.
Qed.

Lemma dec_word_mix w : word_ok w -> dec_word w = inv_mix_column w.[0] w.[1] w.[2] w.[3].
Proof.
  intros H. word4 w H. unfold dec_word, xor4, inv_mix_column. cbn [nth].
  repeat match goal with H : is_byte ?x |- _ =>
    let E := fresh in pose proof (row_U x H) as E; destruct E as (E1 & E2 & E3 & E4);
    rewrite ?E1, ?E2, ?E3, ?E4; clear E1 E2 E3 E4 H end.
  reflexivity.
Qed.

Lemma enc_to_dec_spec ek n :
  (4 * S n <= length ek)%nat ->
  let ek' := fold_left (fun ek r =>
      fold_left (fun ek t => upd_word ek (4 * r + t) (dec_word (kw ek (4 * r + t)))) (seq 0 4) ek)
    (seq 1 n) ek in
  length ek' = length ek /\
  forall i, kw ek' i = if (4 <=? i)%nat && (i <? 4 * S n)%nat then dec_word (kw ek i) else kw ek i.
Proof.
  induction n as [|n IH]; intros Hl; cbn zeta.
  - split; [reflexivity|]. intros i. destruct (Nat.leb_spec 4 i), (Nat.ltb_spec i (4 * 1)); cbn [andb]; auto; lia.
  - rewrite (seq_S n 1), fold_left_app. destruct IH as [I1 I2]; [lia|]. cbn zeta in *.
    set (ek1 := fold_left _ (seq 1 n) ek) in *. cbn [fold_left seq Nat.add].
    rewrite !length_upd_word. split; [exact I1|]. intros i.
    assert (C : (i < 4 * S n \/ i >= 4 * S n + 4 \/ i = 4 * S n + 0 \/ i = 4 * S n + 1 \/
                 i = 4 * S n + 2 \/ i = 4 * S n + 3)%nat) by lia.
    replace (4 * S (S n))%nat with (4 * S n + 4)%nat by lia. specialize (I2 i).
    destruct (Nat.leb_spec 4 i) as [H4|H4]; cbn [andb] in *;
    destruct (Nat.ltb_spec i (4 * S n)) as [H5|H5], (Nat.ltb_spec i (4 * S n + 4)); try lia.
    4: { rewrite !kw_upd_ne by lia. exact I2. }
    all: rewrite ?kw_upd_ne by lia; auto.
    destruct C as [?|[?|[->|[->|[->| ->]]]]]; try lia;
      repeat ((rewrite kw_upd_eq by (rewrite ?length_upd_word; lia)) || (rewrite kw_upd_ne by lia));
      now rewrite I2.
Qed.

(** ** AES *)

Definition fips_round_key (Nk : nat) (K : list (list Z)) (r : nat) : list Z :=
  fips_word Nk K (4 * r) ++ fips_word Nk K (4 * r + 1) ++ fips_word Nk K (4 * r + 2) ++
  fips_word Nk K (4 * r + 3).

(** AES of FIPS 197 with a key of [nbytes] bytes. *)
Definition fips_aes (nbytes : nat) (key a : list Z) : list Z :=
  let Nk := (nbytes / 4)%nat in
  fips_cipher (Nk + 6) (fips_round_key Nk (key_matrix key nbytes)) a.

Lemma key_params_sizes keyLen nbytes rounds :
  key_params keyLen = Some (nbytes, rounds) ->
  let Nk := (nbytes / 4)%nat in
  ((Nk = 4 \/ Nk = 6 \/ Nk = 8) /\ nbytes = 4 * Nk /\ rounds = Nk + 6)%nat.
Proof.
  unfold key_params. intros H.
  repeat (destruct (_ =? _); [injection H as <- <-; cbn; lia|]). discriminate.
Qed.

Lemma key_matrix_ok key n :
  bytes key -> (4 * n <= length key)%nat ->
  length (key_matrix key (4 * n)) = n /\ words_ok n (key_matrix key (4 * n)).
Proof.
  intros Hb Hl. unfold key_matrix. rewrite (Nat.mul_comm 4 n), Nat.div_mul by lia.
  split; [now rewrite length_map, length_seq|]. intros i Hi. unfold kw.
  rewrite (nth_indep _ [] (slice key (4 * 0) 4)) by (rewrite length_map, length_seq; lia).
  rewrite (map_nth (fun j => slice key (4 * j) 4)), seq_nth by lia.
  split; [rewrite length_slice; lia|auto with words].
Qed.

Lemma round_key_ok ek r : words_ok (4 * S r) ek -> state_ok (round_key ek r).
Proof.
  intros H. unfold round_key. split.
  - rewrite !length_app. rewrite !(fun i Hi => proj1 (H i Hi)) by lia. reflexivity.
  - rewrite !bytes_app. repeat split; apply H; lia.
Qed.

Lemma round_key_dec ek ek' r :
  words_ok (4 * S r) ek -> (forall i, (4 * r <= i < 4 * S r)%nat -> kw ek' i = dec_word (kw ek i)) ->
  round_key ek' r = columns inv_mix_column (round_key ek r).
Proof.
  intros H E. unfold round_key. rewrite columns_app by (apply H; lia).
  rewrite !E by lia. now rewrite !dec_word_mix by (apply H; lia).
Qed.

(** What a pair of initialisations with the same key gives. *)
Definition key_pair (nbytes : nat) (key : list Z) (re rd : Rijndael) : Prop :=
  (forall b, length (RijndaelEncrypt re b) = 16%nat) /\
  (forall b, length (RijndaelDecrypt rd b) = 16%nat) /\
  forall a, state_ok a ->
    RijndaelEncrypt re a = fips_aes nbytes key a /\ state_ok (RijndaelEncrypt re a) /\
    RijndaelDecrypt rd (RijndaelEncrypt re a) = a.

Definition mode_ok (mode : Z) : Prop := mode = Mode_ECB \/ mode = Mode_CBC \/ mode = Mode_CFB1.

Lemma RijndaelInit_spec rij mode dir key keyLen iv nbytes rounds :
  mode_ok mode -> dir = Direction_Encrypt \/ dir = Direction_Decrypt ->
  key_params keyLen = Some (nbytes, rounds) ->
  let ivv := match iv with Some v => firstn 16 v | None => memset 0 16 end in
  let r0 := RijndaelKeySched (mk_rijndael State_Invalid mode dir ivv rounds (m_expandedKey rij))
              (key_matrix key nbytes) in
  RijndaelInit rij mode dir (Some key) keyLen iv =
  (RIJNDAEL_SUCCESS, set_state State_Valid (if dir =? Direction_Decrypt then RijndaelKeyEncToDec r0 else r0)).
Proof.
  intros Hm Hd Hk ivv r0. unfold RijndaelInit. rewrite Hk.
  replace (negb (mode =? Mode_CBC) && negb (mode =? Mode_ECB) && negb (mode =? Mode_CFB1)) with false
    by (destruct Hm as [->|[->| ->]]; reflexivity).
  replace (negb (dir =? Direction_Encrypt) && negb (dir =? Direction_Decrypt)) with false
    by (destruct Hd as [->| ->]; reflexivity).
  reflexivity.
Qed.

Lemma RijndaelKeySched_fields rij key :
  let r := RijndaelKeySched rij key in
  m_mode r = m_mode rij /\ m_direction r = m_direction rij /\ m_initVector r = m_initVector rij.
Proof. unfold RijndaelKeySched. destruct (ks_copy _ _ _ _ _ _ _ _) as [[r t] ek]. repeat split. Qed.

Lemma RijndaelInit_fields rij mode dir key keyLen iv nbytes rounds r :
  mode_ok mode -> dir = Direction_Encrypt \/ dir = Direction_Decrypt ->
  key_params keyLen = Some (nbytes, rounds) ->
  RijndaelInit rij mode dir (Some key) keyLen iv = (RIJNDAEL_SUCCESS, r) ->
  m_state r = State_Valid /\ m_mode r = mode /\ m_direction r = dir /\
  m_initVector r = match iv with Some v => firstn 16 v | None => memset 0 16 end.
Proof.
  intros Hm Hd Hk H. rewrite (RijndaelInit_spec rij mode dir key keyLen iv nbytes rounds) in H by auto.
  apply (f_equal snd) in H. cbn [snd] in H. subst r.
  destruct (RijndaelKeySched_fields
    (mk_rijndael State_Invalid mode dir (match iv with Some v => firstn 16 v | None => memset 0 16 end)
       rounds (m_expandedKey rij)) (key_matrix key nbytes)) as (E1 & E2 & E3).
  destruct (dir =? Direction_Decrypt); cbn [m_state m_mode m_direction m_initVector set_state set_key
    RijndaelKeyEncToDec]; auto.
Qed.

(** The size of the key array never changes. *)
Lemma ks_copy_length fuel : forall j cols r t rounds tk ek,
  length (snd (ks_copy fuel j cols r t rounds tk ek)) = length ek.
Proof.
  induction fuel as [|fuel IH]; intros; cbn [ks_copy]; [reflexivity|].
  destruct (_ && _); [|reflexivity]. destruct (t + 1 =? 4)%nat; rewrite IH; apply length_upd_word.
Qed.

Lemma ks_loop_length fuel : forall cols rp r t rounds tk ek,
  length (ks_loop fuel cols rp r t rounds tk ek) = length ek.
Proof.
  induction fuel as [|fuel IH]; intros; cbn [ks_loop]; [reflexivity|].
  destruct (_ <=? _)%nat; [|reflexivity]. pose proof (ks_copy_length cols 0 cols r t rounds
    (ks_step cols tk rcon.[rp]) ek) as L.
  destruct (ks_copy _ _ _ _ _ _ _ _) as [[r' t'] ek']. cbn [snd] in L. now rewrite IH.
Qed.

Lemma fold_length {A B} (f : list A -> B -> list A) l a :
  (forall a b, length (f a b) = length a) -> length (fold_left f l a) = length a.
Proof. intros H. revert a. induction l as [|b l IH]; intros a; [reflexivity|]. cbn [fold_left]. now rewrite IH. Qed.

Lemma RijndaelInit_length rij mode dir key keyLen iv :
  length (m_expandedKey (snd (RijndaelInit rij mode dir key keyLen iv))) = length (m_expandedKey rij).
Proof.
  unfold RijndaelInit. destruct (_ && _ && _); [reflexivity|]. destruct (_ && _); [reflexivity|].
  destruct (key_params keyLen) as [[nbytes rounds]|]; [|reflexivity]. destruct key as [key|]; [|reflexivity].
  set (r0 := mk_rijndael _ _ _ _ _ _).
  assert (E : length (m_expandedKey (RijndaelKeySched r0 (key_matrix key nbytes))) = length (m_expandedKey rij)).
  { unfold RijndaelKeySched.
    pose proof (ks_copy_length (m_uRounds r0 - 6) 0 (m_uRounds r0 - 6) 0 0 (m_uRounds r0)
      (firstn (m_uRounds r0 - 6) (key_matrix key nbytes)) (m_expandedKey r0)) as L.
    destruct (ks_copy _ _ _ _ _ _ _ _) as [[r t] ek]. cbn [snd] in L.
    cbn [m_expandedKey set_key]. rewrite ks_loop_length, L. reflexivity. }
  cbn [snd m_expandedKey set_state]. destruct (dir =? Direction_Decrypt); [|exact E].
  cbn [m_expandedKey RijndaelKeyEncToDec set_key]. rewrite fold_length; [exact E|].
  intros. apply fold_length. intros. apply length_upd_word.
Qed.

Lemma fips_round_key_ext (key key' : nat -> list Z) rounds a :
  (1 <= rounds)%nat -> (forall r, (r <= rounds)%nat -> key r = key' r) ->
  fips_cipher rounds key a = fips_cipher rounds key' a.
Proof.
  intros H1 H. unfold fips_cipher. rewrite !H by lia. f_equal. f_equal. f_equal.
  apply fold_left_ext_in. intros s r Hr. apply in_seq in Hr. rewrite H by lia. reflexivity.
Qed.

Lemma key_pair_words Nk key re rd :
  let K := key_matrix key (4 * Nk) in let rounds := (Nk + 6)%nat in
  (Nk = 4 \/ Nk = 6 \/ Nk = 8)%nat -> words_ok Nk K ->
  m_uRounds re = rounds -> m_uRounds rd = rounds ->
  (forall i, (i < 4 * S rounds)%nat -> kw (m_expandedKey re) i = fips_word Nk K i) ->
  (forall i, (i < 4 * S rounds)%nat -> kw (m_expandedKey rd) i =
     if (4 <=? i)%nat && (i <? 4 * rounds)%nat then dec_word (fips_word Nk K i) else fips_word Nk K i) ->
  key_pair (4 * Nk) key re rd.
Proof.
  intros K rounds HNk HK Hre Hrd He Hd.
  assert (Hok : words_ok (4 * S rounds) (m_expandedKey re)).
  { intros i Hi. rewrite He by auto. apply fips_word_ok; auto. }
  assert (Hrk : forall r, (r <= rounds)%nat -> state_ok (round_key (m_expandedKey re) r)).
  { intros r Hr. apply round_key_ok. intros i Hi. apply Hok. lia. }
  assert (Hend : forall r, (r = 0 \/ r = rounds)%nat ->
            round_key (m_expandedKey rd) r = round_key (m_expandedKey re) r).
  { intros r Hr. unfold round_key. rewrite !Hd, !He by (subst rounds; lia).
    destruct Hr as [-> | ->]; [reflexivity|].
    rewrite !(proj2 (Nat.ltb_ge _ _)) by lia. now rewrite !andb_false_r. }
  assert (Hmid : forall r, (1 <= r < rounds)%nat ->
            round_key (m_expandedKey rd) r = columns inv_mix_column (round_key (m_expandedKey re) r)).
  { intros r Hr. apply round_key_dec; [intros i Hi; apply Hok; lia|].
    intros i Hi. rewrite Hd, He by lia.
    now rewrite (proj2 (Nat.leb_le _ _)), (proj2 (Nat.ltb_lt _ _)) by lia. }
  split.
  { intros b. unfold RijndaelEncrypt. rewrite length_xor_list, Hre.
    now rewrite (proj1 (Hrk rounds ltac:(lia))). }
  split.
  { intros b. unfold RijndaelDecrypt. rewrite length_xor_list, (Hend 0%nat) by auto.
    now rewrite (proj1 (Hrk 0%nat ltac:(lia))). }
  intros a Ha. destruct (RijndaelDecrypt_Encrypt re rd a) as [G1 G2]; rewrite ?Hre; auto; try (subst rounds; lia).
  split; [|now split]. rewrite RijndaelEncrypt_fips by (rewrite ?Hre; auto; subst rounds; lia).
  unfold fips_aes. rewrite (Nat.mul_comm 4 Nk), Nat.div_mul, (Nat.mul_comm Nk 4), Hre by lia.
  apply fips_round_key_ext; [subst rounds; lia|]. intros r Hr. unfold round_key, fips_round_key.
  now rewrite !He by lia.
Qed.

Lemma key_pair_init rij rij' mode keyLen nbytes rounds key iv iv' :
  length (m_expandedKey rij) = 60%nat -> length (m_expandedKey rij') = 60%nat -> mode_ok mode ->
  key_params keyLen = Some (nbytes, rounds) -> bytes key -> (nbytes <= length key)%nat ->
  exists re rd,
    RijndaelInit rij mode Direction_Encrypt (Some key) keyLen iv = (RIJNDAEL_SUCCESS, re) /\
    RijndaelInit rij' mode Direction_Decrypt (Some key) keyLen iv' = (RIJNDAEL_SUCCESS, rd) /\
    key_pair nbytes key re rd.
Proof.
  intros Hl Hl' Hm Hk Hb Hlen.
  rewrite (RijndaelInit_spec rij mode _ key keyLen iv nbytes rounds) by auto.
  rewrite (RijndaelInit_spec rij' mode _ key keyLen iv' nbytes rounds) by auto.
  eexists. eexists. split; [reflexivity|]. split; [reflexivity|].
  change (Direction_Decrypt =? Direction_Decrypt) with true.
  change (Direction_Encrypt =? Direction_Decrypt) with false. cbv iota.
  destruct (key_params_sizes _ _ _ Hk) as (HNk & Hn & Hr).
  set (Nk := (nbytes / 4)%nat) in *. rewrite Hn in *.
  destruct (key_matrix_ok key Nk Hb Hlen) as [ML MO]. set (K := key_matrix key (4 * Nk)) in *.
  set (e0 := mk_rijndael _ _ Direction_Encrypt _ _ _). set (d0 := mk_rijndael _ _ Direction_Decrypt _ _ _).
  destruct (RijndaelKeySched_fips e0 K Nk HNk Hr Hl ltac:(lia) MO) as (E1 & E2 & E3).
  destruct (RijndaelKeySched_fips d0 K Nk HNk Hr Hl' ltac:(lia) MO) as (D1 & D2 & D3).
  cbn zeta in *. cbn [m_uRounds e0 d0] in E3, D3.
  set (re := RijndaelKeySched e0 K) in *. set (rd := RijndaelKeySched d0 K) in *.
  apply key_pair_words; auto.
  - cbn [m_uRounds set_state]. rewrite E1. exact Hr.
  - cbn [m_uRounds set_state RijndaelKeyEncToDec set_key]. rewrite D1. exact Hr.
  - intros i Hi. apply E3. rewrite Hr. exact Hi.
  - intros i Hi. cbn [m_expandedKey set_state RijndaelKeyEncToDec set_key].
    replace (m_uRounds rd) with rounds by (rewrite D1; reflexivity).
    destruct (enc_to_dec_spec (m_expandedKey rd) (rounds - 1)) as [_ ->]; [lia|].
    replace (4 * S (rounds - 1))%nat with (4 * (Nk + 6))%nat by lia. now rewrite D3 by lia.
Qed.

(** The table-driven AES of the code is AES as FIPS 197 defines it, for keys
    of 16, 24 and 32 bytes: initialising two objects with the same key, for
    encryption and for decryption, succeeds in every mode; [RijndaelEncrypt] then
    computes the cipher of the standard (substitution by inversion in the field of
    256 elements and the affine map, row shift, column mix, and the round keys of
    the standard's key expansion), and [RijndaelDecrypt] undoes it on every block. *)
Theorem rijndael_is_aes rij rij' mode keyLen nbytes rounds key iv iv' a :
  length (m_expandedKey rij) = 60%nat -> length (m_expandedKey rij') = 60%nat -> mode_ok mode ->
  key_params keyLen = Some (nbytes, rounds) -> bytes key -> (nbytes <= length key)%nat ->
  state_ok a ->
  exists re rd,
    RijndaelInit rij mode Direction_Encrypt (Some key) keyLen iv = (RIJNDAEL_SUCCESS, re) /\
    RijndaelInit rij' mode Direction_Decrypt (Some key) keyLen iv' = (RIJNDAEL_SUCCESS, rd) /\
    RijndaelEncrypt re a = fips_aes nbytes key a /\
    RijndaelDecrypt rd (RijndaelEncrypt re a) = a.
Proof.
  intros Hl Hl' Hm Hk Hb Hlen Ha.
  destruct (key_pair_init rij rij' mode keyLen nbytes rounds key iv iv') as (re & rd & Ee & Ed & H); auto.
  destruct (proj2 (proj2 H) a Ha) as (H1 & H2 & H3). exists re, rd. auto.
Qed.


Lemma rijndael_is_aes_witness :
  exists re rd,
    RijndaelInit rijndael0 Mode_CBC Direction_Encrypt (Some (map Z.of_nat (seq 0 16))) Key16Bytes None =
      (RIJNDAEL_SUCCESS, re) /\
    RijndaelInit rijndael0 Mode_CBC Direction_Decrypt (Some (map Z.of_nat (seq 0 16))) Key16Bytes None =
      (RIJNDAEL_SUCCESS, rd) /\
    RijndaelEncrypt re (memset 7 16) = fips_aes 16 (map Z.of_nat (seq 0 16)) (memset 7 16) /\
    RijndaelDecrypt rd (RijndaelEncrypt re (memset 7 16)) = memset 7 16.
Proof.
  apply (rijndael_is_aes rijndael0 rijndael0 Mode_CBC Key16Bytes 16 10).
  - reflexivity.
  - reflexivity.
  - right. left. reflexivity.
  - reflexivity.
  - apply bytesb_bytes. reflexivity.
  - cbn. lia.
  - split; [reflexivity|]. apply bytesb_bytes. reflexivity.
Defined.
