(* ===== verification/RijndaelModes.v ===== *)
(** * The modes of the AES object (rijndael.c)

    [RijndaelBlockEncrypt], [RijndaelBlockDecrypt], [RijndaelPadEncrypt] and
    [RijndaelPadDecrypt].  The buffers live in one array of bytes, [mem], and the
    pointer arguments are positions in it, so that a call with equal input and
    output (how the page ciphers call these functions) and a call with disjoint
    buffers are both instances.  Word-wise copies and exclusive ors are written as
    operations on sixteen bytes.  The software path is modelled; the processor
    instructions behind [aesHardwareAvailable] are not.

    In CBC mode the code handles a message whose length is not a multiple of
    sixteen by ciphertext stealing.  A message shorter than one block makes it
    access bytes outside the buffers: the result is then [None]. *)

From Stdlib Require Import ZArith Lia List Bool.
From S2P Require Import Prelude RijndaelTables Rijndael.
Import ListNotations.
Local Open Scope Z_scope.

(** ** Loops shared by the modes *)

(** [for (i = n; i > 0; i--) { f(input, outBuffer); input += 16; outBuffer += 16; }] *)
Fixpoint ecb_loop (f : list Z -> list Z) (n input outBuffer : nat) (mem : list Z) : list Z :=
  match n with
  | O => mem
  | S n => ecb_loop f n (input + 16) (outBuffer + 16)
             (memcpy mem outBuffer (f (slice mem input 16)))
  end.

(** The CBC encryption loop: the chaining value is read back from [outBuffer]. *)
Fixpoint cbc_enc_loop (f : list Z -> list Z) (n input outBuffer : nat) (mem : list Z) : list Z :=
  match n with
  | O => mem
  | S n =>
      let block := xor_list (slice mem outBuffer 16) (slice mem input 16) in
      cbc_enc_loop f n (input + 16) (outBuffer + 16) (memcpy mem (outBuffer + 16) (f block))
  end.

(** The CBC decryption loop: the chaining value is a copy of the ciphertext block.
    The final chaining value is returned with the memory. *)
Fixpoint cbc_dec_loop (f : list Z -> list Z) (n input outBuffer : nat) (iv mem : list Z)
    : list Z * list Z :=
  match n with
  | O => (iv, mem)
  | S n =>
      let block := xor_list (f (slice mem input 16)) iv in
      cbc_dec_loop f n (input + 16) (outBuffer + 16) (slice mem input 16) (memcpy mem outBuffer block)
  end.

(** The sixteen shift assignments of CFB1: [iv] moves left by one bit, [b] enters. *)
Definition cfb1_shift (iv : list Z) (b : Z) : list Z :=
  map (fun i => u8 (Z.lor (Z.shiftl iv.[i] 1) (if (i =? 15)%nat then b else Z.shiftr iv.[S i] 7)))
    (seq 0 16).

(** [(buf[k/8] >> (7-(k&7))) & 1]. *)
Definition cfb1_bit (mem : list Z) (buf k : nat) : Z :=
  Z.land (Z.shiftr mem.[buf + k / 8] (7 - Z.of_nat (k mod 8))) 1.

(** [buf[k/8] ^= (block[0] & 0x80) >> (k & 7)]. *)
Definition cfb1_flip (block mem : list Z) (buf k : nat) : list Z :=
  mem.[buf + k / 8 <-
    Z.lxor mem.[buf + k / 8] (Z.shiftr (Z.land block.[0] 0x80) (Z.of_nat (k mod 8)))].

Definition cfb1_enc_bit (f : list Z -> list Z) (outBuffer : nat) (st : list Z * list Z) (k : nat)
    : list Z * list Z :=
  let '(iv, mem) := st in
  let mem := cfb1_flip (f iv) mem outBuffer k in
  (cfb1_shift iv (cfb1_bit mem outBuffer k), mem).

Definition cfb1_dec_bit (f : list Z -> list Z) (input outBuffer : nat) (st : list Z * list Z) (k : nat)
    : list Z * list Z :=
  let '(iv, mem) := st in
  (cfb1_shift iv (cfb1_bit mem input k), cfb1_flip (f iv) mem outBuffer k).

Fixpoint cfb1_enc_loop (f : list Z -> list Z) (n input outBuffer : nat) (iv mem : list Z) : list Z :=
  match n with
  | O => mem
  | S n =>
      let mem := memcpy mem outBuffer (slice mem input 16) in
      let '(iv, mem) := fold_left (cfb1_enc_bit f outBuffer) (seq 0 128) (iv, mem) in
      cfb1_enc_loop f n (input + 16) (outBuffer + 16) iv mem
  end.

Fixpoint cfb1_dec_loop (f : list Z -> list Z) (n input outBuffer : nat) (iv mem : list Z) : list Z :=
  match n with
  | O => mem
  | S n =>
      let mem := memcpy mem outBuffer (slice mem input 16) in
      let '(iv, mem) := fold_left (cfb1_dec_bit f input outBuffer) (seq 0 128) (iv, mem) in
      cfb1_dec_loop f n (input + 16) (outBuffer + 16) iv mem
  end.

(** ** Whole messages *)

(** The fragment that ends a CBC encryption: [outBuffer] is at the last full
    ciphertext block, [input] at the [lenFrag] remaining bytes. *)
Definition cts_enc_frag (f : list Z -> list Z) (lenFrag input outBuffer : nat) (mem : list Z) : list Z :=
  let lastblock := slice mem outBuffer lenFrag in
  let block := slice mem outBuffer 16 in
  let block := xor_list (firstn lenFrag block) (slice mem input lenFrag) ++ skipn lenFrag block in
  let mem := memcpy mem outBuffer (f block) in
  memcpy mem (outBuffer + 16) lastblock.

Definition cbc_encrypt (f : list Z -> list Z) (iv : list Z) (numBlocks lenFrag input outBuffer : nat)
    (mem : list Z) : list Z :=
  let mem := memcpy mem outBuffer (f (xor_list iv (slice mem input 16))) in
  let mem := cbc_enc_loop f (numBlocks - 1) (input + 16) outBuffer mem in
  if (0 <? lenFrag)%nat then
    cts_enc_frag f lenFrag (input + 16 * numBlocks) (outBuffer + 16 * (numBlocks - 1)) mem
  else mem.

(** The fragment of a CBC decryption, handled before the other blocks; [offset] is
    that of the last full block. *)
Definition cts_dec_frag (f : list Z -> list Z) (iv : list Z) (offset lenFrag input outBuffer : nat)
    (mem : list Z) : list Z :=
  let block := f (slice mem (input + offset) 16) in
  let lastblock := xor_list (firstn lenFrag block) (slice mem (input + offset + 16) lenFrag) in
  let block := memcpy block 0 (slice mem (input + offset + 16) lenFrag) in
  let mem := memcpy mem (outBuffer + offset) (f block) in
  let mem := memcpy mem (outBuffer + offset + 16) lastblock in
  let prev := if (offset =? 0)%nat then iv else slice mem (input + offset - 16) 16 in
  memcpy mem (outBuffer + offset) (xor_list (slice mem (outBuffer + offset) 16) prev).

Definition cbc_decrypt (f : list Z -> list Z) (iv : list Z) (numBlocks lenFrag input outBuffer : nat)
    (mem : list Z) : nat * list Z :=
  let '(numBlocks, mem) :=
    if (0 <? lenFrag)%nat then
      let numBlocks := (numBlocks - 1)%nat in
      (numBlocks, cts_dec_frag f iv (numBlocks * 16) lenFrag input outBuffer mem)
    else (numBlocks, mem) in
  (numBlocks, snd (cbc_dec_loop f numBlocks input outBuffer iv mem)).

(** [input] may be NULL; lengths are in bits.  Result: return value and memory. *)
Definition RijndaelBlockEncrypt (rij : Rijndael) (mem : list Z) (input : option nat) (inputLen : Z)
    (outBuffer : nat) : option (Z * list Z) :=
  if negb (m_state rij =? State_Valid) then Some (RIJNDAEL_NOT_INITIALIZED, mem)
  else if negb (m_direction rij =? Direction_Encrypt) then Some (RIJNDAEL_BAD_DIRECTION, mem)
  else
    match input with
    | None => Some (0, mem)
    | Some input =>
        if inputLen <=? 0 then Some (0, mem)
        else
          let numBlocks := Z.to_nat (inputLen / 128) in
          let lenFrag := Z.to_nat (inputLen mod 128 / 8) in
          let ret mem := Some (128 * Z.of_nat numBlocks, mem) in
          let f := RijndaelEncrypt rij in
          if m_mode rij =? Mode_ECB then ret (ecb_loop f numBlocks input outBuffer mem)
          else if m_mode rij =? Mode_CBC then
            if (numBlocks =? 0)%nat then None
            else ret (cbc_encrypt f (m_initVector rij) numBlocks lenFrag input outBuffer mem)
          else if m_mode rij =? Mode_CFB1 then
            ret (cfb1_enc_loop f numBlocks input outBuffer (m_initVector rij) mem)
          else Some (-1, mem)
    end.

Definition RijndaelBlockDecrypt (rij : Rijndael) (mem : list Z) (input : option nat) (inputLen : Z)
    (outBuffer : nat) : option (Z * list Z) :=
  if negb (m_state rij =? State_Valid) then Some (RIJNDAEL_NOT_INITIALIZED, mem)
  else if negb (m_mode rij =? Mode_CFB1) && (m_direction rij =? Direction_Encrypt) then
    Some (RIJNDAEL_BAD_DIRECTION, mem)
  else
    match input with
    | None => Some (0, mem)
    | Some input =>
        if inputLen <=? 0 then Some (0, mem)
        else
          let numBlocks := Z.to_nat (inputLen / 128) in
          let lenFrag := Z.to_nat (inputLen mod 128 / 8) in
          let ret numBlocks mem := Some (128 * Z.of_nat numBlocks, mem) in
          let f := RijndaelDecrypt rij in
          if m_mode rij =? Mode_ECB then ret numBlocks (ecb_loop f numBlocks input outBuffer mem)
          else if m_mode rij =? Mode_CBC then
            if (numBlocks =? 0)%nat && (0 <? lenFrag)%nat then None
            else
              let '(numBlocks, mem) :=
                cbc_decrypt f (m_initVector rij) numBlocks lenFrag input outBuffer mem in
              ret numBlocks mem
          else if m_mode rij =? Mode_CFB1 then
            ret numBlocks
              (cfb1_dec_loop (RijndaelEncrypt rij) numBlocks input outBuffer (m_initVector rij) mem)
          else Some (-1, mem)
    end.

(** ** Padded messages *)

(** The CBC loop of [RijndaelPadEncrypt]; [iv] points at the initial vector or at the
    block just written, which the loop does not write again. *)
Fixpoint pad_cbc_loop (f : list Z -> list Z) (n input outBuffer : nat) (iv mem : list Z)
    : list Z * list Z :=
  match n with
  | O => (iv, mem)
  | S n =>
      let c := f (xor_list (slice mem input 16) iv) in
      pad_cbc_loop f n (input + 16) (outBuffer + 16) c (memcpy mem outBuffer c)
  end.

(** The last block before encryption: [16 - padLen] bytes of input, then [padLen]. *)
Definition pad_block (mem : list Z) (input padLen : nat) : list Z :=
  slice mem input (16 - padLen) ++ memset (Z.of_nat padLen) padLen.

(** Lengths are in bytes. *)
Definition RijndaelPadEncrypt (rij : Rijndael) (mem : list Z) (input : option nat) (inputOctets : Z)
    (outBuffer : nat) : Z * list Z :=
  if negb (m_state rij =? State_Valid) then (RIJNDAEL_NOT_INITIALIZED, mem)
  else if negb (m_direction rij =? Direction_Encrypt) then (RIJNDAEL_NOT_INITIALIZED, mem)
  else
    match input with
    | None => (0, mem)
    | Some input =>
        if inputOctets <=? 0 then (0, mem)
        else
          let numBlocks := (Z.to_nat inputOctets / 16)%nat in
          let padLen := (16 - (Z.to_nat inputOctets - 16 * numBlocks))%nat in
          let f := RijndaelEncrypt rij in
          let input' := (input + 16 * numBlocks)%nat in
          let outBuffer' := (outBuffer + 16 * numBlocks)%nat in
          let ret := 16 * (Z.of_nat numBlocks + 1) in
          if m_mode rij =? Mode_ECB then
            let mem := ecb_loop f numBlocks input outBuffer mem in
            (ret, memcpy mem outBuffer' (f (pad_block mem input' padLen)))
          else if m_mode rij =? Mode_CBC then
            let '(iv, mem) := pad_cbc_loop f numBlocks input outBuffer (m_initVector rij) mem in
            (ret, memcpy mem outBuffer' (f (xor_list (pad_block mem input' padLen) iv)))
          else (-1, mem)
    end.

(** [for (i = 16 - padLen; i < 16; i++) if (block[i] != padLen) return ...] *)
Definition pad_bytes_ok (block : list Z) (padLen : nat) : bool :=
  forallb (fun i => block.[i] =? Z.of_nat padLen) (seq (16 - padLen) padLen).

(** [padLen <= 16] whenever the padding is accepted. *)
Definition RijndaelPadDecrypt (rij : Rijndael) (mem : list Z) (input : option nat) (inputOctets : Z)
    (outBuffer : nat) : Z * list Z :=
  if negb (m_state rij =? State_Valid) then (RIJNDAEL_NOT_INITIALIZED, mem)
  else if negb (m_direction rij =? Direction_Decrypt) then (RIJNDAEL_BAD_DIRECTION, mem)
  else
    match input with
    | None => (0, mem)
    | Some input =>
        if inputOctets <=? 0 then (0, mem)
        else if negb (inputOctets mod 16 =? 0) then (RIJNDAEL_CORRUPTED_DATA, mem)
        else
          let numBlocks := (Z.to_nat inputOctets / 16)%nat in
          let f := RijndaelDecrypt rij in
          let n := (numBlocks - 1)%nat in
          let input' := (input + 16 * n)%nat in
          let outBuffer' := (outBuffer + 16 * n)%nat in
          let finish mem block padLen :=
            if negb (pad_bytes_ok block padLen) then (RIJNDAEL_CORRUPTED_DATA, mem)
            else (16 * Z.of_nat numBlocks - Z.of_nat padLen,
                  memcpy mem outBuffer' (firstn (16 - padLen) block)) in
          if m_mode rij =? Mode_ECB then
            let mem := ecb_loop f n input outBuffer mem in
            let block := f (slice mem input' 16) in
            if block.[15] >=? 16 then (RIJNDAEL_CORRUPTED_DATA, mem)
            else finish mem block (Z.to_nat block.[15])
          else if m_mode rij =? Mode_CBC then
            let '(iv, mem) := cbc_dec_loop f n input outBuffer (m_initVector rij) mem in
            let block := xor_list (f (slice mem input' 16)) iv in
            if (block.[15] <=? 0) || (block.[15] >? 16) then (RIJNDAEL_CORRUPTED_DATA, mem)
            else finish mem block (Z.to_nat block.[15])
          else (-1, mem)
    end.

(** ** The modes on byte strings *)

(** A block cipher and its inverse. *)
Section Pure.
Context (E D : list Z -> list Z).

(** Cipher block chaining of [n] blocks of [l]. *)
Fixpoint cbc_enc (iv : list Z) (n : nat) (l : list Z) : list Z :=
  match n with
  | O => []
  | S n => let c := E (xor_list iv (firstn 16 l)) in c ++ cbc_enc c n (skipn 16 l)
  end.

Fixpoint cbc_dec (iv : list Z) (n : nat) (l : list Z) : list Z :=
  match n with
  | O => []
  | S n => xor_list (D (firstn 16 l)) iv ++ cbc_dec (firstn 16 l) n (skipn 16 l)
  end.

(** The chaining value after [n] blocks of ciphertext [c]. *)
Definition chain (iv : list Z) (n : nat) (c : list Z) : list Z :=
  match n with O => iv | S n => slice c (16 * n) 16 end.

(** Ciphertext stealing: the last two blocks swap places and the second is cut. *)
Definition cts_enc (iv : list Z) (l : list Z) : list Z :=
  let n := (length l / 16)%nat in let r := (length l mod 16)%nat in
  let c := cbc_enc iv n l in
  if (r =? 0)%nat then c
  else
    let last := chain iv n c in
    firstn (16 * (n - 1)) c ++
    E (xor_list (firstn r last) (skipn (16 * n) l) ++ skipn r last) ++ firstn r last.

Definition cts_dec (iv : list Z) (l : list Z) : list Z :=
  let n := (length l / 16)%nat in let r := (length l mod 16)%nat in
  if (r =? 0)%nat then cbc_dec iv n l
  else
    let block := D (slice l (16 * (n - 1)) 16) in
    let stolen := skipn (16 * n) l in
    cbc_dec iv (n - 1) l ++
    xor_list (D (stolen ++ skipn r block)) (chain iv (n - 1) l) ++ xor_list (firstn r block) stolen.

Hypothesis (HE : forall a, state_ok a -> state_ok (E a)).

Lemma length_cbc_enc iv n l :
  state_ok iv -> bytes l -> (16 * n <= length l)%nat ->
  length (cbc_enc iv n l) = (16 * n)%nat /\ bytes (cbc_enc iv n l).
Proof.
  revert iv l. induction n as [|n IH]; intros iv l Hi Hb Hl; [split; [reflexivity|constructor]|].
  cbn [cbc_enc].
  assert (Hc : state_ok (E (xor_list iv (firstn 16 l)))).
  { apply HE, state_xor; auto. split; [rewrite length_firstn; lia|auto with words]. }
  destruct (IH _ (skipn 16 l) Hc) as [L B]; [auto with words|rewrite length_skipn; lia|].
  destruct Hc as [Lc Bc]. rewrite length_app, bytes_app, L, Lc. split; [lia|now split].
Qed.

Lemma chain_app iv a n c : length a = 16%nat -> chain iv (S n) (a ++ c) = chain a n c.
Proof.
  intros Ha. destruct n as [|n]; cbn [chain].
  - apply (slice_app [] a c); auto.
  - unfold slice. replace (16 * S n)%nat with (16 + 16 * n)%nat by lia.
    now rewrite (skipn_app_plus a).
Qed.

Lemma cbc_enc_snoc iv n l :
  state_ok iv -> bytes l -> (16 * S n <= length l)%nat ->
  let c := cbc_enc iv n l in
  cbc_enc iv (S n) l = c ++ E (xor_list (chain iv n c) (slice l (16 * n) 16)).
Proof.
  revert iv l. induction n as [|n IH]; intros iv l Hi Hb Hl c.
  - subst c. cbn [cbc_enc chain app]. apply app_nil_r.
  - subst c. change (cbc_enc iv (S n) l)
      with (E (xor_list iv (firstn 16 l)) ++ cbc_enc (E (xor_list iv (firstn 16 l))) n (skipn 16 l)).
    change (cbc_enc iv (S (S n)) l)
      with (E (xor_list iv (firstn 16 l)) ++ cbc_enc (E (xor_list iv (firstn 16 l))) (S n) (skipn 16 l)).
    assert (Hc : state_ok (E (xor_list iv (firstn 16 l)))).
    { apply HE, state_xor; auto. split; [rewrite length_firstn; lia|auto with words]. }
    rewrite IH by (auto with words; rewrite ?length_skipn; lia).
    rewrite chain_app by apply Hc. rewrite <- app_assoc. do 4 f_equal.
    unfold slice. rewrite skipn_skipn. do 2 f_equal. lia.
Qed.

Hypothesis (HD : forall a, state_ok a -> D (E a) = a).

Lemma cbc_dec_enc iv n l x :
  state_ok iv -> bytes l -> (16 * n <= length l)%nat ->
  cbc_dec iv n (cbc_enc iv n l ++ x) = firstn (16 * n) l.
Proof.
  revert iv l. induction n as [|n IH]; intros iv l Hi Hb Hl; [reflexivity|].
  cbn [cbc_enc cbc_dec].
  assert (Hp : state_ok (firstn 16 l)) by (split; [rewrite length_firstn; lia|auto with words]).
  assert (Hx : state_ok (xor_list iv (firstn 16 l))) by (apply state_xor; auto).
  pose proof (HE _ Hx) as Hc. rewrite <- app_assoc, firstn_app_l, skipn_app_l by apply Hc.
  rewrite HD, xor_list_invol_l by (auto; destruct Hp, Hi; lia).
  rewrite IH by (auto with words; rewrite ?length_skipn; lia).
  replace (16 * S n)%nat with (16 + 16 * n)%nat by lia. now rewrite firstn_plus.
Qed.

(** The last full block of a chained encryption. *)
Lemma chain_state iv n l :
  state_ok iv -> bytes l -> (16 * n <= length l)%nat -> state_ok (chain iv n (cbc_enc iv n l)).
Proof.
  intros Hi Hb Hl. destruct (length_cbc_enc iv n l Hi Hb Hl) as [L B].
  destruct n as [|n]; [exact Hi|]. cbn [chain]. split; [rewrite length_slice; lia|auto with words].
Qed.

Lemma length_cts_enc iv l :
  state_ok iv -> bytes l -> (16 <= length l)%nat ->
  length (cts_enc iv l) = length l /\ bytes (cts_enc iv l).
Proof.
  intros Hi Hb Hl. unfold cts_enc.
  pose proof (Nat.div_mod_eq (length l) 16) as Edm. pose proof (Nat.mod_upper_bound (length l) 16) as Hr.
  set (n := (length l / 16)%nat) in *. set (r := (length l mod 16)%nat) in *.
  destruct (length_cbc_enc iv n l Hi Hb) as [L B]; [lia|].
  destruct (Nat.eqb_spec r 0) as [->|H0]; [split; [lia|exact B]|].
  pose proof (chain_state iv n l Hi Hb ltac:(lia)) as [Lc Bc].
  set (last := chain _ _ _) in *.
  assert (Hx : state_ok (xor_list (firstn r last) (skipn (16 * n) l) ++ skipn r last)).
  { split; [|apply bytes_app; auto with words].
    rewrite length_app, length_xor_list, length_firstn, !length_skipn. lia. }
  destruct (HE _ Hx) as [Lx Bx]. rewrite !length_app, Lx, !length_firstn, !bytes_app.
  repeat split; auto with words; lia.
Qed.

Lemma chain_prefix iv n a b : (16 * n <= length a)%nat -> chain iv n (a ++ b) = chain iv n a.
Proof.
  intros Hl. destruct n as [|n]; [reflexivity|]. cbn [chain]. unfold slice.
  rewrite skipn_app, firstn_app, length_skipn.
  replace (16 - (length a - 16 * n))%nat with 0%nat by lia. cbn [firstn]. apply app_nil_r.
Qed.

Lemma cts_dec_enc iv l :
  state_ok iv -> bytes l -> (16 <= length l)%nat -> cts_dec iv (cts_enc iv l) = l.
Proof.
  intros Hi Hb Hl. destruct (length_cts_enc iv l Hi Hb Hl) as [Ll _].
  unfold cts_dec. rewrite Ll. revert Ll. unfold cts_enc.
  pose proof (Nat.div_mod_eq (length l) 16) as Edm. pose proof (Nat.mod_upper_bound (length l) 16) as Hr.
  set (n := (length l / 16)%nat) in *. set (r := (length l mod 16)%nat) in *. intros Ll.
  destruct (Nat.eqb_spec r 0) as [H0|H0].
  { rewrite <- (app_nil_r (cbc_enc iv n l)), cbc_dec_enc by (auto; lia). apply firstn_all2. lia. }
  destruct n as [|m] eqn:En; [lia|]. clear En. clearbody r. cbn [Nat.sub] in *. rewrite Nat.sub_0_r in *.
  rewrite (cbc_enc_snoc iv m l) in * by (auto; lia). cbn [chain] in *.
  destruct (length_cbc_enc iv m l Hi Hb) as [Lc Bc]; [lia|].
  pose proof (chain_state iv m l Hi Hb ltac:(lia)) as Hch.
  set (c' := cbc_enc iv m l) in *. set (pm := slice l (16 * m) 16) in *.
  assert (Hpm : state_ok pm) by (split; [apply length_slice; lia|subst pm; auto with words]).
  assert (Hx0 : state_ok (xor_list (chain iv m c') pm)) by (apply state_xor; auto).
  pose proof (HE _ Hx0) as [Lz Bz]. pose proof (HD _ Hx0) as HDz. set (z := E _) in *.
  rewrite (slice_app_end c' z), (firstn_app_l c') in * by auto.
  set (x := xor_list (firstn r z) (skipn (16 * S m) l) ++ skipn r z) in *.
  assert (Lf : length (xor_list (firstn r z) (skipn (16 * S m) l)) = r)
    by (rewrite length_xor_list, length_firstn, length_skipn; lia).
  assert (Hx : state_ok x).
  { split; [subst x; rewrite length_app, Lf, length_skipn; lia|].
    subst x. apply bytes_app; auto with words. }
  pose proof (HE _ Hx) as [Le Be].
  rewrite (slice_app c' (E x)), HD by auto.
  replace (16 * S m)%nat with (16 * m + 16)%nat by lia.
  rewrite (skipn_app_plus c'), (skipn_app_l (E x)) by auto.
  pose proof (cbc_dec_enc iv m l (E x ++ firstn r z) Hi Hb ltac:(lia)) as Hdec. fold c' in Hdec.
  rewrite Hdec, chain_prefix by lia.
  replace (skipn r x) with (skipn r z) by (subst x; now rewrite skipn_app_l).
  replace (firstn r x) with (xor_list (firstn r z) (skipn (16 * S m) l))
    by (subst x; now rewrite firstn_app_l).
  rewrite firstn_skipn, HDz, !xor_list_invol_l
    by (rewrite ?length_firstn, ?length_skipn; destruct Hch, Hpm; lia).
  replace (16 * S m)%nat with (16 * m + 16)%nat by lia. symmetry. apply slice_split.
Qed.
End Pure.

Lemma length_cbc_dec (D : list Z -> list Z) iv n l :
  (forall a, length a = 16%nat -> length (D a) = 16%nat) ->
  length iv = 16%nat -> (16 * n <= length l)%nat -> length (cbc_dec D iv n l) = (16 * n)%nat.
Proof.
  intros HD. revert iv l. induction n as [|n IH]; intros iv l Hi Hl; [reflexivity|]. cbn [cbc_dec].
  rewrite length_app, length_xor_list, HD, IH; rewrite ?length_firstn, ?length_skipn; lia.
Qed.

(** ** The loops compute the modes *)

(** Input and output of [n] bytes: the same buffer or disjoint ones, inside [mem]. *)
Definition buffers (mem : list Z) (input outBuffer n : nat) : Prop :=
  (input + n <= length mem)%nat /\ (outBuffer + n <= length mem)%nat /\
  (input = outBuffer \/ input + n <= outBuffer \/ outBuffer + n <= input)%nat.

Lemma slice_state mem i : bytes mem -> (i + 16 <= length mem)%nat -> state_ok (slice mem i 16).
Proof. intros. split; [now apply length_slice|auto with words]. Qed.

Lemma skipn_slice {A} (l : list A) i n m : skipn n (slice l i (n + m)) = slice l (i + n) m.
Proof. unfold slice. rewrite skipn_firstn_comm, skipn_skipn. f_equal; [lia|f_equal; lia]. Qed.

Lemma memcpy_tail {A} (m a b b' : list A) o o' :
  length b = length b' -> o' = (o + length a)%nat -> (o' + length b <= length m)%nat ->
  memcpy (memcpy m o (a ++ b)) o' b' = memcpy m o (a ++ b').
Proof.
  intros Hl -> Hm. rewrite <- (memcpy_memcpy m a b _ _ eq_refl) by auto.
  rewrite memcpy_overwrite by (rewrite ?length_memcpy; lia). now rewrite (memcpy_memcpy m a b') by lia.
Qed.

Section Loops.
Context (E : list Z -> list Z) (HE : forall a, state_ok a -> state_ok (E a)).

Lemma cbc_enc_loop_spec n : forall i o mem,
  bytes mem -> (o + 16 <= length mem)%nat -> buffers mem i (o + 16) (16 * n) ->
  cbc_enc_loop E n i o mem = memcpy mem (o + 16) (cbc_enc E (slice mem o 16) n (slice mem i (16 * n))).
Proof.
  induction n as [|n IH]; intros i o mem Hb Ho (Hi & Ho' & Hs); cbn [cbc_enc_loop cbc_enc].
  { now rewrite memcpy_nil. }
  rewrite firstn_slice by lia. replace (16 * S n)%nat with (16 + 16 * n)%nat by lia. rewrite skipn_slice.
  assert (Hc : state_ok (E (xor_list (slice mem o 16) (slice mem i 16)))).
  { apply HE, state_xor; apply slice_state; auto; lia. }
  set (c := E _) in *. destruct Hc as [Lc Bc].
  assert (Lm : length (memcpy mem (o + 16) c) = length mem) by (apply length_memcpy; lia).
  rewrite IH by (auto with words; unfold buffers; rewrite ?Lm; lia).
  rewrite slice_memcpy_eq, slice_memcpy_ne by lia.
  apply memcpy_memcpy; [lia|].
  destruct (length_cbc_enc E HE c n (slice mem (i + 16) (16 * n))) as [-> _];
    [now split|auto with words|rewrite length_slice; lia|lia].
Qed.

Lemma cbc_blocks_spec iv n i o mem :
  bytes mem -> state_ok iv -> (1 <= n)%nat -> buffers mem i o (16 * n) ->
  cbc_enc_loop E (n - 1) (i + 16) o (memcpy mem o (E (xor_list iv (slice mem i 16)))) =
  memcpy mem o (cbc_enc E iv n (slice mem i (16 * n))).
Proof.
  intros Hb Hi Hn (Hil & Hol & Hs). destruct n as [|n]; [lia|]. cbn [Nat.sub cbc_enc]. rewrite Nat.sub_0_r.
  assert (Hc : state_ok (E (xor_list iv (slice mem i 16)))).
  { apply HE, state_xor; auto. apply slice_state; auto; lia. }
  rewrite firstn_slice by lia. replace (16 * S n)%nat with (16 + 16 * n)%nat by lia. rewrite skipn_slice.
  set (c := E _) in *. destruct Hc as [Lc Bc].
  assert (Lm : length (memcpy mem o c) = length mem) by (apply length_memcpy; lia).
  rewrite cbc_enc_loop_spec by (auto with words; unfold buffers; rewrite ?Lm; lia).
  rewrite slice_memcpy_eq, slice_memcpy_ne by lia.
  apply memcpy_memcpy; [lia|].
  destruct (length_cbc_enc E HE c n (slice mem (i + 16) (16 * n))) as [-> _];
    [now split|auto with words|rewrite length_slice; lia|lia].
Qed.

Lemma cbc_enc_prefix iv n l : cbc_enc E iv n (firstn (16 * n) l) = cbc_enc E iv n l.
Proof.
  revert iv l. induction n as [|n IH]; intros iv l; [reflexivity|]. cbn [cbc_enc].
  rewrite firstn_firstn. replace (Nat.min 16 (16 * S n)) with 16%nat by lia.
  rewrite skipn_firstn_comm. replace (16 * S n - 16)%nat with (16 * n)%nat by lia. now rewrite IH.
Qed.

(** The fragment, after the blocks [c' ++ last] have been written. *)
Lemma cts_frag_spec c' last r i o m mem :
  bytes mem -> state_ok last -> length c' = (16 * m)%nat -> (r < 16)%nat ->
  buffers mem i o (16 * S m + r) ->
  cts_enc_frag E r (i + 16 * S m) (o + 16 * m) (memcpy mem o (c' ++ last)) =
  memcpy mem o (c' ++ E (xor_list (firstn r last) (slice mem (i + 16 * S m) r) ++ skipn r last) ++
                firstn r last).
Proof.
  intros Hb [Ll Bl] Lc Hr (Hil & Hol & Hs). unfold cts_enc_frag.
  assert (Sl : slice (memcpy mem o (c' ++ last)) (o + 16 * m) 16 = last).
  { rewrite <- (memcpy_memcpy mem c' last o (o + 16 * m)) by lia.
    apply slice_memcpy_eq; [auto|rewrite length_memcpy; lia]. }
  rewrite <- (firstn_slice _ (o + 16 * m) r 16), Sl by lia.
  rewrite slice_memcpy_ne by (rewrite length_app; lia).
  set (x := xor_list _ _ ++ _).
  assert (Hx : state_ok x).
  { subst x. split; [|apply bytes_app; auto with words].
    rewrite length_app, length_xor_list, length_skipn, length_firstn, length_slice; lia. }
  destruct (HE x Hx) as [Le _].
  rewrite memcpy_tail by lia. rewrite memcpy_memcpy; rewrite ?length_app, ?length_firstn; try lia.
  now rewrite <- app_assoc.
Qed.

Lemma cbc_encrypt_spec iv n r i o mem :
  bytes mem -> state_ok iv -> (1 <= n)%nat -> (r < 16)%nat -> buffers mem i o (16 * n + r) ->
  cbc_encrypt E iv n r i o mem = memcpy mem o (cts_enc E iv (slice mem i (16 * n + r))).
Proof.
  intros Hb Hi Hn Hr (Hil & Hol & Hs). unfold cbc_encrypt.
  rewrite cbc_blocks_spec by (auto; unfold buffers; lia).
  unfold cts_enc. rewrite length_slice by lia.
  replace ((16 * n + r) / 16)%nat with n by (rewrite Nat.mul_comm, Nat.div_add_l, (Nat.div_small r) by lia; lia).
  replace ((16 * n + r) mod 16)%nat with r
    by (rewrite Nat.add_comm, Nat.mul_comm, Nat.Div0.mod_add, Nat.mod_small; lia).
  rewrite <- (cbc_enc_prefix iv n (slice mem i (16 * n + r))), firstn_slice by lia.
  destruct (Nat.ltb_spec 0 r) as [H0|H0], (Nat.eqb_spec r 0); try lia; [|reflexivity].
  destruct (length_cbc_enc E HE iv n (slice mem i (16 * n))) as [L B]; auto with words;
    [rewrite length_slice; lia|].
  pose proof (chain_state E HE iv n (slice mem i (16 * n)) Hi (bytes_slice _ _ _ Hb)
                ltac:(rewrite length_slice; lia)) as Hch.
  set (c := cbc_enc E iv n _) in *. destruct n as [|m]; [lia|]. cbn [chain Nat.sub] in *.
  rewrite Nat.sub_0_r. rewrite skipn_slice.
  set (last := slice c (16 * m) 16) in *. set (c' := firstn (16 * m) c).
  assert (Ec : c = c' ++ last).
  { subst c' last. unfold slice. rewrite (firstn_all2 (n := 16)) by (rewrite length_skipn; lia).
    symmetry. apply firstn_skipn. }
  assert (Lc' : length c' = (16 * m)%nat) by (subst c'; rewrite length_firstn; lia).
  clearbody last c' c. subst c. apply cts_frag_spec; auto; unfold buffers; lia.
Qed.

Lemma cbc_dec_loop_spec (D : list Z -> list Z) n :
  (forall a, length a = 16%nat -> length (D a) = 16%nat) -> forall iv i o mem,
  length iv = 16%nat -> buffers mem i o (16 * n) ->
  let l := slice mem i (16 * n) in
  cbc_dec_loop D n i o iv mem = (chain iv n l, memcpy mem o (cbc_dec D iv n l)).
Proof.
  intros HD. induction n as [|n IH]; intros iv i o mem Hi (Hil & Hol & Hs); cbn [cbc_dec_loop cbc_dec].
  { cbn zeta. now rewrite memcpy_nil. }
  replace (16 * S n)%nat with (16 + 16 * n)%nat by lia. cbn zeta.
  rewrite firstn_slice, skipn_slice by lia.
  assert (Lb : length (xor_list (D (slice mem i 16)) iv) = 16%nat)
    by (rewrite length_xor_list, HD; rewrite ?length_slice; lia).
  set (b := xor_list _ _) in *.
  assert (Lm : length (memcpy mem o b) = length mem) by (apply length_memcpy; lia).
  rewrite IH by (rewrite ?length_slice; unfold buffers; rewrite ?Lm; lia). cbn zeta.
  rewrite slice_memcpy_ne by lia. f_equal.
  - rewrite slice_plus, chain_app by (rewrite length_slice; lia). reflexivity.
  - apply memcpy_memcpy; [lia|]. rewrite length_cbc_dec by (auto; rewrite length_slice; lia). lia.
Qed.

Lemma length_chain iv n l :
  length iv = 16%nat -> (16 * n <= length l)%nat -> length (chain iv n l) = 16%nat.
Proof. intros Hi Hl. destruct n; [exact Hi|]. cbn [chain]. rewrite length_slice; lia. Qed.

Lemma cbc_dec_prefix (D : list Z -> list Z) iv n l : cbc_dec D iv n (firstn (16 * n) l) = cbc_dec D iv n l.
Proof.
  revert iv l. induction n as [|n IH]; intros iv l; [reflexivity|]. cbn [cbc_dec].
  rewrite firstn_firstn. replace (Nat.min 16 (16 * S n)) with 16%nat by lia.
  rewrite skipn_firstn_comm. replace (16 * S n - 16)%nat with (16 * n)%nat by lia. now rewrite IH.
Qed.

Lemma slice_slice {A} (l : list A) i n j m :
  (j + m <= n)%nat -> slice (slice l i n) j m = slice l (i + j) m.
Proof.
  intros H. unfold slice. rewrite skipn_firstn_comm, skipn_skipn, firstn_firstn. f_equal; [lia|f_equal; lia].
Qed.

Lemma cts_dec_frag_spec (D : list Z -> list Z) iv m r i o mem :
  (forall a, length (D a) = 16%nat) ->
  length iv = 16%nat -> (r < 16)%nat -> buffers mem i o (16 * S m + r) ->
  let l := slice mem i (16 * S m + r) in
  let block := D (slice l (16 * m) 16) in
  let stolen := skipn (16 * S m) l in
  cts_dec_frag D iv (m * 16) r i o mem =
  memcpy mem (o + 16 * m)
    (xor_list (D (stolen ++ skipn r block)) (chain iv m l) ++ xor_list (firstn r block) stolen).
Proof.
  intros HD Hi Hr (Hil & Hol & Hs) l block stolen. unfold cts_dec_frag.
  rewrite (Nat.mul_comm m 16).
  assert (Eb : D (slice mem (i + 16 * m) 16) = block) by (subst block l; now rewrite slice_slice by lia).
  assert (Es : slice mem (i + 16 * m + 16) r = stolen).
  { subst stolen l. rewrite skipn_slice. f_equal. lia. }
  rewrite Eb, Es. assert (Ls : length stolen = r) by (rewrite <- Es, length_slice; lia).
  assert (Lb : length block = 16%nat) by apply HD.
  assert (Em : memcpy block 0 stolen = stolen ++ skipn r block).
  { unfold memcpy. cbn [firstn app Nat.add]. now rewrite Ls. }
  rewrite Em. set (y := D _). assert (Ly : length y = 16%nat) by apply HD.
  set (f := xor_list (firstn r block) stolen).
  assert (Lf : length f = r) by (subst f; rewrite length_xor_list, length_firstn; lia).
  rewrite (memcpy_memcpy mem y f (o + 16 * m) (o + 16 * m + 16)) by lia.
  assert (Ep : (if (16 * m =? 0)%nat then iv
                else slice (memcpy mem (o + 16 * m) (y ++ f)) (i + 16 * m - 16) 16) = chain iv m l).
  { destruct m as [|m]; [reflexivity|].
    change (16 * S m =? 0)%nat with false. cbv iota. cbn [chain].
    rewrite slice_memcpy_ne by (rewrite length_app; lia). subst l. rewrite slice_slice by lia.
    f_equal. lia. }
  rewrite Ep.
  assert (Ey : slice (memcpy mem (o + 16 * m) (y ++ f)) (o + 16 * m) 16 = y).
  { rewrite <- (firstn_slice _ _ 16 (16 + r)), slice_memcpy_eq by (rewrite ?length_app; lia).
    now apply firstn_app_l. }
  rewrite Ey. set (p := xor_list y _).
  assert (Lp : length p = 16%nat).
  { subst p. rewrite length_xor_list, length_chain; auto; [lia|subst l; rewrite length_slice; lia]. }
  rewrite <- (memcpy_before mem y f _ _ eq_refl), <- (memcpy_before mem p f _ _ eq_refl) by lia.
  rewrite Ly, Lp. apply memcpy_overwrite; [lia|]. rewrite length_memcpy; lia.
Qed.

Lemma cbc_decrypt_spec (D : list Z -> list Z) iv n r i o mem :
  (forall a, length (D a) = 16%nat) ->
  length iv = 16%nat -> (1 <= n)%nat -> (r < 16)%nat -> buffers mem i o (16 * n + r) ->
  cbc_decrypt D iv n r i o mem =
  (if (0 <? r)%nat then (n - 1)%nat else n, memcpy mem o (cts_dec D iv (slice mem i (16 * n + r)))).
Proof.
  intros HD Hi Hn Hr (Hil & Hol & Hs). unfold cbc_decrypt, cts_dec. rewrite length_slice by lia.
  replace ((16 * n + r) / 16)%nat with n by (rewrite Nat.mul_comm, Nat.div_add_l, (Nat.div_small r) by lia; lia).
  replace ((16 * n + r) mod 16)%nat with r
    by (rewrite Nat.add_comm, Nat.mul_comm, Nat.Div0.mod_add, Nat.mod_small; lia).
  destruct (Nat.ltb_spec 0 r) as [H0|H0], (Nat.eqb_spec r 0) as [H0'|H0']; try lia.
  2: { rewrite H0', Nat.add_0_r, cbc_dec_loop_spec by (auto; unfold buffers; lia). reflexivity. }
  destruct n as [|m]; [lia|]. cbn [Nat.sub]. rewrite Nat.sub_0_r. f_equal.
  rewrite cts_dec_frag_spec by (auto; unfold buffers; lia). set (t := _ ++ _).
  assert (Lt : length t = (16 + r)%nat).
  { subst t. rewrite length_app, !length_xor_list, length_firstn, !HD, length_skipn, length_slice,
      length_chain; rewrite ?length_slice; lia. }
  assert (Lm : length (memcpy mem (o + 16 * m) t) = length mem) by (apply length_memcpy; lia).
  rewrite cbc_dec_loop_spec by (auto; unfold buffers; rewrite ?Lm; lia). cbn [snd].
  rewrite slice_memcpy_ne by lia. rewrite <- (cbc_dec_prefix D iv m (slice _ _ (_ + _))).
  rewrite firstn_slice by lia. apply memcpy_before; [|lia].
  rewrite length_cbc_dec by (auto; rewrite ?length_slice; lia). reflexivity.
Qed.
End Loops.

(** ** Whole calls in CBC mode *)

Lemma bits_blocks n :
  Z.to_nat (8 * Z.of_nat n / 128) = (n / 16)%nat /\
  Z.to_nat (8 * Z.of_nat n mod 128 / 8) = (n mod 16)%nat.
Proof.
  replace 128 with (8 * 16) by lia. rewrite Z.div_mul_cancel_l, Z.mul_mod_distr_l by lia.
  rewrite (Z.mul_comm 8), Z.div_mul by lia.
  change 16 with (Z.of_nat 16). rewrite <- Nat2Z.inj_div, <- Nat2Z.inj_mod, !Nat2Z.id. auto.
Qed.

Lemma split_length n : n = (16 * (n / 16) + n mod 16)%nat /\ (n mod 16 < 16)%nat.
Proof. split; [apply Nat.div_mod_eq|apply Nat.mod_upper_bound; lia]. Qed.

Lemma block_encrypt_cbc re mem i o n :
  m_state re = State_Valid -> m_direction re = Direction_Encrypt -> m_mode re = Mode_CBC ->
  (forall a, state_ok a -> state_ok (RijndaelEncrypt re a)) ->
  state_ok (m_initVector re) -> bytes mem -> (16 <= n)%nat -> buffers mem i o n ->
  RijndaelBlockEncrypt re mem (Some i) (8 * Z.of_nat n) o =
  Some (128 * Z.of_nat (n / 16), memcpy mem o (cts_enc (RijndaelEncrypt re) (m_initVector re) (slice mem i n))).
Proof.
  intros H1 H2 H3 HE Hi Hb Hn Hbuf. unfold RijndaelBlockEncrypt. rewrite H1, H2, H3. cbn [negb Z.eqb].
  change (State_Valid =? State_Valid) with true. change (Direction_Encrypt =? Direction_Encrypt) with true.
  change (Mode_CBC =? Mode_ECB) with false. change (Mode_CBC =? Mode_CBC) with true. cbn [negb].
  destruct (bits_blocks n) as [-> ->]. destruct (Z.leb_spec (8 * Z.of_nat n) 0); [lia|].
  destruct (split_length n) as [En Hr]. assert (Hd : (1 <= n / 16)%nat) by (apply Nat.div_str_pos; lia).
  destruct (Nat.eqb_spec (n / 16) 0); [lia|].
  rewrite cbc_encrypt_spec by (auto; rewrite <- En; auto). now rewrite <- En.
Qed.

Lemma block_decrypt_cbc rd mem i o n :
  m_state rd = State_Valid -> m_direction rd = Direction_Decrypt -> m_mode rd = Mode_CBC ->
  (forall a, length (RijndaelDecrypt rd a) = 16%nat) ->
  length (m_initVector rd) = 16%nat -> (16 <= n)%nat -> buffers mem i o n ->
  RijndaelBlockDecrypt rd mem (Some i) (8 * Z.of_nat n) o =
  Some (128 * Z.of_nat (if (0 <? n mod 16)%nat then n / 16 - 1 else n / 16),
        memcpy mem o (cts_dec (RijndaelDecrypt rd) (m_initVector rd) (slice mem i n))).
Proof.
  intros H1 H2 H3 HD Hi Hn Hbuf. unfold RijndaelBlockDecrypt. rewrite H1, H2, H3.
  change (State_Valid =? State_Valid) with true. change (Direction_Decrypt =? Direction_Encrypt) with false.
  change (Mode_CBC =? Mode_ECB) with false. change (Mode_CBC =? Mode_CBC) with true.
  rewrite andb_false_r. cbn [negb].
  destruct (bits_blocks n) as [-> ->]. destruct (Z.leb_spec (8 * Z.of_nat n) 0); [lia|].
  destruct (split_length n) as [En Hr]. assert (Hd : (1 <= n / 16)%nat) by (apply Nat.div_str_pos; lia).
  destruct (Nat.eqb_spec (n / 16) 0); [lia|]. cbn [andb].
  rewrite cbc_decrypt_spec by (auto; rewrite <- En; auto). now rewrite <- En.
Qed.

Section Ext.
Context (E E' : list Z -> list Z).
Hypothesis (HE : forall a, state_ok a -> state_ok (E a)) (Heq : forall a, state_ok a -> E a = E' a).

Lemma cbc_enc_ext iv n l :
  state_ok iv -> bytes l -> (16 * n <= length l)%nat -> cbc_enc E iv n l = cbc_enc E' iv n l.
Proof.
  revert iv l. induction n as [|n IH]; intros iv l Hi Hb Hl; [reflexivity|]. cbn [cbc_enc].
  assert (Hx : state_ok (xor_list iv (firstn 16 l))).
  { apply state_xor; auto. split; [rewrite length_firstn; lia|auto with words]. }
  rewrite <- Heq by auto. rewrite IH; auto with words. rewrite length_skipn. lia.
Qed.

Lemma cts_enc_ext iv l :
  state_ok iv -> bytes l -> (16 <= length l)%nat -> cts_enc E iv l = cts_enc E' iv l.
Proof.
  intros Hi Hb Hl. unfold cts_enc. destruct (split_length (length l)) as [En Hr].
  rewrite <- cbc_enc_ext by (auto; lia). destruct (Nat.eqb_spec (length l mod 16) 0) as [_|_]; [reflexivity|].
  set (n := (length l / 16)%nat) in *. set (r := (length l mod 16)%nat) in *.
  pose proof (chain_state E HE iv n l Hi Hb ltac:(lia)) as [Lc Bc]. rewrite Heq; [reflexivity|].
  split; [|apply bytes_app; auto with words].
  rewrite length_app, length_xor_list, length_firstn, !length_skipn. lia.
Qed.
End Ext.

(** What the page ciphers rely on: a pair of objects made from one key and one
    initial vector encrypts to AES in CBC mode with ciphertext stealing, and
    decrypts it. *)
Lemma cbc_calls rij rij' keyLen nbytes rounds key iv :
  length (m_expandedKey rij) = 60%nat -> length (m_expandedKey rij') = 60%nat ->
  key_params keyLen = Some (nbytes, rounds) -> bytes key -> (nbytes <= length key)%nat -> state_ok iv ->
  exists re rd,
    RijndaelInit rij Mode_CBC Direction_Encrypt (Some key) keyLen (Some iv) = (RIJNDAEL_SUCCESS, re) /\
    RijndaelInit rij' Mode_CBC Direction_Decrypt (Some key) keyLen (Some iv) = (RIJNDAEL_SUCCESS, rd) /\
    (forall mem i o n, bytes mem -> (16 <= n)%nat -> buffers mem i o n ->
       RijndaelBlockEncrypt re mem (Some i) (8 * Z.of_nat n) o =
       Some (128 * Z.of_nat (n / 16), memcpy mem o (cts_enc (fips_aes nbytes key) iv (slice mem i n)))) /\
    (forall mem i o n l, bytes l -> (16 <= n)%nat -> length l = n -> buffers mem i o n ->
       slice mem i n = cts_enc (fips_aes nbytes key) iv l ->
       RijndaelBlockDecrypt rd mem (Some i) (8 * Z.of_nat n) o =
       Some (128 * Z.of_nat (if (0 <? n mod 16)%nat then n / 16 - 1 else n / 16), memcpy mem o l)) /\
    (forall l, bytes l -> (16 <= length l)%nat ->
       length (cts_enc (fips_aes nbytes key) iv l) = length l /\ bytes (cts_enc (fips_aes nbytes key) iv l)).
Proof.
  intros Hl Hl' Hk Hb Hlen Hi. assert (Hm : mode_ok Mode_CBC) by (right; left; reflexivity).
  destruct (key_pair_init rij rij' Mode_CBC keyLen nbytes rounds key (Some iv) (Some iv))
    as (re & rd & Ee & Ed & _ & HD & HE); auto.
  exists re, rd. split; [exact Ee|]. split; [exact Ed|].
  apply (RijndaelInit_fields _ _ _ _ _ _ nbytes rounds) in Ee as (E1 & E2 & E3 & E4); auto.
  apply (RijndaelInit_fields _ _ _ _ _ _ nbytes rounds) in Ed as (D1 & D2 & D3 & D4); auto.
  rewrite firstn_all2 in E4, D4 by (destruct Hi; lia).
  assert (HEs : forall a, state_ok a -> state_ok (RijndaelEncrypt re a)) by (intros; now apply HE).
  assert (Hext : forall l, bytes l -> (16 <= length l)%nat ->
            cts_enc (fips_aes nbytes key) iv l = cts_enc (RijndaelEncrypt re) iv l).
  { intros l Bl Ll. symmetry. apply cts_enc_ext; auto. intros a Ha. now apply HE. }
  split; [|split].
  - intros mem i o n Bm Hn Hbuf.
    rewrite block_encrypt_cbc, E4, Hext; rewrite ?E4; auto with words.
    destruct Hbuf as (? & ? & ?). rewrite length_slice; lia.
  - intros mem i o n l Bl Hn Ll Hbuf Hc.
    rewrite block_decrypt_cbc, D4, Hc, Hext; rewrite ?D4; auto; try (destruct Hi; lia).
    rewrite cts_dec_enc by (auto; intros; try apply HE; auto; lia). reflexivity.
  - intros l Bl Ll. rewrite Hext by auto. now apply length_cts_enc.
Qed.

(** CBC encryption is AES-CBC with ciphertext stealing, and decryption undoes
    it, for every key length, key, initial vector and message of at least one block
    (of any length, not only multiples of sixteen), in place or between disjoint
    buffers: encrypting [n] bytes at [i] to [o] returns the number of full blocks in
    bits and writes exactly the [n] bytes of the reference mode over the cipher of
    FIPS 197; decrypting them from [o] to [o'] writes the original bytes at [o']. *)
Theorem rijndael_cbc_roundtrip rij rij' keyLen nbytes rounds key iv mem i o o' n :
  length (m_expandedKey rij) = 60%nat -> length (m_expandedKey rij') = 60%nat ->
  key_params keyLen = Some (nbytes, rounds) -> bytes key -> (nbytes <= length key)%nat -> state_ok iv ->
  bytes mem -> (16 <= n)%nat -> buffers mem i o n -> buffers mem o o' n ->
  exists re rd mem1 rc,
    RijndaelInit rij Mode_CBC Direction_Encrypt (Some key) keyLen (Some iv) = (RIJNDAEL_SUCCESS, re) /\
    RijndaelInit rij' Mode_CBC Direction_Decrypt (Some key) keyLen (Some iv) = (RIJNDAEL_SUCCESS, rd) /\
    RijndaelBlockEncrypt re mem (Some i) (8 * Z.of_nat n) o = Some (128 * Z.of_nat (n / 16), mem1) /\
    mem1 = memcpy mem o (cts_enc (fips_aes nbytes key) iv (slice mem i n)) /\
    RijndaelBlockDecrypt rd mem1 (Some o) (8 * Z.of_nat n) o' =
      Some (rc, memcpy mem1 o' (slice mem i n)) /\ 0 <= rc.
Proof.
  intros Hl Hl' Hk Hb Hlen Hi Bm Hn B1 B2.
  destruct (cbc_calls rij rij' keyLen nbytes rounds key iv) as (re & rd & Ee & Ed & He & Hd & Hc); auto.
  assert (Ls : length (slice mem i n) = n) by (apply length_slice, B1).
  destruct (Hc (slice mem i n)) as [Lc Bc]; [auto with words|lia|].
  exists re, rd, (memcpy mem o (cts_enc (fips_aes nbytes key) iv (slice mem i n))). eexists.
  repeat (split; [first [exact Ee|exact Ed|now apply He|reflexivity]|]).
  assert (Lo : (o + n <= length mem)%nat) by apply B1. split.
  - apply Hd; auto with words.
    + destruct B2 as (? & ? & ?). unfold buffers. rewrite length_memcpy by lia. auto.
    + apply slice_memcpy_eq; lia.
  - destruct (0 <? n mod 16)%nat; lia.
Qed.

Lemma rijndael_cbc_roundtrip_witness :
  let key := map Z.of_nat (seq 0 32) in let iv := memset 3 16 in let mem := map Z.of_nat (seq 40 60) in
  exists re rd mem1 rc,
    RijndaelInit rijndael0 Mode_CBC Direction_Encrypt (Some key) Key32Bytes (Some iv) = (RIJNDAEL_SUCCESS, re) /\
    RijndaelInit rijndael0 Mode_CBC Direction_Decrypt (Some key) Key32Bytes (Some iv) = (RIJNDAEL_SUCCESS, rd) /\
    RijndaelBlockEncrypt re mem (Some 10%nat) (8 * Z.of_nat 37) 10 = Some (128 * Z.of_nat (37 / 16), mem1) /\
    mem1 = memcpy mem 10 (cts_enc (fips_aes 32 key) iv (slice mem 10 37)) /\
    RijndaelBlockDecrypt rd mem1 (Some 10%nat) (8 * Z.of_nat 37) 10 =
      Some (rc, memcpy mem1 10 (slice mem 10 37)) /\ 0 <= rc.
Proof.
  apply (rijndael_cbc_roundtrip rijndael0 rijndael0 Key32Bytes 32 14).
  - reflexivity.
  - reflexivity.
  - reflexivity.
  - apply bytesb_bytes. reflexivity.
  - cbn. lia.
  - split; [reflexivity|apply bytesb_bytes; reflexivity].
  - apply bytesb_bytes. reflexivity.
  - lia.
  - split; [cbn; lia|split; [cbn; lia|left; reflexivity]].
  - split; [cbn; lia|split; [cbn; lia|left; reflexivity]].
Defined.

(** ** Padded messages *)

(** The padding: one to sixteen bytes, each holding their number. *)
Definition pkcs (l : list Z) : list Z :=
  let p := (16 - length l mod 16)%nat in l ++ memset (Z.of_nat p) p.

(** Input of [n] bytes and output of the padded length. *)
Definition pad_buffers (mem : list Z) (input outBuffer n : nat) : Prop :=
  (input + n <= length mem)%nat /\ (outBuffer + 16 * S (n / 16) <= length mem)%nat /\
  (input = outBuffer \/ input + n <= outBuffer \/ outBuffer + 16 * S (n / 16) <= input)%nat.

Lemma length_pkcs l : length (pkcs l) = (16 * S (length l / 16))%nat.
Proof.
  unfold pkcs. rewrite length_app, length_memset. destruct (split_length (length l)) as [H ?]. lia.
Qed.

Lemma bytes_pkcs l : bytes l -> bytes (pkcs l).
Proof.
  intros H. apply bytes_app. split; [exact H|]. apply bytes_memset.
  pose proof (Nat.mod_upper_bound (length l) 16). unfold is_byte. lia.
Qed.

Lemma pkcs_last l : slice (pkcs l) (16 * (length l / 16)) 16 =
  skipn (16 * (length l / 16)) l ++ memset (Z.of_nat (16 - length l mod 16)) (16 - length l mod 16).
Proof.
  unfold slice, pkcs. destruct (split_length (length l)) as [H ?].
  rewrite skipn_app. replace (16 * (length l / 16) - length l)%nat with 0%nat by lia. cbn [skipn].
  apply firstn_all2. rewrite length_app, length_skipn, length_memset. lia.
Qed.

Lemma firstn_pkcs l n : (n <= length l)%nat -> firstn n (pkcs l) = firstn n l.
Proof.
  intros H. unfold pkcs. rewrite firstn_app. replace (n - length l)%nat with 0%nat by lia.
  apply app_nil_r.
Qed.

(** The padding check accepts what the padding writes. *)
Lemma pad_bytes_ok_pkcs x p :
  (p <= 16)%nat -> length x = (16 - p)%nat -> pad_bytes_ok (x ++ memset (Z.of_nat p) p) p = true.
Proof.
  intros Hp Hx. unfold pad_bytes_ok. apply forallb_forall. intros i Hi. apply in_seq in Hi.
  rewrite app_nth2 by lia. unfold memset.
  rewrite nth_repeat_lt by lia. apply Z.eqb_refl.
Qed.

Lemma pad_block_pkcs mem i n :
  (i + n <= length mem)%nat ->
  pad_block mem (i + 16 * (n / 16)) (16 - n mod 16) = slice (pkcs (slice mem i n)) (16 * (n / 16)) 16.
Proof.
  intros H. pose proof (pkcs_last (slice mem i n)) as E. rewrite length_slice in E by auto. rewrite E.
  unfold pad_block. f_equal. destruct (split_length n) as [En ?].
  set (q := (n / 16)%nat) in *. set (r := (n mod 16)%nat) in *. rewrite En, skipn_slice.
  f_equal. lia.
Qed.

Section Pad.
Context (E : list Z -> list Z) (HE : forall a, state_ok a -> state_ok (E a)).

Lemma pad_cbc_loop_spec n : forall iv i o mem,
  bytes mem -> state_ok iv -> buffers mem i o (16 * n) ->
  let c := cbc_enc E iv n (slice mem i (16 * n)) in
  pad_cbc_loop E n i o iv mem = (chain iv n c, memcpy mem o c).
Proof.
  induction n as [|n IH]; intros iv i o mem Hb Hi (Hil & Hol & Hs); cbn [pad_cbc_loop cbc_enc].
  { cbn zeta. now rewrite memcpy_nil. }
  rewrite firstn_slice by lia. replace (16 * S n)%nat with (16 + 16 * n)%nat by lia.
  rewrite skipn_slice, (xor_list_comm (slice mem i 16)). cbn zeta.
  assert (Hc : state_ok (E (xor_list iv (slice mem i 16)))).
  { apply HE, state_xor; auto. apply slice_state; auto; lia. }
  set (c := E _) in *. pose proof Hc as [Lc Bc].
  assert (Lm : length (memcpy mem o c) = length mem) by (apply length_memcpy; lia).
  rewrite IH by (auto with words; unfold buffers; rewrite ?Lm; lia). cbn zeta.
  rewrite slice_memcpy_ne by lia. rewrite chain_app by auto. f_equal.
  apply memcpy_memcpy; [lia|].
  destruct (length_cbc_enc E HE c n (slice mem (i + 16) (16 * n))) as [-> _];
    [now split|auto with words|rewrite length_slice; lia|lia].
Qed.
End Pad.

Lemma pad_length n : (16 - (n - 16 * (n / 16)))%nat = (16 - n mod 16)%nat.
Proof. destruct (split_length n). lia. Qed.

Lemma pad_encrypt_cbc re mem i o n :
  m_state re = State_Valid -> m_direction re = Direction_Encrypt -> m_mode re = Mode_CBC ->
  (forall a, state_ok a -> state_ok (RijndaelEncrypt re a)) ->
  state_ok (m_initVector re) -> bytes mem -> (1 <= n)%nat -> pad_buffers mem i o n ->
  RijndaelPadEncrypt re mem (Some i) (Z.of_nat n) o =
  (16 * (Z.of_nat (n / 16) + 1),
   memcpy mem o (cbc_enc (RijndaelEncrypt re) (m_initVector re) (S (n / 16)) (pkcs (slice mem i n)))).
Proof.
  intros H1 H2 H3 HE Hi Hb Hn (Hil & Hol & Hs). unfold RijndaelPadEncrypt. rewrite H1, H2, H3.
  change (State_Valid =? State_Valid) with true. change (Direction_Encrypt =? Direction_Encrypt) with true.
  change (Mode_CBC =? Mode_ECB) with false. change (Mode_CBC =? Mode_CBC) with true. cbn [negb].
  destruct (Z.leb_spec (Z.of_nat n) 0); [lia|]. rewrite Nat2Z.id, pad_length.
  destruct (split_length n) as [En Hr]. pose proof (pad_block_pkcs mem i n Hil) as Epb.
  pose proof (length_pkcs (slice mem i n)) as Lp. rewrite length_slice in Lp by auto.
  pose proof (firstn_pkcs (slice mem i n) (16 * (n / 16))) as Ef. rewrite length_slice in Ef by auto.
  set (q := (n / 16)%nat) in *. set (r := (n mod 16)%nat) in *.
  rewrite firstn_slice in Ef by lia. specialize (Ef ltac:(lia)).
  rewrite pad_cbc_loop_spec by (auto; unfold buffers; lia). cbv zeta.
  rewrite <- Ef, cbc_enc_prefix. set (l := pkcs (slice mem i n)) in *.
  assert (Bl : bytes l) by (apply bytes_pkcs; auto with words).
  destruct (length_cbc_enc (RijndaelEncrypt re) HE (m_initVector re) q l) as [Lc _]; auto; [lia|].
  pose proof (chain_state (RijndaelEncrypt re) HE (m_initVector re) q l Hi Bl ltac:(lia)) as Hch.
  rewrite cbc_enc_snoc by (auto; lia). set (c := cbc_enc _ _ q l) in *. f_equal.
  assert (Epb' : pad_block (memcpy mem o c) (i + 16 * q) (16 - r) = slice l (16 * q) 16).
  { rewrite <- Epb. unfold pad_block. rewrite slice_memcpy_ne by lia. reflexivity. }
  rewrite Epb', (xor_list_comm (slice l _ _)).
  assert (Hx : state_ok (RijndaelEncrypt re (xor_list (chain (m_initVector re) q c) (slice l (16 * q) 16)))).
  { apply HE, state_xor; auto. apply slice_state; auto; lia. }
  apply memcpy_memcpy; [lia|]. destruct Hx as [-> _]. lia.
Qed.

Lemma pad_last_byte x p :
  (1 <= p <= 16)%nat -> length x = (16 - p)%nat -> (x ++ memset (Z.of_nat p) p).[15] = Z.of_nat p.
Proof. intros Hp Hx. rewrite app_nth2 by lia. unfold memset. now rewrite nth_repeat_lt by lia. Qed.

Lemma pad_decrypt_cbc rd E mem l o o' :
  let q := (length l / 16)%nat in
  m_state rd = State_Valid -> m_direction rd = Direction_Decrypt -> m_mode rd = Mode_CBC ->
  (forall a, length (RijndaelDecrypt rd a) = 16%nat) ->
  (forall a, state_ok a -> state_ok (E a)) -> (forall a, state_ok a -> RijndaelDecrypt rd (E a) = a) ->
  state_ok (m_initVector rd) -> bytes l -> buffers mem o o' (16 * S q) ->
  slice mem o (16 * S q) = cbc_enc E (m_initVector rd) (S q) (pkcs l) ->
  RijndaelPadDecrypt rd mem (Some o) (16 * (Z.of_nat q + 1)) o' =
  (Z.of_nat (length l), memcpy mem o' l).
Proof.
  intros q H1 H2 H3 HL HE HD Hi Bl (Hol & Hol' & Hs) Hc. unfold RijndaelPadDecrypt. rewrite H1, H2, H3.
  change (State_Valid =? State_Valid) with true. change (Direction_Decrypt =? Direction_Decrypt) with true.
  change (Mode_CBC =? Mode_ECB) with false. change (Mode_CBC =? Mode_CBC) with true. cbn [negb].
  destruct (Z.leb_spec (16 * (Z.of_nat q + 1)) 0); [lia|].
  rewrite (Z.mul_comm 16), Z.mod_mul by lia. cbn [Z.eqb negb].
  replace (Z.to_nat ((Z.of_nat q + 1) * 16) / 16)%nat with (S q)
    by (replace (Z.to_nat ((Z.of_nat q + 1) * 16)) with (S q * 16)%nat by lia; now rewrite Nat.div_mul).
  replace (S q - 1)%nat with q by lia.
  rewrite cbc_dec_loop_spec by (auto; try (unfold buffers; lia); apply Hi). cbv zeta.
  pose proof (length_pkcs l) as Lp. pose proof (bytes_pkcs l Bl) as Bp.
  pose proof (pkcs_last l) as El. pose proof (firstn_pkcs l (16 * q)) as Ef.
  destruct (split_length (length l)) as [En Hr]. fold q in Lp, El, En.
  set (r := (length l mod 16)%nat) in *. specialize (Ef ltac:(lia)).
  destruct (length_cbc_enc E HE (m_initVector rd) q (pkcs l)) as [Lc _]; auto; [lia|].
  pose proof (chain_state E HE (m_initVector rd) q (pkcs l) Hi Bp ltac:(lia)) as Hch.
  pose proof (cbc_dec_enc E (RijndaelDecrypt rd) HE HD (m_initVector rd) q (pkcs l) [] Hi Bp ltac:(lia)) as Hdec.
  rewrite cbc_enc_snoc in Hc by (auto; lia). rewrite app_nil_r in Hdec.
  set (c := cbc_enc _ _ q (pkcs l)) in *.
  replace (16 * S q)%nat with (16 * q + 16)%nat in Hc by lia. rewrite slice_plus in Hc.
  apply app_inj_len in Hc as [Hc1 Hc2]; [|rewrite length_slice; lia].
  rewrite Hc1, Hdec, Ef.
  assert (Lf : length (firstn (16 * q) l) = (16 * q)%nat) by (rewrite length_firstn; lia).
  rewrite slice_memcpy_ne, Hc2 by lia.
  assert (Hs16 : state_ok (slice (pkcs l) (16 * q) 16)) by (apply slice_state; auto; lia).
  rewrite HD by (apply state_xor; auto).
  rewrite xor_list_invol_l by (destruct Hch, Hs16; lia). rewrite El.
  rewrite pad_last_byte by (rewrite ?length_skipn; lia).
  destruct (Z.leb_spec (Z.of_nat (16 - r)) 0); [lia|]. rewrite Z.gtb_ltb.
  destruct (Z.ltb_spec 16 (Z.of_nat (16 - r))); [lia|]. cbn [orb]. rewrite Nat2Z.id.
  rewrite pad_bytes_ok_pkcs by (rewrite ?length_skipn; lia). cbn [negb].
  rewrite (firstn_app_l (skipn (16 * q) l)) by (rewrite length_skipn; lia). f_equal; [lia|].
  rewrite memcpy_memcpy by (rewrite ?Lf, ?length_skipn; lia). now rewrite firstn_skipn.
Qed.

(** Padding round trip in CBC mode: for every key length, key, initial vector and
    non-empty message, [RijndaelPadEncrypt] returns the padded length and writes the
    CBC encryption of the message followed by [p] bytes of value [p], and
    [RijndaelPadDecrypt] of that buffer accepts the padding, returns the length of the
    message and writes the message, in place or between disjoint buffers. *)
Theorem rijndael_pad_cbc_roundtrip rij rij' keyLen nbytes rounds key iv mem i o o' n :
  length (m_expandedKey rij) = 60%nat -> length (m_expandedKey rij') = 60%nat ->
  key_params keyLen = Some (nbytes, rounds) -> bytes key -> (nbytes <= length key)%nat -> state_ok iv ->
  bytes mem -> (1 <= n)%nat -> pad_buffers mem i o n -> buffers mem o o' (16 * S (n / 16)) ->
  exists re rd mem1,
    RijndaelInit rij Mode_CBC Direction_Encrypt (Some key) keyLen (Some iv) = (RIJNDAEL_SUCCESS, re) /\
    RijndaelInit rij' Mode_CBC Direction_Decrypt (Some key) keyLen (Some iv) = (RIJNDAEL_SUCCESS, rd) /\
    RijndaelPadEncrypt re mem (Some i) (Z.of_nat n) o = (16 * (Z.of_nat (n / 16) + 1), mem1) /\
    mem1 = memcpy mem o (cbc_enc (fips_aes nbytes key) iv (S (n / 16)) (pkcs (slice mem i n))) /\
    RijndaelPadDecrypt rd mem1 (Some o) (16 * (Z.of_nat (n / 16) + 1)) o' =
      (Z.of_nat n, memcpy mem1 o' (slice mem i n)).
Proof.
  intros Hl Hl' Hk Hb Hlen Hi Bm Hn B1 B2. assert (Hm : mode_ok Mode_CBC) by (right; left; reflexivity).
  destruct (key_pair_init rij rij' Mode_CBC keyLen nbytes rounds key (Some iv) (Some iv))
    as (re & rd & Ee & Ed & _ & HD & HE); auto.
  pose proof Ee as Fe. pose proof Ed as Fd.
  apply (RijndaelInit_fields _ _ _ _ _ _ nbytes rounds) in Fe as (E1 & E2 & E3 & E4); auto.
  apply (RijndaelInit_fields _ _ _ _ _ _ nbytes rounds) in Fd as (D1 & D2 & D3 & D4); auto.
  rewrite firstn_all2 in E4, D4 by (destruct Hi; lia).
  assert (HEs : forall a, state_ok a -> state_ok (RijndaelEncrypt re a)) by (intros; now apply HE).
  assert (Ls : length (slice mem i n) = n) by (apply length_slice, B1).
  assert (Bl : bytes (pkcs (slice mem i n))) by (apply bytes_pkcs; auto with words).
  pose proof (length_pkcs (slice mem i n)) as Lp. rewrite Ls in Lp.
  exists re, rd. eexists. split; [exact Ee|]. split; [exact Ed|].
  split; [rewrite pad_encrypt_cbc by (rewrite ?E4; auto); reflexivity|]. rewrite E4.
  destruct (length_cbc_enc (RijndaelEncrypt re) HEs iv (S (n / 16)) (pkcs (slice mem i n))) as [Lc _];
    auto; [lia|].
  split.
  { f_equal. apply cbc_enc_ext; auto; [intros a Ha; now apply HE|lia]. }
  destruct B1 as (? & ? & ?), B2 as (? & ? & ?).
  pose proof (pad_decrypt_cbc rd (RijndaelEncrypt re)) as P. rewrite D4 in P.
  replace (n / 16)%nat with (length (slice mem i n) / 16)%nat at 2 by now rewrite Ls.
  rewrite P; rewrite ?Ls; auto with words.
  - intros a Ha. now apply HE.
  - unfold buffers. rewrite length_memcpy by lia. auto.
  - apply slice_memcpy_eq; lia.
Qed.

Lemma rijndael_pad_cbc_roundtrip_witness :
  let key := map Z.of_nat (seq 0 24) in let iv := memset 3 16 in let mem := map Z.of_nat (seq 40 60) in
  exists re rd mem1,
    RijndaelInit rijndael0 Mode_CBC Direction_Encrypt (Some key) Key24Bytes (Some iv) = (RIJNDAEL_SUCCESS, re) /\
    RijndaelInit rijndael0 Mode_CBC Direction_Decrypt (Some key) Key24Bytes (Some iv) = (RIJNDAEL_SUCCESS, rd) /\
    RijndaelPadEncrypt re mem (Some 3%nat) (Z.of_nat 32) 3 = (16 * (Z.of_nat (32 / 16) + 1), mem1) /\
    mem1 = memcpy mem 3 (cbc_enc (fips_aes 24 key) iv (S (32 / 16)) (pkcs (slice mem 3 32))) /\
    RijndaelPadDecrypt rd mem1 (Some 3%nat) (16 * (Z.of_nat (32 / 16) + 1)) 3 =
      (Z.of_nat 32, memcpy mem1 3 (slice mem 3 32)).
Proof.
  apply (rijndael_pad_cbc_roundtrip rijndael0 rijndael0 Key24Bytes 24 12).
  - reflexivity.
  - reflexivity.
  - reflexivity.
  - apply bytesb_bytes. reflexivity.
  - cbn. lia.
  - split; [reflexivity|apply bytesb_bytes; reflexivity].
  - apply bytesb_bytes. reflexivity.
  - lia.
  - split; [cbn; lia|split; [cbn; lia|left; reflexivity]].
  - split; [cbn; lia|split; [cbn; lia|left; reflexivity]].
Defined.

(** The ECB loop leaves the rest of the memory alone. *)
Lemma ecb_loop_frame f n : (forall a, length (f a) = 16%nat) -> forall i o mem j,
  (o + 16 * n <= length mem)%nat -> (j + 16 <= o \/ o + 16 * n <= j)%nat ->
  length (ecb_loop f n i o mem) = length mem /\
  slice (ecb_loop f n i o mem) j 16 = slice mem j 16.
Proof.
  intros Hf. induction n as [|n IH]; intros i o mem j Hl Hj; [now split|]. cbn [ecb_loop].
  assert (Lm : length (memcpy mem o (f (slice mem i 16))) = length mem)
    by (apply length_memcpy; rewrite Hf; lia).
  destruct (IH (i + 16)%nat (o + 16)%nat (memcpy mem o (f (slice mem i 16))) j) as [-> ->]; try lia.
  split; [exact Lm|]. apply slice_memcpy_ne; rewrite Hf; lia.
Qed.

(** In ECB mode the padding does not round trip: whenever the message is a
    positive multiple of sixteen bytes, [RijndaelPadEncrypt] appends a whole block of
    sixteen bytes of value 16, as its interface says, and [RijndaelPadDecrypt] with
    the right key rejects the result as corrupted. *)
Theorem rijndael_pad_ecb_rejects rij rij' keyLen nbytes rounds key iv mem i o o' q :
  length (m_expandedKey rij) = 60%nat -> length (m_expandedKey rij') = 60%nat ->
  key_params keyLen = Some (nbytes, rounds) -> bytes key -> (nbytes <= length key)%nat ->
  (1 <= q)%nat -> (o + 16 * S q <= length mem)%nat -> buffers mem o o' (16 * S q) ->
  exists re rd mem1 mem2,
    RijndaelInit rij Mode_ECB Direction_Encrypt (Some key) keyLen iv = (RIJNDAEL_SUCCESS, re) /\
    RijndaelInit rij' Mode_ECB Direction_Decrypt (Some key) keyLen iv = (RIJNDAEL_SUCCESS, rd) /\
    RijndaelPadEncrypt re mem (Some i) (16 * Z.of_nat q) o = (16 * (Z.of_nat q + 1), mem1) /\
    RijndaelPadDecrypt rd mem1 (Some o) (16 * (Z.of_nat q + 1)) o' = (RIJNDAEL_CORRUPTED_DATA, mem2).
Proof.
  intros Hl Hl' Hk Hb Hlen Hq Ho B2. assert (Hm : mode_ok Mode_ECB) by (left; reflexivity).
  destruct (key_pair_init rij rij' Mode_ECB keyLen nbytes rounds key iv iv)
    as (re & rd & Ee & Ed & HL & HD & HE); auto.
  pose proof Ee as Fe. pose proof Ed as Fd.
  apply (RijndaelInit_fields _ _ _ _ _ _ nbytes rounds) in Fe as (E1 & E2 & E3 & E4); auto.
  apply (RijndaelInit_fields _ _ _ _ _ _ nbytes rounds) in Fd as (D1 & D2 & D3 & D4); auto.
  exists re, rd. unfold RijndaelPadEncrypt, RijndaelPadDecrypt. rewrite E1, E2, E3, D1, D2, D3.
  change (State_Valid =? State_Valid) with true. change (Direction_Decrypt =? Direction_Decrypt) with true.
  change (Direction_Encrypt =? Direction_Encrypt) with true. change (Mode_ECB =? Mode_ECB) with true.
  cbn [negb]. destruct (Z.leb_spec (16 * Z.of_nat q) 0); [lia|].
  destruct (Z.leb_spec (16 * (Z.of_nat q + 1)) 0); [lia|].
  replace (Z.to_nat (16 * Z.of_nat q) / 16)%nat with q
    by (replace (Z.to_nat (16 * Z.of_nat q)) with (q * 16)%nat by lia; now rewrite Nat.div_mul).
  replace (Z.to_nat (16 * (Z.of_nat q + 1)) / 16)%nat with (S q)
    by (replace (Z.to_nat (16 * (Z.of_nat q + 1))) with (S q * 16)%nat by lia; now rewrite Nat.div_mul).
  replace (16 * (Z.of_nat q + 1) mod 16 =? 0) with true
    by (rewrite Z.mul_comm, Z.mod_mul by lia; reflexivity).
  replace (16 - (Z.to_nat (16 * Z.of_nat q) - 16 * q))%nat with 16%nat by lia.
  replace (S q - 1)%nat with q by lia. cbn [negb].
  eexists. eexists. split; [exact Ee|]. split; [exact Ed|]. split; [reflexivity|].
  destruct (ecb_loop_frame (RijndaelEncrypt re) q HL i o mem (o + 16 * q)) as [L1 _]; try lia.
  set (mem0 := ecb_loop (RijndaelEncrypt re) q i o mem) in *.
  assert (Hpad : state_ok (pad_block mem0 (i + 16 * q) 16)).
  { split; [reflexivity|apply bytesb_bytes; reflexivity]. }
  destruct (HE _ Hpad) as (_ & [Lc _] & Hdec). set (c := RijndaelEncrypt re _) in *.
  assert (L2 : length (memcpy mem0 (o + 16 * q) c) = length mem) by (rewrite length_memcpy; lia).
  destruct B2 as (? & ? & ?).
  destruct (ecb_loop_frame (RijndaelDecrypt rd) q HD o o' (memcpy mem0 (o + 16 * q) c) (o + 16 * q))
    as [_ ->]; try lia.
  rewrite slice_memcpy_eq, Hdec by lia. reflexivity.
Qed.

Lemma rijndael_pad_ecb_rejects_witness :
  let key := map Z.of_nat (seq 0 16) in let mem := map Z.of_nat (seq 40 60) in
  exists re rd mem1 mem2,
    RijndaelInit rijndael0 Mode_ECB Direction_Encrypt (Some key) Key16Bytes None = (RIJNDAEL_SUCCESS, re) /\
    RijndaelInit rijndael0 Mode_ECB Direction_Decrypt (Some key) Key16Bytes None = (RIJNDAEL_SUCCESS, rd) /\
    RijndaelPadEncrypt re mem (Some 5%nat) (16 * Z.of_nat 2) 5 = (16 * (Z.of_nat 2 + 1), mem1) /\
    RijndaelPadDecrypt rd mem1 (Some 5%nat) (16 * (Z.of_nat 2 + 1)) 5 = (RIJNDAEL_CORRUPTED_DATA, mem2).
Proof.
  apply (rijndael_pad_ecb_rejects rijndael0 rijndael0 Key16Bytes 16 10).
  - reflexivity.
  - reflexivity.
  - reflexivity.
  - apply bytesb_bytes. reflexivity.
  - cbn. lia.
  - lia.
  - cbn. lia.
  - split; [cbn; lia|split; [cbn; lia|left; reflexivity]].
Defined.
