(* ===== verification/CodecAlgos.v ===== *)
(** * Algorithms shared by the page ciphers (codec_algos.c)

    RC4, digests of one buffer, the initial vector of a page, AES encryption and
    decryption of a page body, and the recognition of raw keys in passwords.  Local
    digest contexts start from zeros: their contents before initialisation do not
    reach the result.  Strings are lists of character codes. *)

From Stdlib Require Import ZArith Lia List Bool Permutation.
From S2P Require Import Prelude ChaCha20 Streaming Md5 Sha2 RijndaelTables Rijndael RijndaelModes.
Import ListNotations.
Local Open Scope Z_scope.

Definition SQLITE_OK : Z := 0.
Definition SQLITE_ERROR : Z := 1.
Definition KEYLENGTH_AES128 : nat := 16.
Definition KEYLENGTH_AES256 : nat := 32.

(** ** RC4 *)

(** [t = rc4[i]; rc4[i] = rc4[j]; rc4[j] = t]. *)
Definition rc4_swap (rc4 : list Z) (i j : nat) : list Z :=
  let t := rc4.[i] in (rc4.[i <- rc4.[j]]).[j <- t].

Definition rc4_setup (key : list Z) (keylen : nat) : list Z :=
  snd (fold_left (fun '(j, rc4) i =>
         let j := (j + rc4.[i] + key.[i mod keylen]) mod 256 in
         (j, rc4_swap rc4 i (Z.to_nat j)))
       (seq 0 256) (0, map Z.of_nat (seq 0 256))).

(** One turn of the text loop: the new state and the key byte. *)
Definition rc4_step (st : Z * Z * list Z) : (Z * Z * list Z) * Z :=
  let '(a, b, rc4) := st in
  let a := (a + 1) mod 256 in
  let t := rc4.[Z.to_nat a] in
  let b := (b + t) mod 256 in
  let rc4 := rc4_swap rc4 (Z.to_nat a) (Z.to_nat b) in
  ((a, b, rc4), rc4.[Z.to_nat ((rc4.[Z.to_nat a] + rc4.[Z.to_nat b]) mod 256)]).

Fixpoint rc4_text (st : Z * Z * list Z) (textin : list Z) : list Z :=
  match textin with
  | [] => []
  | x :: textin => let '(st, k) := rc4_step st in Z.lxor x k :: rc4_text st textin
  end.

(** The bytes written to [textout], which may be [textin] itself. *)
Definition sqlite3mcRC4 (key : list Z) (keylen : nat) (textin : list Z) : list Z :=
  rc4_text (0, 0, rc4_setup key keylen) textin.

(** ** Digests and the initial vector of a page *)

Definition sqlite3mcGetMD5Binary (data : list Z) : list Z :=
  MD5_Final (MD5_Update (MD5_Init md5_fresh) data).

Definition sqlite3mcGetSHABinary (data : list Z) : list Z := sha256 (memset 0 128) data.

(** [q = s / a; s = b * (s - a * q) - c * q; if (s < 0) s += m]; division of C
    truncates. *)
Definition MODMULT (a b c m s : Z) : Z :=
  let q := Z.quot s a in
  let s := b * (s - a * q) - c * q in
  if s <? 0 then s + m else s.

Definition int_bytes (z : Z) : list Z :=
  [Z.land 0xff z; Z.land 0xff (Z.shiftr z 8); Z.land 0xff (Z.shiftr z 16); Z.land 0xff (Z.shiftr z 24)].

Definition iv_words (seed : Z) : list Z :=
  let z0 := MODMULT 52774 40692 3791 2147483399 (seed + 1) in
  let z1 := MODMULT 52774 40692 3791 2147483399 z0 in
  let z2 := MODMULT 52774 40692 3791 2147483399 z1 in
  let z3 := MODMULT 52774 40692 3791 2147483399 z2 in
  [z0; z1; z2; z3].

Definition sqlite3mcGenerateInitialVector (seed : Z) : list Z :=
  sqlite3mcGetMD5Binary (flat_map int_bytes (iv_words seed)).

(** ** AES on a page *)

(** The page key: the key, the page number and four fixed bytes, hashed. *)
Definition nkey (encryptionKey : list Z) (keyLength : nat) (page : Z) : list Z :=
  firstn keyLength encryptionKey ++ int_bytes page ++ [0x73; 0x41; 0x6c; 0x54].

(** Result: return code, AES object and memory; [None] when [RijndaelBlockEncrypt] or
    [RijndaelBlockDecrypt] leaves the buffers. *)
Definition aes_page (hash : list Z -> list Z) (keyLength : nat) (keyLen : Z) (aesCtx : Rijndael)
    (page : Z) (encrypt : bool) (encryptionKey mem : list Z) (datain : nat) (datalen : Z) (dataout : nat)
    : option (Z * Rijndael * list Z) :=
  let direction := if encrypt then Direction_Encrypt else Direction_Decrypt in
  let pagekey := hash (nkey encryptionKey keyLength page) in
  let initial := sqlite3mcGenerateInitialVector page in
  let aesCtx := snd (RijndaelInit aesCtx Mode_CBC direction (Some pagekey) keyLen (Some initial)) in
  match (if encrypt then RijndaelBlockEncrypt aesCtx mem (Some datain) (datalen * 8) dataout
         else RijndaelBlockDecrypt aesCtx mem (Some datain) (datalen * 8) dataout) with
  | None => None
  | Some (len, mem) => Some (if len <? 0 then SQLITE_ERROR else SQLITE_OK, aesCtx, mem)
  end.

Definition sqlite3mcAES128 := aes_page sqlite3mcGetMD5Binary KEYLENGTH_AES128 Key16Bytes.
Definition sqlite3mcAES256 := aes_page sqlite3mcGetSHABinary KEYLENGTH_AES256 Key32Bytes.

(** ** Raw keys *)

Definition is_hex (c : Z) : bool :=
  negb (((c <? 48) || (c >? 57)) && ((c <? 65) || (c >? 70)) && ((c <? 97) || (c >? 102))).

Definition sqlite3mcIsHexKey (hex : list Z) : bool := forallb is_hex hex.

Definition sqlite3mcConvertHex2Int (c : Z) : Z :=
  if (48 <=? c) && (c <=? 57) then c - 48
  else if (65 <=? c) && (c <=? 70) then c - 65 + 10
  else if (97 <=? c) && (c <=? 102) then c - 97 + 10
  else 0.

(** The bytes written for [len] digits, [len] even. *)
Definition sqlite3mcConvertHex2Bin (hex : list Z) (len : nat) : list Z :=
  map (fun j => Z.lor (Z.shiftl (sqlite3mcConvertHex2Int hex.[2 * j]) 4)
                  (sqlite3mcConvertHex2Int hex.[2 * j + 1]))
    (seq 0 (len / 2)).

(** [sqlite3_strnicmp(p, x', 2) == 0]: an x of either case and a quote. *)
Definition x_quote (p : list Z) : bool := ((p.[0] =? 120) || (p.[0] =? 88)) && (p.[1] =? 39).

Definition raw_prefix : list Z := [114; 97; 119; 58].

(** Result: whether key derivation is bypassed, and the buffers [key] and [salt]. *)
Definition sqlite3mcExtractRawKey (password : list Z) (keyOnly : bool) (keyLength saltLength : nat)
    (key salt : list Z) : bool * list Z * list Z :=
  let passwordLength := length password in
  let bin off len := sqlite3mcConvertHex2Bin (skipn off password) len in
  if (4 <? passwordLength)%nat && list_eqb (firstn 4 password) raw_prefix then
    let nRaw := (passwordLength - 4)%nat in
    let zRaw := skipn 4 password in
    if (nRaw =? keyLength + saltLength)%nat then
      let salt := if keyOnly then salt else memcpy salt 0 (slice zRaw keyLength saltLength) in
      (true, memcpy key 0 (firstn keyLength zRaw), salt)
    else if (nRaw =? keyLength)%nat then (true, memcpy key 0 (firstn keyLength zRaw), salt)
    else if (nRaw =? 2 * keyLength)%nat then
      if sqlite3mcIsHexKey zRaw then (true, memcpy key 0 (bin 4%nat nRaw), salt)
      else (false, key, salt)
    else if (nRaw =? 2 * (keyLength + saltLength))%nat then
      if sqlite3mcIsHexKey zRaw then
        let key := memcpy key 0 (bin 4%nat (2 * keyLength)%nat) in
        let salt := if keyOnly then salt
                    else memcpy salt 0 (bin (4 + 2 * keyLength)%nat (2 * saltLength)%nat) in
        (true, key, salt)
      else (false, key, salt)
    else (false, key, salt)
  else if (passwordLength =? keyLength * 2 + 3)%nat && x_quote password &&
          sqlite3mcIsHexKey (slice password 2 (keyLength * 2)) then
    (true, memcpy key 0 (bin 2%nat (passwordLength - 3)%nat), salt)
  else if (passwordLength =? (keyLength + saltLength) * 2 + 3)%nat && x_quote password &&
          sqlite3mcIsHexKey (slice password 2 ((keyLength + saltLength) * 2)) then
    let key := memcpy key 0 (bin 2%nat (keyLength * 2)%nat) in
    let salt := if keyOnly then salt
                else memcpy salt 0 (bin (2 + keyLength * 2)%nat (saltLength * 2)%nat) in
    (true, key, salt)
  else (false, key, salt).

(** Key and text of the test vector that the cipher is usually checked with. *)
Example rc4_vector :
  sqlite3mcRC4 [75; 101; 121] 3 [80; 108; 97; 105; 110; 116; 101; 120; 116] =
  [0xbb; 0xf3; 0x16; 0xe8; 0xd9; 0x40; 0xaf; 0x0a; 0xd3].
Proof. vm_compute. reflexivity. Qed.

(** ** RC4 is a stream cipher *)

Fixpoint rc4_stream (st : Z * Z * list Z) (n : nat) : list Z :=
  match n with
  | O => []
  | S n => let '(st, k) := rc4_step st in k :: rc4_stream st n
  end.

Definition rc4_keystream (key : list Z) (keylen n : nat) : list Z :=
  rc4_stream (0, 0, rc4_setup key keylen) n.

Lemma rc4_text_stream st text : rc4_text st text = xor_list text (rc4_stream st (length text)).
Proof.
  revert st. induction text as [|x text IH]; intros st; [reflexivity|].
  cbn [rc4_text length rc4_stream]. destruct (rc4_step st) as [st' k]. now rewrite IH.
Qed.

Lemma length_rc4_stream st n : length (rc4_stream st n) = n.
Proof.
  revert st. induction n as [|n IH]; intros st; [reflexivity|]. cbn [rc4_stream].
  destruct (rc4_step st). cbn [length]. now rewrite IH.
Qed.

(** The state stays a permutation of the 256 bytes. *)
Definition rc4_perm (rc4 : list Z) : Prop := Permutation rc4 (map Z.of_nat (seq 0 256)).

Lemma upd_perm (l : list Z) i v : (i < length l)%nat -> Permutation (l.[i] :: l.[i <- v]) (v :: l).
Proof.
  revert i. induction l as [|x l IH]; intros [|i] Hi; cbn [length] in Hi; try lia; cbn [nth upd].
  - apply perm_swap.
  - rewrite perm_swap, IH by lia. apply perm_swap.
Qed.

Lemma rc4_swap_perm l i j : (i < length l)%nat -> (j < length l)%nat -> Permutation (rc4_swap l i j) l.
Proof.
  intros Hi Hj. unfold rc4_swap. set (l1 := l.[i <- l.[j]]).
  assert (E : l1.[j] = l.[j]).
  { subst l1. destruct (Nat.eq_dec i j) as [->|Hn]; [apply nth_upd_eq|apply nth_upd_ne]; auto. }
  apply (Permutation_cons_inv (a := l.[j])). rewrite <- E at 1.
  rewrite upd_perm by (subst l1; now rewrite length_upd). apply upd_perm, Hi.
Qed.

Lemma rc4_perm_bytes l : rc4_perm l -> length l = 256%nat /\ bytes l.
Proof.
  intros H. split; [rewrite (Permutation_length H); reflexivity|].
  apply (Permutation_Forall (Permutation_sym H)). apply bytesb_bytes. reflexivity.
Qed.

Lemma mod256_index z : (Z.to_nat (z mod 256) < 256)%nat.
Proof. pose proof (Z.mod_pos_bound z 256). lia. Qed.

Lemma rc4_swap_ok l i j : rc4_perm l -> (i < 256)%nat -> (j < 256)%nat -> rc4_perm (rc4_swap l i j).
Proof.
  intros H Hi Hj. destruct (rc4_perm_bytes l H) as [L _]. unfold rc4_perm.
  rewrite rc4_swap_perm by lia. exact H.
Qed.

Lemma rc4_setup_ok key keylen : rc4_perm (rc4_setup key keylen).
Proof.
  unfold rc4_setup.
  assert (G : forall n, (n <= 256)%nat -> rc4_perm (snd (fold_left (fun '(j, rc4) i =>
         let j := (j + rc4.[i] + key.[i mod keylen]) mod 256 in
         (j, rc4_swap rc4 i (Z.to_nat j)))
       (seq 0 n) (0, map Z.of_nat (seq 0 256))))).
  { induction n as [|n IH]; intros Hn; [apply Permutation_refl|].
    rewrite seq_S, fold_left_app. cbn [fold_left Nat.add]. destruct (fold_left _ _ _) as [j rc4].
    cbn [snd] in *. apply rc4_swap_ok; [apply IH; lia|lia|apply mod256_index]. }
  apply G. lia.
Qed.

Lemma rc4_stream_bytes n : forall a b rc4, rc4_perm rc4 -> bytes (rc4_stream (a, b, rc4) n).
Proof.
  induction n as [|n IH]; intros a b rc4 H; [constructor|]. cbn [rc4_stream rc4_step].
  assert (H' := rc4_swap_ok rc4 (Z.to_nat ((a + 1) mod 256))
     (Z.to_nat ((b + rc4.[Z.to_nat ((a + 1) mod 256)]) mod 256)) H (mod256_index _) (mod256_index _)).
  set (rc4' := rc4_swap rc4 _ _) in *. apply bytes_cons. split; [|apply IH, H'].
  apply bytes_nth, rc4_perm_bytes, H'.
Qed.

(** RC4 is a stream cipher: its state stays a permutation of the 256 bytes, so
    the key stream consists of bytes; the output is the exclusive or of the text
    with a stream that depends on the key and the length only; hence a second
    application with the same key restores any text. *)
Theorem rc4_stream_cipher key keylen text :
  let ks := rc4_keystream key keylen (length text) in
  let c := sqlite3mcRC4 key keylen text in
  rc4_perm (rc4_setup key keylen) /\ length ks = length text /\ bytes ks /\ c = xor_list text ks /\
  sqlite3mcRC4 key keylen c = text.
Proof.
  assert (L : length (rc4_keystream key keylen (length text)) = length text) by apply length_rc4_stream.
  cbv zeta. split; [apply rc4_setup_ok|]. split; [exact L|].
  split; [apply rc4_stream_bytes, rc4_setup_ok|].
  assert (E : forall t, sqlite3mcRC4 key keylen t = xor_list t (rc4_keystream key keylen (length t)))
    by (intros; apply rc4_text_stream).
  split; [apply E|]. rewrite !E, length_xor_list, L, Nat.min_id. apply xor_list_invol. lia.
Qed.

(** ** The initial vector of a page *)

Definition is_int (z : Z) : Prop := - 2 ^ 31 <= z < 2 ^ 31.

(** The intermediate results of the macro. *)
Definition modmult_ints (s : Z) : list Z :=
  let q := Z.quot s 52774 in
  [q; 52774 * q; s - 52774 * q; 40692 * (s - 52774 * q); 3791 * q; 40692 * (s - 52774 * q) - 3791 * q].

Lemma modmult_spec s :
  is_int s ->
  MODMULT 52774 40692 3791 2147483399 s = (40692 * s) mod 2147483399 /\ Forall is_int (modmult_ints s).
Proof.
  intros Hs. unfold MODMULT, modmult_ints, is_int in *.
  pose proof (Z.quot_rem' s 52774) as E.
  assert (Hr : (0 <= s -> 0 <= Z.rem s 52774 < 52774) /\ (s < 0 -> -52774 < Z.rem s 52774 <= 0)).
  { clear E. Z.to_euclidean_division_equations. lia. }
  set (q := Z.quot s 52774) in *. set (r := Z.rem s 52774) in *.
  replace (s - 52774 * q) with r by lia. clearbody q r.
  split.
  - destruct (Z.ltb_spec (40692 * r - 3791 * q) 0).
    + apply (Z.mod_unique_pos _ _ (q - 1)); lia.
    + apply (Z.mod_unique_pos _ _ q); lia.
  - repeat constructor; lia.
Qed.

Lemma md5_binary_spec data : sqlite3mcGetMD5Binary data = rfc_md5 data.
Proof. apply MD5_Final_repr. apply (MD5_Update_repr _ []), MD5_Init_repr. reflexivity. Qed.

(** The page initial vector: [MODMULT] with the constants of the code is
    multiplication by 40692 modulo 2147483399, computed without any intermediate
    result leaving the range of [int]; the vector is the MD5 digest of four
    successive powers, each stored in four bytes, lowest first. *)
Theorem initial_vector_powers seed :
  is_int (seed + 1) ->
  let z j := (40692 ^ Z.of_nat (S j) * (seed + 1)) mod 2147483399 in
  iv_words seed = map z (seq 0 4) /\
  Forall is_int (modmult_ints (seed + 1) ++ flat_map modmult_ints (firstn 3 (iv_words seed))) /\
  sqlite3mcGenerateInitialVector seed = rfc_md5 (flat_map (fun j => int_bytes (z j)) (seq 0 4)).
Proof.
  intros Hs z. set (s := seed + 1) in *.
  assert (Hz : forall j, MODMULT 52774 40692 3791 2147483399 (z j) = z (S j) /\
                         Forall is_int (modmult_ints (z j))).
  { intros j. destruct (modmult_spec (z j)) as [-> F].
    - unfold z, is_int. pose proof (Z.mod_pos_bound (40692 ^ Z.of_nat (S j) * s) 2147483399). lia.
    - split; [|exact F]. unfold z. rewrite Z.mul_mod_idemp_r by lia.
      rewrite (Nat2Z.inj_succ (S j)), (Z.pow_succ_r _ (Z.of_nat (S j))) by lia. f_equal. ring. }
  destruct (modmult_spec s Hs) as [E0 F0].
  assert (E : iv_words seed = map z (seq 0 4)).
  { unfold iv_words. fold s. rewrite E0. change ((40692 * s) mod 2147483399) with (z 0%nat).
    now rewrite !(proj1 (Hz _)). }
  split; [exact E|]. split.
  - rewrite E. cbn [seq map firstn flat_map]. rewrite app_nil_r, !Forall_app.
    repeat split; try apply Hz. exact F0.
  - unfold sqlite3mcGenerateInitialVector. rewrite E, md5_binary_spec.
    rewrite !flat_map_concat_map, map_map. reflexivity.
Qed.

Lemma initial_vector_powers_witness :
  is_int (1 + 1) /\ iv_words 1 = map (fun j => (40692 ^ Z.of_nat (S j) * 2) mod 2147483399) (seq 0 4).
Proof.
  split; [unfold is_int; lia|]. apply (initial_vector_powers 1). unfold is_int. lia.
Defined.

(** ** AES on a page *)

Lemma md5_binary_ok d : length (sqlite3mcGetMD5Binary d) = 16%nat /\ bytes (sqlite3mcGetMD5Binary d).
Proof.
  rewrite md5_binary_spec. unfold rfc_md5. set (st := fold_left _ _ _). clearbody st.
  split; [reflexivity|]. rewrite !bytes_app. repeat split; apply STORE32_LE_bytes.
Qed.

Lemma sha_binary_ok d : length (sqlite3mcGetSHABinary d) = 32%nat /\ bytes (sqlite3mcGetSHABinary d).
Proof.
  unfold sqlite3mcGetSHABinary, sha256, sha256_final. cbn [snd]. unfold digest.
  set (h := ctx_h _). clearbody h.
  split; [reflexivity|]. apply bytes_flat_map. intros. rewrite UNPACK32_be. apply bytes_be_bytes.
Qed.

Section AESPage.
Context (hash : list Z -> list Z) (keyLength : nat) (keyLen : Z) (rounds : nat).
Hypothesis (Hk : key_params keyLen = Some (keyLength, rounds)).
Hypothesis (Hlen : forall d, length (hash d) = keyLength) (Hbytes : forall d, bytes (hash d)).

(** AES-CBC with ciphertext stealing under the page key and the page vector. *)
Definition aes_page_spec (key : list Z) (page : Z) (l : list Z) : list Z :=
  cts_enc (fips_aes keyLength (hash (nkey key keyLength page))) (sqlite3mcGenerateInitialVector page) l.

Lemma aes_page_calls aes key page :
  length (m_expandedKey aes) = 60%nat ->
  (forall l, bytes l -> (16 <= length l)%nat ->
     length (aes_page_spec key page l) = length l /\ bytes (aes_page_spec key page l)) /\
  (forall mem off n, bytes mem -> (16 <= n)%nat -> (off + n <= length mem)%nat ->
     exists aes', length (m_expandedKey aes') = 60%nat /\
     aes_page hash keyLength keyLen aes page true key mem off (Z.of_nat n) off =
     Some (SQLITE_OK, aes', memcpy mem off (aes_page_spec key page (slice mem off n)))) /\
  (forall mem off n l, bytes l -> (16 <= n)%nat -> length l = n -> (off + n <= length mem)%nat ->
     slice mem off n = aes_page_spec key page l ->
     exists aes', length (m_expandedKey aes') = 60%nat /\
     aes_page hash keyLength keyLen aes page false key mem off (Z.of_nat n) off =
     Some (SQLITE_OK, aes', memcpy mem off l)).
Proof.
  intros Ha. set (pk := hash (nkey key keyLength page)). set (iv := sqlite3mcGenerateInitialVector page).
  destruct (cbc_calls aes aes keyLen keyLength rounds pk iv) as (re & rd & Ee & Ed & He & Hd & Hc);
    auto; [apply Hbytes|subst pk; now rewrite Hlen|apply md5_binary_ok|].
  pose proof (RijndaelInit_length aes Mode_CBC Direction_Encrypt (Some pk) keyLen (Some iv)) as Le.
  pose proof (RijndaelInit_length aes Mode_CBC Direction_Decrypt (Some pk) keyLen (Some iv)) as Ld.
  rewrite Ee in Le. rewrite Ed in Ld. cbn [snd] in Le, Ld.
  split; [exact Hc|]. unfold aes_page. fold pk iv. rewrite Ee, Ed. cbn [snd]. split.
  - intros mem off n Hm Hn Ho. exists re. split; [lia|].
    assert (Hb : buffers mem off off n) by (split; [lia|split; [lia|now left]]).
    rewrite (Z.mul_comm (Z.of_nat n)), He by assumption.
    now rewrite (proj2 (Z.ltb_ge (128 * Z.of_nat _) 0)) by lia.
  - intros mem off n l Hl Hn Hln Ho Hs. exists rd. split; [lia|].
    assert (Hb : buffers mem off off n) by (split; [lia|split; [lia|now left]]).
    rewrite (Z.mul_comm (Z.of_nat n)), (Hd mem off off n l) by (assumption || exact Hs).
    now rewrite (proj2 (Z.ltb_ge (128 * Z.of_nat _) 0)) by lia.
Qed.
End AESPage.

(** AES on a page: for both key lengths, every page number, key and page buffer,
    and every part of it of at least sixteen bytes, [sqlite3mcAES128] and
    [sqlite3mcAES256] encrypt the part in place and succeed; a second call in the
    other direction, whatever AES object it is given, succeeds and restores the
    buffer.  The ciphertext is AES-CBC with ciphertext stealing under the page key
    and the page initial vector. *)
Theorem aes_page_roundtrip (wide : bool) aes aes2 page key mem off n :
  let aes_fn := if wide then sqlite3mcAES256 else sqlite3mcAES128 in
  let spec := if wide then aes_page_spec sqlite3mcGetSHABinary 32 else aes_page_spec sqlite3mcGetMD5Binary 16 in
  length (m_expandedKey aes) = 60%nat -> length (m_expandedKey aes2) = 60%nat ->
  bytes mem -> (16 <= n)%nat -> (off + n <= length mem)%nat ->
  exists aes' aes2' mem1,
    aes_fn aes page true key mem off (Z.of_nat n) off = Some (SQLITE_OK, aes', mem1) /\
    mem1 = memcpy mem off (spec key page (slice mem off n)) /\
    aes_fn aes2 page false key mem1 off (Z.of_nat n) off = Some (SQLITE_OK, aes2', mem).
Proof.
  assert (G : forall hash kl keyLen rounds, key_params keyLen = Some (kl, rounds) ->
    (forall d, length (hash d) = kl) -> (forall d, bytes (hash d)) ->
    length (m_expandedKey aes) = 60%nat -> length (m_expandedKey aes2) = 60%nat ->
    bytes mem -> (16 <= n)%nat -> (off + n <= length mem)%nat ->
    exists aes' aes2' mem1,
      aes_page hash kl keyLen aes page true key mem off (Z.of_nat n) off = Some (SQLITE_OK, aes', mem1) /\
      mem1 = memcpy mem off (aes_page_spec hash kl key page (slice mem off n)) /\
      aes_page hash kl keyLen aes2 page false key mem1 off (Z.of_nat n) off = Some (SQLITE_OK, aes2', mem)).
  { intros hash kl keyLen rounds Hk Hl Hb H1 H2 Hm Hn Ho.
    destruct (aes_page_calls hash kl keyLen rounds Hk Hl Hb aes key page H1) as (Hs & He & _).
    destruct (aes_page_calls hash kl keyLen rounds Hk Hl Hb aes2 key page H2) as (_ & _ & Hd).
    destruct (He mem off n Hm Hn Ho) as (aes' & _ & Ee).
    assert (Ls : length (slice mem off n) = n) by now apply length_slice.
    destruct (Hs (slice mem off n)) as [Lc _]; [auto with words|lia|].
    destruct (Hd (memcpy mem off (aes_page_spec hash kl key page (slice mem off n))) off n (slice mem off n))
      as (aes2' & _ & Ed); auto with words; [rewrite length_memcpy; lia|apply slice_memcpy_eq; lia|].
    exists aes', aes2'. eexists. split; [exact Ee|]. split; [reflexivity|]. rewrite Ed.
    now rewrite memcpy_overwrite, memcpy_slice by lia. }
  destruct wide; cbv zeta iota; unfold sqlite3mcAES256, sqlite3mcAES128, KEYLENGTH_AES256, KEYLENGTH_AES128.
  - exact (G sqlite3mcGetSHABinary 32%nat Key32Bytes 14%nat eq_refl
             (fun d => proj1 (sha_binary_ok d)) (fun d => proj2 (sha_binary_ok d))).
  - exact (G sqlite3mcGetMD5Binary 16%nat Key16Bytes 10%nat eq_refl
             (fun d => proj1 (md5_binary_ok d)) (fun d => proj2 (md5_binary_ok d))).
Qed.

Lemma aes_page_roundtrip_witness :
  let mem := map Z.of_nat (seq 0 60) in let key := map Z.of_nat (seq 9 32) in
  exists aes' aes2' mem1,
    sqlite3mcAES256 rijndael0 7 true key mem 5 (Z.of_nat 40) 5 = Some (SQLITE_OK, aes', mem1) /\
    mem1 = memcpy mem 5 (aes_page_spec sqlite3mcGetSHABinary 32 key 7 (slice mem 5 40)) /\
    sqlite3mcAES256 rijndael0 7 false key mem1 5 (Z.of_nat 40) 5 = Some (SQLITE_OK, aes2', mem).
Proof.
  apply (aes_page_roundtrip true rijndael0 rijndael0 7);
    [reflexivity|reflexivity|apply bytesb_bytes; reflexivity|lia|cbn; lia].
Defined.

(** ** Raw keys *)

(** Hexadecimal digits, of either case. *)
Definition hex_digit (up : bool) (d : Z) : Z := if d <? 10 then 48 + d else (if up then 55 else 87) + d.
Definition to_hex (up : bool) (l : list Z) : list Z :=
  flat_map (fun b => [hex_digit up (Z.shiftr b 4); hex_digit up (Z.land b 15)]) l.

Lemma hex_byte up b :
  is_byte b ->
  is_hex (hex_digit up (Z.shiftr b 4)) = true /\ is_hex (hex_digit up (Z.land b 15)) = true /\
  Z.lor (Z.shiftl (sqlite3mcConvertHex2Int (hex_digit up (Z.shiftr b 4))) 4)
    (sqlite3mcConvertHex2Int (hex_digit up (Z.land b 15))) = b.
Proof.
  intros Hb.
  assert (H : is_hex (hex_digit up (Z.shiftr b 4)) && is_hex (hex_digit up (Z.land b 15)) &&
    (Z.lor (Z.shiftl (sqlite3mcConvertHex2Int (hex_digit up (Z.shiftr b 4))) 4)
       (sqlite3mcConvertHex2Int (hex_digit up (Z.land b 15))) =? b) = true).
  { revert b Hb. apply forall_bytes. destruct up; vm_compute; reflexivity. }
  apply andb_true_iff in H as [H ->%Z.eqb_eq]. apply andb_true_iff in H as [-> ->]. auto.
Qed.

Lemma length_to_hex up l : length (to_hex up l) = (2 * length l)%nat.
Proof. induction l as [|b l IH]; [reflexivity|]. cbn [to_hex flat_map app length] in *. unfold to_hex in IH. lia. Qed.

Lemma to_hex_is_hex up l : bytes l -> sqlite3mcIsHexKey (to_hex up l) = true.
Proof.
  unfold sqlite3mcIsHexKey. induction 1 as [|b l Hb Hl IH]; [reflexivity|].
  cbn [to_hex flat_map app forallb]. destruct (hex_byte up b Hb) as (-> & -> & _). exact IH.
Qed.

Lemma hex2bin_cons a b h n :
  sqlite3mcConvertHex2Bin (a :: b :: h) (2 * S n) =
  Z.lor (Z.shiftl (sqlite3mcConvertHex2Int a) 4) (sqlite3mcConvertHex2Int b) ::
  sqlite3mcConvertHex2Bin h (2 * n).
Proof.
  unfold sqlite3mcConvertHex2Bin. rewrite !(Nat.mul_comm 2 (S n)), !(Nat.mul_comm 2 n), !Nat.div_mul by lia.
  cbn [seq map]. f_equal. rewrite <- seq_shift, map_map. apply map_ext. intros j.
  replace (2 * S j)%nat with (S (S (2 * j))) by lia. reflexivity.
Qed.

Lemma hex2bin_to_hex up l rest :
  bytes l -> sqlite3mcConvertHex2Bin (to_hex up l ++ rest) (2 * length l) = l.
Proof.
  induction 1 as [|b l Hb Hl IH]; [reflexivity|]. cbn [to_hex flat_map app length].
  rewrite hex2bin_cons. destruct (hex_byte up b Hb) as (_ & _ & ->). f_equal. exact IH.
Qed.

Lemma to_hex_app up a b : to_hex up (a ++ b) = to_hex up a ++ to_hex up b.
Proof. apply flat_map_app. Qed.

Lemma memcpy_all {A} (m k : list A) : length m = length k -> memcpy m 0 k = k.
Proof. intros H. unfold memcpy. cbn [firstn app Nat.add]. rewrite skipn_all2 by lia. apply app_nil_r. Qed.

Section RawKey.
Context (keyOnly up : bool) (k s key0 salt0 : list Z).
Hypothesis (Hk : bytes k) (Hs : bytes s) (Hpos : (0 < length s < length k)%nat).
Hypothesis (Lk : length key0 = length k) (Ls : length salt0 = length s).

Definition want_salt : list Z := if keyOnly then salt0 else s.

Lemma raw_branch p :
  (0 < length p)%nat ->
  (4 <? length (raw_prefix ++ p))%nat && list_eqb (firstn 4 (raw_prefix ++ p)) raw_prefix = true /\
  (length (raw_prefix ++ p) - 4 = length p)%nat /\ skipn 4 (raw_prefix ++ p) = p.
Proof.
  intros H. rewrite length_app. cbn [length raw_prefix app firstn skipn].
  split; [|split; [lia|reflexivity]]. apply andb_true_iff. split; [apply Nat.ltb_lt; lia|reflexivity].
Qed.

Ltac compare_lengths :=
  repeat match goal with
  | |- context [(?a =? ?b)%nat] => destruct (Nat.eqb_spec a b); [try lia|try lia]
  end.

Lemma raw_binary :
  sqlite3mcExtractRawKey (raw_prefix ++ k ++ s) keyOnly (length k) (length s) key0 salt0 =
  (true, k, want_salt).
Proof.
  unfold sqlite3mcExtractRawKey, want_salt. destruct (raw_branch (k ++ s)) as (-> & -> & ->);
    [rewrite length_app; lia|].
  rewrite length_app, Nat.eqb_refl, firstn_app_l, slice_app_end by auto.
  rewrite !memcpy_all by lia. reflexivity.
Qed.

Lemma raw_binary_key :
  sqlite3mcExtractRawKey (raw_prefix ++ k) keyOnly (length k) (length s) key0 salt0 = (true, k, salt0).
Proof.
  unfold sqlite3mcExtractRawKey. destruct (raw_branch k) as (-> & -> & ->); [lia|].
  compare_lengths. rewrite firstn_all, memcpy_all by lia. reflexivity.
Qed.

Lemma raw_hex_key :
  sqlite3mcExtractRawKey (raw_prefix ++ to_hex up k) keyOnly (length k) (length s) key0 salt0 =
  (true, k, salt0).
Proof.
  unfold sqlite3mcExtractRawKey. destruct (raw_branch (to_hex up k)) as (-> & -> & ->);
    [rewrite length_to_hex; lia|].
  rewrite length_to_hex. compare_lengths. rewrite to_hex_is_hex by auto.
  rewrite <- (app_nil_r (to_hex up k)), hex2bin_to_hex, memcpy_all by auto. reflexivity.
Qed.

Lemma raw_hex :
  sqlite3mcExtractRawKey (raw_prefix ++ to_hex up (k ++ s)) keyOnly (length k) (length s) key0 salt0 =
  (true, k, want_salt).
Proof.
  unfold sqlite3mcExtractRawKey, want_salt. destruct (raw_branch (to_hex up (k ++ s))) as (-> & -> & E);
    [rewrite length_to_hex, length_app; lia|]. rewrite E.
  rewrite length_to_hex, length_app. compare_lengths.
  rewrite to_hex_is_hex by (apply bytes_app; auto).
  replace (4 + 2 * length k)%nat with (2 * length k + 4)%nat by lia.
  rewrite <- skipn_skipn, E, to_hex_app, hex2bin_to_hex by auto.
  rewrite skipn_app_l by now rewrite length_to_hex.
  rewrite <- (app_nil_r (to_hex up s)), hex2bin_to_hex by auto.
  rewrite !memcpy_all by auto. reflexivity.
Qed.

Lemma not_raw x q t : x = 120 \/ x = 88 ->
  (4 <? length (x :: q :: t))%nat && list_eqb (firstn 4 (x :: q :: t)) raw_prefix = false.
Proof.
  intros Hx. apply andb_false_iff. right. destruct t as [|a [|b t]]; cbn [firstn]; try reflexivity.
  unfold list_eqb, raw_prefix. cbn [length combine forallb fst snd Nat.eqb andb].
  destruct Hx as [-> | ->]; reflexivity.
Qed.

Lemma quoted_key x c :
  x = 120 \/ x = 88 ->
  sqlite3mcExtractRawKey (x :: 39 :: to_hex up k ++ [c]) keyOnly (length k) (length s) key0 salt0 =
  (true, k, salt0).
Proof.
  intros Hx. unfold sqlite3mcExtractRawKey. rewrite not_raw by auto.
  assert (E : x_quote (x :: 39 :: to_hex up k ++ [c]) = true) by (destruct Hx as [-> | ->]; reflexivity).
  rewrite E. cbn [length]. rewrite length_app, length_to_hex. cbn [length].
  compare_lengths. cbn [andb]. unfold slice. cbn [skipn].
  rewrite (firstn_app_l (to_hex up k)) by (rewrite length_to_hex; lia).
  rewrite to_hex_is_hex by auto.
  replace (S (S (2 * length k + 1)) - 3)%nat with (2 * length k)%nat by lia.
  rewrite hex2bin_to_hex, memcpy_all by auto. reflexivity.
Qed.

Lemma quoted_key_salt x c :
  x = 120 \/ x = 88 ->
  sqlite3mcExtractRawKey (x :: 39 :: to_hex up (k ++ s) ++ [c]) keyOnly (length k) (length s) key0 salt0 =
  (true, k, want_salt).
Proof.
  intros Hx. unfold sqlite3mcExtractRawKey, want_salt. rewrite not_raw by auto.
  assert (E : x_quote (x :: 39 :: to_hex up (k ++ s) ++ [c]) = true) by (destruct Hx as [-> | ->]; reflexivity).
  rewrite E. cbn [length]. rewrite length_app, length_to_hex, length_app. cbn [length].
  compare_lengths. cbn [andb]. unfold slice. cbn [skipn].
  rewrite (firstn_app_l (to_hex up (k ++ s))) by (rewrite length_to_hex, length_app; lia).
  rewrite to_hex_is_hex by (apply bytes_app; auto).
  replace (length k * 2)%nat with (2 * length k)%nat by lia.
  replace (length s * 2)%nat with (2 * length s)%nat by lia.
  change (2 + 2 * length k)%nat with (S (S (2 * length k))). cbn [skipn].
  rewrite to_hex_app, <- app_assoc, hex2bin_to_hex, skipn_app_l, hex2bin_to_hex
    by (auto; now rewrite length_to_hex).
  rewrite !memcpy_all by auto. reflexivity.
Qed.
End RawKey.

(** Without a raw key the buffers keep their contents. *)
Lemma extract_none password keyOnly kl sl key salt :
  fst (fst (sqlite3mcExtractRawKey password keyOnly kl sl key salt)) = false ->
  sqlite3mcExtractRawKey password keyOnly kl sl key salt = (false, key, salt).
Proof.
  unfold sqlite3mcExtractRawKey.
  repeat match goal with
  | |- context [if ?b then _ else _] => lazymatch b with keyOnly => fail | _ => destruct b end
  end; cbn [fst]; (discriminate || reflexivity).
Qed.

Lemma hex2int_range c : 0 <= sqlite3mcConvertHex2Int c < 16.
Proof.
  unfold sqlite3mcConvertHex2Int.
  repeat match goal with |- context [if ?b then _ else _] => destruct b eqn:? end;
    rewrite ?andb_true_iff, ?Z.leb_le in *; lia.
Qed.

Lemma hex2bin_ok hex len :
  length (sqlite3mcConvertHex2Bin hex len) = (len / 2)%nat /\ bytes (sqlite3mcConvertHex2Bin hex len).
Proof.
  unfold sqlite3mcConvertHex2Bin. split; [now rewrite length_map, length_seq|].
  apply Forall_map, Forall_forall. intros j _.
  pose proof (hex2int_range hex.[2 * j]). pose proof (hex2int_range hex.[2 * j + 1]).
  rewrite Z.lor_comm, lor_shiftl by lia. unfold is_byte. change (2 ^ 4) with 16. lia.
Qed.

(** What a password supplies: nothing, a key, or a key and a salt. *)
Lemma raw_form password kl sl :
  bytes password ->
  exists form : option (list Z * option (list Z)),
    (forall ko key salt, sqlite3mcExtractRawKey password ko kl sl key salt =
       match form with
       | None => (false, key, salt)
       | Some (k, None) => (true, memcpy key 0 k, salt)
       | Some (k, Some s) => (true, memcpy key 0 k, if ko then salt else memcpy salt 0 s)
       end) /\
    match form with
    | Some (k, os) => length k = kl /\ bytes k /\ match os with Some s => length s = sl /\ bytes s | None => True end
    | None => True
    end.
Proof.
  intros Bp. unfold sqlite3mcExtractRawKey.
  assert (HB : forall off m, length (sqlite3mcConvertHex2Bin (skipn off password) (2 * m)) = m /\
                             bytes (sqlite3mcConvertHex2Bin (skipn off password) (2 * m))).
  { intros off m. destruct (hex2bin_ok (skipn off password) (2 * m)) as [L B]. rewrite L. split; [|exact B].
    rewrite Nat.mul_comm. now apply Nat.div_mul. }
  rewrite !(Nat.mul_comm _ 2).
  destruct (_ && list_eqb (firstn 4 password) raw_prefix) eqn:Hr.
  - apply andb_true_iff in Hr as [Hr _]. apply Nat.ltb_lt in Hr.
    assert (Lz : length (skipn 4 password) = (length password - 4)%nat) by now rewrite length_skipn.
    destruct (Nat.eqb_spec (length password - 4) (kl + sl)) as [E|_].
    { eexists (Some (firstn kl (skipn 4 password), Some (slice (skipn 4 password) kl sl))).
      split; [intros; reflexivity|]. split; [rewrite length_firstn; lia|].
      split; [auto with words|]. split; [apply length_slice; lia|auto with words]. }
    destruct (Nat.eqb_spec (length password - 4) kl) as [E|_].
    { eexists (Some (firstn kl (skipn 4 password), None)).
      split; [intros; reflexivity|]. split; [rewrite length_firstn; lia|auto with words]. }
    destruct (Nat.eqb_spec (length password - 4) (2 * kl)) as [E|_].
    { destruct (sqlite3mcIsHexKey _); [|now exists None]. eexists (Some (_, None)).
      split; [intros; reflexivity|]. rewrite E. split; [apply HB|split; [apply HB|exact Logic.I]]. }
    destruct (Nat.eqb_spec (length password - 4) (2 * (kl + sl))) as [E|_]; [|now exists None].
    destruct (sqlite3mcIsHexKey _); [|now exists None]. eexists (Some (_, Some _)).
    split; [intros; reflexivity|]. split; [apply HB|split; apply HB].
  - destruct (_ && _ && _) eqn:Hq.
    { apply andb_true_iff in Hq as [Hq _]. apply andb_true_iff in Hq as [Hq _]. apply Nat.eqb_eq in Hq.
      eexists (Some (_, None)). split; [intros; reflexivity|].
      replace (length password - 3)%nat with (2 * kl)%nat by lia.
      split; [apply HB|split; [apply HB|exact Logic.I]]. }
    destruct (_ && _ && sqlite3mcIsHexKey (slice password 2 (2 * (kl + sl)))); [|now exists None].
    eexists (Some (_, Some _)). split; [intros; reflexivity|]. split; [apply HB|split; apply HB].
Qed.

(** Extraction fills whole buffers: what the key buffer held before does not matter, and
    a second extraction with the resulting salt repeats the result. *)
Lemma extract_ok password (ko ko' : bool) kl sl k1 k2 salt :
  bytes password -> length k1 = kl -> length k2 = kl -> length salt = sl -> bytes salt ->
  (ko = true -> ko' = true) ->
  let '(b, key, salt') := sqlite3mcExtractRawKey password ko kl sl k1 salt in
  length key = kl /\ (bytes k1 -> bytes key) /\ length salt' = sl /\ bytes salt' /\
  sqlite3mcExtractRawKey password ko' kl sl k2 salt' = (b, if b then key else k2, salt').
Proof.
  intros Bp L1 L2 Ls Bs Hko. destruct (raw_form password kl sl Bp) as ([[k [s|]]|] & E & H); rewrite E.
  - destruct H as (Lk & Bk & Lsa & Bsa). rewrite E, !memcpy_all by congruence. do 2 (split; [auto|]).
    destruct ko; [rewrite (Hko eq_refl); auto|]. do 2 (split; [assumption|]).
    destruct ko'; [reflexivity|]. now rewrite ?memcpy_all by congruence.
  - destruct H as (Lk & Bk & _). rewrite E, !memcpy_all by congruence. auto.
  - rewrite E. auto.
Qed.

(** Raw keys in a password are recognised in every documented form: after the
    prefix raw: as binary key, as binary key and salt, as hexadecimal key, as
    hexadecimal key and salt; and between x' and a closing quote as hexadecimal key
    with or without salt.  In each form, for digits of either case, the key and (unless
    only the key is wanted) the salt arrive in their buffers, and key derivation is
    bypassed; a buffer that the form does not supply keeps its contents.  The last
    character of the quoted forms is not examined: any character [c] is accepted. *)
Theorem raw_key_formats (keyOnly up : bool) (k s key0 salt0 : list Z) (x c : Z) :
  bytes k -> bytes s -> (0 < length s < length k)%nat ->
  length key0 = length k -> length salt0 = length s -> x = 120 \/ x = 88 ->
  let extract p := sqlite3mcExtractRawKey p keyOnly (length k) (length s) key0 salt0 in
  let salt := if keyOnly then salt0 else s in
  extract (raw_prefix ++ k) = (true, k, salt0) /\
  extract (raw_prefix ++ k ++ s) = (true, k, salt) /\
  extract (raw_prefix ++ to_hex up k) = (true, k, salt0) /\
  extract (raw_prefix ++ to_hex up (k ++ s)) = (true, k, salt) /\
  extract (x :: 39 :: to_hex up k ++ [c]) = (true, k, salt0) /\
  extract (x :: 39 :: to_hex up (k ++ s) ++ [c]) = (true, k, salt).
Proof.
  intros Hk Hs Hp Lk Ls Hx extract salt. subst extract salt. cbv beta.
  repeat split; [now apply raw_binary_key|now apply raw_binary|now apply raw_hex_key|now apply raw_hex
    |now apply quoted_key|now apply quoted_key_salt].
Qed.

Lemma raw_key_formats_witness :
  let k := map Z.of_nat (seq 100 32) in let s := map Z.of_nat (seq 1 16) in
  sqlite3mcExtractRawKey (120 :: 39 :: to_hex true (k ++ s) ++ [39]) false 32 16 (memset 0 32) (memset 0 16) =
  (true, k, s).
Proof.
  apply (raw_key_formats false true (map Z.of_nat (seq 100 32)) (map Z.of_nat (seq 1 16))
           (memset 0 32) (memset 0 16) 120 39);
    [apply bytesb_bytes; reflexivity|apply bytesb_bytes; reflexivity|cbn; lia|reflexivity|reflexivity|now left].
Defined.
