(* ===== verification/CipherCommon.v ===== *)
(** * What the page ciphers share (cipher_common.h, cipher_common.c)

    Cipher parameters and their lookup, password padding, the cipher descriptor
    (a table of functions, here a record of operations) and the laws that a page
    cipher promises to the codec, as a type class: a page written by [m_encryptPage]
    is restored by [m_decryptPage] with a cipher object of the same key.  The codec
    is proved correct against this class; each cipher file discharges it. *)

From Stdlib Require Import ZArith Lia List Bool.
From Stdlib Require Strings.String Strings.Ascii.
From S2P Require Import Prelude CodecAlgos.
Import ListNotations.
Import Strings.String.StringSyntax.
Local Open Scope Z_scope.

(** Character codes of a string literal. *)
Definition str (s : String.string) : list Z :=
  map (fun c => Z.of_N (Ascii.N_of_ascii c)) (String.list_ascii_of_string s).
Arguments str s%_string_scope.

Definition SQLITE_NOMEM : Z := 7.
Definition SQLITE_CORRUPT : Z := 11.
Definition SQLITE_NOTADB : Z := 26.
Definition SQLITE_MAX_PAGE_SIZE : Z := 65536.
Definition CIPHER_PAGE1_OFFSET : Z := 24.
Definition CODEC_SHA_ITER : nat := 4001.

(** The sixteen bytes that open a database file. *)
Definition SQLITE_FILE_HEADER : list Z := str "SQLite format 3" ++ [0].

(** ** Parameters *)

(** [UpperToLower]. *)
Definition to_lower (c : Z) : Z := if (65 <=? c) && (c <=? 90) then c + 32 else c.

(** On strings without zeros; a string ends with an implicit zero. *)
Fixpoint sqlite3StrICmp (a b : list Z) : Z :=
  match a, b with
  | [], [] => 0
  | [], y :: _ => to_lower 0 - to_lower y
  | x :: _, [] => to_lower x - to_lower 0
  | x :: a, y :: b =>
      if x =? y then sqlite3StrICmp a b
      else let c := to_lower x - to_lower y in if c =? 0 then sqlite3StrICmp a b else c
  end.

Record CipherParams := mk_param {
  m_name : list Z; m_value : Z; m_default : Z; m_minValue : Z; m_maxValue : Z }.

(** The value of a parameter, -1 if there is none.  Reading resets it to its default.
    A table ends with the list. *)
Fixpoint sqlite3mcGetCipherParameter (cipherParams : list CipherParams) (paramName : list Z)
    : Z * list CipherParams :=
  match cipherParams with
  | [] => (-1, [])
  | p :: ps =>
      if sqlite3StrICmp paramName (m_name p) =? 0 then
        (m_value p, mk_param (m_name p) (m_default p) (m_default p) (m_minValue p) (m_maxValue p) :: ps)
      else let '(v, ps) := sqlite3mcGetCipherParameter ps paramName in (v, p :: ps)
  end.

(** ** Passwords *)

Definition padding : list Z :=
  [0x28; 0xBF; 0x4E; 0x5E; 0x4E; 0x75; 0x8A; 0x41; 0x64; 0x00; 0x4E; 0x56; 0xFF; 0xFA; 0x01; 0x08;
   0x2E; 0x2E; 0x00; 0xB6; 0xD0; 0x68; 0x3E; 0x80; 0x2F; 0x0C; 0xA9; 0xFE; 0x64; 0x53; 0x69; 0x7A].

Definition sqlite3mcPadPassword (password : list Z) : list Z :=
  let m := if (32 <? length password)%nat then 32%nat else length password in
  let pswd := firstn m password in
  pswd ++ firstn (32 - length pswd) padding.

(** The page size that a cipher in legacy mode prescribes, or 0; the same test in
    each cipher. *)
Definition legacy_page_size (legacy legacyPageSize : Z) : Z :=
  if negb (legacy =? 0) then
    if (legacyPageSize <? 512) || (legacyPageSize >? SQLITE_MAX_PAGE_SIZE) ||
       negb (Z.land (legacyPageSize - 1) legacyPageSize =? 0)
    then 0 else legacyPageSize
  else 0.

(** ** The descriptor *)

(** [C] is the type of cipher objects, [G] the state of the random number generator.
    An operation that draws random bytes returns [None] where the generator aborts
    the process; the AES operations return [None] where a buffer is left. *)
Record CipherDescriptor (C G : Type) := mk_descriptor {
  m_allocateCipher : list CipherParams -> C * list CipherParams;
  m_cloneCipher : C -> C -> C * C;
  m_getLegacy : C -> Z;
  m_getPageSize : C -> Z;
  m_getReserved : C -> Z;
  m_getSalt : C -> option (list Z);
  m_generateKey : C -> list Z -> Z -> option (list Z) -> G -> option (C * G);
  m_encryptPage : C -> Z -> list Z -> Z -> G -> option (Z * C * list Z * G);
  m_decryptPage : C -> Z -> list Z -> Z -> Z -> option (Z * C * list Z) }.

Arguments m_allocateCipher {C G}.
Arguments m_cloneCipher {C G}.
Arguments m_getLegacy {C G}.
Arguments m_getPageSize {C G}.
Arguments m_getReserved {C G}.
Arguments m_getSalt {C G}.
Arguments m_generateKey {C G}.
Arguments m_encryptPage {C G}.
Arguments m_decryptPage {C G}.

(** What a page cipher promises.  [pc_ready]: the object can be used; [pc_same]: two
    objects have the same key and settings; [pc_gen]: the generator can deliver;
    [pc_page]: the pages that can be written; [pc_body]: how many bytes of a page of
    a given length are content (the rest is the reserved area). *)
Class PageCipher {C G : Type} (d : CipherDescriptor C G) := {
  pc_ready : C -> Prop;
  pc_same : C -> C -> Prop;
  pc_gen : G -> Prop;
  pc_page : C -> Z -> Z -> list Z -> Prop;
  pc_body : C -> Z -> nat -> nat;
  pc_same_equiv : (forall a, pc_same a a) /\ (forall a b, pc_same a b -> pc_same b a) /\
                  (forall a b c, pc_same a b -> pc_same b c -> pc_same a c);
  pc_clone : forall to from, pc_ready to -> pc_ready from ->
    let '(to', from') := m_cloneCipher d to from in
    pc_ready to' /\ pc_ready from' /\ pc_same to' from' /\ pc_same from' from;
  pc_encrypt : forall c page data reserved g, pc_ready c -> pc_gen g -> pc_page c page reserved data ->
    exists c' data' g',
      m_encryptPage d c page data reserved g = Some (SQLITE_OK, c', data', g') /\
      pc_ready c' /\ pc_same c' c /\ pc_gen g' /\ length data' = length data /\ bytes data' /\
      forall c2 hmacCheck, pc_ready c2 -> pc_same c2 c ->
        exists c2' data2,
          m_decryptPage d c2 page data' reserved hmacCheck = Some (SQLITE_OK, c2', data2) /\
          pc_ready c2' /\ pc_same c2' c2 /\ length data2 = length data /\
          firstn (pc_body c reserved (length data)) data2 = firstn (pc_body c reserved (length data)) data }.

(** Passwords and salts that key derivation is called with. *)
Definition password_ok (password : list Z) : Prop := bytes password /\ Z.of_nat (length password) < 2 ^ 29.
Definition salt_ok (salt : option (list Z)) : Prop :=
  match salt with Some s => bytes s /\ (16 <= length s)%nat | None => True end.

(** What the key derivation of a page cipher promises.  [ck_config]: two objects have the
    same settings; [ck_hidden]: page 1 of the object starts with its salt.  [ck_reopen]: the
    password and the salt of an object, read back from the file header, reproduce its key
    in any object with the same settings, without drawing random bytes.  [ck_same]: objects
    with the same key agree on the layout of pages. *)
Class CipherKeys {C G : Type} (d : CipherDescriptor C G) {P : PageCipher d} := {
  ck_config : C -> C -> Prop;
  ck_hidden : C -> bool;
  ck_allocate : forall ps, let c := fst (m_allocateCipher d ps) in pc_ready c /\ ck_config c c;
  ck_generate : forall c password rekey salt g, pc_ready c -> pc_gen g -> password_ok password -> salt_ok salt ->
    exists c' g', m_generateKey d c password rekey salt g = Some (c', g') /\ pc_ready c' /\ pc_gen g';
  ck_reopen : forall a b password rekey salt header g g2 a' g',
    pc_ready a -> pc_ready b -> pc_gen g -> ck_config a b -> password_ok password -> salt_ok salt -> salt_ok header ->
    m_generateKey d a password rekey salt g = Some (a', g') ->
    (forall s, m_getSalt d a' = Some s -> option_map (firstn 16) header = Some s) ->
    exists b', m_generateKey d b password 0 header g2 = Some (b', g2) /\ pc_ready b' /\ pc_same b' a';
  ck_header : forall c data reserved g c' data' g' s, pc_ready c -> pc_gen g -> pc_page c 1 reserved data ->
    m_encryptPage d c 1 data reserved g = Some (SQLITE_OK, c', data', g') ->
    m_getSalt d c = Some s -> ck_hidden c = true -> firstn 16 data' = s;
  ck_same : forall a b, pc_same a b ->
    m_getSalt d a = m_getSalt d b /\ m_getReserved d a = m_getReserved d b /\ m_getPageSize d a = m_getPageSize d b /\
    m_getLegacy d a = m_getLegacy d b /\ ck_hidden a = ck_hidden b /\
    (forall page reserved data, pc_page a page reserved data -> pc_page b page reserved data) /\
    (forall reserved n, pc_body a reserved n = pc_body b reserved n) }.

(** ** Properties *)

Lemma length_padding : length padding = 32%nat.
Proof. reflexivity. Qed.

Lemma pad_password_ok password :
  bytes password -> length (sqlite3mcPadPassword password) = 32%nat /\ bytes (sqlite3mcPadPassword password).
Proof.
  intros H. unfold sqlite3mcPadPassword.
  set (m := if (32 <? length password)%nat then 32%nat else length password).
  assert (Hm : (m <= 32)%nat /\ (m <= length password)%nat)
    by (subst m; destruct (Nat.ltb_spec 32 (length password)); lia).
  split.
  - rewrite length_app, !length_firstn, length_padding. lia.
  - apply bytes_app. split; apply bytes_firstn; [exact H|apply bytesb_bytes; reflexivity].
Qed.

Lemma length_header : length SQLITE_FILE_HEADER = 16%nat.
Proof. reflexivity. Qed.

Lemma bytes_header : bytes SQLITE_FILE_HEADER.
Proof. apply bytesb_bytes. reflexivity. Qed.

(** Comparison is equality up to case. *)
Lemma StrICmp_zero a b :
  Forall (fun c => 0 < c) a -> Forall (fun c => 0 < c) b ->
  sqlite3StrICmp a b = 0 <-> map to_lower a = map to_lower b.
Proof.
  intros Ha. revert b. induction Ha as [|x a Hx Ha IH]; intros b Hb; destruct Hb as [|y b Hy Hb];
    cbn [sqlite3StrICmp map].
  - easy.
  - assert (to_lower 0 - to_lower y <> 0).
    { change (to_lower 0) with 0. unfold to_lower. destruct (_ && _); lia. }
    split; [lia|discriminate].
  - assert (to_lower x - to_lower 0 <> 0).
    { change (to_lower 0) with 0. unfold to_lower. destruct (_ && _); lia. }
    split; [lia|discriminate].
  - destruct (Z.eqb_spec x y) as [->|Hn].
    + rewrite IH by auto. split; [intros ->; reflexivity|now intros [= ->]].
    + destruct (Z.eqb_spec (to_lower x - to_lower y) 0) as [E|E].
      * rewrite IH by auto. assert (Et : to_lower x = to_lower y) by lia. rewrite Et.
        split; [intros ->; reflexivity|now intros [= ->]].
      * split; [lia|intros [= ? _]; lia].
Qed.

(** Reading a cipher parameter: a parameter is found whatever the case of its
    name; reading yields its current value and resets it to the default, so the next
    reading of the same name yields the default; the values of all other parameters
    are unchanged; an unknown name yields -1 and changes nothing. *)
Theorem parameter_read_once ps name :
  Forall (fun c => 0 < c) name -> Forall (fun p => Forall (fun c => 0 < c) (m_name p)) ps ->
  let named p := map to_lower (m_name p) = map to_lower name in
  let '(v, ps') := sqlite3mcGetCipherParameter ps name in
  (forall pre p post, ps = pre ++ p :: post -> named p -> Forall (fun q => ~ named q) pre ->
     v = m_value p /\
     ps' = pre ++ mk_param (m_name p) (m_default p) (m_default p) (m_minValue p) (m_maxValue p) :: post /\
     fst (sqlite3mcGetCipherParameter ps' name) = m_default p) /\
  (Forall (fun q => ~ named q) ps -> v = -1 /\ ps' = ps).
Proof.
  intros Hn Hps named. induction Hps as [|p ps Hp Hps IH]; cbn [sqlite3mcGetCipherParameter].
  { split; [|easy]. intros pre p post E. destruct pre; discriminate. }
  destruct (Z.eqb_spec (sqlite3StrICmp name (m_name p)) 0) as [E|E].
  - apply StrICmp_zero in E as E'; auto. split.
    + intros pre q post Hpp Hq Hpre. destruct pre as [|r pre].
      * injection Hpp as <- <-. split; [reflexivity|]. split; [reflexivity|].
        cbn [sqlite3mcGetCipherParameter m_name]. rewrite E. reflexivity.
      * injection Hpp as <- _. inversion Hpre as [|? ? Hr _]. subst. exfalso. now apply Hr.
    + intros H. inversion H as [|? ? Hr _]. subst. exfalso. now apply Hr.
  - assert (E' : ~ named p) by (intros E'; apply E, StrICmp_zero; auto).
    destruct (sqlite3mcGetCipherParameter ps name) as [v ps'] eqn:Eg. destruct IH as [IH1 IH2]. split.
    + intros pre q post Hpp Hq Hpre. destruct pre as [|r pre].
      * injection Hpp as <- <-. contradiction.
      * injection Hpp as <- Hpp. inversion Hpre as [|? ? _ Hpre']. subst.
        destruct (IH1 pre q post eq_refl Hq Hpre') as (-> & -> & F).
        split; [reflexivity|]. split; [reflexivity|]. cbn [app sqlite3mcGetCipherParameter].
        rewrite (proj2 (Z.eqb_neq _ _) E). destruct (sqlite3mcGetCipherParameter _ name) as [v' ps'].
        exact F.
    + intros H. inversion H as [|? ? _ H']. subst. destruct (IH2 H') as [-> ->]. auto.
Qed.

Lemma parameter_read_once_witness :
  let ps := [mk_param (str "legacy") 1 0 0 1; mk_param (str "kdf_iter") 9 5 1 100] in
  sqlite3mcGetCipherParameter ps (str "KDF_iter") =
    (9, [mk_param (str "legacy") 1 0 0 1; mk_param (str "kdf_iter") 5 5 1 100]) /\
  fst (sqlite3mcGetCipherParameter [mk_param (str "legacy") 1 0 0 1; mk_param (str "kdf_iter") 5 5 1 100]
         (str "KDF_iter")) = 5.
Proof.
  intros ps. split; [reflexivity|].
  apply (parameter_read_once ps (str "KDF_iter")) with (pre := [mk_param (str "legacy") 1 0 0 1])
    (p := mk_param (str "kdf_iter") 9 5 1 100) (post := []);
    try reflexivity; repeat constructor; try discriminate.
Defined.
