(* ===== verification/CipherAES.v ===== *)
(** * The AES page ciphers (cipher_wxaes128.c, cipher_wxaes256.c)

    The two files differ in the key length, the digest that makes page keys and the
    key derivation; what they share is written once, over the page function
    ([sqlite3mcAES128] or [sqlite3mcAES256]).  A page is the list of its bytes. *)

From Stdlib Require Import ZArith Lia List Bool.
From S2P Require Import Prelude Md5 Sha2 RijndaelTables Rijndael RijndaelModes CodecAlgos CipherCommon.
Import ListNotations.
Import Strings.String.StringSyntax.
Local Open Scope Z_scope.

(** ** Pages *)

Definition aes_fun : Type :=
  Rijndael -> Z -> bool -> list Z -> list Z -> nat -> Z -> nat -> option (Z * Rijndael * list Z).

Definition aes_encrypt_page (fn : aes_fun) (legacy : Z) (key : list Z) (aes : Rijndael) (page : Z)
    (data : list Z) : option (Z * Rijndael * list Z) :=
  let len := Z.of_nat (length data) in
  if negb (legacy =? 0) then fn aes page true key data 0%nat len 0%nat
  else if page =? 1 then
    let dbHeader := slice data 16 8 in
    match fn aes page true key data 0%nat 16 0%nat with
    | None => None
    | Some (_, aes, data) =>
        match fn aes page true key data 16%nat (len - 16) 16%nat with
        | None => None
        | Some (rc, aes, data) =>
            let data := memcpy data 8 (slice data 16 8) in
            Some (rc, aes, memcpy data 16 dbHeader)
        end
    end
  else fn aes page true key data 0%nat len 0%nat.

(** The test on the unencrypted header bytes 16 to 23. *)
Definition header_valid (dbHeader : list Z) : bool :=
  let dbPageSize := Z.lor (Z.shiftl dbHeader.[0] 8) (Z.shiftl dbHeader.[1] 16) in
  (dbPageSize >=? 512) && (dbPageSize <=? SQLITE_MAX_PAGE_SIZE) &&
  (Z.land (dbPageSize - 1) dbPageSize =? 0) &&
  (dbHeader.[5] =? 0x40) && (dbHeader.[6] =? 0x20) && (dbHeader.[7] =? 0x20).

Definition aes_decrypt_page (fn : aes_fun) (legacy : Z) (key : list Z) (aes : Rijndael) (page : Z)
    (data : list Z) : option (Z * Rijndael * list Z) :=
  let len := Z.of_nat (length data) in
  if negb (legacy =? 0) then fn aes page false key data 0%nat len 0%nat
  else if (page =? 1) && header_valid (slice data 16 8) then
    let dbHeader := slice data 16 8 in
    let data := memcpy data 16 (slice data 8 8) in
    match fn aes page false key data 16%nat (len - 16) 16%nat with
    | None => None
    | Some (rc, aes, data) =>
        Some (rc, aes, if list_eqb dbHeader (slice data 16 8) then memcpy data 0 SQLITE_FILE_HEADER else data)
    end
  else fn aes page false key data 0%nat len 0%nat.

(** ** AES-128 *)

Record AES128Cipher := mk_aes128 {
  a1_legacy : Z; a1_legacyPageSize : Z; a1_keyLength : nat; a1_key : list Z; a1_aes : Rijndael }.

Definition mcAES128Params : list CipherParams :=
  [mk_param (str "legacy") 0 0 0 1; mk_param (str "legacy_page_size") 0 0 0 SQLITE_MAX_PAGE_SIZE].

(** Allocation is taken to succeed; the AES object is invalid until it is used. *)
Definition AllocateAES128Cipher (cipherParams : list CipherParams) : AES128Cipher * list CipherParams :=
  let '(legacy, cipherParams) := sqlite3mcGetCipherParameter cipherParams (str "legacy") in
  let '(size, cipherParams) := sqlite3mcGetCipherParameter cipherParams (str "legacy_page_size") in
  (mk_aes128 legacy size KEYLENGTH_AES128 (memset 0 KEYLENGTH_AES128) (RijndaelCreate rijndael0), cipherParams).

Definition CloneAES128Cipher (cipherTo cipherFrom : AES128Cipher) : AES128Cipher * AES128Cipher :=
  (mk_aes128 (a1_legacy cipherFrom) (a1_legacyPageSize cipherFrom) (a1_keyLength cipherFrom)
     (memcpy (a1_key cipherTo) 0 (firstn KEYLENGTH_AES128 (a1_key cipherFrom)))
     (RijndaelInvalidate (a1_aes cipherTo)),
   mk_aes128 (a1_legacy cipherFrom) (a1_legacyPageSize cipherFrom) (a1_keyLength cipherFrom)
     (a1_key cipherFrom) (RijndaelInvalidate (a1_aes cipherFrom))).

Definition GetLegacyAES128Cipher (c : AES128Cipher) : Z := a1_legacy c.
Definition GetPageSizeAES128Cipher (c : AES128Cipher) : Z :=
  legacy_page_size (a1_legacy c) (a1_legacyPageSize c).
Definition GetReservedAES128Cipher (_ : AES128Cipher) : Z := 0.
Definition GetSaltAES128Cipher (_ : AES128Cipher) : option (list Z) := None.

(** [MD5_Init; MD5_Update (data); ...; MD5_Final]. *)
Definition md5_digest (chunks : list (list Z)) : list Z :=
  MD5_Final (fold_left MD5_Update chunks (MD5_Init md5_fresh)).

Definition aes128_key (userPassword : list Z) : list Z :=
  let userPad := sqlite3mcPadPassword userPassword in
  let ownerPad := sqlite3mcPadPassword [] in
  let digest := md5_digest [ownerPad] in
  let digest := Nat.iter 50 (fun d => md5_digest [d]) digest in
  let ownerKey := fold_left (fun ownerKey i =>
      let mkey := map (fun b => Z.lxor b (Z.of_nat i)) digest in
      sqlite3mcRC4 mkey 16 ownerKey) (seq 0 20) userPad in
  let digest := md5_digest [userPad; ownerKey] in
  Nat.iter 50 (fun d => md5_digest [d]) digest.

(** Neither [rekey] nor the salt is used. *)
Definition GenerateKeyAES128Cipher {G} (c : AES128Cipher) (userPassword : list Z) (rekey : Z)
    (cipherSalt : option (list Z)) (g : G) : option (AES128Cipher * G) :=
  Some (mk_aes128 (a1_legacy c) (a1_legacyPageSize c) (a1_keyLength c)
          (memcpy (a1_key c) 0 (firstn (a1_keyLength c) (aes128_key userPassword))) (a1_aes c), g).

Definition set_aes128 (aes : Rijndael) (c : AES128Cipher) : AES128Cipher :=
  mk_aes128 (a1_legacy c) (a1_legacyPageSize c) (a1_keyLength c) (a1_key c) aes.

Definition EncryptPageAES128Cipher {G} (c : AES128Cipher) (page : Z) (data : list Z) (reserved : Z) (g : G)
    : option (Z * AES128Cipher * list Z * G) :=
  match aes_encrypt_page sqlite3mcAES128 (a1_legacy c) (a1_key c) (a1_aes c) page data with
  | Some (rc, aes, data) => Some (rc, set_aes128 aes c, data, g)
  | None => None
  end.

Definition DecryptPageAES128Cipher (c : AES128Cipher) (page : Z) (data : list Z) (reserved hmacCheck : Z)
    : option (Z * AES128Cipher * list Z) :=
  match aes_decrypt_page sqlite3mcAES128 (a1_legacy c) (a1_key c) (a1_aes c) page data with
  | Some (rc, aes, data) => Some (rc, set_aes128 aes c, data)
  | None => None
  end.

Definition mcAES128Descriptor (G : Type) : CipherDescriptor AES128Cipher G :=
  mk_descriptor AES128Cipher G AllocateAES128Cipher CloneAES128Cipher GetLegacyAES128Cipher
    GetPageSizeAES128Cipher GetReservedAES128Cipher GetSaltAES128Cipher
    GenerateKeyAES128Cipher EncryptPageAES128Cipher DecryptPageAES128Cipher.

(** ** AES-256 *)

Record AES256Cipher := mk_aes256 {
  a2_legacy : Z; a2_legacyPageSize : Z; a2_kdfIter : Z; a2_keyLength : nat; a2_key : list Z;
  a2_aes : Rijndael }.

Definition mcAES256Params : list CipherParams :=
  [mk_param (str "legacy") 0 0 0 1; mk_param (str "legacy_page_size") 0 0 0 SQLITE_MAX_PAGE_SIZE;
   mk_param (str "kdf_iter") 4001 4001 1 0x7fffffff].

Definition AllocateAES256Cipher (cipherParams : list CipherParams) : AES256Cipher * list CipherParams :=
  let '(legacy, cipherParams) := sqlite3mcGetCipherParameter cipherParams (str "legacy") in
  let '(size, cipherParams) := sqlite3mcGetCipherParameter cipherParams (str "legacy_page_size") in
  let '(iter, cipherParams) := sqlite3mcGetCipherParameter cipherParams (str "kdf_iter") in
  (mk_aes256 legacy size iter KEYLENGTH_AES256 (memset 0 KEYLENGTH_AES256) (RijndaelCreate rijndael0),
   cipherParams).

Definition CloneAES256Cipher (cipherTo cipherFrom : AES256Cipher) : AES256Cipher * AES256Cipher :=
  (mk_aes256 (a2_legacy cipherFrom) (a2_legacyPageSize cipherFrom) (a2_kdfIter cipherFrom)
     (a2_keyLength cipherFrom) (memcpy (a2_key cipherTo) 0 (firstn KEYLENGTH_AES256 (a2_key cipherFrom)))
     (RijndaelInvalidate (a2_aes cipherTo)),
   mk_aes256 (a2_legacy cipherFrom) (a2_legacyPageSize cipherFrom) (a2_kdfIter cipherFrom)
     (a2_keyLength cipherFrom) (a2_key cipherFrom) (RijndaelInvalidate (a2_aes cipherFrom))).

Definition GetLegacyAES256Cipher (c : AES256Cipher) : Z := a2_legacy c.
Definition GetPageSizeAES256Cipher (c : AES256Cipher) : Z :=
  legacy_page_size (a2_legacy c) (a2_legacyPageSize c).
Definition GetReservedAES256Cipher (_ : AES256Cipher) : Z := 0.
Definition GetSaltAES256Cipher (_ : AES256Cipher) : option (list Z) := None.

Definition aes256_key (userPassword : list Z) : list Z :=
  let userPad := sqlite3mcPadPassword userPassword in
  let digest := sqlite3mcGetSHABinary userPad in
  Nat.iter CODEC_SHA_ITER sqlite3mcGetSHABinary digest.

Definition GenerateKeyAES256Cipher {G} (c : AES256Cipher) (userPassword : list Z) (rekey : Z)
    (cipherSalt : option (list Z)) (g : G) : option (AES256Cipher * G) :=
  Some (mk_aes256 (a2_legacy c) (a2_legacyPageSize c) (a2_kdfIter c) (a2_keyLength c)
          (memcpy (a2_key c) 0 (firstn (a2_keyLength c) (aes256_key userPassword))) (a2_aes c), g).

Definition set_aes256 (aes : Rijndael) (c : AES256Cipher) : AES256Cipher :=
  mk_aes256 (a2_legacy c) (a2_legacyPageSize c) (a2_kdfIter c) (a2_keyLength c) (a2_key c) aes.

Definition EncryptPageAES256Cipher {G} (c : AES256Cipher) (page : Z) (data : list Z) (reserved : Z) (g : G)
    : option (Z * AES256Cipher * list Z * G) :=
  match aes_encrypt_page sqlite3mcAES256 (a2_legacy c) (a2_key c) (a2_aes c) page data with
  | Some (rc, aes, data) => Some (rc, set_aes256 aes c, data, g)
  | None => None
  end.

Definition DecryptPageAES256Cipher (c : AES256Cipher) (page : Z) (data : list Z) (reserved hmacCheck : Z)
    : option (Z * AES256Cipher * list Z) :=
  match aes_decrypt_page sqlite3mcAES256 (a2_legacy c) (a2_key c) (a2_aes c) page data with
  | Some (rc, aes, data) => Some (rc, set_aes256 aes c, data)
  | None => None
  end.

Definition mcAES256Descriptor (G : Type) : CipherDescriptor AES256Cipher G :=
  mk_descriptor AES256Cipher G AllocateAES256Cipher CloneAES256Cipher GetLegacyAES256Cipher
    GetPageSizeAES256Cipher GetReservedAES256Cipher GetSaltAES256Cipher
    GenerateKeyAES256Cipher EncryptPageAES256Cipher DecryptPageAES256Cipher.

(** ** Round trip of a page *)

(** What a page function promises; [spec] is the ciphertext. *)
Definition aes_contract (fn : aes_fun) (spec : list Z -> Z -> list Z -> list Z) : Prop :=
  forall aes key page, length (m_expandedKey aes) = 60%nat ->
  (forall l, bytes l -> (16 <= length l)%nat ->
     length (spec key page l) = length l /\ bytes (spec key page l)) /\
  (forall mem off n, bytes mem -> (16 <= n)%nat -> (off + n <= length mem)%nat ->
     exists aes', length (m_expandedKey aes') = 60%nat /\
     fn aes page true key mem off (Z.of_nat n) off =
     Some (SQLITE_OK, aes', memcpy mem off (spec key page (slice mem off n)))) /\
  (forall mem off n l, bytes l -> (16 <= n)%nat -> length l = n -> (off + n <= length mem)%nat ->
     slice mem off n = spec key page l ->
     exists aes', length (m_expandedKey aes') = 60%nat /\
     fn aes page false key mem off (Z.of_nat n) off = Some (SQLITE_OK, aes', memcpy mem off l)).

Lemma contract128 : aes_contract sqlite3mcAES128 (aes_page_spec sqlite3mcGetMD5Binary 16).
Proof.
  intros aes key page H.
  exact (aes_page_calls sqlite3mcGetMD5Binary 16 Key16Bytes 10 eq_refl
           (fun d => proj1 (md5_binary_ok d)) (fun d => proj2 (md5_binary_ok d)) aes key page H).
Qed.

Lemma contract256 : aes_contract sqlite3mcAES256 (aes_page_spec sqlite3mcGetSHABinary 32).
Proof.
  intros aes key page H.
  exact (aes_page_calls sqlite3mcGetSHABinary 32 Key32Bytes 14 eq_refl
           (fun d => proj1 (sha_binary_ok d)) (fun d => proj2 (sha_binary_ok d)) aes key page H).
Qed.

(** The pages that can be written: at least 32 bytes, and a database header on page 1
    unless the whole page is encrypted. *)
Definition aes_page_ok (legacy page : Z) (data : list Z) : Prop :=
  bytes data /\ (32 <= length data)%nat /\
  (legacy = 0 -> page = 1 -> firstn 16 data = SQLITE_FILE_HEADER /\ header_valid (slice data 16 8) = true).

(** The moves of the eight encrypted header bytes. *)
Section Shuffle.
Context (c1 c hdr : list Z) (L1 : length c1 = 16%nat) (Lh : length hdr = 8%nat) (Lc : (8 <= length c)%nat).

Definition page1_stored : list Z := firstn 8 c1 ++ firstn 8 c ++ hdr ++ skipn 8 c.

Lemma L8 : length (firstn 8 c) = 8%nat.
Proof. rewrite length_firstn. lia. Qed.
Lemma L81 : length (firstn 8 c1) = 8%nat.
Proof. rewrite length_firstn. lia. Qed.

Lemma page1_shuffle : memcpy (memcpy (c1 ++ c) 8 (slice (c1 ++ c) 16 8)) 16 hdr = page1_stored.
Proof.
  assert (Es : slice (c1 ++ c) 16 8 = firstn 8 c) by (unfold slice; now rewrite skipn_app_l).
  rewrite Es, <- (firstn_skipn 8 c1) at 1. rewrite <- app_assoc.
  rewrite memcpy_app by (rewrite ?L8, ?L81, ?length_skipn; lia).
  rewrite <- (firstn_skipn 8 c) at 2. rewrite app_assoc.
  rewrite memcpy_app by (rewrite ?length_app, ?L8, ?L81; lia).
  unfold page1_stored. now rewrite <- app_assoc.
Qed.

Lemma page1_header : slice page1_stored 16 8 = hdr.
Proof.
  unfold page1_stored. rewrite app_assoc. apply slice_app; [rewrite length_app, L8, L81; lia|exact Lh].
Qed.

Lemma page1_unshuffle : memcpy page1_stored 16 (slice page1_stored 8 8) = firstn 8 c1 ++ firstn 8 c ++ c.
Proof.
  unfold page1_stored. rewrite (slice_app (firstn 8 c1) (firstn 8 c)) by (apply L8 || apply L81).
  rewrite app_assoc, memcpy_app by (rewrite ?length_app, ?L8, ?L81; lia).
  now rewrite firstn_skipn, <- app_assoc.
Qed.

Lemma length_page1 : length page1_stored = (16 + length c)%nat.
Proof. unfold page1_stored. rewrite !length_app, L8, L81, length_skipn. lia. Qed.
End Shuffle.

Section RoundTrip.
Context (fn : aes_fun) (spec : list Z -> Z -> list Z -> list Z) (HF : aes_contract fn spec).

Lemma aes_whole_page aes aes2 key page data :
  length (m_expandedKey aes) = 60%nat -> bytes data -> (32 <= length data)%nat ->
  exists aes' data', length (m_expandedKey aes') = 60%nat /\ length data' = length data /\ bytes data' /\
  fn aes page true key data 0%nat (Z.of_nat (length data)) 0%nat = Some (SQLITE_OK, aes', data') /\
  (length (m_expandedKey aes2) = 60%nat ->
   exists aes2', length (m_expandedKey aes2') = 60%nat /\
   fn aes2 page false key data' 0%nat (Z.of_nat (length data)) 0%nat = Some (SQLITE_OK, aes2', data)).
Proof.
  intros Ha Hb Hl. destruct (HF aes key page Ha) as (Hs & He & _).
  destruct (Hs data Hb ltac:(lia)) as [Ls Bs].
  destruct (He data 0%nat (length data)) as (aes' & La & Ee); auto; try lia.
  assert (Es : slice data 0 (length data) = data) by (unfold slice; apply firstn_all).
  rewrite Es, memcpy_all in Ee by lia.
  exists aes', (spec key page data). repeat (split; [assumption|]).
  intros Ha2. destruct (HF aes2 key page Ha2) as (_ & _ & Hd).
  destruct (Hd (spec key page data) 0%nat (length data) data) as (aes2' & La2 & Ed); auto; try lia.
  - unfold slice. cbn [skipn]. rewrite <- Ls. apply firstn_all.
  - exists aes2'. split; [exact La2|]. now rewrite memcpy_all in Ed by lia.
Qed.

(** Page 1 with its eight plain header bytes, as the four parts of the buffer. *)
Lemma aes_page1 aes aes2 key hdr rest :
  let data := SQLITE_FILE_HEADER ++ hdr ++ rest in
  length (m_expandedKey aes) = 60%nat -> bytes hdr -> bytes rest -> length hdr = 8%nat ->
  (8 <= length rest)%nat -> header_valid hdr = true ->
  exists aes' data', length (m_expandedKey aes') = 60%nat /\ length data' = length data /\ bytes data' /\
  aes_encrypt_page fn 0 key aes 1 data = Some (SQLITE_OK, aes', data') /\
  (length (m_expandedKey aes2) = 60%nat ->
   exists aes2', length (m_expandedKey aes2') = 60%nat /\
   aes_decrypt_page fn 0 key aes2 1 data' = Some (SQLITE_OK, aes2', data)).
Proof.
  intros data Ha Hbh Hbr Lh Lr Hv.
  assert (Ld : length data = (16 + (8 + length rest))%nat)
    by (subst data; rewrite !length_app, length_header; lia).
  assert (Bd : bytes data) by (subst data; rewrite !bytes_app; auto using bytes_header).
  assert (Bt : bytes (hdr ++ rest)) by (apply bytes_app; auto).
  assert (Lt : length (hdr ++ rest) = (8 + length rest)%nat) by (rewrite length_app; lia).
  destruct (HF aes key 1 Ha) as (Hs & He & _).
  destruct (Hs SQLITE_FILE_HEADER bytes_header) as [L1 B1]; [rewrite length_header; lia|].
  destruct (Hs (hdr ++ rest) Bt) as [L2 B2]; [lia|]. rewrite length_header in L1.
  set (c1 := spec key 1 SQLITE_FILE_HEADER) in *. set (c := spec key 1 (hdr ++ rest)) in *.
  destruct (He data 0%nat 16%nat) as (aes1 & La1 & E1); auto; try lia.
  replace (slice data 0 16) with SQLITE_FILE_HEADER in E1 by reflexivity. fold c1 in E1.
  assert (M1 : memcpy data 0 c1 = c1 ++ hdr ++ rest).
  { subst data. now apply (memcpy_app [] SQLITE_FILE_HEADER). }
  rewrite M1 in E1.
  destruct (HF aes1 key 1 La1) as (_ & He1 & _).
  destruct (He1 (c1 ++ hdr ++ rest) 16%nat (8 + length rest)%nat) as (aes' & La' & E2); auto; try lia.
  { apply bytes_app. auto. }
  { rewrite length_app. lia. }
  rewrite (slice_app_end c1 (hdr ++ rest)), (memcpy_app_end c1) in E2 by (auto; lia). fold c in E2.
  exists aes', (page1_stored c1 c hdr).
  split; [exact La'|]. split; [rewrite length_page1; lia|].
  split; [unfold page1_stored; rewrite !bytes_app; auto with words|].
  split.
  { unfold aes_encrypt_page. rewrite Ld. cbn [negb Z.eqb Pos.eqb].
    change (Z.of_nat 16) with 16 in E1. rewrite E1.
    replace (Z.of_nat (16 + (8 + length rest)) - 16) with (Z.of_nat (8 + length rest)) by lia. rewrite E2.
    replace (slice data 16 8) with hdr by (subst data; symmetry; now apply slice_app).
    now rewrite page1_shuffle by lia. }
  intros Ha2. destruct (HF aes2 key 1 Ha2) as (_ & _ & Hd).
  unfold aes_decrypt_page. rewrite length_page1, page1_header, Hv by lia. cbn [negb Z.eqb Pos.eqb andb].
  rewrite page1_unshuffle by lia. set (p := firstn 8 c1 ++ firstn 8 c).
  assert (Lp : length p = 16%nat) by (subst p; rewrite length_app, !length_firstn; lia).
  rewrite app_assoc. fold p.
  destruct (Hd (p ++ c) 16%nat (8 + length rest)%nat (hdr ++ rest)) as (aes2' & La2 & Ed); auto; try lia.
  { rewrite length_app. lia. }
  { fold c. apply slice_app_end; lia. }
  exists aes2'. split; [exact La2|].
  replace (Z.of_nat (16 + length c) - 16) with (Z.of_nat (8 + length rest)) by lia.
  rewrite Ed, memcpy_app_end, (slice_app p hdr rest), list_eqb_refl by (auto; lia).
  change (p ++ hdr ++ rest) with ([] ++ p ++ hdr ++ rest).
  now rewrite memcpy_app by (rewrite ?length_header; auto).
Qed.

Lemma aes_page_transport legacy aes aes2 key page data :
  length (m_expandedKey aes) = 60%nat -> aes_page_ok legacy page data ->
  exists aes' data', length (m_expandedKey aes') = 60%nat /\ length data' = length data /\ bytes data' /\
  aes_encrypt_page fn legacy key aes page data = Some (SQLITE_OK, aes', data') /\
  (length (m_expandedKey aes2) = 60%nat ->
   exists aes2', length (m_expandedKey aes2') = 60%nat /\
   aes_decrypt_page fn legacy key aes2 page data' = Some (SQLITE_OK, aes2', data)).
Proof.
  intros Ha (Hb & Hl & H1).
  destruct (Z.eqb_spec legacy 0) as [E0|E0]; [destruct (Z.eqb_spec page 1) as [E1|E1]|].
  - destruct (H1 E0 E1) as [Hh Hv]. subst legacy page.
    assert (Ed : data = SQLITE_FILE_HEADER ++ slice data 16 8 ++ skipn 24 data)
      by (rewrite <- Hh; apply (slice_split data 16 8)).
    rewrite Ed. apply aes_page1; auto with words; [apply length_slice; lia|rewrite length_skipn; lia].
  - destruct (aes_whole_page aes aes2 key page data Ha Hb Hl) as (aes' & data' & La & Ld & Bd & Ee & Hd).
    exists aes', data'. unfold aes_encrypt_page, aes_decrypt_page. subst legacy. cbn [negb Z.eqb].
    rewrite (proj2 (Z.eqb_neq page 1) E1). cbn [andb]. rewrite Ld. auto.
  - destruct (aes_whole_page aes aes2 key page data Ha Hb Hl) as (aes' & data' & La & Ld & Bd & Ee & Hd).
    exists aes', data'. unfold aes_encrypt_page, aes_decrypt_page.
    rewrite (proj2 (Z.eqb_neq legacy 0) E0). cbn [negb]. rewrite Ld. auto.
Qed.
End RoundTrip.

(** ** The interface *)

Definition aes128_ready (c : AES128Cipher) : Prop :=
  length (m_expandedKey (a1_aes c)) = 60%nat /\ length (a1_key c) = KEYLENGTH_AES128.
Definition aes128_same (a b : AES128Cipher) : Prop :=
  a1_legacy a = a1_legacy b /\ a1_legacyPageSize a = a1_legacyPageSize b /\ a1_key a = a1_key b.
Definition aes256_ready (c : AES256Cipher) : Prop :=
  length (m_expandedKey (a2_aes c)) = 60%nat /\ length (a2_key c) = KEYLENGTH_AES256.
Definition aes256_same (a b : AES256Cipher) : Prop :=
  a2_legacy a = a2_legacy b /\ a2_legacyPageSize a = a2_legacyPageSize b /\ a2_key a = a2_key b.

Lemma aes128_transport {G} c page data reserved (g : G) :
  aes128_ready c -> aes_page_ok (a1_legacy c) page data ->
  exists c' data',
    EncryptPageAES128Cipher c page data reserved g = Some (SQLITE_OK, c', data', g) /\
    aes128_ready c' /\ aes128_same c' c /\ length data' = length data /\ bytes data' /\
    forall c2 hmacCheck, aes128_ready c2 -> aes128_same c2 c ->
      exists c2', DecryptPageAES128Cipher c2 page data' reserved hmacCheck = Some (SQLITE_OK, c2', data) /\
                  aes128_ready c2' /\ aes128_same c2' c2.
Proof.
  intros [Hc1 Hc2] Hp.
  pose proof (fun aes2 => aes_page_transport _ _ contract128 (a1_legacy c) (a1_aes c) aes2 (a1_key c) page data Hc1 Hp) as H.
  destruct (H rijndael0) as (aes' & data' & La & Ld & Bd & Ee & _).
  exists (set_aes128 aes' c), data'. unfold EncryptPageAES128Cipher. rewrite Ee.
  repeat (split; [first [reflexivity|assumption|now split|now repeat split]|]).
  intros c2 hmacCheck [H1 H2] (E1 & E2 & E3). unfold DecryptPageAES128Cipher. rewrite E1, E3.
  destruct (H (a1_aes c2)) as (aes'' & data'' & _ & _ & _ & Ee' & Hd). rewrite Ee in Ee'.
  injection Ee' as _ <-. destruct (Hd H1) as (aes2' & La2 & Ed). rewrite Ed.
  exists (set_aes128 aes2' c2). repeat split; auto.
Qed.

Lemma aes256_transport {G} c page data reserved (g : G) :
  aes256_ready c -> aes_page_ok (a2_legacy c) page data ->
  exists c' data',
    EncryptPageAES256Cipher c page data reserved g = Some (SQLITE_OK, c', data', g) /\
    aes256_ready c' /\ aes256_same c' c /\ length data' = length data /\ bytes data' /\
    forall c2 hmacCheck, aes256_ready c2 -> aes256_same c2 c ->
      exists c2', DecryptPageAES256Cipher c2 page data' reserved hmacCheck = Some (SQLITE_OK, c2', data) /\
                  aes256_ready c2' /\ aes256_same c2' c2.
Proof.
  intros [Hc1 Hc2] Hp.
  pose proof (fun aes2 => aes_page_transport _ _ contract256 (a2_legacy c) (a2_aes c) aes2 (a2_key c) page data Hc1 Hp) as H.
  destruct (H rijndael0) as (aes' & data' & La & Ld & Bd & Ee & _).
  exists (set_aes256 aes' c), data'. unfold EncryptPageAES256Cipher. rewrite Ee.
  repeat (split; [first [reflexivity|assumption|now split|now repeat split]|]).
  intros c2 hmacCheck [H1 H2] (E1 & E2 & E3). unfold DecryptPageAES256Cipher. rewrite E1, E3.
  destruct (H (a2_aes c2)) as (aes'' & data'' & _ & _ & _ & Ee' & Hd). rewrite Ee in Ee'.
  injection Ee' as _ <-. destruct (Hd H1) as (aes2' & La2 & Ed). rewrite Ed.
  exists (set_aes256 aes2' c2). repeat split; auto.
Qed.

#[export] Instance PageCipher_AES128 (G : Type) : PageCipher (mcAES128Descriptor G).
Proof.
  refine {| pc_ready := aes128_ready; pc_same := aes128_same; pc_gen := fun _ : G => True;
            pc_page := fun c page _ data => aes_page_ok (a1_legacy c) page data;
            pc_body := fun _ _ n => n |}.
  - unfold aes128_same. split; [|split]; intuition congruence.
  - intros to from [T1 T2] [F1 F2]. cbn [m_cloneCipher mcAES128Descriptor CloneAES128Cipher].
    rewrite <- F2, firstn_all, memcpy_all by congruence. repeat split; auto.
  - intros c page data reserved g Hc _ Hp.
    destruct (aes128_transport c page data reserved g Hc Hp) as (c' & data' & Ee & R & S & L & B & Hd).
    exists c', data', g. do 6 (split; [assumption || exact Logic.I|]). intros c2 h R2 S2.
    destruct (Hd c2 h R2 S2) as (c2' & Ed & R2' & S2'). exists c2', data. auto.
Defined.

#[export] Instance PageCipher_AES256 (G : Type) : PageCipher (mcAES256Descriptor G).
Proof.
  refine {| pc_ready := aes256_ready; pc_same := aes256_same; pc_gen := fun _ : G => True;
            pc_page := fun c page _ data => aes_page_ok (a2_legacy c) page data;
            pc_body := fun _ _ n => n |}.
  - unfold aes256_same. split; [|split]; intuition congruence.
  - intros to from [T1 T2] [F1 F2]. cbn [m_cloneCipher mcAES256Descriptor CloneAES256Cipher].
    rewrite <- F2, firstn_all, memcpy_all by congruence. repeat split; auto.
  - intros c page data reserved g Hc _ Hp.
    destruct (aes256_transport c page data reserved g Hc Hp) as (c' & data' & Ee & R & S & L & B & Hd).
    exists c', data', g. do 6 (split; [assumption || exact Logic.I|]). intros c2 h R2 S2.
    destruct (Hd c2 h R2 S2) as (c2' & Ed & R2' & S2'). exists c2', data. auto.
Defined.

(** ** Keys *)

Lemma length_md5_digest chunks : length (md5_digest chunks) = 16%nat.
Proof. unfold md5_digest, MD5_Final. destruct (_ <? 8)%nat; reflexivity. Qed.

Lemma length_aes128_key password : length (aes128_key password) = 16%nat.
Proof.
  unfold aes128_key. cbv zeta. generalize (md5_digest [sqlite3mcPadPassword password; fold_left
    (fun ownerKey i => sqlite3mcRC4 (map (fun b => Z.lxor b (Z.of_nat i))
       (Nat.iter 50 (fun d => md5_digest [d]) (md5_digest [sqlite3mcPadPassword []]))) 16 ownerKey)
    (seq 0 20) (sqlite3mcPadPassword password)]) as d. intros d.
  change 50%nat with (S 49). rewrite Nat.iter_succ. apply length_md5_digest.
Qed.

Lemma length_aes256_key password : length (aes256_key password) = 32%nat.
Proof.
  unfold aes256_key, CODEC_SHA_ITER. cbv zeta. change 4001%nat with (S 4000). rewrite Nat.iter_succ.
  apply sha_binary_ok.
Qed.

Local Opaque aes128_key aes256_key.

#[export] Instance CipherKeys_AES128 (G : Type) : CipherKeys (mcAES128Descriptor G).
Proof.
  refine {| ck_config := fun a b => a1_legacy a = a1_legacy b /\ a1_legacyPageSize a = a1_legacyPageSize b /\
                                    a1_keyLength a = KEYLENGTH_AES128 /\ a1_keyLength b = KEYLENGTH_AES128;
            ck_hidden := fun _ => false |}.
  - intros ps. cbn [m_allocateCipher mcAES128Descriptor]. unfold AllocateAES128Cipher.
    destruct (sqlite3mcGetCipherParameter ps _) as [l ps1]. destruct (sqlite3mcGetCipherParameter ps1 _).
    cbn [fst]. repeat split.
  - intros c pw rekey salt g [H1 H2] _ _ _. eexists. eexists. split; [reflexivity|]. split; [|exact Logic.I].
    split; [exact H1|]. cbn [a1_key]. unfold KEYLENGTH_AES128 in *.
    rewrite length_memcpy; [exact H2|]. rewrite length_firstn, length_aes128_key. lia.
  - intros a b pw rekey salt header g g2 a' g' [A1 A2] [B1 B2] _ (C1 & C2 & C3 & C4) _ _ _ E _.
    injection E as <- <-. eexists. split; [reflexivity|]. unfold KEYLENGTH_AES128 in *.
    assert (L : length (firstn 16 (aes128_key pw)) = 16%nat) by (rewrite length_firstn, length_aes128_key; lia).
    change (@pc_ready _ _ _ (PageCipher_AES128 G)) with aes128_ready.
    change (@pc_same _ _ _ (PageCipher_AES128 G)) with aes128_same. unfold aes128_ready, aes128_same. cbn [a1_aes a1_key a1_legacy a1_legacyPageSize].
    unfold KEYLENGTH_AES128. rewrite C3, C4, !memcpy_all by congruence. auto 10.
  - discriminate.
  - intros a b (S1 & S2 & S3). cbn. unfold GetPageSizeAES128Cipher, GetLegacyAES128Cipher. rewrite S1, S2. auto 10.
Defined.

#[export] Instance CipherKeys_AES256 (G : Type) : CipherKeys (mcAES256Descriptor G).
Proof.
  refine {| ck_config := fun a b => a2_legacy a = a2_legacy b /\ a2_legacyPageSize a = a2_legacyPageSize b /\
                                    a2_keyLength a = KEYLENGTH_AES256 /\ a2_keyLength b = KEYLENGTH_AES256;
            ck_hidden := fun _ => false |}.
  - intros ps. cbn [m_allocateCipher mcAES256Descriptor]. unfold AllocateAES256Cipher.
    destruct (sqlite3mcGetCipherParameter ps _) as [l ps1]. destruct (sqlite3mcGetCipherParameter ps1 _) as [l2 ps2].
    destruct (sqlite3mcGetCipherParameter ps2 _). cbn [fst]. repeat split.
  - intros c pw rekey salt g [H1 H2] _ _ _. eexists. eexists. split; [reflexivity|]. split; [|exact Logic.I].
    split; [exact H1|]. cbn [a2_key]. unfold KEYLENGTH_AES256 in *.
    rewrite length_memcpy; [exact H2|]. rewrite length_firstn, length_aes256_key. lia.
  - intros a b pw rekey salt header g g2 a' g' [A1 A2] [B1 B2] _ (C1 & C2 & C3 & C4) _ _ _ E _.
    injection E as <- <-. eexists. split; [reflexivity|]. unfold KEYLENGTH_AES256 in *.
    assert (L : length (firstn 32 (aes256_key pw)) = 32%nat) by (rewrite length_firstn, length_aes256_key; lia).
    change (@pc_ready _ _ _ (PageCipher_AES256 G)) with aes256_ready.
    change (@pc_same _ _ _ (PageCipher_AES256 G)) with aes256_same. unfold aes256_ready, aes256_same. cbn [a2_aes a2_key a2_legacy a2_legacyPageSize].
    unfold KEYLENGTH_AES256. rewrite C3, C4, !memcpy_all by congruence. auto 10.
  - discriminate.
  - intros a b (S1 & S2 & S3). cbn. unfold GetPageSizeAES256Cipher, GetLegacyAES256Cipher. rewrite S1, S2. auto 10.
Defined.

Local Transparent aes128_key aes256_key.

(** The AES page ciphers restore every page: for both ciphers, in legacy and in
    current mode, a page of at least 32 bytes (on page 1 in current mode: one that
    starts with the database header, whose bytes 16 to 23 stay readable) is encrypted
    with return code SQLITE_OK to a page of the same size, and decrypted by any object
    with the same key and mode, used before or not, to the identical page. *)
Theorem aes_page_ciphers_restore (c1 d1 : AES128Cipher) (c2 d2 : AES256Cipher) (page reserved hmacCheck : Z)
    (data : list Z) :
  aes128_ready c1 -> aes128_ready d1 -> aes128_same d1 c1 -> aes_page_ok (a1_legacy c1) page data ->
  aes256_ready c2 -> aes256_ready d2 -> aes256_same d2 c2 -> aes_page_ok (a2_legacy c2) page data ->
  (exists c1' d1' data', length data' = length data /\
    EncryptPageAES128Cipher c1 page data reserved tt = Some (SQLITE_OK, c1', data', tt) /\
    DecryptPageAES128Cipher d1 page data' reserved hmacCheck = Some (SQLITE_OK, d1', data)) /\
  (exists c2' d2' data', length data' = length data /\
    EncryptPageAES256Cipher c2 page data reserved tt = Some (SQLITE_OK, c2', data', tt) /\
    DecryptPageAES256Cipher d2 page data' reserved hmacCheck = Some (SQLITE_OK, d2', data)).
Proof.
  intros R1 Q1 S1 P1 R2 Q2 S2 P2. split.
  - destruct (aes128_transport c1 page data reserved tt R1 P1) as (c' & data' & Ee & _ & _ & L & _ & Hd).
    destruct (Hd d1 hmacCheck Q1 S1) as (d' & Ed & _). exists c', d', data'. auto.
  - destruct (aes256_transport c2 page data reserved tt R2 P2) as (c' & data' & Ee & _ & _ & L & _ & Hd).
    destruct (Hd d2 hmacCheck Q2 S2) as (d' & Ed & _). exists c', d', data'. auto.
Qed.

(** Page 1 of a database with pages of 512 bytes. *)
Definition sample_page1 : list Z :=
  SQLITE_FILE_HEADER ++ [2; 0; 1; 1; 0; 0x40; 0x20; 0x20] ++ map Z.of_nat (seq 0 200) ++ memset 0 288.

Lemma aes_page_ciphers_restore_witness :
  let c1 := mk_aes128 0 0 16 (map Z.of_nat (seq 1 16)) rijndael0 in
  let c2 := mk_aes256 0 0 4001 32 (map Z.of_nat (seq 1 32)) rijndael0 in
  (exists c1' d1' data', length data' = length sample_page1 /\
    EncryptPageAES128Cipher c1 1 sample_page1 0 tt = Some (SQLITE_OK, c1', data', tt) /\
    DecryptPageAES128Cipher c1 1 data' 0 1 = Some (SQLITE_OK, d1', sample_page1)) /\
  (exists c2' d2' data', length data' = length sample_page1 /\
    EncryptPageAES256Cipher c2 1 sample_page1 0 tt = Some (SQLITE_OK, c2', data', tt) /\
    DecryptPageAES256Cipher c2 1 data' 0 1 = Some (SQLITE_OK, d2', sample_page1)).
Proof.
  intros c1 c2.
  assert (P : aes_page_ok 0 1 sample_page1).
  { split; [apply bytesb_bytes; vm_compute; reflexivity|]. split; [apply Nat.leb_le; vm_compute; reflexivity|].
    intros _ _. split; vm_compute; reflexivity. }
  apply (aes_page_ciphers_restore c1 c1 c2 c2 1 0 1 sample_page1); try exact P; repeat split; reflexivity.
Defined.

(** The key derivation of the AES-256 cipher does not use the parameter that its
    configuration documents as the number of iterations: whatever [kdf_iter] an object
    holds, the key is the padded password hashed by SHA-256 and then CODEC_SHA_ITER
    (4001) times more. *)
Theorem aes256_key_ignores_kdf_iter (c : AES256Cipher) (n : Z) (password : list Z) (rekey : Z)
    (salt : option (list Z)) :
  let with_iter := mk_aes256 (a2_legacy c) (a2_legacyPageSize c) n (a2_keyLength c) (a2_key c) (a2_aes c) in
  length (a2_key c) = 32%nat -> a2_keyLength c = 32%nat ->
  exists c', GenerateKeyAES256Cipher with_iter password rekey salt tt = Some (c', tt) /\
    a2_key c' = Nat.iter 4002 sqlite3mcGetSHABinary (sqlite3mcPadPassword password).
Proof.
  intros wi Lk Ll. eexists. split; [reflexivity|]. cbn [a2_key a2_keyLength wi].
  assert (E : aes256_key password = Nat.iter 4002 sqlite3mcGetSHABinary (sqlite3mcPadPassword password)).
  { unfold aes256_key, CODEC_SHA_ITER. symmetry. apply (Nat.iter_succ_r 4001). }
  rewrite <- E.
  assert (L : length (aes256_key password) = 32%nat).
  { rewrite E. change 4002%nat with (S 4001). rewrite Nat.iter_succ. apply sha_binary_ok. }
  rewrite Ll, firstn_all2 by lia. apply memcpy_all. lia.
Qed.

Lemma aes256_key_ignores_kdf_iter_witness :
  let c := mk_aes256 0 0 4001 32 (memset 0 32) rijndael0 in
  exists c', GenerateKeyAES256Cipher (mk_aes256 0 0 1 32 (memset 0 32) rijndael0) [1; 2; 3] 0 None tt =
               Some (c', tt) /\
    a2_key c' = Nat.iter 4002 sqlite3mcGetSHABinary (sqlite3mcPadPassword [1; 2; 3]).
Proof.
  apply (aes256_key_ignores_kdf_iter (mk_aes256 0 0 4001 32 (memset 0 32) rijndael0) 1 [1; 2; 3] 0 None);
    reflexivity.
Defined.
