(* ===== verification/CipherChaCha20.v ===== *)
(** * The ChaCha20-Poly1305 page cipher (cipher_chacha20.c)

    The default cipher: a page has 32 reserved bytes at its end, for a random nonce
    and the tag; the one-time key of a page comes from the cipher key, the nonce and
    the page number.  A page is the list of its bytes; the state of the random number
    generator is passed along, and [None] is its abort. *)

From Stdlib Require Import ZArith Lia List Bool.
From S2P Require Import Prelude ChaCha20 Poly1305 Sha2 Pbkdf2 CodecAlgos CipherCommon.
Import ListNotations.
Import Strings.String.StringSyntax.
Local Open Scope Z_scope.

Definition KEYLENGTH_CHACHA20 : nat := 32.
Definition SALTLENGTH_CHACHA20 : nat := 16.
Definition PAGE_NONCE_LEN_CHACHA20 : nat := 16.
Definition PAGE_TAG_LEN_CHACHA20 : nat := 16.
Definition PAGE_RESERVED_CHACHA20 : Z := 32.
Definition OTK_LEN_CHACHA20 : nat := 64.
Definition CHACHA20_KDF_ITER_DEFAULT : Z := 64007.
Definition SQLEET_KDF_ITER : Z := 12345.

Definition mcChaCha20Params : list CipherParams :=
  [mk_param (str "legacy") 0 0 0 1; mk_param (str "legacy_page_size") 4096 4096 0 SQLITE_MAX_PAGE_SIZE;
   mk_param (str "kdf_iter") CHACHA20_KDF_ITER_DEFAULT CHACHA20_KDF_ITER_DEFAULT 1 0x7fffffff;
   mk_param (str "plaintext_header_size") 0 0 0 100].

Record ChaCha20Cipher := mk_chacha20 {
  cc_legacy : Z; cc_legacyPageSize : Z; cc_kdfIter : Z; cc_plaintextHeaderSize : Z; cc_keyLength : nat;
  cc_key : list Z; cc_salt : list Z }.

Definition AllocateChaCha20Cipher (cipherParams : list CipherParams) : ChaCha20Cipher * list CipherParams :=
  let '(legacy, cipherParams) := sqlite3mcGetCipherParameter cipherParams (str "legacy") in
  let '(size, cipherParams) := sqlite3mcGetCipherParameter cipherParams (str "legacy_page_size") in
  let '(iter, cipherParams) := sqlite3mcGetCipherParameter cipherParams (str "kdf_iter") in
  let iter := if negb (legacy =? 0) then SQLEET_KDF_ITER else iter in
  let '(header, cipherParams) := sqlite3mcGetCipherParameter cipherParams (str "plaintext_header_size") in
  (mk_chacha20 legacy size iter header KEYLENGTH_CHACHA20 (memset 0 KEYLENGTH_CHACHA20)
     (memset 0 SALTLENGTH_CHACHA20), cipherParams).

Definition CloneChaCha20Cipher (cipherTo cipherFrom : ChaCha20Cipher) : ChaCha20Cipher * ChaCha20Cipher :=
  (mk_chacha20 (cc_legacy cipherFrom) (cc_legacyPageSize cipherFrom) (cc_kdfIter cipherFrom)
     (cc_plaintextHeaderSize cipherFrom) (cc_keyLength cipherFrom)
     (memcpy (cc_key cipherTo) 0 (firstn KEYLENGTH_CHACHA20 (cc_key cipherFrom)))
     (memcpy (cc_salt cipherTo) 0 (firstn SALTLENGTH_CHACHA20 (cc_salt cipherFrom))), cipherFrom).

Definition GetLegacyChaCha20Cipher (c : ChaCha20Cipher) : Z := cc_legacy c.
Definition GetPageSizeChaCha20Cipher (c : ChaCha20Cipher) : Z :=
  legacy_page_size (cc_legacy c) (cc_legacyPageSize c).
Definition GetReservedChaCha20Cipher (_ : ChaCha20Cipher) : Z := PAGE_RESERVED_CHACHA20.
Definition GetSaltChaCha20Cipher (c : ChaCha20Cipher) : option (list Z) := Some (cc_salt c).

(** Stack contexts of the key derivation; their contents do not matter. *)
Definition kdf_sha256 (password salt : list Z) (iterations : Z) (key : list Z) : list Z :=
  let c := mk_sha2 0 0 (memset 0 128) [] in
  fastpbkdf2_hmac_sha256 (mk_hmac c c) (memset 0 64) password salt (Z.to_nat iterations) key.

(** The second half of [GenerateKeyChaCha20Cipher]: raw key or derived key. *)
Definition finish_key (c : ChaCha20Cipher) (userPassword salt : list Z) (keyOnly : bool) : ChaCha20Cipher :=
  let '(bypass, key, salt) := sqlite3mcExtractRawKey userPassword keyOnly KEYLENGTH_CHACHA20
                                SALTLENGTH_CHACHA20 (cc_key c) salt in
  let key := if bypass then key
             else kdf_sha256 userPassword (firstn SALTLENGTH_CHACHA20 salt) (cc_kdfIter c) key in
  mk_chacha20 (cc_legacy c) (cc_legacyPageSize c) (cc_kdfIter c) (cc_plaintextHeaderSize c)
    (cc_keyLength c) key salt.

Section Cipher.
Context {E : Type} (entropy : E -> nat -> option (list Z * E)).

Definition GenerateKeyChaCha20Cipher (c : ChaCha20Cipher) (userPassword : list Z) (rekey : Z)
    (cipherSalt : option (list Z)) (g : rng_state * E) : option (ChaCha20Cipher * (rng_state * E)) :=
  let rekey := if rekey =? 2 then match cipherSalt with Some _ => 0 | None => 1 end else rekey in
  let salted :=
    match cipherSalt with
    | Some s =>
        if negb (rekey =? 0) then None
        else Some (memcpy (cc_salt c) 0 (firstn SALTLENGTH_CHACHA20 s), negb (cc_plaintextHeaderSize c >? 0))
    | None => None
    end in
  match salted with
  | Some (salt, keyOnly) => Some (finish_key c userPassword salt keyOnly, g)
  | None =>
      match chacha20_rng entropy SALTLENGTH_CHACHA20 (fst g) (snd g) with
      | Some (salt, st, e) => Some (finish_key c userPassword (memcpy (cc_salt c) 0 salt) false, (st, e))
      | None => None
      end
  end.

(** Whether page 1 keeps a plaintext header, and where encryption starts. *)
Definition page_layout (c : ChaCha20Cipher) (page : Z) : bool * Z :=
  if page =? 1 then
    let size := cc_plaintextHeaderSize c in
    if size >? 0 then
      (true, if negb (cc_legacy c =? 0) then size
             else if size >? CIPHER_PAGE1_OFFSET then size else CIPHER_PAGE1_OFFSET)
    else (false, if negb (cc_legacy c =? 0) then 0 else CIPHER_PAGE1_OFFSET)
  else (false, 0).

Definition page_reserved (c : ChaCha20Cipher) (reserved : Z) : Z :=
  if (reserved =? 0) && (cc_legacy c =? 0) then 0 else GetReservedChaCha20Cipher c.

(** The two reservations do not match. *)
Definition reserved_mismatch (c : ChaCha20Cipher) (reserved : Z) : bool :=
  let nReserved := page_reserved c reserved in
  ((cc_legacy c =? 0) && (nReserved >? reserved)) || (negb (cc_legacy c =? 0) && negb (nReserved =? reserved)).

(** The one-time key and the counter of a page. *)
Definition page_counter (nonce : list Z) (page : Z) : Z := Z.lxor (LOAD32_LE nonce 12) (u32 page).
Definition page_otk (c : ChaCha20Cipher) (nonce : list Z) (counter : Z) : list Z :=
  chacha20_xor (memset 0 OTK_LEN_CHACHA20) (cc_key c) nonce counter.

(** [chacha20_xor(data + offset, n - offset, otk + 32, nonce, counter + 1)]. *)
Definition xor_body (otk nonce : list Z) (counter : Z) (offset n : nat) (data : list Z) : list Z :=
  memcpy data offset (chacha20_xor (slice data offset (n - offset)) (skipn 32 otk) nonce (u32 (counter + 1))).

Definition EncryptPageChaCha20Cipher (c : ChaCha20Cipher) (page : Z) (data : list Z) (reserved : Z)
    (g : rng_state * E) : option (Z * ChaCha20Cipher * list Z * (rng_state * E)) :=
  let nReserved := page_reserved c reserved in
  let n := Z.to_nat (Z.of_nat (length data) - nReserved) in
  let '(usePlaintextHeader, offset) := page_layout c page in
  let offset := Z.to_nat offset in
  let salted data := if (page =? 1) && negb usePlaintextHeader
                     then memcpy data 0 (firstn SALTLENGTH_CHACHA20 (cc_salt c)) else data in
  if reserved_mismatch c reserved then Some (SQLITE_CORRUPT, c, data, g)
  else if nReserved >? 0 then
    match chacha20_rng entropy PAGE_NONCE_LEN_CHACHA20 (fst g) (snd g) with
    | None => None
    | Some (nonce, st, e) =>
        let data := memcpy data n nonce in
        let counter := page_counter (slice data n 16) page in
        let otk := page_otk c (slice data n 16) counter in
        let data := xor_body otk (slice data n 16) counter offset n data in
        let data := salted data in
        let tag := poly1305 (firstn (n + PAGE_NONCE_LEN_CHACHA20) data) otk in
        Some (SQLITE_OK, c, memcpy data (n + PAGE_NONCE_LEN_CHACHA20) tag, (st, e))
    end
  else
    let nonce := sqlite3mcGenerateInitialVector page in
    let counter := page_counter nonce page in
    let otk := page_otk c nonce counter in
    Some (SQLITE_OK, c, salted (xor_body otk nonce counter offset n data), g).

Definition chacha20_ismemset (v : list Z) (value : Z) (len : nat) : bool :=
  negb (fold_left (fun result i => Z.lor result (Z.lxor v.[i] value)) (seq 0 len) 0 =? 0).

Definition DecryptPageChaCha20Cipher (c : ChaCha20Cipher) (page : Z) (data : list Z) (reserved hmacCheck : Z)
    : option (Z * ChaCha20Cipher * list Z) :=
  let nReserved := page_reserved c reserved in
  let n := Z.to_nat (Z.of_nat (length data) - nReserved) in
  let '(usePlaintextHeader, offset) := page_layout c page in
  let offset := Z.to_nat offset in
  let bad := if page =? 1 then SQLITE_NOTADB else SQLITE_CORRUPT in
  let header data := if (page =? 1) && negb usePlaintextHeader
                     then memcpy data 0 SQLITE_FILE_HEADER else data in
  if reserved_mismatch c reserved then Some (bad, c, data)
  else if nReserved >? 0 then
    let nonce := slice data n 16 in
    let counter := page_counter nonce page in
    let otk := page_otk c nonce counter in
    let allzero := chacha20_ismemset data 0 n in
    let tag := poly1305 (firstn (n + PAGE_NONCE_LEN_CHACHA20) data) otk in
    let data := xor_body otk nonce counter offset n data in
    let rc := if negb (hmacCheck =? 0) &&
                 negb (poly1305_tagcmp (skipn (n + PAGE_NONCE_LEN_CHACHA20) data) tag =? 0)
              then bad else SQLITE_OK in
    Some (rc, c, if rc =? SQLITE_OK then header data else data)
  else
    let nonce := sqlite3mcGenerateInitialVector page in
    let counter := page_counter nonce page in
    let otk := page_otk c nonce counter in
    Some (SQLITE_OK, c, header (xor_body otk nonce counter offset n data)).

Definition mcChaCha20Descriptor : CipherDescriptor ChaCha20Cipher (rng_state * E) :=
  mk_descriptor ChaCha20Cipher (rng_state * E) AllocateChaCha20Cipher CloneChaCha20Cipher
    GetLegacyChaCha20Cipher GetPageSizeChaCha20Cipher GetReservedChaCha20Cipher GetSaltChaCha20Cipher
    GenerateKeyChaCha20Cipher EncryptPageChaCha20Cipher DecryptPageChaCha20Cipher.

End Cipher.

(** ** The body of a page *)

Section Body.
Context (otk nonce : list Z) (counter : Z) (offset n : nat) (Ho : (offset <= n)%nat).

Lemma length_xor_body data :
  bytes data -> (n <= length data)%nat ->
  length (xor_body otk nonce counter offset n data) = length data /\
  bytes (xor_body otk nonce counter offset n data).
Proof.
  intros Hb Hl. unfold xor_body. split.
  - apply length_memcpy. rewrite length_chacha20_xor by auto with words. rewrite length_slice by lia. lia.
  - auto 6 with words.
Qed.

(** Byte [i] of the result. *)
Lemma nth_xor_body data i :
  bytes data -> (n <= length data)%nat ->
  (xor_body otk nonce counter offset n data).[i] =
  if (offset <=? i)%nat && (i <? n)%nat
  then Z.lxor data.[i] (rfc_keystream (skipn 32 otk) nonce (u32 (counter + 1))
                          (stream_blocks (n - offset))).[i - offset]
  else data.[i].
Proof.
  intros Hb Hl. unfold xor_body.
  assert (Ls : length (slice data offset (n - offset)) = (n - offset)%nat) by (apply length_slice; lia).
  rewrite nth_memcpy by (rewrite length_chacha20_xor by auto with words; lia).
  rewrite length_chacha20_xor, Ls by auto with words.
  replace (offset + (n - offset))%nat with n by lia.
  destruct (Nat.leb_spec offset i) as [H1|H1]; cbn [andb]; [|reflexivity].
  destruct (Nat.ltb_spec i n) as [H2|H2]; [|reflexivity].
  rewrite chacha20_xor_spec, Ls by auto with words.
  rewrite nth_xor_list.
  - rewrite nth_slice by lia. do 2 f_equal. lia.
  - lia.
  - rewrite length_rfc_keystream. pose proof (stream_blocks_cover (n - offset)). lia.
Qed.

(** Overwriting the first sixteen bytes after encryption is harmless when decryption
    puts the original bytes back. *)
Lemma body_restore (salted : bool) (salt data data' : list Z) :
  bytes data -> bytes data' -> (n <= length data)%nat -> (n <= length data')%nat -> (16 <= n)%nat ->
  length salt = 16%nat -> (salted = true -> firstn 16 data = SQLITE_FILE_HEADER) ->
  firstn n data' = firstn n (let d := xor_body otk nonce counter offset n data in
                             if salted then memcpy d 0 salt else d) ->
  firstn n (let d := xor_body otk nonce counter offset n data' in
            if salted then memcpy d 0 SQLITE_FILE_HEADER else d) = firstn n data.
Proof.
  intros Hb Hb' Hl Hl' Hn Ls Hs He. cbv zeta in *.
  destruct (length_xor_body data Hb Hl) as [L1 _]. destruct (length_xor_body data' Hb' Hl') as [L2 _].
  apply firstn_ext.
  { destruct salted; [|lia]. rewrite length_memcpy, L2; [lia|]. rewrite length_header. lia. }
  { lia. }
  intros i Hi. apply (fun H => firstn_ext_inv _ _ n i H Hi) in He.
  destruct salted.
  - rewrite nth_memcpy in He by lia. rewrite nth_memcpy by (rewrite length_header; lia).
    rewrite Ls in He. rewrite length_header. cbn [Nat.leb andb Nat.add] in *.
    destruct (Nat.ltb_spec i 16) as [H16|H16].
    + rewrite Nat.sub_0_r, <- (Hs eq_refl), nth_firstn. now rewrite (proj2 (Nat.ltb_lt i 16) H16).
    + rewrite nth_xor_body in * by auto. rewrite (proj2 (Nat.ltb_lt i n) Hi), andb_true_r in *.
      rewrite He. destruct (offset <=? i)%nat; [apply lxor_invol|reflexivity].
  - rewrite nth_xor_body in * by auto. rewrite (proj2 (Nat.ltb_lt i n) Hi), andb_true_r in *.
    rewrite He. destruct (offset <=? i)%nat; [apply lxor_invol|reflexivity].
Qed.
End Body.

(** ** Transport of a page *)

Definition cc_ready (c : ChaCha20Cipher) : Prop :=
  length (cc_key c) = KEYLENGTH_CHACHA20 /\ length (cc_salt c) = SALTLENGTH_CHACHA20 /\ bytes (cc_salt c).

(** Same mode, header and key (the salt of page 1 is restored from the file header). *)
Definition cc_same (a b : ChaCha20Cipher) : Prop :=
  cc_legacy a = cc_legacy b /\ cc_legacyPageSize a = cc_legacyPageSize b /\
  cc_plaintextHeaderSize a = cc_plaintextHeaderSize b /\ cc_key a = cc_key b /\ cc_salt a = cc_salt b.

Definition cc_body (c : ChaCha20Cipher) (reserved : Z) (len : nat) : nat :=
  Z.to_nat (Z.of_nat len - page_reserved c reserved).

(** The pages that can be written: matching reservation, room for header and
    reserved bytes, and the database header on page 1 unless it stays in plain text. *)
Definition cc_page (c : ChaCha20Cipher) (page reserved : Z) (data : list Z) : Prop :=
  bytes data /\ reserved_mismatch c reserved = false /\ page_reserved c reserved <= Z.of_nat (length data) /\
  snd (page_layout c page) <= Z.of_nat (cc_body c reserved (length data)) /\
  (16 <= cc_body c reserved (length data))%nat /\
  (page = 1 -> fst (page_layout c page) = false -> firstn 16 data = SQLITE_FILE_HEADER).

Lemma cc_same_layout a b page reserved len :
  cc_same a b -> page_layout a page = page_layout b page /\
  page_reserved a reserved = page_reserved b reserved /\
  reserved_mismatch a reserved = reserved_mismatch b reserved /\ cc_body a reserved len = cc_body b reserved len.
Proof.
  intros (E1 & _ & E3 & _). unfold cc_body, reserved_mismatch, page_layout, page_reserved.
  now rewrite E1, E3.
Qed.

Lemma page_reserved_cases c reserved : page_reserved c reserved = 0 \/ page_reserved c reserved = 32.
Proof. unfold page_reserved. destruct (_ && _); [now left|now right]. Qed.

Lemma page_otk_same a b nonce counter : cc_same a b -> page_otk a nonce counter = page_otk b nonce counter.
Proof. intros (_ & _ & _ & E & _). unfold page_otk. now rewrite E. Qed.

(** Salting page 1 or not. *)
Lemma salted_facts (b : bool) (salt d : list Z) :
  bytes d -> bytes salt -> length salt = 16%nat -> (16 <= length d)%nat ->
  let d' := if b then memcpy d 0 salt else d in
  length d' = length d /\ bytes d' /\ (forall i m, (16 <= i)%nat -> slice d' i m = slice d i m).
Proof.
  intros Hd Hs Ls Hl. destruct b; cbv zeta; [|auto]. split; [apply length_memcpy; lia|].
  split; [auto with words|]. intros i m Hi. apply slice_memcpy_ne; lia.
Qed.

(** The sealed page: nonce after the body, salt on page 1, tag at the end. *)
Section Sealed.
Context (otk nonce tag salt data : list Z) (counter : Z) (offset n : nat) (salted : bool).
Hypothesis (Hb : bytes data) (Hl : length data = (n + 32)%nat) (Ho : (offset <= n)%nat) (H16 : (16 <= n)%nat).
Hypothesis (Hn : bytes nonce) (Ln : length nonce = 16%nat) (Hs : bytes salt) (Ls : length salt = 16%nat).
Hypothesis (Lt : length tag = 16%nat) (Ht : bytes tag).

Definition unsealed : list Z :=
  let d := xor_body otk nonce counter offset n (memcpy data n nonce) in
  if salted then memcpy d 0 salt else d.
Definition sealed : list Z := memcpy unsealed (n + 16) tag.

Lemma unsealed_facts :
  length unsealed = (n + 32)%nat /\ bytes unsealed /\ slice unsealed n 16 = nonce.
Proof.
  assert (L1 : length (memcpy data n nonce) = (n + 32)%nat) by (rewrite length_memcpy; lia).
  assert (B1 : bytes (memcpy data n nonce)) by auto with words.
  destruct (length_xor_body otk nonce counter offset n Ho _ B1) as [L2 B2]; [lia|].
  destruct (salted_facts salted salt _ B2 Hs Ls) as (L3 & B3 & E3); [lia|].
  unfold unsealed. cbv zeta in *. rewrite L3, L2, E3 by lia. split; [lia|]. split; [exact B3|].
  unfold xor_body. rewrite slice_memcpy_ne.
  - apply slice_memcpy_eq; lia.
  - rewrite length_chacha20_xor by auto with words. rewrite length_slice; lia.
  - rewrite length_chacha20_xor by auto with words. rewrite length_slice; lia.
Qed.

Lemma sealed_facts :
  length sealed = (n + 32)%nat /\ bytes sealed /\ slice sealed n 16 = nonce /\
  firstn (n + 16) sealed = firstn (n + 16) unsealed /\
  firstn 16 (skipn (n + 16) (xor_body otk nonce counter offset n sealed)) = tag.
Proof.
  destruct unsealed_facts as (L & B & En). unfold sealed.
  assert (L4 : length (memcpy unsealed (n + 16) tag) = (n + 32)%nat) by (rewrite length_memcpy; lia).
  assert (B4 : bytes (memcpy unsealed (n + 16) tag)) by auto with words.
  split; [exact L4|]. split; [exact B4|]. split; [rewrite slice_memcpy_ne by lia; exact En|].
  split; [apply firstn_memcpy_before; lia|].
  unfold xor_body at 1. rewrite skipn_memcpy_after.
  - rewrite skipn_memcpy_at by lia. now apply firstn_app_l.
  - rewrite length_chacha20_xor by auto with words. rewrite length_slice; lia.
  - rewrite length_chacha20_xor by auto with words. rewrite length_slice; lia.
Qed.

Lemma sealed_restore :
  (salted = true -> firstn 16 data = SQLITE_FILE_HEADER) ->
  firstn n (let d := xor_body otk nonce counter offset n sealed in
            if salted then memcpy d 0 SQLITE_FILE_HEADER else d) = firstn n data.
Proof.
  intros Hh. destruct sealed_facts as (L & B & _ & E & _).
  assert (B1 : bytes (memcpy data n nonce)) by auto with words.
  assert (L1 : length (memcpy data n nonce) = (n + 32)%nat) by (rewrite length_memcpy; lia).
  assert (E1 : firstn n (memcpy data n nonce) = firstn n data) by (apply firstn_memcpy_before; lia).
  rewrite <- E1. apply (body_restore otk nonce counter offset n Ho salted salt); auto; try lia.
  - intros Hsa. rewrite firstn_memcpy_before by lia. auto.
  - apply (f_equal (firstn n)) in E. rewrite !firstn_firstn in E.
    replace (Nat.min n (n + 16)) with n in E by lia. exact E.
Qed.
End Sealed.

Section Transport.
Context {E : Type} (entropy : E -> nat -> option (list Z * E)).
Hypothesis (He : forall e k, exists l e', entropy e k = Some (l, e')).

Lemma length_with_header (b : bool) (d h : list Z) :
  length h = 16%nat -> (16 <= length d)%nat -> length (if b then memcpy d 0 h else d) = length d.
Proof. intros Hh Hd. destruct b; [apply length_memcpy; lia|reflexivity]. Qed.

(** What encryption gives and decryption restores. *)
Definition cc_transported (c : ChaCha20Cipher) (page : Z) (data : list Z) (reserved : Z)
    (g : rng_state * E) : Prop :=
  exists data' g',
    EncryptPageChaCha20Cipher entropy c page data reserved g = Some (SQLITE_OK, c, data', g') /\
    rng_wf (fst g') /\ length data' = length data /\ bytes data' /\
    forall c2 hmacCheck, cc_ready c2 -> cc_same c2 c ->
      exists data2,
        DecryptPageChaCha20Cipher c2 page data' reserved hmacCheck = Some (SQLITE_OK, c2, data2) /\
        length data2 = length data /\
        firstn (cc_body c reserved (length data)) data2 = firstn (cc_body c reserved (length data)) data.

Context (c : ChaCha20Cipher) (page : Z) (data : list Z) (reserved : Z) (g : rng_state * E).
Hypothesis (Hc : cc_ready c) (Hg : rng_wf (fst g)) (Hp : cc_page c page reserved data).

Let n := cc_body c reserved (length data).
Let off := Z.to_nat (snd (page_layout c page)).
Let salted := (page =? 1) && negb (fst (page_layout c page)).

Lemma salted_header : salted = true -> firstn 16 data = SQLITE_FILE_HEADER.
Proof.
  destruct Hp as (_ & _ & _ & _ & _ & H). unfold salted. intros [H1 H2]%andb_true_iff.
  apply Z.eqb_eq in H1. apply negb_true_iff in H2. auto.
Qed.

Lemma salt_all : firstn SALTLENGTH_CHACHA20 (cc_salt c) = cc_salt c.
Proof. destruct Hc as (_ & H & _). apply firstn_all2. lia. Qed.

Lemma transport_plain : page_reserved c reserved = 0 -> cc_transported c page data reserved g.
Proof.
  destruct Hc as (Lk & Ls & Bs). destruct Hp as (Hb & Hm & Hr & Hof & H16 & _). intros Er.
  pose proof salted_header as Hs. pose proof salt_all as Hsa.
  unfold cc_transported, EncryptPageChaCha20Cipher. rewrite Hm, Hsa, Er.
  assert (Ln : n = length data) by (subst n; unfold cc_body; rewrite Er; lia).
  destruct (page_layout c page) as [ph o] eqn:Hlay. cbn [fst snd] in off, salted, Hof. fold salted off.
  assert (Hon : (off <= n)%nat) by (subst off n; lia).
  rewrite Z.sub_0_r, Nat2Z.id, <- Ln. cbn [Z.gtb Z.compare].
  set (nonce := sqlite3mcGenerateInitialVector page). set (ctr := page_counter nonce page).
  destruct (length_xor_body (page_otk c nonce ctr) nonce ctr off n Hon data Hb) as [L1 B1]; [lia|].
  destruct (salted_facts salted (cc_salt c) _ B1 Bs Ls) as (L2 & B2 & _); [lia|]. cbv zeta in *.
  eexists. eexists. split; [reflexivity|]. split; [exact Hg|]. split; [lia|]. split; [exact B2|].
  intros c2 hm R2 S2. destruct (cc_same_layout c2 c page reserved (length data) S2) as (El & Ep & Em & _).
  unfold DecryptPageChaCha20Cipher. rewrite El, Ep, Em, Hm, Hlay, Er, L2, L1.
  cbn [Z.gtb Z.compare]. rewrite Z.sub_0_r, Nat2Z.id, <- Ln, (page_otk_same c2 c) by auto.
  fold salted off nonce ctr.
  destruct (length_xor_body (page_otk c nonce ctr) nonce ctr off n Hon _ B2) as [L3 B3]; [lia|].
  eexists. split; [reflexivity|]. split.
  - rewrite length_with_header; [lia|reflexivity|lia].
  - fold n. replace (cc_body c reserved n) with n by (subst n; congruence).
    apply (body_restore _ _ _ _ n Hon salted (cc_salt c) data); auto; lia.
Qed.

Lemma transport_sealed : page_reserved c reserved = 32 -> cc_transported c page data reserved g.
Proof.
  destruct Hc as (Lk & Ls & Bs). destruct Hp as (Hb & Hm & Hr & Hof & H16 & _). intros Er.
  pose proof salted_header as Hs. pose proof salt_all as Hsa.
  unfold cc_transported, EncryptPageChaCha20Cipher, PAGE_NONCE_LEN_CHACHA20. rewrite Hm, Hsa.
  change (Z.to_nat (Z.of_nat (length data) - page_reserved c reserved)) with n. rewrite Er.
  assert (Ln : length data = (n + 32)%nat) by (subst n; unfold cc_body; rewrite Er; lia).
  destruct (page_layout c page) as [ph o] eqn:Hlay. cbn [fst snd] in off, salted, Hof. fold salted off.
  assert (Hon : (off <= n)%nat) by (subst off n; lia). cbn [Z.gtb Z.compare].
  destruct (rng_total entropy 16 (fst g) (snd g) He Hg) as (nonce & st & e & -> & Lno & Bno & Hst).
  rewrite slice_memcpy_eq by lia. set (ctr := page_counter nonce page). set (otk := page_otk c nonce ctr).
  set (tag := poly1305 _ _).
  assert (Lt : length tag = 16%nat) by apply length_poly1305. assert (Bt : bytes tag) by apply bytes_poly1305.
  pose proof (sealed_facts otk nonce tag (cc_salt c) data ctr off n salted
                Hb Ln Hon H16 Bno Lno Bs Ls Lt Bt) as (L4 & B4 & En & Ef & Et).
  pose proof (sealed_restore otk nonce tag (cc_salt c) data ctr off n salted
                Hb Ln Hon H16 Bno Lno Bs Ls Lt Bt Hs) as Hrest.
  exists (sealed otk nonce tag (cc_salt c) data ctr off n salted), (st, e).
  split; [reflexivity|]. split; [exact Hst|]. split; [lia|]. split; [exact B4|].
  intros c2 hm R2 S2. destruct (cc_same_layout c2 c page reserved (length data) S2) as (El & Ep & Em & _).
  unfold DecryptPageChaCha20Cipher, PAGE_NONCE_LEN_CHACHA20. rewrite El, Ep, Em, Hm, Hlay, Er, L4.
  cbn [Z.gtb Z.compare]. replace (Z.to_nat (Z.of_nat (n + 32) - 32)) with n by lia.
  rewrite En. fold ctr. rewrite (page_otk_same c2 c) by auto. fold otk salted off. rewrite Ef.
  change (poly1305 (firstn (n + 16) (unsealed otk nonce (cc_salt c) data ctr off n salted)) otk) with tag.
  destruct (length_xor_body otk nonce ctr off n Hon _ B4) as [L5 B5]; [lia|].
  set (d := xor_body otk nonce ctr off n (sealed _ _ _ _ _ _ _ _ _)) in *.
  assert (Htc : poly1305_tagcmp (skipn (n + 16) d) tag = 0).
  { apply poly1305_tagcmp_spec; [rewrite length_skipn; lia|lia|]. now rewrite Et, firstn_all2 by lia. }
  rewrite Htc.
  cbn [Z.eqb negb]. rewrite andb_false_r. cbn [Z.eqb SQLITE_OK].
  eexists. split; [reflexivity|]. split; [|exact Hrest].
  rewrite length_with_header; [lia|reflexivity|lia].
Qed.

Lemma cc_transport : cc_transported c page data reserved g.
Proof.
  destruct (page_reserved_cases c reserved); [now apply transport_plain|now apply transport_sealed].
Qed.
End Transport.

Section Interface.
Context {E : Type} (entropy : E -> nat -> option (list Z * E)).
Hypothesis (He : forall e k, exists l e', entropy e k = Some (l, e')).

#[export] Instance PageCipher_ChaCha20 : PageCipher (mcChaCha20Descriptor entropy).
Proof using He.
  refine {| pc_ready := cc_ready; pc_same := cc_same; pc_gen := fun g => rng_wf (fst g);
            pc_page := cc_page; pc_body := cc_body |}.
  - unfold cc_same. split; [|split]; intuition congruence.
  - intros to from (T1 & T2 & T3) (F1 & F2 & F3).
    cbn [m_cloneCipher mcChaCha20Descriptor CloneChaCha20Cipher].
    rewrite <- F1, <- F2, !firstn_all, !memcpy_all by congruence. unfold cc_ready, cc_same. cbn. auto 10.
  - intros c page data reserved g Hc Hg Hp.
    destruct (cc_transport entropy He c page data reserved g Hc Hg Hp)
      as (data' & g' & Ee & Hg' & L & B & Hd).
    exists c, data', g'. split; [exact Ee|]. split; [exact Hc|]. split; [unfold cc_same; auto|].
    split; [exact Hg'|]. split; [exact L|]. split; [exact B|]. intros c2 hm R2 S2.
    destruct (Hd c2 hm R2 S2) as (data2 & Ed & L2 & E2). exists c2, data2. unfold cc_same. auto 10.
Defined.
End Interface.

(** The default cipher restores every page: for every configuration (legacy or not,
    with or without plaintext header, with or without reserved bytes), every page whose
    reservation matches (on page 1 without plaintext header: one that starts with the
    database header) and every state of the generator, encryption returns SQLITE_OK and a
    page of the same size, and decryption by an object with the same key, with or without
    checking the tag, returns SQLITE_OK and the original content of the page.  The entropy
    source of the generator is a parameter that is assumed to deliver. *)
Theorem chacha20_page_restore {E : Type} (entropy : E -> nat -> option (list Z * E))
    (c d : ChaCha20Cipher) (page reserved hmacCheck : Z) (data : list Z) (g : rng_state * E) :
  (forall e k, exists l e', entropy e k = Some (l, e')) ->
  cc_ready c -> cc_ready d -> cc_same d c -> rng_wf (fst g) -> cc_page c page reserved data ->
  exists data' g' data2,
    EncryptPageChaCha20Cipher entropy c page data reserved g = Some (SQLITE_OK, c, data', g') /\
    length data' = length data /\
    DecryptPageChaCha20Cipher d page data' reserved hmacCheck = Some (SQLITE_OK, d, data2) /\
    firstn (cc_body c reserved (length data)) data2 = firstn (cc_body c reserved (length data)) data.
Proof.
  intros He Hc Hd Hs Hg Hp.
  destruct (cc_transport entropy He c page data reserved g Hc Hg Hp) as (data' & g' & Ee & _ & L & _ & H).
  destruct (H d hmacCheck Hd Hs) as (data2 & Ed & _ & E2). exists data', g', data2. auto.
Qed.

(** A page 1 with room for nonce and tag, and an entropy source that counts its draws. *)
Definition cc_sample_page : list Z :=
  SQLITE_FILE_HEADER ++ [2; 0; 1; 1; 32; 0x40; 0x20; 0x20] ++ map Z.of_nat (seq 0 200) ++ memset 0 288.
Definition counting_entropy (e : Z) (k : nat) : option (list Z * Z) := Some (memset e k, e + 1).

Lemma chacha20_page_restore_witness :
  let c := mk_chacha20 0 4096 64007 0 32 (map Z.of_nat (seq 1 32)) (map Z.of_nat (seq 60 16)) in
  exists data' g' data2,
    EncryptPageChaCha20Cipher counting_entropy c 1 cc_sample_page 32 (rng_init, 3) =
      Some (SQLITE_OK, c, data', g') /\
    length data' = length cc_sample_page /\
    DecryptPageChaCha20Cipher c 1 data' 32 1 = Some (SQLITE_OK, c, data2) /\
    firstn (cc_body c 32 (length cc_sample_page)) data2 = firstn (cc_body c 32 (length cc_sample_page)) cc_sample_page.
Proof.
  intros c.
  assert (R : cc_ready c).
  { split; [reflexivity|]. split; [reflexivity|]. apply bytesb_bytes. vm_compute. reflexivity. }
  apply (chacha20_page_restore counting_entropy c c 1 32 1 cc_sample_page (rng_init, 3)); try exact R.
  - intros e k. exists (memset e k), (e + 1). reflexivity.
  - repeat split.
  - apply rng_init_wf.
  - split; [apply bytesb_bytes; vm_compute; reflexivity|]. split; [reflexivity|].
    split; [apply Z.leb_le; vm_compute; reflexivity|]. split; [apply Z.leb_le; vm_compute; reflexivity|].
    split; [apply Nat.leb_le; vm_compute; reflexivity|]. intros _ _. vm_compute. reflexivity.
Defined.

(** With a reserved area, decryption that checks the tag accepts a page exactly when
    the sixteen bytes stored after the nonce are the Poly1305 tag, under the one-time key
    of this page number and nonce, of everything before them; every other page is reported
    as SQLITE_NOTADB (page 1) or SQLITE_CORRUPT.  A mismatch of the reservation is
    reported the same way and leaves the page as it is.  Without the check no tag is an
    error. *)
Theorem chacha20_page_authentic (c : ChaCha20Cipher) (page reserved hmacCheck : Z) (data : list Z) :
  let n := cc_body c reserved (length data) in
  let otk := page_otk c (slice data n 16) (page_counter (slice data n 16) page) in
  let bad := if page =? 1 then SQLITE_NOTADB else SQLITE_CORRUPT in
  bytes data -> page_reserved c reserved = 32 -> length data = (n + 32)%nat ->
  (Z.to_nat (snd (page_layout c page)) <= n)%nat -> hmacCheck <> 0 ->
  exists rc data2, DecryptPageChaCha20Cipher c page data reserved hmacCheck = Some (rc, c, data2) /\
    (rc = SQLITE_OK \/ rc = bad) /\
    (reserved_mismatch c reserved = true -> rc = bad /\ data2 = data) /\
    (reserved_mismatch c reserved = false ->
       (rc = SQLITE_OK <-> slice data (n + 16) 16 = poly1305 (firstn (n + 16) data) otk) /\
       exists data3, DecryptPageChaCha20Cipher c page data reserved 0 = Some (SQLITE_OK, c, data3)).
Proof.
  intros n otk bad Hb Er Ln Ho Hh. unfold DecryptPageChaCha20Cipher, PAGE_NONCE_LEN_CHACHA20.
  change (Z.to_nat (Z.of_nat (length data) - page_reserved c reserved)) with n. rewrite Er.
  destruct (page_layout c page) as [ph o]. cbn [snd] in Ho. cbn [Z.gtb Z.compare]. fold bad.
  assert (Hbad : bad <> SQLITE_OK) by (subst bad; destruct (page =? 1); discriminate).
  destruct (reserved_mismatch c reserved).
  { exists bad, data. repeat split; auto; discriminate. }
  fold otk. set (tag := poly1305 _ otk). set (nonce := slice data n 16). set (ctr := page_counter nonce page).
  set (d := xor_body otk nonce ctr (Z.to_nat o) n data).
  destruct (length_xor_body otk nonce ctr (Z.to_nat o) n Ho data Hb) as [L1 B1]; [lia|]. fold d in L1, B1.
  assert (Lt : length tag = 16%nat) by apply length_poly1305.
  assert (Es : skipn (n + 16) d = skipn (n + 16) data).
  { unfold d, xor_body. apply skipn_memcpy_after; rewrite length_chacha20_xor by auto with words;
      rewrite length_slice; lia. }
  assert (Hcmp : poly1305_tagcmp (skipn (n + 16) d) tag = 0 <-> slice data (n + 16) 16 = tag).
  { rewrite poly1305_tagcmp_spec by (rewrite ?length_skipn; lia).
    rewrite Es, (firstn_all2 tag) by lia. reflexivity. }
  rewrite (proj2 (Z.eqb_neq hmacCheck 0) Hh). cbn [negb andb Z.eqb].
  eexists. eexists. split; [reflexivity|].
  destruct (Z.eqb_spec (poly1305_tagcmp (skipn (n + 16) d) tag) 0) as [Hz|Hz]; cbn [negb].
  - split; [now left|]. split; [discriminate|]. intros _. split; [|eexists; reflexivity].
    split; [intros _; now apply Hcmp|reflexivity].
  - split; [now right|]. split; [discriminate|]. intros _. split; [|eexists; reflexivity].
    split; [contradiction|]. intros H. now apply Hcmp in H.
Qed.

Lemma chacha20_page_authentic_witness :
  let c := mk_chacha20 0 4096 64007 0 32 (map Z.of_nat (seq 1 32)) (map Z.of_nat (seq 60 16)) in
  exists rc data2, DecryptPageChaCha20Cipher c 2 (memset 0 512) 32 1 = Some (rc, c, data2) /\
    (rc = SQLITE_OK \/ rc = SQLITE_CORRUPT).
Proof.
  intros c.
  destruct (chacha20_page_authentic c 2 32 1 (memset 0 512)) as (rc & data2 & E & H & _).
  - apply bytesb_bytes. vm_compute. reflexivity.
  - reflexivity.
  - vm_compute. reflexivity.
  - apply Nat.leb_le. vm_compute. reflexivity.
  - discriminate.
  - exists rc, data2. split; [exact E|exact H].
Defined.

(** ** Key derivation *)

Lemma kdf_sha256_spec password salt iterations key :
  bytes password -> bytes salt -> Z.of_nat (length password) < 2 ^ 29 -> length salt = 16%nat ->
  length key = 32%nat ->
  kdf_sha256 password salt iterations key = rfc_pbkdf2 S_sha256 64 32 password salt (Z.to_nat iterations) 32.
Proof.
  intros Bp Bs Lp Ls Lk. unfold kdf_sha256, fastpbkdf2_hmac_sha256.
  pose proof (@PBKDF2_spec _ _ _ HashLaws_sha256
    (mk_hmac (mk_sha2 0 0 (memset 0 128) []) (mk_sha2 0 0 (memset 0 128) [])) (memset 0 64)
    password salt (Z.to_nat iterations) key) as P. rewrite Lk in P.
  apply P; auto; [split; reflexivity|lia|lia].
Qed.

Lemma length_key_32 password salt n : length (rfc_pbkdf2 S_sha256 64 32 password salt n 32) = 32%nat.
Proof.
  unfold rfc_pbkdf2. change ((32 + 32 - 1) / 32)%nat with 1%nat. cbn [seq flat_map].
  rewrite app_nil_r, length_firstn.
  pose proof (@length_pbkdf2_T _ _ _ HashLaws_sha256 password salt (Z.of_nat 1) (n - 1)) as L.
  change (@blocksz _ Hash_sha256) with 64%nat in L. rewrite L. reflexivity.
Qed.

Lemma finish_key_spec c password keyOnly salt :
  bytes password -> Z.of_nat (length password) < 2 ^ 29 -> length (cc_key c) = 32%nat ->
  (forall key salt, fst (fst (sqlite3mcExtractRawKey password keyOnly 32 16 key salt)) = false) ->
  length salt = 16%nat -> bytes salt ->
  let c' := finish_key c password salt keyOnly in
  cc_ready c' /\ cc_salt c' = salt /\
  cc_key c' = rfc_pbkdf2 S_sha256 64 32 password salt (Z.to_nat (cc_kdfIter c)) 32.
Proof.
  intros Bp Lp Lk Hraw L B c'.
  assert (E : c' = mk_chacha20 (cc_legacy c) (cc_legacyPageSize c) (cc_kdfIter c) (cc_plaintextHeaderSize c)
    (cc_keyLength c) (rfc_pbkdf2 S_sha256 64 32 password salt (Z.to_nat (cc_kdfIter c)) 32) salt).
  { subst c'. unfold finish_key. rewrite extract_none by apply Hraw.
    now rewrite firstn_all2, kdf_sha256_spec by (auto; unfold SALTLENGTH_CHACHA20; lia). }
  rewrite E. unfold cc_ready. cbn [cc_key cc_salt]. rewrite length_key_32. auto.
Qed.

(** Keys of the default cipher: for a password that is not a raw key, the key is
    PBKDF2-HMAC-SHA256 of the password and the salt with [kdf_iter] iterations.  When a
    salt is given and the key is not being changed (or is changed in WAL mode, [rekey] 2),
    that salt is kept and the generator is not used; otherwise the salt is the next
    sixteen bytes of the generator. *)
Theorem chacha20_key_derivation {E : Type} (entropy : E -> nat -> option (list Z * E))
    (c : ChaCha20Cipher) (password : list Z) (rekey : Z) (cipherSalt : option (list Z)) (g : rng_state * E) :
  (forall e k, exists l e', entropy e k = Some (l, e')) ->
  cc_ready c -> rng_wf (fst g) -> bytes password -> Z.of_nat (length password) < 2 ^ 29 ->
  (forall keyOnly key salt, fst (fst (sqlite3mcExtractRawKey password keyOnly 32 16 key salt)) = false) ->
  (forall s, cipherSalt = Some s -> bytes s /\ (16 <= length s)%nat) ->
  exists c' g', GenerateKeyChaCha20Cipher entropy c password rekey cipherSalt g = Some (c', g') /\
    cc_ready c' /\
    cc_key c' = rfc_pbkdf2 S_sha256 64 32 password (cc_salt c') (Z.to_nat (cc_kdfIter c)) 32 /\
    match cipherSalt with
    | Some s => if (rekey =? 0) || (rekey =? 2) then cc_salt c' = firstn 16 s /\ g' = g
                else exists st e, chacha20_rng entropy 16 (fst g) (snd g) = Some (cc_salt c', st, e) /\ g' = (st, e)
    | None => exists st e, chacha20_rng entropy 16 (fst g) (snd g) = Some (cc_salt c', st, e) /\ g' = (st, e)
    end.
Proof.
  intros He (Lk & Ls & Bs) Hg Bp Lp Hraw Hsalt.
  assert (F := fun ko salt => finish_key_spec c password ko salt Bp Lp Lk (fun key salt => Hraw ko key salt)).
  destruct (rng_total entropy 16 (fst g) (snd g) He Hg) as (rs & st & e & Er & Lr & Br & Hw).
  assert (Mr : memcpy (cc_salt c) 0 rs = rs) by (apply memcpy_all; unfold SALTLENGTH_CHACHA20 in Ls; lia).
  unfold GenerateKeyChaCha20Cipher. change SALTLENGTH_CHACHA20 with 16%nat in *. rewrite Er, Mr.
  destruct (F false rs Lr Br) as (Rc & Sc & Kc).
  destruct cipherSalt as [s|].
  - destruct (Hsalt s eq_refl) as [Bsa Lsa].
    assert (Lf : length (firstn 16 s) = 16%nat) by (rewrite length_firstn; lia).
    rewrite (memcpy_all (cc_salt c) (firstn 16 s)) by lia.
    destruct (F (negb (cc_plaintextHeaderSize c >? 0)) (firstn 16 s) Lf (bytes_firstn _ _ Bsa)) as (R1 & S1 & K1).
    destruct (Z.eqb_spec rekey 2) as [->|H2]; [|destruct (Z.eqb_spec rekey 0) as [->|H0]]; cbn [Z.eqb negb orb].
    + eexists. eexists. split; [reflexivity|]. rewrite S1. auto.
    + eexists. eexists. split; [reflexivity|]. rewrite S1. auto.
    + eexists. eexists. split; [reflexivity|]. rewrite Sc. eauto 8.
  - destruct (Z.eqb_spec rekey 2) as [->|H2]; eexists; eexists; (split; [reflexivity|]); rewrite Sc; eauto 8.
Qed.

Lemma chacha20_key_derivation_witness :
  let c := mk_chacha20 0 4096 3 0 32 (memset 0 32) (memset 0 16) in
  exists c' g', GenerateKeyChaCha20Cipher counting_entropy c [112; 119] 2 (Some (memset 9 16)) (rng_init, 3) =
                  Some (c', g') /\
    cc_ready c' /\
    cc_key c' = rfc_pbkdf2 S_sha256 64 32 [112; 119] (cc_salt c') 3 32 /\
    cc_salt c' = firstn 16 (memset 9 16) /\ g' = (rng_init, 3).
Proof.
  intros c.
  apply (chacha20_key_derivation counting_entropy c [112; 119] 2 (Some (memset 9 16)) (rng_init, 3)).
  - intros e k. exists (memset e k), (e + 1). reflexivity.
  - split; [reflexivity|]. split; [reflexivity|]. apply bytesb_bytes. reflexivity.
  - apply rng_init_wf.
  - apply bytesb_bytes. reflexivity.
  - cbn. lia.
  - reflexivity.
  - intros s [= <-]. split; [apply bytesb_bytes; reflexivity|cbn; lia].
Defined.

(** ** Keys of the default cipher, raw or derived *)

Definition cc_config (a b : ChaCha20Cipher) : Prop :=
  cc_legacy a = cc_legacy b /\ cc_legacyPageSize a = cc_legacyPageSize b /\ cc_kdfIter a = cc_kdfIter b /\
  cc_plaintextHeaderSize a = cc_plaintextHeaderSize b.

Lemma finish_key_reopen a b password ko ko' salt :
  cc_ready a -> cc_ready b -> cc_config a b -> password_ok password -> length salt = 16%nat -> bytes salt ->
  (ko = true -> ko' = true) ->
  let a' := finish_key a password salt ko in
  cc_ready a' /\ cc_same (finish_key b password (cc_salt a') ko') a' /\
  cc_ready (finish_key b password (cc_salt a') ko').
Proof.
  intros (Ak & _ & _) (Bk & _ & _) (C1 & C2 & C3 & C4) (Bp & Lp) Ls Bs Hko.
  unfold KEYLENGTH_CHACHA20, SALTLENGTH_CHACHA20 in *.
  pose proof (extract_ok password ko ko' 32 16 (cc_key a) (cc_key b) salt Bp Ak Bk Ls Bs Hko) as X.
  unfold finish_key, KEYLENGTH_CHACHA20, SALTLENGTH_CHACHA20.
  destruct (sqlite3mcExtractRawKey password ko 32 16 (cc_key a) salt) as [[by_ key] salt'].
  destruct X as (Lk & _ & Ls' & Bs' & E). cbn [cc_salt]. rewrite E.
  assert (Hk : (if by_ then key else kdf_sha256 password (firstn 16 salt') (cc_kdfIter a) key) =
               (if by_ then if by_ then key else cc_key b
                else kdf_sha256 password (firstn 16 salt') (cc_kdfIter b) (if by_ then key else cc_key b)) /\
               length (if by_ then key else kdf_sha256 password (firstn 16 salt') (cc_kdfIter a) key) = 32%nat).
  { rewrite (firstn_all2 salt') by lia. destruct by_; [auto|].
    rewrite !kdf_sha256_spec, C3 by auto. split; [reflexivity|apply length_key_32]. }
  destruct Hk as [Ek Lk']. rewrite <- Ek. set (k := if by_ then key else kdf_sha256 _ _ _ _) in *. clearbody k.
  unfold cc_ready, cc_same. cbn [cc_key cc_salt cc_legacy cc_legacyPageSize cc_plaintextHeaderSize]. unfold KEYLENGTH_CHACHA20, SALTLENGTH_CHACHA20. auto 20.
Qed.

Section Keys.
Context {E : Type} (entropy : E -> nat -> option (list Z * E)).
Hypothesis (He : forall e k, exists l e', entropy e k = Some (l, e')).

(** Key generation ends in [finish_key], with a salt of sixteen bytes. *)
Lemma generate_finish c password rekey salt g :
  cc_ready c -> rng_wf (fst g) -> salt_ok salt ->
  exists s ko g', GenerateKeyChaCha20Cipher entropy c password rekey salt g = Some (finish_key c password s ko, g') /\
    length s = 16%nat /\ bytes s /\ rng_wf (fst g') /\ (ko = true -> (cc_plaintextHeaderSize c >? 0) = false) /\
    (forall h, rekey = 0 -> salt = Some h -> s = firstn 16 h /\ ko = negb (cc_plaintextHeaderSize c >? 0) /\ g' = g).
Proof using He.
  intros (Lk & Ls & Bs) Hg Hsalt. unfold SALTLENGTH_CHACHA20 in Ls.
  destruct (rng_total entropy 16 (fst g) (snd g) He Hg) as (rs & st & e & Er & Lr & Br & Hw).
  unfold GenerateKeyChaCha20Cipher, SALTLENGTH_CHACHA20. rewrite Er, (memcpy_all _ rs) by lia.
  destruct salt as [h|].
  - destruct Hsalt as [Bh Lh]. assert (Lf : length (firstn 16 h) = 16%nat) by (rewrite length_firstn; lia).
    rewrite (memcpy_all _ (firstn 16 h)) by lia. set (r := if rekey =? 2 then 0 else rekey).
    destruct (Z.eqb_spec r 0) as [Hr|Hr]; cbn [negb].
    + eexists. eexists. exists g. split; [reflexivity|]. split; [exact Lf|]. split; [auto with words|].
      split; [exact Hg|]. split; [apply negb_true_iff|]. intros h' _ [= <-]. auto.
    + eexists. eexists. exists (st, e). split; [reflexivity|]. do 3 (split; [assumption|]).
      split; [discriminate|]. intros h' R _. subst r. rewrite R in Hr. now contradiction Hr.
  - exists rs, false, (st, e). destruct (rekey =? 2); (split; [reflexivity|]); do 3 (split; [assumption|]);
      (split; [discriminate|intros ? _ ?; discriminate]).
Qed.

(** Page 1 without plaintext header starts with the salt. *)
Lemma page1_starts_with_salt c data reserved g c' data' g' :
  cc_ready c -> rng_wf (fst g) -> cc_page c 1 reserved data -> fst (page_layout c 1) = false ->
  EncryptPageChaCha20Cipher entropy c 1 data reserved g = Some (SQLITE_OK, c', data', g') ->
  firstn 16 data' = cc_salt c.
Proof using He.
  intros (Lk & Ls & Bs) Hg (Bd & Hmis & Hr & Ho & H16 & _) Hl Ee. unfold SALTLENGTH_CHACHA20 in Ls.
  unfold EncryptPageChaCha20Cipher, cc_body in *. rewrite Hmis in Ee.
  destruct (rng_total entropy 16 (fst g) (snd g) He Hg) as (rs & st & e & Er & Lr & Br & Hw).
  unfold SALTLENGTH_CHACHA20, PAGE_NONCE_LEN_CHACHA20 in Ee.
  rewrite Er, (firstn_all2 (cc_salt c)) in Ee by lia. set (n := Z.to_nat _) in *.
  destruct (page_layout c 1) as [ph o]. cbn [fst snd] in *. subst ph. cbn [Z.eqb Pos.eqb andb negb] in Ee.
  assert (Hn : (Z.to_nat o <= n)%nat) by lia.
  assert (F : forall d, (16 <= length d)%nat -> firstn 16 (memcpy d 0 (cc_salt c)) = cc_salt c)
    by (intros d _; apply firstn_memcpy_0; exact Ls).
  destruct (page_reserved_cases c reserved) as [E0|E0]; rewrite E0 in *.
  - cbn [Z.gtb Z.compare] in Ee. injection Ee as _ <- _. apply F.
    destruct (length_xor_body (page_otk c (sqlite3mcGenerateInitialVector 1) (page_counter (sqlite3mcGenerateInitialVector 1) 1))
      (sqlite3mcGenerateInitialVector 1) (page_counter (sqlite3mcGenerateInitialVector 1) 1) (Z.to_nat o) n Hn data Bd)
      as [L _]; lia.
  - cbn [Z.gtb Z.compare] in Ee. injection Ee as _ <- _.
    assert (Lm : length (memcpy data n rs) = length data) by (rewrite length_memcpy; lia).
    set (d := memcpy data n rs) in *. set (x := xor_body _ _ _ _ _ d).
    assert (Lx : length x = length data).
    { unfold x. rewrite <- Lm. apply length_xor_body; [exact Hn|subst d; auto with words|lia]. }
    rewrite firstn_memcpy_before; [apply F; lia|lia|rewrite length_memcpy; lia].
Qed.

#[export] Instance CipherKeys_ChaCha20 : @CipherKeys _ _ (mcChaCha20Descriptor entropy) (PageCipher_ChaCha20 entropy He).
Proof using He.
  unshelve refine {| ck_config := cc_config; ck_hidden := fun c => negb (fst (page_layout c 1)) |}.
  - intros ps. cbn [m_allocateCipher mcChaCha20Descriptor]. unfold AllocateChaCha20Cipher.
    repeat match goal with |- context [let '(_, _) := ?p in _] => destruct p end.
    cbn [fst]. repeat split. apply bytes_memset. unfold is_byte. lia.
  - intros c pw rekey salt g Hc Hg Hp Hs.
    destruct (generate_finish c pw rekey salt g Hc Hg Hs) as (s & ko & g' & Eg & Ls & Bs & Hg' & _).
    exists (finish_key c pw s ko), g'. split; [exact Eg|]. split; [|exact Hg'].
    apply (finish_key_reopen c c pw ko ko s); auto. repeat split.
  - intros a b pw rekey salt header g g2 a' g' Ha Hb Hg Hcfg Hp Hs Hh Eg Hhead.
    destruct (generate_finish a pw rekey salt g Ha Hg Hs) as (s & ko & g0 & Eg0 & Ls & Bs & _ & Hko & _).
    cbn [m_generateKey mcChaCha20Descriptor] in Eg. rewrite Eg0 in Eg. injection Eg as <- <-.
    specialize (Hhead _ eq_refl). destruct header as [h|]; [|discriminate]. apply some_inj in Hhead as Eh.
    pose proof Hcfg as (_ & _ & _ & C4).
    destruct (finish_key_reopen a b pw ko (negb (cc_plaintextHeaderSize b >? 0)) s Ha Hb Hcfg Hp Ls Bs) as (Ra & Sm & Rb).
    { intros K. rewrite <- C4, (Hko K). reflexivity. }
    exists (finish_key b pw (cc_salt (finish_key a pw s ko)) (negb (cc_plaintextHeaderSize b >? 0))).
    split; [|split; [exact Rb|exact Sm]]. cbn [m_generateKey mcChaCha20Descriptor].
    unfold GenerateKeyChaCha20Cipher. cbn [Z.eqb negb]. pose proof Hb as (_ & Lb & _). pose proof Ra as (_ & Las & _).
    unfold SALTLENGTH_CHACHA20 in *. rewrite Eh, memcpy_all; [reflexivity|congruence].
  - intros c data reserved g c' data' g' s Hc Hg Hp Ee [= <-] Hh. apply negb_true_iff in Hh.
    now apply (page1_starts_with_salt c data reserved g c' data' g').
  - intros a b (S1 & S2 & S3 & S4 & S5). cbn.
    unfold GetSaltChaCha20Cipher, GetReservedChaCha20Cipher, GetPageSizeChaCha20Cipher, GetLegacyChaCha20Cipher,
      cc_page, cc_body, page_layout, reserved_mismatch, page_reserved. rewrite S1, S2, S3, S5. auto 10.
Defined.
End Keys.
