(* ===== verification/CipherSqlCipher.v ===== *)
(** * The SQLCipher and RC4 page ciphers (cipher_sqlcipher.c, cipher_sds_rc4.c)

    SQLCipher encrypts the body of a page with AES-256 in CBC mode and appends the
    initial vector and, if configured, an HMAC over ciphertext, vector and page number.
    The RC4 cipher encrypts whole pages with one key stream.  [le] tells whether the host
    stores integers lowest byte first. *)

From Stdlib Require Import ZArith Lia List Bool.
From S2P Require Import Prelude ChaCha20 Streaming Sha1 Sha2 Pbkdf2 RijndaelTables Rijndael RijndaelModes CodecAlgos CipherCommon.
Import ListNotations.
Import Strings.String.StringSyntax.
Local Open Scope Z_scope.

(** ** RC4 *)

Definition KEYLENGTH_RC4 : nat := 16.

Definition mcRC4Params : list CipherParams :=
  [mk_param (str "legacy") 1 1 1 1; mk_param (str "legacy_page_size") 0 0 0 SQLITE_MAX_PAGE_SIZE].

Record RC4Cipher := mk_rc4 { r_legacy : Z; r_legacyPageSize : Z; r_keyLength : nat; r_key : list Z }.

Definition AllocateRC4Cipher (cipherParams : list CipherParams) : RC4Cipher * list CipherParams :=
  let '(legacy, cipherParams) := sqlite3mcGetCipherParameter cipherParams (str "legacy") in
  let '(size, cipherParams) := sqlite3mcGetCipherParameter cipherParams (str "legacy_page_size") in
  (mk_rc4 legacy size KEYLENGTH_RC4 (memset 0 KEYLENGTH_RC4), cipherParams).

Definition CloneRC4Cipher (cipherTo cipherFrom : RC4Cipher) : RC4Cipher * RC4Cipher :=
  (mk_rc4 (r_legacy cipherFrom) (r_legacyPageSize cipherFrom) (r_keyLength cipherFrom)
     (memcpy (r_key cipherTo) 0 (firstn KEYLENGTH_RC4 (r_key cipherFrom))), cipherFrom).

Definition GetLegacyRC4Cipher (c : RC4Cipher) : Z := r_legacy c.
Definition GetPageSizeRC4Cipher (c : RC4Cipher) : Z := legacy_page_size (r_legacy c) (r_legacyPageSize c).
Definition GetReservedRC4Cipher (_ : RC4Cipher) : Z := 0.
Definition GetSaltRC4Cipher (_ : RC4Cipher) : option (list Z) := None.

Definition GenerateKeyRC4Cipher {G} (le : bool) (c : RC4Cipher) (userPassword : list Z) (rekey : Z)
    (cipherSalt : option (list Z)) (g : G) : option (RC4Cipher * G) :=
  let ctx := sha1_init (mk_sha1 [] 0 0 (memset 0 64)) in
  let ctx := sha1_update le ctx userPassword in
  let digest := snd (sha1_final le ctx) in
  Some (mk_rc4 (r_legacy c) (r_legacyPageSize c) (r_keyLength c) (memcpy (r_key c) 0 (firstn 16 digest)), g).

Definition EncryptPageRC4Cipher {G} (c : RC4Cipher) (page : Z) (data : list Z) (reserved : Z) (g : G)
    : option (Z * RC4Cipher * list Z * G) :=
  Some (SQLITE_OK, c, sqlite3mcRC4 (r_key c) (r_keyLength c) data, g).

Definition DecryptPageRC4Cipher (c : RC4Cipher) (page : Z) (data : list Z) (reserved hmacCheck : Z)
    : option (Z * RC4Cipher * list Z) :=
  Some (SQLITE_OK, c, sqlite3mcRC4 (r_key c) (r_keyLength c) data).

Definition mcRC4Descriptor (le : bool) (G : Type) : CipherDescriptor RC4Cipher G :=
  mk_descriptor RC4Cipher G AllocateRC4Cipher CloneRC4Cipher GetLegacyRC4Cipher GetPageSizeRC4Cipher
    GetReservedRC4Cipher GetSaltRC4Cipher (GenerateKeyRC4Cipher le) EncryptPageRC4Cipher DecryptPageRC4Cipher.

(** ** SQLCipher *)

Definition KEYLENGTH_SQLCIPHER : nat := 32.
Definition SALTLENGTH_SQLCIPHER : nat := 16.
Definition PAGE_NONCE_LEN_SQLCIPHER : nat := 16.
Definition SQLCIPHER_VERSION_4 : Z := 4.
Definition SQLCIPHER_ALGORITHM_SHA1 : Z := 0.
Definition SQLCIPHER_ALGORITHM_SHA256 : Z := 1.
Definition SQLCIPHER_ALGORITHM_SHA512 : Z := 2.
Definition SQLCIPHER_HMAC_PGNO_LE : Z := 1.
Definition SQLCIPHER_HMAC_PGNO_BE : Z := 2.

Definition mcSQLCipherParams : list CipherParams :=
  [mk_param (str "legacy") 0 0 0 4; mk_param (str "legacy_page_size") 4096 4096 0 SQLITE_MAX_PAGE_SIZE;
   mk_param (str "kdf_iter") 256000 256000 1 0x7fffffff; mk_param (str "fast_kdf_iter") 2 2 1 0x7fffffff;
   mk_param (str "hmac_use") 1 1 0 1; mk_param (str "hmac_pgno") 1 1 0 2;
   mk_param (str "hmac_salt_mask") 0x3a 0x3a 0 0xff; mk_param (str "kdf_algorithm") 2 2 0 2;
   mk_param (str "hmac_algorithm") 2 2 0 2; mk_param (str "hmac_algorithm_compat") 1 1 0 1;
   mk_param (str "plaintext_header_size") 0 0 0 100].

Record SQLCipherCipher := mk_sqlcipher {
  s_legacy : Z; s_legacyPageSize : Z; s_kdfIter : Z; s_fastKdfIter : Z; s_hmacUse : Z; s_hmacPgno : Z;
  s_hmacSaltMask : Z; s_kdfAlgorithm : Z; s_hmacAlgorithm : Z; s_hmacAlgorithmCompat : Z;
  s_plaintextHeaderSize : Z; s_keyLength : nat; s_key : list Z; s_salt : list Z; s_hmacKey : list Z;
  s_aes : Rijndael }.

Definition AllocateSQLCipherCipher (p : list CipherParams) : SQLCipherCipher * list CipherParams :=
  let '(legacy, p) := sqlite3mcGetCipherParameter p (str "legacy") in
  let '(size, p) := sqlite3mcGetCipherParameter p (str "legacy_page_size") in
  let '(kdfIter, p) := sqlite3mcGetCipherParameter p (str "kdf_iter") in
  let '(fastKdfIter, p) := sqlite3mcGetCipherParameter p (str "fast_kdf_iter") in
  let '(hmacUse, p) := sqlite3mcGetCipherParameter p (str "hmac_use") in
  let '(hmacPgno, p) := sqlite3mcGetCipherParameter p (str "hmac_pgno") in
  let '(hmacSaltMask, p) := sqlite3mcGetCipherParameter p (str "hmac_salt_mask") in
  let '(kdfAlgorithm, p) := sqlite3mcGetCipherParameter p (str "kdf_algorithm") in
  let '(hmacAlgorithm, p) := sqlite3mcGetCipherParameter p (str "hmac_algorithm") in
  let '(compat, p) := sqlite3mcGetCipherParameter p (str "hmac_algorithm_compat") in
  let '(header, p) :=
    if (legacy =? 0) || (legacy >=? SQLCIPHER_VERSION_4)
    then sqlite3mcGetCipherParameter p (str "plaintext_header_size") else (0, p) in
  (mk_sqlcipher legacy size kdfIter fastKdfIter hmacUse hmacPgno hmacSaltMask kdfAlgorithm hmacAlgorithm
     compat header KEYLENGTH_SQLCIPHER (memset 0 KEYLENGTH_SQLCIPHER) (memset 0 SALTLENGTH_SQLCIPHER)
     (memset 0 KEYLENGTH_SQLCIPHER) (RijndaelCreate rijndael0), p).

Definition set_s_aes (aes : Rijndael) (c : SQLCipherCipher) : SQLCipherCipher :=
  mk_sqlcipher (s_legacy c) (s_legacyPageSize c) (s_kdfIter c) (s_fastKdfIter c) (s_hmacUse c) (s_hmacPgno c)
    (s_hmacSaltMask c) (s_kdfAlgorithm c) (s_hmacAlgorithm c) (s_hmacAlgorithmCompat c)
    (s_plaintextHeaderSize c) (s_keyLength c) (s_key c) (s_salt c) (s_hmacKey c) aes.

Definition set_s_keys (key salt hmacKey : list Z) (c : SQLCipherCipher) : SQLCipherCipher :=
  mk_sqlcipher (s_legacy c) (s_legacyPageSize c) (s_kdfIter c) (s_fastKdfIter c) (s_hmacUse c) (s_hmacPgno c)
    (s_hmacSaltMask c) (s_kdfAlgorithm c) (s_hmacAlgorithm c) (s_hmacAlgorithmCompat c)
    (s_plaintextHeaderSize c) (s_keyLength c) key salt hmacKey (s_aes c).

Definition CloneSQLCipherCipher (cipherTo cipherFrom : SQLCipherCipher) : SQLCipherCipher * SQLCipherCipher :=
  (set_s_aes (RijndaelInvalidate (s_aes cipherTo))
     (set_s_keys (memcpy (s_key cipherTo) 0 (firstn KEYLENGTH_SQLCIPHER (s_key cipherFrom)))
        (memcpy (s_salt cipherTo) 0 (firstn SALTLENGTH_SQLCIPHER (s_salt cipherFrom)))
        (memcpy (s_hmacKey cipherTo) 0 (firstn KEYLENGTH_SQLCIPHER (s_hmacKey cipherFrom))) cipherFrom),
   set_s_aes (RijndaelInvalidate (s_aes cipherFrom)) cipherFrom).

Definition GetLegacySQLCipherCipher (c : SQLCipherCipher) : Z := s_legacy c.
Definition GetPageSizeSQLCipherCipher (c : SQLCipherCipher) : Z :=
  legacy_page_size (s_legacy c) (s_legacyPageSize c).
Definition GetReservedSQLCipherCipher (c : SQLCipherCipher) : Z :=
  let reserved := 16 in
  if negb (s_hmacUse c =? 0) then
    if (s_hmacAlgorithm c =? SQLCIPHER_ALGORITHM_SHA1) || (s_hmacAlgorithm c =? SQLCIPHER_ALGORITHM_SHA256)
    then reserved + 32 else reserved + 64
  else reserved.
Definition GetSaltSQLCipherCipher (c : SQLCipherCipher) : option (list Z) := Some (s_salt c).

(** The switch on the algorithm of a key derivation; stack contexts hold zeros. *)
Definition sqlcipher_kdf (le : bool) (algorithm : Z) (password salt : list Z) (iterations : Z) (key : list Z)
    : list Z :=
  let n := Z.to_nat iterations in
  let c1 := mk_sha1 [] 0 0 (memset 0 64) in
  let c2 bs := mk_sha2 0 0 (memset 0 bs) [] in
  if algorithm =? SQLCIPHER_ALGORITHM_SHA1 then
    fastpbkdf2_hmac_sha1 le (mk_hmac c1 c1) (memset 0 64) password salt n key
  else if algorithm =? SQLCIPHER_ALGORITHM_SHA256 then
    fastpbkdf2_hmac_sha256 (mk_hmac (c2 128%nat) (c2 128%nat)) (memset 0 64) password salt n key
  else fastpbkdf2_hmac_sha512 (mk_hmac (c2 256%nat) (c2 256%nat)) (memset 0 128) password salt n key.

Definition sqlcipher_finish_key (le : bool) (c : SQLCipherCipher) (userPassword salt : list Z) (keyOnly : bool)
    : SQLCipherCipher :=
  let '(bypass, key, salt) := sqlite3mcExtractRawKey userPassword keyOnly KEYLENGTH_SQLCIPHER
                                SALTLENGTH_SQLCIPHER (s_key c) salt in
  let key := if bypass then key
             else sqlcipher_kdf le (s_kdfAlgorithm c) userPassword (firstn SALTLENGTH_SQLCIPHER salt) (s_kdfIter c) key in
  let hmacKey :=
    if negb (s_hmacUse c =? 0) then
      let algorithm := if negb (s_hmacAlgorithmCompat c =? 0) then s_kdfAlgorithm c else s_hmacAlgorithm c in
      let hmacSalt := map (fun b => Z.lxor b (u8 (s_hmacSaltMask c))) (firstn SALTLENGTH_SQLCIPHER salt) in
      sqlcipher_kdf le algorithm (firstn KEYLENGTH_SQLCIPHER key) hmacSalt (s_fastKdfIter c) (s_hmacKey c)
    else s_hmacKey c in
  set_s_keys key salt hmacKey c.

(** Size of the digest of an algorithm. *)
Definition GetHmacSizeSQLCipherCipher (algorithm : Z) : nat :=
  if algorithm =? SQLCIPHER_ALGORITHM_SHA1 then 20%nat
  else if algorithm =? SQLCIPHER_ALGORITHM_SHA256 then 32%nat else 64%nat.

(** Plaintext header and start of encryption. *)
Definition s_layout (c : SQLCipherCipher) (page : Z) : bool * Z :=
  if page =? 1 then
    let size := s_plaintextHeaderSize c in
    let offset := if negb (s_legacy c =? 0) then 16 else 24 in
    if size >? 0 then
      (true, if (s_legacy c =? 0) || (s_legacy c >=? SQLCIPHER_VERSION_4)
             then (if size >? offset then size else offset) else offset)
    else (false, offset)
  else (false, 0).

Definition s_reserved (c : SQLCipherCipher) (reserved : Z) : Z :=
  if (reserved =? 0) && (s_legacy c =? 0) then 0 else GetReservedSQLCipherCipher c.

Definition s_mismatch (c : SQLCipherCipher) (reserved : Z) : bool :=
  let nReserved := s_reserved c reserved in
  ((s_legacy c =? 0) && (nReserved >? reserved)) || (negb (s_legacy c =? 0) && negb (nReserved =? reserved)).

Definition pgno_raw (le : bool) (c : SQLCipherCipher) (page : Z) : list Z :=
  if s_hmacPgno c =? SQLCIPHER_HMAC_PGNO_LE then STORE32_LE page
  else if s_hmacPgno c =? SQLCIPHER_HMAC_PGNO_BE then STORE32_BE page
  else if le then STORE32_LE page else STORE32_BE page.

(** The [hmac_size] bytes that are stored and compared. *)
Definition page_hmac (le : bool) (c : SQLCipherCipher) (page : Z) (data : list Z) (offset n : nat) : list Z :=
  let c1 := mk_sha1 [] 0 0 (memset 0 64) in
  let c2 := mk_sha2 0 0 (memset 0 (if s_hmacAlgorithm c =? 1 then 128 else 256)) [] in
  firstn (GetHmacSizeSQLCipherCipher (s_hmacAlgorithm c))
    (sqlcipher_hmac le (s_hmacAlgorithm c) (mk_hmac c1 c1) (mk_hmac c2 c2)
       (firstn KEYLENGTH_SQLCIPHER (s_hmacKey c))
       (slice data offset (n + PAGE_NONCE_LEN_SQLCIPHER - offset)) (Some (pgno_raw le c page))).

Section SQLCipher.
Context {E : Type} (entropy : E -> nat -> option (list Z * E)) (le : bool).

Definition GenerateKeySQLCipherCipher (c : SQLCipherCipher) (userPassword : list Z) (rekey : Z)
    (cipherSalt : option (list Z)) (g : rng_state * E) : option (SQLCipherCipher * (rng_state * E)) :=
  let rekey := if rekey =? 2 then match cipherSalt with Some _ => 0 | None => 1 end else rekey in
  let salted :=
    match cipherSalt with
    | Some s =>
        if negb (rekey =? 0) then None
        else Some (memcpy (s_salt c) 0 (firstn SALTLENGTH_SQLCIPHER s), negb (s_plaintextHeaderSize c >? 0))
    | None => None
    end in
  match salted with
  | Some (salt, keyOnly) => Some (sqlcipher_finish_key le c userPassword salt keyOnly, g)
  | None =>
      match chacha20_rng entropy SALTLENGTH_SQLCIPHER (fst g) (snd g) with
      | Some (salt, st, e) =>
          Some (sqlcipher_finish_key le c userPassword (memcpy (s_salt c) 0 salt) false, (st, e))
      | None => None
      end
  end.

Definition EncryptPageSQLCipherCipher (c : SQLCipherCipher) (page : Z) (data : list Z) (reserved : Z)
    (g : rng_state * E) : option (Z * SQLCipherCipher * list Z * (rng_state * E)) :=
  let nReserved := Z.to_nat (s_reserved c reserved) in
  let n := (length data - nReserved)%nat in
  let '(usePlaintextHeader, offset) := s_layout c page in
  let offset := Z.to_nat offset in
  if s_mismatch c reserved then Some (SQLITE_CORRUPT, c, data, g)
  else
    match (if (0 <? nReserved)%nat then chacha20_rng entropy 128 (fst g) (snd g)
           else Some (sqlite3mcGenerateInitialVector page ++ memset 0 112, fst g, snd g)) with
    | None => None
    | Some (iv, st, e) =>
        let aes := snd (RijndaelInit (s_aes c) Mode_CBC Direction_Encrypt (Some (s_key c)) Key32Bytes (Some iv)) in
        match RijndaelBlockEncrypt aes data (Some offset) (Z.of_nat (n - offset) * 8) offset with
        | None => None
        | Some (_, data) =>
            let data := if (0 <? nReserved)%nat then memcpy data n (firstn nReserved iv) else data in
            let data := if (page =? 1) && negb usePlaintextHeader
                        then memcpy data 0 (firstn SALTLENGTH_SQLCIPHER (s_salt c)) else data in
            let data := if (s_hmacUse c =? 1) && (0 <? nReserved)%nat
                        then memcpy data (n + PAGE_NONCE_LEN_SQLCIPHER) (page_hmac le c page data offset n)
                        else data in
            Some (SQLITE_OK, set_s_aes aes c, data, (st, e))
        end
    end.

Definition DecryptPageSQLCipherCipher (c : SQLCipherCipher) (page : Z) (data : list Z) (reserved hmacCheck : Z)
    : option (Z * SQLCipherCipher * list Z) :=
  let nReserved := Z.to_nat (s_reserved c reserved) in
  let n := (length data - nReserved)%nat in
  let '(usePlaintextHeader, offset) := s_layout c page in
  let offset := Z.to_nat offset in
  let bad := if page =? 1 then SQLITE_NOTADB else SQLITE_CORRUPT in
  if s_mismatch c reserved then Some (bad, c, data)
  else
    let iv := if (0 <? nReserved)%nat then slice data n nReserved
              else sqlite3mcGenerateInitialVector page in
    let hmacOk :=
      if (s_hmacUse c =? 1) && (0 <? nReserved)%nat && negb (hmacCheck =? 0)
      then list_eqb (slice data (n + PAGE_NONCE_LEN_SQLCIPHER) (GetHmacSizeSQLCipherCipher (s_hmacAlgorithm c)))
             (page_hmac le c page data offset n)
      else true in
    if hmacOk then
      let aes := snd (RijndaelInit (s_aes c) Mode_CBC Direction_Decrypt (Some (s_key c)) Key32Bytes (Some iv)) in
      match RijndaelBlockDecrypt aes data (Some offset) (Z.of_nat (n - offset) * 8) offset with
      | None => None
      | Some (_, data) =>
          let data := if (0 <? nReserved)%nat then memcpy data n (firstn nReserved iv) else data in
          let data := if (page =? 1) && negb usePlaintextHeader
                      then memcpy data 0 SQLITE_FILE_HEADER else data in
          Some (SQLITE_OK, set_s_aes aes c, data)
      end
    else Some (bad, c, data).

Definition mcSQLCipherDescriptor : CipherDescriptor SQLCipherCipher (rng_state * E) :=
  mk_descriptor SQLCipherCipher (rng_state * E) AllocateSQLCipherCipher CloneSQLCipherCipher
    GetLegacySQLCipherCipher GetPageSizeSQLCipherCipher GetReservedSQLCipherCipher GetSaltSQLCipherCipher
    GenerateKeySQLCipherCipher EncryptPageSQLCipherCipher DecryptPageSQLCipherCipher.
End SQLCipher.

(** ** Round trip of the RC4 cipher *)

Definition rc4_ready (c : RC4Cipher) : Prop := length (r_key c) = KEYLENGTH_RC4.
Definition rc4_same (a b : RC4Cipher) : Prop :=
  r_legacy a = r_legacy b /\ r_legacyPageSize a = r_legacyPageSize b /\ r_keyLength a = r_keyLength b /\
  r_key a = r_key b.

Lemma rc4_facts key keylen text :
  bytes text ->
  length (sqlite3mcRC4 key keylen text) = length text /\ bytes (sqlite3mcRC4 key keylen text) /\
  sqlite3mcRC4 key keylen (sqlite3mcRC4 key keylen text) = text.
Proof.
  intros Hb. assert (E : forall t, sqlite3mcRC4 key keylen t = xor_list t (rc4_keystream key keylen (length t)))
    by (intros; apply rc4_text_stream).
  assert (L : forall m, length (rc4_keystream key keylen m) = m) by (intros; apply length_rc4_stream).
  rewrite (E text). split; [rewrite length_xor_list, L; lia|]. split.
  - apply bytes_xor_list; [exact Hb|]. apply rc4_stream_bytes, rc4_setup_ok.
  - rewrite E, length_xor_list, L, Nat.min_id. apply xor_list_invol. rewrite L. lia.
Qed.

#[export] Instance PageCipher_RC4 (le : bool) (G : Type) : PageCipher (mcRC4Descriptor le G).
Proof.
  refine {| pc_ready := rc4_ready; pc_same := rc4_same; pc_gen := fun _ : G => True;
            pc_page := fun _ _ _ data => bytes data; pc_body := fun _ _ n => n |}.
  - unfold rc4_same. split; [|split]; intuition congruence.
  - intros to from T F. cbn [m_cloneCipher mcRC4Descriptor CloneRC4Cipher]. unfold rc4_ready in *.
    rewrite <- F, firstn_all, memcpy_all by congruence. unfold rc4_same. cbn [r_key]. auto 10.
  - intros c page data reserved g Hc _ Hp. destruct (rc4_facts (r_key c) (r_keyLength c) data Hp) as (L & B & R).
    exists c, (sqlite3mcRC4 (r_key c) (r_keyLength c) data), g. split; [reflexivity|].
    split; [exact Hc|]. split; [unfold rc4_same; auto|]. split; [exact Logic.I|]. split; [exact L|].
    split; [exact B|]. intros c2 hm R2 (S1 & S2 & S3 & S4).
    exists c2, data. cbn [m_decryptPage mcRC4Descriptor]. unfold DecryptPageRC4Cipher.
    rewrite S3, S4, R. unfold rc4_same. auto 10.
Defined.

(** ** Round trip of SQLCipher *)

Definition s_ready (c : SQLCipherCipher) : Prop :=
  length (m_expandedKey (s_aes c)) = 60%nat /\ length (s_key c) = KEYLENGTH_SQLCIPHER /\ bytes (s_key c) /\
  length (s_salt c) = SALTLENGTH_SQLCIPHER /\ bytes (s_salt c) /\
  length (s_hmacKey c) = KEYLENGTH_SQLCIPHER /\ bytes (s_hmacKey c).

Definition s_same (a b : SQLCipherCipher) : Prop :=
  s_legacy a = s_legacy b /\ s_legacyPageSize a = s_legacyPageSize b /\ s_hmacUse a = s_hmacUse b /\
  s_hmacPgno a = s_hmacPgno b /\ s_hmacAlgorithm a = s_hmacAlgorithm b /\
  s_plaintextHeaderSize a = s_plaintextHeaderSize b /\ s_key a = s_key b /\ s_salt a = s_salt b /\
  s_hmacKey a = s_hmacKey b.

Definition s_body (c : SQLCipherCipher) (reserved : Z) (len : nat) : nat :=
  (len - Z.to_nat (s_reserved c reserved))%nat.

Definition s_page (c : SQLCipherCipher) (page reserved : Z) (data : list Z) : Prop :=
  bytes data /\ Z.of_nat (length data) <= SQLITE_MAX_PAGE_SIZE /\ s_mismatch c reserved = false /\
  (Z.to_nat (s_reserved c reserved) <= length data)%nat /\
  (Z.to_nat (snd (s_layout c page)) + 16 <= s_body c reserved (length data))%nat /\
  (page = 1 -> fst (s_layout c page) = false -> firstn 16 data = SQLITE_FILE_HEADER).

(** The HMAC of the standard under the algorithm of the configuration. *)
Definition hmac_by (algorithm : Z) (key msg : list Z) : list Z :=
  if algorithm =? 0 then hmac S_sha1 64 key msg
  else if algorithm =? 1 then hmac S_sha256 64 key msg else hmac S_sha512 128 key msg.

Lemma length_hmac_by algorithm key msg :
  length (hmac_by algorithm key msg) = GetHmacSizeSQLCipherCipher algorithm /\ bytes (hmac_by algorithm key msg).
Proof.
  unfold hmac_by, GetHmacSizeSQLCipherCipher, SQLCIPHER_ALGORITHM_SHA1, SQLCIPHER_ALGORITHM_SHA256.
  destruct (algorithm =? 0); [|destruct (algorithm =? 1)].
  - split; [apply (@length_spec_hash _ _ _ (HashLaws_sha1 true))|apply (@bytes_spec_hash _ _ _ (HashLaws_sha1 true))].
  - split; [apply (@length_spec_hash _ _ _ HashLaws_sha256)|apply (@bytes_spec_hash _ _ _ HashLaws_sha256)].
  - split; [apply (@length_spec_hash _ _ _ HashLaws_sha512)|apply (@bytes_spec_hash _ _ _ HashLaws_sha512)].
Qed.

Lemma hmac_ok (le : bool) (algorithm : Z) (key inp raw : list Z) :
  let c1 := mk_sha1 [] 0 0 (memset 0 64) in
  let c2 := mk_sha2 0 0 (memset 0 (if algorithm =? 1 then 128 else 256)) [] in
  bytes key -> bytes inp -> bytes raw -> Z.of_nat (length key) < 2 ^ 29 ->
  Z.of_nat (length (inp ++ raw)) < 2 ^ 29 - 128 ->
  sqlcipher_hmac le algorithm (mk_hmac c1 c1) (mk_hmac c2 c2) key inp (Some raw) = hmac_by algorithm key (inp ++ raw).
Proof.
  intros c1 c2 Bk Bi Br Lk Li. unfold sqlcipher_hmac, hmac_by.
  assert (W1 : ctx1_ok (mk_hmac c1 c1)) by (repeat split; apply bytes_memset; unfold is_byte; lia).
  destruct (algorithm =? 0).
  - exact (@hmac_run_spec _ _ _ (HashLaws_sha1 le) _ key inp (Some raw) W1 Bk Bi Br Lk Li).
  - subst c2. destruct (algorithm =? 1).
    + exact (@hmac_run_spec _ _ _ HashLaws_sha256 (mk_hmac (mk_sha2 0 0 (memset 0 128) []) (mk_sha2 0 0 (memset 0 128) []))
        key inp (Some raw) (conj eq_refl eq_refl) Bk Bi Br Lk Li).
    + exact (@hmac_run_spec _ _ _ HashLaws_sha512 (mk_hmac (mk_sha2 0 0 (memset 0 256) []) (mk_sha2 0 0 (memset 0 256) []))
        key inp (Some raw) (conj eq_refl eq_refl) Bk Bi Br Lk Li).
Qed.

(** The page as it is stored: ciphertext, trailer, salt on page 1, and the HMAC. *)
Section Stored.
Context (ct trailer salt mac data : list Z) (off n r : nat) (salted sealed : bool).
Hypothesis (Hb : bytes data) (Hl : length data = (n + r)%nat) (Ho : (off <= n)%nat) (Hn : (16 <= n)%nat).
Hypothesis (Bc : bytes ct) (Lc : length ct = (n - off)%nat) (Bt : bytes trailer) (Lt : length trailer = r).
Hypothesis (Bs : bytes salt) (Ls : length salt = 16%nat) (Hs : salted = true -> (16 <= off)%nat).

Definition s_unsealed : list Z :=
  let d := memcpy (memcpy data off ct) n trailer in if salted then memcpy d 0 salt else d.
Definition s_stored : list Z := if sealed then memcpy s_unsealed (n + 16) mac else s_unsealed.

Lemma length_unsealed : length s_unsealed = (n + r)%nat /\ bytes s_unsealed.
Proof.
  assert (L1 : length (memcpy (memcpy data off ct) n trailer) = (n + r)%nat)
    by (rewrite !length_memcpy; rewrite ?length_memcpy; lia).
  unfold s_unsealed. destruct salted; [|auto with words].
  split; [rewrite length_memcpy; lia|auto with words].
Qed.

Lemma unsealed_slice i m :
  (i + m <= n + r)%nat -> (salted = true -> 16 <= i)%nat ->
  slice s_unsealed i m = slice (memcpy (memcpy data off ct) n trailer) i m.
Proof.
  intros Hi Hs'. unfold s_unsealed. destruct salted; [|reflexivity]. specialize (Hs' eq_refl).
  apply slice_memcpy_ne; rewrite ?length_memcpy; rewrite ?length_memcpy; lia.
Qed.

Hypothesis (Bm : bytes mac) (Hm : sealed = true -> (16 + length mac <= r)%nat).

Lemma length_stored : length s_stored = (n + r)%nat /\ bytes s_stored.
Proof.
  destruct length_unsealed as [L B]. unfold s_stored. destruct sealed; [|auto].
  specialize (Hm eq_refl). split; [rewrite length_memcpy; lia|auto with words].
Qed.

Lemma stored_unsealed i m :
  (i + m <= n + 16)%nat -> (sealed = false \/ 16 <= r)%nat -> slice s_stored i m = slice s_unsealed i m.
Proof.
  intros Hi Hr. destruct length_unsealed as [L B]. unfold s_stored. destruct sealed; [|reflexivity].
  specialize (Hm eq_refl). apply slice_memcpy_ne; lia.
Qed.

Lemma sealed_room : sealed = false \/ (16 <= r)%nat.
Proof. destruct sealed; [right; specialize (Hm eq_refl); lia|now left]. Qed.

Lemma stored_body : slice s_stored off (n - off) = ct.
Proof.
  rewrite stored_unsealed by (apply sealed_room || lia). rewrite unsealed_slice by (auto; lia).
  rewrite slice_memcpy_ne by (rewrite ?length_memcpy; lia). apply slice_memcpy_eq; lia.
Qed.

Lemma stored_trailer : (0 < r)%nat -> firstn 16 (slice s_stored n r) = firstn 16 trailer.
Proof.
  intros Hr. destruct (Nat.le_gt_cases 16 r) as [H|H].
  - rewrite firstn_slice by lia. rewrite stored_unsealed by (apply sealed_room || lia).
    rewrite unsealed_slice by lia. rewrite <- (firstn_slice _ n 16 r) by lia.
    rewrite slice_memcpy_eq by (rewrite ?length_memcpy; lia). reflexivity.
  - assert (E : sealed = false) by (destruct sealed_room; [auto|lia]). unfold s_stored. rewrite E.
    rewrite unsealed_slice by lia. now rewrite slice_memcpy_eq by (rewrite ?length_memcpy; lia).
Qed.

Lemma stored_mac : sealed = true -> slice s_stored (n + 16) (length mac) = mac.
Proof.
  intros E. destruct length_unsealed as [L _]. unfold s_stored. rewrite E. specialize (Hm E).
  apply slice_memcpy_eq; lia.
Qed.

Lemma stored_head i : (i < off)%nat -> (salted = true -> 16 <= i)%nat -> s_stored.[i] = data.[i].
Proof.
  intros Hi Hs'. pose proof (nth_slice s_stored i 1 0 ltac:(lia)) as E. rewrite Nat.add_0_r in E. rewrite <- E.
  rewrite stored_unsealed by (apply sealed_room || lia). rewrite unsealed_slice by (auto; lia).
  rewrite !slice_memcpy_ne by (rewrite ?length_memcpy; lia). rewrite nth_slice, Nat.add_0_r; [reflexivity|lia].
Qed.

(** Decryption of the body and restoring trailer and header give the page back. *)
Lemma stored_restore :
  (salted = true -> firstn 16 data = SQLITE_FILE_HEADER) ->
  let d := memcpy (memcpy s_stored off (slice data off (n - off))) n (slice s_stored n r) in
  let d := if salted then memcpy d 0 SQLITE_FILE_HEADER else d in
  length d = (n + r)%nat /\ firstn n d = firstn n data.
Proof.
  intros Hh. destruct length_stored as [L _]. cbv zeta.
  assert (L1 : length (slice data off (n - off)) = (n - off)%nat) by (apply length_slice; lia).
  assert (L2 : length (slice s_stored n r) = r) by (apply length_slice; lia).
  set (d := memcpy _ n _).
  assert (Ld : length d = (n + r)%nat) by (subst d; rewrite !length_memcpy; rewrite ?length_memcpy; lia).
  assert (Hd : forall i, (i < n)%nat -> (salted = true -> 16 <= i)%nat -> d.[i] = data.[i]).
  { intros i Hi Hs'. subst d. rewrite nth_memcpy by (rewrite ?length_memcpy; lia).
    destruct (Nat.leb_spec n i); [lia|]. cbn [andb]. rewrite nth_memcpy by lia.
    destruct (Nat.leb_spec off i); cbn [andb]; [|now apply stored_head].
    destruct (Nat.ltb_spec i (off + length (slice data off (n - off)))); [|lia].
    rewrite nth_slice by lia. f_equal. lia. }
  destruct salted.
  - split; [rewrite length_memcpy; rewrite ?length_header; lia|].
    apply firstn_ext; [rewrite length_memcpy; rewrite ?length_header; lia|lia|]. intros i Hi.
    rewrite nth_memcpy by (rewrite length_header; lia). rewrite length_header. cbn [Nat.leb andb Nat.add].
    destruct (Nat.ltb_spec i 16) as [H16|H16]; [|now apply Hd].
    rewrite Nat.sub_0_r, <- (Hh eq_refl), nth_firstn. now rewrite (proj2 (Nat.ltb_lt i 16) H16).
  - split; [exact Ld|]. apply firstn_ext; [lia|lia|]. intros i Hi. now apply Hd.
Qed.
End Stored.

(** The two AES calls on the body of a page, by objects with the same key. *)
Lemma RijndaelInit_firstn rij mode dir key keyLen iv :
  RijndaelInit rij mode dir key keyLen (Some iv) = RijndaelInit rij mode dir key keyLen (Some (firstn 16 iv)).
Proof. unfold RijndaelInit. now rewrite firstn_firstn, Nat.min_id. Qed.

Lemma s_cbc (c : SQLCipherCipher) (iv data : list Z) (off n : nat) :
  s_ready c -> bytes iv -> (16 <= length iv)%nat -> bytes data -> (off + 16 <= n)%nat -> (n <= length data)%nat ->
  exists ct k, length ct = (n - off)%nat /\ bytes ct /\
    RijndaelBlockEncrypt (snd (RijndaelInit (s_aes c) Mode_CBC Direction_Encrypt (Some (s_key c)) Key32Bytes (Some iv)))
      data (Some off) (Z.of_nat (n - off) * 8) off = Some (k, memcpy data off ct) /\
    forall c2 iv2 mem, s_ready c2 -> s_key c2 = s_key c -> firstn 16 iv2 = firstn 16 iv ->
      length mem = length data -> slice mem off (n - off) = ct ->
      exists k2, RijndaelBlockDecrypt
        (snd (RijndaelInit (s_aes c2) Mode_CBC Direction_Decrypt (Some (s_key c2)) Key32Bytes (Some iv2)))
        mem (Some off) (Z.of_nat (n - off) * 8) off = Some (k2, memcpy mem off (slice data off (n - off))).
Proof.
  intros (La & Lk & Bk & _) Bi Li Bd Ho Hn. unfold KEYLENGTH_SQLCIPHER in Lk.
  assert (Hi : state_ok (firstn 16 iv)) by (split; [rewrite length_firstn; lia|now apply bytes_firstn]).
  assert (Ls : length (slice data off (n - off)) = (n - off)%nat) by (apply length_slice; lia).
  assert (G : forall rij', length (m_expandedKey rij') = 60%nat -> _) by
    exact (fun rij' L' => cbc_calls (s_aes c) rij' Key32Bytes 32 14 (s_key c) (firstn 16 iv) La L' eq_refl Bk
             ltac:(lia) Hi).
  destruct (G (s_aes c) La) as (re & _ & Ee & _ & He & _ & Hc).
  destruct (Hc (slice data off (n - off))) as [Lc Bc]; [auto with words|lia|].
  eexists. eexists. split; [rewrite <- Ls; exact Lc|]. split; [exact Bc|]. split.
  - rewrite RijndaelInit_firstn, Ee. cbn [snd]. rewrite Z.mul_comm.
    apply He; [exact Bd|lia|]. split; [lia|split; [lia|now left]].
  - intros c2 iv2 mem (La2 & _) Ek Ei Lm Es. destruct (G (s_aes c2) La2) as (_ & rd & _ & Ed & _ & Hd & _).
    eexists. rewrite RijndaelInit_firstn, Ei, Ek, Ed. cbn [snd]. rewrite Z.mul_comm.
    apply Hd; [auto with words|lia|exact Ls| |exact Es]. split; [lia|split; [lia|now left]].
Qed.

Lemma s_reserved_cases c reserved :
  s_reserved c reserved = 0 \/
  (16 <= s_reserved c reserved <= 80 /\
   (s_hmacUse c = 1 -> 16 + Z.of_nat (GetHmacSizeSQLCipherCipher (s_hmacAlgorithm c)) <= s_reserved c reserved)).
Proof.
  unfold s_reserved, GetReservedSQLCipherCipher, GetHmacSizeSQLCipherCipher.
  destruct (_ && _); [now left|right]. destruct (Z.eqb_spec (s_hmacUse c) 0) as [E|E]; cbn [negb]; [lia|].
  destruct (_ =? SQLCIPHER_ALGORITHM_SHA1); cbn [orb]; [lia|].
  destruct (_ =? SQLCIPHER_ALGORITHM_SHA256); lia.
Qed.

Lemma s_layout_offset c page :
  0 <= snd (s_layout c page) /\
  ((page =? 1) && negb (fst (s_layout c page)) = true -> 16 <= snd (s_layout c page)).
Proof.
  unfold s_layout. destruct (page =? 1); cbn; [|split; [lia|discriminate]].
  repeat match goal with |- context [if ?b then _ else _] => destruct b eqn:?; cbn end;
    split; intros; try discriminate; lia.
Qed.

Lemma s_same_facts a b page reserved le data off n :
  s_same a b ->
  s_layout a page = s_layout b page /\ s_reserved a reserved = s_reserved b reserved /\
  s_mismatch a reserved = s_mismatch b reserved /\ page_hmac le a page data off n = page_hmac le b page data off n.
Proof.
  intros (E1 & E2 & E3 & E4 & E5 & E6 & E7 & E8 & E9).
  unfold s_mismatch, s_layout, s_reserved, GetReservedSQLCipherCipher, page_hmac, pgno_raw.
  now rewrite E1, E3, E4, E5, E6, E9.
Qed.

Lemma page_hmac_spec le c page data off n :
  s_ready c -> bytes data -> Z.of_nat (length data) <= SQLITE_MAX_PAGE_SIZE ->
  page_hmac le c page data off n =
  hmac_by (s_hmacAlgorithm c) (s_hmacKey c) (slice data off (n + 16 - off) ++ pgno_raw le c page).
Proof.
  intros (_ & _ & _ & _ & _ & Lk & Bk) Bd Ld. unfold page_hmac. unfold SQLITE_MAX_PAGE_SIZE in Ld.
  unfold PAGE_NONCE_LEN_SQLCIPHER.
  assert (Br : bytes (pgno_raw le c page) /\ length (pgno_raw le c page) = 4%nat).
  { assert (B : bytes (STORE32_LE page) /\ bytes (STORE32_BE page))
      by (split; repeat constructor; apply u8_range).
    unfold pgno_raw. repeat match goal with |- context [if ?b then _ else _] => destruct b end;
      (split; [apply B|reflexivity]). }
  assert (Ls : (length (slice data off (n + 16 - off)) <= length data)%nat)
    by (unfold slice; rewrite length_firstn, length_skipn; lia).
  destruct Br as [Br Lr]. unfold KEYLENGTH_SQLCIPHER in *. rewrite (firstn_all2 (s_hmacKey c)) by lia.
  rewrite hmac_ok; [|exact Bk|auto with words|exact Br|rewrite Lk; cbn; lia|rewrite length_app, Lr; lia].
  apply firstn_all2. pose proof (length_hmac_by (s_hmacAlgorithm c) (s_hmacKey c)
    (slice data off (n + 16 - off) ++ pgno_raw le c page)) as [L _]. lia.
Qed.

Lemma page_hmac_ok le c page data off n :
  s_ready c -> bytes data -> Z.of_nat (length data) <= SQLITE_MAX_PAGE_SIZE ->
  length (page_hmac le c page data off n) = GetHmacSizeSQLCipherCipher (s_hmacAlgorithm c) /\
  bytes (page_hmac le c page data off n).
Proof. intros Hc Bd Ld. rewrite page_hmac_spec by assumption. apply length_hmac_by. Qed.

(** The vector: 128 random bytes, or the page vector without reserved bytes. *)
Lemma s_vector {E : Type} (entropy : E -> nat -> option (list Z * E)) (page : Z) (r : nat) (g : rng_state * E) :
  (forall e k, exists l e', entropy e k = Some (l, e')) -> rng_wf (fst g) ->
  exists iv st e,
    (if (0 <? r)%nat then chacha20_rng entropy 128 (fst g) (snd g)
     else Some (sqlite3mcGenerateInitialVector page ++ memset 0 112, fst g, snd g)) = Some (iv, st, e) /\
    length iv = 128%nat /\ bytes iv /\ rng_wf st /\
    (r = 0%nat -> firstn 16 iv = sqlite3mcGenerateInitialVector page).
Proof.
  intros He Hg. destruct (Nat.ltb_spec 0 r) as [H|H].
  - destruct (rng_total entropy 128 (fst g) (snd g) He Hg) as (iv & st & e & Er & Lr & Br & Hw).
    exists iv, st, e. do 4 (split; [assumption|]). intros; lia.
  - destruct (md5_binary_ok (flat_map int_bytes (iv_words page))) as [L B].
    change (sqlite3mcGetMD5Binary _) with (sqlite3mcGenerateInitialVector page) in L, B.
    exists (sqlite3mcGenerateInitialVector page ++ memset 0 112), (fst g), (snd g).
    split; [reflexivity|]. split; [now rewrite length_app, L|].
    split; [apply bytes_app; split; [exact B|apply bytes_memset; unfold is_byte; lia]|].
    split; [exact Hg|]. intros _. now apply firstn_app_l.
Qed.

(** What encryption does to a page, and what decryption needs of it. *)
Definition s_sealed (c : SQLCipherCipher) (reserved : Z) : bool :=
  (s_hmacUse c =? 1) && (0 <? Z.to_nat (s_reserved c reserved))%nat.
Definition s_salted (c : SQLCipherCipher) (page : Z) : bool := (page =? 1) && negb (fst (s_layout c page)).

Lemma sealed_fits c reserved (m : list Z) :
  length m = GetHmacSizeSQLCipherCipher (s_hmacAlgorithm c) -> s_sealed c reserved = true ->
  (16 + length m <= Z.to_nat (s_reserved c reserved))%nat.
Proof.
  intros Lm H. apply andb_true_iff in H as [H1 H2]. apply Z.eqb_eq in H1. apply Nat.ltb_lt in H2.
  destruct (s_reserved_cases c reserved) as [E0|[_ Hh]]; [rewrite E0 in H2; cbn in H2; lia|].
  specialize (Hh H1). lia.
Qed.

Section Transport.
Context {E : Type} (entropy : E -> nat -> option (list Z * E)) (le : bool).
Hypothesis (He : forall e k, exists l e', entropy e k = Some (l, e')).
Context (c : SQLCipherCipher) (page reserved : Z) (data : list Z).
Hypothesis (Hc : s_ready c) (Hp : s_page c page reserved data).

(** Encryption yields the stored page of the section above. *)
Lemma s_encrypt_eq (g : rng_state * E) iv st e ct k :
  let r := Z.to_nat (s_reserved c reserved) in let n := (length data - r)%nat in
  let off := Z.to_nat (snd (s_layout c page)) in
  let aes := snd (RijndaelInit (s_aes c) Mode_CBC Direction_Encrypt (Some (s_key c)) Key32Bytes (Some iv)) in
  (if (0 <? r)%nat then chacha20_rng entropy 128 (fst g) (snd g)
   else Some (sqlite3mcGenerateInitialVector page ++ memset 0 112, fst g, snd g)) = Some (iv, st, e) ->
  RijndaelBlockEncrypt aes data (Some off) (Z.of_nat (n - off) * 8) off = Some (k, memcpy data off ct) ->
  let u := s_unsealed ct (firstn r iv) (s_salt c) data off n (s_salted c page) in
  EncryptPageSQLCipherCipher entropy le c page data reserved g =
  Some (SQLITE_OK, set_s_aes aes c,
        s_stored ct (firstn r iv) (s_salt c) (page_hmac le c page u off n) data off n (s_salted c page)
          (s_sealed c reserved), (st, e)).
Proof using Hc Hp.
  intros r n off aes Eiv Ect u. destruct Hp as (_ & _ & Hmis & _). pose proof Hc as (_ & _ & _ & Ls & _).
  unfold EncryptPageSQLCipherCipher. fold r n. unfold u, s_stored, s_unsealed, s_sealed, s_salted. fold r.
  subst off. destruct (s_layout c page) as [ph o]. cbn [fst snd] in *. rewrite Hmis, Eiv. fold aes. rewrite Ect.
  rewrite (firstn_all2 (s_salt c)) by lia. unfold PAGE_NONCE_LEN_SQLCIPHER.
  destruct (Nat.ltb_spec 0 r) as [H|H]; [reflexivity|].
  assert (E0 : r = 0%nat) by lia. rewrite E0. cbn [firstn]. rewrite memcpy_nil, andb_false_r. reflexivity.
Qed.

(** Decryption of a stored page whose HMAC, if any, is right. *)
Lemma s_decrypt_eq c2 hmacCheck data' k pt :
  let r := Z.to_nat (s_reserved c reserved) in let n := (length data - r)%nat in
  let off := Z.to_nat (snd (s_layout c page)) in
  let iv := if (0 <? r)%nat then slice data' n r else sqlite3mcGenerateInitialVector page in
  let aes := snd (RijndaelInit (s_aes c2) Mode_CBC Direction_Decrypt (Some (s_key c2)) Key32Bytes (Some iv)) in
  s_same c2 c -> length data' = length data ->
  (s_sealed c reserved = true ->
   slice data' (n + 16) (GetHmacSizeSQLCipherCipher (s_hmacAlgorithm c)) = page_hmac le c page data' off n) ->
  RijndaelBlockDecrypt aes data' (Some off) (Z.of_nat (n - off) * 8) off = Some (k, memcpy data' off pt) ->
  DecryptPageSQLCipherCipher le c2 page data' reserved hmacCheck =
  Some (SQLITE_OK, set_s_aes aes c2,
        let d := memcpy (memcpy data' off pt) n (slice data' n r) in
        if s_salted c page then memcpy d 0 SQLITE_FILE_HEADER else d).
Proof using Hp.
  intros r n off iv aes Hs Ld Hmac Ed. destruct Hp as (_ & _ & Hmis & _).
  destruct (s_same_facts c2 c page reserved le data' off n Hs) as (E1 & E2 & E3 & E4).
  pose proof Hs as (_ & _ & Hu & _ & Ha & _).
  unfold DecryptPageSQLCipherCipher. rewrite E1, E2, E3, Ld, Hmis, Hu, Ha. fold r n. fold iv aes.
  unfold s_sealed, s_salted in *. fold r in Hmac. subst off.
  destruct (s_layout c page) as [ph o]. cbn [fst snd] in *. rewrite E4. unfold PAGE_NONCE_LEN_SQLCIPHER.
  set (ok := if _ && _ && _ then _ else true).
  assert (Eok : ok = true).
  { subst ok. destruct (_ && (0 <? r)%nat) eqn:Hse; [|reflexivity]. cbn [andb].
    destruct (negb (hmacCheck =? 0)); [|reflexivity]. rewrite Hmac by reflexivity. apply list_eqb_refl. }
  rewrite Eok, Ed. subst iv. destruct (Nat.ltb_spec 0 r) as [H|H].
  - now rewrite (firstn_all2 (slice data' n r)) by (unfold slice; rewrite length_firstn; lia).
  - assert (E0 : r = 0%nat) by lia. rewrite E0. unfold slice. cbn [firstn]. now rewrite memcpy_nil.
Qed.

Lemma s_transport (g : rng_state * E) :
  rng_wf (fst g) ->
  exists aes data' g',
    EncryptPageSQLCipherCipher entropy le c page data reserved g = Some (SQLITE_OK, set_s_aes aes c, data', g') /\
    length (m_expandedKey aes) = 60%nat /\ rng_wf (fst g') /\ length data' = length data /\ bytes data' /\
    forall c2 hmacCheck, s_ready c2 -> s_same c2 c ->
      exists aes2 data2,
        DecryptPageSQLCipherCipher le c2 page data' reserved hmacCheck = Some (SQLITE_OK, set_s_aes aes2 c2, data2) /\
        length (m_expandedKey aes2) = 60%nat /\ length data2 = length data /\
        firstn (s_body c reserved (length data)) data2 = firstn (s_body c reserved (length data)) data.
Proof using He Hc Hp.
  intros Hg. set (r := Z.to_nat (s_reserved c reserved)). set (off := Z.to_nat (snd (s_layout c page))).
  destruct (s_vector entropy page r g He Hg) as (iv & st & e & Eiv & Liv & Biv & Hst & Hvec).
  destruct Hp as (Bd & Ld & Hmis & Hr & Ho & Hh). unfold s_body in *. fold r off in Hr, Ho |- *.
  set (n := (length data - r)%nat) in *.
  pose proof Hc as (La & Lk & Bk & Ls & Bs & _). unfold SALTLENGTH_SQLCIPHER in Ls.
  destruct (s_cbc c iv data off n Hc Biv) as (ct & k & Lct & Bct & Ect & Hdec); auto; try lia.
  assert (Hr80 : (r <= 80)%nat) by (subst r; destruct (s_reserved_cases c reserved) as [R|[R _]]; lia).
  assert (Ltr : length (firstn r iv) = r) by (rewrite length_firstn; lia).
  assert (Hs16 : s_salted c page = true -> (16 <= off)%nat)
    by (intros H; apply (proj2 (s_layout_offset c page)) in H; subst off; lia).
  set (u := s_unsealed ct (firstn r iv) (s_salt c) data off n (s_salted c page)).
  assert (Lu : length u = (n + r)%nat /\ bytes u) by (apply (length_unsealed ct (firstn r iv) (s_salt c) data off n r); auto with words; lia).
  destruct (page_hmac_ok le c page u off n Hc) as [Lm Bm]; [apply Lu|lia|].
  pose proof (s_encrypt_eq g iv st e ct k Eiv Ect) as Eenc. cbv zeta in Eenc. fold r off n u in Eenc.
  remember (page_hmac le c page u off n) as mac eqn:Emac.
  pose proof (sealed_fits c reserved mac Lm) as Hfit. fold r in Hfit.
  set (d' := s_stored ct (firstn r iv) (s_salt c) mac data off n (s_salted c page) (s_sealed c reserved)).
  exists (snd (RijndaelInit (s_aes c) Mode_CBC Direction_Encrypt (Some (s_key c)) Key32Bytes (Some iv))), d', (st, e).
  split; [|split; [rewrite RijndaelInit_length; exact La|split; [exact Hst|]]].
  { exact Eenc. }
  assert (Ld' : length data = (n + r)%nat) by lia.
  destruct (length_stored ct (firstn r iv) (s_salt c) mac data off n r (s_salted c page) (s_sealed c reserved))
    as [Lst Bst]; auto with words; try lia. fold d' in Lst, Bst.
  split; [lia|]. split; [exact Bst|]. intros c2 hm Hc2 Hs.
  set (iv2 := if (0 <? r)%nat then slice d' n r else sqlite3mcGenerateInitialVector page).
  assert (Bct2 : slice d' off (n - off) = ct) by (apply (stored_body _ _ _ _ _ off n r); auto with words; lia).
  assert (Eiv2 : firstn 16 iv2 = firstn 16 iv).
  { subst iv2. destruct (Nat.ltb_spec 0 r) as [H|H]; [|rewrite Hvec by lia; rewrite <- Hvec by lia;
      now rewrite firstn_firstn].
    unfold d'. rewrite (stored_trailer _ _ _ _ _ off n r); auto with words; try lia.
    rewrite firstn_firstn. f_equal. destruct (s_reserved_cases c reserved) as [R|[R _]]; subst r; lia. }
  destruct (Hdec c2 iv2 d') as (k2 & Ed); auto; [apply Hs|lia|].
  assert (Hmac : s_sealed c reserved = true ->
    slice d' (n + 16) (GetHmacSizeSQLCipherCipher (s_hmacAlgorithm c)) = page_hmac le c page d' off n).
  { intros H. pose proof (Hfit H) as H16.
    assert (S1 : slice d' (n + 16) (length mac) = mac) by (apply (stored_mac _ _ _ _ _ off n r); auto with words; lia).
    assert (S2 : slice d' off (n + 16 - off) = slice u off (n + 16 - off))
      by (apply (stored_unsealed _ _ _ _ _ off n r); auto with words; lia).
    rewrite <- Lm, S1, Emac. unfold page_hmac, PAGE_NONCE_LEN_SQLCIPHER. rewrite S2. reflexivity. }
  pose proof (s_decrypt_eq c2 hm d' k2 _ Hs ltac:(lia) Hmac Ed) as Edec.
  destruct (stored_restore ct (firstn r iv) (s_salt c) mac data off n r (s_salted c page) (s_sealed c reserved))
    as [L2 R2]; auto with words; try lia.
  { intros H. apply andb_true_iff in H as [H1 H2]. apply Hh; [now apply Z.eqb_eq|now apply negb_true_iff]. }
  eexists. eexists. split; [exact Edec|]. split; [rewrite RijndaelInit_length; apply Hc2|].
  split; [exact (eq_trans L2 (eq_sym Ld'))|exact R2].
Qed.
End Transport.

Section Interface.
Context {E : Type} (entropy : E -> nat -> option (list Z * E)) (le : bool).
Hypothesis (He : forall e k, exists l e', entropy e k = Some (l, e')).

#[export] Instance PageCipher_SQLCipher : PageCipher (mcSQLCipherDescriptor entropy le).
Proof using He.
  refine {| pc_ready := s_ready; pc_same := s_same; pc_gen := fun g => rng_wf (fst g);
            pc_page := s_page; pc_body := s_body |}.
  - unfold s_same. split; [|split]; intuition congruence.
  - intros to from (T0 & T1 & T2 & T3 & T4 & T5 & T6) (F0 & F1 & F2 & F3 & F4 & F5 & F6).
    cbn [m_cloneCipher mcSQLCipherDescriptor]. unfold CloneSQLCipherCipher.
    rewrite <- F1, <- F3, !firstn_all, (firstn_all2 (s_hmacKey from)), !memcpy_all by congruence || lia.
    unfold s_ready, s_same. cbn. auto 20.
  - intros c page data reserved g Hc Hg Hp.
    destruct (s_transport entropy le He c page reserved data Hc Hp g Hg)
      as (aes & data' & g' & Ee & La & Hg' & L & B & Hd).
    exists (set_s_aes aes c), data', g'. split; [exact Ee|].
    pose proof Hc as (_ & Hr). split; [split; [exact La|exact Hr]|]. split; [repeat split|].
    split; [exact Hg'|]. split; [exact L|]. split; [exact B|]. intros c2 hm R2 S2.
    destruct (Hd c2 hm R2 S2) as (aes2 & data2 & Ed & La2 & L2 & E2).
    exists (set_s_aes aes2 c2), data2. split; [exact Ed|]. destruct R2 as [_ R2].
    split; [split; [exact La2|exact R2]|]. split; [repeat split|]. auto.
Defined.
End Interface.

(** SQLCipher restores every page: for every version, HMAC algorithm or none, with or
    without plaintext header and with or without reserved bytes, every page whose
    reservation matches (on page 1 without plaintext header: one that starts with the
    database header) is encrypted with SQLITE_OK to a page of the same size, and decrypted
    by any object with the same keys, with or without checking the HMAC, to the original
    content.  The RC4 cipher does the same for whole pages.  The entropy source is a
    parameter that is assumed to deliver. *)
Theorem sqlcipher_page_restore {E : Type} (entropy : E -> nat -> option (list Z * E)) (le : bool)
    (c d : SQLCipherCipher) (rc rd : RC4Cipher) (page reserved hmacCheck : Z) (data : list Z) (g : rng_state * E) :
  (forall e k, exists l e', entropy e k = Some (l, e')) ->
  s_ready c -> s_ready d -> s_same d c -> rng_wf (fst g) -> s_page c page reserved data -> rc4_same rd rc ->
  (exists c' data' g' d' data2,
     EncryptPageSQLCipherCipher entropy le c page data reserved g = Some (SQLITE_OK, c', data', g') /\
     length data' = length data /\
     DecryptPageSQLCipherCipher le d page data' reserved hmacCheck = Some (SQLITE_OK, d', data2) /\
     firstn (s_body c reserved (length data)) data2 = firstn (s_body c reserved (length data)) data) /\
  exists data',
    EncryptPageRC4Cipher rc page data reserved g = Some (SQLITE_OK, rc, data', g) /\
    length data' = length data /\
    DecryptPageRC4Cipher rd page data' reserved hmacCheck = Some (SQLITE_OK, rd, data).
Proof.
  intros He Hc Hd Hs Hg Hp (_ & _ & S3 & S4). split.
  - destruct (s_transport entropy le He c page reserved data Hc Hp g Hg)
      as (aes & data' & g' & Ee & _ & _ & L & _ & H).
    destruct (H d hmacCheck Hd Hs) as (aes2 & data2 & Ed & _ & _ & E2).
    exists (set_s_aes aes c), data', g', (set_s_aes aes2 d), data2. auto.
  - destruct Hp as (Bd & _). destruct (rc4_facts (r_key rc) (r_keyLength rc) data Bd) as (L & _ & R).
    eexists. split; [reflexivity|]. split; [exact L|]. unfold DecryptPageRC4Cipher. now rewrite S3, S4, R.
Qed.

Definition s_sample : SQLCipherCipher :=
  mk_sqlcipher 0 4096 256000 2 1 1 0x3a 2 2 1 0 32 (map Z.of_nat (seq 1 32)) (map Z.of_nat (seq 60 16))
    (map Z.of_nat (seq 90 32)) rijndael0.
Definition s_sample_page : list Z :=
  SQLITE_FILE_HEADER ++ [2; 0; 1; 1; 80; 0x40; 0x20; 0x20] ++ map Z.of_nat (seq 0 200) ++ memset 0 288.

Lemma s_sample_ready : s_ready s_sample.
Proof.
  repeat split; try (apply bytesb_bytes; vm_compute; reflexivity).
Qed.

Lemma sqlcipher_page_restore_witness :
  let rc := mk_rc4 1 0 16 (map Z.of_nat (seq 1 16)) in
  exists c' data' g' d' data2,
    EncryptPageSQLCipherCipher (fun e k => Some (memset e k, e + 1)) true s_sample 1 s_sample_page 80 (rng_init, 3) =
      Some (SQLITE_OK, c', data', g') /\
    length data' = length s_sample_page /\
    DecryptPageSQLCipherCipher true s_sample 1 data' 80 1 = Some (SQLITE_OK, d', data2) /\
    firstn (s_body s_sample 80 (length s_sample_page)) data2 =
    firstn (s_body s_sample 80 (length s_sample_page)) s_sample_page.
Proof.
  intros rc.
  refine (proj1 (sqlcipher_page_restore (fun e k => Some (memset e k, e + 1)) true s_sample s_sample rc rc 1 80 1
    s_sample_page (rng_init, 3) _ s_sample_ready s_sample_ready _ rng_init_wf _ _)).
  - intros e k. eauto.
  - repeat split.
  - split; [apply bytesb_bytes; vm_compute; reflexivity|].
    split; [apply Z.leb_le; vm_compute; reflexivity|]. split; [reflexivity|].
    split; [apply Nat.leb_le; vm_compute; reflexivity|]. split; [apply Nat.leb_le; vm_compute; reflexivity|].
    intros _ _. vm_compute. reflexivity.
  - repeat split.
Defined.

(** Decryption of any body of at least one block succeeds. *)
Lemma s_cbc_total c iv mem off n :
  s_ready c -> (16 <= length iv)%nat -> (off + 16 <= n)%nat -> (n <= length mem)%nat ->
  exists k mem', RijndaelBlockDecrypt
    (snd (RijndaelInit (s_aes c) Mode_CBC Direction_Decrypt (Some (s_key c)) Key32Bytes (Some iv)))
    mem (Some off) (Z.of_nat (n - off) * 8) off = Some (k, mem').
Proof.
  intros (La & Lk & Bk & _) Li Ho Hn. unfold KEYLENGTH_SQLCIPHER in Lk.
  assert (Hm : mode_ok Mode_CBC) by (right; left; reflexivity).
  destruct (key_pair_init (s_aes c) (s_aes c) Mode_CBC Key32Bytes 32 14 (s_key c) (Some iv) (Some iv))
    as (re & rd & _ & Ed & _ & HD & _); auto; [lia|].
  rewrite Ed. cbn [snd]. apply (RijndaelInit_fields _ _ _ _ _ _ 32 14) in Ed as (D1 & D2 & D3 & D4); auto.
  eexists. eexists. rewrite Z.mul_comm. apply block_decrypt_cbc; auto; [rewrite D4, length_firstn; lia|lia|].
  split; [lia|split; [lia|now left]].
Qed.

(** With a reserved area and the HMAC in use, decryption that checks it accepts a page
    exactly when the bytes stored after the vector are the HMAC (RFC 2104, of the configured
    hash function and the HMAC key) of ciphertext, vector and page number; every other page,
    and every page whose reservation does not match, is reported as SQLITE_NOTADB (page 1)
    or SQLITE_CORRUPT and left as it is: nothing is decrypted before the check. *)
Theorem sqlcipher_page_authentic (le : bool) (c : SQLCipherCipher) (page reserved hmacCheck : Z) (data : list Z) :
  let n := s_body c reserved (length data) in
  let off := Z.to_nat (snd (s_layout c page)) in
  let stored := slice data (n + 16) (GetHmacSizeSQLCipherCipher (s_hmacAlgorithm c)) in
  let mac := hmac_by (s_hmacAlgorithm c) (s_hmacKey c) (slice data off (n + 16 - off) ++ pgno_raw le c page) in
  let bad := if page =? 1 then SQLITE_NOTADB else SQLITE_CORRUPT in
  s_ready c -> bytes data -> Z.of_nat (length data) <= SQLITE_MAX_PAGE_SIZE -> s_hmacUse c = 1 ->
  0 < s_reserved c reserved <= Z.of_nat (length data) -> (off + 16 <= n)%nat -> hmacCheck <> 0 ->
  exists rc c' data2, DecryptPageSQLCipherCipher le c page data reserved hmacCheck = Some (rc, c', data2) /\
    (rc = SQLITE_OK \/ (rc = bad /\ data2 = data /\ c' = c)) /\
    (rc = SQLITE_OK <-> s_mismatch c reserved = false /\ stored = mac).
Proof.
  intros n off stored mac bad Hc Bd Ld Hu Hr Ho Hh. unfold DecryptPageSQLCipherCipher.
  fold (s_body c reserved (length data)). fold n.
  assert (Hbad : bad <> SQLITE_OK) by (subst bad; destruct (page =? 1); discriminate).
  pose proof (page_hmac_spec le c page data off n Hc Bd Ld) as Em. fold mac in Em.
  assert (Hoff : Z.to_nat (snd (s_layout c page)) = off) by reflexivity.
  destruct (s_layout c page) as [ph o]. cbn [snd] in Hoff. rewrite Hoff. fold bad.
  destruct (s_mismatch c reserved).
  { exists bad, c, data. split; [reflexivity|]. split; [auto|]. split; [contradiction|intros [? _]; discriminate]. }
  rewrite Hu, (proj2 (Nat.ltb_lt 0 (Z.to_nat (s_reserved c reserved)))) by lia.
  rewrite (proj2 (Z.eqb_neq hmacCheck 0) Hh). cbn [Z.eqb Pos.eqb negb andb].
  unfold PAGE_NONCE_LEN_SQLCIPHER. fold stored. rewrite Em.
  destruct (list_eqb stored mac) eqn:Eq.
  - apply list_eqb_eq in Eq.
    destruct (s_reserved_cases c reserved) as [R|[R _]]; [lia|].
    assert (En : n = (length data - Z.to_nat (s_reserved c reserved))%nat) by reflexivity.
    destruct (s_cbc_total c (slice data n (Z.to_nat (s_reserved c reserved))) data off n Hc) as (k & mem' & Ed);
      [rewrite length_slice; lia|lia|lia|].
    rewrite Ed. eexists. eexists. eexists. split; [reflexivity|]. split; [now left|]. split; auto.
  - exists bad, c, data. split; [reflexivity|]. split; [auto|]. split; [contradiction|].
    intros [_ Es]. rewrite Es, list_eqb_refl in Eq. discriminate.
Qed.

Lemma sqlcipher_page_authentic_witness :
  exists rc c' data2,
    DecryptPageSQLCipherCipher true s_sample 2 (memset 0 512) 80 1 = Some (rc, c', data2) /\
    (rc = SQLITE_OK \/ (rc = SQLITE_CORRUPT /\ data2 = memset 0 512 /\ c' = s_sample)).
Proof.
  destruct (sqlcipher_page_authentic true s_sample 2 80 1 (memset 0 512)) as (rc & c' & data2 & E & H & _).
  - exact s_sample_ready.
  - apply bytes_memset. unfold is_byte. lia.
  - apply Z.leb_le. vm_compute. reflexivity.
  - reflexivity.
  - split; [reflexivity|apply Z.leb_le; vm_compute; reflexivity].
  - apply Nat.leb_le. vm_compute. reflexivity.
  - discriminate.
  - exists rc, c', data2. split; [exact E|exact H].
Defined.

(** ** Key derivation of SQLCipher *)

(** PBKDF2 of the standard under the algorithm of the configuration, 32 bytes. *)
Definition pbkdf2_by (algorithm : Z) (password salt : list Z) (iterations : Z) : list Z :=
  let n := Z.to_nat iterations in
  if algorithm =? 0 then rfc_pbkdf2 S_sha1 64 20 password salt n 32
  else if algorithm =? 1 then rfc_pbkdf2 S_sha256 64 32 password salt n 32
  else rfc_pbkdf2 S_sha512 128 64 password salt n 32.

Lemma pbkdf2_by_ok algorithm password salt iterations :
  length (pbkdf2_by algorithm password salt iterations) = 32%nat /\ bytes (pbkdf2_by algorithm password salt iterations).
Proof.
  unfold pbkdf2_by. destruct (algorithm =? 0); [|destruct (algorithm =? 1)].
  - apply (@rfc_pbkdf2_ok _ _ _ (HashLaws_sha1 true)).
  - apply (@rfc_pbkdf2_ok _ _ _ HashLaws_sha256).
  - apply (@rfc_pbkdf2_ok _ _ _ HashLaws_sha512).
Qed.

Lemma sqlcipher_kdf_spec le algorithm password salt iterations key :
  bytes password -> bytes salt -> Z.of_nat (length password) < 2 ^ 29 -> length salt = 16%nat ->
  length key = 32%nat ->
  sqlcipher_kdf le algorithm password salt iterations key = pbkdf2_by algorithm password salt iterations.
Proof.
  intros Bp Bs Lp Ls Lk. unfold sqlcipher_kdf, pbkdf2_by.
  unfold SQLCIPHER_ALGORITHM_SHA1, SQLCIPHER_ALGORITHM_SHA256.
  assert (W1 : ctx1_ok (mk_hmac (mk_sha1 [] 0 0 (memset 0 64)) (mk_sha1 [] 0 0 (memset 0 64))))
    by (repeat split; apply bytes_memset; unfold is_byte; lia).
  assert (Lo : Z.of_nat (length key) < 2 ^ 31) by lia.
  assert (Lsz : Z.of_nat (length salt) < 2 ^ 29 - 132) by lia.
  destruct (algorithm =? 0); [|destruct (algorithm =? 1)].
  - pose proof (@PBKDF2_spec _ _ _ (HashLaws_sha1 le) _ (memset 0 64) password salt (Z.to_nat iterations) key
      W1 eq_refl Bp Bs Lp Lsz Lo) as P. rewrite Lk in P. exact P.
  - pose proof (@PBKDF2_spec _ _ _ HashLaws_sha256 (mk_hmac (mk_sha2 0 0 (memset 0 128) []) (mk_sha2 0 0 (memset 0 128) []))
      (memset 0 64) password salt (Z.to_nat iterations) key (conj eq_refl eq_refl) eq_refl Bp Bs Lp Lsz Lo) as P.
    rewrite Lk in P. exact P.
  - pose proof (@PBKDF2_spec _ _ _ HashLaws_sha512 (mk_hmac (mk_sha2 0 0 (memset 0 256) []) (mk_sha2 0 0 (memset 0 256) []))
      (memset 0 128) password salt (Z.to_nat iterations) key (conj eq_refl eq_refl) eq_refl Bp Bs Lp Lsz Lo) as P.
    rewrite Lk in P. exact P.
Qed.

(** The keys of a password and a salt. *)
Definition s_derived (c : SQLCipherCipher) (password salt : list Z) (c' : SQLCipherCipher) : Prop :=
  let key := pbkdf2_by (s_kdfAlgorithm c) password salt (s_kdfIter c) in
  let algorithm := if s_hmacAlgorithmCompat c =? 0 then s_hmacAlgorithm c else s_kdfAlgorithm c in
  let hmacSalt := map (fun b => Z.lxor b (u8 (s_hmacSaltMask c))) salt in
  s_ready c' /\ s_salt c' = salt /\ s_key c' = key /\
  s_hmacKey c' = if s_hmacUse c =? 0 then s_hmacKey c else pbkdf2_by algorithm key hmacSalt (s_fastKdfIter c).

Lemma s_finish_spec le c password keyOnly salt :
  s_ready c -> bytes password -> Z.of_nat (length password) < 2 ^ 29 ->
  (forall key salt, fst (fst (sqlite3mcExtractRawKey password keyOnly 32 16 key salt)) = false) ->
  length salt = 16%nat -> bytes salt -> s_derived c password salt (sqlcipher_finish_key le c password salt keyOnly).
Proof.
  intros (La & Lk & Bk & _ & _ & Lh & Bh) Bp Lp Hraw Ls Bs. unfold KEYLENGTH_SQLCIPHER in *.
  unfold sqlcipher_finish_key, KEYLENGTH_SQLCIPHER, SALTLENGTH_SQLCIPHER. rewrite extract_none by apply Hraw.
  rewrite (firstn_all2 salt), sqlcipher_kdf_spec by (auto; lia).
  destruct (pbkdf2_by_ok (s_kdfAlgorithm c) password salt (s_kdfIter c)) as [L1 B1].
  unfold s_derived. remember (pbkdf2_by (s_kdfAlgorithm c) password salt (s_kdfIter c)) as key eqn:Ek. clear Ek.
  rewrite (firstn_all2 key) by lia. set (hs := map _ salt).
  assert (Bhs : bytes hs)
    by (apply Forall_map; eapply Forall_impl; [|exact Bs]; intros; apply lxor_byte; [assumption|apply u8_range]).
  assert (Lhs : length hs = 16%nat) by (unfold hs; now rewrite length_map).
  destruct (s_hmacUse c =? 0); cbn [negb].
  - unfold s_ready, set_s_keys. cbn [s_aes s_key s_salt s_hmacKey]. auto 20.
  - replace (if negb (s_hmacAlgorithmCompat c =? 0) then s_kdfAlgorithm c else s_hmacAlgorithm c)
      with (if s_hmacAlgorithmCompat c =? 0 then s_hmacAlgorithm c else s_kdfAlgorithm c)
      by (destruct (s_hmacAlgorithmCompat c =? 0); reflexivity).
    rewrite sqlcipher_kdf_spec by (auto; lia). set (al := if _ =? 0 then _ else _).
    destruct (pbkdf2_by_ok al key hs (s_fastKdfIter c)) as [L2 B2].
    remember (pbkdf2_by al key hs (s_fastKdfIter c)) as hk eqn:Ek. clear Ek.
    unfold s_ready, set_s_keys. cbn [s_aes s_key s_salt s_hmacKey]. auto 20.
Qed.

(** Keys of SQLCipher: for a password that is not a raw key, the page key is PBKDF2 of
    the password and the salt under the configured algorithm and [kdf_iter]; with the HMAC
    in use the HMAC key is PBKDF2 of the page key and the masked salt with [fast_kdf_iter],
    under the algorithm that the compatibility flag selects.  A given salt is kept when the
    key is not being changed (or is changed in WAL mode, [rekey] 2) and the generator is not
    used; otherwise the salt is the next sixteen bytes of the generator. *)
Theorem sqlcipher_key_derivation {E : Type} (entropy : E -> nat -> option (list Z * E)) (le : bool)
    (c : SQLCipherCipher) (password : list Z) (rekey : Z) (cipherSalt : option (list Z)) (g : rng_state * E) :
  (forall e k, exists l e', entropy e k = Some (l, e')) ->
  s_ready c -> rng_wf (fst g) -> bytes password -> Z.of_nat (length password) < 2 ^ 29 ->
  (forall keyOnly key salt, fst (fst (sqlite3mcExtractRawKey password keyOnly 32 16 key salt)) = false) ->
  (forall s, cipherSalt = Some s -> bytes s /\ (16 <= length s)%nat) ->
  exists c' g', GenerateKeySQLCipherCipher entropy le c password rekey cipherSalt g = Some (c', g') /\
    match cipherSalt with
    | Some s =>
        if (rekey =? 0) || (rekey =? 2) then s_derived c password (firstn 16 s) c' /\ g' = g
        else exists salt, chacha20_rng entropy 16 (fst g) (snd g) = Some (salt, fst g', snd g') /\
                          s_derived c password salt c'
    | None => exists salt, chacha20_rng entropy 16 (fst g) (snd g) = Some (salt, fst g', snd g') /\
                           s_derived c password salt c'
    end.
Proof.
  intros He Hc Hg Bp Lp Hraw Hsalt. pose proof Hc as (_ & _ & _ & Ls & _).
  assert (F := fun ko salt => s_finish_spec le c password ko salt Hc Bp Lp (fun key salt => Hraw ko key salt)).
  destruct (rng_total entropy 16 (fst g) (snd g) He Hg) as (rs & st & e & Er & Lr & Br & Hw).
  change SALTLENGTH_SQLCIPHER with 16%nat in *.
  assert (Mr : memcpy (s_salt c) 0 rs = rs) by (apply memcpy_all; lia).
  unfold GenerateKeySQLCipherCipher. change SALTLENGTH_SQLCIPHER with 16%nat. rewrite Er, Mr.
  assert (Fr : exists salt, Some (rs, st, e) = Some (salt, st, e) /\
                            s_derived c password salt (sqlcipher_finish_key le c password rs false))
    by (exists rs; split; [reflexivity|now apply F]).
  destruct cipherSalt as [s|].
  - destruct (Hsalt s eq_refl) as [Bsa Lsa].
    assert (Lf : length (firstn 16 s) = 16%nat) by (rewrite length_firstn; lia).
    rewrite (memcpy_all (s_salt c) (firstn 16 s)) by lia.
    pose proof (F (negb (s_plaintextHeaderSize c >? 0)) (firstn 16 s) Lf (bytes_firstn _ _ Bsa)) as D.
    destruct (Z.eqb_spec rekey 2) as [->|H2]; [|destruct (Z.eqb_spec rekey 0) as [->|H0]]; cbn [Z.eqb negb orb].
    + eexists. exists g. split; [reflexivity|]. split; [exact D|reflexivity].
    + eexists. exists g. split; [reflexivity|]. split; [exact D|reflexivity].
    + eexists. exists (st, e). split; [reflexivity|]. exact Fr.
  - destruct (Z.eqb_spec rekey 2) as [->|H2]; eexists; exists (st, e); (split; [reflexivity|exact Fr]).
Qed.

Lemma sqlcipher_key_derivation_witness :
  exists c' g', GenerateKeySQLCipherCipher (fun e k => Some (memset e k, e + 1)) true s_sample [112; 119] 0
                  (Some (memset 9 16)) (rng_init, 3) = Some (c', g') /\
    s_derived s_sample [112; 119] (firstn 16 (memset 9 16)) c' /\ g' = (rng_init, 3).
Proof.
  apply (sqlcipher_key_derivation (fun e k => Some (memset e k, e + 1)) true s_sample [112; 119] 0
           (Some (memset 9 16)) (rng_init, 3)).
  - intros e k. eauto.
  - exact s_sample_ready.
  - apply rng_init_wf.
  - apply bytesb_bytes. reflexivity.
  - cbn. lia.
  - reflexivity.
  - intros s [= <-]. split; [apply bytesb_bytes; reflexivity|cbn; lia].
Defined.

(** ** Keys, raw or derived *)

Definition s_config (a b : SQLCipherCipher) : Prop :=
  s_legacy a = s_legacy b /\ s_legacyPageSize a = s_legacyPageSize b /\ s_kdfIter a = s_kdfIter b /\
  s_fastKdfIter a = s_fastKdfIter b /\ s_hmacUse a = s_hmacUse b /\ s_hmacPgno a = s_hmacPgno b /\
  s_hmacSaltMask a = s_hmacSaltMask b /\ s_kdfAlgorithm a = s_kdfAlgorithm b /\
  s_hmacAlgorithm a = s_hmacAlgorithm b /\ s_hmacAlgorithmCompat a = s_hmacAlgorithmCompat b /\
  s_plaintextHeaderSize a = s_plaintextHeaderSize b /\ (s_hmacUse a = 0 -> s_hmacKey a = s_hmacKey b).

(** The keys that follow from extracted key and salt. *)
Lemma s_keys_agree le a b password salt key kb (by_ : bool) :
  s_ready a -> s_ready b -> s_config a b -> password_ok password -> length salt = 16%nat -> bytes salt ->
  length key = 32%nat -> bytes key -> length kb = 32%nat -> (by_ = true -> kb = key) ->
  let ka := if by_ then key else sqlcipher_kdf le (s_kdfAlgorithm a) password salt (s_kdfIter a) key in
  (if by_ then kb else sqlcipher_kdf le (s_kdfAlgorithm b) password salt (s_kdfIter b) kb) = ka /\
  length ka = 32%nat /\ bytes ka /\
  let hs m := map (fun x => Z.lxor x (u8 m)) salt in
  let alg c := if negb (s_hmacAlgorithmCompat c =? 0) then s_kdfAlgorithm c else s_hmacAlgorithm c in
  let hm c := if negb (s_hmacUse c =? 0)
              then sqlcipher_kdf le (alg c) ka (hs (s_hmacSaltMask c)) (s_fastKdfIter c) (s_hmacKey c)
              else s_hmacKey c in
  hm b = hm a /\ length (hm a) = 32%nat /\ bytes (hm a).
Proof.
  intros (_ & _ & _ & _ & _ & Lha & Bha) (_ & _ & _ & _ & _ & Lhb & _)
    (C1 & C2 & C3 & C4 & C5 & C6 & C7 & C8 & C9 & C10 & C11 & C12) (Bp & Lp) Ls Bs Lk Bk Lkb Hkb ka.
  unfold KEYLENGTH_SQLCIPHER in *.
  assert (Ka : (if by_ then kb else sqlcipher_kdf le (s_kdfAlgorithm b) password salt (s_kdfIter b) kb) = ka /\
               length ka = 32%nat /\ bytes ka).
  { subst ka. destruct by_; [rewrite (Hkb eq_refl); auto|].
    rewrite !sqlcipher_kdf_spec, C3, C8 by auto. split; [reflexivity|apply pbkdf2_by_ok]. }
  destruct Ka as (Ek & Lka & Bka). clearbody ka. split; [exact Ek|]. split; [exact Lka|]. split; [exact Bka|].
  rewrite C4, C5, C7, C8, C9, C10 in *. destruct (Z.eqb_spec (s_hmacUse b) 0) as [Hu|Hu]; cbn [negb].
  { rewrite (C12 Hu) in *. auto. }
  set (hs := map _ salt).
  assert (Bhs : bytes hs)
    by (apply Forall_map; eapply Forall_impl; [|exact Bs]; intros; apply lxor_byte; [assumption|apply u8_range]).
  assert (Lhs : length hs = 16%nat) by (unfold hs; now rewrite length_map).
  rewrite !sqlcipher_kdf_spec by (auto; lia). split; [reflexivity|apply pbkdf2_by_ok].
Qed.

Lemma s_finish_reopen le a b password ko ko' salt :
  s_ready a -> s_ready b -> s_config a b -> password_ok password -> length salt = 16%nat -> bytes salt ->
  (ko = true -> ko' = true) ->
  let a' := sqlcipher_finish_key le a password salt ko in
  s_ready a' /\ s_same (sqlcipher_finish_key le b password (s_salt a') ko') a' /\
  s_ready (sqlcipher_finish_key le b password (s_salt a') ko').
Proof.
  intros Ha Hb Hcfg Hp Ls Bs Hko. pose proof Ha as (La & Ak & Bka & _). pose proof Hb as (Lb & Bk & Bkb & _).
  unfold KEYLENGTH_SQLCIPHER in *.
  pose proof (extract_ok password ko ko' 32 16 (s_key a) (s_key b) salt (proj1 Hp) Ak Bk Ls Bs Hko) as X.
  unfold sqlcipher_finish_key, KEYLENGTH_SQLCIPHER, SALTLENGTH_SQLCIPHER.
  destruct (sqlite3mcExtractRawKey password ko 32 16 (s_key a) salt) as [[by_ key] salt'].
  destruct X as (Lk & Bkey & Ls' & Bs' & E). cbv zeta. cbn [s_salt set_s_keys]. rewrite E, (firstn_all2 salt') by lia.
  destruct (s_keys_agree le a b password salt' key (if by_ then key else s_key b) by_) as (E1 & L1 & B1 & E2 & L2 & B2);
    auto; [destruct by_; lia|now intros ->|].
  rewrite E1. set (ka := if by_ then key else sqlcipher_kdf le _ _ _ _ _) in *. clearbody ka. rewrite (firstn_all2 ka) by lia.
  rewrite E2. set (ha := if negb (s_hmacUse a =? 0) then sqlcipher_kdf _ _ _ _ _ _ else _) in *. clearbody ha.
  destruct Hcfg as (C1 & C2 & C3 & C4 & C5 & C6 & C7 & C8 & C9 & C10 & C11 & C12).
  unfold s_ready, s_same, set_s_keys.
  cbn [s_aes s_key s_salt s_hmacKey s_legacy s_legacyPageSize s_hmacUse s_hmacPgno s_hmacAlgorithm s_plaintextHeaderSize].
  unfold KEYLENGTH_SQLCIPHER, SALTLENGTH_SQLCIPHER. auto 30.
Qed.

Section Keys.
Context {E : Type} (entropy : E -> nat -> option (list Z * E)) (le : bool).
Hypothesis (He : forall e k, exists l e', entropy e k = Some (l, e')).

(** Key generation ends in [sqlcipher_finish_key], with a salt of sixteen bytes. *)
Lemma s_generate_finish c password rekey salt g :
  s_ready c -> rng_wf (fst g) -> salt_ok salt ->
  exists s ko g', GenerateKeySQLCipherCipher entropy le c password rekey salt g =
                    Some (sqlcipher_finish_key le c password s ko, g') /\
    length s = 16%nat /\ bytes s /\ rng_wf (fst g') /\ (ko = true -> (s_plaintextHeaderSize c >? 0) = false).
Proof using He.
  intros (_ & _ & _ & Ls & _) Hg Hsalt. unfold SALTLENGTH_SQLCIPHER in Ls.
  destruct (rng_total entropy 16 (fst g) (snd g) He Hg) as (rs & st & e & Er & Lr & Br & Hw).
  unfold GenerateKeySQLCipherCipher, SALTLENGTH_SQLCIPHER. rewrite Er, (memcpy_all _ rs) by lia.
  destruct salt as [h|].
  - destruct Hsalt as [Bh Lh]. assert (Lf : length (firstn 16 h) = 16%nat) by (rewrite length_firstn; lia).
    rewrite (memcpy_all _ (firstn 16 h)) by lia. destruct (_ =? 0); cbn [negb].
    + eexists. eexists. exists g. split; [reflexivity|]. split; [exact Lf|]. split; [auto with words|].
      split; [exact Hg|apply negb_true_iff].
    + eexists. eexists. exists (st, e). split; [reflexivity|]. do 3 (split; [assumption|]). discriminate.
  - exists rs, false, (st, e). destruct (rekey =? 2); (split; [reflexivity|]); do 3 (split; [assumption|]); discriminate.
Qed.

(** Page 1 without plaintext header starts with the salt. *)
Lemma s_page1_salt c data reserved g c' data' g' :
  s_ready c -> rng_wf (fst g) -> s_page c 1 reserved data -> fst (s_layout c 1) = false ->
  EncryptPageSQLCipherCipher entropy le c 1 data reserved g = Some (SQLITE_OK, c', data', g') ->
  firstn 16 data' = s_salt c.
Proof using He.
  intros Hc Hg Hp Hl Ee. set (r := Z.to_nat (s_reserved c reserved)). set (off := Z.to_nat (snd (s_layout c 1))).
  destruct (s_vector entropy 1 r g He Hg) as (iv & st & e & Eiv & Liv & Biv & _).
  pose proof Hp as (Bd & Ld & Hmis & Hr & Ho & _). unfold s_body in Ho. fold r off in Hr, Ho.
  set (n := (length data - r)%nat) in *. pose proof Hc as (_ & _ & _ & Ls & _). unfold SALTLENGTH_SQLCIPHER in Ls.
  destruct (s_cbc c iv data off n Hc Biv) as (ct & k & Lct & Bct & Ect & _); auto; try lia.
  pose proof (s_encrypt_eq entropy le c 1 reserved data Hc Hp g iv st e ct k Eiv Ect) as Eenc.
  cbv zeta in Eenc. fold r off n in Eenc. rewrite Ee in Eenc. injection Eenc as _ -> _.
  assert (Hr80 : (r <= 80)%nat) by (subst r; destruct (s_reserved_cases c reserved) as [R|[R _]]; lia).
  assert (Hs : s_salted c 1 = true) by (unfold s_salted; rewrite Hl; reflexivity).
  assert (Hoff : (16 <= off)%nat).
  { subst off. destruct (s_layout_offset c 1) as [_ H]. specialize (H Hs). lia. }
  assert (Ltr : length (firstn r iv) = r) by (rewrite length_firstn; lia).
  assert (Hu : forall ct' tr, length ct' = (n - off)%nat -> length tr = r ->
    firstn 16 (s_unsealed ct' tr (s_salt c) data off n true) = s_salt c /\
    length (s_unsealed ct' tr (s_salt c) data off n true) = length data).
  { intros ct' tr H1 H2. unfold s_unsealed.
    assert (L : length (memcpy (memcpy data off ct') n tr) = length data)
      by (rewrite !length_memcpy; rewrite ?length_memcpy; lia).
    split; [apply firstn_memcpy_0; exact Ls|rewrite length_memcpy; lia]. }
  rewrite Hs. destruct (Hu ct (firstn r iv) Lct Ltr) as [F L]. unfold s_stored.
  destruct (s_sealed c reserved) eqn:Hse; [|exact F].
  apply andb_true_iff in Hse as [_ Hse]. apply Nat.ltb_lt in Hse.
  rewrite firstn_memcpy_before; [exact F|lia|].
  destruct (s_reserved_cases c reserved) as [R|[R _]]; subst n r; lia.
Qed.

#[export] Instance CipherKeys_SQLCipher :
  @CipherKeys _ _ (mcSQLCipherDescriptor entropy le) (PageCipher_SQLCipher entropy le He).
Proof using He.
  unshelve refine {| ck_config := s_config; ck_hidden := fun c => negb (fst (s_layout c 1)) |}.
  - intros ps. cbn [m_allocateCipher mcSQLCipherDescriptor]. unfold AllocateSQLCipherCipher.
    repeat match goal with |- context [let '(_, _) := ?p in _] => destruct p end.
    cbn [fst]. repeat split; apply bytes_memset; unfold is_byte; lia.
  - intros c pw rekey salt g Hc Hg Hp Hs.
    destruct (s_generate_finish c pw rekey salt g Hc Hg Hs) as (s & ko & g' & Eg & Ls & Bs & Hg' & _).
    exists (sqlcipher_finish_key le c pw s ko), g'. split; [exact Eg|]. split; [|exact Hg'].
    apply (s_finish_reopen le c c pw ko ko s); auto. repeat split.
  - intros a b pw rekey salt header g g2 a' g' Ha Hb Hg Hcfg Hp Hs Hh Eg Hhead.
    destruct (s_generate_finish a pw rekey salt g Ha Hg Hs) as (s & ko & g0 & Eg0 & Ls & Bs & _ & Hko).
    cbn [m_generateKey mcSQLCipherDescriptor] in Eg. rewrite Eg0 in Eg. injection Eg as <- <-.
    specialize (Hhead _ eq_refl). destruct header as [h|]; [|discriminate]. apply some_inj in Hhead as Eh.
    pose proof Hcfg as (_ & _ & _ & _ & _ & _ & _ & _ & _ & _ & C11 & _).
    destruct (s_finish_reopen le a b pw ko (negb (s_plaintextHeaderSize b >? 0)) s Ha Hb Hcfg Hp Ls Bs) as (Ra & Sm & Rb).
    { intros K. rewrite <- C11, (Hko K). reflexivity. }
    exists (sqlcipher_finish_key le b pw (s_salt (sqlcipher_finish_key le a pw s ko)) (negb (s_plaintextHeaderSize b >? 0))).
    split; [|split; [exact Rb|exact Sm]]. cbn [m_generateKey mcSQLCipherDescriptor].
    unfold GenerateKeySQLCipherCipher. cbn [Z.eqb negb]. pose proof Hb as (_ & _ & _ & Lb & _).
    pose proof Ra as (_ & _ & _ & Las & _).
    unfold SALTLENGTH_SQLCIPHER in *. rewrite Eh, memcpy_all; [reflexivity|congruence].
  - intros c data reserved g c' data' g' s Hc Hg Hp Ee [= <-] Hh. apply negb_true_iff in Hh.
    now apply (s_page1_salt c data reserved g c' data' g').
  - intros a b (S1 & S2 & S3 & S4 & S5 & S6 & S7 & S8 & S9). cbn.
    unfold GetSaltSQLCipherCipher, GetReservedSQLCipherCipher, GetPageSizeSQLCipherCipher, GetLegacySQLCipherCipher,
      s_page, s_body, s_layout, s_mismatch, s_reserved, GetReservedSQLCipherCipher.
    rewrite S1, S2, S3, S5, S6, S8. auto 10.
Defined.
End Keys.

Lemma length_sha1_digest le c : length (snd (sha1_final le c)) = 20%nat.
Proof. unfold sha1_final. cbn [snd]. now rewrite length_map, length_seq. Qed.

#[export] Instance CipherKeys_RC4 (le : bool) (G : Type) : CipherKeys (mcRC4Descriptor le G).
Proof.
  refine {| ck_config := fun a b => r_legacy a = r_legacy b /\ r_legacyPageSize a = r_legacyPageSize b /\
                                    r_keyLength a = r_keyLength b;
            ck_hidden := fun _ => false |}.
  - intros ps. cbn [m_allocateCipher mcRC4Descriptor]. unfold AllocateRC4Cipher.
    repeat match goal with |- context [let '(_, _) := ?p in _] => destruct p end. cbn [fst]. repeat split.
  - intros c pw rekey salt g H _ _ _. eexists. eexists. split; [reflexivity|]. split; [|exact Logic.I].
    change (length (memcpy (r_key c) 0 (firstn 16 (snd (sha1_final le (sha1_update le
      (sha1_init (mk_sha1 [] 0 0 (memset 0 64))) pw))))) = 16%nat).
    change (length (r_key c) = 16%nat) in H.
    rewrite length_memcpy; [exact H|]. rewrite length_firstn, length_sha1_digest, H. lia.
  - intros a b pw rekey salt header g g2 a' g' HA HB _ (C1 & C2 & C3) _ _ _ Eg _.
    cbn [m_generateKey mcRC4Descriptor] in Eg. unfold GenerateKeyRC4Cipher in Eg. cbv zeta in Eg.
    apply some_inj, pair_inj in Eg as [<- <-]. eexists. split; [reflexivity|].
    set (d := firstn 16 _). assert (Ld : length d = 16%nat) by (unfold d; now rewrite length_firstn, length_sha1_digest).
    clearbody d. change (length (r_key a) = 16%nat) in HA. change (length (r_key b) = 16%nat) in HB.
    change (@pc_ready _ _ _ (PageCipher_RC4 le G)) with rc4_ready.
    change (@pc_same _ _ _ (PageCipher_RC4 le G)) with rc4_same. unfold rc4_ready, rc4_same.
    cbn [r_key r_legacy r_legacyPageSize r_keyLength]. rewrite !memcpy_all by congruence. auto.
  - discriminate.
  - intros a b (S1 & S2 & S3 & S4). cbn. unfold GetPageSizeRC4Cipher, GetLegacyRC4Cipher. rewrite S1, S2. auto 10.
Defined.
