(* ===== verification/CipherConfig.v ===== *)
(** * Cipher tables and their configuration (cipher_common.c, cipher_config.c)

    The tables of registered ciphers and of their parameters, their initialisation,
    registration, per-connection copies, and the two configuration functions.  A table
    whose end the code marks with a sentinel entry is a list.  The result [None] stands
    for a write through a null pointer. *)

From Stdlib Require Import ZArith Lia List Bool.
From Stdlib Require Strings.String Strings.Ascii.
From S2P Require Import Prelude CodecAlgos CipherCommon CipherAES CipherChaCha20 CipherSqlCipher.
Import ListNotations.
Import Strings.String.StringSyntax.
Local Open Scope Z_scope.

Definition CODEC_COUNT_MAX : Z := 16.
Definition CIPHER_NAME_MAXLEN : nat := 32.
Definition CIPHER_PARAMS_COUNT_MAX : nat := 64.
Definition CODEC_TYPE_UNKNOWN : Z := 0.
Definition SQLCIPHER_VERSION_MAX : Z := 4.

Definition stricmp (a b : list Z) : bool := sqlite3StrICmp a b =? 0.

(** [zRight] is never shorter than [N] in the calls of the code. *)
Fixpoint sqlite3_strnicmp (zLeft zRight : list Z) (N : nat) : Z :=
  match N with
  | O => 0
  | S N =>
      match zLeft with
      | [] => to_lower 0 - to_lower (hd 0 zRight)
      | a :: zLeft =>
          if to_lower a =? to_lower (hd 0 zRight) then sqlite3_strnicmp zLeft (tl zRight) N
          else to_lower a - to_lower (hd 0 zRight)
      end
  end.

Record CodecParameter := mk_codec_param { cp_name : list Z; cp_id : Z; cp_params : list CipherParams }.

Definition commonParams : list CipherParams :=
  [mk_param (str "cipher") CODEC_TYPE_UNKNOWN CODEC_TYPE_UNKNOWN 1 CODEC_COUNT_MAX;
   mk_param (str "hmac_check") 1 1 0 1; mk_param (str "mc_legacy_wal") 0 0 0 1].

(** The memory of the component.  [commonParams_mem] is the static array [commonParams],
    which entry 0 of the parameter table points to.  [cipherTable] is the rest of the
    table, entries 1 to [CODEC_COUNT_MAX + 1]; the name and the descriptor tables hold the
    same names at the same places, so it stands for the three.  An entry with an empty
    name is a sentinel.  [connectionTable] is the table a connection owns, if any. *)
Record Tables := mk_tables {
  commonParams_mem : list CipherParams;
  cipherTable : list CodecParameter;
  globalCipherCount : Z;
  connectionTable : option (list CodecParameter) }.

Definition globalSentinelParams : CodecParameter := mk_codec_param [] CODEC_TYPE_UNKNOWN [].

(** The entries before the first sentinel. *)
Fixpoint live (t : list CodecParameter) : list CodecParameter :=
  match t with
  | [] => []
  | c :: t => match cp_name c with [] => [] | _ => c :: live t end
  end.

Definition globalCodecParameterTable (t : Tables) : list CodecParameter :=
  mk_codec_param (str "global") CODEC_TYPE_UNKNOWN (commonParams_mem t) :: live (cipherTable t).

(** The state when the program starts. *)
Definition loaded : Tables :=
  mk_tables commonParams (repeat globalSentinelParams (Z.to_nat CODEC_COUNT_MAX + 1)) 0 None.

(** Neither [globalCipherCount] nor the array [commonParams] is reset. *)
Definition sqlite3mcInitCipherTables (t : Tables) : Tables :=
  mk_tables (commonParams_mem t) (repeat globalSentinelParams (Z.to_nat CODEC_COUNT_MAX + 1))
            (globalCipherCount t) (connectionTable t).

(** The freed entries keep their names until the next initialisation. *)
Definition sqlite3mcTermCipherTables (t : Tables) : Tables :=
  mk_tables (commonParams_mem t) (cipherTable t) 0 (connectionTable t).

(** ** Lookup and update *)

(** The index of the first entry that satisfies [f]. *)
Fixpoint find_index {A} (f : A -> bool) (l : list A) : option nat :=
  match l with
  | [] => None
  | x :: l => if f x then Some O else option_map S (find_index f l)
  end.

Definition param_index (ps : list CipherParams) (name : list Z) : option nat :=
  find_index (fun p => stricmp name (m_name p)) ps.
Definition codec_index (t : list CodecParameter) (name : list Z) : option nat :=
  find_index (fun c => stricmp name (cp_name c)) t.

Definition set_value (v : Z) (p : CipherParams) : CipherParams :=
  mk_param (m_name p) v (m_default p) (m_minValue p) (m_maxValue p).
Definition set_default (v : Z) (p : CipherParams) : CipherParams :=
  mk_param (m_name p) (m_value p) v (m_minValue p) (m_maxValue p).

Definition upd_params (t : list CodecParameter) (j : nat) (ps : list CipherParams) : list CodecParameter :=
  match nth_error t j with
  | Some c => upd t j (mk_codec_param (cp_name c) (cp_id c) ps)
  | None => t
  end.

Definition no_param : CipherParams := mk_param [] 0 0 0 0.

(** The prefixes [default:], [min:] and [max:], each tested in this order. *)
Definition strip (prefix name : list Z) : bool * list Z :=
  if sqlite3_strnicmp name prefix (length prefix) =? 0 then (true, skipn (length prefix) name) else (false, name).

Definition prefixes (paramName : list Z) : bool * bool * bool * list Z :=
  let '(hasDefaultPrefix, paramName) := strip (str "default:") paramName in
  let '(hasMinPrefix, paramName) := strip (str "min:") paramName in
  let '(hasMaxPrefix, paramName) := strip (str "max:") paramName in
  (hasDefaultPrefix, hasMinPrefix, hasMaxPrefix, paramName).

Definition shown (hasDefaultPrefix hasMinPrefix hasMaxPrefix : bool) (p : CipherParams) : Z :=
  if hasDefaultPrefix then m_default p else if hasMinPrefix then m_minValue p
  else if hasMaxPrefix then m_maxValue p else m_value p.

(** [db] tells whether a connection is given. *)
Definition target (db : bool) (t : Tables) : option (list CodecParameter) :=
  if db then connectionTable t else Some (globalCodecParameterTable t).

(** The global table is never written: a new value needs a connection. *)
Definition set_target (codecParams : list CodecParameter) (t : Tables) : Tables :=
  mk_tables (commonParams_mem t) (cipherTable t) (globalCipherCount t) (Some codecParams).

(** ** Configuration of the common parameters *)

Definition sqlite3mc_config (db : bool) (t : Tables) (paramName : option (list Z)) (newValue : Z) : Z * Tables :=
  match paramName with
  | None => (-1, t)
  | Some paramName =>
      if negb db && (newValue >=? 0) then (-1, t)
      else
        match target db t with
        | None => (-1, t)
        | Some codecParams =>
            let '(hasDefaultPrefix, hasMinPrefix, hasMaxPrefix, paramName) := prefixes paramName in
            let ps := match codecParams with c :: _ => cp_params c | [] => [] end in
            match param_index ps paramName with
            | None => (-1, t)
            | Some i =>
                let param := nth i ps no_param in
                let cipherCount := globalCipherCount t in
                let value := shown hasDefaultPrefix hasMinPrefix hasMaxPrefix param in
                if negb hasMinPrefix && negb hasMaxPrefix && (newValue >=? 0) &&
                   (newValue >=? m_minValue param) && (newValue <=? m_maxValue param) &&
                   (if stricmp paramName (str "cipher") then (newValue >? 0) && (newValue <=? cipherCount) else true)
                then
                  let param := if hasDefaultPrefix && negb (stricmp paramName (str "hmac_check"))
                               then set_default newValue param else param in
                  (newValue, set_target (upd_params codecParams 0 (upd ps i (set_value newValue param))) t)
                else (value, t)
            end
        end
  end.

(** ** Configuration of the parameters of a cipher *)

Definition checkParameterValue (paramName : list Z) (value : Z) (cipherName : list Z) : bool :=
  let ok :=
    if stricmp paramName (str "legacy_page_size") && (value >? 0)
    then (value >=? 512) && (value <=? SQLITE_MAX_PAGE_SIZE) && (Z.land (value - 1) value =? 0) else true in
  if ok && stricmp paramName (str "plaintext_header_size") && (value >? 0) then
    if stricmp cipherName (str "sqlcipher") then Z.rem value 16 =? 0 else ok
  else ok.

(** [configure] is the call of [sqlite3mcConfigureSQLCipherVersion]; the parameter is read
    from the table after it. *)
Definition config_cipher_with (configure : bool -> Tables -> Z -> Tables) (db : bool) (t : Tables)
    (cipherName paramName : option (list Z)) (newValue : Z) : Z * Tables :=
  match cipherName, paramName with
  | Some cipherName, Some paramName =>
      if negb db && (newValue >=? 0) then (-1, t)
      else
        match target db t with
        | None => (-1, t)
        | Some codecParams =>
            match codec_index codecParams cipherName with
            | None => (-1, t)
            | Some j =>
                let '(hasDefaultPrefix, hasMinPrefix, hasMaxPrefix, paramName) := prefixes paramName in
                let t :=
                  if db && stricmp cipherName (str "sqlcipher") && stricmp paramName (str "legacy") &&
                     negb hasMinPrefix && negb hasMaxPrefix && (newValue >? 0) && (newValue <=? SQLCIPHER_VERSION_MAX)
                  then configure hasDefaultPrefix t newValue else t in
                let codecParams := match target db t with Some c => c | None => [] end in
                let ps := cp_params (nth j codecParams globalSentinelParams) in
                match param_index ps paramName with
                | None => (-1, t)
                | Some i =>
                    let param := nth i ps no_param in
                    let value := shown hasDefaultPrefix hasMinPrefix hasMaxPrefix param in
                    if negb hasMinPrefix && negb hasMaxPrefix && (newValue >=? 0) &&
                       (newValue >=? m_minValue param) && (newValue <=? m_maxValue param) &&
                       checkParameterValue paramName newValue cipherName
                    then
                      let param := if hasDefaultPrefix then set_default newValue param else param in
                      (newValue, set_target (upd_params codecParams j (upd ps i (set_value newValue param))) t)
                    else (value, t)
                end
            end
        end
  | _, _ => (-1, t)
  end.

(** *** SQLCipher versions *)

Definition version_names : list (list Z) :=
  [str "legacy_page_size"; str "kdf_iter"; str "hmac_use"; str "kdf_algorithm"; str "hmac_algorithm"].

Definition versionParams : list (list Z) :=
  [[1024; 4000; 0; SQLCIPHER_ALGORITHM_SHA1; SQLCIPHER_ALGORITHM_SHA1];
   [1024; 4000; 1; SQLCIPHER_ALGORITHM_SHA1; SQLCIPHER_ALGORITHM_SHA1];
   [1024; 64000; 1; SQLCIPHER_ALGORITHM_SHA1; SQLCIPHER_ALGORITHM_SHA1];
   [4096; 256000; 1; SQLCIPHER_ALGORITHM_SHA512; SQLCIPHER_ALGORITHM_SHA512]].

(** None of the five names is [legacy], so the calls do not come back here. *)
Definition sqlite3mcConfigureSQLCipherVersion (configDefault : bool) (t : Tables) (legacyVersion : Z) : Tables :=
  if (legacyVersion >? 0) && (legacyVersion <=? SQLCIPHER_VERSION_MAX) then
    let values := nth (Z.to_nat (legacyVersion - 1)) versionParams [] in
    fold_left (fun t '(name, value) =>
        snd (config_cipher_with (fun _ t _ => t) true t (Some (str "sqlcipher"))
               (Some (if configDefault then str "default:" ++ name else name)) value))
      (combine version_names values) t
  else t.

Definition sqlite3mc_config_cipher : bool -> Tables -> option (list Z) -> option (list Z) -> Z -> Z * Tables :=
  config_cipher_with sqlite3mcConfigureSQLCipherVersion.

(** ** Lookup of ciphers *)

Definition sqlite3mc_cipher_index (t : Tables) (cipherName : list Z) : Z :=
  match codec_index (live (firstn (Z.to_nat (globalCipherCount t)) (cipherTable t))) cipherName with
  | Some j => Z.of_nat j + 1
  | None => -1
  end.

(** Index [cipherIndex - 1] is reached only if no sentinel comes before it. *)
Definition sqlite3mcFindCipherName (t : Tables) (cipherIndex : Z) : option (list Z) :=
  if (cipherIndex >? 0) && (cipherIndex <=? globalCipherCount t) then
    option_map cp_name (nth_error (live (firstn (Z.to_nat (globalCipherCount t)) (cipherTable t)))
                                  (Z.to_nat (cipherIndex - 1)))
  else None.

(** The string left in the static buffer. *)
Definition sqlite3mc_cipher_name (t : Tables) (cipherIndex : Z) : list Z :=
  match sqlite3mcFindCipherName t cipherIndex with
  | Some name => firstn (CIPHER_NAME_MAXLEN - 1) name
  | None => []
  end.

(** The result and the caller's buffer after the call. *)
Definition sqlite3mc_cipher_name_copy (t : Tables) (cipherIndex : Z) (cipherName : list Z) (maxCipherNameSize : Z)
    : Z * list Z :=
  match sqlite3mcFindCipherName t cipherIndex with
  | Some name =>
      let cipherNameLen := Z.of_nat (length name) + 1 in
      if maxCipherNameSize >=? cipherNameLen then
        (1, memcpy cipherName 0 (name ++ repeat 0 (Z.to_nat maxCipherNameSize - length name)))
      else (- cipherNameLen, cipherName)
  | None => (0, memcpy cipherName 0 [0])
  end.

(** The value of the parameter [cipher], which goes back to its default. *)
Definition sqlite3mcGetCipherType (db : bool) (t : Tables) : Z * Tables :=
  let read ps := match param_index ps (str "cipher") with
                 | Some i => let p := nth i ps no_param in (m_value p, upd ps i (set_value (m_default p) p))
                 | None => (CODEC_TYPE_UNKNOWN, ps)
                 end in
  match (if db then connectionTable t else None) with
  | Some codecParams =>
      let '(cipherType, ps) := read (match codecParams with c :: _ => cp_params c | [] => [] end) in
      (cipherType, set_target (upd_params codecParams 0 ps) t)
  | None =>
      let '(cipherType, ps) := read (commonParams_mem t) in
      (cipherType, mk_tables ps (cipherTable t) (globalCipherCount t) (connectionTable t))
  end.

(** The parameter table of a cipher, [None] for the null pointer of the sentinel. *)
Definition sqlite3mcGetCipherParams (db : bool) (t : Tables) (cipherName : list Z) : option (list CipherParams) :=
  let cipherType := sqlite3mc_cipher_index t cipherName in
  let codecParams := match (if db then connectionTable t else None) with
                     | Some c => c
                     | None => globalCodecParameterTable t
                     end in
  if cipherType >? 0 then option_map cp_params (find (fun c => cp_id c =? cipherType) (tl codecParams))
  else option_map cp_params (hd_error codecParams).

(** ** Registration *)

Definition sqlite3Isalpha (c : Z) : bool := ((65 <=? c) && (c <=? 90)) || ((97 <=? c) && (c <=? 122)).
Definition sqlite3Isalnum (c : Z) : bool := sqlite3Isalpha c || ((48 <=? c) && (c <=? 57)).

(** The name table starts with [global]. *)
Definition mcCheckValidName (t : Tables) (name : list Z) : bool :=
  let nl := length name in
  if (nl <? 1)%nat || (CIPHER_NAME_MAXLEN <=? nl)%nat then false
  else if existsb (stricmp name) (str "global" :: map cp_name (live (cipherTable t))) then false
  else sqlite3Isalpha (hd 0 name) && forallb (fun c => (c =? 95) || sqlite3Isalnum c) (tl name).

Definition valid_param (p : CipherParams) : bool :=
  (m_minValue p >=? 0) && (m_maxValue p >=? 0) && (m_minValue p <=? m_maxValue p) &&
  (m_value p >=? m_minValue p) && (m_value p <=? m_maxValue p) &&
  (m_default p >=? m_minValue p) && (m_default p <=? m_maxValue p).

(** What a caller passes: the name of the descriptor, whether each of its methods is
    defined, the parameters with a name, and whether the entry that ends them has a null
    name. *)
Record Registration := mk_registration {
  desc_name : option (list Z); desc_complete : bool;
  reg_params : option (list CipherParams * bool); makeDefault : bool }.

Definition SQLITE_NOMEM : Z := 7.

(** [mem k] tells whether the [k]-th allocation succeeds. *)
Definition sqlite3mcRegisterCipher (mem : nat -> bool) (t : Tables) (r : Registration) : option (Z * Tables) :=
  match desc_name r, reg_params r with
  | Some name, Some (params, null_end) =>
      if negb (desc_complete r) then Some (SQLITE_ERROR, t)
      else if negb (mcCheckValidName t name) then Some (SQLITE_ERROR, t)
      else if negb (forallb (fun p => mcCheckValidName t (m_name p) && valid_param p)
                            (firstn CIPHER_PARAMS_COUNT_MAX params)) then Some (SQLITE_ERROR, t)
      else if (CIPHER_PARAMS_COUNT_MAX <=? length params)%nat || null_end then Some (SQLITE_ERROR, t)
      else if negb (mem 0%nat) then Some (SQLITE_NOMEM, t)
      else if globalCipherCount t <? CODEC_COUNT_MAX then
        if negb (forallb mem (seq 1 (length params))) then None
        else
          let count := globalCipherCount t + 1 in
          let table := upd (cipherTable t) (Z.to_nat (count - 1)) (mk_codec_param name count params) in
          let common := commonParams_mem t in
          let common :=
            if makeDefault r then
              match param_index common (str "cipher") with
              | Some i => upd common i (set_value count (set_default count (nth i common no_param)))
              | None => common
              end
            else common in
          Some (SQLITE_OK, mk_tables common table count (connectionTable t))
      else Some (SQLITE_NOMEM, t)
  | _, _ => Some (SQLITE_ERROR, t)
  end.

(** ** The copy of a connection *)

Definition CIPHER_PARAMS_SENTINEL : CipherParams := mk_param [] 0 0 0 0.

(** A copied table: one array of parameters, in which the parameters of each entry start
    at an offset and end with a sentinel. *)
Record Clone := mk_clone { cloneCipherParams : list CipherParams; cloneCodecParams : list (list Z * Z * nat) }.

Fixpoint clone_tables (tables : list CodecParameter) (offset : nat) (m : Clone) : Clone :=
  match tables with
  | [] => m
  | c :: tables =>
      let n := length (cp_params c) in
      clone_tables tables (offset + (n + 1))
        (mk_clone (memcpy (cloneCipherParams m) offset (cp_params c ++ [CIPHER_PARAMS_SENTINEL]))
                  (cloneCodecParams m ++ [(cp_name c, cp_id c, offset)]))
  end.

Fixpoint params_at (m : list CipherParams) : list CipherParams :=
  match m with
  | [] => []
  | p :: m => match m_name p with [] => [] | _ => p :: params_at m end
  end.

(** The table that the pointers of a copy describe. *)
Definition read_clone (m : Clone) : list CodecParameter :=
  map (fun '(name, id, offset) => mk_codec_param name id (params_at (skipn offset (cloneCipherParams m))))
      (cloneCodecParams m).

(** [garbage] is what the allocator returns.  The two allocations succeed or not; the
    outer [None] is a write through the null pointer of the first, the inner [None] a null
    result. *)
Definition sqlite3mcCloneCodecParameterTable (t : Tables) (params_ok codec_ok : bool) (garbage : CipherParams)
    : option (option Clone) :=
  let tables := globalCodecParameterTable t in
  let nParams := list_sum (map (fun c => length (cp_params c)) tables) in
  if codec_ok then
    if params_ok then Some (Some (clone_tables tables 0 (mk_clone (repeat garbage (nParams + length tables)) [])))
    else None
  else Some None.

(** [created] is the result of the calls of [sqlite3_create_function].  [stored] is false if
    [sqlite3_set_clientdata] has no memory and frees the table, a result that is ignored. *)
Definition mcRegisterCodecExtensions (t : Tables) (params_ok codec_ok : bool) (garbage : CipherParams)
    (stored : bool) (created : Z) : option (Z * Tables) :=
  match connectionTable t with
  | Some _ => Some (SQLITE_OK, t)
  | None =>
      match sqlite3mcCloneCodecParameterTable t params_ok codec_ok garbage with
      | None => None
      | Some None => Some (SQLITE_NOMEM, t)
      | Some (Some m) => Some (created, if stored then set_target (read_clone m) t else t)
      end
  end.

(** ** Initialisation *)

Definition mcAscon128Params : list CipherParams :=
  [mk_param (str "kdf_iter") 64007 64007 1 0x7fffffff; mk_param (str "plaintext_header_size") 0 0 0 100].
Definition mcAegisParams : list CipherParams :=
  [mk_param (str "tcost") 2 2 1 0x7fffffff; mk_param (str "mcost") (19 * 1024) (19 * 1024) 1 0x7fffffff;
   mk_param (str "pcost") 1 1 1 0x7fffffff; mk_param (str "algorithm") 4 4 1 6;
   mk_param (str "plaintext_header_size") 0 0 0 100].

(** The built-in ciphers, in the order of their registration; the third is the default. *)
Definition builtin : list Registration :=
  let r name params dflt := mk_registration (Some name) true (Some (params, false)) dflt in
  [r (str "aes128cbc") mcAES128Params false; r (str "aes256cbc") mcAES256Params false;
   r (str "chacha20") mcChaCha20Params true; r (str "sqlcipher") mcSQLCipherParams false;
   r (str "rc4") mcRC4Params false; r (str "ascon128") mcAscon128Params false;
   r (str "aegis") mcAegisParams false].

(** Registrations until one fails; [mems] gives the allocations of each. *)
Fixpoint register_all (mems : list (nat -> bool)) (rs : list Registration) (t : Tables) : option (Z * Tables) :=
  match rs with
  | [] => Some (SQLITE_OK, t)
  | r :: rs =>
      match sqlite3mcRegisterCipher (hd (fun _ => true) mems) t r with
      | Some (rc, t) => if rc =? SQLITE_OK then register_all (tl mems) rs t else Some (rc, t)
      | None => None
      end
  end.

(** Up to the creation of the file-system shim, whose result is [vfs]. *)
Definition sqlite3mc_initialize (mems : list (nat -> bool)) (vfs : Z) (t : Tables) : option (Z * Tables) :=
  match register_all mems builtin (sqlite3mcInitCipherTables t) with
  | Some (rc, t) => Some (if rc =? SQLITE_OK then vfs else rc, t)
  | None => None
  end.

(** * Proofs *)

(** ** Well-formed tables *)

Definition fold_case (n : list Z) : list Z := map to_lower n.

(** A name that registration accepts is not empty, holds no zero and is not [global]. *)
Definition name_ok (n : list Z) : Prop := n <> [] /\ Forall (fun c => 0 < c) n /\ fold_case n <> str "global".

Definition param_ok (p : CipherParams) : Prop := name_ok (m_name p) /\ valid_param p = true.

(** The common parameters.  In the [strict] form the cipher is unknown or registered, and
    the default of [hmac_check] is 1. *)
Definition common_ok (strict : bool) (count : Z) (ps : list CipherParams) : Prop :=
  exists v d h k w e, ps = [mk_param (str "cipher") v d 1 CODEC_COUNT_MAX; mk_param (str "hmac_check") h k 0 1;
                            mk_param (str "mc_legacy_wal") w e 0 1] /\
    let top := if strict then count else CODEC_COUNT_MAX in
    0 <= v <= top /\ 0 <= d <= top /\ 0 <= h <= 1 /\ (if strict then 1 else 0) <= k <= 1 /\
    0 <= w <= 1 /\ 0 <= e <= 1.

(** Entries numbered from 1, with distinct names. *)
Definition names_ok (l : list CodecParameter) : Prop :=
  NoDup (map (fun c => fold_case (cp_name c)) l) /\ Forall (fun c => name_ok (cp_name c)) l /\
  map cp_id l = map Z.of_nat (seq 1 (length l)).

(** The same with valid parameters. *)
Definition ciphers_ok (l : list CodecParameter) : Prop :=
  NoDup (map (fun c => fold_case (cp_name c)) l) /\ Forall (fun c => name_ok (cp_name c)) l /\
  map cp_id l = map Z.of_nat (seq 1 (length l)) /\ Forall (fun c => Forall param_ok (cp_params c)) l.

Lemma ciphers_names l : ciphers_ok l -> names_ok l.
Proof. intros (N & M & I & _). now split; [|split]. Qed.

Definition connection_ok (strict : bool) (count : Z) (l : list CodecParameter) : Prop :=
  exists g rest, l = g :: rest /\ cp_name g = str "global" /\ common_ok strict count (cp_params g) /\
    ciphers_ok rest /\ Z.of_nat (length rest) <= count.

Record tables_ok (strict : bool) (t : Tables) : Prop := mk_tables_ok {
  ok_common : common_ok true (globalCipherCount t) (commonParams_mem t);
  ok_ciphers : exists l, ciphers_ok l /\ globalCipherCount t = Z.of_nat (length l) /\
    globalCipherCount t <= CODEC_COUNT_MAX /\
    cipherTable t = l ++ repeat globalSentinelParams (Z.to_nat CODEC_COUNT_MAX + 1 - length l);
  ok_connection : forall c, connectionTable t = Some c -> connection_ok strict (globalCipherCount t) c }.

(** What can happen between an initialisation and a shutdown.  If [strict], no call of
    [sqlite3mc_config_cipher] names the entry of the common parameters as its cipher. *)
Inductive config_step (strict : bool) : Tables -> Tables -> Prop :=
| step_register mem t r rc t' : sqlite3mcRegisterCipher mem t r = Some (rc, t') -> config_step strict t t'
| step_open t po co garbage stored created rc t' :
    mcRegisterCodecExtensions t po co garbage stored created = Some (rc, t') -> config_step strict t t'
| step_close t : config_step strict t (mk_tables (commonParams_mem t) (cipherTable t) (globalCipherCount t) None)
| step_config db t name v : config_step strict t (snd (sqlite3mc_config db t name v))
| step_config_cipher db t cipher name v :
    (strict = true -> forall n, cipher = Some n -> stricmp n (str "global") = false) ->
    config_step strict t (snd (sqlite3mc_config_cipher db t cipher name v))
| step_type db t : config_step strict t (snd (sqlite3mcGetCipherType db t))
| step_read t c j e name : connectionTable t = Some c -> nth_error c j = Some e ->
    config_step strict t (set_target (upd_params c j (snd (sqlite3mcGetCipherParameter (cp_params e) name))) t)
| step_read_global t j e name : nth_error (cipherTable t) j = Some e ->
    config_step strict t (mk_tables (commonParams_mem t)
      (upd_params (cipherTable t) j (snd (sqlite3mcGetCipherParameter (cp_params e) name)))
      (globalCipherCount t) (connectionTable t)).

Inductive reachable (strict : bool) : Tables -> Prop :=
| reach_init : reachable strict (sqlite3mcInitCipherTables loaded)
| reach_step t t' : reachable strict t -> config_step strict t t' -> reachable strict t'.

(** ** Lemmas on the tables *)

Lemma find_index_some {A} (f : A -> bool) l i d :
  find_index f l = Some i -> (i < length l)%nat /\ f (nth i l d) = true.
Proof.
  revert i. induction l as [|x l IH]; intros i; cbn [find_index length]; [discriminate|].
  destruct (f x) eqn:F; [intros [= <-]; cbn; auto with arith|].
  destruct (find_index f l) as [k|]; [|discriminate]. intros [= <-].
  destruct (IH k eq_refl). cbn. auto with arith.
Qed.

Lemma map_upd_same {A B} (f : A -> B) l i v d :
  (i < length l)%nat -> f v = f (nth i l d) -> map f (upd l i v) = map f l.
Proof.
  revert i. induction l as [|x l IH]; intros i H E; [easy|]. destruct i as [|i]; cbn in *.
  - now rewrite E.
  - rewrite IH; auto with arith.
Qed.

(** Replacing the parameters of an entry leaves the names and the numbers. *)
Lemma upd_params_nth t j e ps :
  nth_error t j = Some e -> upd_params t j ps = upd t j (mk_codec_param (cp_name e) (cp_id e) ps).
Proof. intros E. unfold upd_params. now rewrite E. Qed.

Lemma upd_params_keep {B} (f : CodecParameter -> B) t j ps :
  (forall c qs, f (mk_codec_param (cp_name c) (cp_id c) qs) = f c) -> map f (upd_params t j ps) = map f t.
Proof.
  intros F. unfold upd_params. destruct (nth_error t j) as [e|] eqn:E; [|reflexivity].
  apply map_upd_same with (d := e).
  - apply nth_error_Some. congruence.
  - rewrite F. f_equal. symmetry. apply nth_error_nth with (1 := E).
Qed.

Lemma upd_params_length t j ps : length (upd_params t j ps) = length t.
Proof. unfold upd_params. destruct (nth_error t j); [apply length_upd|reflexivity]. Qed.

Lemma ciphers_ok_upd l j ps : ciphers_ok l -> Forall param_ok ps -> ciphers_ok (upd_params l j ps).
Proof.
  intros (N & M & I & P) H. unfold ciphers_ok. rewrite upd_params_length.
  rewrite !(upd_params_keep _ l j ps) by reflexivity. split; [exact N|]. split; [|split; [exact I|]].
  - apply Forall_map with (f := cp_name) (P := name_ok). rewrite upd_params_keep by reflexivity.
    now apply Forall_map.
  - unfold upd_params. destruct (nth_error l j); [|exact P]. now apply Forall_upd.
Qed.

(** Writing the parameters of one entry of a connection. *)
Lemma connection_ok_upd strict n c j ps :
  connection_ok strict n c -> (j = 0%nat -> common_ok strict n ps) -> (j <> 0%nat -> Forall param_ok ps) ->
  connection_ok strict n (upd_params c j ps).
Proof.
  intros (g & rest & -> & G & C & R & L) H0 HS. destruct j as [|j].
  - exists (mk_codec_param (cp_name g) (cp_id g) ps), rest. cbn. auto 6.
  - exists g, (upd_params rest j ps).
    repeat split; auto; try (apply ciphers_ok_upd; [exact R|apply HS; discriminate]).
    + unfold upd_params. cbn [nth_error]. now destruct (nth_error rest j).
    + now rewrite upd_params_length.
Qed.

Lemma connection_ok_mono strict n m c : n <= m -> connection_ok strict n c -> connection_ok strict m c.
Proof.
  intros L (g & rest & E & G & (v & d & h & k & w & e & C & B) & R & K).
  exists g, rest. repeat split; auto; try apply R; [|lia].
  exists v, d, h, k, w, e. split; [exact C|]. destruct strict; cbn in *; lia.
Qed.

Lemma common_ok_loose n m ps : n <= m -> common_ok true n ps -> common_ok true m ps.
Proof. intros L (v & d & h & k & w & e & C & B). exists v, d, h, k, w, e. split; [exact C|]. cbn in *. lia. Qed.

Lemma common_ok_weak strict n ps : n <= CODEC_COUNT_MAX -> common_ok true n ps -> common_ok strict n ps.
Proof.
  intros L (v & d & h & k & w & e & C & B). exists v, d, h, k, w, e. split; [exact C|].
  destruct strict; cbn in *; lia.
Qed.

Lemma live_app l n : Forall (fun c => name_ok (cp_name c)) l -> live (l ++ repeat globalSentinelParams n) = l.
Proof.
  induction 1 as [|c l [N _] _ IH]; cbn [app live].
  - destruct n; reflexivity.
  - rewrite IH. now destruct (cp_name c).
Qed.

(** Reading resets a value to its default, within the bounds. *)
Lemma read_params_ok ps name : Forall param_ok ps -> Forall param_ok (snd (sqlite3mcGetCipherParameter ps name)).
Proof.
  induction 1 as [|p ps [N V] H IH]; cbn [sqlite3mcGetCipherParameter]; [constructor|].
  destruct (_ =? 0); cbn [snd].
  - constructor; [|exact H]. split; [exact N|]. revert V. unfold valid_param. cbn.
    rewrite !andb_true_iff. tauto.
  - destruct (sqlite3mcGetCipherParameter ps name). cbn in *. now constructor; [split|].
Qed.

Lemma read_common_ok strict n ps name :
  common_ok strict n ps -> common_ok strict n (snd (sqlite3mcGetCipherParameter ps name)).
Proof.
  intros (v & d & h & k & w & e & -> & B). cbn [sqlite3mcGetCipherParameter m_name m_value m_default m_minValue m_maxValue].
  destruct (_ =? 0); cbn [snd]; [|destruct (_ =? 0); cbn [snd]; [|destruct (_ =? 0); cbn [snd]]];
    [exists d, d, h, k, w, e|exists v, d, k, k, w, e|exists v, d, h, k, e, e|exists v, d, h, k, w, e];
    (split; [reflexivity|destruct strict; cbn in *; lia]).
Qed.

(** A value within the bounds, stored as the value and possibly as the default. *)
Lemma store_params_ok ps i p v (dflt : bool) :
  Forall param_ok ps -> (i < length ps)%nat -> p = nth i ps no_param ->
  (v >=? 0) = true -> (v >=? m_minValue p) = true -> (v <=? m_maxValue p) = true ->
  Forall param_ok (upd ps i (set_value v (if dflt then set_default v p else p))).
Proof.
  intros H L E V0 V1 V2. apply Forall_upd; [exact H|].
  assert (Hp : param_ok p) by (rewrite E; eapply Forall_forall; [exact H|now apply nth_In]).
  destruct Hp as [N V]. split; [now destruct dflt|]. revert V. unfold valid_param.
  destruct dflt; cbn; rewrite V1, V2, ?andb_true_r; rewrite !andb_true_iff; tauto.
Qed.

Lemma store_common_ok strict n ps i p v (dflt : bool) name :
  common_ok strict n ps -> param_index ps name = Some i -> p = nth i ps no_param ->
  (v >=? 0) = true -> (v >=? m_minValue p) = true -> (v <=? m_maxValue p) = true ->
  (strict = true -> stricmp name (str "cipher") = true -> v <= n) ->
  (strict = true -> dflt = true -> stricmp name (str "hmac_check") = false) ->
  common_ok strict n (upd ps i (set_value v (if dflt then set_default v p else p))).
Proof.
  intros (u & d & h & k & w & e & -> & B) F E V0 V1 V2 S1 S2.
  destruct (find_index_some _ _ _ no_param F) as [L M]. rewrite E in *. clear E F.
  destruct i as [|[|[|i]]]; [..|cbn in L; lia]; cbn [nth m_name m_minValue m_maxValue] in *.
  - exists v, (if dflt then v else d), h, k, w, e. split; [now destruct dflt|].
    destruct strict; [specialize (S1 eq_refl M)|]; destruct dflt; cbn in *; lia.
  - exists u, d, v, (if dflt then v else k), w, e. split; [now destruct dflt|].
    destruct strict, dflt; cbn in *; try lia. rewrite S2 in M; easy.
  - exists u, d, h, k, v, (if dflt then v else e). split; [now destruct dflt|].
    destruct dflt; cbn in *; lia.
Qed.

(** Replacing the table of the connection. *)
Lemma set_target_ok strict t c :
  tables_ok strict t -> connection_ok strict (globalCipherCount t) c -> tables_ok strict (set_target c t).
Proof. intros [A B _] C. split; cbn; [exact A|exact B|]. now intros ? [= <-]. Qed.

Lemma config_ok strict db t name v : tables_ok strict t -> tables_ok strict (snd (sqlite3mc_config db t name v)).
Proof.
  intros T. unfold sqlite3mc_config. destruct name as [name|]; [|exact T].
  destruct (negb db && (v >=? 0)) eqn:D; [exact T|]. destruct (target db t) as [c|] eqn:C; [|exact T].
  destruct (prefixes name) as [[[b1 b2] b3] name']. cbn zeta.
  destruct (param_index _ name') as [i|] eqn:P; [|exact T].
  match goal with |- tables_ok _ (snd (if ?X then _ else _)) => destruct X eqn:X' end; [|exact T]. cbn [snd].
  rewrite !andb_true_iff in X'. destruct X' as (((((_ & _) & V0) & V1) & V2) & A).
  destruct db; [|now rewrite V0 in D].
  pose proof (ok_connection _ _ T c C) as K. apply set_target_ok; [exact T|]. apply connection_ok_upd; [exact K| |easy].
  intros _. destruct K as (g & rest & -> & _ & G & _). cbn [globalCipherCount] in *.
  apply (store_common_ok _ _ _ _ _ _ _ name' G P eq_refl V0 V1 V2).
  - intros _ E. rewrite E in A. lia.
  - intros _ E. apply andb_true_iff in E as [_ E]. now apply negb_true_iff.
Qed.

Lemma connection_params strict n c j :
  connection_ok strict n c -> (j < length c)%nat ->
  (j = 0%nat -> common_ok strict n (cp_params (nth j c globalSentinelParams))) /\
  (j <> 0%nat -> Forall param_ok (cp_params (nth j c globalSentinelParams))).
Proof.
  intros (g & rest & -> & _ & C & (_ & _ & _ & R) & _) L. destruct j as [|j]; split; intros E; try easy.
  cbn [nth]. eapply Forall_forall in R; [exact R|]. apply nth_In. cbn in L. lia.
Qed.

Lemma config_cipher_with_ok strict configure db t cipher name v :
  (forall b t v, tables_ok strict t -> tables_ok strict (configure b t v)) ->
  (forall b t v c, connectionTable t = Some c ->
     exists c', connectionTable (configure b t v) = Some c' /\ map cp_name c' = map cp_name c) ->
  (strict = true -> forall n, cipher = Some n -> stricmp n (str "global") = false) ->
  tables_ok strict t -> tables_ok strict (snd (config_cipher_with configure db t cipher name v)).
Proof.
  intros HF HC HG T. unfold config_cipher_with. destruct cipher as [cipher|], name as [name|]; try exact T.
  destruct (negb db && (v >=? 0)) eqn:D; [exact T|]. destruct (target db t) as [c|] eqn:C; [|exact T].
  destruct (codec_index c cipher) as [j|] eqn:J; [|exact T].
  destruct (prefixes name) as [[[b1 b2] b3] name']. cbn zeta.
  match goal with |- context [if ?G then configure _ _ _ else _] => remember G as guard eqn:EG end.
  set (t' := if guard then _ else _) in *.
  assert (T' : tables_ok strict t') by (unfold t'; destruct guard; auto).
  destruct (param_index _ name') as [i|] eqn:P; [|exact T'].
  match goal with |- tables_ok _ (snd (if ?X then _ else _)) => destruct X eqn:X' end; [|exact T']. cbn [snd].
  rewrite !andb_true_iff in X'. destruct X' as (((((_ & _) & V0) & V1) & V2) & _).
  destruct db; [|now rewrite V0 in D]. cbn [target] in C.
  assert (K : exists c', connectionTable t' = Some c' /\ map cp_name c' = map cp_name c)
    by (unfold t'; destruct guard; eauto).
  destruct K as (c' & C' & N). cbn [target] in *. rewrite C' in *. clearbody t'.
  destruct (find_index_some _ _ _ globalSentinelParams J) as [L M].
  assert (Lc : length c' = length c) by (rewrite <- (length_map cp_name c'), N; apply length_map).
  destruct (find_index_some _ _ _ no_param P) as [Li _].
  pose proof (ok_connection _ _ T' c' C') as K. destruct (connection_params _ _ _ j K) as [K0 KS]; [lia|].
  apply set_target_ok; [exact T'|]. apply connection_ok_upd; [exact K| |].
  - intros ->. apply (store_common_ok _ _ _ _ _ _ _ name' (K0 eq_refl) P eq_refl V0 V1 V2); intros S; exfalso;
      destruct (ok_connection _ _ T c C) as (g & rest & -> & G & _); cbn [nth] in M;
      rewrite G, (HG S cipher eq_refl) in M; discriminate.
  - intros NJ. now apply (store_params_ok _ _ _ _ _ (KS NJ) Li eq_refl).
Qed.

(** A call keeps the names of the connection's table. *)
Lemma config_cipher_with_names configure db t cipher name v c :
  (forall b t v c, connectionTable t = Some c ->
     exists c', connectionTable (configure b t v) = Some c' /\ map cp_name c' = map cp_name c) ->
  connectionTable t = Some c ->
  exists c', connectionTable (snd (config_cipher_with configure db t cipher name v)) = Some c' /\
             map cp_name c' = map cp_name c.
Proof.
  intros HC C. unfold config_cipher_with. destruct cipher as [cipher|], name as [name|]; cbn [snd]; eauto.
  destruct (negb db && (v >=? 0)) eqn:D; cbn [snd]; eauto. destruct (target db t) as [c0|] eqn:C0; cbn [snd]; eauto.
  destruct (codec_index c0 cipher) as [j|]; cbn [snd]; eauto.
  destruct (prefixes name) as [[[b1 b2] b3] name']. cbn zeta.
  match goal with |- context [if ?G then configure _ _ _ else _] => set (guard := G) end.
  set (t' := if guard then _ else _) in *.
  assert (K : exists c', connectionTable t' = Some c' /\ map cp_name c' = map cp_name c)
    by (unfold t'; destruct guard; eauto).
  clearbody t'. destruct (param_index _ name') as [i|]; [|exact K].
  match goal with |- context [snd (if ?X then _ else _)] => destruct X eqn:X' end; [|exact K]. cbn [snd].
  rewrite !andb_true_iff in X'. destruct X' as (((((_ & _) & V0) & _) & _) & _), db; [|now rewrite V0 in D].
  destruct K as (c' & E & N). cbn [target]. rewrite E. eexists. split; [reflexivity|].
  now rewrite upd_params_keep by reflexivity.
Qed.

Lemma version_fold_inv (P : Tables -> Prop) dflt t v :
  (forall t name v, P t ->
     P (snd (config_cipher_with (fun _ t _ => t) true t (Some (str "sqlcipher")) (Some name) v))) ->
  P t -> P (sqlite3mcConfigureSQLCipherVersion dflt t v).
Proof.
  intros H T. unfold sqlite3mcConfigureSQLCipherVersion. destruct (_ && _); [|exact T].
  revert t T. generalize (combine version_names (nth (Z.to_nat (v - 1)) versionParams [])) as l.
  induction l as [|[name x] l IH]; intros t T; cbn [fold_left]; [exact T|]. apply IH, H, T.
Qed.

Lemma configure_ok strict b t v : tables_ok strict t -> tables_ok strict (sqlite3mcConfigureSQLCipherVersion b t v).
Proof.
  apply version_fold_inv. intros t' name x T. apply config_cipher_with_ok; eauto.
  now intros _ n [= <-].
Qed.

Lemma configure_names b t v c :
  connectionTable t = Some c ->
  exists c', connectionTable (sqlite3mcConfigureSQLCipherVersion b t v) = Some c' /\ map cp_name c' = map cp_name c.
Proof.
  intros C.
  apply (version_fold_inv (fun t => exists c', connectionTable t = Some c' /\ map cp_name c' = map cp_name c)).
  - intros t' name x (c' & E & N). rewrite <- N. now apply config_cipher_with_names; [eauto|].
  - eauto.
Qed.

Lemma config_cipher_ok strict db t cipher name v :
  (strict = true -> forall n, cipher = Some n -> stricmp n (str "global") = false) ->
  tables_ok strict t -> tables_ok strict (snd (sqlite3mc_config_cipher db t cipher name v)).
Proof. apply config_cipher_with_ok; [intros; now apply configure_ok|intros; now apply configure_names]. Qed.

Lemma cipher_type_ok strict db t : tables_ok strict t -> tables_ok strict (snd (sqlite3mcGetCipherType db t)).
Proof.
  intros T.
  assert (R : forall s n ps i, common_ok s n ps -> param_index ps (str "cipher") = Some i ->
      common_ok s n (upd ps i (set_value (m_default (nth i ps no_param)) (nth i ps no_param)))).
  { intros s n ps i (v & d & h & k & w & e & -> & B) F. injection F as <-. exists d, d, h, k, w, e.
    split; [reflexivity|]. destruct s; cbn in *; lia. }
  unfold sqlite3mcGetCipherType. destruct (if db then connectionTable t else None) as [c|] eqn:C.
  - assert (C' : connectionTable t = Some c) by (destruct db; [exact C|discriminate]).
    pose proof (ok_connection _ _ T c C') as K.
    destruct (param_index _ _) as [i|] eqn:P; cbn [snd]; (apply set_target_ok; [exact T|]);
      (apply connection_ok_upd; [exact K| |easy]); intros _; destruct K as (g & rest & -> & _ & G & _); auto.
  - destruct T as [A B K]. destruct (param_index _ _) as [i|] eqn:P; cbn [snd]; split; cbn; auto.
Qed.

(** ** Registration *)

Lemma alnum_pos c : (c =? 95) || sqlite3Isalnum c = true -> 0 < c.
Proof. unfold sqlite3Isalnum, sqlite3Isalpha. lia. Qed.

Lemma stricmp_fold a b :
  Forall (fun c => 0 < c) a -> Forall (fun c => 0 < c) b -> stricmp a b = true <-> fold_case a = fold_case b.
Proof. intros A B. unfold stricmp. rewrite Z.eqb_eq. now apply StrICmp_zero. Qed.

Lemma valid_name_ok t name : mcCheckValidName t name = true -> name_ok name.
Proof.
  unfold mcCheckValidName. destruct name as [|c name]; [discriminate|].
  destruct (_ || _); [discriminate|]. destruct (existsb _ _) eqn:G; [discriminate|]. cbn [hd tl].
  rewrite andb_true_iff, forallb_forall. intros [A B].
  assert (P : Forall (fun c => 0 < c) (c :: name)).
  { constructor; [unfold sqlite3Isalpha in A; lia|]. apply Forall_forall. intros x H. now apply alnum_pos, B. }
  split; [discriminate|]. split; [exact P|]. intros F. cbn [existsb] in G. apply orb_false_iff in G as [G _].
  rewrite (proj2 (stricmp_fold _ (str "global") P ltac:(repeat constructor)) F) in G. discriminate.
Qed.

Lemma valid_name_fresh t name :
  mcCheckValidName t name = true -> existsb (stricmp name) (map cp_name (live (cipherTable t))) = false.
Proof.
  unfold mcCheckValidName. destruct (_ || _); [discriminate|].
  destruct (existsb _ _) eqn:E; [discriminate|]. intros _. cbn in E. now apply orb_false_iff in E.
Qed.

Lemma fresh_not_in name l :
  name_ok name -> Forall (fun c => name_ok (cp_name c)) l -> existsb (stricmp name) (map cp_name l) = false ->
  ~ In (fold_case name) (map (fun c => fold_case (cp_name c)) l).
Proof.
  intros (_ & N & _) H E I. apply in_map_iff in I as (c & F & I).
  assert (X : existsb (stricmp name) (map cp_name l) = true).
  { apply existsb_exists. exists (cp_name c). split; [now apply in_map|].
    apply stricmp_fold; [exact N| |now symmetry]. eapply Forall_forall in H; [apply H|exact I]. }
  congruence.
Qed.

Lemma upd_app_mid {A} (l r : list A) x y : upd (l ++ x :: r) (length l) y = l ++ y :: r.
Proof. induction l as [|z l IH]; cbn [app upd length]; [reflexivity|]. now rewrite IH. Qed.

(** A new entry takes the place of the first sentinel. *)
Lemma table_append l c n :
  (length l < n)%nat ->
  upd (l ++ repeat globalSentinelParams (n - length l)) (length l) c =
  (l ++ [c]) ++ repeat globalSentinelParams (n - length (l ++ [c])).
Proof.
  intros L. rewrite length_app. cbn [length]. replace (n - length l)%nat with (S (n - (length l + 1))) by lia.
  rewrite <- app_assoc. apply upd_app_mid.
Qed.

Lemma ciphers_ok_snoc l c :
  ciphers_ok l -> name_ok (cp_name c) -> ~ In (fold_case (cp_name c)) (map (fun c => fold_case (cp_name c)) l) ->
  cp_id c = Z.of_nat (length l) + 1 -> Forall param_ok (cp_params c) -> ciphers_ok (l ++ [c]).
Proof.
  intros (N & M & I & P) A F E Q. unfold ciphers_ok. rewrite !map_app, length_app. cbn [map length].
  split; [|split; [|split]].
  - apply NoDup_app; [exact N|repeat constructor; easy|]. intros x X [<-|[]]. now apply F.
  - apply Forall_app. auto.
  - rewrite seq_app, map_app, <- I. cbn. f_equal. f_equal. lia.
  - apply Forall_app. auto.
Qed.

Lemma register_ok strict mem t r rc t' :
  tables_ok strict t -> sqlite3mcRegisterCipher mem t r = Some (rc, t') -> tables_ok strict t'.
Proof.
  intros T. unfold sqlite3mcRegisterCipher.
  destruct (desc_name r) as [name|]; [|now intros [= _ <-]].
  destruct (reg_params r) as [[params null_end]|]; [|now intros [= _ <-]].
  destruct (negb (desc_complete r)); [now intros [= _ <-]|].
  destruct (mcCheckValidName t name) eqn:V; cbn [negb]; [|now intros [= _ <-]].
  destruct (forallb _ (firstn _ params)) eqn:FP; cbn [negb]; [|now intros [= _ <-]].
  destruct (_ || null_end) eqn:NE; [now intros [= _ <-]|].
  destruct (mem 0%nat); cbn [negb]; [|now intros [= _ <-]].
  destruct (globalCipherCount t <? CODEC_COUNT_MAX) eqn:CM; [|now intros [= _ <-]].
  destruct (forallb mem _); cbn [negb]; [|discriminate].
  intros H. apply some_inj, pair_inj in H as [_ <-].
  destruct T as [A (l & L & Ec & Lm & Et) K].
  apply orb_false_iff in NE as [NE _]. apply Nat.leb_gt in NE. rewrite firstn_all2 in FP by lia.
  pose proof (valid_name_fresh t name V) as Fr. rewrite Et, live_app in Fr by apply L.
  pose proof (valid_name_ok t name V) as Nm.
  assert (Lx : ciphers_ok (l ++ [mk_codec_param name (globalCipherCount t + 1) params])).
  { apply ciphers_ok_snoc; cbn; auto; [now apply fresh_not_in; [| apply L |]|lia|].
    apply Forall_forall. intros p I. rewrite forallb_forall in FP. apply FP, andb_true_iff in I as [I1 I2].
    split; [eapply valid_name_ok; exact I1|exact I2]. }
  split; cbn [commonParams_mem cipherTable globalCipherCount connectionTable].
  - destruct A as (v & d & h & k & w & e & -> & B). cbn zeta in B. destruct (makeDefault r); cbn [param_index].
    + exists (globalCipherCount t + 1), (globalCipherCount t + 1), h, k, w, e. split; [reflexivity|]. cbn. lia.
    + exists v, d, h, k, w, e. split; [reflexivity|]. cbn. lia.
  - eexists. split; [exact Lx|]. rewrite length_app. cbn [length]. split; [lia|]. split; [lia|].
    replace (Z.to_nat (globalCipherCount t + 1 - 1)) with (length l) by lia. rewrite Et.
    rewrite table_append by (unfold CODEC_COUNT_MAX in *; lia). now rewrite length_app.
  - intros c C. apply connection_ok_mono with (n := globalCipherCount t); [lia|auto].
Qed.

(** ** The copy reads back as the table *)

Lemma params_at_app ps p rest :
  Forall (fun p => m_name p <> []) ps -> m_name p = [] -> params_at (ps ++ p :: rest) = ps.
Proof.
  intros H E. induction H as [|q ps N _ IH]; cbn [app params_at].
  - now rewrite E.
  - rewrite IH. now destruct (m_name q).
Qed.

Definition flat (tables : list CodecParameter) : list CipherParams :=
  flat_map (fun c => cp_params c ++ [CIPHER_PARAMS_SENTINEL]) tables.

Fixpoint entries (tables : list CodecParameter) (offset : nat) : list (list Z * Z * nat) :=
  match tables with
  | [] => []
  | c :: tables => (cp_name c, cp_id c, offset) :: entries tables (offset + (length (cp_params c) + 1))
  end.

Lemma flat_length tables :
  length (flat tables) = (list_sum (map (fun c => length (cp_params c)) tables) + length tables)%nat.
Proof.
  induction tables as [|c l IH]; [reflexivity|]. unfold flat in *. cbn [flat_map]. rewrite !length_app, IH.
  cbn [map list_sum fold_right length]. unfold list_sum. lia.
Qed.

(** The loop fills the array from the left. *)
Lemma clone_tables_eq tables : forall pre junk es,
  length junk = length (flat tables) ->
  clone_tables tables (length pre) (mk_clone (pre ++ junk) es) =
  mk_clone (pre ++ flat tables) (es ++ entries tables (length pre)).
Proof.
  induction tables as [|c l IH]; intros pre junk es L; cbn [clone_tables entries].
  - destruct junk; [|discriminate L]. cbn [flat flat_map]. now rewrite !app_nil_r.
  - cbn [cloneCipherParams cloneCodecParams]. set (q := cp_params c ++ [CIPHER_PARAMS_SENTINEL]).
    assert (Q : length q = (length (cp_params c) + 1)%nat) by (unfold q; rewrite length_app; reflexivity).
    assert (F : flat (c :: l) = q ++ flat l) by reflexivity.
    rewrite F, length_app in L.
    assert (M : memcpy (pre ++ junk) (length pre) q = (pre ++ q) ++ skipn (length q) junk).
    { rewrite <- (firstn_skipn (length q) junk) at 1. rewrite memcpy_app; [now rewrite <- app_assoc|reflexivity|].
      rewrite length_firstn. lia. }
    rewrite M, F. replace (length pre + (length (cp_params c) + 1))%nat with (length (pre ++ q))
      by (rewrite length_app; lia).
    rewrite IH by (rewrite length_skipn; lia). now rewrite <- !app_assoc.
Qed.

Lemma read_entries tables : forall pre,
  Forall (fun c => Forall (fun p => m_name p <> []) (cp_params c)) tables ->
  map (fun '(name, id, offset) => mk_codec_param name id (params_at (skipn offset (pre ++ flat tables))))
      (entries tables (length pre)) = tables.
Proof.
  induction tables as [|c l IH]; intros pre H; [reflexivity|]. inversion H as [|? ? Hc Hl]. subst.
  cbn [entries map]. f_equal.
  - rewrite skipn_app_l by reflexivity. unfold flat. cbn [flat_map]. rewrite <- app_assoc. cbn [app].
    rewrite params_at_app by easy. now destruct c.
  - rewrite <- (IH (pre ++ cp_params c ++ [CIPHER_PARAMS_SENTINEL]) Hl) at 2. rewrite !length_app. cbn [length].
    unfold flat. cbn [flat_map]. now rewrite <- !app_assoc.
Qed.

Lemma common_names s n ps : common_ok s n ps -> Forall (fun p => m_name p <> []) ps.
Proof. intros (v & d & h & k & w & e & -> & _). repeat constructor; discriminate. Qed.

Lemma global_table strict t :
  tables_ok strict t ->
  exists l, ciphers_ok l /\ globalCipherCount t = Z.of_nat (length l) /\
    globalCodecParameterTable t = mk_codec_param (str "global") CODEC_TYPE_UNKNOWN (commonParams_mem t) :: l.
Proof.
  intros [_ (l & L & E & _ & T) _]. exists l. split; [exact L|]. split; [exact E|].
  unfold globalCodecParameterTable. rewrite T, live_app; [reflexivity|apply L].
Qed.

Lemma clone_read strict t garbage m :
  tables_ok strict t -> sqlite3mcCloneCodecParameterTable t true true garbage = Some (Some m) ->
  read_clone m = globalCodecParameterTable t.
Proof.
  intros T H. apply some_inj, some_inj in H as <-. rewrite <- flat_length.
  pose proof (clone_tables_eq (globalCodecParameterTable t) []) as Q. cbn [app length] in Q.
  rewrite Q by apply repeat_length. apply (read_entries _ []).
  destruct (global_table _ _ T) as (l & L & _ & ->). constructor; [eapply common_names, ok_common; exact T|].
  eapply Forall_impl; [|apply L]. intros c Hc. eapply Forall_impl; [|exact Hc]. now intros p [[N _] _].
Qed.

(** ** Reachable tables *)

Lemma open_ok strict t po co garbage stored created rc t' :
  tables_ok strict t -> mcRegisterCodecExtensions t po co garbage stored created = Some (rc, t') ->
  tables_ok strict t'.
Proof.
  intros T. unfold mcRegisterCodecExtensions. destruct (connectionTable t); [now intros [= _ <-]|].
  destruct (sqlite3mcCloneCodecParameterTable t po co garbage) as [[m|]|] eqn:C;
    [|now intros [= _ <-]|discriminate].
  intros H. apply some_inj, pair_inj in H as [_ <-]. destruct stored; [|exact T].
  destruct co, po; try discriminate C. apply set_target_ok; [exact T|].
  rewrite (clone_read _ _ _ _ T C). destruct (global_table _ _ T) as (l & L & E & ->).
  eexists _, l. split; [reflexivity|]. split; [reflexivity|]. split; [|split; [exact L|lia]].
  destruct T as [A (l' & _ & _ & B & _) _]. now apply common_ok_weak.
Qed.

Lemma upd_params_app l r j ps : (j < length l)%nat -> upd_params (l ++ r) j ps = upd_params l j ps ++ r.
Proof.
  intros H. unfold upd_params. rewrite nth_error_app1 by exact H. destruct (nth_error l j); [|reflexivity].
  revert j H. induction l as [|x l IH]; intros j H; [easy|]. destruct j; cbn in *; [reflexivity|].
  rewrite IH; auto with arith.
Qed.

Lemma upd_repeat {A} (x : A) n j : upd (repeat x n) j x = repeat x n.
Proof. revert j. induction n as [|n IH]; intros j; destruct j; cbn [repeat upd]; try reflexivity. now rewrite IH. Qed.

Lemma upd_app_r {A} (l r : list A) j v : (length l <= j)%nat -> upd (l ++ r) j v = l ++ upd r (j - length l) v.
Proof.
  revert j. induction l as [|x l IH]; intros j J; cbn [app length]; [now rewrite Nat.sub_0_r|].
  destruct j; [easy|]. cbn [upd app Nat.sub]. f_equal. apply IH. auto with arith.
Qed.

Lemma read_global_ok strict t j e name :
  tables_ok strict t -> nth_error (cipherTable t) j = Some e ->
  tables_ok strict (mk_tables (commonParams_mem t)
    (upd_params (cipherTable t) j (snd (sqlite3mcGetCipherParameter (cp_params e) name)))
    (globalCipherCount t) (connectionTable t)).
Proof.
  intros [A (l & L & Ec & Lm & Et) K] N. split; cbn; [exact A| |exact K].
  rewrite Et in *. destruct (Nat.lt_ge_cases j (length l)) as [J|J].
  - rewrite nth_error_app1 in N by exact J. exists (upd_params l j (snd (sqlite3mcGetCipherParameter (cp_params e) name))).
    rewrite upd_params_length, (upd_params_app l _ j _ J). repeat split; auto;
      apply ciphers_ok_upd; auto; apply read_params_ok; destruct L as (_ & _ & _ & P);
      eapply Forall_forall in P; eauto using nth_error_In.
  - exists l. split; [exact L|]. split; [exact Ec|]. split; [exact Lm|]. rewrite nth_error_app2 in N by exact J.
    pose proof (repeat_spec _ _ _ (nth_error_In _ _ N)) as N'. subst e. cbn [cp_params globalSentinelParams sqlite3mcGetCipherParameter snd].
    unfold upd_params. rewrite (nth_error_app2 _ _ J), N, (upd_app_r _ _ _ _ J).
    f_equal. apply upd_repeat.
Qed.

Lemma tables_reachable strict t : reachable strict t -> tables_ok strict t.
Proof.
  induction 1 as [|t t' _ T S].
  - split; cbn; [|exists []|discriminate].
    + exists 0, 0, 1, 1, 0, 0. split; [reflexivity|]. cbn. lia.
    + split; [|split; [reflexivity|split; [easy|reflexivity]]]. repeat split; constructor.
  - destruct S as [mem t r rc t' E|t po co garbage stored created rc t' E|t|db t name v|db t cipher name v G|db t
                  |t c j e name C N|t j e name N].
    + eapply register_ok; eauto.
    + eapply open_ok; eauto.
    + destruct T as [A B _]. split; cbn; easy.
    + now apply config_ok.
    + now apply config_cipher_ok.
    + now apply cipher_type_ok.
    + pose proof (ok_connection _ _ T c C) as K.
      assert (J : (j < length c)%nat) by (apply nth_error_Some; congruence).
      destruct (connection_params _ _ _ j K J) as [K0 KS].
      rewrite (nth_error_nth _ _ globalSentinelParams N) in K0, KS.
      apply set_target_ok; [exact T|]. apply connection_ok_upd; auto using read_common_ok, read_params_ok.
    + now apply read_global_ok.
Qed.

(** ** Accepted values *)

Definition store (dflt : bool) (v : Z) (p : CipherParams) : CipherParams :=
  set_value v (if dflt then set_default v p else p).

(** An accepted value of a parameter other than the SQLCipher version. *)
Lemma config_cipher_accept configure t c j e cipher name dflt name' i v :
  connectionTable t = Some c -> codec_index c cipher = Some j -> nth_error c j = Some e ->
  prefixes name = (dflt, false, false, name') -> stricmp name' (str "legacy") = false ->
  param_index (cp_params e) name' = Some i -> 0 <= v ->
  let p := nth i (cp_params e) no_param in
  m_minValue p <= v <= m_maxValue p -> checkParameterValue name' v cipher = true ->
  config_cipher_with configure true t (Some cipher) (Some name) v =
  (v, set_target (upd_params c j (upd (cp_params e) i (store dflt v p))) t).
Proof.
  intros C J E P L I V p B K. unfold config_cipher_with. cbn [negb andb target]. rewrite C, J, P.
  rewrite L, !andb_false_r. cbn [andb]. rewrite C, (nth_error_nth _ _ globalSentinelParams E), I.
  fold p. rewrite K. replace (v >=? 0) with true by lia. replace (v >=? m_minValue p) with true by lia.
  replace (v <=? m_maxValue p) with true by lia. reflexivity.
Qed.

Lemma codec_index_names c c' name : map cp_name c' = map cp_name c -> codec_index c' name = codec_index c name.
Proof.
  revert c'. induction c as [|x c IH]; intros [|y c'] E; try discriminate; [reflexivity|].
  injection E as E1 E2. unfold codec_index in *. cbn [find_index]. now rewrite E1, (IH c' E2).
Qed.

Lemma codec_index_upd c j ps name : codec_index (upd_params c j ps) name = codec_index c name.
Proof. apply codec_index_names. now apply upd_params_keep. Qed.

Lemma nth_error_upd {A} (l : list A) j v x : nth_error l j = Some x -> nth_error (upd l j v) j = Some v.
Proof.
  revert j. induction l as [|y l IH]; intros [|j] E; try discriminate; [reflexivity|]. cbn in *. eauto.
Qed.

Lemma upd_upd {A} (l : list A) j v w : upd (upd l j v) j w = upd l j w.
Proof. revert j. induction l as [|y l IH]; intros [|j]; cbn [upd]; try reflexivity. now rewrite IH. Qed.

Lemma upd_params_twice c j ps qs : upd_params (upd_params c j ps) j qs = upd_params c j qs.
Proof.
  unfold upd_params. destruct (nth_error c j) as [e|] eqn:E; [|now rewrite E].
  rewrite (nth_error_upd _ _ _ _ E). cbn [cp_name cp_id]. apply upd_upd.
Qed.

Lemma nth_error_upd_params c j e ps :
  nth_error c j = Some e -> nth_error (upd_params c j ps) j = Some (mk_codec_param (cp_name e) (cp_id e) ps).
Proof. intros E. rewrite (upd_params_nth _ _ _ _ E). eapply nth_error_upd, E. Qed.

(** The state in which entry [j] of the connection has the parameters [ps]. *)
Definition with_params (c : list CodecParameter) (j : nat) (t : Tables) (ps : list CipherParams) : Tables :=
  set_target (upd_params c j ps) t.

Lemma version_step c j e t ps name dflt name' i v :
  codec_index c (str "sqlcipher") = Some j -> nth_error c j = Some e ->
  prefixes name = (dflt, false, false, name') -> stricmp name' (str "legacy") = false ->
  param_index ps name' = Some i -> 0 <= v ->
  m_minValue (nth i ps no_param) <= v <= m_maxValue (nth i ps no_param) ->
  checkParameterValue name' v (str "sqlcipher") = true ->
  snd (config_cipher_with (fun _ t _ => t) true (with_params c j t ps) (Some (str "sqlcipher")) (Some name) v) =
  with_params c j t (upd ps i (store dflt v (nth i ps no_param))).
Proof.
  intros J E P L I V B K.
  rewrite (config_cipher_accept _ (with_params c j t ps) (upd_params c j ps) j
             (mk_codec_param (cp_name e) (cp_id e) ps) _ _ dflt name' i v eq_refl); auto; [|now rewrite codec_index_upd|now apply nth_error_upd_params].
  cbn [snd cp_params]. unfold with_params, set_target. cbn. now rewrite upd_params_twice.
Qed.

(** The values that a version sets, the version included. *)
Definition version_values (v : Z) : list (list Z * Z) :=
  (str "legacy", v) :: combine version_names (nth (Z.to_nat (v - 1)) versionParams []).

Definition assigned (l : list (list Z * Z)) (name : list Z) : option Z :=
  option_map snd (find (fun '(n, _) => stricmp n name) l).

Definition version_params (dflt : bool) (v : Z) (ps : list CipherParams) : list CipherParams :=
  map (fun p => match assigned (version_values v) (m_name p) with Some x => store dflt x p | None => p end) ps.

(** Parameters with the names and the bounds of another table. *)
Definition shape (ps : list CipherParams) : list (list Z * Z * Z) :=
  map (fun p => (m_name p, m_minValue p, m_maxValue p)) ps.

Lemma with_params_id c j e t : connectionTable t = Some c -> nth_error c j = Some e -> with_params c j t (cp_params e) = t.
Proof.
  intros C E. unfold with_params, set_target. rewrite (upd_params_nth _ _ _ _ E).
  replace (upd c j _) with c; [destruct t; cbn in *; congruence|].
  revert j E. clear. induction c as [|x c IH]; intros [|j] E; try discriminate; cbn [upd].
  - injection E as ->. now destruct e.
  - f_equal. now apply IH.
Qed.

(** The five calls, on a table with the shape of the SQLCipher parameters. *)
Lemma configure_version dflt c j e t ps v :
  codec_index c (str "sqlcipher") = Some j -> nth_error c j = Some e -> shape ps = shape mcSQLCipherParams ->
  1 <= v <= SQLCIPHER_VERSION_MAX ->
  exists qs, sqlite3mcConfigureSQLCipherVersion dflt (with_params c j t ps) v = with_params c j t qs /\
    shape qs = shape ps /\ upd qs 0 (store dflt v (nth 0 qs no_param)) = version_params dflt v ps.
Proof.
  intros J E S V. unfold sqlite3mcConfigureSQLCipherVersion, SQLCIPHER_VERSION_MAX in *.
  replace ((v >? 0) && (v <=? 4)) with true by lia.
  destruct ps as [|p0 [|p1 [|p2 [|p3 [|p4 [|p5 [|p6 [|p7 [|p8 [|p9 [|p10 [|]]]]]]]]]]]]; try discriminate S.
  destruct p0, p1, p2, p3, p4, p5, p6, p7, p8, p9, p10. cbn in S. injection S. intros; subst.
  assert (Hv : v = 1 \/ v = 2 \/ v = 3 \/ v = 4) by lia.
  destruct dflt, Hv as [->|[->|[->| ->]]];
    (match goal with |- context [combine version_names ?X] =>
       let y := eval vm_compute in (combine version_names X) in change (combine version_names X) with y end);
    (eexists; split; [cbn [fold_left]; do 5 (erewrite (version_step c j e t); [|exact J|exact E|reflexivity|reflexivity|reflexivity|lia|cbn; unfold SQLITE_MAX_PAGE_SIZE; lia|reflexivity]);
      reflexivity
     |split; reflexivity]).
Qed.

(** ** Properties *)

(** The state after a successful initialisation. *)
Definition started : Tables :=
  Eval vm_compute in match sqlite3mc_initialize [] SQLITE_OK loaded with Some (_, t) => t | None => loaded end.

Definition opened : Tables :=
  Eval vm_compute in
  match mcRegisterCodecExtensions started true true no_param true SQLITE_OK with Some (_, t) => t | None => loaded end.

Lemma register_all_reachable strict mems rs t rc t' :
  reachable strict t -> register_all mems rs t = Some (rc, t') -> reachable strict t'.
Proof.
  revert mems t. induction rs as [|r rs IH]; intros mems t H; cbn [register_all]; [now intros [= _ <-]|].
  destruct (sqlite3mcRegisterCipher _ t r) as [[rc1 t1]|] eqn:E; [|discriminate].
  assert (H1 : reachable strict t1) by (eapply reach_step; [exact H|eapply step_register, E]).
  destruct (rc1 =? SQLITE_OK); [now apply IH|now intros [= _ <-]].
Qed.

Lemma started_reachable strict : reachable strict started.
Proof.
  apply (register_all_reachable strict [] builtin (sqlite3mcInitCipherTables loaded) SQLITE_OK); [constructor|].
  vm_compute. reflexivity.
Qed.

Lemma opened_reachable strict : reachable strict opened.
Proof.
  eapply reach_step; [apply started_reachable|].
  apply (step_open strict started true true no_param true SQLITE_OK SQLITE_OK). vm_compute. reflexivity.
Qed.

(** The configuration stays consistent.  After initialisation, whatever registrations,
    openings and closings of a connection, configuration calls and parameter readings
    follow, on any allocation outcomes: the ciphers are numbered 1, 2, ... up to the
    counter, which is at most 16, under names that differ also without regard to case;
    each parameter of each cipher, in the global table and in the connection's, has its
    value and its default within its bounds; and, unless a call of
    [sqlite3mc_config_cipher] named [global] as the cipher, the selected cipher of the
    connection is unknown or registered and the default of [hmac_check] is 1. *)
Theorem configuration_invariant strict t : reachable strict t -> tables_ok strict t.
Proof. apply tables_reachable. Qed.

Lemma configuration_invariant_witness : tables_ok true opened.
Proof. apply (configuration_invariant true opened), opened_reachable. Defined.

Lemma live_prefix strict t :
  tables_ok strict t ->
  exists l, ciphers_ok l /\ globalCipherCount t = Z.of_nat (length l) /\ live (cipherTable t) = l /\
            live (firstn (Z.to_nat (globalCipherCount t)) (cipherTable t)) = l.
Proof.
  intros [_ (l & L & E & _ & T) _]. exists l. split; [exact L|]. split; [exact E|].
  rewrite T, E, Nat2Z.id, firstn_app_l by reflexivity. split; [now apply live_app, L|].
  rewrite <- (app_nil_r l) at 1. apply (live_app l 0), L.
Qed.

(** In a list of distinct names the index of a name is its place. *)
Lemma codec_index_nth l i c name :
  names_ok l -> nth_error l i = Some c -> Forall (fun x => 0 < x) name -> fold_case name = fold_case (cp_name c) ->
  codec_index l name = Some i.
Proof.
  intros (N & M & _) E P F. clear - N M E P F. revert i E. induction l as [|x l IH]; intros i E; [now destruct i|].
  cbn in N. inversion N as [|? ? NI N']. inversion M as [|? ? (_ & Mx & _) M']. subst.
  unfold codec_index in *. cbn [find_index]. destruct i as [|i]; cbn in E.
  - injection E as ->. now rewrite (proj2 (stricmp_fold _ _ P Mx) F).
  - destruct (stricmp name (cp_name x)) eqn:S; [|now rewrite (IH N' M' i E)].
    exfalso. apply NI. apply stricmp_fold in S; auto. rewrite <- S, F.
    apply (in_map (fun c => fold_case (cp_name c))). eapply nth_error_In, E.
Qed.

(** Cipher numbers and cipher names are inverse to each other: the name of a number
    exists exactly for 1 up to the counter; looking up that name, in any case, yields the
    number; copying it to a buffer of sufficient size stores it with its terminating zero,
    and a smaller buffer is left alone and the required size returned. *)
Theorem cipher_index_name strict t i :
  reachable strict t ->
  (1 <= i <= globalCipherCount t <-> exists n, sqlite3mcFindCipherName t i = Some n) /\
  (forall n, sqlite3mcFindCipherName t i = Some n ->
     (forall m, Forall (fun x => 0 < x) m -> fold_case m = fold_case n -> sqlite3mc_cipher_index t m = i) /\
     (forall buffer size, Z.of_nat (length buffer) = size ->
        if size <=? Z.of_nat (length n)
        then sqlite3mc_cipher_name_copy t i buffer size = (- (Z.of_nat (length n) + 1), buffer)
        else sqlite3mc_cipher_name_copy t i buffer size =
             (1, n ++ repeat 0 (Z.to_nat size - length n)))).
Proof.
  intros R. destruct (live_prefix _ _ (tables_reachable _ _ R)) as (l & L & E & _ & P).
  unfold sqlite3mcFindCipherName. rewrite P. split.
  - destruct (_ && _) eqn:B; [|split; [lia|intros [n D]; discriminate D]]. split; [|lia]. intros _.
    destruct (nth_error l (Z.to_nat (i - 1))) as [c|] eqn:N; [now exists (cp_name c)|].
    apply nth_error_None in N. lia.
  - intros n F. destruct (_ && _) eqn:B; [|discriminate F].
    destruct (nth_error l _) as [c|] eqn:N; [|discriminate F]. injection F as <-. split.
    + intros m Pm Fm. unfold sqlite3mc_cipher_index. rewrite P, (codec_index_nth _ _ _ _ (ciphers_names _ L) N Pm Fm). lia.
    + intros buffer size S. unfold sqlite3mc_cipher_name_copy, sqlite3mcFindCipherName. rewrite P, B, N.
      cbn [option_map]. destruct (Z.leb_spec size (Z.of_nat (length (cp_name c)))) as [C|C].
      * replace (size >=? _) with false by lia. reflexivity.
      * replace (size >=? _) with true by lia. f_equal.
        apply (memcpy_app_end [] buffer); [reflexivity|]. rewrite length_app, repeat_length. lia.
Qed.

Lemma cipher_index_name_witness : sqlite3mc_cipher_index started (str "ChaCha20") = 3.
Proof.
  apply (proj2 (cipher_index_name true started 3 (started_reachable true)) (str "chacha20"));
    [reflexivity|repeat constructor|reflexivity].
Defined.

Lemma config_cipher_with_global configure db t cipher name v :
  (forall b t v, globalCodecParameterTable (configure b t v) = globalCodecParameterTable t) ->
  globalCodecParameterTable (snd (config_cipher_with configure db t cipher name v)) = globalCodecParameterTable t.
Proof.
  intros H. unfold config_cipher_with. destruct cipher, name; try reflexivity. destruct (_ && _); [reflexivity|].
  destruct (target db t); [|reflexivity]. destruct (codec_index _ _); [|reflexivity].
  destruct (prefixes _) as [[[b1 b2] b3] name']. cbn zeta.
  match goal with |- context [if ?X then configure _ _ _ else _] => destruct X end;
    (destruct (param_index _ name'); [|cbn [snd]; auto]);
    match goal with |- context [snd (if ?X then _ else _)] => destruct X end; cbn [snd]; auto.
  exact (H b1 t v).
Qed.

(** A connection starts with an exact copy of the global parameters.  Whatever the
    allocated memory held, the array of copied parameters with its offsets and sentinels
    reads back as the global table; without memory for the entries there is no copy; with
    memory for the entries but none for the parameters the code writes through a null
    pointer.  Later changes of the connection leave the global table alone. *)
Theorem connection_copy strict t garbage :
  reachable strict t ->
  (exists m, sqlite3mcCloneCodecParameterTable t true true garbage = Some (Some m) /\
             read_clone m = globalCodecParameterTable t) /\
  (forall p, sqlite3mcCloneCodecParameterTable t p false garbage = Some None) /\
  sqlite3mcCloneCodecParameterTable t false true garbage = None /\
  (forall db cipher name v,
     globalCodecParameterTable (snd (sqlite3mc_config_cipher db t cipher name v)) = globalCodecParameterTable t).
Proof.
  intros R. pose proof (tables_reachable _ _ R) as T. split; [|split; [|split]]; try reflexivity.
  - eexists. split; [reflexivity|]. now apply (clone_read strict t garbage _ T).
  - intros. apply config_cipher_with_global. intros b t' x. apply (version_fold_inv
      (fun s => globalCodecParameterTable s = globalCodecParameterTable t')); [|reflexivity].
    intros s n y <-. now apply config_cipher_with_global.
Qed.

Lemma connection_copy_witness :
  exists m, sqlite3mcCloneCodecParameterTable started true true no_param = Some (Some m) /\
            read_clone m = globalCodecParameterTable started.
Proof. apply (connection_copy true started no_param (started_reachable true)). Defined.

(** Selecting a SQLCipher version.  On a connection whose table has the SQLCipher
    parameters, setting [legacy] to a version from 1 to 4 succeeds and sets that version
    and the page size, the iteration count, the use of HMACs and the two algorithms to the
    values of the version, also as defaults with the prefix [default:]; all other
    parameters, and all other ciphers, are unchanged. *)
Theorem sqlcipher_version t c j e v (dflt : bool) :
  connectionTable t = Some c -> codec_index c (str "sqlcipher") = Some j -> nth_error c j = Some e ->
  shape (cp_params e) = shape mcSQLCipherParams -> 1 <= v <= SQLCIPHER_VERSION_MAX ->
  sqlite3mc_config_cipher true t (Some (str "sqlcipher"))
      (Some (if dflt then str "default:legacy" else str "legacy")) v =
  (v, set_target (upd_params c j (version_params dflt v (cp_params e))) t).
Proof.
  intros C J E S V. rewrite <- (with_params_id c j e t C E) at 1. set (ps := cp_params e) in *.
  destruct (configure_version dflt c j e t ps v J E S V) as (qs & Q & Sq & U).
  unfold sqlite3mc_config_cipher, config_cipher_with.
  assert (P : prefixes (if dflt then str "default:legacy" else str "legacy") = (dflt, false, false, str "legacy"))
    by now destruct dflt.
  cbn [negb andb target connectionTable with_params set_target]. rewrite codec_index_upd, J, P.
  replace (v >? 0) with true by lia. replace (v <=? SQLCIPHER_VERSION_MAX) with true by lia.
  change (stricmp (str "sqlcipher") (str "sqlcipher")) with true. change (stricmp (str "legacy") (str "legacy")) with true.
  cbn [negb andb]. fold (with_params c j t ps). rewrite Q. cbn [connectionTable with_params set_target].
  rewrite (nth_error_nth _ _ globalSentinelParams (nth_error_upd_params c j e qs E)). cbn [cp_params].
  rewrite S in Sq. destruct qs as [|q qs]; [discriminate Sq|]. injection Sq as N M X _.
  unfold param_index. cbn [find_index nth]. rewrite N. change (stricmp (str "legacy") (str "legacy")) with true.
  cbn [find_index nth option_map]. rewrite M, X.
  unfold SQLCIPHER_VERSION_MAX in V. replace (v >=? 0) with true by lia. replace (v <=? 4) with true by lia.
  change (checkParameterValue (str "legacy") v (str "sqlcipher")) with true. cbn [negb andb].
  rewrite <- U. unfold set_target. cbn. now rewrite upd_params_twice.
Qed.

Lemma sqlcipher_version_witness :
  exists c, fst (sqlite3mc_config_cipher true opened (Some (str "sqlcipher")) (Some (str "legacy")) 3) = 3 /\
    connectionTable (snd (sqlite3mc_config_cipher true opened (Some (str "sqlcipher")) (Some (str "legacy")) 3)) =
      Some (upd_params c 4 (version_params false 3 mcSQLCipherParams)).
Proof.
  eexists. rewrite (sqlcipher_version opened (globalCodecParameterTable started) 4
      (mk_codec_param (str "sqlcipher") 4 mcSQLCipherParams) 3 false);
    [|reflexivity|reflexivity|reflexivity|reflexivity|unfold SQLCIPHER_VERSION_MAX; lia].
  split; reflexivity.
Defined.

(** ** Deviations *)

(** [sqlite3mc_config_cipher] accepts [global] as a cipher name and then lacks the checks of
    [sqlite3mc_config]: a cipher that is not registered can be selected, and the default of
    [hmac_check] can be changed. *)
Lemma unregistered_cipher_selected :
  exists t, reachable false t /\ globalCipherCount t = 7 /\ fst (sqlite3mcGetCipherType true t) = 16 /\
    sqlite3mcFindCipherName t 16 = None /\ fst (sqlite3mc_config true t (Some (str "default:hmac_check")) (-1)) = 0 /\
    fst (sqlite3mc_config true opened (Some (str "cipher")) 16) = 3.
Proof.
  set (t1 := snd (sqlite3mc_config_cipher true opened (Some (str "global")) (Some (str "cipher")) 16)).
  exists (snd (sqlite3mc_config_cipher true t1 (Some (str "global")) (Some (str "default:hmac_check")) 0)).
  split; [|vm_compute; repeat split].
  eapply reach_step; [eapply reach_step; [apply opened_reachable|]|]; apply step_config_cipher; discriminate.
Qed.

(** The counter survives an initialisation that fails after its first registrations.  The
    next one succeeds, but starts behind a sentinel: no cipher is found by its name. *)
Lemma retried_initialisation_finds_no_cipher :
  let no_memory := [(fun _ => true); (fun _ => false)] in
  match sqlite3mc_initialize no_memory SQLITE_OK loaded with
  | Some (rc, t) =>
      rc = SQLITE_NOMEM /\
      match sqlite3mc_initialize [] SQLITE_OK t with
      | Some (rc, t) => rc = SQLITE_OK /\ globalCipherCount t = 8 /\
          forallb (fun r => match desc_name r with Some n => sqlite3mc_cipher_index t n =? -1 | None => false end)
                  builtin = true
      | None => False
      end
  | None => False
  end.
Proof. vm_compute. repeat split. Qed.
