(* ===== verification/Codec.v ===== *)
(** * The codec of a database (cipher_common.c)

    The codec holds a read and a write cipher with their types, and calls the operations
    of the registered ciphers through the descriptor table.  The cipher objects are of one
    type [V]; a table entry is a cipher descriptor over [V] with its laws.  The fields
    [m_db] and [m_btShared] are pointers to the connection and to the B-tree: what the code
    reads through them is part of the environment.  [None] stands for a call through a
    null pointer, an access beyond the descriptor table or an aborted generator. *)

From Stdlib Require Import ZArith Lia List Bool.
From Stdlib Require Strings.String Strings.Ascii.
From S2P Require Import Prelude CodecAlgos CipherCommon CipherConfig.
Import ListNotations.
Import Strings.String.StringSyntax.
Local Open Scope Z_scope.

Declare Scope codec_scope.
Delimit Scope codec_scope with codec.
Notation "'let*' p ':=' e 'in' k" := (match e with Some p => k | None => None end)
  (at level 10, p pattern, e at level 200, k at level 200) : codec_scope.
Open Scope codec_scope.

Definition KEYSALT_LENGTH : nat := 16.

(** A registered cipher: its name, its descriptor and what it promises. *)
Record Cipher (V G : Type) := mk_cipher {
  c_name : list Z;
  c_desc : CipherDescriptor V G;
  c_page : PageCipher c_desc;
  c_keys : @CipherKeys V G c_desc c_page }.

Arguments c_name {V G}.
Arguments c_desc {V G}.
Arguments c_page {V G}.
Arguments c_keys {V G}.

#[export] Existing Instances c_page c_keys.

Record Codec (V : Type) := mk_codec {
  m_isEncrypted : Z; m_hmacCheck : Z; m_walLegacy : Z;
  m_hasReadCipher : Z; m_readCipherType : Z; m_readCipher : option V; m_readReserved : Z;
  m_hasWriteCipher : Z; m_writeCipherType : Z; m_writeCipher : option V; m_writeReserved : Z;
  m_page : list Z; m_pageSize : Z; m_reserved : Z; m_lastError : Z;
  m_hasKeySalt : Z; m_keySalt : list Z }.

Arguments mk_codec {V}.
Arguments m_isEncrypted {V}. Arguments m_hmacCheck {V}. Arguments m_walLegacy {V}.
Arguments m_hasReadCipher {V}. Arguments m_readCipherType {V}. Arguments m_readCipher {V}. Arguments m_readReserved {V}.
Arguments m_hasWriteCipher {V}. Arguments m_writeCipherType {V}. Arguments m_writeCipher {V}. Arguments m_writeReserved {V}.
Arguments m_page {V}. Arguments m_pageSize {V}. Arguments m_reserved {V}. Arguments m_lastError {V}.
Arguments m_hasKeySalt {V}. Arguments m_keySalt {V}.

(** The configuration tables, the random generator, the outcomes of the coming
    allocations of cipher objects (success when the list is used up), and the first sixteen
    bytes of the database file, if they can be read. *)
Record Env (G : Type) := mk_env {
  e_tables : Tables; e_gen : G; e_malloc : list bool; e_header : option (list Z) }.

Arguments mk_env {G}. Arguments e_tables {G}. Arguments e_gen {G}. Arguments e_malloc {G}. Arguments e_header {G}.

(** ** Setters *)

Definition sqlite3mcSetIsEncrypted {V} (x : Z) (c : Codec V) : Codec V :=
  mk_codec x (m_hmacCheck c) (m_walLegacy c) (m_hasReadCipher c) (m_readCipherType c) (m_readCipher c) (m_readReserved c)
    (m_hasWriteCipher c) (m_writeCipherType c) (m_writeCipher c) (m_writeReserved c)
    (m_page c) (m_pageSize c) (m_reserved c) (m_lastError c) (m_hasKeySalt c) (m_keySalt c).
Definition set_checks {V} (hmacCheck walLegacy : Z) (c : Codec V) : Codec V :=
  mk_codec (m_isEncrypted c) hmacCheck walLegacy (m_hasReadCipher c) (m_readCipherType c) (m_readCipher c) (m_readReserved c)
    (m_hasWriteCipher c) (m_writeCipherType c) (m_writeCipher c) (m_writeReserved c)
    (m_page c) (m_pageSize c) (m_reserved c) (m_lastError c) (m_hasKeySalt c) (m_keySalt c).
Definition set_read {V} (has type : Z) (cipher : option V) (reserved : Z) (c : Codec V) : Codec V :=
  mk_codec (m_isEncrypted c) (m_hmacCheck c) (m_walLegacy c) has type cipher reserved
    (m_hasWriteCipher c) (m_writeCipherType c) (m_writeCipher c) (m_writeReserved c)
    (m_page c) (m_pageSize c) (m_reserved c) (m_lastError c) (m_hasKeySalt c) (m_keySalt c).
Definition set_write {V} (has type : Z) (cipher : option V) (reserved : Z) (c : Codec V) : Codec V :=
  mk_codec (m_isEncrypted c) (m_hmacCheck c) (m_walLegacy c) (m_hasReadCipher c) (m_readCipherType c) (m_readCipher c)
    (m_readReserved c) has type cipher reserved
    (m_page c) (m_pageSize c) (m_reserved c) (m_lastError c) (m_hasKeySalt c) (m_keySalt c).
Definition set_page {V} (page : list Z) (c : Codec V) : Codec V :=
  mk_codec (m_isEncrypted c) (m_hmacCheck c) (m_walLegacy c) (m_hasReadCipher c) (m_readCipherType c) (m_readCipher c)
    (m_readReserved c) (m_hasWriteCipher c) (m_writeCipherType c) (m_writeCipher c) (m_writeReserved c)
    page (m_pageSize c) (m_reserved c) (m_lastError c) (m_hasKeySalt c) (m_keySalt c).
Definition sqlite3mcCodecSizeChange {V} (pageSize reservedSize : Z) (c : Codec V) : Codec V :=
  mk_codec (m_isEncrypted c) (m_hmacCheck c) (m_walLegacy c) (m_hasReadCipher c) (m_readCipherType c) (m_readCipher c)
    (m_readReserved c) (m_hasWriteCipher c) (m_writeCipherType c) (m_writeCipher c) (m_writeReserved c)
    (m_page c) pageSize reservedSize (m_lastError c) (m_hasKeySalt c) (m_keySalt c).
Definition sqlite3mcSetCodecLastError {V} (error : Z) (c : Codec V) : Codec V :=
  mk_codec (m_isEncrypted c) (m_hmacCheck c) (m_walLegacy c) (m_hasReadCipher c) (m_readCipherType c) (m_readCipher c)
    (m_readReserved c) (m_hasWriteCipher c) (m_writeCipherType c) (m_writeCipher c) (m_writeReserved c)
    (m_page c) (m_pageSize c) (m_reserved c) error (m_hasKeySalt c) (m_keySalt c).
Definition set_key_salt {V} (has : Z) (salt : list Z) (c : Codec V) : Codec V :=
  mk_codec (m_isEncrypted c) (m_hmacCheck c) (m_walLegacy c) (m_hasReadCipher c) (m_readCipherType c) (m_readCipher c)
    (m_readReserved c) (m_hasWriteCipher c) (m_writeCipherType c) (m_writeCipher c) (m_writeReserved c)
    (m_page c) (m_pageSize c) (m_reserved c) (m_lastError c) has salt.

Definition sqlite3mcSetReadCipherType {V} (x : Z) (c : Codec V) : Codec V :=
  set_read (m_hasReadCipher c) x (m_readCipher c) (m_readReserved c) c.
Definition sqlite3mcSetWriteCipherType {V} (x : Z) (c : Codec V) : Codec V :=
  set_write (m_hasWriteCipher c) x (m_writeCipher c) (m_writeReserved c) c.
Definition sqlite3mcSetHasReadCipher {V} (x : Z) (c : Codec V) : Codec V :=
  set_read x (m_readCipherType c) (m_readCipher c) (m_readReserved c) c.
Definition sqlite3mcSetHasWriteCipher {V} (x : Z) (c : Codec V) : Codec V :=
  set_write x (m_writeCipherType c) (m_writeCipher c) (m_writeReserved c) c.
Definition sqlite3mcSetReadReserved {V} (x : Z) (c : Codec V) : Codec V :=
  set_read (m_hasReadCipher c) (m_readCipherType c) (m_readCipher c) x c.
Definition sqlite3mcSetWriteReserved {V} (x : Z) (c : Codec V) : Codec V :=
  set_write (m_hasWriteCipher c) (m_writeCipherType c) (m_writeCipher c) x c.
Definition sqlite3mcClearKeySalt {V} (c : Codec V) : Codec V := set_key_salt 0 (memset 0 KEYSALT_LENGTH) c.

(** The state after [sqlite3mcCodecInit]. *)
Definition sqlite3mcCodecInit {V} : Codec V :=
  mk_codec 0 1 0 0 CODEC_TYPE_UNKNOWN None (-1) 0 CODEC_TYPE_UNKNOWN None (-1)
    (memset 0 (Z.to_nat (SQLITE_MAX_PAGE_SIZE + 24))) 0 0 SQLITE_OK 0 (memset 0 KEYSALT_LENGTH).

(** ** Parameters of a cipher *)

(** The parameters that [sqlite3mcGetCipherParams] returns a pointer to, and the tables
    after they were written through it. *)
Definition params_slot (t : Tables) (cipherName : list Z) : option (list CipherParams * (list CipherParams -> Tables)) :=
  let cipherType := sqlite3mc_cipher_index t cipherName in
  match connectionTable t with
  | Some c =>
      let* j := if cipherType >? 0 then option_map S (find_index (fun e => cp_id e =? cipherType) (tl c)) else Some O in
      let* e := nth_error c j in
      Some (cp_params e, fun ps => set_target (upd_params c j ps) t)
  | None =>
      if cipherType >? 0 then
        let* j := find_index (fun e => cp_id e =? cipherType) (live (cipherTable t)) in
        let* e := nth_error (cipherTable t) j in
        Some (cp_params e, fun ps => mk_tables (commonParams_mem t) (upd_params (cipherTable t) j ps)
                                       (globalCipherCount t) (connectionTable t))
      else Some (commonParams_mem t,
                 fun ps => mk_tables ps (cipherTable t) (globalCipherCount t) (connectionTable t))
  end.

(** The two common parameters that a codec takes over. *)
Definition read_checks {G} (env : Env G) : option (Z * Z * Env G) :=
  let* (ps, put) := params_slot (e_tables env) (str "global") in
  let '(hmacCheck, ps) := sqlite3mcGetCipherParameter ps (str "hmac_check") in
  let '(walLegacy, ps) := sqlite3mcGetCipherParameter ps (str "mc_legacy_wal") in
  Some (hmacCheck, walLegacy, mk_env (put ps) (e_gen env) (e_malloc env) (e_header env)).

Section Codec.
Context {V G : Type} (table : list (Cipher V G)).

(** [globalCodecDescriptorTable[cipherType-1]]. *)
Definition descriptor (cipherType : Z) : option (Cipher V G) :=
  if cipherType >? 0 then nth_error table (Z.to_nat (cipherType - 1)) else None.

(** [m_allocateCipher(db)]: the object, if there is memory.  Its settings are read from the
    parameters of the connection. *)
Definition allocate (cipherType : Z) (env : Env G) : option (option V * Env G) :=
  let* d := descriptor cipherType in
  let env' := mk_env (e_tables env) (e_gen env) (tl (e_malloc env)) (e_header env) in
  if hd true (e_malloc env) then
    let* (ps, put) := params_slot (e_tables env) (c_name d) in
    let '(c, ps) := m_allocateCipher (c_desc d) ps in
    Some (Some c, mk_env (put ps) (e_gen env') (e_malloc env') (e_header env'))
  else Some (None, env').

(** [m_cloneCipher(to, from)]. *)
Definition clone (cipherType : Z) (to : V) (from : option V) : option (V * V) :=
  let* d := descriptor cipherType in
  let* from := from in
  Some (m_cloneCipher (c_desc d) to from).

(** [m_freeCipher(cipher)], for an object that exists. *)
Definition release (cipherType : Z) (cipher : option V) : option unit :=
  match cipher with
  | Some _ => let* _ := descriptor cipherType in Some tt
  | None => Some tt
  end.

(** ** Getters *)

Definition getter {A} (has cipherType : Z) (cipher : option V) (get : CipherDescriptor V G -> V -> A) (none : A)
    : option A :=
  if negb (has =? 0) then
    match cipher with
    | Some c => let* d := descriptor cipherType in Some (get (c_desc d) c)
    | None => Some none
    end
  else Some none.

Definition sqlite3mcGetLegacyReadCipher (c : Codec V) : option Z :=
  getter (m_hasReadCipher c) (m_readCipherType c) (m_readCipher c) m_getLegacy 0.
Definition sqlite3mcGetLegacyWriteCipher (c : Codec V) : option Z :=
  getter (m_hasWriteCipher c) (m_writeCipherType c) (m_writeCipher c) m_getLegacy (-1).
Definition sqlite3mcGetPageSizeReadCipher (c : Codec V) : option Z :=
  getter (m_hasReadCipher c) (m_readCipherType c) (m_readCipher c) m_getPageSize (-1).
Definition sqlite3mcGetPageSizeWriteCipher (c : Codec V) : option Z :=
  getter (m_hasWriteCipher c) (m_writeCipherType c) (m_writeCipher c) m_getPageSize (-1).
Definition sqlite3mcGetReservedReadCipher (c : Codec V) : option Z :=
  getter (m_hasReadCipher c) (m_readCipherType c) (m_readCipher c) m_getReserved (-1).
Definition sqlite3mcGetReservedWriteCipher (c : Codec V) : option Z :=
  getter (m_hasWriteCipher c) (m_writeCipherType c) (m_writeCipher c) m_getReserved (-1).
Definition sqlite3mcReservedEqual (c : Codec V) : option bool :=
  let* readReserved := sqlite3mcGetReservedReadCipher c in
  let* writeReserved := sqlite3mcGetReservedWriteCipher c in
  Some (readReserved =? writeReserved).
Definition sqlite3mcGetSaltWriteCipher (c : Codec V) : option (option (list Z)) :=
  getter (m_hasWriteCipher c) (m_writeCipherType c) (m_writeCipher c) m_getSalt None.

(** ** Copies of ciphers *)

Definition sqlite3mcCopyCipher (c : Codec V) (read2write : bool) (env : Env G) : option (Z * Codec V * Env G) :=
  if read2write then
    let same := m_writeCipherType c =? m_readCipherType c in
    let* _ := if same then Some tt else release (m_writeCipherType c) (m_writeCipher c) in
    let old := if same then m_writeCipher c else None in
    let* (type, w, env) :=
      match old with
      | Some w => Some (m_writeCipherType c, Some w, env)
      | None => let* (w, env) := allocate (m_readCipherType c) env in Some (m_readCipherType c, w, env)
      end in
    match w with
    | Some w =>
        let* (w, r) := clone type w (m_readCipher c) in
        Some (SQLITE_OK, set_read (m_hasReadCipher c) (m_readCipherType c) (Some r) (m_readReserved c)
                           (set_write (m_hasWriteCipher c) type (Some w) (m_writeReserved c) c), env)
    | None => Some (SQLITE_NOMEM, set_write (m_hasWriteCipher c) type None (m_writeReserved c) c, env)
    end
  else
    let same := m_readCipherType c =? m_writeCipherType c in
    let* _ := if same then Some tt else release (m_readCipherType c) (m_readCipher c) in
    let old := if same then m_readCipher c else None in
    let* (type, r, env) :=
      match old with
      | Some r => Some (m_readCipherType c, Some r, env)
      | None => let* (r, env) := allocate (m_writeCipherType c) env in Some (m_writeCipherType c, r, env)
      end in
    match r with
    | Some r =>
        let* (r, w) := clone type r (m_writeCipher c) in
        Some (SQLITE_OK, set_write (m_hasWriteCipher c) (m_writeCipherType c) (Some w) (m_writeReserved c)
                           (set_read (m_hasReadCipher c) type (Some r) (m_readReserved c) c), env)
    | None => Some (SQLITE_NOMEM, set_read (m_hasReadCipher c) type None (m_readReserved c) c, env)
    end.

(** The new copy, and the codec that it was copied from, whose objects cloning may change. *)
Definition sqlite3mcCodecCopy (codec other : Codec V) (env : Env G) : option (Z * Codec V * Codec V * Env G) :=
  let* (rc1, r, r', env) :=
    if negb (m_hasReadCipher other =? 0) then
      let* (r, env) := allocate (m_readCipherType other) env in
      match r with
      | Some r => let* (r, r') := clone (m_readCipherType other) r (m_readCipher other) in
                  Some (SQLITE_OK, Some r, Some r', env)
      | None => Some (SQLITE_NOMEM, None, m_readCipher other, env)
      end
    else Some (SQLITE_OK, None, m_readCipher other, env) in
  let* (rc2, w, w', env) :=
    if negb (m_hasWriteCipher other =? 0) then
      let* (w, env) := allocate (m_writeCipherType other) env in
      match w with
      | Some w => let* (w, w') := clone (m_writeCipherType other) w (m_writeCipher other) in
                  Some (rc1, Some w, Some w', env)
      | None => Some (SQLITE_NOMEM, None, m_writeCipher other, env)
      end
    else Some (rc1, None, m_writeCipher other, env) in
  let codec := sqlite3mcSetIsEncrypted (m_isEncrypted other) (set_checks (m_hmacCheck other) (m_walLegacy other) codec) in
  let codec := set_read (m_hasReadCipher other) (m_readCipherType other) r (m_readReserved other) codec in
  let codec := set_write (m_hasWriteCipher other) (m_writeCipherType other) w (m_writeReserved other) codec in
  let other := set_read (m_hasReadCipher other) (m_readCipherType other) r' (m_readReserved other) other in
  let other := set_write (m_hasWriteCipher other) (m_writeCipherType other) w' (m_writeReserved other) other in
  Some (rc2, sqlite3mcSetCodecLastError SQLITE_OK codec, other, env).

(** ** Keys *)

Definition generate (cipherType : Z) (cipher : option V) (password : list Z) (rekey : Z) (salt : option (list Z))
    (env : Env G) : option (V * Env G) :=
  let* d := descriptor cipherType in
  let* c := cipher in
  let* (c, g) := m_generateKey (c_desc d) c password rekey salt (e_gen env) in
  Some (c, mk_env (e_tables env) g (e_malloc env) (e_header env)).

Definition sqlite3mcGenerateReadKey (c : Codec V) (password : list Z) (cipherSalt : option (list Z)) (env : Env G)
    : option (Codec V * Env G) :=
  let salt := match cipherSalt with None => e_header env | Some s => Some s end in
  let* (r, env) := generate (m_readCipherType c) (m_readCipher c) password 0 salt env in
  Some (set_read (m_hasReadCipher c) (m_readCipherType c) (Some r) (m_readReserved c) c, env).

Definition sqlite3mcGenerateWriteKey (c : Codec V) (password : list Z) (cipherSalt : option (list Z)) (usesWal : bool)
    (env : Env G) : option (Codec V * Env G) :=
  let salt := match cipherSalt with None => e_header env | Some s => Some s end in
  let* (w, env) := generate (m_writeCipherType c) (m_writeCipher c) password (if usesWal then 2 else 1) salt env in
  Some (set_write (m_hasWriteCipher c) (m_writeCipherType c) (Some w) (m_writeReserved c) c, env).

Definition key_salt (c : Codec V) : option (list Z) := if negb (m_hasKeySalt c =? 0) then Some (m_keySalt c) else None.

Definition sqlite3mcCodecSetup (c : Codec V) (cipherType : Z) (password : list Z) (env : Env G)
    : option (Z * Codec V * Env G) :=
  if cipherType <=? CODEC_TYPE_UNKNOWN then Some (SQLITE_ERROR, c, env)
  else
    let* (hmacCheck, walLegacy, env) := read_checks env in
    let* (r, env) := allocate cipherType env in
    let c := sqlite3mcSetIsEncrypted 1 (set_checks hmacCheck walLegacy c) in
    let c := sqlite3mcSetHasWriteCipher 1 (set_read 1 cipherType r (m_readReserved c) c) in
    match r with
    | Some _ =>
        let* (c, env) := sqlite3mcGenerateReadKey c password (key_salt c) env in
        sqlite3mcCopyCipher c true env
    | None => Some (SQLITE_NOMEM, c, env)
    end.

Definition sqlite3mcSetupWriteCipher (c : Codec V) (cipherType : Z) (password : list Z) (usesWal : bool) (env : Env G)
    : option (Z * Codec V * Env G) :=
  if cipherType <=? CODEC_TYPE_UNKNOWN then Some (SQLITE_ERROR, c, env)
  else
    let* _ := release (m_writeCipherType c) (m_writeCipher c) in
    let* (hmacCheck, walLegacy, env) := read_checks env in
    let* (w, env) := allocate cipherType env in
    let c := sqlite3mcSetIsEncrypted 1 (set_checks hmacCheck walLegacy c) in
    let c := set_write 1 cipherType w (m_writeReserved c) c in
    match w with
    | Some _ =>
        let* (c, env) := sqlite3mcGenerateWriteKey c password (key_salt c) usesWal env in
        Some (SQLITE_OK, c, env)
    | None => Some (SQLITE_NOMEM, c, env)
    end.

(** ** Pages *)

Definition sqlite3mcEncrypt (c : Codec V) (page : Z) (data : list Z) (useWriteKey : bool) (env : Env G)
    : option (Z * Codec V * list Z * Env G) :=
  let cipherType := if useWriteKey then m_writeCipherType c else m_readCipherType c in
  let reserved := if useWriteKey then (if m_writeReserved c >=? 0 then m_writeReserved c else m_reserved c)
                  else (if m_readReserved c >=? 0 then m_readReserved c else m_reserved c) in
  let* d := descriptor cipherType in
  let* v := if useWriteKey then m_writeCipher c else m_readCipher c in
  let* (rc, v, data, g) := m_encryptPage (c_desc d) v page data reserved (e_gen env) in
  Some (rc, (if useWriteKey then set_write (m_hasWriteCipher c) cipherType (Some v) (m_writeReserved c) c
             else set_read (m_hasReadCipher c) cipherType (Some v) (m_readReserved c) c),
        data, mk_env (e_tables env) g (e_malloc env) (e_header env)).

Definition sqlite3mcDecrypt (c : Codec V) (page : Z) (data : list Z) : option (Z * Codec V * list Z) :=
  let reserved := if m_readReserved c >=? 0 then m_readReserved c else m_reserved c in
  let* d := descriptor (m_readCipherType c) in
  let* v := m_readCipher c in
  let* (rc, v, data) := m_decryptPage (c_desc d) v page data reserved (m_hmacCheck c) in
  Some (rc, set_read (m_hasReadCipher c) (m_readCipherType c) (Some v) (m_readReserved c) c, data).

End Codec.

(** * Proofs *)

Section Proofs.
Context {V G : Type} (table : list (Cipher V G)).

(** ** The parameters are found *)

(** The descriptor table holds the first registered ciphers, and the connection, if it has a
    table of its own, was opened after their registration. *)
Definition registered (t : Tables) : Prop :=
  exists l k, cipherTable t = l ++ repeat globalSentinelParams k /\ names_ok l /\
    globalCipherCount t = Z.of_nat (length l) /\ firstn (length table) (map cp_name l) = map c_name table /\
    forall c, connectionTable t = Some c ->
      exists g rest, c = g :: rest /\ map cp_id rest = map Z.of_nat (seq 1 (length rest)) /\
                     (length table <= length rest)%nat.

Lemma reachable_registered strict t :
  reachable strict t -> firstn (length table) (map cp_name (live (cipherTable t))) = map c_name table ->
  (forall c, connectionTable t = Some c -> (length table < length c)%nat) -> registered t.
Proof.
  intros R N C. destruct (tables_reachable _ _ R) as [_ (l & L & E & _ & T) K].
  destruct L as (L1 & L2 & L3 & _). exists l, (Z.to_nat CODEC_COUNT_MAX + 1 - length l)%nat.
  rewrite T, live_app in N by exact L2. split; [exact T|]. split; [now split; [|split]|].
  split; [exact E|]. split; [exact N|]. intros c H. specialize (C c H).
  destruct (K c H) as (g & rest & -> & _ & _ & (_ & _ & I & _) & _). exists g, rest.
  split; [reflexivity|]. split; [exact I|]. cbn in C. lia.
Qed.

Lemma find_id l i : map cp_id l = map Z.of_nat (seq 1 (length l)) -> (i < length l)%nat ->
  find_index (fun e => cp_id e =? Z.of_nat i + 1) l = Some i.
Proof.
  assert (A : forall b l, map cp_id l = map Z.of_nat (seq b (length l)) -> forall i, (i < length l)%nat ->
             find_index (fun e => cp_id e =? Z.of_nat (b + i)) l = Some i).
  { clear. intros b l. revert b. induction l as [|x l IH]; intros b E i L; [easy|]. cbn in E. injection E as E1 E2.
    cbn [find_index]. rewrite E1. destruct i as [|i].
    - now rewrite Nat.add_0_r, Z.eqb_refl.
    - rewrite (proj2 (Z.eqb_neq (Z.of_nat b) (Z.of_nat (b + S i)))) by lia. cbn in L.
      replace (b + S i)%nat with (S b + i)%nat by lia. rewrite (IH (S b) E2 i) by lia. reflexivity. }
  intros E L. replace (Z.of_nat i + 1) with (Z.of_nat (1 + i)) by lia. now apply A.
Qed.

Lemma registered_live t l k :
  cipherTable t = l ++ repeat globalSentinelParams k -> names_ok l -> globalCipherCount t = Z.of_nat (length l) ->
  live (firstn (Z.to_nat (globalCipherCount t)) (cipherTable t)) = l /\ live (cipherTable t) = l.
Proof.
  intros T (_ & N & _) E. rewrite T, E, Nat2Z.id, firstn_app_l by reflexivity. split; [|now apply live_app].
  rewrite <- (app_nil_r l) at 1. now apply (live_app l 0).
Qed.

Lemma registered_index t i d :
  registered t -> nth_error table i = Some d -> sqlite3mc_cipher_index t (c_name d) = Z.of_nat i + 1 /\
  exists e, nth_error (cipherTable t) i = Some e /\ nth_error (live (cipherTable t)) i = Some e.
Proof.
  intros (l & k & T & N & E & H & _) D. destruct (registered_live _ _ _ T N E) as [F F'].
  assert (Li : (i < length table)%nat) by (apply nth_error_Some; congruence).
  assert (X : nth_error (map cp_name l) i = Some (c_name d)).
  { rewrite <- (map_nth_error c_name _ _ D), <- H. symmetry. now rewrite nth_error_firstn, (proj2 (Nat.ltb_lt _ _) Li). }
  rewrite nth_error_map in X. destruct (nth_error l i) as [e|] eqn:Ei; [|discriminate X]. injection X as X.
  assert (Ll : (i < length l)%nat) by (apply nth_error_Some; congruence).
  split; [|exists e; rewrite F', T, nth_error_app1; auto].
  unfold sqlite3mc_cipher_index. rewrite F, (codec_index_nth l i e); auto.
  - destruct N as (_ & M & _). eapply Forall_forall in M; [|eapply nth_error_In, Ei]. rewrite X in M. apply M.
  - now rewrite X.
Qed.

(** Writing parameters keeps the registration. *)
Lemma registered_connection t c j ps :
  registered t -> connectionTable t = Some c -> registered (set_target (upd_params c j ps) t).
Proof.
  intros (l & k & T & N & E & H & K) C. exists l, k. do 4 (split; [assumption|]). cbn. intros c' [= <-].
  destruct (K c C) as (g & rest & -> & I & L). destruct j as [|j].
  - exists (mk_codec_param (cp_name g) (cp_id g) ps), rest. auto.
  - exists g, (upd_params rest j ps). split; [unfold upd_params; cbn; now destruct (nth_error rest j)|].
    now rewrite upd_params_length, upd_params_keep by reflexivity.
Qed.

Lemma registered_global t j ps common :
  registered t -> (j < length (live (cipherTable t)))%nat ->
  registered (mk_tables common (upd_params (cipherTable t) j ps) (globalCipherCount t) (connectionTable t)).
Proof.
  intros (l & k & T & N & E & H & K) J. rewrite (proj2 (registered_live _ _ _ T N E)) in J.
  exists (upd_params l j ps), k. cbn. rewrite T, upd_params_app, upd_params_length by exact J.
  split; [reflexivity|]. split; [|split; [exact E|split; [|exact K]]].
  - destruct N as (N1 & N2 & N3). unfold names_ok. rewrite upd_params_length, !upd_params_keep by reflexivity.
    split; [exact N1|]. split; [|exact N3].
    apply Forall_map with (f := cp_name) (P := name_ok). rewrite upd_params_keep by reflexivity. now apply Forall_map.
  - now rewrite upd_params_keep by reflexivity.
Qed.

Lemma slot_cipher t i d :
  registered t -> nth_error table i = Some d ->
  exists ps put, params_slot t (c_name d) = Some (ps, put) /\ forall qs, registered (put qs).
Proof.
  intros R D. destruct (registered_index _ _ _ R D) as (X & e & T & L). unfold params_slot. rewrite X.
  replace (Z.of_nat i + 1 >? 0) with true by lia. pose proof R as (l & k & Tl & N & E & H & K).
  assert (Li : (i < length table)%nat) by (apply nth_error_Some; congruence).
  destruct (connectionTable t) as [c|] eqn:C.
  - destruct (K c eq_refl) as (g & rest & -> & I & Lr). cbn [tl]. rewrite find_id by (auto; lia). cbn [option_map nth_error].
    destruct (nth_error rest i) as [e'|] eqn:Ee; [|apply nth_error_None in Ee; lia].
    eexists. eexists. split; [reflexivity|]. intros qs. now apply registered_connection.
  - rewrite (proj2 (registered_live _ _ _ Tl N E)) in *.
    assert (Ll : (i < length l)%nat) by (apply nth_error_Some; congruence).
    rewrite find_id by (auto; apply N). rewrite T. eexists. eexists. split; [reflexivity|]. intros qs.
    rewrite <- C. apply registered_global; [exact R|]. now rewrite (proj2 (registered_live _ _ _ Tl N E)).
Qed.

(** No cipher is named [global]. *)
Lemma global_index t : registered t -> sqlite3mc_cipher_index t (str "global") = -1.
Proof.
  intros (l & k & T & N & E & _). unfold sqlite3mc_cipher_index. rewrite (proj1 (registered_live _ _ _ T N E)).
  destruct (codec_index l (str "global")) as [j|] eqn:J; [|reflexivity].
  destruct (find_index_some _ _ _ globalSentinelParams J) as [L S]. destruct N as (_ & N & _).
  eapply Forall_forall in N; [|apply nth_In, L]. destruct N as (_ & P & F). exfalso. apply F.
  symmetry. apply stricmp_fold in S; [exact S|repeat constructor|exact P].
Qed.

(** The settings that the parameters hold for a cipher. *)
Definition settings (t : Tables) (name : list Z) : option (list CipherParams) := option_map fst (params_slot t name).

Lemma slot_global t :
  registered t -> exists ps put, params_slot t (str "global") = Some (ps, put) /\
    forall qs, registered (put qs) /\
      forall i d, nth_error table i = Some d -> settings (put qs) (c_name d) = settings t (c_name d).
Proof.
  intros R. unfold params_slot at 1. rewrite (global_index t R). cbn [Z.gtb Z.compare].
  destruct (connectionTable t) as [c|] eqn:C.
  - pose proof R as (l & k & _ & _ & _ & _ & K). destruct (K c C) as (g & rest & -> & _). cbn [nth_error].
    eexists. eexists. split; [reflexivity|]. intros qs. split; [now apply registered_connection|]. intros i d D.
    destruct (registered_index _ _ _ R D) as (X & _). unfold settings, params_slot, sqlite3mc_cipher_index in *.
    cbn [connectionTable set_target cipherTable globalCipherCount upd_params nth_error upd tl]. rewrite X, C.
    replace (Z.of_nat i + 1 >? 0) with true by lia. cbn [tl].
    destruct (find_index _ rest) as [j|]; [|reflexivity]. cbn [option_map nth_error]. now destruct (nth_error rest j).
  - eexists. eexists. split; [reflexivity|]. intros qs. split.
    + destruct R as (l & k & R). exists l, k. cbn. now rewrite C in *.
    + intros i d D. destruct (registered_index _ _ _ R D) as (X & _).
      unfold settings, params_slot, sqlite3mc_cipher_index in *. cbn. rewrite X, C.
      replace (Z.of_nat i + 1 >? 0) with true by lia.
      destruct (find_index _ _) as [j|]; [|reflexivity]. now destruct (nth_error _ j).
Qed.

Lemma read_checks_ok (env : Env G) :
  registered (e_tables env) ->
  exists h w t, read_checks env = Some (h, w, mk_env t (e_gen env) (e_malloc env) (e_header env)) /\ registered t /\
    forall i d, nth_error table i = Some d -> settings t (c_name d) = settings (e_tables env) (c_name d).
Proof.
  intros R. destruct (slot_global _ R) as (ps & put & E & P). unfold read_checks. rewrite E.
  destruct (sqlite3mcGetCipherParameter ps _) as [h ps1]. destruct (sqlite3mcGetCipherParameter ps1 _) as [w ps2].
  exists h, w, (put ps2). auto.
Qed.

Lemma descriptor_nth type d : descriptor table type = Some d -> exists i, nth_error table i = Some d.
Proof. unfold descriptor. destruct (type >? 0); [eauto|discriminate]. Qed.

(** Allocation with the settings of the connection. *)
Lemma allocate_ok type d (env : Env G) :
  registered (e_tables env) -> descriptor table type = Some d ->
  exists ps t, settings (e_tables env) (c_name d) = Some ps /\ registered t /\
    allocate table type env =
      Some (if hd true (e_malloc env) then Some (fst (m_allocateCipher (c_desc d) ps)) else None,
            mk_env t (e_gen env) (tl (e_malloc env)) (e_header env)).
Proof.
  intros R D. destruct (descriptor_nth _ _ D) as (i & N). destruct (slot_cipher _ _ _ R N) as (ps & put & E & P).
  unfold allocate, settings. rewrite D, E. cbn [option_map fst e_gen e_malloc e_header].
  destruct (hd true (e_malloc env)).
  - exists ps, (put (snd (m_allocateCipher (c_desc d) ps))). split; [reflexivity|]. split; [apply P|].
    now destruct (m_allocateCipher (c_desc d) ps).
  - exists ps, (e_tables env). auto.
Qed.

(** ** The invariant of a codec *)

(** Both ciphers exist, are of the same type and have the same key. *)
Record codec_ok (type : Z) (d : Cipher V G) (c : Codec V) : Prop := mk_codec_ok {
  co_desc : descriptor table type = Some d;
  co_encrypted : m_isEncrypted c = 1;
  co_has : m_hasReadCipher c = 1 /\ m_hasWriteCipher c = 1;
  co_type : m_readCipherType c = type /\ m_writeCipherType c = type;
  co_ciphers : exists r w, m_readCipher c = Some r /\ m_writeCipher c = Some w /\
    pc_ready (d := c_desc d) r /\ pc_ready (d := c_desc d) w /\ pc_same (d := c_desc d) w r }.

(** The environment of a cipher: registered tables, a generator that delivers, and a header
    of sixteen bytes if there is one. *)
Definition env_ok (d : Cipher V G) (env : Env G) : Prop :=
  registered (e_tables env) /\ pc_gen (d := c_desc d) (e_gen env) /\ salt_ok (e_header env).

Lemma same_refl (d : Cipher V G) a : pc_same (d := c_desc d) a a.
Proof. apply (proj1 (pc_same_equiv (d := c_desc d))). Qed.
Lemma same_sym (d : Cipher V G) a b : pc_same (d := c_desc d) a b -> pc_same (d := c_desc d) b a.
Proof. apply (proj1 (proj2 (pc_same_equiv (d := c_desc d)))). Qed.
Lemma same_trans (d : Cipher V G) a b c :
  pc_same (d := c_desc d) a b -> pc_same (d := c_desc d) b c -> pc_same (d := c_desc d) a c.
Proof. apply (proj2 (proj2 (pc_same_equiv (d := c_desc d)))). Qed.

(** An environment in which only parameters were read and memory was allocated. *)
Definition kept (env env' : Env G) : Prop :=
  registered (e_tables env') /\ e_gen env' = e_gen env /\ e_header env' = e_header env.

Lemma kept_ok d env env' : env_ok d env -> kept env env' -> env_ok d env'.
Proof. intros (_ & A & B) (C & D & E). unfold env_ok. now rewrite D, E. Qed.

(** The outcome of an operation on codec [c] that leaves both ciphers with the key of the
    object [r], or reports that there is no memory. *)
Definition keyed (type : Z) (d : Cipher V G) (c : Codec V) (r : V) (env : Env G) (full : Prop)
    (res : option (Z * Codec V * Env G)) : Prop :=
  exists rc c' env', res = Some (rc, c', env') /\ kept env env' /\
    (full -> rc = SQLITE_OK /\ e_malloc env' = []) /\
    m_hmacCheck c' = m_hmacCheck c /\ m_reserved c' = m_reserved c /\ m_page c' = m_page c /\
    m_readReserved c' = m_readReserved c /\ m_writeReserved c' = m_writeReserved c /\
    (rc = SQLITE_OK \/ rc = SQLITE_NOMEM) /\
    (rc = SQLITE_OK -> codec_ok type d c' /\ exists r', m_readCipher c' = Some r' /\ pc_same (d := c_desc d) r' r).

Definition can_copy (d : Cipher V G) (c : Codec V) (r : V) : Prop :=
  descriptor table (m_readCipherType c) = Some d /\ m_isEncrypted c = 1 /\ m_hasReadCipher c = 1 /\
  m_hasWriteCipher c = 1 /\ m_readCipher c = Some r /\ pc_ready (d := c_desc d) r.

Lemma clone_keyed d c r w (env0 env : Env G) full :
  can_copy d c r -> pc_ready (d := c_desc d) w -> kept env0 env -> (full -> e_malloc env = []) ->
  keyed (m_readCipherType c) d c r env0 full
    (let* (w, r) := clone table (m_readCipherType c) w (m_readCipher c) in
     Some (SQLITE_OK, set_read (m_hasReadCipher c) (m_readCipherType c) (Some r) (m_readReserved c)
                        (set_write (m_hasWriteCipher c) (m_readCipherType c) (Some w) (m_writeReserved c) c), env)).
Proof.
  intros (D & E1 & E2 & E3 & Rd & Hr) Rw Oe Me. unfold clone. rewrite D, Rd.
  pose proof (pc_clone (d := c_desc d) w r Rw Hr) as P.
  destruct (m_cloneCipher (c_desc d) w r) as [w' r']. destruct P as (P1 & P2 & P3 & P4).
  do 3 eexists. split; [reflexivity|]. split; [exact Oe|]. split; [auto|]. do 5 (split; [reflexivity|]).
  split; [auto|]. intros _. split; [split; cbn; auto; exists r', w'; auto|]. exists r'. auto.
Qed.

Lemma allocate_keyed d c r (env : Env G) :
  can_copy d c r -> registered (e_tables env) ->
  keyed (m_readCipherType c) d c r env (e_malloc env = [])
    (let* (type, w, env) :=
       let* (w, env) := allocate table (m_readCipherType c) env in Some (m_readCipherType c, w, env) in
     match w with
     | Some w =>
         let* (w, r) := clone table type w (m_readCipher c) in
         Some (SQLITE_OK, set_read (m_hasReadCipher c) (m_readCipherType c) (Some r) (m_readReserved c)
                            (set_write (m_hasWriteCipher c) type (Some w) (m_writeReserved c) c), env)
     | None => Some (SQLITE_NOMEM, set_write (m_hasWriteCipher c) type None (m_writeReserved c) c, env)
     end).
Proof.
  intros Hc Ht. pose proof Hc as (D & _).
  destruct (allocate_ok (m_readCipherType c) d env Ht D) as (ps & t & _ & Rt & ->).
  destruct (hd true (e_malloc env)) eqn:M.
  - apply clone_keyed; [exact Hc|apply (ck_allocate (d := c_desc d) ps)|now split|cbn; now intros ->].
  - do 3 eexists. split; [reflexivity|]. split; [now split|]. split; [intros Z0; rewrite Z0 in M; discriminate|].
    do 5 (split; [reflexivity|]). split; [auto|discriminate].
Qed.

(** Copying the read cipher; an object of another type is freed first. *)
Lemma copy_to_write d (c : Codec V) (env : Env G) r :
  can_copy d c r -> registered (e_tables env) ->
  (forall w, m_writeCipher c = Some w ->
     (m_writeCipherType c = m_readCipherType c -> pc_ready (d := c_desc d) w) /\
     exists d', descriptor table (m_writeCipherType c) = Some d') ->
  keyed (m_readCipherType c) d c r env (e_malloc env = []) (sqlite3mcCopyCipher table c true env).
Proof.
  intros Hc He Hw. unfold sqlite3mcCopyCipher. cbn zeta.
  destruct (Z.eqb_spec (m_writeCipherType c) (m_readCipherType c)) as [Q|Q].
  - destruct (m_writeCipher c) as [w|] eqn:W; [|now apply allocate_keyed]. rewrite Q.
    apply clone_keyed; auto; [now apply Hw|now split].
  - unfold release. destruct (m_writeCipher c) as [w|]; [|now apply allocate_keyed].
    destruct (Hw w eq_refl) as (_ & d' & ->). now apply allocate_keyed.
Qed.

(** ** Setup *)

(** The object that a setup derives: allocated with the settings of the connection and
    keyed with the password and the salt of the codec or of the file. *)
Definition derived (d : Cipher V G) (c : Codec V) (env : Env G) (password : list Z) (r : V) : Prop :=
  exists ps g', settings (e_tables env) (c_name d) = Some ps /\
    m_generateKey (c_desc d) (fst (m_allocateCipher (c_desc d) ps)) password 0
      (match key_salt c with None => e_header env | Some s => Some s end) (e_gen env) = Some (r, g').

Lemma setup_keyed type d (c : Codec V) (env : Env G) password :
  descriptor table type = Some d -> env_ok d env -> password_ok password -> salt_ok (key_salt c) ->
  m_writeCipher c = None ->
  exists r rc c' env', sqlite3mcCodecSetup table c type password env = Some (rc, c', env') /\ env_ok d env' /\
    derived d c env password r /\
    (e_malloc env = [] -> rc = SQLITE_OK) /\ (rc = SQLITE_OK \/ rc = SQLITE_NOMEM) /\
    m_reserved c' = m_reserved c /\ m_page c' = m_page c /\ m_readReserved c' = m_readReserved c /\
    m_writeReserved c' = m_writeReserved c /\
    (rc = SQLITE_OK -> codec_ok type d c' /\ exists r', m_readCipher c' = Some r' /\ pc_same (d := c_desc d) r' r).
Proof.
  intros D (Ht & Hg & Hh) Hp Hs Hw. unfold sqlite3mcCodecSetup.
  assert (T : (type <=? CODEC_TYPE_UNKNOWN) = false).
  { unfold descriptor, CODEC_TYPE_UNKNOWN in *. destruct (type >? 0) eqn:X; [lia|discriminate]. }
  rewrite T. destruct (descriptor_nth _ _ D) as (i & N).
  destruct (read_checks_ok env Ht) as (h & wl & t1 & -> & R1 & S1).
  destruct (allocate_ok type d (mk_env t1 (e_gen env) (e_malloc env) (e_header env)) R1 D) as (ps & t2 & Es & R2 & ->).
  cbn [e_tables e_gen e_malloc e_header] in *. rewrite (S1 i d N) in Es.
  set (salt := match key_salt c with None => e_header env | Some s => Some s end).
  assert (Os : salt_ok salt) by (unfold salt; destruct (key_salt c); assumption).
  destruct (ck_generate (d := c_desc d) _ password 0 salt (e_gen env)
              (proj1 (ck_allocate (d := c_desc d) ps)) Hg Hp Os) as (r & g' & Eg & Rr & Gg).
  exists r. assert (De : derived d c env password r) by (exists ps, g'; auto).
  destruct (hd true (e_malloc env)) eqn:M.
  - set (c1 := sqlite3mcSetHasWriteCipher 1 _).
    assert (K : key_salt c1 = key_salt c) by reflexivity.
    unfold sqlite3mcGenerateReadKey. rewrite K. fold salt. unfold generate. cbn [m_readCipherType m_readCipher c1].
    cbn [c1 sqlite3mcSetHasWriteCipher set_write set_read sqlite3mcSetIsEncrypted set_checks m_readCipherType
         m_readCipher e_gen e_header]. rewrite D.
    change (match key_salt c with Some s => Some s | None => e_header env end) with salt. rewrite Eg.
    match goal with |- context [sqlite3mcCopyCipher _ ?X true ?Y] => set (c2 := X); set (e2 := Y) end.
    assert (C2 : can_copy d c2 r) by (repeat split; auto).
    assert (E2 : env_ok d e2) by (split; [exact R2|split; [exact Gg|exact Hh]]).
    destruct (copy_to_write d c2 e2 r C2 (proj1 E2)) as (rc & c' & env' & Ec & Oe & Fu & _ & A1 & A2 & A3 & A4 & Rc & Ok).
    { cbn. rewrite Hw. discriminate. }
    exists rc, c', env'. split; [exact Ec|]. split; [now apply kept_ok with e2|]. split; [exact De|].
    split; [intros Z0; apply Fu; cbn; now rewrite Z0|]. auto 10.
  - do 3 eexists. split; [reflexivity|]. split; [now split|]. split; [exact De|].
    split; [intros Z0; rewrite Z0 in M; discriminate|]. split; [auto|]. do 4 (split; [reflexivity|]). discriminate.
Qed.

(** ** Pages *)

(** The number of reserved bytes that the two directions use. *)
Definition read_reserved (c : Codec V) : Z := if m_readReserved c >=? 0 then m_readReserved c else m_reserved c.
Definition write_reserved (c : Codec V) : Z := if m_writeReserved c >=? 0 then m_writeReserved c else m_reserved c.

(** The codec has the key of the object [k]. *)
Definition has_key (type : Z) (d : Cipher V G) (k : V) (c : Codec V) : Prop :=
  codec_ok type d c /\ exists r, m_readCipher c = Some r /\ pc_same (d := c_desc d) r k.

(** Encryption, with the write or the read cipher, of a page that [k] can write: every codec
    with the same key decrypts it. *)
Lemma encrypt_ok type d k (c : Codec V) (env : Env G) page data (useWriteKey : bool) :
  has_key type d k c -> env_ok d env ->
  let reserved := if useWriteKey then write_reserved c else read_reserved c in
  pc_page (d := c_desc d) k page reserved data ->
  exists v c' data' env',
    sqlite3mcEncrypt table c page data useWriteKey env = Some (SQLITE_OK, c', data', env') /\
    has_key type d k c' /\ env_ok d env' /\ e_malloc env' = e_malloc env /\ e_header env' = e_header env /\
    m_hmacCheck c' = m_hmacCheck c /\ m_page c' = m_page c /\
    read_reserved c' = read_reserved c /\ write_reserved c' = write_reserved c /\
    length data' = length data /\ bytes data' /\
    (pc_ready (d := c_desc d) v /\ pc_same (d := c_desc d) v k /\
     exists v' g', m_encryptPage (c_desc d) v page data reserved (e_gen env) = Some (SQLITE_OK, v', data', g')) /\
    forall type2 c2, has_key type2 d k c2 -> read_reserved c2 = reserved ->
      exists c2' data2, sqlite3mcDecrypt table c2 page data' = Some (SQLITE_OK, c2', data2) /\
        has_key type2 d k c2' /\ m_page c2' = m_page c2 /\ length data2 = length data /\
        read_reserved c2' = read_reserved c2 /\ write_reserved c2' = write_reserved c2 /\
        let body := pc_body (d := c_desc d) k reserved (length data) in firstn body data2 = firstn body data.
Proof.
  intros [[D E [H1 H2] [T1 T2] (r & w & Er & Ew & Rr & Rw & S)] (r0 & Er0 & Sk)] (Ht & Hg & Hh) reserved P.
  rewrite Er in Er0. injection Er0 as <-.
  set (v := if useWriteKey then w else r).
  assert (Rv : pc_ready (d := c_desc d) v) by (unfold v; now destruct useWriteKey).
  assert (Sv : pc_same (d := c_desc d) v k) by (unfold v; destruct useWriteKey; [now apply same_trans with r|exact Sk]).
  destruct (ck_same (d := c_desc d) k v (same_sym d _ _ Sv)) as (_ & _ & _ & _ & _ & Pp & Pb).
  destruct (pc_encrypt (d := c_desc d) v page data reserved (e_gen env) Rv Hg (Pp _ _ _ P))
    as (v' & data' & g' & Ee & Rv' & Sv' & Gg & Ld & Bd & Dec).
  exists v, (if useWriteKey then set_write (m_hasWriteCipher c) (m_writeCipherType c) (Some v') (m_writeReserved c) c
             else set_read (m_hasReadCipher c) (m_readCipherType c) (Some v') (m_readReserved c) c), data',
         (mk_env (e_tables env) g' (e_malloc env) (e_header env)).
  split; [|split; [|split; [now split|]]].
  - unfold sqlite3mcEncrypt. fold (write_reserved c) (read_reserved c). fold reserved.
    replace (descriptor table _) with (Some d) by (destruct useWriteKey; congruence).
    replace (if useWriteKey then m_writeCipher c else m_readCipher c) with (Some v)
      by (unfold v; destruct useWriteKey; congruence).
    rewrite Ee. now destruct useWriteKey.
  - unfold v in *. destruct useWriteKey; (split; [split; cbn; auto|]).
    + exists r, v'. repeat split; auto. now apply same_trans with w.
    + exists r. auto.
    + exists v', w. repeat split; auto. now apply same_trans with r; [|apply same_sym].
    + exists v'. split; [reflexivity|]. now apply same_trans with r.
  - split; [reflexivity|]. split; [reflexivity|]. do 4 (split; [now destruct useWriteKey|]).
    split; [exact Ld|]. split; [exact Bd|]. split; [eauto 6|].
    intros type2 c2 [[D2 F2 [G1 G2] [U1 U2] (r2 & w2 & Er2 & Ew2 & Rr2 & Rw2 & S2)] (q & Eq & Sq)] Rs.
    rewrite Er2 in Eq. injection Eq as <-.
    destruct (Dec r2 (m_hmacCheck c2) Rr2) as (r2' & data2 & Ed & Rr2' & Sr2' & L2 & Fb).
    { apply same_trans with k; [exact Sq|now apply same_sym]. }
    exists (set_read (m_hasReadCipher c2) (m_readCipherType c2) (Some r2') (m_readReserved c2) c2), data2.
    split; [|split; [|split; [reflexivity|split; [exact L2|split; [reflexivity|split; [reflexivity|]]]]]].
    + unfold sqlite3mcDecrypt. fold (read_reserved c2). now rewrite U1, D2, Er2, Rs, Ed.
    + split; [split; cbn; auto|exists r2'; split; [reflexivity|now apply same_trans with r2]].
      exists r2', w2. repeat split; auto. now apply same_trans with r2; [|apply same_sym].
    + cbn zeta. now rewrite (Pb reserved (length data)).
Qed.

Lemma has_key_size type d k c size res : has_key type d k c -> has_key type d k (sqlite3mcCodecSizeChange size res c).
Proof. intros [[A B C D E] F]. split; [split; assumption|exact F]. Qed.

Lemma has_key_page type d k c p : has_key type d k c -> has_key type d k (set_page p c).
Proof. intros [[A B C D E] F]. split; [split; assumption|exact F]. Qed.

(** ** Exchange of the two ciphers *)

Definition swap (c : Codec V) : Codec V :=
  set_read (m_hasWriteCipher c) (m_writeCipherType c) (m_writeCipher c) (m_writeReserved c)
    (set_write (m_hasReadCipher c) (m_readCipherType c) (m_readCipher c) (m_readReserved c) c).

Lemma swap_swap c : swap (swap c) = c.
Proof. now destruct c. Qed.

Lemma copy_swap c (env : Env G) :
  sqlite3mcCopyCipher table c false env =
  let* (rc, c', env') := sqlite3mcCopyCipher table (swap c) true env in Some (rc, swap c', env').
Proof.
  unfold sqlite3mcCopyCipher. destruct c. cbn.
  destruct (_ =? _); cbn.
  - destruct m_readCipher0 as [r|]; cbn.
    + destruct (clone _ _ _ _) as [[? ?]|]; reflexivity.
    + destruct (allocate _ _ _) as [[[r|] e]|]; cbn; try reflexivity. destruct (clone _ _ _ _) as [[? ?]|]; reflexivity.
  - destruct (release _ _ _); [|reflexivity].
    destruct (allocate _ _ _) as [[[r|] e]|]; cbn; try reflexivity. destruct (clone _ _ _ _) as [[? ?]|]; reflexivity.
Qed.

(** The flag of the write cipher plays no part in copying. *)
Lemma copy_flag c (env : Env G) x :
  sqlite3mcCopyCipher table (sqlite3mcSetHasWriteCipher x c) true env =
  let* (rc, c', env') := sqlite3mcCopyCipher table c true env in Some (rc, sqlite3mcSetHasWriteCipher x c', env').
Proof.
  unfold sqlite3mcCopyCipher. destruct c. cbn. destruct (if _ =? _ then Some tt else _); [|reflexivity].
  destruct (if _ =? _ then _ else None) as [w|]; cbn.
  - destruct (clone _ _ _ _) as [[? ?]|]; reflexivity.
  - destruct (allocate _ _ _) as [[[r|] e]|]; cbn; try reflexivity. destruct (clone _ _ _ _) as [[? ?]|]; reflexivity.
Qed.

Lemma swap_ok type d k c : has_key type d k c -> has_key type d k (swap c).
Proof.
  intros [[D E [H1 H2] [T1 T2] (r & w & Er & Ew & Rr & Rw & S)] (r0 & Er0 & Sk)]. rewrite Er in Er0. injection Er0 as <-.
  split.
  - split; cbn; auto. exists w, r. auto 6 using same_sym.
  - exists w. split; [exact Ew|]. now apply same_trans with r.
Qed.

(** Copying to the read cipher, as to the write cipher of the exchanged codec. *)
Lemma copy_to_read d (c : Codec V) (env : Env G) w :
  can_copy d (swap c) w -> registered (e_tables env) -> e_malloc env = [] ->
  (forall r, m_readCipher c = Some r ->
     (m_readCipherType c = m_writeCipherType c -> pc_ready (d := c_desc d) r) /\
     exists d', descriptor table (m_readCipherType c) = Some d') ->
  exists c' env', sqlite3mcCopyCipher table c false env = Some (SQLITE_OK, c', env') /\ kept env env' /\
    e_malloc env' = [] /\ has_key (m_writeCipherType c) d w c'.
Proof.
  intros Hc Ht Hm Hr. destruct (copy_to_write d (swap c) env w Hc Ht Hr)
    as (rc & c' & env' & Ec & Kp & Fu & _ & _ & _ & _ & _ & _ & Ok).
  destruct (Fu Hm) as [-> Me]. exists (swap c'), env'. rewrite copy_swap, Ec. split; [reflexivity|].
  split; [exact Kp|]. split; [exact Me|]. apply swap_ok. now apply Ok.
Qed.

Lemma copy_flag_read c (env : Env G) x :
  sqlite3mcCopyCipher table (sqlite3mcSetHasReadCipher x c) false env =
  let* (rc, c', env') := sqlite3mcCopyCipher table c false env in Some (rc, sqlite3mcSetHasReadCipher x c', env').
Proof.
  rewrite !copy_swap. change (swap (sqlite3mcSetHasReadCipher x c)) with (sqlite3mcSetHasWriteCipher x (swap c)).
  rewrite copy_flag. now destruct (sqlite3mcCopyCipher table (swap c) true env) as [[[rc c'] env']|].
Qed.

(** ** A new write cipher *)

(** The object that a change of the key derives. *)
Definition rederived (d : Cipher V G) (c : Codec V) (env : Env G) (password : list Z) (usesWal : bool) (w : V) : Prop :=
  exists ps g', settings (e_tables env) (c_name d) = Some ps /\
    m_generateKey (c_desc d) (fst (m_allocateCipher (c_desc d) ps)) password (if usesWal then 2 else 1)
      (match key_salt c with None => e_header env | Some s => Some s end) (e_gen env) = Some (w, g').

Lemma setup_write type d (c : Codec V) (env : Env G) password usesWal :
  descriptor table type = Some d -> env_ok d env -> e_malloc env = [] -> password_ok password -> salt_ok (key_salt c) ->
  (m_writeCipher c <> None -> exists d', descriptor table (m_writeCipherType c) = Some d') ->
  exists h wl w env', env_ok d env' /\ e_malloc env' = [] /\ pc_ready (d := c_desc d) w /\
    rederived d c env password usesWal w /\
    sqlite3mcSetupWriteCipher table c type password usesWal env =
    Some (SQLITE_OK, set_write 1 type (Some w) (m_writeReserved c) (sqlite3mcSetIsEncrypted 1 (set_checks h wl c)), env').
Proof.
  intros D (Ht & Hg & Hh) Hm Hp Hs Hw. unfold sqlite3mcSetupWriteCipher.
  assert (T : (type <=? CODEC_TYPE_UNKNOWN) = false).
  { unfold descriptor, CODEC_TYPE_UNKNOWN in *. destruct (type >? 0) eqn:X; [lia|discriminate]. }
  rewrite T. assert (R : release table (m_writeCipherType c) (m_writeCipher c) = Some tt).
  { unfold release. destruct (m_writeCipher c) as [w|]; [|reflexivity]. now destruct (Hw ltac:(discriminate)) as [d' ->]. }
  rewrite R. destruct (read_checks_ok env Ht) as (h & wl & t1 & -> & R1 & S1). destruct (descriptor_nth _ _ D) as (i & N).
  destruct (allocate_ok type d (mk_env t1 (e_gen env) (e_malloc env) (e_header env)) R1 D) as (ps & t2 & Es & R2 & ->).
  cbn [e_tables e_gen e_malloc e_header] in *. rewrite (S1 i d N) in Es. rewrite Hm. cbn [hd tl].
  set (salt := match key_salt c with None => e_header env | Some s => Some s end).
  assert (Os : salt_ok salt) by (unfold salt; destruct (key_salt c); assumption).
  destruct (ck_generate (d := c_desc d) _ password (if usesWal then 2 else 1) salt (e_gen env)
              (proj1 (ck_allocate (d := c_desc d) ps)) Hg Hp Os) as (w & g' & Eg & Rw & Gg).
  exists h, wl, w, (mk_env t2 g' [] (e_header env)). split; [now split|]. split; [reflexivity|]. split; [exact Rw|].
  split; [exists ps, g'; auto|]. set (c1 := set_write 1 _ _ _ _). unfold sqlite3mcGenerateWriteKey.
  change (key_salt c1) with (key_salt c). cbn [e_header]. fold salt. unfold generate. cbn [e_gen e_header].
  change (m_writeCipherType c1) with type. change (m_writeCipher c1) with (Some (fst (m_allocateCipher (c_desc d) ps))).
  rewrite D, Eg. reflexivity.
Qed.

(** ** A copy of another codec *)

Lemma copy_codec type d k (c other : Codec V) (env : Env G) :
  has_key type d k other -> registered (e_tables env) -> e_malloc env = [] ->
  exists c' other' env', sqlite3mcCodecCopy table c other env = Some (SQLITE_OK, c', other', env') /\ kept env env' /\
    has_key type d k c' /\ has_key type d k other'.
Proof.
  intros [[D E [H1 H2] [T1 T2] (r & w & Er & Ew & Rr & Rw & S)] (r0 & Er0 & Sk)] Ht Hm.
  rewrite Er in Er0. injection Er0 as <-. unfold sqlite3mcCodecCopy. rewrite H1, H2, T1, T2, Er, Ew. cbn [Z.eqb negb].
  destruct (allocate_ok type d env Ht D) as (ps & t & _ & Rt & ->). rewrite Hm. cbn [hd tl].
  unfold clone. rewrite D. pose proof (pc_clone (d := c_desc d) _ r (proj1 (ck_allocate (d := c_desc d) ps)) Rr) as P.
  destruct (m_cloneCipher (c_desc d) _ r) as [a r']. destruct P as (P1 & P2 & P3 & P4).
  destruct (allocate_ok type d (mk_env t (e_gen env) [] (e_header env)) Rt D) as (qs & t2 & _ & Rt2 & ->). cbn [hd tl e_malloc].
  pose proof (pc_clone (d := c_desc d) _ w (proj1 (ck_allocate (d := c_desc d) qs)) Rw) as Q.
  destruct (m_cloneCipher (c_desc d) _ w) as [b w']. destruct Q as (Q1 & Q2 & Q3 & Q4).
  assert (Aw : pc_same (d := c_desc d) w' r') by (apply same_trans with w; [exact Q4|];
    apply same_trans with r; [exact S|now apply same_sym]).
  do 3 eexists. split; [reflexivity|]. split; [now split|]. split.
  - split; [split; cbn; auto|exists a; split; [reflexivity|]].
    + exists a, b. do 4 (split; [assumption || reflexivity|]). apply same_trans with w'; [exact Q3|].
      apply same_trans with r'; [exact Aw|now apply same_sym].
    + apply same_trans with r'; [exact P3|]. now apply same_trans with r.
  - split; [split; cbn; auto; exists r', w'; auto|]. exists r'. split; [reflexivity|]. now apply same_trans with r.
Qed.
End Proofs.
