(* ===== verification/CodecTable.v ===== *)
(** * The descriptor table (cipher_common.c, sqlite3mc.c)

    The ciphers of the descriptor table work on objects of their own types.  Here their
    objects become one type, so that they form one table: an operation applied to an object
    of another cipher, which the code would misread, is a failure where it has a result to
    tell.  The laws of a cipher carry over.  The theorems on a database that is closed and
    opened again follow. *)

From Stdlib Require Import ZArith Lia List Bool.
From Stdlib Require Strings.String Strings.Ascii.
From S2P Require Import Prelude ChaCha20 CodecAlgos CipherCommon CipherAES CipherChaCha20 CipherSqlCipher CipherConfig Codec.
Import ListNotations.
Import Strings.String.StringSyntax.
Local Open Scope Z_scope.

(** A [void*] to a cipher object. *)
Inductive AnyCipher :=
| VAES128 (c : AES128Cipher)
| VAES256 (c : AES256Cipher)
| VChaCha20 (c : ChaCha20Cipher)
| VSQLCipher (c : SQLCipherCipher)
| VRC4 (c : RC4Cipher).

(** ** Ciphers over one type of objects *)

Section Lift.
Context {C G V : Type} (inj : C -> V) (prj : V -> option C).
Hypothesis prj_inj : forall c, prj (inj c) = Some c.
Hypothesis inj_prj : forall v c, prj v = Some c -> v = inj c.

Definition lift (d : CipherDescriptor C G) : CipherDescriptor V G :=
  mk_descriptor V G
    (fun ps => let '(c, ps) := m_allocateCipher d ps in (inj c, ps))
    (fun to from =>
       match prj to, prj from with
       | Some a, Some b => let '(a, b) := m_cloneCipher d a b in (inj a, inj b)
       | _, _ => (to, from)
       end)
    (fun v => match prj v with Some c => m_getLegacy d c | None => 0 end)
    (fun v => match prj v with Some c => m_getPageSize d c | None => 0 end)
    (fun v => match prj v with Some c => m_getReserved d c | None => 0 end)
    (fun v => match prj v with Some c => m_getSalt d c | None => None end)
    (fun v password rekey salt g =>
       let* c := prj v in let* (c, g) := m_generateKey d c password rekey salt g in Some (inj c, g))
    (fun v page data reserved g =>
       let* c := prj v in
       let* (rc, c, data, g) := m_encryptPage d c page data reserved g in Some (rc, inj c, data, g))
    (fun v page data reserved hmacCheck =>
       let* c := prj v in
       let* (rc, c, data) := m_decryptPage d c page data reserved hmacCheck in Some (rc, inj c, data)).

(** A property of an object behind the pointer. *)
Definition at_obj (P : C -> Prop) (v : V) : Prop := exists c, prj v = Some c /\ P c.
Definition at_objs (R : C -> C -> Prop) (v w : V) : Prop :=
  match prj v, prj w with Some a, Some b => R a b | None, None => True | _, _ => False end.

Lemma at_inj P c : at_obj P (inj c) <-> P c.
Proof.
  unfold at_obj. rewrite prj_inj. split; [now intros (x & [= <-] & H)|]. intros H. now exists c.
Qed.

Lemma at_inj2 R a b : at_objs R (inj a) (inj b) <-> R a b.
Proof. unfold at_objs. now rewrite !prj_inj. Qed.

Ltac obj v := let H := fresh in let c := fresh "c" in destruct v as (c & H & v); apply inj_prj in H; subst.

#[export] Instance PageCipher_lift d (P : PageCipher d) : PageCipher (lift d).
Proof using prj_inj inj_prj.
  refine {| pc_ready := at_obj (pc_ready (d := d)); pc_same := at_objs (pc_same (d := d)); pc_gen := pc_gen (d := d);
            pc_page := fun v page reserved data => at_obj (fun c => pc_page (d := d) c page reserved data) v;
            pc_body := fun v reserved n => match prj v with Some c => pc_body (d := d) c reserved n | None => n end |}.
  - destruct (pc_same_equiv (d := d)) as (R & S & T). unfold at_objs. split; [|split].
    + intros a. now destruct (prj a).
    + intros a b. destruct (prj a), (prj b); auto.
    + intros a b c. destruct (prj a), (prj b), (prj c); eauto; easy.
  - intros to from Ht Hf. obj Ht. obj Hf. cbn. rewrite !prj_inj. pose proof (pc_clone (d := d) _ _ Ht Hf) as H.
    destruct (m_cloneCipher d _ _) as [a b]. rewrite !at_inj, !at_inj2. exact H.
  - intros v page data reserved g Hv Hg Hp. obj Hv. apply at_inj in Hp. cbn. rewrite prj_inj.
    destruct (pc_encrypt (d := d) _ page data reserved g Hv Hg Hp)
      as (c' & data' & g' & -> & R & S & Gg & L & B & D).
    exists (inj c'), data', g'. rewrite at_inj, at_inj2. do 6 (split; [easy|]).
    intros v2 h Hv2 S2. obj Hv2. apply at_inj2 in S2. destruct (D _ h Hv2 S2) as (c2' & data2 & E2 & R2 & T2 & L2 & F2).
    rewrite prj_inj, E2. exists (inj c2'), data2. rewrite at_inj, at_inj2. auto.
Defined.

#[export] Instance CipherKeys_lift d (P : PageCipher d) (K : CipherKeys d) : CipherKeys (lift d).
Proof using prj_inj inj_prj.
  refine {| ck_config := fun v w => exists a b, prj v = Some a /\ prj w = Some b /\ ck_config (d := d) a b;
            ck_hidden := fun v => match prj v with Some c => ck_hidden (d := d) c | None => false end |}.
  - intros ps. cbn. pose proof (ck_allocate (d := d) ps) as [R S]. destruct (m_allocateCipher d ps) as [c qs].
    cbn in *. rewrite at_inj. split; [exact R|]. exists c, c. now rewrite prj_inj.
  - intros v pw rekey salt g Hv Hg Hp Hs. obj Hv. cbn. rewrite prj_inj.
    destruct (ck_generate (d := d) _ pw rekey salt g Hv Hg Hp Hs) as (c' & g' & -> & R & Gg).
    exists (inj c'), g'. rewrite at_inj. auto.
  - intros v w pw rekey salt header g g2 v' g' Hv Hw Hg Hcfg Hp Hs Hh E Hhead. obj Hv. obj Hw. cbn in *.
    destruct Hcfg as (a & b & Ea & Eb & Hcfg). rewrite prj_inj in *. injection Ea as <-. injection Eb as <-.
    destruct (m_generateKey d _ pw rekey salt g) as [[a' g0]|] eqn:Ea; [|discriminate E].
    apply some_inj, pair_inj in E as [<- <-]. rewrite prj_inj in Hhead.
    destruct (ck_reopen (d := d) _ _ pw rekey salt header g g2 a' g0 Hv Hw Hg Hcfg Hp Hs Hh Ea Hhead) as (b' & -> & R & S).
    exists (inj b'). rewrite at_inj, at_inj2. auto.
  - intros v data reserved g v' data' g' s Hv Hg Hp E Es Hh. obj Hv. apply at_inj in Hp. cbn in *.
    rewrite prj_inj in *. destruct (m_encryptPage d _ 1 data reserved g) as [[[[rc a'] x] g0]|] eqn:Ee; [|discriminate E].
    injection E as -> <- <- <-. eapply (ck_header (d := d)); eauto.
  - intros v w S. change (at_objs (pc_same (d := d)) v w) in S. unfold at_objs in S. cbn. destruct (prj v) as [a|] eqn:Ea, (prj w) as [b|] eqn:Eb; try easy.
    + destruct (ck_same (d := d) a b S) as (A1 & A2 & A3 & A4 & A5 & A6 & A7). do 5 (split; [assumption|]).
      split; [|exact A7]. intros page reserved data (c & Ec & H). exists b. split; [exact Eb|].
      rewrite Ea in Ec. injection Ec as <-. auto.
    + do 5 (split; [reflexivity|]). split; [|reflexivity]. intros page reserved data (c & Ec & _). congruence.
Defined.
End Lift.

(** ** The table of the built-in ciphers *)

Section Table.
Context {E : Type} (entropy : E -> nat -> option (list Z * E)) (le : bool).
Hypothesis He : forall e k, exists l e', entropy e k = Some (l, e').

Definition prj_aes128 (v : AnyCipher) := match v with VAES128 c => Some c | _ => None end.
Definition prj_aes256 (v : AnyCipher) := match v with VAES256 c => Some c | _ => None end.
Definition prj_chacha20 (v : AnyCipher) := match v with VChaCha20 c => Some c | _ => None end.
Definition prj_sqlcipher (v : AnyCipher) := match v with VSQLCipher c => Some c | _ => None end.
Definition prj_rc4 (v : AnyCipher) := match v with VRC4 c => Some c | _ => None end.

(** A cipher of the table, from its laws. *)
Definition entry {C} (name : list Z) (inj : C -> AnyCipher) (prj : AnyCipher -> option C)
    (d : CipherDescriptor C (rng_state * E)) (P : PageCipher d) (K : CipherKeys d)
    (pi : forall c, prj (inj c) = Some c) (ip : forall v c, prj v = Some c -> v = inj c)
    : Cipher AnyCipher (rng_state * E) :=
  mk_cipher _ _ name (lift inj prj d) (PageCipher_lift inj prj pi ip d P) (CipherKeys_lift inj prj pi ip d P K).

Ltac by_cases := let v := fresh in intros v ?; destruct v; cbn; congruence.

(** The first five entries of [globalCodecDescriptorTable]. *)
Definition globalCodecDescriptorTable : list (Cipher AnyCipher (rng_state * E)) :=
  [entry (str "aes128cbc") VAES128 prj_aes128 (mcAES128Descriptor _) _ _ (fun _ => eq_refl) ltac:(by_cases);
   entry (str "aes256cbc") VAES256 prj_aes256 (mcAES256Descriptor _) _ _ (fun _ => eq_refl) ltac:(by_cases);
   entry (str "chacha20") VChaCha20 prj_chacha20 (mcChaCha20Descriptor entropy)
     (PageCipher_ChaCha20 entropy He) (CipherKeys_ChaCha20 entropy He) (fun _ => eq_refl) ltac:(by_cases);
   entry (str "sqlcipher") VSQLCipher prj_sqlcipher (mcSQLCipherDescriptor entropy le)
     (PageCipher_SQLCipher entropy le He) (CipherKeys_SQLCipher entropy le He) (fun _ => eq_refl) ltac:(by_cases);
   entry (str "rc4") VRC4 prj_rc4 (mcRC4Descriptor le _) _ _ (fun _ => eq_refl) ltac:(by_cases)].
End Table.

(** ** Closing and reopening a database *)

Section Reopen.
Context {V G : Type} (table : list (Cipher V G)).

(** A codec from its creation: initialised, set up with the password, and told the sizes. *)
Definition attach (type size res : Z) (password : list Z) (env : Env G) : option (Z * Codec V * Env G) :=
  let* (rc, c, env) := sqlite3mcCodecSetup table sqlite3mcCodecInit type password env in
  Some (rc, sqlite3mcCodecSizeChange size res c, env).

(** What [attach] yields with memory left. *)
Lemma attach_ok type size res d password (env : Env G) :
  descriptor table type = Some d -> env_ok table d env -> e_malloc env = [] -> password_ok password -> 0 <= res ->
  exists k c env', attach type size res password env = Some (SQLITE_OK, c, env') /\ env_ok table d env' /\
    derived d (sqlite3mcCodecInit (V := V)) env password k /\ has_key table type d k c /\
    read_reserved c = res /\ write_reserved c = res.
Proof.
  intros D He Hm Hp Hr.
  destruct (setup_keyed table type d (sqlite3mcCodecInit (V := V)) env password D He Hp Logic.I eq_refl)
    as (k & rc & c & env' & Es & Oe & De & Fu & _ & R1 & _ & R3 & R4 & Ok).
  rewrite (Fu Hm) in *. exists k, (sqlite3mcCodecSizeChange size res c), env'. unfold attach. rewrite Es.
  split; [reflexivity|]. split; [exact Oe|]. split; [exact De|]. split; [apply has_key_size, Ok; reflexivity|].
  unfold read_reserved, write_reserved, sqlite3mcCodecSizeChange. cbn [m_readReserved m_writeReserved m_reserved].
  rewrite R3, R4. auto.
Qed.

(** Two setups with the same settings and password give the same key, when the second reads
    the salt of the first from the header. *)
Lemma derived_again d password (env1 env2 : Env G) k1 k2 :
  env_ok table d env1 -> env_ok table d env2 -> password_ok password ->
  settings (e_tables env1) (c_name d) = settings (e_tables env2) (c_name d) ->
  derived d (sqlite3mcCodecInit (V := V)) env1 password k1 ->
  derived d (sqlite3mcCodecInit (V := V)) env2 password k2 ->
  (forall s, m_getSalt (c_desc d) k1 = Some s -> option_map (firstn 16) (e_header env2) = Some s) ->
  pc_same (d := c_desc d) k2 k1.
Proof.
  intros (_ & G1 & H1) (_ & G2 & H2) Hp Se (ps & g1 & S1 & E1) (ps' & g2 & S2 & E2) Hh.
  rewrite S1, S2 in Se. injection Se as <-. cbn [key_salt sqlite3mcCodecInit m_hasKeySalt Z.eqb negb] in *.
  destruct (ck_allocate (d := c_desc d) ps) as [R C].
  destruct (ck_reopen (d := c_desc d) _ _ password 0 (e_header env1) (e_header env2) (e_gen env1) (e_gen env2) k1 g1
              R R G1 C Hp H1 H2 E1 Hh) as (b & Eb & _ & S).
  rewrite Eb in E2. apply some_inj, pair_inj in E2 as [<- _]. exact S.
Qed.

(** The page that is written, read back by any codec with the key. *)
Lemma page_transfer type1 type2 d k (c1 c2 : Codec V) (env : Env G) page data :
  has_key table type1 d k c1 -> has_key table type2 d k c2 -> env_ok table d env ->
  read_reserved c2 = write_reserved c1 -> pc_page (d := c_desc d) k page (write_reserved c1) data ->
  exists c1' data' env' c2' data2,
    sqlite3mcEncrypt table c1 page data true env = Some (SQLITE_OK, c1', data', env') /\ length data' = length data /\
    sqlite3mcDecrypt table c2 page data' = Some (SQLITE_OK, c2', data2) /\ length data2 = length data /\
    let body := pc_body (d := c_desc d) k (write_reserved c1) (length data) in firstn body data2 = firstn body data.
Proof.
  intros K1 K2 He R P.
  destruct (encrypt_ok table type1 d k c1 env page data true K1 He P)
    as (v & c1' & data' & env' & Ee & _ & _ & _ & _ & _ & _ & _ & _ & L & _ & _ & Dec).
  destruct (Dec type2 c2 K2 R) as (c2' & data2 & Ed & _ & _ & L2 & _ & _ & F).
  exists c1', data', env', c2', data2. auto.
Qed.

(** A database can be closed and opened again.  For every registered cipher and every
    password, a codec is set up on a new or existing file (with memory left); the first page
    is encrypted; and a codec that is set up later with the same password and the same
    settings, by any connection with any state of the random generator, which finds the
    salt in the first sixteen bytes of that page, decrypts the first page and every other
    page that the first codec writes.  The page must hide its salt in its start, or the
    cipher use none: with a plaintext header the salt has to be given separately. *)
Theorem database_reopens type size res d password (env1 : Env G) :
  descriptor table type = Some d -> env_ok table d env1 -> e_malloc env1 = [] -> password_ok password -> 0 <= res ->
  exists k c1 env1', attach type size res password env1 = Some (SQLITE_OK, c1, env1') /\
    derived d (sqlite3mcCodecInit (V := V)) env1 password k /\
    forall data1, pc_page (d := c_desc d) k 1 res data1 -> (16 <= length data1)%nat ->
    (ck_hidden (d := c_desc d) k = true \/ m_getSalt (c_desc d) k = None) ->
    exists c1' data1' env1'', sqlite3mcEncrypt table c1 1 data1 true env1' = Some (SQLITE_OK, c1', data1', env1'') /\
      forall t2 g2, let env2 := mk_env t2 g2 [] (Some (firstn 16 data1')) in
      registered table t2 -> pc_gen (d := c_desc d) g2 ->
      settings t2 (c_name d) = settings (e_tables env1) (c_name d) ->
      exists c2 env2', attach type size res password env2 = Some (SQLITE_OK, c2, env2') /\
        (exists c2' data2, sqlite3mcDecrypt table c2 1 data1' = Some (SQLITE_OK, c2', data2) /\
           let body := pc_body (d := c_desc d) k res (length data1) in firstn body data2 = firstn body data1) /\
        forall page data env, env_ok table d env -> pc_page (d := c_desc d) k page res data ->
        exists c3 data' env3 c4 data2,
          sqlite3mcEncrypt table c1' page data true env = Some (SQLITE_OK, c3, data', env3) /\
          length data' = length data /\
          sqlite3mcDecrypt table c2 page data' = Some (SQLITE_OK, c4, data2) /\ length data2 = length data /\
          let body := pc_body (d := c_desc d) k res (length data) in firstn body data2 = firstn body data.
Proof.
  intros D He Hm Hp Hr.
  destruct (attach_ok type size res d password env1 D He Hm Hp Hr)
    as (k & c1 & env1' & E1 & O1 & De & K1 & R1 & W1).
  exists k, c1, env1'. split; [exact E1|]. split; [exact De|]. intros data1 P1 L1 Hid.
  destruct (encrypt_ok table type d k c1 env1' 1 data1 true K1 O1)
    as (v & c1' & data1' & env1'' & Ee & K1' & _ & _ & _ & _ & _ & Rr & Rw & Ld & Bd & (Rv & Sv & v' & g' & Ev) & Dec);
    [cbn; now rewrite W1|].
  exists c1', data1', env1''. split; [exact Ee|]. intros t2 g2 env2 R2 G2 S2. cbn [andb] in *.
  assert (O2 : env_ok table d env2).
  { split; [exact R2|]. split; [exact G2|].
    change (bytes (firstn 16 data1') /\ (16 <= length (firstn 16 data1'))%nat). split; [now apply bytes_firstn|]. rewrite length_firstn. lia. }
  destruct (attach_ok type size res d password env2 D O2 eq_refl Hp Hr)
    as (k2 & c2 & env2' & E2 & _ & De2 & K2 & R2' & _).
  exists c2, env2'. split; [exact E2|].
  destruct (ck_same (d := c_desc d) v k Sv) as (Gs & _ & _ & _ & Gh & _).
  assert (Sk : pc_same (d := c_desc d) k2 k).
  { apply (derived_again d password env1 env2 k k2 He O2 Hp (eq_sym S2) De De2). intros s Es.
    change (Some (firstn 16 (firstn 16 data1')) = Some s). rewrite firstn_firstn. cbn [Nat.min]. f_equal. destruct Hid as [Hh|Hn]; [|congruence].
    apply (ck_header (d := c_desc d) v data1 res (e_gen env1') v' data1' g' s Rv (proj1 (proj2 O1)));
      [|rewrite <- W1; exact Ev|congruence|congruence].
    apply (ck_same (d := c_desc d) k v (same_sym d _ _ Sv)). exact P1. }
  assert (K2' : has_key table type d k c2).
  { destruct K2 as (Co & r & Er & Sr). split; [exact Co|]. exists r. split; [exact Er|]. now apply same_trans with k2. }
  split.
  - destruct (Dec type c2 K2') as (c2' & data2 & Ed & _ & _ & _ & _ & _ & F); [congruence|].
    exists c2', data2. rewrite W1 in F. auto.
  - intros page data env Oe Pp. replace res with (write_reserved c1') by congruence.
    apply (page_transfer type type d k c1' c2 env page data K1' K2' Oe); congruence.
Qed.
End Reopen.

(** ** An example: the default cipher *)

Lemma counting_total : forall e k, exists l e', counting_entropy e k = Some (l, e').
Proof. intros e k. exists (memset e k), (e + 1). reflexivity. Qed.

Definition sample_table : list (Cipher AnyCipher (rng_state * Z)) :=
  globalCodecDescriptorTable counting_entropy true counting_total.
Definition sample_chacha20 : Cipher AnyCipher (rng_state * Z) :=
  entry (str "chacha20") VChaCha20 prj_chacha20 (mcChaCha20Descriptor counting_entropy)
    (PageCipher_ChaCha20 counting_entropy counting_total) (CipherKeys_ChaCha20 counting_entropy counting_total)
    (fun _ => eq_refl) ltac:(let v := fresh in intros v ?; destruct v; cbn; congruence).

(** A connection to a new file. *)
Definition sample_env (entropy_state : Z) (header : option (list Z)) : Env (rng_state * Z) :=
  mk_env opened (rng_init, entropy_state) [] header.

Lemma sample_registered : registered sample_table opened.
Proof.
  apply (reachable_registered sample_table true); [apply opened_reachable|vm_compute; reflexivity|].
  intros c C. injection C as <-. apply Nat.ltb_lt. vm_compute. reflexivity.
Qed.

Lemma sample_env_ok e d :
  nth_error sample_table 2 = Some d -> env_ok sample_table d (sample_env e None).
Proof. intros [= <-]. split; [apply sample_registered|]. split; [apply rng_init_wf|exact Logic.I]. Qed.

(** The derived object has the default settings. *)
Lemma sample_key d e password k :
  nth_error sample_table 2 = Some d ->
  derived d (sqlite3mcCodecInit (V := AnyCipher)) (sample_env e None) password k ->
  exists c, k = VChaCha20 c /\ cc_legacy c = 0 /\ cc_plaintextHeaderSize c = 0.
Proof.
  intros [= <-] (ps & g' & S & E).
  assert (P : ps = mcChaCha20Params) by (vm_compute in S; apply some_inj in S; now rewrite <- S).
  subst ps. cbn [c_desc entry lift m_generateKey m_allocateCipher mcChaCha20Descriptor] in E.
  destruct (AllocateChaCha20Cipher mcChaCha20Params) as [c0 qs] eqn:Ea. vm_compute in Ea. apply pair_inj in Ea as [<- _].
  cbn [fst prj_chacha20] in E. unfold GenerateKeyChaCha20Cipher in E.
  cbn [sqlite3mcCodecInit key_salt m_hasKeySalt Z.eqb negb e_header sample_env] in E.
  destruct (chacha20_rng _ _ _ _) as [[[salt st] x]|]; [|discriminate E]. apply some_inj, pair_inj in E as [<- _].
  eexists. split; [reflexivity|]. unfold finish_key. destruct (sqlite3mcExtractRawKey _ _ _ _ _ _) as [[b kk] ss].
  split; reflexivity.
Qed.

Lemma sample_page_ok c :
  cc_legacy c = 0 -> cc_plaintextHeaderSize c = 0 -> cc_page c 1 32 cc_sample_page /\ cc_body c 32 512 = 480%nat.
Proof.
  intros Lc Pc. split; [|unfold cc_body, page_reserved; now rewrite Lc].
  unfold cc_page, reserved_mismatch, cc_body, page_layout, page_reserved. rewrite Lc, Pc.
  split; [apply bytesb_bytes; vm_compute; reflexivity|]. split; [reflexivity|].
  split; [apply Z.leb_le; vm_compute; reflexivity|]. split; [apply Z.leb_le; vm_compute; reflexivity|].
  split; [apply Nat.leb_le; vm_compute; reflexivity|]. intros _ _. vm_compute. reflexivity.
Qed.

Lemma database_reopens_witness :
  exists c1 env1' c1' data1' env1'' c2 env2' c2' data2,
    attach sample_table 3 512 32 [112; 119] (sample_env 3 None) = Some (SQLITE_OK, c1, env1') /\
    sqlite3mcEncrypt sample_table c1 1 cc_sample_page true env1' = Some (SQLITE_OK, c1', data1', env1'') /\
    attach sample_table 3 512 32 [112; 119] (sample_env 77 (Some (firstn 16 data1'))) = Some (SQLITE_OK, c2, env2') /\
    sqlite3mcDecrypt sample_table c2 1 data1' = Some (SQLITE_OK, c2', data2) /\
    firstn 480 data2 = firstn 480 cc_sample_page.
Proof.
  destruct (database_reopens sample_table 3 512 32 _ [112; 119] (sample_env 3 None) eq_refl
              (sample_env_ok 3 _ eq_refl) eq_refl) as (k & c1 & env1' & E1 & De & H).
  - split; [apply bytesb_bytes; reflexivity|]. apply Z.ltb_lt. reflexivity.
  - lia.
  - destruct (sample_key _ 3 _ _ eq_refl De) as (c & -> & Lc & Pc).
    destruct (H cc_sample_page) as (c1' & data1' & env1'' & Ee & H2).
    + exists c. split; [reflexivity|]. now apply sample_page_ok.
    + apply Nat.leb_le. vm_compute. reflexivity.
    + left. cbn. unfold page_layout. rewrite Pc. reflexivity.
    + destruct (H2 opened (rng_init, 77) sample_registered rng_init_wf eq_refl)
        as (c2 & env2' & E2 & (c2' & data2 & Ed & F) & _).
      exists c1, env1', c1', data1', env1'', c2, env2', c2', data2. do 4 (split; [assumption|]).
      change (firstn (cc_body c 32 512) data2 = firstn (cc_body c 32 512) cc_sample_page) in F.
      rewrite (proj2 (sample_page_ok c Lc Pc)) in F. exact F.
Defined.
