(* ===== verification/CodecExt.v ===== *)
(** * Encryption of pages, keys and rekeying (codecext.c)

    The entry points through which the database engine uses a codec: encryption and
    decryption of a page, attaching a key, and changing the key of a database.  What the
    engine does in between (VACUUM, transactions, page access) is given by its results.
    [None] stands for a crash, as in Codec. *)

From Stdlib Require Import ZArith Lia List Bool.
From Stdlib Require Strings.String Strings.Ascii.
From S2P Require Import Prelude ChaCha20 CodecAlgos CipherCommon CipherChaCha20 CipherConfig Codec CodecTable.
Import ListNotations.
Import Strings.String.StringSyntax.
Local Open Scope Z_scope.

Definition SQLITE_READONLY : Z := 8.
Definition PENDING_BYTE : Z := 0x40000000.
Definition WX_PAGER_MJ_PGNO (x : Z) : Z := PENDING_BYTE / x + 1.

(** ** The sizes of a B-tree *)

(** The fields of [BtShared] and [Pager] that matter here. *)
Record Bt := mk_bt { bt_pageSize : Z; bt_usableSize : Z; bt_fixed : bool; pg_pageSize : Z; pg_nReserve : Z }.

(** [sqlite3PagerSetPagesize]: [set size] is its return code and the page size of the pager
    afterwards. *)
Definition pager_set (set : Z -> Z * Z) (size nReserve : Z) (b : Bt) : Z * Bt :=
  let '(rc, actual) := set size in
  (rc, mk_bt actual (actual - nReserve) (bt_fixed b) actual (if rc =? SQLITE_OK then nReserve else pg_nReserve b)).

Definition valid_page_size (pageSize : Z) : bool :=
  (pageSize >=? 512) && (pageSize <=? SQLITE_MAX_PAGE_SIZE) && (Z.land (pageSize - 1) pageSize =? 0).

Definition sqlite3BtreeSetPageSize (set : Z -> Z * Z) (pageSize nReserve : Z) (iFix : bool) (b : Bt) : Z * Bt :=
  let x := bt_pageSize b - bt_usableSize b in
  if (x =? nReserve) && ((pageSize =? 0) || (pageSize =? bt_pageSize b)) then (SQLITE_OK, b)
  else
    let nReserve := if nReserve <? x then x else nReserve in
    if bt_fixed b then (SQLITE_READONLY, b)
    else
      let size := if valid_page_size pageSize
                  then (if (nReserve >? 32) && (pageSize =? 512) then 1024 else pageSize) else bt_pageSize b in
      let '(rc, b) := pager_set set size nReserve b in
      (rc, mk_bt (bt_pageSize b) (bt_usableSize b) (iFix || bt_fixed b) (pg_pageSize b) (pg_nReserve b)).

(** The variant that can also reduce the reserved bytes. *)
Definition sqlite3mcBtreeSetPageSize (set : Z -> Z * Z) (pageSize nReserve : Z) (iFix : bool) (b : Bt) : Z * Bt :=
  let x := bt_pageSize b - bt_usableSize b in
  let nReserve := if nReserve <? 0 then x else nReserve in
  if bt_fixed b then (SQLITE_READONLY, b)
  else
    let size := if valid_page_size pageSize then pageSize else bt_pageSize b in
    let '(rc, b) := pager_set set size nReserve b in
    (rc, mk_bt (bt_pageSize b) (bt_usableSize b) (iFix || bt_fixed b) (pg_pageSize b) (pg_nReserve b)).

Definition mcAdjustBtree (set : Z -> Z * Z) (nPageSize nReserved isLegacy : Z) (b : Bt) : Z * Bt :=
  let pagesize := if nPageSize >? 0 then nPageSize else bt_pageSize b in
  if negb (pg_pageSize b =? pagesize) || negb (pg_nReserve b =? nReserved) then
    let reserved := if nReserved >=? 0 then nReserved else 0 in
    let b := if negb (isLegacy =? 0)
             then mk_bt (bt_pageSize b) (bt_usableSize b) false (pg_pageSize b) (pg_nReserve b) else b in
    sqlite3BtreeSetPageSize set pagesize reserved false b
  else (SQLITE_OK, b).

Section CodecExt.
Context {V G : Type} (table : list (Cipher V G)).

(** ** Pages *)

(** What a call of [sqlite3mcCodec] leaves: the bytes at the returned address, the caller's
    buffer, the codec, and the error that was reported to the pager, if any. *)
Record Coded := mk_coded {
  cd_result : list Z; cd_data : list Z; cd_codec : option (Codec V); cd_env : Env G; cd_reported : option Z }.

Definition reported (rc : Z) : option Z := if rc =? SQLITE_OK then None else Some rc.

(** Encryption in the page buffer of the codec, at offset 4. *)
Definition encode_page (c : Codec V) (pageSize : nat) (data : list Z) (page : Z) (useWriteKey : bool) (env : Env G)
    : option Coded :=
  let* (rc, c, out, env) := sqlite3mcEncrypt table c page (firstn pageSize data) useWriteKey env in
  Some (mk_coded out data (Some (sqlite3mcSetCodecLastError rc (set_page (memcpy (m_page c) 4 out) c))) env (reported rc)).

(** Decryption in place; the page is cleared if it fails. *)
Definition decode_page (c : Codec V) (pageSize : nat) (data : list Z) (page : Z) (env : Env G) : option Coded :=
  let* (rc, c, out) := sqlite3mcDecrypt table c page (firstn pageSize data) in
  let out := memcpy data 0 (if rc =? SQLITE_OK then out else memset 0 pageSize) in
  Some (mk_coded out out (Some (sqlite3mcSetCodecLastError rc c)) env (reported rc)).

(** The call for a B-tree with pages of [pageSize] bytes. *)
Definition sqlite3mcCodec (codec : option (Codec V)) (pageSize : nat) (data : list Z) (nPageNum nMode : Z) (env : Env G)
    : option Coded :=
  match codec with
  | None => Some (mk_coded data data None env None)
  | Some c =>
      let untouched := Some (mk_coded data data (Some (sqlite3mcSetCodecLastError SQLITE_OK c)) env None) in
      if m_isEncrypted c =? 0 then untouched
      else if (nMode =? 0) || (nMode =? 2) || (nMode =? 3) then
        if negb (m_hasReadCipher c =? 0) then decode_page c pageSize data nPageNum env else untouched
      else if nMode =? 6 then
        if negb (m_hasWriteCipher c =? 0) then encode_page c pageSize data nPageNum true env else untouched
      else if nMode =? 7 then
        if negb (m_hasReadCipher c =? 0) then encode_page c pageSize data nPageNum false env else untouched
      else untouched
  end.

(** ** Keys *)

(** A database of a connection: the codec of its file, the environment, and its B-tree. *)
Record Db := mk_db { db_codec : option (Codec V); db_env : Env G; db_bt : Bt }.

(** A key: the bytes at the address that was passed, up to a terminating zero if the length
    is negative. *)
Definition key_length (zKey : option (list Z)) (nKey : Z) : Z :=
  match zKey with Some k => if nKey <? 0 then Z.of_nat (length k) else nKey | None => nKey end.
Definition key_bytes (zKey : option (list Z)) (nKey : Z) : list Z :=
  match zKey with Some k => firstn (Z.to_nat nKey) k | None => [] end.

Definition set_tables (t : Tables) (env : Env G) : Env G := mk_env t (e_gen env) (e_malloc env) (e_header env).

(** [sqlite3mcGetCipherType(db)]. *)
Definition cipher_type (env : Env G) : Z * Env G :=
  let '(type, t) := sqlite3mcGetCipherType true (e_tables env) in (type, set_tables t env).

(** Both sizes are told to the B-tree and to the codec. *)
Definition enforce_sizes (set : Z -> Z * Z) (c : Codec V) (b : Bt) : option (Codec V * Bt) :=
  let* pageSize := sqlite3mcGetPageSizeWriteCipher table c in
  let* reserved := sqlite3mcGetReservedWriteCipher table c in
  let* legacy := sqlite3mcGetLegacyWriteCipher table c in
  Some (sqlite3mcCodecSizeChange pageSize reserved c, snd (mcAdjustBtree set pageSize reserved legacy b)).

(** The salt given by pragma or URI, in hexadecimal digits. *)
Definition take_salt (cipherSalt : option (list Z)) (c : Codec V) : Codec V :=
  match cipherSalt with
  | Some s =>
      if (2 * KEYSALT_LENGTH <=? length s)%nat && sqlite3mcIsHexKey (firstn (2 * KEYSALT_LENGTH) s)
      then set_key_salt 1 (memcpy (m_keySalt c) 0 (sqlite3mcConvertHex2Bin s (2 * KEYSALT_LENGTH))) c
      else c
  | None => c
  end.

(** Attaching a key.  [struct_ok]: there is memory for the codec; [main]: the codec of the
    main database; [cipherSalt]: the salt that was configured, if the database has a file
    name; [uri]: the configuration from the URI of an attached database. *)
Definition sqlite3mcCodecAttach (set : Z -> Z * Z) (struct_ok : bool) (nDb : Z) (zKey : option (list Z)) (nKey : Z)
    (main : option (Codec V)) (cipherSalt : option (list Z)) (uri : Tables -> Z * Tables) (d : Db)
    : option (Z * option (Codec V) * Db) :=
  if negb struct_ok then Some (SQLITE_NOMEM, main, d)
  else
    match (if nKey <=? 0 then None else zKey) with
    | None =>
        if negb (nDb =? 0) && (nKey >? 0) then
          match main with
          | Some m =>
              if negb (m_isEncrypted m =? 0) then
                let* (rc, c, m, env) := sqlite3mcCodecCopy table sqlite3mcCodecInit m (db_env d) in
                if rc =? SQLITE_OK then
                  let* (c, b) := enforce_sizes set c (db_bt d) in
                  Some (rc, Some m, mk_db (Some c) env b)
                else Some (rc, Some m, mk_db (db_codec d) env (db_bt d))
              else Some (SQLITE_OK, main, d)
          | None => Some (SQLITE_OK, main, d)
          end
        else if (nDb =? 0) && (nKey =? 0) then Some (SQLITE_OK, None, mk_db None (db_env d) (db_bt d))
        else Some (SQLITE_OK, main, d)
    | Some key =>
        let c := take_salt cipherSalt sqlite3mcCodecInit in
        let '(rc, t) := if nDb >? 0 then uri (e_tables (db_env d)) else (SQLITE_OK, e_tables (db_env d)) in
        let env := set_tables t (db_env d) in
        let* (rc, c, env) :=
          if rc =? SQLITE_OK then
            let '(type, env) := cipher_type env in
            let* (rc, c, env) := sqlite3mcCodecSetup table c type (firstn (Z.to_nat nKey) key) env in
            Some (rc, sqlite3mcClearKeySalt c, env)
          else Some (rc, c, env) in
        if rc =? SQLITE_OK then
          let* (c, b) := enforce_sizes set c (db_bt d) in
          Some (rc, (if nDb =? 0 then Some c else main), mk_db (Some c) env b)
        else Some (rc, main, mk_db (db_codec d) env (db_bt d))
    end.

(** The key length 1 of an encrypted database tells attached databases to take its key. *)
Definition sqlite3mcCodecGetKey (d : Db) : Z :=
  match db_codec d with Some c => if negb (m_isEncrypted c =? 0) then 1 else 0 | None => 0 end.

(** Setting a key.  [supported], [named] and [found]: the VFS is the shim, the database has a
    file name, and its name is known; [configured]: the connection has its own table, without
    which the URI is consulted ([uri], whose return code is overwritten). *)
Definition sqlite3_key_v2 (set : Z -> Z * Z) (supported named found configured struct_ok : bool) (nDb : Z)
    (zKey : option (list Z)) (nKey : Z) (main : option (Codec V)) (cipherSalt : option (list Z))
    (uri : Tables -> Z * Tables) (d : Db) : option (Z * option (Codec V) * Db) :=
  let nKey := key_length zKey nKey in
  match zKey with
  | Some key =>
      if negb supported then Some (SQLITE_ERROR, main, d)
      else if nKey <? 0 then Some (SQLITE_ERROR, main, d)
      else if negb named then Some (SQLITE_ERROR, main, d)
      else
        let t := if configured then e_tables (db_env d) else snd (uri (e_tables (db_env d))) in
        let d := mk_db (db_codec d) (set_tables t (db_env d)) (db_bt d) in
        if found then sqlite3mcCodecAttach set struct_ok nDb (Some key) nKey main cipherSalt uri d
        else Some (SQLITE_ERROR, main, d)
  | None => Some (SQLITE_ERROR, main, d)
  end.

(** ** Rekeying *)

(** What the engine does during a rekey: the outcome of VACUUM for a number of reserved
    bytes, with the sizes afterwards, of starting and committing the transaction, of fetching and marking each page,
    and the effect that the page transfers have on the codec. *)
Record Engine := mk_engine {
  en_usesWal : bool; en_vacuum : Z -> Bt -> Z * Bt; en_begin : Z; en_pages : Z; en_get : Z -> Z; en_write : Z -> Z;
  en_commit : Z; en_transfer : Codec V -> Env G -> option (Codec V * Env G) }.

(** The pages that are rewritten, from page [n] on, until one fails. *)
Fixpoint rewrite_pages (en : Engine) (nSkip : Z) (n : Z) (count : nat) : Z * list Z :=
  match count with
  | O => (SQLITE_OK, [])
  | S count =>
      if n =? nSkip then rewrite_pages en nSkip (n + 1) count
      else if negb (en_get en n =? SQLITE_OK) then (en_get en n, [])
      else if negb (en_write en n =? SQLITE_OK) then (en_write en n, [])
      else let '(rc, l) := rewrite_pages en nSkip (n + 1) count in (rc, n :: l)
  end.

(** The transaction that rewrites the database: its result and the pages it rewrote. *)
Definition rewrite_database (en : Engine) (pageSize : Z) : Z * list Z :=
  if negb (en_begin en =? SQLITE_OK) then (en_begin en, [])
  else
    let '(rc, l) := rewrite_pages en (WX_PAGER_MJ_PGNO pageSize) 1 (Z.to_nat (en_pages en)) in
    (if rc =? SQLITE_OK then en_commit en else rc, l).

(** From the label [leave_rekey] on. *)
Definition leave_rekey (set : Z -> Z * Z) (rc : Z) (c : Codec V) (installed : option (Codec V)) (env : Env G) (b : Bt)
    : option (Z * Db) :=
  let* (c, env, b) :=
    if rc =? SQLITE_OK then
      if negb (m_hasWriteCipher c =? 0) then
        let* (_, c, env) := sqlite3mcCopyCipher table c false env in
        let c := sqlite3mcSetHasReadCipher 1 c in
        let* (c, b) := enforce_sizes set c b in
        Some (c, env, b)
      else Some (sqlite3mcSetIsEncrypted 0 c, env, b)
    else if negb (m_hasReadCipher c =? 0) then
      let* (_, c, env) := sqlite3mcCopyCipher table c true env in Some (c, env, b)
    else Some (sqlite3mcSetIsEncrypted 0 c, env, b) in
  let c := sqlite3mcSetWriteReserved (-1) (sqlite3mcSetReadReserved (-1) c) in
  if m_isEncrypted c =? 0 then Some (rc, mk_db None env b)
  else Some (rc, mk_db (match installed with Some _ => Some c | None => None end) env b).

(** The transaction or the VACUUM, with its effect on the codec. *)
Definition run_rekey (set : Z -> Z * Z) (en : Engine) (vacuum : option (Z * Z * Z)) (c : Codec V) (env : Env G) (b : Bt)
    : option (Z * Db) :=
  match vacuum with
  | Some (readReserved, writeReserved, nRes) =>
      let c := sqlite3mcSetWriteReserved writeReserved (sqlite3mcSetReadReserved readReserved c) in
      let* (c, env) := en_transfer en c env in
      let '(rc, b) := en_vacuum en nRes b in
      leave_rekey set rc c (Some c) env b
  | None =>
      let* (c, env) := en_transfer en c env in
      leave_rekey set (fst (rewrite_database en (bt_pageSize b))) c (Some c) env b
  end.

(** The codec exists if there is memory for it ([struct_ok]) or the database has one. *)
Definition sqlite3_rekey_v2 (set : Z -> Z * Z) (en : Engine) (supported found named struct_ok : bool)
    (zKey : option (list Z)) (nKey : Z) (d : Db) : option (Z * Db) :=
  let nKey := key_length zKey nKey in
  let key := key_bytes zKey nKey in
  let nokey := match zKey with None => true | Some _ => nKey =? 0 end in
  let b := db_bt d in
  let nReserved := bt_pageSize b - bt_usableSize b in
  let encrypted := match db_codec d with Some c => negb (m_isEncrypted c =? 0) | None => false end in
  if negb supported || negb found || negb named then Some (SQLITE_ERROR, d)
  else if en_usesWal en && (match zKey with Some _ => nKey >? 0 | None => false end) && negb encrypted
  then Some (SQLITE_ERROR, d)
  else if nokey && negb encrypted then Some (SQLITE_OK, d)
  else
    match db_codec d with
    | Some c =>
        if negb encrypted then Some (SQLITE_ERROR, d)
        else if nokey then
          let c := sqlite3mcSetHasWriteCipher 0 c in
          run_rekey set en (if nReserved >? 0 then Some (nReserved, 0, 0) else None) c (db_env d) b
        else
          let '(type, env) := cipher_type (db_env d) in
          let* (rc, c, env) := sqlite3mcSetupWriteCipher table c type key (en_usesWal en) env in
          if rc =? SQLITE_OK then
            let* size := sqlite3mcGetPageSizeWriteCipher table c in
            if (size <=? 0) || (bt_pageSize b =? size) then
              let* res := sqlite3mcGetReservedWriteCipher table c in
              run_rekey set en (if negb (nReserved =? res) then Some (nReserved, res, res) else None) c env b
            else leave_rekey set SQLITE_ERROR c (Some c) env b
          else leave_rekey set rc c (Some c) env b
    | None =>
        if negb struct_ok then Some (SQLITE_NOMEM, d)
        else
          let '(type, env) := cipher_type (db_env d) in
          let* (rc, c, env) := sqlite3mcSetupWriteCipher table sqlite3mcCodecInit type key (en_usesWal en) env in
          if rc =? SQLITE_OK then
            let* size := sqlite3mcGetPageSizeWriteCipher table c in
            if (size <=? 0) || (bt_pageSize b =? size) then
              let c := sqlite3mcSetHasReadCipher 0 c in
              let* res := sqlite3mcGetReservedWriteCipher table c in
              let* legacy := sqlite3mcGetLegacyWriteCipher table c in
              let nPagesize := bt_pageSize b in
              let b := snd (mcAdjustBtree set size res legacy b) in
              let c := sqlite3mcCodecSizeChange nPagesize res c in
              run_rekey set en (if negb (nReserved =? res) then Some (nReserved, res, res) else None) c env b
            else leave_rekey set SQLITE_ERROR c None env b
          else Some (rc, mk_db None env b)
    end.
End CodecExt.

(** * Proofs *)

Section Proofs.
Context {V G : Type} (table : list (Cipher V G)).

Lemma has_key_error type d k (c : Codec V) e :
  has_key table type d k c -> has_key table type d k (sqlite3mcSetCodecLastError e c).
Proof. intros [[A B C D E] F]. split; [split; assumption|exact F]. Qed.

Lemma has_key_flags type d k (c : Codec V) :
  has_key table type d k c -> m_isEncrypted c = 1 /\ m_hasReadCipher c = 1 /\ m_hasWriteCipher c = 1.
Proof. intros [[_ E [H1 H2] _ _] _]. auto. Qed.

(** Pages through the codec.  A page that is encrypted for the database file (mode 6) or
    for the journal (mode 7) is built in the buffer of the codec, whose copy is returned: the
    caller's page is intact.  Every codec with the same key, loading it (modes 0, 2 and 3),
    restores the content in place.  No error is reported, and both codecs keep their key. *)
Theorem codec_page_roundtrip type1 type2 d k (c1 c2 : Codec V) (env env2 : Env G) page data (toFile : bool) load :
  has_key table type1 d k c1 -> has_key table type2 d k c2 -> env_ok table d env ->
  (4 + length data <= length (m_page c1))%nat -> (load = 0 \/ load = 2 \/ load = 3) ->
  let reserved := if toFile then write_reserved c1 else read_reserved c1 in
  read_reserved c2 = reserved -> pc_page (d := c_desc d) k page reserved data ->
  exists r1 c1' r2 c2',
    sqlite3mcCodec table (Some c1) (length data) data page (if toFile then 6 else 7) env = Some r1 /\
    cd_data r1 = data /\ cd_reported r1 = None /\ length (cd_result r1) = length data /\
    cd_codec r1 = Some c1' /\ has_key table type1 d k c1' /\
    slice (m_page c1') 4 (length data) = cd_result r1 /\ env_ok table d (cd_env r1) /\
    sqlite3mcCodec table (Some c2) (length data) (cd_result r1) page load env2 = Some r2 /\
    cd_data r2 = cd_result r2 /\ cd_reported r2 = None /\ cd_codec r2 = Some c2' /\ has_key table type2 d k c2' /\
    let body := pc_body (d := c_desc d) k reserved (length data) in firstn body (cd_result r2) = firstn body data.
Proof.
  intros K1 K2 He Lp Hl reserved Rs P.
  destruct (encrypt_ok table type1 d k c1 env page data toFile K1 He P)
    as (v & c1' & data' & env' & Ee & K1' & Oe & _ & _ & _ & Pg & _ & _ & L & _ & _ & Dec).
  destruct (Dec type2 c2 K2 Rs) as (c2' & data2 & Ed & K2' & _ & L2 & _ & _ & F). fold reserved in F.
  destruct (has_key_flags _ _ _ _ K1) as (A1 & A2 & A3). destruct (has_key_flags _ _ _ _ K2) as (B1 & B2 & B3).
  set (c1s := sqlite3mcSetCodecLastError SQLITE_OK (set_page (memcpy (m_page c1') 4 data') c1')).
  exists (mk_coded data' data (Some c1s) env' None), c1s,
         (mk_coded data2 data2 (Some (sqlite3mcSetCodecLastError SQLITE_OK c2')) env2 None),
         (sqlite3mcSetCodecLastError SQLITE_OK c2').
  cbn [cd_result cd_data cd_codec cd_env cd_reported].
  split; [|do 2 (split; [reflexivity|]); split; [exact L|]; split; [reflexivity|]].
  { unfold sqlite3mcCodec, encode_page. rewrite A1, A2, A3. cbn [Z.eqb Pos.eqb negb].
    destruct toFile; cbn [Z.eqb Pos.eqb orb]; now rewrite firstn_all, Ee. }
  split; [now apply has_key_error, has_key_page|]. split.
  { change (m_page c1s) with (memcpy (m_page c1') 4 data'). rewrite Pg. now apply slice_memcpy_eq. }
  split; [exact Oe|]. split.
  { unfold sqlite3mcCodec, decode_page. rewrite B1, B2. cbn [Z.eqb Pos.eqb negb].
    replace ((load =? 0) || (load =? 2) || (load =? 3)) with true by lia.
    rewrite <- L, firstn_all, Ed. unfold reported. change (SQLITE_OK =? SQLITE_OK) with true. cbn iota.
    rewrite memcpy_all by lia. reflexivity. }
  do 3 (split; [reflexivity|]). split; [now apply has_key_error|exact F].
Qed.

(** ** Rekeying *)

(** The ciphers that the flags announce exist. *)
Definition usable (c : Codec V) : Prop :=
  (m_hasReadCipher c <> 0 -> exists r d, m_readCipher c = Some r /\ descriptor table (m_readCipherType c) = Some d /\
                                         pc_ready (d := c_desc d) r) /\
  (m_hasWriteCipher c <> 0 -> exists w d, m_writeCipher c = Some w /\ descriptor table (m_writeCipherType c) = Some d /\
                                          pc_ready (d := c_desc d) w).

Definition obj_alike (type : Z) (o o' : option V) : Prop :=
  match o, o' with
  | None, None => True
  | Some a, Some b => forall d, descriptor table type = Some d ->
      (pc_ready (d := c_desc d) a -> pc_ready (d := c_desc d) b) /\ pc_same (d := c_desc d) b a
  | _, _ => False
  end.

(** A codec after page transfers: the keys and the flags are the same. *)
Definition alike (c c' : Codec V) : Prop :=
  m_isEncrypted c' = m_isEncrypted c /\ m_hasReadCipher c' = m_hasReadCipher c /\
  m_hasWriteCipher c' = m_hasWriteCipher c /\ m_readCipherType c' = m_readCipherType c /\
  m_writeCipherType c' = m_writeCipherType c /\ obj_alike (m_readCipherType c) (m_readCipher c) (m_readCipher c') /\
  obj_alike (m_writeCipherType c) (m_writeCipher c) (m_writeCipher c').

(** The engine transfers pages through usable codecs, and does nothing else with them. *)
Definition transfers_pages (en : Engine (V := V) (G := G)) : Prop :=
  forall c env, usable c -> registered table (e_tables env) ->
  exists c' env', en_transfer en c env = Some (c', env') /\ alike c c' /\ registered table (e_tables env') /\
                  e_malloc env' = e_malloc env.

(** The read cipher of type [type] with the key [k]. *)
Definition reads (type : Z) (d : Cipher V G) (k : V) (c : Codec V) : Prop :=
  descriptor table type = Some d /\ m_readCipherType c = type /\
  exists r, m_readCipher c = Some r /\ pc_ready (d := c_desc d) r /\ pc_same (d := c_desc d) r k.
Definition writes (type : Z) (d : Cipher V G) (k : V) (c : Codec V) : Prop :=
  descriptor table type = Some d /\ m_writeCipherType c = type /\
  exists w, m_writeCipher c = Some w /\ pc_ready (d := c_desc d) w /\ pc_same (d := c_desc d) w k.

Lemma alike_reads type d k c c' : alike c c' -> reads type d k c -> reads type d k c'.
Proof.
  intros (_ & _ & _ & T & _ & A & _) (D & E & r & R & P & S). rewrite E, R in A. split; [exact D|]. split; [congruence|].
  unfold obj_alike in A. destruct (m_readCipher c') as [r'|]; [|contradiction]. destruct (A d D) as [A1 A2].
  exists r'. split; [reflexivity|]. split; [auto|]. now apply same_trans with r.
Qed.

Lemma alike_writes type d k c c' : alike c c' -> writes type d k c -> writes type d k c'.
Proof.
  intros (_ & _ & _ & _ & T & _ & A) (D & E & r & R & P & S). rewrite E, R in A. split; [exact D|]. split; [congruence|].
  unfold obj_alike in A. destruct (m_writeCipher c') as [r'|]; [|contradiction]. destruct (A d D) as [A1 A2].
  exists r'. split; [reflexivity|]. split; [auto|]. now apply same_trans with r.
Qed.

Lemma has_key_change type d k1 k2 (c : Codec V) :
  has_key table type d k1 c -> pc_same (d := c_desc d) k1 k2 -> has_key table type d k2 c.
Proof. intros (A & r & E & S) H. split; [exact A|]. exists r. split; [exact E|]. now apply same_trans with k1. Qed.

Lemma has_key_reads type d k (c : Codec V) : has_key table type d k c -> reads type d k c /\ writes type d k c.
Proof.
  intros [[D _ _ [T1 T2] (r & w & Er & Ew & Rr & Rw & S)] (r0 & E0 & Sk)]. rewrite Er in E0. injection E0 as <-.
  split; (split; [exact D|]); (split; [assumption|]); [exists r|exists w]; repeat split; auto. now apply same_trans with r.
Qed.

Lemma has_key_reserved type d k (c : Codec V) x y :
  has_key table type d k c -> has_key table type d k (sqlite3mcSetWriteReserved x (sqlite3mcSetReadReserved y c)).
Proof. intros [[A B C D E] F]. split; [split; assumption|exact F]. Qed.

(** The sizes can be told to the B-tree. *)
Lemma enforce_total set type d k (c : Codec V) b :
  has_key table type d k c ->
  exists size res b', enforce_sizes table set c b = Some (sqlite3mcCodecSizeChange size res c, b').
Proof.
  intros K. destruct (has_key_flags _ _ _ _ K) as (_ & _ & H). destruct (has_key_reads _ _ _ _ K) as [_ (D & T & w & W & _)].
  unfold enforce_sizes, sqlite3mcGetPageSizeWriteCipher, sqlite3mcGetReservedWriteCipher, sqlite3mcGetLegacyWriteCipher, getter.
  rewrite H, T, W, D. cbn. eauto.
Qed.

(** The final state of a rekey that succeeded: both ciphers have the key of the write cipher. *)
Lemma leave_success set type d w (c : Codec V) (env : Env G) b :
  writes type d w c -> m_isEncrypted c = 1 -> m_hasWriteCipher c = 1 ->
  registered table (e_tables env) -> e_malloc env = [] ->
  (forall r, m_readCipher c = Some r -> exists d', descriptor table (m_readCipherType c) = Some d' /\
                                                   pc_ready (d := c_desc d') r) ->
  exists c' env' b', leave_rekey table set SQLITE_OK c (Some c) env b = Some (SQLITE_OK, mk_db (Some c') env' b') /\
    has_key table type d w c' /\ m_readReserved c' = -1 /\ m_writeReserved c' = -1.
Proof.
  intros (D & T & w0 & W & Rw & Sw) E H Ht Hm Hr. unfold leave_rekey. change (SQLITE_OK =? SQLITE_OK) with true.
  rewrite H. cbn [Z.eqb negb]. set (c0 := sqlite3mcSetHasReadCipher 1 c).
  assert (Ec : c = sqlite3mcSetHasReadCipher (m_hasReadCipher c) c0) by now destruct c.
  destruct (copy_to_read table d c0 env w0) as (c1 & env1 & E1 & _ & _ & K1); auto.
  { split; [cbn; now rewrite T|]. repeat split; auto. }
  { intros r Er. destruct (Hr r Er) as (d' & D' & Rd'). split; [|eauto]. intros Q. cbn in Q.
    assert (d' = d) by congruence. now subst. }
  rewrite Ec, copy_flag_read, E1. clear Ec.
  assert (K : has_key table type d w (sqlite3mcSetHasReadCipher 1 (sqlite3mcSetHasReadCipher (m_hasReadCipher c) c1))).
  { apply has_key_change with w0; [|exact Sw]. replace type with (m_writeCipherType c0) by exact T.
    destruct K1 as [[A1 A2 [A3 A4] A5 A6] A7]. split; [split; auto|exact A7]. }
  destruct (enforce_total set type d w _ b K) as (size & res & b' & ->).
  destruct (has_key_flags _ _ _ _ K) as (E' & _).
  set (c2 := sqlite3mcSetHasReadCipher 1 (sqlite3mcSetHasReadCipher _ c1)) in *. cbn zeta.
  change (m_isEncrypted (sqlite3mcSetWriteReserved (-1) (sqlite3mcSetReadReserved (-1) (sqlite3mcCodecSizeChange size res c2))))
    with (m_isEncrypted c2). rewrite E'. cbn [Z.eqb].
  do 3 eexists. split; [reflexivity|]. split; [now apply has_key_reserved, has_key_size|]. split; reflexivity.
Qed.

(** The final state of a rekey that failed: the write cipher is the read cipher again, but
    its flag stays as it is. *)
Lemma leave_failure set type d k (c : Codec V) (env : Env G) b rc :
  rc <> SQLITE_OK -> reads type d k c -> m_isEncrypted c = 1 -> m_hasReadCipher c = 1 ->
  registered table (e_tables env) -> e_malloc env = [] ->
  (forall w, m_writeCipher c = Some w -> exists d', descriptor table (m_writeCipherType c) = Some d' /\
                                                    pc_ready (d := c_desc d') w) ->
  exists c' env', leave_rekey table set rc c (Some c) env b =
      Some (rc, mk_db (Some (sqlite3mcSetHasWriteCipher (m_hasWriteCipher c) c')) env' b) /\
    has_key table type d k c' /\ m_readReserved c' = -1 /\ m_writeReserved c' = -1.
Proof.
  intros Hrc (D & T & r0 & R & Rr & Sr) E H Ht Hm Hw. unfold leave_rekey.
  rewrite (proj2 (Z.eqb_neq rc SQLITE_OK) Hrc), H. cbn [Z.eqb negb]. set (c0 := sqlite3mcSetHasWriteCipher 1 c).
  assert (Ec : c = sqlite3mcSetHasWriteCipher (m_hasWriteCipher c) c0) by now destruct c.
  destruct (copy_to_write table d c0 env r0) as (rc1 & c1 & env1 & E1 & _ & Fu & _ & _ & _ & _ & _ & _ & Ok); auto.
  { split; [cbn; now rewrite T|]. repeat split; auto. }
  { intros w Ew. destruct (Hw w Ew) as (d' & D' & Rd'). split; [|eauto]. intros Q. cbn in Q.
    assert (d' = d) by congruence. now subst. }
  destruct (Fu Hm) as [-> _]. destruct (Ok eq_refl) as [Co (r1 & Er1 & S1)].
  assert (Cp : sqlite3mcCopyCipher table c true env =
               Some (SQLITE_OK, sqlite3mcSetHasWriteCipher (m_hasWriteCipher c) c1, env1))
    by (rewrite Ec, copy_flag, E1; reflexivity).
  rewrite Cp. cbn zeta.
  set (x := m_hasWriteCipher c). clear Ec.
  assert (Ex : m_isEncrypted c1 = 1) by apply Co.
  change (m_isEncrypted (sqlite3mcSetWriteReserved (-1) (sqlite3mcSetReadReserved (-1) (sqlite3mcSetHasWriteCipher x c1))))
    with (m_isEncrypted c1). rewrite Ex. cbn [Z.eqb].
  exists (sqlite3mcSetWriteReserved (-1) (sqlite3mcSetReadReserved (-1) c1)), env1. split; [reflexivity|].
  split; [|split; reflexivity]. apply has_key_reserved. replace type with (m_readCipherType c0) by exact T.
  split; [exact Co|]. exists r1. split; [exact Er1|]. now apply same_trans with r0.
Qed.

(** Looking up the cipher type keeps the registration. *)
Lemma codec_cipher_type (env : Env G) :
  registered table (e_tables env) ->
  exists type t, cipher_type env = (type, mk_env t (e_gen env) (e_malloc env) (e_header env)) /\ registered table t.
Proof.
  intros R. unfold cipher_type, sqlite3mcGetCipherType, set_tables. destruct (connectionTable (e_tables env)) as [c|] eqn:C.
  - destruct (param_index _ _); do 2 eexists; (split; [reflexivity|]); now apply registered_connection.
  - assert (X : forall ps, registered table (mk_tables ps (cipherTable (e_tables env)) (globalCipherCount (e_tables env)) None)).
    { intros ps. destruct R as (l & k & R). exists l, k. rewrite C in R. exact R. }
    destruct (param_index _ _); do 2 eexists; (split; [reflexivity|]); apply X.
Qed.

(** A codec between its setup for a rekey and the end of the rekey: the read cipher with the
    old key (or none), the write cipher with the new one. *)
Lemma between_usable type1 d1 k type2 d2 w (c : Codec V) :
  reads type1 d1 k c -> writes type2 d2 w c -> usable c.
Proof.
  intros (D1 & T1 & r & R & P & _) (D2 & T2 & w' & W & Q & _). split; intros _; [exists r, d1|exists w', d2];
    rewrite ?T1, ?T2; auto.
Qed.

(** The transfer and the end of a rekey of an encrypted database. *)
Lemma finish_rekey set en type1 d1 k type2 d2 w (c : Codec V) (env : Env G) b rc :
  transfers_pages en -> reads type1 d1 k c -> writes type2 d2 w c ->
  m_isEncrypted c = 1 -> m_hasReadCipher c = 1 -> m_hasWriteCipher c = 1 ->
  registered table (e_tables env) -> e_malloc env = [] ->
  exists c' env' b',
    (let* (c, env) := en_transfer en c env in leave_rekey table set rc c (Some c) env b) =
      Some (rc, mk_db (Some c') env' b') /\ m_readReserved c' = -1 /\ m_writeReserved c' = -1 /\
    (rc = SQLITE_OK -> has_key table type2 d2 w c') /\ (rc <> SQLITE_OK -> has_key table type1 d1 k c').
Proof.
  intros Ht Hr Hw E H1 H2 R M.
  destruct (Ht c env (between_usable _ _ _ _ _ _ _ Hr Hw) R) as (c1 & env1 & -> & A & R1 & M1).
  pose proof (alike_reads _ _ _ _ _ A Hr) as Hr1. pose proof (alike_writes _ _ _ _ _ A Hw) as Hw1.
  destruct A as (A1 & A2 & A3 & _). rewrite M in M1.
  destruct (Z.eq_dec rc SQLITE_OK) as [->|Hrc].
  - destruct (leave_success set type2 d2 w c1 env1 b Hw1) as (c' & env' & b' & -> & K & Q1 & Q2);
      rewrite ?A1, ?A3; auto.
    + intros r Er. destruct Hr1 as (D & T & r' & R' & P & _). exists d1. rewrite T. split; [exact D|congruence].
    + exists c', env', b'. do 3 (split; [auto|]). split; [auto|]. intros X. now contradiction X.
  - destruct (leave_failure set type1 d1 k c1 env1 b rc Hrc Hr1) as (c' & env' & -> & K & Q1 & Q2);
      rewrite ?A1, ?A2; auto.
    + intros r Er. destruct Hw1 as (D & T & r' & R' & P & _). exists d2. rewrite T. split; [exact D|congruence].
    + rewrite A3, H2. assert (Ec : sqlite3mcSetHasWriteCipher 1 c' = c').
      { destruct (has_key_flags _ _ _ _ K) as (_ & _ & F). destruct c'. cbn in *. now subst. }
      rewrite Ec. exists c', env', b. do 3 (split; [auto|]). split; [contradiction|auto].
Qed.

(** Changing the key of an encrypted database is all or nothing for its codec.  With
    memory for the new cipher, whatever VACUUM, the transaction, the page accesses and the
    commit return, and also if the page size does not fit: if the rekey returns SQLITE_OK,
    both ciphers of the codec have the key derived from the new password; if it returns an
    error, both ciphers have the old key, so the database stays readable and writable.  The
    temporary numbers of reserved bytes are gone in either case. *)
Theorem rekey_all_or_nothing set en struct_ok type1 d1 k type2 d2 key (c : Codec V) (env env2 : Env G) b :
  transfers_pages en -> has_key table type1 d1 k c -> salt_ok (key_salt c) ->
  registered table (e_tables env) -> e_malloc env = [] -> salt_ok (e_header env) ->
  cipher_type env = (type2, env2) -> descriptor table type2 = Some d2 -> pc_gen (d := c_desc d2) (e_gen env) ->
  key <> [] -> password_ok key ->
  exists rc c' env' b' w,
    sqlite3_rekey_v2 table set en true true true struct_ok (Some key) (Z.of_nat (length key)) (mk_db (Some c) env b) =
      Some (rc, mk_db (Some c') env' b') /\
    rederived d2 c env2 key (en_usesWal en) w /\ m_readReserved c' = -1 /\ m_writeReserved c' = -1 /\
    (rc = SQLITE_OK -> has_key table type2 d2 w c') /\ (rc <> SQLITE_OK -> has_key table type1 d1 k c').
Proof.
  intros Ht K Hs R M Hh Ct D2 Hg Hk Hp. destruct (has_key_flags _ _ _ _ K) as (E1 & E2 & E3).
  destruct (has_key_reads _ _ _ _ K) as [Hr (Dw & Tw & w1 & Ew & _)].
  destruct (codec_cipher_type env R) as (ty & t & Ct' & Rt). rewrite Ct in Ct'. injection Ct' as <- ->.
  destruct (setup_write table type2 d2 c (mk_env t (e_gen env) (e_malloc env) (e_header env)) key (en_usesWal en))
    as (h & wl & w & env' & (Re & _) & Me & Rw & De & Es); auto; [now split|intros _; rewrite Tw; eauto|].
  set (c1 := set_write 1 _ _ _ _) in Es.
  assert (R1 : reads type1 d1 k c1) by exact Hr.
  assert (W1 : writes type2 d2 w c1) by (split; [exact D2|]; split; [reflexivity|]; exists w; auto using same_refl).
  unfold sqlite3_rekey_v2. cbn [db_codec db_bt db_env negb orb].
  assert (N0 : key_length (Some key) (Z.of_nat (length key)) = Z.of_nat (length key))
    by (unfold key_length; now rewrite (proj2 (Z.ltb_ge (Z.of_nat (length key)) 0)) by apply Nat2Z.is_nonneg).
  rewrite N0. unfold key_bytes. rewrite Nat2Z.id, firstn_all, E1.
  assert (N1 : (Z.of_nat (length key) =? 0) = false) by (destruct key; [contradiction|reflexivity]). rewrite N1.
  cbn [Z.eqb negb]. rewrite !andb_false_r. cbn [andb]. rewrite Ct, Es. change (SQLITE_OK =? SQLITE_OK) with true.
  unfold sqlite3mcGetPageSizeWriteCipher, sqlite3mcGetReservedWriteCipher, getter.
  cbn [c1 set_write m_hasWriteCipher m_writeCipher m_writeCipherType Z.eqb negb]. fold c1. rewrite D2.
  assert (Fin := fun c2 b2 rc (A : reads type1 d1 k c2) (B : writes type2 d2 w c2) (F1 : m_isEncrypted c2 = 1)
     (F2 : m_hasReadCipher c2 = 1) (F3 : m_hasWriteCipher c2 = 1) =>
     finish_rekey set en type1 d1 k type2 d2 w c2 env' b2 rc Ht A B F1 F2 F3 Re Me).
  destruct (_ || _).
  - destruct (negb _); unfold run_rekey.
    + set (c2 := sqlite3mcSetWriteReserved _ _). destruct (en_vacuum en _ b) as [rc b2].
      destruct (Fin c2 b2 rc R1 W1 eq_refl E2 eq_refl) as (c' & e' & b' & Er & Q).
      exists rc, c', e', b', w. split; [|tauto]. rewrite <- Er. now destruct (en_transfer en c2 env') as [[? ?]|].
    + destruct (Fin c1 b (fst (rewrite_database en (bt_pageSize b))) R1 W1 eq_refl E2 eq_refl) as (c' & e' & b' & Er & Q).
      exists (fst (rewrite_database en (bt_pageSize b))), c', e', b', w. split; [exact Er|tauto].
  - destruct (leave_failure set type1 d1 k c1 env' b SQLITE_ERROR) as (c' & e' & Er & K' & Q1 & Q2); auto; [discriminate| |].
    + intros x X. injection X as <-. exists d2. auto.
    + exists SQLITE_ERROR, c', e', b, w. rewrite Er.
      assert (Ec : sqlite3mcSetHasWriteCipher (m_hasWriteCipher c1) c' = c').
      { destruct (has_key_flags _ _ _ _ K') as (_ & _ & F). destruct c'. cbn in *. now subst. }
      rewrite Ec. split; [reflexivity|]. do 3 (split; [assumption|]). split; [discriminate|auto].
Qed.

(** The transfer and the end of a removal of the key. *)
Lemma finish_removal set en type d k (c : Codec V) (env : Env G) b rc :
  transfers_pages en -> reads type d k c -> writes type d k c ->
  m_isEncrypted c = 1 -> m_hasReadCipher c = 1 -> m_hasWriteCipher c = 0 ->
  registered table (e_tables env) -> e_malloc env = [] ->
  exists o env' b',
    (let* (c, env) := en_transfer en c env in leave_rekey table set rc c (Some c) env b) = Some (rc, mk_db o env' b') /\
    (rc = SQLITE_OK -> o = None) /\
    (rc <> SQLITE_OK -> exists c', o = Some (sqlite3mcSetHasWriteCipher 0 c') /\ has_key table type d k c').
Proof.
  intros Ht Hr Hw E H1 H2 R M.
  assert (U : usable c).
  { split; [|now rewrite H2]. intros _. destruct Hr as (D & T & r & Er & P & _). exists r, d. now rewrite T. }
  destruct (Ht c env U R) as (c1 & env1 & -> & A & R1 & M1). rewrite M in M1.
  pose proof (alike_reads _ _ _ _ _ A Hr) as Hr1. pose proof (alike_writes _ _ _ _ _ A Hw) as Hw1.
  destruct A as (A1 & A2 & A3 & _). destruct (Z.eq_dec rc SQLITE_OK) as [->|Hrc].
  - unfold leave_rekey. rewrite A3, H2. cbn. do 3 eexists. split; [reflexivity|]. split; [auto|]. intros X. now contradiction X.
  - destruct (leave_failure set type d k c1 env1 b rc Hrc Hr1) as (c' & env' & -> & K & _); rewrite ?A1, ?A2; auto.
    + intros r Er. destruct Hw1 as (D & T & r' & R' & P & _). exists d. rewrite T. split; [exact D|congruence].
    + rewrite A3, H2. do 3 eexists. split; [reflexivity|]. split; [contradiction|]. intros _. exists c'. auto.
Qed.

(** A failed removal of the key turns encryption off.  If the rekey without a key
    succeeds the database has no codec.  If it fails, in VACUUM, at the start of the
    transaction, on a page or at the commit, the codec still counts as encrypted and still
    decrypts pages that are loaded, but every page that is written to the database file from
    then on is returned in plain text, without an error. *)
Theorem rekey_removal_failure set en struct_ok type d k (c : Codec V) (env : Env G) b nKey :
  transfers_pages en -> has_key table type d k c -> registered table (e_tables env) -> e_malloc env = [] ->
  let rc := if bt_pageSize b - bt_usableSize b >? 0 then fst (en_vacuum en 0 b)
            else fst (rewrite_database en (bt_pageSize b)) in
  exists o env' b',
    sqlite3_rekey_v2 table set en true true true struct_ok None nKey (mk_db (Some c) env b) = Some (rc, mk_db o env' b') /\
    (rc = SQLITE_OK -> o = None) /\
    (rc <> SQLITE_OK -> exists c', o = Some c' /\ m_isEncrypted c' = 1 /\ reads type d k c' /\
       forall pageSize data page e, exists r, sqlite3mcCodec table o pageSize data page 6 e = Some r /\
         cd_result r = data /\ cd_reported r = None).
Proof.
  intros Ht K R M rc. destruct (has_key_flags _ _ _ _ K) as (E1 & E2 & E3). destruct (has_key_reads _ _ _ _ K) as [Hr Hw].
  assert (Out : exists o env' b',
    sqlite3_rekey_v2 table set en true true true struct_ok None nKey (mk_db (Some c) env b) = Some (rc, mk_db o env' b') /\
    (rc = SQLITE_OK -> o = None) /\
    (rc <> SQLITE_OK -> exists c', o = Some (sqlite3mcSetHasWriteCipher 0 c') /\ has_key table type d k c')).
  { unfold rc, sqlite3_rekey_v2, run_rekey. cbn [db_codec db_bt db_env negb orb key_length].
    rewrite E1, !andb_false_r. cbn [Z.eqb negb andb]. destruct (_ >? 0).
    - set (c2 := sqlite3mcSetWriteReserved 0 _). destruct (en_vacuum en 0 b) as [rv b2]. cbn [fst].
      destruct (finish_removal set en type d k c2 env b2 rv) as (o & env' & b' & Er & H); auto.
      exists o, env', b'. split; [|exact H]. rewrite <- Er. now destruct (en_transfer en c2 env) as [[? ?]|].
    - now apply finish_removal with (k := k) (c := sqlite3mcSetHasWriteCipher 0 c). }
  destruct Out as (o & env' & b' & Er & H1 & H2). exists o, env', b'. split; [exact Er|]. split; [exact H1|].
  intros Hrc. destruct (H2 Hrc) as (c' & -> & K'). exists (sqlite3mcSetHasWriteCipher 0 c'). split; [reflexivity|].
  destruct (has_key_flags _ _ _ _ K') as (F1 & _). split; [exact F1|].
  split; [exact (proj1 (has_key_reads _ _ _ _ K'))|]. intros pageSize data page e. unfold sqlite3mcCodec.
  change (m_isEncrypted (sqlite3mcSetHasWriteCipher 0 c')) with (m_isEncrypted c'). rewrite F1. cbn.
  eexists. split; [reflexivity|]. auto.
Qed.

(** ** The rewriting of the pages *)

Lemma rewrite_pages_all en nSkip n count :
  let '(rc, l) := rewrite_pages (V := V) (G := G) en nSkip n count in
  let pages := filter (fun p => negb (p =? nSkip)) (map (fun i => n + Z.of_nat i) (seq 0 count)) in
  exists rest, pages = l ++ rest /\ (rc = SQLITE_OK -> rest = []) /\
    Forall (fun p => en_get en p = SQLITE_OK /\ en_write en p = SQLITE_OK) l /\
    (rc <> SQLITE_OK -> exists p rest', rest = p :: rest' /\ (rc = en_get en p \/ rc = en_write en p)).
Proof.
  revert n. induction count as [|count IH]; intros n; cbn [rewrite_pages].
  { exists []. repeat split; auto. intros X. now contradiction X. }
  specialize (IH (n + 1)).
  assert (Em : map (fun i => n + Z.of_nat i) (seq 0 (S count)) =
               n :: map (fun i => n + 1 + Z.of_nat i) (seq 0 count)).
  { cbn [seq map]. f_equal; [lia|]. rewrite <- seq_shift, map_map. apply map_ext. intros i. lia. }
  rewrite Em. cbn [filter]. destruct (n =? nSkip); cbn [negb]; [exact IH|].
  destruct (Z.eqb_spec (en_get en n) SQLITE_OK) as [Eg|Eg]; cbn [negb].
  2:{ eexists. split; [reflexivity|]. split; [contradiction|]. split; [constructor|eauto]. }
  destruct (Z.eqb_spec (en_write en n) SQLITE_OK) as [Ew|Ew]; cbn [negb].
  2:{ eexists. split; [reflexivity|]. split; [contradiction|]. split; [constructor|eauto]. }
  destruct (rewrite_pages en nSkip (n + 1) count) as [rc l]. destruct IH as (rest & -> & H1 & H2 & H3).
  exists rest. split; [reflexivity|]. auto.
Qed.

(** A transaction that rewrites the database and reports success has fetched and marked
    as changed, in order and once each, all pages but the one that holds the lock bytes,
    which is not encrypted.  Otherwise it has stopped at the first failure: the start of the
    transaction, a page, or the commit. *)
Theorem rewrite_complete (en : Engine (V := V) (G := G)) pageSize :
  let pages := filter (fun p => negb (p =? PENDING_BYTE / pageSize + 1))
                      (map (fun i => 1 + Z.of_nat i) (seq 0 (Z.to_nat (en_pages en)))) in
  let '(rc, l) := rewrite_database en pageSize in
  (rc = SQLITE_OK <-> en_begin en = SQLITE_OK /\ en_commit en = SQLITE_OK /\
     Forall (fun p => en_get en p = SQLITE_OK /\ en_write en p = SQLITE_OK) pages) /\
  (rc = SQLITE_OK -> l = pages) /\ exists rest, pages = l ++ rest.
Proof.
  intros pages. unfold rewrite_database.
  destruct (Z.eqb_spec (en_begin en) SQLITE_OK) as [Eb|Eb]; cbn [negb].
  2:{ split; [split; [contradiction|intros [X _]; contradiction]|]. split; [contradiction|]. now exists pages. }
  pose proof (rewrite_pages_all en (WX_PAGER_MJ_PGNO pageSize) 1 (Z.to_nat (en_pages en))) as H.
  change (filter _ _) with pages in H.
  destruct (rewrite_pages en (WX_PAGER_MJ_PGNO pageSize) 1 (Z.to_nat (en_pages en))) as [rc l].
  destruct H as (rest & Ep & H1 & H2 & H3). destruct (Z.eqb_spec rc SQLITE_OK) as [->|Hrc].
  - specialize (H1 eq_refl). subst rest. rewrite app_nil_r in Ep. rewrite <- Ep in H2.
    split; [split; [auto|tauto]|]. split; [auto|]. exists []. now rewrite app_nil_r.
  - split; [|split; [contradiction|eauto]]. split; [contradiction|]. intros (_ & _ & F). exfalso.
    destruct (H3 Hrc) as (p & rest' & -> & Hp). rewrite Ep in F. apply Forall_app in F as [_ F].
    inversion F as [|? ? [F1 F2] _]. subst. destruct Hp; congruence.
Qed.

(** ** Encryption of a plain database *)

Lemma finish_encryption set en type d w (c : Codec V) (env : Env G) b rc :
  transfers_pages en -> writes type d w c -> m_readCipher c = None ->
  m_isEncrypted c = 1 -> m_hasReadCipher c = 0 -> m_hasWriteCipher c = 1 ->
  registered table (e_tables env) -> e_malloc env = [] ->
  exists o env' b',
    (let* (c, env) := en_transfer en c env in leave_rekey table set rc c (Some c) env b) = Some (rc, mk_db o env' b') /\
    (rc = SQLITE_OK -> exists c', o = Some c' /\ has_key table type d w c' /\ m_writeReserved c' = -1) /\
    (rc <> SQLITE_OK -> o = None).
Proof.
  intros Ht Hw Nr E H1 H2 R M.
  assert (U : usable c).
  { split; [now rewrite H1|]. intros _. destruct Hw as (D & T & x & Ex & P & _). exists x, d. now rewrite T. }
  destruct (Ht c env U R) as (c1 & env1 & -> & A & R1 & M1). rewrite M in M1.
  pose proof (alike_writes _ _ _ _ _ A Hw) as Hw1. destruct A as (A1 & A2 & A3 & _ & _ & A6 & _).
  rewrite Nr in A6. unfold obj_alike in A6. destruct (Z.eq_dec rc SQLITE_OK) as [->|Hrc].
  - destruct (leave_success set type d w c1 env1 b Hw1) as (c' & env' & b' & -> & K & _ & Q); rewrite ?A1, ?A3; auto.
    + intros r Er. rewrite Er in A6. contradiction.
    + exists (Some c'), env', b'. split; [reflexivity|]. split; [eauto|]. intros X. now contradiction X.
  - unfold leave_rekey. rewrite (proj2 (Z.eqb_neq rc SQLITE_OK) Hrc), A2, H1. cbn.
    exists None, env1, b. split; [reflexivity|]. split; [contradiction|reflexivity].
Qed.

(** Encrypting a plain database in rollback mode: with memory for the codec and the new
    cipher, if the rekey returns SQLITE_OK the database has a codec whose two ciphers have
    the key derived from the password; if VACUUM, the transaction or the page size makes it
    fail, the database has no codec, as before. *)
Theorem rekey_encrypts set en type d key (env env2 : Env G) b :
  transfers_pages en -> en_usesWal en = false -> registered table (e_tables env) -> e_malloc env = [] ->
  salt_ok (e_header env) -> cipher_type env = (type, env2) -> descriptor table type = Some d ->
  pc_gen (d := c_desc d) (e_gen env) -> key <> [] -> password_ok key ->
  exists rc o env' b' w,
    sqlite3_rekey_v2 table set en true true true true (Some key) (Z.of_nat (length key)) (mk_db None env b) =
      Some (rc, mk_db o env' b') /\
    rederived d (sqlite3mcCodecInit (V := V)) env2 key false w /\
    (rc = SQLITE_OK -> exists c', o = Some c' /\ has_key table type d w c' /\ m_writeReserved c' = -1) /\
    (rc <> SQLITE_OK -> o = None).
Proof.
  intros Ht Wal R M Hh Ct D Hg Hk Hp.
  destruct (codec_cipher_type env R) as (ty & t & Ct' & Rt). rewrite Ct in Ct'. injection Ct' as <- ->.
  destruct (setup_write table type d (sqlite3mcCodecInit (V := V)) (mk_env t (e_gen env) (e_malloc env) (e_header env))
              key false) as (h & wl & w & env' & (Re & _) & Me & Rw & De & Es); auto; [now split|exact Logic.I|easy|].
  set (c1 := set_write 1 _ _ _ _) in Es.
  assert (W1 : writes type d w c1) by (split; [exact D|]; split; [reflexivity|]; exists w; auto using same_refl).
  unfold sqlite3_rekey_v2. cbn [db_codec db_bt db_env negb orb]. rewrite Wal. cbn [andb].
  assert (N0 : key_length (Some key) (Z.of_nat (length key)) = Z.of_nat (length key))
    by (unfold key_length; now rewrite (proj2 (Z.ltb_ge (Z.of_nat (length key)) 0)) by apply Nat2Z.is_nonneg).
  rewrite N0. unfold key_bytes. rewrite Nat2Z.id, firstn_all.
  assert (N1 : (Z.of_nat (length key) =? 0) = false) by (destruct key; [contradiction|reflexivity]). rewrite N1.
  cbn [andb]. rewrite Ct, Es. change (SQLITE_OK =? SQLITE_OK) with true.
  unfold sqlite3mcGetPageSizeWriteCipher, sqlite3mcGetReservedWriteCipher, sqlite3mcGetLegacyWriteCipher, getter.
  cbn [c1 set_write set_read sqlite3mcSetHasReadCipher m_hasWriteCipher m_writeCipher m_writeCipherType Z.eqb negb].
  fold c1. rewrite D. destruct (_ || _).
  - set (b1 := snd (mcAdjustBtree _ _ _ _ _)). unfold run_rekey.
    assert (Fin := fun c2 b2 rc A B C F1 F2 => finish_encryption set en type d w c2 env' b2 rc Ht A B C F1 F2 Re Me).
    destruct (negb _).
    + set (c2 := sqlite3mcSetWriteReserved _ _). destruct (en_vacuum en _ b1) as [rc b2].
      destruct (Fin c2 b2 rc W1 eq_refl eq_refl eq_refl eq_refl) as (o & e' & b' & Er & Q).
      exists rc, o, e', b', w. split; [|tauto]. rewrite <- Er. now destruct (en_transfer en c2 env') as [[? ?]|].
    + set (c2 := sqlite3mcCodecSizeChange _ _ _). set (rc := fst (rewrite_database en (bt_pageSize b1))).
      destruct (Fin c2 b1 rc W1 eq_refl eq_refl eq_refl eq_refl) as (o & e' & b' & Er & Q).
      exists rc, o, e', b', w. split; [exact Er|tauto].
  - unfold leave_rekey. cbn. do 5 eexists. split; [reflexivity|]. split; [exact De|]. split; [discriminate|reflexivity].
Qed.

(** ** Attaching a key *)

Lemma take_salt_ok s (c : Codec V) :
  length (m_keySalt c) = 16%nat -> m_hasKeySalt c = 0 -> salt_ok (key_salt (take_salt s c)).
Proof.
  intros L H. assert (N : salt_ok (key_salt c)) by (unfold key_salt; rewrite H; exact Logic.I).
  unfold take_salt. destruct s as [s|]; [|exact N]. destruct (_ && _); [|exact N].
  destruct (hex2bin_ok s (2 * KEYSALT_LENGTH)) as [Lb Bb]. change (2 * KEYSALT_LENGTH / 2)%nat with 16%nat in Lb.
  change (salt_ok (Some (memcpy (m_keySalt c) 0 (sqlite3mcConvertHex2Bin s (2 * KEYSALT_LENGTH))))).
  rewrite memcpy_all by congruence. split; [exact Bb|]. rewrite Lb. apply le_n.
Qed.

Lemma take_salt_init s : m_writeCipher (take_salt s (sqlite3mcCodecInit (V := V))) = None.
Proof. unfold take_salt. destruct s as [s|]; [|reflexivity]. now destruct (_ && _). Qed.

(** Setting a key.  With memory, a key of at least one byte for the main database yields a
    codec whose two ciphers have the key derived from it, with the configured salt or that of
    the file, and the salt is cleared from the codec.  A database that is attached without a
    key of its own then gets a codec with the same key, and the main database keeps its. *)
Theorem key_attached set type d key cipherSalt uri (o main : option (Codec V)) (env env2 : Env G) b :
  registered table (e_tables env) -> e_malloc env = [] -> salt_ok (e_header env) ->
  cipher_type env = (type, env2) -> descriptor table type = Some d -> pc_gen (d := c_desc d) (e_gen env) ->
  key <> [] -> password_ok key ->
  exists c env' b' k,
    sqlite3_key_v2 table set true true true true true 0 (Some key) (Z.of_nat (length key)) main cipherSalt uri
      (mk_db o env b) = Some (SQLITE_OK, Some c, mk_db (Some c) env' b') /\
    derived d (take_salt cipherSalt (sqlite3mcCodecInit (V := V))) env2 key k /\ has_key table type d k c /\
    m_hasKeySalt c = 0 /\
    forall nDb att, nDb <> 0 -> registered table (e_tables (db_env att)) -> e_malloc (db_env att) = [] ->
    exists c1 c2 env1 b1, sqlite3mcCodecAttach table set true nDb None 1 (Some c) None uri att =
        Some (SQLITE_OK, Some c2, mk_db (Some c1) env1 b1) /\
      has_key table type d k c1 /\ has_key table type d k c2.
Proof.
  intros R M Hh Ct D Hg Hk Hp.
  destruct (codec_cipher_type env R) as (ty & t & Ct' & Rt). rewrite Ct in Ct'. injection Ct' as <- ->.
  set (c0 := take_salt cipherSalt (sqlite3mcCodecInit (V := V))).
  destruct (setup_keyed table type d c0 (mk_env t (e_gen env) (e_malloc env) (e_header env)) key D)
    as (k & rc & c1 & env1 & Es & _ & De & Fu & _ & _ & _ & _ & _ & Ok);
    [now split|exact Hp|now apply take_salt_ok|apply take_salt_init|].
  specialize (Fu M). subst rc. specialize (Ok eq_refl).
  assert (K1 : has_key table type d k (sqlite3mcClearKeySalt c1)).
  { destruct Ok as [[A1 A2 A3 A4 A5] A6]. split; [split; assumption|exact A6]. }
  destruct (enforce_total set type d k _ b K1) as (size & res & b' & Ef).
  set (c := sqlite3mcCodecSizeChange size res (sqlite3mcClearKeySalt c1)) in *.
  assert (K : has_key table type d k c) by now apply has_key_size.
  exists c, env1, b', k. split; [|split; [exact De|split; [exact K|split; [reflexivity|]]]].
  - unfold sqlite3_key_v2, sqlite3mcCodecAttach, key_length. cbn [negb db_env db_codec db_bt set_tables e_tables].
    rewrite (proj2 (Z.ltb_ge (Z.of_nat (length key)) 0)) by apply Nat2Z.is_nonneg. cbn [Z.eqb].
    rewrite (proj2 (Z.ltb_ge (Z.of_nat (length key)) 0)) by apply Nat2Z.is_nonneg.
    assert (N : (Z.of_nat (length key) <=? 0) = false) by (destruct key; [contradiction|reflexivity]). rewrite N.
    unfold set_tables. cbn [e_tables e_gen e_malloc e_header Z.gtb Z.compare]. change (SQLITE_OK =? SQLITE_OK) with true.
    assert (Ee : mk_env (e_tables env) (e_gen env) (e_malloc env) (e_header env) = env) by now destruct env.
    rewrite Ee, Ct, Nat2Z.id, firstn_all. fold c0. rewrite Es. change (SQLITE_OK =? SQLITE_OK) with true.
    now rewrite Ef.
  - intros nDb att Hn Ra Ma. destruct (has_key_flags _ _ _ _ K) as (F & _).
    destruct (copy_codec table type d k sqlite3mcCodecInit c (db_env att) K Ra Ma) as (a & m & e' & Ec & _ & Ka & Km).
    destruct (enforce_total set type d k a (db_bt att) Ka) as (s1 & r1 & b1 & Ea).
    exists (sqlite3mcCodecSizeChange s1 r1 a), m, e', b1. split; [|split; [now apply has_key_size|exact Km]].
    unfold sqlite3mcCodecAttach. cbn [negb Z.leb Z.compare Z.gtb]. rewrite (proj2 (Z.eqb_neq nDb 0) Hn), F.
    cbn [negb andb Z.eqb]. rewrite Ec. change (SQLITE_OK =? SQLITE_OK) with true. now rewrite Ea.
Qed.
End Proofs.

(** ** Examples with the default cipher *)

Definition sample_bt : Bt := mk_bt 4096 4064 false 4096 32.

(** An engine in which every step succeeds, or the start of a transaction fails. *)
Definition sample_engine (begin : Z) : Engine (V := AnyCipher) (G := rng_state * Z) :=
  mk_engine false (fun _ b => (begin, b)) begin 3 (fun _ => SQLITE_OK) (fun _ => SQLITE_OK) SQLITE_OK
    (fun c env => Some (c, env)).

Lemma sample_transfers begin : transfers_pages sample_table (sample_engine begin).
Proof.
  intros c env _ R. exists c, env. split; [reflexivity|]. split; [|auto].
  do 5 (split; [reflexivity|]). unfold obj_alike.
  split; [destruct (m_readCipher c)|destruct (m_writeCipher c)]; auto; intros d _; auto using same_refl.
Qed.

Lemma sample_password : password_ok [112; 119].
Proof. split; [apply bytesb_bytes; reflexivity|]. apply Z.ltb_lt. reflexivity. Qed.

Lemma sample_codec :
  exists d k c env, nth_error sample_table 2 = Some d /\ has_key sample_table 3 d k c /\ env_ok sample_table d env /\
    read_reserved c = 32 /\ write_reserved c = 32 /\
    derived d (sqlite3mcCodecInit (V := AnyCipher)) (sample_env 3 None) [112; 119] k.
Proof.
  eexists.
  destruct (attach_ok sample_table 3 512 32 _ [112; 119] (sample_env 3 None) eq_refl
              (sample_env_ok 3 _ eq_refl) eq_refl sample_password) as (k & c & env & _ & Oe & De & K & R & W); [lia|].
  exists k, c, env. split; [reflexivity|]. auto 10.
Qed.

Lemma rekey_all_or_nothing_witness :
  exists c rc c' env' b', m_isEncrypted c = 1 /\
    sqlite3_rekey_v2 sample_table (fun s => (SQLITE_OK, s)) (sample_engine 5) true true true true (Some [110; 101; 119]) 3
      (mk_db (Some c) (sample_env 4 None) sample_bt) = Some (rc, mk_db (Some c') env' b') /\
    m_readReserved c' = -1.
Proof.
  destruct sample_codec as (d & k & c & env & Nd & K & _).
  destruct (rekey_all_or_nothing sample_table (fun s => (SQLITE_OK, s)) (sample_engine 5) true 3 d k 3 d [110; 101; 119]
              (set_key_salt 0 [] c) (sample_env 4 None) (snd (cipher_type (sample_env 4 None))) sample_bt)
    as (rc & c' & env' & b' & w & E & _ & Q & _).
  - apply sample_transfers.
  - destruct K as [[A B C D F] H]. split; [split; assumption|exact H].
  - exact Logic.I.
  - apply sample_registered.
  - reflexivity.
  - exact Logic.I.
  - vm_compute. reflexivity.
  - exact Nd.
  - injection Nd as <-. apply rng_init_wf.
  - discriminate.
  - split; [apply bytesb_bytes; reflexivity|]. apply Z.ltb_lt. reflexivity.
  - exists (set_key_salt 0 [] c), rc, c', env', b'. split; [exact (co_encrypted _ _ _ _ (proj1 K))|]. split; [exact E|exact Q].
Defined.

Lemma rekey_removal_failure_witness :
  exists c c' env' b' r,
    sqlite3_rekey_v2 sample_table (fun s => (SQLITE_OK, s)) (sample_engine 5) true true true true None 0
      (mk_db (Some c) (sample_env 4 None) sample_bt) = Some (5, mk_db (Some c') env' b') /\ m_isEncrypted c' = 1 /\
    sqlite3mcCodec sample_table (Some c') 512 cc_sample_page 1 6 env' = Some r /\ cd_result r = cc_sample_page.
Proof.
  destruct sample_codec as (d & k & c & env & Nd & K & _).
  destruct (rekey_removal_failure sample_table (fun s => (SQLITE_OK, s)) (sample_engine 5) true 3 d k c
              (sample_env 4 None) sample_bt 0 (sample_transfers 5) K sample_registered eq_refl) as (o & env' & b' & E & _ & H).
  destruct H as (c' & -> & F & _ & P); [discriminate|].
  destruct (P 512%nat cc_sample_page 1 env') as (r & Er & Rr & _). exists c, c', env', b', r. auto.
Defined.

Lemma rekey_encrypts_witness :
  exists rc o env' b',
    sqlite3_rekey_v2 sample_table (fun s => (SQLITE_OK, s)) (sample_engine 0) true true true true (Some [112; 119]) 2
      (mk_db None (sample_env 4 None) sample_bt) = Some (rc, mk_db o env' b') /\
    (rc <> SQLITE_OK -> o = None).
Proof.
  destruct (rekey_encrypts sample_table (fun s => (SQLITE_OK, s)) (sample_engine 0) 3 sample_chacha20 [112; 119]
              (sample_env 4 None) (snd (cipher_type (sample_env 4 None))) sample_bt (sample_transfers 0) eq_refl
              sample_registered eq_refl Logic.I) as (rc & o & env' & b' & w & E & _ & _ & H).
  - vm_compute. reflexivity.
  - reflexivity.
  - apply rng_init_wf.
  - discriminate.
  - apply sample_password.
  - exists rc, o, env', b'. auto.
Defined.

Lemma key_attached_witness :
  exists c env' b',
    sqlite3_key_v2 sample_table (fun s => (SQLITE_OK, s)) true true true true true 0 (Some [112; 119]) 2 None None
      (fun t => (SQLITE_OK, t)) (mk_db None (sample_env 4 None) sample_bt) =
    Some (SQLITE_OK, Some c, mk_db (Some c) env' b') /\ m_hasKeySalt c = 0.
Proof.
  destruct (key_attached sample_table (fun s => (SQLITE_OK, s)) 3 sample_chacha20 [112; 119] None
              (fun t => (SQLITE_OK, t)) None None (sample_env 4 None) (snd (cipher_type (sample_env 4 None))) sample_bt
              sample_registered eq_refl Logic.I) as (c & env' & b' & k & E & _ & _ & H & _).
  - vm_compute. reflexivity.
  - reflexivity.
  - apply rng_init_wf.
  - discriminate.
  - apply sample_password.
  - exists c, env', b'. auto.
Defined.

Lemma codec_page_roundtrip_witness :
  exists c r1 r2,
    sqlite3mcCodec sample_table (Some c) (length cc_sample_page) cc_sample_page 1 6 (sample_env 4 None) = Some r1 /\
    sqlite3mcCodec sample_table (Some c) (length cc_sample_page) (cd_result r1) 1 3 (sample_env 4 None) = Some r2 /\
    firstn 480 (cd_result r2) = firstn 480 cc_sample_page.
Proof.
  destruct sample_codec as (d & k & c0 & env & Nd & K0 & _ & R & W & De).
  destruct (sample_key _ 3 _ _ Nd De) as (cc & -> & Lc & Pc).
  set (c := set_page (memset 0 600) c0).
  destruct (codec_page_roundtrip sample_table 3 3 d (VChaCha20 cc) c c (sample_env 4 None) (sample_env 4 None) 1
              cc_sample_page true 3) as (r1 & c1 & r2 & c2 & E1 & _ & _ & _ & _ & _ & _ & _ & E2 & _ & _ & _ & _ & F).
  - now apply has_key_page.
  - now apply has_key_page.
  - now apply sample_env_ok.
  - apply Nat.leb_le. vm_compute. reflexivity.
  - auto.
  - change (read_reserved c0 = write_reserved c0). congruence.
  - change (write_reserved c) with (write_reserved c0). rewrite W. injection Nd as <-.
    exists cc. split; [reflexivity|]. now apply sample_page_ok.
  - exists c, r1, r2. split; [exact E1|]. split; [exact E2|].
    change (write_reserved c) with (write_reserved c0) in F. rewrite W in F. injection Nd as <-.
    change (firstn (cc_body cc 32 512) (cd_result r2) = firstn (cc_body cc 32 512) cc_sample_page) in F.
    rewrite (proj2 (sample_page_ok cc Lc Pc)) in F. exact F.
Defined.
