(* ===== verification/Vfs.v ===== *)
(** * The file-system shim (sqlite3mc_vfs.c)

    Reads and writes of database, journal and write-ahead log files, which the shim passes
    to the real file and encrypts or decrypts on the way.  The real file is given by its
    operations and laws; a file in memory satisfies them.  The state of a file holds the
    codec of its main database: other files of the database use that object. *)

From Stdlib Require Import ZArith Lia List Bool.
From S2P Require Import Prelude ChaCha20 CodecAlgos CipherCommon CipherChaCha20 CipherConfig Codec CodecTable CodecExt.
Import ListNotations.
Local Open Scope Z_scope.

Definition SQLITE_IOERR_SHORT_READ : Z := 522.
Definition walFrameHeaderSize : Z := 24.

(** ** Real files *)

(** [xRead f n offset]: return code and the buffer of [n] bytes; [xWrite f data offset]. *)
Class FileOps (F : Type) := {
  xRead : F -> nat -> Z -> Z * list Z;
  xWrite : F -> list Z -> Z -> Z * F }.

(** The bytes after a write, which fills a gap with zeros. *)
Definition write_at (l : list Z) (o : nat) (d : list Z) : list Z :=
  memcpy (l ++ repeat 0 (o - length l)) o d.

(** What a file promises while no operation on it fails. *)
Class FileLaws (F : Type) {Ops : FileOps F} := {
  rf_ok : F -> Prop;
  rf_bytes : F -> list Z;
  rf_read : forall f n o, rf_ok f -> 0 <= o -> (Z.to_nat o + n <= length (rf_bytes f))%nat ->
    xRead f n o = (SQLITE_OK, slice (rf_bytes f) (Z.to_nat o) n);
  rf_write : forall f d o, rf_ok f -> 0 <= o ->
    exists f', xWrite f d o = (SQLITE_OK, f') /\ rf_ok f' /\ rf_bytes f' = write_at (rf_bytes f) (Z.to_nat o) d }.

(** A file in memory. *)
#[export] Instance MemOps : FileOps (list Z) := {
  xRead f n o := if (Z.to_nat o + n <=? length f)%nat then (SQLITE_OK, slice f (Z.to_nat o) n)
                 else (SQLITE_IOERR_SHORT_READ, slice f (Z.to_nat o) n ++ repeat 0 (n - (length f - Z.to_nat o)));
  xWrite f d o := (SQLITE_OK, write_at f (Z.to_nat o) d) }.

#[export] Instance MemLaws : FileLaws (list Z).
Proof.
  refine {| rf_ok := fun _ => True; rf_bytes := fun f => f |}.
  - intros f n o _ _ H. cbn. now rewrite (proj2 (Nat.leb_le _ _) H).
  - intros f d o _ _. now exists (write_at f (Z.to_nat o) d).
Defined.

(** The kind of a file, from its open flags in the order of the tests. *)
Inductive Kind := MainDb | MainJournal | SubJournal | Wal | OtherFile.

Definition sqlite3Get4byte (p : list Z) : Z := p.[0] * 2 ^ 24 + p.[1] * 2 ^ 16 + p.[2] * 2 ^ 8 + p.[3].

Definition sqlite3Put4byte (v : Z) : list Z :=
  [u8 (Z.shiftr v 24); u8 (Z.shiftr v 16); u8 (Z.shiftr v 8); u8 v].

Section Shim.
Context {V G F : Type} {Ops : FileOps F} (table : list (Cipher V G)) (pageSize : nat).

(** The real file, the codec and its environment, and the page number of the next page of a
    journal. *)
Record St := mk_st { s_file : F; s_codec : option (Codec V); s_env : Env G; s_pageNo : Z }.

Definition is_encrypted (o : option (Codec V)) : bool :=
  match o with Some c => negb (m_isEncrypted c =? 0) | None => false end.

Definition sqlite3mcGetCodecLastError (o : option (Codec V)) : Z :=
  match o with Some c => m_lastError c | None => SQLITE_OK end.

(** [sqlite3mcCodec] on a page in a buffer of the caller, in mode 3: return code of the
    codec, page and state. *)
Definition load_page (st : St) (page : list Z) (pageNo : Z) : option (Z * list Z * St) :=
  let* r := sqlite3mcCodec table (s_codec st) pageSize page pageNo 3 (s_env st) in
  Some (sqlite3mcGetCodecLastError (cd_codec r), cd_data r, mk_st (s_file st) (cd_codec r) (cd_env r) (s_pageNo st)).

(** The page in the codec's buffer is decrypted in place. *)
Definition put_page_buffer (page : list Z) (st : St) : St :=
  mk_st (s_file st) (option_map (fun c => set_page (memcpy (m_page c) 4 page) c) (s_codec st)) (s_env st) (s_pageNo st).

(** ** Reading *)

(** Decryption of [nPages] pages in the buffer; the last return code counts. *)
Fixpoint load_pages (st : St) (data : list Z) (pageNo : Z) (nPages : nat) (rc : Z) : option (Z * list Z * St) :=
  match nPages with
  | O => Some (rc, data, st)
  | S nPages =>
      let* (rc, page, st) := load_page st (firstn pageSize data) pageNo in
      let* (rc, rest, st) := load_pages st (skipn pageSize data) (pageNo + 1) nPages rc in
      Some (rc, page ++ rest, st)
  end.

Definition mcReadMainDb (st : St) (buffer : list Z) (count : nat) (offset : Z) : option (Z * list Z * St) :=
  if (offset =? 0) && (count =? 16)%nat then Some (SQLITE_OK, buffer, st)
  else if is_encrypted (s_codec st) then
    let deltaOffset := offset mod Z.of_nat pageSize in
    let deltaCount := (count mod pageSize)%nat in
    if negb (deltaOffset =? 0) || negb (deltaCount =? 0)%nat then
      let prevOffset := offset - deltaOffset in
      let '(rc, page) := xRead (s_file st) pageSize prevOffset in
      let st := put_page_buffer page st in
      if rc =? SQLITE_IOERR_SHORT_READ then Some (rc, buffer, st)
      else
        let* (rc, page, st) := load_page st page (prevOffset / Z.of_nat pageSize + 1) in
        let st := put_page_buffer page st in
        let mem := match s_codec st with Some c => m_page c | None => [] end in
        Some (rc, memcpy buffer 0 (slice mem (4 + Z.to_nat deltaOffset) count), st)
    else load_pages st buffer (offset / Z.of_nat pageSize + 1) (count / pageSize) SQLITE_OK
  else Some (SQLITE_OK, buffer, st).

Definition set_pageNo (n : Z) (st : St) : St := mk_st (s_file st) (s_codec st) (s_env st) n.

Definition mcReadMainJournal (st : St) (buffer : list Z) (count : nat) (offset : Z) : option (Z * list Z * St) :=
  if is_encrypted (s_codec st) then
    if (count =? pageSize)%nat && negb (s_pageNo st =? 0) then
      let* (rc, page, st) := load_page st buffer (s_pageNo st) in Some (rc, page, set_pageNo 0 st)
    else if (count =? 4)%nat then Some (SQLITE_OK, buffer, set_pageNo (sqlite3Get4byte buffer) st)
    else Some (SQLITE_OK, buffer, st)
  else Some (SQLITE_OK, buffer, st).

Definition mcReadSubJournal (st : St) (buffer : list Z) (count : nat) (offset : Z) : option (Z * list Z * St) :=
  if is_encrypted (s_codec st) then
    if (count =? pageSize)%nat && negb (s_pageNo st =? 0) then load_page st buffer (s_pageNo st)
    else if (count =? 4)%nat then Some (SQLITE_OK, buffer, set_pageNo (sqlite3Get4byte buffer) st)
    else Some (SQLITE_OK, buffer, st)
  else Some (SQLITE_OK, buffer, st).

Definition wal_legacy (o : option (Codec V)) : bool :=
  match o with Some c => negb (m_walLegacy c =? 0) | None => false end.

(** The page number in the header of the frame before [offset]. *)
Definition frame_page (st : St) (offset : Z) : Z * Z :=
  let '(rc, ac) := xRead (s_file st) 4 (offset - walFrameHeaderSize) in
  (rc, if rc =? SQLITE_OK then sqlite3Get4byte ac else 0).

Definition mcReadWal (st : St) (buffer : list Z) (count : nat) (offset : Z) : option (Z * list Z * St) :=
  if is_encrypted (s_codec st) then
    if (count =? pageSize)%nat then
      let '(rc, pageNo) := frame_page st offset in
      if negb (pageNo =? 0) then load_page st buffer pageNo else Some (rc, buffer, st)
    else if wal_legacy (s_codec st) && (count =? pageSize + Z.to_nat walFrameHeaderSize)%nat then
      let pageNo := sqlite3Get4byte buffer in
      if negb (pageNo =? 0) then
        let* (rc, page, st) := load_page st (skipn (Z.to_nat walFrameHeaderSize) buffer) pageNo in
        Some (rc, firstn (Z.to_nat walFrameHeaderSize) buffer ++ page, st)
      else Some (SQLITE_OK, buffer, st)
    else Some (SQLITE_OK, buffer, st)
  else Some (SQLITE_OK, buffer, st).

Definition mcIoRead (kind : Kind) (st : St) (count : nat) (offset : Z) : option (Z * list Z * St) :=
  let '(rc, buffer) := xRead (s_file st) count offset in
  if rc =? SQLITE_IOERR_SHORT_READ then Some (rc, buffer, st)
  else
    match kind with
    | MainDb => mcReadMainDb st buffer count offset
    | MainJournal => mcReadMainJournal st buffer count offset
    | SubJournal => mcReadSubJournal st buffer count offset
    | Wal => mcReadWal st buffer count offset
    | OtherFile => Some (rc, buffer, st)
    end.

(** ** Writing *)

Definition write_file (st : St) (data : list Z) (offset : Z) : Z * St :=
  let '(rc, f) := xWrite (s_file st) data offset in (rc, mk_st f (s_codec st) (s_env st) (s_pageNo st)).

(** A page is encrypted in the codec's buffer, which is written whatever the codec reports. *)
Definition store_page (st : St) (page : list Z) (pageNo mode offset : Z) : option (Z * St) :=
  let* r := sqlite3mcCodec table (s_codec st) pageSize page pageNo mode (s_env st) in
  Some (write_file (mk_st (s_file st) (cd_codec r) (cd_env r) (s_pageNo st)) (firstn pageSize (cd_result r)) offset).

Fixpoint store_pages (st : St) (data : list Z) (pageNo offset : Z) (nPages : nat) (rc : Z) : option (Z * St) :=
  match nPages with
  | O => Some (rc, st)
  | S nPages =>
      let* (rc, st) := store_page st (firstn pageSize data) pageNo 6 offset in
      store_pages st (skipn pageSize data) (pageNo + 1) (offset + Z.of_nat pageSize) nPages rc
  end.

Definition mcWriteMainDb (st : St) (buffer : list Z) (offset : Z) : option (Z * St) :=
  if is_encrypted (s_codec st) then
    if negb (offset mod Z.of_nat pageSize =? 0) || negb (length buffer mod pageSize =? 0)%nat
    then Some (write_file st buffer offset)
    else store_pages st buffer (offset / Z.of_nat pageSize + 1) offset (length buffer / pageSize) SQLITE_OK
  else Some (write_file st buffer offset).

(** The main journal and the subjournals are written in the same way. *)
Definition mcWriteMainJournal (st : St) (buffer : list Z) (offset : Z) : option (Z * St) :=
  if is_encrypted (s_codec st) then
    if (length buffer =? pageSize)%nat && negb (s_pageNo st =? 0) then store_page st buffer (s_pageNo st) 7 offset
    else
      let '(rc, st) := write_file st buffer offset in
      Some (rc, if (length buffer =? 4)%nat
                then set_pageNo (if rc =? SQLITE_OK then sqlite3Get4byte buffer else 0) st else st)
  else Some (write_file st buffer offset).

Definition mcWriteSubJournal (st : St) (buffer : list Z) (offset : Z) : option (Z * St) :=
  mcWriteMainJournal st buffer offset.

Definition mcWriteWal (st : St) (buffer : list Z) (offset : Z) : option (Z * St) :=
  if wal_legacy (s_codec st) && is_encrypted (s_codec st) then
    if (length buffer =? pageSize)%nat then
      let '(_, pageNo) := frame_page st offset in
      if negb (pageNo =? 0) then store_page st buffer pageNo 7 offset else Some (write_file st buffer offset)
    else if (length buffer =? pageSize + Z.to_nat walFrameHeaderSize)%nat then
      let pageNo := sqlite3Get4byte buffer in
      if negb (pageNo =? 0) then
        let header := firstn (Z.to_nat walFrameHeaderSize) buffer in
        let* r := sqlite3mcCodec table (s_codec st) pageSize (skipn (Z.to_nat walFrameHeaderSize) buffer) pageNo 7 (s_env st) in
        let '(_, st) := write_file (mk_st (s_file st) (cd_codec r) (cd_env r) (s_pageNo st)) header offset in
        Some (write_file st (firstn pageSize (cd_result r)) (offset + walFrameHeaderSize))
      else Some (write_file st buffer offset)
    else Some (write_file st buffer offset)
  else Some (write_file st buffer offset).

Definition mcIoWrite (kind : Kind) (st : St) (buffer : list Z) (offset : Z) : option (Z * St) :=
  match kind with
  | MainDb => mcWriteMainDb st buffer offset
  | MainJournal => mcWriteMainJournal st buffer offset
  | SubJournal => mcWriteSubJournal st buffer offset
  | Wal => mcWriteWal st buffer offset
  | OtherFile => Some (write_file st buffer offset)
  end.

(** The page that the log writer gets for a page in memory. *)
Definition sqlite3mcPagerCodec (st : St) (page : list Z) (pgno : Z) : option (list Z * St) :=
  if is_encrypted (s_codec st) && negb (wal_legacy (s_codec st)) then
    let* r := sqlite3mcCodec table (s_codec st) pageSize page pgno 6 (s_env st) in
    Some (cd_result r, mk_st (s_file st) (cd_codec r) (cd_env r) (s_pageNo st))
  else Some (page, st).
End Shim.

Arguments mk_st {V G F}. Arguments s_file {V G F}. Arguments s_codec {V G F}. Arguments s_env {V G F}.
Arguments s_pageNo {V G F}.

(** ** Files of bytes *)

Lemma length_write_at l o d : length (write_at l o d) = Nat.max (length l) (o + length d).
Proof.
  unfold write_at, memcpy. rewrite !length_app, length_firstn, length_skipn, length_app, repeat_length. lia.
Qed.

Lemma slice_write_eq l o d n : length d = n -> slice (write_at l o d) o n = d.
Proof.
  intros H. unfold write_at, memcpy. apply slice_app; [|exact H].
  rewrite length_firstn, length_app, repeat_length. lia.
Qed.

Lemma slice_firstn_skipn {A} (l : list A) o n i m : (i + m <= n)%nat -> slice (slice l o n) i m = slice l (o + i) m.
Proof.
  intros H. unfold slice. rewrite skipn_firstn_comm, firstn_firstn, skipn_skipn.
  rewrite (Nat.add_comm i o). f_equal. lia.
Qed.

Lemma slice_head {A} (l : list A) o n m : (m <= n)%nat -> slice l o m = firstn m (slice l o n).
Proof. intros H. unfold slice. rewrite firstn_firstn. f_equal. lia. Qed.

(** A write leaves what it does not cover. *)
Lemma slice_write_ne l o d i n :
  (i + n <= length l)%nat -> (i + n <= o \/ o + length d <= i)%nat -> slice (write_at l o d) i n = slice l i n.
Proof.
  intros Hi H. set (m := (l ++ repeat 0 (o - length l)) ++ repeat 0 (length d)).
  assert (E : slice (write_at l o d) i n = slice (memcpy m o d) i n).
  { unfold write_at, memcpy, slice, m. set (l' := l ++ repeat 0 (o - length l)).
    assert (L : (o <= length l')%nat) by (unfold l'; rewrite length_app, repeat_length; lia).
    assert (L2 : (length l <= length l')%nat) by (unfold l'; rewrite length_app; lia).
    rewrite (firstn_app o l'). replace (o - length l')%nat with 0%nat by lia. rewrite firstn_O, app_nil_r.
    rewrite (skipn_app (o + length d) l'), !app_assoc. set (a := (firstn o l' ++ d) ++ skipn (o + length d) l').
    assert (La : (i + n <= length a)%nat).
    { unfold a. rewrite !length_app, length_firstn, length_skipn. lia. }
    rewrite (skipn_app i a), firstn_app, length_skipn.
    replace (n - (length a - i))%nat with 0%nat by lia. now rewrite firstn_O, app_nil_r. }
  rewrite E, slice_memcpy_ne by (unfold m; rewrite ?length_app, ?repeat_length; lia).
  unfold m, slice. rewrite <- app_assoc, skipn_app, firstn_app, length_skipn.
  replace (n - (length l - i))%nat with 0%nat by lia. now rewrite firstn_O, app_nil_r.
Qed.

Lemma get_put_4byte v rest : is_u32 v -> sqlite3Get4byte (sqlite3Put4byte v ++ rest) = v.
Proof.
  intros H. unfold sqlite3Get4byte, sqlite3Put4byte, is_u32 in *. cbn [app nth].
  rewrite !u8_mod, !Z.shiftr_div_pow2 by lia.
  rewrite (Z.mod_small (v / 2 ^ 24)) by (split; [apply Z.div_pos; lia|apply Z.div_lt_upper_bound; lia]).
  change (2 ^ 24) with (256 * (256 * 256)). change (2 ^ 16) with (256 * 256). change (2 ^ 8) with 256.
  rewrite <- !Z.div_div by lia. pose proof (Z.div_mod v 256). pose proof (Z.div_mod (v / 256) 256).
  pose proof (Z.div_mod (v / 256 / 256) 256). lia.
Qed.

(** ** Pages through the shim *)

Section Proofs.
Context {V G F : Type} {Ops : FileOps F} {Laws : FileLaws F} (table : list (Cipher V G)) (pageSize : nat).
Context (type : Z) (d : Cipher V G) (k : V) (res : Z).

Abbreviation body := (pc_body (d := c_desc d) k res pageSize).

(** The codec of the file has key [k] and reserves [res] bytes for both directions, the
    environment is in order, and the file does not fail. *)
Record ready (st : St (V := V) (G := G) (F := F)) (c : Codec V) : Prop := mk_ready {
  rd_codec : s_codec st = Some c;
  rd_key : has_key table type d k c;
  rd_read : read_reserved c = res;
  rd_write : write_reserved c = res;
  rd_buffer : (4 + pageSize <= length (m_page c))%nat;
  rd_env : env_ok table d (s_env st);
  rd_file : rf_ok (s_file st) }.

(** [enc] is an encryption of the content [x] of page [p]: every codec with the key restores it. *)
Definition encrypts (p : Z) (x enc : list Z) : Prop :=
  length enc = pageSize /\
  forall type2 c2, has_key table type2 d k c2 -> read_reserved c2 = res ->
    exists c2' data2, sqlite3mcDecrypt table c2 p enc = Some (SQLITE_OK, c2', data2) /\
      has_key table type2 d k c2' /\ m_page c2' = m_page c2 /\ length data2 = pageSize /\
      read_reserved c2' = read_reserved c2 /\ write_reserved c2' = write_reserved c2 /\
      firstn body data2 = firstn body x.

Lemma ready_encrypted st c : ready st c -> is_encrypted (s_codec st) = true.
Proof. intros R. rewrite (rd_codec _ _ R). cbn. now rewrite (proj1 (has_key_flags _ _ _ _ _ (rd_key _ _ R))). Qed.

Lemma load_page_ok st c p x enc :
  ready st c -> encrypts p x enc ->
  exists c' data, load_page table pageSize st enc p =
      Some (SQLITE_OK, data, mk_st (s_file st) (Some c') (s_env st) (s_pageNo st)) /\
    ready (mk_st (s_file st) (Some c') (s_env st) (s_pageNo st)) c' /\ m_page c' = m_page c /\
    length data = pageSize /\ firstn body data = firstn body x.
Proof.
  intros [Ec K Rr Rw Lb He Hf] [Le Dec].
  destruct (Dec type c K Rr) as (c' & data & Ed & K' & Pg & Ld & R1 & R2 & Fb).
  destruct (has_key_flags _ _ _ _ _ K) as (A1 & A2 & _).
  exists (sqlite3mcSetCodecLastError SQLITE_OK c'), data. split.
  - unfold load_page, sqlite3mcCodec, decode_page. rewrite Ec, A1, A2. cbn [Z.eqb Pos.eqb negb orb].
    rewrite <- Le, firstn_all, Ed. change (SQLITE_OK =? SQLITE_OK) with true. cbn iota.
    rewrite memcpy_all by lia. reflexivity.
  - split; [|auto]. constructor; try assumption; try reflexivity.
    + now apply has_key_error.
    + change (read_reserved c' = res). congruence.
    + change (write_reserved c' = res). congruence.
    + change (4 + pageSize <= length (m_page c'))%nat. now rewrite Pg.
Qed.

Lemma codec_store st c p x mode :
  ready st c -> length x = pageSize -> pc_page (d := c_desc d) k p res x -> mode = 6 \/ mode = 7 ->
  exists c' enc env' rep, sqlite3mcCodec table (s_codec st) pageSize x p mode (s_env st) =
      Some (mk_coded enc x (Some c') env' rep) /\ encrypts p x enc /\
    forall f n, rf_ok f -> ready (mk_st f (Some c') env' n) c'.
Proof.
  intros [Ec K Rr Rw Lb He Hf] Lx P M.
  set (toFile := mode =? 6).
  assert (Rs : (if toFile then write_reserved c else read_reserved c) = res) by (destruct toFile; assumption).
  pose proof (encrypt_ok table type d k c (s_env st) p x toFile K He) as H. cbv zeta in H. rewrite Rs, Lx in H.
  destruct (H P) as (v & c' & enc & env' & Ee & K' & Oe & _ & _ & _ & Pg & R1 & R2 & Le & _ & _ & Dec).
  destruct (has_key_flags _ _ _ _ _ K) as (A1 & A2 & A3).
  set (c1 := sqlite3mcSetCodecLastError SQLITE_OK (set_page (memcpy (m_page c') 4 enc) c')).
  exists c1, enc, env', None. split; [|split].
  - unfold sqlite3mcCodec, encode_page. rewrite Ec, A1, A2, A3. cbn [Z.eqb Pos.eqb negb].
    unfold toFile in Ee. destruct M as [-> | ->]; cbn [Z.eqb Pos.eqb orb] in *; now rewrite <- Lx, firstn_all, Ee.
  - split; [lia|exact Dec].
  - intros f n Hf'. constructor; try assumption; try reflexivity.
    + now apply has_key_error, has_key_page.
    + change (read_reserved c' = res). congruence.
    + change (write_reserved c' = res). congruence.
    + change (4 + pageSize <= length (memcpy (m_page c') 4 enc))%nat. rewrite length_memcpy; rewrite Pg; lia.
Qed.

(** A page on its way to the file: the file holds its encryption. *)
Lemma store_page_ok st c p x mode o :
  ready st c -> length x = pageSize -> pc_page (d := c_desc d) k p res x -> mode = 6 \/ mode = 7 -> 0 <= o ->
  exists st' c' enc, store_page table pageSize st x p mode o = Some (SQLITE_OK, st') /\
    ready st' c' /\ s_pageNo st' = s_pageNo st /\ encrypts p x enc /\
    rf_bytes (s_file st') = write_at (rf_bytes (s_file st)) (Z.to_nat o) enc.
Proof.
  intros R Lx P M Ho. destruct (codec_store st c p x mode R Lx P M) as (c' & enc & env' & rep & E & En & R').
  destruct (rf_write (s_file st) enc o (rd_file _ _ R) Ho) as (f' & Ew & Of & Bf).
  exists (mk_st f' (Some c') env' (s_pageNo st)), c', enc. split; [|auto].
  unfold store_page. rewrite E. cbn [cd_result cd_codec cd_env]. unfold write_file. cbn [s_file s_codec s_env s_pageNo].
  rewrite firstn_all2 by (rewrite (proj1 En); lia). now rewrite Ew.
Qed.

(** ** The database file as a store of pages *)

(** The contents that were written. *)
Definition store := Z -> option (list Z).
Definition put_page (p : Z) (x : list Z) (M : store) : store := fun q => if q =? p then Some x else M q.
Fixpoint put_pages (p : Z) (xs : list (list Z)) (M : store) : store :=
  match xs with [] => M | x :: xs => put_pages (p + 1) xs (put_page p x M) end.
Fixpoint get_pages (M : store) (p : Z) (n : nat) : option (list (list Z)) :=
  match n with
  | O => Some []
  | S n => match M p, get_pages M (p + 1) n with Some x, Some xs => Some (x :: xs) | _, _ => None end
  end.

Definition page_offset (p : Z) : Z := (p - 1) * Z.of_nat pageSize.

(** The file holds encryptions of the pages of a store. *)
Definition holds (l : list Z) (p : Z) (x : list Z) : Prop :=
  1 <= p /\ (Z.to_nat (page_offset p) + pageSize <= length l)%nat /\
  encrypts p x (slice l (Z.to_nat (page_offset p)) pageSize).
Definition simulates (st : St (V := V) (G := G) (F := F)) (M : store) : Prop :=
  (exists c, ready st c) /\ forall p x, M p = Some x -> holds (rf_bytes (s_file st)) p x.

(** What the database engine does with the file: it writes pages, reads pages, and reads a
    part of a page. *)
Inductive Op :=
| WritePages (p : Z) (xs : list (list Z))
| ReadPages (p : Z) (n : nat)
| ReadPart (p : Z) (delta n : nat).

Definition exec (st : St) (op : Op) : option (Z * list Z * St) :=
  match op with
  | WritePages p xs => let* (rc, st) := mcIoWrite table pageSize MainDb st (concat xs) (page_offset p) in Some (rc, [], st)
  | ReadPages p n => mcIoRead table pageSize MainDb st (n * pageSize) (page_offset p)
  | ReadPart p delta n => mcIoRead table pageSize MainDb st n (page_offset p + Z.of_nat delta)
  end.

Fixpoint exec_all (st : St) (ops : list Op) : option (list (Z * list Z) * St) :=
  match ops with
  | [] => Some ([], st)
  | op :: ops =>
      let* (rc, out, st) := exec st op in
      let* (outs, st) := exec_all st ops in
      Some ((rc, out) :: outs, st)
  end.

Fixpoint pages_ok (p : Z) (xs : list (list Z)) : Prop :=
  match xs with
  | [] => True
  | x :: xs => length x = pageSize /\ pc_page (d := c_desc d) k p res x /\ pages_ok (p + 1) xs
  end.

(** Writes are of pages that the cipher accepts, reads of pages that were written; a part of
    a page lies before its reserved bytes, and is not the header of sixteen bytes, which the
    shim returns as it is in the file. *)
Definition allowed (op : Op) (M : store) : Prop :=
  match op with
  | WritePages p xs => 1 <= p /\ pages_ok p xs
  | ReadPages p n => (0 < n)%nat /\ get_pages M p n <> None
  | ReadPart p delta n =>
      (0 < n < pageSize)%nat /\ (delta + n <= body)%nat /\ M p <> None /\ ~ (p = 1 /\ delta = 0%nat /\ n = 16%nat)
  end.

Definition next (op : Op) (M : store) : store :=
  match op with WritePages p xs => put_pages p xs M | _ => M end.

(** The same content up to the reserved bytes. *)
Definition same_page (y x : list Z) : Prop := length y = pageSize /\ firstn body y = firstn body x.

Definition answers (op : Op) (M : store) (out : Z * list Z) : Prop :=
  match op with
  | WritePages _ _ => out = (SQLITE_OK, [])
  | ReadPages p n =>
      exists xs ys, get_pages M p n = Some xs /\ Forall2 same_page ys xs /\ out = (SQLITE_OK, concat ys)
  | ReadPart p delta n => exists x, M p = Some x /\ out = (SQLITE_OK, slice x delta n)
  end.

Fixpoint allowed_all (ops : list Op) (M : store) : Prop :=
  match ops with [] => True | op :: ops => allowed op M /\ allowed_all ops (next op M) end.
Fixpoint answers_all (ops : list Op) (M : store) (outs : list (Z * list Z)) : Prop :=
  match ops, outs with
  | [], [] => True
  | op :: ops, out :: outs => answers op M out /\ answers_all ops (next op M) outs
  | _, _ => False
  end.

Hypothesis size : (512 <= pageSize)%nat.

Section Store.
Hypothesis body_size : (body <= pageSize)%nat.

Lemma offset_succ p : page_offset (p + 1) = page_offset p + Z.of_nat pageSize.
Proof. unfold page_offset. lia. Qed.
Lemma offset_mod p r : (r < pageSize)%nat -> (page_offset p + Z.of_nat r) mod Z.of_nat pageSize = Z.of_nat r.
Proof. intros H. unfold page_offset. rewrite Z.add_comm, Z.mod_add by lia. apply Z.mod_small. lia. Qed.
Lemma offset_div p : page_offset p / Z.of_nat pageSize + 1 = p.
Proof. unfold page_offset. rewrite Z.div_mul by lia. lia. Qed.
Lemma offset_mod0 p : page_offset p mod Z.of_nat pageSize = 0.
Proof. rewrite <- (Z.add_0_r (page_offset p)). apply (offset_mod p 0). lia. Qed.

(** Pages keep apart. *)
Lemma offset_apart p q : 1 <= p -> 1 <= q -> p <> q ->
  (Z.to_nat (page_offset p) + pageSize <= Z.to_nat (page_offset q) \/
   Z.to_nat (page_offset q) + pageSize <= Z.to_nat (page_offset p))%nat.
Proof.
  intros Hp Hq N. unfold page_offset.
  assert (p + 1 <= q \/ q + 1 <= p) as [H|H] by lia; [left|right]; nia.
Qed.

(** One page is written: it is held, and the others are still. *)
Lemma write_page_ok st M p x :
  simulates st M -> 1 <= p -> length x = pageSize -> pc_page (d := c_desc d) k p res x ->
  exists st', store_page table pageSize st x p 6 (page_offset p) = Some (SQLITE_OK, st') /\ simulates st' (put_page p x M).
Proof.
  intros [[c R] H] Hp Lx P.
  assert (0 <= page_offset p) by (unfold page_offset; nia).
  destruct (store_page_ok st c p x 6 (page_offset p) R Lx P)
    as (st' & c' & enc & E & R' & _ & En & B); [auto|lia|].
  exists st'. split; [exact E|]. split; [eauto|]. intros q y. unfold put_page, holds.
  pose proof (length_write_at (rf_bytes (s_file st)) (Z.to_nat (page_offset p)) enc) as Lw.
  rewrite (proj1 En) in Lw. rewrite B. destruct (Z.eqb_spec q p) as [->|N].
  - intros [= <-]. split; [exact Hp|]. split; [lia|]. now rewrite slice_write_eq by apply (proj1 En).
  - intros Hq. destruct (H q y Hq) as (H1 & H2 & H3). split; [exact H1|]. split; [lia|].
    rewrite slice_write_ne; [exact H3|exact H2|]. rewrite (proj1 En).
    destruct (offset_apart p q Hp H1); [congruence|right|left]; assumption.
Qed.

Lemma write_pages_ok xs : forall st M p,
  simulates st M -> 1 <= p -> pages_ok p xs ->
  exists st', store_pages table pageSize st (concat xs) p (page_offset p) (length xs) SQLITE_OK = Some (SQLITE_OK, st') /\
    simulates st' (put_pages p xs M).
Proof.
  induction xs as [|x xs IH]; intros st M p S Hp K; [exists st; auto|].
  destruct K as (Lx & P & K). destruct (write_page_ok st M p x S Hp Lx P) as (st1 & E1 & S1).
  destruct (IH st1 (put_page p x M) (p + 1) S1) as (st' & E & S'); [lia|exact K|].
  exists st'. split; [|exact S']. cbn [concat length store_pages].
  rewrite firstn_app_l, skipn_app_l by exact Lx. rewrite E1. now rewrite <- offset_succ.
Qed.

Lemma pages_length p xs : pages_ok p xs -> length (concat xs) = (length xs * pageSize)%nat.
Proof.
  revert p. induction xs as [|x xs IH]; intros p K; [reflexivity|]. destruct K as (Lx & _ & K).
  cbn [concat length]. rewrite length_app, Lx, (IH _ K). lia.
Qed.

(** The bytes in the file of several pages. *)
Fixpoint encrypt_all (p : Z) (xs encs : list (list Z)) : Prop :=
  match xs, encs with
  | [], [] => True
  | x :: xs, enc :: encs => encrypts p x enc /\ encrypt_all (p + 1) xs encs
  | _, _ => False
  end.

Lemma get_pages_bytes st M n : forall p xs,
  simulates st M -> get_pages M p (S n) = Some xs ->
  1 <= p /\ (Z.to_nat (page_offset p) + S n * pageSize <= length (rf_bytes (s_file st)))%nat /\ length xs = S n /\
  exists encs, encrypt_all p xs encs /\ slice (rf_bytes (s_file st)) (Z.to_nat (page_offset p)) (S n * pageSize) = concat encs.
Proof.
  induction n as [|n IH]; intros p xs S E; cbn [get_pages] in E; destruct (M p) as [x|] eqn:Mp; try discriminate;
    destruct (proj2 S p x Mp) as (Hp & Hl & He).
  - injection E as <-. split; [exact Hp|]. split; [lia|]. split; [reflexivity|].
    exists [slice (rf_bytes (s_file st)) (Z.to_nat (page_offset p)) pageSize]. cbn [concat].
    rewrite app_nil_r, Nat.mul_1_l. split; [split; [exact He|exact Logic.I]|reflexivity].
  - change (match M (p + 1), get_pages M (p + 1 + 1) n with Some x, Some xs => Some (x :: xs) | _, _ => None end)
      with (get_pages M (p + 1) (Datatypes.S n)) in E.
    destruct (get_pages M (p + 1) (Datatypes.S n)) as [xs'|] eqn:E'; [|discriminate]. injection E as <-.
    destruct (IH (p + 1) xs' S E') as (_ & Hl' & Ln & encs & A & Es).
    rewrite offset_succ, Z2Nat.inj_add, Nat2Z.id in Hl', Es by (unfold page_offset; nia).
    split; [exact Hp|]. split; [lia|]. split; [cbn [length]; lia|].
    exists (slice (rf_bytes (s_file st)) (Z.to_nat (page_offset p)) pageSize :: encs). split; [split; assumption|].
    cbn [concat]. rewrite <- Es. change (Datatypes.S (Datatypes.S n) * pageSize)%nat with (pageSize + Datatypes.S n * pageSize)%nat.
    apply slice_plus.
Qed.

Lemma simulates_codec st c M : simulates st M ->
  ready (mk_st (s_file st) (Some c) (s_env st) (s_pageNo st)) c ->
  simulates (mk_st (s_file st) (Some c) (s_env st) (s_pageNo st)) M.
Proof. intros [_ H] R. split; [eauto|exact H]. Qed.

Lemma load_pages_ok xs : forall st M p encs,
  simulates st M -> encrypt_all p xs encs ->
  exists ys st', load_pages table pageSize st (concat encs) p (length xs) SQLITE_OK = Some (SQLITE_OK, concat ys, st') /\
    Forall2 same_page ys xs /\ simulates st' M.
Proof.
  induction xs as [|x xs IH]; intros st M p [|enc encs] S A; try contradiction.
  - exists [], st. auto.
  - destruct A as [A As]. destruct S as [[c R] H].
    destruct (load_page_ok st c p x enc R A) as (c' & y & E & R' & _ & Ly & Fy).
    destruct (IH _ M (p + 1) encs (simulates_codec st c' M (conj (ex_intro _ c R) H) R') As) as (ys & st' & E' & Fs & S').
    exists (y :: ys), st'. split; [|split; [constructor; [split|]; assumption|exact S']].
    cbn [concat length load_pages]. rewrite firstn_app_l, skipn_app_l by apply (proj1 A). now rewrite E, E'.
Qed.

Lemma buffer_ready st c page : ready st c -> length page = pageSize ->
  ready (put_page_buffer page st) (set_page (memcpy (m_page c) 4 page) c).
Proof.
  intros [Ec K Rr Rw Lb He Hf] Lp. unfold put_page_buffer. rewrite Ec.
  constructor; try assumption; try reflexivity; [now apply has_key_page|].
  change (4 + pageSize <= length (memcpy (m_page c) 4 page))%nat. rewrite length_memcpy; lia.
Qed.

Lemma same_part (x y : list Z) delta n :
  firstn body y = firstn body x -> (delta + n <= body)%nat -> slice y delta n = slice x delta n.
Proof.
  intros H Hn. pose proof (slice_firstn_skipn x 0 body delta n Hn) as Ex.
  pose proof (slice_firstn_skipn y 0 body delta n Hn) as Ey. cbn [Nat.add] in Ex, Ey. rewrite <- Ex, <- Ey.
  change (slice y 0 body) with (firstn body y). now rewrite H.
Qed.

(** A part of a page is taken from the whole page, decrypted in the buffer of the codec. *)
Lemma read_part_ok st M p x delta n :
  simulates st M -> M p = Some x -> allowed (ReadPart p delta n) M ->
  exists st', exec st (ReadPart p delta n) = Some (SQLITE_OK, slice x delta n, st') /\ simulates st' M.
Proof.
  intros [[c R] H] Mp (Hn & Hd & _ & Hh). destruct (H p x Mp) as (Hp & Hl & He).
  assert (Z0 : 0 <= page_offset p) by (unfold page_offset; nia).
  set (l := rf_bytes (s_file st)) in *. set (enc := slice l (Z.to_nat (page_offset p)) pageSize) in *.
  pose proof (buffer_ready st c enc R (proj1 He)) as R1.
  destruct (load_page_ok _ _ p x enc R1 He) as (c2 & y & E2 & R2 & Pg & Ly & Fy).
  pose proof (buffer_ready _ c2 y R2 Ly) as R3.
  assert (Rd : forall m o, 0 <= o -> (Z.to_nat o + m <= length l)%nat -> xRead (s_file st) m o = (SQLITE_OK, slice l (Z.to_nat o) m))
    by (intros m o Ho Hm; exact (rf_read _ m o (rd_file _ _ R) Ho Hm)).
  eexists. split; [|split; [eexists; exact R3|exact H]].
  cbn [exec]. unfold mcIoRead. rewrite (Rd n) by lia. change (SQLITE_OK =? SQLITE_IOERR_SHORT_READ) with false. cbn iota.
  unfold mcReadMainDb. replace ((page_offset p + Z.of_nat delta =? 0) && (n =? 16)%nat) with false.
  2: { symmetry. apply andb_false_iff. destruct (Nat.eqb_spec n 16); [left|right; reflexivity].
       apply Z.eqb_neq. intros A. apply Hh. unfold page_offset in A. split; [nia|]. split; [nia|assumption]. }
  rewrite (ready_encrypted st c R), offset_mod by lia.
  rewrite (Nat.mod_small n) by lia. replace (n =? 0)%nat with false by (symmetry; apply Nat.eqb_neq; lia).
  rewrite orb_true_r. replace (page_offset p + Z.of_nat delta - Z.of_nat delta) with (page_offset p) by lia.
  rewrite (Rd pageSize) by lia. change (SQLITE_OK =? SQLITE_IOERR_SHORT_READ) with false. cbn iota.
  fold enc. rewrite offset_div, E2. unfold put_page_buffer at 1 2. cbn [s_codec option_map].
  rewrite Nat2Z.id. do 3 f_equal. cbn [set_page m_page].
  assert (Lm : (4 + pageSize <= length (m_page c2))%nat) by exact (rd_buffer _ _ R2).
  transitivity (slice y delta n); [|now apply same_part].
  rewrite <- (slice_memcpy_eq (m_page c2) y 4 pageSize Ly Lm) at 2. rewrite slice_firstn_skipn by lia.
  apply memcpy_all. rewrite !length_slice; rewrite ?length_memcpy; lia.
Qed.

Lemma read_pages_ok st M p n : simulates st M -> allowed (ReadPages p n) M ->
  exists out st', exec st (ReadPages p n) = Some (SQLITE_OK, out, st') /\ answers (ReadPages p n) M (SQLITE_OK, out) /\
    simulates st' M.
Proof.
  intros S [Hn Hg]. destruct n as [|n]; [lia|].
  destruct (get_pages M p (Datatypes.S n)) as [xs|] eqn:E; [|contradiction].
  destruct (get_pages_bytes st M n p xs S E) as (Hp & Hl & Ln & encs & A & Es).
  destruct (load_pages_ok xs st M p encs S A) as (ys & st' & El & Fs & S').
  exists (concat ys), st'. split; [|split; [exists xs, ys; auto|exact S']].
  assert (0 <= page_offset p) by (unfold page_offset; nia). destruct S as [[c R] _].
  cbn [exec]. unfold mcIoRead. rewrite (rf_read _ _ _ (rd_file _ _ R)), Es by assumption.
  change (SQLITE_OK =? SQLITE_IOERR_SHORT_READ) with false. cbn iota. unfold mcReadMainDb.
  replace (Datatypes.S n * pageSize =? 16)%nat with false by (symmetry; apply Nat.eqb_neq; lia).
  rewrite andb_false_r, (ready_encrypted st c R), offset_mod0, Nat.Div0.mod_mul. cbn [Z.eqb Nat.eqb negb orb].
  rewrite offset_div, Nat.div_mul by lia. now rewrite <- Ln.
Qed.

Lemma exec_ok st M op : simulates st M -> allowed op M ->
  exists rc out st', exec st op = Some (rc, out, st') /\ answers op M (rc, out) /\ simulates st' (next op M).
Proof.
  intros S A. destruct op as [p xs|p n|p delta n].
  - destruct A as [Hp K]. destruct (write_pages_ok xs st M p S Hp K) as (st' & E & S').
    exists SQLITE_OK, [], st'. split; [|split; [reflexivity|exact S']].
    destruct S as [[c R] _]. cbn [exec]. unfold mcIoWrite, mcWriteMainDb.
    rewrite (ready_encrypted st c R), offset_mod0, (pages_length p xs K), Nat.Div0.mod_mul. cbn [Z.eqb Nat.eqb negb orb].
    rewrite offset_div, Nat.div_mul by lia. now rewrite E.
  - destruct (read_pages_ok st M p n S A) as (out & st' & H). exists SQLITE_OK, out, st'. exact H.
  - pose proof A as (_ & _ & Mn & _). destruct (M p) as [x|] eqn:Mp; [|contradiction].
    destruct (read_part_ok st M p x delta n S Mp A) as (st' & E & S').
    exists SQLITE_OK, (slice x delta n), st'. split; [exact E|]. split; [exists x; auto|exact S'].
Qed.

(** An encrypted database file is a store of pages.  In any sequence of writes of pages,
    reads of pages and reads of parts of pages through the shim, every operation succeeds and
    every read returns the content that was written last, up to the reserved bytes of each
    page: encryption is invisible to the engine, and a write changes no other page. *)
Theorem database_file_refines_store st M ops :
  simulates st M -> allowed_all ops M ->
  exists outs st', exec_all st ops = Some (outs, st') /\ answers_all ops M outs /\
    simulates st' (fold_left (fun M op => next op M) ops M).
Proof.
  revert st M. induction ops as [|op ops IH]; intros st M S A; [exists [], st; split; [reflexivity|]; split; [exact Logic.I|exact S]|].
  destruct A as [A As]. destruct (exec_ok st M op S A) as (rc & out & st1 & E & An & S1).
  destruct (IH st1 (next op M) S1 As) as (outs & st' & E' & Ans & S').
  exists ((rc, out) :: outs), st'. split; [|split; [split; assumption|exact S']].
  cbn [exec_all]. now rewrite E, E'.
Qed.

End Store.

(** ** Journals *)

Definition is_journal (kind : Kind) : Prop := kind = MainJournal \/ kind = SubJournal.

(** A write of the shim that passes the bytes on. *)
Lemma write_plain st c data o : ready st c -> 0 <= o ->
  exists f, write_file st data o = (SQLITE_OK, mk_st f (s_codec st) (s_env st) (s_pageNo st)) /\
    rf_bytes f = write_at (rf_bytes (s_file st)) (Z.to_nat o) data /\
    forall n, ready (mk_st f (s_codec st) (s_env st) n) c.
Proof.
  intros [Ec K Rr Rw Lb He Hf] Ho. destruct (rf_write (s_file st) data o Hf Ho) as (f & E & Of & B).
  exists f. split; [unfold write_file; now rewrite E|]. split; [exact B|]. intros n. now constructor.
Qed.

Lemma write_number kind st c p o : ready st c -> is_journal kind -> is_u32 p -> 0 <= o ->
  exists f, mcIoWrite table pageSize kind st (sqlite3Put4byte p) o =
      Some (SQLITE_OK, mk_st f (s_codec st) (s_env st) p) /\
    rf_bytes f = write_at (rf_bytes (s_file st)) (Z.to_nat o) (sqlite3Put4byte p) /\
    ready (mk_st f (s_codec st) (s_env st) p) c.
Proof.
  intros R J Hp Ho. destruct (write_plain st c (sqlite3Put4byte p) o R Ho) as (f & E & B & R').
  exists f. split; [|auto].
  assert (H : mcWriteMainJournal table pageSize st (sqlite3Put4byte p) o = Some (SQLITE_OK, mk_st f (s_codec st) (s_env st) p)).
  { unfold mcWriteMainJournal. rewrite (ready_encrypted st c R), E. change (length (sqlite3Put4byte p)) with 4%nat.
    replace (4 =? pageSize)%nat with false by (symmetry; apply Nat.eqb_neq; lia). cbn [andb Nat.eqb].
    rewrite <- (app_nil_r (sqlite3Put4byte p)), get_put_4byte by exact Hp. reflexivity. }
  now destruct J as [-> | ->].
Qed.

Lemma write_journal_page kind st c p x o :
  ready st c -> is_journal kind -> s_pageNo st = p -> p <> 0 -> length x = pageSize ->
  pc_page (d := c_desc d) k p res x -> 0 <= o ->
  exists st' c' enc, mcIoWrite table pageSize kind st x o = Some (SQLITE_OK, st') /\ ready st' c' /\
    encrypts p x enc /\ rf_bytes (s_file st') = write_at (rf_bytes (s_file st)) (Z.to_nat o) enc.
Proof.
  intros R J Ep Np Lx P Ho.
  destruct (store_page_ok st c p x 7 o R Lx P) as (st' & c' & enc & E & R' & _ & En & B); [auto|exact Ho|].
  exists st', c', enc. split; [|auto].
  assert (H : mcWriteMainJournal table pageSize st x o = Some (SQLITE_OK, st')).
  { unfold mcWriteMainJournal. rewrite (ready_encrypted st c R), Lx, Nat.eqb_refl, Ep.
    now rewrite (proj2 (Z.eqb_neq p 0) Np). }
  now destruct J as [-> | ->].
Qed.

(** Reading a record back. *)
Lemma read_number kind st c p o l : ready st c -> is_journal kind -> is_u32 p -> 0 <= o ->
  rf_bytes (s_file st) = l -> (Z.to_nat o + 4 <= length l)%nat -> slice l (Z.to_nat o) 4 = sqlite3Put4byte p ->
  mcIoRead table pageSize kind st 4 o = Some (SQLITE_OK, sqlite3Put4byte p, set_pageNo p st).
Proof.
  intros R J Hp Ho El Hl Es. subst l.
  assert (N : (4 =? pageSize)%nat = false) by (apply Nat.eqb_neq; lia).
  assert (Eg : sqlite3Get4byte (sqlite3Put4byte p) = p)
    by (rewrite <- (app_nil_r (sqlite3Put4byte p)); now apply get_put_4byte).
  unfold mcIoRead. rewrite (rf_read _ _ _ (rd_file _ _ R)), Es by assumption.
  change (SQLITE_OK =? SQLITE_IOERR_SHORT_READ) with false.
  destruct J as [-> | ->]; cbn iota; unfold mcReadMainJournal, mcReadSubJournal;
    now rewrite (ready_encrypted st c R), N, Eg.
Qed.

Lemma read_journal_page kind st c p x o enc : ready st c -> is_journal kind -> s_pageNo st = p -> p <> 0 -> 0 <= o ->
  (Z.to_nat o + pageSize <= length (rf_bytes (s_file st)))%nat ->
  slice (rf_bytes (s_file st)) (Z.to_nat o) pageSize = enc -> encrypts p x enc ->
  exists y st', mcIoRead table pageSize kind st pageSize o = Some (SQLITE_OK, y, st') /\ same_page y x.
Proof.
  intros R J Ep Np Ho Hl Es En.
  destruct (load_page_ok st c p x enc R En) as (c' & y & E & _ & _ & Ly & Fy).
  exists y. unfold mcIoRead. rewrite (rf_read _ _ _ (rd_file _ _ R)), Es by assumption.
  change (SQLITE_OK =? SQLITE_IOERR_SHORT_READ) with false.
  destruct J as [-> | ->]; cbn iota; unfold mcReadMainJournal, mcReadSubJournal;
    rewrite (ready_encrypted st c R), Nat.eqb_refl, Ep, (proj2 (Z.eqb_neq p 0) Np); cbn [andb negb]; rewrite E;
    eexists; (split; [reflexivity|split; assumption]).
Qed.

(** Journals restore pages.  A record of a rollback journal or of a subjournal, a page
    number and the content of the page, is written; later, any file handle whose codec has the
    key and that sees these bytes reads the page number and then the content, whatever page
    number it remembered. *)
Theorem journal_record_restores kind st c p x o :
  ready st c -> is_journal kind -> is_u32 p -> p <> 0 -> length x = pageSize ->
  pc_page (d := c_desc d) k p res x -> 0 <= o ->
  exists st1 st2 c2, mcIoWrite table pageSize kind st (sqlite3Put4byte p) o = Some (SQLITE_OK, st1) /\
    mcIoWrite table pageSize kind st1 x (o + 4) = Some (SQLITE_OK, st2) /\ ready st2 c2 /\
    (Z.to_nat o + (4 + pageSize) <= length (rf_bytes (s_file st2)))%nat /\
    forall st3 c3, ready st3 c3 -> (Z.to_nat o + (4 + pageSize) <= length (rf_bytes (s_file st3)))%nat ->
      slice (rf_bytes (s_file st3)) (Z.to_nat o) (4 + pageSize) = slice (rf_bytes (s_file st2)) (Z.to_nat o) (4 + pageSize) ->
      exists st4 y st5, mcIoRead table pageSize kind st3 4 o = Some (SQLITE_OK, sqlite3Put4byte p, st4) /\
        mcIoRead table pageSize kind st4 pageSize (o + 4) = Some (SQLITE_OK, y, st5) /\ same_page y x.
Proof.
  intros R J Hp Np Lx P Ho.
  destruct (write_number kind st c p o R J Hp Ho) as (f & E1 & B1 & R1).
  destruct (write_journal_page kind _ c p x (o + 4) R1 J eq_refl Np Lx P) as (st2 & c2 & enc & E2 & R2 & En & B2); [lia|].
  exists (mk_st f (s_codec st) (s_env st) p), st2, c2. do 3 (split; [assumption|]). cbn [s_file] in B2. rewrite B1 in B2.
  split; [rewrite B2, length_write_at, (proj1 En); lia|]. intros st3 c3 R3 L3 Es.
  pose proof (length_write_at (rf_bytes (s_file st)) (Z.to_nat o) (sqlite3Put4byte p)) as Lw.
  change (length (sqlite3Put4byte p)) with 4%nat in Lw. rewrite !slice_plus in Es.
  apply app_inj_len in Es; [|rewrite !length_slice; rewrite ?B2, ?length_write_at, ?(proj1 En); lia].
  rewrite Z2Nat.inj_add in B2 by lia. change (Z.to_nat 4) with 4%nat in B2. rewrite B2 in Es. destruct Es as [Ea Eb].
  rewrite slice_write_ne, slice_write_eq in Ea by (reflexivity || lia). rewrite slice_write_eq in Eb by apply (proj1 En).
  exists (set_pageNo p st3).
  destruct (read_journal_page kind (set_pageNo p st3) c3 p x (o + 4) enc) as (y & st5 & E5 & Sy);
    [destruct R3; now constructor|exact J|reflexivity|exact Np|lia|cbn [set_pageNo s_file]; lia| |exact En|].
  { cbn [set_pageNo s_file]. rewrite Z2Nat.inj_add by lia. exact Eb. }
  exists y, st5. split; [|auto]. apply (read_number kind st3 c3 p o _ R3 J Hp Ho eq_refl); [lia|exact Ea].
Qed.

(** ** The write-ahead log *)

(** The codec keeps the format of the log. *)
Lemma encrypt_legacy c p x (b : bool) (env : Env G) rc c' out env' :
  sqlite3mcEncrypt table c p x b env = Some (rc, c', out, env') -> m_walLegacy c' = m_walLegacy c.
Proof.
  unfold sqlite3mcEncrypt. destruct (descriptor table _) as [e|]; [|discriminate].
  destruct (if b then m_writeCipher c else m_readCipher c) as [v|]; [|discriminate].
  destruct (m_encryptPage _ _ _ _ _ _) as [[[[? ?] ?] ?]|]; [|discriminate]. intros [= _ <- _ _]. now destruct b.
Qed.

Lemma codec_legacy c size0 x p env r c' :
  sqlite3mcCodec table (Some c) size0 x p 6 env = Some r -> cd_codec r = Some c' -> m_walLegacy c' = m_walLegacy c.
Proof.
  unfold sqlite3mcCodec, encode_page. cbn [Z.eqb Pos.eqb orb].
  destruct (m_isEncrypted c =? 0); [intros [= <-] [= <-]; reflexivity|].
  destruct (negb (m_hasWriteCipher c =? 0)); [|intros [= <-] [= <-]; reflexivity].
  destruct (sqlite3mcEncrypt _ _ _ _ _ _) as [[[[rc c1] out] env1]|] eqn:E; [|discriminate].
  intros [= <-] [= <-]. exact (encrypt_legacy _ _ _ _ _ _ _ _ _ E).
Qed.

Lemma write_wal_plain st c data o : ready st c -> 0 <= o ->
  wal_legacy (s_codec st) = false \/ (length data <> pageSize /\ length data <> pageSize + 24)%nat ->
  exists f, mcIoWrite table pageSize Wal st data o = Some (SQLITE_OK, mk_st f (s_codec st) (s_env st) (s_pageNo st)) /\
    rf_bytes f = write_at (rf_bytes (s_file st)) (Z.to_nat o) data /\
    ready (mk_st f (s_codec st) (s_env st) (s_pageNo st)) c.
Proof.
  intros R Ho H. destruct (write_plain st c data o R Ho) as (f & E & B & R'). exists f. split; [|auto].
  unfold mcIoWrite, mcWriteWal. change (Z.to_nat walFrameHeaderSize) with 24%nat. rewrite E.
  destruct H as [H|[H1 H2]]; [now rewrite H|].
  rewrite (proj2 (Nat.eqb_neq _ _) H1), (proj2 (Nat.eqb_neq _ _) H2). now destruct (wal_legacy _ && is_encrypted _).
Qed.

Lemma frame_page_ok st c p o l : ready st c -> is_u32 p -> 0 <= o -> rf_bytes (s_file st) = l ->
  (Z.to_nat o + 4 <= length l)%nat -> slice l (Z.to_nat o) 4 = sqlite3Put4byte p ->
  frame_page st (o + walFrameHeaderSize) = (SQLITE_OK, p).
Proof.
  intros R Hp Ho El Hl Es. subst l. unfold frame_page. rewrite Z.add_simpl_r.
  rewrite (rf_read _ _ _ (rd_file _ _ R)), Es by assumption. change (SQLITE_OK =? SQLITE_OK) with true. cbn iota.
  rewrite <- (app_nil_r (sqlite3Put4byte p)). now rewrite get_put_4byte.
Qed.

(** The two writes of a frame, in both formats of the log. *)
Lemma write_frame_ok st c p x o h :
  ready st c -> is_u32 p -> p <> 0 -> length h = 20%nat -> length x = pageSize -> pc_page (d := c_desc d) k p res x -> 0 <= o ->
  let header := sqlite3Put4byte p ++ h in
  exists data st0 st1 st2 c2 enc, sqlite3mcPagerCodec table pageSize st x p = Some (data, st0) /\
    mcIoWrite table pageSize Wal st0 header o = Some (SQLITE_OK, st1) /\
    mcIoWrite table pageSize Wal st1 data (o + walFrameHeaderSize) = Some (SQLITE_OK, st2) /\ ready st2 c2 /\
    encrypts p x enc /\
    rf_bytes (s_file st2) = write_at (write_at (rf_bytes (s_file st)) (Z.to_nat o) header) (Z.to_nat (o + walFrameHeaderSize)) enc.
Proof.
  intros R Hp Np Lh Lx P Ho header.
  assert (Lhd : length header = 24%nat) by (unfold header; rewrite length_app, Lh; reflexivity).
  assert (Ho2 : 0 <= o + walFrameHeaderSize) by (unfold walFrameHeaderSize; lia).
  unfold sqlite3mcPagerCodec. rewrite (ready_encrypted st c R). cbn [andb].
  destruct (wal_legacy (s_codec st)) eqn:W; cbn [negb].
  - destruct (write_wal_plain st c header o R Ho) as (f & E1 & B1 & R1); [right; lia|].
    destruct (store_page_ok _ c p x 7 (o + walFrameHeaderSize) R1 Lx P) as (st2 & c2 & enc & E2 & R2 & _ & En & B2);
      [auto|exact Ho2|].
    exists x, st, (mk_st f (s_codec st) (s_env st) (s_pageNo st)), st2, c2, enc.
    split; [reflexivity|]. split; [exact E1|]. split; [|split; [exact R2|]; split; [exact En|]; now rewrite <- B1].
    unfold mcIoWrite, mcWriteWal. cbn [s_codec]. rewrite W, (ready_encrypted st c R), Lx, Nat.eqb_refl. cbn [andb].
    rewrite (frame_page_ok _ c p o _ R1 Hp Ho eq_refl).
    + now rewrite (proj2 (Z.eqb_neq p 0) Np).
    + cbn [s_file]. rewrite B1, length_write_at. lia.
    + cbn [s_file]. rewrite B1, (slice_head _ _ 24 4), slice_write_eq by (exact Lhd || lia). reflexivity.
  - destruct (codec_store st c p x 6 R Lx P) as (c1 & enc & env1 & rep & E & En & R1); [auto|].
    specialize (R1 (s_file st) (s_pageNo st) (rd_file _ _ R)).
    assert (W1 : wal_legacy (Some c1) = false).
    { rewrite (rd_codec _ _ R) in E, W. cbn in W |- *. now rewrite (codec_legacy _ _ _ _ _ _ c1 E eq_refl). }
    destruct (write_wal_plain _ c1 header o R1 Ho) as (f & E1 & B1 & R2); [now left|].
    destruct (write_wal_plain _ c1 enc (o + walFrameHeaderSize) R2 Ho2) as (f2 & E2 & B2 & R3); [now left|].
    do 4 eexists. exists c1, enc. split; [now rewrite E|]. split; [exact E1|]. split; [exact E2|].
    split; [exact R3|]. split; [exact En|]. cbn [s_file] in *. now rewrite B2, B1.
Qed.

(** The write-ahead log restores pages.  A page, encrypted in memory for the log or by
    the shim on its way to it (the legacy format), is written in a frame after a header with
    the page number; any handle of the log whose codec has the key and that sees this frame
    reads the content of the page, for which it takes the page number from the frame header. *)
Theorem wal_frame_restores st c p x o h :
  ready st c -> is_u32 p -> p <> 0 -> length h = 20%nat -> length x = pageSize -> pc_page (d := c_desc d) k p res x -> 0 <= o ->
  exists data st0 st1 st2 c2, sqlite3mcPagerCodec table pageSize st x p = Some (data, st0) /\
    mcIoWrite table pageSize Wal st0 (sqlite3Put4byte p ++ h) o = Some (SQLITE_OK, st1) /\
    mcIoWrite table pageSize Wal st1 data (o + walFrameHeaderSize) = Some (SQLITE_OK, st2) /\ ready st2 c2 /\
    (Z.to_nat o + (24 + pageSize) <= length (rf_bytes (s_file st2)))%nat /\
    forall st3 c3, ready st3 c3 -> (Z.to_nat o + (24 + pageSize) <= length (rf_bytes (s_file st3)))%nat ->
      slice (rf_bytes (s_file st3)) (Z.to_nat o) (24 + pageSize) = slice (rf_bytes (s_file st2)) (Z.to_nat o) (24 + pageSize) ->
      exists y st4, mcIoRead table pageSize Wal st3 pageSize (o + walFrameHeaderSize) = Some (SQLITE_OK, y, st4) /\ same_page y x.
Proof.
  intros R Hp Np Lh Lx P Ho.
  destruct (write_frame_ok st c p x o h R Hp Np Lh Lx P Ho) as (data & st0 & st1 & st2 & c2 & enc & E0 & E1 & E2 & R2 & En & B).
  exists data, st0, st1, st2, c2. do 4 (split; [assumption|]).
  split; [rewrite B, length_write_at, (proj1 En); unfold walFrameHeaderSize; lia|]. intros st3 c3 R3 L3 Es.
  assert (Lhd : length (sqlite3Put4byte p ++ h) = 24%nat) by (rewrite length_app, Lh; reflexivity).
  pose proof (length_write_at (rf_bytes (s_file st)) (Z.to_nat o) (sqlite3Put4byte p ++ h)) as Lw. rewrite Lhd in Lw.
  assert (Eo : Z.to_nat (o + walFrameHeaderSize) = (Z.to_nat o + 24)%nat) by (unfold walFrameHeaderSize; lia).
  rewrite Eo in B. rewrite !slice_plus in Es.
  apply app_inj_len in Es; [|rewrite !length_slice; rewrite ?B, ?length_write_at, ?(proj1 En); lia].
  rewrite B in Es. destruct Es as [Ea Eb].
  rewrite slice_write_ne, slice_write_eq in Ea by (exact Lhd || lia). rewrite slice_write_eq in Eb by apply (proj1 En).
  destruct (load_page_ok st3 c3 p x enc R3 En) as (c' & y & E & _ & _ & Ly & Fy).
  exists y. eexists. split; [|split; [exact Ly|exact Fy]].
  unfold mcIoRead. rewrite (rf_read _ _ _ (rd_file _ _ R3)), Eo, Eb by (unfold walFrameHeaderSize; lia).
  change (SQLITE_OK =? SQLITE_IOERR_SHORT_READ) with false. cbn iota. unfold mcReadWal.
  rewrite (ready_encrypted st3 c3 R3), Nat.eqb_refl, (frame_page_ok st3 c3 p o _ R3 Hp Ho eq_refl).
  - now rewrite (proj2 (Z.eqb_neq p 0) Np), E.
  - lia.
  - rewrite (slice_head _ _ 24 4), Ea by lia. reflexivity.
Qed.
End Proofs.

(** ** What the shim does not report *)

(** An error of the real file other than a short read is lost: the handlers start from
    [SQLITE_OK], and the caller gets a buffer that was not read. *)
Lemma read_errors_lost {V G F} {Ops : FileOps F} (table : list (Cipher V G)) pageSize kind st n o rc buffer :
  xRead (s_file st) n o = (rc, buffer) -> rc <> SQLITE_IOERR_SHORT_READ -> kind <> OtherFile -> s_codec st = None ->
  mcIoRead table pageSize kind st n o = Some (SQLITE_OK, buffer, st).
Proof.
  intros E N K C. unfold mcIoRead. rewrite E, (proj2 (Z.eqb_neq _ _) N).
  destruct kind; try contradiction; unfold mcReadMainDb, mcReadMainJournal, mcReadSubJournal, mcReadWal; rewrite C; cbn;
    now destruct ((o =? 0) && (n =? 16)%nat).
Qed.

(** ** Examples with the default cipher *)

(** An object, and a codec that uses it for both directions, with [reserved] bytes. *)
Definition sample_object : AnyCipher :=
  VChaCha20 (mk_chacha20 0 4096 64007 0 32 (map Z.of_nat (seq 1 32)) (map Z.of_nat (seq 60 16))).
Definition sample_shim (reserved : Z) : St (F := list Z) :=
  mk_st [] (Some (sqlite3mcCodecSizeChange 512 reserved
      (set_page (memset 0 600) (set_write 1 3 (Some sample_object) (-1) (set_read 1 3 (Some sample_object) (-1)
        (sqlite3mcSetIsEncrypted 1 sqlite3mcCodecInit))))))
    (sample_env 5 None) 0.

Definition written {V G F} (r : option (Z * St (V := V) (G := G) (F := F))) : option (Z * F) :=
  option_map (fun '(rc, st) => (rc, s_file st)) r.

(** A page that the cipher refuses, here because sixteen reserved bytes do not hold nonce and tag, is
    written as it is, and the write succeeds. *)
Example refused_page_written_plain :
  written (mcIoWrite sample_table 512 MainDb (sample_shim 16) cc_sample_page 0) = Some (SQLITE_OK, cc_sample_page).
Proof. vm_compute. reflexivity. Qed.

(** The journal keeps a page number between a checksum and what is written next: a journal
    header as large as a page is then encrypted, with the checksum as page number, and its
    fields are not those that were written. *)
Example journal_header_encrypted :
  let header := memset 0 12 ++ [1; 2; 3; 4] ++ memset 0 496 in
  exists st1 st2 st3 st4,
    mcIoWrite sample_table 512 MainJournal (sample_shim 32) (sqlite3Put4byte 1) 0 = Some (SQLITE_OK, st1) /\
    mcIoWrite sample_table 512 MainJournal st1 cc_sample_page 4 = Some (SQLITE_OK, st2) /\
    mcIoWrite sample_table 512 MainJournal st2 (sqlite3Put4byte 77) 516 = Some (SQLITE_OK, st3) /\
    mcIoWrite sample_table 512 MainJournal st3 header 1024 = Some (SQLITE_OK, st4) /\
    slice (s_file st4) 1036 4 <> slice header 12 4.
Proof.
  do 4 eexists. split; [vm_compute; reflexivity|]. split; [vm_compute; reflexivity|].
  split; [vm_compute; reflexivity|]. split; [vm_compute; reflexivity|]. vm_compute. discriminate.
Qed.

(** An encrypted file with a derived key. *)
Lemma sample_ready :
  exists d k c, pc_body (d := c_desc d) k 32 512 = 480%nat /\ pc_page (d := c_desc d) k 1 32 cc_sample_page /\
    forall (f : list Z) n, ready sample_table 512 3 d k 32 (mk_st f (Some c) (sample_env 4 None) n) c.
Proof.
  destruct sample_codec as (d & k & c0 & env & Nd & K0 & _ & R & W & De).
  destruct (sample_key _ 3 _ _ Nd De) as (cc & -> & Lc & Pc). exists d, (VChaCha20 cc), (set_page (memset 0 600) c0).
  pose proof (sample_env_ok 4 d Nd) as He. injection Nd as <-.
  split; [exact (proj2 (sample_page_ok cc Lc Pc))|]. split; [exists cc; split; [reflexivity|now apply sample_page_ok]|].
  intros f n. constructor; [reflexivity|now apply has_key_page|exact R|exact W| |exact He|exact Logic.I].
  cbn [set_page m_page]. rewrite length_memset. apply Nat.leb_le. reflexivity.
Qed.

Lemma sample_length : length cc_sample_page = 512%nat.
Proof. apply Nat.eqb_eq. vm_compute. reflexivity. Qed.

(** A page is written to an empty file and read back, as a whole and in part. *)
Lemma database_file_refines_store_witness :
  exists (d : Cipher AnyCipher (rng_state * Z)) k st outs st' y,
    pc_body (d := c_desc d) k 32 512 = 480%nat /\ rf_bytes (s_file st) = [] /\
    exec_all sample_table 512 st [WritePages 1 [cc_sample_page]; ReadPages 1 1; ReadPart 1 32 100] = Some (outs, st') /\
    outs = [(SQLITE_OK, []); (SQLITE_OK, y); (SQLITE_OK, slice cc_sample_page 32 100)] /\
    firstn 480 y = firstn 480 cc_sample_page.
Proof.
  destruct sample_ready as (d & k & c & B & P & R). specialize (R [] 0).
  destruct (database_file_refines_store sample_table 512 3 d k 32) with
    (st := mk_st (F := list Z) [] (Some c) (sample_env 4 None) 0) (M := fun _ : Z => @None (list Z))
    (ops := [WritePages 1 [cc_sample_page]; ReadPages 1 1; ReadPart 1 32 100]) as (outs & st' & E & A & _).
  - apply Nat.leb_le. reflexivity.
  - rewrite B. apply Nat.leb_le. reflexivity.
  - split; [eexists; exact R|discriminate].
  - cbn [allowed_all allowed next pages_ok put_pages get_pages]. rewrite B. unfold put_page. cbn [Z.eqb Pos.eqb].
    split; [split; [lia|]; split; [exact sample_length|]; split; [exact P|exact Logic.I]|].
    split; [split; [lia|discriminate]|]. split; [|exact Logic.I].
    split; [lia|]. split; [lia|]. split; [discriminate|]. intros (_ & H & _). discriminate H.
  - destruct outs as [|o1 [|o2 [|o3 [|? ?]]]]; cbn [answers_all answers] in A; try tauto.
    destruct A as (-> & (xs & ys & Ex & Fs & ->) & (x & Ex3 & ->) & _).
    cbn in Ex, Ex3. unfold put_page in Ex, Ex3. cbn in Ex, Ex3. apply some_inj in Ex, Ex3. subst xs x.
    inversion Fs as [|y ? ys' ? [Ly Fy] Fn]; subst. inversion Fn; subst.
    exists d, k. do 3 eexists. exists y. split; [exact B|]. split; [|split; [exact E|]]; [reflexivity|].
    rewrite B in Fy. cbn [concat]. rewrite app_nil_r. auto.
Defined.

(** A journal record, and a frame of the log, written and read back by the same handle. *)
Lemma journal_record_restores_witness :
  exists st st1 st2 st4 y st5,
    mcIoWrite sample_table 512 MainJournal st (sqlite3Put4byte 1) 512 = Some (SQLITE_OK, st1) /\
    mcIoWrite sample_table 512 MainJournal st1 cc_sample_page 516 = Some (SQLITE_OK, st2) /\
    mcIoRead sample_table 512 MainJournal st2 4 512 = Some (SQLITE_OK, sqlite3Put4byte 1, st4) /\
    mcIoRead sample_table 512 MainJournal st4 512 516 = Some (SQLITE_OK, y, st5) /\
    firstn 480 y = firstn 480 cc_sample_page.
Proof.
  destruct sample_ready as (d & k & c & B & P & R). specialize (R (memset 0 2000) 0).
  destruct (journal_record_restores sample_table 512 3 d k 32) with
    (kind := MainJournal) (st := mk_st (memset 0 2000) (Some c) (sample_env 4 None) 0) (c := c) (p := 1)
    (x := cc_sample_page) (o := 512) as (st1 & st2 & c2 & E1 & E2 & R2 & Hl & H).
  all: try solve [apply Nat.leb_le; reflexivity | exact R | now left | split; [discriminate|reflexivity]
    | discriminate | exact sample_length | exact P].
  destruct (H st2 c2 R2 Hl eq_refl) as (st4 & y & st5 & E4 & E5 & [_ Fy]). rewrite B in Fy.
  exists (mk_st (memset 0 2000) (Some c) (sample_env 4 None) 0), st1, st2, st4, y, st5. auto 10.
Defined.

Lemma wal_frame_restores_witness :
  exists st data st0 st1 st2 y st4,
    sqlite3mcPagerCodec sample_table 512 st cc_sample_page 1 = Some (data, st0) /\
    mcIoWrite sample_table 512 Wal st0 (sqlite3Put4byte 1 ++ memset 0 20) 32 = Some (SQLITE_OK, st1) /\
    mcIoWrite sample_table 512 Wal st1 data 56 = Some (SQLITE_OK, st2) /\
    mcIoRead sample_table 512 Wal st2 512 56 = Some (SQLITE_OK, y, st4) /\
    firstn 480 y = firstn 480 cc_sample_page.
Proof.
  destruct sample_ready as (d & k & c & B & P & R). specialize (R (memset 0 32) 0).
  destruct (wal_frame_restores sample_table 512 3 d k 32) with
    (st := mk_st (memset 0 32) (Some c) (sample_env 4 None) 0) (c := c) (p := 1)
    (x := cc_sample_page) (o := 32) (h := memset 0 20) as (data & st0 & st1 & st2 & c2 & E0 & E1 & E2 & R2 & Hl & H).
  all: try solve [apply Nat.leb_le; reflexivity | exact R | reflexivity | split; [discriminate|reflexivity]
    | discriminate | exact sample_length | exact P].
  destruct (H st2 c2 R2 Hl eq_refl) as (y & st4 & E4 & [_ Fy]). rewrite B in Fy.
  exists (mk_st (memset 0 32) (Some c) (sample_env 4 None) 0), data, st0, st1, st2, y, st4. auto 10.
Defined.
