(* ===== verification/VfsFiles.v ===== *)
(** * Open files of the shim (sqlite3mc_vfs.c)

    The list of main database files, linked through the file handles, in which journals and
    the codec functions find the handle of their database.  Handles are addresses in a heap;
    the searches have fuel, and [None] stands for a search that has not ended. *)

From Stdlib Require Import ZArith Lia List Bool.
From S2P Require Import Prelude CodecAlgos.
Import ListNotations.
Local Open Scope Z_scope.

Definition SQLITE_OPEN_MAIN_DB : Z := 0x100.
Definition SQLITE_OPEN_TEMP_DB : Z := 0x200.
Definition SQLITE_OPEN_MAIN_JOURNAL : Z := 0x800.
Definition SQLITE_OPEN_SUBJOURNAL : Z := 0x2000.
Definition SQLITE_OPEN_WAL : Z := 0x80000.

Definition has_flag (flags flag : Z) : bool := negb (Z.land flags flag =? 0).

(** A file handle; file names are compared by address, 0 is the null pointer, and codecs are
    their addresses. *)
Record File := mk_file {
  zFileName : Z; openFlags : Z; pMainNext : Z; pMainDb : Z; codec : Z; pageNo : Z }.

Definition set_next (p : Z) (f : File) : File :=
  mk_file (zFileName f) (openFlags f) p (pMainDb f) (codec f) (pageNo f).
Definition set_codec (c : Z) (f : File) : File :=
  mk_file (zFileName f) (openFlags f) (pMainNext f) (pMainDb f) c (pageNo f).

(** The head of the list, the handles in memory, and the codecs that were freed. *)
Record Vfs := mk_vfs { pMain : Z; heap : Z -> File; freed : list Z }.

Definition store_file (a : Z) (f : File) (v : Vfs) : Vfs :=
  mk_vfs (pMain v) (fun b => if b =? a then f else heap v b) (freed v).

Definition mcMainListAdd (p : Z) (v : Vfs) : Vfs :=
  let v := store_file p (set_next (pMain v) (heap v p)) v in
  mk_vfs p (heap v) (freed v).

(** The address of a pointer of the list: the head or the link of a handle. *)
Inductive Loc := Head | Link (a : Z).
Definition deref (v : Vfs) (l : Loc) : Z := match l with Head => pMain v | Link a => pMainNext (heap v a) end.
Definition assign (l : Loc) (p : Z) (v : Vfs) : Vfs :=
  match l with Head => mk_vfs p (heap v) (freed v) | Link a => store_file a (set_next p (heap v a)) v end.

Fixpoint find_link (fuel : nat) (v : Vfs) (pMainPrev : Loc) (p : Z) : option Loc :=
  match fuel with
  | O => None
  | S fuel =>
      let a := deref v pMainPrev in
      if (a =? 0) || (a =? p) then Some pMainPrev else find_link fuel v (Link a) p
  end.

Definition mcMainListRemove (fuel : nat) (p : Z) (v : Vfs) : option Vfs :=
  match find_link fuel v Head p with
  | None => None
  | Some pMainPrev =>
      let v := if negb (deref v pMainPrev =? 0) then assign pMainPrev (pMainNext (heap v p)) v else v in
      Some (store_file p (set_next 0 (heap v p)) v)
  end.

Fixpoint find_name (fuel : nat) (v : Vfs) (pDb zName : Z) : option Z :=
  match fuel with
  | O => None
  | S fuel =>
      if (pDb =? 0) || (zFileName (heap v pDb) =? zName) then Some pDb
      else find_name fuel v (pMainNext (heap v pDb)) zName
  end.

Definition mcFindDbMainFileName (fuel : nat) (v : Vfs) (zName : Z) : option Z := find_name fuel v (pMain v) zName.

(** Opening a file; [database] is [sqlite3_filename_database], [rc] the result of the real
    open. *)
Definition mcVfsOpen (fuel : nat) (database : Z -> Z) (zName p flags rc : Z) (v : Vfs) : option Vfs :=
  let f := mk_file zName flags 0 0 0 0 in
  let v := store_file p f v in
  let journal := has_flag flags SQLITE_OPEN_MAIN_JOURNAL || has_flag flags SQLITE_OPEN_SUBJOURNAL || has_flag flags SQLITE_OPEN_WAL in
  let opened v := if rc =? SQLITE_OK then if has_flag flags SQLITE_OPEN_MAIN_DB then mcMainListAdd p v else v else v in
  if negb (zName =? 0) && negb (has_flag flags SQLITE_OPEN_MAIN_DB || has_flag flags SQLITE_OPEN_TEMP_DB) && journal then
    match mcFindDbMainFileName fuel v (database zName) with
    | None => None
    | Some pDb => Some (opened (store_file p (mk_file zName flags 0 pDb 0 0) v))
    end
  else Some (opened v).

(** Closing a file releases its codec. *)
Definition mcIoClose (fuel : nat) (p : Z) (v : Vfs) : option Vfs :=
  match (if has_flag (openFlags (heap v p)) SQLITE_OPEN_MAIN_DB then mcMainListRemove fuel p v else Some v) with
  | None => None
  | Some v =>
      let c := codec (heap v p) in
      Some (if negb (c =? 0) then let v := store_file p (set_codec 0 (heap v p)) v in mk_vfs (pMain v) (heap v) (c :: freed v)
            else v)
  end.

(** The codec of a database, for a connection that uses the shim. *)
Definition sqlite3mcGetCodec (fuel : nat) (v : Vfs) (dbFileName : Z) : option Z :=
  match mcFindDbMainFileName fuel v dbFileName with
  | None => None
  | Some pDb => Some (if negb (pDb =? 0) then codec (heap v pDb) else 0)
  end.

Definition free_codec (c : Z) (v : Vfs) : Vfs := if negb (c =? 0) then mk_vfs (pMain v) (heap v) (c :: freed v) else v.

(** A codec for a database; without an open file of the name it is freed.  The report to the
    pager, which clears its error state, is left out. *)
Definition sqlite3mcSetCodec (fuel : nat) (zName c : Z) (v : Vfs) : option Vfs :=
  match mcFindDbMainFileName fuel v zName with
  | None => None
  | Some pDb =>
      Some (if negb (pDb =? 0) then free_codec (codec (heap v pDb)) (store_file pDb (set_codec c (heap v pDb)) v)
            else free_codec c v)
  end.

(** ** The list in memory *)

(** From pointer [p], the links visit the handles [l] in order and reach [q]. *)
Fixpoint segment (h : Z -> File) (p : Z) (l : list Z) (q : Z) : Prop :=
  match l with
  | [] => p = q
  | a :: l => p = a /\ a <> 0 /\ segment h (pMainNext (h a)) l q
  end.

Abbreviation update h a f := (fun b => if b =? a then f else h b).

(** Changes that leave the links of the handles. *)
Lemma segment_same h h' p l q :
  segment h p l q -> (forall a, In a l -> pMainNext (h' a) = pMainNext (h a)) -> segment h' p l q.
Proof.
  revert p. induction l as [|a l IH]; intros p H E; [exact H|]. destruct H as (-> & N & H).
  split; [reflexivity|]. split; [exact N|]. rewrite E by now left. apply IH; [exact H|]. intros b Hb. apply E. now right.
Qed.

Lemma segment_update h p l q a f : segment h p l q -> ~ In a l -> segment (update h a f) p l q.
Proof.
  intros H N. apply (segment_same h); [exact H|]. intros b Hb. destruct (Z.eqb_spec b a) as [->|]; [contradiction|reflexivity].
Qed.

Lemma segment_app h p l1 l2 r : segment h p (l1 ++ l2) r <-> exists q, segment h p l1 q /\ segment h q l2 r.
Proof.
  revert p. induction l1 as [|a l1 IH]; intros p; cbn [app segment].
  - split; [eauto|]. now intros (q & -> & H).
  - rewrite IH. firstorder.
Qed.

(** The first handle of a list with a name, or null. *)
Definition first_named (name : Z -> Z) (l : list Z) (zName : Z) : Z :=
  match find (fun a => name a =? zName) l with Some a => a | None => 0 end.

(** The search ends after one step more than there are handles. *)
Lemma find_name_ok v zName l : forall fuel p, segment (heap v) p l 0 -> (length l < fuel)%nat ->
  find_name fuel v p zName = Some (first_named (fun a => zFileName (heap v a)) l zName).
Proof.
  induction l as [|a l IH]; intros [|fuel] p H Hf; cbn [length] in Hf; try lia; cbn [find_name].
  - cbn in H. subst p. reflexivity.
  - destruct H as (-> & N & H). rewrite (proj2 (Z.eqb_neq a 0) N). cbn [orb]. unfold first_named. cbn [find].
    destruct (zFileName (heap v a) =? zName); [reflexivity|]. apply IH; [exact H|lia].
Qed.

(** The pointer to the handle after [l]. *)
Definition last_link (loc : Loc) (l : list Z) : Loc := fold_left (fun _ a => Link a) l loc.

Lemma find_link_ok v p l : forall fuel loc, segment (heap v) (deref v loc) l p -> ~ In p l -> (length l < fuel)%nat ->
  find_link fuel v loc p = Some (last_link loc l) /\ deref v (last_link loc l) = p.
Proof.
  induction l as [|a l IH]; intros [|fuel] loc H N Hf; cbn [length] in Hf; try lia; cbn [find_link last_link fold_left].
  - cbn in H. rewrite H, Z.eqb_refl, orb_true_r. auto.
  - destruct H as (-> & Na & H). rewrite (proj2 (Z.eqb_neq a 0) Na), (proj2 (Z.eqb_neq a p)) by (intros ->; apply N; now left).
    cbn [orb]. apply IH; [exact H| |lia]. intros Hp. apply N. now right.
Qed.

(** Two states agree on everything but the links. *)
Definition unlinked_same (v w : Vfs) : Prop :=
  freed v = freed w /\ forall b, zFileName (heap v b) = zFileName (heap w b) /\ openFlags (heap v b) = openFlags (heap w b) /\
    pMainDb (heap v b) = pMainDb (heap w b) /\ codec (heap v b) = codec (heap w b).

Lemma store_next_same a p v : unlinked_same (store_file a (set_next p (heap v a)) v) v.
Proof. split; [reflexivity|]. intros b. cbn. destruct (Z.eqb_spec b a) as [->|]; auto. Qed.

Lemma same_link_trans u v w : unlinked_same u v -> unlinked_same v w -> unlinked_same u w.
Proof.
  intros [A B] [C D]. split; [congruence|]. intros b. destruct (B b) as (? & ? & ? & ?), (D b) as (? & ? & ? & ?).
  repeat split; congruence.
Qed.

(** The pointer to a handle is redirected to [r]. *)
Lemma assign_ok v l p r :
  segment (heap v) (pMain v) l p -> NoDup l ->
  segment (heap (assign (last_link Head l) r v)) (pMain (assign (last_link Head l) r v)) l r /\
  unlinked_same (assign (last_link Head l) r v) v /\
  forall b, ~ In b l -> heap (assign (last_link Head l) r v) b = heap v b.
Proof.
  intros H D. destruct l as [|a l _] using rev_ind; [cbn; repeat split; auto|].
  unfold last_link. rewrite fold_left_app. cbn [fold_left assign].
  apply segment_app in H as (q & H & -> & Na & _). apply NoDup_remove in D as [_ N]. rewrite app_nil_r in N.
  split; [|split; [apply store_next_same|]].
  - apply segment_app. exists a. split; [now apply segment_update|]. cbn. rewrite Z.eqb_refl. auto.
  - intros b Hb. cbn. destruct (Z.eqb_spec b a) as [->|]; [|reflexivity]. exfalso. apply Hb, in_or_app. right. now left.
Qed.

Lemma remove_ok v l1 p l2 fuel :
  segment (heap v) (pMain v) (l1 ++ p :: l2) 0 -> NoDup (l1 ++ p :: l2) -> (length l1 < fuel)%nat ->
  exists v', mcMainListRemove fuel p v = Some v' /\ segment (heap v') (pMain v') (l1 ++ l2) 0 /\ unlinked_same v' v.
Proof.
  intros H D Hf. apply segment_app in H as (q & H1 & -> & Np & H2).
  pose proof (NoDup_remove_2 _ _ _ D) as N. pose proof (NoDup_remove_1 _ _ _ D) as D'.
  assert (N1 : ~ In p l1) by (intros X; apply N, in_or_app; now left).
  assert (N2 : ~ In p l2) by (intros X; apply N, in_or_app; now right).
  destruct (find_link_ok v p l1 fuel Head H1 N1 Hf) as [E Ed].
  destruct (assign_ok v l1 p (pMainNext (heap v p)) H1) as (S1 & U & K); [now apply NoDup_app_remove_r in D'|].
  set (w := assign (last_link Head l1) (pMainNext (heap v p)) v) in *.
  eexists. split; [|split].
  - unfold mcMainListRemove. rewrite E, Ed, (proj2 (Z.eqb_neq p 0) Np). reflexivity.
  - fold w. apply segment_update; [|exact N]. apply segment_app. exists (pMainNext (heap v p)). split; [exact S1|].
    apply (segment_same (heap v)); [exact H2|]. intros b Hb. rewrite K; [reflexivity|]. intros X.
    apply (in_split b l1) in X as (a1 & a2 & ->). rewrite <- app_assoc in D'. apply NoDup_remove_2 in D'.
    apply D', in_or_app. right. apply in_or_app. now right.
  - fold w. exact (same_link_trans _ _ _ (store_next_same p 0 w) U).
Qed.

(** ** Sequences of operations *)

Inductive Event :=
| OpenFile (p zName flags rc : Z)
| CloseFile (p : Z)
| SetCodec (zName c : Z).

Definition perform (fuel : nat) (database : Z -> Z) (ev : Event) (v : Vfs) : option Vfs :=
  match ev with
  | OpenFile p zName flags rc => mcVfsOpen fuel database zName p flags rc v
  | CloseFile p => mcIoClose fuel p v
  | SetCodec zName c => sqlite3mcSetCodec fuel zName c v
  end.

Fixpoint perform_all (fuel : nat) (database : Z -> Z) (evs : list Event) (v : Vfs) : option Vfs :=
  match evs with
  | [] => Some v
  | ev :: evs => match perform fuel database ev v with None => None | Some v => perform_all fuel database evs v end
  end.

(** What the engine knows: the open files, the last one first, and the codecs it handed over. *)
Record Entry := mk_entry { en_handle : Z; en_name : Z; en_flags : Z }.
Record Opened := mk_opened { o_files : list Entry; o_codecs : list Z }.

Definition is_main (e : Entry) : bool := has_flag (en_flags e) SQLITE_OPEN_MAIN_DB.
Definition mains (l : list Entry) : list Z := map en_handle (filter is_main l).

Definition close_entry (p : Z) (l : list Entry) : list Entry := filter (fun e => negb (en_handle e =? p)) l.

Definition track (ev : Event) (o : Opened) : Opened :=
  match ev with
  | OpenFile p zName flags rc =>
      if rc =? SQLITE_OK then mk_opened (mk_entry p zName flags :: o_files o) (o_codecs o) else o
  | CloseFile p => mk_opened (close_entry p (o_files o)) (o_codecs o)
  | SetCodec _ c => mk_opened (o_files o) (c :: o_codecs o)
  end.

(** Only memory that is not an open file is opened, only open files are closed, and each
    codec is handed over once. *)
Definition permitted (ev : Event) (o : Opened) : Prop :=
  match ev with
  | OpenFile p _ _ _ => p <> 0 /\ ~ In p (map en_handle (o_files o))
  | CloseFile p => In p (map en_handle (o_files o))
  | SetCodec _ c => c = 0 \/ ~ In c (o_codecs o)
  end.

Fixpoint permitted_all (evs : list Event) (o : Opened) : Prop :=
  match evs with [] => True | ev :: evs => permitted ev o /\ permitted_all evs (track ev o) end.

(** The main database file that was opened last with a name. *)
Definition main_file (l : list Entry) (zName : Z) : Z :=
  match find (fun e => is_main e && (en_name e =? zName)) l with Some e => en_handle e | None => 0 end.

Record consistent (v : Vfs) (o : Opened) : Prop := mk_consistent {
  cs_list : segment (heap v) (pMain v) (mains (o_files o)) 0;
  cs_nodup : NoDup (map en_handle (o_files o));
  cs_null : ~ In 0 (map en_handle (o_files o));
  cs_fields : forall e, In e (o_files o) -> zFileName (heap v (en_handle e)) = en_name e /\ openFlags (heap v (en_handle e)) = en_flags e;
  cs_freed : NoDup (freed v) /\ forall c, In c (freed v) -> c <> 0 /\ In c (o_codecs o);
  cs_codec : forall p, In p (map en_handle (o_files o)) -> codec (heap v p) <> 0 ->
    In (codec (heap v p)) (o_codecs o) /\ ~ In (codec (heap v p)) (freed v);
  cs_owner : forall p q, In p (map en_handle (o_files o)) -> In q (map en_handle (o_files o)) ->
    codec (heap v p) <> 0 -> codec (heap v p) = codec (heap v q) -> p = q }.

Lemma in_mains p l : In p (mains l) -> In p (map en_handle l).
Proof.
  unfold mains. rewrite !in_map_iff. intros (e & E & H). apply filter_In in H as [H _]. eauto.
Qed.

Lemma nodup_mains l : NoDup (map en_handle l) -> NoDup (mains l).
Proof.
  unfold mains. induction l as [|e l IH]; cbn [map filter]; [auto|]. intros D. inversion D as [|? ? N D']; subst.
  destruct (is_main e); [|auto]. cbn [map]. constructor; [|auto]. intros H. now apply N, in_mains.
Qed.

(** The search finds the file that was opened last. *)
Lemma find_main v o fuel zName : consistent v o -> (length (o_files o) < fuel)%nat ->
  mcFindDbMainFileName fuel v zName = Some (main_file (o_files o) zName).
Proof.
  intros C Hf. unfold mcFindDbMainFileName. rewrite (find_name_ok v zName _ fuel _ (cs_list _ _ C)).
  - f_equal. pose proof (cs_fields _ _ C) as H. unfold first_named, main_file, mains.
    induction (o_files o) as [|e l IH]; [reflexivity|]. cbn [filter find].
    assert (IH' := IH ltac:(cbn [length] in Hf; lia) ltac:(intros x Hx; apply H; now right)).
    destruct (is_main e); cbn [map find andb]; [|exact IH'].
    rewrite (proj1 (H e (or_introl eq_refl))). destruct (en_name e =? zName); [reflexivity|exact IH'].
  - unfold mains. rewrite length_map. pose proof (filter_length_le is_main (o_files o)). lia.
Qed.

Lemma main_file_open l zName : main_file l zName <> 0 -> In (main_file l zName) (map en_handle l).
Proof.
  unfold main_file. destruct (find _ l) as [e|] eqn:E; [|congruence]. intros _. apply find_some in E as [E _]. now apply in_map.
Qed.

(** A change of a handle that is not an open file. *)
Lemma fresh_store v o p f : consistent v o -> ~ In p (map en_handle (o_files o)) -> consistent (store_file p f v) o.
Proof.
  intros [C1 C2 C3 C4 C5 C6 C7] N.
  assert (K : forall q, In q (map en_handle (o_files o)) -> heap (store_file p f v) q = heap v q).
  { intros q Hq. cbn. destruct (Z.eqb_spec q p) as [->|]; [contradiction|reflexivity]. }
  constructor; try assumption.
  - apply segment_update; [exact C1|]. intros H. now apply N, in_mains.
  - intros e He. rewrite K by now apply in_map. auto.
  - intros q Hq. rewrite K by assumption. auto.
  - intros q r Hq Hr. rewrite !K by assumption. auto.
Qed.

(** A new file without a codec is registered. *)
Lemma register_file_ok v o p zName flags : consistent v o -> p <> 0 -> ~ In p (map en_handle (o_files o)) ->
  zFileName (heap v p) = zName -> openFlags (heap v p) = flags -> codec (heap v p) = 0 ->
  consistent (if has_flag flags SQLITE_OPEN_MAIN_DB then mcMainListAdd p v else v)
    (mk_opened (mk_entry p zName flags :: o_files o) (o_codecs o)).
Proof.
  intros C Np N E1 E2 E3.
  set (w := if has_flag flags SQLITE_OPEN_MAIN_DB then mcMainListAdd p v else v).
  assert (U : unlinked_same w v).
  { unfold w. destruct (has_flag flags SQLITE_OPEN_MAIN_DB); [exact (store_next_same p (pMain v) v)|].
    split; [reflexivity|auto]. }
  destruct C as [C1 C2 C3 C4 C5 C6 C7], U as [Uf U]. constructor; cbn [o_files o_codecs map en_handle].
  - unfold mains, w. cbn [filter is_main en_flags]. unfold is_main at 1. cbn [en_flags].
    destruct (has_flag flags SQLITE_OPEN_MAIN_DB); [|exact C1]. cbn [map en_handle segment mcMainListAdd pMain heap].
    split; [reflexivity|]. split; [exact Np|]. cbn [store_file heap]. rewrite Z.eqb_refl. cbn [set_next pMainNext].
    apply segment_update; [exact C1|]. intros H. now apply N, in_mains.
  - now constructor.
  - intros [H|H]; [now apply Np|now apply C3].
  - intros e [<-|He]; [destruct (U p) as (A & B & _)|destruct (U (en_handle e)) as (A & B & _)];
      cbn [en_handle en_name en_flags]; rewrite A, B; auto.
  - rewrite Uf. exact C5.
  - intros q Hq. destruct (U q) as (_ & _ & _ & ->). rewrite Uf. destruct Hq as [<-|Hq]; [congruence|auto].
  - intros q r Hq Hr. destruct (U q) as (_ & _ & _ & ->), (U r) as (_ & _ & _ & ->).
    destruct Hq as [<-|Hq], Hr as [<-|Hr]; try congruence; auto.
Qed.

Definition is_journal_open (zName flags : Z) : bool :=
  negb (zName =? 0) && negb (has_flag flags SQLITE_OPEN_MAIN_DB || has_flag flags SQLITE_OPEN_TEMP_DB) &&
  (has_flag flags SQLITE_OPEN_MAIN_JOURNAL || has_flag flags SQLITE_OPEN_SUBJOURNAL || has_flag flags SQLITE_OPEN_WAL).

Lemma open_file_ok fuel database v o p zName flags rc :
  consistent v o -> permitted (OpenFile p zName flags rc) o -> (length (o_files o) < fuel)%nat ->
  exists v', mcVfsOpen fuel database zName p flags rc v = Some v' /\ consistent v' (track (OpenFile p zName flags rc) o) /\
    pMainDb (heap v' p) = if is_journal_open zName flags then main_file (o_files o) (database zName) else 0.
Proof.
  intros C [Np N] Hf.
  set (pDb := if is_journal_open zName flags then main_file (o_files o) (database zName) else 0).
  set (v1 := store_file p (mk_file zName flags 0 0 0 0) v).
  assert (C1 : consistent v1 o) by now apply fresh_store.
  assert (H : exists w, mcVfsOpen fuel database zName p flags rc v =
      Some (if rc =? SQLITE_OK then if has_flag flags SQLITE_OPEN_MAIN_DB then mcMainListAdd p w else w else w) /\
      consistent w o /\ heap w p = mk_file zName flags 0 pDb 0 0).
  { unfold mcVfsOpen. fold v1. unfold pDb. fold (is_journal_open zName flags).
    destruct (is_journal_open zName flags).
    - rewrite (find_main v1 o fuel _ C1 Hf). eexists. split; [reflexivity|]. split; [now apply fresh_store|].
      cbn. now rewrite Z.eqb_refl.
    - exists v1. split; [reflexivity|]. split; [exact C1|]. cbn. now rewrite Z.eqb_refl. }
  destruct H as (w & E & Cw & Hw). eexists. split; [exact E|]. cbn [track]. destruct (rc =? SQLITE_OK).
  - split; [apply register_file_ok; auto; now rewrite Hw|].
    destruct (has_flag flags SQLITE_OPEN_MAIN_DB); [cbn; rewrite Z.eqb_refl|]; now rewrite Hw.
  - split; [exact Cw|now rewrite Hw].
Qed.

Lemma mains_close p l : mains (close_entry p l) = filter (fun a => negb (a =? p)) (mains l).
Proof.
  unfold mains, close_entry. induction l as [|e l IH]; [reflexivity|]. cbn [filter].
  destruct (is_main e) eqn:M, (negb (en_handle e =? p)) eqn:Q; cbn [filter map]; rewrite ?M, ?Q; cbn [map]; now rewrite IH.
Qed.

Lemma filter_other p l : ~ In p l -> filter (fun a => negb (a =? p)) l = l.
Proof.
  induction l as [|a l IH]; intros N; cbn [filter]; [reflexivity|].
  rewrite (proj2 (Z.eqb_neq a p)) by (intros ->; apply N; now left). cbn [negb]. f_equal. apply IH. intros H. apply N. now right.
Qed.

Lemma handles_close p l : map en_handle (close_entry p l) = filter (fun a => negb (a =? p)) (map en_handle l).
Proof.
  unfold close_entry. induction l as [|e l IH]; [reflexivity|]. cbn [filter map].
  destruct (negb (en_handle e =? p)); cbn [map]; now rewrite IH.
Qed.

Lemma in_close p q l : In q (map en_handle (close_entry p l)) <-> In q (map en_handle l) /\ q <> p.
Proof. rewrite handles_close, filter_In. destruct (Z.eqb_spec q p); cbn [negb]; intuition congruence. Qed.

(** Unlinking a handle, if it is the handle of a main database file. *)
Lemma unregister_ok fuel v o p : consistent v o -> In p (map en_handle (o_files o)) -> (length (o_files o) < fuel)%nat ->
  exists v', (if has_flag (openFlags (heap v p)) SQLITE_OPEN_MAIN_DB then mcMainListRemove fuel p v else Some v) = Some v' /\
    segment (heap v') (pMain v') (mains (close_entry p (o_files o))) 0 /\ unlinked_same v' v.
Proof.
  intros C Hp Hf. rewrite mains_close. pose proof (nodup_mains _ (cs_nodup _ _ C)) as D.
  apply in_map_iff in Hp as (e & He & Hin). pose proof (proj2 (cs_fields _ _ C e Hin)) as Fl. rewrite He in Fl. rewrite Fl.
  change (has_flag (en_flags e) SQLITE_OPEN_MAIN_DB) with (is_main e). destruct (is_main e) eqn:M.
  - assert (Im : In p (mains (o_files o))) by (apply in_map_iff; exists e; split; [exact He|now apply filter_In]).
    destruct (in_split _ _ Im) as (l1 & l2 & E). pose proof (cs_list _ _ C) as Sg.
    assert (Ll : (length (mains (o_files o)) <= length (o_files o))%nat)
      by (unfold mains; rewrite length_map; apply filter_length_le).
    rewrite E in Sg, D, Ll |- *. rewrite length_app in Ll.
    destruct (remove_ok v l1 p l2 fuel Sg D) as (v' & Er & S' & U); [lia|].
    exists v'. split; [exact Er|]. split; [|exact U]. pose proof (NoDup_remove_2 _ _ _ D) as N.
    rewrite filter_app. cbn [filter]. rewrite Z.eqb_refl. cbn [negb]. rewrite <- filter_app. now rewrite filter_other.
  - exists v. split; [reflexivity|]. split; [|split; [reflexivity|auto]]. rewrite filter_other; [exact (cs_list _ _ C)|].
    intros H. apply in_map_iff in H as (e2 & He2 & H2). apply filter_In in H2 as [H2 M2].
    assert (e2 = e); [|congruence]. pose proof (cs_nodup _ _ C) as Dn. clear - Dn Hin H2 He He2.
    induction (o_files o) as [|x l IH]; [contradiction|]. cbn [map] in Dn. apply NoDup_cons_iff in Dn as [N Dn'].
    destruct Hin as [->|Hin], H2 as [->|H2]; auto; exfalso; apply N, in_map_iff;
      eexists; (split; [|eassumption]); congruence.
Qed.

Lemma nodup_close p l : NoDup (map en_handle l) -> NoDup (map en_handle (close_entry p l)).
Proof. intros D. rewrite handles_close. now apply NoDup_filter. Qed.

Lemma close_ok fuel v o p :
  consistent v o -> permitted (CloseFile p) o -> (length (o_files o) < fuel)%nat ->
  exists v', mcIoClose fuel p v = Some v' /\ consistent v' (track (CloseFile p) o).
Proof.
  intros C Hp Hf. destruct (unregister_ok fuel v o p C Hp Hf) as (w & E & Sg & Uf & U).
  destruct C as [_ C2 C3 C4 C5 C6 C7].
  assert (Ec : codec (heap w p) = codec (heap v p)) by apply U.
  eexists. split; [unfold mcIoClose; rewrite E, Ec; reflexivity|]. cbn [track].
  set (w' := if negb (codec (heap v p) =? 0) then _ else w).
  assert (K : forall q, q <> p -> heap w' q = heap w q).
  { intros q Nq. unfold w'. destruct (negb _); [|reflexivity]. cbn. now rewrite (proj2 (Z.eqb_neq q p) Nq). }
  assert (Kf : freed w' = if negb (codec (heap v p) =? 0) then codec (heap v p) :: freed v else freed v).
  { unfold w'. destruct (negb _); cbn; now rewrite Uf. }
  constructor; cbn [o_files o_codecs].
  - replace (pMain w') with (pMain w) by (unfold w'; now destruct (negb _)).
    apply (segment_same (heap w)); [exact Sg|]. intros q Hq. rewrite K; [reflexivity|]. now apply in_mains, in_close in Hq.
  - now apply nodup_close.
  - rewrite in_close. tauto.
  - intros e He. assert (Hn : en_handle e <> p) by (apply (in_map en_handle), in_close in He; tauto).
    rewrite K by exact Hn. destruct (U (en_handle e)) as (-> & -> & _). apply C4. now apply filter_In in He.
  - rewrite Kf. destruct (Z.eqb_spec (codec (heap v p)) 0) as [|Nc]; cbn [negb]; [exact C5|].
    destruct (C6 p Hp Nc) as [A B], C5 as [D1 D2]. split; [now constructor|]. intros c [<-|Hc]; auto.
  - intros q Hq. apply in_close in Hq as [Hq Nq]. rewrite K by exact Nq. destruct (U q) as (_ & _ & _ & ->). intros Nc.
    destruct (C6 q Hq Nc) as [A B]. split; [exact A|]. rewrite Kf. destruct (negb _) eqn:Z0; [|exact B].
    intros [H|H]; [|contradiction]. apply Nq. symmetry. apply (C7 p q Hp Hq); [congruence|exact H].
  - intros q r Hq Hr. apply in_close in Hq as [Hq Nq], Hr as [Hr Nr]. rewrite !K by assumption.
    destruct (U q) as (_ & _ & _ & ->), (U r) as (_ & _ & _ & ->). auto.
Qed.

(** A codec that was not handed over before is freed, or given to an open file. *)
Lemma consistent_fresh_codec v o c : consistent v o -> c = 0 \/ ~ In c (o_codecs o) ->
  consistent (free_codec c v) (mk_opened (o_files o) (c :: o_codecs o)).
Proof.
  intros [C1 C2 C3 C4 [C5 C5'] C6 C7] Hc. unfold free_codec.
  assert (M : forall x, In x (o_codecs o) -> In x (c :: o_codecs o)) by (intros; now right).
  destruct (Z.eqb_spec c 0) as [->|Nc]; cbn [negb].
  - constructor; cbn [o_files o_codecs]; auto.
    + split; [exact C5|]. intros x Hx. destruct (C5' x Hx). auto.
    + intros p Hp Np. destruct (C6 p Hp Np). auto.
  - destruct Hc as [|Hc]; [contradiction|]. constructor; cbn [o_files o_codecs heap pMain freed]; auto.
    + split; [constructor; [|exact C5]; intros Hx; now apply C5' in Hx|].
      intros x [<-|Hx]; [split; [exact Nc|now left]|]. destruct (C5' x Hx). auto.
    + intros p Hp Np. destruct (C6 p Hp Np) as [A B]. split; [now right|]. intros [H|H]; [|contradiction]. congruence.
Qed.

Lemma set_codec_ok fuel v o zName c :
  consistent v o -> permitted (SetCodec zName c) o -> (length (o_files o) < fuel)%nat ->
  exists v', sqlite3mcSetCodec fuel zName c v = Some v' /\ consistent v' (track (SetCodec zName c) o) /\
    let pDb := main_file (o_files o) zName in
    (pDb <> 0 -> codec (heap v' pDb) = c) /\ forall q, q <> pDb -> heap v' q = heap v q.
Proof.
  intros C Hc Hf. set (pDb := main_file (o_files o) zName).
  unfold sqlite3mcSetCodec. rewrite (find_main v o fuel zName C Hf). fold pDb. eexists. split; [reflexivity|].
  cbn [track]. destruct (Z.eqb_spec pDb 0) as [E0|Np]; cbn [negb].
  { split; [now apply consistent_fresh_codec|]. split; [contradiction|].
    intros q _. unfold free_codec. now destruct (negb _). }
  pose proof (main_file_open _ _ Np : In pDb (map en_handle (o_files o))) as Hp.
  destruct C as [C1 C2 C3 C4 [C5 C5'] C6 C7].
  set (w := free_codec _ _). set (old := codec (heap v pDb)) in *.
  assert (K : forall q, heap w q = if q =? pDb then set_codec c (heap v q) else heap v q).
  { intros q. unfold w, free_codec. destruct (negb _); cbn; destruct (Z.eqb_spec q pDb) as [->|]; reflexivity. }
  assert (Kf : freed w = if negb (old =? 0) then old :: freed v else freed v)
    by (unfold w, free_codec; now destruct (negb _)).
  assert (Nf : c <> 0 -> ~ In c (o_codecs o)) by (cbn in Hc; tauto).
  split; [|split; [intros _; rewrite K, Z.eqb_refl; reflexivity|intros q Nq; rewrite K; now rewrite (proj2 (Z.eqb_neq _ _) Nq)]].
  constructor; cbn [o_files o_codecs]; auto.
  - replace (pMain w) with (pMain v) by (unfold w, free_codec; now destruct (negb _)).
    apply (segment_same (heap v)); [exact C1|]. intros q _. rewrite K. now destruct (q =? pDb).
  - intros e He. rewrite K. destruct (_ =? pDb); cbn; auto.
  - rewrite Kf. destruct (Z.eqb_spec old 0) as [|No]; cbn [negb].
    + split; [exact C5|]. intros x Hx. destruct (C5' x Hx). split; [assumption|now right].
    + destruct (C6 pDb Hp No) as [A B]. split; [now constructor|].
      intros x [<-|Hx]; [split; [exact No|now right]|]. destruct (C5' x Hx). split; [assumption|now right].
  - intros q Hq. rewrite K, Kf. destruct (Z.eqb_spec q pDb) as [->|Nq]; cbn [set_codec codec]; intros Ncd.
    + split; [now left|]. specialize (Nf Ncd). destruct (Z.eqb_spec old 0) as [|No]; cbn [negb].
      * intros H. now apply C5' in H.
      * intros [H|H]; [|now apply C5' in H]. apply Nf. rewrite <- H. now apply (C6 pDb).
    + destruct (C6 q Hq Ncd) as [A B]. split; [now right|]. destruct (Z.eqb_spec old 0) as [|No]; cbn [negb]; [exact B|].
      intros [H|H]; [|contradiction]. apply Nq. symmetry. now apply (C7 pDb q).
  - intros q r Hq Hr. rewrite !K. destruct (Z.eqb_spec q pDb) as [->|Nq], (Z.eqb_spec r pDb) as [->|Nr]; cbn [set_codec codec]; auto.
    + intros Ncd H. exfalso. apply (Nf Ncd). rewrite H. apply (C6 r Hr). congruence.
    + intros Ncd H. exfalso. assert (c <> 0) by congruence. apply (Nf H0). rewrite <- H. now apply (C6 q Hq).
Qed.

Lemma track_length ev o : (length (o_files (track ev o)) <= S (length (o_files o)))%nat.
Proof.
  destruct ev as [p n f rc|p|n c]; cbn [track o_files].
  - destruct (rc =? SQLITE_OK); cbn [o_files length]; lia.
  - unfold close_entry. pose proof (filter_length_le (fun e => negb (en_handle e =? p)) (o_files o)). lia.
  - lia.
Qed.

Lemma perform_ok fuel database ev v o : consistent v o -> permitted ev o -> (length (o_files o) < fuel)%nat ->
  exists v', perform fuel database ev v = Some v' /\ consistent v' (track ev o).
Proof.
  intros C P Hf. destruct ev as [p n f rc|p|n c]; cbn [perform].
  - destruct (open_file_ok fuel database v o p n f rc C P Hf) as (v' & E & C' & _). eauto.
  - exact (close_ok fuel v o p C P Hf).
  - destruct (set_codec_ok fuel v o n c C P Hf) as (v' & E & C' & _). eauto.
Qed.

Lemma perform_all_ok fuel database evs : forall v o,
  consistent v o -> permitted_all evs o -> (length evs + length (o_files o) < fuel)%nat ->
  exists v', perform_all fuel database evs v = Some v' /\ consistent v' (fold_left (fun o ev => track ev o) evs o) /\
    (length (o_files (fold_left (fun o ev => track ev o) evs o)) < fuel)%nat.
Proof.
  induction evs as [|ev evs IH]; intros v o C P Hf; [exists v; auto|]. destruct P as [P Ps]. cbn [length] in Hf.
  destruct (perform_ok fuel database ev v o C P) as (v1 & E1 & C1); [lia|].
  destruct (IH v1 (track ev o) C1 Ps) as (v' & E & H); [pose proof (track_length ev o); lia|].
  exists v'. cbn [perform_all]. now rewrite E1.
Qed.

(** The shim before the first file is opened. *)
Definition initial (h : Z -> File) : Vfs := mk_vfs 0 h [].

Lemma initial_consistent h : consistent (initial h) (mk_opened [] []).
Proof. constructor; cbn; auto using NoDup_nil; try tauto. Qed.

(** Open files are found, and codecs are freed once.  Files are opened, also without
    success, and closed, and codecs set, in any order that the engine is entitled to.  Every
    search through the linked list ends, within one step more than operations were performed,
    at the main database file that was opened last with the name and is still open, or at
    null; a journal or log that is opened next is attached to this file.  No codec is freed
    twice, and no open file refers to a freed codec. *)
Theorem open_files_found fuel database evs h :
  permitted_all evs (mk_opened [] []) -> (length evs < fuel)%nat ->
  let o := fold_left (fun o ev => track ev o) evs (mk_opened [] []) in
  exists v, perform_all fuel database evs (initial h) = Some v /\
    (forall zName, mcFindDbMainFileName fuel v zName = Some (main_file (o_files o) zName)) /\
    (forall p zName flags rc, permitted (OpenFile p zName flags rc) o ->
      exists v', mcVfsOpen fuel database zName p flags rc v = Some v' /\
        pMainDb (heap v' p) = if is_journal_open zName flags then main_file (o_files o) (database zName) else 0) /\
    NoDup (freed v) /\
    forall e, In e (o_files o) -> codec (heap v (en_handle e)) <> 0 -> ~ In (codec (heap v (en_handle e))) (freed v).
Proof.
  intros P Hf o.
  destruct (perform_all_ok fuel database evs (initial h) _ (initial_consistent h) P) as (v & E & C & Hl); [cbn; lia|].
  exists v. split; [exact E|]. split; [intros zName; exact (find_main v o fuel zName C Hl)|]. split.
  - intros p zName flags rc Pm. destruct (open_file_ok fuel database v o p zName flags rc C Pm Hl) as (v' & E' & _ & D). eauto.
  - split; [apply (cs_freed _ _ C)|]. intros e He Nc. apply (cs_codec _ _ C); [now apply in_map|exact Nc].
Qed.

(** A database and its journal, two handles on one file, and a codec that is replaced. *)
Lemma open_files_found_witness :
  let evs := [OpenFile 1000 7 SQLITE_OPEN_MAIN_DB 0; SetCodec 7 5000; OpenFile 2000 8 SQLITE_OPEN_MAIN_DB 0;
              SetCodec 7 6000; OpenFile 3000 8 SQLITE_OPEN_MAIN_DB 14; CloseFile 2000] in
  exists v v', perform_all 10 (fun n => n - 10) evs (initial (fun _ => mk_file 0 0 0 0 0 0)) = Some v /\
    mcFindDbMainFileName 10 v 7 = Some 1000 /\ mcFindDbMainFileName 10 v 8 = Some 0 /\
    mcVfsOpen 10 (fun n => n - 10) 17 2000 SQLITE_OPEN_WAL 0 v = Some v' /\ pMainDb (heap v' 2000) = 1000 /\
    NoDup (freed v).
Proof.
  intros evs. destruct (open_files_found 10 (fun n => n - 10) evs (fun _ => mk_file 0 0 0 0 0 0)) as (v & E & Fd & Op & Nd & _).
  - cbn. intuition lia.
  - cbn. lia.
  - destruct (Op 2000 17 SQLITE_OPEN_WAL 0) as (v' & E' & D); [cbn; intuition lia|].
    exists v, v'. split; [exact E|]. split; [exact (Fd 7)|]. split; [exact (Fd 8)|]. split; [exact E'|]. split; [exact D|exact Nd].
Defined.

(** A handle that is added twice links to itself, and the search for a name that is not in
    the list does not end. *)
Lemma added_twice_never_ends p v zName : p <> 0 -> zFileName (heap v p) <> zName ->
  forall fuel, mcFindDbMainFileName fuel (mcMainListAdd p (mcMainListAdd p v)) zName = None.
Proof.
  intros Np Nn fuel. unfold mcFindDbMainFileName. cbn [mcMainListAdd pMain].
  induction fuel as [|fuel IH]; [reflexivity|]. cbn [find_name].
  cbn [mcMainListAdd heap store_file pMain]. rewrite Z.eqb_refl. cbn [set_next zFileName pMainNext].
  rewrite (proj2 (Z.eqb_neq p 0) Np), (proj2 (Z.eqb_neq _ _) Nn). cbn [orb]. exact IH.
Qed.
