(* ===== verification/Varint.v ===== *)
(** * Variable-length integers (util.c)

    The integers of the file format in one to nine bytes, their unrolled reader, and the
    conversion of decimal digits.  The reader is compared with the format, as its comment
    describes it, by an evaluator that finds for each bit of a result the bits of the bytes
    it is made of. *)

From Stdlib Require Import ZArith Lia List Bool.
From S2P Require Import Prelude.
Import ListNotations.
Local Open Scope Z_scope.

(** ** Writing *)

(** The bytes of seven bits with their flag, the lowest first. *)
Fixpoint low_groups (n : nat) (v : Z) : list Z :=
  match n with O => [] | S n => Z.lor (Z.land v 0x7f) 0x80 :: low_groups n (Z.shiftr v 7) end.

(** The loop that fills the buffer until no bits are left, at most [fuel] bytes. *)
Fixpoint group_loop (fuel : nat) (v : Z) : list Z :=
  let b := Z.lor (Z.land v 0x7f) 0x80 in
  match fuel with
  | O => [b]
  | S fuel => if Z.shiftr v 7 =? 0 then [b] else b :: group_loop fuel (Z.shiftr v 7)
  end.

Definition putVarint64 (v : Z) : list Z :=
  if negb (Z.land v (Z.shiftl 0xff000000 32) =? 0) then rev (low_groups 8 (Z.shiftr v 8)) ++ [u8 v]
  else match group_loop 9 v with b :: buf => rev (Z.land b 0x7f :: buf) | [] => [] end.

Definition sqlite3PutVarint (v : Z) : list Z :=
  if v <=? 0x7f then [Z.land v 0x7f]
  else if v <=? 0x3fff then [Z.lor (Z.land (Z.shiftr v 7) 0x7f) 0x80; Z.land v 0x7f]
  else putVarint64 v.

(** The count of the shifts until nothing is left. *)
Fixpoint varint_len (fuel : nat) (v i : Z) : Z :=
  match fuel with
  | O => i
  | S fuel => if Z.shiftr v 7 =? 0 then i else varint_len fuel (Z.shiftr v 7) (i + 1)
  end.
Definition sqlite3VarintLen (v : Z) : Z := varint_len 10 v 1.

(** ** Reading *)

Definition SLOT_2_0 : Z := 0x001fc07f.
Definition SLOT_4_2_0 : Z := 0xf01fc07f.

Definition shl32 (x n : Z) : Z := u32 (Z.shiftl x n).
Definition flag (x : Z) : bool := negb (Z.land x 0x80 =? 0).
Definition signed_neg (x : Z) : bool := 0x80 <=? x.
Definition wide (s a : Z) : Z := Z.lor (Z.shiftl s 32) a.

(** Value and number of bytes read. *)
Definition sqlite3GetVarint (p : list Z) : Z * Z :=
  if negb (signed_neg p.[0]) then (p.[0], 1)
  else if negb (signed_neg p.[1]) then (Z.lor (shl32 (Z.land p.[0] 0x7f) 7) p.[1], 2)
  else
    let a := Z.lor (shl32 p.[0] 14) p.[2] in
    let b := p.[1] in
    if negb (flag a) then (Z.lor (Z.land a SLOT_2_0) (shl32 (Z.land b 0x7f) 7), 3)
    else
    let a := Z.land a SLOT_2_0 in
    let b := Z.lor (shl32 b 14) p.[3] in
    if negb (flag b) then (Z.lor (shl32 a 7) (Z.land b SLOT_2_0), 4)
    else
    let b := Z.land b SLOT_2_0 in
    let s := a in
    let a := Z.lor (shl32 a 14) p.[4] in
    if negb (flag a) then (wide (Z.shiftr s 18) (Z.lor a (shl32 b 7)), 5)
    else
    let s := Z.lor (shl32 s 7) b in
    let b := Z.lor (shl32 b 14) p.[5] in
    if negb (flag b) then (wide (Z.shiftr s 18) (Z.lor (shl32 (Z.land a SLOT_2_0) 7) b), 6)
    else
    let a := Z.lor (shl32 a 14) p.[6] in
    if negb (flag a) then
      (wide (Z.shiftr s 11) (Z.lor (Z.land a SLOT_4_2_0) (shl32 (Z.land b SLOT_2_0) 7)), 7)
    else
    let a := Z.land a SLOT_2_0 in
    let b := Z.lor (shl32 b 14) p.[7] in
    if negb (flag b) then (wide (Z.shiftr s 4) (Z.lor (shl32 a 7) (Z.land b SLOT_4_2_0)), 8)
    else
    let a := Z.lor (shl32 a 15) p.[8] in
    let a := Z.lor a (shl32 (Z.land b SLOT_2_0) 8) in
    let s := Z.lor (shl32 s 4) (Z.shiftr (Z.land p.[4] 0x7f) 3) in
    (wide s a, 9).

(** The first byte has its flag; a value that does not fit is the largest one. *)
Definition sqlite3GetVarint32 (p : list Z) : Z * Z :=
  if Z.land p.[1] 0x80 =? 0 then (Z.lor (Z.shiftl (Z.land p.[0] 0x7f) 7) p.[1], 2)
  else if Z.land p.[2] 0x80 =? 0
  then (Z.lor (Z.lor (Z.shiftl (Z.land p.[0] 0x7f) 14) (Z.shiftl (Z.land p.[1] 0x7f) 7)) p.[2], 3)
  else
    let '(v64, n) := sqlite3GetVarint p in
    (if negb (Z.land v64 0xffffffff =? v64) then 0xffffffff else u32 v64, n).

(** The macro for the case of one byte. *)
Definition getVarint32 (p : list Z) : Z * Z := if p.[0] <? 0x80 then (p.[0], 1) else sqlite3GetVarint32 p.

(** ** Decimal digits *)

Definition sqlite3Isdigit (c : Z) : bool := (48 <=? c) && (c <=? 57).

(** [z] ends with a zero byte; success and the value. *)
Fixpoint uint32_loop (z : list Z) (v : Z) (i : nat) : bool * Z :=
  match z with
  | c :: z' =>
      if sqlite3Isdigit c then
        let v := u64 (v * 10 + c - 48) in
        if v >? 4294967296 then (false, 0) else uint32_loop z' v (S i)
      else if (i =? 0)%nat || negb (c =? 0) then (false, 0) else (true, u32 v)
  | [] => (false, 0)
  end.
Definition sqlite3GetUInt32 (z : list Z) : bool * Z := uint32_loop z 0 0.

(** ** The format *)

(** Up to eight bytes with seven bits each, the last one without the flag, or eight such bytes
    with the flag and a ninth with eight bits; the highest bits first. *)
Fixpoint varint_format (n : nat) (acc : Z) (p : list Z) (i : nat) : Z * Z :=
  match n with
  | O => (Z.lor (Z.shiftl acc 8) p.[i], Z.of_nat i + 1)
  | S n => if p.[i] <? 0x80 then (Z.lor (Z.shiftl acc 7) p.[i], Z.of_nat i + 1)
           else varint_format n (Z.lor (Z.shiftl acc 7) (Z.land p.[i] 0x7f)) p (S i)
  end.
Definition varint_value (p : list Z) : Z * Z := varint_format 8 0 p 0.

(** ** Bits of expressions *)

Module Bits.

(** Expressions over bytes. *)
Inductive expr := Var (n : nat) | Shl (k : Z) (e : expr) | Shr (k : Z) (e : expr) | And (m : Z) (e : expr) | Or (a b : expr).

Fixpoint eval (p : list Z) (e : expr) : Z :=
  match e with
  | Var n => p.[n]
  | Shl k e => Z.shiftl (eval p e) k
  | Shr k e => Z.shiftr (eval p e) k
  | And m e => Z.land (eval p e) m
  | Or a b => Z.lor (eval p a) (eval p b)
  end.

(** The bits of bytes, [width] bits each, whose disjunction is bit [i] of an expression. *)
Fixpoint sources (width : nat -> Z) (e : expr) (i : Z) : list (nat * Z) :=
  match e with
  | Var n => if i <? width n then [(n, i)] else []
  | Shl k e => if i <? k then [] else sources width e (i - k)
  | Shr k e => sources width e (i + k)
  | And m e => if Z.testbit m i then sources width e i else []
  | Or a b => sources width a i ++ sources width b i
  end.

Fixpoint shifts_ok (e : expr) : bool :=
  match e with
  | Var _ => true
  | Shl k e | Shr k e => (0 <=? k) && shifts_ok e
  | And m e => shifts_ok e
  | Or a b => shifts_ok a && shifts_ok b
  end.

Definition any (p : list Z) (l : list (nat * Z)) : bool := existsb (fun '(n, j) => Z.testbit p.[n] j) l.

Lemma sources_ok width p e : (forall n, 0 <= p.[n] < 2 ^ width n) -> (forall n, 0 <= width n) -> shifts_ok e = true ->
  forall i, 0 <= i -> Z.testbit (eval p e) i = any p (sources width e i).
Proof.
  intros Hp Hw. induction e as [n|k e IH|k e IH|m e IH|a IHa b IHb]; intros S i Hi; cbn [eval sources shifts_ok] in *.
  - destruct (Z.ltb_spec i (width n)); cbn; [now rewrite orb_false_r|]. now apply (testbit_high (width n)).
  - apply andb_true_iff in S as [Hk S]. apply Z.leb_le in Hk. rewrite Z.shiftl_spec by exact Hi.
    destruct (Z.ltb_spec i k); [apply Z.testbit_neg_r; lia|apply IH; [exact S|lia]].
  - apply andb_true_iff in S as [Hk S]. apply Z.leb_le in Hk. rewrite Z.shiftr_spec by exact Hi. apply IH; [exact S|lia].
  - rewrite Z.land_spec, (IH S i Hi). destruct (Z.testbit m i); [apply andb_true_r|apply andb_false_r].
  - apply andb_true_iff in S as [Sa Sb]. rewrite Z.lor_spec, (IHa Sa i Hi), (IHb Sb i Hi). unfold any. now rewrite existsb_app.
Qed.

Definition pair_eqb (x y : nat * Z) : bool := (fst x =? fst y)%nat && (snd x =? snd y).
Definition included (l m : list (nat * Z)) : bool := forallb (fun x => existsb (pair_eqb x) m) l.

(** A bound on the length of a value. *)
Fixpoint top (width : nat -> Z) (e : expr) : Z :=
  match e with
  | Var n => width n
  | Shl k e => top width e + k
  | Shr k e | And k e => top width e
  | Or a b => Z.max (top width a) (top width b)
  end.

Lemma top_ok width p e : (forall n, 0 <= p.[n] < 2 ^ width n) -> (forall n, 0 <= width n) -> shifts_ok e = true ->
  forall i, top width e <= i -> Z.testbit (eval p e) i = false.
Proof.
  intros Hp Hw. induction e as [n|k e IH|k e IH|m e IH|a IHa b IHb]; intros S i Hi; cbn [eval top shifts_ok] in *.
  - now apply (testbit_high (width n)).
  - apply andb_true_iff in S as [Hk S]. apply Z.leb_le in Hk. destruct (Z.ltb_spec i 0); [now apply Z.testbit_neg_r|].
    rewrite Z.shiftl_spec by assumption. apply IH; [exact S|lia].
  - apply andb_true_iff in S as [Hk S]. apply Z.leb_le in Hk. destruct (Z.ltb_spec i 0); [now apply Z.testbit_neg_r|].
    rewrite Z.shiftr_spec by assumption. apply IH; [exact S|lia].
  - now rewrite Z.land_spec, (IH S i Hi).
  - apply andb_true_iff in S as [Sa Sb]. rewrite Z.lor_spec, (IHa Sa), (IHb Sb) by lia. reflexivity.
Qed.

Definition same_bits (width : nat -> Z) (a b : expr) : bool :=
  shifts_ok a && shifts_ok b &&
  forallb (fun i => included (sources width a (Z.of_nat i)) (sources width b (Z.of_nat i)) &&
                    included (sources width b (Z.of_nat i)) (sources width a (Z.of_nat i)))
    (seq 0 (Z.to_nat (Z.max (top width a) (top width b)))).

Lemma included_any p l m : included l m = true -> any p l = true -> any p m = true.
Proof.
  unfold included, any. rewrite forallb_forall, !existsb_exists. intros H ((n & j) & Hin & T).
  apply H, existsb_exists in Hin as ((n' & j') & Hm & E). apply andb_true_iff in E as [E1 E2].
  apply Nat.eqb_eq in E1. apply Z.eqb_eq in E2. cbn in E1, E2. subst. now exists (n', j').
Qed.

(** Values are equal if their bits come from the same bits. *)
Lemma same_bits_eq width p a b : (forall n, 0 <= p.[n] < 2 ^ width n) -> (forall n, 0 <= width n) ->
  same_bits width a b = true -> eval p a = eval p b.
Proof.
  intros Hp Hw H. apply andb_true_iff in H as [S H]. apply andb_true_iff in S as [Sa Sb].
  apply Z.bits_inj'. intros i Hi. destruct (Z.ltb_spec i (Z.max (top width a) (top width b))) as [Hn|Hn].
  - rewrite (sources_ok width p a), (sources_ok width p b) by assumption. rewrite forallb_forall in H.
    specialize (H (Z.to_nat i) ltac:(apply in_seq; lia)). rewrite Z2Nat.id in H by exact Hi.
    apply andb_true_iff in H as [H1 H2]. apply eq_true_iff_eq. split; now apply included_any.
  - rewrite !(top_ok width) by (assumption || lia). reflexivity.
Qed.

Ltac reify p t :=
  lazymatch t with
  | nth ?n p 0 => constr:(Var n)
  | Z.shiftl ?t ?k => let e := reify p t in constr:(Shl k e)
  | Z.shiftr ?t ?k => let e := reify p t in constr:(Shr k e)
  | Z.land ?t ?m => let e := reify p t in constr:(And m e)
  | Z.lor ?t ?u => let e := reify p t in let f := reify p u in constr:(Or e f)
  end.

(** Equality of two expressions over the bytes [p]. *)
Ltac blast width p :=
  lazymatch goal with
  | |- ?x = ?y =>
      let a := reify p x in let b := reify p y in
      change (eval p a = eval p b); apply (same_bits_eq width); [assumption|assumption|vm_compute; reflexivity]
  end.
End Bits.

(** ** The reader *)

Lemma flag_bit x : flag x = Z.testbit x 7.
Proof.
  unfold flag. change 0x80 with (2 ^ 7). destruct (Z.testbit x 7) eqn:T.
  - apply negb_true_iff, Z.eqb_neq. intros E. apply (f_equal (fun z => Z.testbit z 7)) in E.
    now rewrite Z.land_spec, T, Z.pow2_bits_true, Z.testbit_0_l in E.
  - apply negb_false_iff, Z.eqb_eq, Z.bits_inj'. intros i Hi. rewrite Z.land_spec, Z.testbit_0_l.
    destruct (Z.eq_dec i 7) as [->|N]; [now rewrite T|]. rewrite Z.pow2_bits_false by congruence. apply andb_false_r.
Qed.

Lemma byte_bit q : is_byte q -> Z.testbit q 7 = negb (q <? 0x80).
Proof. intros H. apply Bool.eqb_prop. revert q H. apply forall_bytes. vm_compute. reflexivity. Qed.

(** Only the last byte decides. *)
Lemma flag_last x k q : 7 < k -> is_byte q -> flag (Z.lor (shl32 x k) q) = negb (q <? 0x80).
Proof.
  intros Hk Hq. rewrite flag_bit, <- (byte_bit q Hq). unfold shl32, u32.
  rewrite Z.lor_spec, Z.land_spec, Z.shiftl_spec, Z.testbit_neg_r by lia. reflexivity.
Qed.

Lemma byte_width p i : bytes p -> p.[i] < 0x80 -> forall n, 0 <= p.[n] < 2 ^ (if (n =? i)%nat then 7 else 8).
Proof.
  intros B H n. pose proof (bytes_nth p n B) as Bn. unfold is_byte in Bn.
  destruct (Nat.eqb_spec n i) as [->|]; [change (2 ^ 7) with 0x80|change (2 ^ 8) with 256]; lia.
Qed.

Ltac decode p B i :=
  let T := fresh "T" in
  destruct (Z.ltb_spec (nth i p 0) 0x80) as [T|T]; cbn [negb];
  [ f_equal; pose proof (byte_width p i B T);
    assert (forall n, 0 <= (if (n =? i)%nat then 7 else 8)) by (intros n; destruct (n =? i)%nat; lia);
    unfold wide, shl32, u32, SLOT_2_0, SLOT_4_2_0;
    Bits.blast (fun n : nat => if (n =? i)%nat then 7 else 8) p
  |].

(** The unrolled reader, which collects alternate bytes in two words of 32 bits and their
    overlap in a third, decodes the format. *)
Lemma get_varint_format p : bytes p -> sqlite3GetVarint p = varint_value p.
Proof.
  intros B. unfold sqlite3GetVarint, varint_value. cbn [varint_format].
  rewrite Z.shiftl_0_l, !Z.lor_0_l. unfold signed_neg. rewrite !Z.leb_antisym.
  rewrite !flag_last by (lia || now apply bytes_nth). rewrite !negb_involutive.
  change (Z.of_nat 0 + 1) with 1. change (Z.of_nat 1 + 1) with 2. change (Z.of_nat 2 + 1) with 3.
  change (Z.of_nat 3 + 1) with 4. change (Z.of_nat 4 + 1) with 5. change (Z.of_nat 5 + 1) with 6.
  change (Z.of_nat 6 + 1) with 7. change (Z.of_nat 7 + 1) with 8. change (Z.of_nat 8 + 1) with 9.
  destruct (Z.ltb_spec p.[0] 0x80); [reflexivity|].
  decode p B 1%nat. decode p B 2%nat. decode p B 3%nat. decode p B 4%nat. decode p B 5%nat. decode p B 6%nat. decode p B 7%nat.
  f_equal. unfold wide, shl32, u32, SLOT_2_0.
  assert (forall n, 0 <= p.[n] < 2 ^ 8) by (intros n; apply bytes_nth, B).
  assert (forall n : nat, 0 <= 8) by lia.
  Bits.blast (fun _ : nat => 8) p.
Qed.

(** ** The writer *)

Definition step (acc g : Z) : Z := Z.lor (Z.shiftl acc 7) (Z.land g 0x7f).

Lemma step_eq acc g : step acc g = acc * 128 + g mod 128.
Proof.
  unfold step. change 0x7f with (Z.ones 7). rewrite Z.land_ones by lia.
  rewrite Z.lor_comm, lor_shiftl; [|lia|apply Z.mod_pos_bound; lia]. change (2 ^ 7) with 128. lia.
Qed.

(** Bytes with the flag are read one after the other. *)
Lemma format_groups gs : forall n acc pre q, Forall (fun g => 0x80 <= g) gs ->
  varint_format (length gs + n) acc (pre ++ gs ++ q) (length pre) =
  varint_format n (fold_left step gs acc) (pre ++ gs ++ q) (length pre + length gs).
Proof.
  induction gs as [|g gs IH]; intros n acc pre q H; [cbn [length fold_left app]; now rewrite Nat.add_0_r|].
  inversion H as [|? ? Hg Hgs]; subst. cbn [length Nat.add varint_format fold_left].
  assert (E : (pre ++ (g :: gs) ++ q).[length pre] = g) by (rewrite app_nth2, Nat.sub_diag; [reflexivity|lia]).
  rewrite E, (proj2 (Z.ltb_ge g 0x80) Hg).
  specialize (IH n (step acc g) (pre ++ [g]) q Hgs). rewrite length_app, <- app_assoc in IH. cbn [length app] in IH.
  rewrite Nat.add_1_r in IH. cbn [app]. unfold step at 1 in IH. rewrite IH. f_equal. lia.
Qed.

Lemma low_groups_length n : forall v, length (low_groups n v) = n.
Proof. induction n; intros v; cbn; auto. Qed.

Lemma group_range v : 0x80 <= Z.lor (Z.land v 0x7f) 0x80 < 256.
Proof.
  change 0x7f with (Z.ones 7). rewrite Z.land_ones by lia. pose proof (Z.mod_pos_bound v 128 ltac:(lia)) as H.
  pose proof (lor_shiftl 7 (v mod 2 ^ 7) 1 ltac:(lia) H) as E. change (Z.shiftl 1 7) with 0x80 in E. rewrite E.
  change (2 ^ 7) with 128 in *. lia.
Qed.

Lemma low_groups_range n : forall v, Forall (fun g => 0x80 <= g < 256) (low_groups n v).
Proof. induction n; intros v; cbn; constructor; auto. apply group_range. Qed.

Lemma fold_groups n : forall v acc, 0 <= v ->
  fold_left step (rev (low_groups n v)) acc = acc * 2 ^ (7 * Z.of_nat n) + v mod 2 ^ (7 * Z.of_nat n).
Proof.
  induction n as [|n IH]; intros v acc Hv.
  - cbn [low_groups rev fold_left]. change (2 ^ (7 * Z.of_nat 0)) with 1. rewrite Z.mod_1_r. lia.
  - cbn [low_groups rev]. rewrite fold_left_app, (IH (Z.shiftr v 7)) by (apply Z.shiftr_nonneg; lia).
    cbn [fold_left]. rewrite step_eq. set (m := 2 ^ (7 * Z.of_nat n)) in *.
    assert (Em : 2 ^ (7 * Z.of_nat (S n)) = m * 128).
    { unfold m. rewrite Nat2Z.inj_succ. replace (7 * Z.succ (Z.of_nat n)) with (7 * Z.of_nat n + 7) by lia.
      rewrite Z.pow_add_r by lia. reflexivity. }
    assert (0 < m) by (apply Z.pow_pos_nonneg; lia).
    assert (Eg : Z.lor (Z.land v 0x7f) 0x80 mod 128 = v mod 128).
    { rewrite <- (Z.land_ones _ 7), Z.land_lor_distr_l by lia. change (Z.land 0x80 (Z.ones 7)) with 0.
      rewrite Z.lor_0_r. change (Z.land v 0x7f) with (Z.land v (Z.ones 7)). rewrite <- Z.land_assoc, Z.land_diag.
      apply Z.land_ones. lia. }
    rewrite Eg, Em, Z.shiftr_div_pow2 by lia. change (2 ^ 7) with 128. rewrite (Z.mul_comm m 128), Z.rem_mul_r by lia. lia.
Qed.

(** The loops stop with the first number of groups that holds the value. *)
Definition groups (k : nat) (v : Z) : Prop := 0 <= v < 2 ^ (7 * Z.of_nat (S k)) /\ (k = 0%nat \/ 2 ^ (7 * Z.of_nat k) <= v).

Lemma groups_shift k v : groups (S k) v -> groups k (Z.shiftr v 7) /\ Z.shiftr v 7 <> 0.
Proof.
  unfold groups. intros [H [|H1]]; [discriminate|]. rewrite Z.shiftr_div_pow2 by lia.
  rewrite !Nat2Z.inj_succ in *. rewrite !Z.mul_succ_r, !Z.pow_add_r in * by lia. change (2 ^ 7) with 128 in *.
  assert (0 < 2 ^ (7 * Z.of_nat k)) by (apply Z.pow_pos_nonneg; lia).
  assert (2 ^ (7 * Z.of_nat k) <= v / 128) by (apply Z.div_le_lower_bound; lia).
  split; [|lia]. split; [split; [apply Z.div_pos; lia|apply Z.div_lt_upper_bound; lia]|]. now right.
Qed.

Lemma groups_zero v : groups 0 v -> Z.shiftr v 7 = 0.
Proof. intros [H _]. rewrite Z.shiftr_div_pow2 by lia. apply Z.div_small. exact H. Qed.

Lemma group_loop_ok fuel : forall k v, groups k v -> (k <= fuel)%nat -> group_loop fuel v = low_groups (S k) v.
Proof.
  induction fuel as [|fuel IH]; intros [|k] v H Hf; try lia; cbn [group_loop].
  - reflexivity.
  - now rewrite (groups_zero v H).
  - destruct (groups_shift k v H) as [Hs N]. rewrite (proj2 (Z.eqb_neq _ _) N), (IH k) by (assumption || lia). reflexivity.
Qed.

Lemma varint_len_ok fuel : forall k v i, groups k v -> (k < fuel)%nat -> varint_len fuel v i = i + Z.of_nat k.
Proof.
  induction fuel as [|fuel IH]; intros [|k] v i H Hf; try lia; cbn [varint_len].
  - rewrite (groups_zero v H). cbn. lia.
  - destruct (groups_shift k v H) as [Hs N]. rewrite (proj2 (Z.eqb_neq _ _) N), (IH k) by (assumption || lia). lia.
Qed.

(** Every value has its number of groups. *)
Lemma groups_exist v n : 0 <= v < 2 ^ (7 * Z.of_nat (S n)) -> exists k, (k <= n)%nat /\ groups k v.
Proof.
  induction n as [|n IH]; intros H; [exists 0%nat; split; [lia|split; auto]|].
  destruct (Z.ltb_spec v (2 ^ (7 * Z.of_nat (S n)))) as [L|L].
  - destruct (IH (conj (proj1 H) L)) as (k & Hk & G). exists k. split; [lia|exact G].
  - exists (S n). split; [lia|]. split; auto.
Qed.

(** The bytes of a value of [k + 1] groups. *)
Definition short_form (k : nat) (v : Z) : list Z := rev (low_groups k (Z.shiftr v 7)) ++ [Z.land v 0x7f].

Lemma mask_small v : 0 <= v < 2 ^ 56 -> Z.land v (Z.shiftl 0xff000000 32) = 0.
Proof.
  intros H. change (Z.shiftl 0xff000000 32) with (Z.shiftl 0xff 56). apply Z.bits_inj'. intros i Hi.
  rewrite Z.land_spec, Z.testbit_0_l. destruct (Z.ltb_spec i 56).
  - rewrite Z.shiftl_spec, (Z.testbit_neg_r 0xff) by lia. apply andb_false_r.
  - now rewrite (testbit_high 56 v) by lia.
Qed.

Lemma mask_large v : 2 ^ 56 <= v < 2 ^ 64 -> Z.land v (Z.shiftl 0xff000000 32) <> 0.
Proof.
  intros H E. change (Z.shiftl 0xff000000 32) with (Z.shiftl (Z.ones 8) 56) in E.
  apply (f_equal (fun z => Z.shiftr z 56)) in E. rewrite Z.shiftr_land, Z.shiftr_shiftl_l in E by lia.
  change (Z.shiftl (Z.ones 8) (56 - 56)) with (Z.ones 8) in E. rewrite Z.land_ones, Z.shiftr_0_l, Z.shiftr_div_pow2 in E by lia.
  assert (1 <= v / 2 ^ 56) by (apply Z.div_le_lower_bound; lia).
  assert (v / 2 ^ 56 < 2 ^ 8) by (apply Z.div_lt_upper_bound; lia). rewrite Z.mod_small in E; lia.
Qed.

Lemma put_short k v : groups k v -> (k <= 7)%nat -> sqlite3PutVarint v = short_form k v.
Proof.
  intros G Hk. pose proof G as [R L]. unfold sqlite3PutVarint, short_form. destruct k as [|[|k]].
  - change (2 ^ (7 * Z.of_nat 1)) with 128 in R. now rewrite (proj2 (Z.leb_le v 0x7f)) by lia.
  - destruct L as [|L]; [discriminate|]. change (2 ^ (7 * Z.of_nat 1)) with 128 in L.
    change (2 ^ (7 * Z.of_nat 2)) with 16384 in R. rewrite (proj2 (Z.leb_gt v 0x7f)), (proj2 (Z.leb_le v 0x3fff)) by lia. reflexivity.
  - destruct L as [|L]; [discriminate|].
    assert (2 ^ 14 <= v) by (apply Z.le_trans with (2 := L), Z.pow_le_mono_r; lia).
    assert (v < 2 ^ 56) by (eapply Z.lt_le_trans; [apply R|apply Z.pow_le_mono_r; lia]).
    change (2 ^ 14) with 16384 in *. rewrite (proj2 (Z.leb_gt v 0x7f)), (proj2 (Z.leb_gt v 0x3fff)) by lia.
    unfold putVarint64. rewrite mask_small, Z.eqb_refl by lia. cbn [negb].
    rewrite (group_loop_ok 9 (S (S k)) v G) by lia. cbn [low_groups rev]. f_equal. f_equal.
    change 0x7f with (Z.ones 7). rewrite Z.land_lor_distr_l. change (Z.land 0x80 (Z.ones 7)) with 0.
    now rewrite Z.lor_0_r, <- Z.land_assoc, Z.land_diag.
Qed.

Lemma put_long v : 2 ^ 56 <= v < 2 ^ 64 -> sqlite3PutVarint v = rev (low_groups 8 (Z.shiftr v 8)) ++ [u8 v].
Proof.
  intros H. unfold sqlite3PutVarint, putVarint64. change (2 ^ 56) with 72057594037927936 in H.
  rewrite (proj2 (Z.leb_gt v 0x7f)), (proj2 (Z.leb_gt v 0x3fff)) by lia.
  now rewrite (proj2 (Z.eqb_neq _ _) (mask_large v ltac:(lia))).
Qed.

Lemma flagged_groups n v : Forall (fun g => 0x80 <= g) (rev (low_groups n v)).
Proof. apply Forall_rev. eapply Forall_impl; [|apply low_groups_range]. cbn. lia. Qed.

Lemma nth_last (a : list Z) x rest n : length a = n -> (a ++ [x] ++ rest).[n] = x.
Proof. intros <-. rewrite app_nth2, Nat.sub_diag; [reflexivity|lia]. Qed.

Lemma read_short k v rest : groups k v -> (k <= 7)%nat ->
  varint_value (short_form k v ++ rest) = (v, Z.of_nat (S k)).
Proof.
  intros [R _] Hk. unfold varint_value, short_form. set (gs := rev (low_groups k (Z.shiftr v 7))).
  assert (Lg : length gs = k) by (unfold gs; now rewrite length_rev, low_groups_length).
  rewrite <- app_assoc. pose proof (format_groups gs (8 - k) 0 [] ([Z.land v 0x7f] ++ rest) (flagged_groups _ _)) as F.
  cbn [app length Nat.add] in F. cbn [app]. replace (length gs + (8 - k))%nat with 8%nat in F by lia. rewrite F.
  rewrite Lg. replace (8 - k)%nat with (S (7 - k)) by lia. cbn [varint_format].
  rewrite (nth_last gs _ rest k Lg : (gs ++ Z.land v 0x7f :: rest).[k] = _).
  change 0x7f with (Z.ones 7). rewrite Z.land_ones by lia. pose proof (Z.mod_pos_bound v (2 ^ 7) ltac:(lia)) as Hm.
  rewrite (proj2 (Z.ltb_lt (v mod 2 ^ 7) 0x80)) by (change (2 ^ 7) with 128 in *; lia).
  f_equal; [|lia]. rewrite Z.lor_comm, lor_shiftl by lia. unfold gs.
  rewrite fold_groups by (apply Z.shiftr_nonneg; lia). rewrite Z.shiftr_div_pow2 by lia.
  rewrite (Z.mod_small (v / 2 ^ 7)).
  - rewrite Z.mul_0_l, Z.add_0_l. pose proof (Z.div_mod v (2 ^ 7)). lia.
  - split; [apply Z.div_pos; lia|]. apply Z.div_lt_upper_bound; [lia|]. rewrite <- Z.pow_add_r by lia.
    replace (7 + 7 * Z.of_nat k) with (7 * Z.of_nat (S k)) by lia. lia.
Qed.

Lemma read_long v rest : 0 <= v < 2 ^ 64 ->
  varint_value ((rev (low_groups 8 (Z.shiftr v 8)) ++ [u8 v]) ++ rest) = (v, 9).
Proof.
  intros R. unfold varint_value. set (gs := rev (low_groups 8 (Z.shiftr v 8))).
  assert (Lg : length gs = 8%nat) by (unfold gs; now rewrite length_rev, low_groups_length).
  rewrite <- app_assoc. pose proof (format_groups gs 0 0 [] ([u8 v] ++ rest) (flagged_groups _ _)) as F.
  cbn [app length Nat.add] in F. cbn [app]. rewrite Lg in F. cbn [Nat.add] in F. rewrite F. cbn [varint_format].
  rewrite (nth_last gs _ rest 8 Lg : (gs ++ u8 v :: rest).[8] = _). f_equal.
  pose proof (u8_range v) as Hb. unfold is_byte in Hb.
  rewrite Z.lor_comm, lor_shiftl by (change (2 ^ 8) with 256; lia). unfold gs.
  rewrite fold_groups by (apply Z.shiftr_nonneg; lia). rewrite Z.shiftr_div_pow2 by lia.
  change (7 * Z.of_nat 8) with 56. rewrite (Z.mod_small (v / 2 ^ 8)).
  - rewrite u8_mod. change (2 ^ 8) with 256. pose proof (Z.div_mod v 256). lia.
  - split; [apply Z.div_pos; lia|]. apply Z.div_lt_upper_bound; lia.
Qed.

Lemma put_bytes v : 0 <= v -> bytes (rev (low_groups 8 (Z.shiftr v 8)) ++ [u8 v]) /\ forall k, bytes (short_form k v).
Proof.
  intros Hv. assert (B : forall n w, bytes (rev (low_groups n w))).
  { intros n w. apply Forall_rev. eapply Forall_impl; [|apply low_groups_range]. unfold is_byte. cbn. lia. }
  split; [|intros k]; apply bytes_app; (split; [apply B|]); (constructor; [|constructor]).
  - apply u8_range.
  - change 0x7f with (Z.ones 7). rewrite Z.land_ones by lia. pose proof (Z.mod_pos_bound v (2 ^ 7) ltac:(lia)).
    unfold is_byte. change (2 ^ 7) with 128 in *. lia.
Qed.

(** A written value, and the number of its bytes. *)
Lemma put_ok v rest : 0 <= v < 2 ^ 64 ->
  varint_value (sqlite3PutVarint v ++ rest) = (v, Z.of_nat (length (sqlite3PutVarint v))) /\
  bytes (sqlite3PutVarint v) /\ (1 <= length (sqlite3PutVarint v) <= 9)%nat /\
  sqlite3VarintLen v = if v <? 2 ^ 63 then Z.of_nat (length (sqlite3PutVarint v)) else 10.
Proof.
  intros R. destruct (put_bytes v ltac:(lia)) as [B1 B2]. destruct (Z.ltb_spec v (2 ^ 56)) as [Sm|Lg].
  - destruct (groups_exist v 7) as (k & Hk & G); [change (7 * Z.of_nat 8) with 56; lia|].
    rewrite (put_short k v G Hk). assert (Lk : length (short_form k v) = S k)
      by (unfold short_form; rewrite length_app, length_rev, low_groups_length; cbn; lia).
    rewrite Lk. split; [now apply read_short|]. split; [apply B2|]. split; [lia|].
    rewrite (proj2 (Z.ltb_lt v (2 ^ 63))) by lia. unfold sqlite3VarintLen. rewrite (varint_len_ok 10 k v 1 G); lia.
  - rewrite put_long by lia. assert (Lk : length (rev (low_groups 8 (Z.shiftr v 8)) ++ [u8 v]) = 9%nat)
      by (rewrite length_app, length_rev, low_groups_length; reflexivity).
    rewrite Lk. split; [now apply read_long|]. split; [exact B1|]. split; [lia|]. unfold sqlite3VarintLen.
    destruct (Z.ltb_spec v (2 ^ 63)); [rewrite (varint_len_ok 10 8 v 1)|rewrite (varint_len_ok 10 9 v 1)];
      try lia; (split; [cbn -[Z.pow]; lia|right; cbn -[Z.pow]; lia]).
Qed.

(** Reading 32 bits: larger values saturate. *)
Lemma get_varint32_ok p : bytes p -> 0 <= fst (varint_value p) ->
  getVarint32 p = (Z.min (fst (varint_value p)) 0xffffffff, snd (varint_value p)).
Proof.
  intros B Hv. unfold getVarint32, sqlite3GetVarint32. rewrite (get_varint_format p B).
  pose proof (fun i => bytes_nth p i B) as Bi. unfold is_byte in Bi.
  assert (Fl : forall i, (Z.land p.[i] 0x80 =? 0) = (p.[i] <? 0x80)).
  { intros i. pose proof (flag_bit p.[i]) as F. rewrite byte_bit in F by apply Bi. unfold flag in F.
    destruct (Z.land p.[i] 0x80 =? 0), (p.[i] <? 0x80); cbn in F; congruence. }
  rewrite !Fl. unfold varint_value in *. cbn [varint_format] in *. rewrite Z.shiftl_0_l, Z.lor_0_l in *. rewrite Z.lor_0_l in *.
  pose proof (Bi 0%nat) as B0. pose proof (Bi 1%nat) as B1. pose proof (Bi 2%nat) as B2.
  assert (Sm : forall a q, 0 <= q < 128 -> Z.lor (Z.shiftl a 7) q = a * 128 + q)
    by (intros a q Hq; rewrite Z.lor_comm, lor_shiftl by (change (2 ^ 7) with 128; lia); change (2 ^ 7) with 128; lia).
  assert (M7 : forall x, Z.land x 0x7f = x mod 128) by (intros x; change 0x7f with (Z.ones 7); now rewrite Z.land_ones by lia).
  assert (Mb : forall x, 0 <= x mod 128 < 128) by (intros x; apply Z.mod_pos_bound; lia).
  destruct (Z.ltb_spec p.[0] 0x80); [cbn [fst snd]; f_equal; lia|].
  destruct (Z.ltb_spec p.[1] 0x80); [cbn [fst snd]; f_equal; rewrite M7, Sm by lia; specialize (Mb p.[0]); lia|].
  destruct (Z.ltb_spec p.[2] 0x80).
  { cbn [fst snd]. f_equal. rewrite !M7, !Sm by (apply Mb || lia). pose proof (Mb p.[0]). pose proof (Mb p.[1]).
    rewrite Z.min_l by lia. rewrite <- Z.lor_assoc, (Sm (p.[1] mod 128)) by lia.
    rewrite Z.lor_comm, lor_shiftl by (change (2 ^ 14) with 16384; lia). change (2 ^ 14) with 16384. lia. }
  set (r := if p.[3] <? 0x80 then _ else _) in *. destruct r as [v n]. cbn [fst snd] in *.
  change 0xffffffff with (Z.ones 32). rewrite Z.land_ones by lia. f_equal.
  destruct (Z.eqb_spec (v mod 2 ^ 32) v) as [E|N]; cbn [negb].
  - pose proof (Z.mod_pos_bound v (2 ^ 32) ltac:(lia)). rewrite u32_mod, E, Z.min_l; [reflexivity|].
    change (Z.ones 32) with (2 ^ 32 - 1). lia.
  - rewrite Z.min_r; [reflexivity|]. change (Z.ones 32) with (2 ^ 32 - 1).
    destruct (Z.ltb_spec v (2 ^ 32)); [exfalso; apply N, Z.mod_small; lia|lia].
Qed.

(** C15: Variable-length integers.  The unrolled reader decodes the documented format on every
    sequence of bytes.  A value of 64 bits is written in one to nine bytes, and whatever
    follows them the reader returns the value and the number of bytes; the reader of 32 bits
    returns the value or, if it does not fit, the largest number of 32 bits.  The length that
    is computed without writing is the number of bytes written, except that for values from
    2^63 on it is 10 while 9 bytes are written. *)
Theorem varint_roundtrip :
  (forall p, bytes p -> sqlite3GetVarint p = varint_value p) /\
  forall v rest, 0 <= v < 2 ^ 64 -> bytes rest ->
    let buf := sqlite3PutVarint v in let n := Z.of_nat (length buf) in
    bytes buf /\ 1 <= n <= 9 /\
    sqlite3GetVarint (buf ++ rest) = (v, n) /\
    getVarint32 (buf ++ rest) = (Z.min v 0xffffffff, n) /\
    sqlite3VarintLen v = if v <? 2 ^ 63 then n else 10.
Proof.
  split; [exact get_varint_format|]. intros v rest R Br buf n.
  destruct (put_ok v rest R) as (E & B & L & Vl). fold buf in E, B, L, Vl. fold n in E, Vl.
  assert (Ba : bytes (buf ++ rest)) by (apply bytes_app; auto).
  split; [exact B|]. split; [unfold n; lia|]. split; [now rewrite get_varint_format|]. split; [|exact Vl].
  rewrite get_varint32_ok; [now rewrite E|exact Ba|]. rewrite E. cbn [fst]. lia.
Qed.

(** The decimal number 2^32 is accepted as a number of 32 bits, with the value 0. *)
Example get_uint32_overflow :
  sqlite3GetUInt32 [52; 50; 57; 52; 57; 54; 55; 50; 57; 54; 0] = (true, 0) /\
  sqlite3GetUInt32 [52; 50; 57; 52; 57; 54; 55; 50; 57; 55; 0] = (false, 0).
Proof. split; reflexivity. Qed.
