(* ===== verification/Bitvec.v ===== *)
(** * Bitmaps of pages (bitvec.c)

    The sets of page numbers in which the pager records the pages of the journal: a bitmap
    if the largest number is small, otherwise a hash table with linear probing, which is
    divided into smaller bitmaps when it is full.  Sizes are those of a machine with
    pointers of eight bytes.  [None] stands for a search that does not end. *)

From Stdlib Require Import ZArith Lia List Bool.
From S2P Require Import Prelude CodecAlgos CipherCommon Codec.
Import ListNotations.
Local Open Scope Z_scope.
Local Open Scope codec_scope.

Definition BITVEC_USIZE : Z := (512 - 3 * 4) / 8 * 8.
Definition BITVEC_NELEM : nat := Z.to_nat BITVEC_USIZE.
Definition BITVEC_NBIT : Z := BITVEC_USIZE * 8.
Definition BITVEC_NINT : Z := BITVEC_USIZE / 4.
Definition BITVEC_MXHASH : Z := BITVEC_NINT / 2.
Definition BITVEC_NPTR : Z := BITVEC_USIZE / 8.
Definition BITVEC_HASH (x : Z) : Z := x mod BITVEC_NINT.

(** The three representations, which size and divisor decide. *)
#[warnings="-register-all"]
Inductive Bitvec :=
| Bitmap (iSize : Z) (aBitmap : list Z)
| HashTable (iSize nSet : Z) (aHash : list Z)
| Divided (iSize iDivisor nSet : Z) (apSub : list (option Bitvec)).

Definition sqlite3BitvecSize (p : Bitvec) : Z :=
  match p with Bitmap n _ => n | HashTable n _ _ => n | Divided n _ _ _ => n end.

Definition new_bitvec (iSize : Z) : Bitvec :=
  if iSize <=? BITVEC_NBIT then Bitmap iSize (memset 0 BITVEC_NELEM) else HashTable iSize 0 (memset 0 (Z.to_nat BITVEC_NINT)).

(** The outcomes of the coming allocations; success when the list is used up. *)
Definition malloc (ms : list bool) : bool * list bool := match ms with [] => (true, []) | b :: ms => (b, ms) end.

Definition sqlite3BitvecCreate (iSize : Z) (ms : list bool) : option Bitvec * list bool :=
  let '(ok, ms) := malloc ms in (if ok then Some (new_bitvec iSize) else None, ms).

(** The next slot, and the search for a value or a free slot. *)
Definition next_slot (h : Z) : Z := if h + 1 >=? BITVEC_NINT then 0 else h + 1.

Fixpoint find_slot (fuel : nat) (aHash : list Z) (h i : Z) : option (bool * Z) :=
  match fuel with
  | O => None
  | S fuel =>
      let x := aHash.[Z.to_nat h] in
      if x =? 0 then Some (false, h)
      else if x =? i then Some (true, h)
      else find_slot fuel aHash (next_slot h) i
  end.

Definition search (aHash : list Z) (h i : Z) : option (bool * Z) := find_slot (Z.to_nat BITVEC_NINT) aHash h i.

(** The depth of divided bitmaps. *)
Definition DEPTH : nat := 5.

(** [i] counts from 0. *)
Fixpoint bitvec_test (fuel : nat) (p : Bitvec) (i : Z) : option bool :=
  match fuel with
  | O => None
  | S fuel =>
      match p with
      | Divided _ d _ apSub =>
          match nth (Z.to_nat (i / d)) apSub None with None => Some false | Some q => bitvec_test fuel q (i mod d) end
      | Bitmap _ aBitmap => Some (negb (Z.land aBitmap.[Z.to_nat (i / 8)] (Z.shiftl 1 (Z.land i 7)) =? 0))
      | HashTable _ _ aHash => option_map fst (search aHash (BITVEC_HASH i) (i + 1))
      end
  end.

Definition sqlite3BitvecTestNotNull (p : Bitvec) (i : Z) : option bool :=
  let i := u32 (i - 1) in
  if i >=? sqlite3BitvecSize p then Some false else bitvec_test DEPTH p i.

Definition sqlite3BitvecTest (p : option Bitvec) (i : Z) : option bool :=
  match p with Some p => sqlite3BitvecTestNotNull p i | None => Some false end.

(** Setting a bit in a divided bitmap; [rec] sets a bit in one of its parts. *)
Definition set_in_part (rec : Bitvec -> Z -> list bool -> option (Z * Bitvec * list bool)) (d : Z)
    (apSub : list (option Bitvec)) (i : Z) (ms : list bool) : option (Z * list (option Bitvec) * list bool) :=
  let bin := Z.to_nat (i / d) in
  let '(q, ms) := match nth bin apSub None with Some q => (Some q, ms) | None => sqlite3BitvecCreate d ms end in
  match q with
  | None => Some (SQLITE_NOMEM, apSub, ms)
  | Some q => let* (rc, q, ms) := rec q (i mod d) ms in Some (rc, apSub.[bin <- Some q], ms)
  end.

(** The values of a hash table are set one by one; the return codes are combined. *)
Fixpoint set_values (rec : Bitvec -> Z -> list bool -> option (Z * Bitvec * list bool)) (d : Z)
    (values : list Z) (rc : Z) (apSub : list (option Bitvec)) (ms : list bool) : option (Z * list (option Bitvec) * list bool) :=
  match values with
  | [] => Some (rc, apSub, ms)
  | v :: values =>
      if v =? 0 then set_values rec d values rc apSub ms
      else let* (rc1, apSub, ms) := set_in_part rec d apSub (v - 1) ms in set_values rec d values (Z.lor rc rc1) apSub ms
  end.

Definition divisor (iSize : Z) : Z :=
  let d := iSize / BITVEC_NPTR in
  let d := if negb (iSize mod BITVEC_NPTR =? 0) then d + 1 else d in
  if d <? BITVEC_NBIT then BITVEC_NBIT else d.

Fixpoint bitvec_set (fuel : nat) (p : Bitvec) (i : Z) (ms : list bool) : option (Z * Bitvec * list bool) :=
  match fuel with
  | O => None
  | S fuel =>
      match p with
      | Divided n d nSet apSub =>
          let* (rc, apSub, ms) := set_in_part (bitvec_set fuel) d apSub i ms in Some (rc, Divided n d nSet apSub, ms)
      | Bitmap n aBitmap =>
          let k := Z.to_nat (i / 8) in
          Some (SQLITE_OK, Bitmap n aBitmap.[k <- u8 (Z.lor aBitmap.[k] (Z.shiftl 1 (Z.land i 7)))], ms)
      | HashTable n nSet aHash =>
          let h := BITVEC_HASH i in
          let i := i + 1 in
          let* (found, slot) := search aHash h i in
          if found then Some (SQLITE_OK, p, ms)
          else
            let add := Some (SQLITE_OK, HashTable n (nSet + 1) aHash.[Z.to_nat slot <- i], ms) in
            if (aHash.[Z.to_nat h] =? 0) && (nSet <? BITVEC_NINT - 1) then add
            else if nSet >=? BITVEC_MXHASH then
              let '(ok, ms) := malloc ms in
              if ok then
                let d := divisor n in
                let* (rc, apSub, ms) := set_in_part (bitvec_set fuel) d (repeat None (Z.to_nat BITVEC_NPTR)) (i - 1) ms in
                let* (rc, apSub, ms) := set_values (bitvec_set fuel) d aHash rc apSub ms in
                Some (rc, Divided n d nSet apSub, ms)
              else Some (SQLITE_NOMEM, p, ms)
            else add
      end
  end.

Definition sqlite3BitvecSet (p : option Bitvec) (i : Z) (ms : list bool) : option (Z * option Bitvec * list bool) :=
  match p with
  | None => Some (SQLITE_OK, None, ms)
  | Some p => let* (rc, p, ms) := bitvec_set DEPTH p (i - 1) ms in Some (rc, Some p, ms)
  end.

(** The free slot for a value that is entered again. *)
Fixpoint free_slot (fuel : nat) (aHash : list Z) (h : Z) : option Z :=
  match fuel with
  | O => None
  | S fuel => if aHash.[Z.to_nat h] =? 0 then Some h else free_slot fuel aHash (next_slot h)
  end.

Fixpoint enter_values (values : list Z) (i : Z) (nSet : Z) (aHash : list Z) : option (Z * list Z) :=
  match values with
  | [] => Some (nSet, aHash)
  | v :: values =>
      if negb (v =? 0) && negb (v =? i) then
        let* h := free_slot (Z.to_nat BITVEC_NINT) aHash (BITVEC_HASH (v - 1)) in
        enter_values values i (nSet + 1) aHash.[Z.to_nat h <- v]
      else enter_values values i nSet aHash
  end.

Fixpoint bitvec_clear (fuel : nat) (p : Bitvec) (i : Z) : option Bitvec :=
  match fuel with
  | O => None
  | S fuel =>
      match p with
      | Divided n d nSet apSub =>
          let bin := Z.to_nat (i / d) in
          match nth bin apSub None with
          | None => Some p
          | Some q => let* q := bitvec_clear fuel q (i mod d) in Some (Divided n d nSet apSub.[bin <- Some q])
          end
      | Bitmap n aBitmap =>
          let k := Z.to_nat (i / 8) in
          Some (Bitmap n aBitmap.[k <- Z.land aBitmap.[k] (Z.lnot (u8 (Z.shiftl 1 (Z.land i 7))))])
      | HashTable n nSet aHash =>
          let* (nSet, aHash) := enter_values aHash (i + 1) 0 (memset 0 (Z.to_nat BITVEC_NINT)) in
          Some (HashTable n nSet aHash)
      end
  end.

Definition sqlite3BitvecClear (p : option Bitvec) (i : Z) : option (option Bitvec) :=
  match p with None => Some None | Some p => let* p := bitvec_clear DEPTH p (i - 1) in Some (Some p) end.

(** ** The hash table *)

(** The slot [k] steps after [h]. *)
Definition slot (h k : Z) : Z := (h + k) mod BITVEC_NINT.
Definition at_slot (a : list Z) (h : Z) : Z := a.[Z.to_nat h].

(** Every value is in the first slot after its own that is free or has it. *)
Record hash_ok (n : Z) (a : list Z) : Prop := mk_hash_ok {
  ho_length : length a = Z.to_nat BITVEC_NINT;
  ho_range : forall h, 0 <= at_slot a h <= n;
  ho_reach : forall h, 0 <= h < BITVEC_NINT -> at_slot a h <> 0 ->
    exists k, 0 <= k /\ h = slot (BITVEC_HASH (at_slot a h - 1)) k /\
      forall k', 0 <= k' < k -> at_slot a (slot (BITVEC_HASH (at_slot a h - 1)) k') <> 0 /\
                              at_slot a (slot (BITVEC_HASH (at_slot a h - 1)) k') <> at_slot a h }.

Definition holds (a : list Z) (v : Z) : Prop := exists h, 0 <= h < BITVEC_NINT /\ at_slot a h = v.

Lemma slot_range h k : 0 <= slot h k < BITVEC_NINT.
Proof. apply Z.mod_pos_bound. reflexivity. Qed.

Lemma slot_0 h : 0 <= h < BITVEC_NINT -> slot h 0 = h.
Proof. intros H. unfold slot. rewrite Z.add_0_r. now apply Z.mod_small. Qed.

Lemma slot_next h k : next_slot (slot h k) = slot h (k + 1).
Proof.
  unfold next_slot. pose proof (slot_range h k) as R. unfold slot in *. rewrite Z.add_assoc.
  rewrite <- (Z.add_mod_idemp_l (h + k) 1) by discriminate. set (x := (h + k) mod BITVEC_NINT) in *. clearbody x.
  change BITVEC_NINT with 124 in *. rewrite Z.geb_leb. destruct (Z.leb_spec 124 (x + 1)).
  - replace x with 123 by lia. reflexivity.
  - symmetry. apply Z.mod_small. lia.
Qed.

(** Every slot is reached within one round. *)
Lemma slot_reach h j : 0 <= j < BITVEC_NINT -> exists k, 0 <= k < BITVEC_NINT /\ slot h k = j.
Proof.
  intros H. exists ((j - h) mod BITVEC_NINT). split; [apply Z.mod_pos_bound; reflexivity|].
  unfold slot. rewrite Z.add_mod_idemp_r by discriminate. replace (h + (j - h)) with j by lia. now apply Z.mod_small.
Qed.

(** The search stops at the first slot that is free or has the value. *)
Lemma find_slot_ok a h v : forall fuel k m, 0 <= k <= m -> m < k + Z.of_nat fuel ->
  (at_slot a (slot h m) = 0 \/ at_slot a (slot h m) = v) ->
  (forall k', k <= k' < m -> at_slot a (slot h k') <> 0 /\ at_slot a (slot h k') <> v) ->
  find_slot fuel a (slot h k) v = Some (negb (at_slot a (slot h m) =? 0) && (at_slot a (slot h m) =? v), slot h m).
Proof.
  induction fuel as [|fuel IH]; intros k m Hk Hm St Ns; [lia|]. cbn [find_slot]. fold (at_slot a (slot h k)).
  destruct (Z.eq_dec k m) as [->|N].
  - destruct (Z.eqb_spec (at_slot a (slot h m)) 0) as [|N0]; [reflexivity|].
    destruct St as [St|St]; [contradiction|]. now rewrite (proj2 (Z.eqb_eq _ _) St).
  - destruct (Ns k ltac:(lia)) as [N1 N2]. rewrite (proj2 (Z.eqb_neq _ _) N1), (proj2 (Z.eqb_neq _ _) N2), slot_next.
    apply IH; [lia|lia|exact St|]. intros k' Hk'. apply Ns. lia.
Qed.

(** The first of finitely many indices with a decidable property. *)
Lemma first_index (P : Z -> bool) m : 0 <= m -> P m = true ->
  exists k, 0 <= k <= m /\ P k = true /\ forall k', 0 <= k' < k -> P k' = false.
Proof.
  intros Hm Pm. assert (H : forall n : nat, (exists k, 0 <= k < Z.of_nat n /\ P k = true /\ forall k', 0 <= k' < k -> P k' = false) \/
    forall k', 0 <= k' < Z.of_nat n -> P k' = false).
  { induction n as [|n [(k & Hk & Pk & F)|F]]; [right; lia|left; exists k; split; [lia|auto]|].
    destruct (P (Z.of_nat n)) eqn:E; [left; exists (Z.of_nat n); split; [lia|auto]|].
    right. intros k' Hk'. destruct (Z.eq_dec k' (Z.of_nat n)) as [->|]; [exact E|apply F; lia]. }
  destruct (H (Z.to_nat (m + 1))) as [(k & Hk & Pk & F)|F]; [exists k; split; [lia|auto]|].
  rewrite F in Pm by lia. discriminate.
Qed.

Definition has_room (a : list Z) : Prop := holds a 0.

(** With a free slot the search ends: at the value, or at the slot where it belongs. *)
Lemma search_ok n a v : hash_ok n a -> has_room a -> v <> 0 ->
  exists k, 0 <= k /\ let s := slot (BITVEC_HASH (v - 1)) k in
    (forall k', 0 <= k' < k -> at_slot a (slot (BITVEC_HASH (v - 1)) k') <> 0 /\ at_slot a (slot (BITVEC_HASH (v - 1)) k') <> v) /\
    ((holds a v /\ at_slot a s = v /\ search a (BITVEC_HASH (v - 1)) v = Some (true, s)) \/
     (~ holds a v /\ at_slot a s = 0 /\ search a (BITVEC_HASH (v - 1)) v = Some (false, s))).
Proof.
  intros [L R Re] (z & Hz & Ez) Nv. set (h := BITVEC_HASH (v - 1)).
  assert (Hh : 0 <= h < BITVEC_NINT) by (apply Z.mod_pos_bound; reflexivity).
  destruct (slot_reach h z Hz) as (m & Hm & Em).
  destruct (first_index (fun k => (at_slot a (slot h k) =? 0) || (at_slot a (slot h k) =? v)) m) as (k & Hk & Pk & F);
    [lia|cbn; rewrite Em, Ez; reflexivity|].
  assert (Ns : forall k', 0 <= k' < k -> at_slot a (slot h k') <> 0 /\ at_slot a (slot h k') <> v).
  { intros k' Hk'. specialize (F k' Hk'). apply orb_false_iff in F as [F1 F2]. now apply Z.eqb_neq in F1, F2. }
  assert (St : at_slot a (slot h k) = 0 \/ at_slot a (slot h k) = v) by (apply orb_true_iff in Pk as [P|P]; apply Z.eqb_eq in P; auto).
  pose proof (find_slot_ok a h v (Z.to_nat BITVEC_NINT) 0 k) as E. rewrite slot_0 in E by exact Hh. fold (search a h v) in E.
  exists k. split; [lia|]. split; [exact Ns|]. rewrite E; [|lia|lia|exact St|intros; apply Ns; lia].
  destruct St as [St|St]; rewrite St; [right|left].
  - split; [|split; [reflexivity|now rewrite Z.eqb_refl]]. intros (j & Hj & Ej).
    destruct (Re j Hj) as (k2 & Hk2 & E2 & F2); [congruence|]. rewrite Ej in E2, F2. fold h in E2, F2.
    destruct (Z.lt_trichotomy k k2) as [Lt|[->|Gt]].
    + destruct (F2 k ltac:(lia)) as [A _]. contradiction.
    + congruence.
    + destruct (Ns k2 ltac:(lia)) as [_ A]. congruence.
  - split; [exists (slot h k); split; [apply slot_range|exact St]|]. split; [reflexivity|].
    now rewrite (proj2 (Z.eqb_neq v 0) Nv), Z.eqb_refl.
Qed.

Lemma at_slot_upd a s v h : length a = Z.to_nat BITVEC_NINT -> 0 <= s < BITVEC_NINT -> 0 <= h ->
  at_slot a.[Z.to_nat s <- v] h = if h =? s then v else at_slot a h.
Proof.
  intros L Hs Hh. unfold at_slot. destruct (Z.eqb_spec h s) as [->|N].
  - apply nth_upd_eq. lia.
  - apply nth_upd_ne. lia.
Qed.

(** A value is entered in the free slot where its search stops. *)
Lemma enter_ok n a v k : hash_ok n a -> 0 < v <= n -> 0 <= k ->
  let s := slot (BITVEC_HASH (v - 1)) k in at_slot a s = 0 ->
  (forall k', 0 <= k' < k -> at_slot a (slot (BITVEC_HASH (v - 1)) k') <> 0 /\ at_slot a (slot (BITVEC_HASH (v - 1)) k') <> v) ->
  hash_ok n a.[Z.to_nat s <- v] /\ forall w, w <> 0 -> (holds a.[Z.to_nat s <- v] w <-> w = v \/ holds a w).
Proof.
  intros [L R Re] Hv Hk s Es Ns. pose proof (slot_range (BITVEC_HASH (v - 1)) k) as Hs. fold s in Hs.
  assert (U : forall h, 0 <= h -> at_slot a.[Z.to_nat s <- v] h = if h =? s then v else at_slot a h)
    by (intros h Hh; now apply at_slot_upd).
  assert (Us : forall h k', at_slot a (slot h k') <> 0 -> at_slot a.[Z.to_nat s <- v] (slot h k') = at_slot a (slot h k')).
  { intros h k' N. rewrite U by apply slot_range. destruct (Z.eqb_spec (slot h k') s) as [E|]; [congruence|reflexivity]. }
  split; [constructor|].
  - now rewrite length_upd.
  - intros h. unfold at_slot. destruct (Nat.eq_dec (Z.to_nat s) (Z.to_nat h)) as [E|E].
    + rewrite <- E, nth_upd_eq by lia. lia.
    + rewrite nth_upd_ne by exact E. apply R.
  - intros h Hh. rewrite (U h) by lia. destruct (Z.eqb_spec h s) as [->|N]; intros Nz.
    + exists k. split; [exact Hk|]. split; [reflexivity|]. intros k' Hk'. destruct (Ns k' Hk') as [N1 N2]. now rewrite Us.
    + destruct (Re h Hh Nz) as (k2 & Hk2 & E2 & F2). exists k2. split; [exact Hk2|]. split; [exact E2|].
      intros k' Hk'. destruct (F2 k' Hk') as [N1 N2]. now rewrite Us.
  - intros w Nw. split.
    + intros (h & Hh & E). rewrite U in E by lia. destruct (h =? s); [now left|right; now exists h].
    + intros [->|(h & Hh & E)].
      * exists s. split; [exact Hs|]. rewrite U by lia. now rewrite Z.eqb_refl.
      * exists h. split; [exact Hh|]. rewrite U by lia. destruct (Z.eqb_spec h s) as [->|]; [congruence|exact E].
Qed.

(** A value has one slot. *)
Lemma slot_unique n a h1 h2 : hash_ok n a -> 0 <= h1 < BITVEC_NINT -> 0 <= h2 < BITVEC_NINT ->
  at_slot a h1 = at_slot a h2 -> at_slot a h1 <> 0 -> h1 = h2.
Proof.
  intros [L R Re] H1 H2 E N. destruct (Re h1 H1 N) as (k1 & Hk1 & E1 & F1).
  rewrite E in N. destruct (Re h2 H2 N) as (k2 & Hk2 & E2 & F2). rewrite E in E1, F1.
  set (h := BITVEC_HASH (at_slot a h2 - 1)) in *. destruct (Z.lt_trichotomy k1 k2) as [Lt|[->|Gt]].
  - destruct (F2 k1 ltac:(lia)) as [_ A]. rewrite <- E1 in A. congruence.
  - congruence.
  - destruct (F1 k2 ltac:(lia)) as [_ A]. rewrite <- E2 in A. congruence.
Qed.

(** The number of occupied slots. *)
Definition used (a : list Z) : Z := Z.of_nat (length (filter (fun x => negb (x =? 0)) a)).

Lemma used_upd a s v : (s < length a)%nat -> a.[s] = 0 -> v <> 0 -> used a.[s <- v] = used a + 1.
Proof.
  unfold used. revert s. induction a as [|x a IH]; intros [|s] Hs E Nv; cbn [length] in Hs; try lia.
  - cbn in E. subst x. cbn [upd filter Z.eqb negb]. rewrite (proj2 (Z.eqb_neq v 0) Nv). cbn [negb length]. lia.
  - cbn [nth] in E. specialize (IH s ltac:(lia) E Nv). cbn [upd filter]. destruct (negb (x =? 0)); cbn [length]; lia.
Qed.

Lemma used_room a : length a = Z.to_nat BITVEC_NINT -> used a < BITVEC_NINT -> has_room a.
Proof.
  intros L H. assert (exists j, (j < length a)%nat /\ a.[j] = 0) as (j & Hj & E).
  { assert (Hu : (length (filter (fun x => negb (x =? 0)%Z) a) < length a)%nat) by (unfold used in H; lia).
    clear - Hu. induction a as [|x a IH]; [cbn in Hu; lia|]. cbn [filter] in Hu.
    destruct (Z.eqb_spec x 0) as [->|N]; [exists 0%nat; split; [cbn; lia|reflexivity]|]. cbn [negb length] in Hu.
    destruct IH as (j & Hj & E); [lia|]. exists (S j). split; [cbn; lia|exact E]. }
  exists (Z.of_nat j). unfold at_slot. rewrite Nat2Z.id. split; [lia|exact E].
Qed.

Lemma free_slot_ok a h : forall fuel k m, 0 <= k <= m -> m < k + Z.of_nat fuel -> at_slot a (slot h m) = 0 ->
  (forall k', k <= k' < m -> at_slot a (slot h k') <> 0) -> free_slot fuel a (slot h k) = Some (slot h m).
Proof.
  induction fuel as [|fuel IH]; intros k m Hk Hm St Ns; [lia|]. cbn [free_slot]. fold (at_slot a (slot h k)).
  destruct (Z.eq_dec k m) as [->|N]; [now rewrite St|].
  rewrite (proj2 (Z.eqb_neq _ _) (Ns k ltac:(lia))), slot_next. apply IH; [lia|lia|exact St|]. intros k' Hk'. apply Ns. lia.
Qed.

Definition table_ok (n nSet : Z) (a : list Z) : Prop := hash_ok n a /\ nSet = used a /\ nSet <= BITVEC_NINT - 1.

Lemma table_room n nSet a : table_ok n nSet a -> has_room a.
Proof. intros ([L _ _] & -> & U). apply used_room; [exact L|lia]. Qed.

(** A new value is entered. *)
Lemma add_ok n nSet a v k : table_ok n nSet a -> nSet < BITVEC_NINT - 1 -> 0 < v <= n -> 0 <= k ->
  let s := slot (BITVEC_HASH (v - 1)) k in at_slot a s = 0 ->
  (forall k', 0 <= k' < k -> at_slot a (slot (BITVEC_HASH (v - 1)) k') <> 0 /\ at_slot a (slot (BITVEC_HASH (v - 1)) k') <> v) ->
  table_ok n (nSet + 1) a.[Z.to_nat s <- v] /\ forall w, w <> 0 -> (holds a.[Z.to_nat s <- v] w <-> w = v \/ holds a w).
Proof.
  intros (H & En & U) Un Hv Hk s Es Ns. destruct (enter_ok n a v k H Hv Hk Es Ns) as [H' W]. split; [|exact W].
  split; [exact H'|]. split; [|lia]. pose proof (slot_range (BITVEC_HASH (v - 1)) k). pose proof (ho_length _ _ H).
  rewrite used_upd; [lia|fold s; lia|exact Es|lia].
Qed.

(** The values but one are entered again, in any order, in an empty table. *)
Lemma enter_values_ok n i values : forall nSet a,
  table_ok n nSet a -> nSet + Z.of_nat (length (filter (fun x => negb (x =? 0)) values)) <= BITVEC_NINT - 1 ->
  Forall (fun v => 0 <= v <= n) values -> NoDup (filter (fun x => negb (x =? 0)) values) ->
  (forall v, In v values -> v <> 0 -> ~ holds a v) ->
  exists nSet' a', enter_values values i nSet a = Some (nSet', a') /\ table_ok n nSet' a' /\
    forall w, w <> 0 -> (holds a' w <-> holds a w \/ (In w values /\ w <> i)).
Proof.
  induction values as [|v values IH]; intros nSet a T Hn R D Nh.
  { exists nSet, a. split; [reflexivity|]. split; [exact T|]. cbn. tauto. }
  apply Forall_cons_iff in R as [Rv R]. cbn [enter_values filter length] in *.
  destruct (Z.eqb_spec v 0) as [->|N0]; cbn [negb andb] in *.
  { destruct (IH nSet a T Hn R D) as (n' & a' & E & T' & W); [intros w Hw; apply Nh; now right|].
    exists n', a'. split; [exact E|]. split; [exact T'|]. intros w Nw. rewrite (W w Nw). cbn. intuition congruence. }
  apply NoDup_cons_iff in D as [Nd D]. cbn [length] in Hn.
  assert (Nv : ~ In v values) by (intros H; apply Nd, filter_In; split; [exact H|]; now rewrite (proj2 (Z.eqb_neq v 0) N0)).
  destruct (Z.eqb_spec v i) as [->|Ni]; cbn [negb].
  { destruct (IH nSet a T) as (n' & a' & E & T' & W); [lia|exact R|exact D|intros w Hw; apply Nh; now right|].
    exists n', a'. split; [exact E|]. split; [exact T'|]. intros w Nw. rewrite (W w Nw). cbn. intuition congruence. }
  destruct (search_ok n a v (proj1 T) (table_room _ _ _ T) N0) as (k & Hk & Ns & [(Hv & _)|(Hv & Es & _)]);
    [exfalso; exact (Nh v (or_introl eq_refl) N0 Hv)|].
  destruct (add_ok n nSet a v k T) as [T1 W1]; [lia|lia|exact Hk|exact Es|exact Ns|].
  set (s := slot (BITVEC_HASH (v - 1)) k) in *.
  assert (Ef : free_slot (Z.to_nat BITVEC_NINT) a (BITVEC_HASH (v - 1)) = Some s).
  { destruct (table_room _ _ _ T) as (z & Hz & Ez). destruct (slot_reach (BITVEC_HASH (v - 1)) z Hz) as (m & Hm & Em).
    rewrite <- (slot_0 (BITVEC_HASH (v - 1))) by (apply Z.mod_pos_bound; reflexivity).
    apply free_slot_ok; [lia| |exact Es|intros k' Hk'; now apply Ns].
    destruct (Z.leb_spec k m); [lia|]. destruct (Ns m ltac:(lia)) as [A _]. rewrite Em in A. contradiction. }
  rewrite Ef. destruct (IH (nSet + 1) _ T1) as (n' & a' & E & T' & W); [lia|exact R|exact D| |].
  { intros w Hw Nw H. apply W1 in H as [->|H]; [contradiction|exact (Nh w (or_intror Hw) Nw H)|exact Nw]. }
  exists n', a'. split; [exact E|]. split; [exact T'|]. intros w Nw. rewrite (W w Nw), (W1 w Nw). cbn. intuition congruence.
Qed.

(** ** Bitmaps *)

#[warnings="-register-all"]
Inductive wf : Bitvec -> Prop :=
| wf_bitmap n m : 0 <= n <= BITVEC_NBIT -> length m = BITVEC_NELEM -> bytes m -> wf (Bitmap n m)
| wf_table n s a : BITVEC_NBIT < n -> table_ok n s a -> wf (HashTable n s a)
| wf_divided n s l : BITVEC_NBIT < n -> length l = Z.to_nat BITVEC_NPTR ->
    (forall b q, nth b l None = Some q -> wf q /\ sqlite3BitvecSize q = divisor n) -> wf (Divided n (divisor n) s l).

Definition parts_ok (d : Z) (l : list (option Bitvec)) : Prop :=
  length l = Z.to_nat BITVEC_NPTR /\ forall b q, nth b l None = Some q -> wf q /\ sqlite3BitvecSize q = d.

(** The largest size with [k] levels of division. *)
Definition capacity (k : nat) : Z := BITVEC_NBIT * BITVEC_NPTR ^ Z.of_nat k.

Lemma divisor_ok n : BITVEC_NBIT < n ->
  BITVEC_NBIT <= divisor n /\ n <= divisor n * BITVEC_NPTR /\
  forall k, n <= capacity (S k) -> divisor n <= capacity k.
Proof.
  intros H. unfold divisor, capacity. change BITVEC_NPTR with 62. change BITVEC_NBIT with 3968 in *.
  pose proof (Z.div_mod n 62 ltac:(lia)) as E. pose proof (Z.mod_pos_bound n 62 ltac:(lia)) as M.
  set (d0 := if negb (n mod 62 =? 0) then n / 62 + 1 else n / 62).
  assert (D0 : n <= d0 * 62 /\ d0 * 62 < n + 62).
  { unfold d0. destruct (Z.eqb_spec (n mod 62) 0); cbn [negb]; lia. }
  split; [destruct (Z.ltb_spec d0 3968); lia|]. split; [destruct (Z.ltb_spec d0 3968); lia|].
  intros k Hk. rewrite Nat2Z.inj_succ, Z.pow_succ_r in Hk by lia.
  assert (1 <= 62 ^ Z.of_nat k) by (apply (Z.pow_le_mono_r 62 0); lia).
  destruct (Z.ltb_spec d0 3968); lia.
Qed.

Definition member (fuel : nat) (p : Bitvec) (j : Z) : Prop := bitvec_test fuel p j = Some true.
Definition part_member (fuel : nat) (d : Z) (l : list (option Bitvec)) (j : Z) : Prop :=
  match nth (Z.to_nat (j / d)) l None with None => False | Some q => member fuel q (j mod d) end.

Lemma member_divided fuel n d s l j : member (S fuel) (Divided n d s l) j <-> part_member fuel d l j.
Proof.
  unfold member, part_member. cbn [bitvec_test]. destruct (nth _ l None); [reflexivity|]. split; [discriminate|tauto].
Qed.

Lemma member_table fuel n s a j : table_ok n s a -> 0 <= j ->
  exists b, bitvec_test (S fuel) (HashTable n s a) j = Some b /\ (b = true <-> holds a (j + 1)).
Proof.
  intros T Hj. pose proof (table_room _ _ _ T) as Rm. cbn [bitvec_test].
  replace (BITVEC_HASH j) with (BITVEC_HASH (j + 1 - 1)) by (f_equal; lia).
  destruct (search_ok n a (j + 1) (proj1 T) Rm ltac:(lia)) as (k & _ & _ & [(H & _ & ->)|(H & _ & ->)]).
  - exists true. cbn. tauto.
  - exists false. cbn. split; [reflexivity|]. split; [discriminate|tauto].
Qed.

Lemma bit_test x k : 0 <= k -> negb (Z.land x (Z.shiftl 1 k) =? 0) = Z.testbit x k.
Proof.
  intros Hk. rewrite Z.shiftl_1_l. destruct (Z.testbit x k) eqn:T.
  - apply negb_true_iff, Z.eqb_neq. intros E. apply (f_equal (fun z => Z.testbit z k)) in E.
    now rewrite Z.land_spec, T, Z.pow2_bits_true, Z.testbit_0_l in E.
  - apply negb_false_iff, Z.eqb_eq, Z.bits_inj'. intros i Hi. rewrite Z.land_spec, Z.testbit_0_l.
    destruct (Z.eq_dec i k) as [->|N]; [now rewrite T|]. rewrite Z.pow2_bits_false by congruence. apply andb_false_r.
Qed.

Lemma low_bits i : 0 <= i -> Z.land i 7 = i mod 8.
Proof. intros H. change 7 with (Z.ones 3). now rewrite Z.land_ones by lia. Qed.

Lemma member_bitmap fuel n m j : 0 <= j ->
  bitvec_test (S fuel) (Bitmap n m) j = Some (Z.testbit m.[Z.to_nat (j / 8)] (j mod 8)).
Proof.
  intros H. cbn [bitvec_test]. rewrite low_bits, bit_test; [reflexivity|apply Z.mod_pos_bound; lia|exact H].
Qed.

(** Every test within the size ends. *)
Lemma test_total k : forall p j, wf p -> sqlite3BitvecSize p <= capacity k -> 0 <= j < sqlite3BitvecSize p ->
  exists b, bitvec_test (S k) p j = Some b.
Proof.
  induction k as [|k IH]; intros p j W C Hj; destruct W as [n m Hn Lm Bm|n s a Hn T|n s l Hn Ll Hl]; cbn [sqlite3BitvecSize] in *.
  - rewrite member_bitmap by lia. eauto.
  - unfold capacity in C. cbn in C. change BITVEC_NBIT with 3968 in Hn. lia.
  - unfold capacity in C. cbn in C. change BITVEC_NBIT with 3968 in Hn. lia.
  - rewrite member_bitmap by lia. eauto.
  - destruct (member_table (S k) n s a j T ltac:(lia)) as (b & E & _). eauto.
  - destruct (divisor_ok n Hn) as (D1 & _ & D3). change BITVEC_NBIT with 3968 in D1. cbn [bitvec_test].
    destruct (nth _ l None) as [q|] eqn:E; [|eauto]. destruct (Hl _ _ E) as [Wq Sq].
    apply IH; [exact Wq|rewrite Sq; auto|rewrite Sq; apply Z.mod_pos_bound; lia].
Qed.

Lemma empty_table n : BITVEC_NBIT < n ->
  table_ok n 0 (memset 0 (Z.to_nat BITVEC_NINT)) /\ forall v, v <> 0 -> ~ holds (memset 0 (Z.to_nat BITVEC_NINT)) v.
Proof.
  intros H. assert (Z0 : forall h, at_slot (memset 0 (Z.to_nat BITVEC_NINT)) h = 0) by (intros h; apply nth_repeat).
  split; [split; [constructor|split; [reflexivity|discriminate]]|].
  - apply length_memset.
  - intros h. rewrite Z0. change BITVEC_NBIT with 3968 in H. lia.
  - intros h _ Nz. rewrite Z0 in Nz. contradiction.
  - intros v Nv (h & _ & E). rewrite Z0 in E. congruence.
Qed.

Lemma new_ok n : 0 <= n -> wf (new_bitvec n) /\ sqlite3BitvecSize (new_bitvec n) = n /\
  forall fuel j, 0 <= j -> ~ member fuel (new_bitvec n) j.
Proof.
  intros Hn. unfold new_bitvec. destruct (Z.leb_spec n BITVEC_NBIT) as [H|H].
  - split; [constructor; [lia|apply length_memset|apply bytes_memset; unfold is_byte; lia]|]. split; [reflexivity|].
    intros [|fuel] j Hj; unfold member; [discriminate|]. rewrite member_bitmap by exact Hj.
    unfold memset. rewrite nth_repeat, Z.testbit_0_l. discriminate.
  - destruct (empty_table n H) as [T Nh]. split; [now constructor|]. split; [reflexivity|].
    intros [|fuel] j Hj; unfold member; [discriminate|].
    destruct (member_table fuel n 0 _ j T Hj) as (b & -> & [B _]). destruct b; [|discriminate].
    intros _. apply (Nh (j + 1)); [lia|now apply B].
Qed.

(** ** Setting a bit *)

(** The outcome of setting bit [i] of a set [before]: a failure to allocate memory may lose
    elements but adds none; with memory there is no failure. *)
Definition set_outcome (n i rc : Z) (ms ms' : list bool) (before after : Z -> Prop) : Prop :=
  (rc = SQLITE_OK \/ rc = SQLITE_NOMEM) /\ (ms = [] -> rc = SQLITE_OK /\ ms' = []) /\
  forall j, 0 <= j < n -> (after j -> j = i \/ before j) /\ (rc = SQLITE_OK -> j = i \/ before j -> after j).

Definition set_spec (k : nat) : Prop := forall p i ms,
  wf p -> sqlite3BitvecSize p <= capacity k -> 0 <= i < sqlite3BitvecSize p ->
  exists rc p' ms', bitvec_set (S k) p i ms = Some (rc, p', ms') /\ wf p' /\ sqlite3BitvecSize p' = sqlite3BitvecSize p /\
    set_outcome (sqlite3BitvecSize p) i rc ms ms' (member (S k) p) (member (S k) p').

Lemma nth_upd_part (l : list (option Bitvec)) b c q : (b < length l)%nat ->
  nth c l.[b <- q] None = if (c =? b)%nat then q else nth c l None.
Proof.
  revert b c. induction l as [|x l IH]; intros [|b] [|c] H; cbn [length] in H; try lia; cbn [upd nth Nat.eqb]; auto.
  apply IH. lia.
Qed.

Lemma same_number d i j : 0 < d -> 0 <= i -> 0 <= j -> Z.to_nat (i / d) = Z.to_nat (j / d) -> i mod d = j mod d -> i = j.
Proof.
  intros Hd Hi Hj E1 E2. pose proof (Z.div_pos i d Hi Hd). pose proof (Z.div_pos j d Hj Hd).
  apply Z2Nat.inj in E1; [|assumption|assumption]. rewrite (Z.div_mod i d), (Z.div_mod j d) by lia. congruence.
Qed.

(** One of the parts is found or created. *)
Lemma set_in_part_ok k n d l i ms : set_spec k -> 0 < d <= capacity k -> n <= d * BITVEC_NPTR -> parts_ok d l -> 0 <= i < n ->
  exists rc l' ms', set_in_part (bitvec_set (S k)) d l i ms = Some (rc, l', ms') /\ parts_ok d l' /\
    set_outcome n i rc ms ms' (part_member (S k) d l) (part_member (S k) d l').
Proof.
  intros IH [Hd Hc] Hn [Ll Hl] Hi. unfold set_in_part. set (b := Z.to_nat (i / d)).
  assert (Hb : (b < length l)%nat).
  { rewrite Ll. unfold b. apply Z2Nat.inj_lt; [apply Z.div_pos; lia|discriminate|]. apply Z.div_lt_upper_bound; lia. }
  pose proof (Z.mod_pos_bound i d Hd) as Hm.
  assert (K : forall q ms0, wf q -> sqlite3BitvecSize q = d ->
    (forall r, 0 <= r < d -> member (S k) q r <-> match nth b l None with Some q0 => member (S k) q0 r | None => False end) ->
    (ms = [] -> ms0 = []) ->
    exists rc l' ms', (let* (rc, q, ms) := bitvec_set (S k) q (i mod d) ms0 in Some (rc, l.[b <- Some q], ms)) = Some (rc, l', ms') /\
      parts_ok d l' /\ set_outcome n i rc ms ms' (part_member (S k) d l) (part_member (S k) d l')).
  { intros q ms0 Wq Sq Mq Hms. destruct (IH q (i mod d) ms0 Wq) as (rc & q' & ms' & E & Wq' & Sq' & O1 & O2 & O3); [lia|lia|].
    exists rc, l.[b <- Some q'], ms'. rewrite E. split; [reflexivity|]. split; [split; [now rewrite length_upd|]|].
    - intros c x. rewrite nth_upd_part by exact Hb. destruct (c =? b)%nat; [intros [= <-]; split; [exact Wq'|congruence]|apply Hl].
    - split; [exact O1|]. split; [auto|]. intros j Hj. unfold part_member. rewrite nth_upd_part by exact Hb.
      pose proof (Z.mod_pos_bound j d Hd) as Hmj. destruct (Nat.eqb_spec (Z.to_nat (j / d)) b) as [Eb|Nb].
      + rewrite Sq in O3. destruct (O3 (j mod d) Hmj) as [A B]. rewrite Eb, <- (Mq _ Hmj).
        assert (Ej : j mod d = i mod d -> j = i) by (intros X; apply (same_number d); lia || assumption). split.
        * intros H. destruct (A H) as [X|X]; auto.
        * intros Hr [->|H]; auto.
      + split; [auto|]. intros _ [->|H]; [contradiction|exact H]. }
  destruct (nth b l None) as [q|] eqn:Eq.
  - destruct (Hl b q Eq) as [Wq Sq]. apply K; [exact Wq|exact Sq|tauto|auto].
  - unfold sqlite3BitvecCreate. destruct ms as [|[] ms0]; cbn [malloc].
    1, 2: destruct (new_ok d ltac:(lia)) as (Wq & Sq & Nq); apply K;
      [exact Wq|exact Sq|intros r Hr; specialize (Nq (S k) r ltac:(lia)); tauto|auto; discriminate].
    exists SQLITE_NOMEM, l, ms0. split; [reflexivity|]. split; [split; assumption|].
    split; [now right|]. split; [discriminate|]. intros j Hj. split; [auto|discriminate].
Qed.

(** The values of a full table move into the parts. *)
Lemma set_values_ok k n d values : set_spec k -> 0 < d <= capacity k -> n <= d * BITVEC_NPTR -> Forall (fun v => 0 <= v <= n) values ->
  forall rc l ms, parts_ok d l -> rc = SQLITE_OK \/ rc = SQLITE_NOMEM ->
  exists rc' l' ms', set_values (bitvec_set (S k)) d values rc l ms = Some (rc', l', ms') /\ parts_ok d l' /\
    (rc' = SQLITE_OK \/ rc' = SQLITE_NOMEM) /\ (rc' = SQLITE_OK -> rc = SQLITE_OK) /\
    (ms = [] -> rc = SQLITE_OK -> rc' = SQLITE_OK /\ ms' = []) /\
    forall j, 0 <= j < n -> (part_member (S k) d l' j -> In (j + 1) values \/ part_member (S k) d l j) /\
      (rc' = SQLITE_OK -> In (j + 1) values \/ part_member (S k) d l j -> part_member (S k) d l' j).
Proof.
  intros IH Hd Hn R. induction R as [|v values Rv R IHv]; intros rc l ms P Hrc; cbn [set_values].
  { exists rc, l, ms. split; [reflexivity|]. split; [exact P|]. split; [exact Hrc|]. cbn. split; [auto|]. split; [auto|].
    intros j _. tauto. }
  destruct (Z.eqb_spec v 0) as [->|N0].
  { destruct (IHv rc l ms P Hrc) as (rc' & l' & ms' & E & P' & A & B & C & D). exists rc', l', ms'.
    do 5 (split; [assumption|]). intros j Hj. destruct (D j Hj) as [D1 D2]. cbn. split; [intuition|].
    intros Hr [[X|X]|X]; [lia| |]; auto. }
  destruct (set_in_part_ok k n d l (v - 1) ms IH Hd Hn P) as (rc1 & l1 & ms1 & E1 & P1 & O1 & O2 & O3); [lia|]. rewrite E1.
  destruct (IHv (Z.lor rc rc1) l1 ms1 P1) as (rc' & l' & ms' & E & P' & A & B & C & D).
  { destruct Hrc as [-> | ->], O1 as [-> | ->]; cbn; auto. }
  assert (Bc : rc' = SQLITE_OK -> rc = SQLITE_OK /\ rc1 = SQLITE_OK)
    by (intros Hr; apply B, Z.lor_eq_0_iff in Hr; exact Hr).
  exists rc', l', ms'. split; [exact E|]. split; [exact P'|]. split; [exact A|]. split; [intros Hr; now apply Bc|]. split.
  { intros Hm Hr. destruct (O2 Hm) as [-> Hm1]. apply C; [exact Hm1|now rewrite Hr]. }
  intros j Hj. destruct (D j Hj) as [D1 D2]. destruct (O3 j Hj) as [F1 F2]. cbn [In]. split.
  - intros H. destruct (D1 H) as [X|X]; [auto|]. destruct (F1 X) as [->|Y]; [left; left; lia|auto].
  - intros Hr H. apply (D2 Hr). destruct H as [[X|X]|X]; [right; apply F2; [now apply Bc|left; lia]|auto|].
    right. apply F2; [now apply Bc|auto].
Qed.

Lemma bitmap_byte (m : list Z) j : length m = BITVEC_NELEM -> 0 <= j < BITVEC_NBIT -> (Z.to_nat (j / 8) < length m)%nat.
Proof.
  intros -> H. unfold BITVEC_NELEM. change BITVEC_USIZE with 496. change BITVEC_NBIT with 3968 in H.
  apply Z2Nat.inj_lt; [apply Z.div_pos; lia|lia|apply Z.div_lt_upper_bound; lia].
Qed.

Lemma bitmap_same i j : 0 <= i -> 0 <= j -> Z.to_nat (j / 8) = Z.to_nat (i / 8) -> (j mod 8 =? i mod 8) = (j =? i).
Proof.
  intros Hi Hj E. destruct (Z.eqb_spec (j mod 8) (i mod 8)) as [M|M], (Z.eqb_spec j i) as [->|N]; try reflexivity; [|contradiction].
  exfalso. apply N. apply (same_number 8); lia || assumption.
Qed.

(** Changes of one bit of a bitmap. *)
Lemma bitmap_update n m i b : 0 <= n <= BITVEC_NBIT -> length m = BITVEC_NELEM -> bytes m -> 0 <= i < n ->
  forall x, is_byte x -> (forall k, 0 <= k < 8 -> Z.testbit x k = if k =? i mod 8 then b else Z.testbit m.[Z.to_nat (i / 8)] k) ->
  let p := Bitmap n m.[Z.to_nat (i / 8) <- x] in
  wf p /\ forall fuel j, 0 <= j < n -> bitvec_test (S fuel) p j = if j =? i then Some b else bitvec_test (S fuel) (Bitmap n m) j.
Proof.
  intros Hn Lm Bm Hi x Bx Tx p. split.
  - constructor; [exact Hn|now rewrite length_upd|now apply Forall_upd].
  - intros fuel j Hj. unfold p. rewrite !member_bitmap by lia. pose proof (Z.mod_pos_bound j 8 ltac:(lia)) as Hmj.
    destruct (Nat.eq_dec (Z.to_nat (j / 8)) (Z.to_nat (i / 8))) as [E|E].
    + rewrite E, nth_upd_eq by (apply bitmap_byte; [exact Lm|lia]). rewrite Tx, (bitmap_same i j) by (lia || assumption).
      now destruct (j =? i).
    + rewrite nth_upd_ne by congruence. destruct (Z.eqb_spec j i) as [->|]; [contradiction|reflexivity].
Qed.

Lemma bit_range i : 0 <= i -> 0 <= i mod 8 < 8 /\ is_byte (Z.shiftl 1 (i mod 8)).
Proof.
  intros Hi. pose proof (Z.mod_pos_bound i 8 ltac:(lia)) as H. split; [exact H|]. rewrite Z.shiftl_1_l. unfold is_byte.
  split; [apply Z.pow_nonneg; lia|]. change 256 with (2 ^ 8). apply Z.pow_lt_mono_r; lia.
Qed.

Lemma u8_testbit x k : 0 <= k < 8 -> Z.testbit (u8 x) k = Z.testbit x k.
Proof.
  intros Hk. unfold u8. rewrite Z.land_spec. change 0xFF with (Z.ones 8). rewrite Z.ones_spec_low by lia. apply andb_true_r.
Qed.

Lemma pow2_bit a k : 0 <= a -> 0 <= k -> Z.testbit (Z.shiftl 1 a) k = (k =? a).
Proof.
  intros Ha Hk. rewrite Z.shiftl_1_l. destruct (Z.eqb_spec k a) as [->|N]; [now apply Z.pow2_bits_true|].
  apply Z.pow2_bits_false. congruence.
Qed.

Lemma set_bitmap k n m i ms : 0 <= n <= BITVEC_NBIT -> length m = BITVEC_NELEM -> bytes m -> 0 <= i < n ->
  exists p', bitvec_set (S k) (Bitmap n m) i ms = Some (SQLITE_OK, p', ms) /\ wf p' /\ sqlite3BitvecSize p' = n /\
    set_outcome n i SQLITE_OK ms ms (member (S k) (Bitmap n m)) (member (S k) p').
Proof.
  intros Hn Lm Bm Hi. destruct (bit_range i ltac:(lia)) as [Hb By].
  destruct (bitmap_update n m i true Hn Lm Bm Hi (u8 (Z.lor m.[Z.to_nat (i / 8)] (Z.shiftl 1 (i mod 8))))) as [W T].
  - apply u8_range.
  - intros b Hk. rewrite u8_testbit, Z.lor_spec, pow2_bit by lia. destruct (b =? i mod 8); [apply orb_true_r|apply orb_false_r].
  - eexists. split; [cbn [bitvec_set]; rewrite low_bits by lia; reflexivity|]. split; [exact W|]. split; [reflexivity|].
    split; [now left|]. split; [auto|]. intros j Hj. unfold member. rewrite (T k j Hj).
    destruct (Z.eqb_spec j i) as [->|N]; intuition.
Qed.

Lemma table_member k n s a j : table_ok n s a -> 0 <= j -> (member (S k) (HashTable n s a) j <-> holds a (j + 1)).
Proof.
  intros T Hj. destruct (member_table k n s a j T Hj) as (b & E & B). unfold member. rewrite E. split.
  - intros [= ->]. now apply B.
  - intros H. f_equal. now apply B.
Qed.

Lemma holds_in n a v : hash_ok n a -> (holds a v <-> In v a).
Proof.
  intros [L _ _]. unfold holds, at_slot. split.
  - intros (h & Hh & <-). apply nth_In. lia.
  - intros H. apply (In_nth _ _ 0) in H as (j & Hj & E). exists (Z.of_nat j). rewrite Nat2Z.id. split; [lia|exact E].
Qed.

Lemma table_values n a : hash_ok n a -> Forall (fun v => 0 <= v <= n) a.
Proof.
  intros H. apply Forall_forall. intros v Hv. apply (holds_in n a v H) in Hv as (h & _ & <-). apply (ho_range _ _ H).
Qed.

(** A full table is divided. *)
Lemma divide_ok k n s a i ms : set_spec k -> n <= capacity (S k) -> BITVEC_NBIT < n -> table_ok n s a -> 0 <= i < n ->
  exists rc p' ms',
    (let* (rc, l, ms) := set_in_part (bitvec_set (S k)) (divisor n) (repeat None (Z.to_nat BITVEC_NPTR)) i ms in
     let* (rc, l, ms) := set_values (bitvec_set (S k)) (divisor n) a rc l ms in
     Some (rc, Divided n (divisor n) s l, ms)) = Some (rc, p', ms') /\ wf p' /\ sqlite3BitvecSize p' = n /\
    set_outcome n i rc ms ms' (member (S (S k)) (HashTable n s a)) (member (S (S k)) p').
Proof.
  intros IH C Hn T Hi. destruct (divisor_ok n Hn) as (D1 & D2 & D3). specialize (D3 k C).
  assert (Dp : 0 < divisor n <= capacity k) by (change BITVEC_NBIT with 3968 in D1; lia).
  assert (P0 : parts_ok (divisor n) (repeat None (Z.to_nat BITVEC_NPTR))).
  { split; [apply repeat_length|]. intros b q. rewrite nth_repeat. discriminate. }
  destruct (set_in_part_ok k n (divisor n) _ i ms IH Dp D2 P0 Hi) as (rc1 & l1 & ms1 & -> & P1 & O1 & O2 & O3).
  destruct (set_values_ok k n (divisor n) a IH Dp D2 (table_values n a (proj1 T)) rc1 l1 ms1 P1 O1)
    as (rc & l & ms' & -> & P & A & B & Cm & D).
  exists rc, (Divided n (divisor n) s l), ms'. split; [reflexivity|]. split; [constructor; [exact Hn|apply P|apply P]|].
  split; [reflexivity|]. split; [exact A|]. split; [intros Hm; destruct (O2 Hm); auto|].
  intros j Hj. rewrite member_divided, (table_member (S k) n s a j T), (holds_in n a _ (proj1 T)) by lia.
  destruct (D j Hj) as [F1 F2]. destruct (O3 j Hj) as [G1 G2].
  assert (N0 : ~ part_member (S k) (divisor n) (repeat None (Z.to_nat BITVEC_NPTR)) j)
    by (unfold part_member; rewrite nth_repeat; tauto). split.
  - intros H. destruct (F1 H) as [X|X]; [auto|]. destruct (G1 X) as [Y|Y]; [auto|contradiction].
  - intros Hr H. apply (F2 Hr). destruct H as [->|H]; [right; apply G2; auto|auto].
Qed.

(** The table takes a value, or is divided. *)
Lemma set_table k n s a i ms : (forall k', k = S k' -> set_spec k') -> n <= capacity k ->
  BITVEC_NBIT < n -> table_ok n s a -> 0 <= i < n ->
  exists rc p' ms', bitvec_set (S k) (HashTable n s a) i ms = Some (rc, p', ms') /\ wf p' /\ sqlite3BitvecSize p' = n /\
    set_outcome n i rc ms ms' (member (S k) (HashTable n s a)) (member (S k) p').
Proof.
  intros IH C Hn T Hi.
  destruct (search_ok n a (i + 1) (proj1 T) (table_room _ _ _ T) ltac:(lia)) as (m & Hm & Ns & Se). cbv zeta in Se.
  rewrite Z.add_simpl_r in Ns, Se. cbn [bitvec_set]. destruct Se as [(Hv & _ & ->)|(Hv & Es & ->)].
  { exists SQLITE_OK, (HashTable n s a), ms. split; [reflexivity|]. split; [now constructor|]. split; [reflexivity|].
    split; [now left|]. split; [auto|]. intros j Hj. rewrite table_member by (assumption || lia). split; [auto|].
    intros _ [->|H]; assumption. }
  assert (Add : s < BITVEC_NINT - 1 -> let a' := a.[Z.to_nat (slot (BITVEC_HASH i) m) <- i + 1] in
    wf (HashTable n (s + 1) a') /\
    set_outcome n i SQLITE_OK ms ms (member (S k) (HashTable n s a)) (member (S k) (HashTable n (s + 1) a'))).
  { intros Hs a'. pose proof (add_ok n s a (i + 1) m T Hs ltac:(lia) Hm) as H. cbv zeta in H.
    rewrite Z.add_simpl_r in H. destruct (H Es Ns) as [T' W]. fold a' in T', W.
    split; [now constructor|]. split; [now left|]. split; [auto|].
    intros j Hj. rewrite !table_member by (assumption || lia). rewrite W by lia. intuition lia. }
  destruct ((a.[Z.to_nat (BITVEC_HASH i)] =? 0) && (s <? BITVEC_NINT - 1)) eqn:Dir.
  { apply andb_true_iff in Dir as [_ Dir]. apply Z.ltb_lt in Dir. destruct (Add Dir) as [W O]. eauto 10. }
  rewrite Z.geb_leb. destruct (Z.leb_spec BITVEC_MXHASH s) as [Full|Free].
  2: { destruct Add as [W O]; [change BITVEC_NINT with 124; change BITVEC_MXHASH with 62 in Free; lia|]. eauto 10. }
  destruct k as [|k]; [exfalso; unfold capacity in C; cbn in C; change BITVEC_NBIT with 3968 in Hn; lia|].
  rewrite Z.add_simpl_r. pose proof (fun ms0 => divide_ok k n s a i ms0 (IH k eq_refl) C Hn T Hi) as Div.
  destruct ms as [|[] ms0]; cbn [malloc]; [apply Div| |].
  - destruct (Div ms0) as (rc & p' & ms' & E & W & Sz & O1 & _ & O3). exists rc, p', ms'. do 3 (split; [assumption|]).
    split; [exact O1|]. split; [discriminate|exact O3].
  - exists SQLITE_NOMEM, (HashTable n s a), ms0. split; [reflexivity|]. split; [now constructor|]. split; [reflexivity|].
    split; [now right|]. split; [discriminate|]. intros j Hj. split; [auto|discriminate].
Qed.

Lemma set_ok k : set_spec k.
Proof.
  induction k as [|k IH]; intros p i ms W C Hi; destruct W as [n m Hn Lm Bm|n s a Hn T|n s l Hn Ll Hl]; cbn [sqlite3BitvecSize] in *.
  1, 4: match goal with |- context [bitvec_set (S ?k)] =>
    destruct (set_bitmap k n m i ms Hn Lm Bm Hi) as (p' & H); exists SQLITE_OK, p', ms; exact H end.
  1, 3: apply set_table; auto; intros k' [= <-]; exact IH.
  - exfalso. unfold capacity in C. cbn in C. change BITVEC_NBIT with 3968 in Hn. lia.
  - destruct (divisor_ok n Hn) as (D1 & D2 & D3). specialize (D3 k C).
    destruct (set_in_part_ok k n (divisor n) l i ms IH) as (rc & l' & ms' & E & P & O1 & O2 & O3);
      [change BITVEC_NBIT with 3968 in D1; lia|exact D2|now split|exact Hi|].
    exists rc, (Divided n (divisor n) s l'), ms'. split.
    { change (bitvec_set (S (S k)) (Divided n (divisor n) s l) i ms) with
        (let* (rc, l, ms) := set_in_part (bitvec_set (S k)) (divisor n) l i ms in Some (rc, Divided n (divisor n) s l, ms)).
      now rewrite E. }
    split; [constructor; [exact Hn|apply P|apply P]|]. split; [reflexivity|]. split; [exact O1|]. split; [exact O2|].
    intros j Hj. rewrite !member_divided. auto.
Qed.

(** ** Clearing a bit *)

Lemma nodup_values n a : hash_ok n a -> NoDup (filter (fun x => negb (x =? 0)) a).
Proof.
  intros H. pose proof (ho_length _ _ H) as L.
  assert (U : forall i j, (i < length a)%nat -> (j < length a)%nat -> a.[i] = a.[j] -> a.[i] <> 0 -> i = j).
  { intros i j Hi Hj E N. apply Nat2Z.inj. apply (slot_unique n a); unfold at_slot; rewrite ?Nat2Z.id; auto; lia. }
  clear - U. induction a as [|x a IH]; [constructor|]. cbn [filter].
  assert (IH' : NoDup (filter (fun x => negb (x =? 0)) a)).
  { apply IH. intros i j Hi Hj E N. specialize (U (S i) (S j)). cbn in U. assert (S i = S j) by (apply U; auto; lia). lia. }
  destruct (Z.eqb_spec x 0) as [|N]; [exact IH'|]. cbn [negb]. constructor; [|exact IH'].
  intros Hin. apply filter_In in Hin as [Hin _]. apply (In_nth _ _ 0) in Hin as (j & Hj & E).
  specialize (U 0%nat (S j)). cbn in U. assert (0%nat = S j) by (apply U; auto; lia). discriminate.
Qed.

Lemma clear_bitmap k n m i : 0 <= n <= BITVEC_NBIT -> length m = BITVEC_NELEM -> bytes m -> 0 <= i < n ->
  exists p', bitvec_clear (S k) (Bitmap n m) i = Some p' /\ wf p' /\ sqlite3BitvecSize p' = n /\
    forall j, 0 <= j < n -> (member (S k) p' j <-> j <> i /\ member (S k) (Bitmap n m) j).
Proof.
  intros Hn Lm Bm Hi. destruct (bit_range i ltac:(lia)) as [Hb By].
  destruct (bitmap_update n m i false Hn Lm Bm Hi (Z.land m.[Z.to_nat (i / 8)] (Z.lnot (u8 (Z.shiftl 1 (i mod 8)))))) as [W T].
  - apply (range_of_bits 8); [lia|]. intros b Hk. rewrite Z.land_spec.
    pose proof (bytes_nth m (Z.to_nat (i / 8)) Bm) as Bx. now rewrite (testbit_high 8 _ b Bx Hk).
  - intros b Hk. rewrite Z.land_spec, Z.lnot_spec, u8_testbit, pow2_bit by lia.
    destruct (b =? i mod 8); [apply andb_false_r|apply andb_true_r].
  - eexists. split; [cbn [bitvec_clear]; rewrite low_bits by lia; reflexivity|]. split; [exact W|]. split; [reflexivity|].
    intros j Hj. unfold member. rewrite (T k j Hj). destruct (Z.eqb_spec j i) as [->|N]; intuition congruence.
Qed.

Lemma clear_table k n s a i : BITVEC_NBIT < n -> table_ok n s a -> 0 <= i < n ->
  exists p', bitvec_clear (S k) (HashTable n s a) i = Some p' /\ wf p' /\ sqlite3BitvecSize p' = n /\
    forall j, 0 <= j < n -> (member (S k) p' j <-> j <> i /\ member (S k) (HashTable n s a) j).
Proof.
  intros Hn T Hi. destruct (empty_table n Hn) as [T0 N0]. pose proof T as (H & Es & Us).
  destruct (enter_values_ok n (i + 1) a 0 _ T0) as (s' & a' & E & T' & W).
  - unfold used in Es. lia.
  - now apply table_values.
  - now apply nodup_values with n.
  - intros v _ Nv. now apply N0.
  - exists (HashTable n s' a'). split; [cbn [bitvec_clear]; now rewrite E|]. split; [now constructor|]. split; [reflexivity|].
    intros j Hj. rewrite !table_member by (assumption || lia). rewrite W, (holds_in n a) by (assumption || lia).
    specialize (N0 (j + 1) ltac:(lia)). intuition lia.
Qed.

Lemma clear_ok k : forall p i, wf p -> sqlite3BitvecSize p <= capacity k -> 0 <= i < sqlite3BitvecSize p ->
  exists p', bitvec_clear (S k) p i = Some p' /\ wf p' /\ sqlite3BitvecSize p' = sqlite3BitvecSize p /\
    forall j, 0 <= j < sqlite3BitvecSize p -> (member (S k) p' j <-> j <> i /\ member (S k) p j).
Proof.
  induction k as [|k IH]; intros p i W C Hi; destruct W as [n m Hn Lm Bm|n s a Hn T|n s l Hn Ll Hl]; cbn [sqlite3BitvecSize] in *.
  1, 4: now apply clear_bitmap.
  1, 3: now apply clear_table.
  { exfalso. unfold capacity in C. cbn in C. change BITVEC_NBIT with 3968 in Hn. lia. }
  destruct (divisor_ok n Hn) as (D1 & D2 & D3). specialize (D3 k C). change BITVEC_NBIT with 3968 in D1.
  set (d := divisor n) in *. set (b := Z.to_nat (i / d)).
  change (bitvec_clear (S (S k)) (Divided n d s l) i) with
    (match nth b l None with
     | None => Some (Divided n d s l)
     | Some q => let* q := bitvec_clear (S k) q (i mod d) in Some (Divided n d s l.[b <- Some q])
     end).
  assert (Hb : (b < length l)%nat).
  { rewrite Ll. unfold b. apply Z2Nat.inj_lt; [apply Z.div_pos; lia|discriminate|]. apply Z.div_lt_upper_bound; lia. }
  destruct (nth b l None) as [q|] eqn:Eq.
  - destruct (Hl b q Eq) as [Wq Sq]. pose proof (Z.mod_pos_bound i d ltac:(lia)) as Hm.
    destruct (IH q (i mod d) Wq) as (q' & -> & Wq' & Sq' & M); [lia|lia|].
    eexists. split; [reflexivity|]. split; [constructor; [exact Hn|now rewrite length_upd|]|split; [reflexivity|]].
    + intros c x. rewrite nth_upd_part by exact Hb. destruct (c =? b)%nat; [intros [= <-]; split; [exact Wq'|unfold d in *; lia]|apply Hl].
    + intros j Hj. rewrite !member_divided. unfold part_member. rewrite nth_upd_part by exact Hb.
      pose proof (Z.mod_pos_bound j d ltac:(lia)) as Hmj. destruct (Nat.eqb_spec (Z.to_nat (j / d)) b) as [Eb|Nb].
      * rewrite Eb, Eq, M by lia. assert (Ej : j mod d = i mod d -> j = i) by (intros X; apply (same_number d); lia || assumption).
        intuition congruence.
      * split; [|tauto]. intros H. split; [intros ->; contradiction|exact H].
  - eexists. split; [reflexivity|]. split; [now constructor|]. split; [reflexivity|]. intros j Hj. rewrite !member_divided.
    unfold part_member. destruct (Z.eq_dec j i) as [->|N]; [fold b; rewrite Eq|]; tauto.
Qed.

(** ** Sequences of operations *)

Inductive Op := SetBit (i : Z) | ClearBit (i : Z).

Fixpoint run (ops : list Op) (p : option Bitvec) (ms : list bool) : option (list Z * option Bitvec) :=
  match ops with
  | [] => Some ([], p)
  | SetBit i :: ops =>
      let* (rc, p, ms) := sqlite3BitvecSet p i ms in let* (rcs, p) := run ops p ms in Some (rc :: rcs, p)
  | ClearBit i :: ops => let* p := sqlite3BitvecClear p i in run ops p ms
  end.

(** The set of the operations. *)
Definition apply_op (s : Z -> bool) (op : Op) : Z -> bool :=
  match op with
  | SetBit i => fun j => (j =? i) || s j
  | ClearBit i => fun j => negb (j =? i) && s j
  end.

Definition op_in (n : Z) (op : Op) : Prop := match op with SetBit i | ClearBit i => 1 <= i <= n end.

Lemma depth_enough n : n < 2 ^ 32 -> n <= capacity 4.
Proof. intros H. change (capacity 4) with 58632501248. change (2 ^ 32) with 4294967296 in H. lia. Qed.

(** The bitmap has elements of the set only, and all of them unless memory was missing. *)
Definition within (n : Z) (p : Bitvec) (s : Z -> bool) (full : Prop) : Prop :=
  wf p /\ sqlite3BitvecSize p = n /\
  forall j, 1 <= j <= n -> (member DEPTH p (j - 1) -> s j = true) /\ (full -> s j = true -> member DEPTH p (j - 1)).

Lemma set_within n p s full i ms : n < 2 ^ 32 -> within n p s full -> 1 <= i <= n ->
  exists rc p' ms', sqlite3BitvecSet (Some p) i ms = Some (rc, Some p', ms') /\
    (rc = SQLITE_OK \/ rc = SQLITE_NOMEM) /\ (ms = [] -> rc = SQLITE_OK /\ ms' = []) /\
    within n p' (apply_op s (SetBit i)) (full /\ rc = SQLITE_OK).
Proof.
  intros Hn (W & Sz & M) Hi. pose proof (depth_enough n Hn) as C.
  destruct (set_ok 4 p (i - 1) ms W) as (rc & p' & ms' & E & W' & Sz' & O1 & O2 & O3); [lia|lia|].
  exists rc, p', ms'. split; [unfold sqlite3BitvecSet, DEPTH; now rewrite E|]. split; [exact O1|]. split; [exact O2|].
  split; [exact W'|]. split; [lia|]. intros j Hj. destruct (O3 (j - 1) ltac:(lia)) as [A B]. destruct (M j Hj) as [M1 M2].
  cbn [apply_op]. split.
  - intros H. destruct (A H) as [X|X]; [now rewrite (proj2 (Z.eqb_eq j i)) by lia|]. rewrite (M1 X). apply orb_true_r.
  - intros [Hf Hr] H. apply (B Hr). apply orb_true_iff in H as [H|H]; [apply Z.eqb_eq in H; left; lia|right; auto].
Qed.

Lemma clear_within n p s full i : n < 2 ^ 32 -> within n p s full -> 1 <= i <= n ->
  exists p', sqlite3BitvecClear (Some p) i = Some (Some p') /\ within n p' (apply_op s (ClearBit i)) full.
Proof.
  intros Hn (W & Sz & M) Hi. pose proof (depth_enough n Hn) as C.
  destruct (clear_ok 4 p (i - 1) W) as (p' & E & W' & Sz' & O); [lia|lia|].
  exists p'. split; [unfold sqlite3BitvecClear, DEPTH; now rewrite E|]. split; [exact W'|]. split; [lia|].
  intros j Hj. specialize (O (j - 1) ltac:(lia)). unfold DEPTH. rewrite O. destruct (M j Hj) as [M1 M2]. cbn [apply_op]. split.
  - intros [N H]. rewrite (M1 H), (proj2 (Z.eqb_neq j i)) by lia. reflexivity.
  - intros Hf H. apply andb_true_iff in H as [N H]. apply negb_true_iff, Z.eqb_neq in N. split; [lia|auto].
Qed.

Lemma run_within n ops : n < 2 ^ 32 -> Forall (op_in n) ops -> forall p s full ms, within n p s full ->
  exists rcs p', run ops (Some p) ms = Some (rcs, Some p') /\
    Forall (fun rc => rc = SQLITE_OK \/ rc = SQLITE_NOMEM) rcs /\ (ms = [] -> Forall (eq SQLITE_OK) rcs) /\
    within n p' (fold_left apply_op ops s) (full /\ Forall (eq SQLITE_OK) rcs).
Proof.
  intros Hn F. induction F as [|op ops Ho F IH]; intros p s full ms W.
  { exists [], p. split; [reflexivity|]. split; [constructor|]. split; [constructor|]. destruct W as (A & B & C).
    split; [exact A|]. split; [exact B|]. intros j Hj. destruct (C j Hj) as [C1 C2]. split; [exact C1|]. intros [Hf _]. auto. }
  destruct op as [i|i]; cbn [op_in] in Ho; cbn [run fold_left].
  - destruct (set_within n p s full i ms Hn W Ho) as (rc & p1 & ms1 & -> & O1 & O2 & W1).
    destruct (IH p1 _ _ ms1 W1) as (rcs & p' & -> & R1 & R2 & A & B & C). exists (rc :: rcs), p'. split; [reflexivity|].
    split; [now constructor|]. split; [intros Hm; destruct (O2 Hm) as [-> Hm1]; constructor; auto|].
    split; [exact A|]. split; [exact B|]. intros j Hj. destruct (C j Hj) as [C1 C2]. split; [exact C1|].
    intros [Hf Hr]. apply Forall_cons_iff in Hr as [Hr Hrs]. apply C2. auto.
  - destruct (clear_within n p s full i Hn W Ho) as (p1 & -> & W1). exact (IH p1 _ _ ms W1).
Qed.

(** C10: A bitmap of pages is a set of numbers.  A bitmap is created for numbers up to [n], and
    bits are set and cleared in any order.  Whatever representation it goes through - bits,
    hash table, division on one or more levels - every operation ends; a test of any number
    of 32 bits ends and is true only for numbers in the set, and for all of them if every
    operation reported success, which it does as long as there is memory. *)
Theorem bitvec_is_set n ops ms : 0 <= n < 2 ^ 32 -> Forall (op_in n) ops ->
  exists p rcs p', sqlite3BitvecCreate n (true :: ms) = (Some p, ms) /\ run ops (Some p) ms = Some (rcs, Some p') /\
    Forall (fun rc => rc = SQLITE_OK \/ rc = SQLITE_NOMEM) rcs /\ (ms = [] -> Forall (eq SQLITE_OK) rcs) /\
    forall j, 0 <= j < 2 ^ 32 -> exists b, sqlite3BitvecTest (Some p') j = Some b /\
      (b = true -> fold_left apply_op ops (fun _ => false) j = true) /\
      (Forall (eq SQLITE_OK) rcs -> b = ((1 <=? j) && (j <=? n) && fold_left apply_op ops (fun _ => false) j)).
Proof.
  intros Hn F. destruct (new_ok n ltac:(lia)) as (W & Sz & Nm). exists (new_bitvec n).
  destruct (run_within n ops (proj2 Hn) F (new_bitvec n) (fun _ => false) True ms) as (rcs & p' & E & R1 & R2 & W' & Sz' & M).
  { split; [exact W|]. split; [exact Sz|]. intros j Hj. split; [|discriminate]. intros H. exfalso. now apply (Nm DEPTH (j - 1)); [lia|]. }
  exists rcs, p'. split; [reflexivity|]. split; [exact E|]. split; [exact R1|]. split; [exact R2|].
  intros j Hj. unfold sqlite3BitvecTest, sqlite3BitvecTestNotNull. rewrite Sz', Z.geb_leb.
  destruct (Z.leb_spec n (u32 (j - 1))) as [Out|In].
  - exists false. split; [reflexivity|]. split; [discriminate|]. intros _. symmetry. rewrite u32_mod in Out.
    destruct (Z.leb_spec 1 j); [|reflexivity]. rewrite Z.mod_small in Out by lia. now rewrite (proj2 (Z.leb_gt j n)) by lia.
  - assert (J : 1 <= j <= n).
    { rewrite u32_mod in In. destruct (Z.eq_dec j 0) as [->|]; [change ((0 - 1) mod 2 ^ 32) with (2 ^ 32 - 1) in In; lia|].
      rewrite Z.mod_small in In by lia. lia. }
    rewrite u32_small by (unfold is_u32; lia).
    destruct (test_total 4 p' (j - 1) W') as (b & Eb); [rewrite Sz'; apply depth_enough; lia|lia|].
    exists b. split; [exact Eb|]. destruct (M j J) as [M1 M2]. split; [intros ->; now apply M1|].
    intros Hr. rewrite (proj2 (Z.leb_le 1 j)), (proj2 (Z.leb_le j n)) by lia. cbn [andb].
    destruct (fold_left apply_op ops (fun _ => false) j) eqn:Es.
    + specialize (M2 (conj Logic.I Hr) eq_refl). unfold member, DEPTH in M2. congruence.
    + destruct b; [|reflexivity]. discriminate (M1 Eb).
Qed.

(** Two hundred bits of a set of numbers up to a million, which divide the hash table twice,
    and one of them is cleared. *)
Definition sample_ops : list Op := map (fun i => SetBit (Z.of_nat (124 * i))) (seq 1 200) ++ [ClearBit 1240].

Lemma bitvec_is_set_witness :
  exists p rcs p', sqlite3BitvecCreate 1000000 [true] = (Some p, []) /\ run sample_ops (Some p) [] = Some (rcs, Some p') /\
    sqlite3BitvecTest (Some p') 124 = Some true /\ sqlite3BitvecTest (Some p') 1240 = Some false /\
    sqlite3BitvecTest (Some p') 0 = Some false.
Proof.
  destruct (bitvec_is_set 1000000 sample_ops []) as (p & rcs & p' & E1 & E2 & _ & R & H).
  - split; [discriminate|reflexivity].
  - apply Forall_app. split; [|constructor; [cbn; lia|constructor]]. apply Forall_map, Forall_forall.
    intros i Hi. apply in_seq in Hi. cbn [op_in]. lia.
  - specialize (R eq_refl). exists p, rcs, p'. split; [exact E1|]. split; [exact E2|].
    split; [|split]; [destruct (H 124) as (b & Eb & _ & B)|destruct (H 1240) as (b & Eb & _ & B)|destruct (H 0) as (b & Eb & _ & B)];
      try (split; [discriminate|reflexivity]); rewrite Eb, (B R); vm_compute; reflexivity.
Defined.
