(* ===== verification/MemJournal.v ===== *)
(** * Journals in memory (memjournal.c)

    The rollback journal that is kept in a list of chunks and moves to a file when it grows.
    Chunks are numbered along their links; the cursors of the code are an offset and the
    number of a chunk, or none for the null pointer.  [None] as a result stands for a null
    pointer that is used.  The real file is the class of the shim, with truncation. *)

From Stdlib Require Import ZArith Lia List Bool.
From S2P Require Import Prelude CodecAlgos CipherCommon Codec Vfs.
Import ListNotations.
Local Open Scope Z_scope.

Definition SQLITE_IOERR_NOMEM : Z := 10 + 12 * 256.

(** What a file promises of the operations that succeed, also when others failed before. *)
Class FaultLaws (F : Type) {O : FileOps F} {L : FileLaws F} := {
  rf_read_done : forall f n o out, 0 <= o -> (0 < n)%nat -> xRead f n o = (SQLITE_OK, out) ->
    (Z.to_nat o + n <= length (rf_bytes f))%nat /\ out = slice (rf_bytes f) (Z.to_nat o) n;
  rf_write_done : forall f d o f', 0 <= o -> xWrite f d o = (SQLITE_OK, f') -> rf_bytes f' = write_at (rf_bytes f) (Z.to_nat o) d }.

#[export] Instance MemFaults : FaultLaws (list Z).
Proof.
  constructor.
  - intros f n o out _ _. cbn. destruct (Nat.leb_spec (Z.to_nat o + n) (length f)) as [H|H]; [|discriminate].
    intros E. injection E as <-. split; [exact H|reflexivity].
  - intros f d o f' _ E. cbn in E |- *. now injection E as <-.
Defined.

(** Truncation of a real file to at most its size. *)
Class TruncateOps (F : Type) := { xTruncate : F -> Z -> Z * F }.
Class TruncateLaws (F : Type) {O : FileOps F} {L : FileLaws F} {T : TruncateOps F} := {
  rf_truncate : forall f n, rf_ok f -> 0 <= n <= Z.of_nat (length (rf_bytes f)) ->
    exists f', xTruncate f n = (SQLITE_OK, f') /\ rf_ok f' /\ rf_bytes f' = firstn (Z.to_nat n) (rf_bytes f);
  rf_truncate_done : forall f n f', 0 <= n <= Z.of_nat (length (rf_bytes f)) -> xTruncate f n = (SQLITE_OK, f') ->
    rf_bytes f' = firstn (Z.to_nat n) (rf_bytes f) }.

#[export] Instance MemTruncate : TruncateOps (list Z) := { xTruncate f n := (SQLITE_OK, firstn (Z.to_nat n) f) }.
#[export] Instance MemTruncateLaws : TruncateLaws (list Z).
Proof.
  constructor.
  - intros f n _ _. exists (firstn (Z.to_nat n) f). split; [reflexivity|]. split; [exact Logic.I|reflexivity].
  - intros f n f' _ E. cbn in E |- *. now injection E as <-.
Defined.

Record FilePoint := mk_point { iOffset : Z; pChunk : option nat }.

Record MemJournal := mk_mem {
  nChunkSize : Z; nSpill : Z; chunks : list (list Z); endpoint : FilePoint; readpoint : FilePoint }.

Definition set_read (r : FilePoint) (p : MemJournal) : MemJournal :=
  mk_mem (nChunkSize p) (nSpill p) (chunks p) (endpoint p) r.

(** The handle is a journal in memory or, later, the real file. *)
Inductive Journal (F : Type) := InMemory (p : MemJournal) | OnDisk (f : F).
Arguments InMemory {F}. Arguments OnDisk {F}.

Definition MEMJOURNAL_DFLT_FILECHUNKSIZE : Z := 1024.

(** ** Reading *)

(** The chunk of an offset, from chunk [i] on, which starts at [iOff]. *)
Fixpoint chunk_at (n iOfst : Z) (l : list (list Z)) (iOff : Z) (i : nat) : option nat :=
  match l with
  | [] => None
  | _ :: l => if iOff + n <=? iOfst then chunk_at n iOfst l (iOff + n) (S i) else Some i
  end.

(** The bytes from the chunks [l], the first of which is chunk [i], and the chunk after them. *)
Fixpoint copy_chunks (n : Z) (l : list (list Z)) (i : nat) (iChunkOffset nRead : Z) : option (list Z * option nat) :=
  match l with
  | [] => None
  | c :: l =>
      let iSpace := n - iChunkOffset in
      let nCopy := Z.min nRead iSpace in
      let out := slice c (Z.to_nat iChunkOffset) (Z.to_nat nCopy) in
      let nRead := nRead - iSpace in
      if nRead >=? 0 then
        match l with
        | [] => Some (out, None)
        | _ :: _ => if nRead >? 0 then let* (rest, r) := copy_chunks n l (S i) 0 nRead in Some (out ++ rest, r)
                    else Some (out, Some (S i))
        end
      else Some (out, Some i)
  end.

Definition memjrnlRead (p : MemJournal) (iAmt iOfst : Z) : option (Z * list Z * MemJournal) :=
  if iAmt + iOfst >? iOffset (endpoint p) then Some (SQLITE_IOERR_SHORT_READ, [], p)
  else
    let n := nChunkSize p in
    let start := if negb (iOffset (readpoint p) =? iOfst) || (iOfst =? 0) then chunk_at n iOfst (chunks p) 0 0
                 else pChunk (readpoint p) in
    let* i := start in
    let* (out, r) := copy_chunks n (skipn i (chunks p)) i (iOfst mod n) iAmt in
    Some (SQLITE_OK, out, set_read (mk_point (match r with Some _ => iOfst + iAmt | None => 0 end) r) p).

(** ** Truncation *)

(** The last chunk that is kept, from chunk [i] on, which ends at [iOff]. *)
Fixpoint last_chunk (n size : Z) (l : list (list Z)) (iOff : Z) (i : nat) : option nat :=
  match l with
  | [] => None
  | _ :: l => if iOff <? size then last_chunk n size l (iOff + n) (S i) else Some i
  end.

Definition memjrnlTruncate (p : MemJournal) (size : Z) : Z * MemJournal :=
  if size <? iOffset (endpoint p) then
    let pIter := if size =? 0 then None else last_chunk (nChunkSize p) size (chunks p) (nChunkSize p) 0 in
    let l := if size =? 0 then [] else match pIter with Some i => firstn (S i) (chunks p) | None => chunks p end in
    (SQLITE_OK, mk_mem (nChunkSize p) (nSpill p) l (mk_point size pIter) (mk_point 0 None))
  else (SQLITE_OK, p).

(** ** Writing *)

Section Write.
Context {F : Type} {Ops : FileOps F}.

(** The content of memory that was just allocated, and the result of opening the real file. *)
Context (junk : nat -> list Z) (real_open : Z * F).

(** One round of the loop needs a chunk, which may be new. *)
Definition write_chunk (p : MemJournal) (ms : list bool) : option (option (nat * list (list Z)) * list bool) :=
  let n := nChunkSize p in
  if iOffset (endpoint p) mod n =? 0 then
    let '(ok, ms) := match ms with [] => (true, []) | b :: ms => (b, ms) end in
    if ok then
      match pChunk (endpoint p) with
      | Some i => Some (Some (S i, firstn (S i) (chunks p) ++ [junk (Z.to_nat n)]), ms)
      | None => Some (Some (0%nat, [junk (Z.to_nat n)]), ms)
      end
    else Some (None, ms)
  else match pChunk (endpoint p) with Some i => Some (Some (i, chunks p), ms) | None => None end.

Fixpoint append_loop (fuel : nat) (p : MemJournal) (zWrite : list Z) (ms : list bool) : option (Z * MemJournal * list bool) :=
  match zWrite, fuel with
  | [], _ => Some (SQLITE_OK, p, ms)
  | _, O => None
  | _, S fuel =>
      let n := nChunkSize p in
      let e := iOffset (endpoint p) in
      let iSpace := Z.to_nat (Z.min (Z.of_nat (length zWrite)) (n - e mod n)) in
      let* (r, ms) := write_chunk p ms in
      match r with
      | None => Some (SQLITE_IOERR_NOMEM, p, ms)
      | Some (i, l) =>
          let l := l.[i <- memcpy (nth i l []) (Z.to_nat (e mod n)) (firstn iSpace zWrite)] in
          append_loop fuel (mk_mem n (nSpill p) l (mk_point (e + Z.of_nat iSpace) (Some i)) (readpoint p)) (skipn iSpace zWrite) ms
      end
  end.

(** The chunks are written to the real file. *)
Fixpoint flush_chunks (l : list (list Z)) (nChunk iOff size : Z) (f : F) : Z * F :=
  match l with
  | [] => (SQLITE_OK, f)
  | c :: l =>
      let nChunk := if iOff + nChunk >? size then size - iOff else nChunk in
      let '(rc, f) := xWrite f (firstn (Z.to_nat nChunk) c) iOff in
      if negb (rc =? SQLITE_OK) then (rc, f) else flush_chunks l nChunk (iOff + nChunk) size f
  end.

Definition memjrnlCreateFile (p : MemJournal) : Z * Journal F :=
  let '(rc, f) := real_open in
  let '(rc, f) := if rc =? SQLITE_OK then flush_chunks (chunks p) (nChunkSize p) 0 (iOffset (endpoint p)) f else (rc, f) in
  if negb (rc =? SQLITE_OK) then (rc, InMemory p) else (rc, OnDisk f).

Definition memjrnlWrite (p : MemJournal) (zBuf : list Z) (iOfst : Z) (ms : list bool) : option (Z * Journal F * list bool) :=
  if (nSpill p >? 0) && (Z.of_nat (length zBuf) + iOfst >? nSpill p) then
    match memjrnlCreateFile p with
    | (rc, OnDisk f) => let '(rc, f) := xWrite f zBuf iOfst in Some (rc, OnDisk f, ms)
    | (rc, j) => Some (rc, j, ms)
    end
  else
    let p := if (iOfst >? 0) && negb (iOfst =? iOffset (endpoint p)) then snd (memjrnlTruncate p iOfst) else p in
    match chunks p with
    | c :: l =>
        if iOfst =? 0
        then Some (SQLITE_OK, InMemory (mk_mem (nChunkSize p) (nSpill p) (memcpy c 0 zBuf :: l) (endpoint p) (readpoint p)), ms)
        else let* (rc, p, ms) := append_loop (length zBuf) p zBuf ms in Some (rc, InMemory p, ms)
    | [] => let* (rc, p, ms) := append_loop (length zBuf) p zBuf ms in Some (rc, InMemory p, ms)
    end.

Definition sqlite3JournalOpen (spill : Z) : Z * Journal F :=
  if spill =? 0 then let '(rc, f) := real_open in (rc, OnDisk f)
  else (SQLITE_OK, InMemory (mk_mem (if spill >? 0 then spill else 8 + MEMJOURNAL_DFLT_FILECHUNKSIZE - 16) spill []
                               (mk_point 0 None) (mk_point 0 None))).

(** The methods of the handle. *)
Definition journal_write (j : Journal F) (zBuf : list Z) (iOfst : Z) (ms : list bool) : option (Z * Journal F * list bool) :=
  match j with
  | InMemory p => memjrnlWrite p zBuf iOfst ms
  | OnDisk f => let '(rc, f) := xWrite f zBuf iOfst in Some (rc, OnDisk f, ms)
  end.
Definition journal_read (j : Journal F) (iAmt iOfst : Z) : option (Z * list Z * Journal F) :=
  match j with
  | InMemory p => let* (rc, out, p) := memjrnlRead p iAmt iOfst in Some (rc, out, InMemory p)
  | OnDisk f => let '(rc, out) := xRead f (Z.to_nat iAmt) iOfst in Some (rc, out, OnDisk f)
  end.
Definition journal_truncate {T : TruncateOps F} (j : Journal F) (size : Z) : Z * Journal F :=
  match j with
  | InMemory p => let '(rc, p) := memjrnlTruncate p size in (rc, InMemory p)
  | OnDisk f => let '(rc, f) := xTruncate f size in (rc, OnDisk f)
  end.
End Write.

(** ** Chunks *)

Definition all_size (n : nat) (l : list (list Z)) : Prop := Forall (fun c => length c = n) l.

Lemma concat_length n l : all_size n l -> length (concat l) = (length l * n)%nat.
Proof. induction 1 as [|c l Hc Hl IH]; [reflexivity|]. cbn [concat length]. rewrite length_app, Hc, IH. lia. Qed.

Lemma all_size_nth n l i : all_size n l -> (i < length l)%nat -> length (nth i l []) = n.
Proof. intros H Hi. unfold all_size in H. rewrite Forall_forall in H. apply H, nth_In, Hi. Qed.

Lemma concat_slice n l : all_size n l -> forall i o k, (i < length l)%nat -> (o + k <= n)%nat ->
  slice (concat l) (i * n + o) k = slice (nth i l []) o k.
Proof.
  induction 1 as [|c l Hc Hl IH]; intros [|i] o k Hi Hk; cbn [length] in Hi; try lia; cbn [concat nth].
  - cbn [Nat.mul Nat.add]. unfold slice. rewrite skipn_app, firstn_app, length_skipn.
    replace (k - (length c - o))%nat with 0%nat by lia. rewrite firstn_O. apply app_nil_r.
  - rewrite <- (IH i o k) by lia. unfold slice. f_equal. cbn [Nat.mul]. rewrite <- Nat.add_assoc. now apply skipn_app_plus.
Qed.

Lemma concat_upd n l : all_size n l -> forall i o d, (i < length l)%nat -> (o + length d <= n)%nat ->
  concat l.[i <- memcpy (nth i l []) o d] = memcpy (concat l) (i * n + o) d.
Proof.
  induction 1 as [|c l Hc Hl IH]; intros [|i] o d Hi Hd; cbn [length] in Hi; try lia; cbn [concat nth upd].
  - cbn [Nat.mul Nat.add]. unfold memcpy. rewrite firstn_app, skipn_app.
    replace (o - length c)%nat with 0%nat by lia. replace (o + length d - length c)%nat with 0%nat by lia.
    rewrite firstn_O, app_nil_r, <- !app_assoc. reflexivity.
  - rewrite IH by lia. unfold memcpy. cbn [Nat.mul]. rewrite <- !Nat.add_assoc.
    rewrite (firstn_app (n + (i * n + o))), (skipn_app_plus c) by exact Hc.
    rewrite (firstn_all2 c) by lia. replace (n + (i * n + o) - length c)%nat with (i * n + o)%nat by lia.
    now rewrite <- app_assoc, Nat.add_assoc.
Qed.

Lemma all_size_upd n l i c : all_size n l -> length c = n -> all_size n l.[i <- c].
Proof. intros H Hc. now apply Forall_upd. Qed.

(** The number of chunks for [e] bytes. *)
Definition needed (n e : Z) : nat := Z.to_nat ((e + n - 1) / n).

Lemma needed_bound n e k : 0 < n -> 0 <= e -> (needed n e <= k)%nat <-> e <= Z.of_nat k * n.
Proof.
  intros Hn He. unfold needed. assert (0 <= (e + n - 1) / n) by (apply Z.div_pos; lia).
  pose proof (Z.div_mod (e + n - 1) n ltac:(lia)). pose proof (Z.mod_pos_bound (e + n - 1) n Hn). split; intros H2.
  - assert ((e + n - 1) / n <= Z.of_nat k) by lia. nia.
  - assert ((e + n - 1) / n < Z.of_nat k + 1) by (apply Z.div_lt_upper_bound; lia). lia.
Qed.

Lemma needed_eq n e k : 0 < n -> (Z.of_nat k - 1) * n < e <= Z.of_nat k * n -> 0 <= e -> needed n e = k.
Proof.
  intros Hn H He. assert (needed n e <= k)%nat by (apply needed_bound; lia).
  destruct k as [|k]; [lia|]. assert (~ (needed n e <= k)%nat) by (rewrite needed_bound; lia). lia.
Qed.

(** A journal in memory in order. *)
Record mem_ok (p : MemJournal) : Prop := mk_mem_ok {
  mo_size : 0 < nChunkSize p;
  mo_chunks : all_size (Z.to_nat (nChunkSize p)) (chunks p);
  mo_end : 0 <= iOffset (endpoint p);
  mo_count : length (chunks p) = needed (nChunkSize p) (iOffset (endpoint p));
  mo_last : pChunk (endpoint p) = match chunks p with [] => None | _ :: l => Some (length l) end;
  mo_spill : 0 < nSpill p -> iOffset (endpoint p) <= nSpill p;
  mo_read : iOffset (readpoint p) = 0 \/
    (0 < iOffset (readpoint p) /\ pChunk (readpoint p) = Some (Z.to_nat (iOffset (readpoint p) / nChunkSize p)) /\
     (Z.to_nat (iOffset (readpoint p) / nChunkSize p) < length (chunks p))%nat) }.

Definition content (p : MemJournal) : list Z := firstn (Z.to_nat (iOffset (endpoint p))) (concat (chunks p)).

Lemma content_fits p : mem_ok p -> (Z.to_nat (iOffset (endpoint p)) <= length (concat (chunks p)))%nat.
Proof.
  intros [Hn Hc He Hk _ _ _]. rewrite (concat_length _ _ Hc).
  assert (iOffset (endpoint p) <= Z.of_nat (length (chunks p)) * nChunkSize p) by (apply needed_bound; lia). nia.
Qed.

Lemma content_length p : mem_ok p -> Z.of_nat (length (content p)) = iOffset (endpoint p).
Proof. intros H. unfold content. rewrite length_firstn. pose proof (content_fits p H). pose proof (mo_end p H). lia. Qed.

(** ** Reading *)

Lemma chunk_at_ok n o : 0 < n -> forall l iOff i, iOff <= o < iOff + Z.of_nat (length l) * n ->
  chunk_at n o l iOff i = Some (i + Z.to_nat ((o - iOff) / n))%nat.
Proof.
  intros Hn. induction l as [|c l IH]; intros iOff i H; cbn [length] in H; [lia|]. cbn [chunk_at].
  destruct (Z.leb_spec (iOff + n) o) as [L|L].
  - rewrite (IH (iOff + n) (S i)) by lia. f_equal.
    replace (o - iOff) with (o - (iOff + n) + 1 * n) by lia. rewrite Z.div_add by lia.
    assert (0 <= (o - (iOff + n)) / n) by (apply Z.div_pos; lia). lia.
  - rewrite Z.div_small by lia. f_equal. lia.
Qed.

Lemma slice_first {A} (a b : list A) o k : (o + k <= length a)%nat -> slice (a ++ b) o k = slice a o k.
Proof.
  intros H. unfold slice. rewrite skipn_app, firstn_app, length_skipn. replace (k - (length a - o))%nat with 0%nat by lia.
  rewrite firstn_O. apply app_nil_r.
Qed.

Lemma slice_both {A} (a b : list A) o k m : (o <= length a)%nat -> k = (length a - o)%nat ->
  slice (a ++ b) o (k + m) = slice a o k ++ slice b 0 m.
Proof.
  intros H ->. unfold slice. rewrite skipn_app, firstn_app, length_skipn. replace (o - length a)%nat with 0%nat by lia.
  f_equal; [rewrite !firstn_all2; rewrite ?length_skipn; auto; lia|]. f_equal. lia.
Qed.

(** The loop copies what the chunks hold, and leaves the cursor at the next byte if there is
    a chunk for it. *)
Lemma copy_chunks_ok n l : 0 < n -> all_size (Z.to_nat n) l -> forall i off k, 0 <= off < n -> 0 < k ->
  off + k <= Z.of_nat (length l) * n ->
  copy_chunks n l i off k = Some (slice (concat l) (Z.to_nat off) (Z.to_nat k),
    if off + k <? Z.of_nat (length l) * n then Some (i + Z.to_nat ((off + k) / n))%nat else None).
Proof.
  intros Hn H. induction H as [|c l Hc Hl IH]; intros i off k Ho Hk Hb; cbn [length] in *; [lia|].
  cbn [copy_chunks concat]. rewrite Z.geb_leb. destruct (Z.leb_spec 0 (k - (n - off))) as [G|G].
  2: { rewrite Z.min_l, slice_first by lia. rewrite (proj2 (Z.ltb_lt (off + k) _)) by nia.
       rewrite Z.div_small by lia. do 3 f_equal. lia. }
  rewrite Z.min_r by lia. destruct l as [|c2 l].
  { cbn [length concat] in *. rewrite (proj2 (Z.ltb_ge (off + k) _)) by lia. replace k with (n - off) by lia.
    rewrite app_nil_r. reflexivity. }
  rewrite Z.gtb_ltb. destruct (Z.ltb_spec 0 (k - (n - off))) as [G'|G'].
  - rewrite (IH (S i) 0 (k - (n - off))) by lia. cbn [length] in *.
    rewrite <- (slice_both c (concat (c2 :: l)) (Z.to_nat off)) by lia. do 2 f_equal; [f_equal; lia|].
    replace (0 + (k - (n - off)) <? Z.of_nat (S (length l)) * n) with (off + k <? Z.of_nat (S (S (length l))) * n)
      by (destruct (Z.ltb_spec (off + k) (Z.of_nat (S (S (length l))) * n)), (Z.ltb_spec (0 + (k - (n - off))) (Z.of_nat (S (length l)) * n)); lia).
    destruct (off + k <? _); [|reflexivity]. f_equal.
    replace (off + k) with (0 + (k - (n - off)) + 1 * n) by lia. rewrite Z.div_add by lia.
    assert (0 <= (0 + (k - (n - off))) / n) by (apply Z.div_pos; lia). lia.
  - cbn [length] in *. rewrite (proj2 (Z.ltb_lt (off + k) _)) by lia. replace (off + k) with n by lia.
    rewrite Z.div_same by lia. rewrite slice_first by lia. do 3 f_equal; [f_equal; lia|lia].
Qed.

Lemma skipn_all_size n l i : all_size n l -> all_size n (skipn i l).
Proof. intros H. apply Forall_forall. intros c Hc. unfold all_size in H. rewrite Forall_forall in H. apply H. rewrite <- (firstn_skipn i l). apply in_or_app. now right. Qed.

Lemma concat_skipn n l i : all_size n l -> (i <= length l)%nat -> concat (skipn i l) = skipn (i * n) (concat l).
Proof.
  intros H. revert i. induction H as [|c l Hc Hl IH]; intros [|i] Hi; cbn [length] in Hi; try lia; try reflexivity.
  cbn [skipn concat Nat.mul]. rewrite IH by lia. symmetry. now apply skipn_app_plus.
Qed.

Lemma content_slice p o k : mem_ok p -> (o + k <= length (content p))%nat -> slice (concat (chunks p)) o k = slice (content p) o k.
Proof.
  intros H Hk. unfold content in *. rewrite length_firstn in Hk. unfold slice.
  rewrite skipn_firstn_comm, firstn_firstn. f_equal. lia.
Qed.

Lemma read_ok p k o : mem_ok p -> 0 < k -> 0 <= o -> o + k <= iOffset (endpoint p) ->
  exists p', memjrnlRead p k o = Some (SQLITE_OK, slice (content p) (Z.to_nat o) (Z.to_nat k), p') /\ mem_ok p' /\ content p' = content p.
Proof.
  intros M Hk Ho Hb. pose proof M as [Hn Hc He Hct Hl Hs Hr]. set (n := nChunkSize p) in *. set (i := Z.to_nat (o / n)).
  assert (Cn : iOffset (endpoint p) <= Z.of_nat (length (chunks p)) * n) by (apply needed_bound; lia).
  pose proof (Z.div_pos o n Ho Hn) as Dp. pose proof (Z.div_mod o n ltac:(lia)) as Dm. pose proof (Z.mod_pos_bound o n Hn) as Mb.
  assert (Hi : (i < length (chunks p))%nat) by (unfold i; nia).
  unfold memjrnlRead. fold n. rewrite Z.gtb_ltb, (proj2 (Z.ltb_ge _ (k + o))) by lia.
  assert (St : (if negb (iOffset (readpoint p) =? o) || (o =? 0) then chunk_at n o (chunks p) 0 0 else pChunk (readpoint p)) = Some i).
  { destruct (Z.eqb_spec (iOffset (readpoint p)) o) as [E|N]; cbn [negb orb]; [destruct (Z.eqb_spec o 0) as [->|N0]|].
    2: { destruct Hr as [Hr|(_ & Hr & _)]; [lia|]. rewrite Hr, E. reflexivity. }
    all: rewrite chunk_at_ok by lia; now rewrite Z.sub_0_r. }
  rewrite St. rewrite (copy_chunks_ok n _ Hn (skipn_all_size _ _ i Hc) i (o mod n) k) by (rewrite ?length_skipn; nia).
  rewrite (concat_skipn _ _ i Hc) by lia.
  assert (Es : slice (skipn (i * Z.to_nat n) (concat (chunks p))) (Z.to_nat (o mod n)) (Z.to_nat k) = slice (content p) (Z.to_nat o) (Z.to_nat k)).
  { rewrite <- content_slice; [|exact M|pose proof (content_length p M); lia]. unfold slice. rewrite skipn_skipn. do 2 f_equal. unfold i. nia. }
  rewrite Es. eexists. split; [reflexivity|]. split; [|reflexivity].
  constructor; try assumption. cbn [set_read readpoint iOffset pChunk nChunkSize chunks]. fold n. rewrite length_skipn.
  destruct (Z.ltb_spec (o mod n + k) (Z.of_nat (length (chunks p) - i) * n)) as [L|L]; [right|now left].
  assert (Ed : (o + k) / n = o / n + (o mod n + k) / n).
  { replace (o + k) with (o mod n + k + o / n * n) by lia. rewrite Z.div_add by lia. lia. }
  assert (0 <= (o mod n + k) / n) by (apply Z.div_pos; lia).
  assert ((o mod n + k) / n < Z.of_nat (length (chunks p) - i)) by (apply Z.div_lt_upper_bound; lia).
  split; [lia|]. rewrite Ed. unfold i in *. split; [f_equal; lia|lia].
Qed.

(** ** Truncation *)

Lemma needed_step n e : 0 < n -> n < e -> needed n e = S (needed n (e - n)).
Proof.
  intros Hn He. unfold needed. replace (e + n - 1) with (e - n + n - 1 + 1 * n) by lia. rewrite Z.div_add by lia.
  assert (0 <= (e - n + n - 1) / n) by (apply Z.div_pos; lia). lia.
Qed.

Lemma needed_one n e : 0 < n -> 0 < e <= n -> needed n e = 1%nat.
Proof. intros Hn He. apply needed_eq; lia. Qed.

(** [s] bytes from the start of chunk [i] on. *)
Lemma last_chunk_ok n : 0 < n -> forall l s size iOff i, s = size - (iOff - n) -> 0 < s <= Z.of_nat (length l) * n ->
  last_chunk n size l iOff i = Some (i + needed n s - 1)%nat /\ (1 <= needed n s)%nat.
Proof.
  intros Hn. induction l as [|c l IH]; intros s size iOff i Es H; cbn [length] in H; [lia|]. cbn [last_chunk].
  destruct (Z.ltb_spec iOff size) as [L|L].
  - destruct (IH (s - n) size (iOff + n) (S i)) as [E N]; [lia|lia|]. rewrite E, (needed_step n s) by lia. split; [f_equal; lia|lia].
  - rewrite needed_one by lia. split; [f_equal; lia|lia].
Qed.

Lemma truncate_ok p size : mem_ok p -> 0 <= size <= iOffset (endpoint p) ->
  exists p', memjrnlTruncate p size = (SQLITE_OK, p') /\ mem_ok p' /\ content p' = firstn (Z.to_nat size) (content p) /\
    iOffset (endpoint p') = size /\ nChunkSize p' = nChunkSize p /\ nSpill p' = nSpill p.
Proof.
  intros M H. pose proof M as [Hn Hc He Hct Hl Hs Hr]. unfold memjrnlTruncate.
  destruct (Z.ltb_spec size (iOffset (endpoint p))) as [L|L].
  2: { exists p. split; [reflexivity|]. split; [exact M|]. split; [|lia].
       pose proof (content_length p M). rewrite firstn_all2 by lia. reflexivity. }
  eexists. split; [reflexivity|]. destruct (Z.eqb_spec size 0) as [->|N0].
  { split; [|auto 6]. constructor; cbn [nChunkSize nSpill chunks endpoint readpoint iOffset pChunk]; auto using Forall_nil; try lia.
    - apply Forall_nil.
    - symmetry. apply needed_eq; cbn [length]; lia. }
  assert (Cn : iOffset (endpoint p) <= Z.of_nat (length (chunks p)) * nChunkSize p) by (apply needed_bound; lia).
  destruct (last_chunk_ok (nChunkSize p) Hn (chunks p) size size (nChunkSize p) 0) as [E N1]; [lia|lia|]. rewrite E.
  cbn [Nat.add]. set (m := needed (nChunkSize p) size) in *.
  assert (Lm : (m <= length (chunks p))%nat) by (apply needed_bound; lia).
  replace (S (m - 1)) with m by lia.
  assert (Lf : length (firstn m (chunks p)) = m) by (rewrite length_firstn; lia). split; [|split; [|auto]].
  - constructor; cbn [nChunkSize nSpill chunks endpoint readpoint iOffset pChunk]; try lia.
    + apply Forall_forall. intros c Hin. unfold all_size in Hc. rewrite Forall_forall in Hc. apply Hc.
      rewrite <- (firstn_skipn m (chunks p)). apply in_or_app. now left.
    + destruct (firstn m (chunks p)) as [|c l] eqn:El; cbn [length] in Lf; [lia|]. f_equal. lia.
  - unfold content. cbn [chunks endpoint iOffset]. rewrite firstn_firstn.
    replace (Nat.min (Z.to_nat size) (Z.to_nat (iOffset (endpoint p)))) with (Z.to_nat size) by lia.
    rewrite <- (firstn_skipn m (chunks p)) at 2. rewrite concat_app, firstn_app.
    assert (Hm : all_size (Z.to_nat (nChunkSize p)) (firstn m (chunks p))).
    { apply Forall_forall. intros c Hin. unfold all_size in Hc. rewrite Forall_forall in Hc. apply Hc.
      rewrite <- (firstn_skipn m (chunks p)). apply in_or_app. now left. }
    rewrite (concat_length _ _ Hm), Lf. assert (size <= Z.of_nat m * nChunkSize p) by (apply needed_bound; lia).
    replace (Z.to_nat size - m * Z.to_nat (nChunkSize p))%nat with 0%nat by nia. rewrite firstn_O. now rewrite app_nil_r.
Qed.

(** ** Writing *)

Section WriteProofs.
Context {F : Type} {Ops : FileOps F} {Laws : FileLaws F} {Faults : FaultLaws F} (junk : nat -> list Z) (Hj : forall k, length (junk k) = k).

(** The chunk of the next byte, which may be new. *)
Lemma write_chunk_ok p ms : mem_ok p -> let n := nChunkSize p in let e := iOffset (endpoint p) in
  exists r ms', write_chunk junk p ms = Some (r, ms') /\ (ms = [] -> r <> None /\ ms' = []) /\
    forall i l, r = Some (i, l) -> i = Z.to_nat (e / n) /\ length l = S i /\ all_size (Z.to_nat n) l /\
      firstn (Z.to_nat e) (concat l) = content p.
Proof.
  intros M n e. pose proof M as [Hn Hc He Hct Hl Hs Hr]. fold n in Hn, Hc, Hct, Hr. fold e in He, Hct, Hs.
  pose proof (Z.div_mod e n ltac:(lia)) as Dm. pose proof (Z.mod_pos_bound e n Hn) as Mb. pose proof (Z.div_pos e n He Hn) as Dp.
  unfold write_chunk. fold n e. destruct (Z.eqb_spec (e mod n) 0) as [E0|N0].
  - assert (Lc : length (chunks p) = Z.to_nat (e / n)) by (rewrite Hct; apply needed_eq; nia).
    assert (New : forall i l, i = length (chunks p) -> l = chunks p ++ [junk (Z.to_nat n)] ->
      i = Z.to_nat (e / n) /\ length l = S i /\ all_size (Z.to_nat n) l /\ firstn (Z.to_nat e) (concat l) = content p).
    { intros i l -> ->. split; [exact Lc|]. split; [rewrite length_app; cbn; lia|].
      split; [apply Forall_app; split; [exact Hc|repeat constructor; apply Hj]|].
      rewrite concat_app, firstn_app. pose proof (content_fits p M) as Fi. fold e in Fi.
      replace (Z.to_nat e - length (concat (chunks p)))%nat with 0%nat by lia. rewrite firstn_O. apply app_nil_r. }
    assert (Pm : forall ms0 : list bool, match pChunk (endpoint p) with
        | Some i => Some (Some (S i, firstn (S i) (chunks p) ++ [junk (Z.to_nat n)]), ms0)
        | None => Some (Some (0%nat, [junk (Z.to_nat n)]), ms0)
        end = Some (Some (length (chunks p), chunks p ++ [junk (Z.to_nat n)]), ms0)).
    { intros ms0. rewrite Hl. destruct (chunks p) as [|c l]; [reflexivity|]. now rewrite firstn_all2 by (cbn; lia). }
    destruct ms as [|[] ms0]; cbn iota beta; rewrite ?Pm.
    1, 2: do 2 eexists; (split; [reflexivity|]); (split; [intros Hm; first [discriminate Hm|split; [discriminate|reflexivity]]|]);
      intros i l [= <- <-]; now apply New.
    exists None, ms0. split; [reflexivity|]. split; [discriminate|]. discriminate.
  - assert (Lc : length (chunks p) = S (Z.to_nat (e / n))) by (rewrite Hct; apply needed_eq; nia).
    rewrite Hl. destruct (chunks p) as [|c l] eqn:Ec; [discriminate Lc|]. do 2 eexists. split; [reflexivity|].
    split; [intros ->; split; [discriminate|reflexivity]|]. intros i l0 [= <- <-]. cbn [length] in *.
    split; [lia|]. split; [lia|]. split; [exact Hc|]. unfold content. fold e. now rewrite Ec.
Qed.

(** The loop appends, chunk by chunk; without memory it stops early. *)
Lemma append_ok fuel : forall p d ms, mem_ok p -> (length d <= fuel)%nat ->
  (0 < nSpill p -> iOffset (endpoint p) + Z.of_nat (length d) <= nSpill p) ->
  exists rc p' ms' d1 d2, append_loop junk fuel p d ms = Some (rc, p', ms') /\ mem_ok p' /\ d = d1 ++ d2 /\
    content p' = content p ++ d1 /\ (rc = SQLITE_OK /\ d2 = [] \/ rc = SQLITE_IOERR_NOMEM /\ d2 <> []) /\ (ms = [] -> rc = SQLITE_OK /\ ms' = []) /\
    nChunkSize p' = nChunkSize p /\ nSpill p' = nSpill p.
Proof.
  induction fuel as [|fuel IH]; intros p d ms M Hf Hs.
  { destruct d; [|cbn in Hf; lia]. exists SQLITE_OK, p, ms, [], []. cbn. rewrite app_nil_r. auto 10. }
  destruct d as [|b d']; [exists SQLITE_OK, p, ms, [], []; cbn; rewrite app_nil_r; auto 10|]. set (d := b :: d') in *.
  assert (Ld : (1 <= length d)%nat) by (cbn; lia). cbn [append_loop].
  set (n := nChunkSize p). set (e := iOffset (endpoint p)) in *.
  destruct (write_chunk_ok p ms M) as (r & ms1 & Ew & Em & Er). fold n e in Er.
  pose proof (mo_size p M) as Hn. fold n in Hn. pose proof (mo_end p M) as He. fold e in He.
  pose proof (Z.div_mod e n ltac:(lia)) as Dm. pose proof (Z.mod_pos_bound e n Hn) as Mb. pose proof (Z.div_pos e n He Hn) as Dp.
  unfold d at 1. fold d. rewrite Ew. destruct r as [[i l]|].
  2: { exists SQLITE_IOERR_NOMEM, p, ms1, [], d. split; [reflexivity|]. split; [exact M|]. split; [reflexivity|].
       split; [now rewrite app_nil_r|]. split; [now right|]. split; [intros Hm; now destruct (Em Hm)|auto]. }
  destruct (Er i l eq_refl) as (Ei & Ll & Al & Fl). set (s := Z.to_nat (Z.min (Z.of_nat (length d)) (n - e mod n))).
  assert (Hs1 : (1 <= s <= length d)%nat /\ Z.of_nat s <= n - e mod n) by (unfold s; lia).
  set (l' := l.[i <- memcpy (nth i l []) (Z.to_nat (e mod n)) (firstn s d)]).
  set (p1 := mk_mem n (nSpill p) l' (mk_point (e + Z.of_nat s) (Some i)) (readpoint p)).
  assert (Lf : length (firstn s d) = s) by (rewrite length_firstn; lia).
  assert (Ll' : length l' = S i) by (unfold l'; now rewrite length_upd).
  assert (Cl : concat l' = memcpy (concat l) (Z.to_nat e) (firstn s d)).
  { unfold l'. rewrite (concat_upd _ l Al) by lia. f_equal. nia. }
  assert (Fp : firstn (Z.to_nat (e + Z.of_nat s)) (concat l') = content p ++ firstn s d).
  { rewrite Cl, <- Fl. assert (Le : (Z.to_nat e <= length (concat l))%nat) by (rewrite (concat_length _ _ Al), Ll; nia).
    unfold memcpy. rewrite app_assoc. apply firstn_app_l. rewrite length_app, length_firstn, Lf. lia. }
  destruct (IH p1 (skipn s d) ms1) as (rc & p' & ms' & d1 & d2 & E & M' & Ed & Cd & Rc & Mm & N1 & N2).
  - unfold p1. constructor; cbn [nChunkSize nSpill chunks endpoint readpoint iOffset pChunk]; try lia.
    + apply all_size_upd; [exact Al|]. rewrite length_memcpy; rewrite (all_size_nth _ _ _ Al); lia.
    + rewrite Ll'. symmetry. apply needed_eq; nia.
    + destruct l' as [|c l0]; cbn [length] in Ll'; [discriminate|]. f_equal. lia.
    + destruct (mo_read p M) as [Hr|(Hr1 & Hr2 & Hr3)]; [now left|right]. fold n in Hr2, Hr3. split; [exact Hr1|]. split; [exact Hr2|].
      rewrite Ll', Ei. rewrite (mo_count p M) in Hr3. fold n e in Hr3. apply (Nat.lt_le_trans _ _ _ Hr3), needed_bound; nia.
  - rewrite length_skipn. lia.
  - cbn [p1 nSpill endpoint iOffset]. rewrite length_skipn. lia.
  - exists rc, p', ms', (firstn s d ++ d1), d2. split; [exact E|]. split; [exact M'|].
    split; [rewrite <- app_assoc, <- Ed; symmetry; apply firstn_skipn|].
    split; [rewrite Cd; unfold content at 1; cbn [p1 endpoint iOffset chunks]; now rewrite Fp, app_assoc|].
    split; [exact Rc|]. split; [intros Hm; apply Mm; now destruct (Em Hm)|]. auto.
Qed.

(** Writes at the end, and writes that reach the end. *)
Lemma write_at_reach (l : list Z) o d : (o <= length l)%nat -> (length l <= o + length d)%nat -> write_at l o d = firstn o l ++ d.
Proof.
  intros H1 H2. unfold write_at, memcpy. replace (o - length l)%nat with 0%nat by lia. cbn [repeat]. rewrite app_nil_r.
  rewrite (skipn_all2 l) by lia. now rewrite app_nil_r.
Qed.

Lemma write_at_end (l d : list Z) : write_at l (length l) d = l ++ d.
Proof. rewrite write_at_reach by lia. now rewrite firstn_all. Qed.

(** The chunks follow one another in the file. *)
Lemma flush_ok n size l : 0 < n -> all_size (Z.to_nat n) l -> forall iOff f, Z.of_nat (length (rf_bytes f)) = iOff ->
  0 <= size - iOff -> length l = needed n (size - iOff) ->
  exists rc f', flush_chunks l n iOff size f = (rc, f') /\ (rf_ok f -> rc = SQLITE_OK /\ rf_ok f') /\
    (rc = SQLITE_OK -> rf_bytes f' = rf_bytes f ++ firstn (Z.to_nat (size - iOff)) (concat l)).
Proof.
  intros Hn H. induction H as [|c l Hc Hl IH]; intros iOff f Lf Hs Ll; cbn [flush_chunks concat length] in *.
  { exists SQLITE_OK, f. rewrite firstn_nil, app_nil_r. auto. }
  assert (B : size - iOff <= Z.of_nat (S (length l)) * n) by (apply needed_bound; lia).
  assert (B2 : ~ (needed n (size - iOff) <= length l)%nat) by lia. rewrite needed_bound in B2 by lia.
  set (w := if iOff + n >? size then size - iOff else n).
  assert (Hw : w = Z.min n (size - iOff)) by (unfold w; rewrite Z.gtb_ltb; destruct (Z.ltb_spec size (iOff + n)); lia).
  destruct (xWrite f (firstn (Z.to_nat w) c) iOff) as [rc1 f1] eqn:E1.
  assert (Ok : rf_ok f -> rc1 = SQLITE_OK /\ rf_ok f1)
    by (intros Of; destruct (rf_write f (firstn (Z.to_nat w) c) iOff Of ltac:(lia)) as (f2 & E2 & O2 & _); rewrite E1 in E2; now injection E2 as -> ->).
  destruct (Z.eqb_spec rc1 SQLITE_OK) as [->|N]; cbn [negb].
  2: { exists rc1, f1. split; [reflexivity|]. split; [exact Ok|]. intros E; contradiction. }
  pose proof (rf_write_done f _ iOff f1 ltac:(lia) E1) as B1.
  replace (Z.to_nat iOff) with (length (rf_bytes f)) in B1 by lia. rewrite write_at_end in B1.
  destruct l as [|c2 l].
  - cbn [length] in *. exists SQLITE_OK, f1. cbn [flush_chunks concat]. split; [reflexivity|]. split; [exact Ok|]. intros _.
    rewrite B1, app_nil_r. do 2 f_equal. lia.
  - assert (w = n) by (cbn [length] in B2; nia).
    assert (Lw : length (firstn (Z.to_nat w) c) = Z.to_nat n) by (rewrite length_firstn; lia).
    destruct (IH (iOff + w) f1) as (rc & f' & E & O' & B').
    + rewrite B1, length_app, Lw. lia.
    + cbn [length] in B2. nia.
    + replace (size - (iOff + w)) with (size - iOff - n) by lia. rewrite (needed_step n (size - iOff)) in Ll by (cbn [length] in B2; nia). lia.
    + subst w. rewrite H in *. exists rc, f'. split; [exact E|]. split; [intros Of; apply O', Ok, Of|]. intros Er.
      rewrite (B' Er), B1, <- app_assoc. f_equal.
      rewrite (firstn_all2 c) by lia. rewrite (firstn_app (Z.to_nat (size - iOff)) c), (firstn_all2 c) by (cbn [length] in B2; nia).
      do 2 f_equal. cbn [length] in B2. nia.
Qed.

(** The move to the real file.  If the file cannot be opened or written, the journal stays in
    memory as it was. *)
Lemma create_ok p r : mem_ok p -> rf_bytes (snd r) = [] ->
  exists rc j, memjrnlCreateFile r p = (rc, j) /\ (fst r = SQLITE_OK -> rf_ok (snd r) -> rc = SQLITE_OK) /\
    (rc <> SQLITE_OK -> j = InMemory p) /\
    (rc = SQLITE_OK -> exists f, j = OnDisk f /\ rf_bytes f = content p /\ (rf_ok (snd r) -> rf_ok f)).
Proof.
  intros M B0. pose proof (mo_count p M) as Ct. unfold memjrnlCreateFile. destruct r as [rc0 f0]. cbn [fst snd] in *.
  destruct (flush_ok (nChunkSize p) (iOffset (endpoint p)) (chunks p) (mo_size p M) (mo_chunks p M) 0 f0) as (rc & f & E & O1 & B1).
  - now rewrite B0.
  - pose proof (mo_end p M). lia.
  - now rewrite Z.sub_0_r.
  - rewrite B0, Z.sub_0_r in B1. destruct (Z.eqb_spec rc0 SQLITE_OK) as [->|N0].
    + rewrite E. destruct (Z.eqb_spec rc SQLITE_OK) as [->|N]; cbn [negb]; do 2 eexists; (split; [reflexivity|]).
      * split; [auto|]. split; [intros K; contradiction|]. intros _. exists f. split; [reflexivity|]. split; [now apply B1|]. intros O0. now apply O1.
      * split; [intros _ O0; now apply O1|]. split; [reflexivity|]. intros K. contradiction.
    + rewrite (proj2 (Z.eqb_neq _ _) N0). cbn [negb]. do 2 eexists. split; [reflexivity|].
      split; [intros K; contradiction|]. split; [reflexivity|]. intros K. contradiction.
Qed.

(** The writes that the journal is made for: at the end, from a place before the end up to or
    beyond it, or over the start within the first chunk. *)
Definition write_allowed (n : Z) (view d : list Z) (o : nat) : Prop :=
  ((0 < o)%nat \/ view = []) /\ (o <= length view <= o + length d)%nat \/ (o = 0%nat /\ (length d <= length view)%nat /\ Z.of_nat (length d) < n).

Lemma append_write p d ms : mem_ok p -> (0 < nSpill p -> iOffset (endpoint p) + Z.of_nat (length d) <= nSpill p) ->
  exists rc p' ms', append_loop junk (length d) p d ms = Some (rc, p', ms') /\ mem_ok p' /\ nChunkSize p' = nChunkSize p /\
    (rc = SQLITE_OK -> content p' = content p ++ d) /\
    (rc <> SQLITE_OK -> rc = SQLITE_IOERR_NOMEM /\ exists k, (k < length d)%nat /\ content p' = content p ++ firstn k d) /\
    (ms = [] -> rc = SQLITE_OK).
Proof.
  intros M Sp. destruct (append_ok (length d) p d ms M) as (rc & p' & ms' & d1 & d2 & E & M' & Ed & Cd & Rc & Mm & N1 & _); [lia|exact Sp|].
  exists rc, p', ms'. split; [exact E|]. split; [exact M'|]. split; [exact N1|]. destruct Rc as [[-> ->]|[-> N2]].
  - rewrite app_nil_r in Ed. subst d1. split; [auto|]. split; [intros K; contradiction|auto].
  - split; [discriminate|]. split; [|intros Hm; now destruct (Mm Hm)]. intros _. split; [reflexivity|]. exists (length d1).
    rewrite Cd, Ed, firstn_app_l by reflexivity. split; [|reflexivity]. rewrite length_app. destruct d2; [contradiction|cbn; lia].
Qed.

(** A write over the start of the first chunk. *)
Lemma header_write p c l d : mem_ok p -> chunks p = c :: l -> (length d <= length (content p))%nat ->
  Z.of_nat (length d) < nChunkSize p ->
  let p' := mk_mem (nChunkSize p) (nSpill p) (memcpy c 0 d :: l) (endpoint p) (readpoint p) in
  mem_ok p' /\ content p' = write_at (content p) 0 d.
Proof.
  intros M Ec Hd Hn p'. pose proof M as [H1 H2 H3 H4 H5 H6 H7]. pose proof (content_fits p M) as Fi. rewrite Ec in *.
  apply Forall_cons_iff in H2 as [Hc Hl].
  assert (Lm : length (memcpy c 0 d) = length c) by (rewrite length_memcpy; lia). split.
  - unfold p'. constructor; cbn [nChunkSize nSpill chunks endpoint readpoint]; try assumption. constructor; [now rewrite Lm|exact Hl].
  - assert (Cc : concat (memcpy c 0 d :: l) = memcpy (concat (c :: l)) 0 d)
      by (apply (concat_upd (Z.to_nat (nChunkSize p)) (c :: l) (Forall_cons _ Hc Hl) 0 0 d); cbn [length]; lia).
    unfold content in *. rewrite Ec in *. cbn [p' endpoint chunks]. rewrite Cc. set (X := concat (c :: l)) in *.
    rewrite length_firstn in Hd. unfold write_at. cbn [Nat.sub repeat]. rewrite app_nil_r. unfold memcpy. cbn [firstn app Nat.add].
    rewrite firstn_app, (firstn_all2 d) by lia. f_equal. now rewrite skipn_firstn_comm.
Qed.

(** ** Journals as files *)

Definition journal_ok (n : Z) (j : Journal F) : Prop :=
  match j with InMemory p => mem_ok p /\ nChunkSize p = n | OnDisk _ => True end.
Definition view (j : Journal F) : list Z := match j with InMemory p => content p | OnDisk f => rf_bytes f end.

(** The real file, once there is one, does not fail. *)
Definition sound (j : Journal F) : Prop := match j with InMemory _ => True | OnDisk f => rf_ok f end.

(** A write that succeeds has written.  One that fails leaves a journal in memory as it was,
    or without memory with a first part of the data at its place; or it is the write of the
    real file, which holds what the journal held, that failed. *)
Definition written (j : Journal F) (o : nat) (d : list Z) (rc : Z) (j' : Journal F) : Prop :=
  (rc = SQLITE_OK -> view j' = write_at (view j) o d) /\
  (rc <> SQLITE_OK ->
    match j' with
    | InMemory _ => j' = j \/ rc = SQLITE_IOERR_NOMEM /\ exists k, (k < length d)%nat /\ view j' = firstn o (view j) ++ firstn k d
    | OnDisk f' => exists f, rf_bytes f = view j /\ xWrite f d (Z.of_nat o) = (rc, f')
    end).

(** The real file, with [rc] and [f'] from writing to it. *)
Lemma disk_write j f d o rc f' : rf_bytes f = view j -> xWrite f d (Z.of_nat o) = (rc, f') ->
  written j o d rc (OnDisk f') /\ (rf_ok f -> rc = SQLITE_OK /\ rf_ok f').
Proof.
  intros B E. split; [split|].
  - intros ->. cbn [view]. rewrite (rf_write_done f d (Z.of_nat o) f' ltac:(lia) E), Nat2Z.id. now rewrite B.
  - intros _. now exists f.
  - intros O. destruct (rf_write f d (Z.of_nat o) O ltac:(lia)) as (f2 & E2 & O2 & _). rewrite E in E2. now injection E2 as -> ->.
Qed.

(** Appending to [q], which is the journal cut at [o]. *)
Lemma cut_write n p q d o ms : mem_ok q -> nChunkSize q = n -> (0 < nSpill q -> iOffset (endpoint q) + Z.of_nat (length d) <= nSpill q) ->
  content q = firstn o (content p) -> (o <= length (content p) <= o + length d)%nat ->
  exists rc j' ms', (let* (rc, p, ms) := append_loop junk (length d) q d ms in Some (rc, InMemory (F := F) p, ms)) = Some (rc, j', ms') /\
    journal_ok n j' /\ written (InMemory p) o d rc j' /\ (ms = [] -> rc = SQLITE_OK /\ sound j').
Proof.
  intros M En Sp Cq Ho. destruct (append_write q d ms M Sp) as (rc & p' & ms' & E & M' & N' & Ok & Bad & Mm). rewrite E.
  exists rc, (InMemory p'), ms'. split; [reflexivity|]. split; [split; [exact M'|congruence]|]. split; [|cbn; auto]. unfold written. cbn [view]. split.
  - intros Er. rewrite (Ok Er), Cq. symmetry. apply write_at_reach; lia.
  - intros Er. destruct (Bad Er) as [-> (k & Hk & Ck)]. right. split; [reflexivity|]. exists k. rewrite Ck, Cq. auto.
Qed.

Lemma empty_content p : mem_ok p -> chunks p = [] <-> content p = [].
Proof.
  intros M. pose proof (content_length p M) as Lc. pose proof (mo_count p M) as Ct. pose proof (mo_size p M) as Hn. pose proof (mo_end p M) as He.
  split; intros E; rewrite E in *; cbn [length] in *.
  - assert (iOffset (endpoint p) <= Z.of_nat 0 * nChunkSize p) by (apply needed_bound; lia). destruct (content p); [reflexivity|cbn [length] in Lc; lia].
  - rewrite (needed_eq _ _ 0) in Ct by lia. now destruct (chunks p).
Qed.

(** A write to a journal in memory that stays there. *)
Lemma memory_write n p d o ms : mem_ok p -> nChunkSize p = n -> write_allowed n (content p) d o ->
  (0 < nSpill p -> Z.of_nat (length d) + Z.of_nat o <= nSpill p) ->
  let q := if (Z.of_nat o >? 0) && negb (Z.of_nat o =? iOffset (endpoint p)) then snd (memjrnlTruncate p (Z.of_nat o)) else p in
  exists rc j' ms', match chunks q with
    | c :: l =>
        if Z.of_nat o =? 0
        then Some (SQLITE_OK, InMemory (F := F) (mk_mem (nChunkSize q) (nSpill q) (memcpy c 0 d :: l) (endpoint q) (readpoint q)), ms)
        else let* (rc, p, ms) := append_loop junk (length d) q d ms in Some (rc, InMemory p, ms)
    | [] => let* (rc, p, ms) := append_loop junk (length d) q d ms in Some (rc, InMemory p, ms)
    end = Some (rc, j', ms') /\
    journal_ok n j' /\ written (InMemory p) o d rc j' /\ (ms = [] -> rc = SQLITE_OK /\ sound j').
Proof.
  intros M En W Sp q. pose proof (content_length p M) as Lc. destruct (Nat.eq_dec o 0) as [->|No].
  - assert (q = p) as -> by reflexivity. destruct (chunks p) as [|c l] eqn:Ec.
    + apply (empty_content p M) in Ec. rewrite Ec in *. cbn [length] in *. apply cut_write; auto; rewrite ?Ec; cbn [length firstn]; lia || reflexivity.
    + assert (Wd : (length d <= length (content p))%nat /\ Z.of_nat (length d) < nChunkSize p).
      { destruct W as [[[W|W] _]|(_ & W1 & W2)]; [lia| |rewrite En; auto]. apply (empty_content p M) in W. congruence. }
      destruct (header_write p c l d M Ec (proj1 Wd) (proj2 Wd)) as [M' C']. do 3 eexists. split; [reflexivity|].
      split; [split; [exact M'|exact En]|]. split; [|cbn; auto]. split; [intros _; exact C'|intros K; contradiction].
  - assert (W1 : (o <= length (content p) <= o + length d)%nat) by (destruct W as [[_ W]|[W _]]; [exact W|lia]).
    destruct (truncate_ok p (Z.of_nat o) M ltac:(lia)) as (t & Et & Mt & Ct & It & Nt & St).
    assert (Q : mem_ok q /\ nChunkSize q = n /\ nSpill q = nSpill p /\ iOffset (endpoint q) = Z.of_nat o /\ content q = firstn o (content p)).
    { unfold q. rewrite Z.gtb_ltb, (proj2 (Z.ltb_lt 0 (Z.of_nat o))), Et by lia. cbn [andb snd].
      destruct (Z.eqb_spec (Z.of_nat o) (iOffset (endpoint p))) as [E|_]; cbn [negb].
      - rewrite firstn_all2 by lia. auto 6.
      - rewrite Ct, Nat2Z.id. split; [exact Mt|]. split; [congruence|]. auto. }
    destruct Q as (Q1 & Q2 & Q3 & Q4 & Q5). rewrite (proj2 (Z.eqb_neq (Z.of_nat o) 0)) by lia.
    destruct (chunks q); apply cut_write; auto; rewrite Q3, Q4; lia.
Qed.

Lemma write_ok n r j d o ms : journal_ok n j -> rf_bytes (snd r) = [] -> write_allowed n (view j) d o ->
  exists rc j' ms', journal_write junk r j d (Z.of_nat o) ms = Some (rc, j', ms') /\ journal_ok n j' /\ written j o d rc j' /\
    (fst r = SQLITE_OK -> rf_ok (snd r) -> ms = [] -> sound j -> rc = SQLITE_OK /\ sound j').
Proof.
  intros J B0 W. destruct j as [p|f]; cbn [journal_write view journal_ok] in *.
  2: { destruct (xWrite f d (Z.of_nat o)) as [rc f'] eqn:E. destruct (disk_write (OnDisk f) f d o rc f' eq_refl E) as [Wr S].
       exists rc, (OnDisk f'), ms. cbn [journal_ok sound]. auto 6. }
  destruct J as [M En]. unfold memjrnlWrite.
  destruct ((nSpill p >? 0) && (Z.of_nat (length d) + Z.of_nat o >? nSpill p)) eqn:Sp.
  - destruct (create_ok p r M B0) as (rc & j & E & Ok & Bad & Good). rewrite E. destruct (Z.eq_dec rc SQLITE_OK) as [->|N].
    + destruct (Good eq_refl) as (f & -> & Bf & Of). destruct (xWrite f d (Z.of_nat o)) as [rc f'] eqn:Ew.
      destruct (disk_write (InMemory p) f d o rc f' Bf Ew) as [Wr S]. exists rc, (OnDisk f'), ms. cbn [journal_ok sound]. auto 7.
    + rewrite (Bad N). exists rc, (InMemory p), ms. cbn [journal_ok]. split; [reflexivity|]. split; [auto|].
      split; [split; [intros K; contradiction|now left]|]. intros H1 H2. now specialize (Ok H1 H2).
  - destruct (memory_write n p d o ms M En W) as (rc & j' & ms' & E & J' & Wr & S); [apply andb_false_iff in Sp; lia|].
    exists rc, j', ms'. auto 6.
Qed.

Context {Tr : TruncateOps F} {TrLaws : TruncateLaws F}.

(** What the pager does with a journal, and what the system answers meanwhile: the result of
    opening the real file, and of each allocation (all those not listed succeed). *)
Inductive JournalOp := JWrite (o : nat) (d : list Z) | JRead (o k : nat) | JTruncate (size : nat).
Record System := mk_system { real : Z * F; mallocs : list bool }.

Definition perform (s : System) (j : Journal F) (op : JournalOp) : option (Z * list Z * Journal F) :=
  match op with
  | JWrite o d => let* (rc, j, _) := journal_write junk (real s) j d (Z.of_nat o) (mallocs s) in Some (rc, [], j)
  | JRead o k => journal_read j (Z.of_nat k) (Z.of_nat o)
  | JTruncate size => let '(rc, j) := journal_truncate j (Z.of_nat size) in Some (rc, [], j)
  end.

(** Reads may reach beyond the end. *)
Definition op_asked (n : Z) (l : list Z) (op : JournalOp) : Prop :=
  match op with
  | JWrite o d => write_allowed n l d o
  | JRead _ k => (0 < k)%nat
  | JTruncate size => (size <= length l)%nat
  end.
Definition inside (l : list Z) (op : JournalOp) : Prop := match op with JRead o k => (o + k <= length l)%nat | _ => True end.

(** The answer to an operation, with the errors. *)
Definition answered (j : Journal F) (op : JournalOp) (rc : Z) (out : list Z) (j' : Journal F) : Prop :=
  match op, j with
  | JWrite o d, _ => written j o d rc j'
  | JRead o k, InMemory _ =>
      view j' = view j /\ (exists p, j' = InMemory p) /\
      if (o + k <=? length (view j))%nat then rc = SQLITE_OK /\ out = slice (view j) o k else rc = SQLITE_IOERR_SHORT_READ
  | JRead o k, OnDisk _ => j' = j /\ (rc = SQLITE_OK -> (o + k <= length (view j))%nat /\ out = slice (view j) o k)
  | JTruncate size, InMemory _ => rc = SQLITE_OK /\ view j' = firstn size (view j) /\ exists p, j' = InMemory p
  | JTruncate size, OnDisk _ => rc = SQLITE_OK -> view j' = firstn size (view j)
  end.

(** The journals of a connection: from the opening on, whatever succeeds and fails. *)
Definition chunk_size (spill : Z) : Z := if spill >? 0 then spill else 8 + MEMJOURNAL_DFLT_FILECHUNKSIZE - 16.

Inductive reached (spill : Z) : Journal F -> Prop :=
| reached_open s j : rf_bytes (snd (real s)) = [] -> sqlite3JournalOpen (real s) spill = (SQLITE_OK, j) -> reached spill j
| reached_step s j op rc out j' : reached spill j -> rf_bytes (snd (real s)) = [] -> op_asked (chunk_size spill) (view j) op ->
    perform s j op = Some (rc, out, j') -> reached spill j'.

(** A file of bytes, while nothing fails. *)
Definition works (s : System) : Prop := fst (real s) = SQLITE_OK /\ rf_ok (snd (real s)) /\ mallocs s = [].

Definition op_bytes (l : list Z) (op : JournalOp) : list Z :=
  match op with JWrite o d => write_at l o d | JRead _ _ => l | JTruncate size => firstn size l end.
Definition op_result (l : list Z) (op : JournalOp) : Z * list Z :=
  (SQLITE_OK, match op with JRead o k => slice l o k | _ => [] end).

Fixpoint perform_all (j : Journal F) (ops : list (System * JournalOp)) : option (list (Z * list Z) * Journal F) :=
  match ops with
  | [] => Some ([], j)
  | (s, op) :: ops =>
      let* (rc, out, j) := perform s j op in
      let* (outs, j) := perform_all j ops in
      Some ((rc, out) :: outs, j)
  end.
Fixpoint ops_allowed (n : Z) (l : list Z) (ops : list (System * JournalOp)) : Prop :=
  match ops with
  | [] => True
  | (s, op) :: ops =>
      works s /\ rf_bytes (snd (real s)) = [] /\ op_asked n l op /\ inside l op /\ ops_allowed n (op_bytes l op) ops
  end.
Fixpoint ops_results (l : list Z) (ops : list JournalOp) : list (Z * list Z) :=
  match ops with [] => [] | op :: ops => op_result l op :: ops_results (op_bytes l op) ops end.

Lemma read_keeps_size p k o rc out p' : memjrnlRead p k o = Some (rc, out, p') -> nChunkSize p' = nChunkSize p.
Proof.
  unfold memjrnlRead. destruct (_ >? _); [intros [= _ _ <-]; reflexivity|].
  destruct (if negb (iOffset (readpoint p) =? o) || (o =? 0) then _ else _) as [i|]; [|discriminate].
  destruct (copy_chunks _ _ _ _ _) as [[? ?]|]; [|discriminate]. intros [= _ _ <-]. reflexivity.
Qed.

Lemma journal_step n s j op : journal_ok n j -> rf_bytes (snd (real s)) = [] -> op_asked n (view j) op ->
  exists rc out j', perform s j op = Some (rc, out, j') /\ journal_ok n j' /\ answered j op rc out j'.
Proof.
  intros J B0 A. destruct op as [o d|o k|size]; cbn [perform op_asked answered] in *.
  - destruct (write_ok n (real s) j d o (mallocs s) J B0 A) as (rc & j' & ms' & E & J' & W & _). rewrite E. eauto 6.
  - destruct j as [p|f]; cbn [journal_ok journal_read view] in *.
    + destruct J as [M En]. pose proof (content_length p M). destruct (Nat.leb_spec (o + k) (length (content p))) as [L|L].
      * destruct (read_ok p (Z.of_nat k) (Z.of_nat o) M) as (p' & E & M' & C'); [lia|lia|lia|].
        pose proof (read_keeps_size _ _ _ _ _ _ E). rewrite E, !Nat2Z.id. do 3 eexists. split; [reflexivity|].
        split; [split; [exact M'|congruence]|]. eauto.
      * unfold memjrnlRead. rewrite Z.gtb_ltb, (proj2 (Z.ltb_lt _ (Z.of_nat k + Z.of_nat o))) by lia. do 3 eexists. split; [reflexivity|]. cbn [journal_ok]. eauto 6.
    + rewrite Nat2Z.id. destruct (xRead f k (Z.of_nat o)) as [rc out] eqn:E. do 3 eexists. split; [reflexivity|]. split; [exact Logic.I|].
      split; [reflexivity|]. intros ->. destruct (rf_read_done f k (Z.of_nat o) out ltac:(lia) A E) as [L ->]. now rewrite Nat2Z.id in *.
  - destruct j as [p|f]; cbn [journal_ok journal_truncate view] in *.
    + destruct J as [M En]. pose proof (content_length p M).
      destruct (truncate_ok p (Z.of_nat size) M) as (p' & E & M' & C' & _ & N' & _); [lia|]. rewrite E. rewrite Nat2Z.id in C'.
      do 3 eexists. split; [reflexivity|]. split; [split; [exact M'|congruence]|]. eauto.
    + destruct (xTruncate f (Z.of_nat size)) as [rc f'] eqn:E. do 3 eexists. split; [reflexivity|]. split; [exact Logic.I|].
      intros ->. cbn [view]. rewrite (rf_truncate_done f (Z.of_nat size) f') by (lia || exact E). now rewrite Nat2Z.id.
Qed.

(** While the system works, so does the journal. *)
Lemma working_step n s j op rc out j' : journal_ok n j -> rf_bytes (snd (real s)) = [] -> op_asked n (view j) op -> inside (view j) op ->
  works s -> sound j -> perform s j op = Some (rc, out, j') -> answered j op rc out j' ->
  (rc, out) = op_result (view j) op /\ sound j' /\ view j' = op_bytes (view j) op.
Proof.
  intros J B0 A I (W1 & W2 & W3) S E An. destruct op as [o d|o k|size]; cbn [perform op_asked answered op_result op_bytes inside] in *.
  - destruct (write_ok n (real s) j d o (mallocs s) J B0 A) as (rc1 & j1 & ms1 & E1 & _ & Wr & Ok). rewrite E1 in E. injection E as -> <- ->.
    destruct (Ok W1 W2 W3 S) as [-> S']. split; [reflexivity|]. split; [exact S'|]. now apply Wr.
  - destruct j as [p|f].
    + destruct An as (V & (q & ->) & R). rewrite (proj2 (Nat.leb_le _ _) I) in R. destruct R as [-> ->]. auto.
    + destruct An as [-> _]. cbn [journal_read view sound] in *. rewrite (rf_read f _ _ S), !Nat2Z.id in E by (rewrite ?Nat2Z.id; lia).
      injection E as <- <-. auto.
  - destruct j as [p|f].
    + destruct An as (-> & V & (q & ->)). cbn [journal_truncate] in E. destruct (memjrnlTruncate p (Z.of_nat size)). injection E as _ <- _. cbn [sound]. auto.
    + cbn [journal_truncate view sound] in *. destruct (rf_truncate f (Z.of_nat size) S) as (f' & E' & O' & B'); [lia|]. rewrite E' in E.
      injection E as <- <- <-. rewrite Nat2Z.id in B'. auto.
Qed.

Lemma journal_steps n ops : forall j, journal_ok n j -> sound j -> ops_allowed n (view j) ops ->
  exists j', perform_all j ops = Some (ops_results (view j) (map snd ops), j') /\ view j' = fold_left op_bytes (map snd ops) (view j).
Proof.
  induction ops as [|[s op] ops IH]; intros j J S A; [exists j; auto|]. destruct A as (W & B0 & A & I & As).
  destruct (journal_step n s j op J B0 A) as (rc & out & j1 & E1 & J1 & An).
  destruct (working_step n s j op rc out j1 J B0 A I W S E1 An) as (R & S1 & V1). rewrite <- V1 in As.
  destruct (IH j1 J1 S1 As) as (j' & E & V'). exists j'. cbn [perform_all ops_results fold_left map snd].
  rewrite E1, E, R, V1 in *. auto.
Qed.

Lemma opened_ok spill r j : rf_bytes (snd r) = [] -> sqlite3JournalOpen r spill = (SQLITE_OK, j) ->
  journal_ok (chunk_size spill) j /\ view j = [] /\ (rf_ok (snd r) -> sound j).
Proof.
  intros B0. unfold sqlite3JournalOpen. destruct (Z.eqb_spec spill 0) as [->|Ns].
  - destruct r as [rc f]. intros [= _ <-]. cbn [journal_ok view sound snd] in *. auto.
  - intros [= <-]. split; [split; [|reflexivity]|split; [reflexivity|intros _; exact Logic.I]].
    change (mem_ok (mk_mem (chunk_size spill) spill [] (mk_point 0 None) (mk_point 0 None))).
    assert (0 < chunk_size spill) by (unfold chunk_size; rewrite Z.gtb_ltb; destruct (Z.ltb_spec 0 spill); [lia|reflexivity]).
    constructor; cbn [nChunkSize nSpill chunks endpoint readpoint iOffset pChunk length]; auto; try lia; [constructor|].
    symmetry. apply needed_eq; cbn [length]; lia.
Qed.

Lemma reached_ok spill j : reached spill j -> journal_ok (chunk_size spill) j.
Proof.
  induction 1 as [s j B0 E|s j op rc out j' R IH B0 A E]; [now destruct (opened_ok spill (real s) j B0 E)|].
  destruct (journal_step _ s j op IH B0 A) as (rc1 & out1 & j1 & E1 & J1 & _). rewrite E in E1. now injection E1 as -> -> ->.
Qed.

(** C13: A journal in memory is a file.  A journal is opened with any bound for the move to
    disk, or none; then, for any sequence of writes at the end, rewrites up to or beyond the
    end, changes of the header, reads within the file and truncations, while memory can be
    allocated and the real file opens empty and does not fail, every operation succeeds and
    every read returns what a plain file of bytes would, whether the journal is still a list
    of chunks, is just moving to the real file, or has moved. *)
Theorem memory_journal_is_file s spill ops :
  works s -> rf_bytes (snd (real s)) = [] -> ops_allowed (chunk_size spill) [] ops ->
  exists j j', sqlite3JournalOpen (real s) spill = (SQLITE_OK, j) /\
    perform_all j ops = Some (ops_results [] (map snd ops), j') /\ view j' = fold_left op_bytes (map snd ops) [].
Proof.
  intros (W1 & W2 & _) B0 A. assert (exists j, sqlite3JournalOpen (real s) spill = (SQLITE_OK, j)) as [j E].
  { unfold sqlite3JournalOpen. destruct (real s) as [rc f]. cbn [fst] in W1. subst rc. destruct (spill =? 0); eauto. }
  destruct (opened_ok spill (real s) j B0 E) as (J & V & S). rewrite <- V in *.
  destruct (journal_steps (chunk_size spill) ops j J (S W2) A) as (j' & E' & V'). exists j, j'. auto.
Qed.

(** C14: What a journal in memory does when something fails.  From the opening on and after
    any earlier failures, with any allocations failing and any behaviour of the real file that
    holds to its successful answers, an operation always returns, never through a null
    pointer.  A write that succeeds has written; one that fails leaves the journal in memory
    exactly as it was when the move to the real file fails, keeps the bytes before its place
    and a proper part of its data when memory runs out, with SQLITE_IOERR_NOMEM, and is otherwise a
    failed write to the real file, which holds all the journal held.  A read beyond the end of
    a journal in memory returns SQLITE_IOERR_SHORT_READ; no read changes the journal, and a
    truncation in memory does not fail. *)
Theorem memory_journal_errors spill s j op :
  reached spill j -> rf_bytes (snd (real s)) = [] -> op_asked (chunk_size spill) (view j) op ->
  exists rc out j', perform s j op = Some (rc, out, j') /\ answered j op rc out j'.
Proof.
  intros R B0 A. destruct (journal_step _ s j op (reached_ok _ _ R) B0 A) as (rc & out & j' & E & _ & An). eauto.
Qed.
End WriteProofs.
Arguments mk_system {F}.

(** A journal that moves to disk at its second write. *)
Lemma memory_journal_is_file_witness :
  let s := mk_system (SQLITE_OK, @nil Z) [] in
  let ops := [JWrite 0 [1; 2; 3; 4; 5; 6]; JRead 2 3; JWrite 6 [7; 8; 9; 10; 11]; JRead 4 5; JTruncate 7; JRead 0 7] in
  exists j j', sqlite3JournalOpen (SQLITE_OK, @nil Z) 8 = (SQLITE_OK, j) /\
    perform_all (fun k => memset 0 k) j (map (pair s) ops) =
      Some ([(SQLITE_OK, []); (SQLITE_OK, [3; 4; 5]); (SQLITE_OK, []); (SQLITE_OK, [5; 6; 7; 8; 9]); (SQLITE_OK, []);
             (SQLITE_OK, [1; 2; 3; 4; 5; 6; 7])], j').
Proof.
  intros s ops.
  destruct (memory_journal_is_file (fun k => memset 0 k) (length_memset 0) s 8 (map (pair s) ops)) as (j & j' & E1 & E2 & _).
  - now repeat split.
  - reflexivity.
  - cbn. unfold write_allowed. cbn. unfold works.
    repeat match goal with
    | |- _ /\ _ => split | |- True => exact Logic.I | |- rf_ok _ => exact Logic.I | |- _ = _ => reflexivity | |- _ => lia
    | |- (_ /\ _) \/ _ => left | |- _ \/ [] = [] => right | |- _ \/ _ => left
    end.
  - exists j, j'. split; [exact E1|exact E2].
Defined.

(** Three bytes are written, then the move to the real file fails. *)
Lemma memory_journal_errors_witness :
  let junk := fun k => memset 0 k in
  let s := mk_system (14, @nil Z) [] in
  let j0 := InMemory (mk_mem 8 8 [] (mk_point 0 None) (mk_point 0 None)) in
  let j := InMemory (mk_mem 8 8 [[1; 2; 3; 0; 0; 0; 0; 0]] (mk_point 3 (Some 0%nat)) (mk_point 0 None)) in
  let op := JWrite 3 [4; 5; 6; 7; 8; 9] in
  perform junk s j0 (JWrite 0 [1; 2; 3]) = Some (SQLITE_OK, [], j) /\
  exists rc out j', perform junk s j op = Some (rc, out, j') /\ answered j op rc out j' /\ rc = 14 /\ j' = j.
Proof.
  intros junk s j0 j op. split; [reflexivity|].
  destruct (memory_journal_errors junk (length_memset 0) 8 s j op) as (rc & out & j' & E & A).
  - apply (reached_step junk 8 s j0 (JWrite 0 [1; 2; 3]) SQLITE_OK []); [now apply (reached_open junk 8 s)|reflexivity| |reflexivity].
    left. cbn. split; [now right|lia].
  - reflexivity.
  - change (op_asked 8 [1; 2; 3] op). left. cbn. split; [left|]; lia.
  - exists rc, out, j'. split; [exact E|]. split; [exact A|]. cbv in E. now injection E as <- <- <-.
Defined.
