(* ===== verification/ScBytes.v ===== *)
(** * SQLCipher: byte routines

    The small routines of sqlcipher.c (src/crates/galv-libsqlite3-sys/sqlcipher/sqlite3.c)
    on which the rest of the codec is built: conversion between bytes and hexadecimal text,
    the comparison and tests in constant time, the mask that hides keys in memory, and the
    generator xoshiro256++ whose output overwrites memory before it is released. *)

From Stdlib Require Import ZArith Lia List Bool.
From S2P Require Import Prelude.
Import ListNotations.
Local Open Scope Z_scope.

(** ** Hexadecimal text *)

Definition cipher_hex2int (c : Z) : Z :=
  if (48 <=? c) && (c <=? 57) then c - 48
  else if (65 <=? c) && (c <=? 70) then c - 65 + 10
  else if (97 <=? c) && (c <=? 102) then c - 97 + 10
  else 0.

(** The loop runs for i = 0, 2, 4, ... below [sz]. *)
Definition cipher_hex2bin (hex : list Z) (sz : nat) (out : list Z) : list Z :=
  fold_left
    (fun out k =>
       out.[k <- u8 (Z.lor (Z.shiftl (cipher_hex2int (hex.[2 * k])) 4)
                           (cipher_hex2int (hex.[2 * k + 1])))])
    (seq 0 ((sz + 1) / 2)) out.

(** The digits that the format %02x prints for a byte. *)
Definition hex_digit (d : Z) : Z := if d <? 10 then d + 48 else d - 10 + 97.

Definition hex_pair (b : Z) : list Z := [hex_digit (Z.shiftr b 4); hex_digit (Z.land b 15)].

(** [sqlite3_snprintf] with a limit of three bytes prints the two digits and a terminator. *)
Definition cipher_bin2hex (bin : list Z) (sz : nat) (out : list Z) : list Z :=
  fold_left (fun out i => memcpy out (2 * i) (hex_pair (bin.[i]) ++ [0])) (seq 0 sz) out.

Definition is_hex (c : Z) : bool :=
  negb (((c <? 48) || (57 <? c)) && ((c <? 65) || (70 <? c)) && ((c <? 97) || (102 <? c))).

Definition cipher_isHex (hex : list Z) (sz : nat) : bool :=
  forallb (fun i => is_hex (hex.[i])) (seq 0 sz).

(** ** Comparison in constant time *)

Definition sqlcipher_memset (v : list Z) (off : nat) (value : Z) (len : nat) : list Z :=
  fold_left (fun a i => a.[off + i <- value]) (seq 0 len) v.

Definition sqlcipher_ismemset (v : list Z) (value : Z) (len : nat) : bool :=
  negb (fold_left (fun r i => Z.lor r (Z.lxor (v.[i]) value)) (seq 0 len) 0 =? 0).

Definition sqlcipher_memcmp (v0 v1 : list Z) (len : nat) : bool :=
  negb (fold_left (fun r i => Z.lor r (Z.lxor (v0.[i]) (v1.[i]))) (seq 0 len) 0 =? 0).

(** ** The mask over keys in memory *)

Definition sqlcipher_shield_mask_sz : nat := 32.

Definition sqlcipher_shield (mask inp : list Z) (sz : nat) : list Z :=
  fold_left
    (fun l i => l.[i <- Z.lxor (l.[i]) (mask.[i mod sqlcipher_shield_mask_sz])])
    (seq 0 sz) inp.

(** ** The generator xoshiro256++ *)

Definition xoshiro_rotl (x k : Z) : Z := Z.lor (u64 (Z.shiftl x k)) (Z.shiftr x (64 - k)).

Definition xoshiro_next (s : list Z) : Z * list Z :=
  let s0 := s.[0] in let s1 := s.[1] in let s2 := s.[2] in let s3 := s.[3] in
  let result := u64 (xoshiro_rotl (u64 (s0 + s3)) 23 + s0) in
  let t := u64 (Z.shiftl s1 17) in
  let s2 := Z.lxor s2 s0 in
  let s3 := Z.lxor s3 s1 in
  let s1 := Z.lxor s1 s2 in
  let s0 := Z.lxor s0 s3 in
  let s2 := Z.lxor s2 t in
  let s3 := xoshiro_rotl s3 45 in
  (result, [s0; s1; s2; s3]).

(** The eight bytes of a word as the host stores them. *)
Definition word_bytes (le : bool) (v : Z) : list Z :=
  let l := map (fun i => u8 (Z.shiftr v (8 * Z.of_nat i))) (seq 0 8) in
  if le then l else rev l.

Fixpoint xoshiro_fill (fuel : nat) (le : bool) (s : list Z) (sz : nat) : list Z * list Z :=
  match fuel, sz with
  | O, _ | _, O => ([], s)
  | S fuel, _ =>
      let '(val, s) := xoshiro_next s in
      let to_copy := if (8 <=? sz)%nat then 8%nat else sz in
      let '(r, s) := xoshiro_fill fuel le s (sz - to_copy) in
      (firstn to_copy (word_bytes le val) ++ r, s)
  end.

Definition xoshiro_randomness (le : bool) (s : list Z) (sz : nat) : list Z * list Z :=
  xoshiro_fill sz le s sz.

(** ** Loops that write one element per step *)

Lemma upd_memcpy {A} (l : list A) i v : (i < length l)%nat -> l.[i <- v] = memcpy l i [v].
Proof. intros H. rewrite upd_split by lia. unfold memcpy. cbn [length]. now rewrite Nat.add_1_r. Qed.

Lemma memcpy_cover {A} (m a b : list A) o :
  (length a <= length b)%nat -> (o + length b <= length m)%nat ->
  memcpy (memcpy m o a) o b = memcpy m o b.
Proof.
  intros Hl Hm. unfold memcpy at 1 3. f_equal; [|f_equal].
  - apply firstn_memcpy_before; lia.
  - apply skipn_memcpy_after; lia.
Qed.

Lemma fold_upd_seq (f : nat -> Z) o n : forall s out,
  (o + s + n <= length out)%nat ->
  fold_left (fun out k => out.[o + k <- f k]) (seq s n) out
  = memcpy out (o + s) (map f (seq s n)).
Proof.
  induction n as [|n IH]; intros s out H; cbn [seq map fold_left].
  - now rewrite memcpy_nil.
  - rewrite IH by (rewrite length_upd; lia). rewrite upd_memcpy by lia.
    rewrite memcpy_memcpy; [reflexivity | cbn; lia |].
    rewrite length_map, length_seq. lia.
Qed.

Lemma length_sqlcipher_memset v off value len : length (sqlcipher_memset v off value len) = length v.
Proof.
  unfold sqlcipher_memset. generalize (seq 0 len). intros l. revert v.
  induction l as [|i l IH]; intros v; cbn [fold_left]; [reflexivity|]. now rewrite IH, length_upd.
Qed.

Lemma sqlcipher_memset_memcpy v off value len :
  (off + len <= length v)%nat -> sqlcipher_memset v off value len = memcpy v off (memset value len).
Proof.
  intros H. unfold sqlcipher_memset. rewrite (fold_upd_seq (fun _ => value)) by lia.
  rewrite Nat.add_0_r. f_equal. clear H. unfold memset. generalize 0%nat.
  induction len as [|len IH]; intros s; cbn; [reflexivity|]. f_equal. apply IH.
Qed.

(** The bytes that a run of hexadecimal digits stands for. *)
Definition hex_byte (hex : list Z) (k : nat) : Z :=
  u8 (Z.lor (Z.shiftl (cipher_hex2int (hex.[2 * k])) 4) (cipher_hex2int (hex.[2 * k + 1]))).

Lemma hex2bin_memcpy hex n out :
  (n <= length out)%nat ->
  cipher_hex2bin hex (2 * n) out = memcpy out 0 (map (hex_byte hex) (seq 0 n)).
Proof.
  intros H. unfold cipher_hex2bin.
  replace ((2 * n + 1) / 2)%nat with n by (apply (Nat.div_unique _ _ _ 1); lia).
  exact (fold_upd_seq (hex_byte hex) 0 n 0 out H).
Qed.

Lemma hex_byte_pair b : is_byte b -> hex_byte (hex_pair b) 0 = b.
Proof.
  intros H. apply Z.eqb_eq.
  apply (forall_bytes (fun b => hex_byte (hex_pair b) 0 =? b)); [vm_compute; reflexivity | exact H].
Qed.

Lemma is_hex_pair b : is_byte b -> forallb is_hex (hex_pair b) = true.
Proof. apply (forall_bytes (fun b => forallb is_hex (hex_pair b))). vm_compute. reflexivity. Qed.

(** Text with two digits per byte. *)
Definition to_hex (l : list Z) : list Z := flat_map hex_pair l.

Lemma length_hex_text l : length (to_hex l) = (2 * length l)%nat.
Proof. unfold to_hex. induction l; cbn [flat_map length app hex_pair]; lia. Qed.

Lemma hex_text_app a b : to_hex (a ++ b) = to_hex a ++ to_hex b.
Proof. apply flat_map_app. Qed.

Lemma hex_text_is_hex l : bytes l -> forallb is_hex (to_hex l) = true.
Proof.
  induction 1; [reflexivity|]. unfold to_hex in *. cbn [flat_map]. rewrite forallb_app.
  now rewrite is_hex_pair.
Qed.

Lemma cipher_isHex_forallb hex sz :
  (sz <= length hex)%nat -> cipher_isHex hex sz = forallb is_hex (firstn sz hex).
Proof.
  unfold cipher_isHex. revert hex. induction sz as [|sz IH]; intros [|c hex] H; cbn in H; try lia;
    try reflexivity.
  cbn [seq forallb firstn nth]. f_equal. rewrite <- IH by lia.
  rewrite <- seq_shift. generalize (seq 0 sz). induction l; cbn; congruence.
Qed.

Lemma hex_byte_shift pre hex k :
  length pre = 2%nat -> hex_byte (pre ++ hex) (S k) = hex_byte hex k.
Proof.
  intros Hp. unfold hex_byte. do 2 rewrite app_nth2 by lia. rewrite Hp.
  replace (2 * S k - 2)%nat with (2 * k)%nat by lia.
  now replace (2 * S k + 1 - 2)%nat with (2 * k + 1)%nat by lia.
Qed.

Lemma hex_byte_to_hex l rest : bytes l ->
  map (hex_byte (to_hex l ++ rest)) (seq 0 (length l)) = l.
Proof.
  induction 1 as [|b l Hb Hl IH]; [reflexivity|].
  change (to_hex (b :: l)) with (hex_pair b ++ to_hex l). rewrite <- app_assoc.
  cbn [length seq map]. f_equal.
  - rewrite <- (hex_byte_pair b Hb) at 2. reflexivity.
  - rewrite <- seq_shift, map_map. etransitivity; [|exact IH]. apply map_ext. intros k.
    now apply hex_byte_shift.
Qed.

Lemma bin2hex_memcpy bin n : forall out,
  (n <= length bin)%nat -> (2 * n + 1 <= length out)%nat ->
  cipher_bin2hex bin n out
  = match n with O => out | _ => memcpy out 0 (to_hex (firstn n bin) ++ [0]) end.
Proof.
  induction n as [|n IH]; intros out Hb Ho; [reflexivity|].
  unfold cipher_bin2hex. rewrite seq_S, fold_left_app. cbn [fold_left plus].
  fold (cipher_bin2hex bin n out). rewrite IH by lia.
  assert (E : firstn (S n) bin = firstn n bin ++ [bin.[n]]).
  { clear -Hb. revert n Hb. induction bin as [|x l IH]; intros [|n] H; cbn in *; try lia; auto.
    f_equal. apply IH. lia. }
  rewrite E, hex_text_app. change (to_hex [bin.[n]]) with (hex_pair (bin.[n])).
  assert (L : length (to_hex (firstn n bin)) = (2 * n)%nat)
    by (rewrite length_hex_text, length_firstn; lia).
  destruct n as [|n]; [reflexivity|].
  rewrite <- app_assoc. remember (to_hex (firstn (S n) bin)) as h.
  rewrite <- (memcpy_memcpy out h [0] 0 (length h)) by (cbn [length]; lia).
  rewrite <- (memcpy_memcpy out h (hex_pair (bin.[S n]) ++ [0]) 0 (length h))
    by (rewrite ?length_app; cbn [length hex_pair]; lia).
  rewrite L. apply memcpy_cover; rewrite ?length_app, ?length_memcpy; cbn [length hex_pair]; lia.
Qed.

(** ** Comparison *)

Lemma memcmp_false v0 v1 len :
  sqlcipher_memcmp v0 v1 len = false <-> forall i, (i < len)%nat -> v0.[i] = v1.[i].
Proof.
  unfold sqlcipher_memcmp. rewrite negb_false_iff, Z.eqb_eq, fold_lor_zero, Forall_forall.
  split.
  - intros [_ H] i Hi. apply Z.lxor_eq, H, in_seq. lia.
  - intros H. split; [reflexivity|]. intros i Hi%in_seq. rewrite H by lia. apply Z.lxor_nilpotent.
Qed.

Lemma memcmp_firstn v0 v1 len :
  (len <= length v0)%nat -> (len <= length v1)%nat ->
  sqlcipher_memcmp v0 v1 len = false <-> firstn len v0 = firstn len v1.
Proof.
  intros H0 H1. rewrite memcmp_false. split.
  - intros H. now apply firstn_ext.
  - intros H i Hi. now apply (firstn_ext_inv _ _ len).
Qed.

Lemma ismemset_false v value len :
  sqlcipher_ismemset v value len = false <-> forall i, (i < len)%nat -> v.[i] = value.
Proof.
  unfold sqlcipher_ismemset. rewrite negb_false_iff, Z.eqb_eq, fold_lor_zero, Forall_forall.
  split.
  - intros [_ H] i Hi. apply Z.lxor_eq, H, in_seq. lia.
  - intros H. split; [reflexivity|]. intros i Hi%in_seq. rewrite H by lia. apply Z.lxor_nilpotent.
Qed.

(** ** The mask *)

Lemma length_shield mask inp sz : length (sqlcipher_shield mask inp sz) = length inp.
Proof.
  unfold sqlcipher_shield. generalize (seq 0 sz). intros l. revert inp.
  induction l as [|i l IH]; intros inp; cbn [fold_left]; [reflexivity|].
  now rewrite IH, length_upd.
Qed.

Lemma nth_shield mask n : forall s inp i,
  (s + n <= length inp)%nat ->
  (fold_left (fun l i => l.[i <- Z.lxor (l.[i]) (mask.[i mod sqlcipher_shield_mask_sz])])
     (seq s n) inp).[i]
  = if ((s <=? i) && (i <? s + n))%nat
    then Z.lxor (inp.[i]) (mask.[i mod sqlcipher_shield_mask_sz]) else inp.[i].
Proof.
  induction n as [|n IH]; intros s inp i H; cbn [seq fold_left].
  - destruct (Nat.leb_spec s i), (Nat.ltb_spec i (s + 0)); try lia; reflexivity.
  - rewrite IH by (rewrite length_upd; lia).
    destruct (Nat.eq_dec s i) as [->|Hne].
    + rewrite nth_upd_eq by lia.
      destruct (Nat.leb_spec (S i) i), (Nat.leb_spec i i), (Nat.ltb_spec i (i + S n)); try lia.
      reflexivity.
    + rewrite nth_upd_ne by congruence.
      destruct (Nat.leb_spec (S s) i), (Nat.leb_spec s i), (Nat.ltb_spec i (S s + n)),
        (Nat.ltb_spec i (s + S n)); try lia; reflexivity.
Qed.

Lemma shield_invol mask inp sz :
  (sz <= length inp)%nat ->
  sqlcipher_shield mask (sqlcipher_shield mask inp sz) sz = inp.
Proof.
  intros H. apply (nth_ext _ _ 0 0); [now rewrite !length_shield|]. intros i _.
  unfold sqlcipher_shield at 1. rewrite nth_shield by (rewrite length_shield; lia).
  unfold sqlcipher_shield. rewrite nth_shield by lia. cbn [Nat.add].
  destruct ((0 <=? i) && (i <? sz))%nat; [apply lxor_invol | reflexivity].
Qed.

Lemma bytes_shield mask inp sz :
  bytes mask -> bytes inp -> (sz <= length inp)%nat -> bytes (sqlcipher_shield mask inp sz).
Proof.
  intros Hm Hi Hs. apply Forall_forall. intros x Hx.
  destruct (In_nth _ _ 0 Hx) as (i & Hl & <-).
  unfold sqlcipher_shield. rewrite nth_shield by lia.
  destruct (_ && _); auto using bytes_nth with words.
Qed.

#[export] Hint Rewrite length_shield : mem.

(** ** The generator *)

Lemma xoshiro_fill_length le fuel : forall s sz,
  (sz <= fuel)%nat -> length (fst (xoshiro_fill fuel le s sz)) = sz.
Proof.
  induction fuel as [|fuel IH]; intros s sz H; cbn [xoshiro_fill]; [cbn; lia|].
  destruct sz as [|sz]; [reflexivity|].
  destruct (xoshiro_next s) as [val s'].
  set (tc := if (8 <=? S sz)%nat then 8%nat else S sz).
  assert (T : (0 < tc <= 8)%nat /\ (tc <= S sz)%nat)
    by (unfold tc; destruct (Nat.leb_spec 8 (S sz)); lia).
  specialize (IH s' (S sz - tc)%nat).
  destruct (xoshiro_fill fuel le s' (S sz - tc)) as [r s'']. cbn [fst] in *.
  rewrite length_app, length_firstn, IH by lia.
  assert (L : length (word_bytes le val) = 8%nat)
    by (unfold word_bytes; destruct le; rewrite ?length_rev, length_map; reflexivity).
  rewrite L. lia.
Qed.

Lemma xoshiro_length le s sz : length (fst (xoshiro_randomness le s sz)) = sz.
Proof. now apply xoshiro_fill_length. Qed.

Definition is_u64 (x : Z) : Prop := 0 <= x < 2 ^ 64.

Definition xoshiro_prev (s : list Z) : list Z :=
  let s3 := xoshiro_rotl (s.[3]) 19 in
  let s0 := Z.lxor (s.[0]) s3 in
  let y := Z.lxor (s.[1]) (s.[2]) in
  let s1 := Z.lxor (Z.lxor y (u64 (Z.shiftl y 17)))
                   (Z.lxor (u64 (Z.shiftl y 34)) (u64 (Z.shiftl y 51))) in
  let s2 := Z.lxor (Z.lxor (s.[1]) s1) s0 in
  [s0; s1; s2; Z.lxor s3 s1].

Lemma testbit_u64 x i : 0 <= i -> Z.testbit (u64 x) i = Z.testbit x i && (i <? 64).
Proof.
  intros Hi. unfold u64. rewrite Z.land_spec.
  change 0xFFFFFFFFFFFFFFFF with (Z.ones 64). now rewrite Z.testbit_ones_nonneg by lia.
Qed.

Lemma testbit_rotl x k i : is_u64 x -> 0 < k < 64 -> 0 <= i ->
  Z.testbit (xoshiro_rotl x k) i
  = (i <? 64) && Z.testbit x (if i <? k then i - k + 64 else i - k).
Proof.
  intros Hx Hk Hi. unfold xoshiro_rotl.
  rewrite Z.lor_spec, testbit_u64, Z.shiftl_spec, Z.shiftr_spec by lia.
  destruct (Z.ltb_spec i 64); [|rewrite andb_false_r, (testbit_high 64) by (unfold is_u64 in *; lia);
    reflexivity].
  rewrite andb_true_r, andb_true_l. destruct (Z.ltb_spec i k).
  - rewrite Z.testbit_neg_r by lia. cbn [orb]. f_equal. lia.
  - rewrite (testbit_high 64 x (i + (64 - k))) by (unfold is_u64 in *; lia).
    now rewrite orb_false_r.
Qed.

Lemma rotl_u64 x k : is_u64 x -> 0 < k < 64 -> is_u64 (xoshiro_rotl x k).
Proof.
  intros Hx Hk. apply range_of_bits; [lia|]. intros i Hi.
  rewrite testbit_rotl by (assumption || lia).
  destruct (Z.ltb_spec i 64); [lia | reflexivity].
Qed.

Lemma rotl_rotl x j k :
  is_u64 x -> 0 < j < 64 -> 0 < k < 64 -> j + k = 64 -> xoshiro_rotl (xoshiro_rotl x j) k = x.
Proof.
  intros Hx Hj Hk Hs. apply Z.bits_inj'. intros i Hi.
  rewrite testbit_rotl by (now apply rotl_u64 || lia).
  rewrite testbit_rotl by (assumption || (destruct (Z.ltb_spec i k); lia)).
  destruct (Z.ltb_spec i 64).
  - destruct (Z.ltb_spec i k).
    + destruct (Z.ltb_spec (i - k + 64) 64), (Z.ltb_spec (i - k + 64) j); try lia.
      cbn [andb]. f_equal. lia.
    + destruct (Z.ltb_spec (i - k) 64), (Z.ltb_spec (i - k) j); try lia. cbn [andb]. f_equal. lia.
  - rewrite (testbit_high 64 x i) by (unfold is_u64 in Hx; lia). reflexivity.
Qed.

(** A word mixed with itself shifted by 17 is recovered, because 4 * 17 exceeds the width. *)
Lemma unmix x : is_u64 x ->
  let y := Z.lxor x (u64 (Z.shiftl x 17)) in
  Z.lxor (Z.lxor y (u64 (Z.shiftl y 17))) (Z.lxor (u64 (Z.shiftl y 34)) (u64 (Z.shiftl y 51))) = x.
Proof.
  intros Hx y. apply Z.bits_inj'. intros i Hi.
  assert (H : forall k, 0 <= k -> Z.testbit (u64 (Z.shiftl y k)) i
      = (xorb (Z.testbit x (i - k)) (Z.testbit x (i - k - 17))) && (i <? 64)).
  { intros k Hk. rewrite testbit_u64, Z.shiftl_spec by lia. unfold y.
    destruct (Z.lt_ge_cases (i - k) 0).
    - now rewrite !(Z.testbit_neg_r _ (i - k)), (Z.testbit_neg_r x) by lia.
    - rewrite Z.lxor_spec, testbit_u64, Z.shiftl_spec by lia.
      destruct (Z.ltb_spec i 64); [|now rewrite !andb_false_r].
      destruct (Z.ltb_spec (i - k) 64); [|lia]. now rewrite !andb_true_r. }
  rewrite !Z.lxor_spec, !H by lia. unfold y. rewrite Z.lxor_spec, testbit_u64, Z.shiftl_spec by lia.
  replace (i - 17 - 17) with (i - 34) by lia. replace (i - 34 - 17) with (i - 51) by lia.
  destruct (Z.ltb_spec i 64).
  - rewrite (Z.testbit_neg_r x (i - 51 - 17)) by lia.
    destruct (Z.testbit x i), (Z.testbit x (i - 17)), (Z.testbit x (i - 34)), (Z.testbit x (i - 51));
      reflexivity.
  - rewrite !andb_false_r, (testbit_high 64 x i) by (unfold is_u64 in Hx; lia). reflexivity.
Qed.

Lemma lxor_u64 x y : is_u64 x -> is_u64 y -> is_u64 (Z.lxor x y).
Proof. apply lxor_range. lia. Qed.

Lemma u64_u64 x : is_u64 (u64 x).
Proof. unfold is_u64. rewrite u64_mod. apply Z.mod_pos_bound. lia. Qed.

Lemma xoshiro_step s0 s1 s2 s3 :
  Forall is_u64 [s0; s1; s2; s3] ->
  Forall is_u64 (snd (xoshiro_next [s0; s1; s2; s3]))
  /\ xoshiro_prev (snd (xoshiro_next [s0; s1; s2; s3])) = [s0; s1; s2; s3].
Proof.
  intros H. rewrite !Forall_cons_iff in H. destruct H as (H0 & H1 & H2 & H3 & _).
  assert (HR : is_u64 (Z.lxor s3 s1)) by now apply lxor_u64.
  split.
  - cbn [xoshiro_next snd nth]. repeat constructor;
      repeat first [apply lxor_u64 | apply rotl_u64 | apply u64_u64]; auto; lia.
  - unfold xoshiro_next, xoshiro_prev. cbn [snd nth].
    rewrite rotl_rotl by (auto; lia).
    replace (Z.lxor (Z.lxor s1 (Z.lxor s2 s0)) (Z.lxor (Z.lxor s2 s0) (u64 (Z.shiftl s1 17))))
      with (Z.lxor s1 (u64 (Z.shiftl s1 17))) by bitwise.
    rewrite (unmix s1 H1). repeat apply (f_equal2 cons); try bitwise; reflexivity.
Qed.

(** The state after a number of calls of the generator. *)
Fixpoint xoshiro_iter (n : nat) (s : list Z) : list Z :=
  match n with O => s | S n => xoshiro_iter n (snd (xoshiro_next s)) end.

(** The generator that overwrites released memory never gets stuck: a step can be undone,
    so that from a seed of four words that are not all zero, no number of calls reaches the
    state of zeros, from which only zeros would come. *)
Theorem xoshiro_never_stuck s n :
  length s = 4%nat -> Forall is_u64 s -> s <> [0; 0; 0; 0] ->
  Forall is_u64 (xoshiro_iter n s) /\ xoshiro_iter n s <> [0; 0; 0; 0].
Proof.
  revert s. induction n as [|n IH]; intros s L H Hz; [auto|].
  destruct s as [|s0 [|s1 [|s2 [|s3 [|]]]]]; try discriminate L.
  destruct (xoshiro_step s0 s1 s2 s3 H) as [HF HP].
  cbn [xoshiro_iter]. apply IH; [reflexivity | exact HF |].
  intros E. rewrite E in HP. apply Hz. rewrite <- HP. reflexivity.
Qed.

Lemma xoshiro_never_stuck_witness :
  xoshiro_iter 3 [1; 2; 3; 4] <> [0; 0; 0; 0].
Proof.
  apply (xoshiro_never_stuck [1; 2; 3; 4] 3); [reflexivity | | discriminate].
  repeat constructor; vm_compute; try discriminate; reflexivity.
Defined.

(** Hexadecimal text: the digits written for a run of bytes are accepted as hexadecimal,
    and reading them back gives the same bytes, whatever the buffers held before. *)
Theorem hex_text_roundtrip bin text out :
  bytes bin -> bin <> [] -> (2 * length bin + 1 <= length text)%nat -> (length bin <= length out)%nat ->
  let t := cipher_bin2hex bin (length bin) text in
  cipher_isHex t (2 * length bin) = true
  /\ cipher_hex2bin t (2 * length bin) out = memcpy out 0 bin.
Proof.
  intros Hb Hne Ht Ho t.
  assert (E : t = to_hex bin ++ ([0] ++ skipn (2 * length bin + 1) text)).
  { unfold t. rewrite bin2hex_memcpy, firstn_all by lia. destruct bin; [congruence|].
    unfold memcpy. rewrite length_app, length_hex_text. cbn [length Nat.add firstn app].
    now rewrite <- app_assoc. }
  split.
  - rewrite cipher_isHex_forallb by (rewrite E, length_app, length_hex_text; lia).
    rewrite E, firstn_app_l by apply length_hex_text. now apply hex_text_is_hex.
  - rewrite hex2bin_memcpy by lia. f_equal. rewrite E. now apply hex_byte_to_hex.
Qed.

Lemma hex_text_roundtrip_witness :
  cipher_hex2bin (cipher_bin2hex [0; 171; 255] 3 (memset 7 9)) 6 [1; 2; 3; 4] = [0; 171; 255; 4].
Proof.
  apply (hex_text_roundtrip [0; 171; 255] (memset 7 9) [1; 2; 3; 4]);
    [apply bytesb_bytes; reflexivity | discriminate | cbn; lia | cbn; lia].
Defined.
