(* ===== verification/ScText.v ===== *)
(** * Text of settings

    The text routines of SQLite (util.c, pragma.c) through which a setting passes on its way
    from a PRAGMA statement: comparison without regard to case, integers with their range, and
    booleans; with the functions atoi and the format %d of the C library.  A string is the list
    of its bytes without the terminator. *)

From Stdlib Require Import String Ascii ZArith Lia List Bool.
From S2P Require Import Prelude ScBytes.
Import ListNotations.
Local Open Scope Z_scope.

(** The bytes of a literal. *)
Definition str (s : string) : list Z := map (fun a => Z.of_nat (nat_of_ascii a)) (list_ascii_of_string s).

(** ** Case *)

(** The first 256 entries of the table, for ASCII. *)
Definition sqlite3UpperToLower (c : Z) : Z := if (65 <=? c) && (c <=? 90) then c + 32 else c.

(** The loop, with the terminator 0 behind both strings. *)
Fixpoint sqlite3StrICmp (a b : list Z) : Z :=
  match a, b with
  | [], [] => 0
  | [], x :: _ => sqlite3UpperToLower 0 - sqlite3UpperToLower x
  | c :: _, [] => sqlite3UpperToLower c - sqlite3UpperToLower 0
  | c :: a, x :: b =>
      if c =? x then sqlite3StrICmp a b
      else
        let d := sqlite3UpperToLower c - sqlite3UpperToLower x in
        if negb (d =? 0) then d else sqlite3StrICmp a b
  end.

(** [None] is a null pointer. *)
Definition sqlite3_stricmp (a b : option (list Z)) : Z :=
  match a, b with
  | None, None => 0
  | None, Some _ => -1
  | Some _, None => 1
  | Some a, Some b => sqlite3StrICmp a b
  end.

Fixpoint sqlite3StrNICmp (a b : list Z) (N : nat) : Z :=
  match N with
  | O => 0
  | S N =>
      if negb (a.[0] =? 0) && (sqlite3UpperToLower (a.[0]) =? sqlite3UpperToLower (b.[0]))
      then sqlite3StrNICmp (tl a) (tl b) N
      else sqlite3UpperToLower (a.[0]) - sqlite3UpperToLower (b.[0])
  end.

Definition sqlite3Strlen30 (z : list Z) : Z := Z.land 0x3fffffff (Z.of_nat (length z)).

(** ** Integers *)

Definition sqlite3Isdigit (c : Z) : bool := (48 <=? c) && (c <=? 57).

Definition sqlite3Isxdigit (c : Z) : bool :=
  sqlite3Isdigit c || ((65 <=? c) && (c <=? 70)) || ((97 <=? c) && (c <=? 102)).

Definition sqlite3HexToInt (h : Z) : Z := Z.land (h + 9 * Z.land 1 (Z.shiftr h 6)) 15.

Fixpoint skip_zeros (z : list Z) : list Z :=
  match z with
  | c :: r => if c =? 48 then skip_zeros r else z
  | [] => []
  end.

(** The loop over at most [n] digits: the value and the number of digits. *)
Fixpoint hex_loop (n : nat) (z : list Z) (u i : Z) : Z * Z :=
  match n, z with
  | S n, c :: z =>
      if sqlite3Isxdigit c then hex_loop n z (u32 (u * 16 + sqlite3HexToInt c)) (i + 1) else (u, i)
  | _, _ => (u, i)
  end.

Fixpoint dec_loop (n : nat) (z : list Z) (v i : Z) : Z * Z :=
  match n, z with
  | S n, c :: z =>
      if (0 <=? c - 48) && (c - 48 <=? 9) then dec_loop n z (v * 10 + (c - 48)) (i + 1) else (v, i)
  | _, _ => (v, i)
  end.

(** [None]: the text is not an integer of 32 bits. *)
Definition sqlite3GetInt32 (z : list Z) : option Z :=
  let hex := (z.[0] =? 48) && ((z.[1] =? 120) || (z.[1] =? 88)) && sqlite3Isxdigit (z.[2]) in
  let decimal neg z :=
    if negb (sqlite3Isdigit (z.[0])) then None
    else
      let '(v, i) := dec_loop 11 (skip_zeros z) 0 0 in
      if 10 <? i then None
      else if 2147483647 <? v - neg then None
      else Some (if neg =? 0 then v else - v) in
  if z.[0] =? 45 then decimal 1 (tl z)
  else if z.[0] =? 43 then decimal 0 (tl z)
  else if hex then
    let z := skip_zeros (skipn 2 z) in
    let '(u, i) := hex_loop 8 z 0 0 in
    if (Z.land u 0x80000000 =? 0) && negb (sqlite3Isxdigit (z.[Z.to_nat i])) then Some u else None
  else decimal 0 z.

Definition sqlite3Atoi (z : list Z) : Z := match sqlite3GetInt32 z with Some v => v | None => 0 end.

(** ** The C library: white space, a sign and digits; a value outside of the type long is
    replaced by its nearest bound, and the result converted to int. *)

Definition isspace (c : Z) : bool := (c =? 32) || ((9 <=? c) && (c <=? 13)).

Fixpoint skip_space (z : list Z) : list Z :=
  match z with
  | c :: r => if isspace c then skip_space r else z
  | [] => []
  end.

Fixpoint dec_value (z : list Z) (v : Z) : Z :=
  match z with
  | c :: z => if sqlite3Isdigit c then dec_value z (v * 10 + (c - 48)) else v
  | [] => v
  end.

Definition as_int (v : Z) : Z := let u := u32 v in if u <? 2 ^ 31 then u else u - 2 ^ 32.

Definition atoi (z : list Z) : Z :=
  let z := skip_space z in
  let v := if z.[0] =? 45 then - dec_value (tl z) 0
           else if z.[0] =? 43 then dec_value (tl z) 0 else dec_value z 0 in
  as_int (Z.max (- 2 ^ 63) (Z.min v (2 ^ 63 - 1))).

Fixpoint digits (fuel : nat) (n : Z) : list Z :=
  match fuel with
  | O => []
  | S fuel => if n <? 10 then [48 + n] else digits fuel (n / 10) ++ [48 + n mod 10]
  end.

(** The format %d. *)
Definition print_int (n : Z) : list Z :=
  if n <? 0 then 45 :: digits 20 (- n) else digits 20 n.

(** ** Booleans *)

Definition zText : list Z := str "onoffalseyestruextrafull".

(** Offset, length and value of each word: on no off false yes true extra full. *)
Definition safety_words : list (nat * Z * Z) :=
  [(0%nat, 2, 1); (1%nat, 2, 0); (2%nat, 3, 0); (4%nat, 5, 0);
   (9%nat, 3, 1); (12%nat, 4, 1); (15%nat, 5, 3); (20%nat, 4, 2)].

Definition getSafetyLevel (z : list Z) (omitFull : bool) (dflt : Z) : Z :=
  if sqlite3Isdigit (z.[0]) then u8 (sqlite3Atoi z)
  else
    let n := sqlite3Strlen30 z in
    match find (fun '(off, len, value) =>
            (len =? n) && (sqlite3StrNICmp (skipn off zText) z (Z.to_nat n) =? 0)
            && (negb omitFull || (value <=? 1))) safety_words with
    | Some (_, _, value) => value
    | None => dflt
    end.

Definition sqlite3GetBoolean (z : list Z) (dflt : Z) : bool := negb (getSafetyLevel z true dflt =? 0).

(** ** Case *)

Definition no_nul (z : list Z) : Prop := Forall (fun c => 0 < c < 256) z.

Lemma lower_pos c : 0 < c < 256 -> 0 < sqlite3UpperToLower c.
Proof. intros H. unfold sqlite3UpperToLower. destruct (_ && _); lia. Qed.

Lemma stricmp_lower a : forall b, no_nul a -> no_nul b ->
  sqlite3StrICmp a b = 0 <-> map sqlite3UpperToLower a = map sqlite3UpperToLower b.
Proof.
  induction a as [|c a IH]; intros [|x b] Ha Hb; cbn [sqlite3StrICmp map].
  - tauto.
  - apply Forall_inv, lower_pos in Hb. change (sqlite3UpperToLower 0) with 0. split; [lia | discriminate].
  - apply Forall_inv, lower_pos in Ha. change (sqlite3UpperToLower 0) with 0. split; [lia | discriminate].
  - apply Forall_cons_iff in Ha, Hb. destruct Ha as [_ Ha], Hb as [_ Hb]. specialize (IH b Ha Hb).
    destruct (Z.eqb_spec c x) as [->|Hne].
    + rewrite IH. split; [intros ->; reflexivity | intros E; now injection E].
    + destruct (Z.eqb_spec (sqlite3UpperToLower c - sqlite3UpperToLower x) 0) as [E|E]; cbn [negb].
      * rewrite IH. replace (sqlite3UpperToLower c) with (sqlite3UpperToLower x) by lia.
        split; [intros ->; reflexivity | intros E'; now injection E'].
      * split; [lia|]. intros E'. injection E' as E1 _. lia.
Qed.

(** ** Decimal text *)

Lemma isdigit_range c : sqlite3Isdigit c = true <-> 48 <= c <= 57.
Proof. unfold sqlite3Isdigit. rewrite andb_true_iff, !Z.leb_le. tauto. Qed.

Definition all_digits (l : list Z) : Prop := Forall (fun c => 48 <= c <= 57) l.

Lemma digits_of_bool l : forallb sqlite3Isdigit l = true -> all_digits l.
Proof.
  intros H. apply Forall_forall. intros c Hc. apply isdigit_range. exact (proj1 (forallb_forall _ _) H c Hc).
Qed.

(** The value of a list of digits. *)
Definition value (l : list Z) : Z := fold_left (fun v c => v * 10 + (c - 48)) l 0.

Lemma value_acc l : forall v, fold_left (fun v c => v * 10 + (c - 48)) l v = v * 10 ^ Z.of_nat (length l) + value l.
Proof.
  unfold value. induction l as [|c l IH]; intros v; cbn [fold_left length].
  - rewrite Z.pow_0_r. lia.
  - rewrite (IH (v * 10 + (c - 48))), (IH (0 * 10 + (c - 48))).
    rewrite Nat2Z.inj_succ, Z.pow_succ_r by lia. lia.
Qed.

Lemma value_cons c l : value (c :: l) = (c - 48) * 10 ^ Z.of_nat (length l) + value l.
Proof. unfold value. cbn [fold_left]. rewrite value_acc. unfold value. lia. Qed.

Lemma value_app a b : value (a ++ b) = value a * 10 ^ Z.of_nat (length b) + value b.
Proof. unfold value. rewrite fold_left_app, value_acc. reflexivity. Qed.

Lemma value_range l : all_digits l -> 0 <= value l < 10 ^ Z.of_nat (length l).
Proof.
  induction 1 as [|c l Hc Hl IH]; [cbn; lia|].
  rewrite value_cons. cbn [length]. rewrite Nat2Z.inj_succ, Z.pow_succ_r by lia. nia.
Qed.

Lemma skip_zeros_spec l : all_digits l -> exists z, l = z ++ skip_zeros l /\ value (skip_zeros l) = value l
  /\ all_digits (skip_zeros l) /\ (skip_zeros l).[0] <> 48.
Proof.
  induction 1 as [|c l Hc Hl (z & E & V & D & N)]; cbn [skip_zeros].
  - exists []. repeat split; [constructor | cbn; lia].
  - destruct (Z.eqb_spec c 48) as [->|Hne].
    + exists (48 :: z). split; [cbn; congruence|]. rewrite value_cons. split; [lia|]. auto.
    + exists []. split; [reflexivity|]. split; [reflexivity|]. split; [now constructor | exact Hne].
Qed.

Definition stops (r : list Z) : Prop := sqlite3Isdigit (r.[0]) = false.

Lemma dec_loop_app n l r v i : all_digits l -> stops r -> (length l < n)%nat ->
  dec_loop n (l ++ r) v i
  = (fold_left (fun v c => v * 10 + (c - 48)) l v, i + Z.of_nat (length l)).
Proof.
  intros Hl Hr. revert n v i. induction Hl as [|c l Hc Hl IH]; intros [|n] v i Hn; cbn [length] in Hn; try lia.
  - cbn [app fold_left length]. rewrite Z.add_0_r. destruct r as [|c r]; cbn [dec_loop]; [reflexivity|].
    unfold stops, sqlite3Isdigit in Hr. cbn in Hr. destruct (Z.leb_spec 48 c), (Z.leb_spec c 57); cbn in Hr;
      try discriminate; destruct (Z.leb_spec 0 (c - 48)), (Z.leb_spec (c - 48) 9); cbn; try reflexivity; lia.
  - cbn [app dec_loop fold_left length]. destruct (Z.leb_spec 0 (c - 48)), (Z.leb_spec (c - 48) 9); try lia.
    cbn [andb]. rewrite IH by lia. f_equal. lia.
Qed.

Lemma dec_loop_long n l r v i : all_digits l -> (n <= length l)%nat ->
  snd (dec_loop n (l ++ r) v i) = i + Z.of_nat n.
Proof.
  intros Hl. revert n v i. induction Hl as [|c l Hc Hl IH]; intros [|n] v i Hn; cbn [length] in Hn; try lia.
  - cbn. lia.
  - cbn. lia.
  - cbn [app dec_loop]. destruct (Z.leb_spec 0 (c - 48)), (Z.leb_spec (c - 48) 9); try lia.
    cbn [andb]. rewrite IH by lia. lia.
Qed.

Lemma value_first l : all_digits l -> l <> [] -> l.[0] <> 48 -> 10 ^ (Z.of_nat (length l) - 1) <= value l.
Proof.
  intros Hl Hn H0. destruct Hl as [|c l Hc Hl]; [congruence|]. cbn in H0. rewrite value_cons.
  pose proof (value_range l Hl). cbn [length]. rewrite Nat2Z.inj_succ.
  replace (Z.succ (Z.of_nat (length l)) - 1) with (Z.of_nat (length l)) by lia. nia.
Qed.

Lemma skip_zeros_app l r : stops r -> skip_zeros (l ++ r) = skip_zeros l ++ r.
Proof.
  intros Hr. induction l as [|c l IH]; cbn [app skip_zeros].
  - destruct r as [|c r]; [reflexivity|]. cbn [skip_zeros]. destruct (Z.eqb_spec c 48); [|reflexivity].
    subst. discriminate Hr.
  - destruct (c =? 48); [exact IH | reflexivity].
Qed.

(** The decimal branch, on the digits [l]. *)
Lemma decimal_spec neg l r : all_digits l -> stops r -> neg = 0 \/ neg = 1 ->
  (let '(v, i) := dec_loop 11 (skip_zeros (l ++ r)) 0 0 in
   if 10 <? i then None
   else if 2147483647 <? v - neg then None
   else Some (if neg =? 0 then v else - v))
  = if value l - neg <? 2 ^ 31 then Some (if neg =? 0 then value l else - value l) else None.
Proof.
  intros Hl Hr Hneg. rewrite skip_zeros_app by exact Hr.
  destruct (skip_zeros_spec l Hl) as (z & _ & V & D & N). set (s := skip_zeros l) in *.
  destruct (Nat.lt_ge_cases (length s) 11) as [Hs|Hs].
  - rewrite dec_loop_app by assumption. change (fold_left _ s 0) with (value s). rewrite V.
    destruct (Z.ltb_spec 10 (0 + Z.of_nat (length s))); [lia|].
    destruct (Z.ltb_spec 2147483647 (value l - neg)), (Z.ltb_spec (value l - neg) (2 ^ 31)); try lia; reflexivity.
  - pose proof (dec_loop_long 11 s r 0 0 D Hs) as E. destruct (dec_loop 11 (s ++ r) 0 0) as [v i].
    cbn [snd] in E. destruct (Z.ltb_spec 10 i); [|lia].
    assert (10 ^ 10 <= value s).
    { assert (s <> []) by (intros E0; rewrite E0 in Hs; cbn in Hs; lia).
      pose proof (value_first s D H0 N). pose proof (Z.pow_le_mono_r 10 10 (Z.of_nat (length s) - 1)). lia. }
    destruct (Z.ltb_spec (value l - neg) (2 ^ 31)); [|reflexivity].
    change (10 ^ 10) with 10000000000 in *. lia.
Qed.

Definition signed (sign : list Z) (v : Z) : Z := if sign.[0] =? 45 then - v else v.

Lemma getint32_value sign l r :
  sign = [] \/ sign = [45] \/ sign = [43] -> all_digits l -> l <> [] -> stops r ->
  r.[0] <> 120 -> r.[0] <> 88 ->
  let v := signed sign (value l) in
  sqlite3GetInt32 (sign ++ l ++ r) = if (- 2 ^ 31 <=? v) && (v <? 2 ^ 31) then Some v else None.
Proof.
  intros Hsign Hl Hn Hr Hx HX v. destruct l as [|c l]; [congruence|]. pose proof (Forall_inv Hl) as Hc. cbn in Hc.
  pose proof (value_range _ Hl) as Hv. assert (Dc : sqlite3Isdigit c = true) by (now apply isdigit_range).
  destruct Hsign as [-> |[-> | ->]]; unfold sqlite3GetInt32; cbn [app nth tl].
  - destruct (Z.eqb_spec c 45); [lia|]. destruct (Z.eqb_spec c 43); [lia|].
    assert (NX : (((l ++ r).[0] =? 120) || ((l ++ r).[0] =? 88)) = false).
    { destruct l as [|d l]; cbn [app nth].
      - destruct (Z.eqb_spec (nth 0 r 0) 120), (Z.eqb_spec (nth 0 r 0) 88); try contradiction; reflexivity.
      - apply Forall_inv_tail, Forall_inv in Hl. destruct (Z.eqb_spec d 120), (Z.eqb_spec d 88); try lia; reflexivity. }
    change (nth 1 (c :: l ++ r) 0) with (nth 0 (l ++ r) 0). rewrite NX, andb_false_r. cbn [andb].
    rewrite Dc. cbn [negb]. etransitivity; [exact (decimal_spec 0 (c :: l) r Hl Hr (or_introl eq_refl))|]. unfold v, signed. cbn [nth Z.eqb].
    rewrite Z.sub_0_r. destruct (Z.leb_spec (- 2 ^ 31) (value (c :: l))); [reflexivity | lia].
  - cbn [Z.eqb Pos.eqb]. rewrite Dc. cbn [negb]. etransitivity; [exact (decimal_spec 1 (c :: l) r Hl Hr (or_intror eq_refl))|].
    unfold v, signed. cbn [nth Z.eqb Pos.eqb].
    destruct (Z.ltb_spec (value (c :: l) - 1) (2 ^ 31)), (Z.leb_spec (- 2 ^ 31) (- value (c :: l))),
      (Z.ltb_spec (- value (c :: l)) (2 ^ 31)); cbn [andb]; try reflexivity; lia.
  - cbn [Z.eqb Pos.eqb]. rewrite Dc. cbn [negb]. etransitivity; [exact (decimal_spec 0 (c :: l) r Hl Hr (or_introl eq_refl))|]. unfold v, signed.
    cbn [nth Z.eqb Pos.eqb]. rewrite Z.sub_0_r.
    destruct (Z.leb_spec (- 2 ^ 31) (value (c :: l))); [reflexivity | lia].
Qed.

Lemma digits_spec fuel : forall n, 0 <= n < 10 ^ Z.of_nat fuel -> (0 < fuel)%nat ->
  all_digits (digits fuel n) /\ value (digits fuel n) = n /\ digits fuel n <> [].
Proof.
  induction fuel as [|fuel IH]; intros n Hn Hf; [lia|]. cbn [digits].
  destruct (Z.ltb_spec n 10) as [H|H].
  - split; [repeat constructor; lia|]. split; [unfold value; cbn [fold_left]; lia | discriminate].
  - rewrite Nat2Z.inj_succ, Z.pow_succ_r in Hn by lia.
    assert (0 < fuel)%nat by (destruct fuel; [cbn in Hn; lia | lia]).
    destruct (IH (n / 10)) as (D & V & _); [|lia|].
    { split; [apply Z.div_pos; lia | apply Z.div_lt_upper_bound; lia]. }
    pose proof (Z.mod_pos_bound n 10). split; [apply Forall_app; split; [exact D | repeat constructor; lia]|].
    split; [|now destruct (digits fuel (n / 10))].
    rewrite value_app, V. cbn [length Z.of_nat]. unfold value. cbn [fold_left]. rewrite (Z.div_mod n 10) at 3 by lia.
    change (10 ^ Z.pos 1) with 10. change (10 ^ Z.of_nat 1) with 10. lia.
Qed.

(** Integers in settings of SQLite: a sign, digits and anything else behind them give the
    exact value if it fits 32 bits, and 0 otherwise; no number of digits makes it wrap. *)
Theorem atoi32_exact sign l r :
  sign = [] \/ sign = [45] \/ sign = [43] -> all_digits l -> l <> [] -> stops r ->
  r.[0] <> 120 -> r.[0] <> 88 ->
  let v := signed sign (value l) in
  sqlite3Atoi (sign ++ l ++ r) = if (- 2 ^ 31 <=? v) && (v <? 2 ^ 31) then v else 0.
Proof.
  intros Hs Hl Hn Hr Hx HX v. unfold sqlite3Atoi. rewrite (getint32_value sign l r) by assumption.
  fold v. now destruct (_ && _).
Qed.

Lemma atoi32_exact_witness :
  sqlite3Atoi (str "-0002147483648 kB") = - 2 ^ 31 /\ sqlite3Atoi (str "2147483648") = 0.
Proof.
  split.
  - apply (atoi32_exact [45] (str "0002147483648") (str " kB")); [auto | | discriminate | reflexivity | |];
      [now apply digits_of_bool | cbn; lia | cbn; lia].
  - apply (atoi32_exact [] (str "2147483648") []); [auto | | discriminate | reflexivity | |];
      [now apply digits_of_bool | cbn; lia | cbn; lia].
Defined.

Lemma dec_value_app l r v : all_digits l -> stops r ->
  dec_value (l ++ r) v = fold_left (fun v c => v * 10 + (c - 48)) l v.
Proof.
  intros Hl Hr. revert v. induction Hl as [|c l Hc Hl IH]; intros v; cbn [app dec_value fold_left].
  - destruct r as [|c r]; [reflexivity|]. cbn [dec_value]. unfold stops in Hr. cbn in Hr. now rewrite Hr.
  - rewrite (proj2 (isdigit_range c)) by lia. apply IH.
Qed.

Lemma as_int_small v : - 2 ^ 31 <= v < 2 ^ 31 -> as_int v = v.
Proof.
  intros H. unfold as_int. rewrite u32_mod. destruct (Z.neg_nonneg_cases v).
  - replace (v mod 2 ^ 32) with (v + 2 ^ 32)
      by (rewrite <- (Z.mod_small (v + 2 ^ 32) (2 ^ 32)) at 1 by lia; rewrite <- (Z.mul_1_l (2 ^ 32)) at 1; apply Z.mod_add; lia).
    destruct (Z.ltb_spec (v + 2 ^ 32) (2 ^ 31)); lia.
  - rewrite Z.mod_small by lia. destruct (Z.ltb_spec v (2 ^ 31)); lia.
Qed.

(** A printed number is read back by both readers. *)
Lemma printed_int n :
  - 2 ^ 31 <= n < 2 ^ 31 -> sqlite3GetInt32 (print_int n) = Some n /\ atoi (print_int n) = n.
Proof.
  intros Hn. unfold print_int, atoi.
  assert (R : forall m, 0 <= m <= 2 ^ 31 -> all_digits (digits 20 m) /\ value (digits 20 m) = m /\ digits 20 m <> [])
    by (intros m Hm; apply digits_spec; [cbn; lia | lia]).
  assert (Dv : forall l, all_digits l -> dec_value l 0 = value l)
    by (intros l Hl; rewrite <- (app_nil_r l) at 1; now apply dec_value_app).
  destruct (Z.ltb_spec n 0).
  - destruct (R (- n) ltac:(lia)) as (D & V & N).
    pose proof (getint32_value [45] (digits 20 (- n)) [] (or_intror (or_introl eq_refl)) D N eq_refl
                  ltac:(cbn; lia) ltac:(cbn; lia)) as G.
    unfold signed in G. cbn [nth Z.eqb Pos.eqb] in G. rewrite V, app_nil_r, Z.opp_involutive in G. cbn [app] in G.
    rewrite G. destruct (Z.leb_spec (- 2 ^ 31) n), (Z.ltb_spec n (2 ^ 31)); try lia. split; [reflexivity|].
    cbn [skip_space isspace Z.eqb Z.leb Z.compare Pos.compare Pos.compare_cont orb andb nth Pos.eqb tl].
    rewrite Dv, V, Z.opp_involutive by exact D. rewrite Z.min_l, Z.max_r by lia. now apply as_int_small.
  - destruct (R n ltac:(lia)) as (D & V & N).
    pose proof (getint32_value [] (digits 20 n) [] (or_introl eq_refl) D N eq_refl
                  ltac:(cbn; lia) ltac:(cbn; lia)) as G.
    unfold signed in G. cbn [nth Z.eqb] in G. rewrite V, app_nil_r in G. cbn [app] in G.
    rewrite G. destruct (Z.leb_spec (- 2 ^ 31) n), (Z.ltb_spec n (2 ^ 31)); try lia. split; [reflexivity|].
    rewrite <- V at 2. destruct (digits 20 n) as [|c l]; [congruence|]. pose proof (Forall_inv D) as Hc. cbn in Hc.
    assert (Sp : isspace c = false) by (unfold isspace; destruct (Z.eqb_spec c 32), (Z.leb_spec 9 c), (Z.leb_spec c 13); try lia; reflexivity).
    cbn [skip_space]. rewrite Sp. cbn [nth]. destruct (Z.eqb_spec c 45), (Z.eqb_spec c 43); try lia.
    rewrite Dv by exact D. rewrite V, Z.min_l, Z.max_r by lia. now apply as_int_small.
Qed.

(** An integer that is printed into a setting, by the format %d, is read back unchanged by
    both readers that settings pass through, over the whole range of int. *)
Theorem integer_text_roundtrip n :
  - 2 ^ 31 <= n < 2 ^ 31 -> sqlite3GetInt32 (print_int n) = Some n /\ atoi (print_int n) = n.
Proof. exact (printed_int n). Qed.

Lemma integer_text_roundtrip_witness :
  sqlite3GetInt32 (print_int (-256000)) = Some (-256000) /\ atoi (print_int (-256000)) = -256000.
Proof. apply (integer_text_roundtrip (-256000)). lia. Defined.

(** ** Booleans *)

Lemma strnicmp_lower N : forall a b, no_nul a -> (N <= length a)%nat -> (N <= length b)%nat ->
  sqlite3StrNICmp a b N = 0 <-> map sqlite3UpperToLower (firstn N a) = map sqlite3UpperToLower (firstn N b).
Proof.
  induction N as [|N IH]; intros a b Ha La Lb; [cbn; tauto|].
  destruct a as [|c a], b as [|x b]; cbn [length] in *; try lia.
  apply Forall_cons_iff in Ha. destruct Ha as [Hc Ha]. cbn [sqlite3StrNICmp nth tl firstn map].
  destruct (Z.eqb_spec c 0); [lia|]. cbn [negb andb].
  destruct (Z.eqb_spec (sqlite3UpperToLower c) (sqlite3UpperToLower x)) as [E|E].
  - rewrite IH by (assumption || lia). rewrite E. split; [intros ->; reflexivity | intros E'; now injection E'].
  - split; [lia|]. intros E'. injection E' as E1 _. contradiction.
Qed.

Lemma zText_no_nul : no_nul zText.
Proof.
  apply Forall_forall. intros c Hc.
  assert (H : forallb (fun c => (0 <? c) && (c <? 256)) zText = true) by reflexivity.
  apply (proj1 (forallb_forall _ _) H) in Hc. lia.
Qed.

Definition text_eqb (a b : list Z) : bool := if list_eq_dec Z.eq_dec a b then true else false.

(** A word of the table against a text. *)
Lemma word_match off len z : Z.of_nat (length z) < 2 ^ 30 -> 0 <= len ->
  (off + Z.to_nat len <= length zText)%nat ->
  ((len =? sqlite3Strlen30 z) && (sqlite3StrNICmp (skipn off zText) z (Z.to_nat (sqlite3Strlen30 z)) =? 0))
  = text_eqb (map sqlite3UpperToLower (slice zText off (Z.to_nat len))) (map sqlite3UpperToLower z).
Proof.
  intros Lz Hlen Hoff. assert (En : sqlite3Strlen30 z = Z.of_nat (length z)).
  { unfold sqlite3Strlen30. rewrite Z.land_comm. change 0x3fffffff with (Z.ones 30).
    rewrite Z.land_ones, Z.mod_small by lia. reflexivity. }
  rewrite En, Nat2Z.id. unfold text_eqb.
  assert (Hd : no_nul (skipn off zText)).
  { pose proof zText_no_nul as H. rewrite <- (firstn_skipn off zText) in H. now apply Forall_app in H. }
  destruct (Z.eqb_spec len (Z.of_nat (length z))) as [L|L]; cbn [andb].
  - pose proof (strnicmp_lower (length z) (skipn off zText) z Hd
      ltac:(rewrite length_skipn; lia) (Nat.le_refl _)) as H.
    rewrite (firstn_all z) in H. unfold slice. replace (Z.to_nat len) with (length z) by lia.
    destruct (list_eq_dec _ _ _) as [E|E]; [apply Z.eqb_eq | apply Z.eqb_neq]; tauto.
  - destruct (list_eq_dec _ _ _) as [E|E]; [|reflexivity]. exfalso.
    apply (f_equal (@length Z)) in E. rewrite !length_map, length_slice in E by lia. lia.
Qed.

(** Booleans in settings: without regard to case, no, off and false are false, and on, yes
    and true are true; any other text that is not a number gives the default, the words extra
    and full included. *)
Theorem boolean_words z dflt :
  Z.of_nat (length z) < 2 ^ 30 -> sqlite3Isdigit (z.[0]) = false ->
  let w := map sqlite3UpperToLower z in
  sqlite3GetBoolean z dflt
  = if existsb (text_eqb w) [str "no"; str "off"; str "false"] then false
    else if existsb (text_eqb w) [str "on"; str "yes"; str "true"] then true
    else negb (dflt =? 0).
Proof.
  intros Lz Hd w. unfold sqlite3GetBoolean, getSafetyLevel. rewrite Hd. unfold safety_words. cbn [find].
  rewrite !word_match by (assumption || (cbn; lia)). fold w.
  cbn [negb orb]. change (1 <=? 1) with true. change (0 <=? 1) with true. change (3 <=? 1) with false.
  change (2 <=? 1) with false. rewrite !andb_true_r, !andb_false_r. cbn [existsb].
  assert (S : forall a b, text_eqb a b = text_eqb b a) by (intros a b; unfold text_eqb;
    destruct (list_eq_dec Z.eq_dec a b), (list_eq_dec Z.eq_dec b a); congruence).
  assert (D : forall a b, text_eqb w a = true -> text_eqb w b = true -> a = b) by (intros a b; unfold text_eqb;
    destruct (list_eq_dec Z.eq_dec w a), (list_eq_dec Z.eq_dec w b); congruence).
  rewrite !(S _ w).
  change (map sqlite3UpperToLower (slice zText 0 (Z.to_nat 2))) with (str "on").
  change (map sqlite3UpperToLower (slice zText 1 (Z.to_nat 2))) with (str "no").
  change (map sqlite3UpperToLower (slice zText 2 (Z.to_nat 3))) with (str "off").
  change (map sqlite3UpperToLower (slice zText 4 (Z.to_nat 5))) with (str "false").
  change (map sqlite3UpperToLower (slice zText 9 (Z.to_nat 3))) with (str "yes").
  change (map sqlite3UpperToLower (slice zText 12 (Z.to_nat 4))) with (str "true").
  destruct (text_eqb w (str "on")) eqn:E1.
  - destruct (text_eqb w (str "no")) eqn:E2; [discriminate (D _ _ E1 E2)|].
    destruct (text_eqb w (str "off")) eqn:E3; [discriminate (D _ _ E1 E3)|].
    destruct (text_eqb w (str "false")) eqn:E4; [discriminate (D _ _ E1 E4)|]. reflexivity.
  - destruct (text_eqb w (str "no")), (text_eqb w (str "off")), (text_eqb w (str "false")); try reflexivity.
    destruct (text_eqb w (str "yes")), (text_eqb w (str "true")); reflexivity.
Qed.

Lemma boolean_words_witness :
  sqlite3GetBoolean (str "OfF") 1 = false /\ sqlite3GetBoolean (str "maybe") 1 = true.
Proof.
  split.
  - apply (boolean_words (str "OfF") 1); [cbn; lia | reflexivity].
  - apply (boolean_words (str "maybe") 1); [cbn; lia | reflexivity].
Defined.
