(* ===== verification/ScHeap.v ===== *)
(** * SQLCipher: the private heap

    Keys, passphrases and page buffers live in a heap of their own (sqlcipher.c): one block
    of memory, locked if possible, that holds a linked list of blocks with their headers in
    front of them.  [sqlcipher_malloc] takes the first free block that is large enough and
    splits it; [sqlcipher_free] overwrites a block with noise and merges it with its free
    neighbours.  Requests that do not fit go to the allocator of SQLite.

    The heap is modelled as the bytes it consists of, headers included: a block pointer is
    an address, its header is read from and written to the bytes.  [layout] describes the
    bytes as a list of blocks, and the operations are shown to implement the operations
    [alloc_spec] and [free_spec] on that list. *)

From Stdlib Require Import ZArith Lia List Bool.
From S2P Require Import Prelude ScBytes.
Import ListNotations.
Local Open Scope Z_scope.

(** ** The program *)

Definition sizeof_private_block : Z := 16.
Definition SQLCIPHER_PRIVATE_HEAP_MIN_SPLIT_SIZE : Z := 32.
Definition SQLCIPHER_PRIVATE_HEAP_ALIGNMENT : Z := 8.

Definition SQLCIPHER_PRIVATE_HEAP_ROUNDUP (x : Z) : Z :=
  if negb (x mod SQLCIPHER_PRIVATE_HEAP_ALIGNMENT =? 0)
  then u64 ((x / SQLCIPHER_PRIVATE_HEAP_ALIGNMENT + 1) * SQLCIPHER_PRIVATE_HEAP_ALIGNMENT)
  else x.

(** Integers in memory, as a little-endian host stores them. *)
Fixpoint le_bytes (n : nat) (v : Z) : list Z :=
  match n with O => [] | S n => v mod 256 :: le_bytes n (v / 256) end.

(** The fields of a block: [next] at offset 0, [size] at 8, [is_used] at 12. *)
Definition block_next (m : list Z) (o : nat) : Z := le_num (slice m o 8).
Definition block_size (m : list Z) (o : nat) : Z := le_num (slice m (o + 8) 4).
Definition block_is_used (m : list Z) (o : nat) : Z := le_num (slice m (o + 12) 4).
Definition set_next (m : list Z) (o : nat) (v : Z) : list Z := memcpy m o (le_bytes 8 v).
Definition set_size (m : list Z) (o : nat) (v : Z) : list Z := memcpy m (o + 8) (le_bytes 4 v).
Definition set_is_used (m : list Z) (o : nat) (v : Z) : list Z := memcpy m (o + 12) (le_bytes 4 v).

(** The globals of the allocator.  [heap_mem] are the [private_heap_sz] bytes at the address
    [private_heap]; [mallocs] are the addresses that coming calls of the allocator of SQLite
    return, 0 for a failure; [outside] are the blocks it has handed out. *)
Record Heap := mkHeap {
  private_heap : Z;
  heap_mem : list Z;
  private_heap_used : Z;
  private_heap_hwm : Z;
  private_heap_alloc : Z;
  private_heap_allocs : Z;
  private_heap_overflow : Z;
  private_heap_overflows : Z;
  xoshiro_s : list Z;
  mallocs : list Z;
  outside : list (Z * list Z)
}.

(** The conversion of an unsigned length to the parameter of type int. *)
Definition to_int (n : Z) : Z :=
  let n := u32 n in if n <? 2 ^ 31 then n else n - 2 ^ 32.

(** [None] is a write behind the end of the block that was allocated. *)
Definition sqlcipher_internal_malloc (h : Heap) (sz : Z) : option (Z * Heap) :=
  let n := to_int sz in
  let ptr := if n <=? 0 then 0 else match mallocs h with [] => 0 | a :: _ => a end in
  let rest := if n <=? 0 then mallocs h else tl (mallocs h) in
  let h' o := mkHeap (private_heap h) (heap_mem h) (private_heap_used h) (private_heap_hwm h)
                (private_heap_alloc h) (private_heap_allocs h) (private_heap_overflow h)
                (private_heap_overflows h) (xoshiro_s h) rest o in
  if ptr =? 0 then Some (0, h' (outside h))
  else if n =? sz then Some (ptr, h' ((ptr, memset 0 (Z.to_nat sz)) :: outside h))
  else None.

(** Noise goes over the block, then it is released. *)
Definition sqlcipher_internal_free (h : Heap) (ptr : Z) (sz : Z) : option Heap :=
  let '(_, s) := xoshiro_randomness true (xoshiro_s h) (Z.to_nat (to_int sz)) in
  let h' o := mkHeap (private_heap h) (heap_mem h) (private_heap_used h) (private_heap_hwm h)
                (private_heap_alloc h) (private_heap_allocs h) (private_heap_overflow h)
                (private_heap_overflows h) s (mallocs h) o in
  match find (fun b => fst b =? ptr) (outside h) with
  | Some b =>
      if (Z.to_nat (to_int sz) <=? length (snd b))%nat
      then Some (h' (filter (fun b => negb (fst b =? ptr)) (outside h)))
      else None
  | None => if (ptr =? 0) && (to_int sz <=? 0) then Some (h' (outside h)) else None
  end.

(** The block at offset [o] is taken for [size] bytes. *)
Definition take_block (B : Z) (m : list Z) (o : nat) (size : Z) : list Z :=
  let m := set_is_used m o 1 in
  let m := sqlcipher_memset m (o + 16) 0 (Z.to_nat size) in
  if size + sizeof_private_block + SQLCIPHER_PRIVATE_HEAP_MIN_SPLIT_SIZE <=? block_size m o then
    let split := (o + Z.to_nat size + 16)%nat in
    let m := set_is_used m split 0 in
    let m := set_size m split (u32 (block_size m o - size - sizeof_private_block)) in
    let m := set_next m split (block_next m o) in
    let m := set_next m o (B + Z.of_nat split) in
    set_size m o (u32 size)
  else m.

Fixpoint malloc_loop (fuel : nat) (B : Z) (m : list Z) (block size : Z) : option (Z * list Z) :=
  match fuel with
  | O => None
  | S fuel =>
      if block =? 0 then Some (0, m)
      else
        let o := Z.to_nat (block - B) in
        if (block_is_used m o =? 0) && (size <=? block_size m o)
        then Some (block + sizeof_private_block, take_block B m o size)
        else malloc_loop fuel B m (block_next m o) size
  end.

(** One step for each header that fits into the heap, and one for its end. *)
Definition loop_fuel (h : Heap) : nat := S (length (heap_mem h)).

Definition sqlcipher_malloc (h : Heap) (size : Z) : option (Z * Heap) :=
  if size <? 1 then Some (0, h)
  else
    let size := SQLCIPHER_PRIVATE_HEAP_ROUNDUP size in
    match malloc_loop (loop_fuel h) (private_heap h) (heap_mem h) (private_heap h) size with
    | None => None
    | Some (alloc, m) =>
        if alloc =? 0 then
          sqlcipher_internal_malloc
            (mkHeap (private_heap h) m (private_heap_used h) (private_heap_hwm h)
               (private_heap_alloc h) (private_heap_allocs h)
               (u64 (private_heap_overflow h + size)) (u32 (private_heap_overflows h + 1))
               (xoshiro_s h) (mallocs h) (outside h)) size
        else
          let used := u64 (private_heap_used h + size) in
          Some (alloc,
            mkHeap (private_heap h) m used
              (if private_heap_hwm h <? used then used else private_heap_hwm h)
              (u64 (private_heap_alloc h + size)) (u32 (private_heap_allocs h + 1))
              (private_heap_overflow h) (private_heap_overflows h) (xoshiro_s h) (mallocs h)
              (outside h))
    end.

(** The free block at [o] absorbs the block behind it, at [n]. *)
Definition merge (m : list Z) (o n : nat) : list Z :=
  let m := set_size m o (u32 (block_size m o + sizeof_private_block + block_size m n)) in
  set_next m o (block_next m n).

(** The block [block] was found: it is overwritten and merged with its neighbours. *)
Definition release_block (B : Z) (m s : list Z) (block prev : Z) : Z * list Z * list Z :=
  let o := Z.to_nat (block - B) in
  let p := Z.to_nat (prev - B) in
  let m := set_is_used m o 0 in
  let bsize := block_size m o in
  let '(noise, s) := xoshiro_randomness true s (Z.to_nat bsize) in
  let m := memcpy m (o + 16) noise in
  let '(m, o) :=
    if negb (prev =? 0) && (block_is_used m p =? 0) then (merge m p o, p) else (m, o) in
  let n := Z.to_nat (block_next m o - B) in
  let m := if negb (block_next m o =? 0) && (block_is_used m n =? 0) then merge m o n else m in
  (bsize, m, s).

(** [None] inside the option: the address is not that of a block of the heap. *)
Fixpoint free_loop (fuel : nat) (B : Z) (m s : list Z) (block prev mem : Z)
    : option (option Z * list Z * list Z) :=
  match fuel with
  | O => None
  | S fuel =>
      if block =? 0 then Some (None, m, s)
      else if mem =? block + sizeof_private_block then
        let '(bsize, m, s) := release_block B m s block prev in Some (Some bsize, m, s)
      else free_loop fuel B m s (block_next m (Z.to_nat (block - B))) block mem
  end.

Definition sqlcipher_free (h : Heap) (mem sz : Z) : option Heap :=
  match free_loop (loop_fuel h) (private_heap h) (heap_mem h) (xoshiro_s h) (private_heap h) 0 mem with
  | None => None
  | Some (None, _, _) => sqlcipher_internal_free h mem sz
  | Some (Some bsize, m, s) =>
      Some (mkHeap (private_heap h) m (u64 (private_heap_used h - bsize)) (private_heap_hwm h)
              (private_heap_alloc h) (private_heap_allocs h) (private_heap_overflow h)
              (private_heap_overflows h) s (mallocs h) (outside h))
  end.

(** ** Headers in memory *)

Lemma length_le_bytes n v : length (le_bytes n v) = n.
Proof. revert v. induction n; intros v; cbn; auto. Qed.

Lemma le_num_le_bytes n v : 0 <= v < 256 ^ Z.of_nat n -> le_num (le_bytes n v) = v.
Proof.
  revert v. induction n as [|n IH]; intros v Hv.
  - cbn in *. lia.
  - rewrite Nat2Z.inj_succ, Z.pow_succ_r in Hv by lia. cbn [le_bytes le_num].
    rewrite IH; [pose proof (Z.div_mod v 256); lia |].
    split; [apply Z.div_pos; lia | apply Z.div_lt_upper_bound; lia].
Qed.

Definition hdr (next size used : Z) : list Z := le_bytes 8 next ++ le_bytes 4 size ++ le_bytes 4 used.

Lemma length_hdr n s u : length (hdr n s u) = 16%nat.
Proof. unfold hdr. now rewrite !length_app, !length_le_bytes. Qed.

Section Header.
Context (P R : list Z) (o : nat) (n s u : Z).
Hypothesis HP : length P = o.

Let m := P ++ hdr n s u ++ R.

Lemma hdr_parts : m = P ++ le_bytes 8 n ++ (le_bytes 4 s ++ le_bytes 4 u ++ R)
  /\ m = (P ++ le_bytes 8 n) ++ le_bytes 4 s ++ (le_bytes 4 u ++ R)
  /\ m = (P ++ le_bytes 8 n ++ le_bytes 4 s) ++ le_bytes 4 u ++ R.
Proof. unfold m, hdr. rewrite <- !app_assoc. auto. Qed.

Lemma get_next : 0 <= n < 2 ^ 64 -> block_next m o = n.
Proof.
  intros H. unfold block_next. rewrite (proj1 hdr_parts).
  rewrite slice_app by (auto using length_le_bytes). apply le_num_le_bytes. cbn. lia.
Qed.

Lemma get_size : 0 <= s < 2 ^ 32 -> block_size m o = s.
Proof.
  intros H. unfold block_size. rewrite (proj1 (proj2 hdr_parts)).
  rewrite slice_app by (rewrite ?length_app, ?length_le_bytes; lia).
  apply le_num_le_bytes. cbn. lia.
Qed.

Lemma get_used : 0 <= u < 2 ^ 32 -> block_is_used m o = u.
Proof.
  intros H. unfold block_is_used. rewrite (proj2 (proj2 hdr_parts)).
  rewrite slice_app by (rewrite ?length_app, ?length_le_bytes; lia).
  apply le_num_le_bytes. cbn. lia.
Qed.

Lemma put_next v : set_next m o v = P ++ hdr v s u ++ R.
Proof.
  unfold set_next. rewrite (proj1 hdr_parts), memcpy_app by (rewrite ?length_le_bytes; auto).
  unfold hdr. now rewrite <- !app_assoc.
Qed.

Lemma put_size v : set_size m o v = P ++ hdr n v u ++ R.
Proof.
  unfold set_size. rewrite (proj1 (proj2 hdr_parts)), memcpy_app
    by (rewrite ?length_app, ?length_le_bytes; lia).
  unfold hdr. now rewrite <- !app_assoc.
Qed.

Lemma put_used v : set_is_used m o v = P ++ hdr n s v ++ R.
Proof.
  unfold set_is_used. rewrite (proj2 (proj2 hdr_parts)), memcpy_app
    by (rewrite ?length_app, ?length_le_bytes; lia).
  unfold hdr. now rewrite <- !app_assoc.
Qed.

End Header.

Lemma memcpy_inside (P J R x : list Z) o k :
  length P = o -> (k + length x <= length J)%nat ->
  memcpy (P ++ J ++ R) (o + k) x = P ++ memcpy J k x ++ R.
Proof.
  intros <- H.
  rewrite <- (firstn_skipn k J) at 1. rewrite <- (firstn_skipn (length x) (skipn k J)) at 1.
  rewrite <- !app_assoc, (app_assoc P), memcpy_app.
  - unfold memcpy. rewrite <- !app_assoc, skipn_skipn. do 4 f_equal. now rewrite Nat.add_comm.
  - rewrite length_app, length_firstn. lia.
  - rewrite length_firstn, length_skipn. lia.
Qed.

(** Sixteen bytes that become a header by writing its three fields. *)
Lemma write_header P J R o n s u :
  length P = o -> length J = 16%nat ->
  set_next (set_size (set_is_used (P ++ J ++ R) o u) o s) o n = P ++ hdr n s u ++ R.
Proof.
  intros HP HJ.
  assert (E : J = firstn 8 J ++ firstn 4 (skipn 8 J) ++ skipn 12 J).
  { rewrite <- (firstn_skipn 8 J) at 1. f_equal.
    rewrite <- (firstn_skipn 4 (skipn 8 J)) at 1. f_equal. now rewrite skipn_skipn. }
  assert (L1 : length (firstn 8 J) = 8%nat) by (rewrite length_firstn; lia).
  assert (L2 : length (firstn 4 (skipn 8 J)) = 4%nat) by (rewrite length_firstn, length_skipn; lia).
  assert (L3 : length (skipn 12 J) = 4%nat) by (rewrite length_skipn; lia).
  rewrite E. set (a := firstn 8 J) in *. set (b := firstn 4 (skipn 8 J)) in *.
  set (c := skipn 12 J) in *. clearbody a b c.
  unfold set_is_used. rewrite <- !app_assoc. rewrite (app_assoc a b), (app_assoc P (a ++ b)).
  rewrite memcpy_app by (rewrite ?length_app, ?length_le_bytes; lia).
  unfold set_size. rewrite <- !app_assoc. rewrite (app_assoc P a).
  rewrite memcpy_app by (rewrite ?length_app, ?length_le_bytes; lia).
  unfold set_next. rewrite <- !app_assoc.
  rewrite memcpy_app by (rewrite ?length_app, ?length_le_bytes; lia).
  unfold hdr. now rewrite <- !app_assoc.
Qed.

(** ** The heap as a list of blocks *)

Abbreviation blk := (bool * list Z)%type.

Definition used_flag (u : bool) : Z := if u then 1 else 0.

Fixpoint layout (B : Z) (off : nat) (bs : list blk) (last : Z) : list Z :=
  match bs with
  | [] => []
  | (u, p) :: r =>
      hdr (match r with [] => last | _ => B + Z.of_nat (off + 16 + length p) end)
          (Z.of_nat (length p)) (used_flag u)
      ++ p ++ layout B (off + 16 + length p) r last
  end.

Fixpoint span (bs : list blk) : nat :=
  match bs with [] => 0%nat | (_, p) :: r => (16 + length p + span r)%nat end.

Lemma span_app a b : span (a ++ b) = (span a + span b)%nat.
Proof. induction a as [|[u p] a IH]; cbn [app span]; lia. Qed.

Lemma length_layout B off bs last : length (layout B off bs last) = span bs.
Proof.
  revert off. induction bs as [|[u p] r IH]; intros off; cbn [layout span]; [reflexivity|].
  rewrite !length_app, length_hdr, IH. lia.
Qed.

Lemma layout_app B pre b post last : forall off,
  layout B off (pre ++ b :: post) last
  = layout B off pre (B + Z.of_nat (off + span pre)) ++ layout B (off + span pre) (b :: post) last.
Proof.
  induction pre as [|[u p] pre IH]; intros off.
  - cbn [app layout span]. now rewrite Nat.add_0_r.
  - cbn [app]. cbn [layout span] in *. rewrite IH.
    replace (off + (16 + length p + span pre))%nat with (off + 16 + length p + span pre)%nat by lia.
    rewrite <- !app_assoc. f_equal.
    destruct pre as [|[u' p'] pre]; cbn [app span]; [|reflexivity].
    now rewrite Nat.add_0_r.
Qed.

(** The address that the header in front of [r] holds for the block behind it. *)
Definition next_of (B : Z) (off : nat) (r : list blk) : Z :=
  match r with [] => 0 | _ => B + Z.of_nat off end.

Lemma layout_cons B off u p r :
  layout B off ((u, p) :: r) 0
  = hdr (next_of B (off + 16 + length p) r) (Z.of_nat (length p)) (used_flag u)
    ++ p ++ layout B (off + 16 + length p) r 0.
Proof. destruct r; reflexivity. Qed.

(** Taking the first block that fits: the offset of its memory and the blocks after it. *)
Fixpoint alloc_spec (off size : nat) (bs : list blk) : option (nat * list blk) :=
  match bs with
  | [] => None
  | (u, p) :: r =>
      if negb u && (size <=? length p)%nat then
        Some (off + 16,
          if size + 48 <=? length p
          then (true, memset 0 size) :: (false, skipn (size + 16) p) :: r
          else (true, memset 0 size ++ skipn size p) :: r)%nat
      else match alloc_spec (off + 16 + length p) size r with
           | Some (a, r) => Some (a, (u, p) :: r)
           | None => None
           end
  end.

Definition fits (B : Z) (bs : list blk) : Prop :=
  0 < B /\ B + Z.of_nat (span bs) < 2 ^ 64 /\ Z.of_nat (span bs) < 2 ^ 31.

Lemma used_flag_range u : 0 <= used_flag u < 2 ^ 32.
Proof. destruct u; cbn; lia. Qed.

Lemma next_of_range B off r n :
  0 < B -> B + Z.of_nat n < 2 ^ 64 -> (off <= n)%nat -> 0 <= next_of B off r < 2 ^ 64.
Proof. intros. unfold next_of. destruct r; lia. Qed.

Lemma take_block_spec B P p R o nx size :
  length P = o -> (size <= length p)%nat -> 0 <= nx < 2 ^ 64 -> Z.of_nat (length p) < 2 ^ 31 ->
  take_block B (P ++ hdr nx (Z.of_nat (length p)) 0 ++ p ++ R) o (Z.of_nat size)
  = if (size + 48 <=? length p)%nat
    then P ++ hdr (B + Z.of_nat (o + size + 16)) (Z.of_nat size) 1 ++ memset 0 size
         ++ hdr nx (Z.of_nat (length p - size - 16)) 0 ++ skipn (size + 16) p ++ R
    else P ++ hdr nx (Z.of_nat (length p)) 1 ++ (memset 0 size ++ skipn size p) ++ R.
Proof.
  intros HP Hs Hn Hp. unfold take_block. rewrite put_used by exact HP.
  rewrite Nat2Z.id, sqlcipher_memset_memcpy
    by (rewrite !length_app, length_hdr; lia).
  assert (E : memcpy (P ++ hdr nx (Z.of_nat (length p)) 1 ++ p ++ R) (o + 16) (memset 0 size)
              = P ++ hdr nx (Z.of_nat (length p)) 1 ++ memset 0 size ++ skipn size p ++ R).
  { rewrite <- (firstn_skipn size p) at 2. rewrite <- !app_assoc.
    rewrite (app_assoc P), memcpy_app, <- !app_assoc; [reflexivity | |];
      rewrite ?length_app, ?length_hdr, ?length_memset, ?length_firstn; lia. }
  rewrite E, get_size by (assumption || lia).
  unfold sizeof_private_block, SQLCIPHER_PRIVATE_HEAP_MIN_SPLIT_SIZE.
  destruct (Nat.leb_spec (size + 48) (length p)), (Z.leb_spec (Z.of_nat size + 16 + 32) (Z.of_nat (length p)));
    try lia; [|now rewrite <- !app_assoc].
  set (Z1 := Z.of_nat (length p)) in *.
  assert (ES : skipn size p = firstn 16 (skipn size p) ++ skipn (size + 16) p).
  { rewrite <- (firstn_skipn 16 (skipn size p)) at 1. now rewrite skipn_skipn, Nat.add_comm. }
  rewrite ES, <- !app_assoc. set (J := firstn 16 (skipn size p)).
  assert (HJ : length J = 16%nat) by (unfold J; rewrite length_firstn, length_skipn; lia).
  set (P2 := P ++ hdr nx Z1 1 ++ memset 0 size).
  assert (HP2 : length P2 = (o + size + 16)%nat)
    by (unfold P2; rewrite !length_app, length_hdr, length_memset; lia).
  set (T := skipn (size + 16) p ++ R).
  replace (P ++ hdr nx Z1 1 ++ memset 0 size ++ J ++ T) with (P2 ++ J ++ T)
    by (unfold P2; now rewrite <- !app_assoc).
  assert (G : forall X, block_size (P2 ++ X) o = Z1 /\ block_next (P2 ++ X) o = nx).
  { intros X. unfold P2. rewrite <- !app_assoc. split; [apply get_size | apply get_next]; lia. }
  assert (GS : block_size (set_is_used (P2 ++ J ++ T) (o + size + 16) 0) o = Z1).
  { unfold set_is_used. rewrite memcpy_inside by (rewrite ?length_le_bytes; lia). apply G. }
  rewrite GS. set (w := u32 (Z1 - Z.of_nat size - 16)).
  assert (Ew : w = Z.of_nat (length p - size - 16))
    by (unfold w; rewrite u32_small by (unfold is_u32, Z1; lia); unfold Z1; lia).
  clearbody w. subst w.
  match goal with |- context [block_next ?m o] => assert (GN : block_next m o = nx) end.
  { unfold set_size, set_is_used. rewrite memcpy_inside by (rewrite ?length_le_bytes; lia).
    rewrite memcpy_inside
      by (rewrite ?length_memcpy; rewrite ?length_le_bytes; lia).
    apply G. }
  rewrite GN, write_header by assumption.
  unfold P2. rewrite <- !app_assoc. rewrite put_next by exact HP. rewrite put_size by exact HP.
  rewrite u32_small by (unfold is_u32; lia). reflexivity.
Qed.

(** The header of the block behind [pre], as it lies in the whole heap. *)
Lemma layout_at B pre u p r :
  layout B 0 (pre ++ (u, p) :: r) 0
  = layout B 0 pre (B + Z.of_nat (span pre))
    ++ hdr (next_of B (span pre + 16 + length p) r) (Z.of_nat (length p)) (used_flag u)
    ++ p ++ layout B (span pre + 16 + length p) r 0.
Proof. rewrite layout_app, layout_cons. reflexivity. Qed.

Lemma addr_at B n : 0 < B -> (B + Z.of_nat n =? 0) = false /\ Z.to_nat (B + Z.of_nat n - B) = n.
Proof. intros. split; [apply Z.eqb_neq; lia | lia]. Qed.

Lemma used_flag_zero u : (used_flag u =? 0) = negb u.
Proof. now destruct u. Qed.

Lemma malloc_loop_spec B size bs : forall pre fuel,
  fits B (pre ++ bs) -> (length bs < fuel)%nat ->
  malloc_loop fuel B (layout B 0 (pre ++ bs) 0) (next_of B (span pre) bs) (Z.of_nat size)
  = match alloc_spec (span pre) size bs with
    | Some (a, bs') => Some (B + Z.of_nat a, layout B 0 (pre ++ bs') 0)
    | None => Some (0, layout B 0 (pre ++ bs) 0)
    end.
Proof.
  induction bs as [|[u p] r IH]; intros pre [|fuel] Hf Hl; cbn [length] in Hl; try lia.
  - reflexivity.
  - pose proof Hf as (HB & HN & HS). rewrite span_app in HN, HS. cbn [span] in HN, HS.
    cbn [malloc_loop next_of]. destruct (addr_at B (span pre) HB) as [-> E]. rewrite E.
    rewrite layout_at. set (P := layout B 0 pre _).
    assert (HP : length P = span pre) by apply length_layout.
    assert (HX : 0 <= next_of B (span pre + 16 + length p) r < 2 ^ 64)
      by (apply (next_of_range _ _ _ (span pre + (16 + length p + span r))); lia).
    rewrite get_used, get_size, get_next by (auto using used_flag_range; lia).
    rewrite used_flag_zero. cbn [alloc_spec].
    assert (EL : (Z.of_nat size <=? Z.of_nat (length p)) = (size <=? length p)%nat).
    { destruct (Z.leb_spec (Z.of_nat size) (Z.of_nat (length p))),
        (Nat.leb_spec size (length p)); lia || reflexivity. }
    rewrite EL. destruct (negb u && (size <=? length p)%nat) eqn:EF.
    + apply andb_prop in EF. destruct EF as [Hu Hle%Nat.leb_le].
      destruct u; [discriminate Hu|]. cbn [used_flag].
      rewrite take_block_spec by (assumption || lia).
      f_equal. f_equal; [unfold sizeof_private_block; lia|].
      destruct (Nat.leb_spec (size + 48) (length p)).
      * rewrite layout_at, length_memset. fold P. cbn [next_of used_flag].
        replace (span pre + 16 + size)%nat with (span pre + size + 16)%nat by lia.
        rewrite layout_cons, length_skipn.
        replace (span pre + size + 16 + 16 + (length p - (size + 16)))%nat
          with (span pre + 16 + length p)%nat by lia.
        replace (length p - (size + 16))%nat with (length p - size - 16)%nat by lia. reflexivity.
      * rewrite layout_at. fold P. rewrite length_app, length_memset, length_skipn.
        replace (size + (length p - size))%nat with (length p) by lia. reflexivity.
    + unfold P. rewrite <- (layout_at B pre u p r).
      specialize (IH (pre ++ [(u, p)]) fuel). rewrite <- app_assoc in IH. cbn [app] in IH.
      assert (SP : span (pre ++ [(u, p)]) = (span pre + 16 + length p)%nat)
        by (rewrite span_app; cbn [span]; lia).
      rewrite SP in IH. etransitivity; [apply IH; assumption || lia|].
      destruct (alloc_spec (span pre + 16 + length p) size r) as [[a r']|]; [|reflexivity].
      now rewrite <- app_assoc.
Qed.

(** Two free neighbours become one block, the header between them part of its memory. *)
Definition join (B : Z) (off : nat) (bs : list blk) : list blk :=
  match bs with
  | (false, p) :: (false, q) :: r =>
      (false, p ++ hdr (next_of B (off + 16 + length p + 16 + length q) r) (Z.of_nat (length q)) 0
              ++ q) :: r
  | _ => bs
  end.

Lemma join_free B off p q r :
  join B off ((false, p) :: (false, q) :: r)
  = (false, p ++ hdr (next_of B (off + 16 + length p + 16 + length q) r) (Z.of_nat (length q)) 0
            ++ q) :: r.
Proof. reflexivity. Qed.

(** The blocks after the release of a block whose memory now holds [n]. *)
Definition free_spec (B : Z) (pre : list blk) (n : list Z) (r : list blk) : list blk :=
  match rev pre with
  | (false, q) :: pre' =>
      rev pre' ++ join B (span (rev pre'))
                    (join B (span (rev pre')) ((false, q) :: (false, n) :: r))
  | _ => pre ++ join B (span pre) ((false, n) :: r)
  end.

Lemma merge_spec B pre p u q r :
  fits B (pre ++ (false, p) :: (u, q) :: r) ->
  merge (layout B 0 (pre ++ (false, p) :: (u, q) :: r) 0) (span pre) (span pre + 16 + length p)
  = layout B 0 pre (B + Z.of_nat (span pre))
    ++ hdr (next_of B (span pre + 16 + length p + 16 + length q) r)
           (Z.of_nat (length p + 16 + length q)) 0
    ++ p ++ hdr (next_of B (span pre + 16 + length p + 16 + length q) r) (Z.of_nat (length q))
                (used_flag u)
    ++ q ++ layout B (span pre + 16 + length p + 16 + length q) r 0.
Proof.
  intros (HB & HN & HS). rewrite span_app in HN, HS. cbn [span] in HN, HS.
  unfold merge. rewrite layout_at, layout_cons. cbn [used_flag].
  set (P := layout B 0 pre _). assert (HP : length P = span pre) by apply length_layout.
  set (R := q ++ layout B _ r 0). set (nx := next_of B _ r).
  assert (HX : 0 <= nx < 2 ^ 64)
    by (apply (next_of_range _ _ _ (span pre + (16 + length p + (16 + length q + span r)))); lia).
  set (n1 := next_of B (span pre + 16 + length p) ((u, q) :: r)).
  assert (F : forall n s, let m := P ++ hdr n s 0 ++ p ++ hdr nx (Z.of_nat (length q)) (used_flag u) ++ R in
    block_size m (span pre + 16 + length p) = Z.of_nat (length q)
    /\ block_next m (span pre + 16 + length p) = nx).
  { intros n s m.
    assert (Em : m = (P ++ hdr n s 0 ++ p) ++ hdr nx (Z.of_nat (length q)) (used_flag u) ++ R)
      by (unfold m; now rewrite <- !app_assoc).
    rewrite Em. split; [apply get_size | apply get_next]; rewrite ?length_app, ?length_hdr; lia. }
  rewrite (proj1 (F n1 (Z.of_nat (length p)))), (get_size P _ (span pre)) by (assumption || lia).
  rewrite put_size by exact HP.
  rewrite (proj2 (F n1 _)). rewrite put_next by exact HP.
  rewrite u32_small by (unfold is_u32, sizeof_private_block; lia).
  unfold sizeof_private_block.
  now replace (Z.of_nat (length p) + 16 + Z.of_nat (length q))
    with (Z.of_nat (length p + 16 + length q)) by lia.
Qed.

Lemma join_step B pre p r :
  fits B (pre ++ (false, p) :: r) ->
  let m := layout B 0 (pre ++ (false, p) :: r) 0 in
  let n := Z.to_nat (block_next m (span pre) - B) in
  (if negb (block_next m (span pre) =? 0) && (block_is_used m n =? 0) then merge m (span pre) n else m)
  = layout B 0 (pre ++ join B (span pre) ((false, p) :: r)) 0.
Proof.
  intros Hf m n. pose proof Hf as (HB & HN & HS). rewrite span_app in HN, HS.
  cbn [span] in HN, HS.
  assert (E : block_next m (span pre) = next_of B (span pre + 16 + length p) r).
  { unfold m. rewrite layout_at. apply get_next; [apply length_layout|].
    apply (next_of_range _ _ _ (span pre + (16 + length p + span r))); lia. }
  unfold n. clear n. rewrite E. destruct r as [|[u q] r]; [reflexivity|]. cbn [span] in HN, HS.
  cbn [next_of]. destruct (addr_at B (span pre + 16 + length p) HB) as [-> EA]. rewrite EA.
  assert (U : block_is_used m (span pre + 16 + length p) = used_flag u).
  { unfold m. replace (pre ++ (false, p) :: (u, q) :: r) with ((pre ++ [(false, p)]) ++ (u, q) :: r)
      by now rewrite <- app_assoc.
    rewrite layout_at. apply get_used; [|apply used_flag_range].
    rewrite length_layout, span_app. cbn [span]. lia. }
  rewrite U, used_flag_zero. destruct u; [reflexivity|]. cbn [negb andb].
  unfold m. rewrite merge_spec by exact Hf. cbn [join used_flag].
  rewrite layout_at, !length_app, length_hdr. cbn [used_flag].
  rewrite <- !app_assoc.
  replace (length p + (16 + length q))%nat with (length p + 16 + length q)%nat by lia.
  replace (span pre + 16 + (length p + 16 + length q))%nat
    with (span pre + 16 + length p + 16 + length q)%nat by lia.
  reflexivity.
Qed.

Lemma span_same pre u p v q r :
  length p = length q -> span (pre ++ (u, p) :: r) = span (pre ++ (v, q) :: r).
Proof. intros H. rewrite !span_app. cbn [span]. lia. Qed.

Lemma wipe_spec B pre u p r n :
  length n = length p ->
  memcpy (set_is_used (layout B 0 (pre ++ (u, p) :: r) 0) (span pre) 0) (span pre + 16) n
  = layout B 0 (pre ++ (false, n) :: r) 0.
Proof.
  intros Hn. rewrite layout_at, put_used by apply length_layout.
  rewrite app_assoc, memcpy_app, <- app_assoc.
  - rewrite layout_at, Hn. reflexivity.
  - rewrite length_app, length_hdr, length_layout. lia.
  - exact Hn.
Qed.

Definition prev_of (B : Z) (pre : list blk) : Z :=
  match pre with [] => 0 | _ => B + Z.of_nat (span (removelast pre)) end.

Lemma prev_of_snoc B pre b : prev_of B (pre ++ [b]) = B + Z.of_nat (span pre).
Proof. unfold prev_of. rewrite removelast_last. destruct pre; reflexivity. Qed.

(** Two free neighbours, written as one block that contains the header between them. *)
Lemma layout_joined B pre q noise r :
  let e := (span pre + 16 + length q + 16 + length noise)%nat in
  let h := hdr (next_of B e r) in
  layout B 0 (pre ++ (false, q ++ h (Z.of_nat (length noise)) 0 ++ noise) :: r) 0
  = layout B 0 pre (B + Z.of_nat (span pre)) ++ h (Z.of_nat (length q + 16 + length noise)) 0
    ++ q ++ h (Z.of_nat (length noise)) 0 ++ noise ++ layout B e r 0.
Proof.
  intros e h. rewrite layout_at. cbn [used_flag].
  replace (length (q ++ h (Z.of_nat (length noise)) 0 ++ noise)) with (length q + 16 + length noise)%nat
    by (unfold h; rewrite !length_app, length_hdr; lia).
  replace (span pre + 16 + (length q + 16 + length noise))%nat with e by (unfold e; lia).
  now rewrite <- !app_assoc.
Qed.

Lemma release_block_spec B pre u p r s :
  fits B (pre ++ (u, p) :: r) ->
  let x := xoshiro_randomness true s (length p) in
  release_block B (layout B 0 (pre ++ (u, p) :: r) 0) s (B + Z.of_nat (span pre)) (prev_of B pre)
  = (Z.of_nat (length p), layout B 0 (free_spec B pre (fst x) r) 0, snd x).
Proof.
  intros Hf x. pose proof Hf as (HB & HN & HS).
  assert (Lx : length (fst x) = length p) by apply xoshiro_length.
  assert (Hf' : fits B (pre ++ (false, fst x) :: r)).
  { unfold fits. rewrite (span_same pre false (fst x) u p r Lx). exact Hf. }
  unfold release_block. destruct (addr_at B (span pre) HB) as [_ EA]. rewrite EA.
  assert (SZ : block_size (set_is_used (layout B 0 (pre ++ (u, p) :: r) 0) (span pre) 0) (span pre)
               = Z.of_nat (length p)).
  { rewrite layout_at, put_used by apply length_layout. rewrite span_app in HS. cbn [span] in HS.
    apply get_size; [apply length_layout | lia]. }
  rewrite SZ, Nat2Z.id. fold x. destruct x as [noise s'] eqn:Ex. cbn [fst snd] in *.
  rewrite (wipe_spec B pre u p r noise Lx).
  destruct pre as [|[v q] pre0 _] using rev_ind.
  - cbn [prev_of Z.eqb negb andb]. f_equal. f_equal. exact (join_step B [] noise r Hf').
  - rewrite prev_of_snoc. destruct (addr_at B (span pre0) HB) as [-> EP]. rewrite EP. cbn [negb andb].
    assert (S1 : span (pre0 ++ [(v, q)]) = (span pre0 + 16 + length q)%nat)
      by (rewrite span_app; cbn [span]; lia).
    unfold free_spec. rewrite rev_app_distr. cbn [rev app].
    assert (U : block_is_used (layout B 0 ((pre0 ++ [(v, q)]) ++ (false, noise) :: r) 0) (span pre0)
                = used_flag v).
    { rewrite <- app_assoc. cbn [app]. rewrite layout_at.
      apply get_used; [apply length_layout | apply used_flag_range]. }
    rewrite U, used_flag_zero. destruct v; cbn [negb].
    + f_equal. f_equal. exact (join_step B (pre0 ++ [(true, q)]) noise r Hf').
    + rewrite <- app_assoc in *. cbn [app] in *. rewrite rev_involutive.
      rewrite S1, merge_spec by exact Hf'. cbn [used_flag].
      rewrite <- layout_joined. f_equal. f_equal. cbn [join]. apply join_step.
      unfold fits in *. rewrite span_app in *. cbn [span] in *. rewrite !length_app, length_hdr. lia.
Qed.

(** The block whose memory starts at an address. *)
Fixpoint find_block (B : Z) (pre bs : list blk) (mem : Z) : option (list blk * list Z * list blk) :=
  match bs with
  | [] => None
  | (u, p) :: r =>
      if mem =? B + Z.of_nat (span pre) + 16 then Some (pre, p, r)
      else find_block B (pre ++ [(u, p)]) r mem
  end.

Lemma find_block_split B mem bs : forall pre l p r,
  find_block B pre bs mem = Some (l, p, r) ->
  exists u, pre ++ bs = l ++ (u, p) :: r /\ mem = B + Z.of_nat (span l) + 16.
Proof.
  induction bs as [|[u q] bs IH]; intros pre l p r H; cbn [find_block] in H; [discriminate|].
  destruct (Z.eqb_spec mem (B + Z.of_nat (span pre) + 16)) as [E|E].
  - injection H as <- <- <-. now exists u.
  - destruct (IH _ _ _ _ H) as (v & Hv & Hm). exists v. now rewrite <- app_assoc in Hv.
Qed.

Lemma find_block_at B u p r : forall l pre,
  find_block B pre (l ++ (u, p) :: r) (B + Z.of_nat (span (pre ++ l)) + 16) = Some (pre ++ l, p, r).
Proof.
  induction l as [|[v q] l IH]; intros pre; cbn [app find_block].
  - rewrite app_nil_r, Z.eqb_refl. reflexivity.
  - destruct (Z.eqb_spec (B + Z.of_nat (span (pre ++ (v, q) :: l)) + 16)
                (B + Z.of_nat (span pre) + 16)) as [E|E].
    + rewrite span_app in E. cbn [span] in E. lia.
    + replace (pre ++ (v, q) :: l) with ((pre ++ [(v, q)]) ++ l) by now rewrite <- app_assoc.
      apply IH.
Qed.

Lemma free_loop_spec B s mem bs : forall pre fuel,
  fits B (pre ++ bs) -> (length bs < fuel)%nat ->
  free_loop fuel B (layout B 0 (pre ++ bs) 0) s (next_of B (span pre) bs) (prev_of B pre) mem
  = match find_block B pre bs mem with
    | Some (l, p, r) =>
        let x := xoshiro_randomness true s (length p) in
        Some (Some (Z.of_nat (length p)), layout B 0 (free_spec B l (fst x) r) 0, snd x)
    | None => Some (None, layout B 0 (pre ++ bs) 0, s)
    end.
Proof.
  induction bs as [|[u p] r IH]; intros pre [|fuel] Hf Hl; cbn [length] in Hl; try lia.
  - reflexivity.
  - pose proof Hf as (HB & HN & HS). rewrite span_app in HN, HS. cbn [span] in HN, HS.
    cbn [free_loop next_of find_block]. destruct (addr_at B (span pre) HB) as [-> E]. rewrite E.
    unfold sizeof_private_block.
    destruct (Z.eqb_spec mem (B + Z.of_nat (span pre) + 16)).
    + rewrite (release_block_spec B pre u p r s Hf). reflexivity.
    + rewrite layout_at, get_next; [rewrite <- layout_at | apply length_layout |
        apply (next_of_range _ _ _ (span pre + (16 + length p + span r))); lia].
      specialize (IH (pre ++ [(u, p)]) fuel). rewrite <- app_assoc, prev_of_snoc in IH.
      cbn [app] in IH. rewrite span_app in IH. cbn [span] in IH.
      replace (span pre + 16 + length p)%nat with (span pre + (16 + length p + 0))%nat by lia.
      apply IH; assumption || lia.
Qed.

(** ** The state of the heap *)

Definition heap_blocks (h : Heap) (bs : list blk) : Prop :=
  heap_mem h = layout (private_heap h) 0 bs 0 /\ fits (private_heap h) bs /\ bs <> [].

Lemma fuel_enough B bs : (length bs < S (length (layout B 0 bs 0)))%nat.
Proof.
  rewrite length_layout. induction bs as [|[u p] r IH]; cbn [length span]; lia.
Qed.

Lemma malloc_spec h bs size :
  heap_blocks h bs -> 0 < size ->
  malloc_loop (loop_fuel h) (private_heap h) (heap_mem h) (private_heap h) size
  = match alloc_spec 0 (Z.to_nat size) bs with
    | Some (a, bs') => Some (private_heap h + Z.of_nat a, layout (private_heap h) 0 bs' 0)
    | None => Some (0, heap_mem h)
    end.
Proof.
  intros (Hm & Hf & Hn) Hs. unfold loop_fuel. rewrite Hm.
  pose proof (malloc_loop_spec (private_heap h) (Z.to_nat size) bs [] _ Hf
                (fuel_enough (private_heap h) bs)) as H.
  rewrite Z2Nat.id in H by lia. destruct bs as [|b r]; [congruence|].
  cbn [app next_of span] in H. rewrite Z.add_0_r in H. exact H.
Qed.

Lemma free_spec_of h bs mem :
  heap_blocks h bs ->
  free_loop (loop_fuel h) (private_heap h) (heap_mem h) (xoshiro_s h) (private_heap h) 0 mem
  = match find_block (private_heap h) [] bs mem with
    | Some (l, p, r) =>
        let x := xoshiro_randomness true (xoshiro_s h) (length p) in
        Some (Some (Z.of_nat (length p)),
              layout (private_heap h) 0 (free_spec (private_heap h) l (fst x) r) 0, snd x)
    | None => Some (None, heap_mem h, xoshiro_s h)
    end.
Proof.
  intros (Hm & Hf & Hn). unfold loop_fuel. rewrite Hm.
  pose proof (free_loop_spec (private_heap h) (xoshiro_s h) mem bs [] _ Hf
                (fuel_enough (private_heap h) bs)) as H.
  destruct bs as [|b r]; [congruence|].
  cbn [app next_of span prev_of] in H. rewrite Z.add_0_r in H. exact H.
Qed.

(** A block in use: its address and its contents. *)
Definition in_use (B : Z) (bs : list blk) (a : Z) (p : list Z) : Prop :=
  exists l r, bs = l ++ (true, p) :: r /\ a = B + Z.of_nat (span l) + 16.

Lemma two_splits {A} (x y : A) l1 : forall l2 r1 r2,
  l1 ++ x :: r1 = l2 ++ y :: r2 ->
  (l1 = l2 /\ x = y /\ r1 = r2)
  \/ (exists m, l2 = l1 ++ x :: m /\ r1 = m ++ y :: r2)
  \/ (exists m, l1 = l2 ++ y :: m /\ r2 = m ++ x :: r1).
Proof.
  induction l1 as [|a l1 IH]; intros [|b l2] r1 r2 H; cbn [app] in H.
  - injection H as -> ->. auto.
  - injection H as -> ->. right. left. now exists l2.
  - injection H as -> <-. right. right. now exists l1.
  - injection H as -> H. destruct (IH _ _ _ H) as [(-> & -> & ->)|[(m & -> & ->)|(m & -> & ->)]].
    + auto.
    + right. left. now exists m.
    + right. right. now exists m.
Qed.

(** The first block that fits is taken, and the rest of it may become a block of its own. *)
Lemma alloc_spec_shape size bs : forall off a bs',
  alloc_spec off size bs = Some (a, bs') ->
  exists l p r q t, bs = l ++ (false, p) :: r /\ (size <= length p)%nat
    /\ a = (off + span l + 16)%nat /\ bs' = l ++ (true, q) :: t ++ r
    /\ (size <= length q)%nat /\ firstn size q = memset 0 size
    /\ span (l ++ (true, q) :: t ++ r) = span bs
    /\ ((t = [] /\ length q = length p)
        \/ (exists f, t = [(false, f)] /\ length q = size /\ (length q + 16 + length f)%nat = length p)).
Proof.
  induction bs as [|[u p] bs IH]; intros off a bs' H; cbn [alloc_spec] in H; [discriminate|].
  destruct (negb u && (size <=? length p)%nat) eqn:E.
  - apply andb_prop in E. destruct E as [Eu El%Nat.leb_le]. destruct u; [discriminate|].
    apply some_inj, pair_inj in H. destruct H as [<- H]. exists [], p, bs.
    destruct (Nat.leb_spec (size + 48) (length p)).
    + exists (memset 0 size), [(false, skipn (size + 16) p)]. cbn [app span]. subst bs'.
      rewrite length_memset, length_skipn. split_and; try reflexivity; try lia.
      * apply firstn_all2. rewrite length_memset. lia.
      * right. exists (skipn (size + 16) p). rewrite length_skipn. split_and; lia || reflexivity.
    + exists (memset 0 size ++ skipn size p), []. cbn [app span]. subst bs'.
      rewrite length_app, length_memset, length_skipn. split_and; try reflexivity; try lia.
      * now rewrite firstn_app_l by apply length_memset.
      * left. split; [reflexivity | lia].
  - destruct (alloc_spec (off + 16 + length p) size bs) as [[a0 r0]|] eqn:EA; [|discriminate].
    apply some_inj, pair_inj in H. destruct H as [<- <-].
    destruct (IH _ _ _ EA) as (l & p' & r & q & t & -> & Hs & -> & -> & Hq & Hz & Hsp & Ht).
    exists ((u, p) :: l), p', r, q, t. cbn [app span] in *. split_and; auto; lia.
Qed.

Lemma alloc_spec_none size bs : forall off,
  alloc_spec off size bs = None <-> Forall (fun b => fst b = true \/ (length (snd b) < size)%nat) bs.
Proof.
  induction bs as [|[u p] bs IH]; intros off; cbn [alloc_spec].
  - split; [constructor | reflexivity].
  - rewrite Forall_cons_iff. cbn [fst snd]. specialize (IH (off + 16 + length p)%nat).
    destruct (negb u && (size <=? length p)%nat) eqn:E.
    + apply andb_prop in E. destruct E as [Eu El%Nat.leb_le]. destruct u; [discriminate|].
      split; [discriminate | intros [[H|H] _]; [discriminate | lia]].
    + assert (D : u = true \/ (length p < size)%nat).
      { destruct u; [now left|right]. cbn in E. now apply Nat.leb_gt in E. }
      destruct (alloc_spec _ size bs) as [[a r]|].
      * split; [discriminate|]. intros [_ H]. apply IH in H. discriminate.
      * rewrite <- IH. tauto.
Qed.

Lemma alloc_keeps B size bs a bs' :
  alloc_spec 0 size bs = Some (a, bs') ->
  span bs' = span bs /\ bs' <> [] /\ (exists p, in_use B bs' (B + Z.of_nat a) p
    /\ (size <= length p)%nat /\ firstn size p = memset 0 size
    /\ forall a' p', in_use B bs a' p' ->
         in_use B bs' a' p'
         /\ (a' + Z.of_nat (length p') <= B + Z.of_nat a
             \/ B + Z.of_nat a + Z.of_nat (length p) <= a')).
Proof.
  intros H. destruct (alloc_spec_shape _ _ _ _ _ H) as
    (l & p & r & q & t & -> & Hs & -> & -> & Hq & Hz & Hsp & Ht).
  split; [exact Hsp|]. split; [destruct l; discriminate|]. exists q.
  split; [exists l, (t ++ r); split; [reflexivity | lia]|]. split; [exact Hq|]. split; [exact Hz|].
  assert (Hspan : (16 + length q + span t = 16 + length p)%nat).
  { destruct Ht as [(-> & E)|(f & -> & E1 & E2)]; cbn [span]; lia. }
  intros a' p' (l2 & r2 & E & ->).
  destruct (two_splits _ _ _ _ _ _ E) as [(-> & Hc & _)|[(m & -> & ->)|(m & -> & ->)]];
    [discriminate Hc | |].
  - split.
    + exists (l ++ (true, q) :: t ++ m), r2. split.
      * rewrite <- !app_assoc. cbn [app]. now rewrite <- !app_assoc.
      * rewrite !span_app. cbn [span]. rewrite span_app. lia.
    + right. rewrite span_app. cbn [span]. lia.
  - split.
    + exists l2, (m ++ (true, q) :: t ++ r). split; [now rewrite <- app_assoc | reflexivity].
    + left. rewrite span_app. cbn [span]. lia.
Qed.

Lemma roundup_range size :
  0 < size <= 2 ^ 31 - 8 ->
  let n := SQLCIPHER_PRIVATE_HEAP_ROUNDUP size in size <= n < 2 ^ 31 /\ n mod 8 = 0.
Proof.
  intros H n. unfold n, SQLCIPHER_PRIVATE_HEAP_ROUNDUP, SQLCIPHER_PRIVATE_HEAP_ALIGNMENT.
  pose proof (Z.div_mod size 8). pose proof (Z.mod_pos_bound size 8).
  destruct (Z.eqb_spec (size mod 8) 0) as [E|E]; cbn [negb].
  - lia.
  - rewrite u64_small by lia. split; [lia|]. apply Z.mod_mul. lia.
Qed.

(** C3: Memory from the private heap: if a free block is large enough, a request returns an
    address inside the heap, the memory there is zero, the heap is again a list of blocks, and
    every block that was in use keeps its address and its contents and does not overlap the
    new one. *)
Theorem malloc_separate h bs size :
  heap_blocks h bs -> 0 < size <= 2 ^ 31 - 8 ->
  Exists (fun b => fst b = false
    /\ SQLCIPHER_PRIVATE_HEAP_ROUNDUP size <= Z.of_nat (length (snd b))) bs ->
  exists a h' bs' p,
    sqlcipher_malloc h size = Some (a, h')
    /\ private_heap h' = private_heap h /\ heap_blocks h' bs'
    /\ in_use (private_heap h) bs' a p
    /\ size <= Z.of_nat (length p) /\ firstn (Z.to_nat size) p = memset 0 (Z.to_nat size)
    /\ forall a' p', in_use (private_heap h) bs a' p' ->
         in_use (private_heap h) bs' a' p'
         /\ (a' + Z.of_nat (length p') <= a \/ a + Z.of_nat (length p) <= a').
Proof.
  intros Hb Hs Hex. pose proof Hb as (_ & (HB & HN & HS) & _).
  destruct (roundup_range size Hs) as [Hr _].
  unfold sqlcipher_malloc. destruct (Z.ltb_spec size 1); [lia|].
  set (n := SQLCIPHER_PRIVATE_HEAP_ROUNDUP size) in *.
  rewrite (malloc_spec h bs n Hb) by lia.
  destruct (alloc_spec 0 (Z.to_nat n) bs) as [[a bs']|] eqn:EA.
  - destruct (alloc_keeps (private_heap h) _ _ _ _ EA) as (Hsp & Hne & p & Hp & Hl & Hz & Hk).
    destruct (Z.eqb_spec (private_heap h + Z.of_nat a) 0); [lia|].
    do 4 eexists. split; [reflexivity|]. cbn [private_heap]. split; [reflexivity|].
    split; [split; [reflexivity | split; [unfold fits; rewrite Hsp; auto | exact Hne]]|].
    split; [exact Hp|]. split; [lia|]. split; [|exact Hk].
    replace (Z.to_nat size) with (Nat.min (Z.to_nat size) (Z.to_nat n)) at 1 by lia.
    rewrite <- firstn_firstn, Hz.
    replace (Z.to_nat n) with (Z.to_nat size + (Z.to_nat n - Z.to_nat size))%nat by lia.
    rewrite memset_app. apply firstn_app_l, length_memset.
  - apply alloc_spec_none in EA. apply Exists_exists in Hex. destruct Hex as (b & Hin & Hu & Hl).
    rewrite Forall_forall in EA. destruct (EA b Hin) as [E|E]; [congruence | lia].
Qed.

(** ** Release *)

(** The released block absorbs free neighbours: what it absorbs on the left are [cl], on the
    right [cr]; all other blocks stay where they are. *)
Lemma free_spec_shape B pre n r :
  exists l jl jr cl cr r',
    free_spec B pre n r = l ++ (false, jl ++ n ++ jr) :: r'
    /\ pre = l ++ cl /\ r = cr ++ r'
    /\ Forall (fun b => fst b = false) cl /\ Forall (fun b => fst b = false) cr
    /\ span cl = length jl /\ span cr = length jr
    /\ (cl = [] -> forall q l0, l <> l0 ++ [(false, q)])
    /\ (length cl <= 1)%nat /\ (length cr <= 1)%nat
    /\ (cr = [] -> forall q r0, r' <> (false, q) :: r0).
Proof.
  assert (J : forall off p, exists jr cr r', join B off ((false, p) :: r) = (false, p ++ jr) :: r'
     /\ r = cr ++ r' /\ Forall (fun b => fst b = false) cr /\ span cr = length jr
     /\ (length cr <= 1)%nat /\ (cr = [] -> forall q r0, r' <> (false, q) :: r0)).
  { intros off p. destruct r as [|[[|] q] r0]; cbn [join].
    - exists [], [], []. rewrite app_nil_r. split_and; auto; discriminate.
    - exists [], [], ((true, q) :: r0). rewrite app_nil_r. split_and; auto; discriminate.
    - eexists _, [(false, q)], r0. split; [reflexivity|]. split_and; auto; discriminate. }
  unfold free_spec. destruct pre as [|[v q] pre _] using rev_ind.
  - cbn [rev app]. destruct (J (span []) n) as (jr & cr & r' & -> & Hr & Hc & Hl & H1 & H2).
    exists [], [], jr, [], cr, r'. cbn [app]. split_and; auto. intros _ q l0. destruct l0; discriminate.
  - rewrite rev_app_distr. cbn [rev app]. destruct v.
    + destruct (J (span (pre ++ [(true, q)])) n) as (jr & cr & r' & -> & Hr & Hc & Hl & H1 & H2).
      exists (pre ++ [(true, q)]), [], jr, [], cr, r'. rewrite app_nil_r. cbn [app].
      split_and; auto. intros _ q0 l0 E. apply app_inj_tail in E. now destruct E.
    + rewrite rev_involutive, join_free.
      match goal with |- context [(false, ?p) :: r] => set (p1 := p) end.
      destruct (J (span pre) p1) as (jr & cr & r' & -> & Hr & Hc & Hl & H1 & H2).
      exists pre, (q ++ hdr (next_of B (span pre + 16 + length q + 16 + length n) r)
                          (Z.of_nat (length n)) 0), jr, [(false, q)], cr, r'.
      split_and; auto; try discriminate.
      * unfold p1. now rewrite <- !app_assoc.
      * rewrite length_app, length_hdr. cbn [span]. lia.
Qed.

(** Free blocks are never neighbours, and sizes are multiples of eight. *)
Fixpoint coalesced (bs : list blk) : Prop :=
  match bs with
  | (false, _) :: ((false, _) :: _) => False
  | _ :: r => coalesced r
  | [] => True
  end.

Definition aligned (bs : list blk) : Prop := Forall (fun b => (length (snd b) mod 8 = 0)%nat) bs.

Lemma coalesced_app l x r :
  coalesced (l ++ x :: r)
  <-> coalesced (l ++ [x]) /\ coalesced (x :: r).
Proof.
  induction l as [|[u p] l IH]; cbn [app].
  - destruct x as [[|] p]; cbn; tauto.
  - destruct l as [|[v q] l]; cbn [app] in *.
    + destruct x as [[|] q], u; cbn [coalesced]; tauto.
    + destruct u, v; cbn [coalesced] in *; tauto.
Qed.

Lemma coalesced_replace l p q u t r :
  coalesced (l ++ (false, p) :: r) ->
  (t = [] \/ (u = true /\ exists f, t = [(false, f)])) ->
  coalesced (l ++ (u, q) :: t ++ r).
Proof.
  rewrite coalesced_app. intros [Hl Hr] Ht.
  assert (Hl' : coalesced (l ++ [(u, q)])).
  { clear -Hl. induction l as [|[v s] l IH]; [now destruct u|].
    destruct l as [|[w z] l]; cbn [app] in *; destruct v, u; cbn [coalesced] in *; try tauto;
      destruct w; tauto. }
  rewrite coalesced_app. split; [exact Hl'|].
  destruct Ht as [->|(-> & f & ->)]; cbn [app].
  - destruct r as [|[[|] x] r]; destruct u; cbn [coalesced] in *; tauto.
  - destruct r as [|[[|] x] r]; cbn [coalesced] in *; tauto.
Qed.

Lemma coalesced_tail x r : coalesced (x :: r) -> coalesced r.
Proof. destruct x as [[|] p]; cbn; auto. destruct r as [|[[|] q] r]; cbn; tauto. Qed.

Lemma coalesced_app_r l r : coalesced (l ++ r) -> coalesced r.
Proof. induction l; cbn [app]; [auto|]. intros H. eauto using coalesced_tail. Qed.

Lemma coalesced_snoc_free l p :
  coalesced l -> (forall q l0, l <> l0 ++ [(false, q)]) -> coalesced (l ++ [(false, p)]).
Proof.
  induction l as [|[u s] l IH]; intros Hc Hn; [exact Logic.I|].
  destruct l as [|[v z] l]; cbn [app].
  - destruct u; [exact Logic.I|]. exfalso. apply (Hn s []). reflexivity.
  - assert (H : coalesced (((v, z) :: l) ++ [(false, p)])).
    { apply IH; [eauto using coalesced_tail|]. intros q l0 E. apply (Hn q ((u, s) :: l0)).
      cbn [app]. now rewrite E. }
    cbn [app] in H. destruct u, v; cbn [coalesced] in *; tauto.
Qed.

Lemma coalesced_app_l l r : coalesced (l ++ r) -> coalesced l.
Proof.
  induction l as [|[u p] l IH]; intros H; [exact Logic.I|].
  destruct l as [|[v q] l]; [now destruct u|]. cbn [app] in *.
  destruct u, v; cbn [coalesced] in *; tauto.
Qed.

Lemma free_coalesced B pre u p n r :
  coalesced (pre ++ (u, p) :: r) -> coalesced (free_spec B pre n r).
Proof.
  intros H. destruct (free_spec_shape B pre n r) as
    (l & jl & jr & cl & cr & r' & -> & -> & -> & Fl & Fr & _ & _ & Hl & H1 & H2 & Hr).
  rewrite <- app_assoc in H. apply coalesced_app. split.
  - apply coalesced_snoc_free; [eauto using coalesced_app_l|].
    destruct cl as [|[w c] cl]; [now apply Hl|].
    apply Forall_inv in Fl. cbn in Fl. subst w. intros q l0 ->.
    rewrite <- app_assoc in H. apply coalesced_app_r in H. cbn [app coalesced] in H. exact H.
  - apply coalesced_app_r in H. apply coalesced_app_r in H. apply coalesced_tail in H.
    destruct r' as [|[[|] q] r']; [exact Logic.I | now apply coalesced_app_r in H |].
    exfalso. destruct cr as [|[w c] cr]; [now apply (Hr eq_refl q r')|].
    destruct cr; [|cbn in H2; lia]. apply Forall_inv in Fr. cbn in Fr. subst w.
    cbn [app coalesced] in H. exact H.
Qed.

Lemma mod8_add a b : (a mod 8 = 0 -> b mod 8 = 0 -> (a + b) mod 8 = 0)%nat.
Proof.
  intros Ha Hb. rewrite Nat.Div0.add_mod, Ha, Hb. reflexivity.
Qed.

Lemma aligned_span bs : aligned bs -> (span bs mod 8 = 0)%nat.
Proof.
  induction 1 as [|[u p] r Hp Hr IH]; [reflexivity|]. cbn [span snd] in *.
  apply mod8_add; [|exact IH]. now apply (mod8_add 16).
Qed.

Lemma free_aligned B pre u p n r :
  length n = length p -> aligned (pre ++ (u, p) :: r) -> aligned (free_spec B pre n r).
Proof.
  intros Hn H. destruct (free_spec_shape B pre n r) as
    (l & jl & jr & cl & cr & r' & -> & -> & -> & _ & _ & El & Er & _).
  unfold aligned in *. rewrite <- app_assoc, !Forall_app, Forall_cons_iff, Forall_app in H.
  destruct H as (Hl & Hcl & Hp & Hcr & Hr). apply Forall_app. split; [exact Hl|].
  constructor; [|exact Hr]. cbn [snd] in *. rewrite !length_app, Hn, <- El, <- Er.
  repeat apply mod8_add; auto using aligned_span.
Qed.

Lemma free_span B pre u p n r :
  length n = length p -> span (free_spec B pre n r) = span (pre ++ (u, p) :: r).
Proof.
  intros Hn. destruct (free_spec_shape B pre n r) as
    (l & jl & jr & cl & cr & r' & -> & -> & -> & _ & _ & El & Er & _).
  rewrite !span_app. cbn [span]. rewrite span_app, !length_app, Hn, El, Er. lia.
Qed.

Lemma free_not_nil B pre n r : free_spec B pre n r <> [].
Proof.
  destruct (free_spec_shape B pre n r) as (l & jl & jr & cl & cr & r' & -> & _). destruct l; discriminate.
Qed.

Definition heap_ok (h : Heap) (bs : list blk) : Prop :=
  heap_blocks h bs /\ coalesced bs /\ aligned bs.

Lemma internal_malloc_mem h sz a h' :
  sqlcipher_internal_malloc h sz = Some (a, h') ->
  heap_mem h' = heap_mem h /\ private_heap h' = private_heap h /\ xoshiro_s h' = xoshiro_s h.
Proof.
  unfold sqlcipher_internal_malloc. intros H.
  repeat case_bool; try discriminate H; apply some_inj, pair_inj in H; destruct H as [_ <-]; auto.
Qed.

Lemma internal_free_mem h ptr sz h' :
  sqlcipher_internal_free h ptr sz = Some h' ->
  heap_mem h' = heap_mem h /\ private_heap h' = private_heap h.
Proof.
  unfold sqlcipher_internal_free. destruct (xoshiro_randomness _ _ _) as [n s]. intros H.
  destruct (find _ _); [destruct (_ <=? _)%nat | destruct (_ && _)]; try discriminate H;
    apply some_inj in H; subst h'; auto.
Qed.

Lemma aligned_alloc size l p r q t :
  aligned (l ++ (false, p) :: r) -> (size mod 8 = 0)%nat ->
  ((t = [] /\ length q = length p)
   \/ (exists f, t = [(false, f)] /\ length q = size /\ (length q + 16 + length f)%nat = length p)) ->
  aligned (l ++ (true, q) :: t ++ r).
Proof.
  unfold aligned. rewrite !Forall_app, !Forall_cons_iff, Forall_app. cbn [snd].
  intros (Hl & Hp & Hr) Hs [(-> & E)|(f & -> & E1 & E2)]; (split; [exact Hl|]).
  - rewrite E. auto.
  - split; [congruence|]. split; [|exact Hr]. constructor; [|constructor]. cbn [snd].
    rewrite <- E2, E1 in Hp.
    rewrite Nat.Div0.add_mod, (mod8_add size 16 Hs eq_refl), Nat.add_0_l, Nat.Div0.mod_mod in Hp.
    exact Hp.
Qed.

Lemma malloc_ok h bs size a h' :
  heap_ok h bs -> 0 < size <= 2 ^ 31 - 8 -> sqlcipher_malloc h size = Some (a, h') ->
  private_heap h' = private_heap h /\ exists bs', heap_ok h' bs' /\ span bs' = span bs.
Proof.
  intros (Hb & Hc & Ha) Hs H. destruct (roundup_range size Hs) as [Hr H8].
  unfold sqlcipher_malloc in H. destruct (Z.ltb_spec size 1); [lia|].
  set (n := SQLCIPHER_PRIVATE_HEAP_ROUNDUP size) in *.
  rewrite (malloc_spec h bs n Hb) in H by lia.
  destruct (alloc_spec 0 (Z.to_nat n) bs) as [[o bs']|] eqn:EA.
  - destruct Hb as (_ & (HB & HN & HS) & _).
    destruct (Z.eqb_spec (private_heap h + Z.of_nat o) 0); [lia|].
    apply some_inj, pair_inj in H. destruct H as [_ <-]. cbn [private_heap].
    destruct (alloc_spec_shape _ _ _ _ _ EA) as
      (l & p & r & q & t & -> & _ & _ & -> & _ & _ & Hsp & Ht).
    split; [reflexivity|]. exists (l ++ (true, q) :: t ++ r). split; [|exact Hsp].
    split; [|split].
    + split; [reflexivity|]. split; [unfold fits; cbn [private_heap]; rewrite Hsp; auto|].
      destruct l; discriminate.
    + apply (coalesced_replace l p); [exact Hc|].
      destruct Ht as [(-> & _)|(f & -> & _)]; eauto.
    + apply (aligned_alloc (Z.to_nat n) l p); [exact Ha | | exact Ht].
      apply Nat2Z.inj. rewrite Nat2Z.inj_mod, Z2Nat.id by lia. exact H8.
  - cbn [Z.eqb] in H. destruct (internal_malloc_mem _ _ _ _ H) as (E1 & E2 & _).
    cbn [heap_mem private_heap] in *. split; [exact E2|]. exists bs. split; [|reflexivity].
    split; [|auto]. unfold heap_blocks in *. now rewrite E1, E2.
Qed.

Lemma free_ok h bs mem sz h' :
  heap_ok h bs -> sqlcipher_free h mem sz = Some h' ->
  private_heap h' = private_heap h /\ exists bs', heap_ok h' bs' /\ span bs' = span bs.
Proof.
  intros (Hb & Hc & Ha) H. unfold sqlcipher_free in H. rewrite (free_spec_of h bs mem Hb) in H.
  destruct (find_block (private_heap h) [] bs mem) as [[[l p] r]|] eqn:EF.
  - destruct (find_block_split _ _ _ _ _ _ _ EF) as (u & E & _). cbn [app] in E. subst bs.
    cbn zeta in H. apply some_inj in H. subst h'. cbn [private_heap]. split; [reflexivity|].
    set (n := fst (xoshiro_randomness true (xoshiro_s h) (length p))).
    assert (Hn : length n = length p) by apply xoshiro_length.
    exists (free_spec (private_heap h) l n r).
    split; [|now apply free_span]. split; [|split].
    + destruct Hb as (_ & Hf & _). split; [reflexivity|]. split; [|apply free_not_nil].
      unfold fits in *. cbn [private_heap]. now rewrite (free_span _ _ u p).
    + now apply (free_coalesced _ _ u p).
    + now apply (free_aligned _ _ u p).
  - destruct (internal_free_mem _ _ _ _ H) as (E1 & E2). split; [exact E2|]. exists bs.
    split; [|reflexivity]. split; [|auto]. unfold heap_blocks in *. now rewrite E1, E2.
Qed.

(** A block in use is not among the free ones that were absorbed. *)
Lemma free_in_right cr r0 m p r2 :
  Forall (fun b : blk => fst b = false) cr -> cr ++ r0 = m ++ (true, p) :: r2 ->
  exists m', m = cr ++ m' /\ r0 = m' ++ (true, p) :: r2.
Proof.
  intros H. revert m. induction H as [|[u c] cr Hu Hc IH]; intros m E.
  - now exists m.
  - destruct m as [|x m]; cbn [app] in E.
    + injection E as -> _ _. discriminate Hu.
    + injection E as <- E. destruct (IH m E) as (m' & -> & ->). now exists m'.
Qed.

Lemma free_in_left l0 cl l2 p m :
  Forall (fun b : blk => fst b = false) cl -> l0 ++ cl = l2 ++ (true, p) :: m ->
  exists m', l0 = l2 ++ (true, p) :: m' /\ m = m' ++ cl.
Proof.
  intros H. revert l2. induction l0 as [|x l0 IH]; intros l2 E.
  - cbn [app] in E. subst cl. rewrite Forall_app, Forall_cons_iff in H.
    destruct H as (_ & Hu & _). discriminate Hu.
  - destruct l2 as [|y l2]; cbn [app] in E.
    + injection E as -> <-. now exists l0.
    + injection E as -> E. destruct (IH l2 E) as (m' & -> & ->). now exists m'.
Qed.

(** C31: Release of memory: the bytes of a block that is freed are replaced by noise, every other
    block in use keeps its address and contents, and no block in use is left at the address. *)
Theorem free_wipes h bs a p sz :
  heap_blocks h bs -> in_use (private_heap h) bs a p ->
  exists h' bs', sqlcipher_free h a sz = Some h'
    /\ private_heap h' = private_heap h /\ heap_blocks h' bs'
    /\ slice (heap_mem h') (Z.to_nat (a - private_heap h)) (length p)
       = fst (xoshiro_randomness true (xoshiro_s h) (length p))
    /\ (forall a' p', a' <> a -> in_use (private_heap h) bs a' p' -> in_use (private_heap h) bs' a' p')
    /\ (forall a' p', in_use (private_heap h) bs' a' p' ->
          a' <> a /\ in_use (private_heap h) bs a' p').
Proof.
  intros Hb (l & r & -> & ->). pose proof Hb as (_ & Hf & _).
  unfold sqlcipher_free. rewrite (free_spec_of h _ _ Hb).
  pose proof (find_block_at (private_heap h) true p r l []) as EF. cbn [app] in EF. rewrite EF.
  clear EF. cbn zeta. set (n := fst (xoshiro_randomness true (xoshiro_s h) (length p))).
  assert (Hn : length n = length p) by apply xoshiro_length.
  set (B := private_heap h) in *. eexists _, (free_spec B l n r). split; [reflexivity|].
  cbn [private_heap heap_mem]. split; [reflexivity|].
  split; [split; [reflexivity | split; [|apply free_not_nil]]|].
  { unfold fits in *. cbn [private_heap]. fold B. now rewrite (free_span _ _ true p). }
  destruct (free_spec_shape B l n r) as
    (l0 & jl & jr & cl & cr & r0 & -> & -> & -> & Fl & Fr & El & Er & _).
  rewrite span_app. split; [|split].
  - replace (Z.to_nat (B + Z.of_nat (span l0 + span cl) + 16 - B))%nat
      with (span l0 + 16 + length jl)%nat by lia.
    rewrite layout_at, <- !app_assoc.
    rewrite (app_assoc (layout _ _ _ _)), (app_assoc (_ ++ hdr _ _ _)).
    apply slice_app; [rewrite !length_app, length_layout, length_hdr; lia | exact Hn].
  - intros a' p' Ha (l2 & r2 & E & ->).
    destruct (two_splits _ _ _ _ _ _ E) as [(<- & _)|[(m & -> & Em)|(m & Em & ->)]].
    + exfalso. apply Ha. rewrite span_app. lia.
    + destruct (free_in_right cr r0 m p' r2 Fr Em) as (m' & -> & ->).
      exists (l0 ++ (false, jl ++ n ++ jr) :: m'), r2. split; [now rewrite <- app_assoc|].
      rewrite !span_app. cbn [span]. rewrite span_app, !length_app. lia.
    + destruct (free_in_left l0 cl l2 p' m Fl Em) as (m' & -> & ->).
      exists l2, (m' ++ (false, jl ++ n ++ jr) :: r0). split; [now rewrite <- app_assoc | reflexivity].
  - intros a' p' (l2 & r2 & E & ->).
    destruct (two_splits _ _ _ _ _ _ E) as [(_ & Hc & _)|[(m & -> & ->)|(m & -> & ->)]];
      [discriminate Hc | |].
    + split; [rewrite span_app; cbn [span]; rewrite !length_app; lia|].
      exists (((l0 ++ cl) ++ (true, p) :: cr) ++ m), r2. split; [now rewrite <- !app_assoc|].
      rewrite !span_app. cbn [span]. rewrite !length_app. lia.
    + split; [rewrite span_app; cbn [span]; lia|].
      exists l2, (m ++ cl ++ (true, p) :: cr ++ r0). split; [now rewrite <- !app_assoc | reflexivity].
Qed.

(** ** All sequences of calls *)

Lemma le_bytes_inj n a b :
  0 <= a < 256 ^ Z.of_nat n -> 0 <= b < 256 ^ Z.of_nat n -> le_bytes n a = le_bytes n b -> a = b.
Proof.
  intros Ha Hb E. rewrite <- (le_num_le_bytes n a Ha), <- (le_num_le_bytes n b Hb). now rewrite E.
Qed.

Lemma hdr_inj n s u n' s' u' :
  0 <= n < 2 ^ 64 -> 0 <= n' < 2 ^ 64 -> 0 <= s < 2 ^ 32 -> 0 <= s' < 2 ^ 32 ->
  0 <= u < 2 ^ 32 -> 0 <= u' < 2 ^ 32 -> hdr n s u = hdr n' s' u' -> n = n' /\ s = s' /\ u = u'.
Proof.
  intros Hn Hn' Hs Hs' Hu Hu' E. unfold hdr in E.
  apply app_inj_len in E; [|now rewrite !length_le_bytes]. destruct E as [E1 E].
  apply app_inj_len in E; [|now rewrite !length_le_bytes]. destruct E as [E2 E3].
  split; [apply (le_bytes_inj 8); cbn; auto|].
  split; apply (le_bytes_inj 4); cbn; auto.
Qed.

(** The bytes determine the blocks. *)
Lemma layout_inj B N bs : forall off bs',
  0 < B -> B + Z.of_nat N < 2 ^ 64 -> Z.of_nat N < 2 ^ 31 ->
  (off + span bs <= N)%nat -> (off + span bs' <= N)%nat -> (bs = [] <-> bs' = []) ->
  layout B off bs 0 = layout B off bs' 0 -> bs = bs'.
Proof.
  induction bs as [|[u p] r IH]; intros off bs' HB HN HS Hs Hs' Hnil E.
  - symmetry. now apply Hnil.
  - destruct bs' as [|[u' p'] r']; [destruct Hnil as [_ Hnil]; now discriminate Hnil|].
    cbn [span] in Hs, Hs'. rewrite !layout_cons in E.
    apply app_inj_len in E; [|now rewrite !length_hdr]. destruct E as [E1 E].
    apply hdr_inj in E1; auto using used_flag_range;
      try (apply (next_of_range _ _ _ N); lia); try lia.
    destruct E1 as (En & El & Eu). assert (Hl : length p = length p') by lia.
    apply app_inj_len in E; [|exact Hl]. destruct E as [<- E].
    assert (u = u') as <- by (destruct u, u'; cbn in Eu; congruence). f_equal.
    apply (IH (off + 16 + length p)%nat); auto; try lia.
    destruct r, r'; cbn [next_of] in En; split; intros; try discriminate; try reflexivity; lia.
Qed.

Lemma blocks_unique h bs bs' : heap_blocks h bs -> heap_blocks h bs' -> bs = bs'.
Proof.
  intros (E & (HB & HN & HS) & Hn) (E' & (_ & HN' & HS') & Hn').
  assert (Es : span bs = span bs') by (rewrite <- (length_layout (private_heap h) 0 bs 0),
    <- (length_layout (private_heap h) 0 bs' 0); congruence).
  apply (layout_inj (private_heap h) (span bs) bs 0 bs'); try lia; try congruence. tauto.
Qed.

(** The heap after any requests and releases, also of addresses that are not in use. *)
Inductive reachable (h0 : Heap) : Heap -> Prop :=
| reach_start : reachable h0 h0
| reach_malloc h size a h' :
    reachable h0 h -> 0 < size <= 2 ^ 31 - 8 -> sqlcipher_malloc h size = Some (a, h') ->
    reachable h0 h'
| reach_free h mem sz h' :
    reachable h0 h -> sqlcipher_free h mem sz = Some h' -> reachable h0 h'.

Lemma reachable_ok h0 bs0 h :
  heap_ok h0 bs0 -> reachable h0 h ->
  private_heap h = private_heap h0 /\ exists bs, heap_ok h bs /\ span bs = span bs0.
Proof.
  intros H0 Hr. induction Hr as [|h size a h' _ (E & bs & Hb & Hs) Hz H|h mem sz h' _ (E & bs & Hb & Hs) H].
  - eauto.
  - destruct (malloc_ok _ _ _ _ _ Hb Hz H) as (E' & bs' & Hb' & Hs').
    split; [congruence|]. exists bs'. split; [exact Hb' | congruence].
  - destruct (free_ok _ _ _ _ _ Hb H) as (E' & bs' & Hb' & Hs').
    split; [congruence|]. exists bs'. split; [exact Hb' | congruence].
Qed.

Lemma all_free_single bs :
  coalesced bs -> bs <> [] -> Forall (fun b => fst b = false) bs -> exists p, bs = [(false, p)].
Proof.
  intros Hc Hn Hf. destruct bs as [|[u p] [|[v q] r]]; [congruence | |].
  - apply Forall_inv in Hf. cbn in Hf. subst u. eauto.
  - inversion Hf as [|? ? Hu Hf']. apply Forall_inv in Hf'. cbn in *. subst u v. destruct Hc.
Qed.

(** C32: Nothing is lost to fragmentation for good: the heap stays a list of blocks through any
    sequence of requests and releases, blocks in use start at multiples of eight from the heap's
    start, and as soon as no block is in use, a request of any size up to the whole heap is
    again served from it. *)
Theorem heap_available_again h0 p0 h :
  heap_blocks h0 [(false, p0)] -> (length p0 mod 8 = 0)%nat -> reachable h0 h ->
  (exists bs, heap_blocks h bs)
  /\ forall bs, heap_blocks h bs ->
    (forall a p, in_use (private_heap h) bs a p -> (a - private_heap h) mod 8 = 0)
    /\ ((forall a p, ~ in_use (private_heap h) bs a p) ->
        forall size, 0 < size <= 2 ^ 31 - 8 ->
          SQLCIPHER_PRIVATE_HEAP_ROUNDUP size <= Z.of_nat (length p0) ->
          exists h', sqlcipher_malloc h size = Some (private_heap h + 16, h')).
Proof.
  intros H0 H8 Hr.
  assert (Hok : heap_ok h0 [(false, p0)]) by (split; [exact H0 | split; [exact Logic.I | now repeat constructor]]).
  destruct (reachable_ok _ _ _ Hok Hr) as (EB & bs & (Hb & Hc & Ha) & Hsp).
  split; [now exists bs|]. intros bs1 Hb1. rewrite (blocks_unique h bs1 bs Hb1 Hb). split.
  - intros a p (l & r & -> & ->). unfold aligned in Ha. rewrite Forall_app in Ha.
    pose proof (aligned_span l (proj1 Ha)) as Hl.
    replace (private_heap h + Z.of_nat (span l) + 16 - private_heap h)
      with (Z.of_nat (span l + 16)) by lia.
    change 8 with (Z.of_nat 8). rewrite <- Nat2Z.inj_mod, mod8_add; auto.
  - intros Hn size Hs Hr8. pose proof Hb as (_ & (HB & _) & Hne).
    destruct (all_free_single bs Hc Hne) as (p & ->).
    { apply Forall_forall. intros [u p] Hin. destruct u; [|reflexivity]. exfalso.
      apply in_split in Hin. destruct Hin as (l & r & ->). eapply Hn. now exists l, r. }
    cbn [span] in Hsp. assert (Hl : length p = length p0) by lia.
    destruct (roundup_range size Hs) as [Hrr _].
    unfold sqlcipher_malloc. destruct (Z.ltb_spec size 1); [lia|].
    rewrite (malloc_spec h _ _ Hb) by lia. cbn [alloc_spec negb andb].
    destruct (Nat.leb_spec (Z.to_nat (SQLCIPHER_PRIVATE_HEAP_ROUNDUP size)) (length p)); [|lia].
    cbn [Nat.add]. destruct (Z.eqb_spec (private_heap h + Z.of_nat 16) 0); [lia|].
    eexists. reflexivity.
Qed.

(** The heap as [sqlcipher_extra_init] sets it up: noise, and a header for one free block. *)
Definition init_heap (noise : list Z) : list Z :=
  let m := set_is_used noise 0 0 in
  let m := set_size m 0 (u32 (Z.of_nat (length noise) - sizeof_private_block)) in
  set_next m 0 0.

Lemma init_heap_layout B noise :
  (16 <= length noise)%nat -> Z.of_nat (length noise) < 2 ^ 31 ->
  init_heap noise = layout B 0 [(false, skipn 16 noise)] 0.
Proof.
  intros H H2. unfold init_heap.
  pose proof (write_header [] (firstn 16 noise) (skipn 16 noise) 0 0
                (u32 (Z.of_nat (length noise) - sizeof_private_block)) 0 eq_refl) as W.
  cbn [app] in W. rewrite firstn_skipn in W. rewrite W by (rewrite length_firstn; lia).
  cbn [layout used_flag]. rewrite app_nil_r, length_skipn.
  rewrite u32_small by (unfold is_u32, sizeof_private_block; lia).
  unfold sizeof_private_block. do 2 f_equal. lia.
Qed.

Definition small_heap : Heap :=
  mkHeap 4096 (init_heap (map Z.of_nat (seq 0 96))) 0 0 0 0 0 0 [1; 2; 3; 4] [9000] [].

Lemma small_heap_blocks : heap_blocks small_heap [(false, skipn 16 (map Z.of_nat (seq 0 96)))].
Proof.
  split; [|split].
  - apply init_heap_layout; vm_compute; reflexivity || lia.
  - split; [reflexivity|]. split; vm_compute; reflexivity.
  - discriminate.
Qed.

Lemma no_use_in_free B p a q : ~ in_use B [(false, p)] a q.
Proof.
  intros (l & r & E & _). destruct l as [|x [|]]; discriminate E.
Qed.

Lemma heap_available_again_witness : exists h',
  sqlcipher_malloc small_heap 80 = Some (4112, h').
Proof.
  destruct (heap_available_again small_heap _ small_heap small_heap_blocks eq_refl (reach_start _))
    as (_ & H).
  specialize (H _ small_heap_blocks). destruct H as [_ H].
  apply (H (fun a q => no_use_in_free _ _ a q) 80); [lia | vm_compute; discriminate].
Defined.

Lemma malloc_separate_witness : exists a h' bs' p,
  sqlcipher_malloc small_heap 13 = Some (a, h')
  /\ heap_blocks h' bs' /\ in_use 4096 bs' a p /\ firstn 13 p = memset 0 13.
Proof.
  destruct (malloc_separate small_heap _ 13 small_heap_blocks) as (a & h' & bs' & p & H1 & _ & H2 & H3 & _ & H4 & _).
  - lia.
  - apply Exists_cons_hd. split; [reflexivity|]. vm_compute. discriminate.
  - exists a, h', bs', p. auto.
Defined.

(** Two requests, of 16 bytes (which splits the heap) and of 24 (which takes all that is left). *)
Definition two_allocs : option Heap :=
  match sqlcipher_malloc small_heap 16 with
  | Some (_, h) => match sqlcipher_malloc h 24 with Some (_, h) => Some h | None => None end
  | None => None
  end.

Lemma free_wipes_witness : exists h h' bs',
  sqlcipher_malloc small_heap 16 = Some (4112, h)
  /\ sqlcipher_free h 4112 16 = Some h' /\ heap_blocks h' bs'
  /\ slice (heap_mem h') 16 16 = fst (xoshiro_randomness true [1; 2; 3; 4] 16).
Proof.
  destruct (sqlcipher_malloc small_heap 16) as [[a h]|] eqn:E; [|discriminate E].
  vm_compute in E. apply some_inj, pair_inj in E. destruct E as [<- <-].
  match goal with |- exists h h' bs', Some (_, ?h1) = _ /\ _ => set (h := h1) end.
  assert (Hb : heap_blocks h [(true, memset 0 16); (false, skipn 48 (map Z.of_nat (seq 0 96)))]).
  { split; [vm_compute; reflexivity|]. split; [|discriminate].
    split; [reflexivity|]. split; vm_compute; reflexivity. }
  destruct (free_wipes h _ 4112 (memset 0 16) 16 Hb) as (h' & bs' & H1 & _ & H2 & H3 & _).
  - exists [], [(false, skipn 48 (map Z.of_nat (seq 0 96)))]. split; reflexivity.
  - exists h, h', bs'. auto.
Defined.

(** The counters: a block that is not split is larger than the request; its whole size is
    subtracted when it is released, so that the number of bytes in use falls below zero and
    wraps around. *)
Lemma used_bytes_wrap :
  match two_allocs with
  | Some h => private_heap_used h = 40
      /\ match sqlcipher_free h 4144 24 with
         | Some h => match sqlcipher_free h 4112 16 with
                     | Some h => private_heap_used h = 2 ^ 64 - 24
                     | None => False
                     end
         | None => False
         end
  | None => False
  end.
Proof. vm_compute. auto. Qed.
