(* ===== verification/ScProvider.v ===== *)
(** * SQLCipher: providers of cryptography

    SQLCipher leaves cryptography to a provider, a table of functions (struct
    sqlcipher_provider, sqlcipher.h).  This file holds the table, what the codec relies on
    ([ProviderLaws]), and the list of registered providers (sqlcipher_register_provider). *)

From Stdlib Require Import ZArith Lia List Bool.
From S2P Require Import Prelude.
Import ListNotations.
Local Open Scope Z_scope.

Definition SQLITE_OK : Z := 0.
Definition SQLITE_ERROR : Z := 1.

Definition SQLCIPHER_HMAC_SHA1 : Z := 0.
Definition SQLCIPHER_HMAC_SHA256 : Z := 1.
Definition SQLCIPHER_HMAC_SHA512 : Z := 2.

Definition SQLCIPHER_PBKDF2_HMAC_SHA1 : Z := 0.
Definition SQLCIPHER_PBKDF2_HMAC_SHA256 : Z := 1.
Definition SQLCIPHER_PBKDF2_HMAC_SHA512 : Z := 2.

Definition CIPHER_DECRYPT : Z := 0.
Definition CIPHER_ENCRYPT : Z := 1.

(** ** The table of functions

    [W] is the state of everything around the codec: the allocator, sources of randomness, the
    libraries.  A function that returns a result code and fills a buffer gives [Some] bytes for
    SQLITE_OK, and [None] for a failure, after which no caller reads the buffer; [random] gives
    the bytes in any case. *)
Record sqlcipher_provider (W : Type) := {
  p_random : Z -> W -> bool * list Z * W;
  p_hmac : Z -> list Z -> list Z -> list Z -> W -> option (list Z) * W;
  p_kdf : Z -> list Z -> list Z -> Z -> Z -> W -> option (list Z) * W;
  p_cipher : Z -> list Z -> list Z -> list Z -> W -> option (list Z) * W;
  p_add_random : list Z -> W -> Z * W;
  p_get_key_sz : Z;
  p_get_iv_sz : Z;
  p_get_block_sz : Z;
  p_get_hmac_sz : Z -> Z;
  p_ctx_init : W -> Z * W;
  p_ctx_free : W -> W;
  p_fips_status : Z;
  p_get_provider_name : list Z;
  p_get_provider_version : list Z;
  p_get_cipher : list Z
}.

Arguments p_random {W}.
Arguments p_hmac {W}.
Arguments p_kdf {W}.
Arguments p_cipher {W}.
Arguments p_add_random {W}.
Arguments p_get_key_sz {W}.
Arguments p_get_iv_sz {W}.
Arguments p_get_block_sz {W}.
Arguments p_get_hmac_sz {W}.
Arguments p_ctx_init {W}.
Arguments p_ctx_free {W}.
Arguments p_fips_status {W}.
Arguments p_get_provider_name {W}.
Arguments p_get_provider_version {W}.
Arguments p_get_cipher {W}.

(** What the codec relies on: authentication codes and derived keys are functions of their
    arguments with the announced lengths, and decryption undoes encryption under the same key
    and initial vector, on data of whole cipher blocks. *)
Class ProviderLaws {W} (P : sqlcipher_provider W) := {
  mac : Z -> list Z -> list Z -> list Z;
  derive : Z -> list Z -> list Z -> Z -> Z -> list Z;
  enc : list Z -> list Z -> list Z -> list Z;
  dec : list Z -> list Z -> list Z -> list Z;
  key_sz_pos : 0 < p_get_key_sz P <= 64;
  iv_sz_pos : 0 < p_get_iv_sz P <= 16;
  block_sz_pos : 0 < p_get_block_sz P <= 16;
  block_sz_divides : 16 mod p_get_block_sz P = 0;
  hmac_sz_range a : 0 <= p_get_hmac_sz P a <= 64;
  random_bytes n w ok b w' :
    p_random P n w = (ok, b, w') -> bytes b /\ length b = Z.to_nat n;
  hmac_mac a k x y w t w' :
    p_hmac P a k x y w = (Some t, w') -> t = mac a k (x ++ y) /\ Z.of_nat (length t) = p_get_hmac_sz P a;
  mac_bytes a k x : bytes (mac a k x);
  kdf_derive a p s i n w k w' :
    p_kdf P a p s i n w = (Some k, w') -> k = derive a p s i n /\ bytes k /\ length k = Z.to_nat n;
  cipher_enc k iv x w y w' : p_cipher P CIPHER_ENCRYPT k iv x w = (Some y, w') -> y = enc k iv x;
  cipher_dec k iv x w y w' : p_cipher P CIPHER_DECRYPT k iv x w = (Some y, w') -> y = dec k iv x;
  enc_length k iv x : length (enc k iv x) = length x;
  dec_length k iv x : length (dec k iv x) = length x;
  enc_bytes k iv x : bytes k -> bytes iv -> bytes x -> bytes (enc k iv x);
  dec_enc k iv x :
    bytes k -> bytes iv -> bytes x ->
    length k = Z.to_nat (p_get_key_sz P) -> length iv = Z.to_nat (p_get_iv_sz P) ->
    Z.of_nat (length x) mod p_get_block_sz P = 0 ->
    dec k iv (enc k iv x) = x
}.

(** ** The list of providers

    A provider is known by its address; [next] holds the links, 0 is the null pointer. *)
Record Providers := mkProviders { default_provider : Z; next : Z -> Z }.

Definition set_link (nx : Z -> Z) (a v : Z) : Z -> Z := fun b => if b =? a then v else nx b.

(** The search for an earlier registration of [p], which is taken out of the list. *)
Fixpoint unlink (fuel : nat) (nx : Z -> Z) (previous current p : Z) : option (bool * (Z -> Z)) :=
  match fuel with
  | O => None
  | S fuel =>
      if current =? 0 then Some (false, nx)
      else if current =? p then Some (true, set_link nx previous (nx current))
      else unlink fuel nx current (nx current) p
  end.

(** [init] is the result of the initialiser of the provider, [None] if it has none; the second
    result tells whether it was called. *)
Definition sqlcipher_register_provider (fuel : nat) (s : Providers) (p : Z) (init : option Z)
    : option (Z * bool * Providers) :=
  if (p =? 0) || (default_provider s =? p) then Some (SQLITE_OK, false, s)
  else
    let found :=
      if default_provider s =? 0 then Some (false, set_link (next s) p 0)
      else
        match unlink fuel (next s) (default_provider s) (next s (default_provider s)) p with
        | Some (pre, nx) => Some (pre, set_link nx p (default_provider s))
        | None => None
        end in
    match found with
    | None => None
    | Some (preexisting, nx) =>
        let '(rc, called) :=
          match init with
          | Some r => if preexisting then (SQLITE_OK, false) else (r, true)
          | None => (SQLITE_OK, false)
          end in
        Some (rc, called, mkProviders (if rc =? SQLITE_OK then p else default_provider s) nx)
    end.

(** The list that starts at an address. *)
Fixpoint chain (nx : Z -> Z) (a : Z) (l : list Z) : Prop :=
  match l with
  | [] => a = 0
  | x :: l => a = x /\ x <> 0 /\ chain nx (nx x) l
  end.

Lemma chain_frame nx l : forall a p v, ~ In p l -> chain (set_link nx p v) a l <-> chain nx a l.
Proof.
  induction l as [|x l IH]; intros a p v H; cbn [chain]; [tauto|].
  cbn [In] in H. unfold set_link at 2. destruct (Z.eqb_spec x p); [tauto|].
  rewrite IH by tauto. tauto.
Qed.

Definition without (p : Z) (l : list Z) : list Z := filter (fun x => negb (x =? p)) l.

Lemma without_notin p l : ~ In p l -> without p l = l.
Proof.
  induction l as [|x l IH]; intros H; [reflexivity|]. cbn [without filter In] in *.
  destruct (Z.eqb_spec x p); [tauto|]. cbn [negb]. f_equal. apply IH. tauto.
Qed.

Lemma in_without p x l : In x (without p l) <-> In x l /\ x <> p.
Proof.
  unfold without. rewrite filter_In. destruct (Z.eqb_spec x p); cbn [negb]; intuition congruence.
Qed.

Lemma unlink_spec nx p l : forall fuel prev,
  chain nx (nx prev) l -> NoDup (prev :: l) -> (length l < fuel)%nat ->
  exists nx', unlink fuel nx prev (nx prev) p = Some (existsb (Z.eqb p) l, nx')
    /\ chain nx' (nx' prev) (without p l) /\ forall q, ~ In q (prev :: l) -> nx' q = nx q.
Proof.
  induction l as [|x l IH]; intros [|fuel] prev Hc Hn Hf; cbn [length] in Hf; try lia.
  - cbn [chain] in Hc. exists nx. cbn [unlink existsb without filter chain]. rewrite Hc. cbn. auto.
  - cbn [chain] in Hc. destruct Hc as (E & Hx & Hc). apply NoDup_cons_iff in Hn. destruct Hn as [Hp Hn'].
    cbn [unlink]. rewrite E. destruct (Z.eqb_spec x 0); [congruence|].
    cbn [existsb without filter]. fold (without p l).
    rewrite (Z.eqb_sym p x). destruct (Z.eqb_spec x p) as [->|Hne]; cbn [negb orb].
    + eexists. split; [reflexivity|]. apply NoDup_cons_iff in Hn'. destruct Hn' as [Hpl _].
      assert (Eq : set_link nx prev (nx p) prev = nx p) by (unfold set_link; now rewrite Z.eqb_refl).
      rewrite Eq, without_notin by exact Hpl. split.
      * apply chain_frame; [|exact Hc]. cbn [In] in Hp. tauto.
      * intros q Hq. unfold set_link. destruct (Z.eqb_spec q prev); [|reflexivity].
        subst. cbn in Hq. tauto.
    + destruct (IH fuel x Hc Hn' ltac:(lia)) as (nx' & E' & Hc' & Hfr).
      exists nx'. split; [exact E'|]. assert (Ep : nx' prev = x) by (rewrite Hfr; [exact E | exact Hp]).
      split; [rewrite Ep; cbn [chain]; auto|]. intros q Hq. apply Hfr. cbn [In] in *. tauto.
Qed.

(** Where the provider is not the default one: it is unlinked if it was on the list, and put in
    front. *)
Lemma unlinked_in_front s l p fuel :
  chain (next s) (default_provider s) l -> NoDup l -> p <> 0 -> (length l < fuel)%nat -> default_provider s <> p ->
  exists pre nx,
    (if default_provider s =? 0 then Some (false, set_link (next s) p 0)
     else match unlink fuel (next s) (default_provider s) (next s (default_provider s)) p with
          | Some (pre, nx) => Some (pre, set_link nx p (default_provider s))
          | None => None
          end) = Some (pre, nx)
    /\ chain nx p (p :: without p l)
    /\ (pre = false -> ~ In p l /\ chain nx (default_provider s) l).
Proof.
  intros Hc Hn Hp Hf E. destruct l as [|x l]; cbn [chain] in Hc.
  - rewrite Hc. cbn [Z.eqb]. do 2 eexists. split; [reflexivity|].
    cbn [without filter chain In]. unfold set_link. rewrite Z.eqb_refl. auto.
  - destruct Hc as (E1 & Hx & Hc). rewrite E1. destruct (Z.eqb_spec x 0); [congruence|].
    subst x.
    destruct (unlink_spec (next s) p l fuel (default_provider s)) as (nx' & -> & Hc' & Hfr);
      [exact Hc | exact Hn | cbn in Hf; lia |].
    do 2 eexists. split; [reflexivity|]. cbn [without filter].
    destruct (Z.eqb_spec (default_provider s) p); [congruence|]. cbn [negb]. fold (without p l).
    assert (Hnp : ~ In p (default_provider s :: without p l))
      by (cbn [In]; rewrite in_without; intuition congruence).
    split.
    + cbn [chain]. unfold set_link at 1. rewrite Z.eqb_refl. split; [reflexivity|].
      split; [exact Hp|]. split; [reflexivity|]. split; [exact Hx|].
      rewrite chain_frame by (cbn [In] in Hnp; tauto).
      unfold set_link. destruct (Z.eqb_spec (default_provider s) p); [congruence|]. exact Hc'.
    + intros Hex. assert (Hpl : ~ In p l).
      { intros Hin. rewrite (proj2 (existsb_exists (Z.eqb p) l)) in Hex; [discriminate|].
        exists p. now rewrite Z.eqb_refl. }
      rewrite without_notin in * by exact Hpl. split; [cbn [In]; intuition congruence|].
      apply chain_frame; [exact Hnp|]. cbn [chain]. auto.
Qed.

(** Registration of providers: whatever providers are registered, in which list, the call
    ends; if it succeeds the provider becomes the default and the others follow in their order,
    without a second entry for it; if its initialiser fails, the list is as before; the
    initialiser runs only for a provider that was not in the list. *)
Theorem provider_registered s l p init fuel :
  chain (next s) (default_provider s) l -> NoDup l -> p <> 0 -> (length l < fuel)%nat ->
  exists rc called s',
    sqlcipher_register_provider fuel s p init = Some (rc, called, s')
    /\ chain (next s') (default_provider s') (if rc =? SQLITE_OK then p :: without p l else l)
    /\ (called = true -> ~ In p l /\ init = Some rc).
Proof.
  intros Hc Hn Hp Hf. unfold sqlcipher_register_provider.
  destruct (Z.eqb_spec p 0); [congruence|]. cbn [orb].
  destruct (Z.eqb_spec (default_provider s) p) as [E|E].
  - do 3 eexists. split; [reflexivity|]. cbn [Z.eqb SQLITE_OK]. split; [|discriminate].
    destruct l as [|x l]; cbn [chain] in Hc; [congruence|]. destruct Hc as (E1 & Hx & Hc).
    assert (x = p) as -> by congruence. apply NoDup_cons_iff in Hn. destruct Hn as [Hpl _].
    cbn [without filter]. rewrite Z.eqb_refl. cbn [negb]. fold (without p l).
    rewrite without_notin by exact Hpl. cbn [chain]. auto.
  - destruct (unlinked_in_front s l p fuel Hc Hn Hp Hf E) as (pre & nx & -> & H1 & H2).
    destruct init as [r|]; [destruct pre|]; do 3 eexists; (split; [reflexivity|]).
    + cbn [Z.eqb SQLITE_OK]. split; [exact H1 | discriminate].
    + destruct H2 as [Hin Hl]; [reflexivity|]. destruct (r =? SQLITE_OK); cbn [default_provider next]; auto.
    + cbn [Z.eqb SQLITE_OK]. split; [exact H1 | discriminate].
Qed.

Lemma provider_registered_witness : exists s',
  sqlcipher_register_provider 3 (mkProviders 10 (fun a => if a =? 10 then 20 else 0)) 20 (Some 0)
  = Some (SQLITE_OK, false, s') /\ chain (next s') (default_provider s') [20; 10].
Proof.
  destruct (provider_registered (mkProviders 10 (fun a => if a =? 10 then 20 else 0)) [10; 20] 20 (Some 0) 3)
    as (rc & called & s' & H & Hc & _).
  - cbn. lia.
  - repeat constructor; cbn; lia.
  - lia.
  - cbn. lia.
  - cbn in H. apply some_inj, pair_inj in H. destruct H as [H <-].
    apply pair_inj in H. destruct H as [<- <-]. eexists. split; [reflexivity | exact Hc].
Defined.
