(* ===== verification/ScOpenSsl.v ===== *)
(** * SQLCipher: the provider for OpenSSL

    The functions of crypto_openssl.c, which call OpenSSL step by step and turn each failure
    into SQLITE_ERROR.  OpenSSL is not part of the sources: its functions are the class
    [OpenSSL], with the results that its manual documents, and [OpenSSLLaws] states what they
    compute.  The provider is shown to satisfy [ProviderLaws], the interface of the codec. *)

From Stdlib Require Import String ZArith Lia List Bool.
From S2P Require Import Prelude ScText ScProvider.
Import ListNotations.
Local Open Scope Z_scope.

(** The digests that are named in calls. *)
Inductive digest := sha1 | sha256 | sha512.

(** The functions of OpenSSL.  Those that return a pointer or a flag of success are modelled by
    an option or a boolean; [RAND_bytes] returns an integer. *)
Class OpenSSL (W : Type) := {
  mac_ctx : Type;
  evp_ctx : Type;
  RAND_bytes : Z -> W -> Z * list Z * W;
  RAND_add : list Z -> W -> W;
  EVP_MAC_fetch : W -> bool * W;
  EVP_MAC_CTX_new : W -> bool * W;
  EVP_MAC_init : digest -> list Z -> W -> option mac_ctx * W;
  EVP_MAC_update : mac_ctx -> list Z -> W -> option mac_ctx * W;
  EVP_MAC_final_size : mac_ctx -> W -> option Z * W;
  EVP_MAC_final : mac_ctx -> W -> option (list Z) * W;
  PKCS5_PBKDF2_HMAC : digest -> list Z -> list Z -> Z -> Z -> W -> option (list Z) * W;
  EVP_CIPHER_CTX_new : W -> bool * W;
  EVP_CipherInit_mode : Z -> W -> option evp_ctx * W;
  EVP_CIPHER_CTX_set_padding : evp_ctx -> bool -> W -> option evp_ctx * W;
  EVP_CipherInit_key : evp_ctx -> list Z -> list Z -> Z -> W -> option evp_ctx * W;
  EVP_CipherUpdate : evp_ctx -> list Z -> W -> option (evp_ctx * list Z) * W;
  EVP_CipherFinal_ex : evp_ctx -> W -> option (list Z) * W;
  EVP_MD_size : digest -> Z;
  EVP_CIPHER_key_length : Z;
  EVP_CIPHER_iv_length : Z;
  EVP_CIPHER_block_size : Z;
  OpenSSL_version : list Z;
  OBJ_nid2sn_cipher : list Z
}.

Section Provider.
Context {W : Type} {Ossl : OpenSSL W}.

(** The number of active contexts, a global of crypto_openssl.c. *)
Context (openssl_init_count : W -> Z) (set_init_count : Z -> W -> W).

(** The next call is made if the last one succeeded; any failure leads to the label error. *)
Definition andthen {A B} (r : option A * W) (k : A -> W -> option B * W) : option B * W :=
  match r with (Some a, w) => k a w | (None, w) => (None, w) end.

Definition guard {B} (r : bool * W) (k : W -> option B * W) : option B * W :=
  let '(ok, w) := r in if ok then k w else (None, w).

Definition sqlcipher_openssl_add_random (buffer : list Z) (w : W) : Z * W :=
  (SQLITE_OK, RAND_add buffer w).

Definition sqlcipher_openssl_random (length : Z) (w : W) : bool * list Z * W :=
  let '(rc, b, w) := RAND_bytes length w in (negb (rc =? 0), b, w).

(** Neither input is a null pointer: the codec passes the page and the page number. *)
Definition sqlcipher_openssl_hmac (algorithm : Z) (hmac_key inp in2 : list Z) (w : W)
    : option (list Z) * W :=
  guard (EVP_MAC_fetch w) (fun w =>
  guard (EVP_MAC_CTX_new w) (fun w =>
  andthen
    (if algorithm =? SQLCIPHER_HMAC_SHA1 then EVP_MAC_init sha1 hmac_key w
     else if algorithm =? SQLCIPHER_HMAC_SHA256 then EVP_MAC_init sha256 hmac_key w
     else if algorithm =? SQLCIPHER_HMAC_SHA512 then EVP_MAC_init sha512 hmac_key w
     else (None, w)) (fun hctx w =>
  andthen (EVP_MAC_update hctx inp w) (fun hctx w =>
  andthen (EVP_MAC_update hctx in2 w) (fun hctx w =>
  andthen (EVP_MAC_final_size hctx w) (fun outlen w =>
  EVP_MAC_final hctx w)))))).

Definition sqlcipher_openssl_kdf (algorithm : Z) (pass salt : list Z) (workfactor key_sz : Z) (w : W)
    : option (list Z) * W :=
  if algorithm =? SQLCIPHER_HMAC_SHA1 then PKCS5_PBKDF2_HMAC sha1 pass salt workfactor key_sz w
  else if algorithm =? SQLCIPHER_HMAC_SHA256 then PKCS5_PBKDF2_HMAC sha256 pass salt workfactor key_sz w
  else if algorithm =? SQLCIPHER_HMAC_SHA512 then PKCS5_PBKDF2_HMAC sha512 pass salt workfactor key_sz w
  else (None, w).

Definition sqlcipher_openssl_cipher (mode : Z) (key iv inp : list Z) (w : W) : option (list Z) * W :=
  guard (EVP_CIPHER_CTX_new w) (fun w =>
  andthen (EVP_CipherInit_mode mode w) (fun ectx w =>
  andthen (EVP_CIPHER_CTX_set_padding ectx false w) (fun ectx w =>
  andthen (EVP_CipherInit_key ectx key iv mode w) (fun ectx w =>
  andthen (EVP_CipherUpdate ectx inp w) (fun '(ectx, out) w =>
  andthen (EVP_CipherFinal_ex ectx w) (fun rest w => (Some (out ++ rest), w))))))).

Definition sqlcipher_openssl_get_hmac_sz (algorithm : Z) : Z :=
  if algorithm =? SQLCIPHER_HMAC_SHA1 then EVP_MD_size sha1
  else if algorithm =? SQLCIPHER_HMAC_SHA256 then EVP_MD_size sha256
  else if algorithm =? SQLCIPHER_HMAC_SHA512 then EVP_MD_size sha512
  else 0.

Definition sqlcipher_openssl_get_provider_name : list Z := str "openssl".

Definition sqlcipher_openssl_activate (w : W) : Z * W :=
  (SQLITE_OK, set_init_count (u32 (openssl_init_count w + 1)) w).

Definition sqlcipher_openssl_deactivate (w : W) : Z * W :=
  (SQLITE_OK, set_init_count (u32 (openssl_init_count w - 1)) w).

Definition sqlcipher_openssl_setup : sqlcipher_provider W := {|
  p_random := sqlcipher_openssl_random;
  p_hmac := sqlcipher_openssl_hmac;
  p_kdf := sqlcipher_openssl_kdf;
  p_cipher := sqlcipher_openssl_cipher;
  p_add_random := sqlcipher_openssl_add_random;
  p_get_key_sz := EVP_CIPHER_key_length;
  p_get_iv_sz := EVP_CIPHER_iv_length;
  p_get_block_sz := EVP_CIPHER_block_size;
  p_get_hmac_sz := sqlcipher_openssl_get_hmac_sz;
  p_ctx_init := sqlcipher_openssl_activate;
  p_ctx_free := fun w => snd (sqlcipher_openssl_deactivate w);
  p_fips_status := 0;
  p_get_provider_name := sqlcipher_openssl_get_provider_name;
  p_get_provider_version := OpenSSL_version;
  p_get_cipher := OBJ_nid2sn_cipher
|}.

(** Standard block padding: as many bytes as are missing, each with their number. *)
Definition block_padded (block : Z) (x : list Z) : list Z :=
  let n := block - Z.of_nat (length x) mod block in x ++ repeat n (Z.to_nat n).

(** ** What the functions of OpenSSL compute

    An authentication context is known by its digest, its key and the data so far; a cipher
    context by its mode, whether it pads, its key and its initial vector.  A new cipher context
    pads (EVP_EncryptInit(3): "By default encryption operations are padded using standard block
    padding"); with padding off, the bytes of update and final together are those of the whole
    message, and final fails if the message is not made of whole blocks. *)
Class OpenSSLLaws := {
  ossl_hmac : digest -> list Z -> list Z -> list Z;
  ossl_pbkdf2 : digest -> list Z -> list Z -> Z -> Z -> list Z;
  ossl_cbc_encrypt : list Z -> list Z -> list Z -> list Z;
  ossl_cbc_decrypt : list Z -> list Z -> list Z -> list Z;
  mac_state : mac_ctx -> digest -> list Z -> list Z -> Prop;
  evp_state : evp_ctx -> Z -> bool -> Prop;
  evp_keyed : evp_ctx -> Z -> bool -> list Z -> list Z -> Prop;
  RAND_bytes_spec n w rc b w' : RAND_bytes n w = (rc, b, w') -> bytes b /\ length b = Z.to_nat n;
  MAC_init_spec d k w c w' : EVP_MAC_init d k w = (Some c, w') -> mac_state c d k [];
  MAC_update_spec c d k x y w c' w' :
    mac_state c d k x -> EVP_MAC_update c y w = (Some c', w') -> mac_state c' d k (x ++ y);
  MAC_final_spec c d k x w t w' :
    mac_state c d k x -> EVP_MAC_final c w = (Some t, w') -> t = ossl_hmac d k x;
  hmac_size d k x : Z.of_nat (length (ossl_hmac d k x)) = EVP_MD_size d;
  hmac_is_bytes d k x : bytes (ossl_hmac d k x);
  md_size d : 0 <= EVP_MD_size d <= 64;
  PBKDF2_spec d p s i n w k w' :
    PKCS5_PBKDF2_HMAC d p s i n w = (Some k, w') ->
    k = ossl_pbkdf2 d p s i n /\ bytes k /\ length k = Z.to_nat n;
  Init_mode_spec m w c w' : EVP_CipherInit_mode m w = (Some c, w') -> evp_state c m true;
  set_padding_spec c m p q w c' w' :
    evp_state c m p -> EVP_CIPHER_CTX_set_padding c q w = (Some c', w') -> evp_state c' m q;
  Init_key_spec c m p k iv w c' w' :
    evp_state c m p -> EVP_CipherInit_key c k iv m w = (Some c', w') -> evp_keyed c' m p k iv;
  Padded_spec c k iv x w c' a w1 w2 b w3 :
    evp_keyed c CIPHER_ENCRYPT true k iv -> EVP_CipherUpdate c x w = (Some (c', a), w1) ->
    EVP_CipherFinal_ex c' w2 = (Some b, w3) -> a ++ b = ossl_cbc_encrypt k iv (block_padded EVP_CIPHER_block_size x);
  Unpadded_spec c m k iv x w c' a w1 w2 b w3 :
    evp_keyed c m false k iv -> EVP_CipherUpdate c x w = (Some (c', a), w1) ->
    EVP_CipherFinal_ex c' w2 = (Some b, w3) ->
    Z.of_nat (length x) mod EVP_CIPHER_block_size = 0
    /\ a ++ b = if m =? CIPHER_ENCRYPT then ossl_cbc_encrypt k iv x else ossl_cbc_decrypt k iv x;
  cbc_encrypt_length k iv x : length (ossl_cbc_encrypt k iv x) = length x;
  cbc_decrypt_length k iv x : length (ossl_cbc_decrypt k iv x) = length x;
  cbc_encrypt_bytes k iv x :
    bytes k -> bytes iv -> bytes x -> bytes (ossl_cbc_encrypt k iv x);
  cipher_sizes : 0 < EVP_CIPHER_key_length <= 64 /\ 0 < EVP_CIPHER_iv_length <= 16
    /\ 0 < EVP_CIPHER_block_size <= 16 /\ 16 mod EVP_CIPHER_block_size = 0;
  cbc_decrypt_encrypt k iv x :
    bytes k -> bytes iv -> bytes x ->
    length k = Z.to_nat EVP_CIPHER_key_length -> length iv = Z.to_nat EVP_CIPHER_iv_length ->
    Z.of_nat (length x) mod EVP_CIPHER_block_size = 0 ->
    ossl_cbc_decrypt k iv (ossl_cbc_encrypt k iv x) = x
}.

Context {Laws : OpenSSLLaws}.

Lemma guard_some {B} r (k : W -> option B * W) b w' :
  guard r k = (Some b, w') -> exists w, k w = (Some b, w').
Proof. destruct r as [[|] w]; cbn; intros H; [eauto | discriminate H]. Qed.

Lemma andthen_some {A B} r (k : A -> W -> option B * W) b w' :
  andthen r k = (Some b, w') -> exists a w, r = (Some a, w) /\ k a w = (Some b, w').
Proof. destruct r as [[a|] w]; cbn; intros H; [eauto | discriminate H]. Qed.

(** The digest of an algorithm. *)
Definition names_digest (a : Z) (g : digest) : Prop :=
  In (a, g) [(SQLCIPHER_HMAC_SHA1, sha1); (SQLCIPHER_HMAC_SHA256, sha256); (SQLCIPHER_HMAC_SHA512, sha512)].

(** The switch of three functions. *)
Lemma switch_cases {A} (f : digest -> A) (o : A) a :
  (exists g, names_digest a g
     /\ (if a =? SQLCIPHER_HMAC_SHA1 then f sha1 else if a =? SQLCIPHER_HMAC_SHA256 then f sha256
         else if a =? SQLCIPHER_HMAC_SHA512 then f sha512 else o) = f g)
  \/ (forall g, ~ names_digest a g)
     /\ (if a =? SQLCIPHER_HMAC_SHA1 then f sha1 else if a =? SQLCIPHER_HMAC_SHA256 then f sha256
         else if a =? SQLCIPHER_HMAC_SHA512 then f sha512 else o) = o.
Proof.
  unfold names_digest. cbn [In].
  destruct (Z.eqb_spec a SQLCIPHER_HMAC_SHA1) as [->|]; [left; eauto 6|].
  destruct (Z.eqb_spec a SQLCIPHER_HMAC_SHA256) as [->|]; [left; eauto 6|].
  destruct (Z.eqb_spec a SQLCIPHER_HMAC_SHA512) as [->|]; [left; eauto 7|].
  right. split; [|reflexivity]. intros g [[=]|[[=]|[[=]|[]]]]; congruence.
Qed.

Lemma names_unique a g h : names_digest a g -> names_digest a h -> g = h.
Proof. unfold names_digest. cbn [In]. intros [[= <- <-]|[[= <- <-]|[[= <- <-]|[]]]] [[=]|[[=]|[[=]|[]]]]; congruence. Qed.

Lemma openssl_hmac_spec a k x y w t w' :
  sqlcipher_openssl_hmac a k x y w = (Some t, w') ->
  exists g, names_digest a g /\ t = ossl_hmac g k (x ++ y) /\ Z.of_nat (length t) = sqlcipher_openssl_get_hmac_sz a.
Proof.
  intros H. unfold sqlcipher_openssl_hmac in H.
  apply guard_some in H. destruct H as (w1 & H). apply guard_some in H. destruct H as (w2 & H).
  apply andthen_some in H. destruct H as (c1 & w3 & E1 & H).
  apply andthen_some in H. destruct H as (c2 & w4 & E2 & H).
  apply andthen_some in H. destruct H as (c3 & w5 & E3 & H).
  apply andthen_some in H. destruct H as (n & w6 & E4 & H).
  destruct (switch_cases (fun g => EVP_MAC_init g k w2) (None, w2) a) as [(g & Hg & E)|(_ & E)]; rewrite E in E1;
    [|discriminate E1].
  exists g. split; [exact Hg|].
  apply MAC_init_spec in E1. apply (MAC_update_spec _ _ _ _ _ _ _ _ E1) in E2.
  apply (MAC_update_spec _ _ _ _ _ _ _ _ E2) in E3. apply (MAC_final_spec _ _ _ _ _ _ _ E3) in H.
  cbn [app] in H. subst t. split; [reflexivity|]. rewrite hmac_size. unfold sqlcipher_openssl_get_hmac_sz.
  destruct (switch_cases EVP_MD_size 0 a) as [(h & Hh & ->)|(N & _)]; [|now elim (N g)].
  now rewrite (names_unique _ _ _ Hg Hh).
Qed.

Lemma openssl_kdf_spec a p s i n w q w' :
  sqlcipher_openssl_kdf a p s i n w = (Some q, w') ->
  exists g, names_digest a g /\ q = ossl_pbkdf2 g p s i n /\ bytes q /\ length q = Z.to_nat n.
Proof.
  unfold sqlcipher_openssl_kdf.
  destruct (switch_cases (fun g => PKCS5_PBKDF2_HMAC g p s i n w) (None, w) a) as [(g & Hg & ->)|(_ & ->)]; [|discriminate].
  intros H. exists g. split; [exact Hg | exact (PBKDF2_spec _ _ _ _ _ _ _ _ H)].
Qed.

Lemma openssl_cipher_spec m k iv x w y w' :
  sqlcipher_openssl_cipher m k iv x w = (Some y, w') ->
  Z.of_nat (length x) mod EVP_CIPHER_block_size = 0
  /\ y = if m =? CIPHER_ENCRYPT then ossl_cbc_encrypt k iv x else ossl_cbc_decrypt k iv x.
Proof.
  intros H. unfold sqlcipher_openssl_cipher in H.
  apply guard_some in H. destruct H as (w1 & H).
  apply andthen_some in H. destruct H as (c1 & w3 & E1 & H).
  apply andthen_some in H. destruct H as (c2 & w4 & E2 & H).
  apply andthen_some in H. destruct H as (c3 & w5 & E3 & H).
  apply andthen_some in H. destruct H as ([c4 a] & w6 & E4 & H).
  apply andthen_some in H. destruct H as (b & w7 & E5 & H). injection H as <- _.
  apply Init_mode_spec in E1. apply (set_padding_spec _ _ _ _ _ _ _ E1) in E2.
  apply (Init_key_spec _ _ _ _ _ _ _ _ E2) in E3.
  exact (Unpadded_spec _ _ _ _ _ _ _ _ _ _ _ _ E3 E4 E5).
Qed.

(** The functions of the provider as functions of their arguments. *)
Definition by_digest {A} (f : digest -> A) (o : A) (a : Z) : A :=
  if a =? 0 then f sha1 else if a =? 1 then f sha256 else if a =? 2 then f sha512 else o.

Lemma by_digest_named {A} (f : digest -> A) o a g : names_digest a g -> by_digest f o a = f g.
Proof. intros [[= <- <-]|[[= <- <-]|[[= <- <-]|[]]]]; reflexivity. Qed.

#[export] Instance openssl_laws : ProviderLaws sqlcipher_openssl_setup.
Proof.
  apply (Build_ProviderLaws W sqlcipher_openssl_setup
           (fun a k x => by_digest (fun g => ossl_hmac g k x) [] a)
           (fun a p s i n => by_digest (fun g => ossl_pbkdf2 g p s i n) [] a)
           ossl_cbc_encrypt ossl_cbc_decrypt); try apply cipher_sizes.
  - intros a. cbn. unfold sqlcipher_openssl_get_hmac_sz.
    destruct (switch_cases EVP_MD_size 0 a) as [(g & _ & ->)|(_ & ->)]; [apply md_size | lia].
  - intros n w ok b w' H. cbn in H. unfold sqlcipher_openssl_random in H.
    destruct (RAND_bytes n w) as [[rc b0] w0] eqn:E. injection H as _ <- _.
    exact (RAND_bytes_spec _ _ _ _ _ E).
  - intros a k x y w t w' H. destruct (openssl_hmac_spec _ _ _ _ _ _ _ H) as (g & Hg & -> & L).
    rewrite (by_digest_named _ _ _ _ Hg). auto.
  - intros a k x. unfold by_digest. repeat destruct (_ =? _); try apply hmac_is_bytes. constructor.
  - intros a p s i n w k w' H. destruct (openssl_kdf_spec _ _ _ _ _ _ _ _ H) as (g & Hg & E & B).
    rewrite (by_digest_named _ _ _ _ Hg). auto.
  - intros k iv x w y w' H. exact (proj2 (openssl_cipher_spec _ _ _ _ _ _ _ H)).
  - intros k iv x w y w' H. exact (proj2 (openssl_cipher_spec _ _ _ _ _ _ _ H)).
  - apply cbc_encrypt_length.
  - apply cbc_decrypt_length.
  - apply cbc_encrypt_bytes.
  - apply cbc_decrypt_encrypt.
Defined.

(** ** When the provider succeeds *)

(** No call of OpenSSL fails, but for the end of a message that is not made of whole blocks. *)
Record ossl_works : Prop := {
  fetch_works w : fst (EVP_MAC_fetch w) = true;
  mac_new_works w : fst (EVP_MAC_CTX_new w) = true;
  mac_init_works d k w : fst (EVP_MAC_init d k w) <> None;
  mac_update_works c x w : fst (EVP_MAC_update c x w) <> None;
  mac_size_works c w : fst (EVP_MAC_final_size c w) <> None;
  mac_final_works c w : fst (EVP_MAC_final c w) <> None;
  pbkdf2_works d p s i n w : fst (PKCS5_PBKDF2_HMAC d p s i n w) <> None;
  cipher_new_works w : fst (EVP_CIPHER_CTX_new w) = true;
  init_mode_works m w : fst (EVP_CipherInit_mode m w) <> None;
  set_padding_works c q w : fst (EVP_CIPHER_CTX_set_padding c q w) <> None;
  init_key_works c k iv m w : fst (EVP_CipherInit_key c k iv m w) <> None;
  update_works c x w : fst (EVP_CipherUpdate c x w) <> None;
  final_works c m k iv x w c' a w1 w2 :
    evp_keyed c m false k iv -> Z.of_nat (length x) mod EVP_CIPHER_block_size = 0 ->
    EVP_CipherUpdate c x w = (Some (c', a), w1) -> fst (EVP_CipherFinal_ex c' w2) <> None
}.

Lemma guard_works {B} r (k : W -> option B * W) : fst r = true -> (forall w, fst (k w) <> None) -> fst (guard r k) <> None.
Proof. destruct r as [b w]. cbn. intros ->. auto. Qed.

Lemma andthen_works {A B} r (k : A -> W -> option B * W) :
  fst r <> None -> (forall a w, r = (Some a, w) -> fst (k a w) <> None) -> fst (andthen r k) <> None.
Proof. destruct r as [[a|] w]; cbn; [auto | contradiction]. Qed.

Lemma openssl_hmac_works a g k x y w : ossl_works -> names_digest a g -> fst (sqlcipher_openssl_hmac a k x y w) <> None.
Proof.
  intros Ow Hg. unfold sqlcipher_openssl_hmac. apply guard_works; [apply Ow|]. intros w1.
  apply guard_works; [apply Ow|]. intros w2.
  destruct (switch_cases (fun g => EVP_MAC_init g k w2) (None, w2) a) as [(h & _ & ->)|(N & _)]; [|now elim (N g)].
  repeat (apply andthen_works; [apply Ow | intros ? ? _]). apply Ow.
Qed.

Lemma openssl_kdf_works a g p s i n w : ossl_works -> names_digest a g -> fst (sqlcipher_openssl_kdf a p s i n w) <> None.
Proof.
  intros Ow Hg. unfold sqlcipher_openssl_kdf.
  destruct (switch_cases (fun g => PKCS5_PBKDF2_HMAC g p s i n w) (None, w) a) as [(h & _ & ->)|(N & _)]; [|now elim (N g)].
  apply Ow.
Qed.

Lemma openssl_cipher_works m k iv x w :
  ossl_works -> Z.of_nat (length x) mod EVP_CIPHER_block_size = 0 -> fst (sqlcipher_openssl_cipher m k iv x w) <> None.
Proof.
  intros Ow Hx. unfold sqlcipher_openssl_cipher. apply guard_works; [apply Ow|]. intros w1.
  apply andthen_works; [apply Ow|]. intros c1 w2 E1. apply andthen_works; [apply Ow|]. intros c2 w3 E2.
  apply andthen_works; [apply Ow|]. intros c3 w4 E3. apply andthen_works; [apply Ow|]. intros [c4 y] w5 E4.
  apply Init_mode_spec in E1. apply (set_padding_spec _ _ _ _ _ _ _ E1) in E2.
  apply (Init_key_spec _ _ _ _ _ _ _ _ E2) in E3.
  apply andthen_works; [exact (final_works Ow _ _ _ _ _ _ _ _ _ _ E3 Hx E4)|]. discriminate.
Qed.

(** C33: The provider for OpenSSL.  The algorithms 0, 1 and 2 are SHA-1, SHA-256 and SHA-512 in
    authentication, derivation and the announced size alike; any other number is an error and
    has size 0.  An authentication code is the HMAC of both inputs one after the other and has
    the announced size; a key is that of PBKDF2.  Encryption and decryption are CBC without
    padding, so that what is written has the length of the input and decryption takes
    encryption back; data that is not made of whole blocks is an error.  If OpenSSL does not
    fail, none of these calls fails otherwise. *)
Theorem openssl_provider_spec a k x y p s i n m iv d w :
  (forall t w', sqlcipher_openssl_hmac a k x y w = (Some t, w') ->
     exists g, names_digest a g /\ t = ossl_hmac g k (x ++ y) /\ Z.of_nat (length t) = sqlcipher_openssl_get_hmac_sz a)
  /\ (forall q w', sqlcipher_openssl_kdf a p s i n w = (Some q, w') ->
     exists g, names_digest a g /\ q = ossl_pbkdf2 g p s i n)
  /\ ((forall g, ~ names_digest a g) -> sqlcipher_openssl_get_hmac_sz a = 0)
  /\ (forall c w1, sqlcipher_openssl_cipher m k iv d w = (Some c, w1) ->
     Z.of_nat (length d) mod EVP_CIPHER_block_size = 0 /\ length c = length d
     /\ c = if m =? CIPHER_ENCRYPT then ossl_cbc_encrypt k iv d else ossl_cbc_decrypt k iv d)
  /\ (forall c w1 z w2 w3, sqlcipher_openssl_cipher CIPHER_ENCRYPT k iv d w = (Some c, w1) ->
     sqlcipher_openssl_cipher CIPHER_DECRYPT k iv c w2 = (Some z, w3) ->
     bytes k -> bytes iv -> bytes d ->
     length k = Z.to_nat EVP_CIPHER_key_length -> length iv = Z.to_nat EVP_CIPHER_iv_length -> z = d)
  /\ (ossl_works ->
     (forall g, names_digest a g -> fst (sqlcipher_openssl_hmac a k x y w) <> None
        /\ fst (sqlcipher_openssl_kdf a p s i n w) <> None)
     /\ (Z.of_nat (length d) mod EVP_CIPHER_block_size = 0 -> fst (sqlcipher_openssl_cipher m k iv d w) <> None)).
Proof.
  split; [intros t w'; apply openssl_hmac_spec|]. split; [|split; [|split; [|split]]].
  - intros q w' H. destruct (openssl_kdf_spec _ _ _ _ _ _ _ _ H) as (g & Hg & E & _). eauto.
  - intros N. unfold sqlcipher_openssl_get_hmac_sz.
    destruct (switch_cases EVP_MD_size 0 a) as [(g & Hg & _)|(_ & E)]; [now elim (N g) | exact E].
  - intros c w1 H. destruct (openssl_cipher_spec _ _ _ _ _ _ _ H) as [Hb ->]. split; [exact Hb|].
    split; [|reflexivity]. destruct (m =? CIPHER_ENCRYPT); [apply cbc_encrypt_length | apply cbc_decrypt_length].
  - intros c w1 z w2 w3 H1 H2 Hk Hi Hd Lk Li.
    apply openssl_cipher_spec in H1. apply openssl_cipher_spec in H2. destruct H1 as [Lb ->], H2 as [_ ->].
    now apply cbc_decrypt_encrypt.
  - intros Ow. split; [intros g Hg; split; [now apply (openssl_hmac_works a g) | now apply (openssl_kdf_works a g)]|].
    now apply openssl_cipher_works.
Qed.

(** A result of -1, which OpenSSL documents for a generator that is not supported, counts as
    success, because the code only tests for 0. *)
Lemma random_unsupported_accepted n w b w' :
  RAND_bytes n w = (-1, b, w') -> sqlcipher_openssl_random n w = (true, b, w').
Proof. intros E. unfold sqlcipher_openssl_random. now rewrite E. Qed.

End Provider.
