(* ===== verification/ScContext.v ===== *)
(** * SQLCipher: contexts

    The contexts of sqlcipher.c: a [cipher_ctx] holds a passphrase and the keys derived from
    it, a [codec_ctx] the settings of a database with one context for reading and one for
    writing.  This file models their life cycle and settings (sqlcipher_codec_ctx_init, _set_*,
    _free); the derivation of keys is in [ScKeys].

    The allocator is the class [Memory]; the file, the pager and the B-tree are the class
    [Store].  [ScWorld] has instances of both. *)

From Stdlib Require Import ZArith Lia List Bool.
From S2P Require Import Prelude ScBytes ScHeap ScProvider.
Import ListNotations.
Local Open Scope Z_scope.

Definition SQLITE_NOMEM : Z := 7.
Definition SQLITE_MISUSE : Z := 21.
Definition FILE_HEADER_SZ : Z := 16.
Definition FAST_PBKDF2_ITER : Z := 2.

Definition CIPHER_FLAG_HMAC : Z := 1.
Definition CIPHER_FLAG_LE_PGNO : Z := 2.
Definition CIPHER_FLAG_BE_PGNO : Z := 4.
Definition CIPHER_FLAG_KEY_USED : Z := 8.
Definition CIPHER_FLAG_HAS_KDF_SALT : Z := 16.

Definition SQLCIPHER_FLAG_GET (flag bit : Z) : bool := negb (Z.land flag bit =? 0).
Definition SQLCIPHER_FLAG_SET (flag bit : Z) : Z := Z.lor flag bit.
Definition SQLCIPHER_FLAG_UNSET (flag bit : Z) : Z := Z.land flag (Z.lnot bit).

(** ** Interfaces *)

(** The allocator: an address, 0 for the null pointer; [m_noise] is [xoshiro_randomness]. *)
Class Memory (W : Type) := {
  m_malloc : Z -> W -> Z * W;
  m_free : Z -> Z -> W -> W;
  m_noise : nat -> W -> list Z * W
}.

Class MemoryLaws (W : Type) {Mem : Memory W} := {
  noise_length n w : length (fst (m_noise n w)) = n;
  noise_bytes n w : bytes (fst (m_noise n w))
}.

(** The database below the codec: reading of the file (with the flag that says whether
    SQLITE_OK was returned), whether it is open, the page size of the B-tree, the error state
    of the pager, the mode of vacuuming, and the page of the pager that holds the lock bytes. *)
Class Store (W : Type) := {
  s_open : W -> bool;
  s_read : Z -> Z -> W -> bool * list Z * W;
  s_size : W -> Z;
  s_set_pagesize : Z -> Z -> W -> Z * W;
  s_pager_error : Z -> W -> W;
  s_autovacuum : W -> bool;
  s_lckPgno : W -> Z
}.

Class StoreLaws (W : Type) {St : Store W} := {
  read_bytes n o w ok b w' : s_read n o w = (ok, b, w') -> bytes b /\ length b = Z.to_nat n
}.

(** ** Contexts *)

(** A buffer on the heap: its address and its bytes; address 0 is the null pointer. *)
Definition buf : Type := Z * list Z.
Definition null : buf := (0, []).
Definition is_null (b : buf) : bool := fst b =? 0.

Record cipher_ctx := mkCipher {
  cc_addr : Z;
  derive_key : Z;
  pass_sz : Z;
  key : buf;
  hmac_key : buf;
  pass : buf
}.

Definition no_cipher : cipher_ctx := mkCipher 0 0 0 null null null.

Record codec_ctx := mkCodec {
  ctx_addr : Z;
  store_pass : Z;
  kdf_iter : Z;
  fast_kdf_iter : Z;
  kdf_salt_sz : Z;
  key_sz : Z;
  iv_sz : Z;
  block_sz : Z;
  page_sz : Z;
  reserve_sz : Z;
  hmac_sz : Z;
  plaintext_header_sz : Z;
  hmac_algorithm : Z;
  kdf_algorithm : Z;
  error : Z;
  flags : Z;
  kdf_salt : buf;
  hmac_kdf_salt : buf;
  buffer : buf;
  read_ctx : cipher_ctx;
  write_ctx : cipher_ctx
}.

Definition set_store_pass (v : Z) (c : codec_ctx) : codec_ctx :=
  mkCodec (ctx_addr c) v (kdf_iter c) (fast_kdf_iter c) (kdf_salt_sz c) (key_sz c) (iv_sz c)
    (block_sz c) (page_sz c) (reserve_sz c) (hmac_sz c) (plaintext_header_sz c)
    (hmac_algorithm c) (kdf_algorithm c) (error c) (flags c) (kdf_salt c) (hmac_kdf_salt c)
    (buffer c) (read_ctx c) (write_ctx c).

Definition set_kdf_iter (v : Z) (c : codec_ctx) : codec_ctx :=
  mkCodec (ctx_addr c) (store_pass c) v (fast_kdf_iter c) (kdf_salt_sz c) (key_sz c) (iv_sz c)
    (block_sz c) (page_sz c) (reserve_sz c) (hmac_sz c) (plaintext_header_sz c)
    (hmac_algorithm c) (kdf_algorithm c) (error c) (flags c) (kdf_salt c) (hmac_kdf_salt c)
    (buffer c) (read_ctx c) (write_ctx c).

Definition set_fast_kdf_iter (v : Z) (c : codec_ctx) : codec_ctx :=
  mkCodec (ctx_addr c) (store_pass c) (kdf_iter c) v (kdf_salt_sz c) (key_sz c) (iv_sz c)
    (block_sz c) (page_sz c) (reserve_sz c) (hmac_sz c) (plaintext_header_sz c)
    (hmac_algorithm c) (kdf_algorithm c) (error c) (flags c) (kdf_salt c) (hmac_kdf_salt c)
    (buffer c) (read_ctx c) (write_ctx c).

Definition set_kdf_salt_sz (v : Z) (c : codec_ctx) : codec_ctx :=
  mkCodec (ctx_addr c) (store_pass c) (kdf_iter c) (fast_kdf_iter c) v (key_sz c) (iv_sz c)
    (block_sz c) (page_sz c) (reserve_sz c) (hmac_sz c) (plaintext_header_sz c)
    (hmac_algorithm c) (kdf_algorithm c) (error c) (flags c) (kdf_salt c) (hmac_kdf_salt c)
    (buffer c) (read_ctx c) (write_ctx c).

Definition set_key_sz (v : Z) (c : codec_ctx) : codec_ctx :=
  mkCodec (ctx_addr c) (store_pass c) (kdf_iter c) (fast_kdf_iter c) (kdf_salt_sz c) v (iv_sz c)
    (block_sz c) (page_sz c) (reserve_sz c) (hmac_sz c) (plaintext_header_sz c)
    (hmac_algorithm c) (kdf_algorithm c) (error c) (flags c) (kdf_salt c) (hmac_kdf_salt c)
    (buffer c) (read_ctx c) (write_ctx c).

Definition set_iv_sz (v : Z) (c : codec_ctx) : codec_ctx :=
  mkCodec (ctx_addr c) (store_pass c) (kdf_iter c) (fast_kdf_iter c) (kdf_salt_sz c) (key_sz c) v
    (block_sz c) (page_sz c) (reserve_sz c) (hmac_sz c) (plaintext_header_sz c)
    (hmac_algorithm c) (kdf_algorithm c) (error c) (flags c) (kdf_salt c) (hmac_kdf_salt c)
    (buffer c) (read_ctx c) (write_ctx c).

Definition set_block_sz (v : Z) (c : codec_ctx) : codec_ctx :=
  mkCodec (ctx_addr c) (store_pass c) (kdf_iter c) (fast_kdf_iter c) (kdf_salt_sz c) (key_sz c)
    (iv_sz c) v (page_sz c) (reserve_sz c) (hmac_sz c) (plaintext_header_sz c) (hmac_algorithm c)
    (kdf_algorithm c) (error c) (flags c) (kdf_salt c) (hmac_kdf_salt c) (buffer c) (read_ctx c)
    (write_ctx c).

Definition set_page_sz (v : Z) (c : codec_ctx) : codec_ctx :=
  mkCodec (ctx_addr c) (store_pass c) (kdf_iter c) (fast_kdf_iter c) (kdf_salt_sz c) (key_sz c)
    (iv_sz c) (block_sz c) v (reserve_sz c) (hmac_sz c) (plaintext_header_sz c)
    (hmac_algorithm c) (kdf_algorithm c) (error c) (flags c) (kdf_salt c) (hmac_kdf_salt c)
    (buffer c) (read_ctx c) (write_ctx c).

Definition set_reserve_sz (v : Z) (c : codec_ctx) : codec_ctx :=
  mkCodec (ctx_addr c) (store_pass c) (kdf_iter c) (fast_kdf_iter c) (kdf_salt_sz c) (key_sz c)
    (iv_sz c) (block_sz c) (page_sz c) v (hmac_sz c) (plaintext_header_sz c) (hmac_algorithm c)
    (kdf_algorithm c) (error c) (flags c) (kdf_salt c) (hmac_kdf_salt c) (buffer c) (read_ctx c)
    (write_ctx c).

Definition set_hmac_sz (v : Z) (c : codec_ctx) : codec_ctx :=
  mkCodec (ctx_addr c) (store_pass c) (kdf_iter c) (fast_kdf_iter c) (kdf_salt_sz c) (key_sz c)
    (iv_sz c) (block_sz c) (page_sz c) (reserve_sz c) v (plaintext_header_sz c)
    (hmac_algorithm c) (kdf_algorithm c) (error c) (flags c) (kdf_salt c) (hmac_kdf_salt c)
    (buffer c) (read_ctx c) (write_ctx c).

Definition set_plaintext_header_sz (v : Z) (c : codec_ctx) : codec_ctx :=
  mkCodec (ctx_addr c) (store_pass c) (kdf_iter c) (fast_kdf_iter c) (kdf_salt_sz c) (key_sz c)
    (iv_sz c) (block_sz c) (page_sz c) (reserve_sz c) (hmac_sz c) v (hmac_algorithm c)
    (kdf_algorithm c) (error c) (flags c) (kdf_salt c) (hmac_kdf_salt c) (buffer c) (read_ctx c)
    (write_ctx c).

Definition set_hmac_algorithm (v : Z) (c : codec_ctx) : codec_ctx :=
  mkCodec (ctx_addr c) (store_pass c) (kdf_iter c) (fast_kdf_iter c) (kdf_salt_sz c) (key_sz c)
    (iv_sz c) (block_sz c) (page_sz c) (reserve_sz c) (hmac_sz c) (plaintext_header_sz c) v
    (kdf_algorithm c) (error c) (flags c) (kdf_salt c) (hmac_kdf_salt c) (buffer c) (read_ctx c)
    (write_ctx c).

Definition set_kdf_algorithm (v : Z) (c : codec_ctx) : codec_ctx :=
  mkCodec (ctx_addr c) (store_pass c) (kdf_iter c) (fast_kdf_iter c) (kdf_salt_sz c) (key_sz c)
    (iv_sz c) (block_sz c) (page_sz c) (reserve_sz c) (hmac_sz c) (plaintext_header_sz c)
    (hmac_algorithm c) v (error c) (flags c) (kdf_salt c) (hmac_kdf_salt c) (buffer c)
    (read_ctx c) (write_ctx c).

Definition set_error (v : Z) (c : codec_ctx) : codec_ctx :=
  mkCodec (ctx_addr c) (store_pass c) (kdf_iter c) (fast_kdf_iter c) (kdf_salt_sz c) (key_sz c)
    (iv_sz c) (block_sz c) (page_sz c) (reserve_sz c) (hmac_sz c) (plaintext_header_sz c)
    (hmac_algorithm c) (kdf_algorithm c) v (flags c) (kdf_salt c) (hmac_kdf_salt c) (buffer c)
    (read_ctx c) (write_ctx c).

Definition set_flags (v : Z) (c : codec_ctx) : codec_ctx :=
  mkCodec (ctx_addr c) (store_pass c) (kdf_iter c) (fast_kdf_iter c) (kdf_salt_sz c) (key_sz c)
    (iv_sz c) (block_sz c) (page_sz c) (reserve_sz c) (hmac_sz c) (plaintext_header_sz c)
    (hmac_algorithm c) (kdf_algorithm c) (error c) v (kdf_salt c) (hmac_kdf_salt c) (buffer c)
    (read_ctx c) (write_ctx c).

Definition set_kdf_salt (v : buf) (c : codec_ctx) : codec_ctx :=
  mkCodec (ctx_addr c) (store_pass c) (kdf_iter c) (fast_kdf_iter c) (kdf_salt_sz c) (key_sz c)
    (iv_sz c) (block_sz c) (page_sz c) (reserve_sz c) (hmac_sz c) (plaintext_header_sz c)
    (hmac_algorithm c) (kdf_algorithm c) (error c) (flags c) v (hmac_kdf_salt c) (buffer c)
    (read_ctx c) (write_ctx c).

Definition set_hmac_kdf_salt (v : buf) (c : codec_ctx) : codec_ctx :=
  mkCodec (ctx_addr c) (store_pass c) (kdf_iter c) (fast_kdf_iter c) (kdf_salt_sz c) (key_sz c)
    (iv_sz c) (block_sz c) (page_sz c) (reserve_sz c) (hmac_sz c) (plaintext_header_sz c)
    (hmac_algorithm c) (kdf_algorithm c) (error c) (flags c) (kdf_salt c) v (buffer c)
    (read_ctx c) (write_ctx c).

Definition set_buffer (v : buf) (c : codec_ctx) : codec_ctx :=
  mkCodec (ctx_addr c) (store_pass c) (kdf_iter c) (fast_kdf_iter c) (kdf_salt_sz c) (key_sz c)
    (iv_sz c) (block_sz c) (page_sz c) (reserve_sz c) (hmac_sz c) (plaintext_header_sz c)
    (hmac_algorithm c) (kdf_algorithm c) (error c) (flags c) (kdf_salt c) (hmac_kdf_salt c) v
    (read_ctx c) (write_ctx c).

Definition set_read_ctx (v : cipher_ctx) (c : codec_ctx) : codec_ctx :=
  mkCodec (ctx_addr c) (store_pass c) (kdf_iter c) (fast_kdf_iter c) (kdf_salt_sz c) (key_sz c)
    (iv_sz c) (block_sz c) (page_sz c) (reserve_sz c) (hmac_sz c) (plaintext_header_sz c)
    (hmac_algorithm c) (kdf_algorithm c) (error c) (flags c) (kdf_salt c) (hmac_kdf_salt c)
    (buffer c) v (write_ctx c).

Definition set_write_ctx (v : cipher_ctx) (c : codec_ctx) : codec_ctx :=
  mkCodec (ctx_addr c) (store_pass c) (kdf_iter c) (fast_kdf_iter c) (kdf_salt_sz c) (key_sz c)
    (iv_sz c) (block_sz c) (page_sz c) (reserve_sz c) (hmac_sz c) (plaintext_header_sz c)
    (hmac_algorithm c) (kdf_algorithm c) (error c) (flags c) (kdf_salt c) (hmac_kdf_salt c)
    (buffer c) (read_ctx c) v.

Section Codec.
Context {W : Type} {Mem : Memory W} {St : Store W} (P : sqlcipher_provider W).

(** Memory from [sqlcipher_malloc] is zero. *)
Definition alloc (n : Z) (w : W) : buf * W :=
  let '(a, w) := m_malloc n w in
  (if a =? 0 then null else (a, memset 0 (Z.to_nat n)), w).

Definition release (b : buf) (n : Z) (w : W) : W := if is_null b then w else m_free (fst b) n w.

(** The allocation of a structure of [n] bytes. *)
Definition sizeof_cipher_ctx : Z := 32.
Definition sizeof_codec_ctx : Z := 128.

Definition sqlcipher_cipher_ctx_init (ctx : codec_ctx) (w : W) : Z * cipher_ctx * W :=
  let '(a, w) := m_malloc sizeof_cipher_ctx w in
  if a =? 0 then (SQLITE_NOMEM, no_cipher, w)
  else
    let '(k, w) := alloc (key_sz ctx) w in
    let '(h, w) := alloc (key_sz ctx) w in
    let c := mkCipher a 0 0 k h null in
    ((if is_null k || is_null h then SQLITE_NOMEM else SQLITE_OK), c, w).

(** [None]: the pointer to the context is null. *)
Definition sqlcipher_cipher_ctx_free (ctx : codec_ctx) (c : cipher_ctx) (w : W) : option W :=
  if cc_addr c =? 0 then None
  else
    let w := release (key c) (key_sz ctx) w in
    let w := release (hmac_key c) (key_sz ctx) w in
    let w := release (pass c) (pass_sz c) w in
    Some (m_free (cc_addr c) sizeof_cipher_ctx w).

(** The space at the end of a page: the initial vector, the authentication code, rounded up to
    whole cipher blocks. *)
Definition sqlcipher_codec_ctx_reserve_setup (ctx : codec_ctx) : Z * codec_ctx :=
  let base_reserve := iv_sz ctx in
  let ctx := set_hmac_sz (p_get_hmac_sz P (hmac_algorithm ctx)) ctx in
  let reserve :=
    if SQLCIPHER_FLAG_GET (flags ctx) CIPHER_FLAG_HMAC then base_reserve + hmac_sz ctx
    else base_reserve in
  let reserve :=
    if 0 <? block_sz ctx then
      if Z.rem reserve (block_sz ctx) =? 0 then reserve
      else (Z.quot reserve (block_sz ctx) + 1) * block_sz ctx
    else reserve in
  (SQLITE_OK, set_reserve_sz reserve ctx).

(** 0 if the passphrases are the same; [None] if a null pointer is compared. *)
Definition sqlcipher_cipher_ctx_cmp (c1 c2 : cipher_ctx) : option Z :=
  if negb (pass_sz c1 =? pass_sz c2) then Some 1
  else if fst (pass c1) =? fst (pass c2) then Some 0
  else if (is_null (pass c1) || is_null (pass c2)) && (0 <? pass_sz c1) then None
  else Some (if sqlcipher_memcmp (snd (pass c1)) (snd (pass c2)) (Z.to_nat (pass_sz c1))
             then 1 else 0).

Definition sqlcipher_cipher_ctx_copy (ctx : codec_ctx) (target source : cipher_ctx) (w : W)
    : Z * cipher_ctx * W :=
  let w := release (pass target) (pass_sz target) w in
  let n := Z.to_nat (key_sz ctx) in
  let k := (fst (key target), memcpy (snd (key target)) 0 (firstn n (snd (key source)))) in
  let h := (fst (hmac_key target),
            memcpy (snd (hmac_key target)) 0 (firstn n (snd (hmac_key source)))) in
  let t p := mkCipher (cc_addr target) (derive_key source) (pass_sz source) k h p in
  if negb (is_null (pass source)) && negb (pass_sz source =? 0) then
    let '(p, w) := alloc (pass_sz source) w in
    if is_null p then (SQLITE_NOMEM, t null, w)
    else (SQLITE_OK,
          t (fst p, memcpy (snd p) 0 (firstn (Z.to_nat (pass_sz source)) (snd (pass source)))), w)
  else (SQLITE_OK, t (pass source), w).

Definition sqlcipher_set_derive_key (ctx : codec_ctx) (derive : Z) : codec_ctx :=
  let on c := if cc_addr c =? 0 then c
              else mkCipher (cc_addr c) derive (pass_sz c) (key c) (hmac_key c) (pass c) in
  set_write_ctx (on (write_ctx ctx)) (set_read_ctx (on (read_ctx ctx)) ctx).

(** [zKey] is [None] for a null pointer. *)
Definition sqlcipher_cipher_ctx_set_pass (c : cipher_ctx) (zKey : option (list Z)) (nKey : Z) (w : W)
    : Z * cipher_ctx * W :=
  let w := release (pass c) (pass_sz c) w in
  let with_pass n p := mkCipher (cc_addr c) (derive_key c) n (key c) (hmac_key c) p in
  match zKey with
  | Some z =>
      if nKey =? 0 then (SQLITE_OK, with_pass 0 null, w)
      else
        let '(p, w) := alloc nKey w in
        if is_null p then (SQLITE_NOMEM, with_pass nKey null, w)
        else (SQLITE_OK, with_pass nKey (fst p, memcpy (snd p) 0 (firstn (Z.to_nat nKey) z)), w)
  | None => (SQLITE_OK, with_pass 0 null, w)
  end.

Definition set_derive (d : Z) (c : cipher_ctx) : cipher_ctx :=
  mkCipher (cc_addr c) d (pass_sz c) (key c) (hmac_key c) (pass c).

Definition sqlcipher_codec_ctx_set_pass (ctx : codec_ctx) (zKey : option (list Z)) (nKey for_ctx : Z)
    (w : W) : Z * codec_ctx * W :=
  let wr := negb (for_ctx =? 0) in
  let '(rc, c, w) :=
    sqlcipher_cipher_ctx_set_pass (if wr then write_ctx ctx else read_ctx ctx) zKey nKey w in
  let put c := if wr then set_write_ctx c ctx else set_read_ctx c ctx in
  if negb (rc =? SQLITE_OK) then (rc, put c, w)
  else
    let c := set_derive 1 c in
    let ctx := put c in
    if for_ctx =? 2 then
      let '(rc, t, w) := sqlcipher_cipher_ctx_copy ctx (read_ctx ctx) c w in
      (rc, set_read_ctx t ctx, w)
    else (SQLITE_OK, ctx, w).

(** ** Settings *)

Definition key_used (ctx : codec_ctx) : bool := SQLCIPHER_FLAG_GET (flags ctx) CIPHER_FLAG_KEY_USED.

Definition sqlcipher_codec_ctx_set_kdf_iter (ctx : codec_ctx) (n : Z) : Z * codec_ctx :=
  if key_used ctx then (SQLITE_OK, ctx)
  else (SQLITE_OK, sqlcipher_set_derive_key (set_kdf_iter n ctx) 1).

Definition sqlcipher_codec_ctx_set_fast_kdf_iter (ctx : codec_ctx) (n : Z) : Z * codec_ctx :=
  if key_used ctx then (SQLITE_OK, ctx)
  else (SQLITE_OK, sqlcipher_set_derive_key (set_fast_kdf_iter n ctx) 1).

Definition sqlcipher_codec_ctx_set_use_hmac (ctx : codec_ctx) (use : bool) : Z * codec_ctx :=
  if key_used ctx then (SQLITE_OK, ctx)
  else
    let ctx :=
      if use then set_flags (SQLCIPHER_FLAG_SET (flags ctx) CIPHER_FLAG_HMAC) ctx
      else set_flags (SQLCIPHER_FLAG_UNSET (flags ctx) CIPHER_FLAG_HMAC) ctx in
    sqlcipher_codec_ctx_reserve_setup ctx.

Definition sqlcipher_codec_ctx_set_plaintext_header_size (ctx : codec_ctx) (size : Z)
    : Z * codec_ctx :=
  if (0 <=? size) && (0 <? block_sz ctx) && (Z.rem size (block_sz ctx) =? 0)
     && (size <=? page_sz ctx - reserve_sz ctx)
  then (SQLITE_OK, set_plaintext_header_sz size ctx)
  else (SQLITE_ERROR, set_plaintext_header_sz (-1) ctx).

Definition sqlcipher_codec_ctx_set_hmac_algorithm (ctx : codec_ctx) (algorithm : Z) : Z * codec_ctx :=
  if key_used ctx then (SQLITE_OK, ctx)
  else sqlcipher_codec_ctx_reserve_setup (set_hmac_algorithm algorithm ctx).

Definition sqlcipher_codec_ctx_set_kdf_algorithm (ctx : codec_ctx) (algorithm : Z) : Z * codec_ctx :=
  if key_used ctx then (SQLITE_OK, ctx)
  else (SQLITE_OK, set_kdf_algorithm algorithm ctx).

Definition sqlcipher_codec_ctx_set_error (ctx : codec_ctx) (err : Z) (w : W) : codec_ctx * W :=
  (set_error err ctx, s_pager_error err w).

(** The salt is the start of the file; if that cannot be read, it is random. *)
Definition sqlcipher_codec_ctx_init_kdf_salt (ctx : codec_ctx) (w : W) : Z * codec_ctx * W :=
  if SQLCIPHER_FLAG_GET (flags ctx) CIPHER_FLAG_HAS_KDF_SALT then (SQLITE_OK, ctx, w)
  else
    let put s ctx := set_kdf_salt (fst (kdf_salt ctx), memcpy (snd (kdf_salt ctx)) 0 s) ctx in
    let has ctx := set_flags (SQLCIPHER_FLAG_SET (flags ctx) CIPHER_FLAG_HAS_KDF_SALT) ctx in
    let '(ok, ctx, w) :=
      if s_open w then
        let '(ok, s, w) := s_read (kdf_salt_sz ctx) 0 w in (ok, put s ctx, w)
      else (false, ctx, w) in
    if ok then (SQLITE_OK, has ctx, w)
    else
      let '(ok, s, w) := p_random P (kdf_salt_sz ctx) w in
      if ok then (SQLITE_OK, has (put s ctx), w) else (SQLITE_ERROR, put s ctx, w).

Definition sqlcipher_codec_ctx_set_kdf_salt (ctx : codec_ctx) (salt : list Z) (size : Z)
    : Z * codec_ctx :=
  if key_used ctx then (SQLITE_OK, ctx)
  else if kdf_salt_sz ctx <=? size then
    let s := (fst (kdf_salt ctx),
              memcpy (snd (kdf_salt ctx)) 0 (firstn (Z.to_nat (kdf_salt_sz ctx)) salt)) in
    (SQLITE_OK,
     set_flags (SQLCIPHER_FLAG_SET (flags ctx) CIPHER_FLAG_HAS_KDF_SALT) (set_kdf_salt s ctx))
  else (SQLITE_ERROR, ctx).

(** The salt, obtained on first use. *)
Definition salt_step (ctx : codec_ctx) (w : W) : Z * codec_ctx * W :=
  if SQLCIPHER_FLAG_GET (flags ctx) CIPHER_FLAG_HAS_KDF_SALT then (SQLITE_OK, ctx, w)
  else sqlcipher_codec_ctx_init_kdf_salt ctx w.

(** The result code, the salt and the context. *)
Definition sqlcipher_codec_ctx_get_kdf_salt (ctx : codec_ctx) (w : W) : Z * list Z * codec_ctx * W :=
  let '(rc, ctx, w) := salt_step ctx w in (rc, snd (kdf_salt ctx), ctx, w).

Definition sqlcipher_codec_ctx_set_pagesize (ctx : codec_ctx) (size : Z) (w : W)
    : Z * codec_ctx * W :=
  if key_used ctx then (SQLITE_OK, ctx, w)
  else if negb (negb (size =? 0) && (Z.land size (size - 1) =? 0)) || (size <? 512) || (65536 <? size)
  then (SQLITE_ERROR, ctx, w)
  else
    let w := release (buffer ctx) (page_sz ctx) w in
    let ctx := set_page_sz size ctx in
    let '(b, w) := alloc size w in
    ((if is_null b then SQLITE_NOMEM else SQLITE_OK), set_buffer b ctx, w).

(** The settings that a new context takes over. *)
Record Defaults := mkDefaults {
  default_flags : Z;
  hmac_salt_mask : Z;
  default_kdf_iter : Z;
  default_page_size : Z;
  default_plaintext_header_size : Z;
  default_hmac_algorithm : Z;
  default_kdf_algorithm : Z
}.

Definition initial_defaults : Defaults :=
  mkDefaults (Z.lor CIPHER_FLAG_HMAC CIPHER_FLAG_LE_PGNO) 0x3a 256000 4096 0
    SQLCIPHER_HMAC_SHA512 SQLCIPHER_PBKDF2_HMAC_SHA512.

(** The next call is made only after SQLITE_OK. *)
Definition then_ok (r : Z * codec_ctx * W) (k : codec_ctx -> W -> Z * codec_ctx * W)
    : Z * codec_ctx * W :=
  let '(rc, ctx, w) := r in if rc =? SQLITE_OK then k ctx w else (rc, ctx, w).

Definition pure (r : Z * codec_ctx) (w : W) : Z * codec_ctx * W := (fst r, snd r, w).

Definition sqlcipher_codec_ctx_init (g : Defaults) (zKey : option (list Z)) (nKey : Z) (w : W)
    : Z * codec_ctx * W :=
  let '(a, w) := m_malloc sizeof_codec_ctx w in
  let ctx := mkCodec a 0 0 0 0 0 0 0 0 0 0 0 0 0 0 0 null null null no_cipher no_cipher in
  if a =? 0 then (SQLITE_NOMEM, ctx, w)
  else
    let ctx := set_kdf_salt_sz FILE_HEADER_SZ ctx in
    let '(s, w) := alloc (kdf_salt_sz ctx) w in
    let ctx := set_kdf_salt s ctx in
    if is_null s then (SQLITE_NOMEM, ctx, w)
    else
      let '(s, w) := alloc (kdf_salt_sz ctx) w in
      let ctx := set_hmac_kdf_salt s ctx in
      if is_null s then (SQLITE_NOMEM, ctx, w)
      else
        let ctx := set_flags (default_flags g) ctx in
        let '(rc, w) := p_ctx_init P w in
        if negb (rc =? SQLITE_OK) then (rc, ctx, w)
        else
          let ctx := set_key_sz (p_get_key_sz P) ctx in
          let ctx := set_iv_sz (p_get_iv_sz P) ctx in
          let ctx := set_block_sz (p_get_block_sz P) ctx in
          then_ok (sqlcipher_codec_ctx_set_pagesize ctx (default_page_size g) w) (fun ctx w =>
          then_ok (pure (sqlcipher_codec_ctx_set_kdf_iter ctx (default_kdf_iter g)) w) (fun ctx w =>
          then_ok (pure (sqlcipher_codec_ctx_set_fast_kdf_iter ctx FAST_PBKDF2_ITER) w) (fun ctx w =>
          then_ok (pure (sqlcipher_codec_ctx_set_hmac_algorithm ctx (default_hmac_algorithm g)) w)
            (fun ctx w =>
          then_ok (pure (sqlcipher_codec_ctx_set_use_hmac ctx
                           (SQLCIPHER_FLAG_GET (default_flags g) CIPHER_FLAG_HMAC)) w) (fun ctx w =>
          then_ok (pure (sqlcipher_codec_ctx_set_kdf_algorithm ctx (default_kdf_algorithm g)) w)
            (fun ctx w =>
          then_ok (pure (sqlcipher_codec_ctx_set_plaintext_header_size ctx
                           (default_plaintext_header_size g)) w) (fun ctx w =>
          then_ok (let '(rc, c, w) := sqlcipher_cipher_ctx_init ctx w in (rc, set_read_ctx c ctx, w))
            (fun ctx w =>
          then_ok (let '(rc, c, w) := sqlcipher_cipher_ctx_init ctx w in (rc, set_write_ctx c ctx, w))
            (fun ctx w =>
          then_ok (sqlcipher_codec_ctx_set_pass ctx zKey nKey 0 w) (fun ctx w =>
          let '(rc, c, w) := sqlcipher_cipher_ctx_copy ctx (write_ctx ctx) (read_ctx ctx) w in
          (rc, set_write_ctx c ctx, w))))))))))).

Definition sqlcipher_codec_ctx_free (ctx : codec_ctx) (w : W) : option W :=
  let w := release (kdf_salt ctx) (kdf_salt_sz ctx) w in
  let w := release (hmac_kdf_salt ctx) (kdf_salt_sz ctx) w in
  let w := release (buffer ctx) (page_sz ctx) w in
  let w := p_ctx_free P w in
  match sqlcipher_cipher_ctx_free ctx (read_ctx ctx) w with
  | None => None
  | Some w =>
      match sqlcipher_cipher_ctx_free ctx (write_ctx ctx) w with
      | None => None
      | Some w => Some (m_free (ctx_addr ctx) sizeof_codec_ctx w)
      end
  end.

End Codec.
