(* ===== verification/ScKeys.v ===== *)
(** * SQLCipher: keys

    The derivation of the keys of a database from its passphrase, in the three raw formats and
    through the key derivation function, and the key specification, a raw format that carries a
    derived key to another connection (sqlcipher.c). *)

From Stdlib Require Import ZArith Lia List Bool.
From S2P Require Import Prelude ScBytes ScHeap ScProvider ScContext.
Import ListNotations.
Local Open Scope Z_scope.

(** A byte string starts with x and an apostrophe, without regard to case. *)
Definition blob_prefix (z : list Z) : bool :=
  ((z.[0] =? 120) || (z.[0] =? 88)) && (z.[1] =? 39).

Definition blob_format (c : cipher_ctx) : bool :=
  let z := snd (pass c) in
  (5 <=? pass_sz c) && blob_prefix z
  && (z.[Z.to_nat (pass_sz c - 1)] =? 39)
  && (Z.rem (pass_sz c - 3) 2 =? 0)
  && cipher_isHex (skipn 2 z) (Z.to_nat (pass_sz c - 3)).

Definition set_keys (k h : list Z) (c : cipher_ctx) : cipher_ctx :=
  mkCipher (cc_addr c) (derive_key c) (pass_sz c) (fst (key c), k) (fst (hmac_key c), h) (pass c).

Section Keys.
Context {W : Type} {Mem : Memory W} {St : Store W} (P : sqlcipher_provider W).
Context (mask : list Z).

(** The label error: keys are overwritten with noise. *)
Definition key_derive_error (ctx : codec_ctx) (c : cipher_ctx) (w : W) : Z * codec_ctx * cipher_ctx * W :=
  let n := Z.to_nat (key_sz ctx) in
  let '(r1, w) := m_noise n w in
  let '(r2, w) := m_noise n w in
  (SQLITE_ERROR, ctx, set_keys (memcpy (snd (key c)) 0 r1) (memcpy (snd (hmac_key c)) 0 r2) c, w).

(** The encryption key: raw, raw with salt, raw with authentication key and salt, or derived;
    the last component tells whether the authentication key is still to be derived. *)
Definition derive_encryption_key (ctx : codec_ctx) (c : cipher_ctx) (w : W)
    : bool * codec_ctx * cipher_ctx * bool * W :=
  let nk := Z.to_nat (key_sz ctx) in
  let raw_key_sz := key_sz ctx * 2 in
  let raw_salt_sz := kdf_salt_sz ctx * 2 in
  let z := skipn 2 (snd (pass c)) in
  let k := snd (key c) in
  let h := snd (hmac_key c) in
  let with_salt s ctx := set_kdf_salt (fst (kdf_salt ctx), s) ctx in
  if blob_format c && (pass_sz c =? raw_key_sz + 3) then
    (true, ctx, set_keys (cipher_hex2bin z (Z.to_nat raw_key_sz) k) h c, true, w)
  else if blob_format c && (pass_sz c =? raw_key_sz + raw_salt_sz + 3) then
    let k := cipher_hex2bin z (Z.to_nat raw_key_sz) k in
    let s := cipher_hex2bin (skipn (Z.to_nat raw_key_sz) z) (Z.to_nat raw_salt_sz) (snd (kdf_salt ctx)) in
    (true, with_salt s ctx, set_keys k h c, true, w)
  else if blob_format c && (pass_sz c =? raw_key_sz + raw_key_sz + raw_salt_sz + 3) then
    let k := cipher_hex2bin z (Z.to_nat raw_key_sz) k in
    let h := cipher_hex2bin (skipn (Z.to_nat raw_key_sz) z) (Z.to_nat raw_key_sz) h in
    let s := cipher_hex2bin (skipn (Z.to_nat (raw_key_sz + raw_key_sz)) z) (Z.to_nat raw_salt_sz)
               (snd (kdf_salt ctx)) in
    (true, with_salt s ctx, set_keys k h c, false, w)
  else
    match p_kdf P (kdf_algorithm ctx) (firstn (Z.to_nat (pass_sz c)) (snd (pass c)))
            (firstn (Z.to_nat (kdf_salt_sz ctx)) (snd (kdf_salt ctx))) (kdf_iter ctx) (key_sz ctx) w with
    | (Some d, w) => (true, ctx, set_keys (memcpy k 0 d) h c, true, w)
    | (None, w) => (false, ctx, c, true, w)
    end.

(** The salt of the authentication key is that of the encryption key under a mask. *)
Definition derive_hmac_key (salt_mask : Z) (ctx : codec_ctx) (c : cipher_ctx) (w : W)
    : bool * codec_ctx * cipher_ctx * W :=
  let ns := Z.to_nat (kdf_salt_sz ctx) in
  let s := memcpy (snd (hmac_kdf_salt ctx)) 0 (firstn ns (snd (kdf_salt ctx))) in
  let s := fold_left (fun s i => s.[i <- Z.lxor (s.[i]) salt_mask]) (seq 0 ns) s in
  let ctx := set_hmac_kdf_salt (fst (hmac_kdf_salt ctx), s) ctx in
  match p_kdf P (kdf_algorithm ctx) (firstn (Z.to_nat (key_sz ctx)) (snd (key c)))
          (firstn ns s) (fast_kdf_iter ctx) (key_sz ctx) w with
  | (Some d, w) => (true, ctx, set_keys (snd (key c)) (memcpy (snd (hmac_key c)) 0 d) c, w)
  | (None, w) => (false, ctx, c, w)
  end.

Definition sqlcipher_cipher_ctx_key_derive (salt_mask : Z) (ctx : codec_ctx) (c : cipher_ctx) (w : W)
    : Z * codec_ctx * cipher_ctx * W :=
  if is_null (pass c) || (pass_sz c =? 0) then (SQLITE_ERROR, ctx, c, w)
  else
    let '(rc, ctx, w) := salt_step P ctx w in
    if negb (rc =? SQLITE_OK) then key_derive_error ctx c w
    else
      let '(ok, ctx, c, derive_hmac, w) := derive_encryption_key ctx c w in
      if negb ok then key_derive_error ctx c w
      else
        let '(ok, ctx, c, w) :=
          if SQLCIPHER_FLAG_GET (flags ctx) CIPHER_FLAG_HMAC && derive_hmac
          then derive_hmac_key salt_mask ctx c w else (true, ctx, c, w) in
        if negb ok then key_derive_error ctx c w
        else
          let n := Z.to_nat (key_sz ctx) in
          (SQLITE_OK, ctx,
           set_derive 0 (set_keys (sqlcipher_shield mask (snd (key c)) n)
                                  (sqlcipher_shield mask (snd (hmac_key c)) n) c), w).

(** [None]: a null pointer is compared. *)
Definition sqlcipher_codec_key_derive (salt_mask : Z) (ctx : codec_ctx) (w : W)
    : option (Z * codec_ctx * W) :=
  let '(rc, ctx, w) :=
    if negb (derive_key (read_ctx ctx) =? 0) then
      let '(rc, ctx, c, w) := sqlcipher_cipher_ctx_key_derive salt_mask ctx (read_ctx ctx) w in
      (rc, set_read_ctx c ctx, w)
    else (SQLITE_OK, ctx, w) in
  if negb (rc =? SQLITE_OK) then Some (SQLITE_ERROR, ctx, w)
  else
    let r :=
      if negb (derive_key (write_ctx ctx) =? 0) then
        match sqlcipher_cipher_ctx_cmp (write_ctx ctx) (read_ctx ctx) with
        | None => None
        | Some 0 =>
            let '(rc, c, w) := sqlcipher_cipher_ctx_copy ctx (write_ctx ctx) (read_ctx ctx) w in
            Some (rc, set_write_ctx c ctx, w)
        | Some _ =>
            let '(rc, ctx, c, w) := sqlcipher_cipher_ctx_key_derive salt_mask ctx (write_ctx ctx) w in
            Some (rc, set_write_ctx c ctx, w)
        end
      else Some (SQLITE_OK, ctx, w) in
    match r with
    | None => None
    | Some (rc, ctx, w) =>
        if negb (rc =? SQLITE_OK) then Some (SQLITE_ERROR, ctx, w)
        else if store_pass ctx =? 1 then Some (SQLITE_OK, ctx, w)
        else
          let '(_, c, w) := sqlcipher_cipher_ctx_set_pass (read_ctx ctx) None 0 w in
          let ctx := set_read_ctx c ctx in
          let '(_, c, w) := sqlcipher_cipher_ctx_set_pass (write_ctx ctx) None 0 w in
          Some (SQLITE_OK, set_write_ctx c ctx, w)
    end.

(** The source is the context for reading (0) or for writing. *)
Definition sqlcipher_codec_key_copy (ctx : codec_ctx) (source : Z) (w : W) : Z * codec_ctx * W :=
  if source =? 0 then
    let '(rc, c, w) := sqlcipher_cipher_ctx_copy ctx (write_ctx ctx) (read_ctx ctx) w in
    (rc, set_write_ctx c ctx, w)
  else
    let '(rc, c, w) := sqlcipher_cipher_ctx_copy ctx (read_ctx ctx) (write_ctx ctx) w in
    (rc, set_read_ctx c ctx, w).

(** ** The key specification *)

(** [cipher_bin2hex] at an offset into a buffer. *)
Definition bin2hex_at (off : nat) (bin : list Z) (n : nat) (b : list Z) : list Z :=
  firstn off b ++ cipher_bin2hex bin n (skipn off b).

Definition keyspec_size (ctx : codec_ctx) : Z :=
  if SQLCIPHER_FLAG_GET (flags ctx) CIPHER_FLAG_HMAC
  then (key_sz ctx + key_sz ctx + kdf_salt_sz ctx) * 2 + 3
  else (key_sz ctx + kdf_salt_sz ctx) * 2 + 3.

(** The mask is taken off each key while it is written and put on again. *)
Definition sqlcipher_cipher_ctx_get_keyspec (ctx : codec_ctx) (c : cipher_ctx) (w : W)
    : Z * buf * cipher_ctx * W :=
  let sz := keyspec_size ctx in
  let n := Z.to_nat (key_sz ctx) in
  let '(b, w) := alloc sz w in
  if is_null b then (SQLITE_NOMEM, null, c, w)
  else
    let s := (snd b).[0 <- 120].[1 <- 39] in
    let k := sqlcipher_shield mask (snd (key c)) n in
    let s := bin2hex_at 2 k n s in
    let k := sqlcipher_shield mask k n in
    let '(s, h, off) :=
      if SQLCIPHER_FLAG_GET (flags ctx) CIPHER_FLAG_HMAC then
        let h := sqlcipher_shield mask (snd (hmac_key c)) n in
        let s := bin2hex_at (2 + 2 * n) h n s in
        (s, sqlcipher_shield mask h n, (2 + 2 * n + 2 * n)%nat)
      else (s, snd (hmac_key c), (2 + 2 * n)%nat) in
    let s := bin2hex_at off (snd (kdf_salt ctx)) (Z.to_nat (kdf_salt_sz ctx)) s in
    let s := s.[Z.to_nat (sz - 1) <- 39] in
    (SQLITE_OK, (fst b, s), set_keys k h c, w).

(** ** Lemmas *)

Lemma bin2hex_at_app A bin R off n :
  length A = off -> length bin = n -> (0 < n)%nat -> (2 * n + 1 <= length R)%nat ->
  bin2hex_at off bin n (A ++ R) = A ++ to_hex bin ++ [0] ++ skipn (2 * n + 1) R.
Proof.
  intros HA Hb Hn HR. unfold bin2hex_at. rewrite firstn_app_l, skipn_app_l by exact HA. f_equal.
  rewrite bin2hex_memcpy by lia. destruct n as [|n]; [lia|].
  rewrite firstn_all2 by lia. unfold memcpy. cbn [firstn app Nat.add].
  rewrite length_app, length_hex_text, Hb, <- app_assoc. reflexivity.
Qed.

Lemma hex2bin_exact l rest out n m :
  bytes l -> length l = n -> length out = n -> m = (2 * n)%nat ->
  cipher_hex2bin (to_hex l ++ rest) m out = l.
Proof.
  intros Hl Ln Lo ->. rewrite hex2bin_memcpy by lia. rewrite <- Ln, hex_byte_to_hex by exact Hl.
  unfold memcpy. cbn [firstn app]. rewrite skipn_all2, app_nil_r by lia. reflexivity.
Qed.

(** The lengths that every context has. *)
Definition sizes_wf (ctx : codec_ctx) : Prop :=
  0 < key_sz ctx /\ kdf_salt_sz ctx = FILE_HEADER_SZ
  /\ bytes (snd (kdf_salt ctx)) /\ Z.of_nat (length (snd (kdf_salt ctx))) = FILE_HEADER_SZ.

Definition keys_wf (ctx : codec_ctx) (c : cipher_ctx) : Prop :=
  bytes (snd (key c)) /\ bytes (snd (hmac_key c))
  /\ Z.of_nat (length (snd (key c))) = key_sz ctx /\ Z.of_nat (length (snd (hmac_key c))) = key_sz ctx.

Definition has_hmac (ctx : codec_ctx) : bool := SQLCIPHER_FLAG_GET (flags ctx) CIPHER_FLAG_HMAC.

(** The text that stands for a key. *)
Definition keyspec_text (ctx : codec_ctx) (c : cipher_ctx) : list Z :=
  let n := Z.to_nat (key_sz ctx) in
  [120; 39] ++ to_hex (sqlcipher_shield mask (snd (key c)) n)
  ++ (if has_hmac ctx then to_hex (sqlcipher_shield mask (snd (hmac_key c)) n) else [])
  ++ to_hex (snd (kdf_salt ctx)) ++ [39].

Lemma length_keyspec_text ctx c :
  sizes_wf ctx -> keys_wf ctx c -> Z.of_nat (length (keyspec_text ctx c)) = keyspec_size ctx.
Proof.
  intros (Hk & Hs & _ & Ls) (_ & _ & Lk & Lh). unfold keyspec_text, keyspec_size, has_hmac.
  destruct (SQLCIPHER_FLAG_GET _ _);
    rewrite ?length_app, ?length_hex_text, ?length_shield; cbn [length]; lia.
Qed.

Lemma set_last (A : list Z) x v n : length A = n -> (A ++ [x]).[n <- v] = A ++ [v].
Proof. intros H. rewrite upd_memcpy by (rewrite length_app; cbn; lia). now apply memcpy_app_end. Qed.

(** The last part of the text fills the buffer, and its terminator becomes the apostrophe. *)
Lemma fill_last (A bin R : list Z) off n sz :
  length A = off -> length bin = n -> (0 < n)%nat -> length R = (2 * n + 1)%nat ->
  sz = (off + 2 * n)%nat ->
  (bin2hex_at off bin n (A ++ R)).[sz <- 39] = A ++ to_hex bin ++ [39].
Proof.
  intros HA Hb Hn HR ->. rewrite bin2hex_at_app by (assumption || lia).
  rewrite skipn_all2 by lia. rewrite app_nil_r, app_assoc.
  rewrite set_last; [now rewrite <- app_assoc|]. rewrite length_app, length_hex_text. lia.
Qed.

Lemma get_keyspec_text ctx c w b c1 w1 :
  sizes_wf ctx -> keys_wf ctx c ->
  sqlcipher_cipher_ctx_get_keyspec ctx c w = (SQLITE_OK, b, c1, w1) ->
  is_null b = false /\ snd b = keyspec_text ctx c
  /\ snd (key c1) = snd (key c) /\ snd (hmac_key c1) = snd (hmac_key c).
Proof.
  intros (Hk0 & Hss & _ & Ls) (_ & _ & Lk & Lh) H. unfold FILE_HEADER_SZ in *.
  unfold sqlcipher_cipher_ctx_get_keyspec, alloc in H.
  destruct (m_malloc (keyspec_size ctx) w) as [a w']. destruct (a =? 0) eqn:Ea.
  - cbn in H. discriminate H.
  - unfold is_null in *. cbn [fst snd] in H. rewrite Ea in H.
    set (n := Z.to_nat (key_sz ctx)) in *.
    set (k := sqlcipher_shield mask (snd (key c)) n) in *.
    assert (Kn : length k = n) by (unfold k; rewrite length_shield; lia).
    assert (IK : sqlcipher_shield mask k n = snd (key c)) by (apply shield_invol; lia).
    assert (E0 : forall m, (memset 0 (S (S m))).[0 <- 120].[1 <- 39] = [120; 39] ++ memset 0 m)
      by reflexivity.
    unfold keyspec_text, has_hmac. fold n k. unfold keyspec_size in *.
    destruct (SQLCIPHER_FLAG_GET (flags ctx) CIPHER_FLAG_HMAC).
    + set (h := sqlcipher_shield mask (snd (hmac_key c)) n) in *.
      assert (Hn : length h = n) by (unfold h; rewrite length_shield; lia).
      assert (IH : sqlcipher_shield mask h n = snd (hmac_key c)) by (apply shield_invol; lia).
      replace (Z.to_nat ((key_sz ctx + key_sz ctx + kdf_salt_sz ctx) * 2 + 3))
        with (S (S (4 * n + 33))) in H by lia.
      rewrite E0, (bin2hex_at_app [120; 39] k) in H
        by (rewrite ?length_memset; cbn [length]; lia).
      rewrite (app_assoc [120; 39]), (bin2hex_at_app ([120; 39] ++ to_hex k) h) in H
        by (rewrite ?length_app, ?length_hex_text, ?length_skipn, ?length_memset; cbn [length]; lia).
      rewrite (app_assoc _ (to_hex h)), (fill_last _ (snd (kdf_salt ctx))) in H
        by (rewrite ?length_app, ?length_hex_text, ?length_skipn, ?length_app, ?length_skipn,
              ?length_memset; cbn [length]; lia).
      rewrite IK, IH in H. injection H as <- <- _. cbn [fst snd key hmac_key set_keys].
      rewrite <- ?app_assoc. auto.
    + replace (Z.to_nat ((key_sz ctx + kdf_salt_sz ctx) * 2 + 3))
        with (S (S (2 * n + 33))) in H by lia.
      rewrite E0, (bin2hex_at_app [120; 39] k) in H
        by (rewrite ?length_memset; cbn [length]; lia).
      rewrite (app_assoc [120; 39]), (fill_last _ (snd (kdf_salt ctx))) in H
        by (rewrite ?length_app, ?length_hex_text, ?length_skipn, ?length_memset; cbn [length]; lia).
      rewrite IK in H. injection H as <- <- _. cbn [fst snd key hmac_key set_keys].
      rewrite <- ?app_assoc. auto.
Qed.

Lemma blob_format_hex c H m :
  snd (pass c) = [120; 39] ++ H ++ [39] -> length H = (2 * S m)%nat ->
  pass_sz c = Z.of_nat (length H) + 3 -> forallb is_hex H = true -> blob_format c = true.
Proof.
  intros Ez Lh Ep Hh. unfold blob_format, blob_prefix. rewrite Ez, Ep, Lh.
  cbn [app nth Z.eqb Pos.eqb orb andb].
  replace (Z.to_nat (Z.of_nat (2 * S m) + 3 - 1)) with (S (S (length H))) by lia.
  replace (Z.of_nat (2 * S m) + 3 - 3) with (Z.of_nat (S m) * 2) by lia.
  rewrite Z.rem_mul by lia. cbn [nth skipn].
  rewrite nth_middle. cbn [Z.eqb Pos.eqb andb].
  replace (Z.to_nat (Z.of_nat (S m) * 2)) with (length H) by lia.
  rewrite cipher_isHex_forallb by (rewrite length_app; lia).
  rewrite firstn_app_l, Hh by reflexivity.
  destruct (Z.leb_spec 5 (Z.of_nat (2 * S m) + 3)); [reflexivity | lia].
Qed.

Context {StL : StoreLaws W} {PL : ProviderLaws P}.

Lemma flag_or f b c : SQLCIPHER_FLAG_GET (SQLCIPHER_FLAG_SET f b) c
  = SQLCIPHER_FLAG_GET f c || SQLCIPHER_FLAG_GET b c.
Proof.
  unfold SQLCIPHER_FLAG_GET, SQLCIPHER_FLAG_SET. rewrite Z.land_lor_distr_l.
  destruct (Z.eqb_spec (Z.lor (Z.land f c) (Z.land b c)) 0) as [E|E].
  - apply Z.lor_eq_0_iff in E. destruct E as [-> ->]. reflexivity.
  - destruct (Z.eqb_spec (Z.land f c) 0) as [E1|]; [|reflexivity].
    destruct (Z.eqb_spec (Z.land b c) 0) as [E2|]; [|reflexivity].
    rewrite E1, E2 in E. now contradict E.
Qed.

(** ** What key derivation leaves alone

    A context before and after: the salts, and the flag that there is one. *)
Definition salt_flag (f f' : Z) : Prop := f' = f \/ f' = SQLCIPHER_FLAG_SET f CIPHER_FLAG_HAS_KDF_SALT.

Definition refreshed (ctx ctx' : codec_ctx) : Prop :=
  exists f s h,
    ctx' = set_hmac_kdf_salt (fst (hmac_kdf_salt ctx), h)
             (set_flags f (set_kdf_salt (fst (kdf_salt ctx), s) ctx))
    /\ salt_flag (flags ctx) f /\ bytes s /\ Z.of_nat (length s) = FILE_HEADER_SZ
    /\ length h = length (snd (hmac_kdf_salt ctx)).

Lemma refreshed_refl ctx : sizes_wf ctx -> refreshed ctx ctx.
Proof.
  intros (_ & _ & Bs & Ls). exists (flags ctx), (snd (kdf_salt ctx)), (snd (hmac_kdf_salt ctx)).
  split; [destruct ctx as [? ? ? ? ? ? ? ? ? ? ? ? ? ? ? ? [] [] ? ? ?]; reflexivity|].
  unfold salt_flag. auto.
Qed.

Lemma refreshed_trans a b c : refreshed a b -> refreshed b c -> refreshed a c.
Proof.
  intros (f & s & h & -> & Hf & _ & _ & Lh) (f' & s' & h' & -> & Hf' & Bs & Ls & Lh').
  exists f', s', h'. split; [reflexivity|]. cbn in Hf', Lh'. split; [|split; [exact Bs|]; split; [exact Ls|]; lia].
  unfold salt_flag in *. destruct Hf as [-> | ->]; [exact Hf'|]. destruct Hf' as [-> | ->]; [auto|].
  right. unfold SQLCIPHER_FLAG_SET. now rewrite <- Z.lor_assoc, Z.lor_diag.
Qed.

Lemma refreshed_sizes ctx ctx' : sizes_wf ctx -> refreshed ctx ctx' -> sizes_wf ctx'.
Proof.
  intros (Hk & Hs & _) (f & s & h & -> & _ & Bs & Ls & _). unfold sizes_wf.
  cbn [key_sz kdf_salt_sz kdf_salt snd set_hmac_kdf_salt set_flags set_kdf_salt]. auto.
Qed.

Lemma refreshed_hmac ctx ctx' : refreshed ctx ctx' -> has_hmac ctx' = has_hmac ctx.
Proof.
  intros (f & s & h & -> & Hf & _). unfold has_hmac. cbn [flags set_hmac_kdf_salt set_flags].
  destruct Hf as [-> | ->]; [reflexivity|]. rewrite flag_or. apply orb_false_r.
Qed.

Lemma put_salt ctx s : sizes_wf ctx -> bytes s -> length s = Z.to_nat (kdf_salt_sz ctx) ->
  refreshed ctx (set_kdf_salt (fst (kdf_salt ctx), memcpy (snd (kdf_salt ctx)) 0 s) ctx).
Proof.
  intros (_ & Hz & Bs & Ls) B L. unfold FILE_HEADER_SZ in *.
  exists (flags ctx), (memcpy (snd (kdf_salt ctx)) 0 s), (snd (hmac_kdf_salt ctx)).
  split; [destruct ctx as [? ? ? ? ? ? ? ? ? ? ? ? ? ? ? ? ? [] ? ? ?]; reflexivity|].
  split; [now left|]. split; [now apply bytes_memcpy|]. rewrite length_memcpy by lia. auto.
Qed.

Lemma put_salt_flag ctx : sizes_wf ctx ->
  refreshed ctx (set_flags (SQLCIPHER_FLAG_SET (flags ctx) CIPHER_FLAG_HAS_KDF_SALT) ctx).
Proof.
  intros (_ & Hz & Bs & Ls).
  exists (SQLCIPHER_FLAG_SET (flags ctx) CIPHER_FLAG_HAS_KDF_SALT), (snd (kdf_salt ctx)), (snd (hmac_kdf_salt ctx)).
  split; [destruct ctx as [? ? ? ? ? ? ? ? ? ? ? ? ? ? ? ? [] [] ? ? ?]; reflexivity|].
  split; [now right|]. auto.
Qed.

Lemma init_salt_refreshed ctx w rc ctx' w' :
  sizes_wf ctx -> sqlcipher_codec_ctx_init_kdf_salt P ctx w = (rc, ctx', w') -> refreshed ctx ctx'.
Proof.
  intros Hs H. unfold sqlcipher_codec_ctx_init_kdf_salt in H.
  destruct (SQLCIPHER_FLAG_GET _ _); [injection H as <- <- <-; now apply refreshed_refl|].
  assert (Rand : forall ctx1 w1, refreshed ctx ctx1 ->
    (let '(ok, s, w) := p_random P (kdf_salt_sz ctx1) w1 in
     let put := set_kdf_salt (fst (kdf_salt ctx1), memcpy (snd (kdf_salt ctx1)) 0 s) ctx1 in
     if ok : bool
     then (SQLITE_OK, set_flags (SQLCIPHER_FLAG_SET (flags put) CIPHER_FLAG_HAS_KDF_SALT) put, w)
     else (SQLITE_ERROR, put, w)) = (rc, ctx', w') -> refreshed ctx ctx').
  { intros ctx1 w1 R1 E. pose proof (refreshed_sizes _ _ Hs R1) as Hs1.
    destruct (p_random P (kdf_salt_sz ctx1) w1) as [[ok s] w2] eqn:ER.
    destruct (random_bytes _ _ _ _ _ ER) as [Bs Ls].
    pose proof (put_salt ctx1 s Hs1 Bs Ls) as R2. cbv zeta in E.
    destruct ok; injection E as <- <- <-; apply (refreshed_trans _ _ _ R1); [|exact R2].
    exact (refreshed_trans _ _ _ R2 (put_salt_flag _ (refreshed_sizes _ _ Hs1 R2))). }
  destruct (s_open w); [|apply (Rand ctx w (refreshed_refl _ Hs) H)].
  destruct (s_read (kdf_salt_sz ctx) 0 w) as [[ok s] w1] eqn:ER.
  destruct (read_bytes _ _ _ _ _ _ ER) as [Bs Ls]. pose proof (put_salt ctx s Hs Bs Ls) as R1.
  destruct ok; [|apply (Rand _ w1 R1 H)]. injection H as <- <- <-.
  exact (refreshed_trans _ _ _ R1 (put_salt_flag _ (refreshed_sizes _ _ Hs R1))).
Qed.

Lemma salt_step_refreshed ctx w rc ctx' w' :
  sizes_wf ctx -> salt_step P ctx w = (rc, ctx', w') -> refreshed ctx ctx'.
Proof.
  intros Hs H. unfold salt_step in H.
  destruct (SQLCIPHER_FLAG_GET _ _); [|exact (init_salt_refreshed _ _ _ _ _ Hs H)].
  injection H as <- <- <-. now apply refreshed_refl.
Qed.

(** A text without authentication key, and one with it, in a context for it. *)
Lemma derive_raw ctx c w k h s :
  sizes_wf ctx -> keys_wf ctx c -> bytes k -> bytes h -> bytes s ->
  Z.of_nat (length k) = key_sz ctx -> Z.of_nat (length h) = key_sz ctx ->
  Z.of_nat (length s) = FILE_HEADER_SZ ->
  (snd (pass c) = [120; 39] ++ (to_hex k ++ to_hex h ++ to_hex s) ++ [39]
   -> pass_sz c = (key_sz ctx + key_sz ctx + kdf_salt_sz ctx) * 2 + 3
   -> derive_encryption_key ctx c w
      = (true, set_kdf_salt (fst (kdf_salt ctx), s) ctx, set_keys k h c, false, w))
  /\ (snd (pass c) = [120; 39] ++ (to_hex k ++ to_hex s) ++ [39]
   -> pass_sz c = (key_sz ctx + kdf_salt_sz ctx) * 2 + 3
   -> derive_encryption_key ctx c w
      = (true, set_kdf_salt (fst (kdf_salt ctx), s) ctx, set_keys k (snd (hmac_key c)) c, true, w)).
Proof.
  intros (Hk0 & Hss & Bs & Ls) (_ & _ & Lk & Lh) Bk Bh Bss Ek Eh Es. unfold FILE_HEADER_SZ in *.
  assert (Sub : forall A B C : list Z, firstn 0 A = [] -> skipn (length B) (B ++ C) = C)
    by (intros; now apply skipn_app_l).
  split; intros Ep En; unfold derive_encryption_key.
  - assert (Bf : blob_format c = true).
    { apply (blob_format_hex c (to_hex k ++ to_hex h ++ to_hex s) (length k + length h + length s - 1));
        rewrite ?length_app, ?length_hex_text; try lia; [exact Ep|].
      now rewrite !forallb_app, !hex_text_is_hex. }
    rewrite Bf, En, Ep. cbn [andb]. change (skipn 2 ([120; 39] ++ ?l)) with l.
    destruct (Z.eqb_spec ((key_sz ctx + key_sz ctx + kdf_salt_sz ctx) * 2 + 3) (key_sz ctx * 2 + 3)); [lia|].
    destruct (Z.eqb_spec ((key_sz ctx + key_sz ctx + kdf_salt_sz ctx) * 2 + 3)
                (key_sz ctx * 2 + kdf_salt_sz ctx * 2 + 3)); [lia|].
    destruct (Z.eqb_spec ((key_sz ctx + key_sz ctx + kdf_salt_sz ctx) * 2 + 3)
                (key_sz ctx * 2 + key_sz ctx * 2 + kdf_salt_sz ctx * 2 + 3)); [|lia].
    rewrite <- !app_assoc.
    rewrite (hex2bin_exact k _ _ (length k)) by (assumption || lia).
    rewrite (skipn_app_l (to_hex k) _ (Z.to_nat (key_sz ctx * 2))) by (rewrite length_hex_text; lia).
    rewrite (hex2bin_exact h _ _ (length h)) by (assumption || lia).
    rewrite (app_assoc (to_hex k)), (skipn_app_l (to_hex k ++ to_hex h))
      by (rewrite length_app, !length_hex_text; lia).
    rewrite (hex2bin_exact s _ _ (length s)) by (assumption || lia). reflexivity.
  - assert (Bf : blob_format c = true).
    { apply (blob_format_hex c (to_hex k ++ to_hex s) (length k + length s - 1));
        rewrite ?length_app, ?length_hex_text; try lia; [exact Ep|].
      now rewrite !forallb_app, !hex_text_is_hex. }
    rewrite Bf, En, Ep. cbn [andb]. change (skipn 2 ([120; 39] ++ ?l)) with l.
    destruct (Z.eqb_spec ((key_sz ctx + kdf_salt_sz ctx) * 2 + 3) (key_sz ctx * 2 + 3)); [lia|].
    destruct (Z.eqb_spec ((key_sz ctx + kdf_salt_sz ctx) * 2 + 3)
                (key_sz ctx * 2 + kdf_salt_sz ctx * 2 + 3)); [|lia].
    rewrite <- !app_assoc.
    rewrite (hex2bin_exact k _ _ (length k)) by (assumption || lia).
    rewrite (skipn_app_l (to_hex k) _ (Z.to_nat (key_sz ctx * 2))) by (rewrite length_hex_text; lia).
    rewrite (hex2bin_exact s _ _ (length s)) by (assumption || lia). reflexivity.
Qed.

(** C25: The key specification: the text that a connection hands out for its keys gives another
    connection, with the same provider and the same use of authentication codes, exactly the
    same encryption key, authentication key and salt, and no key derivation is run. *)
Theorem keyspec_roundtrip salt_mask ctx c w b c1 w1 ctx2 c2 w2 ctx2' w2' :
  bytes mask -> sizes_wf ctx -> keys_wf ctx c ->
  sqlcipher_cipher_ctx_get_keyspec ctx c w = (SQLITE_OK, b, c1, w1) ->
  sizes_wf ctx2 -> keys_wf ctx2 c2 -> key_sz ctx2 = key_sz ctx -> has_hmac ctx2 = has_hmac ctx ->
  is_null (pass c2) = false -> snd (pass c2) = snd b -> pass_sz c2 = keyspec_size ctx ->
  salt_step P ctx2 w2 = (SQLITE_OK, ctx2', w2') ->
  exists ctx3 c3,
    sqlcipher_cipher_ctx_key_derive salt_mask ctx2 c2 w2 = (SQLITE_OK, ctx3, c3, w2')
    /\ snd (key c3) = snd (key c) /\ snd (kdf_salt ctx3) = snd (kdf_salt ctx)
    /\ (has_hmac ctx = true -> snd (hmac_key c3) = snd (hmac_key c)) /\ derive_key c3 = 0.
Proof.
  intros Hm Hs Hk Hg Hs2 Hk2 Ez Eh Nb Ep En Hsalt.
  destruct (get_keyspec_text _ _ _ _ _ _ Hs Hk Hg) as (_ & Tb & _).
  pose proof Hs as (Hk0 & Hss & Bs & Ls). pose proof Hk as (Bk & Bh & Lk & Lh).
  pose proof Hs2 as (_ & Hss2 & Bs2 & Ls2).
  pose proof (salt_step_refreshed _ _ _ _ _ Hs2 Hsalt) as R.
  pose proof (refreshed_sizes _ _ Hs2 R) as Hs3. pose proof (refreshed_hmac _ _ R) as Ef.
  assert (Kz : key_sz ctx2' = key_sz ctx) by (destruct R as (? & ? & ? & -> & _); exact Ez).
  set (n := Z.to_nat (key_sz ctx)) in *.
  set (k := sqlcipher_shield mask (snd (key c)) n). set (h := sqlcipher_shield mask (snd (hmac_key c)) n).
  assert (Hk3 : keys_wf ctx2' c2) by (unfold keys_wf in *; now rewrite Kz, <- Ez).
  assert (Bk' : bytes k) by (apply bytes_shield; auto; lia).
  assert (Bh' : bytes h) by (apply bytes_shield; auto; lia).
  destruct (derive_raw ctx2' c2 w2' k h (snd (kdf_salt ctx)) Hs3 Hk3 Bk' Bh' Bs) as [D3 D2];
    [unfold k; rewrite length_shield; lia | unfold h; rewrite length_shield; lia | exact Ls |].
  assert (IK : sqlcipher_shield mask k n = snd (key c)) by (apply shield_invol; lia).
  assert (IH : sqlcipher_shield mask h n = snd (hmac_key c)) by (apply shield_invol; lia).
  pose proof Hs3 as (_ & Hss3 & _).
  assert (N0 : 0 < keyspec_size ctx) by (unfold keyspec_size, FILE_HEADER_SZ in *;
    destruct (SQLCIPHER_FLAG_GET _ _); lia).
  unfold sqlcipher_cipher_ctx_key_derive. rewrite Nb, En.
  destruct (Z.eqb_spec (keyspec_size ctx) 0); [lia|]. cbn [orb]. rewrite Hsalt.
  cbn [Z.eqb SQLITE_OK negb].
  rewrite Ep, En in D3, D2. unfold keyspec_text in Tb. fold n k h in Tb.
  unfold keyspec_size in *. fold (has_hmac ctx) in *. destruct (has_hmac ctx) eqn:EH.
  - rewrite D3; [|rewrite Tb, <- !app_assoc; reflexivity | lia].
    cbn [negb]. rewrite andb_false_r. cbn [negb].
    do 2 eexists. split; [reflexivity|]. cbn [key hmac_key set_derive set_keys snd derive_key key_sz
      set_kdf_salt]. rewrite Kz. fold n. rewrite IK, IH. auto.
  - rewrite D2; [|rewrite Tb, <- !app_assoc; reflexivity | lia].
    cbn [negb flags set_kdf_salt]. fold (has_hmac ctx2'). rewrite Ef, Eh. cbn [andb negb].
    do 2 eexists. split; [reflexivity|]. cbn [key hmac_key set_derive set_keys snd derive_key key_sz
      set_kdf_salt]. rewrite Kz. fold n. rewrite IK. split_and; auto. discriminate.
Qed.

(** ** Keys from a passphrase *)

Definition masked_salt (salt_mask : Z) (s : list Z) : list Z := map (fun b => Z.lxor b salt_mask) s.

Lemma fold_xor_mask salt_mask s :
  fold_left (fun s i => s.[i <- Z.lxor (s.[i]) salt_mask]) (seq 0 (length s)) s
  = masked_salt salt_mask s.
Proof.
  rewrite (fold_left_ext_in _ (fun l i =>
    l.[i <- Z.lxor (l.[i]) ((memset salt_mask 32).[i mod sqlcipher_shield_mask_sz])])).
  - apply (nth_ext _ _ 0 (Z.lxor 0 salt_mask)).
    + unfold masked_salt. rewrite length_map. exact (length_shield (memset salt_mask 32) s (length s)).
    + intros i Hi. assert (Hl : (i < length s)%nat)
        by (rewrite <- (length_shield (memset salt_mask 32) s (length s)); exact Hi).
      rewrite nth_shield by lia. unfold masked_salt.
      rewrite (map_nth (fun b => Z.lxor b salt_mask) s 0 i).
      destruct (Nat.leb_spec 0 i), (Nat.ltb_spec i (0 + length s)); try lia. cbn [andb].
      f_equal. unfold memset. rewrite nth_repeat_lt; [reflexivity|]. apply Nat.mod_upper_bound. discriminate.
  - intros a i _. f_equal. f_equal. unfold memset. rewrite nth_repeat_lt; [reflexivity|].
    apply Nat.mod_upper_bound. discriminate.
Qed.

(** The keys that belong to a passphrase. *)
Definition passphrase_key (ctx : codec_ctx) (c : cipher_ctx) : list Z :=
  derive (kdf_algorithm ctx) (firstn (Z.to_nat (pass_sz c)) (snd (pass c)))
    (snd (kdf_salt ctx)) (kdf_iter ctx) (key_sz ctx).

Definition authentication_key (salt_mask : Z) (ctx : codec_ctx) (k : list Z) : list Z :=
  derive (kdf_algorithm ctx) k (masked_salt salt_mask (snd (kdf_salt ctx)))
    (fast_kdf_iter ctx) (key_sz ctx).

Lemma memcpy_whole {A} (b d : list A) : length d = length b -> memcpy b 0 d = d.
Proof. intros H. unfold memcpy. cbn [firstn app]. rewrite skipn_all2 by lia. apply app_nil_r. Qed.

Lemma shield_wf l ctx :
  bytes mask -> bytes l -> Z.of_nat (length l) = key_sz ctx ->
  bytes (sqlcipher_shield mask l (Z.to_nat (key_sz ctx)))
  /\ Z.of_nat (length (sqlcipher_shield mask l (Z.to_nat (key_sz ctx)))) = key_sz ctx.
Proof. intros Hm Hl Ln. rewrite length_shield. split; [apply bytes_shield; auto; lia | exact Ln]. Qed.

Lemma key_derive_passphrase salt_mask ctx c w ctx' c' w' :
  bytes mask -> sizes_wf ctx -> keys_wf ctx c -> length (snd (hmac_kdf_salt ctx)) = length (snd (kdf_salt ctx)) ->
  SQLCIPHER_FLAG_GET (flags ctx) CIPHER_FLAG_HAS_KDF_SALT = true -> blob_format c = false ->
  sqlcipher_cipher_ctx_key_derive salt_mask ctx c w = (SQLITE_OK, ctx', c', w') ->
  let k := passphrase_key ctx c in
  let n := Z.to_nat (key_sz ctx) in
  keys_wf ctx c'
  /\ snd (key c') = sqlcipher_shield mask k n
  /\ (has_hmac ctx = true ->
        snd (hmac_key c') = sqlcipher_shield mask (authentication_key salt_mask ctx k) n)
  /\ derive_key c' = 0 /\ pass c' = pass c /\ pass_sz c' = pass_sz c
  /\ exists s, ctx' = set_hmac_kdf_salt (fst (hmac_kdf_salt ctx), s) ctx.
Proof.
  intros Hm (Hk0 & Hss & Bs & Ls) (_ & Bh & Lk & Lh) Lhs Hsalt Hblob H.
  unfold sqlcipher_cipher_ctx_key_derive in H.
  destruct (is_null (pass c) || (pass_sz c =? 0)); [discriminate H|].
  unfold salt_step in H. rewrite Hsalt in H. cbn [Z.eqb SQLITE_OK negb] in H.
  unfold derive_encryption_key in H. rewrite Hblob in H. cbn [andb] in H.
  unfold FILE_HEADER_SZ in *.
  rewrite (firstn_all2 (snd (kdf_salt ctx))) in H by lia.
  assert (Err : forall cx cc ww, key_derive_error cx cc ww <> (SQLITE_OK, ctx', c', w')).
  { intros cx cc ww. unfold key_derive_error. destruct (m_noise _ ww) as [r1 w1].
    destruct (m_noise _ w1) as [r2 w2]. discriminate. }
  destruct (p_kdf P (kdf_algorithm ctx) _ _ (kdf_iter ctx) (key_sz ctx) w) as [[d|] w1] eqn:EK;
    [|now apply Err in H].
  destruct (kdf_derive _ _ _ _ _ _ _ _ EK) as (Ed & Bd & Ld). fold (passphrase_key ctx c) in Ed.
  cbn [negb] in H. rewrite memcpy_whole in H by lia.
  fold (has_hmac ctx) in H. destruct (has_hmac ctx) eqn:EH; cbn [andb] in H.
  - unfold derive_hmac_key in H. cbn [set_keys key hmac_key snd fst] in H.
    replace (Z.to_nat (kdf_salt_sz ctx)) with (length (snd (kdf_salt ctx))) in H by lia.
    rewrite firstn_all, memcpy_whole in H by lia.
    rewrite fold_xor_mask in H.
    assert (Lm : length (masked_salt salt_mask (snd (kdf_salt ctx))) = length (snd (kdf_salt ctx)))
      by apply length_map.
    rewrite (firstn_all2 (masked_salt _ _)) in H by lia.
    cbn [kdf_algorithm fast_kdf_iter key_sz set_hmac_kdf_salt] in H.
    rewrite (firstn_all2 d) in H by lia.
    destruct (p_kdf P (kdf_algorithm ctx) d _ (fast_kdf_iter ctx) (key_sz ctx) w1) as [[e|] w2] eqn:EK2;
      cbn [negb] in H; [|now apply Err in H].
    destruct (kdf_derive _ _ _ _ _ _ _ _ EK2) as (Ee & Be & Le).
    rewrite memcpy_whole in H by lia. injection H as <- <- <-. subst d. cbn zeta.
    cbn [set_derive set_keys key hmac_key snd derive_key pass pass_sz key_sz set_hmac_kdf_salt].
    fold (authentication_key salt_mask ctx (passphrase_key ctx c)) in Ee. subst e.
    split; [|eauto 12]. destruct (shield_wf (passphrase_key ctx c) ctx Hm Bd ltac:(lia)).
    destruct (shield_wf _ ctx Hm Be ltac:(lia)). now repeat split.
  - cbn [negb] in H. injection H as <- <- <-. subst d. cbn zeta.
    cbn [set_derive set_keys key hmac_key snd derive_key pass pass_sz].
    split; [|split_and; auto; try discriminate].
    { destruct (shield_wf (passphrase_key ctx c) ctx Hm Bd ltac:(lia)).
      destruct (shield_wf (snd (hmac_key c)) ctx Hm Bh Lh). now repeat split. }
    exists (snd (hmac_kdf_salt ctx)). destruct ctx as [? ? ? ? ? ? ? ? ? ? ? ? ? ? ? ? ? [a b] ? ? ?].
    reflexivity.
Qed.

Lemma copy_keys ctx t s w rc t' w' :
  keys_wf ctx t -> keys_wf ctx s -> sqlcipher_cipher_ctx_copy ctx t s w = (rc, t', w') ->
  snd (key t') = snd (key s) /\ snd (hmac_key t') = snd (hmac_key s)
  /\ derive_key t' = derive_key s /\ pass_sz t' = pass_sz s.
Proof.
  intros (_ & _ & Lk & Lh) (_ & _ & Lk' & Lh') H. unfold sqlcipher_cipher_ctx_copy in H.
  rewrite (firstn_all2 (snd (key s))), (firstn_all2 (snd (hmac_key s))) in H by lia.
  rewrite !memcpy_whole in H by lia.
  destruct (_ && _); [destruct (alloc _ _) as [p w1]; destruct (is_null p)|];
    injection H as <- <- <-; auto.
Qed.

(** ** Every outcome of key derivation *)

Context {MemL : MemoryLaws W}.

Lemma hex2bin_wf hex sz out n : bytes out -> Z.of_nat (length out) = n ->
  bytes (cipher_hex2bin hex sz out) /\ Z.of_nat (length (cipher_hex2bin hex sz out)) = n.
Proof.
  intros B L. unfold cipher_hex2bin. generalize (seq 0 ((sz + 1) / 2)). intros l. revert out B L.
  induction l as [|k l IH]; intros out B L; cbn [fold_left]; [auto|].
  apply IH; [|now rewrite length_upd]. apply Forall_upd; [exact B | apply u8_range].
Qed.

Lemma memcpy_wf b d n : bytes b -> bytes d -> Z.of_nat (length b) = n -> (length d <= length b)%nat ->
  bytes (memcpy b 0 d) /\ Z.of_nat (length (memcpy b 0 d)) = n.
Proof. intros. rewrite length_memcpy by lia. auto using bytes_memcpy. Qed.

(** A cipher context before and after: the keys, and whether they are to be derived. *)
Definition rekeyed (ctx : codec_ctx) (c c' : cipher_ctx) : Prop :=
  exists k h d, c' = set_derive d (set_keys k h c) /\ (d = derive_key c \/ d = 0) /\ keys_wf ctx c'.

Lemma rekeyed_keys ctx c k h : bytes k /\ Z.of_nat (length k) = key_sz ctx ->
  bytes h /\ Z.of_nat (length h) = key_sz ctx -> rekeyed ctx c (set_keys k h c).
Proof.
  intros [Bk Lk] [Bh Lh]. exists k, h, (derive_key c). split; [destruct c; reflexivity|].
  split; [now left|]. now repeat split.
Qed.

Lemma rekeyed_trans ctx a b c : rekeyed ctx a b -> rekeyed ctx b c -> rekeyed ctx a c.
Proof.
  intros (k & h & d & -> & Hd & _) (k' & h' & d' & -> & Hd' & Hw). exists k', h', d'.
  split; [destruct a; reflexivity|]. cbn in Hd'. split; [|exact Hw]. destruct Hd as [-> | ->]; tauto.
Qed.

Lemma rekeyed_refl ctx c : keys_wf ctx c -> rekeyed ctx c c.
Proof.
  intros H. exists (snd (key c)), (snd (hmac_key c)), (derive_key c).
  split; [destruct c as [? ? ? [] [] ?]; reflexivity|]. auto.
Qed.

Lemma derive_error_wf ctx c w rc ctx' c' w' :
  keys_wf ctx c -> key_derive_error ctx c w = (rc, ctx', c', w') ->
  rc = SQLITE_ERROR /\ ctx' = ctx /\ rekeyed ctx c c'.
Proof.
  intros (Bk & Bh & Lk & Lh) H. unfold key_derive_error in H.
  pose proof (noise_length (Z.to_nat (key_sz ctx)) w) as L1. pose proof (noise_bytes (Z.to_nat (key_sz ctx)) w) as B1.
  destruct (m_noise (Z.to_nat (key_sz ctx)) w) as [r1 w1]. cbn [fst] in L1, B1.
  pose proof (noise_length (Z.to_nat (key_sz ctx)) w1) as L2. pose proof (noise_bytes (Z.to_nat (key_sz ctx)) w1) as B2.
  destruct (m_noise (Z.to_nat (key_sz ctx)) w1) as [r2 w2]. cbn [fst] in L2, B2.
  injection H as <- <- <- <-. split; [reflexivity|]. split; [reflexivity|].
  apply rekeyed_keys; apply memcpy_wf; auto; lia.
Qed.

Lemma derive_encryption_key_wf ctx c w ok ctx' c' dh w' :
  sizes_wf ctx -> keys_wf ctx c -> derive_encryption_key ctx c w = (ok, ctx', c', dh, w') ->
  refreshed ctx ctx' /\ rekeyed ctx c c'.
Proof.
  intros Hs Hk H. pose proof Hs as (Hk0 & Hss & Bs & Ls). pose proof Hk as (Bk & Bh & Lk & Lh).
  assert (Salt : forall hex sz, refreshed ctx
    (set_kdf_salt (fst (kdf_salt ctx), cipher_hex2bin hex sz (snd (kdf_salt ctx))) ctx)).
  { intros hex sz. destruct (hex2bin_wf hex sz _ _ Bs Ls) as [B L].
    exists (flags ctx), (cipher_hex2bin hex sz (snd (kdf_salt ctx))), (snd (hmac_kdf_salt ctx)).
    split; [destruct ctx as [? ? ? ? ? ? ? ? ? ? ? ? ? ? ? ? ? [] ? ? ?]; reflexivity|].
    unfold salt_flag. auto. }
  unfold derive_encryption_key in H.
  destruct (blob_format c && _); [injection H as <- <- <- <- <-; split;
    [now apply refreshed_refl | apply rekeyed_keys; auto; now apply hex2bin_wf]|].
  destruct (blob_format c && _); [injection H as <- <- <- <- <-; split;
    [apply Salt | apply rekeyed_keys; auto; now apply hex2bin_wf]|].
  destruct (blob_format c && _); [injection H as <- <- <- <- <-; split;
    [apply Salt | apply rekeyed_keys; now apply hex2bin_wf]|].
  destruct (p_kdf _ _ _ _ _ _ _) as [[d|] w1] eqn:E; injection H as <- <- <- <- <-;
    (split; [now apply refreshed_refl|]); [|now apply rekeyed_refl].
  apply kdf_derive in E. destruct E as (_ & Bd & Ld). apply rekeyed_keys; [apply memcpy_wf|]; auto; lia.
Qed.

Lemma derive_hmac_key_wf salt_mask ctx c w ok ctx' c' w' :
  sizes_wf ctx -> keys_wf ctx c -> length (snd (hmac_kdf_salt ctx)) = length (snd (kdf_salt ctx)) ->
  derive_hmac_key salt_mask ctx c w = (ok, ctx', c', w') -> refreshed ctx ctx' /\ rekeyed ctx c c'.
Proof.
  intros Hs Hk Lhs H. pose proof Hs as (Hk0 & Hss & Bs & Ls). pose proof Hk as (Bk & Bh & Lk & Lh).
  unfold derive_hmac_key in H. set (s := fold_left _ _ _) in H.
  assert (L : length s = length (snd (hmac_kdf_salt ctx))).
  { unfold s. assert (G : forall l x, length (fold_left (fun s i => s.[i <- Z.lxor (s.[i]) salt_mask]) l x) = length x)
      by (induction l as [|i l IH]; intros x; cbn [fold_left]; [reflexivity | now rewrite IH, length_upd]).
    rewrite G, length_memcpy; [reflexivity|]. rewrite length_firstn. unfold FILE_HEADER_SZ in *. lia. }
  assert (R : refreshed ctx (set_hmac_kdf_salt (fst (hmac_kdf_salt ctx), s) ctx)).
  { exists (flags ctx), (snd (kdf_salt ctx)), s.
    split; [destruct ctx as [? ? ? ? ? ? ? ? ? ? ? ? ? ? ? ? [] ? ? ? ?]; reflexivity|].
    unfold salt_flag. auto. }
  destruct (p_kdf _ _ _ _ _ _ _) as [[d|] w1] eqn:E; injection H as <- <- <- <-;
    (split; [exact R|]); [|now apply rekeyed_refl].
  apply kdf_derive in E. destruct E as (_ & Bd & Ld). cbn [key_sz set_hmac_kdf_salt] in Ld.
  apply rekeyed_keys; [|apply memcpy_wf]; auto; lia.
Qed.

Lemma rekeyed_wf ctx c c' : rekeyed ctx c c' -> keys_wf ctx c' /\ pass c' = pass c /\ pass_sz c' = pass_sz c.
Proof. intros (k & h & d & -> & _ & H). split; [exact H|]. destruct c. auto. Qed.

Lemma refreshed_keys ctx ctx' c : refreshed ctx ctx' -> keys_wf ctx' c <-> keys_wf ctx c.
Proof. intros (f & s & h & -> & _). reflexivity. Qed.

Lemma refreshed_rekeyed ctx ctx' c c' : refreshed ctx ctx' -> rekeyed ctx' c c' -> rekeyed ctx c c'.
Proof.
  intros R (k & h & d & E & Hd & H). exists k, h, d. rewrite <- (refreshed_keys _ _ _ R). auto.
Qed.

Lemma refreshed_salts ctx ctx' : sizes_wf ctx -> length (snd (hmac_kdf_salt ctx)) = length (snd (kdf_salt ctx)) ->
  refreshed ctx ctx' -> length (snd (hmac_kdf_salt ctx')) = length (snd (kdf_salt ctx')).
Proof.
  intros (_ & _ & _ & Ls) L (f & s & h & -> & _ & _ & Ls' & Lh).
  cbn [snd kdf_salt hmac_kdf_salt set_hmac_kdf_salt set_flags set_kdf_salt]. lia.
Qed.

Lemma key_derive_wf salt_mask ctx c w rc ctx' c' w' :
  bytes mask -> sizes_wf ctx -> keys_wf ctx c -> length (snd (hmac_kdf_salt ctx)) = length (snd (kdf_salt ctx)) ->
  sqlcipher_cipher_ctx_key_derive salt_mask ctx c w = (rc, ctx', c', w') ->
  refreshed ctx ctx' /\ rekeyed ctx c c'
  /\ (rc = SQLITE_OK /\ derive_key c' = 0 /\ is_null (pass c) = false \/ rc = SQLITE_ERROR).
Proof.
  intros Hm Hs Hk Lhs H. unfold sqlcipher_cipher_ctx_key_derive in H.
  destruct (is_null (pass c)) eqn:EN; cbn [orb] in H.
  { injection H as <- <- <- <-. split; [now apply refreshed_refl|]. split; [now apply rekeyed_refl | auto]. }
  destruct (pass_sz c =? 0).
  { injection H as <- <- <- <-. split; [now apply refreshed_refl|]. split; [now apply rekeyed_refl | auto]. }
  assert (Err : forall ctx1 c1 w1, refreshed ctx ctx1 -> rekeyed ctx c c1 ->
    key_derive_error ctx1 c1 w1 = (rc, ctx', c', w') ->
    refreshed ctx ctx' /\ rekeyed ctx c c'
    /\ (rc = SQLITE_OK /\ derive_key c' = 0 /\ false = false \/ rc = SQLITE_ERROR)).
  { intros ctx1 c1 w1 R K E. destruct (rekeyed_wf _ _ _ K) as [K1 _]. apply (refreshed_keys _ _ _ R) in K1.
    destruct (derive_error_wf _ _ _ _ _ _ _ K1 E) as (-> & -> & K2). split; [exact R|]. split; [|auto].
    exact (rekeyed_trans _ _ _ _ K (refreshed_rekeyed _ _ _ _ R K2)). }
  destruct (salt_step P ctx w) as [[rc1 ctx1] w1] eqn:E1.
  pose proof (salt_step_refreshed _ _ _ _ _ Hs E1) as R1. pose proof (rekeyed_refl _ _ Hk) as K0.
  destruct (negb (rc1 =? SQLITE_OK)); [exact (Err _ _ _ R1 K0 H)|].
  destruct (derive_encryption_key ctx1 c w1) as [[[[ok ctx2] c2] dh] w2] eqn:E2.
  destruct (derive_encryption_key_wf _ _ _ _ _ _ _ _ (refreshed_sizes _ _ Hs R1)
    (proj2 (refreshed_keys _ _ _ R1) Hk) E2) as [R2 K2].
  apply (refreshed_rekeyed _ _ _ _ R1) in K2. pose proof (refreshed_trans _ _ _ R1 R2) as R12.
  destruct (negb ok); [exact (Err _ _ _ R12 K2 H)|].
  destruct (if _ && dh then _ else _) as [[[ok3 ctx3] c3] w3] eqn:E3.
  assert (RK3 : refreshed ctx ctx3 /\ rekeyed ctx c c3).
  { destruct (_ && dh); [|injection E3 as <- <- <- <-; auto].
    destruct (rekeyed_wf _ _ _ K2) as [K2' _]. apply (refreshed_keys _ _ _ R12) in K2'.
    destruct (derive_hmac_key_wf _ _ _ _ _ _ _ _ (refreshed_sizes _ _ Hs R12) K2'
      (refreshed_salts _ _ Hs Lhs R12) E3) as [R3 K3].
    split; [exact (refreshed_trans _ _ _ R12 R3)|].
    exact (rekeyed_trans _ _ _ _ K2 (refreshed_rekeyed _ _ _ _ R12 K3)). }
  destruct RK3 as [R3 K3]. destruct (negb ok3); [exact (Err _ _ _ R3 K3 H)|].
  injection H as <- <- <- <-. split; [exact R3|].
  assert (Ez : key_sz ctx3 = key_sz ctx) by (destruct R3 as (? & ? & ? & -> & _); reflexivity).
  destruct (rekeyed_wf _ _ _ K3) as [(Bk & Bh & Lk & Lh) _]. split; [|auto].
  apply (rekeyed_trans _ _ _ _ K3). rewrite Ez. do 3 eexists. split; [reflexivity|]. split; [now right|].
  destruct (shield_wf (snd (key c3)) ctx Hm Bk Lk). destruct (shield_wf (snd (hmac_key c3)) ctx Hm Bh Lh).
  now repeat split.
Qed.

(** A passphrase of some length is there. *)
Definition pass_wf (c : cipher_ctx) : Prop := is_null (pass c) = true -> pass_sz c = 0.

Lemma cmp_total c1 c2 : pass_wf c1 -> pass_wf c2 -> sqlcipher_cipher_ctx_cmp c1 c2 <> None.
Proof.
  intros H1 H2. unfold sqlcipher_cipher_ctx_cmp. unfold pass_wf in *.
  destruct (Z.eqb_spec (pass_sz c1) (pass_sz c2)) as [E|]; cbn [negb]; [|discriminate].
  destruct (fst (pass c1) =? fst (pass c2)); [discriminate|].
  destruct (is_null (pass c1)); cbn [orb andb]; [rewrite H1 by reflexivity; discriminate|].
  destruct (is_null (pass c2)); cbn [andb]; [rewrite E, H2 by reflexivity|]; discriminate.
Qed.

Lemma copy_wf ctx t s w rc t' w' :
  keys_wf ctx t -> keys_wf ctx s -> sqlcipher_cipher_ctx_copy ctx t s w = (rc, t', w') ->
  keys_wf ctx t' /\ derive_key t' = derive_key s /\ (pass_wf s -> rc = SQLITE_OK -> pass_wf t')
  /\ (rc = SQLITE_OK \/ rc = SQLITE_NOMEM).
Proof.
  intros Ht Hs H. pose proof H as H0. apply copy_keys in H0; [|assumption..].
  destruct H0 as (Ek & Eh & Ed & Ez).
  split; [unfold keys_wf in *; rewrite Ek, Eh; exact Hs|]. split; [exact Ed|].
  unfold sqlcipher_cipher_ctx_copy in H. unfold pass_wf in *.
  destruct (is_null (pass s)) eqn:EN; cbn [negb andb] in H.
  { injection H as <- <- <-. cbn [pass pass_sz]. rewrite EN. auto. }
  destruct (pass_sz s =? 0); cbn [negb] in H.
  { injection H as <- <- <-. cbn [pass pass_sz]. rewrite EN. auto. }
  destruct (alloc _ _) as [p w1]. destruct (is_null p) eqn:EP; injection H as <- <- <-.
  - split; [discriminate | auto].
  - cbn [pass pass_sz]. unfold is_null in *. cbn [fst]. rewrite EP. split; [discriminate | auto].
Qed.

Lemma set_pass_none c w : sqlcipher_cipher_ctx_set_pass c None 0 w
  = (SQLITE_OK, mkCipher (cc_addr c) (derive_key c) 0 (key c) (hmac_key c) null, release (pass c) (pass_sz c) w).
Proof. reflexivity. Qed.

Lemma refreshed_set_read r a b : refreshed (set_read_ctx r a) b -> exists a', b = set_read_ctx r a' /\ refreshed a a'.
Proof.
  intros (f & s & h & -> & H). eexists. split; [|exists f, s, h; split; [reflexivity | exact H]]. reflexivity.
Qed.

(** The two steps of a derivation for a database. *)
Lemma derive_read_wf salt_mask ctx w :
  bytes mask -> sizes_wf ctx -> keys_wf ctx (read_ctx ctx) ->
  length (snd (hmac_kdf_salt ctx)) = length (snd (kdf_salt ctx)) ->
  exists rc ctx1 r w1,
    (if negb (derive_key (read_ctx ctx) =? 0) then
       let '(rc, ctx, c, w) := sqlcipher_cipher_ctx_key_derive salt_mask ctx (read_ctx ctx) w in
       (rc, set_read_ctx c ctx, w)
     else (SQLITE_OK, ctx, w)) = (rc, set_read_ctx r ctx1, w1)
    /\ refreshed ctx ctx1 /\ keys_wf ctx r /\ (pass_wf (read_ctx ctx) -> pass_wf r)
    /\ (rc = SQLITE_OK /\ derive_key r = 0 \/ rc = SQLITE_ERROR).
Proof.
  intros Hm Hs Hr Lhs. destruct (Z.eqb_spec (derive_key (read_ctx ctx)) 0) as [D|]; cbn [negb].
  - exists SQLITE_OK, ctx, (read_ctx ctx), w. split; [destruct ctx; reflexivity|].
    split; [now apply refreshed_refl | auto].
  - destruct (sqlcipher_cipher_ctx_key_derive salt_mask ctx (read_ctx ctx) w) as [[[rc ctx1] r] w1] eqn:E.
    destruct (key_derive_wf _ _ _ _ _ _ _ _ Hm Hs Hr Lhs E) as (R & K & D).
    destruct (rekeyed_wf _ _ _ K) as (K1 & EP & EZ). exists rc, ctx1, r, w1.
    split; [reflexivity|]. split; [exact R|]. split; [exact K1|].
    split; [unfold pass_wf in *; now rewrite EP, EZ|]. tauto.
Qed.

Definition derived_write (ctx : codec_ctx) (r c : cipher_ctx) (x : option (Z * codec_ctx * W)) : Prop :=
  match x with
  | None => ~ (pass_wf r /\ pass_wf c)
  | Some (rc, ctx', _) =>
      exists ctx1 wr, ctx' = set_write_ctx wr (set_read_ctx r ctx1) /\ refreshed ctx ctx1 /\ keys_wf ctx wr
        /\ (rc = SQLITE_OK /\ derive_key wr = 0 /\ (pass_wf r -> pass_wf c -> pass_wf wr) \/ rc <> SQLITE_OK)
  end.

Lemma derive_write_wf salt_mask ctx r w :
  bytes mask -> sizes_wf ctx -> keys_wf ctx r -> keys_wf ctx (write_ctx ctx) ->
  length (snd (hmac_kdf_salt ctx)) = length (snd (kdf_salt ctx)) -> derive_key r = 0 ->
  derived_write ctx r (write_ctx ctx)
    (if negb (derive_key (write_ctx ctx) =? 0) then
       match sqlcipher_cipher_ctx_cmp (write_ctx ctx) r with
       | None => None
       | Some 0 =>
           let '(rc, c, w) := sqlcipher_cipher_ctx_copy (set_read_ctx r ctx) (write_ctx ctx) r w in
           Some (rc, set_write_ctx c (set_read_ctx r ctx), w)
       | Some _ =>
           let '(rc, ctx, c, w) :=
             sqlcipher_cipher_ctx_key_derive salt_mask (set_read_ctx r ctx) (write_ctx ctx) w in
           Some (rc, set_write_ctx c ctx, w)
       end
     else Some (SQLITE_OK, set_read_ctx r ctx, w)).
Proof.
  intros Hm Hs Hr Hw Lhs Dr. set (c := write_ctx ctx) in *.
  destruct (Z.eqb_spec (derive_key c) 0) as [D|]; cbn [negb].
  { exists ctx, c. split; [destruct ctx; reflexivity|]. split; [now apply refreshed_refl | auto]. }
  pose proof (cmp_total c r) as T. destruct (sqlcipher_cipher_ctx_cmp c r) as [v|]; [clear T | unfold derived_write; tauto].
  assert (Der : derived_write ctx r c
    (let '(rc, ctx, c, w) := sqlcipher_cipher_ctx_key_derive salt_mask (set_read_ctx r ctx) c w in
     Some (rc, set_write_ctx c ctx, w))).
  { destruct (sqlcipher_cipher_ctx_key_derive salt_mask (set_read_ctx r ctx) c w) as [[[rc ctx1] wr] w1] eqn:E.
    destruct (key_derive_wf _ (set_read_ctx r ctx) _ _ _ _ _ _ Hm Hs Hw Lhs E) as (R & K & D).
    destruct (refreshed_set_read _ _ _ R) as (ctx1' & -> & R'). destruct (rekeyed_wf _ _ _ K) as (K1 & EP & EZ).
    exists ctx1', wr. split; [reflexivity|]. split; [exact R'|]. split; [exact K1|].
    destruct D as [(-> & D & _)| ->]; [left|right; discriminate].
    split; [reflexivity|]. split; [exact D|]. unfold pass_wf in *. now rewrite EP, EZ. }
  destruct v; try exact Der.
  destruct (sqlcipher_cipher_ctx_copy (set_read_ctx r ctx) c r w) as [[rc t] w1] eqn:E.
  apply copy_wf in E; try assumption. destruct E as (K & D & Pt & Hrc).
  exists ctx, t. split; [reflexivity|]. split; [now apply refreshed_refl|]. split; [exact K|].
  destruct Hrc as [-> | ->]; [left | right; discriminate]. rewrite D. auto.
Qed.

(** Derivation for a database ends in a well-formed context; on success both contexts have
    their keys. *)
Definition derived (ctx : codec_ctx) (rc : Z) (ctx' : codec_ctx) : Prop :=
  exists ctx1 r wr, ctx' = set_write_ctx wr (set_read_ctx r ctx1)
    /\ refreshed ctx ctx1 /\ keys_wf ctx r /\ keys_wf ctx wr
    /\ (rc = SQLITE_OK /\ derive_key r = 0 /\ derive_key wr = 0
         /\ (pass_wf (read_ctx ctx) -> pass_wf (write_ctx ctx) -> pass_wf r /\ pass_wf wr)
        \/ rc = SQLITE_ERROR).

Lemma codec_key_derive_all salt_mask ctx w :
  bytes mask -> sizes_wf ctx -> keys_wf ctx (read_ctx ctx) -> keys_wf ctx (write_ctx ctx) ->
  length (snd (hmac_kdf_salt ctx)) = length (snd (kdf_salt ctx)) ->
  match sqlcipher_codec_key_derive salt_mask ctx w with
  | None => ~ (pass_wf (read_ctx ctx) /\ pass_wf (write_ctx ctx))
  | Some (rc, ctx', _) => derived ctx rc ctx'
  end.
Proof.
  intros Hm Hs Hr Hw Lhs. unfold sqlcipher_codec_key_derive.
  destruct (derive_read_wf salt_mask ctx w Hm Hs Hr Lhs) as (rc & ctx1 & r & w1 & -> & R & Kr & Pr & D).
  assert (Wc : write_ctx ctx1 = write_ctx ctx) by (destruct R as (? & ? & ? & -> & _); reflexivity).
  destruct D as [[-> Dr] | ->]; cbn [Z.eqb SQLITE_OK SQLITE_ERROR Pos.eqb negb];
    [|exists ctx1, r, (write_ctx ctx); rewrite <- Wc at 1; split; [destruct ctx1; reflexivity | auto 6]].
  pose proof (refreshed_keys _ _ r R) as KR. pose proof (refreshed_keys _ _ (write_ctx ctx1) R) as KW.
  rewrite Wc in KW. cbn [write_ctx read_ctx set_read_ctx].
  pose proof (derive_write_wf salt_mask ctx1 r w1 Hm (refreshed_sizes _ _ Hs R)) as DW. rewrite Wc in DW.
  specialize (DW (proj2 KR Kr) (proj2 KW Hw) (refreshed_salts _ _ Hs Lhs R) Dr). rewrite Wc.
  destruct (if negb (derive_key (write_ctx ctx) =? 0) then _ else _) as [[[rc ctx'] w2]|]; cbn [derived_write] in DW;
    [|tauto].
  destruct DW as (ctx2 & wr & -> & R2 & Kw & D2).
  pose proof (refreshed_trans _ _ _ R R2) as R12. apply (refreshed_keys _ _ wr R) in Kw.
  destruct D2 as [(-> & Dw & Pw')|D2]; cbn [Z.eqb SQLITE_OK negb].
  - cbn [store_pass set_write_ctx set_read_ctx]. destruct (store_pass ctx2 =? 1).
    + exists ctx2, r, wr. split; [reflexivity|]. auto 12.
    + rewrite !set_pass_none. cbn [write_ctx read_ctx set_write_ctx set_read_ctx].
      pose (forget := fun c => mkCipher (cc_addr c) (derive_key c) 0 (key c) (hmac_key c) null).
      exists ctx2, (forget r), (forget wr). split; [reflexivity|].
      split; [exact R12|]. split; [exact Kr|]. split; [exact Kw|]. left. unfold pass_wf. cbn. auto 8.
  - destruct (Z.eqb_spec rc SQLITE_OK); [contradiction|]. cbn [negb].
    exists ctx2, r, wr. auto 6.
Qed.

(** It never compares a missing passphrase. *)
Lemma codec_key_derive_wf salt_mask ctx w :
  bytes mask -> sizes_wf ctx -> keys_wf ctx (read_ctx ctx) -> keys_wf ctx (write_ctx ctx) ->
  length (snd (hmac_kdf_salt ctx)) = length (snd (kdf_salt ctx)) ->
  pass_wf (read_ctx ctx) -> pass_wf (write_ctx ctx) ->
  exists rc ctx1 r wr w', sqlcipher_codec_key_derive salt_mask ctx w
      = Some (rc, set_write_ctx wr (set_read_ctx r ctx1), w')
    /\ refreshed ctx ctx1 /\ keys_wf ctx r /\ keys_wf ctx wr
    /\ (rc = SQLITE_OK /\ derive_key r = 0 /\ derive_key wr = 0 /\ pass_wf r /\ pass_wf wr
        \/ rc = SQLITE_ERROR).
Proof.
  intros Hm Hs Hr Hw Lhs Pr Pw. pose proof (codec_key_derive_all salt_mask ctx w Hm Hs Hr Hw Lhs) as H.
  destruct (sqlcipher_codec_key_derive salt_mask ctx w) as [[[rc ctx'] w']|]; [|tauto].
  destruct H as (ctx1 & r & wr & -> & R & Kr & Kw & D). exists rc, ctx1, r, wr, w'. tauto.
Qed.
(** ** Keys from a passphrase, for a database *)

(** What is needed for a derivation to succeed. *)
Definition kdf_up (algorithm : Z) : Prop := forall p s i n w, fst (p_kdf P algorithm p s i n w) <> None.
Definition memory_up : Prop := forall n w, 0 < n -> fst (m_malloc n w) <> 0.

Lemma key_derive_succeeds salt_mask ctx c w :
  SQLCIPHER_FLAG_GET (flags ctx) CIPHER_FLAG_HAS_KDF_SALT = true -> is_null (pass c) = false -> 0 < pass_sz c ->
  blob_format c = false -> kdf_up (kdf_algorithm ctx) ->
  fst (fst (fst (sqlcipher_cipher_ctx_key_derive salt_mask ctx c w))) = SQLITE_OK.
Proof.
  intros Hs Hn Hz Hb Up. unfold sqlcipher_cipher_ctx_key_derive, salt_step, derive_encryption_key, derive_hmac_key.
  rewrite Hs, Hn, Hb. destruct (Z.eqb_spec (pass_sz c) 0); [lia|]. cbn [orb Z.eqb SQLITE_OK negb andb].
  destruct (p_kdf _ _ _ _ _ _ w) as [[d|] w1] eqn:E; [|exfalso; eapply Up; now rewrite E]. cbn [negb].
  destruct (SQLCIPHER_FLAG_GET _ CIPHER_FLAG_HMAC && true); [|reflexivity].
  cbn [kdf_algorithm set_hmac_kdf_salt]. destruct (p_kdf P _ _ _ _ _ w1) as [[e|] w2] eqn:E2; [reflexivity|].
  exfalso. eapply Up. now rewrite E2.
Qed.

(** A context with a passphrase, not a key in raw form, whose keys are to be derived. *)
Definition awaits_keys (c : cipher_ctx) : Prop :=
  derive_key c <> 0 /\ is_null (pass c) = false /\ 0 < pass_sz c <= Z.of_nat (length (snd (pass c))) /\ blob_format c = false.

Definition passphrase (c : cipher_ctx) : list Z := firstn (Z.to_nat (pass_sz c)) (snd (pass c)).

(** The context [c'] has the keys, under the mask, that belong to the passphrase of [c] and the
    settings and salt of [ctx]. *)
Definition has_keys (salt_mask : Z) (ctx : codec_ctx) (c c' : cipher_ctx) : Prop :=
  let k := passphrase_key ctx c in
  let n := Z.to_nat (key_sz ctx) in
  snd (key c') = sqlcipher_shield mask k n
  /\ (has_hmac ctx = true -> snd (hmac_key c') = sqlcipher_shield mask (authentication_key salt_mask ctx k) n)
  /\ derive_key c' = 0.

(** It has the passphrase only if that is to be stored. *)
Definition keyed (salt_mask : Z) (ctx : codec_ctx) (c c' : cipher_ctx) : Prop :=
  has_keys salt_mask ctx c c'
  /\ (if store_pass ctx =? 1 then passphrase c' = passphrase c else pass c' = null /\ pass_sz c' = 0).

Lemma cmp_same_place c1 c2 :
  (fst (pass c1) = fst (pass c2) -> snd (pass c1) = snd (pass c2)) ->
  pass_sz c2 <= Z.of_nat (length (snd (pass c1))) -> pass_sz c2 <= Z.of_nat (length (snd (pass c2))) ->
  sqlcipher_cipher_ctx_cmp c1 c2 = Some 0 -> passphrase c1 = passphrase c2.
Proof.
  intros Hp L1 L2. unfold sqlcipher_cipher_ctx_cmp, passphrase.
  destruct (Z.eqb_spec (pass_sz c1) (pass_sz c2)) as [->|]; cbn [negb]; [|discriminate].
  destruct (Z.eqb_spec (fst (pass c1)) (fst (pass c2))) as [E|]; [intros _; now rewrite (Hp E)|].
  destruct (_ && _); [discriminate|]. destruct (sqlcipher_memcmp _ _ _) eqn:C; [discriminate|]. intros _.
  apply memcmp_firstn in C; [auto | lia | lia].
Qed.

(** Copying from a context that has its keys. *)
Lemma copy_passphrase ctx t s w rc t' w' :
  is_null (pass s) = false -> 0 < pass_sz s <= Z.of_nat (length (snd (pass s))) ->
  sqlcipher_cipher_ctx_copy ctx t s w = (rc, t', w') ->
  (rc = SQLITE_OK -> passphrase t' = passphrase s) /\ (memory_up -> rc = SQLITE_OK).
Proof.
  intros Hn Hz H. unfold sqlcipher_cipher_ctx_copy, alloc in H. rewrite Hn in H.
  destruct (Z.eqb_spec (pass_sz s) 0); [lia|]. cbn [negb andb] in H.
  destruct (m_malloc (pass_sz s) _) as [a w1] eqn:EM. destruct (Z.eqb_spec a 0) as [->|Ha].
  - injection H as <- <- <-. split; [discriminate|]. intros Up. exfalso. eapply Up; [|now rewrite EM]. lia.
  - unfold is_null in H. cbn [fst snd] in H. apply Z.eqb_neq in Ha. rewrite Ha in H. injection H as <- <- <-.
    split; [|reflexivity]. intros _. unfold passphrase. cbn [pass pass_sz snd].
    rewrite memcpy_whole by (rewrite length_firstn, length_memset; lia). rewrite firstn_firstn. f_equal. lia.
Qed.

(** What a derivation for the context for writing leaves. *)
Definition wrote_keys (salt_mask : Z) (ctx : codec_ctx) (r1 : cipher_ctx) (ctx' : codec_ctx) : Prop :=
  exists c s, ctx' = set_write_ctx c (set_hmac_kdf_salt (fst (hmac_kdf_salt ctx), s) (set_read_ctx r1 ctx))
    /\ has_keys salt_mask ctx (write_ctx ctx) c /\ passphrase c = passphrase (write_ctx ctx).

(** The keys of the context for writing: a copy if the passphrase is that of the context [r1]
    for reading, which has its keys. *)
Lemma derive_write_keys salt_mask ctx r r1 w :
  let wr := write_ctx ctx in
  let ctx1 := set_read_ctx r1 ctx in
  bytes mask -> sizes_wf ctx -> keys_wf ctx r1 -> keys_wf ctx wr ->
  length (snd (hmac_kdf_salt ctx)) = length (snd (kdf_salt ctx)) ->
  SQLCIPHER_FLAG_GET (flags ctx) CIPHER_FLAG_HAS_KDF_SALT = true -> awaits_keys wr ->
  has_keys salt_mask ctx r r1 -> pass r1 = pass r -> pass_sz r1 = pass_sz r -> is_null (pass r) = false ->
  0 < pass_sz r <= Z.of_nat (length (snd (pass r))) -> (fst (pass wr) = fst (pass r) -> snd (pass wr) = snd (pass r)) ->
  exists rc ctx' w',
    match sqlcipher_cipher_ctx_cmp wr r1 with
    | None => None
    | Some 0 => let '(rc, c, w) := sqlcipher_cipher_ctx_copy ctx1 wr r1 w in Some (rc, set_write_ctx c ctx1, w)
    | Some _ =>
        let '(rc, ctx, c, w) := sqlcipher_cipher_ctx_key_derive salt_mask ctx1 wr w in Some (rc, set_write_ctx c ctx, w)
    end = Some (rc, ctx', w')
    /\ (rc = SQLITE_OK -> wrote_keys salt_mask ctx r1 ctx')
    /\ (kdf_up (kdf_algorithm ctx) -> memory_up -> rc = SQLITE_OK).
Proof.
  intros wr ctx1 Hm Hs Hr Hw Lhs Hsalt (Dw & Nw & Zw & Bw) (K1 & H1 & D1) P1 Z1 Nr Zr Hp.
  assert (Der : exists rc ctx' w',
    (let '(rc, ctx, c, w) := sqlcipher_cipher_ctx_key_derive salt_mask ctx1 wr w in Some (rc, set_write_ctx c ctx, w))
    = Some (rc, ctx', w')
    /\ (rc = SQLITE_OK -> wrote_keys salt_mask ctx r1 ctx') /\ (kdf_up (kdf_algorithm ctx) -> memory_up -> rc = SQLITE_OK)).
  { pose proof (key_derive_succeeds salt_mask ctx1 wr w Hsalt Nw (proj1 Zw) Bw) as Up.
    destruct (sqlcipher_cipher_ctx_key_derive salt_mask ctx1 wr w) as [[[rc ctx2] c] w2] eqn:E. cbn [fst] in Up.
    do 3 eexists. split; [reflexivity|]. split; [|auto]. intros ->.
    destruct (key_derive_passphrase _ ctx1 _ _ _ _ _ Hm Hs Hw Lhs Hsalt Bw E) as (_ & K2 & H2 & D2 & P2 & Z2 & s & ->).
    exists c, s. split; [reflexivity|]. unfold passphrase. rewrite P2, Z2. split; [exact (conj K2 (conj H2 D2)) | reflexivity]. }
  destruct (sqlcipher_cipher_ctx_cmp wr r1) as [v|] eqn:EC.
  2:{ unfold sqlcipher_cipher_ctx_cmp in EC. rewrite Nw, P1, Nr in EC. cbn [orb andb] in EC.
      destruct (negb (pass_sz wr =? pass_sz r1)); [|destruct (fst (pass wr) =? fst (pass r))]; discriminate EC. }
  destruct v as [|v|v]; try exact Der. clear Der.
  assert (Ez : pass_sz wr = pass_sz r1)
    by (unfold sqlcipher_cipher_ctx_cmp in EC; destruct (Z.eqb_spec (pass_sz wr) (pass_sz r1)); [assumption | discriminate EC]).
  apply cmp_same_place in EC; [|now rewrite P1 | lia | rewrite P1; lia].
  destruct (sqlcipher_cipher_ctx_copy ctx1 wr r1 w) as [[rc c] w2] eqn:E. do 3 eexists. split; [reflexivity|].
  destruct (copy_keys ctx1 _ _ _ _ _ _ Hw Hr E) as (K2 & H2 & D2 & _).
  destruct (copy_passphrase ctx1 _ _ _ _ _ _ ltac:(now rewrite P1) ltac:(now rewrite P1, Z1) E) as (P2 & Up).
  split; [|auto]. intros Hrc. exists c, (snd (hmac_kdf_salt ctx)). split; [destruct ctx as [? ? ? ? ? ? ? ? ? ? ? ? ? ? ? ? ? [a b] ? ? ?]; reflexivity|].
  assert (EP : passphrase wr = passphrase r) by (rewrite EC; unfold passphrase; now rewrite P1, Z1).
  split; [|rewrite (P2 Hrc); exact (eq_sym EC)].
  assert (EK : passphrase_key ctx wr = passphrase_key ctx r) by exact (f_equal (fun p => derive _ p _ _ _) EP).
  unfold has_keys. fold wr. rewrite K2, H2, D2, EK. exact (conj K1 (conj H1 D1)).
Qed.

(** The context for reading first, then the one for writing. *)
Lemma codec_derive_salted salt_mask ctx w :
  let r := read_ctx ctx in let wr := write_ctx ctx in
  bytes mask -> sizes_wf ctx -> keys_wf ctx r -> keys_wf ctx wr ->
  length (snd (hmac_kdf_salt ctx)) = length (snd (kdf_salt ctx)) ->
  SQLCIPHER_FLAG_GET (flags ctx) CIPHER_FLAG_HAS_KDF_SALT = true -> awaits_keys r -> awaits_keys wr ->
  (fst (pass wr) = fst (pass r) -> snd (pass wr) = snd (pass r)) ->
  exists rc ctx' w', sqlcipher_codec_key_derive salt_mask ctx w = Some (rc, ctx', w')
    /\ (rc = SQLITE_OK -> kdf_salt ctx' = kdf_salt ctx
        /\ keyed salt_mask ctx r (read_ctx ctx') /\ keyed salt_mask ctx wr (write_ctx ctx'))
    /\ (kdf_up (kdf_algorithm ctx) -> memory_up -> rc = SQLITE_OK).
Proof.
  intros r wr Hm Hs Hr Hw Lhs Hsalt (Dr & Nr & Zr & Br) Aw Hp.
  unfold sqlcipher_codec_key_derive. fold r. apply Z.eqb_neq in Dr. rewrite Dr. cbn [negb].
  pose proof (key_derive_succeeds salt_mask ctx r w Hsalt Nr (proj1 Zr) Br) as Up1.
  destruct (sqlcipher_cipher_ctx_key_derive salt_mask ctx r w) as [[[rc ctx1] r1] w1] eqn:EK. cbn [fst] in Up1.
  destruct (Z.eqb_spec rc SQLITE_OK) as [->|Hne]; cbn [negb];
    [|do 3 eexists; split; [reflexivity|]; split; [discriminate | intros U _; elim Hne; auto]].
  destruct (key_derive_passphrase _ _ _ _ _ _ _ Hm Hs Hr Lhs Hsalt Br EK) as (Hr1 & K1 & H1 & D1 & P1 & Z1 & s & ->).
  cbn [write_ctx set_read_ctx set_hmac_kdf_salt read_ctx]. fold wr.
  pose proof Aw as (Dw & _). apply Z.eqb_neq in Dw. rewrite Dw. cbn [negb].
  set (ctx1 := set_hmac_kdf_salt (fst (hmac_kdf_salt ctx), s) ctx).
  assert (L1 : length (snd (hmac_kdf_salt ctx1)) = length (snd (kdf_salt ctx1))).
  { destruct (key_derive_wf _ _ _ _ _ _ _ _ Hm Hs Hr Lhs EK) as (R & _). now apply refreshed_salts in R. }
  destruct (derive_write_keys salt_mask ctx1 r r1 w1 Hm Hs Hr1 Hw L1 Hsalt Aw (conj K1 (conj H1 D1)) P1 Z1 Nr Zr Hp)
    as (rc & ctx' & w' & E & Hk & Up2).
  change (write_ctx ctx1) with wr in E. rewrite E. clear E.
  destruct (Z.eqb_spec rc SQLITE_OK) as [->|Hne]; cbn [negb];
    [|do 3 eexists; split; [reflexivity|]; split; [discriminate | intros; elim Hne; auto]].
  destruct (Hk eq_refl) as (c & s' & -> & K2 & P2). cbn [store_pass set_write_ctx set_hmac_kdf_salt set_read_ctx ctx1].
  unfold keyed. destruct (store_pass ctx =? 1); do 3 eexists; (split; [reflexivity|]); (split; [intros _ | auto]);
    cbn [read_ctx write_ctx set_write_ctx set_read_ctx set_hmac_kdf_salt kdf_salt pass pass_sz ctx1];
    (split; [reflexivity|]).
  - unfold passphrase at 1. rewrite P1, Z1. exact (conj (conj (conj K1 (conj H1 D1)) eq_refl) (conj K2 P2)).
  - exact (conj (conj (conj K1 (conj H1 D1)) (conj eq_refl eq_refl)) (conj K2 (conj eq_refl eq_refl))).
Qed.

Lemma salt_step_flag ctx w ctx1 w1 :
  salt_step P ctx w = (SQLITE_OK, ctx1, w1) -> SQLCIPHER_FLAG_GET (flags ctx1) CIPHER_FLAG_HAS_KDF_SALT = true.
Proof.
  unfold salt_step, sqlcipher_codec_ctx_init_kdf_salt. destruct (SQLCIPHER_FLAG_GET (flags ctx) _) eqn:F.
  { intros [= <- _]. exact F. }
  destruct (if s_open w then _ else _) as [[ok ctx2] w2]. destruct ok.
  - intros [= <- _]. cbn [flags set_flags]. rewrite flag_or. apply orb_true_r.
  - destruct (p_random _ _ _) as [[ok s] w3]. destruct ok; intros [= <- _].
    cbn [flags set_flags set_kdf_salt]. rewrite flag_or. apply orb_true_r.
Qed.

Lemma derive_without_salt salt_mask ctx w rc ctx1 w1 :
  salt_step P ctx w = (rc, ctx1, w1) -> rc <> SQLITE_OK -> derive_key (read_ctx ctx) <> 0 ->
  exists ctx' w', sqlcipher_codec_key_derive salt_mask ctx w = Some (SQLITE_ERROR, ctx', w').
Proof.
  intros Hs Hrc Hd. unfold sqlcipher_codec_key_derive. apply Z.eqb_neq in Hd, Hrc. rewrite Hd. cbn [negb].
  assert (E : exists ctx' c w', sqlcipher_cipher_ctx_key_derive salt_mask ctx (read_ctx ctx) w = (SQLITE_ERROR, ctx', c, w')).
  { unfold sqlcipher_cipher_ctx_key_derive. rewrite Hs, Hrc. destruct (_ || _); [eauto|]. cbn [negb].
    unfold key_derive_error. destruct (m_noise _ w1) as [n1 w2]. destruct (m_noise _ w2) as [n2 w3]. eauto. }
  destruct E as (ctx' & c & w' & ->). cbn [Z.eqb SQLITE_OK SQLITE_ERROR negb]. eauto.
Qed.

(** The salt is obtained before anything else. *)
Lemma codec_derive_after_salt salt_mask ctx w ctx1 w1 :
  salt_step P ctx w = (SQLITE_OK, ctx1, w1) ->
  derive_key (read_ctx ctx) <> 0 -> is_null (pass (read_ctx ctx)) = false -> 0 < pass_sz (read_ctx ctx) -> sizes_wf ctx ->
  SQLCIPHER_FLAG_GET (flags ctx1) CIPHER_FLAG_HAS_KDF_SALT = true
  /\ sqlcipher_codec_key_derive salt_mask ctx w = sqlcipher_codec_key_derive salt_mask ctx1 w1.
Proof.
  intros Hs Hd Hn Hz Hw.
  assert (Hf : SQLCIPHER_FLAG_GET (flags ctx1) CIPHER_FLAG_HAS_KDF_SALT = true) by exact (salt_step_flag _ _ _ _ Hs).
  split; [exact Hf|]. assert (Hr : read_ctx ctx1 = read_ctx ctx)
    by (apply salt_step_refreshed in Hs; [|exact Hw]; destruct Hs as (? & ? & ? & -> & _); reflexivity).
  unfold sqlcipher_codec_key_derive. rewrite Hr. apply Z.eqb_neq in Hd. rewrite Hd. cbn [negb].
  assert (E : sqlcipher_cipher_ctx_key_derive salt_mask ctx (read_ctx ctx) w
            = sqlcipher_cipher_ctx_key_derive salt_mask ctx1 (read_ctx ctx) w1).
  { unfold sqlcipher_cipher_ctx_key_derive. rewrite Hn, Hs. destruct (Z.eqb_spec (pass_sz (read_ctx ctx)) 0); [lia|].
    cbn [orb]. replace (salt_step P ctx1 w1) with (SQLITE_OK, ctx1, w1) by (unfold salt_step; now rewrite Hf). reflexivity. }
  now rewrite E.
Qed.

Lemma codec_derive_keys salt_mask ctx w :
  let r := read_ctx ctx in let wr := write_ctx ctx in
  let salted := snd (fst (salt_step P ctx w)) in
  bytes mask -> sizes_wf ctx -> keys_wf ctx r -> keys_wf ctx wr ->
  length (snd (hmac_kdf_salt ctx)) = length (snd (kdf_salt ctx)) -> awaits_keys r -> awaits_keys wr ->
  (fst (pass wr) = fst (pass r) -> snd (pass wr) = snd (pass r)) ->
  exists rc ctx' w', sqlcipher_codec_key_derive salt_mask ctx w = Some (rc, ctx', w')
    /\ (rc = SQLITE_OK -> kdf_salt ctx' = kdf_salt salted
        /\ keyed salt_mask salted r (read_ctx ctx') /\ keyed salt_mask salted wr (write_ctx ctx'))
    /\ (kdf_up (kdf_algorithm ctx) -> memory_up -> fst (fst (salt_step P ctx w)) = SQLITE_OK -> rc = SQLITE_OK).
Proof.
  intros r wr salted Hm Hs Hr Hw Lhs Ar Aw Hp. pose proof Ar as (Dr & Nr & Zr & _).
  unfold salted. destruct (salt_step P ctx w) as [[rc0 ctx1] w1] eqn:ES. cbn [fst snd].
  destruct (Z.eqb_spec rc0 SQLITE_OK) as [->|Hne].
  - pose proof (salt_step_refreshed _ _ _ _ _ Hs ES) as R.
    destruct (codec_derive_after_salt salt_mask _ _ _ _ ES Dr Nr (proj1 Zr) Hs) as [Hf ->].
    pose proof (refreshed_sizes _ _ Hs R) as Hs1. pose proof (refreshed_salts _ _ Hs Lhs R) as L1.
    pose proof (proj2 (refreshed_keys _ _ r R) Hr) as Hr1. pose proof (proj2 (refreshed_keys _ _ wr R) Hw) as Hw1.
    assert (E : read_ctx ctx1 = r /\ write_ctx ctx1 = wr /\ kdf_algorithm ctx1 = kdf_algorithm ctx)
      by (destruct R as (? & ? & ? & -> & _); auto). destruct E as (E1 & E2 & E3).
    destruct (codec_derive_salted salt_mask ctx1 w1) as (rc & ctx' & w' & E & K & Up); rewrite ?E1, ?E2; try assumption.
    rewrite E1, E2 in K. rewrite E3 in Up. exists rc, ctx', w'. auto.
  - destruct (derive_without_salt salt_mask ctx w rc0 ctx1 w1 ES Hne Dr) as (ctx' & w' & ->).
    do 3 eexists. split; [reflexivity|]. split; [discriminate | intros _ _ K; contradiction].
Qed.

(** C7: First use of a database with a passphrase.  The salt is the one that is known, or it is
    obtained now.  When key derivation reports success, each of the two contexts holds, under the
    mask, the key that the derivation function gives for its passphrase and that salt, and, with
    authentication on, the key derived from that key with the masked salt; it will not derive
    again, and it keeps the passphrase exactly if cipher_store_pass is on.  The call ends
    without comparing a missing passphrase; it reports success whenever a salt is there, the
    derivation function works and memory can be allocated. *)
Theorem passphrase_keys_derived salt_mask ctx w :
  let r := read_ctx ctx in let wr := write_ctx ctx in
  let salted := snd (fst (salt_step P ctx w)) in
  bytes mask -> sizes_wf ctx -> keys_wf ctx r -> keys_wf ctx wr ->
  length (snd (hmac_kdf_salt ctx)) = length (snd (kdf_salt ctx)) -> awaits_keys r -> awaits_keys wr ->
  (fst (pass wr) = fst (pass r) -> snd (pass wr) = snd (pass r)) ->
  exists rc ctx' w', sqlcipher_codec_key_derive salt_mask ctx w = Some (rc, ctx', w')
    /\ (rc = SQLITE_OK -> kdf_salt ctx' = kdf_salt salted
        /\ keyed salt_mask salted r (read_ctx ctx') /\ keyed salt_mask salted wr (write_ctx ctx'))
    /\ (kdf_up (kdf_algorithm ctx) -> memory_up -> fst (fst (salt_step P ctx w)) = SQLITE_OK -> rc = SQLITE_OK).
Proof. exact (codec_derive_keys salt_mask ctx w). Qed.

End Keys.
