(* ===== verification/ScPage.v ===== *)
(** * SQLCipher: pages

    The protection of pages (sqlcipher.c): the authentication code of a page
    (sqlcipher_page_hmac), its encryption and decryption (sqlcipher_page_cipher), and the
    function that the pager calls for every page that it reads, writes or journals
    (sqlite3Codec). *)

From Stdlib Require Import ZArith Lia List Bool.
From S2P Require Import Prelude ScBytes ScHeap ScProvider ScContext ScKeys.
Import ListNotations.
Local Open Scope Z_scope.

Definition CIPHER_READ_CTX : Z := 0.
Definition CIPHER_WRITE_CTX : Z := 1.

Definition CODEC_READ_OP : Z := 3.
Definition CODEC_WRITE_OP : Z := 6.
Definition CODEC_JOURNAL_OP : Z := 7.

(** SQLite format 3, with its terminator. *)
Definition SQLITE_FILE_HEADER : list Z :=
  [83; 81; 76; 105; 116; 101; 32; 102; 111; 114; 109; 97; 116; 32; 51; 0].

Definition sqlcipher_put4byte_le (v : Z) : list Z :=
  [u8 v; u8 (Z.shiftr v 8); u8 (Z.shiftr v 16); u8 (Z.shiftr v 24)].

Definition sqlite3Put4byte (v : Z) : list Z :=
  [u8 (Z.shiftr v 24); u8 (Z.shiftr v 16); u8 (Z.shiftr v 8); u8 v].

Section Page.
Context {W : Type} {Mem : Memory W} {St : Store W} (P : sqlcipher_provider W).

(** The mask over keys, and whether the host stores the low byte of a number first. *)
Context (mask : list Z) (host_le : bool).

Definition pgno_raw (ctx : codec_ctx) (pgno : Z) : list Z :=
  if SQLCIPHER_FLAG_GET (flags ctx) CIPHER_FLAG_LE_PGNO then sqlcipher_put4byte_le pgno
  else if SQLCIPHER_FLAG_GET (flags ctx) CIPHER_FLAG_BE_PGNO then sqlite3Put4byte pgno
  else if host_le then sqlcipher_put4byte_le pgno else sqlite3Put4byte pgno.

(** The mask is off the key only for the call. *)
Definition sqlcipher_page_hmac (ctx : codec_ctx) (c : cipher_ctx) (pgno : Z) (inp : list Z) (in_sz : Z)
    (w : W) : option (list Z) * cipher_ctx * W :=
  let n := Z.to_nat (key_sz ctx) in
  let h := sqlcipher_shield mask (snd (hmac_key c)) n in
  let '(r, w) :=
    p_hmac P (hmac_algorithm ctx) (firstn n h) (firstn (Z.to_nat in_sz) inp) (pgno_raw ctx pgno) w in
  (r, set_keys (snd (key c)) (sqlcipher_shield mask h n) c, w).

(** [out] holds the bytes from the start of the output on, the first [page_sz] of which belong
    to the page; [None]: the data of the page would have a negative size. *)
Definition sqlcipher_page_cipher (ctx : codec_ctx) (for_ctx pgno mode page_sz : Z) (inp out : list Z)
    (w : W) : option (Z * list Z * codec_ctx * W) :=
  let c := if for_ctx =? 0 then read_ctx ctx else write_ctx ctx in
  let put c := if for_ctx =? 0 then set_read_ctx c ctx else set_write_ctx c ctx in
  let size := page_sz - reserve_sz ctx in
  let ns := Z.to_nat size in
  let fail out c w :=
    Some (SQLITE_ERROR, sqlcipher_memset out 0 0 (Z.to_nat page_sz), put c, w) in
  if (pgno =? 1) && (size =? 0) then Some (SQLITE_OK, out, ctx, w)
  else if key_sz ctx =? 0 then fail out c w
  else if size <? 0 then None
  else
    let hmac_at := Z.to_nat (size + iv_sz ctx) in
    let '(ok, out, w) :=
      if mode =? CIPHER_ENCRYPT then
        let '(ok, r, w) := p_random P (reserve_sz ctx) w in (ok, memcpy out ns r, w)
      else (true, memcpy out ns (slice inp ns (Z.to_nat (iv_sz ctx))), w) in
    if negb ok then fail out c w
    else
      let hmac := SQLCIPHER_FLAG_GET (flags ctx) CIPHER_FLAG_HMAC in
      let '(verdict, out, c, w) :=
        if hmac && (mode =? CIPHER_DECRYPT) then
          match sqlcipher_page_hmac ctx c pgno inp (size + iv_sz ctx) w with
          | (None, c, w) => (Some SQLITE_ERROR, out, c, w)
          | (Some t, c, w) =>
              let out := memcpy out hmac_at t in
              if sqlcipher_memcmp (skipn hmac_at inp) (skipn hmac_at out) (Z.to_nat (hmac_sz ctx)) then
                if s_autovacuum w && negb (sqlcipher_ismemset inp 0 (Z.to_nat page_sz))
                then (Some SQLITE_OK, out, c, w) else (Some SQLITE_ERROR, out, c, w)
              else (None, out, c, w)
          end
        else (None, out, c, w) in
      match verdict with
      | Some rc => Some (rc, sqlcipher_memset out 0 0 (Z.to_nat page_sz), put c, w)
      | None =>
          let n := Z.to_nat (key_sz ctx) in
          let k := sqlcipher_shield mask (snd (key c)) n in
          let '(r, w) := p_cipher P mode (firstn n k) (slice out ns (Z.to_nat (iv_sz ctx)))
                           (firstn ns inp) w in
          let c := set_keys (sqlcipher_shield mask k n) (snd (hmac_key c)) c in
          match r with
          | None => fail out c w
          | Some y =>
              let out := memcpy out 0 y in
              if hmac && (mode =? CIPHER_ENCRYPT) then
                match sqlcipher_page_hmac ctx c pgno out (size + iv_sz ctx) w with
                | (None, c, w) => fail out c w
                | (Some t, c, w) => Some (SQLITE_OK, memcpy out hmac_at t, put c, w)
                end
              else Some (SQLITE_OK, out, put c, w)
          end
      end.

(** What the pager gets: nothing, its own buffer, or the buffer of the codec. *)
Inductive codec_out := OutNull | OutData | OutBuffer.

Definition set_key_used (ctx : codec_ctx) : codec_ctx :=
  set_flags (SQLCIPHER_FLAG_SET (flags ctx) CIPHER_FLAG_KEY_USED) ctx.

Definition put_buffer (b : list Z) (ctx : codec_ctx) : codec_ctx := set_buffer (fst (buffer ctx), b) ctx.

(** [memcpy(ctx->buffer, src, offset)], and the call of the cipher on the rest of the page. *)
Definition codec_crypt (ctx : codec_ctx) (cctx pgno mode offset : Z) (src pData : list Z) (w : W)
    : option (Z * codec_ctx * W) :=
  let no := Z.to_nat offset in
  if page_sz ctx <? offset then None
  else
    let b := if pgno =? 1 then memcpy (snd (buffer ctx)) 0 (firstn no src) else snd (buffer ctx) in
    match sqlcipher_page_cipher ctx cctx pgno mode (page_sz ctx - offset) (skipn no pData) (skipn no b) w with
    | None => None
    | Some (rc, o, ctx, w) => Some (rc, put_buffer (firstn no b ++ o) ctx, w)
    end.

(** The buffer from the offset on is set to zero. *)
Definition wipe_buffer (offset : Z) (ctx : codec_ctx) : codec_ctx :=
  put_buffer (sqlcipher_memset (snd (buffer ctx)) (Z.to_nat offset) 0 (Z.to_nat (page_sz ctx - offset))) ctx.

(** [None]: a null pointer is compared, or an access is outside of the buffer. *)
Definition sqlite3Codec (salt_mask : Z) (ctx : codec_ctx) (pData : list Z) (pgno mode : Z) (w : W)
    : option (codec_out * list Z * codec_ctx * W) :=
  let stop ctx err w :=
    let '(ctx, w) := sqlcipher_codec_ctx_set_error ctx err w in Some (OutNull, pData, ctx, w) in
  if negb (error ctx =? SQLITE_OK) then stop ctx (error ctx) w
  else
    match sqlcipher_codec_key_derive P mask salt_mask ctx w with
    | None => None
    | Some (rc, ctx, w) =>
        if negb (rc =? SQLITE_OK) then stop ctx rc w
        else if plaintext_header_sz ctx <? 0 then stop ctx SQLITE_ERROR w
        else
          let plain := negb (plaintext_header_sz ctx =? 0) in
          let offset :=
            if pgno =? 1 then (if plain then plaintext_header_sz ctx else FILE_HEADER_SZ) else 0 in
          if mode =? CODEC_READ_OP then
            match codec_crypt ctx CIPHER_READ_CTX pgno CIPHER_DECRYPT offset
                    (if plain then pData else SQLITE_FILE_HEADER) pData w with
            | None => None
            | Some (rc, ctx, w) =>
                let '(ctx, w) :=
                  if negb (rc =? SQLITE_OK) then
                    let ctx := wipe_buffer offset ctx in
                    if plaintext_header_sz ctx =? page_sz ctx - reserve_sz ctx then (ctx, w)
                    else sqlcipher_codec_ctx_set_error ctx rc w
                  else (set_key_used ctx, w) in
                Some (OutData, memcpy pData 0 (firstn (Z.to_nat (page_sz ctx)) (snd (buffer ctx))), ctx, w)
            end
          else if (mode =? CODEC_WRITE_OP) || (mode =? CODEC_JOURNAL_OP) then
            let cctx := if mode =? CODEC_WRITE_OP then CIPHER_WRITE_CTX else CIPHER_READ_CTX in
            let '(rc, salt, ctx, w) :=
              if pgno =? 1 then sqlcipher_codec_ctx_get_kdf_salt P ctx w else (SQLITE_OK, [], ctx, w) in
            if negb (rc =? SQLITE_OK) then stop ctx rc w
            else
              match codec_crypt ctx cctx pgno CIPHER_ENCRYPT offset (if plain then pData else salt) pData w with
              | None => None
              | Some (rc, ctx, w) =>
                  if negb (rc =? SQLITE_OK) then stop (wipe_buffer offset ctx) rc w
                  else Some (OutBuffer, pData, set_key_used ctx, w)
              end
          else
            let '(ctx, w) := sqlcipher_codec_ctx_set_error ctx SQLITE_ERROR w in
            Some (OutData, pData, ctx, w)
    end.

(** ** What a context has to satisfy *)

Context {StL : StoreLaws W} {PL : ProviderLaws P}.

(** The sizes are those of the provider, and the space at the end of a page has room for the
    initial vector and the authentication code. *)
Definition settings_wf (ctx : codec_ctx) : Prop :=
  key_sz ctx = p_get_key_sz P /\ iv_sz ctx = p_get_iv_sz P /\ block_sz ctx = p_get_block_sz P
  /\ hmac_sz ctx = p_get_hmac_sz P (hmac_algorithm ctx)
  /\ iv_sz ctx + (if has_hmac ctx then hmac_sz ctx else 0) <= reserve_sz ctx <= 96
  /\ reserve_sz ctx mod block_sz ctx = 0.

(** The keys without the mask. *)
Definition plain_key (ctx : codec_ctx) (c : cipher_ctx) : list Z :=
  sqlcipher_shield mask (snd (key c)) (Z.to_nat (key_sz ctx)).

Definition plain_hmac_key (ctx : codec_ctx) (c : cipher_ctx) : list Z :=
  sqlcipher_shield mask (snd (hmac_key c)) (Z.to_nat (key_sz ctx)).

(** The authentication code of a page. *)
Definition page_mac (ctx : codec_ctx) (c : cipher_ctx) (pgno : Z) (x : list Z) : list Z :=
  mac (hmac_algorithm ctx) (plain_hmac_key ctx c) (x ++ pgno_raw ctx pgno).

Definition the_ctx (for_ctx : Z) (ctx : codec_ctx) : cipher_ctx :=
  if for_ctx =? 0 then read_ctx ctx else write_ctx ctx.

Lemma set_keys_same c : set_keys (snd (key c)) (snd (hmac_key c)) c = c.
Proof. destruct c as [? ? ? [] [] ?]. reflexivity. Qed.

Lemma put_same for_ctx ctx :
  (if for_ctx =? 0 then set_read_ctx (the_ctx for_ctx ctx) ctx
   else set_write_ctx (the_ctx for_ctx ctx) ctx) = ctx.
Proof. unfold the_ctx. destruct (for_ctx =? 0), ctx; reflexivity. Qed.

Lemma length_pgno_raw ctx pgno : length (pgno_raw ctx pgno) = 4%nat.
Proof. unfold pgno_raw. now repeat match goal with |- context [if ?b then _ else _] => destruct b end. Qed.

Lemma page_hmac_code ctx c pgno inp in_sz w r c' w' :
  keys_wf ctx c -> sqlcipher_page_hmac ctx c pgno inp in_sz w = (r, c', w') ->
  c' = c /\ (forall t, r = Some t ->
    t = page_mac ctx c pgno (firstn (Z.to_nat in_sz) inp)
    /\ Z.of_nat (length t) = p_get_hmac_sz P (hmac_algorithm ctx)).
Proof.
  intros (_ & _ & _ & Lh) H. unfold sqlcipher_page_hmac in H.
  destruct (p_hmac _ _ _ _ _ _) as [r1 w1] eqn:E. injection H as <- <- <-.
  rewrite shield_invol, set_keys_same by lia. split; [reflexivity|]. intros t ->.
  apply hmac_mac in E. rewrite firstn_all2 in E by (rewrite length_shield; lia). exact E.
Qed.

Lemma wiped out n : length out = n -> sqlcipher_memset out 0 0 n = memset 0 n.
Proof.
  intros H. rewrite sqlcipher_memset_memcpy by lia. unfold memcpy. rewrite length_memset.
  rewrite skipn_all2 by lia. apply app_nil_r.
Qed.

Lemma reserve_room ctx : settings_wf ctx -> 0 < iv_sz ctx <= reserve_sz ctx /\ 0 < key_sz ctx
  /\ 0 <= hmac_sz ctx /\ (has_hmac ctx = true -> iv_sz ctx + hmac_sz ctx <= reserve_sz ctx).
Proof.
  intros (Ek & Ei & Eb & Eh & Hr & _). pose proof key_sz_pos. pose proof iv_sz_pos.
  pose proof (hmac_sz_range (hmac_algorithm ctx)). destruct (has_hmac ctx);
  rewrite ?Ek, ?Ei, ?Eh in *; split_and; try lia; discriminate.
Qed.
(** ** One page *)

(** A page that was encrypted: data, initial vector, and, if it is used, the authentication
    code of both. *)
Definition sealed (ctx : codec_ctx) (c : cipher_ctx) (pgno : Z) (ns : nat) (x out : list Z) : Prop :=
  exists iv tail,
    out = enc (plain_key ctx c) iv x ++ iv ++ tail
    /\ bytes iv /\ length iv = Z.to_nat (iv_sz ctx) /\ length x = ns
    /\ (has_hmac ctx = true ->
        firstn (Z.to_nat (hmac_sz ctx)) tail = page_mac ctx c pgno (enc (plain_key ctx c) iv x ++ iv)).

(** The code of a page; the key is as before. *)
Lemma page_hmac_eq ctx c pgno x in_sz w : keys_wf ctx c ->
  sqlcipher_page_hmac ctx c pgno x in_sz w
  = let '(r, w) := p_hmac P (hmac_algorithm ctx) (plain_hmac_key ctx c) (firstn (Z.to_nat in_sz) x)
                     (pgno_raw ctx pgno) w in (r, c, w).
Proof.
  intros (_ & _ & _ & Lh). unfold sqlcipher_page_hmac.
  rewrite (firstn_all2 (sqlcipher_shield _ _ _)), shield_invol by (rewrite ?length_shield; lia).
  rewrite set_keys_same. reflexivity.
Qed.

(** The two directions, with the keys unmasked and the context unchanged. *)
Section OnePage.
Context (ctx : codec_ctx) (fc pgno psz : Z) (inp out : list Z).
Let c := the_ctx fc ctx.
Let ns := Z.to_nat (psz - reserve_sz ctx).
Let ni := Z.to_nat (iv_sz ctx).
Context (Hs : settings_wf ctx) (Hk : keys_wf ctx c) (Hr : reserve_sz ctx <= psz)
  (Hf : (pgno =? 1) && (psz =? reserve_sz ctx) = false)
  (Lo : Z.of_nat (length out) = psz) (Li : psz <= Z.of_nat (length inp)).

Definition failed (w : W) : option (Z * list Z * codec_ctx * W) :=
  Some (SQLITE_ERROR, memset 0 (Z.to_nat psz), ctx, w).

Definition encrypted (w : W) : option (Z * list Z * codec_ctx * W) :=
  let '(ok, r, w) := p_random P (reserve_sz ctx) w in
  if negb ok then failed w
  else match p_cipher P CIPHER_ENCRYPT (plain_key ctx c) (firstn ni r) (firstn ns inp) w with
       | (None, w) => failed w
       | (Some y, w) =>
           if has_hmac ctx then
             match p_hmac P (hmac_algorithm ctx) (plain_hmac_key ctx c) (y ++ firstn ni r)
                     (pgno_raw ctx pgno) w with
             | (None, w) => failed w
             | (Some t, w) => Some (SQLITE_OK, y ++ firstn ni r ++ memcpy (skipn ni r) 0 t, ctx, w)
             end
           else Some (SQLITE_OK, y ++ r, ctx, w)
       end.

Definition opened (tail : list Z) (w : W) : option (Z * list Z * codec_ctx * W) :=
  match p_cipher P CIPHER_DECRYPT (plain_key ctx c) (slice inp ns ni) (firstn ns inp) w with
  | (None, w) => failed w
  | (Some y, w) => Some (SQLITE_OK, y ++ slice inp ns ni ++ tail, ctx, w)
  end.

Definition decrypted (w : W) : option (Z * list Z * codec_ctx * W) :=
  let tail := skipn (ns + ni) out in
  if has_hmac ctx then
    match p_hmac P (hmac_algorithm ctx) (plain_hmac_key ctx c) (firstn (ns + ni) inp)
            (pgno_raw ctx pgno) w with
    | (None, w) => failed w
    | (Some t, w) =>
        if sqlcipher_memcmp (skipn (ns + ni) inp) t (Z.to_nat (hmac_sz ctx)) then
          if s_autovacuum w && negb (sqlcipher_ismemset inp 0 (Z.to_nat psz))
          then Some (SQLITE_OK, memset 0 (Z.to_nat psz), ctx, w) else failed w
        else opened (memcpy tail 0 t) w
    end
  else opened tail w.

Lemma out_split r : length r = Z.to_nat (reserve_sz ctx) ->
  memcpy out ns r = firstn ns out ++ r.
Proof.
  intros Lr. unfold memcpy. rewrite skipn_all2, app_nil_r by (unfold ns; lia). reflexivity.
Qed.

Lemma failed_eq o w : Z.of_nat (length o) = psz ->
  Some (SQLITE_ERROR, sqlcipher_memset o 0 0 (Z.to_nat psz),
        (if fc =? 0 then set_read_ctx c ctx else set_write_ctx c ctx), w) = failed w.
Proof. intros L. rewrite wiped by lia. unfold c. now rewrite put_same. Qed.

Lemma sizes_page : (pgno =? 1) && (psz - reserve_sz ctx =? 0) = false /\ (key_sz ctx =? 0) = false
  /\ (psz - reserve_sz ctx <? 0) = false /\ (length (firstn ns inp) = ns)%nat
  /\ Z.to_nat (psz - reserve_sz ctx + iv_sz ctx) = (ns + ni)%nat
  /\ (ni <= Z.to_nat (reserve_sz ctx))%nat /\ (ns + Z.to_nat (reserve_sz ctx) = length out)%nat.
Proof.
  destruct (reserve_room ctx Hs) as (Hiv & Hkz & _ & _).
  replace (psz - reserve_sz ctx =? 0) with (psz =? reserve_sz ctx)
    by (destruct (Z.eqb_spec psz (reserve_sz ctx)), (Z.eqb_spec (psz - reserve_sz ctx) 0); lia).
  rewrite length_firstn. unfold ns, ni. split; [exact Hf|]. split; [apply Z.eqb_neq; lia|].
  split; [apply Z.ltb_ge; lia|]. repeat split; lia.
Qed.

Lemma key_same : set_keys (sqlcipher_shield mask (plain_key ctx c) (Z.to_nat (key_sz ctx))) (snd (hmac_key c)) c = c
  /\ firstn (Z.to_nat (key_sz ctx)) (plain_key ctx c) = plain_key ctx c.
Proof.
  destruct Hk as (_ & _ & Lk & _). unfold plain_key.
  rewrite shield_invol, set_keys_same by lia. rewrite firstn_all2 by (rewrite length_shield; lia). auto.
Qed.

Lemma page_encrypt_eq w : sqlcipher_page_cipher ctx fc pgno CIPHER_ENCRYPT psz inp out w = encrypted w.
Proof.
  destruct sizes_page as (E1 & E2 & E3 & Lx & Enh & Hni & Hno). destruct key_same as [Kc Kf].
  unfold sqlcipher_page_cipher. fold (the_ctx fc ctx). fold c. fold ns ni.
  rewrite E1, E2, E3, Enh. cbn [Z.eqb Pos.eqb CIPHER_ENCRYPT CIPHER_DECRYPT].
  rewrite !andb_false_r, !andb_true_r. unfold encrypted.
  destruct (p_random P (reserve_sz ctx) w) as [[ok r] w1] eqn:ER.
  destruct (random_bytes _ _ _ _ _ ER) as [_ Lr]. rewrite out_split by exact Lr.
  assert (L1 : Z.of_nat (length (firstn ns out ++ r)) = psz)
    by (rewrite length_app, length_firstn; lia).
  destruct ok; cbn [negb]; [|now apply failed_eq].
  change (sqlcipher_shield mask (snd (key c)) (Z.to_nat (key_sz ctx))) with (plain_key ctx c).
  rewrite Kf, Kc. unfold slice. rewrite skipn_app_l by (rewrite length_firstn; lia).
  destruct (p_cipher _ _ _ _ _ _) as [[y|] w2] eqn:EC; [|now apply failed_eq].
  apply cipher_enc in EC. assert (Ly : length y = ns) by (now rewrite EC, enc_length).
  assert (Ey : memcpy (firstn ns out ++ r) 0 y = y ++ r).
  { unfold memcpy. cbn [firstn app Nat.add]. rewrite Ly, skipn_app_l by (rewrite length_firstn; lia).
    reflexivity. }
  rewrite Ey. fold (has_hmac ctx). destruct (has_hmac ctx); [|unfold c; now rewrite put_same].
  rewrite page_hmac_eq, Enh by exact Hk. rewrite firstn_app, Ly, firstn_all2 by lia.
  replace (ns + ni - ns)%nat with ni by lia.
  destruct (p_hmac _ _ _ _ _ _) as [[t|] w3]; [|apply failed_eq; rewrite length_app; lia].
  unfold c. rewrite put_same. do 4 f_equal.
  rewrite <- (firstn_skipn ni r) at 1. unfold memcpy. cbn [firstn app Nat.add].
  rewrite firstn_app, Ly, firstn_all2 by lia. replace (ns + ni - ns)%nat with ni by lia.
  rewrite (firstn_app_l (firstn ni r)) by (rewrite length_firstn; lia).
  rewrite <- app_assoc. do 3 f_equal. rewrite <- (Nat.add_assoc ns), <- Ly, skipn_app_plus by reflexivity.
  rewrite skipn_app_plus by (rewrite length_firstn; lia). reflexivity.
Qed.

Lemma opened_eq tail w :
  (length (firstn ns out ++ slice inp ns ni ++ tail) = length out)%nat ->
  (let n := Z.to_nat (key_sz ctx) in
   let o := firstn ns out ++ slice inp ns ni ++ tail in
   let k := sqlcipher_shield mask (snd (key c)) n in
   let '(r, w) := p_cipher P CIPHER_DECRYPT (firstn n k) (slice o ns ni) (firstn ns inp) w in
   let c := set_keys (sqlcipher_shield mask k n) (snd (hmac_key c)) c in
   let put := if fc =? 0 then set_read_ctx c ctx else set_write_ctx c ctx in
   match r with
   | None => Some (SQLITE_ERROR, sqlcipher_memset o 0 0 (Z.to_nat psz), put, w)
   | Some y => Some (SQLITE_OK, memcpy o 0 y, put, w)
   end) = opened tail w.
Proof.
  intros L. destruct sizes_page as (_ & _ & _ & Lx & _ & Hni & Hno). destruct key_same as [Kc Kf].
  cbn zeta. change (sqlcipher_shield mask (snd (key c)) (Z.to_nat (key_sz ctx))) with (plain_key ctx c).
  rewrite Kf, Kc. unfold opened.
  assert (Lf : length (firstn ns out) = ns) by (rewrite length_firstn; lia).
  rewrite (slice_app (firstn ns out)) by (rewrite ?length_slice; lia).
  destruct (p_cipher _ _ _ _ _ _) as [[y|] w2] eqn:EC; [|apply failed_eq; lia].
  apply cipher_dec in EC. unfold c. rewrite put_same. do 4 f_equal.
  unfold memcpy. cbn [firstn app Nat.add]. f_equal. rewrite EC, dec_length, Lx. now apply skipn_app_l.
Qed.

Lemma memcmp_app a t r n : length t = n -> sqlcipher_memcmp a (t ++ r) n = sqlcipher_memcmp a t n.
Proof.
  intros L. unfold sqlcipher_memcmp. do 2 f_equal. apply fold_left_ext_in. intros x i Hi%in_seq.
  now rewrite app_nth1 by lia.
Qed.

Lemma page_decrypt_eq w : sqlcipher_page_cipher ctx fc pgno CIPHER_DECRYPT psz inp out w = decrypted w.
Proof.
  destruct sizes_page as (E1 & E2 & E3 & Lx & Enh & Hni & Hno).
  unfold sqlcipher_page_cipher. fold (the_ctx fc ctx). fold c. fold ns ni.
  rewrite E1, E2, E3, Enh. cbn [Z.eqb Pos.eqb CIPHER_ENCRYPT CIPHER_DECRYPT negb].
  rewrite !andb_false_r, !andb_true_r. unfold decrypted. fold (has_hmac ctx).
  assert (Liv : length (slice inp ns ni) = ni) by (apply length_slice; lia).
  assert (Lf : length (firstn ns out) = ns) by (rewrite length_firstn; lia).
  assert (Eo : memcpy out ns (slice inp ns ni) = firstn ns out ++ slice inp ns ni ++ skipn (ns + ni) out)
    by (unfold memcpy; now rewrite Liv).
  rewrite Eo. destruct (has_hmac ctx) eqn:EH.
  - rewrite page_hmac_eq, Enh by exact Hk. destruct (p_hmac _ _ _ _ _ _) as [[t|] w1] eqn:EM.
    + apply hmac_mac in EM. destruct EM as [_ Lt]. pose proof Hs as (_ & _ & _ & Eh & _ & _).
      destruct (reserve_room ctx Hs) as (Hiv & _ & _ & Hroom). specialize (Hroom EH).
      assert (Em : memcpy (firstn ns out ++ slice inp ns ni ++ skipn (ns + ni) out) (ns + ni) t
                 = firstn ns out ++ slice inp ns ni ++ memcpy (skipn (ns + ni) out) 0 t).
      { unfold memcpy. rewrite (app_assoc (firstn ns out)).
        rewrite (firstn_app_l (firstn ns out ++ slice inp ns ni)) by (rewrite length_app; lia).
        rewrite (skipn_app_plus (firstn ns out ++ slice inp ns ni)) by (rewrite length_app; lia).
        now rewrite <- app_assoc. }
      rewrite Em, (app_assoc (firstn ns out)) at 1.
      rewrite (skipn_app_l (firstn ns out ++ slice inp ns ni)) by (rewrite length_app; lia).
      unfold memcpy at 1. cbn [firstn app Nat.add]. rewrite memcmp_app by lia.
      assert (L2 : length (firstn ns out ++ slice inp ns ni ++ memcpy (skipn (ns + ni) out) 0 t) = length out).
      { rewrite !length_app, length_memcpy, length_skipn by (rewrite length_skipn; unfold ns, ni in *; lia). lia. }
      destruct (sqlcipher_memcmp _ _ _); [|rewrite Em; now apply opened_eq].
      rewrite Em. destruct (s_autovacuum w1 && _); [|apply failed_eq; lia].
      rewrite wiped by lia. unfold c. now rewrite put_same.
    + apply failed_eq. rewrite !length_app, length_skipn. lia.
  - apply opened_eq. rewrite !length_app, length_skipn. lia.
Qed.
End OnePage.

(** Two contexts that agree on the layout of pages. *)
Definition same_format (ctx ctx2 : codec_ctx) : Prop :=
  iv_sz ctx2 = iv_sz ctx /\ reserve_sz ctx2 = reserve_sz ctx /\ hmac_sz ctx2 = hmac_sz ctx
  /\ hmac_algorithm ctx2 = hmac_algorithm ctx /\ has_hmac ctx2 = has_hmac ctx
  /\ forall pgno, pgno_raw ctx2 pgno = pgno_raw ctx pgno.

Definition same_keys (ctx : codec_ctx) (c : cipher_ctx) (ctx2 : codec_ctx) (c2 : cipher_ctx) : Prop :=
  plain_key ctx2 c2 = plain_key ctx c /\ (has_hmac ctx = true -> plain_hmac_key ctx2 c2 = plain_hmac_key ctx c).

(** The provider does not fail: every call for an authentication code and every call for whole
    cipher blocks succeeds. *)
Definition provider_up (algorithm : Z) : Prop :=
  (forall k x y w, fst (p_hmac P algorithm k x y w) <> None)
  /\ (forall mode k iv x w, Z.of_nat (length x) mod p_get_block_sz P = 0 ->
        fst (p_cipher P mode k iv x w) <> None).

Lemma page_mac_same ctx c ctx2 c2 pgno x :
  same_format ctx ctx2 -> same_keys ctx c ctx2 c2 -> has_hmac ctx = true ->
  page_mac ctx2 c2 pgno x = page_mac ctx c pgno x.
Proof.
  intros (_ & _ & _ & Ea & _ & Ep) [_ Eh] H. unfold page_mac. now rewrite Ea, Ep, Eh.
Qed.

Lemma bytes_plain_key ctx c : bytes mask -> keys_wf ctx c ->
  bytes (plain_key ctx c) /\ Z.of_nat (length (plain_key ctx c)) = key_sz ctx.
Proof. intros Hm (Bk & _ & Lk & _). now apply shield_wf. Qed.

(** What encryption gives. *)
Lemma page_encrypted ctx fc pgno psz inp out w rc out' ctx' w' :
  let c := the_ctx fc ctx in
  let ns := Z.to_nat (psz - reserve_sz ctx) in
  settings_wf ctx -> keys_wf ctx c -> reserve_sz ctx <= psz -> (pgno =? 1) && (psz =? reserve_sz ctx) = false ->
  Z.of_nat (length out) = psz -> psz <= Z.of_nat (length inp) ->
  sqlcipher_page_cipher ctx fc pgno CIPHER_ENCRYPT psz inp out w = Some (rc, out', ctx', w') ->
  ctx' = ctx /\ Z.of_nat (length out') = psz
  /\ (rc = SQLITE_OK /\ sealed ctx c pgno ns (firstn ns inp) out'
      \/ rc = SQLITE_ERROR /\ out' = memset 0 (Z.to_nat psz)).
Proof.
  intros c ns Hs Hk Hr Hf Lo Li H. rewrite page_encrypt_eq in H by assumption.
  destruct (sizes_page ctx pgno psz inp out Hs Hr Hf Lo Li) as (_ & _ & _ & Lx & _ & Hni & Hno).
  destruct (reserve_room ctx Hs) as (Hiv & _ & Hh0 & Hroom). pose proof Hs as (_ & _ & _ & Eh & _ & _).
  unfold encrypted, failed in H. fold c ns in H.
  set (ni := Z.to_nat (iv_sz ctx)) in *.
  destruct (p_random P (reserve_sz ctx) w) as [[ok r] w1] eqn:ER.
  destruct (random_bytes _ _ _ _ _ ER) as [Br Lr].
  assert (Bad : forall w2, Some (SQLITE_ERROR, memset 0 (Z.to_nat psz), ctx, w2) = Some (rc, out', ctx', w') ->
    ctx' = ctx /\ Z.of_nat (length out') = psz
    /\ (rc = SQLITE_OK /\ sealed ctx c pgno ns (firstn ns inp) out'
        \/ rc = SQLITE_ERROR /\ out' = memset 0 (Z.to_nat psz))).
  { intros w2 E. injection E as <- <- <- _. rewrite length_memset. split; [reflexivity|]. split; [lia | auto]. }
  destruct ok; cbn [negb] in H; [|now apply Bad in H].
  destruct (p_cipher _ _ _ _ _ _) as [[y|] w2] eqn:EC; [|now apply Bad in H].
  apply cipher_enc in EC. assert (Ly : length y = ns) by (now rewrite EC, enc_length).
  assert (Li' : length (firstn ni r) = ni) by (rewrite length_firstn; lia).
  destruct (has_hmac ctx) eqn:EH.
  - destruct (p_hmac _ _ _ _ _ _) as [[t|] w3] eqn:EM; [|now apply Bad in H].
    apply hmac_mac in EM. destruct EM as [Et Lt]. specialize (Hroom eq_refl).
    injection H as <- <- <- _. split; [reflexivity|].
    rewrite !length_app, length_memcpy, length_skipn by (rewrite length_skipn; lia).
    split; [lia|]. left. split; [reflexivity|].
    exists (firstn ni r), (memcpy (skipn ni r) 0 t). rewrite <- EC.
    split; [reflexivity|]. split; [now apply bytes_firstn|]. split; [exact Li'|]. split; [exact Lx|].
    intros _. rewrite firstn_memcpy_0 by lia. exact Et.
  - injection H as <- <- <- _. split; [reflexivity|]. rewrite length_app. split; [lia|]. left.
    split; [reflexivity|]. exists (firstn ni r), (skipn ni r). rewrite <- EC, firstn_skipn.
    split; [reflexivity|]. split; [now apply bytes_firstn|]. split; [exact Li'|]. split; [exact Lx|]. congruence.
Qed.

(** What decryption accepts. *)
Lemma page_decrypted ctx fc pgno psz inp out w :
  let c := the_ctx fc ctx in
  let ns := Z.to_nat (psz - reserve_sz ctx) in
  let ni := Z.to_nat (iv_sz ctx) in
  settings_wf ctx -> keys_wf ctx c -> reserve_sz ctx <= psz -> (pgno =? 1) && (psz =? reserve_sz ctx) = false ->
  Z.of_nat (length out) = psz -> Z.of_nat (length inp) = psz ->
  exists rc out' w',
    sqlcipher_page_cipher ctx fc pgno CIPHER_DECRYPT psz inp out w = Some (rc, out', ctx, w')
    /\ Z.of_nat (length out') = psz
    /\ (rc = SQLITE_OK
        /\ (has_hmac ctx = true ->
            slice inp (ns + ni) (Z.to_nat (hmac_sz ctx)) = page_mac ctx c pgno (firstn (ns + ni) inp))
        /\ firstn ns out' = dec (plain_key ctx c) (slice inp ns ni) (firstn ns inp)
        \/ rc = SQLITE_OK /\ has_hmac ctx = true /\ inp = memset 0 (Z.to_nat psz)
           /\ out' = memset 0 (Z.to_nat psz)
        \/ rc = SQLITE_ERROR /\ out' = memset 0 (Z.to_nat psz)).
Proof.
  intros c ns ni Hs Hk Hr Hf Lo Li. rewrite page_decrypt_eq by (assumption || lia).
  destruct (sizes_page ctx pgno psz inp out Hs Hr Hf Lo ltac:(lia)) as (_ & _ & _ & Lx & _ & Hni & Hno).
  destruct (reserve_room ctx Hs) as (Hiv & _ & Hh0 & Hroom). pose proof Hs as (_ & _ & _ & Eh & _ & _).
  fold ns ni in Lx, Hni, Hno.
  assert (Fail : forall w1 Q, exists rc out' w', failed ctx psz w1 = Some (rc, out', ctx, w')
     /\ Z.of_nat (length out') = psz
     /\ (Q rc out' \/ rc = SQLITE_ERROR /\ out' = memset 0 (Z.to_nat psz))).
  { intros w1 Q. do 3 eexists. split; [reflexivity|]. rewrite length_memset. split; [lia | auto]. }
  assert (Open : forall tail w1, Z.of_nat (length tail) = psz - Z.of_nat (ns + ni) ->
    exists rc out' w', opened ctx fc psz inp tail w1 = Some (rc, out', ctx, w')
      /\ Z.of_nat (length out') = psz
      /\ (rc = SQLITE_OK /\ firstn ns out' = dec (plain_key ctx c) (slice inp ns ni) (firstn ns inp)
          \/ rc = SQLITE_ERROR /\ out' = memset 0 (Z.to_nat psz))).
  { intros tail w1 Lt. unfold opened. fold c ns ni.
    destruct (p_cipher _ _ _ _ _ _) as [[y|] w2] eqn:EC.
    - apply cipher_dec in EC. assert (Ly : length y = ns) by (now rewrite EC, dec_length).
      do 3 eexists. split; [reflexivity|]. rewrite !length_app, length_slice by lia. split; [lia|].
      left. rewrite firstn_app_l by exact Ly. auto.
    - apply (Fail w2 (fun rc out' => rc = SQLITE_OK /\ firstn ns out' = _)). }
  unfold decrypted. fold c ns ni. destruct (has_hmac ctx) eqn:EH.
  - destruct (p_hmac _ _ _ _ _ _) as [[t|] w1] eqn:EM; [|destruct (Fail w1 (fun _ _ => False)) as
      (rc & o & w2 & E & L & [[]|B]); exists rc, o, w2; auto].
    apply hmac_mac in EM. destruct EM as [Et Lt]. specialize (Hroom eq_refl).
    destruct (sqlcipher_memcmp _ _ _) eqn:EC.
    + destruct (s_autovacuum w1 && _) eqn:EA.
      * apply andb_prop in EA. destruct EA as [_ EZ]. apply negb_true_iff in EZ.
        do 3 eexists. split; [reflexivity|]. rewrite length_memset. split; [lia|]. right. left.
        split_and; auto. apply (nth_ext _ _ 0 0); [rewrite length_memset; lia|]. intros i Hi.
        rewrite (proj1 (ismemset_false _ _ _) EZ) by lia. unfold memset. now rewrite nth_repeat.
      * destruct (Fail w1 (fun _ _ => False)) as (rc & o & w2 & E & L & [[]|B]). exists rc, o, w2. auto.
    + destruct (Open (memcpy (skipn (ns + ni) out) 0 t) w1) as (rc & o & w2 & E & L & H).
      { rewrite length_memcpy, length_skipn by (rewrite length_skipn; lia). lia. }
      exists rc, o, w2. split; [exact E|]. split; [exact L|]. destruct H as [[-> D]|[-> D]]; [left|auto].
      split; [reflexivity|]. split; [|exact D]. intros _.
      rewrite memcmp_firstn in EC by (rewrite ?length_skipn; lia). unfold slice.
      rewrite EC, firstn_all2 by lia. exact Et.
  - destruct (Open (skipn (ns + ni) out) w) as (rc & o & w2 & E & L & H);
      [rewrite length_skipn; lia|].
    exists rc, o, w2. split; [exact E|]. split; [exact L|]. destruct H as [[-> D]|[-> D]]; [left|auto].
    split; [reflexivity|]. split; [discriminate | exact D].
Qed.

(** A sealed page, given to a context with the same keys, is accepted and its data restored. *)
(** The last step of a decryption: the cipher text becomes the plain text, or the provider fails. *)
Lemma cipher_opens alg k iv y x tl psz (ctx2 : codec_ctx) w1 :
  dec k iv y = x -> length x = length y -> Z.of_nat (length y) mod p_get_block_sz P = 0 ->
  Z.of_nat (length (y ++ iv ++ tl)) = psz ->
  exists rc out' w',
    match p_cipher P CIPHER_DECRYPT k iv y w1 with
    | (Some y0, w0) => Some (SQLITE_OK, y0 ++ iv ++ tl, ctx2, w0)
    | (None, w0) => Some (SQLITE_ERROR, memset 0 (Z.to_nat psz), ctx2, w0)
    end = Some (rc, out', ctx2, w')
    /\ Z.of_nat (length out') = psz
    /\ (rc = SQLITE_OK -> firstn (length y) out' = x) /\ (provider_up alg -> rc = SQLITE_OK).
Proof.
  intros Dy Lx Hb Lt. destruct (p_cipher _ _ _ _ _ _) as [[z|] w3] eqn:EC.
  - apply cipher_dec in EC. rewrite Dy in EC. subst z. do 3 eexists. split; [reflexivity|].
    rewrite !length_app in *. split; [lia|]. split; [|auto]. intros _. now apply firstn_app_l.
  - do 3 eexists. split; [reflexivity|]. rewrite length_memset. split; [lia|]. split; [discriminate|].
    intros [_ Up]. exfalso. apply (Up CIPHER_DECRYPT k iv y w1 Hb). now rewrite EC.
Qed.

Lemma sealed_opens ctx c ctx2 fc2 pgno psz x page out2 w2 :
  let c2 := the_ctx fc2 ctx2 in
  let ns := Z.to_nat (psz - reserve_sz ctx) in
  bytes mask -> settings_wf ctx2 -> keys_wf ctx2 c2 ->
  same_format ctx ctx2 -> same_keys ctx c ctx2 c2 ->
  reserve_sz ctx <= psz -> (pgno =? 1) && (psz =? reserve_sz ctx) = false ->
  (psz - reserve_sz ctx) mod p_get_block_sz P = 0 ->
  sealed ctx c pgno ns x page -> bytes x -> Z.of_nat (length page) = psz -> Z.of_nat (length out2) = psz ->
  exists rc out' w',
    sqlcipher_page_cipher ctx2 fc2 pgno CIPHER_DECRYPT psz page out2 w2 = Some (rc, out', ctx2, w')
    /\ Z.of_nat (length out') = psz
    /\ (rc = SQLITE_OK -> firstn ns out' = x)
    /\ (provider_up (hmac_algorithm ctx) -> rc = SQLITE_OK).
Proof.
  intros c2 ns Hm Hs Hk Hfm Hky Hr Hf Hb (iv & tail & Ep & Bi & Li & Lx & Ht) Bx Lp Lo.
  pose proof Hfm as (Ei & Er & Eh & Ea & EH & _). pose proof Hky as [Kk _].
  rewrite page_decrypt_eq by (rewrite ?Er; (assumption || lia)).
  pose proof Hs as (Sk & Si & _ & Sh & _ & _).
  destruct (bytes_plain_key ctx2 c2 Hm Hk) as [Bpk Lpk].
  pose proof (hmac_sz_range (hmac_algorithm ctx)).
  destruct (reserve_room ctx2 Hs) as (Hiv & _ & _ & Hroom). rewrite EH, Ei, Er, Eh in *.
  set (y := enc (plain_key ctx c) iv x) in *.
  assert (Ly : length y = ns) by (unfold y; now rewrite enc_length).
  unfold decrypted, opened, failed. rewrite Er, Ei, EH, Ea, Eh. fold c2 ns. set (ni := Z.to_nat (iv_sz ctx)) in *.
  assert (F1 : firstn ns page = y) by (rewrite Ep; now apply firstn_app_l).
  assert (F2 : slice page ns ni = iv) by (rewrite Ep; now apply slice_app).
  assert (F3 : firstn (ns + ni) page = y ++ iv)
    by (rewrite Ep, app_assoc; apply firstn_app_l; rewrite length_app; lia).
  assert (F4 : skipn (ns + ni) page = tail)
    by (rewrite Ep, app_assoc; apply skipn_app_l; rewrite length_app; lia).
  rewrite F1, F2, F3, F4.
  assert (Dy : dec (plain_key ctx2 c2) iv y = x).
  { unfold y. rewrite <- Kk. apply dec_enc; auto; try lia.
    rewrite Lx. unfold ns. rewrite Z2Nat.id by lia. exact Hb. }
  assert (Open : forall tl w1, Z.of_nat (length tl) = psz - Z.of_nat (ns + ni) -> exists rc out' w',
     match p_cipher P CIPHER_DECRYPT (plain_key ctx2 c2) iv y w1 with
     | (Some y0, w0) => Some (SQLITE_OK, y0 ++ iv ++ tl, ctx2, w0)
     | (None, w0) => Some (SQLITE_ERROR, memset 0 (Z.to_nat psz), ctx2, w0)
     end = Some (rc, out', ctx2, w')
     /\ Z.of_nat (length out') = psz
     /\ (rc = SQLITE_OK -> firstn ns out' = x) /\ (provider_up (hmac_algorithm ctx) -> rc = SQLITE_OK)).
  { intros tl w1 Lt. rewrite <- Ly. apply cipher_opens; [exact Dy | congruence | | rewrite !length_app; lia].
    rewrite Ly. unfold ns. rewrite Z2Nat.id by lia. exact Hb. }
  destruct (has_hmac ctx) eqn:EHH; [|apply Open; rewrite length_skipn; lia].
  destruct (p_hmac _ _ _ _ _ _) as [[t|] w1] eqn:EM.
  - apply hmac_mac in EM. destruct EM as [Et Lt].
    assert (C : sqlcipher_memcmp tail t (Z.to_nat (hmac_sz ctx)) = false).
    { assert (Et' : t = page_mac ctx2 c2 pgno (y ++ iv)) by (unfold page_mac; now rewrite Ea).
      rewrite (page_mac_same ctx c) in Et' by assumption. specialize (Ht eq_refl). rewrite <- Et' in Ht.
      apply memcmp_false. intros i Hi. rewrite <- Ht, nth_firstn.
      destruct (Nat.ltb_spec i (Z.to_nat (hmac_sz ctx))); [reflexivity | lia]. }
    rewrite C. apply Open. rewrite length_memcpy, length_skipn; [lia|].
    rewrite length_skipn. specialize (Hroom eq_refl). rewrite Ea in Sh. unfold ns, ni in *. lia.
  - do 3 eexists. split; [reflexivity|]. rewrite length_memset. split; [lia|]. split; [discriminate|].
    intros [Up _]. exfalso. apply (Up (plain_hmac_key ctx2 c2) (y ++ iv) (pgno_raw ctx2 pgno) w2). now rewrite EM.
Qed.

(** ** The function for the pager *)

Definition codec_wf (ctx : codec_ctx) : Prop :=
  sizes_wf ctx /\ settings_wf ctx /\ keys_wf ctx (read_ctx ctx) /\ keys_wf ctx (write_ctx ctx)
  /\ 512 <= page_sz ctx <= 65536 /\ page_sz ctx mod 16 = 0
  /\ Z.of_nat (length (snd (buffer ctx))) = page_sz ctx
  /\ length (snd (hmac_kdf_salt ctx)) = length (snd (kdf_salt ctx)).

(** The part of page 1 in plain text ends before the space at the end of the page. *)
Definition header_ok (ctx : codec_ctx) : Prop :=
  0 <= plaintext_header_sz ctx <= page_sz ctx - reserve_sz ctx
  /\ plaintext_header_sz ctx mod block_sz ctx = 0.

(** The keys are derived, and no passphrase is kept unless it is to be stored. *)
Definition keys_ready (ctx : codec_ctx) : Prop :=
  derive_key (read_ctx ctx) = 0 /\ derive_key (write_ctx ctx) = 0
  /\ (store_pass ctx = 1
      \/ pass (read_ctx ctx) = null /\ pass_sz (read_ctx ctx) = 0
         /\ pass (write_ctx ctx) = null /\ pass_sz (write_ctx ctx) = 0).

Definition page_offset (ctx : codec_ctx) (pgno : Z) : Z :=
  if pgno =? 1 then (if negb (plaintext_header_sz ctx =? 0) then plaintext_header_sz ctx else FILE_HEADER_SZ)
  else 0.

Lemma key_derive_ready salt_mask ctx w :
  keys_ready ctx -> sqlcipher_codec_key_derive P mask salt_mask ctx w = Some (SQLITE_OK, ctx, w).
Proof.
  intros (Dr & Dw & Hp). unfold sqlcipher_codec_key_derive. rewrite Dr. cbn [Z.eqb negb SQLITE_OK].
  rewrite Dw. cbn [Z.eqb negb]. destruct (Z.eqb_spec (store_pass ctx) 1); [reflexivity|].
  destruct Hp as [|(P1 & Z1 & P2 & Z2)]; [congruence|].
  unfold sqlcipher_cipher_ctx_set_pass, release. cbn [write_ctx set_read_ctx]. rewrite P1, P2.
  cbn [is_null null fst Z.eqb].
  destruct ctx as [? ? ? ? ? ? ? ? ? ? ? ? ? ? ? ? ? ? ? [? ? ? ? ? ?] [? ? ? ? ? ?]]. cbn in *. subst. reflexivity.
Qed.

Lemma offset_range ctx pgno : codec_wf ctx -> header_ok ctx ->
  0 <= page_offset ctx pgno <= page_sz ctx - reserve_sz ctx
  /\ (page_sz ctx - page_offset ctx pgno - reserve_sz ctx) mod p_get_block_sz P = 0.
Proof.
  intros (_ & Hs & _ & _ & Hp & Hp16 & _) [Hh Hhm]. pose proof Hs as (_ & _ & Eb & _ & Hr & Hrm).
  pose proof block_sz_pos as Hb. pose proof block_sz_divides as Hd. rewrite Eb in *.
  set (b := p_get_block_sz P) in *.
  assert (D : forall x, x mod b = 0 -> (b | x)) by (intros; apply Z.mod_divide; lia).
  assert (Dp : (b | page_sz ctx)).
  { apply (Z.divide_trans _ 16); [apply D, Hd | apply Z.mod_divide; lia]. }
  split.
  - unfold page_offset, FILE_HEADER_SZ. destruct (pgno =? 1), (plaintext_header_sz ctx =? 0); cbn [negb]; lia.
  - apply Z.mod_divide; [lia|]. repeat apply Z.divide_sub_r; auto.
    unfold page_offset, FILE_HEADER_SZ.
    destruct (pgno =? 1), (plaintext_header_sz ctx =? 0); cbn [negb]; auto using Z.divide_0_r.
Qed.

Lemma put_buffer_id ctx : put_buffer (snd (buffer ctx)) ctx = ctx.
Proof. destruct ctx as [? ? ? ? ? ? ? ? ? ? ? ? ? ? ? ? ? ? [] ? ?]. reflexivity. Qed.

(** The start of page 1 in the buffer. *)
Lemma crypt_buffer ctx pgno no src :
  (pgno = 1 -> (no <= length src)%nat) -> (no <= length (snd (buffer ctx)))%nat ->
  let b := if pgno =? 1 then memcpy (snd (buffer ctx)) 0 (firstn no src) else snd (buffer ctx) in
  Z.of_nat (length b) = Z.of_nat (length (snd (buffer ctx))) /\ (pgno = 1 -> firstn no b = firstn no src).
Proof.
  intros Hsrc Hb b. unfold b. destruct (Z.eqb_spec pgno 1); [|tauto]. specialize (Hsrc e).
  rewrite length_memcpy by (rewrite length_firstn; lia). split; [reflexivity|]. intros _.
  apply firstn_memcpy_0. rewrite length_firstn. lia.
Qed.

(** The buffer of the codec after encryption. *)
Lemma crypt_encrypted ctx cctx pgno src data w rc ctx' w' :
  let off := page_offset ctx pgno in
  let no := Z.to_nat off in
  let ns := Z.to_nat (page_sz ctx - off - reserve_sz ctx) in
  codec_wf ctx -> header_ok ctx -> Z.of_nat (length data) = page_sz ctx ->
  (pgno = 1 -> (no <= length src)%nat) ->
  codec_crypt ctx cctx pgno CIPHER_ENCRYPT off src data w = Some (rc, ctx', w') ->
  exists b, ctx' = put_buffer b ctx /\ Z.of_nat (length b) = page_sz ctx
    /\ (pgno = 1 -> firstn no b = firstn no src)
    /\ (rc = SQLITE_OK /\ ((pgno = 1 /\ page_sz ctx - off = reserve_sz ctx)
           \/ sealed ctx (the_ctx cctx ctx) pgno ns (firstn ns (skipn no data)) (skipn no b))
        \/ rc = SQLITE_ERROR).
Proof.
  intros off no ns Hw Hh Ld Hsrc H. destruct (offset_range ctx pgno Hw Hh) as [Ho _]. fold off in Ho.
  pose proof Hw as (_ & Hs & Hkr & Hkw & Hp & _ & Lb & _). destruct (reserve_room ctx Hs) as (Hiv & _).
  assert (Hk : keys_wf ctx (the_ctx cctx ctx)) by (unfold the_ctx; destruct (cctx =? 0); assumption).
  unfold codec_crypt in H. fold no in H. destruct (Z.ltb_spec (page_sz ctx) off); [lia|].
  set (b := if pgno =? 1 then _ else _) in H.
  destruct (crypt_buffer ctx pgno no src Hsrc ltac:(lia)) as [Bl Bs]. fold b in Bl, Bs. rewrite Lb in Bl.
  destruct (sqlcipher_page_cipher _ _ _ _ _ _ _ _) as [[[[rc1 o] ctx1] w1]|] eqn:E; [|discriminate H].
  injection H as <- <- <-.
  assert (Ln : length (firstn no b) = no) by (rewrite length_firstn; lia).
  destruct ((pgno =? 1) && (page_sz ctx - off =? reserve_sz ctx)) eqn:F.
  - apply andb_prop in F. destruct F as [F1%Z.eqb_eq F2%Z.eqb_eq].
    unfold sqlcipher_page_cipher in E. subst pgno. rewrite F2 in E.
    rewrite Z.sub_diag in E. cbn [Z.eqb Pos.eqb andb] in E. injection E as <- <- <- <-.
    exists b. rewrite firstn_skipn. split; [reflexivity|]. split; [exact Bl|]. split; [exact Bs|]. left. auto.
  - destruct (page_encrypted ctx cctx pgno (page_sz ctx - off) (skipn no data) (skipn no b) w rc1 o ctx1 w1)
      as (-> & Lo & D); try assumption; try (rewrite length_skipn; lia); try lia.
    exists (firstn no b ++ o). split; [reflexivity|]. rewrite length_app. split; [lia|].
    split; [intros e; rewrite firstn_app_l by exact Ln; auto|].
    rewrite skipn_app_l by exact Ln. destruct D as [[-> D]|[-> _]]; auto.
Qed.

(** The buffer of the codec after the decryption of a sealed page. *)
Lemma crypt_opened ctx c ctx2 pgno src page x w2 :
  let off := page_offset ctx2 pgno in
  let no := Z.to_nat off in
  let ns := Z.to_nat (page_sz ctx2 - off - reserve_sz ctx2) in
  bytes mask -> codec_wf ctx2 -> header_ok ctx2 -> Z.of_nat (length page) = page_sz ctx2 ->
  same_format ctx ctx2 -> same_keys ctx c ctx2 (read_ctx ctx2) -> (pgno = 1 -> (no <= length src)%nat) ->
  bytes x -> length x = ns ->
  (pgno = 1 /\ page_sz ctx2 - off = reserve_sz ctx2) \/ sealed ctx c pgno ns x (skipn no page) ->
  provider_up (hmac_algorithm ctx) ->
  exists b w', codec_crypt ctx2 CIPHER_READ_CTX pgno CIPHER_DECRYPT off src page w2
      = Some (SQLITE_OK, put_buffer b ctx2, w')
    /\ Z.of_nat (length b) = page_sz ctx2
    /\ (pgno = 1 -> firstn no b = firstn no src) /\ firstn ns (skipn no b) = x.
Proof.
  intros off no ns Hm Hw Hh Lp Hfm Hky Hsrc Bx Lx Hseal Hup.
  destruct (offset_range ctx2 pgno Hw Hh) as [Ho Hblk]. fold off in Ho, Hblk.
  pose proof Hw as (_ & Hs & Hkr & _ & Hp & _ & Lb & _). destruct (reserve_room ctx2 Hs) as (Hiv & _).
  pose proof Hfm as (_ & Er & _).
  unfold codec_crypt. fold no. destruct (Z.ltb_spec (page_sz ctx2) off); [lia|].
  set (b := if pgno =? 1 then _ else _).
  destruct (crypt_buffer ctx2 pgno no src Hsrc ltac:(lia)) as [Bl Bs]. fold b in Bl, Bs. rewrite Lb in Bl.
  assert (Ln : length (firstn no b) = no) by (rewrite length_firstn; lia).
  destruct ((pgno =? 1) && (page_sz ctx2 - off =? reserve_sz ctx2)) eqn:F.
  - pose proof F as F'. apply andb_prop in F'. destruct F' as [F1%Z.eqb_eq F2%Z.eqb_eq].
    unfold sqlcipher_page_cipher. rewrite F1, F2, Z.sub_diag. cbn [Z.eqb Pos.eqb andb].
    exists b, w2. rewrite firstn_skipn. split; [reflexivity|]. split; [exact Bl|]. split; [auto|].
    assert (N0 : ns = 0%nat) by (unfold ns; lia). rewrite N0 in *. destruct x; [reflexivity | discriminate].
  - destruct Hseal as [[-> F2]|Hseal]; [rewrite F2, !Z.eqb_refl in F; discriminate F|].
    unfold ns in *. rewrite Er in *.
    destruct (sealed_opens ctx c ctx2 CIPHER_READ_CTX pgno (page_sz ctx2 - off) x (skipn no page)
                (skipn no b) w2) as (rc & o & w3 & E & Lo' & R & U);
      try assumption; try (rewrite length_skipn; lia); try lia.
    specialize (U Hup). subst rc. rewrite E. exists (firstn no b ++ o), w3.
    split; [reflexivity|]. rewrite length_app, firstn_app_l, skipn_app_l by exact Ln.
    split; [lia|]. auto.
Qed.

(** What the pager has to see of a page: SQLCipher keeps its salt where SQLite has its magic
    text, unless the header is in plain text. *)
Definition as_read (ctx : codec_ctx) (pgno : Z) (data : list Z) : list Z :=
  if (pgno =? 1) && (plaintext_header_sz ctx =? 0) then memcpy data 0 SQLITE_FILE_HEADER else data.

Lemma write_result salt_mask ctx data pgno w data' ctx' w' :
  let off := page_offset ctx pgno in
  let no := Z.to_nat off in
  let ns := Z.to_nat (page_sz ctx - off - reserve_sz ctx) in
  codec_wf ctx -> header_ok ctx -> keys_ready ctx -> error ctx = SQLITE_OK ->
  SQLCIPHER_FLAG_GET (flags ctx) CIPHER_FLAG_HAS_KDF_SALT = true ->
  Z.of_nat (length data) = page_sz ctx ->
  sqlite3Codec salt_mask ctx data pgno CODEC_WRITE_OP w = Some (OutBuffer, data', ctx', w') ->
  exists b, ctx' = set_key_used (put_buffer b ctx) /\ data' = data /\ Z.of_nat (length b) = page_sz ctx
    /\ (pgno = 1 -> firstn no b = firstn no (if plaintext_header_sz ctx =? 0 then snd (kdf_salt ctx) else data))
    /\ ((pgno = 1 /\ page_sz ctx - off = reserve_sz ctx)
        \/ sealed ctx (write_ctx ctx) pgno ns (firstn ns (skipn no data)) (skipn no b)).
Proof.
  intros off no ns Hw Hh Hrd He Hsalt Ld H. unfold sqlite3Codec in H. rewrite He in H.
  cbn [Z.eqb SQLITE_OK negb] in H. rewrite key_derive_ready in H by exact Hrd. cbn [Z.eqb negb SQLITE_OK] in H.
  destruct Hh as [Hh1 Hh2]. destruct (Z.ltb_spec (plaintext_header_sz ctx) 0); [lia|].
  cbn [CODEC_WRITE_OP CODEC_READ_OP CODEC_JOURNAL_OP Z.eqb Pos.eqb orb] in H.
  fold (page_offset ctx pgno) in H. fold off in H.
  assert (Es : sqlcipher_codec_ctx_get_kdf_salt P ctx w = (SQLITE_OK, snd (kdf_salt ctx), ctx, w))
    by (unfold sqlcipher_codec_ctx_get_kdf_salt, salt_step; now rewrite Hsalt).
  pose proof Hw as ((_ & _ & _ & Ls) & Hs & _ & _ & Hp & _). destruct (reserve_room ctx Hs) as (Hiv & _).
  set (salt := if pgno =? 1 then snd (kdf_salt ctx) else []).
  assert (Ep : (if pgno =? 1 then sqlcipher_codec_ctx_get_kdf_salt P ctx w else (SQLITE_OK, [], ctx, w))
             = (SQLITE_OK, salt, ctx, w)) by (unfold salt; destruct (pgno =? 1); [exact Es | reflexivity]).
  rewrite Ep in H. cbn [Z.eqb SQLITE_OK negb] in H.
  destruct (codec_crypt _ _ _ _ _ _ _ _) as [[[rc ctx1] w1]|] eqn:E; [|discriminate H].
  apply crypt_encrypted in E; try assumption; [|split; assumption|].
  - fold off no ns in E. destruct E as (b & -> & Lb & Bs & D). exists b.
    destruct D as [[-> D]| ->]; [|discriminate H]. cbn [Z.eqb SQLITE_OK negb] in H. injection H as <- <- _.
    split; [reflexivity|]. split; [reflexivity|]. split; [exact Lb|]. split; [|exact D].
    intros e. rewrite Bs by exact e. unfold salt. rewrite e. cbn [Z.eqb Pos.eqb].
    destruct (plaintext_header_sz ctx =? 0); reflexivity.
  - fold off no. intros ->. unfold salt, no, off, page_offset, FILE_HEADER_SZ in *. cbn [Z.eqb Pos.eqb].
    destruct (Z.eqb_spec (plaintext_header_sz ctx) 0); cbn [negb]; lia.
Qed.

(** Settings that have to be the same for two connections to one database. *)
Definition same_settings (ctx ctx2 : codec_ctx) : Prop :=
  same_format ctx ctx2 /\ page_sz ctx2 = page_sz ctx /\ plaintext_header_sz ctx2 = plaintext_header_sz ctx
  /\ block_sz ctx2 = block_sz ctx.

Lemma as_read_split ctx pgno data b :
  let off := page_offset ctx pgno in
  let no := Z.to_nat off in
  let ns := Z.to_nat (page_sz ctx - off - reserve_sz ctx) in
  0 <= off <= page_sz ctx - reserve_sz ctx -> 0 <= reserve_sz ctx -> 16 <= page_sz ctx ->
  Z.of_nat (length data) = page_sz ctx -> Z.of_nat (length b) = page_sz ctx ->
  (pgno = 1 -> firstn no b = firstn no (if plaintext_header_sz ctx =? 0 then SQLITE_FILE_HEADER else data)) ->
  firstn ns (skipn no b) = firstn ns (skipn no data) ->
  firstn (no + ns) b = firstn (no + ns) (as_read ctx pgno data).
Proof.
  intros off no ns Ho Hr Hp Ld Lb H1 H2. rewrite !firstn_plus, H2. unfold as_read.
  unfold no, off, page_offset in *. destruct (Z.eqb_spec pgno 1) as [e|]; [|reflexivity].
  rewrite H1 by exact e. destruct (Z.eqb_spec (plaintext_header_sz ctx) 0); [|reflexivity].
  cbn [negb andb]. change (Z.to_nat FILE_HEADER_SZ) with (length SQLITE_FILE_HEADER).
  rewrite firstn_memcpy_0 by reflexivity. now rewrite firstn_all.
Qed.

(** Page 1 on the disk starts with the salt, unless its header is in plain text. *)
Lemma written_salt salt_mask ctx data pgno w data' ctx' w' :
  codec_wf ctx -> header_ok ctx -> keys_ready ctx -> error ctx = SQLITE_OK ->
  SQLCIPHER_FLAG_GET (flags ctx) CIPHER_FLAG_HAS_KDF_SALT = true -> Z.of_nat (length data) = page_sz ctx ->
  sqlite3Codec salt_mask ctx data pgno CODEC_WRITE_OP w = Some (OutBuffer, data', ctx', w') ->
  pgno = 1 -> plaintext_header_sz ctx = 0 -> firstn 16 (snd (buffer ctx')) = snd (kdf_salt ctx).
Proof.
  intros Hw Hh Hrd He Hsalt Ld H -> H0.
  destruct (write_result _ _ _ _ _ _ _ _ Hw Hh Hrd He Hsalt Ld H) as (b & -> & _ & _ & Bs & _).
  specialize (Bs eq_refl). unfold page_offset in Bs. rewrite H0 in Bs. cbn in Bs.
  change (Pos.to_nat 16) with 16%nat in Bs. change (snd (buffer _)) with b. rewrite Bs. apply firstn_all2.
  pose proof Hw as ((_ & _ & _ & Ls) & _). unfold FILE_HEADER_SZ in Ls. lia.
Qed.

(** A page that one connection writes, another connection with the same keys reads. *)
Lemma written_page_reads salt_mask ctx ctx2 data pgno w w2 data' ctx' w' :
  let usable := Z.to_nat (page_sz ctx - reserve_sz ctx) in
  bytes mask -> codec_wf ctx -> header_ok ctx -> keys_ready ctx -> error ctx = SQLITE_OK ->
  SQLCIPHER_FLAG_GET (flags ctx) CIPHER_FLAG_HAS_KDF_SALT = true ->
  codec_wf ctx2 -> keys_ready ctx2 -> error ctx2 = SQLITE_OK -> same_settings ctx ctx2 ->
  same_keys ctx (write_ctx ctx) ctx2 (read_ctx ctx2) -> provider_up (hmac_algorithm ctx) ->
  bytes data -> Z.of_nat (length data) = page_sz ctx ->
  sqlite3Codec salt_mask ctx data pgno CODEC_WRITE_OP w = Some (OutBuffer, data', ctx', w') ->
  let page := snd (buffer ctx') in
  exists data2 ctx2' w2',
      sqlite3Codec salt_mask ctx2 page pgno CODEC_READ_OP w2 = Some (OutData, data2, ctx2', w2')
      /\ firstn usable data2 = firstn usable (as_read ctx pgno data) /\ error ctx2' = SQLITE_OK
      /\ key_used ctx2' = true.
Proof.
  intros usable Hm Hw Hh Hrd He Hsalt Hw2 Hrd2 He2 (Hfm & Esz & Ehd & Ebk) Hky Hup Bd Ld H page.
  destruct (write_result _ _ _ _ _ _ _ _ Hw Hh Hrd He Hsalt Ld H) as (b & -> & -> & Lb & Bs & D). clear H.
  change page with b. pose proof Hw as ((_ & _ & _ & Ls) & Hs & _ & _ & Hp & _).
  destruct (reserve_room ctx Hs) as (Hiv & _). pose proof Hfm as (_ & Er & _).
  destruct (offset_range ctx pgno Hw Hh) as [Ho _].
  assert (Hh2 : header_ok ctx2) by (destruct Hh; unfold header_ok; rewrite Esz, Ehd, Er, Ebk; auto).
  assert (Eo : page_offset ctx2 pgno = page_offset ctx pgno) by (unfold page_offset; now rewrite Ehd).
  unfold sqlite3Codec. rewrite He2. cbn [Z.eqb SQLITE_OK negb]. rewrite key_derive_ready by exact Hrd2.
  cbn [Z.eqb negb SQLITE_OK]. destruct (Z.ltb_spec (plaintext_header_sz ctx2) 0); [destruct Hh2; lia|].
  cbn [CODEC_READ_OP Z.eqb Pos.eqb]. fold (page_offset ctx2 pgno).
  set (no := Z.to_nat (page_offset ctx pgno)) in *.
  set (ns := Z.to_nat (page_sz ctx - page_offset ctx pgno - reserve_sz ctx)) in *.
  set (src := if negb _ then b else _).
  destruct (crypt_opened ctx (write_ctx ctx) ctx2 pgno src b (firstn ns (skipn no data)) w2)
    as (b2 & w3 & -> & Lb2 & Bs2 & D2); rewrite ?Eo, ?Esz, ?Er; try assumption; try lia.
  - intros ->. unfold src, page_offset, FILE_HEADER_SZ in *. rewrite Ehd in *. cbn [Z.eqb Pos.eqb] in *.
    destruct (plaintext_header_sz ctx =? 0); cbn [negb] in *; [cbn; lia|]. lia.
  - now apply bytes_firstn, bytes_skipn.
  - rewrite length_firstn, length_skipn. fold no ns. unfold no, ns in *. lia.
  - rewrite Eo, ?Esz, ?Er in *. fold no ns in Bs2, D2. cbn [Z.eqb SQLITE_OK negb].
    do 3 eexists. split; [reflexivity|]. cbn [set_key_used put_buffer buffer set_buffer set_flags snd page_sz error].
    split; [|split; [exact He2|]].
    + rewrite Esz, (firstn_all2 b2), memcpy_whole by lia.
      replace usable with (no + ns)%nat by (unfold usable, no, ns; lia).
      apply as_read_split; try assumption; try lia. intros e. fold no.
      rewrite Bs2 by exact e. unfold src. rewrite Ehd.
      destruct (Z.eqb_spec (plaintext_header_sz ctx) 0) as [e0|e0]; cbn [negb]; [reflexivity|].
      rewrite (Bs e). destruct (Z.eqb_spec (plaintext_header_sz ctx) 0); [contradiction | reflexivity].
    + unfold key_used, set_key_used. cbn [flags set_flags]. rewrite flag_or. apply orb_true_r.
Qed.

(** ** Every call of the pager *)

Context {MemL : MemoryLaws W}.

Lemma encrypted_total ctx fc pgno psz inp w :
  exists rc o w', encrypted ctx fc pgno psz inp w = Some (rc, o, ctx, w').
Proof.
  unfold encrypted, failed. destruct (p_random _ _ _) as [[[] r] w1]; cbn [negb]; [|eauto].
  destruct (p_cipher _ _ _ _ _ _) as [[y|] w2]; [|eauto].
  destruct (has_hmac ctx); [|eauto]. destruct (p_hmac _ _ _ _ _ _) as [[t|] w3]; eauto.
Qed.

Lemma page_cipher_total ctx fc pgno mode psz inp out w :
  settings_wf ctx -> keys_wf ctx (the_ctx fc ctx) -> reserve_sz ctx <= psz ->
  Z.of_nat (length out) = psz -> Z.of_nat (length inp) = psz ->
  mode = CIPHER_ENCRYPT \/ mode = CIPHER_DECRYPT ->
  exists rc o w', sqlcipher_page_cipher ctx fc pgno mode psz inp out w = Some (rc, o, ctx, w')
    /\ Z.of_nat (length o) = psz.
Proof.
  intros Hs Hk Hr Lo Li Hmode. destruct ((pgno =? 1) && (psz =? reserve_sz ctx)) eqn:F.
  - apply andb_prop in F. destruct F as [F1%Z.eqb_eq F2%Z.eqb_eq]. unfold sqlcipher_page_cipher.
    rewrite F1, F2, Z.sub_diag. cbn [Z.eqb Pos.eqb andb]. do 3 eexists. split; [reflexivity | lia].
  - destruct Hmode as [-> | ->].
    + destruct (encrypted_total ctx fc pgno psz inp w) as (rc & o & w' & E).
      rewrite <- (page_encrypt_eq ctx fc pgno psz inp out) in E by (assumption || lia).
      exists rc, o, w'. split; [exact E|].
      apply page_encrypted in E; try assumption; [|lia]. now destruct E as (_ & L & _).
    + destruct (page_decrypted ctx fc pgno psz inp out w) as (rc & o & w' & E & L & _); eauto.
Qed.

Lemma crypt_total ctx cctx pgno mode src data w :
  codec_wf ctx -> header_ok ctx -> Z.of_nat (length data) = page_sz ctx ->
  (pgno = 1 -> (Z.to_nat (page_offset ctx pgno) <= length src)%nat) ->
  mode = CIPHER_ENCRYPT \/ mode = CIPHER_DECRYPT ->
  exists rc b w', codec_crypt ctx cctx pgno mode (page_offset ctx pgno) src data w = Some (rc, put_buffer b ctx, w')
    /\ Z.of_nat (length b) = page_sz ctx.
Proof.
  intros Hw Hh Ld Hsrc Hmode. destruct (offset_range ctx pgno Hw Hh) as [Ho _].
  pose proof Hw as (_ & Hs & Hkr & Hkw & Hp & _ & Lb & _). destruct (reserve_room ctx Hs) as (Hiv & _).
  assert (Hk : keys_wf ctx (the_ctx cctx ctx)) by (unfold the_ctx; destruct (cctx =? 0); assumption).
  unfold codec_crypt. destruct (Z.ltb_spec (page_sz ctx) (page_offset ctx pgno)); [lia|].
  set (no := Z.to_nat (page_offset ctx pgno)) in *.
  destruct (crypt_buffer ctx pgno no src Hsrc ltac:(lia)) as [Bl _]. rewrite Lb in Bl.
  set (b := if pgno =? 1 then _ else _) in *.
  destruct (page_cipher_total ctx cctx pgno mode (page_sz ctx - page_offset ctx pgno) (skipn no data) (skipn no b) w)
    as (rc & o & w' & -> & Lo); try assumption; try (rewrite length_skipn; lia); try lia.
  exists rc, (firstn no b ++ o), w'. split; [reflexivity|]. rewrite length_app, length_firstn. lia.
Qed.

(** The invariant of a context that the pager uses. *)
Definition codec_inv (ctx : codec_ctx) : Prop :=
  codec_wf ctx /\ (plaintext_header_sz ctx < 0 \/ header_ok ctx)
  /\ (error ctx = SQLITE_OK -> pass_wf (read_ctx ctx) /\ pass_wf (write_ctx ctx)).

Lemma inv_buffer ctx b : codec_inv ctx -> Z.of_nat (length b) = page_sz ctx -> codec_inv (put_buffer b ctx).
Proof.
  intros ((Hz & Hs & Hr & Hw & Hp & H16 & Lb & Lh) & Hh & He) L. split; [|auto].
  exact (conj Hz (conj Hs (conj Hr (conj Hw (conj Hp (conj H16 (conj L Lh))))))).
Qed.

Lemma inv_wipe off ctx : codec_inv ctx -> codec_inv (wipe_buffer off ctx).
Proof.
  intros H. pose proof H as ((_ & _ & _ & _ & _ & _ & Lb & _) & _). apply inv_buffer; [exact H|].
  now rewrite length_sqlcipher_memset.
Qed.

Lemma has_hmac_used ctx : has_hmac (set_key_used ctx) = has_hmac ctx.
Proof. unfold has_hmac, set_key_used. cbn [flags set_flags]. rewrite flag_or. apply orb_false_r. Qed.

Lemma inv_used ctx : codec_inv ctx -> codec_inv (set_key_used ctx).
Proof.
  intros ((Hz & Hs & Hr & Hw & Hp & H16 & Lb & Lh) & Hh & He). split; [|auto].
  refine (conj Hz (conj _ (conj Hr (conj Hw (conj Hp (conj H16 (conj Lb Lh))))))).
  unfold settings_wf. rewrite has_hmac_used. exact Hs.
Qed.

Lemma inv_error e ctx : codec_inv ctx -> e <> SQLITE_OK -> codec_inv (set_error e ctx).
Proof. intros (Hw & Hh & He) Hne. split; [exact Hw|]. split; [exact Hh|]. cbn [error set_error]. contradiction. Qed.

Lemma wf_derived ctx ctx1 r wr : codec_wf ctx -> refreshed ctx ctx1 -> keys_wf ctx r -> keys_wf ctx wr ->
  let ctx' := set_write_ctx wr (set_read_ctx r ctx1) in
  codec_wf ctx' /\ (plaintext_header_sz ctx < 0 \/ header_ok ctx -> plaintext_header_sz ctx' < 0 \/ header_ok ctx')
  /\ error ctx' = error ctx /\ page_sz ctx' = page_sz ctx.
Proof.
  intros (Hz & Hs & _ & _ & Hp & H16 & Lb & Lh) R Kr Kw ctx'.
  pose proof (refreshed_sizes _ _ Hz R) as Hz'. pose proof (refreshed_salts _ _ Hz Lh R) as Lh'.
  pose proof (refreshed_hmac _ _ R) as Eh.
  split; [|destruct R as (? & ? & ? & -> & _); split; [exact (fun H => H) | auto]].
  destruct R as (f & s & h & -> & _).
  refine (conj Hz' (conj _ (conj Kr (conj Kw (conj Hp (conj H16 (conj Lb Lh'))))))).
  unfold settings_wf. change (has_hmac ctx') with (has_hmac (set_hmac_kdf_salt (fst (hmac_kdf_salt ctx), h)
    (set_flags f (set_kdf_salt (fst (kdf_salt ctx), s) ctx)))). rewrite Eh. exact Hs.
Qed.

Lemma inv_refreshed ctx ctx' : codec_inv ctx -> refreshed ctx ctx' -> codec_inv ctx'.
Proof.
  intros (Hw & Hh & He) R. pose proof Hw as (_ & _ & Hr & Hwr & _).
  destruct (wf_derived ctx ctx' (read_ctx ctx) (write_ctx ctx) Hw R Hr Hwr) as (W1 & H1 & E1 & _).
  assert (E : set_write_ctx (write_ctx ctx) (set_read_ctx (read_ctx ctx) ctx') = ctx')
    by (destruct R as (? & ? & ? & -> & _); destruct ctx; reflexivity).
  rewrite E in *. split; [exact W1|]. split; [auto|]. rewrite E1.
  destruct R as (? & ? & ? & -> & _). exact He.
Qed.

Lemma source_length ctx pgno (data salt : list Z) : codec_wf ctx -> header_ok ctx -> Z.of_nat (length data) = page_sz ctx ->
  (pgno = 1 -> length salt = 16%nat) -> pgno = 1 ->
  (Z.to_nat (page_offset ctx pgno)
   <= length (if negb (plaintext_header_sz ctx =? 0)%Z then data else salt))%nat.
Proof.
  intros (_ & Hs & _) [Hh _] Ld Ls ->. destruct (reserve_room ctx Hs) as (Hiv & _). specialize (Ls eq_refl).
  unfold page_offset, FILE_HEADER_SZ. cbn [Z.eqb Pos.eqb]. destruct (plaintext_header_sz ctx =? 0); cbn [negb]; lia.
Qed.

Lemma crypt_rc ctx cctx pgno mode off src data w rc ctx' w' :
  codec_crypt ctx cctx pgno mode off src data w = Some (rc, ctx', w') -> rc = SQLITE_OK \/ rc = SQLITE_ERROR.
Proof.
  unfold codec_crypt. destruct (page_sz ctx <? off); [discriminate|].
  destruct (sqlcipher_page_cipher _ _ _ _ _ _ _ _) as [[[[rc1 o] ctx1] w1]|] eqn:E; [|discriminate].
  intros H. injection H as <- _ _. unfold sqlcipher_page_cipher in E.
  repeat match type of E with
  | Some _ = Some _ => injection E as <- _ _ _; auto
  | None = Some _ => discriminate E
  | context [if ?b then _ else _] => destruct b
  | context [match p_random ?a ?b ?c with _ => _ end] => destruct (p_random a b c) as [[? ?] ?]
  | context [match p_cipher ?a ?b ?c ?d ?e ?f with _ => _ end] => destruct (p_cipher a b c d e f) as [[?|] ?]
  | context [match sqlcipher_page_hmac ?a ?b ?c ?d ?e ?f with _ => _ end] =>
      destruct (sqlcipher_page_hmac a b c d e f) as [[[?|] ?] ?]
  end.
Qed.

(** A result of a call that keeps the invariant. *)
Definition good_result (ctx : codec_ctx) (data : list Z) (r : option (codec_out * list Z * codec_ctx * W)) : Prop :=
  exists o data' ctx' w', r = Some (o, data', ctx', w')
    /\ codec_inv ctx' /\ page_sz ctx' = page_sz ctx /\ length data' = length data
    /\ (o = OutNull -> error ctx' <> SQLITE_OK /\ data' = data)
    /\ (o = OutBuffer -> error ctx' = SQLITE_OK /\ key_used ctx' = true /\ data' = data).

Lemma stop_good ctx data e w : codec_inv ctx -> e <> SQLITE_OK ->
  good_result ctx data
    (let '(ctx, w) := sqlcipher_codec_ctx_set_error ctx e w in Some (OutNull, data, ctx, w)).
Proof.
  intros H He. do 4 eexists. split; [reflexivity|]. split; [now apply inv_error|].
  split; [reflexivity|]. split; [reflexivity|]. split; [auto | discriminate].
Qed.

Lemma used_flag ctx : key_used (set_key_used ctx) = true.
Proof. unfold key_used, set_key_used. cbn [flags set_flags]. rewrite flag_or. apply orb_true_r. Qed.

Lemma read_good ctx pgno data w :
  codec_inv ctx -> header_ok ctx -> Z.of_nat (length data) = page_sz ctx ->
  good_result ctx data
    (let offset := page_offset ctx pgno in
     match codec_crypt ctx CIPHER_READ_CTX pgno CIPHER_DECRYPT offset
             (if negb (plaintext_header_sz ctx =? 0) then data else SQLITE_FILE_HEADER) data w with
     | None => None
     | Some (rc, ctx, w) =>
         let '(ctx, w) :=
           if negb (rc =? SQLITE_OK) then
             let ctx := wipe_buffer offset ctx in
             if plaintext_header_sz ctx =? page_sz ctx - reserve_sz ctx then (ctx, w)
             else sqlcipher_codec_ctx_set_error ctx rc w
           else (set_key_used ctx, w) in
         Some (OutData, memcpy data 0 (firstn (Z.to_nat (page_sz ctx)) (snd (buffer ctx))), ctx, w)
     end).
Proof.
  intros Hi Hh Ld. cbv zeta. pose proof Hi as (Hw & _).
  destruct (crypt_total ctx CIPHER_READ_CTX pgno CIPHER_DECRYPT
    (if negb (plaintext_header_sz ctx =? 0) then data else SQLITE_FILE_HEADER) data w Hw Hh Ld)
    as (rc & b & w1 & E & Lb); [now apply source_length | now right |].
  rewrite E. apply crypt_rc in E. pose proof (inv_buffer ctx b Hi Lb) as Hi1.
  set (ctx1 := put_buffer b ctx) in *.
  match goal with |- good_result _ _ (let '(c, v) := ?t in _) => destruct t as [ctx2 w2] eqn:E2 end.
  assert (H2 : codec_inv ctx2 /\ page_sz ctx2 = page_sz ctx).
  { destruct E as [-> | ->]; cbn [Z.eqb SQLITE_OK SQLITE_ERROR Pos.eqb negb] in E2.
    - injection E2 as <- _. split; [now apply inv_used | reflexivity].
    - destruct (_ =? _) in E2; injection E2 as <- _; [split; [now apply inv_wipe | reflexivity]|].
      split; [apply inv_error; [now apply inv_wipe | discriminate] | reflexivity]. }
  destruct H2 as [Hi2 Ez]. pose proof Hi2 as ((_ & _ & _ & _ & _ & _ & Lb2 & _) & _).
  do 4 eexists. split; [reflexivity|]. split; [exact Hi2|]. split; [exact Ez|].
  split; [|split; discriminate]. apply length_memcpy. rewrite length_firstn. lia.
Qed.

Lemma write_good ctx cctx pgno data w :
  codec_inv ctx -> header_ok ctx -> error ctx = SQLITE_OK -> Z.of_nat (length data) = page_sz ctx ->
  good_result ctx data
    (let stop ctx err w :=
       let '(ctx, w) := sqlcipher_codec_ctx_set_error ctx err w in Some (OutNull, data, ctx, w) in
     let offset := page_offset ctx pgno in
     let plain := negb (plaintext_header_sz ctx =? 0) in
     let '(rc, salt, ctx, w) :=
       if pgno =? 1 then sqlcipher_codec_ctx_get_kdf_salt P ctx w else (SQLITE_OK, [], ctx, w) in
     if negb (rc =? SQLITE_OK) then stop ctx rc w
     else
       match codec_crypt ctx cctx pgno CIPHER_ENCRYPT offset (if plain then data else salt) data w with
       | None => None
       | Some (rc, ctx, w) =>
           if negb (rc =? SQLITE_OK) then stop (wipe_buffer offset ctx) rc w
           else Some (OutBuffer, data, set_key_used ctx, w)
       end).
Proof.
  intros Hi Hh He Ld. cbv zeta. pose proof Hi as (Hw & _ & Hp). pose proof Hw as (Hz & _).
  destruct (if pgno =? 1 then _ else _) as [[[rc salt] ctx1] w1] eqn:ES.
  assert (S : refreshed ctx ctx1 /\ (pgno = 1 -> length salt = 16%nat)).
  { destruct (Z.eqb_spec pgno 1); [|injection ES as _ <- <- _; split; [now apply refreshed_refl | contradiction]].
    unfold sqlcipher_codec_ctx_get_kdf_salt in ES. destruct (salt_step P ctx w) as [[rc2 ctx2] w2] eqn:E2.
    injection ES as <- <- <- <-. pose proof (salt_step_refreshed P _ _ _ _ _ Hz E2) as R. split; [exact R|].
    intros _. apply refreshed_sizes in R; [|exact Hz]. destruct R as (_ & _ & _ & L). unfold FILE_HEADER_SZ in L. lia. }
  destruct S as [R Ls]. pose proof (inv_refreshed _ _ Hi R) as Hi1.
  assert (F : page_sz ctx1 = page_sz ctx /\ plaintext_header_sz ctx1 = plaintext_header_sz ctx
    /\ header_ok ctx1 /\ error ctx1 = error ctx) by (destruct R as (? & ? & ? & -> & _); auto).
  destruct F as (Ez & Eh & Hh1 & Ee). assert (Eo : page_offset ctx1 pgno = page_offset ctx pgno)
    by (unfold page_offset; now rewrite Eh).
  assert (Lift : forall r, good_result ctx1 data r -> good_result ctx data r)
    by (intros r (o & d & c & v & G); exists o, d, c, v; rewrite <- Ez; exact G).
  destruct (Z.eqb_spec rc SQLITE_OK); cbn [negb]; [|apply Lift, stop_good; assumption].
  rewrite <- Eo, <- Eh. rewrite <- Ez in Ld. pose proof Hi1 as (Hw1 & _).
  destruct (crypt_total ctx1 cctx pgno CIPHER_ENCRYPT (if negb (plaintext_header_sz ctx1 =? 0) then data else salt)
    data w1 Hw1 Hh1 Ld) as (rc' & b & w2 & E & Lb); [now apply source_length | now left |].
  rewrite E. apply crypt_rc in E. pose proof (inv_buffer ctx1 b Hi1 Lb) as Hi2.
  destruct E as [-> | ->]; cbn [Z.eqb SQLITE_OK SQLITE_ERROR Pos.eqb negb].
  - do 4 eexists. split; [reflexivity|]. split; [now apply inv_used|]. split; [exact Ez|]. split; [reflexivity|].
    split; [discriminate|]. intros _. split; [now rewrite <- He|]. split; [apply used_flag | reflexivity].
  - apply Lift. destruct (stop_good (wipe_buffer (page_offset ctx1 pgno) (put_buffer b ctx1)) data SQLITE_ERROR w2)
      as (o & d & c & v & G); [now apply inv_wipe | discriminate |]. exists o, d, c, v. exact G.
Qed.

Lemma codec_good salt_mask ctx data pgno mode w :
  bytes mask -> codec_inv ctx -> Z.of_nat (length data) = page_sz ctx ->
  good_result ctx data (sqlite3Codec salt_mask ctx data pgno mode w).
Proof.
  intros Hm Hi Ld. unfold sqlite3Codec. destruct (Z.eqb_spec (error ctx) SQLITE_OK) as [He|He]; cbn [negb];
    [|now apply stop_good].
  destruct Hi as (Hw & Hh & Hp). destruct (Hp He) as [Pr Pw]. pose proof Hw as (Hz & _ & Kr & Kw & _ & _ & _ & Lh).
  destruct (codec_key_derive_wf P mask salt_mask ctx w Hm Hz Kr Kw Lh Pr Pw)
    as (rc & ctx1 & r & wr & w1 & -> & R & Kr' & Kw' & D).
  destruct (wf_derived ctx ctx1 r wr Hw R Kr' Kw') as (Hw1 & Hh1 & Ee & Ez).
  set (ctx' := set_write_ctx wr (set_read_ctx r ctx1)) in *. specialize (Hh1 Hh).
  assert (Lift : forall x, good_result ctx' data x -> good_result ctx data x)
    by (intros x (o & d & c & v & G); exists o, d, c, v; rewrite <- Ez; exact G).
  apply Lift. destruct D as [(-> & _ & _ & Pr' & Pw')| ->]; cbn [Z.eqb SQLITE_OK SQLITE_ERROR Pos.eqb negb].
  2:{ do 4 eexists. split; [reflexivity|]. split; [split; [exact Hw1|]; split; [exact Hh1 | discriminate]|].
      split; [reflexivity|]. split; [reflexivity|]. split; [split; [discriminate | reflexivity] | discriminate]. }
  assert (Hi' : codec_inv ctx') by (split; [exact Hw1|]; split; [exact Hh1 | intros _; split; assumption]).
  destruct (Z.ltb_spec (plaintext_header_sz ctx') 0); [apply stop_good; [exact Hi' | discriminate]|].
  destruct Hh1 as [|Hh1]; [lia|]. fold (page_offset ctx' pgno). rewrite <- Ez in Ld.
  destruct (mode =? CODEC_READ_OP); [now apply read_good|].
  destruct (_ || _); [apply (write_good ctx'); auto; congruence|].
  do 4 eexists. split; [reflexivity|]. split; [apply inv_error; [exact Hi' | discriminate]|].
  split; [reflexivity|]. split; [reflexivity|]. split; discriminate.
Qed.

(** C5: The function that the pager calls is safe for every page number and mode: started in a
    well-formed context it ends, without an access outside of the buffers and without comparing
    a missing passphrase, in a well-formed context of the same page size; when it returns
    nothing, the error is recorded and the page is as before; it returns its buffer only without
    error, and then the key is marked as used and the page of the caller is as before. *)
Theorem codec_call_safe salt_mask ctx data pgno mode w :
  bytes mask -> codec_inv ctx -> Z.of_nat (length data) = page_sz ctx ->
  exists o data' ctx' w', sqlite3Codec salt_mask ctx data pgno mode w = Some (o, data', ctx', w')
    /\ codec_inv ctx' /\ page_sz ctx' = page_sz ctx /\ length data' = length data
    /\ (o = OutNull -> error ctx' <> SQLITE_OK /\ data' = data)
    /\ (o = OutBuffer -> error ctx' = SQLITE_OK /\ key_used ctx' = true /\ data' = data).
Proof. intros Hm Hi Ld. exact (codec_good salt_mask ctx data pgno mode w Hm Hi Ld). Qed.

(** A sequence of calls. *)
Fixpoint codec_run (salt_mask : Z) (ctx : codec_ctx) (calls : list (list Z * Z * Z)) (w : W)
    : option (list codec_out * codec_ctx * W) :=
  match calls with
  | [] => Some ([], ctx, w)
  | (data, pgno, mode) :: calls =>
      match sqlite3Codec salt_mask ctx data pgno mode w with
      | None => None
      | Some (o, _, ctx, w) =>
          match codec_run salt_mask ctx calls w with
          | None => None
          | Some (os, ctx, w) => Some (o :: os, ctx, w)
          end
      end
  end.

Lemma run_error salt_mask calls : forall ctx w, error ctx <> SQLITE_OK ->
  exists w', codec_run salt_mask ctx calls w = Some (repeat OutNull (length calls), ctx, w').
Proof.
  induction calls as [|[[data pgno] mode] calls IH]; intros ctx w He; cbn [codec_run length repeat]; [eauto|].
  unfold sqlite3Codec, sqlcipher_codec_ctx_set_error. rewrite (proj2 (Z.eqb_neq _ _) He). cbn [negb].
  replace (set_error (error ctx) ctx) with ctx by (destruct ctx; reflexivity).
  destruct (IH ctx (s_pager_error (error ctx) w) He) as (w' & ->). eauto.
Qed.

(** C29: A whole history of calls, with any page numbers and modes, runs without an access
    outside of the buffers and leaves a well-formed context; an error is final: from the first
    call that returns nothing on, every call returns nothing, so no page is written and no data
    is handed out after it. *)
Theorem codec_history_safe salt_mask ctx calls w :
  bytes mask -> codec_inv ctx -> Forall (fun c => Z.of_nat (length (fst (fst c))) = page_sz ctx) calls ->
  exists os ctx' w', codec_run salt_mask ctx calls w = Some (os, ctx', w') /\ codec_inv ctx'
    /\ exists live n, os = live ++ repeat OutNull n /\ Forall (fun o => o <> OutNull) live.
Proof.
  intros Hm. revert ctx w. induction calls as [|[[data pgno] mode] calls IH]; intros ctx w Hi Hc; cbn [codec_run].
  - do 3 eexists. split; [reflexivity|]. split; [exact Hi|]. exists [], 0%nat. auto.
  - apply Forall_cons_iff in Hc. destruct Hc as [Ld Hc]. cbn [fst] in Ld.
    destruct (codec_good salt_mask ctx data pgno mode w Hm Hi Ld)
      as (o & data' & ctx1 & w1 & -> & Hi1 & Ez & _ & HN & HB).
    assert (K : o <> OutNull \/ o = OutNull) by (destruct o; [right|left|left]; congruence).
    destruct K as [K| ->].
    + destruct (IH ctx1 w1 Hi1) as (os & ctx2 & w2 & -> & Hi2 & live & n & -> & F); [now rewrite Ez|].
      do 3 eexists. split; [reflexivity|]. split; [exact Hi2|]. exists (o :: live), n. auto.
    + destruct (run_error salt_mask calls ctx1 w1) as (w2 & ->); [now apply HN|].
      do 3 eexists. split; [reflexivity|]. split; [exact Hi1|]. exists [], (S (length calls)). auto.
Qed.

Lemma four_inj (a b c d a' b' c' d' : Z) :
  [a; b; c; d] = [a'; b'; c'; d'] -> a = a' /\ b = b' /\ c = c' /\ d = d'.
Proof. intros H. injection H. auto. Qed.

Lemma u32_digits v : is_u32 v ->
  v = u8 v + 2 ^ 8 * u8 (Z.shiftr v 8) + 2 ^ 16 * u8 (Z.shiftr v 16) + 2 ^ 24 * u8 (Z.shiftr v 24).
Proof.
  intros Hv. unfold is_u32 in Hv. rewrite !u8_mod, !Z.shiftr_div_pow2 by lia.
  change (2 ^ 24) with (256 * (256 * 256)). change (2 ^ 16) with (256 * 256). change (2 ^ 8) with 256.
  rewrite <- !Z.div_div by lia. pose proof (Z.div_mod v 256). pose proof (Z.div_mod (v / 256) 256).
  pose proof (Z.div_mod (v / 256 / 256) 256).
  assert (v / 256 / 256 / 256 < 256) by (repeat apply Z.div_lt_upper_bound; lia).
  assert (0 <= v / 256 / 256 / 256) by (repeat apply Z.div_pos; lia).
  rewrite (Z.mod_small (v / 256 / 256 / 256)) by lia. lia.
Qed.

Lemma pgno_raw_inj ctx p q : is_u32 p -> is_u32 q -> pgno_raw ctx p = pgno_raw ctx q -> p = q.
Proof.
  intros Hp Hq H.
  assert (E : u8 p = u8 q /\ u8 (Z.shiftr p 8) = u8 (Z.shiftr q 8) /\ u8 (Z.shiftr p 16) = u8 (Z.shiftr q 16)
    /\ u8 (Z.shiftr p 24) = u8 (Z.shiftr q 24)).
  { unfold pgno_raw in H. destruct (SQLCIPHER_FLAG_GET (flags ctx) CIPHER_FLAG_LE_PGNO),
      (SQLCIPHER_FLAG_GET (flags ctx) CIPHER_FLAG_BE_PGNO), host_le; apply four_inj in H; tauto. }
  destruct E as (E0 & E1 & E2 & E3). rewrite (u32_digits p Hp), (u32_digits q Hq), E0, E1, E2, E3. reflexivity.
Qed.

Lemma page_accepted ctx fc pgno psz page out w out' ctx' w' :
  let c := the_ctx fc ctx in
  let n := Z.to_nat (psz - reserve_sz ctx + iv_sz ctx) in
  settings_wf ctx -> keys_wf ctx c -> has_hmac ctx = true -> reserve_sz ctx < psz ->
  Z.of_nat (length out) = psz -> Z.of_nat (length page) = psz -> page <> memset 0 (Z.to_nat psz) ->
  sqlcipher_page_cipher ctx fc pgno CIPHER_DECRYPT psz page out w = Some (SQLITE_OK, out', ctx', w') ->
  slice page n (Z.to_nat (hmac_sz ctx)) = page_mac ctx c pgno (firstn n page).
Proof.
  intros c n Hs Hk Hh Hr Lo Lp Hnz H. destruct (reserve_room ctx Hs) as (Hiv & _).
  destruct (page_decrypted ctx fc pgno psz page out w) as (rc & o & w1 & E & _ & D); try assumption; try lia.
  rewrite E in H. injection H as -> _ _ _.
  replace n with (Z.to_nat (psz - reserve_sz ctx) + Z.to_nat (iv_sz ctx))%nat by (unfold n; lia).
  destruct D as [(_ & D & _)|[(_ & _ & D & _)|[D _]]]; [auto | contradiction | discriminate].
Qed.

(** C28: The number of a page is part of what is authenticated: a page (not all zero) that is
    accepted under one number is rejected under every other one, and nothing but zeros is handed
    out for it, provided the authentication code tells the two messages, which are shown to
    differ, apart.  So pages of a file cannot change places. *)
Theorem page_number_bound ctx fc p q psz page out1 out2 w1 w2 o1 ctx1 v1 :
  let k := plain_hmac_key ctx (the_ctx fc ctx) in
  let m r := firstn (Z.to_nat (psz - reserve_sz ctx + iv_sz ctx)) page ++ pgno_raw ctx r in
  settings_wf ctx -> keys_wf ctx (the_ctx fc ctx) -> has_hmac ctx = true -> reserve_sz ctx < psz ->
  Z.of_nat (length out1) = psz -> Z.of_nat (length out2) = psz -> Z.of_nat (length page) = psz ->
  page <> memset 0 (Z.to_nat psz) -> is_u32 p -> is_u32 q -> p <> q ->
  sqlcipher_page_cipher ctx fc p CIPHER_DECRYPT psz page out1 w1 = Some (SQLITE_OK, o1, ctx1, v1) ->
  (m p <> m q -> mac (hmac_algorithm ctx) k (m p) <> mac (hmac_algorithm ctx) k (m q)) ->
  exists v2, sqlcipher_page_cipher ctx fc q CIPHER_DECRYPT psz page out2 w2
             = Some (SQLITE_ERROR, memset 0 (Z.to_nat psz), ctx, v2).
Proof.
  intros k m Hs Hk Hh Hr L1 L2 Lp Hnz Hp Hq Hne H1 Hm. apply page_accepted in H1; try assumption.
  destruct (page_decrypted ctx fc q psz page out2 w2) as (rc & o & v2 & E & _ & D); try assumption; try lia.
  exists v2. rewrite E. destruct D as [(-> & _)|[(_ & _ & D & _)|[-> ->]]]; [exfalso | contradiction | reflexivity].
  apply page_accepted in E; try assumption. apply Hm; [|exact (eq_trans (eq_sym H1) E)].
  intros Em. apply app_inv_head, pgno_raw_inj in Em; auto.
Qed.

(** The decryption of a page of the pager. *)
Lemma crypt_decrypted ctx pgno src page w :
  let off := page_offset ctx pgno in
  let no := Z.to_nat off in
  let ns := Z.to_nat (page_sz ctx - off - reserve_sz ctx) in
  let ni := Z.to_nat (iv_sz ctx) in
  let rest := Z.to_nat (page_sz ctx - off) in
  codec_wf ctx -> header_ok ctx -> Z.of_nat (length page) = page_sz ctx -> has_hmac ctx = true ->
  (pgno = 1 -> (no <= length src)%nat) -> (pgno = 1 -> off < page_sz ctx - reserve_sz ctx) ->
  exists rc b w', codec_crypt ctx CIPHER_READ_CTX pgno CIPHER_DECRYPT off src page w = Some (rc, put_buffer b ctx, w')
    /\ Z.of_nat (length b) = page_sz ctx
    /\ (rc = SQLITE_OK
        /\ slice page (no + ns + ni) (Z.to_nat (hmac_sz ctx))
           = page_mac ctx (read_ctx ctx) pgno (slice page no (ns + ni))
        /\ slice b no ns = dec (plain_key ctx (read_ctx ctx)) (slice page (no + ns) ni) (slice page no ns)
        \/ rc = SQLITE_OK /\ skipn no page = memset 0 rest /\ skipn no b = memset 0 rest
        \/ rc = SQLITE_ERROR).
Proof.
  intros off no ns ni rest Hw Hh Lp Hhm Hsrc Hnp. destruct (offset_range ctx pgno Hw Hh) as [Ho _]. fold off in Ho.
  pose proof Hw as (_ & Hs & Hkr & _ & Hp & _ & Lb & _). destruct (reserve_room ctx Hs) as (Hiv & _).
  unfold codec_crypt. fold no. destruct (Z.ltb_spec (page_sz ctx) off); [lia|].
  destruct (crypt_buffer ctx pgno no src Hsrc ltac:(lia)) as [Bl _]. rewrite Lb in Bl.
  set (b := if pgno =? 1 then _ else _) in *.
  assert (Ln : length (firstn no b) = no) by (rewrite length_firstn; lia).
  destruct (page_decrypted ctx CIPHER_READ_CTX pgno (page_sz ctx - off) (skipn no page) (skipn no b) w)
    as (rc & o & w1 & -> & Lo & D); try assumption; try (rewrite length_skipn; lia); try lia.
  exists rc, (firstn no b ++ o), w1. split; [reflexivity|]. rewrite length_app. split; [lia|].
  unfold slice in *. rewrite !skipn_app_l by exact Ln. rewrite !skipn_skipn in D.
  fold ns ni in D. rewrite (Nat.add_comm (ns + ni) no), (Nat.add_comm ns no), Nat.add_assoc in D.
  destruct D as [(-> & D1 & D2)|[(-> & _ & D1 & D2)|[-> _]]]; auto.
Qed.

(** C2: What the pager reads of a page with authentication is one of three things: a page whose
    stored code is that of its data, initial vector and number, decrypted; zeros for a page of
    zeros (read past the end of the file); or zeros in place of a page that failed the test, and
    then the error is recorded, so that every later call fails, unless the whole of page 1 is in
    plain text (recovery).  No byte of a rejected page gets through. *)
Theorem codec_read_verdict salt_mask ctx page pgno w :
  let off := page_offset ctx pgno in
  let no := Z.to_nat off in
  let ns := Z.to_nat (page_sz ctx - off - reserve_sz ctx) in
  let ni := Z.to_nat (iv_sz ctx) in
  let zeros := memset 0 (Z.to_nat (page_sz ctx - off)) in
  codec_wf ctx -> header_ok ctx -> keys_ready ctx -> error ctx = SQLITE_OK -> has_hmac ctx = true ->
  Z.of_nat (length page) = page_sz ctx -> (pgno = 1 -> off < page_sz ctx - reserve_sz ctx) ->
  exists data ctx' w', sqlite3Codec salt_mask ctx page pgno CODEC_READ_OP w = Some (OutData, data, ctx', w')
    /\ (slice page (no + ns + ni) (Z.to_nat (hmac_sz ctx))
          = page_mac ctx (read_ctx ctx) pgno (slice page no (ns + ni))
        /\ slice data no ns = dec (plain_key ctx (read_ctx ctx)) (slice page (no + ns) ni) (slice page no ns)
        /\ error ctx' = SQLITE_OK
        \/ skipn no page = zeros /\ skipn no data = zeros /\ error ctx' = SQLITE_OK
        \/ skipn no data = zeros
           /\ (error ctx' = SQLITE_ERROR \/ plaintext_header_sz ctx = page_sz ctx - reserve_sz ctx)).
Proof.
  intros off no ns ni zeros Hw Hh Hrd He Hhm Lp Hnp. unfold sqlite3Codec. rewrite He. cbn [Z.eqb SQLITE_OK negb].
  rewrite key_derive_ready by exact Hrd. cbn [Z.eqb negb SQLITE_OK]. pose proof Hh as [Hh0 _].
  destruct (Z.ltb_spec (plaintext_header_sz ctx) 0); [lia|]. cbn [CODEC_READ_OP Z.eqb Pos.eqb].
  fold (page_offset ctx pgno). fold off. set (src := if negb _ then page else _).
  destruct (crypt_decrypted ctx pgno src page w) as (rc & b & w1 & E & Lb & D); try assumption.
  { unfold src. now apply source_length. }
  fold off no ns ni in E, D. rewrite E. destruct (offset_range ctx pgno Hw Hh) as [Ho _]. fold off in Ho.
  pose proof Hw as (_ & Hs & _). destruct (reserve_room ctx Hs) as (Hiv & _).
  assert (Out : forall d, Z.of_nat (length d) = page_sz ctx ->
     memcpy page 0 (firstn (Z.to_nat (page_sz ctx)) d) = d)
    by (intros d Ld; rewrite firstn_all2 by lia; apply memcpy_whole; lia).
  destruct D as [(-> & D1 & D2)|[(-> & D1 & D2)| ->]]; cbn [Z.eqb SQLITE_OK SQLITE_ERROR Pos.eqb negb].
  - do 3 eexists. split; [reflexivity|]. left. cbn [page_sz buffer set_key_used put_buffer set_buffer set_flags snd].
    rewrite Out by exact Lb. auto.
  - do 3 eexists. split; [reflexivity|]. right. left.
    cbn [page_sz buffer set_key_used put_buffer set_buffer set_flags snd]. rewrite Out by exact Lb. auto.
  - set (ctx2 := wipe_buffer off (put_buffer b ctx)).
    assert (Bz : skipn no (snd (buffer ctx2)) = zeros /\ Z.of_nat (length (snd (buffer ctx2))) = page_sz ctx).
    { unfold ctx2, wipe_buffer, put_buffer. cbn [buffer set_buffer snd page_sz]. rewrite length_sqlcipher_memset.
      split; [|exact Lb]. fold no. rewrite sqlcipher_memset_memcpy by lia.
      rewrite skipn_memcpy_at by (rewrite ?length_memset; lia).
      rewrite length_memset, skipn_all2, app_nil_r by lia. reflexivity. }
    destruct Bz as [Bz Lz].
    destruct (Z.eqb_spec (plaintext_header_sz ctx2) (page_sz ctx2 - reserve_sz ctx2)) as [e|e];
      do 3 eexists; (split; [reflexivity|]); right; right; cbn [page_sz buffer set_error];
      change (page_sz ctx2) with (page_sz ctx); rewrite Out by exact Lz; (split; [exact Bz|]);
      [right; exact e | left; reflexivity].
Qed.
End Page.
