(* ===== verification/ScReopen.v ===== *)
(** * SQLCipher: one database, two connections

    What the parts give together: a database written under a passphrase is read by a connection
    that knows the passphrase and has only the file, from whose first bytes it takes the salt
    (key derivation of [ScKeys], pages of [ScPage]). *)

From Stdlib Require Import ZArith Lia List Bool.
From S2P Require Import Prelude ScBytes ScHeap ScProvider ScContext ScKeys ScPage.
Import ListNotations.
Local Open Scope Z_scope.

Section Reopen.
Context {W : Type} {Mem : Memory W} {St : Store W} (P : sqlcipher_provider W).
Context (mask : list Z) (host_le : bool).
Context {StL : StoreLaws W} {PL : ProviderLaws P} {MemL : MemoryLaws W}.

(** The salt from the start of the file. *)
Lemma salt_from_file ctx w s w1 :
  SQLCIPHER_FLAG_GET (flags ctx) CIPHER_FLAG_HAS_KDF_SALT = false -> sizes_wf ctx ->
  s_open w = true -> s_read FILE_HEADER_SZ 0 w = (true, s, w1) ->
  salt_step P ctx w
  = (SQLITE_OK, set_flags (SQLCIPHER_FLAG_SET (flags ctx) CIPHER_FLAG_HAS_KDF_SALT)
                  (set_kdf_salt (fst (kdf_salt ctx), s) ctx), w1).
Proof.
  intros Hf (_ & Hz & _ & Ls) Ho Hr. unfold salt_step, sqlcipher_codec_ctx_init_kdf_salt.
  rewrite Hf, Ho, Hz, Hr. destruct (read_bytes _ _ _ _ _ _ Hr) as [_ L].
  rewrite memcpy_whole by (rewrite L; unfold FILE_HEADER_SZ in *; lia). reflexivity.
Qed.

Lemma refreshed_settings ctx ctx' r wr : refreshed ctx ctx' ->
  same_settings host_le ctx (set_write_ctx wr (set_read_ctx r ctx')).
Proof.
  intros (f & s & h & -> & Hf & _). unfold same_settings, same_format, has_hmac, pgno_raw.
  cbn [iv_sz reserve_sz hmac_sz hmac_algorithm flags page_sz plaintext_header_sz block_sz
       set_write_ctx set_read_ctx set_hmac_kdf_salt set_flags set_kdf_salt].
  assert (F : forall b, b = CIPHER_FLAG_HMAC \/ b = CIPHER_FLAG_LE_PGNO \/ b = CIPHER_FLAG_BE_PGNO ->
     SQLCIPHER_FLAG_GET f b = SQLCIPHER_FLAG_GET (flags ctx) b).
  { intros b Hb. destruct Hf as [-> | ->]; [reflexivity|]. rewrite flag_or.
    destruct Hb as [-> |[-> | ->]]; apply orb_false_r. }
  rewrite !F by auto. repeat split; reflexivity.
Qed.

Lemma same_settings_trans a b c : same_settings host_le a b -> same_settings host_le b c -> same_settings host_le a c.
Proof.
  intros ((A1 & A2 & A3 & A4 & A5 & A6) & A7 & A8 & A9) ((B1 & B2 & B3 & B4 & B5 & B6) & B7 & B8 & B9).
  unfold same_settings, same_format. repeat split; congruence.
Qed.

(** A call after the derivation of keys. *)
Lemma codec_after_derive salt_mask ctx data pgno mode w ctx1 w1 :
  error ctx = SQLITE_OK -> error ctx1 = SQLITE_OK -> keys_ready ctx1 ->
  sqlcipher_codec_key_derive P mask salt_mask ctx w = Some (SQLITE_OK, ctx1, w1) ->
  sqlite3Codec P mask host_le salt_mask ctx data pgno mode w
  = sqlite3Codec P mask host_le salt_mask ctx1 data pgno mode w1.
Proof.
  intros He He1 Hrd Hd. unfold sqlite3Codec. rewrite He, He1, Hd, key_derive_ready by exact Hrd. reflexivity.
Qed.

(** A context whose keys, for writing, are those of a passphrase and its salt. *)
Definition keys_of_pass (salt_mask : Z) (ctx : codec_ctx) (p : list Z) : Prop :=
  let k := derive (kdf_algorithm ctx) p (snd (kdf_salt ctx)) (kdf_iter ctx) (key_sz ctx) in
  plain_key mask ctx (write_ctx ctx) = k
  /\ (has_hmac ctx = true ->
      plain_hmac_key mask ctx (write_ctx ctx) = authentication_key P salt_mask ctx k).

(** A new connection that knows the passphrase [p], as [sqlcipher_codec_ctx_init] leaves it. *)
Definition fresh (ctx : codec_ctx) (p : list Z) : Prop :=
  forall c, c = read_ctx ctx \/ c = write_ctx ctx ->
    awaits_keys c /\ snd (pass c) = p /\ pass_sz c = Z.of_nat (length p).

(** The salt [s] was set (PRAGMA cipher_salt), or it is what the file starts with. *)
Definition finds_salt (ctx : codec_ctx) (w : W) (s : list Z) : Prop :=
  if SQLCIPHER_FLAG_GET (flags ctx) CIPHER_FLAG_HAS_KDF_SALT then snd (kdf_salt ctx) = s
  else s_open w = true /\ exists w1, s_read FILE_HEADER_SZ 0 w = (true, s, w1).

Definition same_kdf (ctx ctx2 : codec_ctx) : Prop :=
  kdf_algorithm ctx2 = kdf_algorithm ctx /\ kdf_iter ctx2 = kdf_iter ctx
  /\ fast_kdf_iter ctx2 = fast_kdf_iter ctx /\ key_sz ctx2 = key_sz ctx /\ kdf_salt_sz ctx2 = kdf_salt_sz ctx.

Lemma found_salt ctx w s : sizes_wf ctx -> finds_salt ctx w s ->
  exists ctx1 w1, salt_step P ctx w = (SQLITE_OK, ctx1, w1) /\ snd (kdf_salt ctx1) = s.
Proof.
  intros Hz. unfold finds_salt. destruct (SQLCIPHER_FLAG_GET _ _) eqn:F.
  - intros <-. exists ctx, w. unfold salt_step. now rewrite F.
  - intros (Ho & w1 & Hr). rewrite (salt_from_file ctx w s w1 F Hz Ho Hr). do 2 eexists. split; reflexivity.
Qed.

(** Keys from the same passphrase, salt and parameters are the same. *)
Lemma derived_same salt_mask ctx ctx2 p ctx3 c c3 :
  codec_wf P ctx -> same_kdf ctx ctx2 -> keys_of_pass salt_mask ctx p -> has_hmac ctx2 = has_hmac ctx ->
  snd (kdf_salt ctx2) = snd (kdf_salt ctx) -> snd (pass c) = p -> pass_sz c = Z.of_nat (length p) ->
  has_keys P mask salt_mask ctx2 c c3 -> key_sz ctx3 = key_sz ctx2 ->
  same_keys mask ctx (write_ctx ctx) ctx3 c3.
Proof.
  intros Hw (Ka & Ki & Kf & Kz & _) [Hk Hh] Ehm Es Pc Zc (D1 & D2 & _) Ez.
  pose proof Hw as (_ & _ & _ & (_ & _ & Lk & Lhk) & _).
  assert (EP : passphrase_key P ctx2 c = plain_key mask ctx (write_ctx ctx)).
  { rewrite Hk. unfold passphrase_key. rewrite Pc, Zc, Ka, Ki, Kz, Es, firstn_all2 by lia. reflexivity. }
  rewrite EP, Kz in D1, D2. unfold same_keys, plain_key at 1, plain_hmac_key at 1. rewrite Ez, Kz, D1.
  split; [apply shield_invol; unfold plain_key; rewrite length_shield; lia|]. intros EH.
  assert (EA : authentication_key P salt_mask ctx2 (plain_key mask ctx (write_ctx ctx))
             = plain_hmac_key mask ctx (write_ctx ctx)).
  { rewrite (Hh EH), Hk. unfold authentication_key. now rewrite Ka, Kf, Kz, Es. }
  rewrite D2, EA by congruence. apply shield_invol. unfold plain_hmac_key. rewrite length_shield. lia.
Qed.

(** A new connection derives the keys of the old one. *)
Lemma fresh_derives salt_mask ctx ctx2 p w2 :
  bytes mask -> codec_wf P ctx -> codec_wf P ctx2 -> same_kdf ctx ctx2 ->
  fresh ctx2 p -> keys_of_pass salt_mask ctx p -> has_hmac ctx2 = has_hmac ctx ->
  finds_salt ctx2 w2 (snd (kdf_salt ctx)) -> kdf_up P (kdf_algorithm ctx) -> memory_up ->
  exists ctx3 w4, sqlcipher_codec_key_derive P mask salt_mask ctx2 w2 = Some (SQLITE_OK, ctx3, w4)
    /\ codec_wf P ctx3 /\ keys_ready ctx3 /\ error ctx3 = error ctx2 /\ same_settings host_le ctx2 ctx3
    /\ same_keys mask ctx (write_ctx ctx) ctx3 (read_ctx ctx3).
Proof.
  intros Hm Hw Hw2 (Ka & Ki & Kf & Kz & Ks) Hc [Hk Hh] Ehm Hfs Up Um.
  destruct (Hc _ (or_introl eq_refl)) as (Ar & Pr & Zr). destruct (Hc _ (or_intror eq_refl)) as (Aw & Pw & Zw). clear Hc.
  pose proof Hw2 as (Hz2 & _ & Kr2 & Kw2 & _ & _ & _ & Lh2).
  destruct (found_salt _ _ _ Hz2 Hfs) as (ctxs & ws & ES & Es). pose proof (salt_step_refreshed P _ _ _ _ _ Hz2 ES) as Rs.
  assert (L2 : length (snd (hmac_kdf_salt ctx2)) = length (snd (kdf_salt ctx2)))
    by (destruct Hz2 as (_ & _ & _ & L2); unfold FILE_HEADER_SZ in *; lia).
  destruct (codec_derive_keys P mask salt_mask ctx2 w2 Hm Hz2 Kr2 Kw2 L2 Ar Aw) as (rc & ctx3 & w4 & E & D & U); [congruence|].
  rewrite ES in D, U. cbn [fst snd] in D, U. rewrite Ka in U. rewrite (U Up Um eq_refl) in *. clear U.
  destruct (D eq_refl) as (_ & ((D1 & D2 & D3) & D4) & ((_ & _ & D5) & D6)). clear D.
  exists ctx3, w4. split; [exact E|].
  assert (PW : forall c, awaits_keys c -> pass_wf c) by (intros c (_ & N & _); unfold pass_wf; congruence).
  destruct (codec_key_derive_wf P mask salt_mask ctx2 w2 Hm Hz2 Kr2 Kw2 Lh2 (PW _ Ar) (PW _ Aw))
    as (rc' & ctx1 & r & wr & w5 & E' & R & Kr' & Kw' & Hrd).
  rewrite E in E'. injection E' as <- -> _.
  destruct (wf_derived P ctx2 ctx1 r wr Hw2 R Kr' Kw') as (Hw3 & _ & Ee & _).
  assert (Sp : store_pass (set_write_ctx wr (set_read_ctx r ctx1)) = store_pass ctxs
             /\ key_sz (set_write_ctx wr (set_read_ctx r ctx1)) = key_sz ctxs /\ key_sz ctxs = key_sz ctx)
    by (destruct R as (? & ? & ? & -> & _), Rs as (? & ? & ? & -> & _); auto). destruct Sp as (Sp & Ez3 & Ezs).
  split; [exact Hw3|]. split.
  { unfold keys_ready. rewrite Sp. destruct (Z.eqb_spec (store_pass ctxs) 1); [auto|]. destruct D4, D6. split_and; auto. }
  split; [exact Ee|]. split; [now apply refreshed_settings|].
  apply (derived_same salt_mask ctx ctxs p _ (read_ctx ctx2)); try assumption; try (now split).
  - destruct Rs as (? & ? & ? & -> & _). repeat split; assumption.
  - rewrite (refreshed_hmac _ _ Rs). exact Ehm.
Qed.

(** C1: A database under a passphrase, written in a context that has its keys: the page that a
    connection writes, a new connection with the same settings, which was given the same
    passphrase, reads back, every byte before the space at its end, without error.  It has
    nothing but the file: if there is no header in plain text, page 1 starts on the disk with
    the salt, which the new connection takes from there; otherwise the salt has to be set.  It
    derives its keys on this first call, which succeeds while the provider works and there is
    memory. *)
Theorem reopen_with_passphrase salt_mask ctx ctx2 p data pgno w data' ctx' w' w2 :
  let usable := Z.to_nat (page_sz ctx - reserve_sz ctx) in
  let page := snd (buffer ctx') in
  bytes mask -> codec_wf P ctx -> header_ok ctx -> keys_ready ctx ->
  error ctx = SQLITE_OK -> SQLCIPHER_FLAG_GET (flags ctx) CIPHER_FLAG_HAS_KDF_SALT = true ->
  keys_of_pass salt_mask ctx p ->
  codec_wf P ctx2 -> error ctx2 = SQLITE_OK -> same_settings host_le ctx ctx2 -> same_kdf ctx ctx2 ->
  fresh ctx2 p -> provider_up P (hmac_algorithm ctx) -> kdf_up P (kdf_algorithm ctx) -> memory_up ->
  bytes data -> Z.of_nat (length data) = page_sz ctx ->
  sqlite3Codec P mask host_le salt_mask ctx data pgno CODEC_WRITE_OP w = Some (OutBuffer, data', ctx', w') ->
  (pgno = 1 -> plaintext_header_sz ctx = 0 -> firstn 16 page = snd (kdf_salt ctx))
  /\ (finds_salt ctx2 w2 (snd (kdf_salt ctx)) ->
      exists data2 ctx2' w2',
        sqlite3Codec P mask host_le salt_mask ctx2 page pgno CODEC_READ_OP w2 = Some (OutData, data2, ctx2', w2')
        /\ firstn usable data2 = firstn usable (as_read ctx pgno data) /\ error ctx2' = SQLITE_OK).
Proof.
  intros usable page Hm Hw Hh Hrd He Hf Hkp Hw2 He2 Hss Hkd Hfr Hup Up Um Bd Ld Hwr. split.
  { intros Hp H0. exact (written_salt P mask host_le salt_mask ctx data pgno w data' ctx' w' Hw Hh Hrd He Hf Ld Hwr Hp H0). }
  intros Hfs. destruct (fresh_derives salt_mask ctx ctx2 p w2) as (ctx3 & w4 & Hd & Hw3 & Hrd3 & Ee & Hss3 & Hky);
    try assumption; [apply Hss|].
  rewrite (codec_after_derive salt_mask ctx2 page pgno CODEC_READ_OP w2 ctx3 w4) by congruence.
  destruct (written_page_reads P mask host_le salt_mask ctx ctx3 data pgno w w4 data' ctx' w')
    as (data2 & ctx4 & w5 & E & R & Er & _); try assumption; try congruence.
  { now apply (same_settings_trans _ ctx2). }
  exists data2, ctx4, w5. auto.
Qed.
End Reopen.
