(* ===== verification/ScIntegrity.v ===== *)
(** * SQLCipher: the check of a whole file

    PRAGMA cipher_integrity_check (sqlcipher_codec_ctx_integrity_check, sqlcipher.c): the
    authentication code of every page of the file is computed and compared with the stored one. *)

From Stdlib Require Import ZArith Lia List Bool.
From S2P Require Import Prelude ScBytes ScHeap ScProvider ScContext ScKeys ScPage.
Import ListNotations.
Local Open Scope Z_scope.

(** The messages of the check, one for each call that adds a row to the result. *)
Inductive check_row :=
  | FileUndefined
  | HmacNotEnabled
  | UnableToDerive
  | ErrorReading (bytes page offset : Z)
  | HmacOperationFailed (page : Z)
  | HmacVerificationFailed (page : Z)
  | InvalidSize (page left expected : Z).

Section Integrity.
Context {W : Type} {Mem : Memory W} {St : Store W} (P : sqlcipher_provider W).
Context (mask : list Z) (host_le : bool).

(** The product of an unsigned and a signed number of 32 bits. *)
Definition page_start (ctx : codec_ctx) (page : Z) : Z := u32 ((page - 1) * page_sz ctx).

Definition sqlite3pager_is_sj_pgno (page : Z) (w : W) : bool := s_lckPgno w =? page.

(** One page: a message, or none.  [None] is an access outside of the buffer, or without one. *)
Definition check_page (ctx : codec_ctx) (page : Z) (w : W) : option (list check_row * codec_ctx * W) :=
  if sqlite3pager_is_sj_pgno page w then Some ([], ctx, w)
  else
    let payload_sz := page_sz ctx - reserve_sz ctx + iv_sz ctx in
    let page1_offset :=
      if page =? 1 then (if plaintext_header_sz ctx =? 0 then FILE_HEADER_SZ else plaintext_header_sz ctx)
      else 0 in
    let read_sz := page_sz ctx - page1_offset in
    let payload_sz := payload_sz - page1_offset in
    let offset := page_start ctx page + page1_offset in
    let buf := sqlcipher_memset (snd (buffer ctx)) 0 0 (Z.to_nat (page_sz ctx)) in
    if is_null (buffer ctx) || (page_sz ctx <? read_sz) || (payload_sz <? 0) then None
    else
      let '(ok, b, w) := s_read read_sz offset w in
      let buf := memcpy buf 0 b in
      let ctx := put_buffer buf ctx in
      if negb ok then Some ([ErrorReading read_sz page offset], ctx, w)
      else
        let '(r, c, w) := sqlcipher_page_hmac P mask host_le ctx (read_ctx ctx) page buf payload_sz w in
        let ctx := set_read_ctx c ctx in
        match r with
        | None => Some ([HmacOperationFailed page], ctx, w)
        | Some t =>
            let hmac_out := memcpy (memset 0 (Z.to_nat (hmac_sz ctx))) 0 t in
            if sqlcipher_memcmp (skipn (Z.to_nat payload_sz) buf) hmac_out (Z.to_nat (hmac_sz ctx))
            then Some ([HmacVerificationFailed page], ctx, w) else Some ([], ctx, w)
        end.

(** The loop from [page] on; the last result is the first page that was not reached. *)
Fixpoint check_pages (fuel : nat) (ctx : codec_ctx) (file_sz page : Z) (w : W)
    : option (list check_row * codec_ctx * Z * W) :=
  match fuel with
  | O => None
  | S fuel =>
      if page <=? file_sz / page_sz ctx then
        match check_page ctx page w with
        | None => None
        | Some (r, ctx, w) =>
            match check_pages fuel ctx file_sz (u32 (page + 1)) w with
            | None => None
            | Some (r', ctx, last, w) => Some (r ++ r', ctx, last, w)
            end
        end
      else Some ([], ctx, page, w)
  end.

(** [None] also stands for the use of a buffer that could not be allocated. *)
Definition sqlcipher_codec_ctx_integrity_check (fuel : nat) (salt_mask : Z) (ctx : codec_ctx) (w : W)
    : option (list check_row * codec_ctx * W) :=
  if negb (s_open w) then Some ([FileUndefined], ctx, w)
  else if negb (SQLCIPHER_FLAG_GET (flags ctx) CIPHER_FLAG_HMAC) then Some ([HmacNotEnabled], ctx, w)
  else
    match sqlcipher_codec_key_derive P mask salt_mask ctx w with
    | None => None
    | Some (rc, ctx, w) =>
        if negb (rc =? SQLITE_OK) then Some ([UnableToDerive], ctx, w)
        else
          let file_sz := s_size w in
          let '(hmac_out, w) := alloc (hmac_sz ctx) w in
          if is_null hmac_out && (1 <=? file_sz / page_sz ctx) then None
          else
            match check_pages fuel ctx file_sz 1 w with
            | None => None
            | Some (rows, ctx, page, w) =>
                let rows :=
                  if Z.rem file_sz (page_sz ctx) =? 0 then rows
                  else rows ++ [InvalidSize page (file_sz - file_sz / page_sz ctx * page_sz ctx) (page_sz ctx)] in
                Some (rows, ctx, release hmac_out (hmac_sz ctx) w)
            end
    end.

(** ** What the check reports *)

Context {StL : StoreLaws W} {PL : ProviderLaws P}.

(** The environment of a database that is not disturbed: the file has the bytes [f], reading
    succeeds, and the provider computes codes with the algorithm [alg]. *)
Class Undisturbed (alg : Z) (f : list Z) (lck : Z) (good : W -> Prop) := {
  good_read w n o : good w -> 0 <= o -> 0 <= n -> o + n <= Z.of_nat (length f) ->
    exists w', s_read n o w = (true, slice f (Z.to_nat o) (Z.to_nat n), w') /\ good w';
  good_hmac w k x y : good w -> exists t w', p_hmac P alg k x y w = (Some t, w') /\ good w';
  good_size w : good w -> s_size w = Z.of_nat (length f) /\ s_open w = true /\ s_lckPgno w = lck
}.

Context (alg : Z) (f : list Z) (lck : Z) (good : W -> Prop) {U : Undisturbed alg f lck good}.

Definition page_begin (ctx : codec_ctx) (p : Z) : Z := (p - 1) * page_sz ctx + page_offset ctx p.

(** The stored code of page [p] is that of its data and initial vector. *)
Definition intact (ctx : codec_ctx) (p : Z) : bool :=
  let b := Z.to_nat (page_begin ctx p) in
  let n := Z.to_nat (page_sz ctx - page_offset ctx p - reserve_sz ctx + iv_sz ctx) in
  if list_eq_dec Z.eq_dec (slice f (b + n) (Z.to_nat (hmac_sz ctx)))
       (page_mac P mask host_le ctx (read_ctx ctx) p (slice f b n))
  then true else false.

Definition verdict (ctx : codec_ctx) (p : Z) : list check_row :=
  if (lck =? p) || intact ctx p then [] else [HmacVerificationFailed p].

Lemma skipn_slice_sub (l : list Z) o n m : skipn m (slice l o n) = slice l (o + m) (n - m).
Proof. unfold slice. rewrite skipn_firstn_comm, skipn_skipn. f_equal. f_equal. lia. Qed.

(** What a page-sized buffer holds of [n] bytes that were read into it. *)
Lemma read_part (d : list Z) sz o n : (o + n <= length d)%nat -> firstn n (skipn o (memcpy (memset 0 sz) 0 d)) = slice d o n.
Proof.
  intros H. unfold memcpy. cbn [firstn app Nat.add]. rewrite skipn_app, firstn_app, length_skipn.
  replace (n - _)%nat with 0%nat by lia. apply app_nil_r.
Qed.

(** The stored code is compared with the computed one. *)
Lemma memcmp_decides (b t e : list Z) n :
  (n <= length b)%nat -> length t = n -> t = e ->
  sqlcipher_memcmp b t n = if list_eq_dec Z.eq_dec (firstn n b) e then false else true.
Proof.
  intros Hb Ht <-. assert (F : firstn n t = t) by (apply firstn_all2; lia).
  destruct (list_eq_dec _ _ _) as [E|E].
  - apply memcmp_firstn; [exact Hb | lia |]. now rewrite F.
  - destruct (sqlcipher_memcmp b t n) eqn:EC; [reflexivity|]. apply memcmp_firstn in EC; [|exact Hb | lia].
    rewrite F in EC. contradiction.
Qed.

Lemma check_page_verdict ctx p w :
  codec_wf P ctx -> is_null (buffer ctx) = false -> header_ok ctx -> has_hmac ctx = true ->
  hmac_algorithm ctx = alg -> good w -> 1 <= p -> p * page_sz ctx <= Z.of_nat (length f) -> Z.of_nat (length f) <= 2 ^ 32 ->
  exists b w', check_page ctx p w = Some (verdict ctx p, put_buffer b ctx, w') /\ good w'
    /\ Z.of_nat (length b) = page_sz ctx.
Proof.
  intros Hw Hnb Hh Hhm Ea Hg Hp Hpf Hf. destruct (offset_range P ctx p Hw Hh) as [Ho _].
  pose proof Hw as (_ & Hs & Hk & _ & Hz & _ & Lb & _). destruct (reserve_room P ctx Hs) as (Hiv & _ & Hh0 & Hr).
  specialize (Hr Hhm). pose proof Hs as (_ & _ & _ & Eh & _).
  unfold check_page, verdict, sqlite3pager_is_sj_pgno. destruct (good_size w Hg) as (_ & _ & ->).
  destruct (lck =? p); cbn [orb].
  { exists (snd (buffer ctx)), w. rewrite put_buffer_id. auto. }
  assert (Eo : (if p =? 1 then if plaintext_header_sz ctx =? 0 then FILE_HEADER_SZ else plaintext_header_sz ctx
                else 0) = page_offset ctx p)
    by (unfold page_offset; destruct (p =? 1), (plaintext_header_sz ctx =? 0); reflexivity).
  rewrite Eo. set (off := page_offset ctx p) in *.
  assert (Es : page_start ctx p + off = page_begin ctx p)
    by (unfold page_start, page_begin; rewrite u32_small by (unfold is_u32; nia); reflexivity).
  rewrite Es, Hnb. destruct (Z.ltb_spec (page_sz ctx) (page_sz ctx - off)); [lia|].
  destruct (Z.ltb_spec (page_sz ctx - reserve_sz ctx + iv_sz ctx - off) 0); [lia|]. cbn [orb].
  assert (B0 : 0 <= page_begin ctx p) by (unfold page_begin; fold off; nia).
  assert (B1 : page_begin ctx p + (page_sz ctx - off) <= Z.of_nat (length f)) by (unfold page_begin; fold off; nia).
  destruct (good_read w (page_sz ctx - off) (page_begin ctx p) Hg B0 ltac:(lia) B1) as (w1 & -> & Hg1).
  cbn [negb]. set (d := slice f (Z.to_nat (page_begin ctx p)) (Z.to_nat (page_sz ctx - off))).
  assert (Ld : length d = Z.to_nat (page_sz ctx - off)) by (apply length_slice; lia).
  rewrite wiped by lia. set (b := memcpy (memset 0 (Z.to_nat (page_sz ctx))) 0 d).
  assert (Lb' : Z.of_nat (length b) = page_sz ctx)
    by (unfold b; rewrite length_memcpy; rewrite length_memset; lia).
  set (n := Z.to_nat (page_sz ctx - off - reserve_sz ctx + iv_sz ctx)).
  replace (Z.to_nat (page_sz ctx - reserve_sz ctx + iv_sz ctx - off)) with n by (unfold n; lia).
  change (sqlcipher_page_hmac P mask host_le (put_buffer b ctx) (read_ctx (put_buffer b ctx)) p b ?x w1)
    with (sqlcipher_page_hmac P mask host_le ctx (the_ctx 0 ctx) p b x w1).
  rewrite page_hmac_eq by exact Hk. fold (plain_hmac_key mask ctx (the_ctx 0 ctx)).
  replace (Z.to_nat (page_sz ctx - reserve_sz ctx + iv_sz ctx - off)) with n by (unfold n; lia).
  rewrite Ea in Eh. rewrite Ea. destruct (good_hmac w1 (plain_hmac_key mask ctx (the_ctx 0 ctx)) (firstn n b)
              (pgno_raw host_le ctx p) Hg1) as (t & w2 & EM & Hg2).
  rewrite EM. apply hmac_mac in EM. destruct EM as [Et Lt].
  assert (Fb : firstn n b = slice f (Z.to_nat (page_begin ctx p)) n).
  { unfold b. rewrite <- (skipn_O (memcpy _ 0 d)), read_part by (unfold n; lia).
    unfold slice at 1. rewrite skipn_O. unfold d. apply firstn_slice. unfold n. lia. }
  assert (Sb : firstn (Z.to_nat (hmac_sz ctx)) (skipn n b)
             = slice f (Z.to_nat (page_begin ctx p) + n) (Z.to_nat (hmac_sz ctx))).
  { unfold b. rewrite read_part by (unfold n; lia). unfold slice at 1, d. rewrite skipn_slice_sub. apply firstn_slice.
    unfold n. lia. }
  exists b, w2. cbn [hmac_sz set_read_ctx put_buffer set_buffer].
  assert (Ec : set_read_ctx (the_ctx 0 ctx) (put_buffer b ctx) = put_buffer b ctx) by (destruct ctx; reflexivity).
  unfold put_buffer in Ec. rewrite memcpy_whole by (rewrite length_memset; lia). rewrite Fb in Et.
  unfold intact, page_mac. rewrite Ea. fold off. fold n. rewrite <- Sb.
  erewrite memcmp_decides; [| rewrite length_skipn; unfold n; lia | lia | exact Et].
  destruct (list_eq_dec _ _ _); cbn [orb]; unfold put_buffer; rewrite ?Ec; auto.
Qed.

Lemma wf_put_buffer ctx b : codec_wf P ctx -> Z.of_nat (length b) = page_sz ctx -> codec_wf P (put_buffer b ctx).
Proof.
  intros (Hz & Hs & Hr & Hw & Hp & H16 & _ & Lh) L.
  exact (conj Hz (conj Hs (conj Hr (conj Hw (conj Hp (conj H16 (conj L Lh))))))).
Qed.

Definition page_range (from : Z) (n : nat) : list Z := map (fun i => from + Z.of_nat i) (seq 0 n).

Lemma page_range_S p k : page_range p (S k) = p :: page_range (p + 1) k.
Proof.
  unfold page_range. cbn [seq map]. f_equal; [lia|]. rewrite <- seq_shift, map_map. apply map_ext. intros. lia.
Qed.

Lemma check_pages_verdict k : forall fuel ctx p w,
  codec_wf P ctx -> is_null (buffer ctx) = false -> header_ok ctx -> has_hmac ctx = true ->
  hmac_algorithm ctx = alg -> good w -> 1 <= p ->
  Z.of_nat (length f) < 2 ^ 32 -> p + Z.of_nat k = Z.of_nat (length f) / page_sz ctx + 1 -> (k < fuel)%nat ->
  exists b w', check_pages fuel ctx (Z.of_nat (length f)) p w
      = Some (flat_map (verdict ctx) (page_range p k), put_buffer b ctx, Z.of_nat (length f) / page_sz ctx + 1, w')
    /\ good w'.
Proof.
  induction k as [|k IH]; intros [|fuel] ctx p w Hw Hnb Hh Hhm Ea Hg Hp Hf Hk Hfuel; try lia; cbn [check_pages].
  - destruct (Z.leb_spec p (Z.of_nat (length f) / page_sz ctx)); [lia|].
    exists (snd (buffer ctx)), w. rewrite put_buffer_id. cbn [page_range seq map flat_map].
    split; [|exact Hg]. do 3 f_equal. lia.
  - destruct (Z.leb_spec p (Z.of_nat (length f) / page_sz ctx)); [|lia].
    pose proof Hw as (_ & _ & _ & _ & Hz & _).
    assert (Hpf : p * page_sz ctx <= Z.of_nat (length f))
      by (pose proof (Z.mul_div_le (Z.of_nat (length f)) (page_sz ctx)); nia).
    destruct (check_page_verdict ctx p w) as (b & w1 & -> & Hg1 & Lb); try assumption; try lia.
    rewrite u32_small by (unfold is_u32; nia).
    destruct (IH fuel (put_buffer b ctx) (p + 1) w1) as (b2 & w2 & -> & Hg2);
      [now apply wf_put_buffer | exact Hnb | exact Hh | exact Hhm | exact Ea | exact Hg1 | lia | exact Hf |
       cbn [page_sz put_buffer set_buffer]; lia | lia |].
    exists b2, w2. split; [|exact Hg2]. rewrite page_range_S. reflexivity.
Qed.

(** C6: The check of the whole file is exact: for a file below 4 GiB in an environment that
    works, it ends, and its messages are, in order of the pages, one for every page whose stored
    authentication code is not that of its contents, the page of lock bytes excepted, and one
    for a file whose size is not a multiple of the page size. *)
Theorem integrity_check_exact salt_mask ctx w fuel a w1 :
  codec_wf P ctx -> is_null (buffer ctx) = false -> header_ok ctx -> has_hmac ctx = true ->
  hmac_algorithm ctx = alg -> keys_ready ctx -> good w ->
  m_malloc (hmac_sz ctx) w = (a, w1) -> a <> 0 -> good w1 -> Z.of_nat (length f) < 2 ^ 32 ->
  let n := Z.of_nat (length f) / page_sz ctx in
  n < Z.of_nat fuel ->
  exists ctx' w', sqlcipher_codec_ctx_integrity_check fuel salt_mask ctx w
    = Some (flat_map (verdict ctx) (page_range 1 (Z.to_nat n))
            ++ (if Z.of_nat (length f) mod page_sz ctx =? 0 then []
                else [InvalidSize (n + 1) (Z.of_nat (length f) mod page_sz ctx) (page_sz ctx)]), ctx', w').
Proof.
  intros Hw Hnb Hh Hhm Hal Hrd Hg EA Ha Hg1 Hf n Hfuel. pose proof Hw as (_ & _ & _ & _ & Hz & _).
  assert (Hn : 0 <= n) by (apply Z.div_pos; lia).
  unfold sqlcipher_codec_ctx_integrity_check. destruct (good_size w Hg) as (Ez & -> & _). cbn [negb].
  fold (has_hmac ctx). rewrite Hhm. cbn [negb]. rewrite key_derive_ready by exact Hrd.
  cbn [Z.eqb SQLITE_OK negb]. rewrite Ez. unfold alloc.
  rewrite EA. apply Z.eqb_neq in Ha. rewrite Ha.
  unfold is_null at 1. cbn [fst]. rewrite Ha. cbn [andb].
  destruct (check_pages_verdict (Z.to_nat n) fuel ctx 1 w1) as (b & w2 & -> & Hg2); try assumption; try lia.
  cbn [page_sz put_buffer set_buffer]. fold n. rewrite Z.rem_mod_nonneg by lia.
  replace (Z.of_nat (length f) - n * page_sz ctx) with (Z.of_nat (length f) mod page_sz ctx)
    by (rewrite Z.mod_eq by lia; fold n; lia).
  destruct (Z.of_nat (length f) mod page_sz ctx =? 0); do 2 eexists; rewrite ?app_nil_r; reflexivity.
Qed.

(** The start of a page is computed in 32 bits: with pages of 64 KiB, page 65537, which starts
    4 GiB into the file, is looked for at its start. *)
Lemma page_start_wraps ctx : page_sz ctx = 65536 -> page_start ctx 65537 = 0.
Proof. intros H. unfold page_start. rewrite H. reflexivity. Qed.
End Integrity.
