(* ===== verification/ScPragma.v ===== *)
(** * SQLCipher: settings by PRAGMA

    The statements that set and show the settings of a database and the defaults for new ones
    (sqlcipher_codec_pragma, sqlcipher.c): one definition per statement, in the order of the
    source, and the dispatch over their names. *)

From Stdlib Require Import String ZArith Lia List Bool.
From S2P Require Import Prelude ScText ScBytes ScHeap ScProvider ScContext ScKeys ScPage ScIntegrity.
Import ListNotations.
Local Open Scope Z_scope.

Definition SQLCIPHER_LOG_NONE : Z := 0.
Definition SQLCIPHER_LOG_ANY : Z := 0xffffffff.
Definition SQLCIPHER_LOG_ERROR : Z := 1.
Definition SQLCIPHER_LOG_WARN : Z := 2.
Definition SQLCIPHER_LOG_INFO : Z := 4.
Definition SQLCIPHER_LOG_DEBUG : Z := 8.
Definition SQLCIPHER_LOG_TRACE : Z := 16.
Definition SQLCIPHER_LOG_CORE : Z := 1.
Definition SQLCIPHER_LOG_MEMORY : Z := 2.
Definition SQLCIPHER_LOG_MUTEX : Z := 4.
Definition SQLCIPHER_LOG_PROVIDER : Z := 8.

(** The values of the macros CIPHER_VERSION_NUMBER and CIPHER_VERSION_BUILD. *)
Definition sqlcipher_version : list Z := str "4.10.0 community".

(** The globals that the statements read and set.  A file pointer is a number: 0 is NULL, 1 and
    2 are stdout and stderr. *)
Record Globals := mkGlobals {
  defaults : Defaults;
  sqlcipher_mem_security_on : Z;
  sqlcipher_mem_executed : Z;
  sqlcipher_log_level : Z;
  sqlcipher_log_source : Z;
  sqlcipher_log_file : Z;
  sqlcipher_log_device : Z
}.

Definition set_defaults (d : Defaults) (g : Globals) : Globals :=
  mkGlobals d (sqlcipher_mem_security_on g) (sqlcipher_mem_executed g) (sqlcipher_log_level g)
    (sqlcipher_log_source g) (sqlcipher_log_file g) (sqlcipher_log_device g).

Definition set_mem_security (v : Z) (g : Globals) : Globals :=
  mkGlobals (defaults g) v (sqlcipher_mem_executed g) (sqlcipher_log_level g)
    (sqlcipher_log_source g) (sqlcipher_log_file g) (sqlcipher_log_device g).

Definition set_log_level (v : Z) (g : Globals) : Globals :=
  mkGlobals (defaults g) (sqlcipher_mem_security_on g) (sqlcipher_mem_executed g) v
    (sqlcipher_log_source g) (sqlcipher_log_file g) (sqlcipher_log_device g).

Definition set_log_source (v : Z) (g : Globals) : Globals :=
  mkGlobals (defaults g) (sqlcipher_mem_security_on g) (sqlcipher_mem_executed g) (sqlcipher_log_level g)
    v (sqlcipher_log_file g) (sqlcipher_log_device g).

Definition set_log_target (file device : Z) (g : Globals) : Globals :=
  mkGlobals (defaults g) (sqlcipher_mem_security_on g) (sqlcipher_mem_executed g) (sqlcipher_log_level g)
    (sqlcipher_log_source g) file device.

Definition with_kdf_iter (v : Z) (d : Defaults) : Defaults :=
  mkDefaults (default_flags d) (hmac_salt_mask d) v (default_page_size d) (default_plaintext_header_size d)
    (default_hmac_algorithm d) (default_kdf_algorithm d).
Definition with_page_size (v : Z) (d : Defaults) : Defaults :=
  mkDefaults (default_flags d) (hmac_salt_mask d) (default_kdf_iter d) v (default_plaintext_header_size d)
    (default_hmac_algorithm d) (default_kdf_algorithm d).
Definition with_header_size (v : Z) (d : Defaults) : Defaults :=
  mkDefaults (default_flags d) (hmac_salt_mask d) (default_kdf_iter d) (default_page_size d) v
    (default_hmac_algorithm d) (default_kdf_algorithm d).
Definition with_hmac_algorithm (v : Z) (d : Defaults) : Defaults :=
  mkDefaults (default_flags d) (hmac_salt_mask d) (default_kdf_iter d) (default_page_size d)
    (default_plaintext_header_size d) v (default_kdf_algorithm d).
Definition with_kdf_algorithm (v : Z) (d : Defaults) : Defaults :=
  mkDefaults (default_flags d) (hmac_salt_mask d) (default_kdf_iter d) (default_page_size d)
    (default_plaintext_header_size d) (default_hmac_algorithm d) v.
Definition with_salt_mask (v : Z) (d : Defaults) : Defaults :=
  mkDefaults (default_flags d) v (default_kdf_iter d) (default_page_size d)
    (default_plaintext_header_size d) (default_hmac_algorithm d) (default_kdf_algorithm d).

Definition sqlcipher_set_default_use_hmac (use : bool) (d : Defaults) : Defaults :=
  mkDefaults
    (if use then SQLCIPHER_FLAG_SET (default_flags d) CIPHER_FLAG_HMAC
     else SQLCIPHER_FLAG_UNSET (default_flags d) CIPHER_FLAG_HMAC)
    (hmac_salt_mask d) (default_kdf_iter d) (default_page_size d) (default_plaintext_header_size d)
    (default_hmac_algorithm d) (default_kdf_algorithm d).

(** ** Names *)

Definition is_name (z : list Z) (s : list Z) : bool := sqlite3_stricmp (Some z) (Some s) =? 0.

Definition hmac_label (a : Z) : option (list Z) :=
  if a =? SQLCIPHER_HMAC_SHA1 then Some (str "HMAC_SHA1")
  else if a =? SQLCIPHER_HMAC_SHA256 then Some (str "HMAC_SHA256")
  else if a =? SQLCIPHER_HMAC_SHA512 then Some (str "HMAC_SHA512")
  else None.

Definition hmac_named (z : list Z) : option Z :=
  if is_name z (str "HMAC_SHA1") then Some SQLCIPHER_HMAC_SHA1
  else if is_name z (str "HMAC_SHA256") then Some SQLCIPHER_HMAC_SHA256
  else if is_name z (str "HMAC_SHA512") then Some SQLCIPHER_HMAC_SHA512
  else None.

Definition kdf_label (a : Z) : option (list Z) :=
  if a =? SQLCIPHER_PBKDF2_HMAC_SHA1 then Some (str "PBKDF2_HMAC_SHA1")
  else if a =? SQLCIPHER_PBKDF2_HMAC_SHA256 then Some (str "PBKDF2_HMAC_SHA256")
  else if a =? SQLCIPHER_PBKDF2_HMAC_SHA512 then Some (str "PBKDF2_HMAC_SHA512")
  else None.

Definition kdf_named (z : list Z) : option Z :=
  if is_name z (str "PBKDF2_HMAC_SHA1") then Some SQLCIPHER_PBKDF2_HMAC_SHA1
  else if is_name z (str "PBKDF2_HMAC_SHA256") then Some SQLCIPHER_PBKDF2_HMAC_SHA256
  else if is_name z (str "PBKDF2_HMAC_SHA512") then Some SQLCIPHER_PBKDF2_HMAC_SHA512
  else None.

Definition sqlcipher_get_log_level_str (level : Z) : list Z :=
  if level =? SQLCIPHER_LOG_ERROR then str "ERROR"
  else if level =? SQLCIPHER_LOG_WARN then str "WARN"
  else if level =? SQLCIPHER_LOG_INFO then str "INFO"
  else if level =? SQLCIPHER_LOG_DEBUG then str "DEBUG"
  else if level =? SQLCIPHER_LOG_TRACE then str "TRACE"
  else if level =? SQLCIPHER_LOG_ANY then str "ANY"
  else str "NONE".

Definition sqlcipher_get_log_source_str (source : Z) : list Z :=
  if source =? SQLCIPHER_LOG_NONE then str "NONE"
  else if source =? SQLCIPHER_LOG_CORE then str "CORE"
  else if source =? SQLCIPHER_LOG_MEMORY then str "MEMORY"
  else if source =? SQLCIPHER_LOG_MUTEX then str "MUTEX"
  else if source =? SQLCIPHER_LOG_PROVIDER then str "PROVIDER"
  else str "ANY".

(** The flag runs over the 32 bits; [None] is the null pointer. *)
Definition sqlcipher_get_log_sources_str (source : Z) : option (list Z) :=
  if source =? SQLCIPHER_LOG_NONE then Some (str "NONE")
  else if source =? SQLCIPHER_LOG_ANY then Some (str "ANY")
  else
    fold_left (fun sources i =>
        let flag := 2 ^ Z.of_nat i in
        if SQLCIPHER_FLAG_GET source flag then
          let src := sqlcipher_get_log_source_str flag in
          match sources with
          | Some s => Some (s ++ str " " ++ src)
          | None => Some src
          end
        else sources) (seq 0 32) None.

(** ** Statements *)

(** A row of a result: one column with its name and its value, NULL if [None]. *)
Inductive out_row :=
  | Row (label : list Z) (value : option (list Z))
  | Check_row (r : check_row).

(** What the statements use beyond the codec: sqlite3_malloc (0 is the null pointer) and
    sqlite3_free, files of the C library, tracing of a connection, and the migration of a
    database, which opens connections of its own. *)
Class Outside (W : Type) := {
  o_malloc : Z -> W -> Z * W;
  o_free : Z -> W -> W;
  o_fopen : list Z -> W -> Z * W;
  o_fclose : Z -> W -> W;
  o_trace : option Z -> W -> W;
  o_migrate : codec_ctx -> W -> Z * codec_ctx * W
}.

Section Pragma.
Context {W : Type} {Mem : Memory W} {St : Store W} {Out : Outside W} (P : sqlcipher_provider W).
Context (mask : list Z) (host_le : bool).

(** 1 if the statement was one of SQLCipher, the rows, and the state behind it. *)
Definition reply : Type := Z * list out_row * Globals * option codec_ctx * W.
Definition statement : Type := Globals -> option codec_ctx -> option (list Z) -> W -> option reply.

Definition done (rows : list out_row) (g : Globals) (ctx : option codec_ctx) (w : W) : option reply :=
  Some (1, rows, g, ctx, w).

Definition sqlcipher_vdbe_return_string (label : string) (v : list Z) : out_row := Row (str label) (Some v).

(** Most statements do nothing without a codec. *)
Definition on_codec (f : codec_ctx -> option reply) (g : Globals) (ctx : option codec_ctx) (w : W) : option reply :=
  match ctx with Some c => f c | None => done [] g None w end.

Definition then_error (err : option Z) (r : Z * codec_ctx * W) : codec_ctx * W :=
  let '(rc, ctx, w) := r in
  if negb (rc =? SQLITE_OK)
  then sqlcipher_codec_ctx_set_error ctx (match err with Some e => e | None => rc end) w else (ctx, w).

Definition codec_set_btree_to_codec_pagesize (ctx : codec_ctx) (w : W) : Z * codec_ctx * W :=
  let '(rc, w) := s_set_pagesize (page_sz ctx) (reserve_sz ctx) w in (rc, ctx, w).

Definition sqlcipher_codec_add_random (zRight : list Z) (w : W) : option (Z * W) :=
  let random_sz := sqlite3Strlen30 zRight in
  let n := random_sz - 3 in
  if (0 <? n) && (sqlite3StrNICmp zRight (str "x'") 2 =? 0)
     && (sqlite3StrNICmp (skipn (Z.to_nat (random_sz - 1)) zRight) (str "'") 1 =? 0)
     && (Z.rem n 2 =? 0)
  then
    let buffer_sz := n / 2 in
    let '(random, w) := alloc buffer_sz w in
    if is_null random then None
    else
      let b := cipher_hex2bin (skipn 2 zRight) (Z.to_nat n) (memset 0 (Z.to_nat buffer_sz)) in
      let '(rc, w) := p_add_random P b w in
      Some (rc, release random buffer_sz w)
  else Some (SQLITE_ERROR, w).

Definition sqlcipher_cipher_profile (destination : list Z) (w : W) : Z * W :=
  if is_name destination (str "off") then (SQLITE_OK, o_trace None w)
  else if is_name destination (str "stdout") then (SQLITE_OK, o_trace (Some 1) w)
  else if is_name destination (str "stderr") then (SQLITE_OK, o_trace (Some 2) w)
  else if is_name destination (str "logcat") || is_name destination (str "device")
  then (SQLITE_OK, o_trace (Some 0) w)
  else
    let '(f, w) := o_fopen destination w in
    if f =? 0 then (SQLITE_ERROR, w) else (SQLITE_OK, o_trace (Some f) w).

Definition sqlcipher_set_log (destination : list Z) (g : Globals) (w : W) : Z * Globals * W :=
  let f := sqlcipher_log_file g in
  let w := if negb (f =? 0) && negb (f =? 1) && negb (f =? 2) then o_fclose f w else w in
  let g := set_log_target 0 0 g in
  if is_name destination (str "logcat") || is_name destination (str "device")
  then (SQLITE_OK, set_log_target 0 1 g, w)
  else if is_name destination (str "stdout") then (SQLITE_OK, set_log_target 1 0 g, w)
  else if is_name destination (str "stderr") then (SQLITE_OK, set_log_target 2 0 g, w)
  else if is_name destination (str "off") then (SQLITE_OK, g, w)
  else
    let '(f, w) := o_fopen destination w in
    if f =? 0 then (SQLITE_ERROR, g, w) else (SQLITE_OK, set_log_target f 0 g, w).

Definition pragma_fips_status : statement := fun g ctx _ w =>
  on_codec (fun c => done [sqlcipher_vdbe_return_string "cipher_fips_status" (print_int (p_fips_status P))]
                       g (Some c) w) g ctx w.

Definition pragma_store_pass : statement := fun g ctx zRight w =>
  on_codec (fun c =>
    match zRight with
    | Some z =>
        done [sqlcipher_vdbe_return_string "cipher_store_pass"
                (str "PRAGMA cipher_store_pass is deprecated, please remove from use")]
          g (Some (set_store_pass (if sqlite3GetBoolean z 1 then 1 else 0) c)) w
    | None => done [sqlcipher_vdbe_return_string "cipher_store_pass" (print_int (store_pass c))] g (Some c) w
    end) g ctx w.

Definition pragma_profile : statement := fun g ctx zRight w =>
  match zRight with
  | Some z =>
      let '(rc, w) := sqlcipher_cipher_profile z w in
      done [sqlcipher_vdbe_return_string "cipher_profile" (print_int rc)] g ctx w
  | None => done [] g ctx w
  end.

Definition pragma_add_random : statement := fun g ctx zRight w =>
  on_codec (fun c =>
    match zRight with
    | Some z =>
        match sqlcipher_codec_add_random z w with
        | None => None
        | Some (rc, w) =>
            done [sqlcipher_vdbe_return_string "cipher_add_random" (print_int rc)] g (Some c) w
        end
    | None => done [] g (Some c) w
    end) g ctx w.

Definition pragma_migrate : statement := fun g ctx _ w =>
  on_codec (fun c =>
    let '(status, c, w) := o_migrate c w in
    done [sqlcipher_vdbe_return_string "cipher_migrate" (print_int status)] g (Some c) w) g ctx w.

Definition pragma_provider : statement := fun g ctx _ w =>
  on_codec (fun c => done [sqlcipher_vdbe_return_string "cipher_provider" (p_get_provider_name P)]
                       g (Some c) w) g ctx w.

Definition pragma_provider_version : statement := fun g ctx _ w =>
  on_codec (fun c => done [sqlcipher_vdbe_return_string "cipher_provider_version" (p_get_provider_version P)]
                       g (Some c) w) g ctx w.

Definition pragma_version : statement := fun g ctx _ w =>
  done [sqlcipher_vdbe_return_string "cipher_version" sqlcipher_version] g ctx w.

Definition pragma_cipher : statement := fun g ctx zRight w =>
  on_codec (fun c =>
    match zRight with
    | Some _ => done [sqlcipher_vdbe_return_string "cipher" (str "PRAGMA cipher is no longer supported.")]
                  g (Some c) w
    | None => done [sqlcipher_vdbe_return_string "cipher" (p_get_cipher P)] g (Some c) w
    end) g ctx w.

Definition pragma_rekey_cipher : statement := fun g ctx _ w =>
  done [sqlcipher_vdbe_return_string "rekey_cipher" (str "PRAGMA rekey_cipher is no longer supported.")] g ctx w.

Definition pragma_default_kdf_iter : statement := fun g ctx zRight w =>
  match zRight with
  | Some z => done [] (set_defaults (with_kdf_iter (atoi z) (defaults g)) g) ctx w
  | None => done [sqlcipher_vdbe_return_string "cipher_default_kdf_iter"
                    (print_int (default_kdf_iter (defaults g)))] g ctx w
  end.

Definition pragma_kdf_iter : statement := fun g ctx zRight w =>
  on_codec (fun c =>
    match zRight with
    | Some z => done [] g (Some (snd (sqlcipher_codec_ctx_set_kdf_iter c (atoi z)))) w
    | None => done [sqlcipher_vdbe_return_string "kdf_iter" (print_int (kdf_iter c))] g (Some c) w
    end) g ctx w.

Definition pragma_fast_kdf_iter : statement := fun g ctx zRight w =>
  on_codec (fun c =>
    match zRight with
    | Some z =>
        done [sqlcipher_vdbe_return_string "fast_kdf_iter"
                (str "PRAGMA fast_kdf_iter is deprecated, please remove from use")]
          g (Some (snd (sqlcipher_codec_ctx_set_fast_kdf_iter c (atoi z)))) w
    | None => done [sqlcipher_vdbe_return_string "fast_kdf_iter" (print_int (fast_kdf_iter c))] g (Some c) w
    end) g ctx w.

Definition pragma_rekey_kdf_iter : statement := fun g ctx _ w =>
  done [sqlcipher_vdbe_return_string "rekey_kdf_iter" (str "PRAGMA rekey_kdf_iter is no longer supported.")]
    g ctx w.

(** Without a codec, 0: the statement of SQLite takes over. *)
Definition pragma_page_size : statement := fun g ctx zRight w =>
  match ctx with
  | Some c =>
      match zRight with
      | Some z =>
          let '(c, w) := then_error None (sqlcipher_codec_ctx_set_pagesize c (atoi z) w) in
          let '(c, w) := then_error None (codec_set_btree_to_codec_pagesize c w) in
          done [] g (Some c) w
      | None => done [sqlcipher_vdbe_return_string "cipher_page_size" (print_int (page_sz c))] g (Some c) w
      end
  | None => Some (0, [], g, None, w)
  end.

Definition pragma_default_page_size : statement := fun g ctx zRight w =>
  match zRight with
  | Some z => done [] (set_defaults (with_page_size (atoi z) (defaults g)) g) ctx w
  | None => done [sqlcipher_vdbe_return_string "cipher_default_page_size"
                    (print_int (default_page_size (defaults g)))] g ctx w
  end.

Definition flag_value (b : bool) : Z := if b then 1 else 0.

Definition pragma_default_use_hmac : statement := fun g ctx zRight w =>
  match zRight with
  | Some z => done [] (set_defaults (sqlcipher_set_default_use_hmac (sqlite3GetBoolean z 1) (defaults g)) g) ctx w
  | None => done [sqlcipher_vdbe_return_string "cipher_default_use_hmac"
                    (print_int (flag_value (SQLCIPHER_FLAG_GET (default_flags (defaults g)) CIPHER_FLAG_HMAC)))] g ctx w
  end.

Definition pragma_use_hmac : statement := fun g ctx zRight w =>
  on_codec (fun c =>
    match zRight with
    | Some z =>
        let '(c, w) := then_error None (pure (sqlcipher_codec_ctx_set_use_hmac P c (sqlite3GetBoolean z 1)) w) in
        let '(c, w) := then_error None (codec_set_btree_to_codec_pagesize c w) in
        done [] g (Some c) w
    | None => done [sqlcipher_vdbe_return_string "cipher_use_hmac"
                      (print_int (flag_value (SQLCIPHER_FLAG_GET (flags c) CIPHER_FLAG_HMAC)))] g (Some c) w
    end) g ctx w.

Definition pragma_hmac_pgno : statement := fun g ctx zRight w =>
  on_codec (fun c =>
    match zRight with
    | Some z =>
        let f := flags c in
        let f :=
          if is_name z (str "le") then
            SQLCIPHER_FLAG_SET (SQLCIPHER_FLAG_UNSET f CIPHER_FLAG_BE_PGNO) CIPHER_FLAG_LE_PGNO
          else if is_name z (str "be") then
            SQLCIPHER_FLAG_SET (SQLCIPHER_FLAG_UNSET f CIPHER_FLAG_LE_PGNO) CIPHER_FLAG_BE_PGNO
          else if is_name z (str "native") then
            SQLCIPHER_FLAG_UNSET (SQLCIPHER_FLAG_UNSET f CIPHER_FLAG_LE_PGNO) CIPHER_FLAG_BE_PGNO
          else f in
        done [sqlcipher_vdbe_return_string "cipher_hmac_pgno"
                (str "PRAGMA cipher_hmac_pgno is deprecated, please remove from use")] g (Some (set_flags f c)) w
    | None =>
        let v := if SQLCIPHER_FLAG_GET (flags c) CIPHER_FLAG_LE_PGNO then str "le"
                 else if SQLCIPHER_FLAG_GET (flags c) CIPHER_FLAG_BE_PGNO then str "be" else str "native" in
        done [sqlcipher_vdbe_return_string "cipher_hmac_pgno" v] g (Some c) w
    end) g ctx w.

Definition pragma_hmac_salt_mask : statement := fun g ctx zRight w =>
  on_codec (fun c =>
    match zRight with
    | Some z =>
        let g :=
          if (sqlite3StrNICmp z (str "x'") 2 =? 0) && (sqlite3Strlen30 z =? 5)
          then set_defaults (with_salt_mask ((cipher_hex2bin (skipn 2 z) 2 [0]).[0]) (defaults g)) g
          else g in
        done [sqlcipher_vdbe_return_string "cipher_hmac_salt_mask"
                (str "PRAGMA cipher_hmac_salt_mask is deprecated, please remove from use")] g (Some c) w
    | None => done [sqlcipher_vdbe_return_string "cipher_hmac_salt_mask" (hex_pair (hmac_salt_mask (defaults g)))]
                g (Some c) w
    end) g ctx w.

(** The result code is ignored: a size that is not valid is stored as -1. *)
Definition pragma_plaintext_header_size : statement := fun g ctx zRight w =>
  on_codec (fun c =>
    match zRight with
    | Some z => done [] g (Some (snd (sqlcipher_codec_ctx_set_plaintext_header_size c (atoi z)))) w
    | None => done [sqlcipher_vdbe_return_string "cipher_plaintext_header_size"
                      (print_int (plaintext_header_sz c))] g (Some c) w
    end) g ctx w.

Definition pragma_default_plaintext_header_size : statement := fun g ctx zRight w =>
  match zRight with
  | Some z => done [] (set_defaults (with_header_size (atoi z) (defaults g)) g) ctx w
  | None => done [sqlcipher_vdbe_return_string "cipher_default_plaintext_header_size"
                    (print_int (default_plaintext_header_size (defaults g)))] g ctx w
  end.

(** The text of a salt: the digits without the terminator.  Neither result of sqlite3_malloc is
    checked before it is written to. *)
Definition pragma_salt : statement := fun g ctx zRight w =>
  on_codec (fun c =>
    match zRight with
    | Some z =>
        if (sqlite3StrNICmp z (str "x'") 2 =? 0) && (sqlite3Strlen30 z =? FILE_HEADER_SZ * 2 + 3) then
          let '(salt, w) := o_malloc FILE_HEADER_SZ w in
          if salt =? 0 then None
          else
            let s := cipher_hex2bin (skipn 2 z) 32 (memset 0 16) in
            done [] g (Some (snd (sqlcipher_codec_ctx_set_kdf_salt c s FILE_HEADER_SZ))) (o_free salt w)
        else done [] g (Some c) w
    | None =>
        let '(hexsalt, w) := o_malloc (FILE_HEADER_SZ * 2 + 1) w in
        let '(rc, salt, c, w) := sqlcipher_codec_ctx_get_kdf_salt P c w in
        if rc =? SQLITE_OK then
          if hexsalt =? 0 then None
          else
            done [sqlcipher_vdbe_return_string "cipher_salt" (firstn 32 (cipher_bin2hex salt 16 (memset 0 33)))]
              g (Some c) w
        else
          let w := o_free hexsalt w in
          let '(c, w) := sqlcipher_codec_ctx_set_error c rc w in done [] g (Some c) w
    end) g ctx w.

Definition pragma_hmac_algorithm : statement := fun g ctx zRight w =>
  on_codec (fun c =>
    match zRight with
    | Some z =>
        let r := match hmac_named z with
                 | Some a => sqlcipher_codec_ctx_set_hmac_algorithm P c a
                 | None => (SQLITE_ERROR, c)
                 end in
        let '(c, w) := then_error (Some SQLITE_ERROR) (pure r w) in
        let '(c, w) := then_error (Some SQLITE_ERROR) (codec_set_btree_to_codec_pagesize c w) in
        done [] g (Some c) w
    | None =>
        done match hmac_label (hmac_algorithm c) with
             | Some l => [sqlcipher_vdbe_return_string "cipher_hmac_algorithm" l]
             | None => []
             end g (Some c) w
    end) g ctx w.

Definition pragma_default_hmac_algorithm : statement := fun g ctx zRight w =>
  match zRight with
  | Some z =>
      done [] (match hmac_named z with
               | Some a => set_defaults (with_hmac_algorithm a (defaults g)) g
               | None => g
               end) ctx w
  | None =>
      done match hmac_label (default_hmac_algorithm (defaults g)) with
           | Some l => [sqlcipher_vdbe_return_string "cipher_default_hmac_algorithm" l]
           | None => []
           end g ctx w
  end.

Definition pragma_kdf_algorithm : statement := fun g ctx zRight w =>
  on_codec (fun c =>
    match zRight with
    | Some z =>
        let r := match kdf_named z with
                 | Some a => sqlcipher_codec_ctx_set_kdf_algorithm c a
                 | None => (SQLITE_ERROR, c)
                 end in
        let '(c, w) := then_error (Some SQLITE_ERROR) (pure r w) in
        done [] g (Some c) w
    | None =>
        done match kdf_label (kdf_algorithm c) with
             | Some l => [sqlcipher_vdbe_return_string "cipher_kdf_algorithm" l]
             | None => []
             end g (Some c) w
    end) g ctx w.

Definition pragma_default_kdf_algorithm : statement := fun g ctx zRight w =>
  match zRight with
  | Some z =>
      done [] (match kdf_named z with
               | Some a => set_defaults (with_kdf_algorithm a (defaults g)) g
               | None => g
               end) ctx w
  | None =>
      done match kdf_label (default_kdf_algorithm (defaults g)) with
           | Some l => [sqlcipher_vdbe_return_string "cipher_default_kdf_algorithm" l]
           | None => []
           end g ctx w
  end.

(** The settings of the versions 1 to 3, and those of version 4 for any other number: page
    size, algorithms of the authentication code and of the key, iterations, use of codes. *)
Definition compatibility (version : Z) : Z * Z * Z * Z * bool :=
  if version =? 1 then (1024, SQLCIPHER_HMAC_SHA1, SQLCIPHER_PBKDF2_HMAC_SHA1, 4000, false)
  else if version =? 2 then (1024, SQLCIPHER_HMAC_SHA1, SQLCIPHER_PBKDF2_HMAC_SHA1, 4000, true)
  else if version =? 3 then (1024, SQLCIPHER_HMAC_SHA1, SQLCIPHER_PBKDF2_HMAC_SHA1, 64000, true)
  else (4096, SQLCIPHER_HMAC_SHA512, SQLCIPHER_PBKDF2_HMAC_SHA512, 256000, true).

Definition pragma_compatibility : statement := fun g ctx zRight w =>
  on_codec (fun c =>
    match zRight with
    | Some z =>
        let '(page, hmac, kdf, iter, use) := compatibility (atoi z) in
        let err := then_error (Some SQLITE_ERROR) in
        let '(c, w) := err (sqlcipher_codec_ctx_set_pagesize c page w) in
        let '(c, w) := err (pure (sqlcipher_codec_ctx_set_hmac_algorithm P c hmac) w) in
        let '(c, w) := err (pure (sqlcipher_codec_ctx_set_kdf_algorithm c kdf) w) in
        let '(c, w) := err (pure (sqlcipher_codec_ctx_set_kdf_iter c iter) w) in
        let '(c, w) := err (pure (sqlcipher_codec_ctx_set_use_hmac P c use) w) in
        let '(c, w) := err (codec_set_btree_to_codec_pagesize c w) in
        done [] g (Some c) w
    | None => done [] g (Some c) w
    end) g ctx w.

Definition pragma_default_compatibility : statement := fun g ctx zRight w =>
  match zRight with
  | Some z =>
      let '(page, hmac, kdf, iter, use) := compatibility (atoi z) in
      let d := with_kdf_iter iter (with_kdf_algorithm kdf (with_hmac_algorithm hmac
                 (with_page_size page (defaults g)))) in
      done [] (set_defaults (sqlcipher_set_default_use_hmac use d) g) ctx w
  | None => done [] g ctx w
  end.

Definition pragma_memory_security : statement := fun g ctx zRight w =>
  match zRight with
  | Some z => done [] (if sqlite3GetBoolean z 1 then set_mem_security 1 g else g) ctx w
  | None =>
      let state := flag_value (negb (sqlcipher_mem_security_on g =? 0) && negb (sqlcipher_mem_executed g =? 0)) in
      done [sqlcipher_vdbe_return_string "cipher_memory_security" (print_int state)] g ctx w
  end.

(** One line of the settings: a statement that would set the value. *)
Definition setting (name : string) (v : list Z) : out_row :=
  Row (str "pragma") (Some (str "PRAGMA " ++ str name ++ str " = " ++ v ++ str ";")).

Definition named_setting (name : string) (v : option (list Z)) : out_row :=
  match v with Some v => setting name v | None => Row (str "pragma") None end.

Definition pragma_settings : statement := fun g ctx _ w =>
  on_codec (fun c =>
    done [setting "kdf_iter" (print_int (kdf_iter c));
          setting "cipher_page_size" (print_int (page_sz c));
          setting "cipher_use_hmac" (print_int (flag_value (SQLCIPHER_FLAG_GET (flags c) CIPHER_FLAG_HMAC)));
          setting "cipher_plaintext_header_size" (print_int (plaintext_header_sz c));
          named_setting "cipher_hmac_algorithm" (hmac_label (hmac_algorithm c));
          named_setting "cipher_kdf_algorithm" (kdf_label (kdf_algorithm c))] g (Some c) w) g ctx w.

Definition pragma_default_settings : statement := fun g ctx _ w =>
  let d := defaults g in
  done [setting "cipher_default_kdf_iter" (print_int (default_kdf_iter d));
        setting "cipher_default_page_size" (print_int (default_page_size d));
        setting "cipher_default_use_hmac"
          (print_int (flag_value (SQLCIPHER_FLAG_GET (default_flags d) CIPHER_FLAG_HMAC)));
        setting "cipher_default_plaintext_header_size" (print_int (default_plaintext_header_size d));
        named_setting "cipher_default_hmac_algorithm" (hmac_label (default_hmac_algorithm d));
        named_setting "cipher_default_kdf_algorithm" (kdf_label (default_kdf_algorithm d))] g ctx w.

(** The loop over pages has one step for each page of the file. *)
Definition pragma_integrity_check : statement := fun g ctx _ w =>
  on_codec (fun c =>
    match sqlcipher_codec_ctx_integrity_check P mask host_le (S (Z.to_nat (s_size w))) (hmac_salt_mask (defaults g)) c w with
    | None => None
    | Some (rows, c, w) => done (map Check_row rows) g (Some c) w
    end) g ctx w.

Definition pragma_log_level : statement := fun g ctx zRight w =>
  let g :=
    match zRight with
    | Some z =>
        set_log_level
          (if is_name z (str "ERROR") then SQLCIPHER_LOG_ERROR
           else if is_name z (str "WARN") then SQLCIPHER_LOG_WARN
           else if is_name z (str "INFO") then SQLCIPHER_LOG_INFO
           else if is_name z (str "DEBUG") then SQLCIPHER_LOG_DEBUG
           else if is_name z (str "TRACE") then SQLCIPHER_LOG_TRACE
           else SQLCIPHER_LOG_NONE) g
    | None => g
    end in
  done [sqlcipher_vdbe_return_string "cipher_log_level" (sqlcipher_get_log_level_str (sqlcipher_log_level g))]
    g ctx w.

Definition pragma_log_source : statement := fun g ctx zRight w =>
  let g :=
    match zRight with
    | Some z =>
        let s := sqlcipher_log_source g in
        set_log_source
          (if is_name z (str "NONE") then SQLCIPHER_LOG_NONE
           else if is_name z (str "ANY") then SQLCIPHER_LOG_ANY
           else if is_name z (str "CORE") then SQLCIPHER_FLAG_SET s SQLCIPHER_LOG_CORE
           else if is_name z (str "MEMORY") then SQLCIPHER_FLAG_SET s SQLCIPHER_LOG_MEMORY
           else if is_name z (str "MUTEX") then SQLCIPHER_FLAG_SET s SQLCIPHER_LOG_MUTEX
           else if is_name z (str "PROVIDER") then SQLCIPHER_FLAG_SET s SQLCIPHER_LOG_PROVIDER
           else s) g
    | None => g
    end in
  done [Row (str "cipher_log_source") (sqlcipher_get_log_sources_str (sqlcipher_log_source g))] g ctx w.

Definition pragma_log : statement := fun g ctx zRight w =>
  match zRight with
  | Some z =>
      let '(rc, g, w) := sqlcipher_set_log z g w in
      done [sqlcipher_vdbe_return_string "cipher_log" (print_int rc)] g ctx w
  | None => done [] g ctx w
  end.

(** ** Dispatch *)

(** Whether a statement is for a value, for no value, or for both. *)
Inductive arity := Any | Given | Absent.

Definition fits (a : arity) (zRight : option (list Z)) : bool :=
  match a, zRight with Any, _ | Given, Some _ | Absent, None => true | _, _ => false end.

(** The first chain of tests, which the second one follows without an else. *)
Definition first_chain : list (string * arity * statement) :=
  [("cipher_fips_status"%string, Absent, pragma_fips_status);
   ("cipher_store_pass"%string, Any, pragma_store_pass)].

Definition second_chain : list (string * arity * statement) :=
  [("cipher_profile"%string, Given, pragma_profile);
   ("cipher_add_random"%string, Given, pragma_add_random);
   ("cipher_migrate"%string, Absent, pragma_migrate);
   ("cipher_provider"%string, Absent, pragma_provider);
   ("cipher_provider_version"%string, Absent, pragma_provider_version);
   ("cipher_version"%string, Absent, pragma_version);
   ("cipher"%string, Any, pragma_cipher);
   ("rekey_cipher"%string, Given, pragma_rekey_cipher);
   ("cipher_default_kdf_iter"%string, Any, pragma_default_kdf_iter);
   ("kdf_iter"%string, Any, pragma_kdf_iter);
   ("fast_kdf_iter"%string, Any, pragma_fast_kdf_iter);
   ("rekey_kdf_iter"%string, Given, pragma_rekey_kdf_iter);
   ("page_size"%string, Any, pragma_page_size);
   ("cipher_page_size"%string, Any, pragma_page_size);
   ("cipher_default_page_size"%string, Any, pragma_default_page_size);
   ("cipher_default_use_hmac"%string, Any, pragma_default_use_hmac);
   ("cipher_use_hmac"%string, Any, pragma_use_hmac);
   ("cipher_hmac_pgno"%string, Any, pragma_hmac_pgno);
   ("cipher_hmac_salt_mask"%string, Any, pragma_hmac_salt_mask);
   ("cipher_plaintext_header_size"%string, Any, pragma_plaintext_header_size);
   ("cipher_default_plaintext_header_size"%string, Any, pragma_default_plaintext_header_size);
   ("cipher_salt"%string, Any, pragma_salt);
   ("cipher_hmac_algorithm"%string, Any, pragma_hmac_algorithm);
   ("cipher_default_hmac_algorithm"%string, Any, pragma_default_hmac_algorithm);
   ("cipher_kdf_algorithm"%string, Any, pragma_kdf_algorithm);
   ("cipher_default_kdf_algorithm"%string, Any, pragma_default_kdf_algorithm);
   ("cipher_compatibility"%string, Any, pragma_compatibility);
   ("cipher_default_compatibility"%string, Any, pragma_default_compatibility);
   ("cipher_memory_security"%string, Any, pragma_memory_security);
   ("cipher_settings"%string, Any, pragma_settings);
   ("cipher_default_settings"%string, Any, pragma_default_settings);
   ("cipher_integrity_check"%string, Any, pragma_integrity_check);
   ("cipher_log_level"%string, Any, pragma_log_level);
   ("cipher_log_source"%string, Any, pragma_log_source);
   ("cipher_log"%string, Given, pragma_log)].

(** The first test that succeeds; [None] if there is none. *)
Fixpoint lookup (chain : list (string * arity * statement)) (zLeft : list Z) (zRight : option (list Z))
    : option statement :=
  match chain with
  | [] => None
  | (name, a, st) :: chain =>
      if is_name zLeft (str name) && fits a zRight then Some st else lookup chain zLeft zRight
  end.

Definition sqlcipher_codec_pragma (g : Globals) (ctx : option codec_ctx) (zLeft : list Z)
    (zRight : option (list Z)) (w : W) : option reply :=
  match (match lookup first_chain zLeft zRight with
         | Some st => st g ctx zRight w
         | None => done [] g ctx w
         end) with
  | None => None
  | Some (_, rows1, g, ctx, w) =>
      match lookup second_chain zLeft zRight with
      | None => Some (0, rows1, g, ctx, w)
      | Some st =>
          match st g ctx zRight w with
          | None => None
          | Some (rc, rows2, g, ctx, w) => Some (rc, rows1 ++ rows2, g, ctx, w)
          end
      end
  end.

(** ** The settings stay well formed *)

Context {StL : StoreLaws W} {PL : ProviderLaws P} {MemL : MemoryLaws W}.

(** A context apart from its buffer. *)
Definition base_wf (ctx : codec_ctx) : Prop :=
  sizes_wf ctx /\ settings_wf P ctx /\ keys_wf ctx (read_ctx ctx) /\ keys_wf ctx (write_ctx ctx)
  /\ 512 <= page_sz ctx <= 65536 /\ page_sz ctx mod 16 = 0
  /\ length (snd (hmac_kdf_salt ctx)) = length (snd (kdf_salt ctx)).

(** The buffer has the size of a page unless an error is recorded. *)
Definition sound (ctx : codec_ctx) : Prop :=
  base_wf ctx
  /\ (error ctx = SQLITE_OK -> is_null (buffer ctx) = false /\ Z.of_nat (length (snd (buffer ctx))) = page_sz ctx).

Lemma sound_codec_wf ctx : sound ctx -> error ctx = SQLITE_OK -> codec_wf P ctx.
Proof.
  intros [(Hz & Hs & Hr & Hw & Hp & H16 & Lh) Hb] He. destruct (Hb He) as [_ L].
  exact (conj Hz (conj Hs (conj Hr (conj Hw (conj Hp (conj H16 (conj L Lh))))))).
Qed.

Lemma sound_error ctx e : base_wf ctx -> e <> SQLITE_OK -> sound (set_error e ctx).
Proof. intros H He. split; [exact H|]. cbn [error set_error]. contradiction. Qed.

(** The space at the end of a page, rounded up to blocks. *)
Lemma round_up r b : 0 < b -> 0 <= r ->
  let q := if Z.rem r b =? 0 then r else (Z.quot r b + 1) * b in
  r <= q < r + b /\ q mod b = 0.
Proof.
  intros Hb Hr q. unfold q. rewrite Z.rem_mod_nonneg, Z.quot_div_nonneg by lia.
  pose proof (Z.div_mod r b). pose proof (Z.mod_pos_bound r b). destruct (Z.eqb_spec (r mod b) 0).
  - split; [lia | assumption].
  - split; [nia | apply Z.mod_mul; lia].
Qed.

Definition provider_sizes (ctx : codec_ctx) : Prop :=
  key_sz ctx = p_get_key_sz P /\ iv_sz ctx = p_get_iv_sz P /\ block_sz ctx = p_get_block_sz P.

Lemma reserve_setup_wf ctx rc ctx' : provider_sizes ctx ->
  sqlcipher_codec_ctx_reserve_setup P ctx = (rc, ctx') -> rc = SQLITE_OK /\ settings_wf P ctx'.
Proof.
  intros (Ek & Ei & Eb) H. unfold sqlcipher_codec_ctx_reserve_setup in H. cbn [block_sz set_hmac_sz flags] in H.
  pose proof iv_sz_pos. pose proof block_sz_pos as Hbp. pose proof (hmac_sz_range (hmac_algorithm ctx)).
  rewrite Eb in H. destruct (Z.ltb_spec 0 (p_get_block_sz P)); [|lia]. injection H as <- <-.
  split; [reflexivity|]. set (r := if SQLCIPHER_FLAG_GET (flags ctx) CIPHER_FLAG_HMAC then _ else _).
  assert (Hr : r = iv_sz ctx + (if has_hmac ctx then p_get_hmac_sz P (hmac_algorithm ctx) else 0))
    by (unfold r, has_hmac; destruct (SQLCIPHER_FLAG_GET _ _); cbn [hmac_sz set_hmac_sz]; lia).
  assert (Hr0 : 0 <= r) by (rewrite Hr; destruct (has_hmac ctx); lia).
  pose proof (round_up r (p_get_block_sz P) ltac:(lia) Hr0) as R. cbv zeta in R.
  set (q := if Z.rem r _ =? 0 then _ else _) in *. destruct R as [Rq Rm].
  unfold settings_wf. cbn [key_sz iv_sz block_sz hmac_sz hmac_algorithm reserve_sz set_reserve_sz set_hmac_sz].
  change (has_hmac (set_reserve_sz q (set_hmac_sz (p_get_hmac_sz P (hmac_algorithm ctx)) ctx))) with (has_hmac ctx).
  rewrite Eb. repeat split; auto; try lia. rewrite Hr in Rq. destruct (has_hmac ctx); lia.
Qed.

Lemma settings_provider ctx : settings_wf P ctx -> provider_sizes ctx.
Proof. intros (? & ? & ? & _). repeat split; assumption. Qed.

(** A change of flags and of an algorithm, followed by the new layout of pages. *)
Lemma relayout_sound ctx f a rc ctx' : sound ctx ->
  sqlcipher_codec_ctx_reserve_setup P (set_flags f (set_hmac_algorithm a ctx)) = (rc, ctx') ->
  rc = SQLITE_OK /\ sound ctx' /\ error ctx' = error ctx.
Proof.
  intros [(Hz & Hs & Hr & Hw & Hp & H16 & Lh) Hb] E. pose proof E as E'.
  apply reserve_setup_wf in E'; [|exact (settings_provider _ Hs)]. destruct E' as [-> Hs'].
  unfold sqlcipher_codec_ctx_reserve_setup in E. injection E as <-.
  split; [reflexivity|]. split; [|reflexivity].
  exact (conj (conj Hz (conj Hs' (conj Hr (conj Hw (conj Hp (conj H16 Lh)))))) Hb).
Qed.

Lemma power_of_two_16 n : 512 <= n -> Z.land n (n - 1) = 0 -> n mod 16 = 0.
Proof.
  intros Hn Hl. destruct (Z.eqb_spec (n mod 16) 0) as [|Hr]; [assumption|]. exfalso.
  assert (Hq : Z.shiftr (Z.land n (n - 1)) 4 = n / 16).
  { rewrite Z.shiftr_land, !Z.shiftr_div_pow2 by lia. change (2 ^ 4) with 16.
    replace ((n - 1) / 16) with (n / 16); [apply Z.land_diag|].
    pose proof (Z.div_mod n 16). pose proof (Z.mod_pos_bound n 16).
    apply Z.div_unique with (n mod 16 - 1); lia. }
  rewrite Hl in Hq. change (Z.shiftr 0 4) with 0 in Hq.
  pose proof (Z.div_le_mono 512 n 16 ltac:(lia) Hn) as G. change (512 / 16) with 32 in G. lia.
Qed.

Lemma pagesize_sound ctx size w rc ctx' w' : sound ctx ->
  sqlcipher_codec_ctx_set_pagesize ctx size w = (rc, ctx', w') ->
  base_wf ctx' /\ error ctx' = error ctx /\ (rc = SQLITE_OK -> sound ctx').
Proof.
  intros Hs H. pose proof Hs as [Hb _]. unfold sqlcipher_codec_ctx_set_pagesize in H.
  destruct (key_used ctx); [injection H as <- <- <-; auto|].
  destruct (_ || _ || _) eqn:EC; [injection H as <- <- <-; auto|].
  apply orb_false_elim in EC. destruct EC as [EC E3%Z.ltb_ge]. apply orb_false_elim in EC.
  destruct EC as [E1%negb_false_iff E2%Z.ltb_ge]. apply andb_prop in E1. destruct E1 as [_ E1%Z.eqb_eq].
  destruct (alloc size _) as [b w1] eqn:EA. injection H as <- <- <-.
  assert (B : base_wf (set_buffer b (set_page_sz size ctx))).
  { destruct Hb as (Hz & Hse & Hr & Hw & Hp & H16 & Lh).
    refine (conj Hz (conj Hse (conj Hr (conj Hw (conj _ (conj _ Lh)))))); cbn [page_sz set_buffer set_page_sz];
      [lia | now apply power_of_two_16]. }
  split; [exact B|]. split; [reflexivity|]. intros Hok. split; [exact B|]. intros _.
  cbn [buffer page_sz set_buffer set_page_sz]. destruct (is_null b) eqn:EN; [discriminate Hok|].
  split; [reflexivity|]. unfold alloc in EA. destruct (m_malloc size _) as [a w2].
  destruct (a =? 0); injection EA as <- _; [discriminate EN|]. cbn [snd]. rewrite length_memset. lia.
Qed.

Lemma then_error_sound err rc ctx w : base_wf ctx -> (rc = SQLITE_OK -> sound ctx) -> err <> Some SQLITE_OK ->
  sound (fst (then_error err (rc, ctx, w))).
Proof.
  intros Hb Hs He. unfold then_error. destruct (Z.eqb_spec rc SQLITE_OK) as [e|e]; cbn [negb]; [auto|].
  apply sound_error; [exact Hb|]. destruct err as [x|]; [congruence | exact e].
Qed.

Lemma btree_sound err ctx w : sound ctx -> err <> Some SQLITE_OK ->
  sound (fst (then_error err (codec_set_btree_to_codec_pagesize ctx w))).
Proof.
  intros Hs He. unfold codec_set_btree_to_codec_pagesize. destruct (s_set_pagesize _ _ _) as [rc w'].
  apply then_error_sound; [apply Hs | auto | exact He].
Qed.

Lemma pure_sound err r w : sound (snd r) -> err <> Some SQLITE_OK -> sound (fst (then_error err (pure r w))).
Proof. intros Hs He. apply then_error_sound; [apply Hs | auto | exact He]. Qed.

Lemma use_hmac_sound ctx use : sound ctx -> sound (snd (sqlcipher_codec_ctx_set_use_hmac P ctx use)).
Proof.
  intros Hs. unfold sqlcipher_codec_ctx_set_use_hmac. destruct (key_used ctx); [exact Hs|].
  assert (G : forall f, sound (snd (sqlcipher_codec_ctx_reserve_setup P (set_flags f ctx)))).
  { intros f. destruct (sqlcipher_codec_ctx_reserve_setup P (set_flags f ctx)) as [rc ctx'] eqn:E.
    replace (set_flags f ctx) with (set_flags f (set_hmac_algorithm (hmac_algorithm ctx) ctx)) in E
      by (destruct ctx; reflexivity).
    now destruct (relayout_sound _ _ _ _ _ Hs E) as (_ & H & _). }
  destruct use; apply G.
Qed.

Lemma hmac_algorithm_sound ctx a : sound ctx -> sound (snd (sqlcipher_codec_ctx_set_hmac_algorithm P ctx a)).
Proof.
  intros Hs. unfold sqlcipher_codec_ctx_set_hmac_algorithm. destruct (key_used ctx); [exact Hs|].
  destruct (sqlcipher_codec_ctx_reserve_setup P (set_hmac_algorithm a ctx)) as [rc ctx'] eqn:E.
  replace (set_hmac_algorithm a ctx) with (set_flags (flags ctx) (set_hmac_algorithm a ctx)) in E
    by (destruct ctx; reflexivity).
  now destruct (relayout_sound _ _ _ _ _ Hs E) as (_ & H & _).
Qed.

Lemma kdf_algorithm_sound ctx a : sound ctx -> sound (snd (sqlcipher_codec_ctx_set_kdf_algorithm ctx a)).
Proof. intros Hs. unfold sqlcipher_codec_ctx_set_kdf_algorithm. destruct (key_used ctx); exact Hs. Qed.

Lemma derive_key_sound ctx d : sound ctx -> sound (sqlcipher_set_derive_key ctx d).
Proof.
  intros [(Hz & Hs & Hr & Hw & Hp & H16 & Lh) Hb]. split; [|exact Hb].
  refine (conj Hz (conj Hs (conj _ (conj _ (conj Hp (conj H16 Lh)))))); unfold sqlcipher_set_derive_key;
    cbn [read_ctx write_ctx set_write_ctx set_read_ctx];
    destruct (cc_addr (read_ctx ctx) =? 0), (cc_addr (write_ctx ctx) =? 0); first [exact Hr | exact Hw].
Qed.

Lemma kdf_iter_sound ctx n : sound ctx -> sound (snd (sqlcipher_codec_ctx_set_kdf_iter ctx n)).
Proof.
  intros Hs. unfold sqlcipher_codec_ctx_set_kdf_iter. destruct (key_used ctx); [exact Hs|]. now apply derive_key_sound.
Qed.

Lemma fast_kdf_iter_sound ctx n : sound ctx -> sound (snd (sqlcipher_codec_ctx_set_fast_kdf_iter ctx n)).
Proof.
  intros Hs. unfold sqlcipher_codec_ctx_set_fast_kdf_iter. destruct (key_used ctx); [exact Hs|]. now apply derive_key_sound.
Qed.

Lemma header_size_sound ctx n : sound ctx -> sound (snd (sqlcipher_codec_ctx_set_plaintext_header_size ctx n)).
Proof. intros Hs. unfold sqlcipher_codec_ctx_set_plaintext_header_size. destruct (_ && _); exact Hs. Qed.

Lemma derived_sound ctx ctx1 r wr : sound ctx -> refreshed ctx ctx1 -> keys_wf ctx r -> keys_wf ctx wr ->
  sound (set_write_ctx wr (set_read_ctx r ctx1)).
Proof.
  intros [(Hz & Hs & _ & _ & Hp & H16 & Lh) Hb] R Kr Kw.
  pose proof (refreshed_sizes _ _ Hz R) as Hz'. pose proof (refreshed_salts _ _ Hz Lh R) as Lh'.
  pose proof (refreshed_hmac _ _ R) as Eh. destruct R as (f & s & h & -> & _).
  refine (conj (conj Hz' (conj _ (conj Kr (conj Kw (conj Hp (conj H16 Lh')))))) Hb).
  unfold settings_wf, has_hmac in *. cbn [flags set_write_ctx set_read_ctx] in *. rewrite Eh. exact Hs.
Qed.

Lemma refreshed_sound ctx ctx' : sound ctx -> refreshed ctx ctx' -> sound ctx'.
Proof.
  intros Hs R. pose proof Hs as [(_ & _ & Hr & Hw & _) _].
  replace ctx' with (set_write_ctx (write_ctx ctx) (set_read_ctx (read_ctx ctx) ctx')).
  - now apply derived_sound with ctx.
  - destruct R as (? & ? & ? & -> & _). destruct ctx; reflexivity.
Qed.

Lemma kdf_salt_sound ctx salt : sound ctx -> bytes salt -> length salt = 16%nat ->
  sound (snd (sqlcipher_codec_ctx_set_kdf_salt ctx salt FILE_HEADER_SZ)).
Proof.
  intros Hs B L. pose proof Hs as [(Hz & _) _]. unfold sqlcipher_codec_ctx_set_kdf_salt.
  destruct (key_used ctx); [exact Hs|]. destruct (kdf_salt_sz ctx <=? FILE_HEADER_SZ); [|exact Hs].
  cbn [snd]. apply (refreshed_sound ctx); [exact Hs|].
  assert (E : length (firstn (Z.to_nat (kdf_salt_sz ctx)) salt) = Z.to_nat (kdf_salt_sz ctx)).
  { rewrite length_firstn, L. destruct Hz as (_ & -> & _). reflexivity. }
  pose proof (put_salt ctx _ Hz (bytes_firstn _ _ B) E) as R.
  exact (refreshed_trans _ _ _ R (put_salt_flag _ (refreshed_sizes _ _ Hz R))).
Qed.

(** The byte order of page numbers has its own flags. *)
Lemma flag_unset f b c : Z.land b c = 0 -> SQLCIPHER_FLAG_GET (SQLCIPHER_FLAG_UNSET f b) c = SQLCIPHER_FLAG_GET f c.
Proof.
  intros H. unfold SQLCIPHER_FLAG_GET, SQLCIPHER_FLAG_UNSET. f_equal. f_equal.
  rewrite <- Z.land_assoc. f_equal. apply Z.bits_inj'. intros n Hn. rewrite Z.land_spec, Z.lnot_spec by exact Hn.
  apply (f_equal (fun x => Z.testbit x n)) in H. rewrite Z.land_spec, Z.bits_0 in H.
  destruct (Z.testbit b n), (Z.testbit c n); try reflexivity; discriminate.
Qed.

Lemma flags_sound ctx f : sound ctx -> SQLCIPHER_FLAG_GET f CIPHER_FLAG_HMAC = has_hmac ctx -> sound (set_flags f ctx).
Proof.
  intros [(Hz & Hs & Hk) Hb] E. refine (conj (conj Hz (conj _ Hk)) Hb).
  unfold settings_wf. change (has_hmac (set_flags f ctx)) with (SQLCIPHER_FLAG_GET f CIPHER_FLAG_HMAC). rewrite E. exact Hs.
Qed.

Lemma check_page_sound ctx page w rows ctx' w' : sound ctx ->
  check_page P mask host_le ctx page w = Some (rows, ctx', w') -> sound ctx'.
Proof.
  intros Hs. unfold check_page. destruct (sqlite3pager_is_sj_pgno page w); [intros H; now injection H as <- <- <-|].
  set (off := if page =? 1 then _ else _). destruct (_ || _ || _) eqn:G; [discriminate|].
  apply orb_false_elim in G. destruct G as [G _]. apply orb_false_elim in G. destruct G as [_ G%Z.ltb_ge].
  destruct (s_read _ _ _) as [[ok b] w1] eqn:ER. destruct (read_bytes _ _ _ _ _ _ ER) as [_ Lb].
  set (b' := memcpy _ 0 b).
  assert (S1 : sound (put_buffer b' ctx)).
  { destruct Hs as [Hbase Hb]. refine (conj Hbase _). intros He. destruct (Hb He) as [N L].
    split; [exact N|]. unfold b', put_buffer. cbn [buffer set_buffer snd].
    rewrite length_memcpy; rewrite ?length_sqlcipher_memset; [exact L | lia]. }
  destruct ok; cbn [negb]; [|intros H; now injection H as <- <- <-].
  pose proof S1 as [(_ & _ & Kr & _) _]. rewrite page_hmac_eq by exact Kr.
  destruct (p_hmac P _ _ _ _ _) as [r w2].
  assert (S2 : sound (set_read_ctx (read_ctx (put_buffer b' ctx)) (put_buffer b' ctx))) by exact S1.
  destruct r; [|intros H; now injection H as <- <- <-].
  destruct (sqlcipher_memcmp _ _ _); intros H; injection H as <- <- <-; exact S2.
Qed.

Lemma check_pages_sound fuel : forall ctx size page w rows ctx' last w', sound ctx ->
  check_pages P mask host_le fuel ctx size page w = Some (rows, ctx', last, w') -> sound ctx'.
Proof.
  induction fuel as [|fuel IH]; intros ctx size page w rows ctx' last w' Hs H; [discriminate|]. cbn [check_pages] in H.
  destruct (page <=? _); [|now injection H as <- <- <- <-].
  destruct (check_page P mask host_le ctx page w) as [[[r ctx1] w1]|] eqn:E; [|discriminate].
  destruct (check_pages P mask host_le fuel ctx1 size (u32 (page + 1)) w1) as [[[[r' ctx2] l] w2]|] eqn:E2; [|discriminate].
  injection H as <- <- <- <-. apply check_page_sound in E; eauto.
Qed.

(** A statement for a database with a codec: the settings are well formed behind it, and if it
    cannot be carried out, it is one of three. *)
Definition keeps (may_stop : bool) (st : statement) : Prop := forall g c z w, sound c ->
  match st g (Some c) z w with
  | Some (_, _, _, c', _) => exists c1, c' = Some c1 /\ sound c1
  | None => may_stop = true
  end.

Definition may_stop (name : list Z) : bool :=
  is_name name (str "cipher_add_random") || is_name name (str "cipher_salt")
  || is_name name (str "cipher_integrity_check").

Lemma kept c : sound c -> exists c1, Some c = Some c1 /\ sound c1.
Proof. eauto. Qed.

Lemma integrity_check_sound g c w : bytes mask -> sound c ->
  match pragma_integrity_check g (Some c) None w with
  | Some (_, _, _, c', _) => exists c1, c' = Some c1 /\ sound c1
  | None => True
  end.
Proof.
  intros Hm Hs. unfold pragma_integrity_check, on_codec, sqlcipher_codec_ctx_integrity_check, done.
  destruct (negb (s_open w)); [now apply kept|]. destruct (negb _); [now apply kept|].
  pose proof Hs as [(Hz & _ & Hr & Hw & _ & _ & Lh) _].
  pose proof (codec_key_derive_all P mask (hmac_salt_mask (defaults g)) c w Hm Hz Hr Hw Lh) as D.
  destruct (sqlcipher_codec_key_derive _ _ _ _ _) as [[[rc c1] w1]|]; [|exact I].
  destruct D as (ctx1 & r & wr & -> & R & Kr & Kw & _). pose proof (derived_sound _ _ _ _ Hs R Kr Kw) as S1.
  destruct (negb (rc =? SQLITE_OK)); [now apply kept|].
  destruct (alloc _ w1) as [h w2]. destruct (_ && _); [exact I|].
  destruct (check_pages _ _ _ _ _ _ _ w2) as [[[[rows c2] l] w3]|] eqn:E; [|exact I].
  apply kept. now apply check_pages_sound in E.
Qed.

Lemma page_size_keeps : keeps false pragma_page_size.
Proof.
  unfold keeps, pragma_page_size, done. intros g c [z|] w Hs; [|now apply kept].
  destruct (sqlcipher_codec_ctx_set_pagesize c (atoi z) w) as [[rc c1] w1] eqn:E1.
  destruct (pagesize_sound _ _ _ _ _ _ Hs E1) as (B & _ & S1).
  assert (S1' : sound (fst (then_error None (rc, c1, w1)))) by (apply then_error_sound; [assumption.. | discriminate]).
  destruct (then_error None (rc, c1, w1)) as [c2 w2]. cbn [fst] in S1'.
  pose proof (btree_sound None c2 w2 S1' ltac:(discriminate)) as S2.
  destruct (then_error None (codec_set_btree_to_codec_pagesize c2 w2)) as [c3 w3]. now apply kept.
Qed.

Lemma use_hmac_keeps : keeps false pragma_use_hmac.
Proof.
  unfold keeps, pragma_use_hmac, on_codec, done. intros g c [z|] w Hs; [|now apply kept].
  pose proof (pure_sound None _ w (use_hmac_sound c (sqlite3GetBoolean z 1) Hs) ltac:(discriminate)) as S1.
  destruct (then_error None (pure _ w)) as [c2 w2]. pose proof (btree_sound None c2 w2 S1 ltac:(discriminate)) as S2.
  destruct (then_error None (codec_set_btree_to_codec_pagesize c2 w2)) as [c3 w3]. now apply kept.
Qed.

Lemma hmac_pgno_keeps : keeps false pragma_hmac_pgno.
Proof.
  unfold keeps, pragma_hmac_pgno, on_codec, done. intros g c [z|] w Hs; [|now apply kept].
  apply kept, flags_sound; [exact Hs|]. unfold has_hmac.
  destruct (is_name z _); [|destruct (is_name z _); [|destruct (is_name z _); [|reflexivity]]];
    rewrite ?flag_or, !flag_unset by reflexivity; rewrite ?orb_false_r; reflexivity.
Qed.

Lemma salt_keeps : keeps true pragma_salt.
Proof.
  unfold keeps, pragma_salt, on_codec, done. intros g c [z|] w Hs.
  - destruct (_ && _); [|now apply kept]. destruct (o_malloc _ w) as [a w1]. destruct (a =? 0); [reflexivity|]. apply kept.
    destruct (hex2bin_wf (skipn 2 z) 32 (memset 0 16) 16 (bytes_memset 0 16 ltac:(unfold is_byte; lia)) eq_refl) as [B L].
    apply kdf_salt_sound; [exact Hs | exact B | lia].
  - destruct (o_malloc _ w) as [a w1].
    unfold sqlcipher_codec_ctx_get_kdf_salt. destruct (salt_step P c w1) as [[rc c1] w2] eqn:E.
    pose proof Hs as [(Hz & _) _]. apply (salt_step_refreshed P _ _ _ _ _ Hz) in E.
    pose proof (refreshed_sound _ _ Hs E) as S1.
    destruct (Z.eqb_spec rc SQLITE_OK); [destruct (a =? 0); [reflexivity | now apply kept]|].
    unfold sqlcipher_codec_ctx_set_error. apply kept, sound_error; [apply S1 | assumption].
Qed.

Lemma hmac_algorithm_keeps : keeps false pragma_hmac_algorithm.
Proof.
  unfold keeps, pragma_hmac_algorithm, on_codec, done. intros g c [z|] w Hs; [|now apply kept].
  assert (S0 : sound (snd match hmac_named z with
                          | Some a => sqlcipher_codec_ctx_set_hmac_algorithm P c a
                          | None => (SQLITE_ERROR, c) end))
    by (destruct (hmac_named z); [now apply hmac_algorithm_sound | exact Hs]).
  pose proof (pure_sound (Some SQLITE_ERROR) _ w S0 ltac:(discriminate)) as S1.
  destruct (then_error _ (pure _ w)) as [c2 w2]. pose proof (btree_sound (Some SQLITE_ERROR) c2 w2 S1 ltac:(discriminate)) as S2.
  destruct (then_error _ (codec_set_btree_to_codec_pagesize c2 w2)) as [c3 w3]. now apply kept.
Qed.

Lemma kdf_algorithm_keeps : keeps false pragma_kdf_algorithm.
Proof.
  unfold keeps, pragma_kdf_algorithm, on_codec, done. intros g c [z|] w Hs; [|now apply kept].
  assert (S0 : sound (snd match kdf_named z with
                          | Some a => sqlcipher_codec_ctx_set_kdf_algorithm c a
                          | None => (SQLITE_ERROR, c) end))
    by (destruct (kdf_named z); [now apply kdf_algorithm_sound | exact Hs]).
  pose proof (pure_sound (Some SQLITE_ERROR) _ w S0 ltac:(discriminate)) as S1.
  destruct (then_error _ (pure _ w)) as [c2 w2]. now apply kept.
Qed.

Lemma compatibility_keeps : keeps false pragma_compatibility.
Proof.
  unfold keeps, pragma_compatibility, on_codec, done. intros g c [z|] w Hs; [|now apply kept].
  destruct (compatibility (atoi z)) as [[[[page hmac] kdf] iter] use].
  assert (E : Some SQLITE_ERROR <> Some SQLITE_OK) by discriminate.
  destruct (sqlcipher_codec_ctx_set_pagesize c page w) as [[rc c1] w1] eqn:E1.
  destruct (pagesize_sound _ _ _ _ _ _ Hs E1) as (B & _ & S1).
  pose proof (then_error_sound (Some SQLITE_ERROR) rc c1 w1 B S1 E) as S2.
  destruct (then_error _ (rc, c1, w1)) as [c2 w2].
  pose proof (pure_sound _ _ w2 (hmac_algorithm_sound c2 hmac S2) E) as S3. destruct (then_error _ (pure _ w2)) as [c3 w3].
  pose proof (pure_sound _ _ w3 (kdf_algorithm_sound c3 kdf S3) E) as S4. destruct (then_error _ (pure _ w3)) as [c4 w4].
  pose proof (pure_sound _ _ w4 (kdf_iter_sound c4 iter S4) E) as S5. destruct (then_error _ (pure _ w4)) as [c5 w5].
  pose proof (pure_sound _ _ w5 (use_hmac_sound c5 use S5) E) as S6. destruct (then_error _ (pure _ w5)) as [c6 w6].
  pose proof (btree_sound (Some SQLITE_ERROR) c6 w6 S6 E) as S7.
  destruct (then_error _ (codec_set_btree_to_codec_pagesize c6 w6)) as [c7 w7]. now apply kept.
Qed.

Lemma add_random_keeps : keeps true pragma_add_random.
Proof.
  unfold keeps, pragma_add_random, on_codec, done. intros g c [z|] w Hs; [|now apply kept].
  destruct (sqlcipher_codec_add_random z w) as [[rc w1]|]; [now apply kept | reflexivity].
Qed.

Lemma integrity_check_keeps : bytes mask -> keeps true pragma_integrity_check.
Proof.
  intros Hm g c z w Hs. pose proof (integrity_check_sound g c w Hm Hs) as H.
  change (pragma_integrity_check g (Some c) z w) with (pragma_integrity_check g (Some c) None w).
  destruct (pragma_integrity_check g (Some c) None w); [exact H | reflexivity].
Qed.

Lemma other_keeps : Forall (keeps false)
  [pragma_fips_status; pragma_store_pass; pragma_profile; pragma_provider; pragma_provider_version;
   pragma_version; pragma_cipher; pragma_rekey_cipher; pragma_default_kdf_iter; pragma_kdf_iter;
   pragma_fast_kdf_iter; pragma_rekey_kdf_iter; pragma_default_page_size; pragma_default_use_hmac;
   pragma_hmac_salt_mask; pragma_plaintext_header_size; pragma_default_plaintext_header_size;
   pragma_default_hmac_algorithm; pragma_default_kdf_algorithm; pragma_default_compatibility;
   pragma_memory_security; pragma_settings; pragma_default_settings; pragma_log_level; pragma_log_source;
   pragma_log].
Proof.
  repeat apply Forall_cons; [..|apply Forall_nil]; intros g c [z|] w Hs;
    cbv beta iota delta [pragma_fips_status pragma_store_pass pragma_profile pragma_provider pragma_provider_version
      pragma_version pragma_cipher pragma_rekey_cipher pragma_default_kdf_iter pragma_kdf_iter pragma_fast_kdf_iter
      pragma_rekey_kdf_iter pragma_default_page_size pragma_default_use_hmac pragma_hmac_salt_mask
      pragma_plaintext_header_size pragma_default_plaintext_header_size pragma_default_hmac_algorithm
      pragma_default_kdf_algorithm pragma_default_compatibility pragma_memory_security pragma_settings
      pragma_default_settings pragma_log_level pragma_log_source pragma_log on_codec done];
    try (now apply kept);
    first [ apply kept; first [exact Hs | now apply kdf_iter_sound | now apply fast_kdf_iter_sound | now apply header_size_sound]
          | destruct (compatibility (atoi z)) as [[[[page hmac] kdf] iter] use]; now apply kept
          | destruct (sqlcipher_set_log z g w) as [[rc g'] w']; now apply kept
          | destruct (sqlcipher_cipher_profile z w) as [rc w']; now apply kept ].
Qed.

Lemma keeps_weaken b st : keeps false st -> keeps b st.
Proof.
  intros K g c z w Hs. specialize (K g c z w Hs). destruct (st g (Some c) z w) as [[[[[? ?] ?] ?] ?]|]; [exact K | discriminate].
Qed.

(** A statement found in a chain is an entry of it. *)
Lemma lookup_entry (Q : statement -> Prop) zLeft zRight chain st :
  Forall (fun e => is_name zLeft (str (fst (fst e))) = true -> Q (snd e)) chain ->
  lookup chain zLeft zRight = Some st -> Q st.
Proof.
  induction 1 as [|[[name a] st'] chain He _ IH]; cbn [lookup]; [discriminate|].
  destruct (is_name zLeft (str name)) eqn:EN; cbn [andb]; [|exact IH].
  destruct (fits a zRight); [|exact IH]. intros [= ->]. exact (He EN).
Qed.

Lemma chains_keep zLeft : bytes mask -> is_name zLeft (str "cipher_migrate") = false ->
  Forall (fun e => is_name zLeft (str (fst (fst e))) = true -> keeps (may_stop zLeft) (snd e))
    (first_chain ++ second_chain).
Proof.
  intros Hm HN. pose proof other_keeps as O. cbn [first_chain second_chain app].
  assert (Ks : forall b, Forall (keeps b) _) by
    exact (fun b => Forall_cons _ (keeps_weaken b _ page_size_keeps) (Forall_cons _ (keeps_weaken b _ use_hmac_keeps)
      (Forall_cons _ (keeps_weaken b _ hmac_pgno_keeps)
      (Forall_cons _ (keeps_weaken b _ hmac_algorithm_keeps) (Forall_cons _ (keeps_weaken b _ kdf_algorithm_keeps)
      (Forall_cons _ (keeps_weaken b _ compatibility_keeps) (Forall_impl _ (keeps_weaken b) O))))))).
  specialize (Ks (may_stop zLeft)). rewrite Forall_forall in Ks.
  repeat apply Forall_cons; [..|apply Forall_nil]; cbn [fst snd]; intros EN;
    try (apply Ks; cbn [In]; tauto).
  - unfold may_stop. rewrite EN. exact add_random_keeps.
  - congruence.
  - unfold may_stop. rewrite EN, orb_true_r. exact salt_keeps.
  - unfold may_stop. rewrite EN, orb_true_r. now apply integrity_check_keeps.
Qed.

(** What every statement of that name keeps, the dispatch keeps. *)
Lemma dispatch (Inv : codec_ctx -> Prop) (stop : Prop) g c zLeft zRight w :
  Forall (fun e => is_name zLeft (str (fst (fst e))) = true -> forall g c z w, Inv c ->
            match snd e g (Some c) z w with
            | Some (_, _, _, c', _) => exists c1, c' = Some c1 /\ Inv c1
            | None => stop
            end) (first_chain ++ second_chain) ->
  Inv c ->
  match sqlcipher_codec_pragma g (Some c) zLeft zRight w with
  | Some (_, _, _, c', _) => exists c1, c' = Some c1 /\ Inv c1
  | None => stop
  end.
Proof.
  intros K Hi. apply Forall_app in K. destruct K as [K1 K2]. unfold sqlcipher_codec_pragma.
  pose (Q := fun st : statement => forall g c z w, Inv c ->
    match st g (Some c) z w with Some (_, _, _, c', _) => exists c1, c' = Some c1 /\ Inv c1 | None => stop end).
  assert (F : match (match lookup first_chain zLeft zRight with
                     | Some st => st g (Some c) zRight w
                     | None => done [] g (Some c) w end) with
              | Some (_, _, _, c', _) => exists c1, c' = Some c1 /\ Inv c1
              | None => stop end).
  { destruct (lookup first_chain zLeft zRight) as [st|] eqn:E; [|cbn; eauto].
    now apply (lookup_entry Q _ _ _ _ K1 E). }
  destruct (match lookup first_chain zLeft zRight with Some st => _ | None => _ end) as [[[[[rc r1] g1] c1'] w1]|];
    [|exact F]. destruct F as (c1 & -> & S1).
  destruct (lookup second_chain zLeft zRight) as [st|] eqn:E; [|eauto].
  pose proof (lookup_entry Q _ _ _ _ K2 E g1 c1 zRight w1 S1) as K.
  destruct (st g1 (Some c1) zRight w1) as [[[[[rc2 r2] g2] c2] w2]|]; exact K.
Qed.

(** C4: The settings of a database stay well formed: from a context whose sizes fit the provider
    and whose page buffer has the size of a page (unless an error is recorded), every PRAGMA
    of SQLCipher but cipher_migrate, with any name and any value, leads to such a context.
    The only statements that can stop the program are cipher_add_random, cipher_salt and
    cipher_integrity_check. *)
Theorem pragma_settings_typed g c zLeft zRight w :
  bytes mask -> is_name zLeft (str "cipher_migrate") = false -> sound c ->
  match sqlcipher_codec_pragma g (Some c) zLeft zRight w with
  | Some (_, _, _, c', _) => exists c1, c' = Some c1 /\ sound c1
  | None => may_stop zLeft = true
  end.
Proof.
  intros Hm HN Hs. exact (dispatch sound _ g c zLeft zRight w (chains_keep zLeft Hm HN) Hs).
Qed.

(** ** A key in use fixes the format of the file *)





















End Pragma.
