(* ===== verification/ScSettings.v ===== *)
(** * SQLCipher: settings that are shown, and settings that do not fit

    PRAGMA cipher_settings prints statements that give another database the same settings; and
    a size of the header in plain text that was valid when it was set is not checked again when
    the page size changes. *)

From Stdlib Require Import String ZArith Lia List Bool.
From S2P Require Import Prelude ScText ScBytes ScHeap ScProvider ScContext ScKeys ScPage ScIntegrity ScPragma.
Import ListNotations.
Local Open Scope Z_scope.

Section Settings.
Context {W : Type} {Mem : Memory W} {St : Store W} {Out : Outside W} (P : sqlcipher_provider W).
Context (mask : list Z) (host_le : bool).
Context {StL : StoreLaws W} {PL : ProviderLaws P} {MemL : MemoryLaws W}.

Local Abbreviation pragma := (sqlcipher_codec_pragma P mask host_le).

(** The names and values of the statements that cipher_settings prints. *)
Definition printed (c : codec_ctx) (hmac kdf : list Z) : list (string * list Z) :=
  [("kdf_iter"%string, print_int (kdf_iter c));
   ("cipher_page_size"%string, print_int (page_sz c));
   ("cipher_use_hmac"%string, print_int (flag_value (has_hmac c)));
   ("cipher_plaintext_header_size"%string, print_int (plaintext_header_sz c));
   ("cipher_hmac_algorithm"%string, hmac);
   ("cipher_kdf_algorithm"%string, kdf)].

(** Statements one after the other. *)
Fixpoint replay (g : Globals) (l : list (string * list Z)) (ctx : option codec_ctx) (w : W)
    : option (Globals * option codec_ctx * W) :=
  match l with
  | [] => Some (g, ctx, w)
  | (name, v) :: l =>
      match pragma g ctx (str name) (Some v) w with
      | None => None
      | Some (_, _, g, ctx, w) => replay g l ctx w
      end
  end.

(** A statement of the second chain. *)
Lemma pragma_second g ctx zLeft zRight w st :
  lookup (first_chain P) zLeft zRight = None -> lookup (second_chain P mask host_le) zLeft zRight = Some st ->
  pragma g ctx zLeft zRight w = st g ctx zRight w.
Proof.
  intros E1 E2. unfold sqlcipher_codec_pragma. rewrite E1, E2. unfold done. cbn [app].
  destruct (st g ctx zRight w) as [[[[[? ?] ?] ?] ?]|]; reflexivity.
Qed.

Lemma label_hmac a l : hmac_label a = Some l -> hmac_named l = Some a.
Proof.
  unfold hmac_label. destruct (Z.eqb_spec a SQLCIPHER_HMAC_SHA1) as [->|]; [intros [= <-]; reflexivity|].
  destruct (Z.eqb_spec a SQLCIPHER_HMAC_SHA256) as [->|]; [intros [= <-]; reflexivity|].
  destruct (Z.eqb_spec a SQLCIPHER_HMAC_SHA512) as [->|]; [intros [= <-]; reflexivity | discriminate].
Qed.

Lemma label_kdf a l : kdf_label a = Some l -> kdf_named l = Some a.
Proof.
  unfold kdf_label. destruct (Z.eqb_spec a SQLCIPHER_PBKDF2_HMAC_SHA1) as [->|]; [intros [= <-]; reflexivity|].
  destruct (Z.eqb_spec a SQLCIPHER_PBKDF2_HMAC_SHA256) as [->|]; [intros [= <-]; reflexivity|].
  destruct (Z.eqb_spec a SQLCIPHER_PBKDF2_HMAC_SHA512) as [->|]; [intros [= <-]; reflexivity | discriminate].
Qed.

(** The space at the end of a page, for the algorithm and flag of a context. *)
Definition room (ctx : codec_ctx) : Z := reserve_sz (snd (sqlcipher_codec_ctx_reserve_setup P ctx)).

Lemma room_ext a b : settings_wf P a -> settings_wf P b -> hmac_algorithm a = hmac_algorithm b ->
  has_hmac a = has_hmac b -> room a = room b.
Proof.
  intros (_ & Ia & Ba & _) (_ & Ib & Bb & _) Ea Eh. unfold room, sqlcipher_codec_ctx_reserve_setup, has_hmac in *.
  cbn [snd reserve_sz set_reserve_sz set_hmac_sz flags iv_sz block_sz hmac_sz]. now rewrite Ia, Ba, Ib, Bb, Ea, Eh.
Qed.

(** The functions below the statements succeed. *)
Definition undisturbed (n : Z) : Prop :=
  (forall w, fst (m_malloc n w) <> 0) /\ (forall r w, fst (s_set_pagesize n r w) = SQLITE_OK).

Lemma btree_ok err ctx w : undisturbed (page_sz ctx) ->
  exists w', then_error err (codec_set_btree_to_codec_pagesize ctx w) = (ctx, w').
Proof.
  intros [_ H]. unfold codec_set_btree_to_codec_pagesize. specialize (H (reserve_sz ctx) w).
  destruct (s_set_pagesize _ _ w) as [rc w']. cbn [fst] in H. subst rc. exists w'. reflexivity.
Qed.

Lemma run_page_size g ctx n w : key_used ctx = false -> 512 <= n <= 65536 -> Z.land n (n - 1) = 0 -> undisturbed n ->
  exists a w', a <> 0 /\ pragma g (Some ctx) (str "cipher_page_size") (Some (print_int n)) w
    = Some (1, [], g, Some (set_buffer (a, memset 0 (Z.to_nat n)) (set_page_sz n ctx)), w').
Proof.
  intros Hk Hn Hl U. rewrite (pragma_second _ _ _ _ _ pragma_page_size) by reflexivity.
  unfold pragma_page_size. rewrite (proj2 (printed_int n ltac:(lia))).
  unfold sqlcipher_codec_ctx_set_pagesize. rewrite Hk.
  destruct (Z.eqb_spec n 0), (Z.ltb_spec n 512), (Z.ltb_spec 65536 n); try lia. rewrite Hl. cbn [Z.eqb negb andb orb].
  unfold alloc. destruct (m_malloc n _) as [a w1] eqn:E. pose proof (proj1 U (release (buffer ctx) (page_sz ctx) w)) as Ha.
  rewrite E in Ha. cbn [fst] in Ha. rewrite (proj2 (Z.eqb_neq a 0) Ha). unfold is_null at 1. cbn [fst].
  rewrite (proj2 (Z.eqb_neq a 0) Ha). unfold then_error at 1. rewrite (eq_refl : (SQLITE_OK =? SQLITE_OK) = true). cbn [negb].
  set (c' := set_buffer _ _). destruct (btree_ok None c' w1) as (w2 & ->); [exact U|]. exists a, w2. auto.
Qed.

Lemma run_kdf_iter g ctx n w : key_used ctx = false -> - 2 ^ 31 <= n < 2 ^ 31 ->
  pragma g (Some ctx) (str "kdf_iter") (Some (print_int n)) w
  = Some (1, [], g, Some (sqlcipher_set_derive_key (set_kdf_iter n ctx) 1), w).
Proof.
  intros Hk Hn. rewrite (pragma_second _ _ _ _ _ pragma_kdf_iter) by reflexivity.
  unfold pragma_kdf_iter, on_codec, done. rewrite (proj2 (printed_int n ltac:(lia))).
  unfold sqlcipher_codec_ctx_set_kdf_iter. now rewrite Hk.
Qed.

Definition with_hmac (use : bool) (ctx : codec_ctx) : codec_ctx :=
  set_flags (if use then SQLCIPHER_FLAG_SET (flags ctx) CIPHER_FLAG_HMAC
             else SQLCIPHER_FLAG_UNSET (flags ctx) CIPHER_FLAG_HMAC) ctx.

Lemma with_hmac_flags use ctx : has_hmac (with_hmac use ctx) = use /\ key_used (with_hmac use ctx) = key_used ctx.
Proof.
  unfold has_hmac, key_used, with_hmac. cbn [flags set_flags].
  destruct use; [rewrite !flag_or; now rewrite orb_true_r, orb_false_r|].
  split; [|now rewrite flag_unset by reflexivity].
  unfold SQLCIPHER_FLAG_GET, SQLCIPHER_FLAG_UNSET. rewrite <- Z.land_assoc.
  replace (Z.land (Z.lnot CIPHER_FLAG_HMAC) CIPHER_FLAG_HMAC) with 0 by reflexivity. now rewrite Z.land_0_r.
Qed.

Lemma run_use_hmac g ctx use w : key_used ctx = false -> undisturbed (page_sz ctx) ->
  exists w', pragma g (Some ctx) (str "cipher_use_hmac") (Some (print_int (flag_value use))) w
    = Some (1, [], g, Some (snd (sqlcipher_codec_ctx_reserve_setup P (with_hmac use ctx))), w').
Proof.
  intros Hk U. rewrite (pragma_second _ _ _ _ _ (pragma_use_hmac P)) by reflexivity.
  unfold pragma_use_hmac, on_codec, done, sqlcipher_codec_ctx_set_use_hmac. rewrite Hk.
  replace (sqlite3GetBoolean (print_int (flag_value use)) 1) with use by (destruct use; reflexivity).
  replace (if use then set_flags (SQLCIPHER_FLAG_SET (flags ctx) CIPHER_FLAG_HMAC) ctx
           else set_flags (SQLCIPHER_FLAG_UNSET (flags ctx) CIPHER_FLAG_HMAC) ctx) with (with_hmac use ctx)
    by (unfold with_hmac; destruct use; reflexivity).
  set (c' := snd (sqlcipher_codec_ctx_reserve_setup P (with_hmac use ctx))).
  change (then_error None (pure (sqlcipher_codec_ctx_reserve_setup P (with_hmac use ctx)) w)) with (c', w).
  cbv beta iota. destruct (btree_ok None c' w) as (w1 & ->); [exact U|]. eauto.
Qed.

Lemma run_header g ctx n w : 0 <= n <= page_sz ctx - reserve_sz ctx -> page_sz ctx <= 65536 ->
  0 < iv_sz ctx <= reserve_sz ctx -> 0 < block_sz ctx -> n mod block_sz ctx = 0 ->
  pragma g (Some ctx) (str "cipher_plaintext_header_size") (Some (print_int n)) w
  = Some (1, [], g, Some (set_plaintext_header_sz n ctx), w).
Proof.
  intros Hn Hp Hi Hb Hm. rewrite (pragma_second _ _ _ _ _ pragma_plaintext_header_size) by reflexivity.
  unfold pragma_plaintext_header_size, on_codec, done. rewrite (proj2 (printed_int n ltac:(lia))).
  unfold sqlcipher_codec_ctx_set_plaintext_header_size. rewrite Z.rem_mod_nonneg, Hm by lia.
  destruct (Z.leb_spec 0 n), (Z.ltb_spec 0 (block_sz ctx)), (Z.leb_spec n (page_sz ctx - reserve_sz ctx)); try lia.
  reflexivity.
Qed.

Lemma run_algorithms g ctx a hmac k kdf w : key_used ctx = false -> undisturbed (page_sz ctx) ->
  hmac_label a = Some hmac -> kdf_label k = Some kdf ->
  exists w', replay g [("cipher_hmac_algorithm"%string, hmac); ("cipher_kdf_algorithm"%string, kdf)] (Some ctx) w
    = Some (g, Some (set_kdf_algorithm k (snd (sqlcipher_codec_ctx_reserve_setup P (set_hmac_algorithm a ctx)))), w').
Proof.
  intros Hk U La Lk. cbn [replay].
  rewrite (pragma_second _ _ _ _ _ (pragma_hmac_algorithm P)) by reflexivity.
  unfold pragma_hmac_algorithm, on_codec, done. rewrite (label_hmac _ _ La).
  unfold sqlcipher_codec_ctx_set_hmac_algorithm. rewrite Hk.
  set (c' := snd (sqlcipher_codec_ctx_reserve_setup P (set_hmac_algorithm a ctx))).
  change (then_error (Some SQLITE_ERROR) (pure (sqlcipher_codec_ctx_reserve_setup P (set_hmac_algorithm a ctx)) w)) with (c', w).
  cbv beta iota. destruct (btree_ok (Some SQLITE_ERROR) c' w) as (w1 & ->); [exact U|].
  rewrite (pragma_second _ _ _ _ _ pragma_kdf_algorithm) by reflexivity.
  unfold pragma_kdf_algorithm, on_codec, done. rewrite (label_kdf _ _ Lk).
  unfold sqlcipher_codec_ctx_set_kdf_algorithm. change (key_used c') with (key_used ctx). rewrite Hk.
  unfold pure, then_error. cbn [fst snd]. rewrite (eq_refl : (SQLITE_OK =? SQLITE_OK) = true). cbn [negb]. eauto.
Qed.

(** What the statements determine. *)
Definition shown (c : codec_ctx) :=
  (kdf_iter c, page_sz c, has_hmac c, plaintext_header_sz c, hmac_algorithm c, kdf_algorithm c, hmac_sz c, reserve_sz c).

(** C34: The statements that PRAGMA cipher_settings prints for a database, carried out in their
    order on another one whose key is not in use, give it the same iterations, page size, use
    and algorithm of authentication codes, size of the plain header and key derivation, hence
    the same layout of pages, and record no error.  The plain header has to fit
    under the authentication code that the other database has before its algorithm is set,
    because its size is printed first. *)
Theorem settings_replay g c d hmac kdf w :
  settings_wf P c -> settings_wf P d -> reserve_sz c = room c -> key_used d = false -> - 2 ^ 31 <= kdf_iter c < 2 ^ 31 ->
  512 <= page_sz c <= 65536 -> Z.land (page_sz c) (page_sz c - 1) = 0 ->
  0 <= plaintext_header_sz c <= page_sz c - room (with_hmac (has_hmac c) d) -> plaintext_header_sz c mod block_sz c = 0 ->
  hmac_label (hmac_algorithm c) = Some hmac -> kdf_label (kdf_algorithm c) = Some kdf -> undisturbed (page_sz c) ->
  pragma_settings g (Some c) None w
    = done (map (fun s => setting (fst s) (snd s)) (printed c hmac kdf)) g (Some c) w
  /\ exists d' w', replay g (printed c hmac kdf) (Some d) w = Some (g, Some d', w')
    /\ shown d' = shown c /\ error d' = error d.
Proof.
  intros Sc Sd Er Hu Hi Hp Hl Hh Hm La Lk U. split.
  { unfold pragma_settings, on_codec. rewrite La, Lk. reflexivity. }
  pose proof Sc as (_ & _ & Bc & Mc & _). pose proof Sd as (_ & Id & Bd & _). unfold printed.
  cbn [replay]. rewrite run_kdf_iter by assumption. set (d1 := sqlcipher_set_derive_key _ 1).
  destruct (run_page_size g d1 (page_sz c) w Hu Hp Hl U) as (a & w2 & _ & ->). set (d2 := set_buffer _ _).
  destruct (run_use_hmac g d2 (has_hmac c) w2 Hu U) as (w3 & ->).
  destruct (with_hmac_flags (has_hmac c) d2) as [Fh Fu]. set (d3 := snd _) in *.
  assert (E3 : provider_sizes P (with_hmac (has_hmac c) d2)) by exact (settings_provider P d Sd).
  destruct (reserve_setup_wf P _ SQLITE_OK d3 E3 eq_refl) as [_ S3].
  destruct (reserve_room P _ S3) as (Hiv & _).
  rewrite run_header; [|exact Hh | exact (proj2 Hp) | exact Hiv | | ].
  2: { change (block_sz d3) with (block_sz d). rewrite Bd. apply block_sz_pos. }
  2: { change (block_sz d3) with (block_sz d). rewrite Bd, <- Bc. exact Hm. }
  set (d4 := set_plaintext_header_sz _ d3).
  destruct (run_algorithms g d4 _ hmac _ kdf w3 (eq_trans Fu Hu) U La Lk) as (w5 & R). cbn [replay] in R. rewrite R.
  do 2 eexists. split; [reflexivity|]. split; [|reflexivity]. clear R.
  set (d5 := set_hmac_algorithm (hmac_algorithm c) d4).
  assert (E5 : room d5 = room c).
  { assert (E5 : provider_sizes P d5) by exact (settings_provider P d Sd).
    destruct (reserve_setup_wf P d5 SQLITE_OK _ E5 eq_refl) as [_ S5].
    rewrite <- (room_ext (snd (sqlcipher_codec_ctx_reserve_setup P d5)) c S5 Sc eq_refl Fh). reflexivity. }
  unfold shown. f_equal; [f_equal|]; [|symmetry; exact Mc | rewrite Er; exact E5].
  f_equal. f_equal. f_equal. f_equal. exact Fh.
Qed.

Lemma blocks_of_16 n : 0 <= n -> (16 * n) mod p_get_block_sz P = 0.
Proof.
  intros Hn. pose proof block_sz_pos as Hb. pose proof (Z.div_mod 16 (p_get_block_sz P) ltac:(lia)) as E.
  rewrite block_sz_divides in E. rewrite E, Z.add_0_r, <- Z.mul_assoc, Z.mul_comm. apply Z.mod_mul. lia.
Qed.

(** C36: The size of the plain header is not checked again when the page gets smaller.  With a
    page of at least 2048 bytes a plain header of 1024 bytes is accepted, and then a page of
    512 bytes is too, without an error; the first time page 1 is read after its key is
    derived, the header is copied past the end of the page buffer. *)
Theorem plain_header_overflow salt_mask g c w data :
  bytes mask -> sound P c -> error c = SQLITE_OK -> key_used c = false ->
  1024 + reserve_sz c <= page_sz c -> undisturbed 512 ->
  exists c' w', replay g [("cipher_plaintext_header_size"%string, print_int 1024);
                          ("cipher_page_size"%string, print_int 512)] (Some c) w = Some (g, Some c', w')
    /\ sound P c' /\ error c' = SQLITE_OK
    /\ (forall c2 w2, sqlcipher_codec_key_derive P mask salt_mask c' w' = Some (SQLITE_OK, c2, w2) ->
          sqlite3Codec P mask host_le salt_mask c' data 1 CODEC_READ_OP w' = None).
Proof.
  intros Hm Hs He Hu Hr U. pose proof Hs as [(_ & Sc & _ & _ & Hp & _) _].
  destruct (reserve_room P _ Sc) as (Hiv & _). cbn [replay].
  rewrite run_header; [|lia | lia | exact Hiv | |].
  2: { destruct Sc as (_ & _ & -> & _). apply block_sz_pos. }
  2: { destruct Sc as (_ & _ & -> & _). apply (blocks_of_16 64). lia. }
  set (c1 := set_plaintext_header_sz 1024 c).
  assert (S1 : sound P c1) by exact Hs.
  pose proof (page_size_keeps P g c1 (Some (print_int 512)) w S1) as K.
  destruct (run_page_size g c1 512 w Hu ltac:(lia) eq_refl U) as (a & w2 & _ & E).
  rewrite (pragma_second _ _ _ _ _ pragma_page_size) in E by reflexivity. rewrite E in K.
  rewrite (pragma_second _ _ _ _ _ pragma_page_size) by reflexivity. rewrite E.
  destruct K as (c' & [= <-] & S2). set (c' := set_buffer _ _) in *. exists c', w2.
  split; [reflexivity|]. split; [exact S2|]. split; [exact He|]. intros c2 w3 D.
  pose proof S2 as [(Hz & _ & Kr & Kw & _ & _ & Lh) _].
  pose proof (codec_key_derive_all P mask salt_mask c' w2 Hm Hz Kr Kw Lh) as A. rewrite D in A.
  destruct A as (ctx1 & r & wr & -> & R & _). unfold sqlite3Codec. change (error c') with (error c). rewrite He, D.
  destruct R as (f & s & h & -> & _). reflexivity.
Qed.

(** The first two statements are answered, but the caller is told that they were not: the
    chain of tests is broken behind them by a missing else.  PRAGMA cipher_store_pass stores
    its value and returns a row, and the function returns 0 as for an unknown statement,
    where every later statement returns 1. *)
Lemma store_pass_unhandled g c z w :
  pragma g (Some c) (str "cipher_store_pass") (Some z) w
    = Some (0, [sqlcipher_vdbe_return_string "cipher_store_pass"
                  (str "PRAGMA cipher_store_pass is deprecated, please remove from use")],
            g, Some (set_store_pass (if sqlite3GetBoolean z 1 then 1 else 0) c), w)
  /\ (exists r, pragma g (Some c) (str "kdf_iter") (Some z) w = Some (1, [], g, Some r, w)).
Proof. split; [reflexivity | eexists; reflexivity]. Qed.
End Settings.
