(* ===== verification/ScInit.v ===== *)
(** * SQLCipher: start and end of the library

    sqlcipher_extra_init, which SQLite calls once before the first use, and
    sqlcipher_extra_shutdown (sqlcipher.c): the mutexes, the private heap, the provider, the
    seed of the noise and the mask of the keys.  The result of the start is what
    [sqlcipherCodecAttach] consults before it gives a database its codec. *)

From Stdlib Require Import String ZArith Lia List Bool.
From S2P Require Import Prelude ScBytes ScHeap ScProvider ScText ScContext ScPragma.
Import ListNotations.
Local Open Scope Z_scope.

Definition SQLCIPHER_MUTEX_COUNT : nat := 8.
Definition SQLCIPHER_MUTEX_SHAREDCACHE : Z := 7.
Definition SQLCIPHER_LOG_LEVEL_DEFAULT : Z := SQLCIPHER_LOG_WARN.
Definition SQLCIPHER_PRIVATE_HEAP_SIZE_DEFAULT : Z := 49152.
Definition SQLCIPHER_PRIVATE_HEAP_SIZE_STEP : Z := 16384.
Definition sizeof_sqlcipher_provider : Z := 144.
Definition mask_sz : Z := Z.of_nat sqlcipher_shield_mask_sz.

(** The globals.  Addresses are numbers, 0 is NULL; [mutexes] are the results of the coming
    calls of [sqlite3_mutex_alloc], 0 for a failure; [tables] are the providers whose memory
    is valid. *)
Record Process := mkProcess {
  sqlcipher_init : Z;
  sqlcipher_init_error : Z;
  sqlcipher_shutdown : Z;
  sqlcipher_cleanup : Z;
  sqlcipher_log_set : Z;
  globals : Globals;
  sqlcipher_static_mutex : list Z;
  mutexes : list Z;
  private_heap_sz : Z;
  heap : Heap;
  providers : Providers;
  tables : list Z;
  sqlcipher_shield_mask : buf
}.

Definition set_init (i e s : Z) (p : Process) : Process :=
  mkProcess i e s (sqlcipher_cleanup p) (sqlcipher_log_set p) (globals p) (sqlcipher_static_mutex p) (mutexes p)
    (private_heap_sz p) (heap p) (providers p) (tables p) (sqlcipher_shield_mask p).
Definition set_log (c l : Z) (g : Globals) (p : Process) : Process :=
  mkProcess (sqlcipher_init p) (sqlcipher_init_error p) (sqlcipher_shutdown p) c l g (sqlcipher_static_mutex p)
    (mutexes p) (private_heap_sz p) (heap p) (providers p) (tables p) (sqlcipher_shield_mask p).
Definition set_mutexes (s m : list Z) (p : Process) : Process :=
  mkProcess (sqlcipher_init p) (sqlcipher_init_error p) (sqlcipher_shutdown p) (sqlcipher_cleanup p)
    (sqlcipher_log_set p) (globals p) s m (private_heap_sz p) (heap p) (providers p) (tables p) (sqlcipher_shield_mask p).
Definition set_heap (sz : Z) (h : Heap) (p : Process) : Process :=
  mkProcess (sqlcipher_init p) (sqlcipher_init_error p) (sqlcipher_shutdown p) (sqlcipher_cleanup p)
    (sqlcipher_log_set p) (globals p) (sqlcipher_static_mutex p) (mutexes p) sz h (providers p) (tables p)
    (sqlcipher_shield_mask p).
Definition set_providers (s : Providers) (t : list Z) (p : Process) : Process :=
  mkProcess (sqlcipher_init p) (sqlcipher_init_error p) (sqlcipher_shutdown p) (sqlcipher_cleanup p)
    (sqlcipher_log_set p) (globals p) (sqlcipher_static_mutex p) (mutexes p) (private_heap_sz p) (heap p) s t
    (sqlcipher_shield_mask p).
Definition set_mask (m : buf) (p : Process) : Process :=
  mkProcess (sqlcipher_init p) (sqlcipher_init_error p) (sqlcipher_shutdown p) (sqlcipher_cleanup p)
    (sqlcipher_log_set p) (globals p) (sqlcipher_static_mutex p) (mutexes p) (private_heap_sz p) (heap p)
    (providers p) (tables p) m.

(** A heap with another region and another state of the noise. *)
Definition set_region (a : Z) (m : list Z) (s : list Z) (h : Heap) : Heap :=
  mkHeap a m (private_heap_used h) (private_heap_hwm h) (private_heap_alloc h) (private_heap_allocs h)
    (private_heap_overflow h) (private_heap_overflows h) s (mallocs h) (outside h).

Definition sqlcipher_mutex (p : Process) (mutex : Z) : Z :=
  if (mutex <? 0) || (Z.of_nat SQLCIPHER_MUTEX_COUNT <=? mutex) then 0
  else nth (Z.to_nat mutex) (sqlcipher_static_mutex p) 0.

(** The default target of the log, on a system without a device log. *)
Definition init_logging (p : Process) : Process :=
  if negb (sqlcipher_log_set p =? 0) then p
  else
    let g := globals p in
    let g := if sqlcipher_log_level g =? SQLCIPHER_LOG_NONE then set_log_level SQLCIPHER_LOG_LEVEL_DEFAULT g else g in
    let g := if (sqlcipher_log_device g =? 0) && (sqlcipher_log_file g =? 0) then set_log_target 2 0 g else g in
    set_log (sqlcipher_cleanup p) 1 g p.

(** The loop over the mutexes; the first failure ends it. *)
Fixpoint init_mutexes (done todo : list Z) (avail : list Z) : bool * list Z * list Z :=
  match todo with
  | [] => (true, done, avail)
  | m :: todo =>
      if m =? 0 then
        match avail with
        | [] => (false, done ++ 0 :: todo, [])
        | a :: avail => if a =? 0 then (false, done ++ 0 :: todo, avail) else init_mutexes (done ++ [a]) todo avail
        end
      else init_mutexes (done ++ [m]) todo avail
  end.

(** The search for a size of the heap that can be allocated. *)
Fixpoint init_region (fuel : nat) (sz : Z) (h : Heap) : option (Z * Heap) :=
  match fuel with
  | O => None
  | S fuel =>
      if SQLCIPHER_PRIVATE_HEAP_SIZE_STEP <=? sz then
        match sqlcipher_internal_malloc h sz with
        | None => None
        | Some (a, h) =>
            if a =? 0 then init_region fuel (sz - SQLCIPHER_PRIVATE_HEAP_SIZE_STEP) h
            else
              let '(noise, s) := xoshiro_randomness true (xoshiro_s h) (Z.to_nat sz) in
              Some (sz, set_region a (init_heap noise) s h)
        end
      else Some (sz, h)
  end.

Definition seed_words (b : list Z) : list Z :=
  map (fun i => le_num (slice b (8 * i) 8)) [0%nat; 1%nat; 2%nat; 3%nat].

Definition set_seed (s : list Z) (h : Heap) : Heap := set_region (private_heap h) (heap_mem h) s h.

Section Init.
Context {X : Type} (P : sqlcipher_provider X).

(** What was set up is taken down.  The memory of the providers is part of the heap. *)
Definition init_failed (rc : Z) (p : Process) (e : X) : option (Z * Process * X) :=
  match (if private_heap (heap p) =? 0 then Some (heap p)
         else sqlcipher_internal_free (heap p) (private_heap (heap p)) (private_heap_sz p)) with
  | None => None
  | Some h =>
      let t := if private_heap (heap p) =? 0 then tables p else [] in
      let h := set_region 0 [] (xoshiro_s h) h in
      match (if is_null (sqlcipher_shield_mask p) then Some h
             else sqlcipher_internal_free h (fst (sqlcipher_shield_mask p)) mask_sz) with
      | None => None
      | Some h =>
          let p := set_mask null (set_providers (providers p) t (set_heap (private_heap_sz p) h p)) in
          let p := set_mutexes (repeat 0 SQLCIPHER_MUTEX_COUNT) (mutexes p) p in
          Some (rc, set_init (sqlcipher_init p) rc (sqlcipher_shutdown p) p, e)
      end
  end.

(** The default provider is registered if there is none. *)
Definition init_provider (p : Process) : option (Z * Process) :=
  if negb (default_provider (providers p) =? 0) then Some (SQLITE_OK, p)
  else
    match sqlcipher_malloc (heap p) sizeof_sqlcipher_provider with
    | None => None
    | Some (a, h) =>
        if a =? 0 then None
        else
          match sqlcipher_register_provider 1 (providers p) a None with
          | None => None
          | Some (rc, _, s) => Some (rc, set_providers s (a :: tables p) (set_heap (private_heap_sz p) h p))
          end
    end.

(** The mask of the keys. *)
Definition init_mask (p : Process) (e : X) : option (Z * bool * Process * X) :=
  if negb (is_null (sqlcipher_shield_mask p)) then Some (SQLITE_OK, true, p, e)
  else
    match sqlcipher_internal_malloc (heap p) mask_sz with
    | None => None
    | Some (a, h) =>
        let p := set_heap (private_heap_sz p) h p in
        if a =? 0 then Some (SQLITE_OK, false, p, e)
        else
          let '(ok, b, e) := p_random P mask_sz e in
          Some (if ok then SQLITE_OK else SQLITE_ERROR, ok, set_mask (a, b) p, e)
    end.

(** [None] is the use of memory that was not allocated or is no longer. *)
Definition sqlcipher_extra_init (p : Process) (e : X) : option (Z * Process * X) :=
  if negb (sqlcipher_init p =? 0) then Some (SQLITE_OK, p, e)
  else
    let p := init_logging (set_log (if sqlcipher_cleanup p =? 0 then 1 else sqlcipher_cleanup p)
                             (sqlcipher_log_set p) (globals p) p) in
    let '(ok, ms, avail) := init_mutexes [] (sqlcipher_static_mutex p) (mutexes p) in
    let p := set_mutexes ms avail p in
    if negb ok then init_failed SQLITE_NOMEM p e
    else
      match (if private_heap (heap p) =? 0
             then init_region (S (Z.to_nat (private_heap_sz p / SQLCIPHER_PRIVATE_HEAP_SIZE_STEP)))
                    (private_heap_sz p) (heap p)
             else Some (private_heap_sz p, heap p)) with
      | None => None
      | Some (sz, h) =>
          let p := set_heap sz h p in
          if private_heap h =? 0 then init_failed SQLITE_NOMEM p e
          else
            match init_provider p with
            | None => None
            | Some (rc, p) =>
                if negb (rc =? SQLITE_OK) then init_failed rc p e
                else if negb (existsb (Z.eqb (default_provider (providers p))) (tables p)) then None
                else
                  let '(rc, e) := p_ctx_init P e in
                  if negb (rc =? SQLITE_OK) then init_failed rc p e
                  else
                    let '(ok, b, e) := p_random P 32 e in
                    let p := set_heap (private_heap_sz p) (set_seed (seed_words b) (heap p)) p in
                    if negb ok then init_failed SQLITE_ERROR p e
                    else
                      match init_mask p e with
                      | None => None
                      | Some (rc, ok, p, e) =>
                          if negb ok then init_failed rc p e
                          else Some (SQLITE_OK, set_init 1 (sqlcipher_init_error p) 0 p, p_ctx_free P e)
                      end
            end
      end.

(** The providers are released one after the other. *)
Fixpoint free_providers (fuel : nat) (nx : Z -> Z) (a : Z) (h : Heap) : option Heap :=
  match fuel with
  | O => None
  | S fuel =>
      if a =? 0 then Some h
      else
        match sqlcipher_free h a sizeof_sqlcipher_provider with
        | None => None
        | Some h => free_providers fuel nx (nx a) h
        end
  end.

Definition sqlcipher_extra_shutdown (p : Process) : option Process :=
  if (sqlcipher_init p =? 0) || negb (sqlcipher_shutdown p =? 0) then Some (set_init 0 SQLITE_ERROR 1 p)
  else
    match (if is_null (sqlcipher_shield_mask p) then Some (heap p)
           else sqlcipher_internal_free (heap p) (fst (sqlcipher_shield_mask p)) mask_sz) with
    | None => None
    | Some h =>
        match free_providers (S (length (tables p))) (next (providers p)) (default_provider (providers p)) h with
        | None => None
        | Some h =>
            match (if private_heap h =? 0 then Some h
                   else sqlcipher_internal_free h (private_heap h) (private_heap_sz p)) with
            | None => None
            | Some h =>
                let p := set_heap (private_heap_sz p) (set_region 0 [] (xoshiro_s h) h) p in
                let p := set_mask null (set_providers (mkProviders 0 (next (providers p))) [] p) in
                let p := set_mutexes (repeat 0 SQLCIPHER_MUTEX_COUNT) (mutexes p) p in
                Some (set_init 0 SQLITE_ERROR 1 p)
            end
        end
    end.

(** ** Blocks from the allocator of SQLite *)

(** The block at [a] was handed out, with at least [n] bytes. *)
Definition owns (h : Heap) (a : Z) (n : nat) : Prop :=
  exists b, find (fun b => fst b =? a) (outside h) = Some b /\ (n <= length (snd b))%nat.

Lemma internal_free_owned h a sz : owns h a (Z.to_nat sz) -> 0 <= sz < 2 ^ 31 ->
  exists s, sqlcipher_internal_free h a sz
  = Some (mkHeap (private_heap h) (heap_mem h) (private_heap_used h) (private_heap_hwm h)
            (private_heap_alloc h) (private_heap_allocs h) (private_heap_overflow h)
            (private_heap_overflows h) s (mallocs h) (filter (fun b => negb (fst b =? a)) (outside h))).
Proof.
  intros (b & E & L) Hs. unfold sqlcipher_internal_free.
  assert (Ei : to_int sz = sz).
  { unfold to_int. rewrite u32_small by (unfold is_u32; lia). destruct (Z.ltb_spec sz (2 ^ 31)); lia. }
  rewrite Ei. destruct (xoshiro_randomness true (xoshiro_s h) (Z.to_nat sz)) as [n s]. exists s. rewrite E.
  destruct (Nat.leb_spec (Z.to_nat sz) (length (snd b))); [reflexivity | lia].
Qed.

Lemma find_filter_other (l : list (Z * list Z)) a b x : a <> b ->
  find (fun y => fst y =? a) l = Some x -> find (fun y => fst y =? a) (filter (fun y => negb (fst y =? b)) l) = Some x.
Proof.
  intros Hn. induction l as [|y l IH]; [discriminate|]. cbn [find filter].
  destruct (Z.eqb_spec (fst y) a) as [E|E].
  - intros [= <-]. destruct (Z.eqb_spec (fst y) b); [congruence|]. cbn [negb find].
    destruct (Z.eqb_spec (fst y) a); [reflexivity | contradiction].
  - intros H. destruct (Z.eqb_spec (fst y) b); cbn [negb]; [now apply IH|]. cbn [find].
    destruct (Z.eqb_spec (fst y) a); [contradiction | now apply IH].
Qed.

(** The addresses that the allocator will return: new ones, and none twice. *)
Definition fresh_addresses (h : Heap) : Prop :=
  NoDup (filter (fun a => negb (a =? 0)) (mallocs h))
  /\ Forall (fun a => 0 <= a < 2 ^ 63) (mallocs h)
  /\ (forall a, In a (mallocs h) -> a <> 0 -> find (fun b => fst b =? a) (outside h) = None).

Lemma find_filter_none (l : list (Z * list Z)) a f :
  find (fun y => fst y =? a) l = None -> find (fun y => fst y =? a) (filter f l) = None.
Proof.
  induction l as [|y l IH]; [reflexivity|]. cbn [find filter]. destruct (fst y =? a) eqn:E; [discriminate|]. intros H.
  destruct (f y); [cbn [find]; rewrite E|]; now apply IH.
Qed.

Lemma internal_free_fresh h a sz h' : sqlcipher_internal_free h a sz = Some h' -> fresh_addresses h -> fresh_addresses h'.
Proof.
  intros E (Nd & Rg & Nw). unfold sqlcipher_internal_free in E. destruct (xoshiro_randomness _ _ _) as [n s]. cbv zeta in E.
  destruct (find _ (outside h)) as [b|]; [destruct (_ <=? _)%nat | destruct (_ && _)]; try discriminate E;
    injection E as <-; (split; [exact Nd|]); (split; [exact Rg|]); [|exact Nw].
  intros x Hx Hx0. apply find_filter_none. now apply Nw.
Qed.

Lemma internal_malloc_fresh h sz : fresh_addresses h -> 0 < sz < 2 ^ 31 ->
  exists a h', sqlcipher_internal_malloc h sz = Some (a, h') /\ fresh_addresses h'
    /\ 0 <= a < 2 ^ 63 /\ (a <> 0 -> owns h' a (Z.to_nat sz) /\ ~ In a (mallocs h') /\ In a (mallocs h))
    /\ private_heap h' = private_heap h /\ heap_mem h' = heap_mem h /\ xoshiro_s h' = xoshiro_s h
    /\ (forall b n, owns h b n -> b <> a -> owns h' b n) /\ (forall b, ~ In b (mallocs h) -> ~ In b (mallocs h')).
Proof.
  intros (Nd & Rg & Nw) Hs. unfold sqlcipher_internal_malloc.
  assert (Ei : to_int sz = sz).
  { unfold to_int. rewrite u32_small by (unfold is_u32; lia). destruct (Z.ltb_spec sz (2 ^ 31)); lia. }
  rewrite Ei. destruct (Z.leb_spec sz 0); [lia|].
  destruct (mallocs h) as [|a l] eqn:EM; cbn [tl].
  - do 2 eexists. split; [reflexivity|]. split; [repeat split; cbn; [constructor | constructor | tauto]|].
    split; [lia|]. split; [congruence|]. cbn. repeat split; auto.
  - pose proof (Forall_inv Rg) as Ra. cbv beta in Ra. apply Forall_inv_tail in Rg.
    destruct (Z.eqb_spec a 0) as [->|Ha].
    + do 2 eexists. split; [reflexivity|]. cbn [filter Z.eqb negb] in Nd.
      split; [split; [exact Nd|]; split; [exact Rg | intros b Hb; apply Nw; now right]|].
      split; [lia|]. split; [congruence|]. cbn [mallocs private_heap heap_mem xoshiro_s]. repeat split; auto.
      intros b Hb. cbn [In] in Hb. tauto.
    + rewrite Z.eqb_refl. do 2 eexists. split; [reflexivity|].
      cbn [filter] in Nd. destruct (Z.eqb_spec a 0); [contradiction|]. cbn [negb] in Nd. apply NoDup_cons_iff in Nd.
      destruct Nd as [Na Nd]. assert (Nl : ~ In a l).
      { intros Hl. apply Na, filter_In. split; [exact Hl|]. now destruct (Z.eqb_spec a 0). }
      split; [split; [exact Nd|]; split; [exact Rg|]|].
      * intros b Hb Hb0. cbn [outside find fst]. destruct (Z.eqb_spec a b) as [->|]; [contradiction|]. apply Nw; [now right | exact Hb0].
      * split; [lia|]. split; [intros _; split; [|split; [exact Nl | now left]]|].
        { eexists. cbn [outside find fst]. rewrite Z.eqb_refl. split; [reflexivity|]. cbn [snd]. rewrite length_memset. lia. }
        cbn [mallocs private_heap heap_mem xoshiro_s]. repeat split; auto.
        { intros b k (x & Ex & Lx) Hb. exists x. cbn [outside find fst]. destruct (Z.eqb_spec a b); [congruence|]. auto. }
        intros b Hb. cbn [In] in Hb. tauto.
Qed.

(** ** Taking down *)

Definition down (p : Process) : Prop :=
  private_heap (heap p) = 0 /\ heap_mem (heap p) = [] /\ sqlcipher_shield_mask p = null
  /\ sqlcipher_static_mutex p = repeat 0 SQLCIPHER_MUTEX_COUNT.

(** What was allocated can be released. *)
Definition releasable (p : Process) : Prop :=
  0 <= private_heap_sz p < 2 ^ 31
  /\ (private_heap (heap p) <> 0 -> owns (heap p) (private_heap (heap p)) (Z.to_nat (private_heap_sz p)))
  /\ (is_null (sqlcipher_shield_mask p) = true -> sqlcipher_shield_mask p = null)
  /\ (is_null (sqlcipher_shield_mask p) = false ->
      owns (heap p) (fst (sqlcipher_shield_mask p)) sqlcipher_shield_mask_sz
      /\ fst (sqlcipher_shield_mask p) <> private_heap (heap p)).

Lemma init_failed_down rc p e : releasable p -> fresh_addresses (heap p) ->
  exists p', init_failed rc p e = Some (rc, p', e) /\ down p' /\ sqlcipher_init_error p' = rc
    /\ sqlcipher_init p' = sqlcipher_init p /\ private_heap_sz p' = private_heap_sz p
    /\ fresh_addresses (heap p') /\ providers p' = providers p
    /\ tables p' = (if private_heap (heap p) =? 0 then tables p else []).
Proof.
  intros (Hz & Hh & Hn & Hm) Hf. unfold init_failed.
  assert (F : exists h, (if private_heap (heap p) =? 0 then Some (heap p)
      else sqlcipher_internal_free (heap p) (private_heap (heap p)) (private_heap_sz p)) = Some h
      /\ fresh_addresses h
      /\ (is_null (sqlcipher_shield_mask p) = false -> owns h (fst (sqlcipher_shield_mask p)) sqlcipher_shield_mask_sz)).
  { destruct (Z.eqb_spec (private_heap (heap p)) 0) as [|H0];
      [eexists; split; [reflexivity | split; [exact Hf | intros H; now apply Hm]]|].
    destruct (internal_free_owned _ _ _ (Hh H0) Hz) as (s & E). rewrite E. eexists. split; [reflexivity|].
    split; [exact (internal_free_fresh _ _ _ _ E Hf)|]. intros H. destruct (Hm H) as ((b & Eb & Lb) & Hne). exists b. split; [|exact Lb]. now apply find_filter_other. }
  destruct F as (h & -> & Hf1 & Hm'). cbv zeta.
  assert (F : exists h', (if is_null (sqlcipher_shield_mask p) then Some (set_region 0 [] (xoshiro_s h) h)
      else sqlcipher_internal_free (set_region 0 [] (xoshiro_s h) h) (fst (sqlcipher_shield_mask p)) mask_sz) = Some h'
      /\ private_heap h' = 0 /\ heap_mem h' = [] /\ fresh_addresses h').
  { destruct (is_null (sqlcipher_shield_mask p)); [eexists; split; [reflexivity | split; [reflexivity | split; [reflexivity | exact Hf1]]]|].
    destruct (internal_free_owned (set_region 0 [] (xoshiro_s h) h) (fst (sqlcipher_shield_mask p)) mask_sz)
      as (s & E); [exact (Hm' eq_refl) | unfold mask_sz; cbn; lia|].
    pose proof (internal_free_fresh _ _ _ _ E Hf1) as Hf2. rewrite E. eexists. split; [reflexivity | split; [reflexivity | split; [reflexivity | exact Hf2]]]. }
  destruct F as (h' & -> & E1 & E2 & E3). eexists. split; [reflexivity|]. unfold down. cbn. auto 12.
Qed.

(** ** Setting up *)

Lemma init_mutexes_all todo : forall done avail, Forall (fun m => m <> 0) done ->
  forall ok ms avail', init_mutexes done todo avail = (ok, ms, avail') -> ok = true ->
  Forall (fun m => m <> 0) ms /\ length ms = (length done + length todo)%nat.
Proof.
  induction todo as [|m todo IH]; intros d avail Hd ok ms avail' H Hok; cbn [init_mutexes] in H.
  - injection H as <- <- <-. cbn. auto.
  - assert (Go : forall a avail, a <> 0 -> init_mutexes (d ++ [a]) todo avail = (ok, ms, avail') ->
      Forall (fun m => m <> 0) ms /\ length ms = (length d + length (m :: todo))%nat).
    { intros a av Ha E. destruct (IH (d ++ [a]) av) with (3 := Hok) (2 := E) as [F L]; [apply Forall_app; auto|].
      split; [exact F|]. rewrite length_app in L. cbn [length] in *. lia. }
    destruct (Z.eqb_spec m 0); [|now apply (Go m avail)].
    destruct avail as [|a avail]; [congruence|]. destruct (Z.eqb_spec a 0); [congruence | now apply (Go a avail)].
Qed.

(** A region with one free block, or none. *)
Lemma init_region_spec fuel : forall sz h, (Z.to_nat (sz / SQLCIPHER_PRIVATE_HEAP_SIZE_STEP) < fuel)%nat ->
  0 <= sz < 2 ^ 31 -> fresh_addresses h -> private_heap h = 0 -> heap_mem h = [] ->
  exists sz' h', init_region fuel sz h = Some (sz', h') /\ 0 <= sz' <= sz /\ fresh_addresses h'
    /\ (private_heap h' = 0
        \/ SQLCIPHER_PRIVATE_HEAP_SIZE_STEP <= sz' /\ owns h' (private_heap h') (Z.to_nat sz')
           /\ ~ In (private_heap h') (mallocs h')
           /\ exists q, heap_blocks h' [(false, q)] /\ Z.of_nat (length q) = sz' - 16).
Proof.
  unfold SQLCIPHER_PRIVATE_HEAP_SIZE_STEP.
  induction fuel as [|fuel IH]; intros sz h Hf Hz Ha H0 Hm; [lia|]. cbn [init_region].
  unfold SQLCIPHER_PRIVATE_HEAP_SIZE_STEP. destruct (Z.leb_spec 16384 sz) as [Hs|Hs].
  2: { exists sz, h. split; [reflexivity|]. split; [lia|]. auto. }
  destruct (internal_malloc_fresh h sz Ha ltac:(lia)) as (a & h1 & -> & Ha1 & Ra & Ow & E1 & E2 & E3 & _).
  destruct (Z.eqb_spec a 0) as [->|Na].
  - destruct (IH (sz - 16384) h1) as (sz' & h' & E & Hz' & R); try congruence; try lia.
    { replace (sz - 16384) with (sz + -1 * 16384) by lia. rewrite Z.div_add by lia.
      assert (1 <= sz / 16384) by (apply Z.div_le_lower_bound; lia). lia. }
    exists sz', h'. split; [exact E|]. split; [lia | exact R].
  - destruct (Ow Na) as (O1 & O2 & _). destruct (xoshiro_randomness true (xoshiro_s h1) (Z.to_nat sz)) as [noise s] eqn:EX.
    pose proof (xoshiro_length true (xoshiro_s h1) (Z.to_nat sz)) as L. rewrite EX in L. cbn [fst] in L.
    do 2 eexists. split; [reflexivity|]. split; [lia|]. split; [exact Ha1|]. right. split; [lia|].
    split; [exact O1|]. split; [exact O2|]. exists (skipn 16 noise). split; [|rewrite length_skipn; lia].
    split; [apply init_heap_layout; lia|]. split; [|discriminate].
    unfold ScHeap.fits. cbn [span private_heap set_region]. rewrite length_skipn. lia.
Qed.

Lemma malloc_provider h q : heap_blocks h [(false, q)] -> 16368 <= Z.of_nat (length q) ->
  exists h', sqlcipher_malloc h sizeof_sqlcipher_provider = Some (private_heap h + 16, h')
    /\ heap_blocks h' [(true, memset 0 144); (false, skipn 160 q)]
    /\ private_heap h' = private_heap h /\ mallocs h' = mallocs h /\ outside h' = outside h.
Proof.
  intros Hb Hq. pose proof (malloc_spec h _ 144 Hb ltac:(lia)) as M. destruct Hb as (Hm & (F1 & F2 & F3) & _).
  cbn [span] in F2, F3. change (Z.to_nat 144) with 144%nat in M. cbn [alloc_spec negb andb] in M.
  destruct (Nat.leb_spec 144 (length q)), (Nat.leb_spec (144 + 48) (length q)); try lia. cbn [Nat.add] in M.
  unfold sqlcipher_malloc, sizeof_sqlcipher_provider. cbn [Z.ltb Z.compare Pos.compare Pos.compare_cont].
  change (SQLCIPHER_PRIVATE_HEAP_ROUNDUP 144) with 144. rewrite M. change (Z.of_nat 16) with 16.
  destruct (Z.eqb_spec (private_heap h + 16) 0); [lia|]. eexists. split; [reflexivity|].
  split; [|repeat split]. split; [reflexivity|]. split; [|discriminate]. unfold ScHeap.fits.
  cbn [span private_heap]. rewrite length_memset, length_skipn. lia.
Qed.


(** The library before its first start, or after its end. *)
Definition cold (p : Process) : Prop :=
  sqlcipher_init p = 0 /\ down p /\ default_provider (providers p) = 0
  /\ 0 <= private_heap_sz p < 2 ^ 31 /\ fresh_addresses (heap p).



Context {PL : ProviderLaws P}.

(** After the heap and the provider. *)
Definition provided (p : Process) (q : list Z) : Prop :=
  let B := private_heap (heap p) in
  sqlcipher_init p = 0 /\ B <> 0 /\ 0 <= private_heap_sz p < 2 ^ 31
  /\ owns (heap p) B (Z.to_nat (private_heap_sz p)) /\ ~ In B (mallocs (heap p)) /\ fresh_addresses (heap p)
  /\ heap_blocks (heap p) [(true, memset 0 144); (false, q)]
  /\ default_provider (providers p) = B + 16 /\ In (B + 16) (tables p)
  /\ sqlcipher_shield_mask p = null /\ Forall (fun m => m <> 0) (sqlcipher_static_mutex p).

Lemma init_provider_spec p q : sqlcipher_init p = 0 -> default_provider (providers p) = 0 ->
  0 <= private_heap_sz p < 2 ^ 31 -> owns (heap p) (private_heap (heap p)) (Z.to_nat (private_heap_sz p)) ->
  ~ In (private_heap (heap p)) (mallocs (heap p)) -> fresh_addresses (heap p) ->
  heap_blocks (heap p) [(false, q)] -> 16368 <= Z.of_nat (length q) -> sqlcipher_shield_mask p = null ->
  Forall (fun m => m <> 0) (sqlcipher_static_mutex p) ->
  exists p', init_provider p = Some (SQLITE_OK, p') /\ provided p' (skipn 160 q)
    /\ mallocs (heap p') = mallocs (heap p).
Proof.
  intros Hi Hd Hz Ho Hn Hf Hb Hq Hm Hx. unfold init_provider. rewrite Hd. cbn [Z.eqb negb].
  destruct (malloc_provider _ _ Hb Hq) as (h & -> & Hb' & E1 & E2 & E3). pose proof Hb as (_ & (F1 & _) & _).
  destruct (Z.eqb_spec (private_heap (heap p) + 16) 0); [lia|].
  unfold sqlcipher_register_provider. rewrite Hd. destruct (Z.eqb_spec (private_heap (heap p) + 16) 0); [lia|].
  destruct (Z.eqb_spec 0 (private_heap (heap p) + 16)); [lia|]. cbn [orb Z.eqb SQLITE_OK].
  eexists. split; [reflexivity|]. split; [|exact E2]. unfold provided, owns, fresh_addresses in *.
  cbn [heap private_heap_sz sqlcipher_init providers tables sqlcipher_shield_mask sqlcipher_static_mutex default_provider
       set_providers set_heap In]. rewrite E1, E2, E3. repeat (split; [first [assumption | lia | reflexivity | now left]|]). assumption.
Qed.

(** A start that has its heap and its provider. *)
Definition registered (p : Process) : Prop :=
  sqlcipher_init p = 0 /\ private_heap (heap p) <> 0 /\ default_provider (providers p) <> 0 /\ fresh_addresses (heap p).

Lemma provided_registered p q : provided p q -> registered p.
Proof.
  intros (Hi & HB & _ & _ & _ & Hf & Hb & Hd & _). pose proof Hb as (_ & (F1 & _) & _). split; [exact Hi|].
  split; [exact HB|]. split; [rewrite Hd; lia | exact Hf].
Qed.




Lemma provided_releasable p q : provided p q -> releasable p.
Proof.
  intros (_ & _ & Hz & Ho & _ & _ & _ & _ & _ & Hm & _). split; [exact Hz|]. split; [auto|].
  rewrite Hm. split; [reflexivity | discriminate].
Qed.


(** Logging leaves the rest alone. *)
Lemma logging_fields p c : let p0 := init_logging (set_log c (sqlcipher_log_set p) (globals p) p) in
  sqlcipher_init p0 = sqlcipher_init p /\ heap p0 = heap p /\ sqlcipher_shield_mask p0 = sqlcipher_shield_mask p
  /\ sqlcipher_static_mutex p0 = sqlcipher_static_mutex p /\ mutexes p0 = mutexes p
  /\ private_heap_sz p0 = private_heap_sz p /\ providers p0 = providers p /\ tables p0 = tables p.
Proof. cbv zeta. unfold init_logging. destruct (negb _); cbn; auto 12. Qed.




(** A library that could not get its private heap never starts again: the size that was
    reduced for each failed attempt is not restored, so every later start reports a lack of
    memory, however much there is then. *)
Theorem heap_size_lost p e : cold p -> private_heap_sz p < SQLCIPHER_PRIVATE_HEAP_SIZE_STEP ->
  exists p' e', sqlcipher_extra_init p e = Some (SQLITE_NOMEM, p', e')
    /\ sqlcipher_init p' = 0 /\ private_heap_sz p' = private_heap_sz p.
Proof.
  intros (Hi & (D1 & D2 & D3 & D4) & Hd & Hz & Ha) Hlt. unfold sqlcipher_extra_init. rewrite Hi. cbn [Z.eqb negb].
  set (p0 := init_logging _).
  destruct (logging_fields p (if sqlcipher_cleanup p =? 0 then 1 else sqlcipher_cleanup p))
    as (Ei & Eh & Ek & Ex & Eu & Ez & Ep & _). fold p0 in Ei, Eh, Ek, Ex, Eu, Ez, Ep. rewrite ?Hi, ?D3, ?D4 in *. unfold SQLCIPHER_MUTEX_COUNT in Ex.
  destruct (init_mutexes [] (sqlcipher_static_mutex p0) (mutexes p0)) as [[ok ms] avail]. cbv zeta.
  assert (Fail : forall p1, sqlcipher_init p1 = 0 -> heap p1 = heap p -> sqlcipher_shield_mask p1 = null ->
    private_heap_sz p1 = private_heap_sz p -> exists p' e', init_failed SQLITE_NOMEM p1 e = Some (SQLITE_NOMEM, p', e')
      /\ sqlcipher_init p' = 0 /\ private_heap_sz p' = private_heap_sz p).
  { intros p1 I1 H1 M1 Z1. destruct (init_failed_down SQLITE_NOMEM p1 e) as (p' & E & _ & _ & E3 & E4 & _); [|now rewrite H1|].
    - split; [rewrite Z1; exact Hz|]. rewrite H1, M1. split; [congruence|]. split; [reflexivity | discriminate].
    - exists p', e. split; [exact E|]. split; congruence. }
  destruct ok; cbn [negb]; [|now apply Fail].
  change (heap (set_mutexes ms avail p0)) with (heap p0).
  change (private_heap_sz (set_mutexes ms avail p0)) with (private_heap_sz p0). rewrite Eh, Ez, D1. cbn [Z.eqb init_region].
  destruct (Z.leb_spec SQLCIPHER_PRIVATE_HEAP_SIZE_STEP (private_heap_sz p)); [lia|].
  rewrite D1. cbn [Z.eqb]. now apply Fail.
Qed.
(** A failure to allocate the mask sets no result code. *)
Lemma mask_failure_ok p e a rest ms avail :
  cold p -> init_mutexes [] (repeat 0 8) (mutexes p) = (true, ms, avail) ->
  mallocs (heap p) = a :: 0 :: rest -> a <> 0 -> SQLCIPHER_PRIVATE_HEAP_SIZE_STEP <= private_heap_sz p ->
  (forall e, fst (p_ctx_init P e) = SQLITE_OK) -> (forall n e, fst (fst (p_random P n e)) = true) ->
  exists p' e', sqlcipher_extra_init p e = Some (SQLITE_OK, p', e')
    /\ sqlcipher_init p' = 0 /\ sqlcipher_init_error p' = SQLITE_OK.
Proof.
  intros (Hi & (D1 & D2 & D3 & D4) & Hd & Hz & Ha) EM Em Na Hs Hc Hr. unfold SQLCIPHER_PRIVATE_HEAP_SIZE_STEP in Hs.
  unfold sqlcipher_extra_init. rewrite Hi. cbn [Z.eqb negb]. set (p0 := init_logging _).
  destruct (logging_fields p (if sqlcipher_cleanup p =? 0 then 1 else sqlcipher_cleanup p))
    as (Ei & Eh & Ek & Ex & Eu & Ez & Ep & _). fold p0 in Ei, Eh, Ek, Ex, Eu, Ez, Ep. rewrite ?Hi, ?D3, ?D4 in *. unfold SQLCIPHER_MUTEX_COUNT in Ex. rewrite Ex, Eu, EM. cbv zeta. cbn [negb].
  destruct (init_mutexes_all _ _ _ (Forall_nil _) _ _ _ EM eq_refl) as [Fm _]. set (p1 := set_mutexes ms avail p0).
  change (heap p1) with (heap p0). change (private_heap_sz p1) with (private_heap_sz p0). rewrite Eh, Ez, D1. cbn [Z.eqb].
  assert (Ei1 : to_int (private_heap_sz p) = private_heap_sz p).
  { unfold to_int. rewrite u32_small by (unfold is_u32; lia). destruct (Z.ltb_spec (private_heap_sz p) (2 ^ 31)); lia. }
  destruct (init_region_spec (S (Z.to_nat (private_heap_sz p / SQLCIPHER_PRIVATE_HEAP_SIZE_STEP))) (private_heap_sz p) (heap p)
              ltac:(lia) Hz Ha D1 D2) as (sz & h & ER & Hsz & Hf & R).
  assert (Mh : mallocs h = 0 :: rest /\ private_heap h <> 0).
  { cbn [init_region] in ER. unfold SQLCIPHER_PRIVATE_HEAP_SIZE_STEP in ER. destruct (Z.leb_spec 16384 (private_heap_sz p)); [|lia].
    unfold sqlcipher_internal_malloc in ER. rewrite Ei1, Em in ER. destruct (Z.leb_spec (private_heap_sz p) 0); [lia|].
    rewrite (proj2 (Z.eqb_neq a 0) Na), Z.eqb_refl in ER. rewrite (proj2 (Z.eqb_neq a 0) Na) in ER.
    destruct (xoshiro_randomness _ _ _). injection ER as _ <-. auto. }
  destruct Mh as [Mh Nh]. rewrite ER. destruct (Z.eqb_spec (private_heap h) 0); [contradiction|].
  destruct R as [R|(Hsz2 & Ho & Hn & q & Hb & Lq)]; [contradiction|]. set (p2 := set_heap sz h p1).
  destruct (init_provider_spec p2 q) as (p3 & -> & H3 & M3); try assumption.
  { cbn. rewrite Ep. exact Hd. }
  { cbn. lia. }
  { unfold SQLCIPHER_PRIVATE_HEAP_SIZE_STEP in Hsz2. lia. }
  cbn [Z.eqb SQLITE_OK negb]. pose proof H3 as (I3 & _ & _ & _ & _ & _ & _ & D3' & T3 & K3 & _).
  replace (existsb _ _) with true by (symmetry; apply existsb_exists; exists (private_heap (heap p3) + 16); rewrite D3'; split; [exact T3 | apply Z.eqb_refl]).
  cbn [negb]. specialize (Hc e). destruct (p_ctx_init P e) as [rc e1]. cbn [fst] in Hc. subst rc.
  rewrite (eq_refl : (SQLITE_OK =? SQLITE_OK) = true). cbn [negb].
  specialize (Hr 32 e1). destruct (p_random P 32 e1) as [[ok b] e2]. cbn [fst] in Hr. subst ok. cbn [negb].
  set (p4 := set_heap _ _ p3). unfold init_mask. change (sqlcipher_shield_mask p4) with (sqlcipher_shield_mask p3).
  rewrite K3. cbn [is_null null fst Z.eqb negb]. unfold sqlcipher_internal_malloc.
  replace (mallocs (heap p4)) with (0 :: rest) by (symmetry; change (mallocs (heap p4)) with (mallocs (heap p3)); rewrite M3; exact Mh).
  change (to_int mask_sz <=? 0) with false. cbn [Z.eqb tl negb].
  set (p5 := set_heap _ _ p4). destruct (init_failed_down SQLITE_OK p5 e2) as (p' & -> & _ & E1 & E2 & _).
  { exact (provided_releasable p3 _ H3). }
  { destruct (provided_registered p3 _ H3) as (_ & _ & _ & Nd & Rg & Nw). rewrite M3 in *. change (mallocs (heap p2)) with (mallocs h) in *.
    rewrite Mh in *. split; [exact Nd|]. split; [exact (Forall_inv_tail Rg)|]. intros x Hx. apply Nw. now right. }
  exists p', e2. split; [reflexivity|]. split; [rewrite E2; exact I3 | exact E1].
Qed.
End Init.
