(* ===== verification/ScDatabase.v ===== *)
(** * SQLCipher: keys of the databases of a connection

    sqlcipherCodecAttach, which gives a database its codec, the functions that find a database by
    its name, set, change and hand on its key (sqlite3_key_v2, sqlite3_rekey_v2,
    sqlcipherCodecGetKey), and the release of a codec (sqlcipher.c, pager.c).  The B-tree and the
    pager below are the classes [Store] and [Btree], one instance for each database of the
    connection. *)

From Stdlib Require Import String ZArith Lia List Bool.
From S2P Require Import Prelude ScBytes ScHeap ScProvider ScText ScContext ScKeys ScPage ScIntegrity ScPragma ScInit.
Import ListNotations.
Local Open Scope Z_scope.

(** A database of a connection: its name, and its B-tree if it has one, with the flags of shared
    cache and of memory databases and the codec of its pager ([xCodec] is the function that is
    called for pages, absent for a memory database). *)
Record Bt := mkBt { sharable : bool; memDb : bool; xCodec : bool; pCodec : option codec_ctx }.
Record Db := mkDb { zDbSName : list Z; pBt : option Bt }.

(** What the functions use of B-tree and pager beyond [Store]. *)
Class Btree (W : Type) := {
  b_secure_delete : W -> W;
  b_set_autovacuum : W -> W;
  b_errcode : Z -> W -> W;
  b_begin : W -> Z * W;
  b_pagecount : W -> Z * W;
  b_get : Z -> codec_ctx -> W -> Z * codec_ctx * W;
  b_write : Z -> codec_ctx -> W -> Z * codec_ctx * W;
  b_unref : Z -> W -> W;
  b_commit : codec_ctx -> W -> Z * codec_ctx * W;
  b_rollback : codec_ctx -> W -> codec_ctx * W
}.

Definition set_codec (c : option codec_ctx) (b : Bt) : Bt := mkBt (sharable b) (memDb b) (xCodec b) c.

Definition sqlcipherPagerSetCodec (b : Bt) (x : bool) (c : option codec_ctx) : Bt :=
  mkBt (sharable b) (memDb b) (if memDb b then false else x) c.

Definition sqlcipherPagerGetCodec (b : Bt) : option codec_ctx := pCodec b.

(** The first database of that name, and the main one if there is none. *)
Fixpoint find_from (i : nat) (aDb : list Db) (zDb : list Z) : nat :=
  match aDb with
  | [] => 0%nat
  | d :: aDb => if list_eq_dec Z.eq_dec (zDbSName d) zDb then i else find_from (S i) aDb zDb
  end.

Definition sqlcipher_find_db_index (aDb : list Db) (zDb : option (list Z)) : nat :=
  match zDb with None => 0%nat | Some z => find_from 0 aDb z end.

(** The database [n] gets another B-tree state. *)
Definition put_bt (aDb : list Db) (n : nat) (b : Bt) : list Db :=
  match nth_error aDb n with
  | Some d => firstn n aDb ++ mkDb (zDbSName d) (Some b) :: skipn (S n) aDb
  | None => aDb
  end.

Section Database.
Context {W : Type} {Mem : Memory W} (St : nat -> Store W) (Bo : nat -> Btree W) (P : sqlcipher_provider W).
Context (mask : list Z).

(** A null pointer is read before it is tested. *)
Definition sqlite3FreeCodecArg (pCodecArg : option codec_ctx) (w : W) : option W :=
  match pCodecArg with
  | None => None
  | Some ctx => sqlcipher_codec_ctx_free P ctx w
  end.

(** The codec is created and attached; the flag tells whether the file is open. *)
Definition attach_new (p : Process) (n : nat) (b : Bt) (zKey : list Z) (nKey : Z) (w : W) : Z * Bt * W :=
  let fd := @s_open W (St n) w in
  let '(rc, ctx, w) := sqlcipher_codec_ctx_init P (defaults (globals p)) (Some zKey) nKey w in
  if negb (rc =? SQLITE_OK) then (rc, b, @b_errcode W (Bo n) rc (@s_pager_error W (St n) rc w))
  else
    let '(_, ctx, w) := @codec_set_btree_to_codec_pagesize W (St n) ctx w in
    let w := @b_secure_delete W (Bo n) w in
    (SQLITE_OK, sqlcipherPagerSetCodec b true (Some ctx), if fd then @b_set_autovacuum W (Bo n) w else w).

(** [None] is the use of a missing B-tree or context. *)
Definition sqlcipherCodecAttach (p : Process) (aDb : list Db) (nDb : nat) (zKey : option (list Z)) (nKey : Z) (w : W)
    : option (Z * list Db * W) :=
  if sqlcipher_init p =? 0 then Some (sqlcipher_init_error p, aDb, w)
  else
    match zKey with
    | None => Some (SQLITE_MISUSE, aDb, w)
    | Some z =>
        if nKey =? 0 then Some (SQLITE_MISUSE, aDb, w)
        else
          match nth_error aDb nDb with
          | Some (mkDb _ (Some b)) =>
              let fresh b w := let '(rc, b, w) := attach_new p nDb b z nKey w in Some (rc, put_bt aDb nDb b, w) in
              match sqlcipherPagerGetCodec b with
              | Some ctx =>
                  if key_used ctx then Some (SQLITE_OK, aDb, w)
                  else if sharable b then Some (SQLITE_OK, aDb, w)
                  else
                    match sqlcipher_codec_ctx_free P ctx w with
                    | None => None
                    | Some w => fresh (sqlcipherPagerSetCodec b false None) w
                    end
              | None => fresh b w
              end
          | _ => None
          end
    end.

Definition sqlite3_key_v2 (p : Process) (aDb : list Db) (zDb : option (list Z)) (pKey : option (list Z)) (nKey : Z) (w : W)
    : option (Z * list Db * W) :=
  sqlcipherCodecAttach p aDb (sqlcipher_find_db_index aDb zDb) pKey nKey w.

Definition sqlite3_key (p : Process) (aDb : list Db) (pKey : option (list Z)) (nKey : Z) (w : W) :=
  sqlite3_key_v2 p aDb (Some (str "main")) pKey nKey w.

Definition codec_set_pass_key (aDb : list Db) (nDb : nat) (zKey : option (list Z)) (nKey for_ctx : Z) (w : W)
    : Z * list Db * W :=
  match nth_error aDb nDb with
  | Some (mkDb _ (Some b)) =>
      match sqlcipherPagerGetCodec b with
      | Some ctx =>
          let '(rc, ctx, w) := sqlcipher_codec_ctx_set_pass ctx zKey nKey for_ctx w in
          (rc, put_bt aDb nDb (set_codec (Some ctx) b), w)
      | None => (SQLITE_ERROR, aDb, w)
      end
  | _ => (SQLITE_ERROR, aDb, w)
  end.

(** Every page is read with the old key and marked for writing; the loop ends at the first
    failure. *)
Fixpoint rekey_pages (fuel : nat) (n : nat) (pgno count : Z) (ctx : codec_ctx) (w : W) : option (Z * codec_ctx * W) :=
  match fuel with
  | O => None
  | S fuel =>
      if u32 count <? pgno then Some (SQLITE_OK, ctx, w)
      else if @sqlite3pager_is_sj_pgno W (St n) pgno w then rekey_pages fuel n (u32 (pgno + 1)) count ctx w
      else
        let '(rc, ctx, w) := @b_get W (Bo n) pgno ctx w in
        if negb (rc =? SQLITE_OK) then Some (rc, ctx, w)
        else
          let '(rc, ctx, w) := @b_write W (Bo n) pgno ctx w in
          if negb (rc =? SQLITE_OK) then Some (rc, ctx, w)
          else rekey_pages fuel n (u32 (pgno + 1)) count ctx (@b_unref W (Bo n) pgno w)
  end.

(** The transaction that writes every page again; its results are not returned. *)
Definition rekey_transaction (n : nat) (ctx : codec_ctx) (w : W) : option (codec_ctx * W) :=
  let '(rc, w) := @b_begin W (Bo n) w in
  let '(count, w) := @b_pagecount W (Bo n) w in
  match (if rc =? SQLITE_OK then rekey_pages (S (Z.to_nat (u32 count))) n 1 count ctx w
         else Some (rc, ctx, w)) with
  | None => None
  | Some (rc, ctx, w) =>
      if rc =? SQLITE_OK then
        let '(_, ctx, w) := @b_commit W (Bo n) ctx w in
        let '(_, ctx, w) := sqlcipher_codec_key_copy ctx CIPHER_WRITE_CTX w in Some (ctx, w)
      else Some (@b_rollback W (Bo n) ctx w)
  end.

Definition sqlite3_rekey_v2 (p : Process) (aDb : list Db) (zDb : option (list Z)) (pKey : option (list Z)) (nKey : Z) (w : W)
    : option (Z * list Db * W) :=
  if sqlcipher_init p =? 0 then Some (sqlcipher_init_error p, aDb, w)
  else
    match pKey with
    | None => Some (SQLITE_ERROR, aDb, w)
    | Some z =>
        if nKey =? 0 then Some (SQLITE_ERROR, aDb, w)
        else
          let n := sqlcipher_find_db_index aDb zDb in
          match nth_error aDb n with
          | Some (mkDb _ (Some b)) =>
              match sqlcipherPagerGetCodec b with
              | None => Some (SQLITE_MISUSE, aDb, w)
              | Some ctx =>
                  let '(_, ctx, w) := sqlcipher_codec_ctx_set_pass ctx (Some z) nKey CIPHER_WRITE_CTX w in
                  match rekey_transaction n ctx w with
                  | None => None
                  | Some (ctx, w) => Some (SQLITE_OK, put_bt aDb n (set_codec (Some ctx) b), w)
                  end
              end
          | Some (mkDb _ None) => Some (SQLITE_OK, aDb, w)
          | None => None
          end
    end.

Definition sqlite3_rekey (p : Process) (aDb : list Db) (pKey : option (list Z)) (nKey : Z) (w : W) :=
  sqlite3_rekey_v2 p aDb (Some (str "main")) pKey nKey w.

(** The key that a new database of the connection takes over: nothing is written for a database
    without B-tree, NULL and 0 for one without codec, else the passphrase if it is still there,
    and the derived keys if it is not.  The length is not written if there is no memory for
    those.  [None] is a copy to a null pointer. *)
Inductive key_out := KeyUntouched | KeyNull | KeyIs (b : buf) (n : option Z).

Definition sqlcipherCodecGetKey (aDb : list Db) (nDb : nat) (w : W) : option (key_out * list Db * W) :=
  match nth_error aDb nDb with
  | Some (mkDb _ (Some b)) =>
      match sqlcipherPagerGetCodec b with
      | Some ctx =>
          let c := read_ctx ctx in
          if negb (derive_key c =? 0) || (store_pass ctx =? 1) then
            let '(z, w) := alloc (pass_sz c) w in
            if is_null z && (0 <? pass_sz c) then None
            else Some (KeyIs (fst z, memcpy (snd z) 0 (firstn (Z.to_nat (pass_sz c)) (snd (pass c)))) (Some (pass_sz c)), aDb, w)
          else
            let '(rc, z, c, w) := sqlcipher_cipher_ctx_get_keyspec mask ctx c w in
            let n := if rc =? SQLITE_OK then Some (keyspec_size ctx) else None in
            Some (KeyIs z n, put_bt aDb nDb (set_codec (Some (set_read_ctx c ctx)) b), w)
      | None => Some (KeyNull, aDb, w)
      end
  | Some (mkDb _ None) => Some (KeyUntouched, aDb, w)
  | None => None
  end.

(** ** A new codec *)

Context {PL : ProviderLaws P}.

Lemma then_ok_inv r k ctx w : then_ok r k = (SQLITE_OK, ctx, w) ->
  exists ctx1 w1, r = (SQLITE_OK, ctx1, w1) /\ k ctx1 w1 = (SQLITE_OK, ctx, w :> W).
Proof.
  unfold then_ok. destruct r as [[rc ctx1] w1]. destruct (Z.eqb_spec rc SQLITE_OK) as [->|]; [eauto | congruence].
Qed.

Lemma alloc_some n w b w' : alloc n w = (b, w') -> is_null b = false -> length (snd b) = Z.to_nat n /\ bytes (snd b).
Proof.
  unfold alloc. destruct (m_malloc n w) as [a w1]. destruct (a =? 0); intros [= <- <-] H; [discriminate|].
  cbn [snd]. rewrite length_memset. split; [reflexivity|]. apply bytes_memset. unfold is_byte. lia.
Qed.

Lemma cipher_init_wf ctx w c w' : sqlcipher_cipher_ctx_init ctx w = (SQLITE_OK, c, w') -> 0 < key_sz ctx ->
  keys_wf ctx c /\ pass c = null /\ pass_sz c = 0 /\ cc_addr c <> 0.
Proof.
  unfold sqlcipher_cipher_ctx_init. intros H Hk. destruct (m_malloc _ w) as [a w1]. destruct (Z.eqb_spec a 0); [discriminate|].
  destruct (alloc (key_sz ctx) w1) as [k w2] eqn:E1. destruct (alloc (key_sz ctx) w2) as [h w3] eqn:E2.
  destruct (is_null k || is_null h) eqn:EN; [discriminate|]. injection H as <- <-.
  apply orb_false_elim in EN. destruct EN as [N1 N2].
  destruct (alloc_some _ _ _ _ E1 N1) as [L1 B1]. destruct (alloc_some _ _ _ _ E2 N2) as [L2 B2].
  unfold keys_wf. cbn [key hmac_key pass pass_sz cc_addr]. rewrite L1, L2. repeat split; auto; lia.
Qed.
Lemma pure_inv r (w : W) c w1 : pure r w = (SQLITE_OK, c, w1) -> c = snd r /\ w1 = w.
Proof. unfold pure. intros H. now injection H. Qed.

(** The settings of a new context, before its keys. *)
Definition set_up (ctx : codec_ctx) : Prop :=
  sizes_wf ctx /\ settings_wf P ctx /\ header_ok ctx /\ error ctx = SQLITE_OK /\ key_used ctx = false
  /\ is_null (buffer ctx) = false /\ Z.of_nat (length (snd (buffer ctx))) = page_sz ctx
  /\ 512 <= page_sz ctx <= 65536 /\ page_sz ctx mod 16 = 0
  /\ length (snd (hmac_kdf_salt ctx)) = length (snd (kdf_salt ctx)).

Lemma settings_set_up g ctx w ctx' w' (k : codec_ctx -> W -> Z * codec_ctx * W) :
  key_used ctx = false -> provider_sizes P ctx -> error ctx = SQLITE_OK ->
  sizes_wf ctx -> length (snd (hmac_kdf_salt ctx)) = length (snd (kdf_salt ctx)) ->
  then_ok (sqlcipher_codec_ctx_set_pagesize ctx (default_page_size g) w) (fun ctx w =>
  then_ok (pure (sqlcipher_codec_ctx_set_kdf_iter ctx (default_kdf_iter g)) w) (fun ctx w =>
  then_ok (pure (sqlcipher_codec_ctx_set_fast_kdf_iter ctx FAST_PBKDF2_ITER) w) (fun ctx w =>
  then_ok (pure (sqlcipher_codec_ctx_set_hmac_algorithm P ctx (default_hmac_algorithm g)) w) (fun ctx w =>
  then_ok (pure (sqlcipher_codec_ctx_set_use_hmac P ctx (SQLCIPHER_FLAG_GET (default_flags g) CIPHER_FLAG_HMAC)) w) (fun ctx w =>
  then_ok (pure (sqlcipher_codec_ctx_set_kdf_algorithm ctx (default_kdf_algorithm g)) w) (fun ctx w =>
  then_ok (pure (sqlcipher_codec_ctx_set_plaintext_header_size ctx (default_plaintext_header_size g)) w) k))))))
  = (SQLITE_OK, ctx', w') ->
  exists ctx1 w1, set_up ctx1 /\ k ctx1 w1 = (SQLITE_OK, ctx', w').
Proof.
  intros Hu Hp He Hz Hl H.
  apply then_ok_inv in H. destruct H as (c1 & w1 & E1 & H).
  unfold sqlcipher_codec_ctx_set_pagesize in E1. rewrite Hu in E1.
  destruct (_ || _ || _) eqn:EC; [discriminate|]. destruct (alloc _ _) as [b wa] eqn:EA.
  destruct (is_null b) eqn:EN; [discriminate|]. injection E1 as <- <-.
  destruct (alloc_some _ _ _ _ EA EN) as [Lb _].
  apply orb_false_elim in EC. destruct EC as [EC B3%Z.ltb_ge]. apply orb_false_elim in EC.
  destruct EC as [B1%negb_false_iff B2%Z.ltb_ge]. apply andb_prop in B1. destruct B1 as [_ B1%Z.eqb_eq].
  set (c1 := set_buffer b _) in H. assert (U1 : key_used c1 = false) by exact Hu.
  apply then_ok_inv in H. destruct H as (c2 & w2 & [-> ->]%pure_inv & H). unfold sqlcipher_codec_ctx_set_kdf_iter in H.
  rewrite U1 in H. cbn [snd] in H. set (c2 := sqlcipher_set_derive_key _ 1) in H. assert (U2 : key_used c2 = false) by exact Hu.
  apply then_ok_inv in H. destruct H as (c3 & w3 & [-> ->]%pure_inv & H). unfold sqlcipher_codec_ctx_set_fast_kdf_iter in H.
  rewrite U2 in H. cbn [snd] in H. set (c3 := sqlcipher_set_derive_key (set_fast_kdf_iter _ _) 1) in H.
  assert (U3 : key_used c3 = false) by exact Hu.
  apply then_ok_inv in H. destruct H as (c4 & w4 & [-> ->]%pure_inv & H). unfold sqlcipher_codec_ctx_set_hmac_algorithm in H.
  rewrite U3 in H. set (c4 := snd _) in H. assert (U4 : key_used c4 = false) by exact Hu.
  apply then_ok_inv in H. destruct H as (c5 & w5 & [-> ->]%pure_inv & H). unfold sqlcipher_codec_ctx_set_use_hmac in H.
  rewrite U4 in H. set (f5 := if SQLCIPHER_FLAG_GET (default_flags g) CIPHER_FLAG_HMAC then _ else _) in H.
  assert (F5 : exists f, f5 = set_flags f c4 /\ SQLCIPHER_FLAG_GET f CIPHER_FLAG_KEY_USED = false).
  { unfold f5. destruct (SQLCIPHER_FLAG_GET (default_flags g) CIPHER_FLAG_HMAC); eexists; (split; [reflexivity|]).
    - rewrite flag_or, orb_false_r. exact Hu.
    - rewrite flag_unset by reflexivity. exact Hu. }
  destruct F5 as (f & -> & Ff).
  destruct (reserve_setup_wf P (set_flags f c4) SQLITE_OK _ Hp eq_refl) as [_ S5].
  set (c5 := snd (sqlcipher_codec_ctx_reserve_setup P (set_flags f c4))) in *. assert (U5 : key_used c5 = false) by exact Ff.
  apply then_ok_inv in H. destruct H as (c6 & w6 & [-> ->]%pure_inv & H). unfold sqlcipher_codec_ctx_set_kdf_algorithm in H.
  rewrite U5 in H. cbn [snd] in H. set (c6 := set_kdf_algorithm _ c5) in H.
  apply then_ok_inv in H. destruct H as (c7 & w7 & E7 & H). unfold sqlcipher_codec_ctx_set_plaintext_header_size in E7.
  destruct (_ && _ && _ && _) eqn:EH in E7; [|discriminate]. apply pure_inv in E7. destruct E7 as [-> ->]. cbn [snd] in H.
  eexists _, _. split; [|exact H].
  apply andb_prop in EH. destruct EH as [EH Hh4%Z.leb_le]. apply andb_prop in EH. destruct EH as [EH Hh3%Z.eqb_eq].
  apply andb_prop in EH. destruct EH as [Hh1%Z.leb_le Hh2%Z.ltb_lt]. rewrite Z.rem_mod_nonneg in Hh3 by assumption.
  refine (conj Hz (conj S5 (conj (conj (conj Hh1 Hh4) Hh3) (conj He (conj Ff (conj EN (conj _ (conj (conj B2 B3) (conj (power_of_two_16 _ B2 B1) Hl))))))))).
  cbn [buffer snd]. change (Z.of_nat (length (snd b)) = default_page_size g). rewrite Lb. lia.
Qed.

Lemma copy_addr ctx t c w rc t' w' : sqlcipher_cipher_ctx_copy ctx t c w = (rc, t', w' :> W) -> cc_addr t' = cc_addr t.
Proof.
  unfold sqlcipher_cipher_ctx_copy. destruct (_ && _); [destruct (alloc _ _) as [q w1]; destruct (is_null q)|];
    intros H; injection H as _ <- _; reflexivity.
Qed.

(** The last steps: both contexts get the passphrase. *)
Lemma keys_set_up ctx z n w ctx' w' : set_up ctx -> n <> 0 ->
  then_ok (let '(rc, c, w) := sqlcipher_cipher_ctx_init ctx w in (rc, set_read_ctx c ctx, w)) (fun ctx w =>
  then_ok (let '(rc, c, w) := sqlcipher_cipher_ctx_init ctx w in (rc, set_write_ctx c ctx, w)) (fun ctx w =>
  then_ok (sqlcipher_codec_ctx_set_pass ctx (Some z) n 0 w) (fun ctx w =>
  let '(rc, c, w) := sqlcipher_cipher_ctx_copy ctx (write_ctx ctx) (read_ctx ctx) w in
  (rc, set_write_ctx c ctx, w)))) = (SQLITE_OK, ctx', w') ->
  exists r wr, ctx' = set_write_ctx wr (set_read_ctx r ctx) /\ keys_wf ctx r /\ keys_wf ctx wr
    /\ pass_wf r /\ pass_wf wr /\ derive_key r = 1 /\ derive_key wr = 1
    /\ pass_sz r = n /\ snd (pass r) = memcpy (memset 0 (Z.to_nat n)) 0 (firstn (Z.to_nat n) z)
    /\ cc_addr r <> 0 /\ cc_addr wr <> 0.
Proof.
  intros Hs Hn H. pose proof Hs as ((Hk & _) & _).
  apply then_ok_inv in H. destruct H as (c1 & w1 & E1 & H).
  destruct (sqlcipher_cipher_ctx_init ctx w) as [[rc r] wa] eqn:EI. injection E1 as -> <- <-.
  destruct (cipher_init_wf _ _ _ _ EI Hk) as (Kr & Pr & _ & Ar).
  apply then_ok_inv in H. destruct H as (c2 & w2 & E2 & H).
  destruct (sqlcipher_cipher_ctx_init (set_read_ctx r ctx) wa) as [[rc wr] wb] eqn:EW. injection E2 as -> <- <-.
  destruct (cipher_init_wf _ _ _ _ EW Hk) as (Kw & _ & _ & Aw).
  apply then_ok_inv in H. destruct H as (c3 & w3 & E3 & H). unfold sqlcipher_codec_ctx_set_pass in E3.
  cbn [Z.eqb negb read_ctx set_write_ctx set_read_ctx] in E3. unfold sqlcipher_cipher_ctx_set_pass in E3.
  rewrite (proj2 (Z.eqb_neq n 0) Hn) in E3. destruct (alloc n _) as [q wc] eqn:EA.
  destruct (is_null q) eqn:EN; [discriminate|]. cbn [Z.eqb SQLITE_OK negb] in E3. injection E3 as <- <-.
  set (r' := set_derive 1 _) in H. cbn [write_ctx read_ctx set_read_ctx set_write_ctx] in H.
  destruct (sqlcipher_cipher_ctx_copy _ wr r' wc) as [[rc t] wd] eqn:EC. injection H as -> <- <-.
  assert (Kr' : keys_wf ctx r') by exact Kr.
  assert (Pr' : pass_wf r') by (unfold pass_wf, is_null; cbn; unfold is_null in EN; congruence).
  destruct (copy_wf _ _ _ _ _ _ _ Kw Kr' EC) as (Kt & Dt & Pt & _).
  exists r', t. split; [destruct ctx; reflexivity|]. split; [exact Kr'|]. split; [exact Kt|].
  split; [exact Pr'|]. split; [now apply Pt|]. split; [reflexivity|]. split; [exact Dt|]. split; [reflexivity|].
  split; [|split; [exact Ar | rewrite (copy_addr _ _ _ _ _ _ _ EC); exact Aw]].
  cbn. unfold alloc in EA. destruct (m_malloc n _) as [a wx]. destruct (a =? 0); injection EA as <- _; [discriminate EN | reflexivity].
Qed.

Lemma codec_ready g z n w ctx w' :
  n <> 0 -> SQLCIPHER_FLAG_GET (default_flags g) CIPHER_FLAG_KEY_USED = false ->
  sqlcipher_codec_ctx_init P g (Some z) n w = (SQLITE_OK, ctx, w') ->
  codec_inv P ctx /\ sound P ctx /\ error ctx = SQLITE_OK /\ key_used ctx = false
  /\ derive_key (read_ctx ctx) = 1 /\ derive_key (write_ctx ctx) = 1
  /\ pass_sz (read_ctx ctx) = n /\ snd (pass (read_ctx ctx)) = memcpy (memset 0 (Z.to_nat n)) 0 (firstn (Z.to_nat n) z)
  /\ cc_addr (read_ctx ctx) <> 0 /\ cc_addr (write_ctx ctx) <> 0.
Proof.
  intros Hn Hg H. unfold sqlcipher_codec_ctx_init in H. destruct (m_malloc _ w) as [a w1].
  destruct (a =? 0); [discriminate|]. cbv zeta in H.
  destruct (alloc _ w1) as [s w2] eqn:E1. destruct (is_null s) eqn:N1; [discriminate|].
  destruct (alloc_some _ _ _ _ E1 N1) as [L1 B1].
  destruct (alloc _ w2) as [h w3] eqn:E2. destruct (is_null h) eqn:N2; [discriminate|].
  destruct (alloc_some _ _ _ _ E2 N2) as [L2 _].
  destruct (p_ctx_init P w3) as [rc w4]. destruct (negb (rc =? SQLITE_OK)) eqn:ER.
  { apply negb_true_iff, Z.eqb_neq in ER. congruence. }
  apply settings_set_up in H; [|exact Hg | repeat split | reflexivity | | exact (eq_trans L2 (eq_sym L1))].
  2: { refine (conj _ (conj eq_refl (conj B1 _))); [apply key_sz_pos|]. cbn. rewrite L1. reflexivity. }
  destruct H as (ctx1 & w5 & S1 & H). destruct (keys_set_up _ _ _ _ _ _ S1 Hn H)
    as (r & wr & -> & Kr & Kw & Pr & Pw & Dr & Dw & Zr & Br & Ar & Aw).
  destruct S1 as (Hz & Hs & Hh & He & Hu & Nb & Lb & Hp & H16 & Lh).
  split; [refine (conj (conj Hz (conj Hs (conj Kr (conj Kw (conj Hp (conj H16 (conj Lb Lh))))))) (conj (or_intror Hh) (fun _ => conj Pr Pw)))|].
  split; [refine (conj (conj Hz (conj Hs (conj Kr (conj Kw (conj Hp (conj H16 Lh)))))) (fun _ => conj Nb Lb))|].
  auto 12.
Qed.

(** C35: A new codec is ready for pages: whatever defaults were set before, if the context can be
    created, it is well formed (its sizes fit the provider, the page buffer has the size of a
    page, a plain header ends before the space at the end of the page), no error is recorded
    and no key in use, and both contexts are to derive their keys from the passphrase. *)
Theorem new_codec_ready g z n w ctx w' :
  n <> 0 -> SQLCIPHER_FLAG_GET (default_flags g) CIPHER_FLAG_KEY_USED = false ->
  sqlcipher_codec_ctx_init P g (Some z) n w = (SQLITE_OK, ctx, w') ->
  codec_inv P ctx /\ sound P ctx /\ error ctx = SQLITE_OK /\ key_used ctx = false
  /\ derive_key (read_ctx ctx) = 1 /\ derive_key (write_ctx ctx) = 1
  /\ pass_sz (read_ctx ctx) = n /\ snd (pass (read_ctx ctx)) = memcpy (memset 0 (Z.to_nat n)) 0 (firstn (Z.to_nat n) z).
Proof. intros Hn Hg H. destruct (codec_ready g z n w ctx w' Hn Hg H) as (R1 & R2 & R3 & R4 & R5 & R6 & R7 & R8 & _). auto 10. Qed.

(** ** Attaching *)









(** C37: A start that fails at the last allocation goes unnoticed.  If the heap can be allocated
    but the mask of the keys cannot, the start reports success although everything was taken
    down; and since that result is what an attempt to attach a key returns, sqlite3_key
    reports success for every database and leaves it without a codec, in plain text. *)
Theorem failed_start_unencrypted p e a rest ms avail :
  cold p -> init_mutexes [] (repeat 0 8) (mutexes p) = (true, ms, avail) ->
  mallocs (heap p) = a :: 0 :: rest -> a <> 0 -> SQLCIPHER_PRIVATE_HEAP_SIZE_STEP <= private_heap_sz p ->
  (forall e, fst (p_ctx_init P e) = SQLITE_OK) -> (forall n e, fst (fst (p_random P n e)) = true) ->
  exists p' e', sqlcipher_extra_init P p e = Some (SQLITE_OK, p', e')
    /\ forall aDb pKey nKey w, sqlite3_key p' aDb pKey nKey w = Some (SQLITE_OK, aDb, w).
Proof.
  intros H1 H2 H3 H4 H5 H6 H7. destruct (mask_failure_ok P p e a rest ms avail H1 H2 H3 H4 H5 H6 H7) as (p' & e' & E & I0 & E0).
  exists p', e'. split; [exact E|]. intros. unfold sqlite3_key, sqlite3_key_v2, sqlcipherCodecAttach. rewrite I0, E0. reflexivity.
Qed.

(** C38: A change of the key that fails is reported as a success.  Whatever the transaction
    does, the function returns SQLITE_OK; and if the transaction cannot even begin, the
    database goes on with the new passphrase for writing and the old key for reading, so
    that the next page is written under a key that the file does not have. *)
Theorem failed_rekey_hidden p aDb zDb z k w n name b ctx ctx1 w1 :
  sqlcipher_init p <> 0 -> k <> 0 -> n = sqlcipher_find_db_index aDb zDb ->
  nth_error aDb n = Some (mkDb name (Some b)) -> pCodec b = Some ctx ->
  sqlcipher_codec_ctx_set_pass ctx (Some z) k CIPHER_WRITE_CTX w = (SQLITE_OK, ctx1, w1) ->
  (forall rc aDb' w', sqlite3_rekey_v2 p aDb zDb (Some z) k w = Some (rc, aDb', w') -> rc = SQLITE_OK)
  /\ (fst (@b_begin W (Bo n) w1) <> SQLITE_OK -> (forall c w, fst (@b_rollback W (Bo n) c w) = c) ->
      exists w', sqlite3_rekey_v2 p aDb zDb (Some z) k w = Some (SQLITE_OK, put_bt aDb n (set_codec (Some ctx1) b), w')
        /\ read_ctx ctx1 = read_ctx ctx /\ derive_key (write_ctx ctx1) = 1 /\ pass_sz (write_ctx ctx1) = k).
Proof.
  intros Hi Hk -> E EC Es. unfold sqlite3_rekey_v2. rewrite (proj2 (Z.eqb_neq _ _) Hi), (proj2 (Z.eqb_neq _ _) Hk), E.
  unfold sqlcipherPagerGetCodec. rewrite EC, Es. split.
  - intros rc aDb' w' H. destruct (rekey_transaction _ ctx1 w1) as [[c w2]|]; [|discriminate]. now injection H.
  - intros Hb Hroll. unfold rekey_transaction.
    set (n := sqlcipher_find_db_index aDb zDb) in *. destruct (b_begin w1) as [rc w2]. cbn [fst] in Hb.
    destruct (b_pagecount w2) as [count w3]. rewrite (proj2 (Z.eqb_neq _ _) Hb). rewrite (proj2 (Z.eqb_neq _ _) Hb).
    specialize (Hroll ctx1 w3). destruct (b_rollback ctx1 w3) as [c w4]. cbn [fst] in Hroll. subst c.
    exists w4. split; [reflexivity|]. unfold sqlcipher_codec_ctx_set_pass in Es.
    cbn [Z.eqb CIPHER_WRITE_CTX negb] in Es. unfold sqlcipher_cipher_ctx_set_pass in Es.
    rewrite (proj2 (Z.eqb_neq k 0) Hk) in Es. destruct (alloc k _) as [q wa].
    destruct (is_null q); [discriminate|]. cbn [Z.eqb SQLITE_OK negb Pos.eqb] in Es. injection Es as <- _. auto.
Qed.
End Database.
