(* ===== verification/ScWorld.v ===== *)
(** * SQLCipher: a concrete environment

    The interfaces of the SQLCipher model are instantiated: OpenSSL by the hash functions, HMAC,
    PBKDF2 and AES of this library, the allocator by one that hands out fresh addresses, the
    random numbers by the generator of SQLCipher, and the database below the codec by a file in
    memory.  All laws are proved for these instances, so that the hypotheses of the theorems can
    be met, and the theorems are applied at concrete databases. *)

From Stdlib Require Import String ZArith Lia List Bool.
From S2P Require Import Prelude Streaming Sha2 Sha1 Pbkdf2 Rijndael RijndaelModes ScText ScBytes ScHeap ScProvider ScOpenSsl ScContext ScKeys ScPage ScReopen ScIntegrity ScPragma ScSettings ScInit ScDatabase.
Import ListNotations.
Local Open Scope Z_scope.

(** ** Cryptography *)

Definition hmac_with (d : ScOpenSsl.digest) : list Z -> list Z -> list Z :=
  match d with
  | ScOpenSsl.sha1 => hmac S_sha1 64
  | ScOpenSsl.sha256 => hmac S_sha256 64
  | ScOpenSsl.sha512 => hmac S_sha512 128
  end.

Definition digest_size (d : ScOpenSsl.digest) : nat :=
  match d with ScOpenSsl.sha1 => 20 | ScOpenSsl.sha256 => 32 | ScOpenSsl.sha512 => 64 end.

Definition pbkdf2_with (d : ScOpenSsl.digest) (p s : list Z) (i n : Z) : list Z :=
  match d with
  | ScOpenSsl.sha1 => rfc_pbkdf2 S_sha1 64 20
  | ScOpenSsl.sha256 => rfc_pbkdf2 S_sha256 64 32
  | ScOpenSsl.sha512 => rfc_pbkdf2 S_sha512 128 64
  end p s (Z.to_nat i) (Z.to_nat n).

Lemma hmac_with_ok d k x : length (hmac_with d k x) = digest_size d /\ bytes (hmac_with d k x).
Proof.
  destruct d.
  - split; [apply (@length_spec_hash _ _ _ (HashLaws_sha1 true))|apply (@bytes_spec_hash _ _ _ (HashLaws_sha1 true))].
  - split; [apply (@length_spec_hash _ _ _ HashLaws_sha256)|apply (@bytes_spec_hash _ _ _ HashLaws_sha256)].
  - split; [apply (@length_spec_hash _ _ _ HashLaws_sha512)|apply (@bytes_spec_hash _ _ _ HashLaws_sha512)].
Qed.

Lemma pbkdf2_with_ok d p s i n :
  length (pbkdf2_with d p s i n) = Z.to_nat n /\ bytes (pbkdf2_with d p s i n).
Proof.
  destruct d; [apply (@rfc_pbkdf2_ok _ _ _ (HashLaws_sha1 true))
              |apply (@rfc_pbkdf2_ok _ _ _ HashLaws_sha256)|apply (@rfc_pbkdf2_ok _ _ _ HashLaws_sha512)].
Qed.

(** AES with a key of 256 bits; the key schedules for both directions. *)
Definition schedule (direction : Z) (k : list Z) : Rijndael :=
  snd (RijndaelInit rijndael0 Mode_CBC direction (Some k) Key32Bytes None).
Definition aes_enc (k : list Z) : list Z -> list Z := RijndaelEncrypt (schedule Direction_Encrypt k).
Definition aes_dec (k : list Z) : list Z -> list Z := RijndaelDecrypt (schedule Direction_Decrypt k).

Lemma schedules k : bytes k -> length k = 32%nat ->
  key_pair 32 k (schedule Direction_Encrypt k) (schedule Direction_Decrypt k).
Proof.
  intros Bk Lk. destruct (key_pair_init rijndael0 rijndael0 Mode_CBC Key32Bytes 32 14 k None None) as (re & rd & Ee & Ed & H);
    try reflexivity; [right; left; reflexivity | exact Bk | lia |].
  unfold schedule. rewrite Ee, Ed. exact H.
Qed.

(** The arguments that EVP gets: whole blocks of bytes, a key and an initial vector. *)
Definition aes_input (k iv x : list Z) : bool :=
  bytesb k && (length k =? 32)%nat && bytesb iv && (length iv =? 16)%nat && bytesb x && (length x mod 16 =? 0)%nat.

Definition aes_cbc (f : list Z -> nat -> list Z -> list Z) (k iv x : list Z) : list Z :=
  if aes_input k iv x then f iv (length x / 16)%nat x else x.

Definition aes_cbc_encrypt (k : list Z) := aes_cbc (cbc_enc (aes_enc k)) k.
Definition aes_cbc_decrypt (k : list Z) := aes_cbc (cbc_dec (aes_dec k)) k.

Lemma aes_input_true k iv x : aes_input k iv x = true ->
  (bytes k /\ length k = 32%nat) /\ state_ok iv /\ bytes x /\ length x = (16 * (length x / 16))%nat.
Proof.
  unfold aes_input, state_ok. rewrite !andb_true_iff, !Nat.eqb_eq. intros (((((H1 & H2) & H3) & H4) & H5) & H6).
  pose proof (Nat.div_mod_eq (length x) 16).
  repeat split; auto using bytesb_bytes. lia.
Qed.

Lemma aes_cbc_encrypt_ok k iv x :
  length (aes_cbc_encrypt k iv x) = length x /\ (bytes x -> bytes (aes_cbc_encrypt k iv x)).
Proof.
  unfold aes_cbc_encrypt, aes_cbc. destruct (aes_input k iv x) eqn:E; [|auto].
  destruct (aes_input_true _ _ _ E) as ((Bk & Lk) & Si & Bx & Lx). destruct (schedules k Bk Lk) as (_ & _ & H).
  destruct (length_cbc_enc (aes_enc k) (fun a Sa => proj1 (proj2 (H a Sa))) iv (length x / 16)%nat x Si Bx) as [L B];
    [lia|]. rewrite L. auto.
Qed.

Lemma aes_cbc_decrypt_length k iv x : length (aes_cbc_decrypt k iv x) = length x.
Proof.
  unfold aes_cbc_decrypt, aes_cbc. destruct (aes_input k iv x) eqn:E; [|reflexivity].
  destruct (aes_input_true _ _ _ E) as ((Bk & Lk) & [Li _] & _ & Lx). destruct (schedules k Bk Lk) as (_ & HD & _).
  rewrite length_cbc_dec; [lia | intros a _; apply HD | exact Li | lia].
Qed.

Lemma bytes_bytesb l : bytes l -> bytesb l = true.
Proof.
  intros H. apply forallb_forall. intros x Hx. pose proof (proj1 (Forall_forall _ _) H x Hx) as B. unfold is_byte in B. lia.
Qed.

Lemma aes_cbc_decrypt_encrypt k iv x :
  bytes k -> bytes iv -> bytes x -> length k = 32%nat -> length iv = 16%nat -> (length x mod 16 = 0)%nat ->
  aes_cbc_decrypt k iv (aes_cbc_encrypt k iv x) = x.
Proof.
  intros Bk Bi Bx Lk Li Lx. destruct (schedules k Bk Lk) as (_ & _ & H).
  assert (In : forall y, bytes y -> length y = length x -> aes_input k iv y = true).
  { intros y By Ly. unfold aes_input. now rewrite !bytes_bytesb, Ly, Lk, Li, Lx by assumption. }
  destruct (aes_cbc_encrypt_ok k iv x) as [L B]. specialize (B Bx).
  unfold aes_cbc_decrypt at 1, aes_cbc. rewrite In, L by assumption. unfold aes_cbc_encrypt, aes_cbc.
  rewrite In by auto. set (c := cbc_enc _ _ _ _). rewrite <- (app_nil_r c). unfold c.
  pose proof (Nat.div_mod_eq (length x) 16).
  rewrite cbc_dec_enc; [apply firstn_all2; lia | | | now split | exact Bx | lia].
  - intros a Sa. exact (proj1 (proj2 (H a Sa))).
  - intros a Sa. exact (proj2 (proj2 (H a Sa))).
Qed.

(** ** The world

    Addresses are handed out in turn from [memory_next] on; [seed] is the state of the generator;
    [file] is the database file, [lock_page] the page of its lock bytes; [contexts] counts the
    users of the provider; [last_error] is what the pager was told. *)
Record World := mkWorld {
  memory_next : Z; seed : list Z; file : list Z; lock_page : Z; contexts : Z; last_error : Z
}.

Definition set_memory (a : Z) (w : World) : World :=
  mkWorld a (seed w) (file w) (lock_page w) (contexts w) (last_error w).
Definition set_generator (s : list Z) (w : World) : World :=
  mkWorld (memory_next w) s (file w) (lock_page w) (contexts w) (last_error w).
Definition set_contexts (n : Z) (w : World) : World :=
  mkWorld (memory_next w) (seed w) (file w) (lock_page w) n (last_error w).
Definition set_last_error (e : Z) (w : World) : World :=
  mkWorld (memory_next w) (seed w) (file w) (lock_page w) (contexts w) e.

Definition draw (n : nat) (w : World) : list Z * World :=
  let '(b, s) := xoshiro_randomness true (seed w) n in (map u8 b, set_generator s w).

Definition claim (n : Z) (w : World) : Z * World :=
  if n <=? 0 then (0, w) else let a := Z.max 16 (memory_next w) in (a, set_memory (a + n) w).

#[export] Instance world_memory : Memory World :=
  { m_malloc := claim; m_free := fun _ _ w => w; m_noise := draw }.

Lemma draw_ok n w : length (fst (draw n w)) = n /\ bytes (fst (draw n w)).
Proof.
  unfold draw. pose proof (xoshiro_length true (seed w) n) as L. destruct (xoshiro_randomness _ _ _) as [b s].
  cbn [fst] in *. rewrite length_map. split; [exact L|]. apply Forall_map, Forall_forall. intros x _. apply u8_range.
Qed.

#[export] Instance world_memory_laws : MemoryLaws World.
Proof. split; intros; apply draw_ok. Qed.

(** A read past the end is reported, and filled with zeros. *)
Definition read_file (n o : Z) (w : World) : bool * list Z * World :=
  let b := slice (file w) (Z.to_nat o) (Z.to_nat n) in
  ((o + n <=? Z.of_nat (length (file w))) && (0 <=? o) && (0 <=? n) && bytesb b,
   if bytesb b then b ++ memset 0 (Z.to_nat n - length b) else memset 0 (Z.to_nat n), w).

#[export] Instance world_store : Store World := {
  s_open := fun _ => true;
  s_read := read_file;
  s_size := fun w => Z.of_nat (length (file w));
  s_set_pagesize := fun _ _ w => (SQLITE_OK, w);
  s_pager_error := set_last_error;
  s_autovacuum := fun _ => false;
  s_lckPgno := lock_page
}.

#[export] Instance world_store_laws : StoreLaws World.
Proof.
  split. intros n o w ok b w' [= _ <- _]. set (r := slice _ _ _).
  assert (L : (length r <= Z.to_nat n)%nat) by (unfold r, slice; rewrite length_firstn; lia).
  assert (Z0 : forall k, bytes (memset 0 k)) by (intros; apply bytes_memset; unfold is_byte; lia).
  destruct (bytesb r) eqn:E; [|split; [apply Z0 | apply length_memset]].
  rewrite bytes_app, length_app, length_memset. split; [split; [now apply bytesb_bytes | apply Z0] | lia].
Qed.

(** The end of a message: with padding the last byte of the plain text is the number of bytes of
    the padding; without it there are only whole blocks. *)
Definition world_final (m : Z) (padding : bool) (k iv x : list Z) : option (list Z) :=
  if padding then
    Some (if m =? CIPHER_ENCRYPT then aes_cbc_encrypt k iv (block_padded 16 x)
          else let y := aes_cbc_decrypt k iv x in firstn (length y - Z.to_nat (last y 0)) y)
  else if Z.of_nat (length x) mod 16 =? 0 then
    Some (if m =? CIPHER_ENCRYPT then aes_cbc_encrypt k iv x else aes_cbc_decrypt k iv x)
  else None.

(** ** OpenSSL

    An authentication context is its digest, its key and the data so far; a cipher context is its
    mode, whether it pads, its key, its initial vector and the data so far, which final turns into
    the result.  No other call fails. *)
#[export] Instance world_openssl : OpenSSL World := {
  mac_ctx := ScOpenSsl.digest * list Z * list Z;
  evp_ctx := Z * bool * list Z * list Z * list Z;
  RAND_bytes := fun n w => let '(b, w) := draw (Z.to_nat n) w in (1, b, w);
  RAND_add := fun b w => set_generator (xor_list (seed w) b ++ skipn (length b) (seed w)) w;
  EVP_MAC_fetch := fun w => (true, w);
  EVP_MAC_CTX_new := fun w => (true, w);
  EVP_MAC_init := fun d k w => (Some (d, k, []), w);
  EVP_MAC_update := fun c y w => let '(d, k, x) := c in (Some (d, k, x ++ y), w);
  EVP_MAC_final_size := fun c w => (Some (Z.of_nat (digest_size (fst (fst c)))), w);
  EVP_MAC_final := fun c w => let '(d, k, x) := c in (Some (hmac_with d k x), w);
  PKCS5_PBKDF2_HMAC := fun d p s i n w => (Some (pbkdf2_with d p s i n), w);
  EVP_CIPHER_CTX_new := fun w => (true, w);
  EVP_CipherInit_mode := fun m w => (Some (m, true, [], [], []), w);
  EVP_CIPHER_CTX_set_padding := fun c q w => let '(m, _, k, iv, x) := c in (Some (m, q, k, iv, x), w);
  EVP_CipherInit_key := fun c k iv m w => let '(_, q, _, _, _) := c in (Some (m, q, k, iv, []), w);
  EVP_CipherUpdate := fun c y w => let '(m, q, k, iv, x) := c in (Some ((m, q, k, iv, x ++ y), []), w);
  EVP_CipherFinal_ex := fun c w => let '(m, q, k, iv, x) := c in (world_final m q k iv x, w);
  EVP_MD_size := fun d => Z.of_nat (digest_size d);
  EVP_CIPHER_key_length := 32;
  EVP_CIPHER_iv_length := 16;
  EVP_CIPHER_block_size := 16;
  OpenSSL_version := str "OpenSSL 3.0";
  OBJ_nid2sn_cipher := str "AES-256-CBC"
}.

#[export] Instance world_openssl_laws : OpenSSLLaws (W := World).
Proof.
  refine {|
    ossl_hmac := hmac_with; ossl_pbkdf2 := pbkdf2_with;
    ossl_cbc_encrypt := aes_cbc_encrypt; ossl_cbc_decrypt := aes_cbc_decrypt;
    mac_state := fun c d k x => c = (d, k, x);
    evp_state := fun c m q => exists k iv x, c = (m, q, k, iv, x);
    evp_keyed := fun c m q k iv => c = (m, q, k, iv, []) |}; cbn.
  - intros n w rc b w'. pose proof (draw_ok (Z.to_nat n) w) as [L B]. destruct (draw _ _). intros [= _ <- _]. auto.
  - now intros d k w c w' [= <- _].
  - now intros c d k x y w c' w' -> [= <- _].
  - now intros c d k x w t w' -> [= <- _].
  - intros d k x. now rewrite (proj1 (hmac_with_ok d k x)).
  - intros d k x. apply hmac_with_ok.
  - intros []; cbn; lia.
  - intros d p s i n w k w' [= <- _]. destruct (pbkdf2_with_ok d p s i n). auto.
  - intros m w c w' [= <- _]. eauto.
  - intros c m p q w c' w' (k & iv & x & ->) [= <- _]. eauto.
  - now intros c m p k iv w c' w' (k0 & iv0 & x & ->) [= <- _].
  - now intros c k iv x w c' a w1 w2 b w3 -> [= <- <- _] [= <- _].
  - intros c m k iv x w c' a w1 w2 b w3 -> [= <- <- _]. unfold world_final. cbn [app].
    destruct (Z.eqb_spec (Z.of_nat (length x) mod 16) 0); intros [= <- _]. auto.
  - intros. apply aes_cbc_encrypt_ok.
  - apply aes_cbc_decrypt_length.
  - intros k iv x _ _ Bx. now apply aes_cbc_encrypt_ok.
  - split_and; lia || reflexivity.
  - intros k iv x Bk Bi Bx Lk Li Hm. apply aes_cbc_decrypt_encrypt; try assumption.
    apply Nat2Z.inj. rewrite Nat2Z.inj_mod. exact Hm.
Defined.

Lemma world_works : ossl_works (W := World).
Proof.
  split; try discriminate; try reflexivity.
  - intros [[d k] y]. discriminate.
  - intros [[d k] y]. discriminate.
  - intros [[[[m q'] k] iv] x]. discriminate.
  - intros [[[[m' q'] k'] iv'] x]. discriminate.
  - intros [[[[m q'] k] iv] y]. discriminate.
  - cbn. intros c m k iv x w c' a w1 w2 -> Hx [= <- <- _]. unfold world_final. cbn [app fst]. rewrite Hx. discriminate.
Qed.

(** The provider of this world, with its laws. *)
Definition provider : sqlcipher_provider World := sqlcipher_openssl_setup contexts set_contexts.

#[export] Instance provider_laws : ProviderLaws provider := openssl_laws contexts set_contexts.

#[export] Instance world_outside : Outside World := {
  o_malloc := claim;
  o_free := fun _ w => w;
  o_fopen := fun name w => claim 1 w;
  o_fclose := fun _ w => w;
  o_trace := fun _ w => w;
  o_migrate := fun c w => (SQLITE_ERROR, c, w)
}.

(** A database that is read only: no transaction begins. *)
Definition read_only : Btree World := {|
  b_secure_delete := fun w => w;
  b_set_autovacuum := fun w => w;
  b_errcode := set_last_error;
  b_begin := fun w => (8, w);
  b_pagecount := fun w => (0, w);
  b_get := fun _ c w => (SQLITE_OK, c, w);
  b_write := fun _ c w => (SQLITE_OK, c, w);
  b_unref := fun _ w => w;
  b_commit := fun c w => (SQLITE_OK, c, w);
  b_rollback := fun c w => (c, w)
|}.
