(* ===== verification/ScExamples.v ===== *)
(** * SQLCipher: the theorems at concrete databases

    A database of pages of 512 bytes under a passphrase, in the environment of [ScWorld]: its new
    codec, the codec after the key was derived, a first page, and a second connection to the file.
    The theorems of the SQLCipher files that have hypotheses are applied here. *)

From Stdlib Require Import String ZArith Lia List Bool.
From S2P Require Import Prelude ScText ScBytes ScHeap ScProvider ScOpenSsl ScContext ScKeys ScPage ScReopen ScIntegrity ScPragma ScSettings ScInit ScDatabase ScWorld.
Import ListNotations.
Local Open Scope Z_scope.

(** ** The databases *)

(** The mask of the keys, and the settings: two iterations, pages of 512 bytes. *)
Definition mask0 : list Z := map (fun i => u8 (7 * Z.of_nat i + 3)) (seq 0 32).
Definition small : Defaults :=
  mkDefaults (default_flags initial_defaults) 0x3a 2 512 0 SQLCIPHER_HMAC_SHA512 SQLCIPHER_PBKDF2_HMAC_SHA512.
Definition secret : list Z := str "secret".

Definition world0 : World := mkWorld 16 [1; 2; 3; 4] [] 2097153 0 0.

(** A codec as a new connection has it. *)
Definition opened : Z * codec_ctx * World :=
  Eval vm_compute in sqlcipher_codec_ctx_init provider small (Some secret) 6 world0.
Definition ctx_new : codec_ctx := snd (fst opened).
Definition world1 : World := snd opened.

(** The keys are derived; the file is empty, so the salt is drawn at random. *)
Definition derived_codec : option (Z * codec_ctx * World) :=
  Eval vm_compute in sqlcipher_codec_key_derive provider mask0 0x3a ctx_new world1.
Definition ctx_ready : codec_ctx := match derived_codec with Some (_, c, _) => c | None => ctx_new end.
Definition world2 : World := match derived_codec with Some (_, _, w) => w | None => world1 end.

(** The first page is written. *)
Definition page1 : list Z := map (fun i => u8 (Z.of_nat i)) (seq 0 512).
Definition written : option (codec_out * list Z * codec_ctx * World) :=
  Eval vm_compute in sqlite3Codec provider mask0 true 0x3a ctx_ready page1 1 CODEC_WRITE_OP world2.
Definition ctx_written : codec_ctx := match written with Some (_, _, c, _) => c | None => ctx_ready end.
Definition world3 : World := match written with Some (_, _, _, w) => w | None => world2 end.
Definition disk1 : list Z := snd (buffer ctx_written).

(** A new connection to the file that has this page. *)
Definition world_file : World :=
  mkWorld (memory_next world3) (seed world3) disk1 2097153 (contexts world3) 0.
Definition reopened : Z * codec_ctx * World :=
  Eval vm_compute in sqlcipher_codec_ctx_init provider small (Some secret) 6 world_file.
Definition ctx_second : codec_ctx := snd (fst reopened).
Definition world_second : World := snd reopened.

(** ** Their properties, by evaluation *)

Ltac by_value :=
  lazymatch goal with
  | |- _ /\ _ => split; by_value
  | |- bytes _ => apply bytesb_bytes; vm_compute; reflexivity
  | |- @eq _ _ _ => vm_compute; reflexivity
  | |- _ <> _ => vm_compute; discriminate
  | |- _ <= _ => vm_compute; discriminate
  | |- _ < _ => vm_compute; reflexivity
  | |- _ -> _ => intro; by_value
  end.

Lemma mask0_bytes : bytes mask0.
Proof. by_value. Qed.

Lemma ctx_new_init : sqlcipher_codec_ctx_init provider small (Some secret) 6 world0 = (SQLITE_OK, ctx_new, world1).
Proof. vm_compute. reflexivity. Qed.

Lemma ctx_new_ready : codec_inv provider ctx_new /\ sound provider ctx_new /\ error ctx_new = SQLITE_OK.
Proof.
  destruct (codec_ready provider small secret 6 world0 ctx_new world1) as (I & S & E & _);
    [discriminate | reflexivity | exact ctx_new_init | auto].
Qed.

Lemma ctx_ready_wf : codec_wf provider ctx_ready /\ header_ok ctx_ready.
Proof. unfold codec_wf, sizes_wf, settings_wf, keys_wf, header_ok. by_value. Qed.

Lemma ctx_ready_keys : keys_ready ctx_ready.
Proof. unfold keys_ready. split; [reflexivity|]. split; [reflexivity|]. right. by_value. Qed.

(** ** The provider and the keys *)

(** The provider of this world: the code of a message, and a page that is encrypted and decrypted. *)
Lemma openssl_provider_spec_witness :
  (exists g, names_digest SQLCIPHER_HMAC_SHA256 g
     /\ fst (sqlcipher_openssl_hmac SQLCIPHER_HMAC_SHA256 secret page1 secret world0) = Some (hmac_with g secret (page1 ++ secret)))
  /\ fst (sqlcipher_openssl_cipher CIPHER_ENCRYPT mask0 (firstn 16 page1) page1 world0) <> None
  /\ (forall z w1 w2 w3,
        sqlcipher_openssl_cipher CIPHER_ENCRYPT mask0 (firstn 16 page1) page1 world0
          = (Some (aes_cbc_encrypt mask0 (firstn 16 page1) page1), w1) ->
        sqlcipher_openssl_cipher CIPHER_DECRYPT mask0 (firstn 16 page1)
          (aes_cbc_encrypt mask0 (firstn 16 page1) page1) w2 = (Some z, w3) -> z = page1).
Proof.
  destruct (openssl_provider_spec SQLCIPHER_HMAC_SHA256 secret page1 secret secret secret 2 32 CIPHER_ENCRYPT
              (firstn 16 page1) page1 world0) as (A & _).
  destruct (openssl_provider_spec SQLCIPHER_HMAC_SHA256 mask0 page1 secret secret secret 2 32 CIPHER_ENCRYPT
              (firstn 16 page1) page1 world0) as (_ & _ & _ & _ & C & Wk).
  split.
  - assert (F : fst (sqlcipher_openssl_hmac SQLCIPHER_HMAC_SHA256 secret page1 secret world0)
                = Some (hmac_with ScOpenSsl.sha256 secret (page1 ++ secret))) by reflexivity.
    destruct (sqlcipher_openssl_hmac SQLCIPHER_HMAC_SHA256 secret page1 secret world0) as [t w1]. cbn [fst] in *. subst t.
    destruct (A _ _ eq_refl) as (g & Hg & Et & _). exists g. split; [exact Hg|]. exact (f_equal Some Et).
  - split; [apply (proj2 (Wk world_works)); by_value|]. intros z w1 w2 w3 E D. apply (C _ _ _ _ _ E D); by_value.
Defined.

(** The key specification of the first connection, given to another one as its passphrase. *)
Definition spec : Z * buf * cipher_ctx * World :=
  Eval vm_compute in sqlcipher_cipher_ctx_get_keyspec mask0 ctx_ready (read_ctx ctx_ready) world2.
Definition spec_text : list Z := snd (snd (fst (fst spec))).
Definition by_spec : Z * codec_ctx * World :=
  Eval vm_compute in sqlcipher_codec_ctx_init provider small (Some spec_text) (Z.of_nat (length spec_text)) world2.
Definition ctx_spec : codec_ctx := snd (fst by_spec).

Definition salted : Z * codec_ctx * World := Eval vm_compute in salt_step provider ctx_spec (snd by_spec).

Lemma keyspec_roundtrip_witness : exists ctx3 c3,
  sqlcipher_cipher_ctx_key_derive provider mask0 0x3a ctx_spec (read_ctx ctx_spec) (snd by_spec)
    = (SQLITE_OK, ctx3, c3, snd salted)
  /\ snd (key c3) = snd (key (read_ctx ctx_ready)) /\ snd (kdf_salt ctx3) = snd (kdf_salt ctx_ready)
  /\ (has_hmac ctx_ready = true -> snd (hmac_key c3) = snd (hmac_key (read_ctx ctx_ready))) /\ derive_key c3 = 0.
Proof.
  apply (keyspec_roundtrip provider mask0 0x3a ctx_ready (read_ctx ctx_ready) world2 (snd (fst (fst spec)))
           (snd (fst spec)) (snd spec) ctx_spec (read_ctx ctx_spec) (snd by_spec) (snd (fst salted)) (snd salted));
    unfold sizes_wf, keys_wf; by_value.
Defined.

Definition hmac_known (a : Z) : bool := (a =? SQLCIPHER_HMAC_SHA1) || (a =? SQLCIPHER_HMAC_SHA256) || (a =? SQLCIPHER_HMAC_SHA512).

Lemma works_kdf algorithm : hmac_known algorithm = true -> kdf_up provider algorithm.
Proof.
  intros Ha p s i n w. unfold hmac_known in Ha. apply orb_prop in Ha. destruct Ha as [Ha|Ha]; [apply orb_prop in Ha; destruct Ha as [Ha|Ha]|];
    apply Z.eqb_eq in Ha; subst; discriminate.
Qed.

Lemma works_memory : memory_up (W := World).
Proof. intros n w Hn. cbn. unfold claim. destruct (Z.leb_spec n 0); [lia|]. cbn [fst]. lia. Qed.

(** A new connection without a salt derives its keys: the file is empty, the salt is random. *)
Definition salted_new : Z * codec_ctx * World := Eval vm_compute in salt_step provider ctx_new world1.

Lemma passphrase_keys_derived_witness :
  exists ctx' w', sqlcipher_codec_key_derive provider mask0 0x3a ctx_new world1 = Some (SQLITE_OK, ctx', w')
    /\ kdf_salt ctx' = kdf_salt (snd (fst salted_new))
    /\ keyed provider mask0 0x3a (snd (fst salted_new)) (read_ctx ctx_new) (read_ctx ctx')
    /\ keyed provider mask0 0x3a (snd (fst salted_new)) (write_ctx ctx_new) (write_ctx ctx').
Proof.
  assert (ES : salt_step provider ctx_new world1 = salted_new) by (vm_compute; reflexivity).
  destruct (passphrase_keys_derived provider mask0 0x3a ctx_new world1) as (rc & ctx' & w' & E & K & U);
    unfold sizes_wf, keys_wf, awaits_keys; try by_value.
  rewrite ES in K, U. assert (Hrc : rc = SQLITE_OK) by (apply U; [now apply works_kdf | exact works_memory | reflexivity]).
  exists ctx', w'. rewrite <- Hrc at 1. split; [exact E | exact (K Hrc)].
Defined.

(** ** Pages *)

Lemma codec_call_safe_witness :
  exists o data' ctx' w', sqlite3Codec provider mask0 true 0x3a ctx_new page1 1 CODEC_WRITE_OP world1 = Some (o, data', ctx', w')
    /\ codec_inv provider ctx' /\ page_sz ctx' = page_sz ctx_new /\ length data' = length page1
    /\ (o = OutNull -> error ctx' <> SQLITE_OK /\ data' = page1)
    /\ (o = OutBuffer -> error ctx' = SQLITE_OK /\ key_used ctx' = true /\ data' = page1).
Proof.
  apply (codec_call_safe provider mask0 true 0x3a ctx_new page1 1 CODEC_WRITE_OP world1);
    [exact mask0_bytes | exact (proj1 ctx_new_ready) | by_value].
Defined.

(** A write, a read of what was not written in this form, and another write. *)
Definition history : list (list Z * Z * Z) :=
  [(page1, 1, CODEC_WRITE_OP); (page1, 2, CODEC_READ_OP); (page1, 3, CODEC_JOURNAL_OP)].

Lemma codec_history_safe_witness :
  exists os ctx' w', codec_run provider mask0 true 0x3a ctx_new history world1 = Some (os, ctx', w') /\ codec_inv provider ctx'
    /\ exists live n, os = live ++ repeat OutNull n /\ Forall (fun o => o <> OutNull) live.
Proof.
  apply (codec_history_safe provider mask0 true 0x3a ctx_new history world1);
    [exact mask0_bytes | exact (proj1 ctx_new_ready) |].
  repeat apply Forall_cons; try apply Forall_nil; by_value.
Defined.

(** Page 2 of the database, as it is on the disk, and what reading it under its number gives. *)
Definition disk2 : list Z :=
  match sqlite3Codec provider mask0 true 0x3a ctx_ready page1 2 CODEC_WRITE_OP world2 with
  | Some (_, _, c, _) => snd (buffer c) | None => []
  end.
Definition image2 : list Z := Eval vm_compute in disk2.
Definition opened2 : option (Z * list Z * codec_ctx * World) :=
  Eval vm_compute in sqlcipher_page_cipher provider mask0 true ctx_ready CIPHER_READ_CTX 2 CIPHER_DECRYPT 512 image2 (memset 0 512) world2.

Lemma page_number_bound_witness :
  exists v, sqlcipher_page_cipher provider mask0 true ctx_ready CIPHER_READ_CTX 3 CIPHER_DECRYPT 512 image2 (memset 0 512) world2
            = Some (SQLITE_ERROR, memset 0 (Z.to_nat 512), ctx_ready, v).
Proof.
  destruct ctx_ready_wf as [(_ & Hs & Hk & _) _].
  apply (page_number_bound provider mask0 true ctx_ready CIPHER_READ_CTX 2 3 512 image2 (memset 0 512) (memset 0 512)
           world2 world2 (match opened2 with Some (_, o, _, _) => o | None => [] end) ctx_ready world2);
    try assumption; unfold is_u32; by_value.
Defined.

Lemma codec_read_verdict_witness :
  exists data ctx' w', sqlite3Codec provider mask0 true 0x3a ctx_ready image2 2 CODEC_READ_OP world2 = Some (OutData, data, ctx', w')
    /\ (slice image2 448 64 = page_mac provider mask0 true ctx_ready (read_ctx ctx_ready) 2 (firstn 448 image2)
        /\ firstn 432 data = dec (plain_key mask0 ctx_ready (read_ctx ctx_ready)) (slice image2 432 16) (firstn 432 image2)
        /\ error ctx' = SQLITE_OK
        \/ image2 = memset 0 512 /\ data = memset 0 512 /\ error ctx' = SQLITE_OK
        \/ data = memset 0 512 /\ (error ctx' = SQLITE_ERROR \/ plaintext_header_sz ctx_ready = 432)).
Proof.
  destruct ctx_ready_wf as [Hw Hh].
  exact (codec_read_verdict provider mask0 true 0x3a ctx_ready image2 2 world2 Hw Hh ctx_ready_keys
           eq_refl eq_refl eq_refl ltac:(discriminate)).
Defined.

(** ** A second connection *)

Lemma ctx_second_wf : codec_wf provider ctx_second.
Proof. unfold codec_wf, sizes_wf, settings_wf, keys_wf. by_value. Qed.

Lemma provider_works algorithm : hmac_known algorithm = true -> provider_up provider algorithm.
Proof.
  intros Ha. split; [|intros mode k iv x w Hx; exact (openssl_cipher_works mode k iv x w world_works Hx)].
  intros k x y w. unfold hmac_known in Ha. apply orb_prop in Ha. destruct Ha as [Ha|Ha]; [apply orb_prop in Ha; destruct Ha as [Ha|Ha]|];
    apply Z.eqb_eq in Ha; subst; discriminate.
Qed.

Lemma ctx_ready_secret : keys_of_pass provider mask0 0x3a ctx_ready secret.
Proof. split; [|intros _]; by_value. Qed.

Lemma ctx_second_settings : same_settings true ctx_ready ctx_second.
Proof. unfold same_settings, same_format. repeat split. Qed.

Lemma ctx_second_fresh : fresh ctx_second secret.
Proof. unfold fresh, awaits_keys. intros c [-> | ->]; by_value. Qed.

Lemma ctx_second_finds : finds_salt ctx_second world_second (snd (kdf_salt ctx_ready)).
Proof. split; [reflexivity|]. exists world_second. vm_compute. reflexivity. Qed.

Lemma reopen_with_passphrase_witness :
  firstn 16 disk1 = snd (kdf_salt ctx_ready)
  /\ exists data2 ctx2' w2',
      sqlite3Codec provider mask0 true 0x3a ctx_second disk1 1 CODEC_READ_OP world_second = Some (OutData, data2, ctx2', w2')
      /\ firstn 432 data2 = firstn 432 (as_read ctx_ready 1 page1) /\ error ctx2' = SQLITE_OK.
Proof.
  destruct ctx_ready_wf as [Hw Hh].
  destruct (reopen_with_passphrase provider mask0 true 0x3a ctx_ready ctx_second secret page1 1 world2 page1 ctx_written world3
    world_second mask0_bytes Hw Hh ctx_ready_keys eq_refl eq_refl ctx_ready_secret ctx_second_wf eq_refl ctx_second_settings
    (conj eq_refl (conj eq_refl (conj eq_refl (conj eq_refl eq_refl)))) ctx_second_fresh (provider_works (hmac_algorithm ctx_ready) eq_refl)
    (works_kdf (kdf_algorithm ctx_ready) eq_refl) works_memory ltac:(by_value) ltac:(by_value) ltac:(by_value)) as [S R].
  split; [exact (S eq_refl eq_refl) | exact (R ctx_second_finds)].
Defined.

(** ** The check of the file *)

(** The file of page 1 and page 2, with one byte of page 2 changed, and three bytes more. *)
Definition damaged : list Z := disk1 ++ image2.[100 <- 7] ++ [1; 2; 3].
Definition world_damaged : World := mkWorld 5000 (seed world3) damaged 2097153 1 0.

#[export] Instance damaged_undisturbed :
  Undisturbed provider SQLCIPHER_HMAC_SHA512 damaged 2097153 (fun w => file w = damaged /\ lock_page w = 2097153).
Proof.
  split.
  - intros w n o [Hf Hl] Ho Hn Hle. exists w. split; [|auto]. cbn [s_read world_store]. unfold read_file. rewrite Hf.
    assert (B : bytes damaged) by (apply bytesb_bytes; vm_compute; reflexivity).
    assert (L : length (slice damaged (Z.to_nat o) (Z.to_nat n)) = Z.to_nat n) by (apply length_slice; lia).
    rewrite (bytes_bytesb _ (bytes_slice _ _ _ B)), L, Nat.sub_diag. cbn [memset repeat]. rewrite app_nil_r.
    destruct (Z.leb_spec (o + n) (Z.of_nat (length damaged))), (Z.leb_spec 0 o), (Z.leb_spec 0 n); try lia. reflexivity.
  - intros w k x y Hw. do 2 eexists. split; [reflexivity | exact Hw].
  - intros w [Hf Hl]. cbn [s_size s_open s_lckPgno world_store]. now rewrite Hf, Hl.
Qed.

(** The page that was changed and the bytes at the end are found. *)
Lemma integrity_check_exact_witness : exists ctx' w',
  sqlcipher_codec_ctx_integrity_check provider mask0 true 3 0x3a ctx_ready world_damaged
    = Some ([HmacVerificationFailed 2; InvalidSize 3 3 512], ctx', w').
Proof.
  destruct ctx_ready_wf as [Hw Hh].
  destruct (integrity_check_exact (Mem := world_memory) provider mask0 true SQLCIPHER_HMAC_SHA512 damaged 2097153
    (fun w => file w = damaged /\ lock_page w = 2097153) 0x3a ctx_ready world_damaged 3 5000
    (set_memory 5064 world_damaged) Hw eq_refl Hh eq_refl eq_refl ctx_ready_keys (conj eq_refl eq_refl) ltac:(by_value)
    ltac:(discriminate) (conj eq_refl eq_refl) ltac:(by_value) ltac:(by_value)) as (ctx' & w' & E).
  exists ctx', w'. rewrite E. vm_compute. reflexivity.
Defined.

(** ** Statements *)

Definition globals0 : Globals := mkGlobals small 0 0 0 0 0 0.

Lemma pragma_settings_typed_witness :
  match sqlcipher_codec_pragma provider mask0 true globals0 (Some ctx_new) (str "cipher_page_size") (Some (str "1024")) world1 with
  | Some (_, _, _, c', _) => exists c1, c' = Some c1 /\ sound provider c1
  | None => may_stop (str "cipher_page_size") = true
  end.
Proof.
  apply (pragma_settings_typed provider mask0 true globals0 ctx_new (str "cipher_page_size") (Some (str "1024")) world1);
    [exact mask0_bytes | reflexivity | exact (proj1 (proj2 ctx_new_ready))].
Defined.



Lemma memory_undisturbed n : 0 < n -> undisturbed (W := World) n.
Proof.
  intros Hn. split; [|reflexivity]. intros w. cbn. unfold claim. destruct (Z.leb_spec n 0); [lia|]. cbn [fst]. lia.
Qed.

(** The settings of a database with SHA1, pages of 1024 bytes and a plain header of 32. *)
Definition ctx_other : codec_ctx :=
  snd (fst (sqlcipher_codec_ctx_init provider
    (mkDefaults (default_flags initial_defaults) 0x3a 4000 1024 32 SQLCIPHER_HMAC_SHA1 SQLCIPHER_PBKDF2_HMAC_SHA1)
    (Some secret) 6 world0)).

Lemma settings_replay_witness :
  pragma_settings globals0 (Some ctx_other) None world1
    = done (map (fun s => setting (fst s) (snd s)) (printed ctx_other (str "HMAC_SHA1") (str "PBKDF2_HMAC_SHA1")))
        globals0 (Some ctx_other) world1
  /\ exists d' w', replay provider mask0 true globals0 (printed ctx_other (str "HMAC_SHA1") (str "PBKDF2_HMAC_SHA1"))
                     (Some ctx_new) world1 = Some (globals0, Some d', w')
    /\ shown d' = shown ctx_other /\ error d' = error ctx_new.
Proof.
  apply (settings_replay provider mask0 true globals0 ctx_other ctx_new); try (unfold settings_wf; by_value).
  now apply memory_undisturbed.
Defined.

(** With pages of 4096 bytes, a plain header of 1024 and then pages of 512. *)
Definition ctx_large : codec_ctx :=
  snd (fst (sqlcipher_codec_ctx_init provider initial_defaults (Some secret) 6 world0)).

Lemma plain_header_overflow_witness :
  exists c' w', replay provider mask0 true globals0 [("cipher_plaintext_header_size"%string, print_int 1024);
                          ("cipher_page_size"%string, print_int 512)] (Some ctx_large) world1 = Some (globals0, Some c', w')
    /\ sound provider c' /\ error c' = SQLITE_OK
    /\ (forall c2 w2, sqlcipher_codec_key_derive provider mask0 0x3a c' w' = Some (SQLITE_OK, c2, w2) ->
          sqlite3Codec provider mask0 true 0x3a c' page1 1 CODEC_READ_OP w' = None).
Proof.
  apply (plain_header_overflow provider mask0 true 0x3a globals0 ctx_large world1 page1);
    [exact mask0_bytes | | by_value | by_value | by_value | now apply memory_undisturbed].
  unfold sound, base_wf, sizes_wf, settings_wf, keys_wf. by_value.
Defined.

(** ** Start of the library *)

(** A library that is down, with the answers that malloc will give. *)
Definition process (sz : Z) (answers : list Z) : Process :=
  mkProcess 0 0 0 0 0 globals0 (repeat 0 8) (map Z.of_nat (seq 1 20)) sz
    (mkHeap 0 [] 0 0 0 0 0 0 [1; 2; 3; 4] answers []) (mkProviders 0 (fun _ => 0)) [] null.

Lemma process_cold sz answers :
  0 <= sz < 2 ^ 31 -> NoDup (filter (fun a => negb (a =? 0)) answers) -> Forall (fun a => 0 <= a < 2 ^ 63) answers ->
  cold (process sz answers).
Proof.
  intros Hs Hn Hr. split; [reflexivity|]. split; [repeat split|]. split; [reflexivity|]. split; [exact Hs|].
  split; [exact Hn|]. split; [exact Hr | reflexivity].
Qed.

Ltac by_cold := apply process_cold; [lia | repeat constructor; cbn; lia | repeat constructor; lia].


(** A library that gave up its heap before. *)
Lemma heap_size_lost_witness :
  exists p' e', sqlcipher_extra_init provider (process 0 [65536; 262144]) world0 = Some (SQLITE_NOMEM, p', e')
    /\ sqlcipher_init p' = 0 /\ private_heap_sz p' = 0.
Proof.
  apply (heap_size_lost provider (process 0 [65536; 262144]) world0); [by_cold | by_value].
Defined.

(** ** Databases of a connection *)

Lemma new_codec_ready_witness :
  codec_inv provider ctx_new /\ sound provider ctx_new /\ error ctx_new = SQLITE_OK /\ key_used ctx_new = false
  /\ derive_key (read_ctx ctx_new) = 1 /\ derive_key (write_ctx ctx_new) = 1
  /\ pass_sz (read_ctx ctx_new) = 6
  /\ snd (pass (read_ctx ctx_new)) = memcpy (memset 0 (Z.to_nat 6)) 0 (firstn (Z.to_nat 6) secret).
Proof. apply (new_codec_ready provider small secret 6 world0 ctx_new world1); [discriminate | reflexivity | exact ctx_new_init]. Defined.

(** A library that is up, with a main database that has no codec and one in use. *)
Definition running : Process := set_init 1 0 0 (process 49152 []).
Definition plain : Bt := mkBt false false false None.
Definition in_use_bt : Bt := mkBt false false true (Some ctx_written).
Definition connection : list Db := [mkDb (str "main") (Some plain); mkDb (str "temp") None; mkDb (str "aux") (Some in_use_bt)].


Lemma failed_start_unencrypted_witness :
  exists p' e', sqlcipher_extra_init provider (process 49152 [65536; 0]) world0 = Some (SQLITE_OK, p', e')
    /\ forall aDb pKey nKey w, sqlite3_key (fun _ => world_store) (fun _ => read_only) provider p' aDb pKey nKey w
                               = Some (SQLITE_OK, aDb, w).
Proof.
  apply (failed_start_unencrypted (fun _ => world_store) (fun _ => read_only) provider (process 49152 [65536; 0]) world0 65536 []
           (map Z.of_nat (seq 1 8)) (map Z.of_nat (seq 9 12))); [by_cold | by_value | by_value | by_value | by_value | reflexivity |].
  intros n e. cbn. unfold sqlcipher_openssl_random. cbn. destruct (draw (Z.to_nat n) e). reflexivity.
Defined.

(** The key of the database in use is changed, but its file is read only. *)
Definition repassed : Z * codec_ctx * World :=
  Eval vm_compute in sqlcipher_codec_ctx_set_pass ctx_written (Some (str "other")) 5 CIPHER_WRITE_CTX world3.

Lemma failed_rekey_hidden_witness :
  exists w', sqlite3_rekey_v2 (fun _ => world_store) (fun _ => read_only) running connection (Some (str "aux"))
               (Some (str "other")) 5 world3
             = Some (SQLITE_OK, put_bt connection 2 (set_codec (Some (snd (fst repassed))) in_use_bt), w')
    /\ read_ctx (snd (fst repassed)) = read_ctx ctx_written
    /\ derive_key (write_ctx (snd (fst repassed))) = 1 /\ pass_sz (write_ctx (snd (fst repassed))) = 5.
Proof.
  apply (failed_rekey_hidden (fun _ => world_store) (fun _ => read_only) running connection (Some (str "aux"))
           (str "other") 5 world3 2 (str "aux") in_use_bt ctx_written (snd (fst repassed)) (snd repassed)); by_value.
Defined.
