(* ===== verification/ShSha3.v ===== *)
(** * SHA-3

    Model of ext/misc/shathree.c in the shell: the Keccak permutation with its four unrolled
    rounds in place, the state as lanes or as bytes of either byte order, and the sponge with its
    fast path for whole words.  The permutation is compared with the five step mappings of
    FIPS 202, whose offsets and constants are computed here as the standard defines them, and
    the functions with the hash of the standard, however the input is cut into pieces. *)

From Stdlib Require Import ZArith Lia List Bool.
From S2P Require Import Prelude Streaming.
Import ListNotations.
Local Open Scope Z_scope.

Definition ROL64 (a x : Z) : Z := Z.lor (u64 (Z.shiftl a x)) (Z.shiftr a (64 - x)).
Definition not64 (a : Z) : Z := Z.lxor a 0xFFFFFFFFFFFFFFFF.

Definition RC : list Z :=
  [0x0000000000000001; 0x0000000000008082; 0x800000000000808a; 0x8000000080008000;
   0x000000000000808b; 0x0000000080000001; 0x8000000080008081; 0x8000000000008009;
   0x000000000000008a; 0x0000000000000088; 0x0000000080008009; 0x000000008000000a;
   0x000000008000808b; 0x800000000000008b; 0x8000000000008089; 0x8000000000008003;
   0x8000000000008002; 0x8000000000000080; 0x000000000000800a; 0x800000008000000a;
   0x8000000080008081; 0x8000000000008080; 0x0000000080000001; 0x8000000080008008].

(** Round [i + 0] of the unrolled loop. *)
Definition keccak_round0 (rc : Z) (s : list Z) : list Z :=
  let c0 := Z.lxor (Z.lxor (Z.lxor (Z.lxor s.[0] s.[5]) s.[10]) s.[15]) s.[20] in
  let c1 := Z.lxor (Z.lxor (Z.lxor (Z.lxor s.[1] s.[6]) s.[11]) s.[16]) s.[21] in
  let c2 := Z.lxor (Z.lxor (Z.lxor (Z.lxor s.[2] s.[7]) s.[12]) s.[17]) s.[22] in
  let c3 := Z.lxor (Z.lxor (Z.lxor (Z.lxor s.[3] s.[8]) s.[13]) s.[18]) s.[23] in
  let c4 := Z.lxor (Z.lxor (Z.lxor (Z.lxor s.[4] s.[9]) s.[14]) s.[19]) s.[24] in
  let d0 := Z.lxor c4 (ROL64 c1 1) in
  let d1 := Z.lxor c0 (ROL64 c2 1) in
  let d2 := Z.lxor c1 (ROL64 c3 1) in
  let d3 := Z.lxor c2 (ROL64 c4 1) in
  let d4 := Z.lxor c3 (ROL64 c0 1) in
  let b0 := Z.lxor s.[0] d0 in
  let b1 := ROL64 (Z.lxor s.[6] d1) 44 in
  let b2 := ROL64 (Z.lxor s.[12] d2) 43 in
  let b3 := ROL64 (Z.lxor s.[18] d3) 21 in
  let b4 := ROL64 (Z.lxor s.[24] d4) 14 in
  let s := s.[0 <- Z.lxor b0 (Z.land (not64 b1) b2)] in
  let s := s.[0 <- Z.lxor s.[0] rc] in
  let s := s.[6 <- Z.lxor b1 (Z.land (not64 b2) b3)] in
  let s := s.[12 <- Z.lxor b2 (Z.land (not64 b3) b4)] in
  let s := s.[18 <- Z.lxor b3 (Z.land (not64 b4) b0)] in
  let s := s.[24 <- Z.lxor b4 (Z.land (not64 b0) b1)] in
  let b2 := ROL64 (Z.lxor s.[10] d0) 3 in
  let b3 := ROL64 (Z.lxor s.[16] d1) 45 in
  let b4 := ROL64 (Z.lxor s.[22] d2) 61 in
  let b0 := ROL64 (Z.lxor s.[3] d3) 28 in
  let b1 := ROL64 (Z.lxor s.[9] d4) 20 in
  let s := s.[10 <- Z.lxor b0 (Z.land (not64 b1) b2)] in
  let s := s.[16 <- Z.lxor b1 (Z.land (not64 b2) b3)] in
  let s := s.[22 <- Z.lxor b2 (Z.land (not64 b3) b4)] in
  let s := s.[3 <- Z.lxor b3 (Z.land (not64 b4) b0)] in
  let s := s.[9 <- Z.lxor b4 (Z.land (not64 b0) b1)] in
  let b4 := ROL64 (Z.lxor s.[20] d0) 18 in
  let b0 := ROL64 (Z.lxor s.[1] d1) 1 in
  let b1 := ROL64 (Z.lxor s.[7] d2) 6 in
  let b2 := ROL64 (Z.lxor s.[13] d3) 25 in
  let b3 := ROL64 (Z.lxor s.[19] d4) 8 in
  let s := s.[20 <- Z.lxor b0 (Z.land (not64 b1) b2)] in
  let s := s.[1 <- Z.lxor b1 (Z.land (not64 b2) b3)] in
  let s := s.[7 <- Z.lxor b2 (Z.land (not64 b3) b4)] in
  let s := s.[13 <- Z.lxor b3 (Z.land (not64 b4) b0)] in
  let s := s.[19 <- Z.lxor b4 (Z.land (not64 b0) b1)] in
  let b1 := ROL64 (Z.lxor s.[5] d0) 36 in
  let b2 := ROL64 (Z.lxor s.[11] d1) 10 in
  let b3 := ROL64 (Z.lxor s.[17] d2) 15 in
  let b4 := ROL64 (Z.lxor s.[23] d3) 56 in
  let b0 := ROL64 (Z.lxor s.[4] d4) 27 in
  let s := s.[5 <- Z.lxor b0 (Z.land (not64 b1) b2)] in
  let s := s.[11 <- Z.lxor b1 (Z.land (not64 b2) b3)] in
  let s := s.[17 <- Z.lxor b2 (Z.land (not64 b3) b4)] in
  let s := s.[23 <- Z.lxor b3 (Z.land (not64 b4) b0)] in
  let s := s.[4 <- Z.lxor b4 (Z.land (not64 b0) b1)] in
  let b3 := ROL64 (Z.lxor s.[15] d0) 41 in
  let b4 := ROL64 (Z.lxor s.[21] d1) 2 in
  let b0 := ROL64 (Z.lxor s.[2] d2) 62 in
  let b1 := ROL64 (Z.lxor s.[8] d3) 55 in
  let b2 := ROL64 (Z.lxor s.[14] d4) 39 in
  let s := s.[15 <- Z.lxor b0 (Z.land (not64 b1) b2)] in
  let s := s.[21 <- Z.lxor b1 (Z.land (not64 b2) b3)] in
  let s := s.[2 <- Z.lxor b2 (Z.land (not64 b3) b4)] in
  let s := s.[8 <- Z.lxor b3 (Z.land (not64 b4) b0)] in
  let s := s.[14 <- Z.lxor b4 (Z.land (not64 b0) b1)] in
  s.

(** Round [i + 1] of the unrolled loop. *)
Definition keccak_round1 (rc : Z) (s : list Z) : list Z :=
  let c0 := Z.lxor (Z.lxor (Z.lxor (Z.lxor s.[0] s.[10]) s.[20]) s.[5]) s.[15] in
  let c1 := Z.lxor (Z.lxor (Z.lxor (Z.lxor s.[6] s.[16]) s.[1]) s.[11]) s.[21] in
  let c2 := Z.lxor (Z.lxor (Z.lxor (Z.lxor s.[12] s.[22]) s.[7]) s.[17]) s.[2] in
  let c3 := Z.lxor (Z.lxor (Z.lxor (Z.lxor s.[18] s.[3]) s.[13]) s.[23]) s.[8] in
  let c4 := Z.lxor (Z.lxor (Z.lxor (Z.lxor s.[24] s.[9]) s.[19]) s.[4]) s.[14] in
  let d0 := Z.lxor c4 (ROL64 c1 1) in
  let d1 := Z.lxor c0 (ROL64 c2 1) in
  let d2 := Z.lxor c1 (ROL64 c3 1) in
  let d3 := Z.lxor c2 (ROL64 c4 1) in
  let d4 := Z.lxor c3 (ROL64 c0 1) in
  let b0 := Z.lxor s.[0] d0 in
  let b1 := ROL64 (Z.lxor s.[16] d1) 44 in
  let b2 := ROL64 (Z.lxor s.[7] d2) 43 in
  let b3 := ROL64 (Z.lxor s.[23] d3) 21 in
  let b4 := ROL64 (Z.lxor s.[14] d4) 14 in
  let s := s.[0 <- Z.lxor b0 (Z.land (not64 b1) b2)] in
  let s := s.[0 <- Z.lxor s.[0] rc] in
  let s := s.[16 <- Z.lxor b1 (Z.land (not64 b2) b3)] in
  let s := s.[7 <- Z.lxor b2 (Z.land (not64 b3) b4)] in
  let s := s.[23 <- Z.lxor b3 (Z.land (not64 b4) b0)] in
  let s := s.[14 <- Z.lxor b4 (Z.land (not64 b0) b1)] in
  let b2 := ROL64 (Z.lxor s.[20] d0) 3 in
  let b3 := ROL64 (Z.lxor s.[11] d1) 45 in
  let b4 := ROL64 (Z.lxor s.[2] d2) 61 in
  let b0 := ROL64 (Z.lxor s.[18] d3) 28 in
  let b1 := ROL64 (Z.lxor s.[9] d4) 20 in
  let s := s.[20 <- Z.lxor b0 (Z.land (not64 b1) b2)] in
  let s := s.[11 <- Z.lxor b1 (Z.land (not64 b2) b3)] in
  let s := s.[2 <- Z.lxor b2 (Z.land (not64 b3) b4)] in
  let s := s.[18 <- Z.lxor b3 (Z.land (not64 b4) b0)] in
  let s := s.[9 <- Z.lxor b4 (Z.land (not64 b0) b1)] in
  let b4 := ROL64 (Z.lxor s.[15] d0) 18 in
  let b0 := ROL64 (Z.lxor s.[6] d1) 1 in
  let b1 := ROL64 (Z.lxor s.[22] d2) 6 in
  let b2 := ROL64 (Z.lxor s.[13] d3) 25 in
  let b3 := ROL64 (Z.lxor s.[4] d4) 8 in
  let s := s.[15 <- Z.lxor b0 (Z.land (not64 b1) b2)] in
  let s := s.[6 <- Z.lxor b1 (Z.land (not64 b2) b3)] in
  let s := s.[22 <- Z.lxor b2 (Z.land (not64 b3) b4)] in
  let s := s.[13 <- Z.lxor b3 (Z.land (not64 b4) b0)] in
  let s := s.[4 <- Z.lxor b4 (Z.land (not64 b0) b1)] in
  let b1 := ROL64 (Z.lxor s.[10] d0) 36 in
  let b2 := ROL64 (Z.lxor s.[1] d1) 10 in
  let b3 := ROL64 (Z.lxor s.[17] d2) 15 in
  let b4 := ROL64 (Z.lxor s.[8] d3) 56 in
  let b0 := ROL64 (Z.lxor s.[24] d4) 27 in
  let s := s.[10 <- Z.lxor b0 (Z.land (not64 b1) b2)] in
  let s := s.[1 <- Z.lxor b1 (Z.land (not64 b2) b3)] in
  let s := s.[17 <- Z.lxor b2 (Z.land (not64 b3) b4)] in
  let s := s.[8 <- Z.lxor b3 (Z.land (not64 b4) b0)] in
  let s := s.[24 <- Z.lxor b4 (Z.land (not64 b0) b1)] in
  let b3 := ROL64 (Z.lxor s.[5] d0) 41 in
  let b4 := ROL64 (Z.lxor s.[21] d1) 2 in
  let b0 := ROL64 (Z.lxor s.[12] d2) 62 in
  let b1 := ROL64 (Z.lxor s.[3] d3) 55 in
  let b2 := ROL64 (Z.lxor s.[19] d4) 39 in
  let s := s.[5 <- Z.lxor b0 (Z.land (not64 b1) b2)] in
  let s := s.[21 <- Z.lxor b1 (Z.land (not64 b2) b3)] in
  let s := s.[12 <- Z.lxor b2 (Z.land (not64 b3) b4)] in
  let s := s.[3 <- Z.lxor b3 (Z.land (not64 b4) b0)] in
  let s := s.[19 <- Z.lxor b4 (Z.land (not64 b0) b1)] in
  s.

(** Round [i + 2] of the unrolled loop. *)
Definition keccak_round2 (rc : Z) (s : list Z) : list Z :=
  let c0 := Z.lxor (Z.lxor (Z.lxor (Z.lxor s.[0] s.[20]) s.[15]) s.[10]) s.[5] in
  let c1 := Z.lxor (Z.lxor (Z.lxor (Z.lxor s.[16] s.[11]) s.[6]) s.[1]) s.[21] in
  let c2 := Z.lxor (Z.lxor (Z.lxor (Z.lxor s.[7] s.[2]) s.[22]) s.[17]) s.[12] in
  let c3 := Z.lxor (Z.lxor (Z.lxor (Z.lxor s.[23] s.[18]) s.[13]) s.[8]) s.[3] in
  let c4 := Z.lxor (Z.lxor (Z.lxor (Z.lxor s.[14] s.[9]) s.[4]) s.[24]) s.[19] in
  let d0 := Z.lxor c4 (ROL64 c1 1) in
  let d1 := Z.lxor c0 (ROL64 c2 1) in
  let d2 := Z.lxor c1 (ROL64 c3 1) in
  let d3 := Z.lxor c2 (ROL64 c4 1) in
  let d4 := Z.lxor c3 (ROL64 c0 1) in
  let b0 := Z.lxor s.[0] d0 in
  let b1 := ROL64 (Z.lxor s.[11] d1) 44 in
  let b2 := ROL64 (Z.lxor s.[22] d2) 43 in
  let b3 := ROL64 (Z.lxor s.[8] d3) 21 in
  let b4 := ROL64 (Z.lxor s.[19] d4) 14 in
  let s := s.[0 <- Z.lxor b0 (Z.land (not64 b1) b2)] in
  let s := s.[0 <- Z.lxor s.[0] rc] in
  let s := s.[11 <- Z.lxor b1 (Z.land (not64 b2) b3)] in
  let s := s.[22 <- Z.lxor b2 (Z.land (not64 b3) b4)] in
  let s := s.[8 <- Z.lxor b3 (Z.land (not64 b4) b0)] in
  let s := s.[19 <- Z.lxor b4 (Z.land (not64 b0) b1)] in
  let b2 := ROL64 (Z.lxor s.[15] d0) 3 in
  let b3 := ROL64 (Z.lxor s.[1] d1) 45 in
  let b4 := ROL64 (Z.lxor s.[12] d2) 61 in
  let b0 := ROL64 (Z.lxor s.[23] d3) 28 in
  let b1 := ROL64 (Z.lxor s.[9] d4) 20 in
  let s := s.[15 <- Z.lxor b0 (Z.land (not64 b1) b2)] in
  let s := s.[1 <- Z.lxor b1 (Z.land (not64 b2) b3)] in
  let s := s.[12 <- Z.lxor b2 (Z.land (not64 b3) b4)] in
  let s := s.[23 <- Z.lxor b3 (Z.land (not64 b4) b0)] in
  let s := s.[9 <- Z.lxor b4 (Z.land (not64 b0) b1)] in
  let b4 := ROL64 (Z.lxor s.[5] d0) 18 in
  let b0 := ROL64 (Z.lxor s.[16] d1) 1 in
  let b1 := ROL64 (Z.lxor s.[2] d2) 6 in
  let b2 := ROL64 (Z.lxor s.[13] d3) 25 in
  let b3 := ROL64 (Z.lxor s.[24] d4) 8 in
  let s := s.[5 <- Z.lxor b0 (Z.land (not64 b1) b2)] in
  let s := s.[16 <- Z.lxor b1 (Z.land (not64 b2) b3)] in
  let s := s.[2 <- Z.lxor b2 (Z.land (not64 b3) b4)] in
  let s := s.[13 <- Z.lxor b3 (Z.land (not64 b4) b0)] in
  let s := s.[24 <- Z.lxor b4 (Z.land (not64 b0) b1)] in
  let b1 := ROL64 (Z.lxor s.[20] d0) 36 in
  let b2 := ROL64 (Z.lxor s.[6] d1) 10 in
  let b3 := ROL64 (Z.lxor s.[17] d2) 15 in
  let b4 := ROL64 (Z.lxor s.[3] d3) 56 in
  let b0 := ROL64 (Z.lxor s.[14] d4) 27 in
  let s := s.[20 <- Z.lxor b0 (Z.land (not64 b1) b2)] in
  let s := s.[6 <- Z.lxor b1 (Z.land (not64 b2) b3)] in
  let s := s.[17 <- Z.lxor b2 (Z.land (not64 b3) b4)] in
  let s := s.[3 <- Z.lxor b3 (Z.land (not64 b4) b0)] in
  let s := s.[14 <- Z.lxor b4 (Z.land (not64 b0) b1)] in
  let b3 := ROL64 (Z.lxor s.[10] d0) 41 in
  let b4 := ROL64 (Z.lxor s.[21] d1) 2 in
  let b0 := ROL64 (Z.lxor s.[7] d2) 62 in
  let b1 := ROL64 (Z.lxor s.[18] d3) 55 in
  let b2 := ROL64 (Z.lxor s.[4] d4) 39 in
  let s := s.[10 <- Z.lxor b0 (Z.land (not64 b1) b2)] in
  let s := s.[21 <- Z.lxor b1 (Z.land (not64 b2) b3)] in
  let s := s.[7 <- Z.lxor b2 (Z.land (not64 b3) b4)] in
  let s := s.[18 <- Z.lxor b3 (Z.land (not64 b4) b0)] in
  let s := s.[4 <- Z.lxor b4 (Z.land (not64 b0) b1)] in
  s.

(** Round [i + 3] of the unrolled loop. *)
Definition keccak_round3 (rc : Z) (s : list Z) : list Z :=
  let c0 := Z.lxor (Z.lxor (Z.lxor (Z.lxor s.[0] s.[15]) s.[5]) s.[20]) s.[10] in
  let c1 := Z.lxor (Z.lxor (Z.lxor (Z.lxor s.[11] s.[1]) s.[16]) s.[6]) s.[21] in
  let c2 := Z.lxor (Z.lxor (Z.lxor (Z.lxor s.[22] s.[12]) s.[2]) s.[17]) s.[7] in
  let c3 := Z.lxor (Z.lxor (Z.lxor (Z.lxor s.[8] s.[23]) s.[13]) s.[3]) s.[18] in
  let c4 := Z.lxor (Z.lxor (Z.lxor (Z.lxor s.[19] s.[9]) s.[24]) s.[14]) s.[4] in
  let d0 := Z.lxor c4 (ROL64 c1 1) in
  let d1 := Z.lxor c0 (ROL64 c2 1) in
  let d2 := Z.lxor c1 (ROL64 c3 1) in
  let d3 := Z.lxor c2 (ROL64 c4 1) in
  let d4 := Z.lxor c3 (ROL64 c0 1) in
  let b0 := Z.lxor s.[0] d0 in
  let b1 := ROL64 (Z.lxor s.[1] d1) 44 in
  let b2 := ROL64 (Z.lxor s.[2] d2) 43 in
  let b3 := ROL64 (Z.lxor s.[3] d3) 21 in
  let b4 := ROL64 (Z.lxor s.[4] d4) 14 in
  let s := s.[0 <- Z.lxor b0 (Z.land (not64 b1) b2)] in
  let s := s.[0 <- Z.lxor s.[0] rc] in
  let s := s.[1 <- Z.lxor b1 (Z.land (not64 b2) b3)] in
  let s := s.[2 <- Z.lxor b2 (Z.land (not64 b3) b4)] in
  let s := s.[3 <- Z.lxor b3 (Z.land (not64 b4) b0)] in
  let s := s.[4 <- Z.lxor b4 (Z.land (not64 b0) b1)] in
  let b2 := ROL64 (Z.lxor s.[5] d0) 3 in
  let b3 := ROL64 (Z.lxor s.[6] d1) 45 in
  let b4 := ROL64 (Z.lxor s.[7] d2) 61 in
  let b0 := ROL64 (Z.lxor s.[8] d3) 28 in
  let b1 := ROL64 (Z.lxor s.[9] d4) 20 in
  let s := s.[5 <- Z.lxor b0 (Z.land (not64 b1) b2)] in
  let s := s.[6 <- Z.lxor b1 (Z.land (not64 b2) b3)] in
  let s := s.[7 <- Z.lxor b2 (Z.land (not64 b3) b4)] in
  let s := s.[8 <- Z.lxor b3 (Z.land (not64 b4) b0)] in
  let s := s.[9 <- Z.lxor b4 (Z.land (not64 b0) b1)] in
  let b4 := ROL64 (Z.lxor s.[10] d0) 18 in
  let b0 := ROL64 (Z.lxor s.[11] d1) 1 in
  let b1 := ROL64 (Z.lxor s.[12] d2) 6 in
  let b2 := ROL64 (Z.lxor s.[13] d3) 25 in
  let b3 := ROL64 (Z.lxor s.[14] d4) 8 in
  let s := s.[10 <- Z.lxor b0 (Z.land (not64 b1) b2)] in
  let s := s.[11 <- Z.lxor b1 (Z.land (not64 b2) b3)] in
  let s := s.[12 <- Z.lxor b2 (Z.land (not64 b3) b4)] in
  let s := s.[13 <- Z.lxor b3 (Z.land (not64 b4) b0)] in
  let s := s.[14 <- Z.lxor b4 (Z.land (not64 b0) b1)] in
  let b1 := ROL64 (Z.lxor s.[15] d0) 36 in
  let b2 := ROL64 (Z.lxor s.[16] d1) 10 in
  let b3 := ROL64 (Z.lxor s.[17] d2) 15 in
  let b4 := ROL64 (Z.lxor s.[18] d3) 56 in
  let b0 := ROL64 (Z.lxor s.[19] d4) 27 in
  let s := s.[15 <- Z.lxor b0 (Z.land (not64 b1) b2)] in
  let s := s.[16 <- Z.lxor b1 (Z.land (not64 b2) b3)] in
  let s := s.[17 <- Z.lxor b2 (Z.land (not64 b3) b4)] in
  let s := s.[18 <- Z.lxor b3 (Z.land (not64 b4) b0)] in
  let s := s.[19 <- Z.lxor b4 (Z.land (not64 b0) b1)] in
  let b3 := ROL64 (Z.lxor s.[20] d0) 41 in
  let b4 := ROL64 (Z.lxor s.[21] d1) 2 in
  let b0 := ROL64 (Z.lxor s.[22] d2) 62 in
  let b1 := ROL64 (Z.lxor s.[23] d3) 55 in
  let b2 := ROL64 (Z.lxor s.[24] d4) 39 in
  let s := s.[20 <- Z.lxor b0 (Z.land (not64 b1) b2)] in
  let s := s.[21 <- Z.lxor b1 (Z.land (not64 b2) b3)] in
  let s := s.[22 <- Z.lxor b2 (Z.land (not64 b3) b4)] in
  let s := s.[23 <- Z.lxor b3 (Z.land (not64 b4) b0)] in
  let s := s.[24 <- Z.lxor b4 (Z.land (not64 b0) b1)] in
  s.
Definition KeccakF1600Step (s : list Z) : list Z :=
  fold_left (fun s i =>
    let s := keccak_round0 RC.[i] s in
    let s := keccak_round1 RC.[i + 1] s in
    let s := keccak_round2 RC.[i + 2] s in
    keccak_round3 RC.[i + 3] s) [0; 4; 8; 12; 16; 20]%nat s.

(** ** The sponge *)

(** How the program is compiled: the byte order that is known at compile time (0 if it is not),
    and that of the host. *)
Record target := mkTarget { SHA3_BYTEORDER : Z; host_le : bool }.

Definition target_ok (t : target) : Prop :=
  (SHA3_BYTEORDER t = 1234 -> host_le t = true) /\ (SHA3_BYTEORDER t = 4321 -> host_le t = false).

Record SHA3Context := mkSHA3 { u_s : list Z; nRate : Z; nLoaded : Z; ixMask : Z; iSize : Z }.

(** The bytes [u.x] of the lanes [u.s]: byte [k] of the memory of a lane. *)
Definition x_shift (t : target) (k : Z) : Z := 8 * (if host_le t then k mod 8 else 7 - k mod 8).
Definition xor_x (t : target) (s : list Z) (k b : Z) : list Z :=
  let j := Z.to_nat (k / 8) in s.[j <- Z.lxor s.[j] (Z.shiftl b (x_shift t k))].
Definition get_x (t : target) (s : list Z) (k : Z) : Z :=
  u8 (Z.shiftr s.[Z.to_nat (k / 8)] (x_shift t k)).

Definition SHA3Init (t : target) (size : Z) : SHA3Context :=
  mkSHA3 (memset 0 25)
    (if (128 <=? size) && (size <=? 512) then (1600 - Z.land (size + 31) (Z.lnot 31) * 2) / 8
     else (1600 - 2 * 256) / 8)
    0
    (if SHA3_BYTEORDER t =? 1234 then 0
     else if SHA3_BYTEORDER t =? 4321 then 7
     else if host_le t then 0 else 7)
    size.

Definition set_lanes (s : list Z) (n : Z) (p : SHA3Context) : SHA3Context :=
  mkSHA3 s (nRate p) n (ixMask p) (iSize p).

(** One turn of the loop over whole words. *)
Definition word_step (p : SHA3Context) (w : list Z) : SHA3Context :=
  let j := Z.to_nat (nLoaded p / 8) in
  let s := (u_s p).[j <- Z.lxor (u_s p).[j] (le_num w)] in
  let n := nLoaded p + 8 in
  if nRate p <=? n then set_lanes (KeccakF1600Step s) 0 p else set_lanes s n p.

Fixpoint word_loop (fuel : nat) (p : SHA3Context) (data : list Z) : SHA3Context * list Z :=
  match fuel with
  | O => (p, data)
  | S fuel =>
      if (8 <=? length data)%nat then word_loop fuel (word_step p (firstn 8 data)) (skipn 8 data)
      else (p, data)
  end.

(** One turn of the loop over bytes. *)
Definition byte_step (t : target) (p : SHA3Context) (b : Z) : SHA3Context :=
  let k :=
    if SHA3_BYTEORDER t =? 1234 then nLoaded p
    else if SHA3_BYTEORDER t =? 4321 then Z.lxor (nLoaded p) 7
    else Z.lxor (nLoaded p) (ixMask p) in
  let s := xor_x t (u_s p) k b in
  let n := nLoaded p + 1 in
  if n =? nRate p then set_lanes (KeccakF1600Step s) 0 p else set_lanes s n p.

(** [aligned] says whether the address of the data is a multiple of eight. *)
Definition SHA3Update (t : target) (aligned : bool) (p : SHA3Context) (aData : option (list Z)) : SHA3Context :=
  match aData with
  | None => p
  | Some data =>
      let '(p, data) :=
        if (SHA3_BYTEORDER t =? 1234) && (nLoaded p mod 8 =? 0) && aligned
        then word_loop (length data) p data else (p, data) in
      fold_left (byte_step t) data p
  end.

(** The digest is left behind the bytes of the rate, in a context that is not used again; the
    first [iSize / 8] bytes of it are what the callers return. *)
Definition SHA3Final (t : target) (al1 al2 : bool) (p : SHA3Context) : list Z :=
  let p :=
    if nLoaded p =? nRate p - 1 then SHA3Update t al1 p (Some [0x86])
    else
      let p := SHA3Update t al1 p (Some [0x06]) in
      let p := set_lanes (u_s p) (nRate p - 1) p in
      SHA3Update t al2 p (Some [0x80]) in
  map (fun i => get_x t (u_s p) (Z.lxor (Z.of_nat i) (ixMask p))) (seq 0 (Z.to_nat (nRate p))).

(** ** FIPS 202 *)

(** Lane [x, y] of the standard is element [5 y + x]. *)
Definition fips_theta (A : list Z) : list Z :=
  let C x := Z.lxor (Z.lxor (Z.lxor (Z.lxor A.[x] A.[5 + x]) A.[10 + x]) A.[15 + x]) A.[20 + x] in
  let D x := Z.lxor (C ((x + 4) mod 5)%nat) (ROL64 (C ((x + 1) mod 5)%nat) 1) in
  map (fun i => Z.lxor A.[i] (D (i mod 5)%nat)) (seq 0 25).

(** The walk over the lanes that gives the offsets: at step [t], [(t + 1) (t + 2) / 2]. *)
Fixpoint rho_walk (n : nat) (t : Z) (x y : nat) (o : list Z) : list Z :=
  match n with
  | O => o
  | S n => rho_walk n (t + 1) y ((2 * x + 3 * y) mod 5) o.[5 * y + x <- ((t + 1) * (t + 2) / 2) mod 64]
  end.
Definition rho_offsets : list Z := rho_walk 24 0 1 0 (memset 0 25).

Definition fips_rho (A : list Z) : list Z :=
  map (fun i => if (i =? 0)%nat then A.[0] else ROL64 A.[i] rho_offsets.[i]) (seq 0 25).

Definition fips_pi (A : list Z) : list Z :=
  map (fun i => let x := (i mod 5)%nat in let y := (i / 5)%nat in A.[5 * x + (x + 3 * y) mod 5]) (seq 0 25).

Definition fips_chi (A : list Z) : list Z :=
  map (fun i =>
    let x := (i mod 5)%nat in let y := (i / 5)%nat in
    Z.lxor A.[i] (Z.land (not64 A.[5 * y + (x + 1) mod 5]) A.[5 * y + (x + 2) mod 5])) (seq 0 25).

(** The round constants come from a shift register of eight bits. *)
Definition lfsr_step (R : list bool) : list bool :=
  match R with
  | [r0; r1; r2; r3; r4; r5; r6; r7] => [r7; r0; r1; r2; xorb r3 r7; xorb r4 r7; xorb r5 r7; r6]
  | _ => R
  end.
Definition rc_bit (t : nat) : bool :=
  nth 0 (Nat.iter (t mod 255) lfsr_step [true; false; false; false; false; false; false; false]) false.
Definition fips_RC (ir : nat) : Z :=
  fold_left (fun rc j => if rc_bit (j + 7 * ir) then Z.lor rc (Z.shiftl 1 (2 ^ Z.of_nat j - 1)) else rc) (seq 0 7) 0.

Definition fips_iota (ir : nat) (A : list Z) : list Z := A.[0 <- Z.lxor A.[0] (fips_RC ir)].

Definition fips_round (A : list Z) (ir : nat) : list Z :=
  fips_iota ir (fips_chi (fips_pi (fips_rho (fips_theta A)))).

Definition keccak_f (A : list Z) : list Z := fold_left fips_round (seq 0 24) A.

(** A block of at most 200 bytes, exclusive or of its lanes, and the first bytes of the lanes. *)
Definition xor_block (A blk : list Z) : list Z :=
  map (fun j => Z.lxor A.[j] (le_num (slice blk (8 * j) 8))) (seq 0 25).
Definition lane_bytes (a : Z) : list Z := map (fun k => u8 (Z.shiftr a (8 * Z.of_nat k))) (seq 0 8).

Definition sponge (r : nat) (A m : list Z) : list Z * list Z :=
  absorb (fun A blk => keccak_f (xor_block A blk)) r A m.

(** The padding for SHA-3: the bits 01, then 10*1. *)
Definition sha3_pad (r n : nat) : list Z :=
  if (n mod r =? r - 1)%nat then [0x86] else [0x06] ++ memset 0 (r - 2 - n mod r) ++ [0x80].

Definition fips_sha3 (d : Z) (m : list Z) : list Z :=
  let r := Z.to_nat (200 - d / 4) in
  let A := fst (sponge r (memset 0 25) (m ++ sha3_pad r (length m))) in
  firstn (Z.to_nat (d / 8)) (flat_map lane_bytes A).

(** ** The permutation *)

Lemma RC_fips : forall i, (i < 24)%nat -> RC.[i] = fips_RC i.
Proof.
  intros i Hi. assert (H : forallb (fun i => RC.[i] =? fips_RC i) (seq 0 24) = true) by (vm_compute; reflexivity).
  rewrite forallb_forall in H. apply Z.eqb_eq, H, in_seq. lia.
Qed.

(** Where the code keeps lane [i]: each round moves row [y] of column [x] to [x + 2 y].  The lanes
    of the standard after [k] rounds, read from the array. *)
Definition moved (i : nat) : nat := (5 * ((i mod 5 + 2 * (i / 5)) mod 5) + i mod 5)%nat.
Definition view (k : nat) (s : list Z) : list Z := map (fun i => s.[Nat.iter k moved i]) (seq 0 25).

Definition mixed (A : list Z) : list Z := fips_chi (fips_pi (fips_rho (fips_theta A))).

Ltac lanes s :=
  do 25 (destruct s as [|? s]; [discriminate|]); destruct s; [|discriminate].

Lemma round0_fips rc s : length s = 25%nat ->
  length (keccak_round0 rc s) = 25%nat
  /\ view 1 (keccak_round0 rc s) = (mixed (view 0 s)).[0 <- Z.lxor (mixed (view 0 s)).[0] rc].
Proof. intros L. lanes s. split; reflexivity. Qed.

Lemma round1_fips rc s : length s = 25%nat ->
  length (keccak_round1 rc s) = 25%nat
  /\ view 2 (keccak_round1 rc s) = (mixed (view 1 s)).[0 <- Z.lxor (mixed (view 1 s)).[0] rc].
Proof. intros L. lanes s. split; reflexivity. Qed.

Lemma round2_fips rc s : length s = 25%nat ->
  length (keccak_round2 rc s) = 25%nat
  /\ view 3 (keccak_round2 rc s) = (mixed (view 2 s)).[0 <- Z.lxor (mixed (view 2 s)).[0] rc].
Proof. intros L. lanes s. split; reflexivity. Qed.

Lemma round3_fips rc s : length s = 25%nat ->
  length (keccak_round3 rc s) = 25%nat
  /\ view 4 (keccak_round3 rc s) = (mixed (view 3 s)).[0 <- Z.lxor (mixed (view 3 s)).[0] rc].
Proof. intros L. lanes s. split; reflexivity. Qed.

Lemma view_start s : length s = 25%nat -> view 4 s = s /\ view 0 s = s.
Proof. intros L. lanes s. split; reflexivity. Qed.

Lemma four_rounds_fips i s : length s = 25%nat -> (i + 3 < 24)%nat ->
  let s' := keccak_round3 RC.[i + 3] (keccak_round2 RC.[i + 2] (keccak_round1 RC.[i + 1] (keccak_round0 RC.[i] s))) in
  length s' = 25%nat /\ s' = fold_left fips_round (seq i 4) s.
Proof.
  intros L Hi. cbv zeta.
  destruct (round0_fips RC.[i] s L) as [L0 E0]. destruct (round1_fips RC.[i + 1] _ L0) as [L1 E1].
  destruct (round2_fips RC.[i + 2] _ L1) as [L2 E2]. destruct (round3_fips RC.[i + 3] _ L2) as [L3 E3].
  split; [exact L3|]. rewrite <- (proj1 (view_start _ L3)), E3, E2, E1, E0, (proj2 (view_start s L)), !RC_fips by lia.
  cbn [seq fold_left]. unfold fips_round, fips_iota, mixed. now replace (S i) with (i + 1)%nat by lia;
    replace (S (i + 1)) with (i + 2)%nat by lia; replace (S (i + 2)) with (i + 3)%nat by lia.
Qed.

Lemma turns_fips n s : length s = 25%nat -> (n <= 6)%nat ->
  let s' := fold_left (fun s i => keccak_round3 RC.[i + 3] (keccak_round2 RC.[i + 2] (keccak_round1 RC.[i + 1]
    (keccak_round0 RC.[i] s)))) (map (Nat.mul 4) (seq 0 n)) s in
  length s' = 25%nat /\ s' = fold_left fips_round (seq 0 (4 * n)) s.
Proof.
  intros L. induction n as [|n IH]; intros Hn; [auto|]. destruct IH as [L' E]; [lia|]. cbv zeta in *.
  rewrite seq_S, map_app, fold_left_app. cbn [map fold_left].
  replace (4 * S n)%nat with (4 * n + 4)%nat by lia. rewrite seq_app, fold_left_app, <- E.
  apply four_rounds_fips; [exact L' | lia].
Qed.

Lemma keccak_f_eq s : length s = 25%nat -> length (KeccakF1600Step s) = 25%nat /\ KeccakF1600Step s = keccak_f s.
Proof. intros L. exact (turns_fips 6 s L ltac:(lia)). Qed.

(** The unrolled, in-place permutation of the code is Keccak-f[1600] of FIPS 202: on every
    state of 25 lanes, the six turns of its loop are the 24 rounds of the standard, made of the
    step mappings theta, rho, pi, chi and iota, with the rotation offsets and round constants
    that the standard defines. *)
Theorem keccak_is_fips202 s : length s = 25%nat -> KeccakF1600Step s = keccak_f s.
Proof. intros L. now apply keccak_f_eq. Qed.

Lemma keccak_is_fips202_witness : KeccakF1600Step (memset 0 25) = keccak_f (memset 0 25).
Proof. apply (keccak_is_fips202 (memset 0 25)). reflexivity. Defined.

(** ** The sponge *)

Lemma length_xor_block A b : length (xor_block A b) = 25%nat.
Proof. unfold xor_block. now rewrite length_map, length_seq. Qed.

Lemma xor_block_nil A : length A = 25%nat -> xor_block A [] = A.
Proof.
  intros L. unfold xor_block. transitivity (map (fun i => A.[i]) (seq 0 25)); [|now apply map_nth_seq]. apply map_ext. intros j.
  unfold slice. now rewrite skipn_nil, firstn_nil, Z.lxor_0_r.
Qed.

(** A few more bytes within one lane. *)
Lemma xor_block_app A b d : length A = 25%nat -> bytes b -> bytes d ->
  (length b mod 8 + length d <= 8)%nat -> d <> [] -> (length b + length d <= 200)%nat ->
  let j := (length b / 8)%nat in
  xor_block A (b ++ d)
  = (xor_block A b).[j <- Z.lxor (xor_block A b).[j] (Z.shiftl (le_num d) (8 * Z.of_nat (length b mod 8)))].
Proof.
  intros LA Bb Bd Hm Hd Hl j. pose proof (Nat.div_mod_eq (length b) 8) as E. fold j in E.
  assert (1 <= length d)%nat by (destruct d; [congruence | cbn; lia]).
  apply (nth_ext _ _ 0 0); rewrite ?length_upd, !length_xor_block; [reflexivity|]. intros i Hi.
  destruct (Nat.eq_dec i j) as [->|Hne].
  - rewrite nth_upd_eq by (rewrite length_xor_block; lia). unfold xor_block. rewrite !nth_map_seq by lia.
    rewrite Z.lxor_assoc. f_equal. unfold slice.
    replace (skipn (8 * j) (b ++ d)) with (skipn (8 * j) b ++ d)
      by (rewrite skipn_app; replace (8 * j - length b)%nat with 0%nat by lia; reflexivity).
    assert (Ls : length (skipn (8 * j) b) = (length b mod 8)%nat) by (rewrite length_skipn; lia).
    rewrite !firstn_all2 by (rewrite ?length_app; lia). rewrite le_num_app, Ls.
    assert (Ep : 256 ^ Z.of_nat (length b mod 8) = 2 ^ (8 * Z.of_nat (length b mod 8)))
      by (change 256 with (2 ^ 8); now rewrite <- Z.pow_mul_r by lia).
    pose proof (le_num_range _ (bytes_skipn (8 * j) b Bb)) as R. rewrite Ls, Ep in R.
    rewrite <- add_shiftl_lxor, Z.shiftl_mul_pow2, Ep by (exact R || lia). lia.
  - rewrite nth_upd_ne by auto. unfold xor_block. rewrite !nth_map_seq by lia. do 2 f_equal. unfold slice.
    rewrite skipn_app. destruct (Nat.lt_ge_cases i j).
    + rewrite firstn_app, length_skipn. replace (8 - (length b - 8 * i))%nat with 0%nat by lia.
      now rewrite app_nil_r.
    + rewrite !(skipn_all2 b), skipn_all2 by lia. reflexivity.
Qed.

Lemma length_keccak_f A blk : length (keccak_f (xor_block A blk)) = 25%nat.
Proof. rewrite <- (proj2 (keccak_f_eq _ (length_xor_block A blk))). apply keccak_f_eq, length_xor_block. Qed.

Lemma length_sponge r m : length (fst (sponge r (memset 0 25) m)) = 25%nat.
Proof.
  unfold sponge, absorb. cbn [fst]. apply (fold_left_inv (fun A => length A = 25%nat)); [reflexivity|].
  intros A blk _. apply length_keccak_f.
Qed.

(** Within a block, the sponge only collects; at its end it permutes. *)
Lemma sponge_app r m d : (0 < r)%nat -> d <> [] ->
  let '(A, b) := sponge r (memset 0 25) m in (length b + length d <= r)%nat ->
  sponge r (memset 0 25) (m ++ d)
  = if (length b + length d =? r)%nat then (keccak_f (xor_block A (b ++ d)), []) else (A, b ++ d).
Proof.
  intros Hr Hd. pose proof (absorb_app (fun A blk => keccak_f (xor_block A blk)) r Hr (memset 0 25) m d) as E.
  unfold sponge. destruct (absorb _ r (memset 0 25) m) as [A b]. cbn [fst snd] in E. intros Hl. rewrite E.
  destruct (Nat.eqb_spec (length b + length d) r) as [El|El].
  - rewrite <- (app_nil_r (b ++ d)) at 1. rewrite absorb_block by (rewrite ?length_app; lia). now apply absorb_small.
  - apply absorb_small; [lia|]. rewrite length_app. lia.
Qed.

Definition mask_of (t : target) : Z :=
  if SHA3_BYTEORDER t =? 1234 then 0
  else if SHA3_BYTEORDER t =? 4321 then 7
  else if host_le t then 0 else 7.

(** The context has taken in the bytes [m]. *)
Definition took (t : target) (r : nat) (p : SHA3Context) (m : list Z) : Prop :=
  bytes m /\ nRate p = Z.of_nat r /\ ixMask p = mask_of t
  /\ let '(A, b) := sponge r (memset 0 25) m in
     u_s p = xor_block A b /\ nLoaded p = Z.of_nat (length b) /\ (length b < r)%nat /\ bytes b.

(** Whatever the byte order, the byte that is changed is the next one of the block. *)
Lemma byte_place t p n : target_ok t -> ixMask p = mask_of t -> nLoaded p = Z.of_nat n -> (n < 200)%nat ->
  let k := if SHA3_BYTEORDER t =? 1234 then nLoaded p
           else if SHA3_BYTEORDER t =? 4321 then Z.lxor (nLoaded p) 7
           else Z.lxor (nLoaded p) (ixMask p) in
  Z.to_nat (k / 8) = (n / 8)%nat /\ x_shift t k = 8 * Z.of_nat (n mod 8).
Proof.
  intros [T1 T2] Em En Hn k.
  assert (Swap : forallb (fun n => (Z.to_nat (Z.lxor (Z.of_nat n) 7 / 8) =? n / 8)%nat
    && (7 - Z.lxor (Z.of_nat n) 7 mod 8 =? Z.of_nat (n mod 8))) (seq 0 200) = true) by (vm_compute; reflexivity).
  rewrite forallb_forall in Swap. specialize (Swap n ltac:(apply in_seq; lia)).
  apply andb_prop in Swap. destruct Swap as [S1 S2]. apply Nat.eqb_eq in S1. apply Z.eqb_eq in S2.
  assert (Same : Z.to_nat (Z.of_nat n / 8) = (n / 8)%nat /\ Z.of_nat n mod 8 = Z.of_nat (n mod 8)).
  { change 8 with (Z.of_nat 8). rewrite <- Nat2Z.inj_div, <- Nat2Z.inj_mod, Nat2Z.id. auto. }
  unfold k, x_shift, mask_of in *. rewrite En, ?Em.
  destruct (Z.eqb_spec (SHA3_BYTEORDER t) 1234) as [B1|B1]; [rewrite (T1 B1); lia|].
  destruct (Z.eqb_spec (SHA3_BYTEORDER t) 4321) as [B2|B2]; [rewrite (T2 B2); lia|].
  destruct (host_le t); [rewrite Z.lxor_0_r|]; lia.
Qed.

Lemma took_more t r p m d : (0 < r <= 200)%nat -> bytes d -> d <> [] -> took t r p m ->
  let n := Z.to_nat (nLoaded p) in (n mod 8 + length d <= 8)%nat -> (n + length d <= r)%nat ->
  let s := (u_s p).[n / 8 <- Z.lxor (u_s p).[n / 8] (Z.shiftl (le_num d) (8 * Z.of_nat (n mod 8)))] in
  took t r (if (n + length d =? r)%nat then set_lanes (KeccakF1600Step s) 0 p
            else set_lanes s (nLoaded p + Z.of_nat (length d)) p) (m ++ d).
Proof.
  intros Hr Bd Hd (Bm & Er & Ei & H) n. pose proof (sponge_app r m d ltac:(lia) Hd) as E.
  pose proof (length_sponge r m) as LA. unfold took. destruct (sponge r (memset 0 25) m) as [A b].
  destruct H as (Es & En & Lb & Bb). cbn [fst] in LA.
  assert (Enn : n = length b) by (unfold n; lia). rewrite Enn. intros Hm Hl. rewrite (E Hl).
  pose proof (xor_block_app A b d LA Bb Bd Hm Hd ltac:(lia)) as X. cbv zeta in X. rewrite <- Es in X. rewrite <- X.
  split; [now apply bytes_app|].
  destruct (Nat.eqb_spec (length b + length d) r); cbn [nRate ixMask u_s nLoaded set_lanes].
  - split; [exact Er|]. split; [exact Ei|]. rewrite xor_block_nil by apply length_keccak_f.
    split; [apply keccak_f_eq, length_xor_block|]. cbn [length]. split; [reflexivity|]. split; [lia | constructor].
  - split; [exact Er|]. split; [exact Ei|]. split; [reflexivity|]. rewrite length_app.
    split; [lia|]. split; [lia | now apply bytes_app].
Qed.

Lemma took_loaded t r p m : took t r p m -> 0 <= nLoaded p < Z.of_nat r.
Proof. intros (_ & _ & _ & H). destruct (sponge r (memset 0 25) m). lia. Qed.

Lemma byte_step_took t r p m b : target_ok t -> (0 < r <= 200)%nat -> is_byte b ->
  took t r p m -> took t r (byte_step t p b) (m ++ [b]).
Proof.
  intros Ht Hr Hb H. pose proof (took_loaded _ _ _ _ H) as Hn. pose proof H as (_ & Er & Ei & _).
  set (n := Z.to_nat (nLoaded p)). assert (En : nLoaded p = Z.of_nat n) by lia.
  pose proof (took_more t r p m [b] Hr (Forall_cons _ Hb (Forall_nil _)) ltac:(discriminate) H) as S.
  cbv zeta in S. fold n in S. cbn [length le_num] in S.
  pose proof (Nat.mod_upper_bound n 8). specialize (S ltac:(lia) ltac:(lia)).
  destruct (byte_place t p n Ht Ei En ltac:(lia)) as [E1 E2]. cbv zeta in E1, E2.
  unfold byte_step, xor_x. rewrite E1, E2. replace (b + 256 * 0) with b in S by lia.
  rewrite Er. replace (nLoaded p + 1 =? Z.of_nat r) with (n + 1 =? r)%nat; [exact S|].
  destruct (Nat.eqb_spec (n + 1) r), (Z.eqb_spec (nLoaded p + 1) (Z.of_nat r)); lia.
Qed.

Lemma word_step_took t r p m w : (0 < r <= 200)%nat -> (r mod 8 = 0)%nat -> bytes w -> length w = 8%nat ->
  nLoaded p mod 8 = 0 -> took t r p m ->
  took t r (word_step p w) (m ++ w) /\ nLoaded (word_step p w) mod 8 = 0.
Proof.
  intros Hr H8 Bw Lw Hm H. pose proof (took_loaded _ _ _ _ H) as Hn. pose proof H as (_ & Er & _ & _).
  set (n := Z.to_nat (nLoaded p)). assert (En : nLoaded p = Z.of_nat n) by lia.
  assert (Hn8 : (n mod 8 = 0)%nat) by (apply Nat2Z.inj; rewrite Nat2Z.inj_mod, <- En; exact Hm).
  assert (Hle : (n + 8 <= r)%nat).
  { pose proof (Nat.div_mod_eq n 8). pose proof (Nat.div_mod_eq r 8). lia. }
  pose proof (took_more t r p m w Hr Bw ltac:(now destruct w) H) as S. cbv zeta in S. fold n in S.
  rewrite Lw, Hn8 in S. specialize (S ltac:(lia) Hle). rewrite Z.shiftl_0_r in S.
  assert (Ej : Z.to_nat (nLoaded p / 8) = (n / 8)%nat)
    by (rewrite En; change 8 with (Z.of_nat 8); now rewrite <- Nat2Z.inj_div, Nat2Z.id).
  unfold word_step. rewrite Ej, Er. destruct (Nat.eqb_spec (n + 8) r), (Z.leb_spec (Z.of_nat r) (nLoaded p + 8)); try lia.
  - split; [exact S | reflexivity].
  - split; [exact S|]. cbn [nLoaded set_lanes]. rewrite <- Zplus_mod_idemp_l, Hm. reflexivity.
Qed.

Lemma word_loop_took t r fuel : forall p m data, (0 < r <= 200)%nat -> (r mod 8 = 0)%nat -> bytes data ->
  nLoaded p mod 8 = 0 -> took t r p m ->
  let '(p', rest) := word_loop fuel p data in exists front, data = front ++ rest /\ took t r p' (m ++ front).
Proof.
  induction fuel as [|fuel IH]; intros p m data Hr H8 Bd Hn H; cbn [word_loop].
  - exists []. rewrite app_nil_r. auto.
  - destruct (Nat.leb_spec 8 (length data)) as [Hl|Hl]; [|exists []; rewrite app_nil_r; auto].
    destruct (word_step_took t r p m (firstn 8 data) Hr H8 (bytes_firstn _ _ Bd)) as [S N];
      [rewrite length_firstn; lia | exact Hn | exact H |].
    specialize (IH _ _ (skipn 8 data) Hr H8 (bytes_skipn _ _ Bd) N S).
    destruct (word_loop fuel _ _) as [p' rest]. destruct IH as (front & E & T). exists (firstn 8 data ++ front).
    rewrite <- app_assoc, <- E, firstn_skipn. rewrite <- app_assoc in T. auto.
Qed.

Lemma bytes_took t r data : forall p m, target_ok t -> (0 < r <= 200)%nat -> bytes data ->
  took t r p m -> took t r (fold_left (byte_step t) data p) (m ++ data).
Proof.
  induction data as [|b data IH]; intros p m Ht Hr Bd H; cbn [fold_left]; [now rewrite app_nil_r|].
  apply Forall_cons_iff in Bd. destruct Bd as [Bb Bd]. replace (m ++ b :: data) with ((m ++ [b]) ++ data) by (now rewrite <- app_assoc).
  apply IH; auto. now apply byte_step_took.
Qed.

Lemma SHA3Update_took t r aligned p m data : target_ok t -> (0 < r <= 200)%nat -> (r mod 8 = 0)%nat -> bytes data ->
  took t r p m -> took t r (SHA3Update t aligned p (Some data)) (m ++ data).
Proof.
  intros Ht Hr H8 Bd H. unfold SHA3Update.
  destruct (Z.eqb_spec (nLoaded p mod 8) 0) as [E|E]; [|rewrite andb_false_r; cbn [andb]; now apply bytes_took].
  destruct ((SHA3_BYTEORDER t =? 1234) && true && aligned); [|now apply bytes_took].
  pose proof (word_loop_took t r (length data) p m data Hr H8 Bd E H) as W.
  destruct (word_loop _ p data) as [p' rest]. destruct W as (front & -> & T). rewrite app_assoc.
  apply bytes_app in Bd. now apply bytes_took.
Qed.

(** Zeros do not change the lanes. *)
Lemma xor_block_zeros A b k : xor_block A (b ++ memset 0 k) = xor_block A b.
Proof.
  unfold xor_block. apply map_ext. intros j. f_equal. unfold slice, memset. rewrite skipn_app, firstn_app, skipn_repeat, firstn_repeat.
  rewrite le_num_app. enough (E : forall n, le_num (repeat 0 n) = 0) by (rewrite E; lia).
  induction n as [|n IH]; [reflexivity | cbn [repeat le_num]; lia].
Qed.

Lemma took_zeros t r p m k : (r <= 200)%nat -> took t r p m -> nLoaded p + Z.of_nat k < Z.of_nat r ->
  took t r (set_lanes (u_s p) (nLoaded p + Z.of_nat k) p) (m ++ memset 0 k).
Proof.
  intros Hr H Hk. destruct k as [|k]; [rewrite app_nil_r, Z.add_0_r; destruct p; exact H|].
  pose proof (took_loaded _ _ _ _ H) as Hn0. destruct H as (Bm & Er & Ei & H). pose proof (sponge_app r m (memset 0 (S k)) ltac:(lia) ltac:(discriminate)) as E.
  unfold took. destruct (sponge r (memset 0 25) m) as [A b]. destruct H as (Es & En & Lb & Bb).
  rewrite length_memset in E. rewrite E by lia. destruct (Nat.eqb_spec (length b + S k) r); [lia|].
  assert (B0 : bytes (memset 0 (S k))) by (apply bytes_memset; unfold is_byte; lia).
  split; [now apply bytes_app|]. cbn [nRate ixMask u_s nLoaded set_lanes]. rewrite xor_block_zeros, length_app, length_memset.
  split; [exact Er|]. split; [exact Ei|]. split; [exact Es|]. split; [lia|]. split; [lia | now apply bytes_app].
Qed.

Lemma took_mod t r p m : (0 < r)%nat -> took t r p m -> nLoaded p = Z.of_nat (length m mod r).
Proof.
  intros Hr (_ & _ & _ & H). unfold sponge in H.
  rewrite <- (absorb_rest (fun A blk => keccak_f (xor_block A blk)) r Hr (memset 0 25) m).
  destruct (absorb _ r (memset 0 25) m). cbn [snd]. tauto.
Qed.

(** The state that the digest is taken from. *)
Lemma padded_took t r p m al1 al2 : target_ok t -> (8 <= r <= 200)%nat -> (r mod 8 = 0)%nat -> took t r p m ->
  took t r
    (if nLoaded p =? nRate p - 1 then SHA3Update t al1 p (Some [0x86])
     else let p := SHA3Update t al1 p (Some [0x06]) in
          let p := set_lanes (u_s p) (nRate p - 1) p in SHA3Update t al2 p (Some [0x80])) (m ++ sha3_pad r (length m)).
Proof.
  intros Ht Hr H8 H. pose proof H as (_ & Er & _). pose proof (took_mod t r p m ltac:(lia) H) as En.
  pose proof (Nat.mod_upper_bound (length m) r) as Hm. unfold sha3_pad. rewrite En, Er.
  assert (B : forall x, is_byte x -> bytes [x]) by (intros x Hx; constructor; [exact Hx | constructor]).
  destruct (Nat.eqb_spec (length m mod r) (r - 1)) as [E|E],
    (Z.eqb_spec (Z.of_nat (length m mod r)) (Z.of_nat r - 1)) as [E'|E']; try lia.
  - apply SHA3Update_took; auto; [lia|]. apply B. unfold is_byte. lia.
  - cbv zeta. set (p1 := SHA3Update t al1 p (Some [0x06])).
    assert (T1 : took t r p1 (m ++ [0x06])) by (apply SHA3Update_took; auto; [lia | apply B; unfold is_byte; lia]).
    pose proof T1 as (_ & Er1 & _). pose proof (took_mod t r p1 _ ltac:(lia) T1) as En1.
    rewrite length_app in En1. cbn [length] in En1.
    rewrite <- Nat.Div0.add_mod_idemp_l, Nat.mod_small in En1 by lia.
    pose proof (took_zeros t r p1 _ (r - 2 - length m mod r) ltac:(lia) T1 ltac:(lia)) as T2.
    replace (nLoaded p1 + Z.of_nat (r - 2 - length m mod r)) with (nRate p1 - 1) in T2 by lia.
    apply (SHA3Update_took t r al2 _ _ [0x80]) in T2; auto; [|lia | apply B; unfold is_byte; lia].
    now rewrite <- !app_assoc in T2.
Qed.

Lemma pad_full r n : (8 <= r)%nat -> ((n + length (sha3_pad r n)) mod r = 0)%nat.
Proof.
  intros Hr. pose proof (Nat.mod_upper_bound n r ltac:(lia)). pose proof (Nat.div_mod_eq n r) as D.
  replace (n + length (sha3_pad r n))%nat with (S (n / r) * r)%nat; [apply Nat.Div0.mod_mul|].
  unfold sha3_pad. destruct (Nat.eqb_spec (n mod r) (r - 1)); cbn [length app];
    rewrite ?length_app, ?length_memset; cbn [length]; lia.
Qed.

Lemma digest_bytes t s r : target_ok t -> length s = 25%nat -> (r <= 200)%nat ->
  map (fun i => get_x t s (Z.lxor (Z.of_nat i) (mask_of t))) (seq 0 r) = firstn r (flat_map lane_bytes s).
Proof.
  intros Ht Ls Hr.
  assert (E : flat_map lane_bytes s = map (fun i => u8 (Z.shiftr s.[i / 8] (8 * Z.of_nat (i mod 8)))) (seq 0 200))
    by (lanes s; reflexivity).
  rewrite E, firstn_map. replace 200%nat with (r + (200 - r))%nat by lia.
  rewrite seq_app, firstn_app_l by apply length_seq. apply map_ext_in. intros i Hi. apply in_seq in Hi.
  destruct (byte_place t (mkSHA3 s 0 (Z.of_nat i) (mask_of t) 0) i Ht eq_refl eq_refl ltac:(lia)) as [E1 E2].
  cbv zeta in E1, E2. cbn [nLoaded ixMask] in E1, E2. unfold get_x.
  replace (Z.lxor (Z.of_nat i) (mask_of t)) with
    (if SHA3_BYTEORDER t =? 1234 then Z.of_nat i
     else if SHA3_BYTEORDER t =? 4321 then Z.lxor (Z.of_nat i) 7 else Z.lxor (Z.of_nat i) (mask_of t)).
  - now rewrite E1, E2.
  - unfold mask_of. destruct (_ =? 1234); [now rewrite Z.lxor_0_r|]. now destruct (_ =? 4321).
Qed.

(** The sizes of the standard. *)
Definition sha3_size (d : Z) : Prop := d = 224 \/ d = 256 \/ d = 384 \/ d = 512.

Lemma init_took t d : sha3_size d ->
  let r := Z.to_nat (200 - d / 4) in
  took t r (SHA3Init t d) [] /\ (8 <= r <= 200)%nat /\ (r mod 8 = 0)%nat /\ (Z.to_nat (d / 8) <= r)%nat.
Proof.
  intros [-> | [-> | [-> | ->]]]; (split; [|vm_compute; lia]);
    refine (conj (Forall_nil _) (conj eq_refl (conj eq_refl (conj eq_refl (conj eq_refl (conj _ (Forall_nil _)))))));
    vm_compute; lia.
Qed.

Lemma updates_took t r updates : forall p m, target_ok t -> (0 < r <= 200)%nat -> (r mod 8 = 0)%nat ->
  Forall (fun u => bytes (snd u)) updates -> took t r p m ->
  took t r (fold_left (fun p u => SHA3Update t (fst u) p (Some (snd u))) updates p) (m ++ concat (map snd updates)).
Proof.
  induction updates as [|[al d] us IH]; intros p m Ht Hr H8 Hu H; cbn [fold_left map concat]; [now rewrite app_nil_r|].
  apply Forall_cons_iff in Hu. destruct Hu as [Hd Hu]. rewrite app_assoc. apply IH; auto. now apply SHA3Update_took.
Qed.

(** From a context that took in [m], the digest of [m] is made. *)
Lemma final_took t d p m al1 al2 : target_ok t -> sha3_size d -> took t (Z.to_nat (200 - d / 4)) p m ->
  firstn (Z.to_nat (d / 8)) (SHA3Final t al1 al2 p) = fips_sha3 d m.
Proof.
  intros Ht Hd T. destruct (init_took t d Hd) as (_ & Hr & H8 & Hle). set (r := Z.to_nat (200 - d / 4)) in *.
  pose proof (padded_took t r p m al1 al2 Ht Hr H8 T) as TP. unfold SHA3Final. cbv zeta in *.
  set (q := if nLoaded p =? nRate p - 1 then _ else _) in *.
  pose proof (took_mod t r q _ ltac:(lia) TP) as Eq. rewrite length_app, pad_full in Eq by lia.
  destruct TP as (_ & Er & Ei & TS). unfold fips_sha3. fold r. cbv zeta.
  pose proof (length_sponge r (m ++ sha3_pad r (length m))) as LA.
  destruct (sponge r (memset 0 25) (m ++ sha3_pad r (length m))) as [A b]. cbn [fst] in *.
  destruct TS as (Es & En & _). assert (b = []) as -> by (destruct b; [reflexivity | cbn in En; lia]).
  rewrite xor_block_nil in Es by exact LA. rewrite Ei, Er, Nat2Z.id, Es, digest_bytes by (auto || lia).
  rewrite firstn_firstn. f_equal. lia.
Qed.

(** An update leaves the rate and the size of the digest alone. *)
Definition same_kind (p q : SHA3Context) : Prop := nRate p = nRate q /\ iSize p = iSize q.

Lemma SHA3Update_kind t aligned p u : same_kind (SHA3Update t aligned p u) p.
Proof.
  destruct u as [data|]; [|now split]. unfold SHA3Update, same_kind.
  assert (B : forall l q, same_kind (fold_left (byte_step t) l q) q).
  { induction l as [|b l IH]; intros q; [now split|]. cbn [fold_left]. unfold same_kind.
    destruct (IH (byte_step t q b)) as [-> ->]. unfold byte_step. now destruct (_ =? _). }
  assert (W : forall fuel q l, same_kind (fst (word_loop fuel q l)) q).
  { induction fuel as [|fuel IH]; intros q l; [now split|]. cbn [word_loop]. destruct (8 <=? length l)%nat; [|now split].
    unfold same_kind. destruct (IH (word_step q (firstn 8 l)) (skipn 8 l)) as [-> ->]. unfold word_step. now destruct (_ <=? _). }
  destruct (_ && aligned); [|apply B]. specialize (W (length data) p data). destruct (word_loop _ p data) as [q rest].
  destruct (B rest q) as [-> ->]. exact W.
Qed.

(** C17: The hash functions of the code are SHA3-224, SHA3-256, SHA3-384 and SHA3-512 of FIPS 202:
    for either byte order, known at compile time or found at run time, and for every sequence of
    updates with data at any address, the digest is the hash that the standard defines for the
    concatenated input; cutting the input, and the path that takes whole words, do not matter. *)
Theorem sha3_is_fips202 t d updates al1 al2 :
  target_ok t -> sha3_size d -> Forall (fun u => bytes (snd u)) updates ->
  firstn (Z.to_nat (d / 8))
    (SHA3Final t al1 al2 (fold_left (fun p u => SHA3Update t (fst u) p (Some (snd u))) updates (SHA3Init t d)))
  = fips_sha3 d (concat (map snd updates)).
Proof.
  intros Ht Hd Hu. destruct (init_took t d Hd) as (T0 & Hr & H8 & Hle). apply final_took; auto.
  set (r := Z.to_nat _) in *. exact (updates_took t r updates _ [] Ht ltac:(lia) H8 Hu T0).
Qed.

Lemma sha3_is_fips202_witness :
  firstn 32 (SHA3Final (mkTarget 1234 true) true false
    (fold_left (fun p u => SHA3Update (mkTarget 1234 true) (fst u) p (Some (snd u)))
       [(true, map Z.of_nat (seq 0 150)); (false, [1; 2; 3])] (SHA3Init (mkTarget 1234 true) 256)))
  = fips_sha3 256 (map Z.of_nat (seq 0 150) ++ [1; 2; 3]).
Proof.
  apply (sha3_is_fips202 (mkTarget 1234 true) 256 [(true, map Z.of_nat (seq 0 150)); (false, [1; 2; 3])] true false).
  - split; [reflexivity | discriminate].
  - right. left. reflexivity.
  - apply Forall_cons; [|apply Forall_cons; [|apply Forall_nil]]; apply bytesb_bytes; reflexivity.
Defined.

(** The examples of the standard for the empty message and for "abc". *)
Lemma sha3_examples :
  firstn 4 (fips_sha3 256 []) = [0xa7; 0xff; 0xc6; 0xf8] /\ firstn 4 (fips_sha3 256 [97; 98; 99]) = [0x3a; 0x98; 0x5d; 0xa7]
  /\ firstn 4 (fips_sha3 512 []) = [0xa6; 0x9f; 0x73; 0xcc].
Proof. vm_compute. auto. Qed.
