(* ===== verification/ShSha1.v ===== *)
(** * SHA-1 in the shell

    Model of the hash engine of ext/misc/sha1.c.  Its compression function is the same code as
    that of the file of this name that [Sha1] models, macro by macro, so the definitions there are
    used; the bookkeeping around it, with its count of bits, and the rendering of the digest are
    defined here.  The digest is that of FIPS 180 as long as no single step has 512 MiB or more;
    a longer step loses the upper part of the length. *)

From Stdlib Require Import String ZArith Lia List Bool.
From S2P Require Import Prelude ChaCha20 Streaming Sha2 Sha1 ScText.
Import ListNotations.
Local Open Scope Z_scope.

Definition hash_init (p : sha1_ctx) : sha1_ctx :=
  mk_sha1 [0x67452301; 0xEFCDAB89; 0x98BADCFE; 0x10325476; 0xC3D2E1F0] 0 0 (sha1_buffer p).

(** The lengths that callers pass are those of type int, so that the sums with [len] fit 32 bits. *)
Definition hash_step (le : bool) (p : sha1_ctx) (data : list Z) : sha1_ctx :=
  let len := Z.of_nat (length data) in
  let j := count0 p in
  let c0 := u32 (j + u32 (Z.shiftl len 3)) in
  let c1 := if c0 <? j then u32 (count1 p + (Z.shiftr len 29 + 1)) else count1 p in
  let p := mk_sha1 (sha1_h p) c0 c1 (sha1_buffer p) in
  let j := Z.to_nat (Z.land (Z.shiftr j 3) 63) in
  let '(p, i, j) :=
    if (63 <? j + length data)%nat then
      let i := (64 - j)%nat in
      let buffer := memcpy (sha1_buffer p) j (firstn i data) in
      let p := mk_sha1 (sha1_h p) (count0 p) (count1 p) buffer in
      let p := sha1_transform le p buffer in
      let '(p, i) := sha1_update_loop (length data) le p data i in
      (p, i, 0%nat)
    else (p, 0%nat, j) in
  mk_sha1 (sha1_h p) (count0 p) (count1 p) (memcpy (sha1_buffer p) j (skipn i data)).

(** The loop that fills up with zeros; a context is at most 63 bytes short. *)
Fixpoint finish_loop (fuel : nat) (le : bool) (p : sha1_ctx) : sha1_ctx :=
  match fuel with
  | O => p
  | S fuel => if Z.land (count0 p) 504 =? 448 then p else finish_loop fuel le (hash_step le p [0])
  end.

Definition zEncode : list Z := str "0123456789abcdef".

(** The digest as bytes, or as digits with a final zero. *)
Definition hash_finish (le : bool) (p : sha1_ctx) (bAsBinary : bool) : list Z :=
  let finalcount := map (word_byte [count1 p; count0 p]) (seq 0 8) in
  let p := hash_step le p [0x80] in
  let p := finish_loop 64 le p in
  let p := hash_step le p finalcount in
  let digest := map (word_byte (sha1_h p)) (seq 0 20) in
  if bAsBinary then digest
  else flat_map (fun d => [zEncode.[Z.to_nat (Z.land (Z.shiftr d 4) 0xf)]; zEncode.[Z.to_nat (Z.land d 0xf)]]) digest ++ [0].

(** ** Short steps *)

(** Counting as the other file does it. *)
Lemma hash_step_update le p m d : sha1_repr p m -> Z.of_nat (length d) < 2 ^ 29 -> hash_step le p d = sha1_update le p d.
Proof.
  intros (_ & _ & _ & H0 & H1) Hl. unfold hash_step, sha1_update.
  assert (Hs : Z.shiftl (Z.of_nat (length d)) 3 = 8 * Z.of_nat (length d)) by (rewrite Z.shiftl_mul_pow2; lia).
  rewrite Hs, (u64_small (8 * _)), (u32_small (8 * _)), (Z.shiftr_div_pow2 (Z.of_nat (length d)) 29), (Z.div_small (Z.of_nat (length d)))
    by (unfold is_u32; lia).
  assert (B0 : 0 <= count0 p < 2 ^ 32) by (rewrite H0; apply Z.mod_pos_bound; lia).
  assert (B1 : is_u32 (count1 p)) by (rewrite H1; unfold is_u32; apply Z.mod_pos_bound; lia).
  change (u32 0) with 0. rewrite Z.add_0_l, Z.add_0_r.
  set (n := 8 * Z.of_nat (length d)) in *. set (c0 := u32 (count0 p + n)).
  assert (Hc : (c0 <? count0 p) = (c0 <? n)).
  { unfold c0. rewrite u32_mod. destruct (Z.lt_ge_cases (count0 p + n) (2 ^ 32)).
    - rewrite Z.mod_small by lia. destruct (Z.ltb_spec (count0 p + n) (count0 p)), (Z.ltb_spec (count0 p + n) n); lia.
    - rewrite <- (Z.mod_unique_pos (count0 p + n) (2 ^ 32) 1 (count0 p + n - 2 ^ 32)) by lia.
      destruct (Z.ltb_spec (count0 p + n - 2 ^ 32) (count0 p)), (Z.ltb_spec (count0 p + n - 2 ^ 32) n); lia. }
  rewrite Hc. destruct (c0 <? n); [|now rewrite (u32_small (count1 p))].
  now rewrite (u32_small (u32 _)) by apply u32_range.
Qed.

Lemma hash_step_repr le p m d : sha1_repr p m -> bytes d -> Z.of_nat (length d) < 2 ^ 29 ->
  sha1_repr (hash_step le p d) (m ++ d).
Proof. intros H Hd Hl. rewrite (hash_step_update le p m d H Hl). now apply sha1_update_repr. Qed.

Lemma hash_steps_repr le chunks : forall p m, sha1_repr p m -> Forall bytes chunks ->
  Forall (fun d => Z.of_nat (length d) < 2 ^ 29) chunks -> sha1_repr (fold_left (hash_step le) chunks p) (m ++ concat chunks).
Proof.
  induction chunks as [|d ds IH]; intros p m H Hb Hl; cbn [fold_left concat]; [now rewrite app_nil_r|].
  apply Forall_cons_iff in Hb, Hl. rewrite app_assoc. apply IH; try tauto. now apply hash_step_repr.
Qed.

Lemma finish_loop_final le fuel : forall p m, sha1_repr p m -> finish_loop fuel le p = sha1_final_loop fuel le p.
Proof.
  induction fuel as [|fuel IH]; intros p m H; cbn [finish_loop sha1_final_loop]; [reflexivity|].
  destruct (_ =? 448); [reflexivity|]. rewrite (hash_step_update le p m [0] H) by (cbn; lia).
  apply (IH _ (m ++ [0])), sha1_update_repr; [exact H | repeat constructor; unfold is_byte; lia | cbn; lia].
Qed.

(** Two digits for each byte. *)
Definition hex_digits (l : list Z) : list Z :=
  flat_map (fun d => [zEncode.[Z.to_nat (d / 16 mod 16)]; zEncode.[Z.to_nat (d mod 16)]]) l.

Lemma hash_finish_repr le p m b : sha1_repr p m ->
  hash_finish le p b = if b then fips_sha1 m else hex_digits (fips_sha1 m) ++ [0].
Proof.
  intros H. destruct (sha1_final_repr le p m H) as [D _]. unfold sha1_final in D. cbn [snd] in D. unfold hash_finish.
  assert (B : forall x, is_byte x -> bytes [x]) by (intros x Hx; constructor; [exact Hx | constructor]).
  rewrite (hash_step_update le p m [0x80] H) by (cbn; lia).
  assert (H1 : sha1_repr (sha1_update le p [0x80]) (m ++ [0x80]))
    by (apply sha1_update_repr; [exact H | apply B; unfold is_byte; lia | cbn; lia]).
  rewrite (finish_loop_final le 64 _ _ H1). apply (sha1_final_loop_repr le 64) in H1; [|apply Nat.mod_upper_bound; lia].
  rewrite (hash_step_update le _ _ _ H1) by (rewrite length_map, length_seq; lia). rewrite D.
  destruct b; [reflexivity|]. f_equal. unfold hex_digits. apply flat_map_ext. intros d.
  rewrite Z.shiftr_div_pow2 by lia. change 0xf with (Z.ones 4). now rewrite !Z.land_ones by lia.
Qed.

(** C22: The SHA-1 of the shell is that of FIPS 180: however the input is cut into steps, if each
    has less than 512 MiB, the result is the digest that the standard defines for the
    concatenated input, as 20 bytes or as 40 lower-case digits with a final zero, on hosts of
    either byte order and whatever the context held before. *)
Theorem shell_sha1_is_fips180 le p chunks b :
  length (sha1_buffer p) = 64%nat -> bytes (sha1_buffer p) -> Forall bytes chunks ->
  Forall (fun d => Z.of_nat (length d) < 2 ^ 29) chunks ->
  hash_finish le (fold_left (hash_step le) chunks (hash_init p)) b
  = if b then fips_sha1 (concat chunks) else hex_digits (fips_sha1 (concat chunks)) ++ [0].
Proof.
  intros Lb Bb Hb Hl. apply hash_finish_repr, (hash_steps_repr le chunks (hash_init p) []); auto.
  exact (sha1_init_repr p Lb Bb).
Qed.

Lemma shell_sha1_is_fips180_witness :
  hash_finish true (fold_left (hash_step true) [str "a"; str "bc"] (hash_init (mk_sha1 [] 0 0 (memset 0 64)))) false
  = hex_digits (fips_sha1 (str "abc")) ++ [0].
Proof.
  apply (shell_sha1_is_fips180 true (mk_sha1 [] 0 0 (memset 0 64)) [str "a"; str "bc"] false); [reflexivity|..].
  - apply bytesb_bytes. reflexivity.
  - apply Forall_cons; [|apply Forall_cons; [|apply Forall_nil]]; apply bytesb_bytes; reflexivity.
  - apply Forall_cons; [|apply Forall_cons; [|apply Forall_nil]]; reflexivity.
Defined.

(** The example of the standard. *)
Lemma shell_sha1_abc :
  hash_finish true (hash_step true (hash_init (mk_sha1 [] 0 0 (memset 0 64))) (str "abc")) false
  = str "a9993e364706816aba3e25717850c26c9cd0d89d" ++ [0].
Proof. vm_compute. reflexivity. Qed.

Lemma update_loop_counts le fuel : forall c data i,
  let r := fst (sha1_update_loop fuel le c data i) in count0 r = count0 c /\ count1 r = count1 c.
Proof.
  induction fuel as [|fuel IH]; intros c data i; cbn [sha1_update_loop]; [auto|].
  destruct (i + 63 <? length data)%nat; [|auto]. exact (IH (sha1_transform le c (skipn i data)) data (i + 64)%nat).
Qed.

(** C40: The length of a long step is lost: for the first step of a hash with 512 MiB or more, but
    less than 2 GiB, the count of bits that goes into the padding is the same as if the step had
    512 MiB, 1 GiB or 1.5 GiB less, because the upper bits of the length are added only when the
    lower word overflows. *)
Theorem sha1_length_lost le p data :
  2 ^ 29 <= Z.of_nat (length data) < 2 ^ 31 ->
  let q := hash_step le (hash_init p) data in
  let n := Z.of_nat (length data) mod 2 ^ 29 in
  count0 q = 8 * n /\ count1 q = 0 /\ 8 * n < 8 * Z.of_nat (length data).
Proof.
  intros Hl q n. unfold q, hash_step. cbn [hash_init count0 count1 sha1_h sha1_buffer].
  set (len := Z.of_nat (length data)) in *. rewrite Z.add_0_l, (u32_small (u32 _)) by apply u32_range.
  assert (E : u32 (Z.shiftl len 3) = 8 * n).
  { rewrite Z.shiftl_mul_pow2, u32_mod, Z.mul_comm by lia. change (2 ^ 32) with (2 ^ 3 * 2 ^ 29).
    rewrite Z.mul_mod_distr_l by lia. reflexivity. }
  assert (Hn : 0 <= n < 2 ^ 29) by (apply Z.mod_pos_bound; lia).
  rewrite E. destruct (Z.ltb_spec (8 * n) 0); [lia|].
  destruct (63 <? _)%nat; [|cbn [count0 count1]; lia].
  match goal with |- context [sha1_update_loop ?f ?l ?c ?d ?i] =>
    pose proof (update_loop_counts l f c d i) as K; destruct (sha1_update_loop f l c d i) as [c' i'] end.
  cbn [fst count0 count1 sha1_transform] in *. lia.
Qed.

Lemma sha1_length_lost_witness :
  let data := memset 0 (Z.to_nat (2 ^ 29)) in
  let q := hash_step true (hash_init (mk_sha1 [] 0 0 (memset 0 64))) data in
  count0 q = 8 * (Z.of_nat (length data) mod 2 ^ 29) /\ count1 q = 0
  /\ 8 * (Z.of_nat (length data) mod 2 ^ 29) < 8 * Z.of_nat (length data).
Proof.
  intros data q. apply (sha1_length_lost true (mk_sha1 [] 0 0 (memset 0 64)) data).
  unfold data. rewrite length_memset, Z2Nat.id; lia.
Defined.
