(* ===== verification/ShQuery.v ===== *)
(** * Hashes of values and of query results

    Model of the SQL functions of ext/misc/sha1.c and ext/misc/shathree.c in the shell: the hash
    of a value, the aggregate, and the hash of all rows of all statements of a text.  A call of
    the hash engine is modelled with the bytes that it is given.  Preparing and running of
    statements is the class [Engine]; a statement that was prepared has its text and the rows
    that stepping through it returns before another result than SQLITE_ROW, which the code
    takes for the end whether it is an error or not.  A statement whose rows never come to an
    end is not in the model.  The main result is that the bytes that are hashed
    determine the statements and their rows. *)

From Stdlib Require Import String ZArith Lia List Bool.
From S2P Require Import Prelude ChaCha20 Streaming Sha2 Sha1 ScText ShSha3 ShSha1.
Import ListNotations.
Local Open Scope Z_scope.

(** ** Values *)

(** A value by its type; a floating point number is given by its 64 bits. *)
Inductive sqlite3_value :=
  | SQL_NULL
  | SQL_INTEGER (v : Z)
  | SQL_FLOAT (u : Z)
  | SQL_TEXT (z : list Z)
  | SQL_BLOB (z : list Z).

(** What an SQL function returns. *)
Inductive result :=
  | Nothing
  | ResultText (z : list Z)
  | ResultBlob (z : list Z)
  | ResultError (msg : list Z).

(** The pointer that is returned for a blob: null for an empty one. *)
Definition sqlite3_value_blob (z : list Z) : option (list Z) := match z with [] => None | _ => Some z end.

(** A tag and the eight bytes of a number, filled in from the end. *)
Definition tagged (tag u : Z) : list Z :=
  let '(x, _) :=
    fold_left (fun '(x, u) j => (x.[j <- Z.land u 0xff], Z.shiftr u 8)) [8; 7; 6; 5; 4; 3; 2; 1]%nat (memset 0 9, u) in
  x.[0 <- tag].

(** The formats "S%d:", "T%d:" and "B%d:". *)
Definition vformat (c n : Z) : list Z := c :: print_int n ++ [58].

(** The calls of [SHA3Update] for a value. *)
Definition value_updates (v : sqlite3_value) : list (option (list Z)) :=
  match v with
  | SQL_NULL => [Some (str "N")]
  | SQL_INTEGER v => [Some (tagged 73 (u64 v))]
  | SQL_FLOAT u => [Some (tagged 70 u)]
  | SQL_TEXT z => [Some (vformat 84 (Z.of_nat (length z))); Some z]
  | SQL_BLOB z => [Some (vformat 66 (Z.of_nat (length z))); sqlite3_value_blob z]
  end.

(** The calls of [hash_step] for a value. *)
Definition value_steps (v : sqlite3_value) : list (list Z) :=
  match v with
  | SQL_NULL => [str "N"]
  | SQL_INTEGER v => [tagged 73 (u64 v)]
  | SQL_FLOAT u => [tagged 70 u]
  | SQL_TEXT z => [vformat 84 (Z.of_nat (length z)); z]
  | SQL_BLOB z => [vformat 66 (Z.of_nat (length z)); z]
  end.

(** ** Statements *)

Record statement := mkStatement { readonly : bool; sql : option (list Z); rows : list (list sqlite3_value) }.

Inductive prepared := Failed (errmsg : list Z) | Prepared (s : statement).

(** Preparation takes the first statement of a text and returns what is behind it. *)
Class Engine := { prepare : list Z -> prepared * list Z }.

Definition error_sql (zSql msg : list Z) : list Z := str "error SQL statement [" ++ zSql ++ str "]: " ++ msg.
Definition error_write (s : statement) : list Z :=
  str "non-query: [" ++ match sql s with Some z => z | None => [] end ++ str "]".

Definition bad_size : list Z := str "SHA3 size should be one of: 224 256 384 512".
Definition size_allowed (n : Z) : bool := (n =? 224) || (n =? 256) || (n =? 384) || (n =? 512).

Section Functions.
(** How the program is compiled, whether the data of a call is aligned, the conversion of numbers
    to text, and the database engine. *)
Context (t : target) (al : nat -> bool) (number_text : sqlite3_value -> list Z) {E : Engine}.

(** The bytes of a value that is hashed on its own: a blob as it is, anything else as text. *)
Definition value_text (v : sqlite3_value) : list Z :=
  match v with
  | SQL_NULL => []
  | SQL_TEXT z => z
  | SQL_BLOB z => z
  | _ => number_text v
  end.

Definition sha1Func (binary : bool) (stack : sha1_ctx) (v : sqlite3_value) : result :=
  let cx := hash_init stack in
  let pData :=
    match v with
    | SQL_NULL => None
    | SQL_BLOB z => sqlite3_value_blob z
    | _ => Some (value_text v)
    end in
  match pData with
  | None => Nothing
  | Some data =>
      let cx := hash_step (host_le t) cx data in
      if binary then ResultBlob (hash_finish (host_le t) cx true)
      else ResultText (firstn 40 (hash_finish (host_le t) cx false))
  end.

Fixpoint sha3_updates (n : nat) (us : list (option (list Z))) (p : SHA3Context) : SHA3Context :=
  match us with
  | [] => p
  | u :: us => sha3_updates (S n) us (SHA3Update t (al n) p u)
  end.

Definition sha3UpdateFromValue (n : nat) (p : SHA3Context) (v : sqlite3_value) : SHA3Context :=
  sha3_updates n (value_updates v) p.

Definition sha3_result (n : nat) (p : SHA3Context) : list Z :=
  firstn (Z.to_nat (iSize p / 8)) (SHA3Final t (al n) (al (S n)) p).

(** [size] is the second argument, if there is one. *)
Definition sha3Func (size : option Z) (v : sqlite3_value) : result :=
  let iSize := match size with None => 256 | Some n => n end in
  if negb (size_allowed iSize) then ResultError bad_size
  else
    match v with
    | SQL_NULL => Nothing
    | _ =>
        let data := match v with SQL_BLOB z => sqlite3_value_blob z | _ => Some (value_text v) end in
        ResultBlob (sha3_result 1 (SHA3Update t (al 0%nat) (SHA3Init t iSize) data))
    end.

(** The calls for the text of a statement and for its rows. *)
Definition row_updates (r : list sqlite3_value) : list (option (list Z)) := Some (str "R") :: flat_map value_updates r.
Definition statement_updates (s : statement) : list (option (list Z)) :=
  match sql s with
  | Some z => [Some (vformat 83 (Z.of_nat (length z))); Some z]
  | None => []
  end ++ flat_map row_updates (rows s).

Fixpoint sha3_query_loop (fuel n : nat) (p : SHA3Context) (zSql : list Z) : option (list Z + SHA3Context * nat) :=
  match fuel with
  | O => None
  | S fuel =>
      match zSql with
      | [] => Some (inr (p, n))
      | _ =>
          match prepare zSql with
          | (Failed msg, tail) => Some (inl (error_sql tail msg))
          | (Prepared s, tail) =>
              if negb (readonly s) then Some (inl (error_write s))
              else
                let us := statement_updates s in
                sha3_query_loop fuel (n + length us) (sha3_updates n us p) tail
          end
      end
  end.

Definition sha3QueryFunc (fuel : nat) (size : option Z) (zSql : option (list Z)) : option result :=
  let iSize := match size with None => 256 | Some n => n end in
  if negb (size_allowed iSize) then Some (ResultError bad_size)
  else
    match zSql with
    | None => Some Nothing
    | Some z =>
        match sha3_query_loop fuel 0 (SHA3Init t iSize) z with
        | None => None
        | Some (inl msg) => Some (ResultError msg)
        | Some (inr (p, n)) => Some (ResultBlob (sha3_result n p))
        end
    end.

Definition statement_steps (s : statement) : list (list Z) :=
  let z := match sql s with Some z => z | None => [] end in
  vformat 83 (Z.of_nat (length z)) :: z :: flat_map (fun r => str "R" :: flat_map value_steps r) (rows s).

Fixpoint sha1_query_loop (fuel : nat) (p : sha1_ctx) (zSql : list Z) : option (list Z + sha1_ctx) :=
  match fuel with
  | O => None
  | S fuel =>
      match zSql with
      | [] => Some (inr p)
      | _ =>
          match prepare zSql with
          | (Failed msg, tail) => Some (inl (error_sql tail msg))
          | (Prepared s, tail) =>
              if negb (readonly s) then Some (inl (error_write s))
              else sha1_query_loop fuel (fold_left (hash_step (host_le t)) (statement_steps s) p) tail
          end
      end
  end.

Definition sha1QueryFunc (fuel : nat) (stack : sha1_ctx) (zSql : option (list Z)) : option result :=
  match zSql with
  | None => Some Nothing
  | Some z =>
      match sha1_query_loop fuel (hash_init stack) z with
      | None => None
      | Some (inl msg) => Some (ResultError msg)
      | Some (inr p) => Some (ResultText (firstn 40 (hash_finish (host_le t) p false)))
      end
  end.

(** The aggregate: its context is zero before the first row. *)
Definition sha3AggStep (n : nat) (p : SHA3Context) (size : option Z) (v : sqlite3_value) : SHA3Context :=
  let p :=
    if nRate p =? 0 then
      let sz := match size with
                | Some n => if negb (n =? 224) && negb (n =? 384) && negb (n =? 512) then 256 else n
                | None => 256
                end in
      SHA3Init t sz
    else p in
  sha3UpdateFromValue n p v.

Definition sha3AggFinal (n : nat) (p : SHA3Context) : result :=
  if iSize p =? 0 then Nothing else ResultBlob (sha3_result n p).
End Functions.

(** ** Bytes that are hashed *)

Definition update_bytes (us : list (option (list Z))) : list Z :=
  concat (map (fun u => match u with Some z => z | None => [] end) us).

Definition value_bytes (v : sqlite3_value) : list Z := concat (value_steps v).
Definition row_bytes (r : list sqlite3_value) : list Z := str "R" ++ flat_map value_bytes r.

(** What goes into the hash of a statement that has a text. *)
Definition statement_bytes (s : statement) : list Z :=
  let z := match sql s with Some z => z | None => [] end in
  vformat 83 (Z.of_nat (length z)) ++ z ++ flat_map row_bytes (rows s).

Definition value_ok (v : sqlite3_value) : Prop :=
  match v with
  | SQL_NULL => True
  | SQL_INTEGER v => - 2 ^ 63 <= v < 2 ^ 63
  | SQL_FLOAT u => 0 <= u < 2 ^ 64
  | SQL_TEXT z | SQL_BLOB z => Z.of_nat (length z) < 2 ^ 29 /\ bytes z
  end.

Definition statement_ok (s : statement) : Prop :=
  match sql s with Some z => Z.of_nat (length z) < 2 ^ 29 /\ bytes z | None => False end
  /\ Forall (Forall value_ok) (rows s).

Lemma update_bytes_app a b : update_bytes (a ++ b) = update_bytes a ++ update_bytes b.
Proof. unfold update_bytes. now rewrite map_app, concat_app. Qed.

Lemma value_updates_bytes v : update_bytes (value_updates v) = value_bytes v.
Proof. destruct v as [| | |z|z]; try reflexivity. now destruct z. Qed.

Lemma values_updates_bytes r : update_bytes (flat_map value_updates r) = flat_map value_bytes r.
Proof.
  induction r as [|v r IH]; [reflexivity|]. cbn [flat_map]. now rewrite update_bytes_app, value_updates_bytes, IH.
Qed.

Lemma statement_updates_bytes s : sql s <> None -> update_bytes (statement_updates s) = statement_bytes s.
Proof.
  intros H. unfold statement_updates, statement_bytes. destruct (sql s) as [z|]; [|congruence].
  rewrite update_bytes_app. unfold update_bytes at 1. cbn [map concat]. rewrite app_nil_r, <- app_assoc. do 2 f_equal.
  induction (rows s) as [|r rs IH]; [reflexivity|]. cbn [flat_map]. rewrite update_bytes_app, IH. f_equal.
  exact (f_equal (app (str "R")) (values_updates_bytes r)).
Qed.

Lemma concat_flat_map {A B} (f : A -> list (list B)) l : concat (flat_map f l) = flat_map (fun x => concat (f x)) l.
Proof. induction l as [|x l IH]; [reflexivity|]. cbn [flat_map]. now rewrite concat_app, IH. Qed.

Lemma statement_steps_bytes s : concat (statement_steps s) = statement_bytes s.
Proof.
  unfold statement_steps, statement_bytes. cbn [concat]. do 2 f_equal. rewrite concat_flat_map. apply flat_map_ext.
  intros r. cbn [concat]. unfold row_bytes. f_equal. apply concat_flat_map.
Qed.

(** The tag is followed by the bytes of the number, the highest first. *)
Lemma tagged_be tag u : tagged tag u = tag :: be_bytes 8 u.
Proof. reflexivity. Qed.

(** ** The bytes determine what was hashed *)

Lemma be_bytes_inj n : forall u v, 0 <= u < 256 ^ Z.of_nat n -> 0 <= v < 256 ^ Z.of_nat n ->
  be_bytes n u = be_bytes n v -> u = v.
Proof.
  induction n as [|n IH]; intros u v Hu Hv E; [simpl in *; lia|].
  cbn [be_bytes] in E. apply app_inj_tail in E. destruct E as [E1 E2]. rewrite Nat2Z.inj_succ, Z.pow_succ_r in Hu, Hv by lia.
  unfold u8 in E2. change 0xFF with (Z.ones 8) in E2. rewrite !Z.land_ones in E2 by lia.
  rewrite !Z.shiftr_div_pow2 in E1 by lia. change (2 ^ 8) with 256 in *.
  apply IH in E1; [|split; [apply Z.div_pos; lia | apply Z.div_lt_upper_bound; lia]..].
  rewrite (Z.div_mod u 256), (Z.div_mod v 256) by lia. congruence.
Qed.

Lemma app_inj_length {A} (a b x y : list A) : length a = length b -> a ++ x = b ++ y -> a = b /\ x = y.
Proof.
  revert b. induction a as [|c a IH]; intros [|d b] L E; try discriminate; [auto|].
  cbn in L, E. inversion E; subst. destruct (IH b) as [-> ->]; auto.
Qed.

Lemma colon_ends a b x y : all_digits a -> all_digits b -> a ++ 58 :: x = b ++ 58 :: y -> a = b /\ x = y.
Proof.
  intros Ha. revert b. induction Ha as [|c a Hc Ha IH]; intros b Hb E; destruct Hb as [|d b Hd Hb]; cbn in E.
  - now inversion E.
  - inversion E. lia.
  - inversion E. lia.
  - inversion E; subst. destruct (IH b) as [-> ->]; auto.
Qed.

Lemma print_int_digits n : 0 <= n < 2 ^ 31 -> all_digits (print_int n) /\ value (print_int n) = n.
Proof.
  intros H. unfold print_int. destruct (Z.ltb_spec n 0); [lia|].
  destruct (digits_spec 20 n) as (D & V & _); [cbn; lia | lia | auto].
Qed.

(** A length in front makes the end of the data known. *)
Lemma sized_inj c z w x y : Z.of_nat (length z) < 2 ^ 29 -> Z.of_nat (length w) < 2 ^ 29 ->
  vformat c (Z.of_nat (length z)) ++ z ++ x = vformat c (Z.of_nat (length w)) ++ w ++ y -> z = w /\ x = y.
Proof.
  intros Hz Hw E. unfold vformat in E. cbn [app] in E. apply (f_equal (@tl Z)) in E. cbn [tl] in E.
  rewrite <- !app_assoc in E. cbn [app] in E.
  destruct (print_int_digits (Z.of_nat (length z)) ltac:(lia)) as [Dz Vz],
    (print_int_digits (Z.of_nat (length w)) ltac:(lia)) as [Dw Vw].
  apply colon_ends in E; auto. destruct E as [E1 E2]. apply app_inj_length; [|exact E2].
  apply Nat2Z.inj. rewrite <- Vz, <- Vw. now rewrite E1.
Qed.

(** The segments of the stream. *)
Inductive segment := SegText (z : list Z) | SegRow | SegValue (v : sqlite3_value).

Definition segment_bytes (g : segment) : list Z :=
  match g with
  | SegText z => vformat 83 (Z.of_nat (length z)) ++ z
  | SegRow => str "R"
  | SegValue v => value_bytes v
  end.

Definition segment_ok (g : segment) : Prop :=
  match g with
  | SegText z => Z.of_nat (length z) < 2 ^ 29
  | SegRow => True
  | SegValue v => value_ok v
  end.

Lemma value_bytes_tag v : value_bytes v =
  match v with
  | SQL_NULL => [78]
  | SQL_INTEGER v => 73 :: be_bytes 8 (u64 v)
  | SQL_FLOAT u => 70 :: be_bytes 8 u
  | SQL_TEXT z => vformat 84 (Z.of_nat (length z)) ++ z
  | SQL_BLOB z => vformat 66 (Z.of_nat (length z)) ++ z
  end.
Proof. destruct v; unfold value_bytes; cbn [value_steps concat]; rewrite ?app_nil_r; reflexivity. Qed.

Lemma u64_inj v w : - 2 ^ 63 <= v < 2 ^ 63 -> - 2 ^ 63 <= w < 2 ^ 63 -> u64 v = u64 w -> v = w.
Proof.
  intros Hv Hw E. rewrite !u64_mod in E. pose proof (Z.div_mod v (2 ^ 64)). pose proof (Z.div_mod w (2 ^ 64)). lia.
Qed.

Lemma tagged_inj c u v x y : 0 <= u < 2 ^ 64 -> 0 <= v < 2 ^ 64 ->
  (c :: be_bytes 8 u) ++ x = (c :: be_bytes 8 v) ++ y -> u = v /\ x = y.
Proof.
  intros Hu Hv E. apply app_inj_length in E; [|cbn [length]; now rewrite !length_be_bytes].
  destruct E as [E ->]. split; [|reflexivity]. apply (be_bytes_inj 8); try exact Hu; try exact Hv. exact (f_equal (@tl Z) E).
Qed.

(** No segment is the beginning of another one. *)
Lemma segment_inj g h x y : segment_ok g -> segment_ok h ->
  segment_bytes g ++ x = segment_bytes h ++ y -> g = h /\ x = y.
Proof.
  intros Hg Hh E. destruct g as [z| |v], h as [w| |v']; cbn [segment_bytes segment_ok] in *;
    try destruct v; try destruct v'; rewrite ?value_bytes_tag, <- ?app_assoc in E; cbn [value_ok] in *; try discriminate.
  - apply sized_inj in E; try lia. now destruct E as [-> ->].
  - now inversion E.
  - now inversion E.
  - apply tagged_inj in E; [|rewrite u64_mod; apply Z.mod_pos_bound; lia..]. destruct E as [E ->]. apply u64_inj in E; auto. now subst.
  - apply tagged_inj in E; try lia. now destruct E as [-> ->].
  - apply sized_inj in E; try lia. now destruct E as [-> ->].
  - apply sized_inj in E; try lia. now destruct E as [-> ->].
Qed.

Lemma segment_bytes_nonempty g : segment_bytes g <> [].
Proof. destruct g as [z| |[| | | |]]; discriminate. Qed.

Lemma segments_inj gs : forall hs, Forall segment_ok gs -> Forall segment_ok hs ->
  flat_map segment_bytes gs = flat_map segment_bytes hs -> gs = hs.
Proof.
  induction gs as [|g gs IH]; intros [|h hs] Hg Hh E; cbn [flat_map] in E; [reflexivity|..].
  - exfalso. symmetry in E. apply app_eq_nil in E. now apply (segment_bytes_nonempty h).
  - exfalso. apply app_eq_nil in E. now apply (segment_bytes_nonempty g).
  - apply Forall_cons_iff in Hg, Hh. apply segment_inj in E; try tauto. destruct E as [-> E]. f_equal. apply IH; tauto.
Qed.

(** The segments of a statement. *)
Definition row_segments (r : list sqlite3_value) : list segment := SegRow :: map SegValue r.
Definition statement_segments (s : statement) : list segment :=
  SegText (match sql s with Some z => z | None => [] end) :: flat_map row_segments (rows s).

Definition starts_value (gs : list segment) : bool := match gs with SegValue _ :: _ => true | _ => false end.
Definition starts_text (gs : list segment) : bool := match gs with [] | SegText _ :: _ => true | _ => false end.

Lemma statement_segments_bytes s : flat_map segment_bytes (statement_segments s) = statement_bytes s.
Proof.
  unfold statement_segments, statement_bytes. cbn [flat_map segment_bytes]. rewrite <- app_assoc. do 2 f_equal.
  induction (rows s) as [|r rs IH]; [reflexivity|]. cbn [flat_map]. rewrite flat_map_app, IH. f_equal.
  unfold row_segments, row_bytes. cbn [flat_map segment_bytes]. f_equal. induction r as [|v r IHr]; [reflexivity|].
  cbn [map flat_map segment_bytes]. now rewrite IHr.
Qed.

Lemma row_unique r r' x y : starts_value x = false -> starts_value y = false ->
  map SegValue r ++ x = map SegValue r' ++ y -> r = r' /\ x = y.
Proof.
  intros Hx Hy. revert r'. induction r as [|v r IH]; intros [|v' r'] E; cbn in E; [auto|..].
  - subst x. discriminate.
  - subst y. discriminate.
  - inversion E; subst. destruct (IH r') as [-> ->]; auto.
Qed.

Lemma rows_no_value rs x : starts_text x = true -> starts_value (flat_map row_segments rs ++ x) = false.
Proof. intros H. destruct rs; [|reflexivity]. cbn. now destruct x as [|[| |]]. Qed.

Lemma rows_unique rs rs' x y : starts_text x = true -> starts_text y = true ->
  flat_map row_segments rs ++ x = flat_map row_segments rs' ++ y -> rs = rs' /\ x = y.
Proof.
  intros Hx Hy. revert rs'. induction rs as [|r rs IH]; intros [|r' rs'] E; cbn [flat_map row_segments app] in E; [auto|..].
  - cbn in E. subst x. discriminate.
  - cbn in E. subst y. discriminate.
  - rewrite <- !app_assoc in E. unfold row_segments in E. cbn [app] in E. apply (f_equal (@tl segment)) in E. cbn [tl] in E.
    apply row_unique in E; [|now apply rows_no_value..]. destruct E as [-> E]. destruct (IH rs') as [-> ->]; auto.
Qed.

Lemma statements_no_row ss : starts_text (flat_map statement_segments ss) = true.
Proof. now destruct ss. Qed.

Lemma statements_unique ss : forall ss', Forall (fun s => sql s <> None) ss -> Forall (fun s => sql s <> None) ss' ->
  flat_map statement_segments ss = flat_map statement_segments ss' ->
  map (fun s => (sql s, rows s)) ss = map (fun s => (sql s, rows s)) ss'.
Proof.
  induction ss as [|s ss IH]; intros [|s' ss'] H H' E; cbn [flat_map statement_segments app] in E; try discriminate; [reflexivity|].
  apply Forall_cons_iff in H, H'. destruct H as [Hs H], H' as [Hs' H']. inversion E as [[Ez Er]].
  apply rows_unique in Er; [|apply statements_no_row..]. destruct Er as [Er E']. cbn [map].
  rewrite (IH ss' H H' E'), Er. do 2 f_equal. destruct (sql s), (sql s'); congruence.
Qed.

Lemma statement_segments_ok s : statement_ok s -> Forall segment_ok (statement_segments s).
Proof.
  intros [Hz Hr]. constructor; [cbn; now destruct (sql s)|]. apply Forall_flat_map. revert Hr. apply Forall_impl.
  intros r H. constructor; [exact I|]. now apply Forall_map.
Qed.

(** C16: The bytes that sha1_query() and sha3_query() hash determine what was hashed: two lists of
    statements, each with its text, give the same bytes only if they have the same texts, the same
    rows in the same order, and in each row the same values of the same types; equal digests of
    different results are therefore collisions of the hash function. *)
Theorem query_stream_unique ss ss' :
  Forall statement_ok ss -> Forall statement_ok ss' ->
  concat (flat_map statement_steps ss) = concat (flat_map statement_steps ss')
  \/ update_bytes (flat_map statement_updates ss) = update_bytes (flat_map statement_updates ss') ->
  map (fun s => (sql s, rows s)) ss = map (fun s => (sql s, rows s)) ss'.
Proof.
  intros H H' E. assert (N : forall l, Forall statement_ok l -> Forall (fun s => sql s <> None) l)
    by (intros l; apply Forall_impl; intros s [Hs _] Es; now rewrite Es in Hs).
  apply statements_unique; auto. apply segments_inj; [apply Forall_flat_map; revert H; apply Forall_impl, statement_segments_ok
    | apply Forall_flat_map; revert H'; apply Forall_impl, statement_segments_ok |].
  assert (B : forall l, flat_map segment_bytes (flat_map statement_segments l) = flat_map statement_bytes l).
  { induction l as [|s l IH]; [reflexivity|]. cbn [flat_map]. now rewrite flat_map_app, IH, statement_segments_bytes. }
  assert (U : forall l, Forall (fun s => sql s <> None) l -> update_bytes (flat_map statement_updates l) = flat_map statement_bytes l).
  { induction 1 as [|s l Hs _ IH]; [reflexivity|]. cbn [flat_map]. now rewrite update_bytes_app, IH, statement_updates_bytes. }
  rewrite !B. destruct E as [E | E]; [|now rewrite !U in E by auto].
  rewrite !concat_flat_map, !(flat_map_ext _ _ statement_steps_bytes) in E. exact E.
Qed.

(** One row of an integer and a text: the other stream is the same, so the other list is. *)
Lemma query_stream_unique_witness :
  let s b := mkStatement b (Some (str "select 1,'N'")) [[SQL_INTEGER 1; SQL_TEXT (str "N")]] in
  map (fun s => (sql s, rows s)) [s true] = map (fun s => (sql s, rows s)) [s false].
Proof.
  intros s. assert (K : forall b, Forall statement_ok [s b]).
  { intros b. apply Forall_cons; [|apply Forall_nil]. split; [split; [reflexivity | apply bytesb_bytes; reflexivity]|].
    apply Forall_cons; [|apply Forall_nil]. apply Forall_cons; [cbn; lia|]. apply Forall_cons; [|apply Forall_nil].
    split; [reflexivity | apply bytesb_bytes; reflexivity]. }
  exact (query_stream_unique [s true] [s false] (K true) (K false) (or_introl eq_refl)).
Defined.

(** ** Runs of the query functions *)

(** A statement without text, from a text that has only space or comments, returns no rows. *)
Definition statement_wf (s : statement) : Prop :=
  match sql s with Some _ => statement_ok s | None => rows s = [] end.

Definition sha3_stream (s : statement) : list Z := match sql s with Some _ => statement_bytes s | None => [] end.

Section Runs.
Context {E : Engine}.

(** The statements of a text that are run, one after another, and the message if the last one
    that was looked at is in error or would write. *)
Inductive runs : list Z -> list statement -> option (list Z) -> Prop :=
  | runs_end : runs [] [] None
  | runs_failed z msg tail : z <> [] -> prepare z = (Failed msg, tail) -> runs z [] (Some (error_sql tail msg))
  | runs_write z s tail : z <> [] -> prepare z = (Prepared s, tail) -> readonly s = false ->
      runs z [] (Some (error_write s))
  | runs_next z s tail ss e : z <> [] -> prepare z = (Prepared s, tail) -> readonly s = true ->
      runs tail ss e -> runs z (s :: ss) e.

Lemma sha3_updates_app t al n us us' p :
  sha3_updates t al n (us ++ us') p = sha3_updates t al (n + length us) us' (sha3_updates t al n us p).
Proof.
  revert n p. induction us as [|u us IH]; intros n p; cbn [app sha3_updates length]; [now rewrite Nat.add_0_r|].
  rewrite IH. f_equal. lia.
Qed.

(** The loop over the text gives the context after all calls of all statements. *)
Lemma sha3_loop_runs t al z ss e : runs z ss e -> forall fuel n p, (length ss < fuel)%nat ->
  sha3_query_loop t al fuel n p z
  = Some (match e with
          | Some msg => inl msg
          | None => let us := flat_map statement_updates ss in inr (sha3_updates t al n us p, (n + length us)%nat)
          end).
Proof.
  induction 1 as [|z msg tail Hz P|z s tail Hz P R|z s tail ss e Hz P R _ IH]; intros fuel n p Hf;
    (destruct fuel as [|fuel]; [lia|]); cbn [sha3_query_loop].
  - cbn. now rewrite Nat.add_0_r.
  - destruct z; [congruence|]. now rewrite P.
  - destruct z; [congruence|]. now rewrite P, R.
  - cbn [length] in Hf. destruct z; [congruence|]. rewrite P, R. cbn [negb]. rewrite IH by lia. destruct e; [reflexivity|]. cbv zeta. cbn [flat_map].
    rewrite sha3_updates_app, length_app, Nat.add_assoc. reflexivity.
Qed.

Lemma sha1_loop_runs t z ss e : runs z ss e -> forall fuel p, (length ss < fuel)%nat ->
  sha1_query_loop t fuel p z
  = Some (match e with
          | Some msg => inl msg
          | None => inr (fold_left (hash_step (host_le t)) (flat_map statement_steps ss) p)
          end).
Proof.
  induction 1 as [|z msg tail Hz P|z s tail Hz P R|z s tail ss e Hz P R _ IH]; intros fuel p Hf;
    (destruct fuel as [|fuel]; [lia|]); cbn [sha1_query_loop].
  - reflexivity.
  - destruct z; [congruence|]. now rewrite P.
  - destruct z; [congruence|]. now rewrite P, R.
  - cbn [length] in Hf. destruct z; [congruence|]. rewrite P, R. cbn [negb]. rewrite IH by lia. destruct e; [reflexivity|]. cbn [flat_map]. now rewrite fold_left_app.
Qed.
End Runs.

(** ** Digests *)

(** What a call of the hash functions is given. *)
Definition step_ok (d : list Z) : Prop := bytes d /\ Z.of_nat (length d) < 2 ^ 29.
Definition update_ok (u : option (list Z)) : Prop := match u with Some d => step_ok d | None => True end.

Lemma length_digits fuel n : (length (digits fuel n) <= fuel)%nat.
Proof.
  revert n. induction fuel as [|fuel IH]; intros n; cbn [digits]; [auto|]. destruct (n <? 10); [cbn; lia|].
  rewrite length_app. specialize (IH (n / 10)). cbn [length]. lia.
Qed.

Lemma vformat_ok c n : is_byte c -> 0 <= n < 2 ^ 29 -> step_ok (vformat c n).
Proof.
  intros Hc Hn. destruct (print_int_digits n ltac:(lia)) as [D _]. unfold vformat. split.
  - constructor; [exact Hc|]. apply bytes_app. split; [|repeat constructor; unfold is_byte; lia].
    revert D. apply Forall_impl. intros x Hx. unfold is_byte. lia.
  - cbn [length]. rewrite length_app. unfold print_int. destruct (Z.ltb_spec n 0); [lia|].
    pose proof (length_digits 20 n). cbn [length]. lia.
Qed.

Lemma tagged_ok c u : is_byte c -> step_ok (tagged c u).
Proof.
  intros Hc. rewrite tagged_be. split; [constructor; [exact Hc | apply bytes_be_bytes]|].
  cbn [length]. rewrite length_be_bytes. lia.
Qed.

Lemma value_steps_ok v : value_ok v -> Forall step_ok (value_steps v).
Proof.
  destruct v as [|v|u|z|z]; cbn [value_ok value_steps]; intros H.
  - repeat constructor; unfold is_byte; cbn; lia.
  - constructor; [|constructor]. apply tagged_ok. unfold is_byte. lia.
  - constructor; [|constructor]. apply tagged_ok. unfold is_byte. lia.
  - constructor; [apply vformat_ok; unfold is_byte; lia|]. constructor; [split; tauto | constructor].
  - constructor; [apply vformat_ok; unfold is_byte; lia|]. constructor; [split; tauto | constructor].
Qed.

Lemma value_updates_ok v : value_ok v -> Forall update_ok (value_updates v).
Proof.
  intros H. apply value_steps_ok in H. destruct v as [| | |z|[|c z]]; cbn [value_steps value_updates sqlite3_value_blob] in *;
    repeat (apply Forall_cons_iff in H; destruct H as [? H]; apply Forall_cons; [assumption || exact I|]); apply Forall_nil.
Qed.

Lemma R_ok : step_ok (str "R").
Proof. split; [apply bytesb_bytes|]; reflexivity. Qed.

Lemma statement_steps_ok s : statement_wf s -> Forall step_ok (statement_steps s).
Proof.
  unfold statement_wf, statement_ok, statement_steps. destruct (sql s) as [z|].
  - intros [Hz Hr]. constructor; [apply vformat_ok; unfold is_byte; lia|]. constructor; [split; tauto|].
    apply Forall_flat_map. revert Hr. apply Forall_impl. intros r Hr. constructor; [exact R_ok|].
    apply Forall_flat_map. revert Hr. apply Forall_impl. exact value_steps_ok.
  - intros ->. constructor; [apply vformat_ok; unfold is_byte; cbn; lia|]. constructor; [|constructor].
    split; [constructor | cbn; lia].
Qed.

Lemma statement_updates_ok s : statement_wf s -> Forall update_ok (statement_updates s).
Proof.
  unfold statement_wf, statement_ok, statement_updates. destruct (sql s) as [z|]; [|intros ->; constructor].
  intros [Hz Hr]. constructor; [apply vformat_ok; unfold is_byte; lia|]. constructor; [split; tauto|].
  apply Forall_flat_map. revert Hr. apply Forall_impl. intros r Hr. constructor; [exact R_ok|].
  apply Forall_flat_map. revert Hr. apply Forall_impl. exact value_updates_ok.
Qed.

Lemma statement_updates_stream s : statement_wf s -> update_bytes (statement_updates s) = sha3_stream s.
Proof.
  unfold statement_wf, sha3_stream. destruct (sql s) as [z|] eqn:Es.
  - intros _. apply statement_updates_bytes. congruence.
  - intros H. unfold statement_updates. now rewrite Es, H.
Qed.

Lemma updates_stream ss : Forall statement_wf ss ->
  update_bytes (flat_map statement_updates ss) = flat_map sha3_stream ss.
Proof.
  induction 1 as [|s ss Hs _ IH]; [reflexivity|]. cbn [flat_map]. now rewrite update_bytes_app, IH, statement_updates_stream.
Qed.

Section Digests.
Context (t : target) (al : nat -> bool) (Ht : target_ok t).

Lemma sha3_updates_took r us : (0 < r <= 200)%nat -> (r mod 8 = 0)%nat -> Forall update_ok us ->
  forall n p m, took t r p m -> took t r (sha3_updates t al n us p) (m ++ update_bytes us).
Proof.
  intros Hr H8. induction 1 as [|u us Hu _ IH]; intros n p m T; cbn [sha3_updates]; [now rewrite app_nil_r|].
  unfold update_bytes. cbn [map concat]. rewrite app_assoc. apply IH. destruct u as [d|]; [|now rewrite app_nil_r].
  apply SHA3Update_took; auto. now destruct Hu.
Qed.

Lemma sha3_updates_kind us : forall n p, same_kind (sha3_updates t al n us p) p.
Proof.
  induction us as [|u us IH]; intros n p; [now split|]. cbn [sha3_updates].
  destruct (IH (S n) (SHA3Update t (al n) p u)) as [E1 E2], (SHA3Update_kind t (al n) p u). split; congruence.
Qed.

(** The digest after calls from the start. *)
Lemma sha3_digest d us n k : sha3_size d -> Forall update_ok us ->
  sha3_result t al k (sha3_updates t al n us (SHA3Init t d)) = fips_sha3 d (update_bytes us).
Proof.
  intros Hd Hu. unfold sha3_result. rewrite (proj2 (sha3_updates_kind us n _)). cbn [SHA3Init iSize].
  destruct (init_took t d Hd) as (T0 & Hr & H8 & _). apply final_took; auto.
  set (r := Z.to_nat _) in *. exact (sha3_updates_took r us ltac:(lia) H8 Hu n _ [] T0).
Qed.

Lemma size_allowed_sha3 d : size_allowed d = true <-> sha3_size d.
Proof.
  unfold size_allowed, sha3_size. rewrite !orb_true_iff, !Z.eqb_eq. tauto.
Qed.
End Digests.

Lemma length_fips_sha1 m : length (fips_sha1 m) = 20%nat.
Proof.
  unfold fips_sha1. pose proof (length_md_sha1 m) as L. revert L. generalize (md_state fips_sha1_compress sha1_iv 64 8 m).
  intros h L. do 5 (destruct h as [|? h]; [discriminate|]). destruct h; [reflexivity | discriminate].
Qed.

Lemma hex_result m : firstn 40 (hex_digits (fips_sha1 m) ++ [0]) = hex_digits (fips_sha1 m).
Proof.
  assert (L : forall l, length (hex_digits l) = (2 * length l)%nat).
  { induction l as [|b l IH]; [reflexivity|]. unfold hex_digits in *. cbn [flat_map app length]. rewrite IH. lia. }
  rewrite firstn_app, firstn_all2, L, length_fips_sha1 by (rewrite L, length_fips_sha1; lia). apply app_nil_r.
Qed.

(** C19: What the functions over queries return, for texts that are run to their end and when every
    text of a statement and every text or blob in a row has less than 2^29 bytes: if the text is
    cut into read-only statements up to its end, sha3_query() and sha1_query() return the hash, by
    FIPS 202 and FIPS 180, of the texts and of the rows and values that stepping returns, in the
    order in which they come; if a statement cannot be prepared or would write, the message for it
    is the result, and nothing of the statements before it.  An error while a statement runs ends
    its rows and is not reported. *)
Theorem query_digest `{E : Engine} t al stack z ss e fuel d :
  target_ok t -> length (sha1_buffer stack) = 64%nat -> bytes (sha1_buffer stack) ->
  runs z ss e -> Forall statement_wf ss -> sha3_size d -> (length ss < fuel)%nat ->
  sha3QueryFunc t al fuel (Some d) (Some z)
  = Some (match e with
          | Some msg => ResultError msg
          | None => ResultBlob (fips_sha3 d (flat_map sha3_stream ss))
          end)
  /\ sha1QueryFunc t fuel stack (Some z)
     = Some (match e with
             | Some msg => ResultError msg
             | None => ResultText (hex_digits (fips_sha1 (flat_map statement_bytes ss)))
             end).
Proof.
  intros Ht Lb Bb Hr Hw Hd Hf. unfold sha3QueryFunc, sha1QueryFunc.
  rewrite (proj2 (size_allowed_sha3 d) Hd), (sha3_loop_runs t al z ss e Hr fuel 0 _ Hf), (sha1_loop_runs t z ss e Hr fuel _ Hf).
  cbn [negb]. destruct e as [msg|]; [auto|]. cbv zeta. split; do 2 f_equal.
  - rewrite sha3_digest, updates_stream; auto. apply Forall_flat_map. revert Hw. apply Forall_impl. exact statement_updates_ok.
  - assert (Ok : Forall step_ok (flat_map statement_steps ss))
      by (apply Forall_flat_map; revert Hw; apply Forall_impl; exact statement_steps_ok).
    rewrite (hash_finish_repr _ _ (concat (flat_map statement_steps ss)) false).
    + now rewrite hex_result, concat_flat_map, (flat_map_ext _ _ statement_steps_bytes).
    + apply (hash_steps_repr _ _ (hash_init stack) []); [exact (sha1_init_repr stack Lb Bb)|..];
        revert Ok; apply Forall_impl; intros x Hx; apply Hx.
Qed.

(** An engine for examples: statements end at a semicolon, one that starts with the letter X
    writes, one that starts with a question mark is in error, and the others return their
    own text. *)
Fixpoint cut (z : list Z) : list Z * list Z :=
  match z with
  | [] => ([], [])
  | c :: z => if c =? 59 then ([c], z) else let '(a, b) := cut z in (c :: a, b)
  end.

Definition echo (z : list Z) : prepared * list Z :=
  let '(a, b) := cut z in
  (if a.[0] =? 63 then Failed (str "near ?: syntax error")
   else Prepared (mkStatement (negb (a.[0] =? 88)) (Some a) [[SQL_NULL; SQL_TEXT a]]), b).

Definition echo_engine : Engine := {| prepare := echo |}.

(** Two statements are hashed; a third one that writes makes an error of the whole. *)
Lemma query_digest_witness :
  let st z := mkStatement true (Some z) [[SQL_NULL; SQL_TEXT z]] in
  let tgt := mkTarget 1234 true in
  let stack := mk_sha1 [] 0 0 (memset 0 64) in
  sha3QueryFunc (E := echo_engine) tgt (fun _ => true) 9 (Some 512) (Some (str "a;bc;"))
  = Some (ResultBlob (fips_sha3 512 (flat_map sha3_stream [st (str "a;"); st (str "bc;")])))
  /\ sha1QueryFunc (E := echo_engine) tgt 9 stack (Some (str "a;X;")) = Some (ResultError (str "non-query: [X;]")).
Proof.
  intros st tgt stack.
  assert (W : forall z, Z.of_nat (length z) < 2 ^ 29 -> bytes z -> statement_wf (st z)).
  { intros z Lz Bz. split; [split; assumption|]. apply Forall_cons; [|apply Forall_nil].
    apply Forall_cons; [exact I|]. apply Forall_cons; [split; assumption | apply Forall_nil]. }
  assert (T : target_ok tgt) by (split; [reflexivity | discriminate]).
  assert (B : bytes (sha1_buffer stack)) by (apply bytesb_bytes; reflexivity).
  split.
  - apply (query_digest (E := echo_engine) tgt (fun _ => true) stack (str "a;bc;") [st (str "a;"); st (str "bc;")] None 9 512);
      auto; [| | right; right; right; reflexivity | cbn; lia].
    + apply (runs_next (E := echo_engine) _ _ (str "bc;")); [discriminate | reflexivity..|].
      apply (runs_next (E := echo_engine) _ _ []); [discriminate | reflexivity..|]. apply runs_end.
    + apply Forall_cons; [|apply Forall_cons; [|apply Forall_nil]]; apply W; [reflexivity | | reflexivity |];
        apply bytesb_bytes; reflexivity.
  - apply (query_digest (E := echo_engine) tgt (fun _ => true) stack (str "a;X;") [st (str "a;")] (Some (str "non-query: [X;]")) 9 512);
      auto; [| | right; right; right; reflexivity | cbn; lia].
    + apply (runs_next (E := echo_engine) _ _ (str "X;")); [discriminate | reflexivity..|].
      apply (runs_write (E := echo_engine) _ (mkStatement false (Some (str "X;")) [[SQL_NULL; SQL_TEXT (str "X;")]]) []);
        [discriminate | reflexivity..].
    + apply Forall_cons; [|apply Forall_nil]. apply W; [reflexivity | apply bytesb_bytes; reflexivity].
Defined.

(** ** Single values and the aggregate *)

(** C24: What the functions of one value return, for data of less than 2^29 bytes: sha3() gives the digest of FIPS 202 of the bytes of
    a blob or of the text of anything else, NULL for NULL, and an error for a size that is not of
    the standard; sha1() and sha1b() give the digest of FIPS 180 as digits or as bytes, with
    NULL for NULL, and NULL also for the blob of length zero, which sha3() hashes. *)
Theorem value_digest t al number_text stack size v :
  target_ok t -> length (sha1_buffer stack) = 64%nat -> bytes (sha1_buffer stack) -> step_ok (value_text number_text v) ->
  let d := match size with None => 256 | Some n => n end in
  let data := value_text number_text v in
  sha3Func t al number_text size v
  = (if size_allowed d then match v with SQL_NULL => Nothing | _ => ResultBlob (fips_sha3 d data) end
     else ResultError bad_size)
  /\ sha1Func t number_text true stack v
     = match v with SQL_NULL | SQL_BLOB [] => Nothing | _ => ResultBlob (fips_sha1 data) end
  /\ sha1Func t number_text false stack v
     = match v with SQL_NULL | SQL_BLOB [] => Nothing | _ => ResultText (hex_digits (fips_sha1 data)) end.
Proof.
  intros Ht Lb Bb Hv d data. split; [|split].
  - unfold sha3Func. fold d. destruct (size_allowed d) eqn:Hd; cbn [negb]; [|reflexivity]. apply size_allowed_sha3 in Hd.
    assert (G : forall u, update_ok u -> update_bytes [u] = data ->
      sha3_result t al 1 (SHA3Update t (al 0%nat) (SHA3Init t d) u) = fips_sha3 d data).
    { intros u Hu <-. apply (sha3_digest t al Ht d [u] 0 1 Hd). now apply Forall_cons. }
    unfold data in *. destruct v as [| | | |[|c z]]; cbn [value_text sqlite3_value_blob] in *; try reflexivity;
      f_equal; apply G; auto; try exact I; unfold update_bytes; cbn [map concat]; now rewrite ?app_nil_r.
  - assert (G := hash_finish_repr (host_le t) _ _ true (hash_step_repr (host_le t) _ [] data (sha1_init_repr stack Lb Bb) (proj1 Hv) (proj2 Hv))).
    unfold sha1Func. destruct v as [| | | |[|c z]]; cbn [sqlite3_value_blob]; try reflexivity; f_equal; exact G.
  - assert (G := hash_finish_repr (host_le t) _ _ false (hash_step_repr (host_le t) _ [] data (sha1_init_repr stack Lb Bb) (proj1 Hv) (proj2 Hv))).
    assert (G' := eq_trans (f_equal (firstn 40) G) (hex_result data)).
    unfold sha1Func. destruct v as [| | | |[|c z]]; cbn [sqlite3_value_blob]; try reflexivity; f_equal; exact G'.
Qed.

(** The blob of length zero. *)
Lemma value_digest_witness :
  let tgt := mkTarget 1234 true in
  let stack := mk_sha1 [] 0 0 (memset 0 64) in
  sha3Func tgt (fun _ => true) (fun _ => []) None (SQL_BLOB []) = ResultBlob (fips_sha3 256 [])
  /\ sha1Func tgt (fun _ => []) false stack (SQL_BLOB []) = Nothing.
Proof.
  intros tgt stack.
  assert (H : step_ok []) by (split; [apply Forall_nil | reflexivity]).
  assert (T : target_ok tgt) by (split; [reflexivity | discriminate]).
  assert (B : bytes (sha1_buffer stack)) by (apply bytesb_bytes; reflexivity).
  pose proof (value_digest tgt (fun _ => true) (fun _ => []) stack None (SQL_BLOB []) T eq_refl B H) as (A & _ & C).
  exact (conj A C).
Defined.

(** The steps of the aggregate over rows of an optional size and a value. *)
Fixpoint agg_steps (t : target) (al : nat -> bool) (n : nat) (l : list (option Z * sqlite3_value)) (p : SHA3Context) : SHA3Context :=
  match l with
  | [] => p
  | (size, v) :: l => agg_steps t al (n + length (value_updates v)) l (sha3AggStep t al n p size v)
  end.

Definition no_context : SHA3Context := mkSHA3 (memset 0 25) 0 0 0 0.

(** The size is that of the first row; one that is not of the standard counts as 256. *)
Definition agg_size (size : option Z) : Z :=
  match size with Some n => if size_allowed n then n else 256 | None => 256 end.

Lemma agg_size_sha3 size : sha3_size (agg_size size).
Proof.
  unfold agg_size. destruct size as [n|]; [|right; left; reflexivity].
  destruct (size_allowed n) eqn:A; [now apply size_allowed_sha3 | right; left; reflexivity].
Qed.

Lemma init_rate t d : sha3_size d -> nRate (SHA3Init t d) <> 0.
Proof. intros [-> | [-> | [-> | ->]]]; discriminate. Qed.

Lemma agg_steps_updates t al l : forall n p, nRate p <> 0 ->
  agg_steps t al n l p = sha3_updates t al n (flat_map value_updates (map snd l)) p.
Proof.
  induction l as [|[size v] l IH]; intros n p Hp; [reflexivity|]. cbn [agg_steps flat_map map snd].
  unfold sha3AggStep, sha3UpdateFromValue. destruct (Z.eqb_spec (nRate p) 0); [contradiction|].
  rewrite IH by (now rewrite (proj1 (sha3_updates_kind t al _ _ _))). now rewrite sha3_updates_app.
Qed.

(** The first row starts the hash. *)
Lemma agg_first t al n size v :
  sha3AggStep t al n no_context size v = sha3AggStep t al n (SHA3Init t (agg_size size)) size v.
Proof.
  unfold sha3AggStep. f_equal. pose proof (init_rate t _ (agg_size_sha3 size)) as R. cbn [no_context nRate].
  destruct (Z.eqb_spec (nRate (SHA3Init t (agg_size size))) 0); [contradiction|]. cbn [Z.eqb]. f_equal.
  destruct size as [m|]; [|reflexivity]. unfold agg_size, size_allowed.
  destruct (Z.eqb_spec m 224), (Z.eqb_spec m 256), (Z.eqb_spec m 384), (Z.eqb_spec m 512); subst; auto; lia.
Qed.

Lemma values_unique vs ws : Forall value_ok vs -> Forall value_ok ws ->
  flat_map value_bytes vs = flat_map value_bytes ws -> vs = ws.
Proof.
  intros Hv Hw E. assert (M : forall l, flat_map segment_bytes (map SegValue l) = flat_map value_bytes l).
  { induction l as [|x l IH]; [reflexivity|]. cbn [map flat_map segment_bytes]. now rewrite IH. }
  apply (row_unique vs ws [] []); auto. f_equal. rewrite <- !M in E.
  apply segments_inj in E; [exact E | now apply Forall_map..].
Qed.

(** C23: The aggregate sha3_agg(): over no rows it is NULL; over rows it is the digest, of the size
    that the first row asks for, of the encoded values in the order of the rows, so that NULL
    values count; and two groups have the same bytes only if they have the same values in the
    same order. *)
Theorem agg_digest t al l size v :
  target_ok t -> Forall (fun r => value_ok (snd r)) ((size, v) :: l) ->
  sha3AggFinal t al 0 no_context = Nothing
  /\ (forall k, sha3AggFinal t al k (agg_steps t al 0 ((size, v) :: l) no_context)
      = ResultBlob (fips_sha3 (agg_size size) (flat_map value_bytes (v :: map snd l))))
  /\ (forall vs, Forall value_ok vs -> flat_map value_bytes vs = flat_map value_bytes (v :: map snd l) -> vs = v :: map snd l).
Proof.
  intros Ht Hok. apply (Forall_map snd value_ok) in Hok. split; [reflexivity|].
  split; [|intros vs Hvs; apply values_unique; assumption]. intros k.
  pose proof (agg_size_sha3 size) as Sz. cbn [agg_steps]. rewrite agg_first.
  change (agg_steps t al _ l _) with (agg_steps t al 0 ((size, v) :: l) (SHA3Init t (agg_size size))).
  rewrite agg_steps_updates by (now apply init_rate). unfold sha3AggFinal.
  rewrite (proj2 (sha3_updates_kind t al _ 0 _)). cbn [SHA3Init iSize].
  destruct (Z.eqb_spec (agg_size size) 0) as [Z0|]; [destruct Sz as [A | [A | [A | A]]]; congruence|]. f_equal.
  rewrite sha3_digest, values_updates_bytes; auto. apply Forall_flat_map. revert Hok. apply Forall_impl. exact value_updates_ok.
Qed.

(** The second row cannot change the size. *)
Lemma agg_digest_witness :
  let tgt := mkTarget 1234 true in
  sha3AggFinal tgt (fun _ => true) 9
    (agg_steps tgt (fun _ => true) 0 [(Some 384, SQL_INTEGER (-1)); (Some 224, SQL_NULL)] no_context)
  = ResultBlob (fips_sha3 384 (flat_map value_bytes [SQL_INTEGER (-1); SQL_NULL])).
Proof.
  intros tgt. apply (agg_digest tgt (fun _ => true) [(Some 224, SQL_NULL)] (Some 384) (SQL_INTEGER (-1))).
  - split; [reflexivity | discriminate].
  - apply Forall_cons; [cbn; lia|]. apply Forall_cons; [exact I | apply Forall_nil].
Defined.
