(* ===== verification/ShBase64.v ===== *)
(** * Base64 of the shell

    Model of ext/misc/base64.c in the shell: the encoder with its line feeds, the decoder that
    skips what is not base64, and the SQL function.  Text is what stands in memory from a pointer
    on; the decoder also has the number of characters that are left, which need not be the number
    that are there.  The results are that encoded blobs can be concatenated and decoded, and that
    the sizes of the buffers fit. *)

From Stdlib Require Import String ZArith Lia List Bool.
From S2P Require Import Prelude ChaCha20 Streaming ScText ShSha3 ShSha1 ShQuery.
Import ListNotations.
Local Open Scope Z_scope.

Definition PC : Z := 0x80.
Definition WS : Z := 0x81.
Definition ND : Z := 0x82.
Definition PAD_CHAR : Z := 61.
Definition B64_DARK_MAX : Z := 72.

Definition b64DigitValues : list Z :=
  [ND;ND;ND;ND; ND;ND;ND;ND; ND;WS;WS;WS; WS;WS;ND;ND;
   ND;ND;ND;ND; ND;ND;ND;ND; ND;ND;ND;ND; ND;ND;ND;ND;
   WS;ND;ND;ND; ND;ND;ND;ND; ND;ND;ND;62; ND;ND;ND;63;
   52;53;54;55; 56;57;58;59; 60;61;ND;ND; ND;PC;ND;ND;
   ND; 0; 1; 2;  3; 4; 5; 6;  7; 8; 9;10; 11;12;13;14;
   15;16;17;18; 19;20;21;22; 23;24;25;ND; ND;ND;ND;ND;
   ND;26;27;28; 29;30;31;32; 33;34;35;36; 37;38;39;40;
   41;42;43;44; 45;46;47;48; 49;50;51;ND; ND;ND;ND;ND].

Definition b64Numerals : list Z := str "ABCDEFGHIJKLMNOPQRSTUVWXYZabcdefghijklmnopqrstuvwxyz0123456789+/".

Definition BX_DV_PROTO (c : Z) : Z := if u8 c <? 0x80 then b64DigitValues.[Z.to_nat (u8 c)] else 0x80.
Definition IS_BX_DIGIT (bdp : Z) : bool := bdp <? 0x80.
Definition BX_NUMERAL (dv : Z) : Z := b64Numerals.[Z.to_nat (u8 dv)].

(** ** Encoding *)

(** The four characters of three bytes. *)
Definition quad (p0 p1 p2 : Z) : list Z :=
  [BX_NUMERAL (Z.shiftr p0 2);
   BX_NUMERAL (Z.land (Z.lor (Z.shiftl p0 4) (Z.shiftr p1 4)) 0x3f);
   BX_NUMERAL (Z.lor (Z.shiftl (Z.land p1 0xf) 2) (Z.shiftr p2 6));
   BX_NUMERAL (Z.land p2 0x3f)].

(** The loop over whole groups: the text and the bytes that are left. *)
Fixpoint toBase64_loop (nCol : Z) (pIn : list Z) : list Z * list Z :=
  match pIn with
  | p0 :: p1 :: p2 :: pIn' =>
      let '(lf, nCol) :=
        if (B64_DARK_MAX <=? nCol + 4) || (Z.of_nat (length pIn') <=? 0) then ([10], 0) else ([], nCol + 4) in
      let '(text, rest) := toBase64_loop nCol pIn' in
      (quad p0 p1 p2 ++ lf ++ text, rest)
  | _ => ([], pIn)
  end.

(** One or two bytes at the end. *)
Definition toBase64_tail (pIn : list Z) : list Z :=
  let nbIn := length pIn in
  if (0 <? nbIn)%nat then
    let nco := (nbIn + 1)%nat in
    let qv := fold_left (fun qv nbe =>
                let qv := Z.shiftl qv 8 in if (nbe <? nbIn)%nat then Z.lor qv pIn.[nbe] else qv) [1; 2]%nat pIn.[0] in
    let '(out, _) := fold_left (fun '(out, qv) nbe =>
                let ce := if (nbe <? nco)%nat then BX_NUMERAL (Z.land qv 0x3f) else PAD_CHAR in
                (out.[nbe <- ce], Z.shiftr qv 6)) [3; 2; 1; 0]%nat (memset 0 4, qv) in
    out ++ [10]
  else [].

(** What is written before the final zero. *)
Definition toBase64 (pIn : list Z) : list Z :=
  let '(text, rest) := toBase64_loop 0 pIn in text ++ toBase64_tail rest.

(** ** Decoding *)

Fixpoint skipNonB64 (s : list Z) (nc : nat) : list Z :=
  match nc, s with
  | S nc, c :: s' => if negb (c =? 0) && negb (IS_BX_DIGIT (BX_DV_PROTO c)) then skipNonB64 s' nc else s
  | _, _ => s
  end.

Definition nboi : list Z := [0; 0; 1; 2; 3].

Record group := mkGroup { g_pIn : list Z; g_ncIn : nat; g_nti : nat; g_nbo : Z; g_qv : Z }.

(** One turn of the loop over the four characters of a group. *)
Definition group_step (g : group) (nac : nat) : group :=
  let '(c, pIn) := if (nac <? g_nti g)%nat then ((g_pIn g).[0], tl (g_pIn g)) else (b64Numerals.[0], g_pIn g) in
  let bdp := BX_DV_PROTO c in
  if bdp =? ND then mkGroup pIn 0 nac (g_nbo g - 1) (Z.lor (Z.shiftl (g_qv g) 6) 0)
  else if bdp =? WS then mkGroup pIn (g_ncIn g) nac (g_nbo g - 1) (Z.lor (Z.shiftl (g_qv g) 6) 0)
  else if bdp =? PC then mkGroup pIn (g_ncIn g) (g_nti g) (g_nbo g - 1) (Z.lor (Z.shiftl (g_qv g) 6) 0)
  else mkGroup pIn (g_ncIn g) (g_nti g) (g_nbo g) (Z.lor (Z.shiftl (g_qv g) 6) bdp).

Definition group_bytes (nbo qv : Z) : list Z :=
  let b2 := Z.land qv 0xff in
  let b1 := Z.land (Z.shiftr qv 8) 0xff in
  let b0 := Z.land (Z.shiftr qv 16) 0xff in
  if nbo =? 3 then [b0; b1; b2] else if nbo =? 2 then [b0; b1] else if nbo =? 1 then [b0] else [].

(** The bytes before [pOut]; no result if it would be moved in front of the buffer. *)
Fixpoint fromBase64_loop (fuel : nat) (pIn : list Z) (ncIn : nat) (out : list Z) : option (list Z) :=
  match fuel with
  | O => None
  | S fuel =>
      if (0 <? ncIn)%nat && negb (pIn.[0] =? PAD_CHAR) then
        let pUse := skipNonB64 pIn ncIn in
        let ncIn := (ncIn - (length pIn - length pUse))%nat in
        let nti := if (4 <? ncIn)%nat then 4%nat else ncIn in
        let nbo := nboi.[nti] in
        if nbo =? 0 then Some out
        else
          let g := fold_left group_step [0; 1; 2; 3]%nat (mkGroup pUse (ncIn - nti) nti nbo 0) in
          if Z.of_nat (length out) + g_nbo g <? 0 then None
          else
            fromBase64_loop fuel (g_pIn g) (g_ncIn g)
              (firstn (length out - Z.to_nat (- g_nbo g)) out ++ group_bytes (g_nbo g) (g_qv g))
      else Some out
  end.

Definition fromBase64 (pIn : list Z) (ncIn : nat) : option (list Z) :=
  let ncIn := if (0 <? ncIn)%nat && (pIn.[ncIn - 1] =? 10) then (ncIn - 1)%nat else ncIn in
  fromBase64_loop (S ncIn) pIn ncIn [].

(** ** The SQL function *)

(** [nvMax] is the limit of lengths, [mem] says whether the buffer can be allocated. *)
Definition base64 (nvMax : Z) (mem : bool) (v : sqlite3_value) : option result :=
  match v with
  | SQL_BLOB z =>
      let nv := Z.of_nat (length z) in
      let nc := 4 * ((nv + 2) / 3) in
      let nc := nc + ((nc + (B64_DARK_MAX - 1)) / B64_DARK_MAX + 1) in
      if nvMax <? nc then Some (ResultError (str "blob expanded to base64 too big"))
      else
        match sqlite3_value_blob z with
        | None => Some (ResultText [])
        | Some bBuf => if mem then Some (ResultText (toBase64 bBuf)) else Some (ResultError (str "base64 OOM"))
        end
  | SQL_TEXT z =>
      let nv := Z.of_nat (length z) in
      let nb := 3 * ((nv + 3) / 4) in
      if nvMax <? nb then Some (ResultError (str "blob from base64 may be too big"))
      else if mem then option_map ResultBlob (fromBase64 z (length z))
      else Some (ResultError (str "base64 OOM"))
  | _ => Some (ResultError (str "base64 accepts only blob or text"))
  end.

(** ** Digits *)

Lemma numeral_value v : 0 <= v < 64 ->
  BX_DV_PROTO (BX_NUMERAL v) = v /\ BX_NUMERAL v <> PAD_CHAR /\ BX_NUMERAL v <> 0 /\ BX_NUMERAL v <> 10.
Proof.
  intros H. assert (C : forallb (fun k => let v := Z.of_nat k in let c := BX_NUMERAL v in
    (BX_DV_PROTO c =? v) && negb (c =? PAD_CHAR) && negb (c =? 0) && negb (c =? 10)) (seq 0 64) = true) by (vm_compute; reflexivity).
  rewrite forallb_forall in C. specialize (C (Z.to_nat v)). rewrite in_seq, Z2Nat.id in C by lia. specialize (C ltac:(lia)).
  cbv zeta in C. rewrite !andb_true_iff, !negb_true_iff, Z.eqb_eq, !Z.eqb_neq in C. tauto.
Qed.

Lemma digit_shift q v : 0 <= v < 64 -> Z.lor (Z.shiftl q 6) v = q * 64 + v.
Proof. intros H. rewrite Z.lor_comm, lor_shiftl by lia. lia. Qed.

(** The digits of a group, by arithmetic. *)
Lemma quad_digits a b c : is_byte a -> is_byte b -> is_byte c ->
  quad a b c = [BX_NUMERAL (a / 4); BX_NUMERAL (a mod 4 * 16 + b / 16); BX_NUMERAL (b mod 16 * 4 + c / 64); BX_NUMERAL (c mod 64)].
Proof.
  unfold is_byte. intros Ha Hb Hc. unfold quad. change 0x3f with (Z.ones 6). change 0xf with (Z.ones 4).
  rewrite !Z.land_ones, !Z.shiftr_div_pow2 by lia. change (2 ^ 2) with 4. change (2 ^ 4) with 16. change (2 ^ 6) with 64.
  rewrite !(Z.lor_comm (Z.shiftl _ _)), !lor_shiftl by (cbn; Z.to_euclidean_division_equations; lia).
  change (2 ^ 2) with 4. change (2 ^ 4) with 16.
  replace ((b / 16 + a * 16) mod 64) with (a mod 4 * 16 + b / 16) by (Z.to_euclidean_division_equations; lia).
  now rewrite (Z.add_comm (c / 64)).
Qed.

(** ** One group *)

Definition is_digit (c : Z) (v : Z) : Prop := 0 <= v < 64 /\ c = BX_NUMERAL v.

Lemma step_digit c v T n nti nbo q nac : (nac < nti)%nat -> is_digit c v ->
  group_step (mkGroup (c :: T) n nti nbo q) nac = mkGroup T n nti nbo (q * 64 + v).
Proof.
  intros Hn [Hv ->]. unfold group_step. cbn [g_pIn g_ncIn g_nti g_nbo g_qv nth tl].
  rewrite (proj2 (Nat.ltb_lt nac nti) Hn). destruct (numeral_value v Hv) as [-> _].
  unfold ND, WS, PC. destruct (Z.eqb_spec v 0x82), (Z.eqb_spec v 0x81), (Z.eqb_spec v 0x80); try lia.
  now rewrite digit_shift.
Qed.

Lemma step_pad T n nti nbo q nac : (nac < nti)%nat ->
  group_step (mkGroup (PAD_CHAR :: T) n nti nbo q) nac = mkGroup T n nti (nbo - 1) (q * 64).
Proof.
  intros Hn. unfold group_step. cbn [g_pIn g_ncIn g_nti g_nbo g_qv nth tl]. rewrite (proj2 (Nat.ltb_lt nac nti) Hn).
  change (BX_DV_PROTO PAD_CHAR) with PC. unfold PC, ND, WS. cbn [Z.eqb Pos.eqb]. now rewrite digit_shift, Z.add_0_r by lia.
Qed.

Lemma step_space T n nti nbo q nac : (nac < nti)%nat ->
  group_step (mkGroup (10 :: T) n nti nbo q) nac = mkGroup T n nac (nbo - 1) (q * 64).
Proof.
  intros Hn. unfold group_step. cbn [g_pIn g_ncIn g_nti g_nbo g_qv nth tl]. rewrite (proj2 (Nat.ltb_lt nac nti) Hn).
  change (BX_DV_PROTO 10) with WS. unfold PC, ND, WS. cbn [Z.eqb Pos.eqb]. now rewrite digit_shift, Z.add_0_r by lia.
Qed.

Lemma step_beyond T n nti nbo q nac : (nti <= nac)%nat ->
  group_step (mkGroup T n nti nbo q) nac = mkGroup T n nti nbo (q * 64).
Proof.
  intros Hn. unfold group_step. cbn [g_pIn g_ncIn g_nti g_nbo g_qv]. rewrite (proj2 (Nat.ltb_ge nac nti) Hn).
  change (BX_DV_PROTO b64Numerals.[0]) with 0. unfold PC, ND, WS. cbn [Z.eqb]. now rewrite digit_shift, Z.add_0_r by lia.
Qed.

(** The bytes of the value of a group. *)
Lemma group_bytes_of a b c : is_byte a -> is_byte b -> is_byte c ->
  let q := a * 65536 + b * 256 + c in
  group_bytes 3 q = [a; b; c] /\ group_bytes 2 q = [a; b] /\ group_bytes 1 q = [a].
Proof.
  intros Ha Hb Hc q. unfold is_byte, group_bytes in *. change 0xff with (Z.ones 8).
  rewrite !Z.land_ones, !Z.shiftr_div_pow2 by lia. change (2 ^ 8) with 256. change (2 ^ 16) with 65536.
  replace (q mod 256) with c by (unfold q; Z.to_euclidean_division_equations; lia).
  replace (q / 256 mod 256) with b by (unfold q; Z.to_euclidean_division_equations; lia).
  replace (q / 65536 mod 256) with a by (unfold q; Z.to_euclidean_division_equations; lia). auto.
Qed.

(** ** Texts of groups and line feeds *)

Inductive token := LF | Q3 (a b c : Z) | Q2 (a b : Z) | Q1 (a : Z).

Definition token_text (k : token) : list Z :=
  match k with
  | LF => [10]
  | Q3 a b c => quad a b c
  | Q2 a b => firstn 3 (quad a b 0) ++ [PAD_CHAR]
  | Q1 a => firstn 2 (quad a 0 0) ++ [PAD_CHAR; PAD_CHAR]
  end.

Definition token_bytes (k : token) : list Z :=
  match k with LF => [] | Q3 a b c => [a; b; c] | Q2 a b => [a; b] | Q1 a => [a] end.

(** The four steps on a group. *)
Lemma group_decoded k T n : bytes (token_bytes k) -> k <> LF ->
  let g := fold_left group_step [0; 1; 2; 3]%nat (mkGroup (token_text k ++ T) n 4 3 0) in
  g_pIn g = T /\ g_ncIn g = n /\ 0 <= g_nbo g /\ group_bytes (g_nbo g) (g_qv g) = token_bytes k.
Proof.
  assert (B0 : is_byte 0) by (unfold is_byte; lia).
  intros Hb Hk. assert (D : forall a b c, is_byte a -> is_byte b -> is_byte c ->
    is_digit (BX_NUMERAL (a / 4)) (a / 4) /\ is_digit (BX_NUMERAL (a mod 4 * 16 + b / 16)) (a mod 4 * 16 + b / 16)
    /\ is_digit (BX_NUMERAL (b mod 16 * 4 + c / 64)) (b mod 16 * 4 + c / 64) /\ is_digit (BX_NUMERAL (c mod 64)) (c mod 64)
    /\ (((0 * 64 + a / 4) * 64 + (a mod 4 * 16 + b / 16)) * 64 + (b mod 16 * 4 + c / 64)) * 64 + c mod 64 = a * 65536 + b * 256 + c).
  { unfold is_byte, is_digit. intros a b c Ha Hc Hd. split_and; try reflexivity; Z.to_euclidean_division_equations; lia. }
  destruct k as [|a b c|a b|a]; [congruence|..]; cbn [token_bytes] in Hb; unfold token_text; cbv zeta; cbn [fold_left].
  - apply Forall_cons_iff in Hb. destruct Hb as [Ha Hb]. apply Forall_cons_iff in Hb. destruct Hb as [Hb Hc].
    apply Forall_inv in Hc. destruct (D a b c Ha Hb Hc) as (D0 & D1 & D2 & D3 & Eq). rewrite quad_digits by assumption.
    cbn [app]. erewrite !step_digit by (eassumption || lia). cbn [g_pIn g_ncIn g_nbo g_qv]. rewrite Eq.
    split_and; [reflexivity..| lia |]. now apply group_bytes_of.
  - apply Forall_cons_iff in Hb. destruct Hb as [Ha Hb]. apply Forall_inv in Hb.
    destruct (D a b 0 Ha Hb B0) as (D0 & D1 & D2 & D3 & Eq). rewrite quad_digits by assumption.
    cbn [firstn app]. erewrite !step_digit by (eassumption || lia). rewrite step_pad by lia. cbn [g_pIn g_ncIn g_nbo g_qv].
    change (0 mod 64) with 0 in Eq. rewrite Z.add_0_r in Eq. rewrite Eq. split_and; [reflexivity..| lia |].
    now apply group_bytes_of.
  - apply Forall_inv in Hb. destruct (D a 0 0 Hb B0 B0) as (D0 & D1 & D2 & D3 & Eq). rewrite quad_digits by assumption.
    cbn [firstn app]. erewrite !step_digit by (eassumption || lia). rewrite !step_pad by lia. cbn [g_pIn g_ncIn g_nbo g_qv].
    change (0 mod 64) with 0 in Eq. change (0 mod 16 * 4 + 0 / 64) with 0 in Eq. rewrite !Z.add_0_r in Eq.
    rewrite Z.add_0_r, Eq. split_and; [reflexivity..| lia |]. replace (a * 65536) with (a * 65536 + 0 * 256 + 0) by lia.
    now apply group_bytes_of.
Qed.

Definition text_of (ts : list token) : list Z := flat_map token_text ts.

Lemma group_starts k T : bytes (token_bytes k) -> k <> LF ->
  exists v U, 0 <= v < 64 /\ token_text k ++ T = BX_NUMERAL v :: U /\ length (token_text k) = 4%nat.
Proof.
  assert (B0 : is_byte 0) by (unfold is_byte; lia).
  intros Hb Hk. assert (R : forall a, is_byte a -> 0 <= a / 4 < 64) by (unfold is_byte; intros; Z.to_euclidean_division_equations; lia).
  destruct k as [|a b c|a b|a]; [congruence|..]; cbn [token_bytes] in Hb; unfold token_text;
    repeat (apply Forall_cons_iff in Hb; destruct Hb as [? Hb]); rewrite quad_digits by assumption;
    exists (a / 4); eexists; (split; [now apply R|]); split; reflexivity.
Qed.

Lemma text_starts ts T : Forall (fun k => bytes (token_bytes k)) ts ->
  (length (text_of ts) = 0)%nat \/ (text_of ts ++ T).[0] <> PAD_CHAR.
Proof.
  intros H. destruct H as [|k ts Hk _]; [now left|]. right. unfold text_of. cbn [flat_map]. rewrite <- app_assoc.
  destruct (match k with LF => true | _ => false end) eqn:E.
  - destruct k; [discriminate | discriminate E..].
  - destruct (group_starts k (flat_map token_text ts ++ T) Hk) as (v & U & Hv & -> & _); [now destruct k|].
    now apply numeral_value.
Qed.

Lemma length_skip s : forall nc, (length (skipNonB64 s nc) <= length s)%nat.
Proof.
  induction s as [|c s IH]; intros [|nc]; cbn [skipNonB64]; auto. destruct (_ && _); [|auto].
  specialize (IH nc). cbn [length]. lia.
Qed.

(** A line feed between groups is as if it were not there. *)
Lemma loop_line_feed fuel T n out : n = 0%nat \/ T.[0] <> PAD_CHAR ->
  fromBase64_loop (S fuel) (10 :: T) (S n) out = fromBase64_loop (S fuel) T n out.
Proof.
  intros H. cbn [fromBase64_loop]. change ((0 <? S n)%nat && negb ((10 :: T).[0] =? PAD_CHAR)) with true. cbv iota.
  change (skipNonB64 (10 :: T) (S n)) with (skipNonB64 T n). pose proof (length_skip T n) as L.
  cbn [length]. replace (S n - (S (length T) - length (skipNonB64 T n)))%nat with (n - (length T - length (skipNonB64 T n)))%nat by lia.
  destruct H as [-> | H]; [reflexivity|]. destruct n as [|n]; [reflexivity|].
  rewrite (proj2 (Z.eqb_neq _ _) H). reflexivity.
Qed.

(** At a digit nothing is skipped. *)
Lemma loop_start v T n fuel out : 0 <= v < 64 ->
  fromBase64_loop (S fuel) (BX_NUMERAL v :: T) (S n) out =
  (let nti := if (4 <? S n)%nat then 4%nat else S n in
   if nboi.[nti] =? 0 then Some out
   else
     let g := fold_left group_step [0; 1; 2; 3]%nat (mkGroup (BX_NUMERAL v :: T) (S n - nti) nti nboi.[nti] 0) in
     if Z.of_nat (length out) + g_nbo g <? 0 then None
     else fromBase64_loop fuel (g_pIn g) (g_ncIn g)
            (firstn (length out - Z.to_nat (- g_nbo g)) out ++ group_bytes (g_nbo g) (g_qv g))).
Proof.
  intros Hv. destruct (numeral_value v Hv) as (V & NP & N0 & _).
  assert (S : skipNonB64 (BX_NUMERAL v :: T) (S n) = BX_NUMERAL v :: T).
  { cbn [skipNonB64]. rewrite V. unfold IS_BX_DIGIT. destruct (Z.ltb_spec v 0x80); [|lia]. now rewrite andb_false_r. }
  cbn [fromBase64_loop]. rewrite S, Nat.sub_diag, Nat.sub_0_r. cbn [nth]. rewrite (proj2 (Z.eqb_neq _ _) NP). reflexivity.
Qed.

Lemma loop_group k fuel T n out : bytes (token_bytes k) -> k <> LF ->
  fromBase64_loop (S fuel) (token_text k ++ T) (4 + n) out = fromBase64_loop fuel T n (out ++ token_bytes k).
Proof.
  intros Hb Hk. destruct (group_starts k T Hb Hk) as (v & U & Hv & E & _).
  destruct (group_decoded k T n Hb Hk) as (G1 & G2 & G3 & G4). cbv zeta in *. rewrite E in *. change (4 + n)%nat with (S (3 + n)).
  rewrite loop_start by exact Hv. cbv zeta.
  replace (if (4 <? S (3 + n))%nat then 4%nat else S (3 + n)) with 4%nat by (destruct (Nat.ltb_spec 4 (S (3 + n))); lia).
  change (nboi.[4]) with 3. cbn [Z.eqb]. replace (S (3 + n) - 4)%nat with n by lia.
  set (g := fold_left group_step _ _) in *. rewrite G1, G2, G4. destruct (Z.ltb_spec (Z.of_nat (length out) + g_nbo g) 0); [lia|].
  replace (Z.to_nat (- g_nbo g)) with 0%nat by lia. now rewrite Nat.sub_0_r, firstn_all.
Qed.

(** A text of groups and line feeds, with anything behind it. *)
Lemma tokens_decoded ts : Forall (fun k => bytes (token_bytes k)) ts -> forall fuel T out, (length (text_of ts) < fuel)%nat ->
  fromBase64_loop fuel (text_of ts ++ T) (length (text_of ts)) out = Some (out ++ flat_map token_bytes ts).
Proof.
  induction 1 as [|k ts Hk Hts IH]; intros fuel T out Hf; (destruct fuel as [|fuel]; [lia|]).
  { cbn. now rewrite app_nil_r. }
  unfold text_of in *. cbn [flat_map] in *. rewrite length_app, <- app_assoc in *.
  destruct (match k with LF => true | _ => false end) eqn:E.
  - destruct k; [|discriminate E..]. cbn [token_text token_bytes app length Nat.add] in *. rewrite loop_line_feed; [apply IH; lia|].
    exact (text_starts ts T Hts).
  - assert (k <> LF) as Hl by (now destruct k). destruct (group_starts k T Hk Hl) as (v & U & _ & _ & L). rewrite L in *.
    rewrite loop_group by assumption. rewrite IH, <- app_assoc by lia. reflexivity.
Qed.

(** ** The tokens of the encoder *)

Fixpoint tokens (nCol : Z) (pIn : list Z) : list token :=
  match pIn with
  | [] => []
  | [a] => [Q1 a; LF]
  | [a; b] => [Q2 a b; LF]
  | a :: b :: c :: pIn' =>
      if (B64_DARK_MAX <=? nCol + 4) || (Z.of_nat (length pIn') <=? 0)
      then Q3 a b c :: LF :: tokens 0 pIn' else Q3 a b c :: tokens (nCol + 4) pIn'
  end.

Lemma tail_text a b : is_byte a -> is_byte b ->
  toBase64_tail [a] = text_of [Q1 a; LF] /\ toBase64_tail [a; b] = text_of [Q2 a b; LF].
Proof.
  assert (B0 : is_byte 0) by (unfold is_byte; lia). intros Ha Hb. unfold text_of. cbn [flat_map token_text].
  rewrite !quad_digits by assumption. unfold is_byte in *. unfold toBase64_tail.
  cbn [length Nat.ltb Nat.leb Nat.add fold_left nth]. cbn [firstn app memset repeat upd].
  change 0x3f with (Z.ones 6). rewrite !Z.land_ones, !Z.shiftr_div_pow2 by lia.
  rewrite !(Z.lor_comm (Z.shiftl _ _)), !lor_shiftl, !Z.shiftl_mul_pow2 by lia. change (2 ^ 8) with 256. change (2 ^ 6) with 64.
  split; repeat (f_equal; try (f_equal; Z.to_euclidean_division_equations; lia)).
Qed.

Lemma three_induction (P : list Z -> Prop) :
  P [] -> (forall a, P [a]) -> (forall a b, P [a; b]) -> (forall a b c l, P l -> P (a :: b :: c :: l)) -> forall l, P l.
Proof.
  intros H0 H1 H2 H3. fix IH 1. intros [|a [|b [|c l]]]; [exact H0 | apply H1 | apply H2 | apply H3, IH].
Qed.

Lemma loop_tokens pIn : bytes pIn -> forall nCol,
  (let '(text, rest) := toBase64_loop nCol pIn in text ++ toBase64_tail rest) = text_of (tokens nCol pIn)
  /\ flat_map token_bytes (tokens nCol pIn) = pIn /\ Forall (fun k => bytes (token_bytes k)) (tokens nCol pIn).
Proof.
  induction pIn as [|a|a b|a b c l IH] using three_induction; intros Hb nCol.
  - now repeat split.
  - apply Forall_inv in Hb as Ha. destruct (tail_text a a Ha Ha) as [E _]. cbn [toBase64_loop tokens app].
    split_and; [exact E | reflexivity |]. apply Forall_cons; [exact Hb|]. apply Forall_cons; constructor.
  - pose proof (Forall_inv Hb) as Ha. pose proof (Forall_inv (Forall_inv_tail Hb)) as Hb'. destruct (tail_text a b Ha Hb') as [_ E].
    cbn [toBase64_loop tokens app]. split_and; [exact E | reflexivity |].
    apply Forall_cons; [exact Hb|]. apply Forall_cons; constructor.
  - assert (Hq : bytes [a; b; c] /\ bytes l) by (apply bytes_app; exact Hb). destruct Hq as [Hq Hl]. specialize (IH Hl).
    cbn [toBase64_loop tokens]. destruct (_ || _).
    + destruct (IH 0) as (E & F & G). destruct (toBase64_loop 0 l) as [text rest]. unfold text_of in *. cbn [flat_map token_text token_bytes app].
      rewrite <- E, F, <- !app_assoc. split_and; [reflexivity..|]. apply Forall_cons; [exact Hq|]. apply Forall_cons; [constructor | exact G].
    + destruct (IH (nCol + 4)) as (E & F & G). destruct (toBase64_loop (nCol + 4) l) as [text rest]. unfold text_of in *.
      cbn [flat_map token_text token_bytes app]. rewrite <- E, F, <- !app_assoc. split_and; [reflexivity..|].
      apply Forall_cons; assumption.
Qed.

(** ** Sizes *)

Definition lines (q : Z) : Z := (4 * q + (B64_DARK_MAX - 1)) / B64_DARK_MAX.

(** The length of the text from a column on: four characters for each group, and line feeds. *)
Lemma length_tokens pIn : bytes pIn -> forall nCol, 0 <= nCol < B64_DARK_MAX -> nCol mod 4 = 0 ->
  let q := (Z.of_nat (length pIn) + 2) / 3 in
  Z.of_nat (length (text_of (tokens nCol pIn))) = 4 * q + (if q =? 0 then 0 else lines (nCol / 4 + q)).
Proof.
  assert (B0 : is_byte 0) by (unfold is_byte; lia).
  assert (L4 : forall a b c, length (quad a b c) = 4%nat) by reflexivity. unfold lines.
  induction pIn as [|a|a b|a b c l IH] using three_induction; intros Hb nCol Hc Hm; unfold B64_DARK_MAX in *.
  - reflexivity.
  - change (5 = 4 + (4 * (nCol / 4 + 1) + (72 - 1)) / 72). Z.to_euclidean_division_equations; lia.
  - change (5 = 4 + (4 * (nCol / 4 + 1) + (72 - 1)) / 72). Z.to_euclidean_division_equations; lia.
  - assert (Hl : bytes l) by (do 3 apply Forall_inv_tail in Hb; exact Hb).
    set (q := (Z.of_nat _ + 2) / 3). assert (Eq : q = (Z.of_nat (length l) + 2) / 3 + 1).
    { unfold q. cbn [length]. rewrite !Nat2Z.inj_succ. Z.to_euclidean_division_equations; lia. }
    assert (Q0 : 0 <= (Z.of_nat (length l) + 2) / 3) by (apply Z.div_pos; lia).
    clearbody q. subst q. set (k := (Z.of_nat (length l) + 2) / 3) in *.
    assert (Ek : k = 0 <-> (length l = 0)%nat) by (unfold k; Z.to_euclidean_division_equations; lia).
    cbn [tokens]. destruct (Z.eqb_spec (k + 1) 0); [lia|]. unfold B64_DARK_MAX in *.
    destruct (Z.leb_spec 72 (nCol + 4)), (Z.leb_spec (Z.of_nat (length l)) 0); cbn [orb]; unfold text_of in *;
      cbn [flat_map token_text app]; rewrite ?length_app, ?L4; cbn [length]; rewrite ?length_app, ?L4.
    1, 2, 3: specialize (IH Hl 0 ltac:(lia) eq_refl); destruct (Z.eqb_spec k 0); Z.to_euclidean_division_equations; lia.
    specialize (IH Hl (nCol + 4) ltac:(lia) ltac:(Z.to_euclidean_division_equations; lia)).
    destruct (Z.eqb_spec k 0); Z.to_euclidean_division_equations; lia.
Qed.

Lemma toBase64_text b : bytes b -> toBase64 b = text_of (tokens 0 b).
Proof. intros H. exact (proj1 (loop_tokens b H 0)). Qed.

Lemma ends_with_feed b : bytes b -> b <> [] -> forall nCol, exists ts, tokens nCol b = ts ++ [LF].
Proof.
  induction b as [|a|a c|a c d l IH] using three_induction; intros Hb Hn nCol; [congruence | now exists [Q1 a] | now exists [Q2 a c] |].
  assert (Hl : bytes l) by (do 3 apply Forall_inv_tail in Hb; exact Hb). cbn [tokens].
  destruct (list_eq_dec Z.eq_dec l []) as [-> | N].
  - rewrite orb_true_r. now exists [Q3 a c d].
  - destruct (_ || _).
    + destruct (IH Hl N 0) as [ts ->]. now exists (Q3 a c d :: LF :: ts).
    + destruct (IH Hl N (nCol + 4)) as [ts ->]. now exists (Q3 a c d :: ts).
Qed.

(** The whole decoder on groups and line feeds that end in one. *)
Lemma fromBase64_tokens ts : Forall (fun k => bytes (token_bytes k)) ts -> ts = [] \/ (exists us, ts = us ++ [LF]) ->
  fromBase64 (text_of ts) (length (text_of ts)) = Some (flat_map token_bytes ts).
Proof.
  intros Ht [-> | [us ->]]; [reflexivity|]. apply Forall_app in Ht. destruct Ht as [Hu _].
  assert (Ex : text_of (us ++ [LF]) = text_of us ++ [10]) by (unfold text_of; now rewrite flat_map_app).
  unfold fromBase64. rewrite Ex, length_app. cbn [length].
  replace ((0 <? length (text_of us) + 1)%nat) with true by (symmetry; apply Nat.ltb_lt; lia).
  replace (length (text_of us) + 1 - 1)%nat with (length (text_of us)) by lia. rewrite nth_middle. cbn [Z.eqb Pos.eqb andb].
  rewrite tokens_decoded by (auto || lia). cbn [app]. now rewrite flat_map_app, app_nil_r.
Qed.

(** C18: Base64 of the shell can be concatenated: for any blobs, the encoded texts put one behind
    the other are decoded to the blobs one behind the other, as the file promises; and each
    encoded text, with its final zero, takes exactly the bytes that are allocated for it. *)
Theorem base64_concat bs :
  Forall bytes bs ->
  let text := concat (map toBase64 bs) in
  fromBase64 text (length text) = Some (concat bs)
  /\ Forall (fun b => let nc := 4 * ((Z.of_nat (length b) + 2) / 3) in
       Z.of_nat (length (toBase64 b)) + 1 = nc + ((nc + (B64_DARK_MAX - 1)) / B64_DARK_MAX + 1)) bs.
Proof.
  intros H text. split.
  - assert (E : text = text_of (flat_map (tokens 0) bs) /\ concat bs = flat_map token_bytes (flat_map (tokens 0) bs)
      /\ Forall (fun k => bytes (token_bytes k)) (flat_map (tokens 0) bs)).
    { unfold text, text_of. clear text. induction H as [|b bs Hb _ IH]; [now repeat split|]. destruct IH as (E & F & G).
      destruct (loop_tokens b Hb 0) as (_ & Fb & Gb). cbn [map concat flat_map]. rewrite !flat_map_app, E, F, Fb, toBase64_text by exact Hb.
      split_and; try reflexivity. now apply Forall_app. }
    destruct E as (-> & -> & G). apply fromBase64_tokens; [exact G|]. clear G.
    induction H as [|b bs Hb _ IH]; [now left|]. cbn [flat_map]. destruct IH as [-> | [us ->]].
    + rewrite app_nil_r. destruct b as [|x b]; [now left | right; apply ends_with_feed; [exact Hb | discriminate]].
    + right. exists (tokens 0 b ++ us). apply app_assoc.
  - revert H. apply Forall_impl. intros b Hb nc. rewrite toBase64_text by exact Hb.
    pose proof (length_tokens b Hb 0 ltac:(unfold B64_DARK_MAX; lia) eq_refl) as L. cbv zeta in L. rewrite L. unfold nc, lines. change (0 / 4) with 0.
    rewrite Z.add_0_l. set (q := (Z.of_nat (length b) + 2) / 3). destruct (Z.eqb_spec q 0) as [->|]; [reflexivity | lia].
Qed.

(** A text of one byte with its padding, and one of three bytes. *)
Lemma base64_concat_witness :
  fromBase64 (str "QQ==" ++ [10] ++ str "QUJD" ++ [10]) 10 = Some [65; 65; 66; 67].
Proof.
  apply (base64_concat [[65]; [65; 66; 67]]).
  apply Forall_cons; [|apply Forall_cons; [|apply Forall_nil]]; apply bytesb_bytes; reflexivity.
Defined.

(** ** Any text *)

Lemma skip_stops s : forall nc, let u := skipNonB64 s nc in
  (nc <= length s - length u)%nat \/ u.[0] = 0 \/ IS_BX_DIGIT (BX_DV_PROTO u.[0]) = true.
Proof.
  induction s as [|c s IH]; intros [|nc]; cbn [skipNonB64]; cbv zeta; [left; lia | right; now left | left; lia |].
  destruct (Z.eqb_spec c 0) as [-> | Hc]; cbn [negb andb]; [right; now left|].
  destruct (IS_BX_DIGIT (BX_DV_PROTO c)) eqn:D; cbn [negb]; [right; right; exact D|].
  pose proof (length_skip s nc) as L. destruct (IH nc) as [H | H]; [left; cbn [length]; lia | right; exact H].
Qed.

(** What a character can do to the counts: nothing, or one byte less, after which the group may
    be over.  Characters beyond the end of the group do nothing. *)
Lemma step_counts g nac : let h := group_step g nac in
  (g_ncIn h <= g_ncIn g)%nat
  /\ ((g_nti h = g_nti g /\ g_nbo h = g_nbo g)
      \/ (nac < g_nti g)%nat /\ g_nbo h = g_nbo g - 1 /\ (g_nti h = g_nti g \/ g_nti h = nac)).
Proof.
  unfold group_step. destruct (Nat.ltb_spec nac (g_nti g)) as [Hn|Hn].
  - destruct (_ =? ND); [cbn; split; [lia | right; auto]|]. destruct (_ =? WS); [cbn; split; [lia | right; auto]|].
    destruct (_ =? PC); cbn; split; auto.
  - change (BX_DV_PROTO b64Numerals.[0]) with 0. unfold ND, WS, PC. cbn. auto.
Qed.

(** A group that starts with a digit, or with the end of the string, never takes back bytes. *)
Lemma group_counts p n nti : (2 <= nti <= 4)%nat -> p.[0] = 0 \/ IS_BX_DIGIT (BX_DV_PROTO p.[0]) = true ->
  let g := fold_left group_step [0; 1; 2; 3]%nat (mkGroup p n nti (Z.of_nat nti - 1) 0) in
  0 <= g_nbo g <= Z.of_nat nti - 1 /\ (g_ncIn g <= n)%nat.
Proof.
  intros Hn Hp. cbv zeta. cbn [fold_left]. set (g0 := mkGroup p n nti (Z.of_nat nti - 1) 0).
  assert (F : let h := group_step g0 0 in (g_ncIn h <= n)%nat /\
    (g_nti h = nti /\ g_nbo h = Z.of_nat nti - 1 \/ g_nti h = 0%nat /\ g_nbo h = Z.of_nat nti - 2)).
  { unfold group_step, g0. cbn [g_pIn g_ncIn g_nti g_nbo g_qv]. destruct (Nat.ltb_spec 0 nti); [|lia].
    destruct Hp as [E | D]; [rewrite E; cbn; split; [lia | right; split; [reflexivity | lia]]|].
    unfold IS_BX_DIGIT in D. apply Z.ltb_lt in D. unfold ND, WS, PC.
    destruct (Z.eqb_spec (BX_DV_PROTO p.[0]) 0x82), (Z.eqb_spec (BX_DV_PROTO p.[0]) 0x81), (Z.eqb_spec (BX_DV_PROTO p.[0]) 0x80);
      try lia. cbn. auto. }
  cbv zeta in F. set (g1 := group_step g0 0) in *. pose proof (step_counts g1 1) as S1. cbv zeta in S1. set (g2 := group_step g1 1) in *.
  pose proof (step_counts g2 2) as S2. cbv zeta in S2. set (g3 := group_step g2 2) in *.
  pose proof (step_counts g3 3) as S3. cbv zeta in S3. lia.
Qed.

Lemma length_group_bytes nbo qv : 0 <= nbo <= 3 -> Z.of_nat (length (group_bytes nbo qv)) = nbo.
Proof.
  intros H. unfold group_bytes. destruct (Z.eqb_spec nbo 3), (Z.eqb_spec nbo 2), (Z.eqb_spec nbo 1); cbn; lia.
Qed.

Lemma loop_bounded fuel : forall pIn ncIn out, (ncIn < fuel)%nat ->
  exists r, fromBase64_loop fuel pIn ncIn out = Some r
    /\ Z.of_nat (length out) <= Z.of_nat (length r) <= Z.of_nat (length out) + 3 * ((Z.of_nat ncIn + 3) / 4).
Proof.
  induction fuel as [|fuel IH]; intros pIn ncIn out Hf; [lia|]. cbn [fromBase64_loop].
  assert (Dn : 0 <= (Z.of_nat ncIn + 3) / 4) by (apply Z.div_pos; lia).
  destruct (_ && _); [|exists out; split; [reflexivity | lia]].
  pose proof (skip_stops pIn ncIn) as St. cbv zeta in St. set (p := skipNonB64 pIn ncIn) in *.
  set (m := (ncIn - (length pIn - length p))%nat). set (nti := if (4 <? m)%nat then 4%nat else m).
  assert (Hm : (m <= ncIn)%nat) by (unfold m; lia).
  assert (Hn : (nti <= 4)%nat /\ (nti <= m)%nat /\ (nti = 4%nat \/ nti = m)) by (unfold nti; destruct (Nat.ltb_spec 4 m); lia).
  destruct (Z.eqb_spec (nboi.[nti]) 0) as [E0|E0]; [exists out; split; [reflexivity | lia]|].
  assert (N2 : (2 <= nti)%nat) by (destruct nti as [|[|]]; [now contradict E0 | now contradict E0 | lia]).
  assert (Eb : nboi.[nti] = Z.of_nat nti - 1) by (destruct nti as [|[|[|[|[|]]]]]; try lia; reflexivity). rewrite Eb.
  destruct St as [St | St]; [exfalso; lia|].
  destruct (group_counts p (m - nti) nti ltac:(lia) St) as [B1 B2]. set (g := fold_left group_step _ _) in *.
  destruct (Z.ltb_spec (Z.of_nat (length out) + g_nbo g) 0); [lia|]. replace (Z.to_nat (- g_nbo g)) with 0%nat by lia.
  rewrite Nat.sub_0_r, firstn_all. destruct (IH (g_pIn g) (g_ncIn g) (out ++ group_bytes (g_nbo g) (g_qv g))) as (r & -> & R); [lia|].
  exists r. split; [reflexivity|]. rewrite length_app, Nat2Z.inj_add, length_group_bytes in R by lia.
  assert (Hq : g_nbo g + 3 * ((Z.of_nat (g_ncIn g) + 3) / 4) <= 3 * ((Z.of_nat ncIn + 3) / 4)).
  { assert (G : (g_ncIn g + 4 <= ncIn)%nat \/ g_ncIn g = 0%nat) by lia.
    clear - B1 N2 Hm Hn G. destruct G as [G | ->]; Z.to_euclidean_division_equations; lia. }
  lia.
Qed.

(** Decoding always ends, with at most as many bytes as are allocated for it. *)
Lemma fromBase64_bounded z : exists r, fromBase64 z (length z) = Some r
  /\ Z.of_nat (length r) <= 3 * ((Z.of_nat (length z) + 3) / 4).
Proof.
  unfold fromBase64. set (n := if _ && _ then (_ - 1)%nat else _). assert (Hn : (n <= length z)%nat) by (unfold n; destruct (_ && _); lia).
  destruct (loop_bounded (S n) z n [] ltac:(lia)) as (r & -> & _ & R). exists r. split; [reflexivity|]. cbn [length Z.of_nat] in R.
  pose proof (Z.div_le_mono (Z.of_nat n + 3) (Z.of_nat (length z) + 3) 4 ltac:(lia) ltac:(lia)). lia.
Qed.

(** Two digits and a line feed: the group has four characters, but the pointer moves by three. *)
Lemma space_loop d0 d1 T n fuel : 0 <= d0 < 64 -> 0 <= d1 < 64 ->
  fromBase64_loop (S fuel) ([BX_NUMERAL d0; BX_NUMERAL d1] ++ 10 :: T) (4 + n) []
  = fromBase64_loop fuel T n (group_bytes 2 ((d0 * 64 + d1) * 64 * 64)).
Proof.
  intros H0 H1. cbn [app]. change (4 + n)%nat with (S (3 + n)). rewrite loop_start by assumption. cbv zeta.
  replace (if (4 <? S (3 + n))%nat then 4%nat else S (3 + n)) with 4%nat by (destruct (Nat.ltb_spec 4 (S (3 + n))); lia).
  change (nboi.[4]) with 3. replace (S (3 + n) - 4)%nat with n by lia.
  cbn [Z.eqb fold_left]. rewrite (step_digit _ d0), (step_digit _ d1), step_space, step_beyond by (lia || now split). reflexivity.
Qed.

(** Three characters that are left of four. *)
Lemma short_loop e0 e1 e2 e3 out fuel : 0 <= e0 < 64 -> 0 <= e1 < 64 -> 0 <= e2 < 64 ->
  fromBase64_loop (S (S fuel)) (map BX_NUMERAL [e0; e1; e2; e3]) 3 out = Some (out ++ group_bytes 2 (((e0 * 64 + e1) * 64 + e2) * 64)).
Proof.
  intros K0 K1 K2. cbn [map]. rewrite loop_start by assumption. cbv zeta. cbn [Nat.ltb Nat.leb]. change (nboi.[3]) with 2. cbn [Z.eqb Nat.sub fold_left].
  rewrite (step_digit _ e0), (step_digit _ e1), (step_digit _ e2), step_beyond by (lia || now split).
  cbn [g_pIn g_ncIn g_nbo g_qv]. change (Z.to_nat (- (2))) with 0%nat. rewrite Nat.sub_0_r, firstn_all.
  destruct (Z.ltb_spec (Z.of_nat (length out) + 2) 0); [lia|]. reflexivity.
Qed.

(** Whole groups. *)
Definition triple_token (q : Z * Z * Z) : token := let '(x, y, z) := q in Q3 x y z.
Definition triple_text (qs : list (Z * Z * Z)) : list Z := text_of (map triple_token qs).
Definition triple_bytes (qs : list (Z * Z * Z)) : list Z := flat_map token_bytes (map triple_token qs).

Lemma length_triple_text qs : length (triple_text qs) = (4 * length qs)%nat.
Proof.
  unfold triple_text, text_of. induction qs as [|[[x y] z] qs IH]; [reflexivity|]. cbn [map flat_map length triple_token token_text].
  rewrite length_app, IH. change (length (quad x y z)) with 4%nat. lia.
Qed.

Lemma triples_loop qs : bytes (triple_bytes qs) -> forall T n out fuel, (length qs <= fuel)%nat ->
  fromBase64_loop fuel (triple_text qs ++ T) (4 * length qs + n) out = fromBase64_loop (fuel - length qs) T n (out ++ triple_bytes qs).
Proof.
  unfold triple_text, triple_bytes, text_of. induction qs as [|[[x y] z] qs IH]; intros B T n out fuel Hf; cbn [map flat_map triple_token length] in *.
  { now rewrite Nat.sub_0_r, app_nil_r. }
  apply bytes_app in B as [B1 B2]. destruct fuel as [|fuel]; [lia|]. rewrite <- app_assoc.
  replace (4 * S (length qs) + n)%nat with (4 + (4 * length qs + n))%nat by lia. rewrite loop_group by (assumption || discriminate).
  rewrite IH by (assumption || lia). now rewrite <- app_assoc.
Qed.

(** The end of a text of whole groups is not a line feed. *)
Lemma last_not_feed l x y z : is_byte x -> is_byte y -> is_byte z ->
  ((l ++ quad x y z).[length (l ++ quad x y z) - 1] =? 10) = false.
Proof.
  intros Hx Hy Hz. rewrite length_app, quad_digits by assumption. cbn [length]. rewrite app_nth2 by lia.
  replace (length l + 4 - 1 - length l)%nat with 3%nat by lia. cbn [nth]. unfold is_byte in *.
  apply Z.eqb_neq, numeral_value. Z.to_euclidean_division_equations; lia.
Qed.

(** C39: White space that ends a group is not like padding: if the pads behind the digits of one
    byte are left out, and a line feed and any whole groups follow, the decoder makes up a byte of
    zero behind the first one, and loses the last byte of the text, because the count of the
    characters that are left runs ahead of the pointer; with the pads the text is decoded. *)
Theorem base64_space_shifts a qs x y z :
  is_byte a -> bytes (triple_bytes qs) -> is_byte x -> is_byte y -> is_byte z ->
  let digits := firstn 2 (quad a 0 0) in
  let text := triple_text qs ++ quad x y z in
  let padded := digits ++ [PAD_CHAR; PAD_CHAR; 10] ++ text in
  let spaced := digits ++ [10] ++ text in
  fromBase64 padded (length padded) = Some (a :: triple_bytes qs ++ [x; y; z])
  /\ fromBase64 spaced (length spaced) = Some (a :: 0 :: triple_bytes qs ++ [x; y]).
Proof.
  intros Ha Hq Hx Hy Hz digits text padded spaced. assert (B0 : is_byte 0) by (unfold is_byte; lia).
  assert (Nl : forall l, ((l ++ text).[length (l ++ text) - 1] =? 10) = false)
    by (intros l; unfold text; rewrite app_assoc; now apply last_not_feed).
  split; unfold fromBase64.
  - unfold padded. rewrite app_assoc, Nl, andb_false_r.
    replace ((digits ++ [PAD_CHAR; PAD_CHAR; 10]) ++ text) with (text_of (Q1 a :: LF :: map triple_token qs ++ [Q3 x y z]) ++ [])
      by (unfold text_of, text, triple_text, text_of; cbn [flat_map token_text]; rewrite flat_map_app; cbn [flat_map token_text]; rewrite !app_nil_r; reflexivity).
    rewrite app_nil_r at 1 3. rewrite tokens_decoded.
    + cbn [flat_map token_bytes app]. now rewrite flat_map_app.
    + apply Forall_cons; [apply Forall_cons; [exact Ha|apply Forall_nil]|]. apply Forall_cons; [apply Forall_nil|]. apply Forall_app.
      split; [|apply Forall_cons; [|apply Forall_nil]; now apply Forall_cons; [|apply Forall_cons; [|apply Forall_cons; [|apply Forall_nil]]]].
      unfold triple_bytes in Hq. now apply Forall_flat_map in Hq.
    + lia.
  - unfold spaced. rewrite app_assoc, Nl, andb_false_r, <- app_assoc.
    assert (L : length (digits ++ [10] ++ text) = (4 + (4 * length qs + 3))%nat)
      by (unfold text; rewrite !length_app, length_triple_text; change (length digits) with 2%nat; cbn [length];
          change (length (quad x y z)) with 4%nat; lia).
    rewrite L.
    unfold digits. rewrite (quad_digits a 0 0) by assumption. cbn [firstn]. unfold is_byte in *.
    change ([?b; ?c] ++ [10] ++ text) with ([b; c] ++ 10 :: text). rewrite space_loop by (Z.to_euclidean_division_equations; lia).
    unfold text. rewrite triples_loop by (assumption || lia). rewrite quad_digits by assumption.
    match goal with |- fromBase64_loop ?f _ _ _ = _ => replace f with (S (S (f - 2))) by lia end.
    etransitivity; [apply (short_loop _ _ _ (z mod 64)); Z.to_euclidean_division_equations; lia|].
    replace ((a / 4 * 64 + (a mod 4 * 16 + 0 / 16)) * 64 * 64) with (a * 65536 + 0 * 256 + 0) by (Z.to_euclidean_division_equations; lia).
    replace (((x / 4 * 64 + (x mod 4 * 16 + y / 16)) * 64 + (y mod 16 * 4 + z / 64)) * 64) with (x * 65536 + y * 256 + z / 64 * 64)
      by (Z.to_euclidean_division_equations; lia).
    destruct (group_bytes_of a 0 0) as (_ & -> & _); try (unfold is_byte; lia).
    destruct (group_bytes_of x y (z / 64 * 64)) as (_ & -> & _); try (unfold is_byte; Z.to_euclidean_division_equations; lia). reflexivity.
Qed.

(** The letter A, once with its padding and once without, and six letters behind it. *)
Lemma base64_space_shifts_witness :
  fromBase64 (str "QQ==" ++ [10] ++ str "QUJDQUJD") 13 = Some [65; 65; 66; 67; 65; 66; 67]
  /\ fromBase64 (str "QQ" ++ [10] ++ str "QUJDQUJD") 11 = Some [65; 0; 65; 66; 67; 65; 66].
Proof. apply (base64_space_shifts 65 [(65, 66, 67)] 65 66 67); try (apply bytesb_bytes; reflexivity); unfold is_byte; lia. Defined.
