(* ===== verification/ShBase85.v ===== *)
(** * Base85 of the shell

    Model of ext/misc/base85.c in the shell: numerals, encoder with a separator between lines,
    decoder, and the SQL functions base85() and is_base85().  A character is its unsigned code;
    codes above the letters are no numerals whether or not [char] is signed.  The results are
    those of base64, and that what the encoder writes passes the check. *)

From Stdlib Require Import String ZArith Lia List Bool.
From S2P Require Import Prelude ChaCha20 Streaming ScText ShSha3 ShSha1 ShQuery ShBase64.
Import ListNotations.
Local Open Scope Z_scope.

Definition B85_CLASS (c : Z) : Z :=
  Z.b2z (35 <=? c) + Z.b2z (38 <? c) + Z.b2z (42 <=? c) + Z.b2z (122 <? c).
Definition b85_cOffset : list Z := [0; 35; 0; 42 - 4; 0].
Definition B85_DNOS (c : Z) : Z := b85_cOffset.[Z.to_nat (B85_CLASS c)].
Definition IS_B85 (c : Z) : bool := negb (Z.land (B85_CLASS c) 1 =? 0).
Definition B85_DARK_MAX : Z := 80.

Definition base85Numeral (dn : Z) : Z := if dn <? 4 then dn + 35 else dn - 4 + 42.

(** ** Encoding *)

(** The digits of four bytes, from the last one; [out] is what stands behind them. *)
Fixpoint put_group (nco : nat) (qbv : Z) (out : list Z) : list Z :=
  match nco with
  | O => out
  | S nco =>
      let nqv := u32 (qbv / 85) in
      put_group nco nqv (base85Numeral (u8 (qbv - 85 * nqv)) :: out)
  end.

(** The digits of one to three bytes. *)
Fixpoint put_tail (nco : nat) (qv : Z) (out : list Z) : list Z :=
  match nco with
  | O => out
  | S nco => put_tail nco (qv / 85) (base85Numeral (u8 (qv mod 85)) :: out)
  end.

Definition separator (pSep : option (list Z)) : list Z := match pSep with Some s => s | None => [] end.

(** The loop over whole groups: the text, the bytes that are left and the column. *)
Fixpoint toBase85_loop (pSep : option (list Z)) (nCol : Z) (pIn : list Z) : list Z * list Z * Z :=
  match pIn with
  | p0 :: p1 :: p2 :: p3 :: pIn' =>
      let qbv := Z.lor (Z.lor (Z.lor (Z.shiftl p0 24) (Z.shiftl p1 16)) (Z.shiftl p2 8)) p3 in
      let nCol := match pSep with Some _ => nCol + 5 | None => nCol end in
      let '(sep, nCol) :=
        match pSep with
        | Some s => if B85_DARK_MAX <=? nCol then (s, 0) else ([], nCol)
        | None => ([], nCol)
        end in
      let '(text, rest, nCol) := toBase85_loop pSep nCol pIn' in
      (put_group 5 qbv [] ++ sep ++ text, rest, nCol)
  | _ => ([], pIn, nCol)
  end.

(** What is written before the final zero. *)
Definition toBase85 (pIn : list Z) (pSep : option (list Z)) : list Z :=
  let '(text, rest, nCol) := toBase85_loop pSep 0 pIn in
  let '(tail, nCol) :=
    match rest with
    | [] => ([], nCol)
    | p0 :: rest' =>
        let qv := fold_left (fun qv b => Z.lor (Z.shiftl qv 8) b) rest' p0 in
        let nco := (length rest + 1)%nat in
        (put_tail nco qv [], nCol + Z.of_nat nco)
    end in
  text ++ tail ++ (if 0 <? nCol then separator pSep else []).

(** ** Decoding *)

Fixpoint skipNonB85 (s : list Z) (nc : nat) : list Z :=
  match nc, s with
  | S nc, c :: s' => if negb (c =? 0) && negb (IS_B85 c) then skipNonB85 s' nc else s
  | _, _ => s
  end.

Definition nboi85 : list Z := [0; 0; 1; 2; 3; 4].

(** The digits of a group: what is left of the text and of the counts, and the value. *)
Fixpoint digit_loop (nti : nat) (pIn : list Z) (ncIn : nat) (qv : Z) : list Z * nat * nat * Z :=
  match nti with
  | O => (pIn, ncIn, O, qv)
  | S nti' =>
      let c := pIn.[0] in
      let cdo := B85_DNOS c in
      if cdo =? 0 then (tl pIn, (ncIn - 1)%nat, nti, qv)
      else digit_loop nti' (tl pIn) (ncIn - 1) (85 * qv + (c - cdo))
  end.

Definition group_bytes85 (nbo qv : Z) : list Z :=
  let b3 := Z.land (Z.shiftr qv 24) 0xff in
  let b2 := Z.land (Z.shiftr qv 16) 0xff in
  let b1 := Z.land (Z.shiftr qv 8) 0xff in
  let b0 := Z.land qv 0xff in
  if nbo =? 4 then [b3; b2; b1; b0] else if nbo =? 3 then [b2; b1; b0]
  else if nbo =? 2 then [b1; b0] else if nbo =? 1 then [b0] else [].

Fixpoint fromBase85_loop (fuel : nat) (pIn : list Z) (ncIn : nat) (out : list Z) : option (list Z) :=
  match fuel with
  | O => None
  | S fuel =>
      if (0 <? ncIn)%nat then
        let pUse := skipNonB85 pIn ncIn in
        let ncIn := (ncIn - (length pIn - length pUse))%nat in
        let nti := if (5 <? ncIn)%nat then 5%nat else ncIn in
        let nbo := nboi85.[nti] in
        if nbo =? 0 then Some out
        else
          let '(pIn, ncIn, nti, qv) := digit_loop nti pUse ncIn 0 in
          fromBase85_loop fuel pIn ncIn (out ++ group_bytes85 (nbo - Z.of_nat nti) qv)
      else Some out
  end.

Definition fromBase85 (pIn : list Z) (ncIn : nat) : option (list Z) :=
  let ncIn := if (0 <? ncIn)%nat && (pIn.[ncIn - 1] =? 10) then (ncIn - 1)%nat else ncIn in
  fromBase85_loop (S ncIn) pIn ncIn [].

Fixpoint allBase85 (p : list Z) : bool :=
  match p with
  | [] => true
  | c :: p => if c =? 0 then true else if negb (IS_B85 c) && negb (isspace c) then false else allBase85 p
  end.

(** ** The SQL functions *)

(** The integer, NULL or an error. *)
Definition is_base85 (v : sqlite3_value) : (list Z + option Z) :=
  match v with
  | SQL_TEXT z => inr (Some (if allBase85 z then 1 else 0))
  | SQL_NULL => inr None
  | _ => inl (str "is_base85 accepts only text or NULL")
  end.

Definition base85 (nvMax : Z) (mem : bool) (v : sqlite3_value) : option result :=
  match v with
  | SQL_BLOB z =>
      let nv := Z.of_nat (length z) in
      let nc := 5 * (nv / 4) + nv mod 4 + nv / 64 + 1 + 2 in
      if nvMax <? nc then Some (ResultError (str "blob expanded to base85 too big"))
      else
        match sqlite3_value_blob z with
        | None => Some (ResultText [])
        | Some bBuf => if mem then Some (ResultText (toBase85 bBuf (Some [10]))) else Some (ResultError (str "base85 OOM"))
        end
  | SQL_TEXT z =>
      let nv := Z.of_nat (length z) in
      let nb := 4 * (nv / 5) + nv mod 5 in
      if nvMax <? nb then Some (ResultError (str "blob from base85 may be too big"))
      else if mem then option_map ResultBlob (fromBase85 z (length z))
      else Some (ResultError (str "base85 OOM"))
  | _ => Some (ResultError (str "base85 accepts only blob or text."))
  end.

(** ** Digits *)

Fixpoint digits85 (n : nat) (q : Z) : list Z :=
  match n with O => [] | S n => digits85 n (q / 85) ++ [base85Numeral (q mod 85)] end.

Lemma numeral85 v : 0 <= v < 85 -> let c := base85Numeral v in
  B85_DNOS c <> 0 /\ c - B85_DNOS c = v /\ IS_B85 c = true /\ c <> 0.
Proof.
  intros H. assert (C : forallb (fun k => let v := Z.of_nat k in let c := base85Numeral v in
    negb (B85_DNOS c =? 0) && (c - B85_DNOS c =? v) && IS_B85 c && negb (c =? 0)) (seq 0 85) = true) by (vm_compute; reflexivity).
  rewrite forallb_forall in C. specialize (C (Z.to_nat v)). rewrite in_seq, Z2Nat.id in C by lia. specialize (C ltac:(lia)).
  cbv zeta in *. rewrite !andb_true_iff, !negb_true_iff, !Z.eqb_neq, Z.eqb_eq in C. tauto.
Qed.

Lemma length_digits85 n q : length (digits85 n q) = n.
Proof. revert q. induction n as [|n IH]; intros q; cbn [digits85]; [reflexivity|]. rewrite length_app, IH. cbn. lia. Qed.

Lemma put_group_digits n : forall q out, 0 <= q < 2 ^ 32 -> put_group n q out = digits85 n q ++ out.
Proof.
  induction n as [|n IH]; intros q out H; cbn [put_group digits85]; [reflexivity|].
  assert (Hq : 0 <= q / 85 < 2 ^ 32) by (Z.to_euclidean_division_equations; lia).
  rewrite (u32_small (q / 85)) by (unfold is_u32; lia). rewrite IH, <- app_assoc by exact Hq. cbn [app]. do 3 f_equal.
  rewrite u8_small by (unfold is_byte; Z.to_euclidean_division_equations; lia). Z.to_euclidean_division_equations; lia.
Qed.

Lemma put_tail_digits n : forall q out, put_tail n q out = digits85 n q ++ out.
Proof.
  induction n as [|n IH]; intros q out; cbn [put_tail digits85]; [reflexivity|].
  rewrite IH, <- app_assoc. cbn [app]. do 3 f_equal. apply u8_small. pose proof (Z.mod_pos_bound q 85). unfold is_byte. lia.
Qed.

(** Digits are read back; the group may go on behind them. *)
Lemma read_digits n : forall m q v R nc, 0 <= q < 85 ^ Z.of_nat n ->
  digit_loop (n + m) (digits85 n q ++ R) (n + nc) v = digit_loop m R nc (v * 85 ^ Z.of_nat n + q).
Proof.
  induction n as [|n IH]; intros m q v R nc H.
  - cbn [digits85 app Nat.add]. change (85 ^ Z.of_nat 0) with 1 in *. f_equal. lia.
  - rewrite Nat2Z.inj_succ, Z.pow_succ_r in * by lia. cbn [digits85]. rewrite <- app_assoc. cbn [app].
    replace (S n + m)%nat with (n + S m)%nat by lia. replace (S n + nc)%nat with (n + S nc)%nat by lia.
    rewrite IH by (split; [apply Z.div_pos; lia | apply Z.div_lt_upper_bound; lia]).
    pose proof (Z.mod_pos_bound q 85 ltac:(lia)) as Hm. destruct (numeral85 _ Hm) as (N & V & _). cbv zeta in *.
    cbn [digit_loop nth tl]. rewrite (proj2 (Z.eqb_neq _ _) N), V, Nat.sub_succ, Nat.sub_0_r. f_equal.
    pose proof (Z.div_mod q 85). lia.
Qed.

Definition be_value (l : list Z) : Z := fold_left (fun q b => q * 256 + b) l 0.

Lemma be_value_range l : bytes l -> (length l <= 4)%nat -> 0 <= be_value l < 256 ^ Z.of_nat (length l).
Proof.
  intros Hb Hl. unfold be_value, bytes, is_byte in *.
  do 5 (destruct l as [|? l]; [cbn; repeat (apply Forall_cons_iff in Hb; destruct Hb as [? Hb]); lia|]). cbn in Hl. lia.
Qed.

(** The bytes of the value of a group. *)
Lemma group_bytes85_of l : bytes l -> (1 <= length l <= 4)%nat -> group_bytes85 (Z.of_nat (length l)) (be_value l) = l.
Proof.
  intros Hb Hl. unfold group_bytes85, be_value. change 0xff with (Z.ones 8).
  rewrite !Z.land_ones, !Z.shiftr_div_pow2 by lia. change (2 ^ 8) with 256. change (2 ^ 16) with 65536. change (2 ^ 24) with 16777216.
  unfold bytes, is_byte in Hb.
  do 5 (destruct l as [|? l]; [cbn [length] in Hl; try lia; repeat (apply Forall_cons_iff in Hb; destruct Hb as [? Hb]);
    cbn [length Z.of_nat Pos.of_succ_nat Pos.succ Z.eqb Pos.eqb fold_left]; repeat (f_equal; try (Z.to_euclidean_division_equations; lia))|]).
  cbn in Hl. lia.
Qed.

(** ** Texts of groups and line feeds *)

(** A group has one to four bytes; [None] is a line feed. *)
Definition token85_text (k : option (list Z)) : list Z :=
  match k with Some l => digits85 (S (length l)) (be_value l) | None => [10] end.
Definition text85 (ts : list (option (list Z))) : list Z := flat_map token85_text ts.
Definition bytes85 (ts : list (option (list Z))) : list Z := flat_map (fun k => match k with Some l => l | None => [] end) ts.

(** Short groups are followed by a line feed, or are the last ones. *)
Inductive well_formed : list (option (list Z)) -> Prop :=
  | wf_end : well_formed []
  | wf_feed ts : well_formed ts -> well_formed (None :: ts)
  | wf_full l ts : bytes l -> length l = 4%nat -> well_formed ts -> well_formed (Some l :: ts)
  | wf_short l ts : bytes l -> (1 <= length l <= 3)%nat -> well_formed ts -> well_formed (Some l :: None :: ts)
  | wf_last l : bytes l -> (1 <= length l <= 3)%nat -> well_formed [Some l].

Lemma value85 l : bytes l -> (1 <= length l <= 4)%nat -> 0 <= be_value l < 85 ^ Z.of_nat (S (length l)).
Proof.
  intros Hb Hl. pose proof (be_value_range l Hb ltac:(lia)) as R.
  assert (256 ^ Z.of_nat (length l) <= 85 ^ Z.of_nat (S (length l))); [|lia].
  destruct (length l) as [|[|[|[|[|]]]]]; try lia; vm_compute; discriminate.
Qed.

Lemma digits85_start k : forall q R, exists v U, 0 <= v < 85 /\ digits85 (S k) q ++ R = base85Numeral v :: U.
Proof.
  induction k as [|k IH]; intros q R.
  - exists (q mod 85), R. split; [apply Z.mod_pos_bound; lia | reflexivity].
  - change (digits85 (S (S k)) q) with (digits85 (S k) (q / 85) ++ [base85Numeral (q mod 85)]). rewrite <- app_assoc. apply IH.
Qed.

(** A group that starts here: nothing is skipped. *)
Lemma loop85_group l R fuel n out : bytes l -> (1 <= length l <= 4)%nat ->
  fromBase85_loop (S fuel) (digits85 (S (length l)) (be_value l) ++ R) (S (length l) + n) out =
  (let nti := if (5 <? S (length l) + n)%nat then 5%nat else (S (length l) + n)%nat in
   let '(pIn, ncIn, nti', qv) := digit_loop (nti - S (length l)) R n (be_value l) in
   fromBase85_loop fuel pIn ncIn (out ++ group_bytes85 (nboi85.[nti] - Z.of_nat nti') qv)).
Proof.
  intros Hb Hl. set (k := length l) in *. set (q := be_value l).
  assert (Hq : 0 <= q < 85 ^ Z.of_nat (S k)) by (apply value85; auto).
  destruct (digits85_start k q R) as (v & U & Hv & E). destruct (numeral85 v Hv) as (_ & _ & I & N0). cbv zeta in *.
  assert (Sk : skipNonB85 (digits85 (S k) q ++ R) (S k + n) = digits85 (S k) q ++ R).
  { rewrite E. cbn [Nat.add skipNonB85]. now rewrite I, andb_false_r. }
  cbn [fromBase85_loop]. rewrite Sk, Nat.sub_diag, Nat.sub_0_r. change (0 <? S k + n)%nat with true. cbv iota.
  set (nti := if (5 <? S k + n)%nat then 5%nat else (S k + n)%nat).
  assert (Hn : (S k <= nti <= 5)%nat) by (unfold nti; destruct (Nat.ltb_spec 5 (S k + n)); lia).
  destruct (Z.eqb_spec (nboi85.[nti]) 0) as [Z0|_].
  { exfalso. destruct nti as [|[|[|[|[|[|]]]]]]; try lia; discriminate. }
  replace nti with (S k + (nti - S k))%nat at 1 by lia. rewrite read_digits by exact Hq. now rewrite Z.mul_0_l, Z.add_0_l.
Qed.

Lemma length_skip85 s : forall nc, (length (skipNonB85 s nc) <= length s)%nat.
Proof.
  induction s as [|c s IH]; intros [|nc]; cbn [skipNonB85]; auto. destruct (_ && _); [|auto].
  specialize (IH nc). cbn [length]. lia.
Qed.

Lemma loop85_line_feed fuel T n out :
  fromBase85_loop (S fuel) (10 :: T) (S n) out = fromBase85_loop (S fuel) T n out.
Proof.
  cbn [fromBase85_loop]. change (0 <? S n)%nat with true. cbv iota.
  change (skipNonB85 (10 :: T) (S n)) with (skipNonB85 T n). pose proof (length_skip85 T n) as L.
  cbn [length]. replace (S n - (S (length T) - length (skipNonB85 T n)))%nat with (n - (length T - length (skipNonB85 T n)))%nat by lia.
  destruct n as [|n]; reflexivity.
Qed.

(** The loop on a well-formed text, with anything behind it. *)
Lemma tokens85_decoded ts : well_formed ts -> forall fuel T out, (length (text85 ts) < fuel)%nat ->
  fromBase85_loop fuel (text85 ts ++ T) (length (text85 ts)) out = Some (out ++ bytes85 ts).
Proof.
  induction 1 as [|ts _ IH|l ts Hb Hl _ IH|l ts Hb Hl _ IH|l Hb Hl]; intros fuel T out Hf; (destruct fuel as [|fuel]; [lia|]).
  - cbn. now rewrite app_nil_r.
  - unfold text85, bytes85 in *. cbn [flat_map token85_text app length] in *. rewrite loop85_line_feed. apply IH. lia.
  - unfold text85, bytes85 in *. cbn [flat_map token85_text] in *. rewrite length_app, length_digits85, <- app_assoc in *.
    rewrite loop85_group by (auto || lia). cbv zeta.
    replace (if (5 <? _)%nat then 5%nat else _) with 5%nat by (rewrite Hl; destruct (Nat.ltb_spec 5 (5 + length (flat_map token85_text ts))); lia).
    rewrite Hl. cbn [Nat.sub digit_loop]. change (nboi85.[5] - Z.of_nat 0) with (Z.of_nat 4). rewrite <- Hl, group_bytes85_of by (auto || lia).
    rewrite app_assoc. apply IH. lia.
  - unfold text85, bytes85 in *. cbn [flat_map token85_text] in *. rewrite length_app, length_digits85, <- app_assoc in *.
    cbn [app length] in *. rewrite loop85_group by (auto || lia). cbv zeta. set (n := length (flat_map token85_text ts)) in *.
    set (nti := if (5 <? S (length l) + S n)%nat then 5%nat else (S (length l) + S n)%nat).
    assert (Hn : (S (length l) < nti <= 5)%nat) by (unfold nti; destruct (Nat.ltb_spec 5 (S (length l) + S n)); lia).
    replace (nti - S (length l))%nat with (S (nti - S (S (length l)))) by lia. cbn [digit_loop nth tl].
    change (B85_DNOS 10 =? 0) with true. cbv iota. rewrite Nat.sub_succ, Nat.sub_0_r.
    replace (nboi85.[nti] - Z.of_nat (S (nti - S (S (length l))))) with (Z.of_nat (length l))
      by (destruct nti as [|[|[|[|[|[|]]]]]]; cbn [nboi85 nth]; lia).
    rewrite group_bytes85_of by (auto || lia). rewrite app_assoc. apply IH. lia.
  - unfold text85, bytes85 in *. cbn [flat_map token85_text] in *. rewrite !app_nil_r, length_digits85 in *.
    replace (S (length l)) with (S (length l) + 0)%nat at 2 by lia. rewrite loop85_group by (auto || lia). cbv zeta.
    destruct (Nat.ltb_spec 5 (S (length l) + 0)); [lia|]. rewrite Nat.add_0_r, Nat.sub_diag. cbn [digit_loop].
    destruct fuel as [|fuel]; [lia|]. cbn [fromBase85_loop Nat.ltb Nat.leb]. do 2 f_equal.
    replace (nboi85.[S (length l)] - Z.of_nat 0) with (Z.of_nat (length l))
      by (destruct (length l) as [|[|[|[|]]]]; cbn [nboi85 nth]; lia).
    apply group_bytes85_of; auto; lia.
Qed.

(** ** The tokens of the encoder *)

Fixpoint tokens85 (nCol : Z) (pIn : list Z) : list (option (list Z)) :=
  match pIn with
  | [] => if 0 <? nCol then [None] else []
  | a :: b :: c :: d :: pIn' =>
      if B85_DARK_MAX <=? nCol + 5 then Some [a; b; c; d] :: None :: tokens85 0 pIn' else Some [a; b; c; d] :: tokens85 (nCol + 5) pIn'
  | _ => [Some pIn; None]
  end.

Lemma four_induction (P : list Z -> Prop) :
  P [] -> (forall a, P [a]) -> (forall a b, P [a; b]) -> (forall a b c, P [a; b; c]) ->
  (forall a b c d l, P l -> P (a :: b :: c :: d :: l)) -> forall l, P l.
Proof.
  intros H0 H1 H2 H3 H4. fix IH 1. intros [|a [|b [|c [|d l]]]]; [exact H0 | apply H1 | apply H2 | apply H3 | apply H4, IH].
Qed.

Definition rest_text (rest : list Z) (nCol : Z) : list Z :=
  let '(tail, nCol) :=
    match rest with
    | [] => ([], nCol)
    | p0 :: rest' =>
        (put_tail (length rest + 1) (fold_left (fun qv b => Z.lor (Z.shiftl qv 8) b) rest' p0) [], nCol + Z.of_nat (length rest + 1))
    end in
  tail ++ (if 0 <? nCol then [10] else []).

Lemma join_byte q b : is_byte b -> Z.lor (Z.shiftl q 8) b = q * 256 + b.
Proof. intros H. unfold is_byte in H. rewrite Z.lor_comm, lor_shiftl by lia. lia. Qed.

Lemma rest_tokens rest nCol : bytes rest -> (1 <= length rest <= 3)%nat -> 0 <= nCol ->
  rest_text rest nCol = text85 [Some rest; None].
Proof.
  intros Hb Hl Hc. destruct rest as [|a rest]; [cbn in Hl; lia|]. unfold rest_text, text85. cbn [flat_map token85_text].
  destruct (Z.ltb_spec 0 (nCol + Z.of_nat (length (a :: rest) + 1))); [|lia]. rewrite put_tail_digits, Nat.add_comm, app_nil_r. cbn [Nat.add app].
  do 2 f_equal. unfold be_value. cbn [fold_left]. rewrite Z.mul_0_l, Z.add_0_l. apply Forall_inv_tail in Hb. clear - Hb. revert a.
  induction Hb as [|b rest Hb _ IH]; intros a; cbn [fold_left]; [reflexivity|]. now rewrite IH, join_byte.
Qed.

Lemma four_value a b c d : is_byte a -> is_byte b -> is_byte c -> is_byte d ->
  Z.lor (Z.lor (Z.lor (Z.shiftl a 24) (Z.shiftl b 16)) (Z.shiftl c 8)) d = be_value [a; b; c; d].
Proof.
  unfold is_byte. intros Ha Hb Hc Hd.
  rewrite (Z.lor_comm (Z.shiftl a 24)), (lor_shiftl 24) by (rewrite ?Z.shiftl_mul_pow2; lia).
  rewrite (Z.shiftl_mul_pow2 b) by lia. replace (b * 2 ^ 16 + a * 2 ^ 24) with (Z.shiftl (b + a * 2 ^ 8) 16) by (rewrite Z.shiftl_mul_pow2; lia).
  rewrite (Z.lor_comm (Z.shiftl _ 16)), (lor_shiftl 16) by (rewrite ?Z.shiftl_mul_pow2; lia).
  rewrite (Z.shiftl_mul_pow2 c) by lia.
  replace (c * 2 ^ 8 + (b + a * 2 ^ 8) * 2 ^ 16) with (Z.shiftl (c + (b + a * 2 ^ 8) * 2 ^ 8) 8) by (rewrite Z.shiftl_mul_pow2; lia).
  rewrite join_byte by (unfold is_byte; lia). unfold be_value. cbn [fold_left]. lia.
Qed.

Lemma loop85_tokens pIn : bytes pIn -> forall nCol, 0 <= nCol ->
  (let '(text, rest, nCol) := toBase85_loop (Some [10]) nCol pIn in text ++ rest_text rest nCol) = text85 (tokens85 nCol pIn)
  /\ bytes85 (tokens85 nCol pIn) = pIn.
Proof.
  induction pIn as [|a|a b|a b c|a b c d l IH] using four_induction; intros Hb nCol Hc.
  - cbn. destruct (0 <? nCol); split; reflexivity.
  - cbn [toBase85_loop tokens85 app]. split; [apply rest_tokens; auto; cbn; lia | reflexivity].
  - cbn [toBase85_loop tokens85 app]. split; [apply rest_tokens; auto; cbn; lia | reflexivity].
  - cbn [toBase85_loop tokens85 app]. split; [apply rest_tokens; auto; cbn; lia | reflexivity].
  - assert (Hq : bytes [a; b; c; d] /\ bytes l) by (apply bytes_app; exact Hb). destruct Hq as [Hq Hl]. specialize (IH Hl).
    assert (Eg : put_group 5 (Z.lor (Z.lor (Z.lor (Z.shiftl a 24) (Z.shiftl b 16)) (Z.shiftl c 8)) d) [] = token85_text (Some [a; b; c; d])).
    { pose proof (be_value_range _ Hq ltac:(cbn; lia)) as R. repeat (apply Forall_cons_iff in Hq; destruct Hq as [? Hq]).
      rewrite four_value by assumption. rewrite put_group_digits by exact R. apply app_nil_r. }
    cbn [toBase85_loop tokens85]. rewrite Eg. unfold text85, bytes85 in *. destruct (B85_DARK_MAX <=? nCol + 5).
    + destruct (IH 0 ltac:(lia)) as [E F]. destruct (toBase85_loop (Some [10]) 0 l) as [[text rest] k]. cbn [flat_map app].
      rewrite <- E, F, <- !app_assoc. split; reflexivity.
    + destruct (IH (nCol + 5) ltac:(lia)) as [E F]. destruct (toBase85_loop (Some [10]) (nCol + 5) l) as [[text rest] k]. cbn [flat_map app].
      rewrite <- E, F, <- !app_assoc. split; reflexivity.
Qed.

Lemma toBase85_tokens b : bytes b -> toBase85 b (Some [10]) = text85 (tokens85 0 b).
Proof.
  intros H. rewrite <- (proj1 (loop85_tokens b H 0 ltac:(lia))). unfold toBase85, rest_text.
  destruct (toBase85_loop (Some [10]) 0 b) as [[text rest] k]. now destruct rest.
Qed.

Lemma tokens85_wf b : bytes b -> forall nCol ts, well_formed ts -> well_formed (tokens85 nCol b ++ ts).
Proof.
  induction b as [|a|a b|a b c|a b c d l IH] using four_induction; intros Hb nCol ts Ht.
  - cbn [tokens85]. destruct (0 <? nCol); [now apply wf_feed | exact Ht].
  - apply wf_short; auto; cbn; lia.
  - apply wf_short; auto; cbn; lia.
  - apply wf_short; auto; cbn; lia.
  - assert (Hq : bytes [a; b; c; d] /\ bytes l) by (apply bytes_app; exact Hb). destruct Hq as [Hq Hl].
    cbn [tokens85]. destruct (_ <=? _); cbn [app]; apply wf_full; auto. apply wf_feed. auto.
Qed.

Lemma wf_strip ts : well_formed ts -> forall us, ts = us ++ [None] -> well_formed us.
Proof.
  induction 1 as [|ts _ IH|l ts Hb Hl _ IH|l ts Hb Hl W IH|l Hb Hl]; intros us E.
  - destruct us; discriminate.
  - destruct us as [|u us]; [constructor|]. inversion E; subst. constructor. now apply IH.
  - destruct us as [|u us]; [discriminate|]. inversion E; subst. constructor; auto.
  - destruct us as [|u [|u' us]]; [discriminate | |]; inversion E; subst.
    + now apply wf_last.
    + apply wf_short; auto.
  - destruct us as [|u [|]]; discriminate.
Qed.

Lemma tokens85_end b : b <> [] -> bytes b -> forall nCol, 0 <= nCol -> exists us, tokens85 nCol b = us ++ [None].
Proof.
  induction b as [|a|a b|a b c|a b c d l IH] using four_induction; intros Hn Hb nCol Hc; [congruence | | | |].
  1, 2, 3: eexists [Some _]; reflexivity.
  assert (Hl : bytes l) by (do 4 apply Forall_inv_tail in Hb; exact Hb).
  assert (G : forall k, 0 <= k -> l <> [] \/ 0 < k -> exists us, tokens85 k l = us ++ [None]).
  { intros k Hk Hor. destruct (list_eq_dec Z.eq_dec l []) as [-> | N]; [|now apply IH]. exists []. cbn.
    destruct (Z.ltb_spec 0 k); [reflexivity | destruct Hor; [congruence | lia]]. }
  cbn [tokens85]. destruct (_ <=? _).
  - destruct (list_eq_dec Z.eq_dec l []) as [-> | N]; [now exists [Some [a; b; c; d]]|].
    destruct (G 0 ltac:(lia) (or_introl N)) as [us ->]. now exists (Some [a; b; c; d] :: None :: us).
  - assert (P : 0 < nCol + 5) by lia. destruct (G (nCol + 5) ltac:(lia) (or_intror P)) as [us ->]. now exists (Some [a; b; c; d] :: us).
Qed.

Lemma fromBase85_tokens ts : well_formed ts -> ts = [] \/ (exists us, ts = us ++ [None]) ->
  fromBase85 (text85 ts) (length (text85 ts)) = Some (bytes85 ts).
Proof.
  intros Ht [-> | [us ->]]; [reflexivity|]. pose proof (wf_strip _ Ht us eq_refl) as Hu.
  assert (Ex : text85 (us ++ [None]) = text85 us ++ [10]) by (unfold text85; now rewrite flat_map_app).
  unfold fromBase85. rewrite Ex, length_app. cbn [length].
  replace ((0 <? length (text85 us) + 1)%nat) with true by (symmetry; apply Nat.ltb_lt; lia).
  replace (length (text85 us) + 1 - 1)%nat with (length (text85 us)) by lia. rewrite nth_middle. cbn [Z.eqb Pos.eqb andb].
  rewrite tokens85_decoded by (auto || lia). cbn [app]. unfold bytes85. now rewrite flat_map_app, app_nil_r.
Qed.

(** ** Sizes *)

Lemma length_tokens85 b : bytes b -> forall nCol, 0 <= nCol < B85_DARK_MAX -> nCol mod 5 = 0 ->
  let n := Z.of_nat (length b) in
  Z.of_nat (length (text85 (tokens85 nCol b)))
  = 5 * (n / 4) + (if n mod 4 =? 0 then 0 else n mod 4 + 1) + (4 * (nCol / 5) + n + 63) / 64.
Proof.
  induction b as [|a|a b|a b c|a b c d l IH] using four_induction; intros Hb nCol Hc Hm; unfold B85_DARK_MAX in *.
  - cbn [tokens85 length]. change (Z.of_nat 0) with 0. change (0 mod 4 =? 0) with true. change (0 / 4) with 0. cbv zeta iota.
    destruct (Z.ltb_spec 0 nCol); cbn [text85 flat_map token85_text app length]; Z.to_euclidean_division_equations; lia.
  - change (3 = 0 + 2 + (4 * (nCol / 5) + 1 + 63) / 64). Z.to_euclidean_division_equations; lia.
  - change (4 = 0 + 3 + (4 * (nCol / 5) + 2 + 63) / 64). Z.to_euclidean_division_equations; lia.
  - change (5 = 0 + 4 + (4 * (nCol / 5) + 3 + 63) / 64). Z.to_euclidean_division_equations; lia.
  - assert (Hl : bytes l) by (do 4 apply Forall_inv_tail in Hb; exact Hb). cbv zeta.
    set (n := Z.of_nat (length l)) in *. assert (En : Z.of_nat (length (a :: b :: c :: d :: l)) = n + 1 * 4) by (cbn [length]; lia).
    rewrite En, Z.mod_add, Z.div_add by lia. cbn [tokens85]. unfold B85_DARK_MAX, text85 in *.
    destruct (Z.leb_spec 80 (nCol + 5)); cbn [flat_map]; rewrite ?length_app; cbn [token85_text]; rewrite length_digits85; cbn [length Nat.add].
    + specialize (IH Hl 0 ltac:(lia) eq_refl). cbv zeta in IH. fold n in IH. change (0 / 5) with 0 in IH.
      destruct (n mod 4 =? 0); Z.to_euclidean_division_equations; lia.
    + specialize (IH Hl (nCol + 5) ltac:(lia) ltac:(Z.to_euclidean_division_equations; lia)). cbv zeta in IH. fold n in IH.
      destruct (n mod 4 =? 0); Z.to_euclidean_division_equations; lia.
Qed.

(** Digits and line feeds pass the check. *)
Lemma all85_digits k : forall q R, allBase85 (digits85 k q ++ R) = allBase85 R.
Proof.
  induction k as [|k IH]; intros q R; [reflexivity|]. cbn [digits85]. rewrite <- app_assoc, IH. cbn [app allBase85].
  destruct (numeral85 (q mod 85)) as (_ & _ & -> & N0); [apply Z.mod_pos_bound; lia|].
  now rewrite (proj2 (Z.eqb_neq _ _) N0).
Qed.

Lemma all85_text ts : allBase85 (text85 ts) = true.
Proof.
  induction ts as [|[l|] ts IH]; [reflexivity | |exact IH]. unfold text85. cbn [flat_map token85_text]. now rewrite all85_digits.
Qed.

(** C20: Base85 of the shell can be concatenated: for any blobs, the encoded texts, each ended by
    its line feed, one behind the other are decoded to the blobs one behind the other; each text
    passes is_base85(), and with its final zero it fits the bytes that are allocated for it. *)
Theorem base85_concat bs :
  Forall bytes bs ->
  let text := concat (map (fun b => toBase85 b (Some [10])) bs) in
  fromBase85 text (length text) = Some (concat bs)
  /\ Forall (fun b => let nv := Z.of_nat (length b) in
       is_base85 (SQL_TEXT (toBase85 b (Some [10]))) = inr (Some 1)
       /\ Z.of_nat (length (toBase85 b (Some [10]))) + 1 <= 5 * (nv / 4) + nv mod 4 + nv / 64 + 1 + 2) bs.
Proof.
  intros H text. split.
  - set (ts := flat_map (tokens85 0) bs).
    assert (E : text = text85 ts /\ concat bs = bytes85 ts /\ well_formed ts /\ (ts = [] \/ exists us, ts = us ++ [None])).
    { unfold text, ts, text85, bytes85. clear text ts. induction H as [|b bs Hb _ IH]; [repeat split; [constructor | now left]|].
      destruct IH as (E & F & G & K). destruct (loop85_tokens b Hb 0 ltac:(lia)) as (_ & Fb). unfold bytes85 in Fb. cbn [map concat flat_map].
      rewrite !flat_map_app, E, F, Fb, toBase85_tokens by exact Hb. split_and; [reflexivity..| now apply tokens85_wf |].
      destruct K as [-> | [us ->]].
      - rewrite app_nil_r. destruct b as [|x b]; [now left | right; apply tokens85_end; [discriminate | exact Hb | lia]].
      - right. exists (tokens85 0 b ++ us). apply app_assoc. }
    destruct E as (-> & -> & G & K). now apply fromBase85_tokens.
  - revert H. apply Forall_impl. intros b Hb nv. rewrite toBase85_tokens by exact Hb. unfold is_base85. rewrite all85_text.
    split; [reflexivity|]. pose proof (length_tokens85 b Hb 0 ltac:(unfold B85_DARK_MAX; lia) eq_refl) as L. cbv zeta in L. rewrite L.
    fold nv. change (0 / 5) with 0. destruct (Z.eqb_spec (nv mod 4) 0); Z.to_euclidean_division_equations; lia.
Qed.

Lemma base85_concat_witness :
  let text := toBase85 [1; 2; 3; 4; 5] (Some [10]) ++ toBase85 [6] (Some [10]) in
  fromBase85 text (length text) = Some [1; 2; 3; 4; 5; 6].
Proof.
  apply (base85_concat [[1; 2; 3; 4; 5]; [6]]).
  apply Forall_cons; [|apply Forall_cons; [|apply Forall_nil]]; apply bytesb_bytes; reflexivity.
Defined.

(** ** Any text *)

Lemma digit_loop_counts nti : forall p nc v, (nti <= nc)%nat ->
  let '(_, nc', nti', _) := digit_loop nti p nc v in (nti' <= nti /\ nc' + (nti - nti') <= nc /\ (1 <= nti -> nc' < nc))%nat.
Proof.
  induction nti as [|nti IH]; intros p nc v H; cbn [digit_loop]; [lia|]. destruct (_ =? 0); [lia|].
  specialize (IH (tl p) (nc - 1)%nat (85 * v + (p.[0] - B85_DNOS p.[0])) ltac:(lia)).
  destruct (digit_loop nti (tl p) (nc - 1) _) as [[[p' nc'] nti'] v']. lia.
Qed.

Lemma length_group_bytes85 nbo qv : nbo <= 4 -> Z.of_nat (length (group_bytes85 nbo qv)) = Z.max 0 nbo.
Proof.
  intros H. unfold group_bytes85. destruct (Z.eqb_spec nbo 4), (Z.eqb_spec nbo 3), (Z.eqb_spec nbo 2), (Z.eqb_spec nbo 1); cbn [length]; lia.
Qed.

Lemma loop85_bounded fuel : forall pIn ncIn out, (ncIn < fuel)%nat ->
  exists r, fromBase85_loop fuel pIn ncIn out = Some r
    /\ Z.of_nat (length r) <= Z.of_nat (length out) + (4 * (Z.of_nat ncIn / 5) + Z.of_nat ncIn mod 5).
Proof.
  induction fuel as [|fuel IH]; intros pIn ncIn out Hf; [lia|]. cbn [fromBase85_loop].
  assert (Dn : 0 <= 4 * (Z.of_nat ncIn / 5) + Z.of_nat ncIn mod 5) by (Z.to_euclidean_division_equations; lia).
  destruct (0 <? ncIn)%nat; [|exists out; split; [reflexivity | lia]]. set (p := skipNonB85 pIn ncIn).
  set (m := (ncIn - (length pIn - length p))%nat). set (nti := if (5 <? m)%nat then 5%nat else m).
  assert (Hm : (m <= ncIn)%nat) by (unfold m; lia).
  assert (Hn : (nti <= 5)%nat /\ (nti <= m)%nat) by (unfold nti; destruct (Nat.ltb_spec 5 m); lia).
  destruct (Z.eqb_spec (nboi85.[nti]) 0) as [E0|E0]; [exists out; split; [reflexivity | lia]|].
  assert (Eb : nboi85.[nti] = Z.of_nat nti - 1 /\ (2 <= nti)%nat)
    by (destruct nti as [|[|[|[|[|[|]]]]]]; try lia; try (now contradict E0); split; (reflexivity || lia)).
  pose proof (digit_loop_counts nti p m 0 ltac:(lia)) as C. destruct (digit_loop nti p m 0) as [[[p' nc'] nti'] v'].
  destruct (IH p' nc' (out ++ group_bytes85 (nboi85.[nti] - Z.of_nat nti') v')) as (r & -> & R); [lia|].
  exists r. split; [reflexivity|]. rewrite length_app, Nat2Z.inj_add, length_group_bytes85 in R by lia. rewrite (proj1 Eb) in R.
  clear - R Hn Hm C Eb. Z.to_euclidean_division_equations; lia.
Qed.

(** C21: No text makes the decoders write outside of their buffers: decoding of base64 and of base85
    ends for every text, whatever its bytes, with at most as many bytes as the SQL functions
    allocate; the pointer for the output is never moved in front of the buffer. *)
Theorem decoders_bounded z :
  let nv := Z.of_nat (length z) in
  (exists r, fromBase64 z (length z) = Some r /\ Z.of_nat (length r) <= Z.max 1 (3 * ((nv + 3) / 4)))
  /\ (exists r, fromBase85 z (length z) = Some r /\ Z.of_nat (length r) <= Z.max 1 (4 * (nv / 5) + nv mod 5)).
Proof.
  intros nv. split.
  - destruct (fromBase64_bounded z) as (r & E & L). exists r. split; [exact E | fold nv in L; lia].
  - unfold fromBase85. set (n := if _ && _ then (_ - 1)%nat else _).
    assert (Hn : (n <= length z)%nat) by (unfold n; destruct (_ && _); lia).
    destruct (loop85_bounded (S n) z n [] ltac:(lia)) as (r & -> & R). exists r. split; [reflexivity|]. cbn [length Z.of_nat] in R.
    unfold nv. clear - R Hn. Z.to_euclidean_division_equations; lia.
Qed.
