(* ===== verification/HashTable.v ===== *)
(** * The hash table of SQLite

    Model of hash.c: all elements are on one doubly linked list, and a bucket is a number of
    elements together with a pointer to the first of them on that list.  The elements are in a
    store that is addressed by pointers, 0 being the null pointer, and every write to a [next],
    [prev] or [chain] field is a step of the model.  Whether memory can be allocated, and how much
    more than asked for, are arguments.  The main result is that the table refines a map whose
    keys are compared without regard to case. *)

From Stdlib Require Import ZArith Lia List Bool.
From S2P Require Import Prelude ScText.
Import ListNotations.
Local Open Scope Z_scope.

(** ** Data *)

Record HashElem := mkElem { next : nat; prev : nat; data : Z; pKey : list Z; h : Z }.

(** The store of elements, by address. *)
Definition store : Type := nat -> HashElem.

Record _ht := mkHt { ht_count : nat; chain : nat }.

(** [ht] is empty where the code has a null pointer. *)
Record Hash := mkHash { htsize : nat; count : nat; first : nat; ht : list _ht }.

Definition put (a : nat) (e : HashElem) (s : store) : store := fun x => if (x =? a)%nat then e else s x.
Definition set_next (a v : nat) (s : store) : store := let e := s a in put a (mkElem v (prev e) (data e) (pKey e) (h e)) s.
Definition set_prev (a v : nat) (s : store) : store := let e := s a in put a (mkElem (next e) v (data e) (pKey e) (h e)) s.

Definition sqlite3HashInit : Hash := mkHash 0 0 0 [].

(** All elements are released. *)
Definition sqlite3HashClear (pH : Hash) : Hash := mkHash 0 0 0 [].

Definition strHash (z : list Z) : Z := fold_left (fun h c => u32 (u32 (h + Z.land 0xdf c) * 0x9e3779b1)) z 0.

Definition entry (pH : Hash) (i : nat) : _ht := nth i (ht pH) (mkHt 0 0).
Fixpoint replace (i : nat) (e : _ht) (l : list _ht) {struct l} : list _ht :=
  match l, i with
  | [], _ => []
  | _ :: l, O => e :: l
  | x :: l, S i => x :: replace i e l
  end.

(** ** Operations *)

(** [pEntry] is the number of the bucket, if there are buckets. *)
Definition insertElement (s : store) (pH : Hash) (pEntry : option nat) (pNew : nat) : store * Hash :=
  let '(pHead, pH) :=
    match pEntry with
    | Some i =>
        let e := entry pH i in
        (if (0 <? ht_count e)%nat then chain e else 0%nat,
         mkHash (htsize pH) (count pH) (first pH) (replace i (mkHt (S (ht_count e)) pNew) (ht pH)))
    | None => (0%nat, pH)
    end in
  if (0 <? pHead)%nat then
    let s := set_next pNew pHead s in
    let s := set_prev pNew (prev (s pHead)) s in
    let '(s, pH) :=
      if (0 <? prev (s pHead))%nat then (set_next (prev (s pHead)) pNew s, pH)
      else (s, mkHash (htsize pH) (count pH) pNew (ht pH)) in
    (set_prev pHead pNew s, pH)
  else
    let s := set_next pNew (first pH) s in
    let s := if (0 <? first pH)%nat then set_prev (first pH) pNew s else s in
    let s := set_prev pNew 0 s in
    (s, mkHash (htsize pH) (count pH) pNew (ht pH)).

Definition SQLITE_MALLOC_SOFT_LIMIT : nat := 1024.
Definition sizeof_ht : nat := 16.

(** The loop over the old list; there are [count] elements on it. *)
Fixpoint rehash_loop (fuel : nat) (s : store) (pH : Hash) (elem : nat) : store * Hash :=
  match fuel with
  | O => (s, pH)
  | S fuel =>
      if (0 <? elem)%nat then
        let next_elem := next (s elem) in
        let '(s, pH) := insertElement s pH (Some (Z.to_nat (h (s elem)) mod htsize pH)%nat) elem in
        rehash_loop fuel s pH next_elem
      else (s, pH)
  end.

(** [mem] is by how many entries the new table is larger than asked for, or nothing if it cannot
    be allocated; [n] is the number of elements on the list. *)
Definition rehash (mem : option nat) (n : nat) (s : store) (pH : Hash) (new_size : nat) : store * Hash :=
  let new_size :=
    if (SQLITE_MALLOC_SOFT_LIMIT <? new_size * sizeof_ht)%nat then (SQLITE_MALLOC_SOFT_LIMIT / sizeof_ht)%nat else new_size in
  if (new_size =? htsize pH)%nat then (s, pH)
  else
    match mem with
    | None => (s, pH)
    | Some extra =>
        let new_size := (new_size + extra)%nat in
        rehash_loop n s (mkHash new_size (count pH) 0 (repeat (mkHt 0 0) new_size)) (first pH)
    end.

(** The walk along [count] elements; 0 is the null element. *)
Fixpoint find_loop (s : store) (count : nat) (elem : nat) (hash : Z) (key : list Z) : nat :=
  match count with
  | O => 0%nat
  | S count =>
      if (hash =? h (s elem)) && (sqlite3StrICmp (pKey (s elem)) key =? 0) then elem
      else find_loop s count (next (s elem)) hash key
  end.

Definition findElementWithHash (s : store) (pH : Hash) (key : list Z) : nat * Z :=
  let hash := strHash key in
  let '(elem, n) :=
    match ht pH with
    | [] => (first pH, count pH)
    | _ => let e := entry pH (Z.to_nat hash mod htsize pH)%nat in (chain e, ht_count e)
    end in
  (find_loop s n elem hash key, hash).

Definition removeElement (s : store) (pH : Hash) (elem : nat) : store * Hash :=
  let e := s elem in
  let '(s, pH) :=
    if (0 <? prev e)%nat then (set_next (prev e) (next e) s, pH)
    else (s, mkHash (htsize pH) (count pH) (next e) (ht pH)) in
  let s := if (0 <? next e)%nat then set_prev (next e) (prev e) s else s in
  let pH :=
    match ht pH with
    | [] => pH
    | _ =>
        let i := (Z.to_nat (h e) mod htsize pH)%nat in
        let b := entry pH i in
        let c := if (chain b =? elem)%nat then next e else chain b in
        mkHash (htsize pH) (count pH) (first pH) (replace i (mkHt (ht_count b - 1) c) (ht pH))
    end in
  let pH := mkHash (htsize pH) (count pH - 1) (first pH) (ht pH) in
  if (count pH =? 0)%nat then (s, sqlite3HashClear pH) else (s, pH).

(** The data of an element; the null element has none. *)
Definition data_of (s : store) (elem : nat) : Z := if (elem =? 0)%nat then 0 else data (s elem).

Definition sqlite3HashFind (s : store) (pH : Hash) (key : list Z) : Z := data_of s (fst (findElementWithHash s pH key)).

(** The table with its store, and the first address that was never handed out. *)
Record table := mkTable { t_store : store; t_hash : Hash; t_brk : nat }.

(** [mem_elem] and [mem_ht] say whether a new element and a new table can be allocated. *)
Definition sqlite3HashInsert (mem_elem : bool) (mem_ht : option nat) (t : table) (key : list Z) (d : Z) : table * Z :=
  let s := t_store t in
  let pH := t_hash t in
  let '(elem, hash) := findElementWithHash s pH key in
  if negb (data_of s elem =? 0) then
    let old_data := data_of s elem in
    if d =? 0 then let '(s, pH) := removeElement s pH elem in (mkTable s pH (t_brk t), old_data)
    else (mkTable (put elem (mkElem (next (s elem)) (prev (s elem)) d key (h (s elem))) s) pH (t_brk t), old_data)
  else if d =? 0 then (t, 0)
  else if negb mem_elem then (t, d)
  else
    let new_elem := t_brk t in
    let s := put new_elem (mkElem 0 0 d key hash) s in
    let pH := mkHash (htsize pH) (S (count pH)) (first pH) (ht pH) in
    let '(s, pH) :=
      if (5 <=? count pH)%nat && (2 * htsize pH <? count pH)%nat then rehash mem_ht (count pH - 1) s pH (count pH * 3) else (s, pH) in
    let '(s, pH) :=
      insertElement s pH (match ht pH with [] => None | _ => Some (Z.to_nat (h (s new_elem)) mod htsize pH)%nat end) new_elem in
    (mkTable s pH (S new_elem), 0).

(** ** The linked list *)

Definition front (l : list nat) (q : nat) : nat := match l with [] => q | a :: _ => a end.

(** The elements [l] are linked in both directions, between [p] and [q]. *)
Fixpoint linked (s : store) (p : nat) (l : list nat) (q : nat) : Prop :=
  match l with
  | [] => True
  | a :: l => prev (s a) = p /\ next (s a) = front l q /\ linked s a l q
  end.

(** Only links were changed, and only those of the elements [l]. *)
Definition payload (e : HashElem) : Z * list Z * Z := (data e, pKey e, h e).
Definition relinked (l : list nat) (s s' : store) : Prop :=
  (forall a, payload (s' a) = payload (s a)) /\ forall a, ~ In a l -> s' a = s a.

Lemma put_eq a e s : put a e s a = e.
Proof. unfold put. now rewrite Nat.eqb_refl. Qed.

Lemma put_ne a e s x : x <> a -> put a e s x = s x.
Proof. intros H. unfold put. now rewrite (proj2 (Nat.eqb_neq x a)). Qed.

Lemma relinked_refl l s : relinked l s s.
Proof. split; auto. Qed.

Lemma relinked_trans l s s' s'' : relinked l s s' -> relinked l s' s'' -> relinked l s s''.
Proof. intros [A B] [C D]. split; intros a; [now rewrite C | intros H; now rewrite D, B]. Qed.

Lemma relinked_incl l l' s s' : incl l l' -> relinked l s s' -> relinked l' s s'.
Proof. intros H [A B]. split; [exact A|]. intros a Ha. apply B. intros K. now apply Ha, H. Qed.

Lemma set_next_relinked l a v s : In a l -> relinked l s (set_next a v s).
Proof.
  intros H. unfold set_next. split; intros b; destruct (Nat.eq_dec b a) as [-> | N].
  - now rewrite put_eq.
  - now rewrite put_ne.
  - contradiction.
  - intros _. now rewrite put_ne.
Qed.

Lemma set_prev_relinked l a v s : In a l -> relinked l s (set_prev a v s).
Proof.
  intros H. unfold set_prev. split; intros b; destruct (Nat.eq_dec b a) as [-> | N].
  - now rewrite put_eq.
  - now rewrite put_ne.
  - contradiction.
  - intros _. now rewrite put_ne.
Qed.

Lemma next_set_next a v s x : next (set_next a v s x) = if (x =? a)%nat then v else next (s x).
Proof. unfold set_next, put. now destruct (Nat.eqb_spec x a) as [-> |]. Qed.
Lemma prev_set_next a v s x : prev (set_next a v s x) = prev (s x).
Proof. unfold set_next, put. now destruct (Nat.eqb_spec x a) as [-> |]. Qed.
Lemma next_set_prev a v s x : next (set_prev a v s x) = next (s x).
Proof. unfold set_prev, put. now destruct (Nat.eqb_spec x a) as [-> |]. Qed.
Lemma prev_set_prev a v s x : prev (set_prev a v s x) = if (x =? a)%nat then v else prev (s x).
Proof. unfold set_prev, put. now destruct (Nat.eqb_spec x a) as [-> |]. Qed.

(** Reads of links after writes of links. *)
Ltac links := repeat first [rewrite next_set_next | rewrite prev_set_next | rewrite next_set_prev | rewrite prev_set_prev].

Lemma linked_frame s s' l : forall p q, (forall a, In a l -> next (s' a) = next (s a) /\ prev (s' a) = prev (s a)) ->
  linked s p l q -> linked s' p l q.
Proof.
  induction l as [|a l IH]; intros p q H L; [exact I|]. destruct L as (A & B & C). cbn [linked]. destruct (H a (or_introl eq_refl)) as [-> ->].
  split_and; auto. apply IH; auto. intros b Hb. apply H. now right.
Qed.

Lemma last_front {A} (l : list A) : forall a p, last (a :: l) p = last l a.
Proof.
  induction l as [|b l IH]; intros a p; [reflexivity|]. change (last (a :: b :: l) p) with (last (b :: l) p). now rewrite !IH.
Qed.

Lemma linked_app s l1 : forall l2 p q, linked s p (l1 ++ l2) q <-> linked s p l1 (front l2 q) /\ linked s (last l1 p) l2 q.
Proof.
  induction l1 as [|a l1 IH]; intros l2 p q; cbn [app linked]; [tauto|]. rewrite IH.
  assert (F : front (l1 ++ l2) q = front l1 (front l2 q)) by now destruct l1.
  rewrite F, last_front. tauto.
Qed.

Lemma linked_snoc s l z p q : linked s p (l ++ [z]) q <-> linked s p l z /\ prev (s z) = last l p /\ next (s z) = q.
Proof. rewrite linked_app. cbn [linked front]. tauto. Qed.

Lemma last_snoc {A} (l : list A) z p : last (l ++ [z]) p = z.
Proof. apply last_last. Qed.

Lemma list_snoc {A} (l : list A) : l = [] \/ exists l0 z, l = l0 ++ [z].
Proof. destruct l as [|a l]; [now left|]. right. destruct (exists_last (l := a :: l)) as (l0 & z & E); [discriminate | now exists l0, z]. Qed.

(** A new element in front of the list. *)
Lemma link_front s l a : ~ In a l -> ~ In 0%nat (a :: l) -> NoDup l -> linked s 0 l 0 ->
  let s1 := set_next a (front l 0) s in
  let s2 := if (0 <? front l 0)%nat then set_prev (front l 0) a s1 else s1 in
  let s3 := set_prev a 0 s2 in
  linked s3 0 (a :: l) 0 /\ relinked (a :: l) s s3.
Proof.
  intros Ha H0 Hd L s1 s2 s3. split.
  - cbn [linked]. unfold s3, s2, s1. destruct l as [|y l]; cbn [front] in *.
    + cbn [Nat.ltb Nat.leb]. links. rewrite Nat.eqb_refl. split_and; auto.
    + assert (y <> 0%nat /\ y <> a) as [Y0 Ya] by (split; intros ->; [apply H0; right; now left | apply Ha; now left]).
      destruct (Nat.ltb_spec 0 y); [|lia]. destruct L as (P & N & L). cbn [linked]. links. rewrite !Nat.eqb_refl.
      rewrite (proj2 (Nat.eqb_neq y a) Ya). split_and; auto. revert L. apply linked_frame. intros b Hb. links.
      assert (b <> a) by (intros ->; apply Ha; now right). assert (b <> y) by (intros ->; now apply NoDup_cons_iff in Hd).
      rewrite (proj2 (Nat.eqb_neq b a)), (proj2 (Nat.eqb_neq b y)) by assumption. auto.
  - unfold s3, s2, s1. eapply relinked_trans; [apply (set_next_relinked _ a); now left|].
    eapply relinked_trans; [|apply set_prev_relinked; now left].
    destruct (0 <? front l 0)%nat eqn:E; [|apply relinked_refl]. apply set_prev_relinked. right.
    destruct l as [|y l]; [discriminate | now left].
Qed.

(** A new element in front of the element [y]. *)
Lemma link_before s l1 y l2 a : let l := l1 ++ y :: l2 in ~ In a l -> ~ In 0%nat (a :: l) -> NoDup l -> linked s 0 l 0 ->
  let s1 := set_next a y s in
  let s2 := set_prev a (prev (s1 y)) s1 in
  let s3 := if (0 <? prev (s2 y))%nat then set_next (prev (s2 y)) a s2 else s2 in
  let s4 := set_prev y a s3 in
  linked s4 0 (l1 ++ a :: y :: l2) 0 /\ relinked (a :: l) s s4 /\ prev (s2 y) = last l1 0%nat.
Proof.
  intros l Ha H0 Hd L s1 s2 s3 s4. pose proof L as L'. unfold l in L'. apply linked_app in L'. cbn [front linked] in L'.
  destruct L' as (L1 & Py & Ny & L2).
  assert (Ya : y <> a) by (intros ->; apply Ha, in_or_app; right; now left).
  assert (P2 : prev (s2 y) = last l1 0%nat).
  { unfold s2, s1. links. rewrite (proj2 (Nat.eqb_neq y a) Ya). exact Py. }
  assert (D1 : forall b, In b l1 -> b <> a /\ b <> y).
  { intros b Hb. split; intros ->; [apply Ha, in_or_app; now left|]. apply (NoDup_remove_2 l1 l2 y Hd), in_or_app. now left. }
  assert (D2 : forall b, In b l2 -> b <> a /\ b <> y /\ ~ In b l1).
  { intros b Hb. split_and; [intros ->; apply Ha, in_or_app; right; now right | intros ->; apply (NoDup_remove_2 l1 l2 y Hd), in_or_app; now right |].
    intros K. apply in_split in K. destruct K as (u & v & ->). unfold l in Hd. rewrite <- app_assoc in Hd. cbn [app] in Hd.
    apply NoDup_remove_2 in Hd. apply Hd, in_or_app. right. apply in_or_app. right. now right. }
  split_and; [| |exact P2].
  - assert (S3 : s3 = if (0 <? last l1 0)%nat then set_next (last l1 0%nat) a s2 else s2) by (unfold s3; now rewrite P2).
    apply linked_app. cbn [front linked]. unfold s4. rewrite S3. unfold s2, s1. clear s2 s3 s4 P2 S3 s1.
    destruct (list_snoc l1) as [-> | (l0 & z & ->)].
    + cbn [last Nat.ltb Nat.leb linked]. cbn [last] in Py. links. rewrite !Nat.eqb_refl, (proj2 (Nat.eqb_neq y a) Ya), (proj2 (Nat.eqb_neq a y)) by congruence.
      split_and; auto. revert L2. apply linked_frame. intros b Hb. destruct (D2 b Hb) as (B1 & B2 & _). links.
      now rewrite (proj2 (Nat.eqb_neq b a)), (proj2 (Nat.eqb_neq b y)).
    + rewrite !last_snoc in *. assert (Hz : In z (l0 ++ [z])) by (apply in_or_app; right; now left). destruct (D1 z Hz) as [Za Zy].
      assert (Z0 : z <> 0%nat) by (intros ->; apply H0; right; apply in_or_app; now left). destruct (Nat.ltb_spec 0 z); [|lia].
      apply linked_snoc in L1. destruct L1 as (L0 & Pz & Nz). rewrite linked_snoc. links.
      rewrite !Nat.eqb_refl, (proj2 (Nat.eqb_neq y a) Ya), (proj2 (Nat.eqb_neq a y)), (proj2 (Nat.eqb_neq z a)), (proj2 (Nat.eqb_neq z y)),
        (proj2 (Nat.eqb_neq a z)), (proj2 (Nat.eqb_neq y z)) by congruence.
      split_and; auto.
      * revert L0. apply linked_frame. intros b Hb. destruct (D1 b (in_or_app _ _ _ (or_introl Hb))) as [B1 B2]. links.
        assert (b <> z). { intros ->. unfold l in Hd. rewrite <- app_assoc in Hd. apply NoDup_remove_2 in Hd. apply Hd, in_or_app. now left. }
        now rewrite (proj2 (Nat.eqb_neq b a)), (proj2 (Nat.eqb_neq b y)), (proj2 (Nat.eqb_neq b z)).
      * revert L2. apply linked_frame. intros b Hb. destruct (D2 b Hb) as (B1 & B2 & B3). links.
        assert (b <> z) by (intros ->; now apply B3).
        now rewrite (proj2 (Nat.eqb_neq b a)), (proj2 (Nat.eqb_neq b y)), (proj2 (Nat.eqb_neq b z)).
  - unfold s4, s3. rewrite P2. unfold s2, s1. eapply relinked_trans; [apply (set_next_relinked _ a); now left|].
    eapply relinked_trans; [apply (set_prev_relinked _ a); now left|].
    eapply relinked_trans; [|apply (set_prev_relinked _ y); right; apply in_or_app; right; now left].
    destruct (0 <? last l1 0)%nat eqn:E; [|apply relinked_refl]. apply set_next_relinked. right. apply in_or_app. left.
    destruct (list_snoc l1) as [-> | (l0 & z & ->)]; [discriminate|]. rewrite last_snoc. apply in_or_app. right. now left.
Qed.

Lemma NoDup_sides {A} (l1 l2 : list A) b : NoDup (l1 ++ l2) -> In b l1 -> ~ In b l2.
Proof.
  intros Hd H1 H2. apply in_split in H1. destruct H1 as (u & v & ->). rewrite <- app_assoc in Hd. cbn [app] in Hd.
  apply NoDup_remove_2 in Hd. apply Hd, in_or_app. right. apply in_or_app. now right.
Qed.

(** An element is taken from the list. *)
Lemma unlink s l1 x l2 : let l := l1 ++ x :: l2 in ~ In 0%nat l -> NoDup l -> linked s 0 l 0 ->
  let e := s x in
  let s1 := if (0 <? prev e)%nat then set_next (prev e) (next e) s else s in
  let s2 := if (0 <? next e)%nat then set_prev (next e) (prev e) s1 else s1 in
  linked s2 0 (l1 ++ l2) 0 /\ relinked l s s2 /\ prev e = last l1 0%nat /\ next e = front l2 0.
Proof.
  intros l H0 Hd L e s1 s2. pose proof L as L'. unfold l in L'. apply linked_app in L'. cbn [front linked] in L'.
  destruct L' as (L1 & Px & Nx & L2). fold e in Px, Nx.
  assert (Hd' : NoDup (l1 ++ l2)) by (now apply NoDup_remove_1 in Hd). split_and; auto.
  - assert (L1' : linked s1 0 l1 (front l2 0) /\ linked s1 x l2 0).
    { unfold s1. rewrite Px, Nx. destruct (list_snoc l1) as [-> | (l0 & z & ->)]; [split; [exact I | exact L2]|].
      rewrite last_snoc in *. assert (Z0 : z <> 0%nat) by (intros ->; apply H0, in_or_app; left; apply in_or_app; right; now left).
      destruct (Nat.ltb_spec 0 z); [|lia]. apply linked_snoc in L1. destruct L1 as (L0 & Pz & Nz). split.
      - apply linked_snoc. links. rewrite Nat.eqb_refl. split_and; auto. revert L0. apply linked_frame. intros b Hb. links.
        rewrite (proj2 (Nat.eqb_neq b z)); [auto|]. intros ->. rewrite <- app_assoc in Hd'. now apply (NoDup_sides l0 ([z] ++ l2) z) in Hd'; [apply Hd'; left|].
      - revert L2. apply linked_frame. intros b Hb. links. rewrite (proj2 (Nat.eqb_neq b z)); [auto|]. intros ->.
        apply (NoDup_sides _ _ z Hd'); [apply in_or_app; right; now left | exact Hb]. }
    destruct L1' as [A B]. apply linked_app. unfold s2. rewrite Px, Nx. destruct l2 as [|y l2]; cbn [front] in *; [split; [exact A | exact I]|].
    assert (Y0 : y <> 0%nat) by (intros ->; apply H0, in_or_app; right; right; now left). destruct (Nat.ltb_spec 0 y); [|lia]. split.
    + revert A. apply linked_frame. intros b Hb. links. rewrite (proj2 (Nat.eqb_neq b y)); [auto|]. intros ->.
      apply (NoDup_sides _ _ y Hd' Hb). now left.
    + destruct B as (B1 & B2 & B3). cbn [linked]. links. rewrite Nat.eqb_refl. split_and; auto. revert B3. apply linked_frame.
      intros b Hb. links. rewrite (proj2 (Nat.eqb_neq b y)); [auto|]. intros ->. apply NoDup_app_remove_l in Hd'. now apply NoDup_cons_iff in Hd'.
  - unfold s2, s1. rewrite Px, Nx. apply (relinked_trans _ _ s1).
    + unfold s1. rewrite Px, Nx. destruct (0 <? last l1 0)%nat eqn:E; [|apply relinked_refl]. apply set_next_relinked, in_or_app. left.
      destruct (list_snoc l1) as [-> | (l0 & z & ->)]; [discriminate|]. rewrite last_snoc. apply in_or_app. right. now left.
    + unfold s1. rewrite Px, Nx. destruct (0 <? front l2 0)%nat eqn:E; [|apply relinked_refl]. apply set_prev_relinked, in_or_app. right. right.
      destruct l2 as [|y l2]; [discriminate | now left].
Qed.

(** ** Buckets *)

Definition bucket (s : store) (n a : nat) : nat := (Z.to_nat (h (s a)) mod n)%nat.

(** The elements of bucket [i] stand together, are as many as it says, and it points to the first. *)
Definition bucket_ok (s : store) (n : nat) (e : _ht) (l : list nat) (i : nat) : Prop :=
  exists l1 g l2, l = l1 ++ g ++ l2 /\ length g = ht_count e /\ (g <> [] -> chain e = front g 0)
    /\ (forall a, In a g -> bucket s n a = i) /\ (forall a, In a (l1 ++ l2) -> bucket s n a <> i).

Definition buckets_ok (s : store) (pH : Hash) (l : list nat) : Prop :=
  match ht pH with
  | [] => htsize pH = 0%nat
  | _ => length (ht pH) = htsize pH /\ forall i, (i < htsize pH)%nat -> bucket_ok s (htsize pH) (entry pH i) l i
  end.

Definition shape (s : store) (pH : Hash) (l : list nat) : Prop :=
  linked s 0 l 0 /\ first pH = front l 0 /\ NoDup l /\ ~ In 0%nat l /\ buckets_ok s pH l.

Lemma nth_replace i e l j d : nth j (replace i e l) d = if (j =? i)%nat && (i <? length l)%nat then e else nth j l d.
Proof.
  revert i j. induction l as [|x l IH]; intros i j; cbn [replace length]; [now destruct (j =? i)%nat|].
  destruct i as [|i], j as [|j]; cbn [nth]; try reflexivity. rewrite IH. reflexivity.
Qed.

Lemma length_replace i e l : length (replace i e l) = length l.
Proof. revert i. induction l as [|x l IH]; intros [|i]; cbn [replace length]; auto. Qed.

Lemma bucket_relinked l s s' n a : relinked l s s' -> bucket s' n a = bucket s n a.
Proof. intros [A _]. specialize (A a). unfold bucket. unfold payload in A. congruence. Qed.

(** An element of another bucket is put in front of the list, or in front of an element that is
    not of this bucket. *)
Lemma bucket_other s n e l1 l2 a i : bucket_ok s n e (l1 ++ l2) i -> bucket s n a <> i ->
  match l2 with [] => True | y :: _ => l1 = [] \/ bucket s n y <> i end -> l1 = [] \/ l2 <> [] ->
  bucket_ok s n e (l1 ++ a :: l2) i.
Proof.
  intros (u & g & v & E & Lg & Cg & Bg & Bo) Ha Hy Hne. destruct l1 as [|b l1].
  - exists (a :: u), g, v. cbn [app] in *. rewrite E. split_and; auto. intros c [<- | Hc]; auto.
  - destruct Hne as [Hne | Hne]; [discriminate|]. destruct l2 as [|y l2]; [congruence|]. destruct Hy as [Hy | Hy]; [discriminate|].
    set (k := b :: l1) in *.
    assert (In y (u ++ v)) as Yi.
    { assert (In y (u ++ g ++ v)) as K by (rewrite <- E; apply in_or_app; right; now left).
      rewrite !in_app_iff in K. rewrite in_app_iff. destruct K as [K | [K | K]]; auto. now apply Bg in K. }
    apply (app_eq_app k (y :: l2) u (g ++ v)) in E. destruct E as (w & [[E1 E2] | [E1 E2]]).
    + apply app_eq_app in E2. destruct E2 as (z & [[E2 E3] | [E2 E3]]).
      * destruct z as [|c z].
        -- rewrite app_nil_r in E2. subst g. cbn [app] in E3. exists u, w, (a :: v). rewrite E1, <- app_assoc. split_and; auto; [now rewrite E3|].
           intros c Hc. rewrite in_app_iff in Hc. cbn [In] in Hc. destruct Hc as [Hc | [<- | Hc]]; auto; apply Bo, in_or_app; auto.
        -- cbn [app] in E3. injection E3 as -> _. exfalso. apply Hy, Bg. rewrite E2. apply in_or_app. right. now left.
      * exists u, g, (z ++ a :: y :: l2). rewrite E1, E2, <- !app_assoc. split_and; auto. intros c Hc. rewrite !in_app_iff in Hc. cbn [In] in Hc.
        destruct Hc as [Hc | [Hc | [<- | Hc]]]; auto; apply Bo; rewrite E3, !in_app_iff; cbn [In]; tauto.
    + exists (k ++ a :: w), g, v. rewrite <- !app_assoc. cbn [app]. rewrite <- E2. split_and; auto. intros c Hc.
      apply in_app_or in Hc. destruct Hc as [Hc | [<- | Hc]]; auto; apply Bo; rewrite E1, <- app_assoc; apply in_or_app; auto.
Qed.

Lemma bucket_ok_relinked k s s' n e l i : relinked k s s' -> bucket_ok s n e l i -> bucket_ok s' n e l i.
Proof.
  intros R (u & g & v & E & Lg & Cg & Bg & Bo). exists u, g, v.
  split_and; auto; intros a Ha; rewrite (bucket_relinked k s s' n a R); auto.
Qed.

(** The bucket that gets an element. *)
Lemma bucket_same s n e l1 g l2 a : (l1 = [] \/ g <> []) ->
  length g = ht_count e -> (forall b, In b g -> bucket s n b = bucket s n a) -> (forall b, In b (l1 ++ l2) -> bucket s n b <> bucket s n a) ->
  bucket_ok s n (mkHt (S (ht_count e)) a) (l1 ++ a :: g ++ l2) (bucket s n a).
Proof.
  intros _ Lg Bg Bo. exists l1, (a :: g), l2. split_and; auto; [cbn; now rewrite Lg|]. intros b [<- | Hb]; auto.
Qed.

Definition own_bucket (s : store) (pH : Hash) (a : nat) : option nat :=
  match ht pH with [] => None | _ => Some (bucket s (htsize pH) a) end.

(** What insertion into a list promises. *)
Definition inserted (s s' : store) (pH pH' : Hash) (l l' : list nat) (a : nat) : Prop :=
  shape s' pH' l' /\ relinked (a :: l) s s' /\ (forall x, In x l' <-> x = a \/ In x l) /\ length l' = S (length l)
  /\ htsize pH' = htsize pH /\ count pH' = count pH /\ (ht pH' = [] <-> ht pH = []).

Lemma replace_nil i e l : replace i e l = [] <-> l = [].
Proof. destruct l as [|x l], i; cbn; split; congruence. Qed.

(** The buckets after an insertion at [l1 ++ a :: l2]. *)
Lemma buckets_inserted s s' pH l1 g l2 a k : relinked k s s' -> buckets_ok s pH (l1 ++ g ++ l2) -> ht pH <> [] ->
  let i := bucket s (htsize pH) a in let e := entry pH i in
  (l1 = [] \/ g <> []) -> length g = ht_count e ->
  (forall b, In b g -> bucket s (htsize pH) b = i) -> (forall b, In b (l1 ++ l2) -> bucket s (htsize pH) b <> i) ->
  forall f, buckets_ok s' (mkHash (htsize pH) (count pH) f (replace i (mkHt (S (ht_count e)) a) (ht pH))) (l1 ++ a :: g ++ l2).
Proof.
  intros R Hb Hne i e Hg Lg Bg Bo f. unfold buckets_ok in *. cbn [ht htsize].
  destruct (ht pH) as [|x hs] eqn:Eh; [congruence|]. destruct Hb as [Ln Hb].
  destruct (replace i (mkHt (S (ht_count e)) a) (x :: hs)) eqn:Er; [apply replace_nil in Er; discriminate|]. rewrite <- Er.
  split; [now rewrite length_replace|]. intros j Hj. apply (bucket_ok_relinked k s s'); [exact R|]. unfold entry. cbn [ht]. rewrite nth_replace.
  destruct (Nat.eqb_spec j i) as [-> | Hji]; cbn [andb].
  - assert (Hi : (i <? length (x :: hs))%nat = true) by (apply Nat.ltb_lt; now rewrite Ln). rewrite Hi. now apply bucket_same.
  - specialize (Hb j Hj). unfold entry in Hb. rewrite Eh in Hb. apply bucket_other; auto.
    + destruct g as [|y g]; cbn [app].
      * destruct l2 as [|y l2]; [exact I|]. left. destruct Hg; [assumption | congruence].
      * right. rewrite Bg by now left. auto.
    + destruct g as [|y g]; [|right; discriminate]. left. destruct Hg; [assumption | congruence].
Qed.

Lemma insertElement_spec s pH l a : shape s pH l -> ~ In a l -> a <> 0%nat ->
  let '(s', pH') := insertElement s pH (own_bucket s pH a) a in exists l', inserted s s' pH pH' l l' a.
Proof.
  intros (L & F & Hd & H0 & Hb) Ha A0. assert (H0' : ~ In 0%nat (a :: l)) by (intros [K | K]; auto). unfold insertElement.
  assert (Front : forall t, (ht t = [] <-> ht pH = []) -> htsize t = htsize pH -> count t = count pH ->
    (forall s', relinked (a :: l) s s' -> buckets_ok s' (mkHash (htsize t) (count t) a (ht t)) (a :: l)) ->
    first t = front l 0 ->
    let s1 := set_next a (first t) s in let s2 := if (0 <? first t)%nat then set_prev (first t) a s1 else s1 in
    exists l', inserted s (set_prev a 0 s2) pH (mkHash (htsize t) (count t) a (ht t)) l l' a).
  { intros t Ht Hs Hc Hbk Hf. rewrite Hf. destruct (link_front s l a Ha H0' Hd L) as [Ln Rl]. exists (a :: l).
    unfold inserted, shape. split_and; auto using NoDup_cons. intros x; cbn [In]; split; (intros [K | K]; [left; congruence | now right]). }
  assert (Ow : own_bucket s pH a = None /\ ht pH = [] \/ own_bucket s pH a = Some (bucket s (htsize pH) a) /\ ht pH <> [])
    by (unfold own_bucket; destruct (ht pH); [now left | right; split; [reflexivity | discriminate]]).
  destruct Ow as [[-> Eh] | [-> Hne]].
  - cbn [Nat.ltb Nat.leb]. apply Front; auto; [tauto|]. intros s' _. unfold buckets_ok in *. cbn [ht htsize]. now rewrite Eh in *.
  - set (i := bucket s (htsize pH) a) in *. set (e := entry pH i) in *.
    assert (Hb' : length (ht pH) = htsize pH /\ forall j, (j < htsize pH)%nat -> bucket_ok s (htsize pH) (entry pH j) l j)
      by (unfold buckets_ok in Hb; destruct (ht pH); [congruence | exact Hb]). destruct Hb' as [Ln Hb'].
    assert (Hi : (i < htsize pH)%nat) by (apply Nat.mod_upper_bound; rewrite <- Ln; destruct (ht pH); [congruence | discriminate]).
    destruct (Hb' i Hi) as (l1 & g & l2 & -> & Lg & Cg & Bg & Bo). fold e in Lg, Cg. destruct g as [|y g].
    + cbn [length] in Lg. rewrite <- Lg. cbn [Nat.ltb Nat.leb app] in *.
      apply (Front (mkHash (htsize pH) (count pH) (first pH) (replace i (mkHt 1 a) (ht pH)))); auto; [apply replace_nil|].
      intros s' R. cbn [htsize count ht]. pose proof (buckets_inserted s s' pH [] [] (l1 ++ l2) a _ R Hb Hne (or_introl eq_refl) Lg) as B.
      cbv zeta in B. fold i e in B. rewrite <- Lg in B. apply B; [intros b [] | exact Bo].
    + rewrite (Cg ltac:(discriminate)). replace (0 <? ht_count e)%nat with true by (symmetry; apply Nat.ltb_lt; rewrite <- Lg; cbn; lia).
      cbn [front]. assert (Y0 : y <> 0%nat) by (intros ->; apply H0, in_or_app; right; now left).
      replace (0 <? y)%nat with true by (symmetry; apply Nat.ltb_lt; lia). cbn [app] in *.
      destruct (link_before s l1 y (g ++ l2) a Ha H0' Hd L) as (Lk & Rl & Pv). cbv zeta in *. cbn [htsize count ht first].
      assert (Hg : l1 = [] \/ y :: g <> []) by (right; discriminate).
      match type of Rl with relinked _ _ ?t => pose proof (buckets_inserted s t pH l1 (y :: g) l2 a (a :: l1 ++ y :: g ++ l2) Rl Hb Hne Hg Lg Bg Bo) as B end.
      cbv zeta in B. fold i e in B. cbn [app] in B.
      assert (Nd : NoDup (l1 ++ a :: y :: g ++ l2)) by (apply NoDup_Add with (a := a) (l := l1 ++ y :: g ++ l2); [apply Add_app | auto]).
      assert (N0 : ~ In 0%nat (l1 ++ a :: y :: g ++ l2))
        by (intros K; apply in_app_or in K; destruct K as [K | [K | K]]; [apply H0, in_or_app; now left | congruence | apply H0, in_or_app; now right]).
      rewrite Pv in *. destruct (Nat.ltb_spec 0 (last l1 0%nat)); exists (l1 ++ a :: y :: g ++ l2); unfold inserted, shape; split_and; auto; try apply replace_nil;
        try (intros x'; rewrite !in_app_iff; cbn [In]; intuition congruence); try (rewrite !length_app; cbn [length]; lia).
      * cbn [first]. rewrite F. destruct l1; [cbn in *; lia | reflexivity].
      * cbn [first]. destruct (list_snoc l1) as [-> | (l0 & z & ->)]; [reflexivity|]. rewrite last_snoc in *.
        exfalso. apply H0, in_or_app. left. apply in_or_app. right. left. lia.
Qed.

(** ** Resizing *)

Fixpoint next_chain (s : store) (l : list nat) : Prop :=
  match l with [] => True | a :: l => next (s a) = front l 0 /\ next_chain s l end.

Lemma linked_next_chain s l : forall p, linked s p l 0 -> next_chain s l.
Proof. induction l as [|a l IH]; intros p L; [exact I|]. destruct L as (_ & N & L). split; [exact N | now apply (IH a)]. Qed.

Lemma next_chain_relinked s s' k l : relinked k s s' -> (forall a, In a l -> ~ In a k) -> next_chain s l -> next_chain s' l.
Proof.
  intros R H. induction l as [|a l IH]; intros C; [exact I|]. destruct C as [N C]. split.
  - rewrite (proj2 R a) by (apply H; now left). exact N.
  - apply IH; [|exact C]. intros b Hb. apply H. now right.
Qed.

(** What is kept when the list is put together anew. *)
Definition rebuilt (s s' : store) (pH pH' : Hash) (l l' : list nat) : Prop :=
  shape s' pH' l' /\ relinked l s s' /\ (forall x, In x l' <-> In x l) /\ length l' = length l /\ count pH' = count pH.

Lemma rehash_loop_spec lr : forall fuel s pH lp, (length lr <= fuel)%nat -> shape s pH lp -> ht pH <> [] ->
  next_chain s lr -> NoDup (lr ++ lp) -> ~ In 0%nat lr ->
  let '(s', pH') := rehash_loop fuel s pH (front lr 0) in exists l', rebuilt s s' pH pH' (lr ++ lp) l'.
Proof.
  induction lr as [|a lr IH]; intros fuel s pH lp Hf Sh Hh Hc Hd H0.
  - assert (E : rehash_loop fuel s pH (front [] 0) = (s, pH)) by now destruct fuel. rewrite E. exists lp. unfold rebuilt. split_and; auto; [apply relinked_refl | cbn [app]; tauto].
  - destruct fuel as [|fuel]; [cbn in Hf; lia|]. cbn [rehash_loop front]. assert (A0 : a <> 0%nat) by (intros ->; apply H0; now left).
    destruct (Nat.ltb_spec 0 a); [|lia]. destruct Hc as [Na Hc]. cbn [app] in Hd. apply NoDup_cons_iff in Hd. destruct Hd as [Ha Hd].
    assert (Ow : own_bucket s pH a = Some (Z.to_nat (h (s a)) mod htsize pH)%nat) by (unfold own_bucket, bucket; destruct (ht pH); congruence).
    assert (Ha' : ~ In a lp) by (intros K; apply Ha, in_or_app; now right).
    pose proof (insertElement_spec s pH lp a Sh Ha' A0) as S. rewrite Ow in S. rewrite Na.
    destruct (insertElement s pH _ a) as [s1 p1]. destruct S as (l1 & Sh1 & R1 & I1 & L1 & Hs1 & C1 & N1).
    assert (Hfr : forall b, In b lr -> ~ In b (a :: lp))
      by (intros b Hb [<- | K]; [apply Ha, in_or_app; now left | now apply (NoDup_sides lr lp b Hd)]).
    assert (Hd1 : NoDup (lr ++ l1)).
    { apply NoDup_app; [now apply NoDup_app_remove_r in Hd | apply Sh1 |]. intros b Hb K. apply (Hfr b Hb). apply I1 in K.
      destruct K as [-> | K]; [now left | now right]. }
    specialize (IH fuel s1 p1 l1 ltac:(cbn in Hf; lia) Sh1 ltac:(tauto) (next_chain_relinked s s1 _ lr R1 Hfr Hc) Hd1 ltac:(intros K; apply H0; now right)).
    destruct (rehash_loop fuel s1 p1 (front lr 0)) as [s2 p2]. destruct IH as (l2 & Sh2 & R2 & I2 & L2 & C2). exists l2. unfold rebuilt.
    split_and; auto; [|intros x; rewrite I2, !in_app_iff; cbn [In]; rewrite I1; intuition congruence | rewrite L2, !length_app; cbn [length]; lia | congruence].
    eapply relinked_trans; [eapply relinked_incl; [|exact R1] | eapply relinked_incl; [|exact R2]].
    + intros b [<- | Hb]; [now left | right; apply in_or_app; now right].
    + intros b Hb. apply in_app_or in Hb. cbn [app In]. rewrite in_app_iff. destruct Hb as [Hb | Hb]; [now right; left|]. apply I1 in Hb. intuition congruence.
Qed.

Lemma empty_shape s n c : (0 < n)%nat -> shape s (mkHash n c 0 (repeat (mkHt 0 0) n)) [].
Proof.
  intros Hn. refine (conj I (conj eq_refl (conj (NoDup_nil _) (conj (fun K => K) _)))). unfold buckets_ok. cbn [ht htsize].
  destruct (repeat (mkHt 0 0) n) eqn:E; [destruct n; [lia | discriminate]|]. rewrite <- E. split; [apply repeat_length|]. intros i Hi. unfold entry. cbn [ht].
  rewrite nth_repeat. exists [], [], []. split_and; auto; intros a [].
Qed.

Lemma rehash_spec mem s pH l k : shape s pH l -> (0 < k)%nat ->
  let '(s', pH') := rehash mem (length l) s pH k in exists l', rebuilt s s' pH pH' l l'.
Proof.
  intros Sh Hk. assert (Id : exists l', rebuilt s s pH pH l l').
  { exists l. unfold rebuilt. split_and; auto; [apply relinked_refl | tauto]. }
  unfold rehash. set (n := if (_ <? _)%nat then _ else k). destruct (n =? htsize pH)%nat; [exact Id|]. destruct mem as [extra|]; [|exact Id].
  assert (Hn : (0 < n + extra)%nat) by (unfold n; destruct (_ <? _)%nat; [unfold SQLITE_MALLOC_SOFT_LIMIT, sizeof_ht; vm_compute (1024 / 16)%nat|]; lia).
  destruct Sh as (L & F & Hd & H0 & _). rewrite F.
  pose proof (rehash_loop_spec l (length l) s (mkHash (n + extra) (count pH) 0 (repeat (mkHt 0 0) (n + extra))) [] (le_n _) (empty_shape s _ _ Hn)) as R.
  rewrite app_nil_r in R. apply R; auto; [cbn [ht]; destruct (n + extra)%nat; [lia | discriminate] | now apply (linked_next_chain s l 0)].
Qed.

(** ** Searching *)

Definition matches (s : store) (hash : Z) (key : list Z) (a : nat) : bool :=
  (hash =? h (s a)) && (sqlite3StrICmp (pKey (s a)) key =? 0).

Lemma find_loop_spec s hash key g : forall p q, linked s p g q ->
  let r := find_loop s (length g) (front g q) hash key in
  (r = 0%nat /\ forall a, In a g -> matches s hash key a = false) \/ (In r g /\ matches s hash key r = true).
Proof.
  induction g as [|a g IH]; intros p q L; cbn [length find_loop front]; [left; split; [reflexivity | intros a []]|].
  destruct L as (_ & N & L). fold (matches s hash key a). destruct (matches s hash key a) eqn:M; [right; split; [now left | exact M]|].
  rewrite N. destruct (IH a q L) as [[R A] | [R A]]; [left; split; [exact R|]; intros b [<- | Hb]; auto | right; split; [now right | exact A]].
Qed.

Lemma linked_middle s l1 g l2 : linked s 0 (l1 ++ g ++ l2) 0 -> exists p q, linked s p g q.
Proof. rewrite !linked_app. intros (_ & L & _). eauto. Qed.

(** The search looks at every element that can match. *)
Lemma find_spec s pH l key : shape s pH l -> count pH = length l ->
  let r := fst (findElementWithHash s pH key) in
  (r = 0%nat /\ forall a, In a l -> matches s (strHash key) key a = false) \/ (In r l /\ matches s (strHash key) key r = true).
Proof.
  intros (L & F & Hd & H0 & Hb) Hc. unfold findElementWithHash. unfold buckets_ok in Hb. destruct (ht pH) as [|x hs] eqn:Eh.
  - cbn [fst]. rewrite F, Hc. exact (find_loop_spec s (strHash key) key l 0 0 L).
  - destruct Hb as [Ln Hb]. set (i := (Z.to_nat (strHash key) mod htsize pH)%nat).
    assert (Hi : (i < htsize pH)%nat) by (apply Nat.mod_upper_bound; rewrite <- Ln; discriminate).
    destruct (Hb i Hi) as (l1 & g & l2 & -> & Lg & Cg & Bg & Bo). cbn [fst]. rewrite <- Lg.
    destruct (linked_middle s l1 g l2 L) as (p & q & Lk).
    assert (Out : forall a, In a (l1 ++ l2) -> matches s (strHash key) key a = false).
    { intros a Ha. specialize (Bo a Ha). unfold matches. destruct (Z.eqb_spec (strHash key) (h (s a))) as [E|]; [|reflexivity].
      exfalso. apply Bo. unfold bucket. now rewrite <- E. }
    destruct g as [|y g].
    + left. split; [reflexivity|]. intros a Ha. apply Out. rewrite !in_app_iff in *. cbn [In] in Ha. tauto.
    + rewrite (Cg ltac:(discriminate)). destruct (find_loop_spec s (strHash key) key (y :: g) p q Lk) as [[R A] | [R A]]; cbn [front] in *.
      * left. split; [exact R|]. intros a Ha. rewrite !in_app_iff in Ha. destruct Ha as [Ha | [Ha | Ha]]; auto; apply Out, in_or_app; auto.
      * right. split; [|exact A]. apply in_or_app. right. apply in_or_app. now left.
Qed.

(** ** Removal *)

Definition without (x : nat) (l : list nat) : list nat := remove Nat.eq_dec x l.

Lemma without_middle l1 x l2 : NoDup (l1 ++ x :: l2) -> without x (l1 ++ x :: l2) = l1 ++ l2.
Proof.
  intros H. apply NoDup_remove_2 in H. unfold without. rewrite remove_app, remove_cons, !notin_remove; auto; intros K; apply H, in_or_app; auto.
Qed.

Lemma in_without_elem x l y : In y (without x l) <-> In y l /\ y <> x.
Proof.
  unfold without. split; [apply in_remove|]. intros [A B]. now apply in_in_remove.
Qed.

Lemma bucket_removed_other s n e l x i : bucket_ok s n e l i -> bucket s n x <> i -> bucket_ok s n e (without x l) i.
Proof.
  intros (u & g & v & -> & Lg & Cg & Bg & Bo) Hx. exists (without x u), g, (without x v). unfold without. rewrite !remove_app.
  assert (Hg : remove Nat.eq_dec x g = g) by (apply notin_remove; intros K; now apply Hx, Bg). rewrite Hg.
  split_and; auto. intros a Ha. apply Bo. apply in_app_or in Ha. apply in_or_app. destruct Ha as [Ha | Ha]; apply in_remove in Ha; tauto.
Qed.

Lemma bucket_removed_same s n e l x : NoDup l -> In x l -> linked s 0 l 0 -> bucket_ok s n e l (bucket s n x) ->
  bucket_ok s n (mkHt (ht_count e - 1) (if (chain e =? x)%nat then next (s x) else chain e)) (without x l) (bucket s n x).
Proof.
  intros Hd Hx L (u & g & v & -> & Lg & Cg & Bg & Bo).
  assert (Hg : In x g).
  { rewrite !in_app_iff in Hx. destruct Hx as [K | [K | K]]; auto; exfalso; apply (Bo x); auto; apply in_or_app; auto. }
  apply in_split in Hg. destruct Hg as (g1 & g2 & ->). set (l := u ++ (g1 ++ x :: g2) ++ v) in *.
  assert (El : l = (u ++ g1) ++ x :: (g2 ++ v)) by (unfold l; rewrite <- !app_assoc; reflexivity).
  assert (Wl : without x l = u ++ (g1 ++ g2) ++ v) by (rewrite El in Hd |- *; rewrite without_middle by exact Hd; now rewrite <- !app_assoc).
  assert (Nx : next (s x) = front (g2 ++ v) 0) by (rewrite El in L; apply linked_app in L; apply L).
  exists u, (g1 ++ g2), v. split_and; auto.
  - cbn [ht_count]. rewrite <- Lg, !length_app. cbn [length]. lia.
  - intros Hne. cbn [chain]. assert (g1 ++ x :: g2 <> []) as Hne' by (destruct g1; discriminate). specialize (Cg Hne').
    destruct g1 as [|b g1]; cbn [app front] in *.
    + rewrite Cg, Nat.eqb_refl, Nx. destruct g2; [congruence | reflexivity].
    + rewrite Cg. destruct (Nat.eqb_spec b x) as [-> |]; [|reflexivity]. exfalso. unfold l in Hd. apply NoDup_app_remove_l in Hd.
      cbn [app] in Hd. apply NoDup_cons_iff in Hd. apply (proj1 Hd), in_or_app. left. apply in_or_app. right. now left.
  - intros a Ha. apply Bg. rewrite in_app_iff in *. cbn [In]. tauto.
Qed.

Lemma removeElement_spec s pH l x : shape s pH l -> In x l -> count pH = length l ->
  let '(s', pH') := removeElement s pH x in shape s' pH' (without x l) /\ relinked l s s' /\ count pH' = length (without x l).
Proof.
  intros (L & F & Hd & H0 & Hb) Hx Hc. pose proof (in_split x l Hx) as (l1 & l2 & El).
  assert (Wl : without x l = l1 ++ l2) by (rewrite El in *; now apply without_middle).
  assert (Len : length l = S (length (without x l))) by (rewrite Wl, El, !length_app; cbn; lia).
  pose proof L as L'. pose proof Hd as Hd'. pose proof H0 as H0'. rewrite El in L', Hd', H0'.
  destruct (unlink s l1 x l2 H0' Hd' L') as (Lk & Rl & Pv & Nx). cbv zeta in *. rewrite <- El in Rl. rewrite <- Wl in Lk.
  unfold removeElement.
  assert (E1 : (if (0 <? prev (s x))%nat then (set_next (prev (s x)) (next (s x)) s, pH)
    else (s, mkHash (htsize pH) (count pH) (next (s x)) (ht pH)))
    = (if (0 <? prev (s x))%nat then set_next (prev (s x)) (next (s x)) s else s, mkHash (htsize pH) (count pH) (front (without x l) 0) (ht pH))).
  { rewrite Pv, Nx, Wl. destruct (list_snoc l1) as [-> | (l0 & z & ->)]; [reflexivity|]. rewrite last_snoc.
    assert (z <> 0%nat) by (intros ->; apply H0'; apply in_or_app; left; apply in_or_app; right; now left).
    destruct (Nat.ltb_spec 0 z); [|lia]. f_equal. destruct pH as [a b c d]. cbn [htsize count ht first] in *. f_equal. rewrite F, El. now destruct l0. }
  rewrite E1. set (s' := if (0 <? next (s x))%nat then _ else _) in *. cbn [ht htsize count first].
  assert (Hb' : buckets_ok s' (match ht pH with
    | [] => mkHash (htsize pH) (count pH) (front (without x l) 0) (ht pH)
    | _ :: _ => let i := (Z.to_nat (h (s x)) mod htsize pH)%nat in
        mkHash (htsize pH) (count pH) (front (without x l) 0)
          (replace i (mkHt (ht_count (entry pH i) - 1) (if (chain (entry pH i) =? x)%nat then next (s x) else chain (entry pH i))) (ht pH)) end) (without x l)).
  { unfold buckets_ok in *. destruct (ht pH) as [|y hs] eqn:Eh; [cbn [ht htsize]; exact Hb|]. cbv zeta. cbn [ht htsize]. destruct Hb as [Ln Hb].
    set (i := (Z.to_nat (h (s x)) mod htsize pH)%nat). set (b := mkHt _ _).
    destruct (replace i b (y :: hs)) eqn:Er; [apply replace_nil in Er; discriminate|]. rewrite <- Er. split; [now rewrite length_replace|].
    intros j Hj. apply (bucket_ok_relinked l s s' _ _ _ _ Rl). unfold entry. cbn [ht]. rewrite nth_replace.
    assert (Hi : (i < htsize pH)%nat) by (apply Nat.mod_upper_bound; rewrite <- Ln; discriminate).
    specialize (Hb j Hj). destruct (Nat.eqb_spec j i) as [-> | Hji]; cbn [andb].
    - assert (Hi' : (i <? length (y :: hs))%nat = true) by (apply Nat.ltb_lt; now rewrite Ln). rewrite Hi'.
      apply bucket_removed_same; auto.
    - unfold entry in Hb. rewrite Eh in Hb. apply bucket_removed_other; auto. }
  assert (Nd : NoDup (without x l) /\ ~ In 0%nat (without x l)).
  { split; [rewrite Wl; now apply NoDup_remove_1 in Hd' | intros K; apply in_without_elem in K; tauto]. }
  assert (Empty : (count pH - 1)%nat = 0%nat -> without x l = []) by (intros Z0; apply length_zero_iff_nil; lia).
  assert (Clear : forall t, without x l = [] -> shape s' (sqlite3HashClear t) (without x l) /\ relinked l s s'
    /\ count (sqlite3HashClear t) = length (without x l)).
  { intros t ->. split_and; auto. refine (conj I (conj eq_refl (conj (NoDup_nil _) (conj (fun K => K) eq_refl)))). }
  unfold entry in *. destruct (ht pH) as [|y hs] eqn:Eh; cbv zeta in *; cbn [ht htsize count first] in *;
    (destruct (Nat.eqb_spec (count pH - 1) 0) as [Z0|Z0]; [now apply Clear, Empty|]).
  all: cbn [count]; split_and; auto; [|lia]; unfold shape; cbn [first]; split_and; auto; exact Hb'.
Qed.

(** ** A map with keys without regard to case *)

Definition lower (z : list Z) : list Z := map sqlite3UpperToLower z.

(** A map from keys in lower case to data, which is 0 where there is none. *)
Definition dictionary : Type := list Z -> Z.
Definition assign (m : dictionary) (k : list Z) (d : Z) : dictionary :=
  fun k' => if list_eq_dec Z.eq_dec k' k then d else m k'.

Definition spec_insert (mem_elem : bool) (m : dictionary) (key : list Z) (d : Z) : dictionary * Z :=
  let k := lower key in
  if negb (m k =? 0) then (assign m k d, m k)
  else if d =? 0 then (m, 0)
  else if mem_elem then (assign m k d, 0) else (m, d).

Lemma assign_eq m k d : assign m k d k = d.
Proof. unfold assign. now destruct (list_eq_dec Z.eq_dec k k). Qed.

Lemma assign_ne m k d k' : k' <> k -> assign m k d k' = m k'.
Proof. intros H. unfold assign. now destruct (list_eq_dec Z.eq_dec k' k). Qed.

(** Keys that differ only in case have the same hash. *)
Lemma hash_lower z : no_nul z -> strHash (lower z) = strHash z.
Proof.
  intros H. unfold strHash, lower. generalize 0 at 1 2. induction H as [|c z Hc _ IH]; intros n; cbn [map fold_left]; [reflexivity|].
  assert (C : forallb (fun k => Z.land 0xdf (sqlite3UpperToLower (Z.of_nat k)) =? Z.land 0xdf (Z.of_nat k)) (seq 0 256) = true) by (vm_compute; reflexivity).
  rewrite forallb_forall in C. specialize (C (Z.to_nat c)). rewrite in_seq, Z2Nat.id in C by lia. specialize (C ltac:(lia)).
  apply Z.eqb_eq in C. rewrite C. apply IH.
Qed.

(** The table with the elements [l] stands for a map. *)
Record means (t : table) (l : list nat) (m : dictionary) : Prop := {
  me_shape : shape (t_store t) (t_hash t) l;
  me_count : count (t_hash t) = length l;
  me_brk a : In a l -> (a < t_brk t)%nat;
  me_first : (0 < t_brk t)%nat;
  me_elem a : In a l -> let e := t_store t a in
    h e = strHash (pKey e) /\ data e <> 0 /\ no_nul (pKey e) /\ m (lower (pKey e)) = data e;
  me_unique a b : In a l -> In b l -> lower (pKey (t_store t a)) = lower (pKey (t_store t b)) -> a = b;
  me_all k : m k <> 0 -> exists a, In a l /\ lower (pKey (t_store t a)) = k
}.

Lemma matches_lower s key a : no_nul key -> no_nul (pKey (s a)) -> h (s a) = strHash (pKey (s a)) ->
  matches s (strHash key) key a = true <-> lower (pKey (s a)) = lower key.
Proof.
  intros Hk Ha Hh. unfold matches. rewrite andb_true_iff, !Z.eqb_eq, Hh, stricmp_lower by assumption. fold (lower (pKey (s a))) (lower key).
  split; [tauto|]. intros E. split; [|exact E]. now rewrite <- (hash_lower key Hk), <- (hash_lower _ Ha), E.
Qed.

(** Searching finds the element of the key, or there is none. *)
Lemma means_find t l m key : means t l m -> no_nul key ->
  let r := fst (findElementWithHash (t_store t) (t_hash t) key) in
  data_of (t_store t) r = m (lower key)
  /\ ((r = 0%nat /\ m (lower key) = 0 /\ forall a, In a l -> lower (pKey (t_store t a)) <> lower key)
      \/ (In r l /\ lower (pKey (t_store t r)) = lower key /\ m (lower key) <> 0)).
Proof.
  intros [Sh Hc Hb Hb0 He Hu Ha] Hk r. destruct (find_spec _ _ l key Sh Hc) as [[R M] | [R M]]; fold r in R, M.
  - assert (A : forall a, In a l -> lower (pKey (t_store t a)) <> lower key).
    { intros a Hl E. destruct (He a Hl) as (E1 & _ & E3 & _). apply matches_lower in E; auto. now rewrite M in E. }
    assert (Z0 : m (lower key) = 0).
    { destruct (Z.eq_dec (m (lower key)) 0) as [|N]; [assumption|]. destruct (Ha _ N) as (a & Hl & E). now apply A in E. }
    rewrite Z0, R. auto.
  - destruct (He r R) as (E1 & E2 & E3 & E4). apply matches_lower in M; auto. rewrite M in E4.
    assert (r <> 0%nat) by (intros K; rewrite K in R; now apply (proj1 (proj2 (proj2 (proj2 Sh))))).
    unfold data_of. rewrite (proj2 (Nat.eqb_neq r 0)) by assumption. rewrite E4. auto.
Qed.

Lemma shape_ext s s' pH pH' l : (forall a, In a l -> next (s' a) = next (s a) /\ prev (s' a) = prev (s a) /\ h (s' a) = h (s a)) ->
  htsize pH' = htsize pH -> first pH' = first pH -> ht pH' = ht pH -> shape s pH l -> shape s' pH' l.
Proof.
  intros H E1 E2 E3 (L & F & Hd & H0 & Hb). unfold shape. rewrite E2. split_and; auto.
  - revert L. apply linked_frame. intros a Ha. now destruct (H a Ha) as (-> & -> & _).
  - unfold buckets_ok, entry in *. rewrite E1, E3. destruct (ht pH); [exact Hb|]. destruct Hb as [Ln Hb]. split; [exact Ln|].
    intros i Hi. destruct (Hb i Hi) as (u & g & v & -> & Lg & Cg & Bg & Bo).
    assert (Bk : forall a, In a (u ++ g ++ v) -> bucket s' (htsize pH) a = bucket s (htsize pH) a)
      by (intros a Ha; unfold bucket; now destruct (H a Ha) as (_ & _ & ->)).
    exists u, g, v. split_and; auto; intros a Ha; rewrite Bk; auto; rewrite !in_app_iff in *; tauto.
Qed.

Lemma payload_eq (s s' : store) a : payload (s' a) = payload (s a) -> data (s' a) = data (s a) /\ pKey (s' a) = pKey (s a) /\ h (s' a) = h (s a).
Proof. unfold payload. intros E. split_and; congruence. Qed.

Lemma means_remove t l m r : means t l m -> In r l ->
  let '(s, pH) := removeElement (t_store t) (t_hash t) r in
  means (mkTable s pH (t_brk t)) (without r l) (assign m (lower (pKey (t_store t r))) 0).
Proof.
  intros [Sh Hc Hb Hb0 He Hu Ha] Hr. pose proof (removeElement_spec _ _ l r Sh Hr Hc) as S.
  destruct (removeElement (t_store t) (t_hash t) r) as [s pH]. destruct S as (Sh' & R & Hc').
  assert (P : forall a, data (s a) = data (t_store t a) /\ pKey (s a) = pKey (t_store t a) /\ h (s a) = h (t_store t a))
    by (intros a; apply payload_eq, R).
  constructor; cbn [t_store t_hash t_brk]; auto.
  - intros a K. apply in_without_elem in K. now apply Hb.
  - intros a K. apply in_without_elem in K. destruct K as [K Kr], (P a) as (-> & -> & ->). destruct (He a K) as (E1 & E2 & E3 & E4).
    split_and; auto. rewrite assign_ne; auto.
  - intros a b K K'. apply in_without_elem in K, K'. destruct (P a) as (_ & -> & _), (P b) as (_ & -> & _). now apply Hu.
  - intros k Hk. destruct (list_eq_dec Z.eq_dec k (lower (pKey (t_store t r)))) as [-> | N]; [now rewrite assign_eq in Hk|].
    rewrite assign_ne in Hk by exact N. destruct (Ha k Hk) as (a & K & E). exists a. destruct (P a) as (_ & -> & _).
    split; [|exact E]. apply in_without_elem. split; [exact K|]. intros ->. congruence.
Qed.

Lemma means_replace t l m r key d : means t l m -> In r l -> lower (pKey (t_store t r)) = lower key -> no_nul key -> d <> 0 ->
  let s := t_store t in
  means (mkTable (put r (mkElem (next (s r)) (prev (s r)) d key (h (s r))) s) (t_hash t) (t_brk t)) l (assign m (lower key) d).
Proof.
  intros [Sh Hc Hb Hb0 He Hu Ha] Hr El Hk Hd s. set (s' := put r (mkElem (next (s r)) (prev (s r)) d key (h (s r))) s : store).
  assert (Lw : forall a, In a l -> lower (pKey (s' a)) = lower (pKey (s a))).
  { intros a _. unfold s'. destruct (Nat.eq_dec a r) as [-> | N]; [rewrite put_eq; cbn [pKey]; now symmetry | now rewrite put_ne]. }
  constructor; cbn [t_store t_hash t_brk]; auto.
  - apply (shape_ext s s' (t_hash t)); auto. intros a _. unfold s'. destruct (Nat.eq_dec a r) as [-> | N]; [now rewrite put_eq | now rewrite put_ne].
  - intros a K. cbv zeta. destruct (He a K) as (E1 & E2 & E3 & E4). destruct (Nat.eq_dec a r) as [-> | N].
    + unfold s'. rewrite put_eq. cbn [h pKey data]. split_and; auto; [|now rewrite assign_eq].
      unfold s. rewrite E1, <- (hash_lower key Hk), <- (hash_lower _ E3). now rewrite El.
    + unfold s'. rewrite put_ne by exact N. split_and; auto. rewrite assign_ne; auto. intros E. apply N, Hu; auto. etransitivity; [exact E | now symmetry].
  - intros a b K K'. rewrite !Lw by assumption. now apply Hu.
  - intros k Hk'. destruct (list_eq_dec Z.eq_dec k (lower key)) as [-> | N]; [exists r; rewrite Lw by exact Hr; auto|].
    rewrite assign_ne in Hk' by exact N. destruct (Ha k Hk') as (a & K & E). exists a. rewrite Lw by exact K. auto.
Qed.

(** A table whose list was put together anew, with one more element. *)
Lemma means_grow t l m key d l' s pH : means t l m -> no_nul key -> d <> 0 -> (forall a, In a l -> lower (pKey (t_store t a)) <> lower key) ->
  shape s pH l' -> (forall x, In x l' <-> x = t_brk t \/ In x l) -> count pH = length l' ->
  (forall a, In a l -> payload (s a) = payload (t_store t a)) -> payload (s (t_brk t)) = (d, key, strHash key) ->
  means (mkTable s pH (S (t_brk t))) l' (assign m (lower key) d).
Proof.
  intros [Sh Hc Hb Hb0 He Hu Ha] Hk Hd Hn Sh' Il Hc' P Pn.
  assert (Pn' : data (s (t_brk t)) = d /\ pKey (s (t_brk t)) = key /\ h (s (t_brk t)) = strHash key) by (unfold payload in Pn; split_and; congruence).
  destruct Pn' as (N1 & N2 & N3).
  constructor; cbn [t_store t_hash t_brk]; auto.
  - intros a K. apply Il in K. destruct K as [-> | K]; [lia | specialize (Hb a K); lia].
  - intros a K. apply Il in K. destruct K as [-> | K].
    + rewrite N1, N2, N3. split_and; auto. apply assign_eq.
    + destruct (payload_eq _ _ _ (P a K)) as (-> & -> & ->). destruct (He a K) as (E1 & E2 & E3 & E4). split_and; auto. rewrite assign_ne; auto.
  - intros a b K K' E. apply Il in K, K'. destruct K as [-> | K], K' as [-> | K']; auto.
    + rewrite N2 in E. destruct (payload_eq _ _ _ (P b K')) as (_ & E2 & _). rewrite E2 in E. now apply eq_sym, Hn in E.
    + rewrite N2 in E. destruct (payload_eq _ _ _ (P a K)) as (_ & E2 & _). rewrite E2 in E. now apply Hn in E.
    + destruct (payload_eq _ _ _ (P a K)) as (_ & E1 & _), (payload_eq _ _ _ (P b K')) as (_ & E2 & _). rewrite E1, E2 in E. now apply Hu.
  - intros k Hk'. destruct (list_eq_dec Z.eq_dec k (lower key)) as [-> | N]; [exists (t_brk t); rewrite N2; split; [apply Il; now left | reflexivity]|].
    rewrite assign_ne in Hk' by exact N. destruct (Ha k Hk') as (a & K & E). exists a.
    destruct (payload_eq _ _ _ (P a K)) as (_ & -> & _). split; [apply Il; now right | exact E].
Qed.

Lemma means_new t l m mem_ht key d : means t l m -> no_nul key -> d <> 0 -> m (lower key) = 0 ->
  (forall a, In a l -> lower (pKey (t_store t a)) <> lower key) ->
  exists l', means (fst (sqlite3HashInsert true mem_ht t key d)) l' (assign m (lower key) d) /\ snd (sqlite3HashInsert true mem_ht t key d) = 0.
Proof.
  intros Me Hk Hd Hm Hn. destruct (means_find t l m key Me Hk) as [Df _]. pose proof Me as [Sh Hc Hb Hb0 He Hu Ha].
  unfold sqlite3HashInsert. assert (Eh : snd (findElementWithHash (t_store t) (t_hash t) key) = strHash key)
    by (unfold findElementWithHash; now destruct (ht (t_hash t))).
  destruct (findElementWithHash (t_store t) (t_hash t) key) as [r hash]. cbn [fst snd] in *. subst hash. rewrite Df, Hm.
  cbn [Z.eqb negb]. rewrite (proj2 (Z.eqb_neq d 0) Hd).
  set (new := t_brk t) in *. set (s1 := put new (mkElem 0 0 d key (strHash key)) (t_store t)).
  set (p1 := mkHash (htsize (t_hash t)) (S (count (t_hash t))) (first (t_hash t)) (ht (t_hash t))).
  assert (Nl : ~ In new l) by (intros K; specialize (Hb new K); unfold new in Hb; lia).
  assert (Sh1 : shape s1 p1 l) by (apply (shape_ext (t_store t) s1 (t_hash t)); auto; intros a K; unfold s1; rewrite put_ne by congruence; auto).
  assert (R2 : let '(s2, p2) := if (5 <=? count p1)%nat && (2 * htsize p1 <? count p1)%nat then rehash mem_ht (count p1 - 1) s1 p1 (count p1 * 3) else (s1, p1) in
    exists l2, rebuilt s1 s2 p1 p2 l l2).
  { destruct (_ && _); [|exists l; unfold rebuilt; split_and; auto; [apply relinked_refl | tauto]].
    replace (count p1 - 1)%nat with (length l) by (unfold p1; cbn [count]; lia). apply rehash_spec; [exact Sh1 | unfold p1; cbn [count]; lia]. }
  destruct (if (5 <=? count p1)%nat && _ then _ else _) as [s2 p2]. destruct R2 as (l2 & Sh2 & Rl & I2 & L2 & C2).
  assert (Nl2 : ~ In new l2) by (intros K; now apply Nl, I2).
  pose proof (insertElement_spec s2 p2 l2 new Sh2 Nl2 ltac:(unfold new; lia)) as S3. unfold own_bucket, bucket in S3.
  destruct (insertElement s2 p2 _ new) as [s3 p3]. destruct S3 as (l3 & Sh3 & R3 & I3 & L3 & _ & C3 & _). cbn [fst snd]. exists l3.
  split; [|reflexivity]. apply (means_grow t l); auto.
  - intros x. rewrite I3, I2. reflexivity.
  - rewrite C3, C2, L3, L2. unfold p1. cbn [count]. now rewrite Hc.
  - intros a K. rewrite (proj1 R3), (proj1 Rl). unfold s1. rewrite put_ne by congruence. reflexivity.
  - fold new. rewrite (proj1 R3), (proj1 Rl). unfold s1. now rewrite put_eq.
Qed.

Lemma means_insert t l m mem_elem mem_ht key d : means t l m -> no_nul key ->
  let '(t', r) := sqlite3HashInsert mem_elem mem_ht t key d in
  let '(m', r') := spec_insert mem_elem m key d in
  r = r' /\ exists l', means t' l' m'.
Proof.
  intros Me Hk. destruct (means_find t l m key Me Hk) as [Df Fd]. unfold spec_insert.
  destruct (Z.eqb_spec (m (lower key)) 0) as [Z0|Z0]; cbn [negb].
  - assert (Ab : forall a, In a l -> lower (pKey (t_store t a)) <> lower key) by (destruct Fd as [(_ & _ & A) | (_ & _ & N)]; [exact A | contradiction]).
    destruct (Z.eqb_spec d 0) as [-> | Hd]; [|destruct mem_elem].
    + unfold sqlite3HashInsert. destruct (findElementWithHash _ _ key) as [r hash]. cbn [fst] in Df. rewrite Df, Z0. cbn [Z.eqb negb]. eauto.
    + destruct (means_new t l m mem_ht key d Me Hk Hd Z0 Ab) as (l' & M & R). destruct (sqlite3HashInsert true mem_ht t key d) as [t' r]. cbn [fst snd] in *. eauto.
    + unfold sqlite3HashInsert. destruct (findElementWithHash _ _ key) as [r hash]. cbn [fst] in Df. rewrite Df, Z0. cbn [Z.eqb negb].
      rewrite (proj2 (Z.eqb_neq d 0) Hd). eauto.
  - destruct Fd as [(_ & K & _) | (Hr & El & _)]; [contradiction|]. unfold sqlite3HashInsert.
    destruct (findElementWithHash _ _ key) as [r hash]. cbn [fst] in *. rewrite Df, (proj2 (Z.eqb_neq _ 0) Z0). cbn [negb].
    destruct (Z.eqb_spec d 0) as [-> | Hd].
    + pose proof (means_remove t l m r Me Hr) as M. destruct (removeElement _ _ r) as [s pH]. rewrite El in M. eauto.
    + split; [reflexivity|]. exists l. now apply (means_replace t l m r key d).
Qed.

(** The calls on a table. *)
Inductive call := CInsert (mem_elem : bool) (mem_ht : option nat) (key : list Z) (d : Z) | CFind (key : list Z) | CClear.

Definition call_key (c : call) : list Z := match c with CInsert _ _ k _ => k | CFind k => k | CClear => [] end.

Fixpoint run_calls (t : table) (cs : list call) : list Z :=
  match cs with
  | [] => []
  | CInsert me mh k d :: cs => let '(t, r) := sqlite3HashInsert me mh t k d in r :: run_calls t cs
  | CFind k :: cs => sqlite3HashFind (t_store t) (t_hash t) k :: run_calls t cs
  | CClear :: cs => run_calls (mkTable (t_store t) (sqlite3HashClear (t_hash t)) (t_brk t)) cs
  end.

Fixpoint spec_calls (m : dictionary) (cs : list call) : list Z :=
  match cs with
  | [] => []
  | CInsert me _ k d :: cs => let '(m, r) := spec_insert me m k d in r :: spec_calls m cs
  | CFind k :: cs => m (lower k) :: spec_calls m cs
  | CClear :: cs => spec_calls (fun _ => 0) cs
  end.

Lemma means_empty s n : (0 < n)%nat -> means (mkTable s sqlite3HashInit n) [] (fun _ => 0).
Proof.
  intros Hn. constructor; cbn [t_store t_hash t_brk]; auto; try (intros; contradiction); try (intros a []).
  refine (conj I (conj eq_refl (conj (NoDup_nil _) (conj (fun K => K) eq_refl)))).
Qed.

Lemma calls_agree cs : forall t l m, means t l m -> Forall (fun c => no_nul (call_key c)) cs -> run_calls t cs = spec_calls m cs.
Proof.
  induction cs as [|[me mh k d|k|] cs IH]; intros t l m Me Hc; cbn [run_calls spec_calls]; [reflexivity|..];
    apply Forall_cons_iff in Hc; cbn [call_key] in Hc; destruct Hc as [Hk Hc].
  - pose proof (means_insert t l m me mh k d Me Hk) as S. destruct (sqlite3HashInsert me mh t k d) as [t' r], (spec_insert me m k d) as [m' r'].
    destruct S as [-> (l' & M)]. f_equal. now apply (IH t' l').
  - f_equal; [apply (means_find t l m k Me Hk) | now apply (IH t l)].
  - apply (IH _ []); [|exact Hc]. apply means_empty, (me_first t l m Me).
Qed.

(** C11: A hash table refines a map: for every sequence of insertions, deletions, searches and
    clearings, with keys compared without regard to case, through chains that share one linked
    list, and whatever allocations of elements or of larger tables fail, every search returns the
    data that was inserted last, and every insertion returns the data it replaces, or its own if
    it could not be stored. *)
Theorem hash_is_map s n cs :
  (0 < n)%nat -> Forall (fun c => no_nul (call_key c)) cs ->
  run_calls (mkTable s sqlite3HashInit n) cs = spec_calls (fun _ => 0) cs.
Proof. intros Hn Hc. exact (calls_agree cs _ [] _ (means_empty s n Hn) Hc). Qed.

(** Enough keys for buckets, one of them in other case, and a removal. *)
Lemma hash_is_map_witness :
  let ins k d := CInsert true (Some 1%nat) k d in
  let cs := [ins [97] 1; ins [98] 2; ins [99] 3; ins [100] 4; ins [101; 49] 5; ins [102] 6; ins [69; 49] 7; CFind [101; 49]; ins [98] 0; CFind [98]; CFind [70]] in
  run_calls (mkTable (fun _ => mkElem 0 0 0 [] 0) sqlite3HashInit 1) cs = [0; 0; 0; 0; 0; 0; 5; 7; 2; 0; 6].
Proof.
  intros ins cs. apply (hash_is_map (fun _ => mkElem 0 0 0 [] 0) 1 cs); [lia|].
  repeat (apply Forall_cons; [cbn; repeat constructor; lia|]). apply Forall_nil.
Defined.
