(* ===== verification/RowSet.v ===== *)
(** * Sets of row numbers

    Model of rowset.c of SQLite: the list of entries with its flag of being sorted, the merge sort
    in forty buckets, the conversion between sorted lists and balanced trees, and the forest of
    trees in which the batches are tested.  An entry is on one list or in one tree at a time, so
    lists and trees are values; the pool of entries is a count.  Whether memory can be allocated
    is an argument of the operations that ask for it.  The main result is that the object refines
    a set of numbers with batches. *)

From Stdlib Require Import ZArith Lia List Bool Sorted.
From S2P Require Import Prelude.
Import ListNotations.
Local Open Scope Z_scope.

Definition ROWSET_ALLOCATION_SIZE : Z := 1024.
Definition ROWSET_ENTRY_PER_CHUNK : Z := (ROWSET_ALLOCATION_SIZE - 8) / 24.

(** A binary tree of entries; a null pointer is [Leaf]. *)
Inductive tree := Leaf | Node (pLeft : tree) (v : Z) (pRight : tree).

(** The lists by their values.  [pForest] has the trees of the list of trees. *)
Record RowSet := mkRowSet {
  nChunk : nat;
  pEntry : list Z;
  pLast : option Z;
  pForest : list tree;
  nFresh : Z;
  rs_sorted : bool;
  rs_next : bool;
  iBatch : Z
}.

(** [N] is the number of entries that fit behind the object in its allocation. *)
Definition sqlite3RowSetInit (N : Z) : RowSet := mkRowSet 0 [] None [] N true false 0.

Definition sqlite3RowSetClear (p : RowSet) : RowSet := mkRowSet 0 [] None [] 0 true false (iBatch p).

(** The pool after an entry was taken from it, or nothing. *)
Definition rowSetEntryAlloc (mem : bool) (p : RowSet) : option RowSet :=
  if nFresh p =? 0 then
    if mem
    then Some (mkRowSet (S (nChunk p)) (pEntry p) (pLast p) (pForest p) (ROWSET_ENTRY_PER_CHUNK - 1) (rs_sorted p) (rs_next p) (iBatch p))
    else None
  else Some (mkRowSet (nChunk p) (pEntry p) (pLast p) (pForest p) (nFresh p - 1) (rs_sorted p) (rs_next p) (iBatch p)).

Definition sqlite3RowSetInsert (mem : bool) (p : RowSet) (rowid : Z) : RowSet :=
  match rowSetEntryAlloc mem p with
  | None => p
  | Some p =>
      let sorted := match pLast p with Some v => if rowid <=? v then false else rs_sorted p | None => rs_sorted p end in
      let entries := match pLast p with Some _ => pEntry p ++ [rowid] | None => [rowid] end in
      mkRowSet (nChunk p) entries (Some rowid) (pForest p) (nFresh p) sorted (rs_next p) (iBatch p)
  end.

(** Merge of two lists that are not empty; an element that is on both is taken from the second. *)
Fixpoint rowSetEntryMerge (pA : list Z) : list Z -> list Z :=
  fix merge_b (pB : list Z) : list Z :=
    match pA, pB with
    | [], _ => pB
    | _, [] => pA
    | a :: pA', b :: pB' =>
        if a <=? b then
          let rest := match pA' with [] => pB | _ => rowSetEntryMerge pA' pB end in
          if a <? b then a :: rest else rest
        else b :: match pB' with [] => pA | _ => merge_b pB' end
    end.

(** The buckets of the sort; an empty list is a null pointer.  There is no bucket beyond the last. *)
Fixpoint put_bucket (aBucket : list (list Z)) (pIn : list Z) : option (list (list Z)) :=
  match aBucket with
  | [] => None
  | [] :: bs => Some (pIn :: bs)
  | b :: bs => option_map (cons []) (put_bucket bs (rowSetEntryMerge b pIn))
  end.

Fixpoint fill_buckets (pIn : list Z) (aBucket : list (list Z)) : option (list (list Z)) :=
  match pIn with
  | [] => Some aBucket
  | v :: pIn => match put_bucket aBucket [v] with Some bs => fill_buckets pIn bs | None => None end
  end.

Definition rowSetEntrySort (pIn : list Z) : option (list Z) :=
  match fill_buckets pIn (repeat [] 40) with
  | None => None
  | Some bs =>
      Some (fold_left (fun pIn b =>
              match b with [] => pIn | _ => match pIn with [] => b | _ => rowSetEntryMerge pIn b end end)
            (tl bs) (hd [] bs))
  end.

Fixpoint rowSetTreeToList (pIn : tree) : list Z :=
  match pIn with Leaf => [] | Node l v r => rowSetTreeToList l ++ v :: rowSetTreeToList r end.

(** The tree and what is left of the list. *)
Fixpoint rowSetNDeepTree (iDepth : nat) (ppList : list Z) : tree * list Z :=
  match ppList with
  | [] => (Leaf, [])
  | v :: rest =>
      match iDepth with
      | O | S O => (Node Leaf v Leaf, rest)
      | S d =>
          let '(pLeft, ppList) := rowSetNDeepTree d ppList in
          match ppList with
          | [] => (pLeft, [])
          | p :: ppList => let '(pRight, ppList) := rowSetNDeepTree d ppList in (Node pLeft p pRight, ppList)
          end
      end
  end.

(** Each turn takes at least one element, so as many turns as there are elements are enough. *)
Fixpoint list_to_tree_loop (fuel iDepth : nat) (p : tree) (pList : list Z) : tree :=
  match fuel, pList with
  | S fuel, v :: pList =>
      let '(pRight, pList) := rowSetNDeepTree iDepth pList in
      list_to_tree_loop fuel (S iDepth) (Node p v pRight) pList
  | _, _ => p
  end.

Definition rowSetListToTree (pList : list Z) : tree :=
  match pList with
  | [] => Leaf
  | v :: pList => list_to_tree_loop (length pList) 1 (Node Leaf v Leaf) pList
  end.

Definition sqlite3RowSetNext (p : RowSet) : option (RowSet * option Z) :=
  match (if rs_next p then Some (pEntry p, rs_sorted p)
         else option_map (fun l => (l, true)) (if rs_sorted p then Some (pEntry p) else rowSetEntrySort (pEntry p))) with
  | None => None
  | Some (entries, sorted) =>
      let p := mkRowSet (nChunk p) entries (pLast p) (pForest p) (nFresh p) sorted true (iBatch p) in
      match entries with
      | [] => Some (p, None)
      | [v] => Some (sqlite3RowSetClear p, Some v)
      | v :: entries => Some (mkRowSet (nChunk p) entries (pLast p) (pForest p) (nFresh p) sorted true (iBatch p), Some v)
      end
  end.

(** The loop over the forest for a sorted list: the forest, and the list if it is still to be put. *)
Fixpoint forest_put (forest : list tree) (p : list Z) : list tree * option (list Z) :=
  match forest with
  | [] => ([], Some p)
  | Leaf :: rest => (rowSetListToTree p :: rest, None)
  | t :: rest => let '(rest, o) := forest_put rest (rowSetEntryMerge (rowSetTreeToList t) p) in (Leaf :: rest, o)
  end.

Fixpoint tree_has (p : tree) (iRowid : Z) : bool :=
  match p with
  | Leaf => false
  | Node l v r => if v <? iRowid then tree_has r iRowid else if iRowid <? v then tree_has l iRowid else true
  end.

(** The new batch: what was inserted goes into the forest. *)
Definition new_batch (mem : bool) (batch : Z) (p : RowSet) : option RowSet :=
  match pEntry p with
  | [] => Some (mkRowSet (nChunk p) (pEntry p) (pLast p) (pForest p) (nFresh p) (rs_sorted p) (rs_next p) batch)
  | _ =>
      match (if rs_sorted p then Some (pEntry p) else rowSetEntrySort (pEntry p)) with
      | None => None
      | Some l =>
          let '(forest, o) := forest_put (pForest p) l in
          match o with
          | None => Some (mkRowSet (nChunk p) [] None forest (nFresh p) true (rs_next p) batch)
          | Some l =>
              match rowSetEntryAlloc mem p with
              | Some p => Some (mkRowSet (nChunk p) [] None (forest ++ [rowSetListToTree l]) (nFresh p) true (rs_next p) batch)
              | None => Some (mkRowSet (nChunk p) [] None forest (nFresh p) true (rs_next p) batch)
              end
          end
      end
  end.

Definition sqlite3RowSetTest (mem : bool) (p : RowSet) (batch iRowid : Z) : option (RowSet * bool) :=
  match (if negb (batch =? iBatch p) then new_batch mem batch p else Some p) with
  | None => None
  | Some p => Some (p, existsb (fun t => tree_has t iRowid) (pForest p))
  end.

(** ** Merging and sorting *)

Definition sorted : list Z -> Prop := StronglySorted Z.lt.

Lemma merge_cons a A b B : rowSetEntryMerge (a :: A) (b :: B) =
  if a <=? b then (if a <? b then a :: rowSetEntryMerge A (b :: B) else rowSetEntryMerge A (b :: B))
  else b :: rowSetEntryMerge (a :: A) B.
Proof. cbn [rowSetEntryMerge]. now destruct A, B. Qed.

Lemma merge_nil_r a : rowSetEntryMerge a [] = a.
Proof. now destruct a. Qed.

Lemma merge_nil_l b : rowSetEntryMerge [] b = b.
Proof. now destruct b. Qed.

Lemma merge_in a : forall b x, In x (rowSetEntryMerge a b) <-> In x a \/ In x b.
Proof.
  induction a as [|y a IHa]; intros b x; [rewrite merge_nil_l; cbn; tauto|].
  induction b as [|z b IHb]; [rewrite merge_nil_r; cbn; tauto|]. rewrite merge_cons.
  destruct (Z.leb_spec y z); [|cbn [In] in *; rewrite IHb; tauto].
  destruct (Z.ltb_spec y z); cbn [In]; rewrite IHa; cbn [In]; [tauto|]. assert (y = z) as -> by lia. tauto.
Qed.

Lemma sorted_cons x l : sorted (x :: l) <-> sorted l /\ forall y, In y l -> x < y.
Proof.
  unfold sorted. split.
  - intros H. apply StronglySorted_inv in H. destruct H as [H F]. split; [exact H|]. now apply Forall_forall.
  - intros [H F]. constructor; [exact H|]. now apply Forall_forall.
Qed.

Lemma merge_sorted a : forall b, sorted a -> sorted b -> sorted (rowSetEntryMerge a b).
Proof.
  induction a as [|y a IHa]; intros b Ha; [now rewrite merge_nil_l|]. pose proof Ha as [Sa La]%sorted_cons.
  induction b as [|z b IHb]; intros Hb; [now rewrite merge_nil_r|]. pose proof Hb as [Sb Lb]%sorted_cons. rewrite merge_cons.
  destruct (Z.leb_spec y z); [destruct (Z.ltb_spec y z)|].
  - apply sorted_cons. split; [now apply IHa|]. intros x Hx. apply merge_in in Hx. cbn [In] in Hx.
    destruct Hx as [Hx | [<- | Hx]]; [now apply La | lia | specialize (Lb x Hx); lia].
  - now apply IHa.
  - apply sorted_cons. split; [now apply IHb|]. intros x Hx. apply merge_in in Hx. cbn [In] in Hx.
    destruct Hx as [[<- | Hx] | Hx]; [lia | specialize (La x Hx); lia | now apply Lb].
Qed.

Lemma merge_nonempty a b : b <> [] -> rowSetEntryMerge a b <> [].
Proof.
  intros Hb H. destruct b as [|x b]; [congruence|].
  assert (In x (rowSetEntryMerge a (x :: b))) as I by (apply merge_in; right; now left). now rewrite H in I.
Qed.

(** The buckets count in binary: a bucket is in use if and only if its bit is set. *)
Fixpoint counts (bs : list (list Z)) (n : Z) : Prop :=
  match bs with
  | [] => n = 0
  | b :: bs => (b = [] <-> n mod 2 = 0) /\ counts bs (n / 2)
  end.

Lemma counts_empty k : counts (repeat [] k) 0.
Proof. induction k as [|k IH]; cbn [repeat counts]; [reflexivity|]. split; [split; reflexivity | exact IH]. Qed.

Definition in_buckets (bs : list (list Z)) (x : Z) : Prop := exists b, In b bs /\ In x b.

Lemma in_buckets_cons b bs x : in_buckets (b :: bs) x <-> In x b \/ in_buckets bs x.
Proof.
  unfold in_buckets. split.
  - intros (c & [<- | H] & K); [now left | right; eauto].
  - intros [H | (c & H & K)]; [exists b; split; [now left | exact H] | exists c; split; [now right | exact K]].
Qed.

Lemma put_bucket_spec bs : forall n p, 0 <= n -> n + 1 < 2 ^ Z.of_nat (length bs) -> counts bs n -> Forall sorted bs -> sorted p -> p <> [] ->
  exists bs', put_bucket bs p = Some bs' /\ length bs' = length bs /\ counts bs' (n + 1) /\ Forall sorted bs'
    /\ forall x, in_buckets bs' x <-> In x p \/ in_buckets bs x.
Proof.
  induction bs as [|b bs IH]; intros n p Hn Hlt Hc Hs Hp Hne; [cbn in Hlt; lia|].
  cbn [length] in Hlt. rewrite Nat2Z.inj_succ, Z.pow_succ_r in Hlt by lia. destruct Hc as [Hb Hc].
  apply Forall_cons_iff in Hs. destruct Hs as [Sb Sbs]. destruct b as [|x b].
  - exists (p :: bs). assert (E : n mod 2 = 0) by now apply Hb. split_and; [reflexivity..| | now apply Forall_cons |].
    + split; [split; [congruence | intros; Z.to_euclidean_division_equations; lia]|].
      replace ((n + 1) / 2) with (n / 2) by (Z.to_euclidean_division_equations; lia). exact Hc.
    + intros y. rewrite !in_buckets_cons. cbn. tauto.
  - assert (E : n mod 2 = 1) by (destruct (Z.eq_dec (n mod 2) 0) as [E0|]; [apply Hb in E0; discriminate | Z.to_euclidean_division_equations; lia]).
    destruct (IH (n / 2) (rowSetEntryMerge (x :: b) p)) as (bs' & P & L & C & S & I); auto.
    + apply Z.div_pos; lia.
    + Z.to_euclidean_division_equations; lia.
    + now apply merge_sorted.
    + now apply merge_nonempty.
    + exists ([] :: bs'). change (put_bucket ((x :: b) :: bs) p) with (option_map (cons []) (put_bucket bs (rowSetEntryMerge (x :: b) p))).
      rewrite P. split_and; [reflexivity | cbn [length]; now rewrite L | | apply Forall_cons; [constructor | exact S] |].
      * split; [split; [intros _; Z.to_euclidean_division_equations; lia | reflexivity]|].
        replace ((n + 1) / 2) with (n / 2 + 1) by (Z.to_euclidean_division_equations; lia). exact C.
      * intros y. rewrite !in_buckets_cons, I, merge_in. cbn [In]. tauto.
Qed.

Lemma fill_buckets_spec l : forall bs n, 0 <= n -> n + Z.of_nat (length l) < 2 ^ Z.of_nat (length bs) -> counts bs n -> Forall sorted bs ->
  exists bs', fill_buckets l bs = Some bs' /\ Forall sorted bs' /\ forall x, in_buckets bs' x <-> In x l \/ in_buckets bs x.
Proof.
  induction l as [|v l IH]; intros bs n Hn Hlt Hc Hs; cbn [fill_buckets].
  - exists bs. split_and; [reflexivity | exact Hs | cbn; tauto].
  - cbn [length] in Hlt. rewrite Nat2Z.inj_succ in Hlt.
    destruct (put_bucket_spec bs n [v]) as (b1 & P & L & C & S & I); auto; [lia | repeat constructor | discriminate |]. rewrite P.
    destruct (IH b1 (n + 1)) as (b2 & F & S2 & I2); auto; [lia | rewrite L; lia |].
    exists b2. split_and; [exact F | exact S2 |]. intros x. rewrite I2, I. cbn [In]. tauto.
Qed.

(** The sort gives the sorted list of the elements, each of them once. *)
Lemma sort_spec l : Z.of_nat (length l) < 2 ^ 40 ->
  exists r, rowSetEntrySort l = Some r /\ sorted r /\ forall x, In x r <-> In x l.
Proof.
  intros Hl. destruct (fill_buckets_spec l (repeat [] 40) 0) as (bs & F & S & I); [lia | rewrite repeat_length; exact Hl | apply counts_empty | apply Forall_forall; intros b Hb; apply repeat_spec in Hb; subst b; constructor |].
  unfold rowSetEntrySort. rewrite F. eexists. split; [reflexivity|].
  assert (N : forall x, ~ in_buckets (repeat [] 40) x) by (intros x (b & Hb & K); apply repeat_spec in Hb; now subst b).
  assert (G : forall cs p, Forall sorted cs -> sorted p ->
    let r := fold_left (fun pIn b => match b with [] => pIn | _ => match pIn with [] => b | _ => rowSetEntryMerge pIn b end end) cs p in
    sorted r /\ forall x, In x r <-> In x p \/ in_buckets cs x).
  { induction cs as [|c cs IH]; intros p Hc Hp; cbn [fold_left]; cbv zeta.
    - split; [exact Hp|]. intros x. split; [tauto | intros [K | (b & [] & _)]; exact K].
    - apply Forall_cons_iff in Hc. destruct Hc as [Sc Scs].
      assert (E : match c with [] => p | _ => match p with [] => c | _ => rowSetEntryMerge p c end end = rowSetEntryMerge p c)
        by (destruct c; [now rewrite merge_nil_r|]; destruct p; [now rewrite merge_nil_l | reflexivity]).
      rewrite E. destruct (IH (rowSetEntryMerge p c) Scs ltac:(now apply merge_sorted)) as [R1 R2]. split; [exact R1|].
      intros x. rewrite (R2 x), merge_in, in_buckets_cons. tauto. }
  destruct bs as [|b bs]; cbn [tl hd].
  - split; [constructor|]. intros x. split; [intros [] | intros K]. destruct (proj2 (I x) (or_introl K)) as (b & [] & _).
  - apply Forall_cons_iff in S. destruct (G bs b) as [R1 R2]; [tauto..|]. split; [exact R1|].
    intros x. rewrite (R2 x), <- in_buckets_cons, I. specialize (N x). tauto.
Qed.

(** ** Trees *)

Fixpoint height (t : tree) : nat := match t with Leaf => 0 | Node l _ r => S (Nat.max (height l) (height r)) end.

Lemma ndeep_spec d : forall l, let '(t, rest) := rowSetNDeepTree d l in
  rowSetTreeToList t ++ rest = l /\ (height t <= Nat.max 1 d)%nat
  /\ ((1 <= d)%nat -> rest <> [] -> Z.of_nat (length (rowSetTreeToList t)) = 2 ^ Z.of_nat d - 1).
Proof.
  induction d as [|d IH]; intros [|v l]; try (cbn; split_and; [reflexivity | lia | (lia || congruence)]).
  destruct d as [|d]; [cbn; split_and; [reflexivity | lia | intros; reflexivity]|]. set (e := S d) in *. cbn [rowSetNDeepTree]. unfold e at 1.
  pose proof (IH (v :: l)) as H1. destruct (rowSetNDeepTree e (v :: l)) as [t1 [|p r1]] eqn:E1.
  - destruct H1 as (A & B & C). split_and; [exact A | lia | congruence].
  - destruct H1 as (A & B & C). pose proof (IH r1) as H2. destruct (rowSetNDeepTree e r1) as [t2 r2]. destruct H2 as (A2 & B2 & C2).
    cbn [rowSetTreeToList height]. rewrite <- A, <- app_assoc. cbn [app]. rewrite A2. split_and; [reflexivity | lia |].
    intros _ Hr. rewrite length_app. cbn [length]. rewrite Nat2Z.inj_add, Nat2Z.inj_succ, C, C2, (Nat2Z.inj_succ e), Z.pow_succ_r
      by (unfold e in *; lia || discriminate || exact Hr). lia.
Qed.

Lemma list_loop_spec fuel : forall d p l, (length l <= fuel)%nat -> (1 <= d)%nat -> (height p <= d)%nat ->
  Z.of_nat (length (rowSetTreeToList p)) = 2 ^ Z.of_nat d - 1 ->
  let t := list_to_tree_loop fuel d p l in
  rowSetTreeToList t = rowSetTreeToList p ++ l /\ 2 ^ (Z.of_nat (height t) - 1) <= Z.of_nat (length (rowSetTreeToList t)).
Proof.
  assert (Pw : forall h d : nat, (1 <= d)%nat -> (h <= d)%nat -> 2 ^ (Z.of_nat h - 1) <= 2 ^ Z.of_nat d - 1).
  { intros h d Hd Hh. pose proof (Z.pow_le_mono_r 2 (Z.of_nat h - 1) (Z.of_nat d - 1) ltac:(lia) ltac:(lia)) as A.
    replace (Z.of_nat d) with (Z.succ (Z.of_nat d - 1)) by lia. rewrite Z.pow_succ_r by lia.
    pose proof (Z.pow_pos_nonneg 2 (Z.of_nat d - 1) ltac:(lia) ltac:(lia)). replace (Z.succ (Z.of_nat d - 1) - 1) with (Z.of_nat d - 1) by lia. lia. }
  induction fuel as [|fuel IH]; intros d p l Hl Hd Hh Hn.
  - destruct l; [|cbn in Hl; lia]. cbn. rewrite app_nil_r. split; [reflexivity|]. rewrite Hn. auto.
  - destruct l as [|v l]; [cbn; rewrite app_nil_r; split; [reflexivity|]; rewrite Hn; auto|]. cbn [list_to_tree_loop].
    pose proof (ndeep_spec d l) as S. destruct (rowSetNDeepTree d l) as [t rest]. destruct S as (A & B & C). cbv zeta.
    assert (El : (length rest <= length l)%nat) by (rewrite <- A, length_app; lia). cbn [length] in Hl.
    destruct rest as [|w rest].
    + rewrite app_nil_r in A. subst l. replace (list_to_tree_loop fuel (S d) (Node p v t) []) with (Node p v t) by now destruct fuel.
      cbn [rowSetTreeToList height]. split; [reflexivity|]. rewrite length_app. cbn [length].
      replace (Z.of_nat (S (Nat.max (height p) (height t))) - 1) with (Z.of_nat (Nat.max (height p) (height t))) by lia.
      pose proof (Z.pow_le_mono_r 2 (Z.of_nat (Nat.max (height p) (height t))) (Z.of_nat d) ltac:(lia) ltac:(lia)). lia.
    + specialize (IH (S d) (Node p v t) (w :: rest) ltac:(lia) ltac:(lia)). cbn [rowSetTreeToList height] in IH.
      destruct IH as [I1 I2]; [lia | |].
      * rewrite length_app. cbn [length]. rewrite Nat2Z.inj_add, !Nat2Z.inj_succ, Hn, C, Z.pow_succ_r by (lia || discriminate). lia.
      * split; [|exact I2]. rewrite I1, <- app_assoc. cbn [app]. now rewrite A.
Qed.

(** A list becomes a tree with the same elements in order, whose height is logarithmic. *)
Lemma list_to_tree_spec l : rowSetTreeToList (rowSetListToTree l) = l
  /\ (l <> [] -> 2 ^ (Z.of_nat (height (rowSetListToTree l)) - 1) <= Z.of_nat (length l)).
Proof.
  destruct l as [|v l]; [split; [reflexivity | congruence]|].
  destruct (list_loop_spec (length l) 1 (Node Leaf v Leaf) l) as [A B]; [lia | lia | cbn; lia | reflexivity |]. cbn [rowSetListToTree].
  split; [exact A|]. intros _. cbv zeta in B. rewrite A in B. exact B.
Qed.

Lemma sorted_middle l v r : sorted (l ++ v :: r) ->
  sorted l /\ sorted r /\ (forall y, In y l -> y < v) /\ (forall y, In y r -> v < y).
Proof.
  induction l as [|x l IH]; cbn [app]; intros H.
  - apply sorted_cons in H. split_and; [constructor | tauto | intros y [] | tauto].
  - apply sorted_cons in H. destruct H as [H F]. destruct (IH H) as (A & B & C & D). split_and; auto.
    + apply sorted_cons. split; [exact A|]. intros y Hy. apply F, in_or_app. now left.
    + intros y [<- | Hy]; [apply F, in_or_app; right; now left | now apply C].
Qed.

Lemma tree_has_spec t x : sorted (rowSetTreeToList t) -> tree_has t x = true <-> In x (rowSetTreeToList t).
Proof.
  induction t as [|l IHl v r IHr]; intros S; cbn [tree_has rowSetTreeToList]; [cbn; split; [discriminate | intros []]|].
  cbn [rowSetTreeToList] in S. apply sorted_middle in S. destruct S as (Sl & Sr & Ll & Lr). rewrite in_app_iff. cbn [In].
  destruct (Z.ltb_spec v x); [|destruct (Z.ltb_spec x v)].
  - rewrite (IHr Sr). split; [tauto|]. intros [H1 | [H1 | H1]]; [specialize (Ll x H1); lia | lia | exact H1].
  - rewrite (IHl Sl). split; [tauto|]. intros [H1 | [H1 | H1]]; [exact H1 | lia | specialize (Lr x H1); lia].
  - split; [intros _; right; left; lia | reflexivity].
Qed.

(** ** The forest *)

Definition forest_ok (f : list tree) : Prop := Forall (fun t => sorted (rowSetTreeToList t)) f.
Definition in_forest (f : list tree) (x : Z) : Prop := exists t, In t f /\ In x (rowSetTreeToList t).

Lemma in_forest_cons t f x : in_forest (t :: f) x <-> In x (rowSetTreeToList t) \/ in_forest f x.
Proof.
  unfold in_forest. split.
  - intros (c & [<- | H] & K); [now left | right; eauto].
  - intros [H | (c & H & K)]; [exists t; split; [now left | exact H] | exists c; split; [now right | exact K]].
Qed.

Lemma in_forest_nil x : in_forest [] x <-> False.
Proof. split; [intros (t & [] & _) | intros []]. Qed.

Lemma forest_put_spec f : forall l, forest_ok f -> sorted l ->
  let '(f', o) := forest_put f l in
  forest_ok f' /\ match o with None => forall x, in_forest f' x <-> In x l \/ in_forest f x
                             | Some r => sorted r /\ forall x, in_forest f' x \/ In x r <-> In x l \/ in_forest f x end.
Proof.
  induction f as [|t f IH]; intros l Hf Hl; cbn [forest_put].
  - split; [constructor|]. split; [exact Hl | tauto].
  - apply Forall_cons_iff in Hf. destruct Hf as [Ht Hf]. destruct t as [|a v b].
    + destruct (list_to_tree_spec l) as [E _]. split; [apply Forall_cons; [now rewrite E | exact Hf]|].
      intros x. rewrite !in_forest_cons, E. cbn. tauto.
    + set (t := Node a v b) in *. specialize (IH (rowSetEntryMerge (rowSetTreeToList t) l) Hf ltac:(now apply merge_sorted)).
      destruct (forest_put f (rowSetEntryMerge (rowSetTreeToList t) l)) as [f' o]. destruct IH as [F G].
      split; [apply Forall_cons; [constructor | exact F]|]. destruct o as [r|].
      * destruct G as [Sr G]. split; [exact Sr|]. intros x. specialize (G x). rewrite merge_in in G. rewrite !in_forest_cons.
        cbn [rowSetTreeToList In]. tauto.
      * intros x. specialize (G x). rewrite merge_in in G. rewrite !in_forest_cons. change (rowSetTreeToList Leaf) with (@nil Z). cbn [In]. tauto.
Qed.

(** ** A set with batches *)

(** The calls between which tests can be made; [mem] says whether memory can be allocated. *)
Inductive op := Insert (mem : bool) (rowid : Z) | Test (mem : bool) (batch rowid : Z).

Definition op_mem (o : op) : bool := match o with Insert m _ => m | Test m _ _ => m end.

(** The object after the calls, and the answers of the tests. *)
Fixpoint run (p : RowSet) (ops : list op) : option (RowSet * list bool) :=
  match ops with
  | [] => Some (p, [])
  | Insert m v :: ops => run (sqlite3RowSetInsert m p v) ops
  | Test m b v :: ops =>
      match sqlite3RowSetTest m p b v with
      | None => None
      | Some (p, a) => match run p ops with None => None | Some (p, l) => Some (p, a :: l) end
      end
  end.

(** What the comment at the head of the file promises: a test sees what was inserted before the
    last change of the batch number. *)
Record batches := mkBatches { visible : list Z; pending : list Z; batch : Z }.

Definition change (b : Z) (s : batches) : batches :=
  if b =? batch s then s else mkBatches (pending s ++ visible s) [] b.

Fixpoint answers (s : batches) (ops : list op) : list bool :=
  match ops with
  | [] => []
  | Insert _ v :: ops => answers (mkBatches (visible s) (v :: pending s) (batch s)) ops
  | Test _ b v :: ops => let s := change b s in existsb (Z.eqb v) (visible s) :: answers s ops
  end.

Definition balanced (t : tree) : Prop :=
  t = Leaf \/ 2 ^ (Z.of_nat (height t) - 1) <= Z.of_nat (length (rowSetTreeToList t)).

(** The object stands for a state of the set; [full] says that nothing was lost. *)
Record stands (full : bool) (p : RowSet) (s : batches) : Prop := {
  st_entry x : In x (pEntry p) -> In x (pending s);
  st_entry_full x : full = true -> In x (pending s) -> In x (pEntry p);
  st_forest x : in_forest (pForest p) x -> In x (visible s);
  st_forest_full x : full = true -> In x (visible s) -> in_forest (pForest p) x;
  st_sorted : rs_sorted p = true -> sorted (pEntry p);
  st_last : match pLast p with None => pEntry p = [] | Some v => exists l, pEntry p = l ++ [v] end;
  st_ok : forest_ok (pForest p) /\ Forall balanced (pForest p);
  st_batch : iBatch p = batch s
}.

Lemma stands_weaken full p s : stands full p s -> stands false p s.
Proof. intros [A B C D E F G H]. constructor; auto; discriminate. Qed.

Lemma alloc_fields m p q : rowSetEntryAlloc m p = Some q ->
  pEntry q = pEntry p /\ pLast q = pLast p /\ pForest q = pForest p /\ rs_sorted q = rs_sorted p /\ iBatch q = iBatch p.
Proof.
  unfold rowSetEntryAlloc. destruct (nFresh p =? 0); [destruct m; [|discriminate]|]; intros H; apply (f_equal (fun o => match o with Some x => x | None => p end)) in H;
    subst q; repeat split.
Qed.

Lemma sorted_snoc l v w : sorted (l ++ [v]) -> v < w -> sorted ((l ++ [v]) ++ [w]).
Proof.
  induction l as [|x l IH]; cbn [app]; intros H Hw.
  - repeat constructor. lia.
  - apply sorted_cons in H. destruct H as [H F]. apply sorted_cons. split; [now apply IH|]. intros y Hy.
    apply in_app_or in Hy. destruct Hy as [Hy | [<- | []]]; [now apply F|]. assert (x < v); [|lia]. apply F, in_or_app. right. now left.
Qed.

Lemma insert_stands full m p s v : stands full p s -> (full = true -> m = true) ->
  stands full (sqlite3RowSetInsert m p v) (mkBatches (visible s) (v :: pending s) (batch s))
  /\ (length (pEntry (sqlite3RowSetInsert m p v)) <= S (length (pEntry p)))%nat.
Proof.
  intros [A B C D E F G H] Hm. unfold sqlite3RowSetInsert. destruct (rowSetEntryAlloc m p) as [q|] eqn:Q.
  - destruct (alloc_fields m p q Q) as (Q1 & Q2 & Q3 & Q4 & Q5). rewrite Q1, Q2, Q3, Q4, Q5.
    set (entries := match pLast p with Some _ => pEntry p ++ [v] | None => [v] end).
    assert (Ee : entries = pEntry p ++ [v]) by (unfold entries; destruct (pLast p); [reflexivity | now rewrite F]).
    split; [|cbn [pEntry]; rewrite Ee, length_app; cbn; lia].
    constructor; cbn [pEntry pLast pForest rs_sorted iBatch visible pending batch]; auto; rewrite ?Ee.
    + intros x Hx. apply in_app_or in Hx. destruct Hx as [Hx | [<- | []]]; [right; now apply A | now left].
    + intros x Hf [<- | Hx]; apply in_or_app; [right; now left | left; now apply B].
    + destruct (pLast p) as [w|]; [|intros _; rewrite F; repeat constructor].
      destruct (Z.leb_spec v w); [discriminate|]. intros Hs. destruct F as [l F]. rewrite F in *. apply sorted_snoc; auto.
    + now exists (pEntry p).
  - assert (Hf : full <> true).
    { intros Hf. rewrite (Hm Hf) in Q. unfold rowSetEntryAlloc in Q. destruct (nFresh p =? 0); discriminate. }
    split; [|lia]. constructor; cbn [visible pending batch]; auto; [intros x Hx; right; now apply A | congruence].
Qed.

Lemma list_to_tree_balanced l : balanced (rowSetListToTree l).
Proof.
  destruct l as [|v l]; [now left|]. right. destruct (list_to_tree_spec (v :: l)) as [-> H]. apply H. discriminate.
Qed.

Lemma forest_put_balanced f : forall l, Forall balanced f -> Forall balanced (fst (forest_put f l)).
Proof.
  induction f as [|t f IH]; intros l H; cbn [forest_put]; [constructor|]. apply Forall_cons_iff in H. destruct H as [Ht Hf].
  destruct t as [|a v b]; [apply Forall_cons; [apply list_to_tree_balanced | exact Hf]|].
  specialize (IH (rowSetEntryMerge (rowSetTreeToList (Node a v b)) l) Hf).
  destruct (forest_put f (rowSetEntryMerge (rowSetTreeToList (Node a v b)) l)). apply Forall_cons; [now left | exact IH].
Qed.

Lemma in_forest_app f g x : in_forest (f ++ g) x <-> in_forest f x \/ in_forest g x.
Proof.
  induction f as [|t f IH]; cbn [app]; [rewrite in_forest_nil; tauto|]. rewrite !in_forest_cons, IH. tauto.
Qed.

(** A new batch makes what is pending visible. *)
Lemma batch_stands full m b p s : stands full p s -> (full = true -> m = true) -> b <> batch s ->
  Z.of_nat (length (pEntry p)) < 2 ^ 40 ->
  exists q, new_batch m b p = Some q /\ stands full q (mkBatches (pending s ++ visible s) [] b)
    /\ pEntry q = [].
Proof.
  intros St Hm Hb Hl. pose proof St as [A B C D E F [G G'] H]. unfold new_batch. destruct (pEntry p) as [|w l0] eqn:Ep.
  - eexists. split; [reflexivity|]. split; [|reflexivity].
    constructor; cbn [pEntry pLast pForest rs_sorted iBatch visible pending batch]; auto.
    + intros x Hx. apply in_or_app. right. now apply C.
    + intros x Hf Hx. apply in_app_or in Hx. destruct Hx as [Hx | Hx]; [exfalso; now apply (B x Hf) | now apply D].
  - set (entries := w :: l0) in *.
    assert (Hs : exists l, (if rs_sorted p then Some entries else rowSetEntrySort entries) = Some l /\ sorted l /\ forall x, In x l <-> In x entries).
    { destruct (rs_sorted p); [exists entries; split_and; auto; reflexivity | now apply sort_spec]. }
    destruct Hs as (l & -> & Sl & Il).
    assert (V : forall x, In x l \/ in_forest (pForest p) x -> In x (pending s ++ visible s))
      by (intros x [K | K]; apply in_or_app; [left; now apply A, Il | right; now apply C]).
    assert (V' : full = true -> forall x, In x (pending s ++ visible s) -> In x l \/ in_forest (pForest p) x)
      by (intros Hf x K; apply in_app_or in K; destruct K as [K | K]; [left; now apply Il, B | right; now apply D]).
    pose proof (forest_put_spec (pForest p) l G Sl) as P. pose proof (forest_put_balanced (pForest p) l G') as P'.
    destruct (forest_put (pForest p) l) as [f [r|]]; cbn [fst] in P'; destruct P as [Pf Pi].
    + destruct Pi as [Sr Pi]. destruct (list_to_tree_spec r) as [Er _].
      assert (Pr : forall x, in_forest (f ++ [rowSetListToTree r]) x <-> in_forest f x \/ In x r)
        by (intros x; rewrite in_forest_app, in_forest_cons, Er, in_forest_nil; tauto).
      destruct (rowSetEntryAlloc m p) as [q|] eqn:Q; eexists; (split; [reflexivity|]); split; try reflexivity;
        constructor; cbn [pEntry pLast pForest rs_sorted iBatch visible pending batch]; auto; try (intros _; constructor); try contradiction.
      * intros x Hx. now apply V, Pi, Pr.
      * intros x Hf Hx. now apply Pr, Pi, V'.
      * split; apply Forall_app; split; auto; apply Forall_cons; auto; [now rewrite Er | apply list_to_tree_balanced].
      * intros x Hx. apply V, Pi. now left.
      * intros x Hf. exfalso. rewrite (Hm Hf) in Q. unfold rowSetEntryAlloc in Q. destruct (nFresh p =? 0); discriminate.
    + eexists. split; [reflexivity|]. split; [|reflexivity].
      constructor; cbn [pEntry pLast pForest rs_sorted iBatch visible pending batch]; auto; try (intros _; constructor); try contradiction.
      * intros x Hx. now apply V, Pi.
      * intros x Hf Hx. now apply Pi, V'.
Qed.

Lemma forest_answer full p s v : stands full p s ->
  implb (existsb (fun t => tree_has t v) (pForest p)) (existsb (Z.eqb v) (visible s)) = true
  /\ (full = true -> existsb (fun t => tree_has t v) (pForest p) = existsb (Z.eqb v) (visible s)).
Proof.
  intros [A B C D E F [G _] H].
  assert (L : existsb (fun t => tree_has t v) (pForest p) = true <-> in_forest (pForest p) v).
  { rewrite existsb_exists. unfold in_forest. split; intros (t & Ht & K); exists t; (split; [exact Ht|]);
      apply (tree_has_spec t v (proj1 (Forall_forall _ _) G t Ht)), K. }
  assert (R : existsb (Z.eqb v) (visible s) = true <-> In v (visible s)).
  { rewrite existsb_exists. split; [intros (x & Hx & K); apply Z.eqb_eq in K; now subst | intros Hx; exists v; split; [exact Hx | apply Z.eqb_refl]]. }
  split; [apply implb_true_iff; rewrite L, R; apply C|]. intros Hf. apply eq_true_iff_eq. rewrite L, R. split; [apply C | now apply D].
Qed.

Lemma run_stands full ops : forall p s, stands full p s -> (full = true -> forallb op_mem ops = true) ->
  Z.of_nat (length (pEntry p) + length ops) < 2 ^ 40 ->
  exists q l, run p ops = Some (q, l) /\ Forall2 (fun a b => implb a b = true) l (answers s ops)
    /\ (full = true -> l = answers s ops) /\ Forall balanced (pForest q).
Proof.
  induction ops as [|[m v|m b v] ops IH]; intros p s St Hm Hl; cbn [run answers length] in *.
  - exists p, []. split_and; auto. apply (st_ok _ _ _ St).
  - destruct (insert_stands full m p s v St) as [St' L]; [intros Hf; specialize (Hm Hf); now apply andb_true_iff in Hm|].
    apply IH; [exact St' | intros Hf; specialize (Hm Hf); now apply andb_true_iff in Hm | lia].
  - assert (Hm' : full = true -> m = true /\ forallb op_mem ops = true) by (intros Hf; specialize (Hm Hf); now apply andb_true_iff in Hm).
    assert (Q : exists q, (if negb (b =? iBatch p) then new_batch m b p else Some p) = Some q /\ stands full q (change b s)
      /\ (length (pEntry q) <= length (pEntry p))%nat).
    { unfold change. rewrite (st_batch _ _ _ St). destruct (Z.eqb_spec b (batch s)) as [_|N]; cbn [negb]; [exists p; auto|].
      destruct (batch_stands full m b p s St) as (q & Q & St' & Eq); [tauto | exact N | lia |].
      exists q. rewrite Eq. cbn [length]. split_and; auto. lia. }
    destruct Q as (q & Q & Sq & Lq). unfold sqlite3RowSetTest. rewrite Q. destruct (forest_answer full q (change b s) v Sq) as [F1 F2].
    destruct (IH q (change b s) Sq) as (q' & l & R & R1 & R2 & R3); [tauto | lia |]. rewrite R.
    eexists q', _. split_and; [reflexivity | now constructor | | exact R3]. intros Hf. now rewrite F2, R2.
Qed.

(** C12: A set of row numbers refines a set with batches: through lists, merge sort in buckets and
    a forest of search trees, every test of every sequence of fewer than 2^40 insertions and
    tests answers whether the number was inserted before the last change of the batch number;
    if memory runs out, numbers can be missing but none is made up; and every tree that is
    searched is balanced. *)
Theorem rowset_is_set N ops :
  Z.of_nat (length ops) < 2 ^ 40 ->
  exists p l, run (sqlite3RowSetInit N) ops = Some (p, l)
    /\ (forallb op_mem ops = true -> l = answers (mkBatches [] [] 0) ops)
    /\ Forall2 (fun a b => implb a b = true) l (answers (mkBatches [] [] 0) ops)
    /\ Forall balanced (pForest p).
Proof.
  intros Hl. assert (S0 : forall full, stands full (sqlite3RowSetInit N) (mkBatches [] [] 0)).
  { intros full. constructor; cbn; auto; try contradiction; try (intros; now apply in_forest_nil in H); try (intros _; constructor).
    split; constructor. }
  destruct (run_stands (forallb op_mem ops) ops (sqlite3RowSetInit N) _ (S0 _) (fun H => H)) as (p & l & R & R1 & R2 & R3); [exact Hl|].
  exists p, l. split_and; auto.
Qed.

(** Numbers that are inserted out of order and twice, and tested in two batches. *)
Lemma rowset_is_set_witness :
  let ops := [Insert true 5; Insert true 3; Insert true 5; Test true 1 3; Insert true 4; Test true 1 4; Test true 2 4] in
  exists p l, run (sqlite3RowSetInit 10) ops = Some (p, l) /\ l = [true; false; true].
Proof.
  intros ops. destruct (rowset_is_set 10 ops ltac:(cbn; lia)) as (p & l & R & E & _). exists p, l.
  split; [exact R | exact (E eq_refl)].
Defined.

(** ** Extraction *)

(** What [k] calls of [sqlite3RowSetNext] return. *)
Fixpoint nexts (k : nat) (p : RowSet) : option (list (option Z)) :=
  match k with
  | O => Some []
  | S k => match sqlite3RowSetNext p with None => None | Some (p, v) => option_map (cons v) (nexts k p) end
  end.

Lemma nexts_empty k p : pEntry p = [] -> rs_sorted p = true -> nexts k p = Some (repeat None k).
Proof.
  revert p. induction k as [|k IH]; intros p He Hs; [reflexivity|]. cbn [nexts]. unfold sqlite3RowSetNext. rewrite He, Hs.
  destruct (rs_next p); cbn [option_map]; rewrite IH by reflexivity; reflexivity.
Qed.

Lemma nexts_list k r : forall p, rs_next p = true -> rs_sorted p = true -> pEntry p = r -> r <> [] ->
  nexts (length r + k) p = Some (map Some r ++ repeat None k).
Proof.
  induction r as [|v r IH]; intros p Hn Hs He Hr; [congruence|]. cbn [length Nat.add nexts]. unfold sqlite3RowSetNext. rewrite Hn, He.
  destruct r as [|w r]; [rewrite nexts_empty by reflexivity; reflexivity|].
  rewrite IH; [reflexivity | reflexivity | exact Hs | reflexivity | discriminate].
Qed.

Lemma inserts_stand l : forall p s, stands true p s ->
  let q := fold_left (sqlite3RowSetInsert true) l p in
  exists s', stands true q s' /\ (forall x, In x (pending s') <-> In x l \/ In x (pending s))
    /\ (length (pEntry q) <= length l + length (pEntry p))%nat /\ rs_next q = rs_next p.
Proof.
  induction l as [|v l IH]; intros p s St; cbn [fold_left].
  - exists s. split_and; auto. cbn. tauto.
  - destruct (insert_stands true true p s v St) as [St' L]; [auto|]. destruct (IH _ _ St') as (s' & A & B & C & D). exists s'.
    split_and; [exact A | intros x; rewrite B; cbn [pending In]; tauto | cbn [length]; lia |]. rewrite D. unfold sqlite3RowSetInsert.
    destruct (rowSetEntryAlloc true p) as [q|] eqn:Q; [|reflexivity]. unfold rowSetEntryAlloc in Q. cbn [rs_next].
    destruct (nFresh p =? 0); apply (f_equal (fun o => match o with Some x => rs_next x | None => true end)) in Q; cbn [rs_next] in Q; congruence.
Qed.

(** C26: Extraction from a set of row numbers gives every number that was inserted exactly once, in
    increasing order, whatever the order of the insertions and however often a number was
    inserted, and then, as often as it is asked, that the set is empty. *)
Theorem rowset_sorted N l k :
  Z.of_nat (length l) < 2 ^ 40 ->
  exists r, StronglySorted Z.lt r /\ (forall x, In x r <-> In x l)
    /\ nexts (length r + k) (fold_left (sqlite3RowSetInsert true) l (sqlite3RowSetInit N)) = Some (map Some r ++ repeat None k).
Proof.
  intros Hl. assert (S0 : stands true (sqlite3RowSetInit N) (mkBatches [] [] 0)).
  { constructor; cbn; auto; try contradiction; try (intros; now apply in_forest_nil in H); try (intros _; constructor). split; constructor. }
  destruct (inserts_stand l _ _ S0) as (s & St & Pe & Le & Nx). set (p := fold_left _ l _) in *. cbn [pEntry sqlite3RowSetInit length rs_next] in *.
  assert (In_p : forall x, In x (pEntry p) <-> In x l).
  { intros x. specialize (Pe x). cbn [pending In] in Pe. pose proof (st_entry _ _ _ St x). pose proof (st_entry_full _ _ _ St x eq_refl). tauto. }
  assert (R : exists r, (if rs_sorted p then Some (pEntry p) else rowSetEntrySort (pEntry p)) = Some r /\ sorted r /\ forall x, In x r <-> In x (pEntry p)).
  { destruct (rs_sorted p) eqn:Es; [exists (pEntry p); split_and; [reflexivity | now apply (st_sorted _ _ _ St) | tauto]|].
    apply sort_spec. lia. }
  destruct R as (r & Er & Sr & Ir). exists r. split_and; [exact Sr | intros x; rewrite Ir; apply In_p |].
  set (p1 := mkRowSet (nChunk p) r (pLast p) (pForest p) (nFresh p) true true (iBatch p)).
  assert (First : forall n, nexts (S n) p = nexts (S n) p1).
  { intros n. cbn [nexts]. unfold sqlite3RowSetNext at 1. rewrite Nx, Er. cbn [option_map]. reflexivity. }
  destruct r as [|v r].
  - destruct k as [|k]; [reflexivity|]. cbn [length Nat.add]. rewrite First. apply nexts_empty; reflexivity.
  - cbn [length Nat.add]. rewrite First. apply (nexts_list k (v :: r) p1); try reflexivity. discriminate.
Qed.

Lemma rowset_sorted_witness :
  nexts 4 (fold_left (sqlite3RowSetInsert true) [7; -2; 7; 5] (sqlite3RowSetInit 2)) = Some [Some (-2); Some 5; Some 7; None]
  /\ exists r, StronglySorted Z.lt r /\ (forall x, In x r <-> In x [7; -2; 7; 5]).
Proof.
  split; [vm_compute; reflexivity|]. destruct (rowset_sorted 2 [7; -2; 7; 5] 1 ltac:(cbn; lia)) as (r & S & I & _). exists r. auto.
Defined.
