(* ===== verification/Prng.v ===== *)
(** * The random number generator of SQLite

    Model of random.c: the ChaCha20 block function over the state of sixteen words, and
    sqlite3_randomness, which hands out the bytes of a block from its end for short requests and
    from its start for the rest of longer ones.  The bytes from the operating system are an
    argument of the calls that need them, as are the result of sqlite3_initialize and the byte
    order of the host; the mutex is left out.  [Rfc7539] is the block function of the RFC, apart
    from the code.  The result is that all calls together return bytes of the key streams of
    the RFC for the seeds taken, none of them handed out twice. *)

From Stdlib Require Import ZArith Lia List Bool.
From S2P Require Import Prelude ChaCha20.
Import ListNotations.
Local Open Scope Z_scope.

(** The words [s], the bytes [out] and the number [n] of bytes that are left. *)
Record sqlite3PrngType := mkPrng { s : list Z; out : list Z; n : nat }.

(** ** The block function *)

(** The macros ROTL and QR are [ROL32] and [CC20QR], whose text is the same. *)
Definition chacha_turn (x : list Z) : list Z :=
  let x := CC20QR x 0 4 8 12 in
  let x := CC20QR x 1 5 9 13 in
  let x := CC20QR x 2 6 10 14 in
  let x := CC20QR x 3 7 11 15 in
  let x := CC20QR x 0 5 10 15 in
  let x := CC20QR x 1 6 11 12 in
  let x := CC20QR x 2 7 8 13 in
  CC20QR x 3 4 9 14.

Definition chacha_block (inp : list Z) : list Z :=
  let x := Nat.iter 10 chacha_turn inp in
  map (fun i => u32 (x.[i] + inp.[i])) (seq 0 16).

(** ** Requests *)

(** Words in the memory of the host. *)
Definition store_words (le : bool) (w : list Z) : list Z := flat_map (if le then STORE32_LE else STORE32_BE) w.
Definition load_word (le : bool) (p : list Z) (o : nat) : Z :=
  if le then LOAD32_LE p o else LOAD32_LE (rev (slice p o 4)) 0.

Definition chacha20_init : list Z := [0x61707865; 0x3320646e; 0x79622d32; 0x6b206574].

(** The state is filled in when its first word is zero; [seed] are the 44 bytes of the system. *)
Definition prng_seed (le : bool) (seed : list Z) (p : sqlite3PrngType) : sqlite3PrngType :=
  if (s p).[0] =? 0 then
    let w := chacha20_init ++ map (fun i => load_word le seed (4 * i)) (seq 0 11) ++ [(s p).[15]] in
    let w := w.[15 <- w.[12]] in
    let w := w.[12 <- 0] in
    mkPrng w (out p) 0
  else p.

(** The loop; [zBuf] is what was written so far. *)
Fixpoint randomness_loop (fuel : nat) (le : bool) (N : nat) (zBuf : list Z) (p : sqlite3PrngType) : option (list Z * sqlite3PrngType) :=
  match fuel with
  | O => None
  | S fuel =>
      if (N <=? n p)%nat then Some (zBuf ++ slice (out p) (n p - N) N, mkPrng (s p) (out p) (n p - N))
      else
        let '(zBuf, N) := if (0 <? n p)%nat then (zBuf ++ firstn (n p) (out p), (N - n p)%nat) else (zBuf, N) in
        let w := (s p).[12 <- u32 ((s p).[12] + 1)] in
        randomness_loop fuel le N zBuf (mkPrng w (store_words le (chacha_block w)) 64)
  end.

(** [init] is the result of sqlite3_initialize, and [pBuf] tells whether there is a buffer. *)
Definition sqlite3_randomness (le : bool) (init : Z) (seed : list Z) (N : Z) (pBuf : bool) (p : sqlite3PrngType) : option (list Z * sqlite3PrngType) :=
  if negb (init =? 0) then Some ([], p)
  else if (N <=? 0) || negb pBuf then Some ([], mkPrng ((s p).[0 <- 0]) (out p) (n p))
  else
    let p := prng_seed le seed p in
    randomness_loop (S (Z.to_nat N)) le (Z.to_nat N) [] p.

(** Saving and restoring for tests: the generator and the copy. *)
Definition sqlite3PrngSaveState (p saved : sqlite3PrngType) : sqlite3PrngType * sqlite3PrngType := (p, p).
Definition sqlite3PrngRestoreState (p saved : sqlite3PrngType) : sqlite3PrngType * sqlite3PrngType := (saved, saved).

(** ** ChaCha20 in RFC 7539

    The block function of sections 2.1 to 2.3, in arithmetic and apart from the code. *)

Module Rfc7539.

Definition plus (a b : Z) : Z := (a + b) mod 2 ^ 32.
Definition rotl (x k : Z) : Z := (x * 2 ^ k) mod 2 ^ 32 + x / 2 ^ (32 - k).

Definition quarter (a b c d : Z) : Z * Z * Z * Z :=
  let a := plus a b in let d := rotl (Z.lxor d a) 16 in
  let c := plus c d in let b := rotl (Z.lxor b c) 12 in
  let a := plus a b in let d := rotl (Z.lxor d a) 8 in
  let c := plus c d in let b := rotl (Z.lxor b c) 7 in
  (a, b, c, d).

Definition quarter_round (x : list Z) (q : nat * nat * nat * nat) : list Z :=
  let '(i, j, k, l) := q in
  let '(a, b, c, d) := quarter x.[i] x.[j] x.[k] x.[l] in
  x.[i <- a].[j <- b].[k <- c].[l <- d].

Definition columns : list (nat * nat * nat * nat) := [(0, 4, 8, 12); (1, 5, 9, 13); (2, 6, 10, 14); (3, 7, 11, 15)]%nat.
Definition diagonals : list (nat * nat * nat * nat) := [(0, 5, 10, 15); (1, 6, 11, 12); (2, 7, 8, 13); (3, 4, 9, 14)]%nat.
Definition inner_block (x : list Z) : list Z := fold_left quarter_round (columns ++ diagonals) x.

Definition digits (w : Z) : list Z := map (fun i => w / 256 ^ Z.of_nat i mod 256) (seq 0 4).
Definition block (x : list Z) : list Z :=
  let y := Nat.iter 10 inner_block x in flat_map (fun i => digits (plus y.[i] x.[i])) (seq 0 16).

(** The state: "expand 32-byte k", the key, the counter and the nonce. *)
Definition word (l : list Z) (i : nat) : Z := le_num (slice l (4 * i) 4).
Definition sigma : list Z := [101; 120; 112; 97; 110; 100; 32; 51; 50; 45; 98; 121; 116; 101; 32; 107].
Definition state (key nonce : list Z) (counter : Z) : list Z :=
  map (word sigma) (seq 0 4) ++ map (word key) (seq 0 8) ++ [counter] ++ map (word nonce) (seq 0 3).

(** The code's quarter round on four words. *)
Definition code_quarter (a b c d : Z) : Z * Z * Z * Z :=
  let a := u32 (a + b) in let d := ROL32 (Z.lxor d a) 16 in
  let c := u32 (c + d) in let b := ROL32 (Z.lxor b c) 12 in
  let a := u32 (a + b) in let d := ROL32 (Z.lxor d a) 8 in
  let c := u32 (c + d) in let b := ROL32 (Z.lxor b c) 7 in
  (a, b, c, d).

Lemma rotl_ok x k : is_u32 x -> 0 < k < 32 -> ROL32 x k = rotl x k /\ is_u32 (rotl x k).
Proof.
  unfold is_u32. intros Hx Hk. unfold ROL32, rotl. rewrite u32_mod, Z.shiftl_mul_pow2, Z.shiftr_div_pow2 by lia.
  assert (E2 : 2 ^ 32 = 2 ^ k * 2 ^ (32 - k)) by (rewrite <- Z.pow_add_r by lia; f_equal; lia).
  pose proof (Z.pow_pos_nonneg 2 k ltac:(lia) ltac:(lia)). pose proof (Z.pow_pos_nonneg 2 (32 - k) ltac:(lia) ltac:(lia)).
  assert (E : (x * 2 ^ k) mod 2 ^ 32 = x mod 2 ^ (32 - k) * 2 ^ k) by (rewrite E2, (Z.mul_comm (2 ^ k) (2 ^ (32 - k))); apply Zmult_mod_distr_r).
  assert (D : 0 <= x / 2 ^ (32 - k) < 2 ^ k) by (split; [apply Z.div_pos; lia|apply Z.div_lt_upper_bound; lia]).
  pose proof (Z.mod_pos_bound x (2 ^ (32 - k)) ltac:(lia)) as M. rewrite E. split; [|nia].
  rewrite Z.lor_comm, <- Z.shiftl_mul_pow2 by lia. rewrite (lor_shiftl k) by lia. rewrite Z.shiftl_mul_pow2 by lia. lia.
Qed.

Lemma quarter_ok a b c d : is_u32 a -> is_u32 b -> is_u32 c -> is_u32 d ->
  code_quarter a b c d = quarter a b c d /\ let '(a, b, c, d) := quarter a b c d in is_u32 a /\ is_u32 b /\ is_u32 c /\ is_u32 d.
Proof.
  intros Ha Hb Hc Hd. unfold code_quarter, quarter. cbv beta zeta. unfold plus. rewrite <- !u32_mod.
  assert (P : forall x y, is_u32 (u32 (x + y))) by (intros; apply u32_range).
  set (a1 := u32 (a + b)). destruct (rotl_ok (Z.lxor d a1) 16) as [-> R1]; [unfold a1; auto with words|lia|]. set (d1 := rotl (Z.lxor d a1) 16) in *.
  set (c1 := u32 (c + d1)). destruct (rotl_ok (Z.lxor b c1) 12) as [-> R2]; [unfold c1; auto with words|lia|]. set (b1 := rotl (Z.lxor b c1) 12) in *.
  set (a2 := u32 (a1 + b1)). destruct (rotl_ok (Z.lxor d1 a2) 8) as [-> R3]; [unfold a2; auto with words|lia|]. set (d2 := rotl (Z.lxor d1 a2) 8) in *.
  set (c2 := u32 (c1 + d2)). destruct (rotl_ok (Z.lxor b1 c2) 7) as [-> R4]; [unfold c2; auto with words|lia|].
  split; [reflexivity|]. unfold a2, c2. auto.
Qed.

Definition words16 (x : list Z) : Prop := length x = 16%nat /\ Forall is_u32 x.

Lemma round_ok x q : words16 x -> In q (columns ++ diagonals) ->
  (let '(i, j, k, l) := q in CC20QR x i j k l) = quarter_round x q /\ words16 (quarter_round x q).
Proof.
  intros [L F] Hq.
  assert (E : let '(i, j, k, l) := q in CC20QR x i j k l =
    let '(a, b, c, d) := code_quarter x.[i] x.[j] x.[k] x.[l] in x.[i <- a].[j <- b].[k <- c].[l <- d]).
  { clear F. do 17 (destruct x as [|? x]; [try discriminate L|]); [|discriminate L].
    cbn [columns diagonals app In] in Hq. repeat (destruct Hq as [<-|Hq]; [cbv [CC20QR code_quarter upd nth]; reflexivity|]). destruct Hq. }
  destruct q as [[[i j] k] l]. unfold quarter_round.
  assert (Fn : forall m, is_u32 x.[m]).
  { intros m. destruct (Nat.lt_ge_cases m (length x)) as [H|H]; [rewrite Forall_forall in F; now apply F, nth_In|].
    rewrite nth_overflow by exact H. unfold is_u32. lia. }
  destruct (quarter_ok x.[i] x.[j] x.[k] x.[l] (Fn i) (Fn j) (Fn k) (Fn l)) as [Eq Rq]. rewrite E, Eq.
  destruct (quarter x.[i] x.[j] x.[k] x.[l]) as [[[a b] c] d]. destruct Rq as (Ra & Rb & Rc & Rd).
  split; [reflexivity|]. split; [now rewrite !length_upd|]. now repeat apply Forall_upd.
Qed.

#[local] Opaque CC20QR quarter.

Lemma rounds_ok l : forall x, words16 x -> incl l (columns ++ diagonals) ->
  fold_left (fun x '(i, j, k, l) => CC20QR x i j k l) l x = fold_left quarter_round l x /\ words16 (fold_left quarter_round l x).
Proof.
  induction l as [|q l IH]; intros x W Hl; [split; [reflexivity|exact W]|]. cbn [fold_left].
  destruct (round_ok x q W (Hl q (or_introl eq_refl))) as [E W']. rewrite E. apply IH; [exact W'|]. intros r Hr. apply Hl. now right.
Qed.

Lemma turn_fold x : chacha_turn x = fold_left (fun x '(i, j, k, l) => CC20QR x i j k l) (columns ++ diagonals) x.
Proof. unfold chacha_turn. generalize CC20QR. reflexivity. Qed.

Lemma turns_ok k x : words16 x -> Nat.iter k chacha_turn x = Nat.iter k inner_block x /\ words16 (Nat.iter k inner_block x).
Proof.
  intros W. induction k as [|k [IH W']]; [split; [reflexivity|exact W]|].
  rewrite (Nat.iter_succ k _ chacha_turn), (Nat.iter_succ k _ inner_block), IH, turn_fold. unfold inner_block at 1 4.
  now apply rounds_ok.
Qed.

Lemma digits_ok w : is_u32 w -> STORE32_LE w = digits w.
Proof.
  intros H. unfold STORE32_LE, digits. cbn [seq map]. change (Z.land ?x 255) with (u8 x). rewrite !u8_mod, !Z.shiftr_div_pow2 by lia. reflexivity.
Qed.

Lemma block_ok x : words16 x -> store_words true (chacha_block x) = block x.
Proof.
  intros W. destruct (turns_ok 10 x W) as [E _]. unfold store_words, chacha_block, block. rewrite E. clear E.
  rewrite flat_map_concat_map, map_map, <- flat_map_concat_map. apply flat_map_ext. intros i. unfold plus. rewrite <- u32_mod.
  apply digits_ok, u32_range.
Qed.

Lemma length_block x : length (block x) = 64%nat.
Proof. reflexivity. Qed.
End Rfc7539.
(** ** The key stream *)

(** The bytes of each word in the other order: a machine with the other byte order. *)
Definition swap_byte (i : nat) : nat := (4 * (i / 4) + (3 - i mod 4))%nat.
Definition swap_words (l : list Z) : list Z := map (fun i => l.[swap_byte i]) (seq 0 (length l)).
Definition host (le : bool) (l : list Z) : list Z := if le then l else swap_words l.

(** Key and nonce from the bytes of the system, as words of the host. *)
Definition prng_key (seed : list Z) : list Z := firstn 32 seed.
Definition prng_nonce (seed : list Z) : list Z := slice seed 36 8 ++ slice seed 32 4.
Definition state_at (le : bool) (seed : list Z) (b : Z) : list Z :=
  Rfc7539.state (prng_key (host le seed)) (prng_nonce (host le seed)) b.
Definition block_at (le : bool) (seed : list Z) (b : Z) : list Z := host le (Rfc7539.block (state_at le seed b)).

(** Byte [p] of the key stream that starts with counter 1 and has [2^32] blocks. *)
Definition stream_byte (le : bool) (seed : list Z) (p : nat) : Z := (block_at le seed (u32 (Z.of_nat (S (p / 64))))).[p mod 64].

Definition is_seed (seed : list Z) : Prop := length seed = 44%nat /\ bytes seed.

Lemma bytes_host le l : bytes l -> bytes (host le l).
Proof. intros H. destruct le; [exact H|]. apply Forall_forall. intros b Hb. apply in_map_iff in Hb as (i & <- & _). now apply bytes_nth. Qed.

Lemma length_host le l : length (host le l) = length l.
Proof. destruct le; [reflexivity|]. cbn [host]. unfold swap_words. now rewrite length_map, length_seq. Qed.

Lemma length_block_at le seed b : length (block_at le seed b) = 64%nat.
Proof. apply length_host. Qed.

Lemma words_of l i k : bytes l -> (4 * i + 4 <= length l)%nat -> k = (4 * i)%nat -> LOAD32_LE l k = Rfc7539.word l i.
Proof. intros B L ->. unfold Rfc7539.word. now rewrite LOAD32_LE_num, slice_4. Qed.

Lemma load_host le seed i : is_seed seed -> (i < 11)%nat -> load_word le seed (4 * i) = Rfc7539.word (host le seed) i.
Proof.
  intros [L B] Hi. rewrite <- (words_of (host le seed) i (4 * i)) by (auto using bytes_host; rewrite ?length_host; lia).
  destruct le; [reflexivity|]. clear B. do 45 (destruct seed as [|? seed]; [try discriminate L|]); [|discriminate L].
  do 11 (destruct i as [|i]; [reflexivity|]). lia.
Qed.

Lemma seed_state le seed p : is_seed seed -> (s p).[0] = 0 ->
  s (prng_seed le seed p) = state_at le seed 0 /\ n (prng_seed le seed p) = 0%nat.
Proof.
  intros S Z0. unfold prng_seed. rewrite Z0. cbn [Z.eqb s n]. split; [|reflexivity].
  rewrite (map_ext_in _ (Rfc7539.word (host le seed))) by (intros i Hi; apply in_seq in Hi; apply load_host; [exact S|lia]).
  unfold state_at. pose proof (length_host le seed) as L. rewrite (proj1 S) in L. clear S. set (h := host le seed) in *. clearbody h.
  do 45 (destruct h as [|? h]; [try discriminate L|]); [|discriminate L]. reflexivity.
Qed.

Lemma state_words le seed b : is_seed seed -> is_u32 b -> Rfc7539.words16 (state_at le seed b).
Proof.
  intros [L B] Hb. pose proof (bytes_host le seed B) as Bh. pose proof (length_host le seed) as Lh. unfold state_at.
  assert (W : forall l i, bytes l -> (4 * i + 4 <= length l)%nat -> is_u32 (Rfc7539.word l i)).
  { intros l i Bl Hl. rewrite <- (words_of l i (4 * i)) by auto. now apply LOAD32_LE_range. }
  split; [reflexivity|]. unfold Rfc7539.state. repeat rewrite Forall_app. split_and.
  - apply Forall_forall. intros w Hw. apply in_map_iff in Hw as (i & <- & Hi). apply in_seq in Hi.
    apply W; [now apply bytesb_bytes|cbn [length Rfc7539.sigma]; lia].
  - apply Forall_forall. intros w Hw. apply in_map_iff in Hw as (i & <- & Hi). apply in_seq in Hi. unfold prng_key.
    apply W; [now apply bytes_firstn|]. rewrite length_firstn. lia.
  - apply Forall_cons; [exact Hb|apply Forall_nil].
  - apply Forall_forall. intros w Hw. apply in_map_iff in Hw as (i & <- & Hi). apply in_seq in Hi. unfold prng_nonce.
    apply W; [apply bytes_app; split; now apply bytes_slice|]. rewrite length_app, !length_slice by lia. lia.
Qed.

Lemma stored le x : Rfc7539.words16 x -> store_words le (chacha_block x) = host le (Rfc7539.block x).
Proof.
  intros W. rewrite <- Rfc7539.block_ok by exact W. destruct le; [reflexivity|]. set (w := chacha_block x).
  assert (L : length w = 16%nat) by reflexivity. clearbody w. clear W.
  do 17 (destruct w as [|? w]; [try discriminate L|]); [|discriminate L]. reflexivity.
Qed.

(** The generator after [B] blocks, of which [n] bytes at the start of the last are left. *)
Definition produced (le : bool) (seed : list Z) (p : sqlite3PrngType) (B : nat) : Prop :=
  s p = state_at le seed (u32 (Z.of_nat B)) /\ (n p <= 64)%nat
  /\ match B with O => n p = 0%nat | S b => out p = block_at le seed (u32 (Z.of_nat B)) end.

Lemma next_state le seed b : (state_at le seed b).[12 <- u32 ((state_at le seed b).[12] + 1)] = state_at le seed (u32 (b + 1)).
Proof. reflexivity. Qed.

Section Stream.
Context (le : bool) (seed : list Z) (Sd : is_seed seed).

Definition refilled (p : sqlite3PrngType) : sqlite3PrngType :=
  let w := (s p).[12 <- u32 ((s p).[12] + 1)] in mkPrng w (store_words le (chacha_block w)) 64.

Lemma next_produced p B : produced le seed p B -> produced le seed (refilled p) (S B).
Proof.
  intros (Es & _ & _). unfold refilled. cbv zeta. rewrite Es, next_state.
  assert (E : u32 (u32 (Z.of_nat B) + 1) = u32 (Z.of_nat (S B))) by (rewrite !u32_mod, Nat2Z.inj_succ, Z.add_mod_idemp_l by lia; f_equal; lia).
  rewrite E. unfold produced. cbn [s n out]. rewrite stored by (apply state_words; [exact Sd|apply u32_range]). split_and; auto.
Qed.

(** The positions of the stream that are left in the block. *)
Lemma block_bytes p b k m : produced le seed p (S b) -> (k + m <= 64)%nat ->
  slice (out p) k m = map (stream_byte le seed) (seq (64 * b + k) m).
Proof.
  intros (_ & _ & Eo) H. rewrite Eo. apply nth_ext with (d := 0) (d' := 0).
  - rewrite length_slice, length_map, length_seq by (rewrite length_block_at; lia). reflexivity.
  - intros i Hi. rewrite length_slice in Hi by (rewrite length_block_at; lia). rewrite nth_slice by lia.
    rewrite (nth_indep (map (stream_byte le seed) (seq (64 * b + k) m)) 0 (stream_byte le seed 0)) by (rewrite length_map, length_seq; lia).
    rewrite map_nth, seq_nth by lia. unfold stream_byte.
    replace ((64 * b + k + i) / 64)%nat with b by (apply Nat.div_unique with (k + i)%nat; lia).
    replace ((64 * b + k + i) mod 64)%nat with (k + i)%nat by (apply Nat.mod_unique with b; lia). reflexivity.
Qed.

(** ** Bytes are used once *)

(** The positions that have not been handed out, and the number of those that have. *)
Definition free (p : sqlite3PrngType) (B x : nat) : Prop := (64 * B - 64 <= x < 64 * B - 64 + n p \/ 64 * B <= x)%nat.

(** A request takes free positions, each once, and leaves the others; no byte is left out. *)
Definition served (p p' : sqlite3PrngType) (B B' N : nat) (ps : list nat) : Prop :=
  produced le seed p' B' /\ NoDup ps /\ length ps = N /\ (forall x, In x ps -> free p B x /\ (x < 64 * B')%nat)
  /\ (forall x, free p' B' x -> free p B x /\ ~ In x ps) /\ (B <= B' /\ 64 * B' + n p = 64 * B + n p' + N)%nat.

Lemma served_part p b k N : produced le seed p (S b) -> (k + N = n p)%nat ->
  served p (mkPrng (s p) (out p) k) (S b) (S b) N (seq (64 * b + k) N).
Proof.
  intros (A & C & D) H. unfold served, produced, free. cbn [s n out]. split_and; auto; try lia; [apply seq_NoDup | apply length_seq | |].
  - intros x Hx. apply in_seq in Hx. lia.
  - intros x Hx. split; [lia|]. rewrite in_seq. lia.
Qed.

Lemma served_app p p1 p2 B B1 B2 N1 N2 ps qs : served p p1 B B1 N1 ps -> served p1 p2 B1 B2 N2 qs ->
  served p p2 B B2 (N1 + N2) (ps ++ qs).
Proof.
  intros (_ & D1 & L1 & F1 & K1 & T1) (P2 & D2 & L2 & F2 & K2 & T2). unfold served. split_and; auto; try lia.
  - apply NoDup_app; auto. intros x Hx Hy. apply F2 in Hy. destruct Hy as [Hy _]. apply K1 in Hy. tauto.
  - rewrite length_app. lia.
  - intros x Hx. apply in_app_or in Hx. destruct Hx as [Hx | Hx]; [destruct (F1 x Hx); split; [assumption|lia]|].
    destruct (F2 x Hx) as [Fx Bx]. split; [apply (K1 x Fx)|exact Bx].
  - intros x Hx. destruct (K2 x Hx) as [Fx Nx]. destruct (K1 x Fx) as [Gx Mx]. split; [exact Gx|]. rewrite in_app_iff. tauto.
Qed.

Lemma served_block p B : produced le seed p B -> n p = 0%nat -> served p (refilled p) B (S B) 0 [].
Proof.
  intros P Hn. split; [exact (next_produced p B P)|]. split_and; auto using NoDup_nil; [intros x []|].
  - intros x Hx. unfold free in *. cbn [refilled n] in Hx. split; [rewrite Hn; lia | intros []].
Qed.

Lemma loop_served fuel : forall N z p B, (1 <= N <= fuel)%nat -> (0 < n p)%nat -> produced le seed p B ->
  exists ps p' B', randomness_loop fuel le N z p = Some (z ++ map (stream_byte le seed) ps, p') /\ served p p' B B' N ps /\ (n p' < 64)%nat.
Proof.
  induction fuel as [|fuel IH]; intros N z p B HN Hn P; [lia|]. cbn [randomness_loop].
  destruct B as [|b]; [destruct P as (_ & _ & P0); lia|]. pose proof P as (_ & H64 & _). destruct (Nat.leb_spec N (n p)) as [Hle|Hlt].
  - exists (seq (64 * b + (n p - N)) N), (mkPrng (s p) (out p) (n p - N)), (S b). cbn [n].
    split; [rewrite (block_bytes p b (n p - N) N P) by lia; reflexivity|]. split; [apply served_part; [exact P | lia]|lia].
  - destruct (Nat.ltb_spec 0 (n p)); [|lia]. set (q := mkPrng (s p) (out p) 0).
    pose proof (served_part p b 0 (n p) P eq_refl) as S1. fold q in S1.
    pose proof (served_block q (S b) (proj1 S1) eq_refl) as S2. cbv zeta.
    change (mkPrng _ _ 64) with (refilled q).
    destruct (IH (N - n p)%nat (z ++ firstn (n p) (out p)) (refilled q) (S (S b)) ltac:(lia) ltac:(cbn; lia) (proj1 S2)) as (ps & p' & B' & E & S3 & Hn').
    exists (seq (64 * b + 0) (n p) ++ ps), p', B'. split; [|split; [|exact Hn']].
    + rewrite E, map_app, <- app_assoc. change (firstn (n p) (out p)) with (slice (out p) 0 (n p)).
      now rewrite (block_bytes p b 0 (n p) P) by lia.
    + replace N with (n p + (0 + (N - n p)))%nat by lia. apply (served_app p q p' (S b) (S b) B'); [exact S1|].
      exact (served_app q _ p' (S b) (S (S b)) B' 0 (N - n p) [] ps S2 S3).
Qed.

Lemma request_served N z p B : (1 <= N)%nat -> produced le seed p B ->
  exists ps p' B', randomness_loop (S N) le N z p = Some (z ++ map (stream_byte le seed) ps, p') /\ served p p' B B' N ps /\ (n p' < 64)%nat.
Proof.
  intros HN P. destruct (Nat.eq_dec (n p) 0) as [Z0|N0]; [|apply loop_served; [lia | lia | exact P]].
  pose proof (served_block p B P Z0) as S1. cbn [randomness_loop]. rewrite Z0. destruct (Nat.leb_spec N 0); [lia|]. cbn [Nat.ltb Nat.leb].
  cbv zeta. change (mkPrng _ _ 64) with (refilled p).
  destruct (loop_served N N z (refilled p) (S B) ltac:(lia) ltac:(cbn; lia) (proj1 S1)) as (ps & p' & B' & E & S2 & Hn'). exists ps, p', B'.
  split; [exact E|]. split; [exact (served_app p _ p' B (S B) B' 0 N [] ps S1 S2)|exact Hn'].
Qed.
End Stream.

(** ** Sequences of requests *)

(** A call: the result of sqlite3_initialize, the bytes the system would give for a seed, the
    number of bytes asked for, and whether there is a buffer. *)
Record Request := mk_request { r_init : Z; r_seed : list Z; r_N : Z; r_buf : bool }.

Fixpoint requests (le : bool) (l : list Request) (p : sqlite3PrngType) : option (list (list Z)) :=
  match l with
  | [] => Some []
  | r :: l =>
      match sqlite3_randomness le (r_init r) (r_seed r) (r_N r) (r_buf r) p with
      | None => None
      | Some (z, p) => option_map (cons z) (requests le l p)
      end
  end.

(** A call returns bytes, or asks for a new seed, or does nothing at all. *)
Definition returns (r : Request) : bool := (r_init r =? 0) && (0 <? r_N r) && r_buf r.
Definition asked (r : Request) : Z := if returns r then r_N r else 0.
Fixpoint total (l : list Request) : Z := match l with [] => 0 | r :: l => asked r + total l end.

(** The seeds that are taken: by the first call that returns bytes, and by the first such call
    after each call that asks for a new seed. *)
Fixpoint seeds (cold : bool) (l : list Request) : list (list Z) :=
  match l with
  | [] => []
  | r :: l =>
      if returns r then if cold then r_seed r :: seeds false l else seeds false l
      else seeds (cold || (r_init r =? 0)) l
  end.

(** Byte [x] of the key stream of seed number [e]. *)
Definition byte_at (le : bool) (sds : list (list Z)) (q : nat * nat) : Z := stream_byte le (nth (fst q) sds []) (snd q).

(** Bytes of different places, as many as were asked for. *)
Definition handed_out (le : bool) (l : list Request) (p : sqlite3PrngType) (sds : list (list Z)) (ps : list (nat * nat)) : Prop :=
  (exists zs, requests le l p = Some zs /\ concat zs = map (byte_at le sds) ps /\ map (fun z => Z.of_nat (length z)) zs = map asked l)
  /\ NoDup ps /\ Forall (fun q => (fst q < length sds)%nat /\ Z.of_nat (snd q) < 2 ^ 38) ps.

Lemma total_nonneg l : 0 <= total l.
Proof.
  induction l as [|r l IH]; cbn [total]; [lia|]. unfold asked, returns. destruct (Z.ltb_spec 0 (r_N r)); rewrite ?andb_false_r; cbn [andb]; [|lia].
  destruct (_ && _); lia.
Qed.

Lemma randomness_silent le r p : returns r = false ->
  exists p', sqlite3_randomness le (r_init r) (r_seed r) (r_N r) (r_buf r) p = Some ([], p') /\
    if r_init r =? 0 then (s p').[0] = 0 else p' = p.
Proof.
  unfold returns, sqlite3_randomness. destruct (r_init r =? 0); cbn [negb andb]; [|eauto].
  intros H. replace ((r_N r <=? 0) || negb (r_buf r)) with true by (rewrite Z.leb_antisym; destruct (0 <? r_N r), (r_buf r); auto; discriminate).
  eexists. split; [reflexivity|]. cbn [s]. now destruct (s p).
Qed.

Lemma randomness_returns le r p : returns r = true -> 0 < r_N r /\
  sqlite3_randomness le (r_init r) (r_seed r) (r_N r) (r_buf r) p =
    randomness_loop (S (Z.to_nat (r_N r))) le (Z.to_nat (r_N r)) [] (prng_seed le (r_seed r) p).
Proof.
  unfold returns, sqlite3_randomness. destruct (r_init r =? 0), (r_buf r); rewrite ?andb_false_r; try discriminate. cbn [negb andb].
  rewrite andb_true_r. intros H. destruct (Z.leb_spec (r_N r) 0); [lia|]. split; [lia|reflexivity].
Qed.

Lemma seeded le sd seed p B : produced le seed p B -> prng_seed le sd p = p.
Proof. intros (E & _). unfold prng_seed. rewrite E. reflexivity. Qed.

(** A call that returns nothing, in front. *)
Lemma handed_silent le r l p p' sds ps : returns r = false ->
  sqlite3_randomness le (r_init r) (r_seed r) (r_N r) (r_buf r) p = Some ([], p') ->
  handed_out le l p' sds ps -> handed_out le (r :: l) p sds ps.
Proof.
  intros R E [(zs & Er & C & L) H]. split; [|exact H]. exists ([] :: zs). cbn [requests]. rewrite E, Er. cbn [option_map concat app map length].
  unfold asked at 1. rewrite R, L. auto.
Qed.

(** A new seed in front of the list. *)
Lemma handed_shift le l p sd sds ps : handed_out le l p sds ps -> handed_out le l p (sd :: sds) (map (fun q => (S (fst q), snd q)) ps).
Proof.
  intros [(zs & Er & C & L) [D F]]. split; [exists zs; rewrite map_map; auto|]. split.
  - apply NoDup_map_NoDup_ForallPairs; [|exact D]. intros [] [] _ _ E. cbn in E. congruence.
  - apply Forall_map. eapply Forall_impl; [|exact F]. cbn. lia.
Qed.

(** A call that returns bytes, in front. *)
Lemma handed_returns le r l p p' seed B B' sds ps qs : returns r = true -> produced le seed p B ->
  randomness_loop (S (Z.to_nat (r_N r))) le (Z.to_nat (r_N r)) [] p = Some (map (stream_byte le seed) ps, p') ->
  served le seed p p' B B' (Z.to_nat (r_N r)) ps -> 64 * Z.of_nat B' <= 2 ^ 38 ->
  handed_out le l p' (seed :: sds) qs -> (forall x, In (0%nat, x) qs -> free p' B' x) ->
  handed_out le (r :: l) p (seed :: sds) (map (pair 0%nat) ps ++ qs) /\ forall x, In (0%nat, x) (map (pair 0%nat) ps ++ qs) -> free p B x.
Proof.
  intros R P E (P' & D & L & F & K & _) Hb [(zs & Er & C & Ls) [Dq Fq]] Kq. destruct (randomness_returns le r p R) as [HN En].
  rewrite (seeded le _ _ _ _ P), E in En.
  assert (In0 : forall x, In (0%nat, x) (map (pair 0%nat) ps) -> In x ps)
    by (intros x Hx; apply in_map_iff in Hx as (y & [= ->] & Hy); exact Hy).
  split.
  - split; [|split].
    + exists (map (stream_byte le seed) ps :: zs). cbn [requests]. rewrite En, Er. cbn [option_map concat map].
      rewrite map_app, map_map, C, length_map, L, Ls, Z2Nat.id by lia. unfold asked at 2. rewrite R. auto.
    + apply NoDup_app; auto; [apply NoDup_map_NoDup_ForallPairs; [|exact D]; intros x y _ _ [= E1]; exact E1|].
      intros [e x] Hx Hy. assert (e = 0%nat) as -> by (apply in_map_iff in Hx as (y & [= <- _] & _); reflexivity).
      apply Kq, K in Hy. now apply Hy, In0.
    + apply Forall_app. split; [|exact Fq]. apply Forall_map, Forall_forall. intros x Hx. cbn [fst snd length]. destruct (F x Hx). lia.
  - intros x Hx. apply in_app_or in Hx as [Hx|Hx]; [now apply F, In0|now apply (K x), Kq].
Qed.

Lemma requests_served le l : Forall (fun r => is_seed (r_seed r)) l ->
  (forall p, (s p).[0] = 0 -> total l <= 2 ^ 38 -> exists ps, handed_out le l p (seeds true l) ps) /\
  (forall seed p B, is_seed seed -> produced le seed p B -> (n p < 64)%nat -> 64 * Z.of_nat B - Z.of_nat (n p) + total l <= 2 ^ 38 ->
    exists ps, handed_out le l p (seed :: seeds false l) ps /\ forall x, In (0%nat, x) ps -> free p B x).
Proof.
  induction 1 as [|r l Sr Sl IH].
  { split; intros; exists []; [|split; [|intros x []]]; (split; [exists []; auto|split; [apply NoDup_nil|apply Forall_nil]]). }
  destruct IH as [IHc IHw]. cbn [total seeds]. pose proof (total_nonneg l) as Tl.
  destruct (returns r) eqn:R.
  - assert (Warm : forall seed p B, is_seed seed -> produced le seed p B -> (n p < 64)%nat ->
      64 * Z.of_nat B - Z.of_nat (n p) + (asked r + total l) <= 2 ^ 38 ->
      exists ps, handed_out le (r :: l) p (seed :: seeds false l) ps /\ forall x, In (0%nat, x) ps -> free p B x).
    { intros seed p B Sd P Hn Ht. destruct (randomness_returns le r p R) as [HN _]. unfold asked in Ht. rewrite R in Ht.
      destruct (request_served le seed Sd (Z.to_nat (r_N r)) [] p B ltac:(lia) P) as (ps & p' & B' & E & S & Hn').
      pose proof S as (P' & _ & _ & _ & _ & HB & T). change (2 ^ 38) with (64 * 2 ^ 32) in *.
      destruct (IHw seed p' B' Sd P' Hn' ltac:(lia)) as (qs & Hq & Kq). exists (map (pair 0%nat) ps ++ qs).
      apply (handed_returns le r l p p' seed B B'); auto. lia. }
    split; [|exact Warm]. intros p Z0 Ht. destruct (seed_state le (r_seed r) p Sr Z0) as [Es En].
    assert (P : produced le (r_seed r) (prng_seed le (r_seed r) p) 0) by (unfold produced; rewrite Es, En; split_and; auto; lia).
    destruct (Warm (r_seed r) (prng_seed le (r_seed r) p) 0%nat Sr P ltac:(lia) ltac:(lia)) as (ps & [(zs & Er & C) H] & _). exists ps. split; [|exact H]. exists zs.
    split; [|exact C]. rewrite <- Er. cbn [requests]. destruct (randomness_returns le r p R) as [_ ->].
    destruct (randomness_returns le r (prng_seed le (r_seed r) p) R) as [_ ->]. now rewrite (seeded le _ _ _ _ P).
  - unfold asked. rewrite R. split.
    + intros p Z0 Ht. destruct (randomness_silent le r p R) as (p' & E & Hp). cbn [orb].
      destruct (IHc p') as [ps Hps]; [destruct (r_init r =? 0); [exact Hp|now subst]|lia|]. exists ps. now apply (handed_silent le r l p p').
    + intros seed p B Sd P Hn Ht. destruct (randomness_silent le r p R) as (p' & E & Hp). cbn [orb]. destruct (r_init r =? 0).
      * assert (Z.of_nat (n p) <= 64 * Z.of_nat B) by (destruct B; [destruct P as (_ & _ & P0)|]; lia).
        destruct (IHc p' Hp ltac:(lia)) as [ps Hps]. eexists. split; [apply (handed_silent le r l p p'); [exact R|exact E|apply handed_shift, Hps]|].
        intros x Hx. apply in_map_iff in Hx as (q & [=] & _).
      * subst p'. destruct (IHw seed p B Sd P Hn ltac:(lia)) as (ps & Hps & K). exists ps. split; [now apply (handed_silent le r l p p)|exact K].
Qed.

(** C27: No byte of a key stream is handed out twice.  From the start, or after a call that asks for a
    new seed, and for calls of any kind in any order (with any lengths, without a buffer, with a
    length of zero or less, or when the library does not start), on machines of either byte order:
    all bytes returned are bytes at different places of the ChaCha20 key streams of RFC 7539 that
    belong to the seeds taken, with counters from 1 on, and each call that has a buffer and a
    positive length returns as many as it asked for; a seed of 44 bytes is taken by the first such
    call and by the first after each call for a new seed, and by no other.  The calls ask for at
    most 2^38 bytes together, for which the counter of 32 bits does not repeat. *)
Theorem randomness_distinct le l p :
  Forall (fun r => is_seed (r_seed r)) l -> (s p).[0] = 0 -> total l <= 2 ^ 38 ->
  exists ps, handed_out le l p (seeds true l) ps.
Proof. intros Sl Z0 Ht. now apply (proj1 (requests_served le l Sl)). Qed.

(** Three calls with one seed, a call for a new seed, and one with the second seed. *)
Lemma randomness_distinct_witness :
  let seed := map Z.of_nat (seq 0 44) in
  let other := map Z.of_nat (seq 100 44) in
  let l := [mk_request 0 seed 3 true; mk_request 0 other 70 true; mk_request 1 other 9 true; mk_request 0 other 5 true;
            mk_request 0 other 4 false; mk_request 0 other 2 true] in
  seeds true l = [seed; other] /\ exists ps, handed_out false l (mkPrng (memset 0 16) (memset 0 64) 0) [seed; other] ps.
Proof.
  intros seed other l. split; [reflexivity|].
  apply (randomness_distinct false l (mkPrng (memset 0 16) (memset 0 64) 0)); [|reflexivity|discriminate].
  repeat (apply Forall_cons; [split; [reflexivity|now apply bytesb_bytes]|]). apply Forall_nil.
Defined.
